(* ===== verification/_CoqProject ===== *)
-Q . S2P
Prelude.v
Lexer.v
Parser.v
Jobs.v
Resume.v
Stages.v
Plumbing.v
Pipeline.v
Relay.v
Execute.v
Dispatch.v
Children.v
Background.v
Peek.v
Hop.v
Proc.v
Sched.v
Table.v
Lifecycle.v
Kernel.v
Wakeup.v
Accounting.v
Fairness.v
Log.v
Sync.v
Pipe.v
KString.v
Disk.v
Balloc.v
Inode.v
Content.v
Rw.v
Trunc.v
Itable.v
Iref.v
Reclaim.v
Dir.v
Path.v
Ram.v
Kalloc.v
Bio.v
Pagetable.v
Vm.v
Space.v
Uvm.v
Uvmfree.v
Uvmcopy.v
Usercopy.v
Sbrk.v
Grep.v
Console.v
Ledger.v
File.v
Sysfile.v
Syspaths.v
Sysrefs.v
Sysinv.v
Filewrite.v
Snoop.v
Mainloop.v
Reveal.v
Activities.v
Spy.v
Shell.v
Shrun.v
Exec.v
Execmem.v
Execspec.v
Umalloc.v
Virtio.v
Spinlock.v
Sleeplock.v
Mkfs.v
Sysexec.v
Kvm.v
Printf.v
