(* ===== verification/Prelude.v ===== *)
(** * A verification of the C-Shell and of the xv6 kernel

    The repository holds two programs.  [c-shell/] is an interactive shell:
    a line is lexed, checked against a grammar, cut into groups and pipelines,
    and run by builtins or by child processes, with job control.  [xv6/] is
    the teaching kernel with three schedulers (round robin, FIFO, multi-level
    feedback queues) and time accounting added to it.

    ** How the code is modelled

    C functions are Rocq functions over explicit state.  Integers are [Z],
    with the wrap-around of their width written where the code can reach it
    (this file, [MachineIntegers]).  C strings are lists of characters.  A
    panic or a failed call is [None], or the error value of the component.
    Loops that are not structural take fuel; every file that uses fuel proves
    that the fuel its callers pass is enough, so that no theorem is about a
    computation that was cut off.  Sources outside of the repository (libc,
    the kernel below the shell, the disk below xv6) are parameters of the
    definitions, and events whose outcome they decide are explicit inputs.

    ** The C-Shell

    - [Lexer]: lexer.c.  The buffers with their growth, the automaton of
      quotes and operators; it is memory safe, ends, computes the reference
      tokens, and reads back what a printer writes.
    - [Parser]: parser.c.  [parse_tokens] accepts exactly the grammar.
    - [Dispatch], [Background], [Children]: d1d2.c.  From a line to its
      commands: [run] either reports a syntax error or runs the script of the
      line in order, each group by the part of the shell it belongs to, up to
      a command that is not found; a background command becomes one job.
    - [Jobs], [Resume]: d1d2.c, resume.c, ping.c.  The job table stays in its
      arrays under any sequence of events and signals, a job is reported once,
      the terminal comes back, signals only go to the shell's own jobs.
    - [Stages], [Plumbing], [Pipeline], [Relay]: c3c4.c, redirection.c.  The
      stages and descriptors of a pipeline: no descriptor leaks on any path,
      every child is put in the group of the job, a child sees exactly the
      descriptors it should, copied output is lost only in the window the code
      leaves open.
    - [Execute]: execute.c.  The search for the executable, the child and the
      parent of a simple command.
    - [Peek], [Hop]: func.c.  Printing files, changing directory with its
      history file.
    - [Mainloop]: main.c, prompt.c.  Reading lines: the shell ends on every
      file and runs exactly its lines that are not too long, as long as it can
      print its prompt.
    - [Reveal], [Snoop], [Activities], [Spy]: reveal.c, snoop.c, activities.c,
      spy.c.  Listing directories (the sorted preorder of the visible tree),
      counting system calls, and printing jobs and open files; what the host
      answers ([readdir], [ptrace], [/proc]) is an argument.

    ** xv6: processes

    - [Proc], [Sched]: proc.c, proc.h, trap.c.  The table, the operations on
      one process, and the three scheduling policies.
    - [Table], [Lifecycle], [Kernel]: fork, exit, wait, kill and the timer as
      events of one machine; the table is well formed in every state reachable
      from boot under every policy.
    - [Wakeup], [Accounting], [Fairness]: no wakeup is lost, the statistics
      of a process are those of an observer of its states and of the clock,
      MLFQ starves no process among CPU-bound ones on one core.

    - [Spinlock], [Sleeplock]: spinlock.c, sleeplock.c.  One access to memory
      at a time: a lock excludes, interrupts are off while one is held and
      restored after, nothing panics.

    ** xv6: storage and memory

    - [Kalloc]: kalloc.c.  Every page is free or owned, once.
    - [Ram], [Pagetable], [Vm]: vm.c, riscv.h.  Memory as bytes and the page
      tables in it.
    - [Space], [Uvm], [Uvmfree], [Uvmcopy], [Usercopy], [Sbrk]: the address
      space a table describes; growing, freeing, copying it and copying
      between it and the kernel, all or nothing and without losing a page;
      growproc and sys_sbrk.
    - [Exec], [Execmem], [Execspec]: exec.c, elf.h.  [kexec] builds the address
      space the file describes with the arguments on its stack, or leaves the
      process as it was.
    - [Sysexec]: syscall.c, sys_exec of sysfile.c.  Arguments are fetched from
      the registers and the memory of the process; [sys_exec] runs exactly the
      request that is there and gives its pages back on every path.
    - [Kvm]: kvmmake of vm.c, proc_mapstacks of proc.c.  The address space of
      the kernel, with its stacks between unmapped pages.
    - [Virtio]: virtio_disk.c.  The driver, in every interleaving with the
      device and its interrupts, is a disk on which every call moves its block
      once.
    - [Bio]: bio.c.  The cache of blocks with the links of its list, which
      are in the order of the releases, is transparent and recycles the least
      recently released buffer.
    - [Log], [Sync]: log.c.  Operations are atomic with respect to crashes at
      any disk write, also in the middle of a commit and during recovery;
      [sys_sync] makes what precedes it durable.
    - [KString]: string.c.
    - [Disk], [Balloc], [Inode], [Content], [Rw], [Trunc]: the lower half of
      fs.c.  Files are arrays of bytes for [readi] and [writei], [itrunc]
      frees exactly the blocks of a file, and no operation touches another
      file.
    - [Itable], [Iref], [Reclaim]: the table of inodes; reference counts are
      exact under any interleaving; mounting frees the orphans.
    - [Dir], [Path]: directories and path names.
    - [Pipe]: pipe.c.  A pipe is a bounded queue of bytes although its
      counters wrap.
    - [Ledger], [File], [Sysfile], [Syspaths], [Sysrefs], [Sysinv]: file.c,
      sysfile.c.  Descriptors, open files and the system calls on them: after
      any sequence of calls, forks and exits the counts of files, inodes and
      pipes are the references there are.
    - [Filewrite]: a write through a descriptor, cut into transactions, is one
      write of the array.
    - [Console]: console.c.  The line discipline of the terminal.
    - [Mkfs]: mkfs.c.  The image is one the kernel accepts, and it reads back
      the files it was made of.

    ** xv6: user programs

    - [Shell], [Shrun]: sh.c.  Parsing commands and the processes they become.
    - [Grep]: grep.c.  The matcher and the lines it selects.
    - [Umalloc]: umalloc.c.  [malloc] and [free].
    - [Printf]: printf.c, and printk.c of the kernel.  Formats and numerals,
      and reading a number back with [atoi].

    ** Atomicity

    In every file but [Spinlock] a region under a spin lock is one step: that
    file proves that the regions exclude each other.  In [Log], [Sync], [Pipe],
    [Console], [Bio], [Virtio], [Wakeup] and [Sleeplock] code that sleeps or
    gives up its lock is cut there and the theorems quantify over the
    interleavings of the pieces; in particular [end_op] is its two lock regions
    with the disk writes of [commit] one by one between them.  Coarser steps,
    which hide interleavings the code allows: an operation on the process
    table is one event of [Kernel], also [kfork] and [kexit], which have
    several lock regions; an operation on the inode table is one event of
    [Iref], also [iput], which releases [itable.lock] while it truncates; and
    a system call on files is one step of [Sysinv], whose transaction does not
    show there.  A sleep lock is a flag whose acquisition waits while it is
    taken ([Sleeplock] proves that this is what it is).

    ** Not modelled

    Assembly ([entry.S], [trampoline.S], [kernelvec.S], [swtch.S], the wrappers
    of riscv.h), the drivers of the serial line and of the interrupt
    controller ([uart.c], [plic.c]) and the boot code ([start.c], [main.c])
    talk to registers of the machine and compute nothing.  Of trap.c the timer
    is modelled ([Sched], [Kernel]); the entry and the exit of the kernel move
    registers.  The table of [syscall.c] and the rest of [sysproc.c] only pass
    arguments to the modelled calls.  [procdump] prints.  [usertests.c],
    [grind.c], [forktest.c], [schedulertest.c] and the like are tests, and
    the small user programs are sequences of system calls.  In the shell the
    set-up of the terminal and of the signals ([initterminal], [buff],
    [reset_child_mask]) is calls to the host.

    ** This file

    Machine integers, lists and C strings that the other files share. *)
From stdpp Require Export base tactics option list strings gmap.
From Stdlib Require Export ZArith Lia Ascii.

Declare Scope c_scope.
Delimit Scope c_scope with c.

(** ** Machine integers

    A C integer is kept as a [Z]; an operation whose result may leave the
    type is followed by the wrap-around of its width. *)
Section MachineIntegers.
Local Open Scope Z_scope.

Definition u8 (x : Z) : Z := x mod 2 ^ 8.
Definition u32 (x : Z) : Z := x mod 2 ^ 32.
Definition u64 (x : Z) : Z := x mod 2 ^ 64.
Definition i32 (x : Z) : Z := (x + 2 ^ 31) mod 2 ^ 32 - 2 ^ 31.
Definition i64 (x : Z) : Z := (x + 2 ^ 63) mod 2 ^ 64 - 2 ^ 63.

Definition in_u32 (x : Z) : Prop := 0 <= x < 2 ^ 32.
Definition in_i32 (x : Z) : Prop := - 2 ^ 31 <= x < 2 ^ 31.

Lemma u32_range x : in_u32 (u32 x).
Proof. apply Z.mod_pos_bound. lia. Qed.

Lemma u32_id x : in_u32 x -> u32 x = x.
Proof. apply Z.mod_small. Qed.

Lemma i32_range x : in_i32 (i32 x).
Proof.
  unfold in_i32, i32. pose proof (Z.mod_pos_bound (x + 2 ^ 31) (2 ^ 32) ltac:(lia)). lia.
Qed.

Lemma i32_id x : in_i32 x -> i32 x = x.
Proof. intros [? ?]. unfold i32. rewrite Z.mod_small by lia. lia. Qed.
End MachineIntegers.

(** ** C strings

    A NUL-terminated string is the list of the characters before its
    terminator; reading at or past the end yields NUL. *)
Abbreviation cstr := (list ascii).

Definition NUL : ascii := Ascii.zero.
Definition str (s : string) : cstr := String.list_ascii_of_string s.
Definition char_at (s : cstr) (i : nat) : ascii := nth i s NUL.
Definition TAB : ascii := "009"%char.
Definition LF : ascii := "010"%char.
Definition CR : ascii := "013"%char.
Definition DQ : ascii := "034"%char.
Definition BSL : ascii := "092"%char.

#[export] Instance ascii_eq_dec : EqDecision ascii := Ascii.ascii_dec.

Definition ceq (a b : ascii) : bool := Ascii.eqb a b.
Infix "=c" := ceq (at level 70, no associativity) : c_scope.

Lemma ceq_spec a b : reflect (a = b) (ceq a b).
Proof. apply Ascii.eqb_spec. Qed.

Lemma ceq_refl a : ceq a a = true.
Proof. apply Ascii.eqb_refl. Qed.

Lemma ceq_neq a b : a <> b -> ceq a b = false.
Proof. intros H. destruct (ceq_spec a b); congruence. Qed.

(** Code of a character, as [unsigned char]. *)
Definition code (c : ascii) : Z := Z.of_N (N_of_ascii c).

Lemma code_range c : (0 <= code c < 256)%Z.
Proof. unfold code. pose proof (N_ascii_bounded c). lia. Qed.

Lemma code_inj a b : code a = code b -> a = b.
Proof. unfold code. intros E%N2Z.inj. rewrite <- (ascii_N_embedding a), E. apply ascii_N_embedding. Qed.

(** [strcmp(s,t) == 0]. *)
Definition streq (s t : cstr) : bool := bool_decide (s = t).

Lemma streq_spec s t : reflect (s = t) (streq s t).
Proof. unfold streq. destruct (decide (s = t)); [rewrite bool_decide_true | rewrite bool_decide_false]; auto; constructor; auto. Qed.

(** The sign of [strcmp]: comparison of unsigned bytes, the terminator
    being smaller than every other byte. *)
Fixpoint strcmp (s t : cstr) : comparison :=
  match s, t with
  | [], [] => Eq
  | [], _ => Lt
  | _, [] => Gt
  | a :: s', b :: t' =>
      match Z.compare (code a) (code b) with
      | Eq => strcmp s' t'
      | o => o
      end
  end.

(** ** Automation *)

(** Case analysis on the boolean tests of the model. *)
Ltac bool_cases :=
  repeat match goal with
  | |- context [Z.eqb ?a ?b] => destruct (Z.eqb_spec a b)
  | |- context [Z.ltb ?a ?b] => destruct (Z.ltb_spec a b)
  | |- context [Z.leb ?a ?b] => destruct (Z.leb_spec a b)
  | |- context [Nat.eqb ?a ?b] => destruct (Nat.eqb_spec a b)
  | |- context [Nat.ltb ?a ?b] => destruct (Nat.ltb_spec a b)
  | |- context [Nat.leb ?a ?b] => destruct (Nat.leb_spec a b)
  | |- context [ceq ?a ?b] => destruct (ceq_spec a b)
  end.

Create Rewrite HintDb clists.
#[export] Hint Rewrite @length_app @length_insert @length_fmap @length_take @length_drop
  @length_replicate : clists.

Ltac len := autorewrite with clists; simpl; try lia.

(** ** Lists updated by index *)
Section Lists.
Context {A : Type}.
Implicit Types (l : list A) (x y : A).

Lemma take_insert_next l n x :
  n < length l -> take (S n) (<[n := x]> l) = take n l ++ [x].
Proof.
  intros Hn. rewrite (take_S_r _ _ x) by (by apply list_lookup_insert_eq).
  by rewrite take_insert_ge by lia.
Qed.

Lemma elem_of_concat x (ls : list (list A)) : x ∈ concat ls <-> exists l, x ∈ l /\ l ∈ ls.
Proof.
  rewrite list_elem_of_In, in_concat. setoid_rewrite list_elem_of_In. split; intros (l & ? & ?); eauto.
Qed.

(** The first index satisfying a test, as a C scan with [break]. *)
Fixpoint find_index (f : A -> bool) (l : list A) : option nat :=
  match l with
  | [] => None
  | x :: l' => if f x then Some 0 else S <$> find_index f l'
  end.

Lemma find_index_Some f l i :
  find_index f l = Some i <->
  (exists x, l !! i = Some x /\ f x = true) /\
  (forall j y, j < i -> l !! j = Some y -> f y = false).
Proof.
  revert i. induction l as [|a l IH]; intros i; simpl.
  { split; [discriminate | intros [(x & H & _) _]; by rewrite lookup_nil in H]. }
  destruct (f a) eqn:E.
  - split.
    + intros [= <-]. split; [eauto | lia].
    + intros [(x & Hx & Hf) Hl]. destruct i; [done|].
      by rewrite (Hl 0 a) in E by (lia || done).
  - rewrite fmap_Some. split.
    + intros (k & Hk & ->). apply IH in Hk as [(x & Hx & Hf) Hl].
      split; [eauto|]. intros [|j] y Hj Hy; simplify_eq/=; auto.
      apply (Hl j); auto; lia.
    + intros [(x & Hx & Hf) Hl]. destruct i as [|i]; simplify_eq/=; [congruence|].
      exists i. split; [|done]. apply IH. split; [eauto|].
      intros j y Hj Hy. apply (Hl (S j)); simpl; auto; lia.
Qed.

Lemma find_index_None f l :
  find_index f l = None <-> forall x, x ∈ l -> f x = false.
Proof.
  induction l as [|a l IH]; simpl.
  { split; [intros _ x H; by apply elem_of_nil in H | done]. }
  destruct (f a) eqn:E.
  - split; [discriminate|]. intros H. rewrite H in E by set_solver. done.
  - rewrite fmap_None, IH. split.
    + intros H x [->|]%elem_of_cons; auto.
    + intros H x Hx. apply H. set_solver.
Qed.
End Lists.

(** ** Runs of bytes *)

(** The [n] bytes of a memory from offset [o], and their replacement. *)
Definition bytes_at (o n : nat) (x : list ascii) : list ascii := take n (drop o x).
Definition splice (o : nat) (bs : list ascii) (x : list ascii) : list ascii := take o x ++ bs ++ drop (o + length bs) x.

Lemma length_splice o bs x : (o + length bs <= length x)%nat -> length (splice o bs x) = length x.
Proof. intros H. unfold splice. rewrite !length_app, length_take, length_drop. lia. Qed.

Lemma splice_lookup o bs x i : (o + length bs <= length x)%nat ->
  splice o bs x !! i = if (o <=? i)%nat && (i <? o + length bs)%nat then bs !! (i - o)%nat else x !! i.
Proof.
  intros H. unfold splice. destruct (Nat.leb_spec o i) as [H1|H1]; simpl.
  - rewrite lookup_app_r by (rewrite length_take; lia). rewrite length_take, Nat.min_l by lia.
    destruct (Nat.ltb_spec i (o + length bs)) as [H2|H2].
    + by rewrite lookup_app_l by lia.
    + rewrite lookup_app_r by lia. rewrite lookup_drop. f_equal. lia.
  - rewrite lookup_app_l by (rewrite length_take; lia). by rewrite lookup_take_lt.
Qed.

Lemma bytes_at_lookup o n x i : bytes_at o n x !! i = if (i <? n)%nat then x !! (o + i)%nat else None.
Proof.
  unfold bytes_at. destruct (Nat.ltb_spec i n) as [H|H].
  - by rewrite lookup_take_lt, lookup_drop.
  - by rewrite lookup_take_ge.
Qed.

Lemma length_bytes_at o n x : (o + n <= length x)%nat -> length (bytes_at o n x) = n.
Proof. intros H. unfold bytes_at. rewrite length_take, length_drop. lia. Qed.

(** Reading back what was stored, or something it does not overlap. *)
Lemma bytes_at_splice_same o bs x : (o + length bs <= length x)%nat -> bytes_at o (length bs) (splice o bs x) = bs.
Proof.
  intros H. apply list_eq. intros i. rewrite bytes_at_lookup. destruct (Nat.ltb_spec i (length bs)) as [Hi|Hi].
  - rewrite splice_lookup by done. replace (o <=? o + i)%nat with true by (symmetry; apply Nat.leb_le; lia).
    replace (o + i <? o + length bs)%nat with true by (symmetry; apply Nat.ltb_lt; lia). simpl. f_equal. lia.
  - symmetry. by apply lookup_ge_None_2.
Qed.

Lemma bytes_at_splice_other o bs x o' n :
  (o + length bs <= length x)%nat -> (o' + n <= o \/ o + length bs <= o')%nat ->
  bytes_at o' n (splice o bs x) = bytes_at o' n x.
Proof.
  intros H Hd. apply list_eq. intros i. rewrite !bytes_at_lookup. destruct (Nat.ltb_spec i n) as [Hi|Hi]; [|done].
  rewrite splice_lookup by done.
  destruct (Nat.leb_spec o (o' + i)); destruct (Nat.ltb_spec (o' + i) (o + length bs)); simpl; try done; lia.
Qed.

(** ** Scanning an array for its best element

    The C idiom "remember the best slot so far, replace it only when the new
    one is strictly better": the winner has the smallest key, and is the first
    slot with that key.  Keys are pairs, compared lexicographically. *)
Definition klt (a b : Z * Z) : bool :=
  ((a.1 <? b.1) || ((a.1 =? b.1) && (a.2 <? b.2)))%Z.

Lemma klt_true a b :
  klt a b = true <-> (a.1 < b.1 \/ (a.1 = b.1 /\ a.2 < b.2))%Z.
Proof. unfold klt. rewrite orb_true_iff, andb_true_iff, !Z.ltb_lt, Z.eqb_eq. done. Qed.

Lemma klt_false a b :
  klt a b = false <-> (b.1 < a.1 \/ (b.1 = a.1 /\ b.2 <= a.2))%Z.
Proof.
  rewrite <- not_true_iff_false, klt_true. lia.
Qed.

Section Scan.
Context {A : Type} (sel : A -> bool) (key : A -> Z * Z).

Fixpoint pick (i : nat) (l : list A) (best : option (nat * A)) : option (nat * A) :=
  match l with
  | [] => best
  | x :: l' =>
      let better := match best with None => true | Some (_, b) => klt (key x) (key b) end in
      pick (S i) l' (if sel x && better then Some (i, x) else best)
  end.

(** [x] at index [n] beats the selected elements of [l], which starts at
    index [i]: none is smaller, and those before [n] are larger. *)
Definition beats (i : nat) (l : list A) (n : nat) (x : A) : Prop :=
  forall j y, l !! j = Some y -> sel y = true ->
    klt (key y) (key x) = false /\ (i + j < n -> klt (key x) (key y) = true).

Lemma beats_cons i y l n x :
  beats i (y :: l) n x <->
  (sel y = true -> klt (key y) (key x) = false /\ (i < n -> klt (key x) (key y) = true)) /\
  beats (S i) l n x.
Proof.
  unfold beats. split.
  - intros H. split.
    + intros Hy. destruct (H 0 y) as [H1 H2]; auto. split; [done|]. intros. apply H2. lia.
    + intros j z Hz Hs. destruct (H (S j) z) as [H1 H2]; auto. split; [done|]. intros. apply H2. lia.
  - intros [H1 H2] [|j] z Hz Hs; simplify_eq/=.
    + destruct (H1 Hs) as [? H3]. split; [done|]. intros. apply H3. lia.
    + destruct (H2 j z) as [? H3]; auto. split; [done|]. intros. apply H3. lia.
Qed.

Lemma pick_spec l : forall i best,
  (forall n b, best = Some (n, b) -> n < i) ->
  match pick i l best with
  | None => best = None /\ forall x, x ∈ l -> sel x = false
  | Some (n, x) =>
      (best = Some (n, x) \/ (i <= n /\ l !! (n - i) = Some x /\ sel x = true)) /\
      beats i l n x /\
      (forall m b, best = Some (m, b) -> (m, b) = (n, x) \/ klt (key x) (key b) = true)
  end.
Proof.
  induction l as [|y l IH]; intros i best Hb; cbn [pick].
  { destruct best as [[n x]|].
    - split_and!; [by left | intros j y Hj; by rewrite lookup_nil in Hj | intros m b [= -> ->]; by left].
    - split; [done|]. intros x Hx. by apply elem_of_nil in Hx. }
  set (better := match best with None => true | Some (_, b) => klt (key y) (key b) end).
  specialize (IH (S i) (if sel y && better then Some (i, y) else best)).
  assert (Hpre : forall n b, (if sel y && better then Some (i, y) else best) = Some (n, b) -> n < S i).
  { intros n b. destruct (sel y && better); [intros [= <- _]; lia|]. intros H%Hb. lia. }
  specialize (IH Hpre). destruct (pick _ _ _) as [[n x]|].
  - destruct IH as (Horig & Hbeats & Hbest).
    assert (Hn : i < n -> sel y = true -> klt (key x) (key y) = true).
    { intros Hin Hy. rewrite Hy in *. simpl in *. destruct better eqn:Eb.
      - destruct (Hbest i y eq_refl) as [[= <- <-]|H]; [lia | done].
      - unfold better in Eb. destruct best as [[m b]|]; [|done].
        destruct (Hbest m b eq_refl) as [[= <- <-]|H].
        + specialize (Hb _ _ eq_refl). lia.
        + rewrite klt_true in *. rewrite klt_false in Eb. lia. }
    destruct (sel y && better) eqn:Esb.
    + apply andb_true_iff in Esb as [Hy Eb]. split_and!.
      * right. destruct Horig as [[= <- <-]|(Hle & Hx & Hs)].
        -- rewrite Nat.sub_diag. simpl. split_and!; auto.
        -- replace (n - i) with (S (n - S i)) by lia. simpl. split_and!; auto; lia.
      * apply beats_cons. split; [|done]. intros _.
        destruct (Hbest i y eq_refl) as [[= <- <-]|H].
        -- split; [apply klt_false; lia | lia].
        -- split; [rewrite klt_true in H; apply klt_false; lia | done].
      * intros m b ->. right. unfold better in Eb. specialize (Hb _ _ eq_refl).
        destruct (Hbest i y eq_refl) as [[= <- <-]|H]; [done|]. rewrite klt_true in *. lia.
    + split_and!.
      * destruct Horig as [->|(Hle & Hx & Hs)]; [by left|]. right.
        replace (n - i) with (S (n - S i)) by lia. simpl. split_and!; auto; lia.
      * apply beats_cons. split; [|done]. intros Hy. split; [|by auto].
        rewrite Hy in Esb. simpl in Esb. unfold better in Esb.
        destruct best as [[m b]|]; [|done].
        destruct (Hbest m b eq_refl) as [[= <- <-]|H]; [done|].
        rewrite klt_true in H. rewrite klt_false in *. lia.
      * done.
  - destruct IH as [Hnone Hl]. destruct (sel y && better) eqn:Esb; [done|]. subst best.
    split; [done|]. simpl in *. intros x [->|Hx]%elem_of_cons; [|auto].
    by rewrite andb_true_r in Esb.
Qed.
End Scan.
