(* ===== verification/Lexer.v ===== *)
(** * The C-Shell lexer (c-shell/src/lexer.c)

    The growable word buffer and token list of [lexer.c] with their
    capacities, the scanner [lex_line] over the suffix [line+i], and a
    reference automaton that reads one character at a time.  [None] is
    undefined behaviour: a store outside an allocated block.  Allocation may
    fail: [alloc_ok k] says whether the [k]-th request of the run succeeds. *)
From S2P Require Import Prelude.
Local Open Scope c_scope.

Inductive TokenType :=
  | TOKEN_WORD
  | TOKEN_OP_PIPE
  | TOKEN_OP_AMP
  | TOKEN_OP_SEMI
  | TOKEN_OP_LT
  | TOKEN_OP_GT
  | TOKEN_OP_GTGT.

#[export] Instance TokenType_eq_dec : EqDecision TokenType.
Proof. solve_decision. Defined.

Record Token := mkToken { type : TokenType; text : cstr }.

#[export] Instance Token_eq_dec : EqDecision Token.
Proof. solve_decision. Defined.

(** The first [count] slots of the array [items]; [capacity] slots are
    allocated. *)
Record TokenList := mkTokenList { items : list Token; capacity : nat }.

Definition count (ts : TokenList) : nat := length (items ts).

(** [data] is the allocated block, [None] for the null pointer. *)
Record WordBuffer := mkWordBuffer { data : option (list ascii); len : nat; cap : nat }.

Definition word0 : WordBuffer := mkWordBuffer None 0 0.

Definition is_space (c : ascii) : bool := (c =c " ") || (c =c TAB) || (c =c LF) || (c =c CR).

Definition is_special (c : ascii) : bool :=
  (c =c "|") || (c =c "&") || (c =c ";") || (c =c "<") || (c =c ">").

Definition free_word (word : WordBuffer) : WordBuffer := mkWordBuffer None 0 0.

Definition token_list_init : TokenList := mkTokenList [] 0.

Definition token_list_destroy (tokens : TokenList) : TokenList := mkTokenList [] 0.

Definition token_type_name (t : TokenType) : string :=
  match t with
  | TOKEN_WORD => "WORD"
  | TOKEN_OP_PIPE => "OP_PIPE"
  | TOKEN_OP_AMP => "OP_AMP"
  | TOKEN_OP_SEMI => "OP_SEMI"
  | TOKEN_OP_LT => "OP_LT"
  | TOKEN_OP_GT => "OP_GT"
  | TOKEN_OP_GTGT => "OP_GTGT"
  end.

(** The state of [lex_line]: number of allocation requests so far, the
    caller's token list, the word buffer and the flag [has_word]. *)
Record lexer := mkLexer
  { requests : nat; tokens : TokenList; word : WordBuffer; has_word : bool }.

Definition set_tokens (r : nat) (ts : TokenList) (st : lexer) : lexer :=
  mkLexer r ts (word st) (has_word st).
Definition set_word (r : nat) (w : WordBuffer) (st : lexer) : lexer :=
  mkLexer r (tokens st) w (has_word st).
Definition set_has_word (b : bool) (st : lexer) : lexer :=
  mkLexer (requests st) (tokens st) (word st) b.

(** Where the scanner stands: still scanning at a suffix, or returned. *)
Inductive progress :=
  | Scan (rest : cstr) (st : lexer)
  | Return (status : Z) (st : lexer).

Section Lexing.
Context (alloc_ok : nat -> bool) (junk : ascii).

(** [realloc]: the old contents, then uninitialised bytes. *)
Definition realloc_bytes (old : option (list ascii)) (n : nat) : list ascii :=
  let d := default [] old in d ++ replicate (n - length d) junk.

Definition add_char (r : nat) (w : WordBuffer) (c : ascii) : option (Z * nat * WordBuffer) :=
  let grown :=
    if len w =? cap w then
      let new_cap := if cap w =? 0 then 16 else cap w * 2 in
      if alloc_ok r
      then (S r, Some (mkWordBuffer (Some (realloc_bytes (data w) new_cap)) (len w) new_cap))
      else (S r, None)
    else (r, Some w) in
  match grown with
  | (r', None) => Some (-1, r', w)%Z
  | (r', Some w') =>
      match data w' with
      | Some d =>
          if len w' <? length d
          then Some (0, r', mkWordBuffer (Some (<[len w' := c]> d)) (S (len w')) (cap w'))%Z
          else None
      | None => None
      end
  end.

Definition token_list_push (r : nat) (ts : TokenList) (ty : TokenType) (txt : cstr)
    (text_length : nat) : option (Z * nat * TokenList) :=
  let grown :=
    if count ts =? capacity ts then
      let new_cap := if capacity ts =? 0 then 8 else capacity ts * 2 in
      if alloc_ok r then (S r, Some (mkTokenList (items ts) new_cap)) else (S r, None)
    else (r, Some ts) in
  match grown with
  | (r', None) => Some (-1, r', ts)%Z
  | (r', Some ts') =>
      if negb (alloc_ok r') then Some (-1, S r', ts')%Z
      else if (text_length <=? length txt) && (count ts' <? capacity ts') then
        Some (0, S r', mkTokenList (items ts' ++ [mkToken ty (take text_length txt)])
                         (capacity ts'))%Z
      else None
  end.

Definition save_word (st : lexer) : option (Z * lexer) :=
  if negb (has_word st) then Some (0, st)%Z
  else
    pushed ← (match data (word st) with
              | None => token_list_push (requests st) (tokens st) TOKEN_WORD [] 0
              | Some d => token_list_push (requests st) (tokens st) TOKEN_WORD d (len (word st))
              end);
    let '(status, r, ts) := pushed in
    if (status =? 0)%Z
    then Some (0, mkLexer r ts (mkWordBuffer (data (word st)) 0 (cap (word st))) false)%Z
    else Some (-1, set_tokens r ts st)%Z.

(** Every error path of [lex_line] frees the word and returns -1. *)
Definition fail (st : lexer) : progress :=
  Return (-1) (set_word (requests st) (free_word (word st)) st).

(** [add_char(&word,c)!=0] leads to the error path, otherwise continue. *)
Definition put (st : lexer) (c : ascii) (k : lexer -> option progress) : option progress :=
  added ← add_char (requests st) (word st) c;
  let '(status, r, w) := added in
  let st' := set_word r w st in
  if (status =? 0)%Z then k st' else Some (fail st').

(** The loop over the characters between single quotes. *)
Fixpoint squote (rest : cstr) (st : lexer) : option progress :=
  match rest with
  | [] => Some (fail st)
  | c :: rest' =>
      if c =c "'" then Some (Scan rest' st)
      else put st c (squote rest')
  end.

(** The loop over the characters between double quotes. *)
Fixpoint dquote (rest : cstr) (st : lexer) : option progress :=
  match rest with
  | [] => Some (fail st)
  | c :: rest' =>
      if c =c DQ then Some (Scan rest' st)
      else if c =c BSL then
        match rest' with
        | [] => Some (fail st)
        | c2 :: rest2 =>
            if negb (c2 =c DQ) && negb (c2 =c BSL)
            then put st BSL (fun st1 => put st1 c2 (dquote rest2))
            else put st c2 (dquote rest2)
        end
      else put st c (dquote rest')
  end.

(** The operator token at the head of the suffix and its length. *)
Definition operator (c : ascii) (rest' : cstr) : TokenType * nat :=
  if c =c "|" then (TOKEN_OP_PIPE, 1)
  else if c =c "&" then (TOKEN_OP_AMP, 1)
  else if c =c ";" then (TOKEN_OP_SEMI, 1)
  else if c =c "<" then (TOKEN_OP_LT, 1)
  else if c =c ">" then
    if char_at rest' 0 =c ">" then (TOKEN_OP_GTGT, 2) else (TOKEN_OP_GT, 1)
  else (TOKEN_WORD, 1).

(** One turn of the main loop, at the non-empty suffix [c :: rest']. *)
Definition lex_step (c : ascii) (rest' : cstr) (st : lexer) : option progress :=
  if is_space c then
    saved ← save_word st;
    let '(status, st') := saved in
    Some (if (status =? 0)%Z then Scan rest' st' else fail st')
  else if is_special c then
    saved ← save_word st;
    let '(status, st') := saved in
    if negb (status =? 0)%Z then Some (fail st')
    else
      let '(ty, op_len) := operator c rest' in
      pushed ← token_list_push (requests st') (tokens st') ty (c :: rest') op_len;
      let '(status2, r, ts) := pushed in
      let st2 := set_tokens r ts st' in
      Some (if (status2 =? 0)%Z then Scan (drop op_len (c :: rest')) st2 else fail st2)
  else
    let st1 := set_has_word true st in
    if c =c BSL then
      match rest' with
      | [] => Some (fail st1)
      | c2 :: rest2 => put st1 c2 (fun st2 => Some (Scan rest2 st2))
      end
    else if c =c "'" then squote rest' st1
    else if c =c DQ then dquote rest' st1
    else put st1 c (fun st2 => Some (Scan rest' st2)).

(** The main loop; every turn consumes a character, so the length of the
    suffix bounds the number of turns. *)
Fixpoint lex_loop (fuel : nat) (rest : cstr) (st : lexer) : option progress :=
  match rest with
  | [] =>
      saved ← save_word st;
      let '(status, st') := saved in
      Some (if (status =? 0)%Z
            then Return 0 (set_word (requests st') (free_word (word st')) st')
            else fail st')
  | c :: rest' =>
      match fuel with
      | 0 => Some (Scan rest st)
      | S fuel' =>
          p ← lex_step c rest' st;
          match p with
          | Scan rest2 st2 => lex_loop fuel' rest2 st2
          | Return _ _ => Some p
          end
      end
  end.

Definition lex_line (line : cstr) (r : nat) (ts : TokenList) : option progress :=
  lex_loop (length line) line (mkLexer r ts word0 false).
End Lexing.

(** ** Reference: a one-character-at-a-time automaton

    [Gt] is the state just after a [>] whose operator is not decided yet. *)
Inductive mode := Normal | Esc | Sq | Dq | DqEsc | Gt.

Record auto := mkAuto { rmode : mode; cur : option cstr; out : list Token }.

Definition WORD (w : cstr) : Token := mkToken TOKEN_WORD w.

Definition flush (s : auto) : list Token :=
  match cur s with Some w => out s ++ [WORD w] | None => out s end.

Definition app_cur (m : mode) (w : cstr) (s : auto) : auto :=
  mkAuto m (Some (default [] (cur s) ++ w)) (out s).

Definition push_op (t : Token) (s : auto) : auto := mkAuto Normal None (flush s ++ [t]).

Definition normal_step (s : auto) (c : ascii) : auto :=
  if is_space c then mkAuto Normal None (flush s)
  else if c =c "|" then push_op (mkToken TOKEN_OP_PIPE (str "|")) s
  else if c =c "&" then push_op (mkToken TOKEN_OP_AMP (str "&")) s
  else if c =c ";" then push_op (mkToken TOKEN_OP_SEMI (str ";")) s
  else if c =c "<" then push_op (mkToken TOKEN_OP_LT (str "<")) s
  else if c =c ">" then mkAuto Gt None (flush s)
  else if c =c BSL then app_cur Esc [] s
  else if c =c "'" then app_cur Sq [] s
  else if c =c DQ then app_cur Dq [] s
  else app_cur Normal [c] s.

Definition GT_token : Token := mkToken TOKEN_OP_GT (str ">").
Definition GTGT_token : Token := mkToken TOKEN_OP_GTGT (str ">>").

Definition ref_step (s : auto) (c : ascii) : auto :=
  match rmode s with
  | Normal => normal_step s c
  | Gt => if c =c ">" then mkAuto Normal None (out s ++ [GTGT_token])
          else normal_step (mkAuto Normal None (out s ++ [GT_token])) c
  | Esc => app_cur Normal [c] s
  | Sq => if c =c "'" then app_cur Normal [] s else app_cur Sq [c] s
  | Dq => if c =c DQ then app_cur Normal [] s
          else if c =c BSL then app_cur DqEsc [] s else app_cur Dq [c] s
  | DqEsc => if (c =c DQ) || (c =c BSL) then app_cur Dq [c] s else app_cur Dq [BSL; c] s
  end.

Definition ref_final (s : auto) : option (list Token) :=
  match rmode s with
  | Normal => Some (flush s)
  | Gt => Some (out s ++ [GT_token])
  | _ => None
  end.

Definition ref_start (ts : list Token) : auto := mkAuto Normal None ts.

(** The tokens of a line, or [None] for an open quote or a trailing escape. *)
Definition ref_lex (line : cstr) : option (list Token) :=
  ref_final (foldl ref_step (ref_start []) line).

(** ** The scanner implements the automaton *)
Section Correctness.
Context (alloc_ok : nat -> bool) (junk : ascii).

Definition chars (w : WordBuffer) : cstr := take (len w) (default [] (data w)).

Definition wf_word (w : WordBuffer) : Prop :=
  length (default [] (data w)) = cap w /\ len w <= cap w /\
  (data w = None <-> cap w = 0).

Definition wf_tokens (ts : TokenList) : Prop := count ts <= capacity ts.

(** Some allocation among the requests [r0 .. r1-1] was refused. *)
Definition refused (r0 r1 : nat) : Prop := exists k, r0 <= k < r1 /\ alloc_ok k = false.

Lemma refused_mono r0 r0' r1 r1' : refused r0 r1 -> r0' <= r0 -> r1 <= r1' -> refused r0' r1'.
Proof. intros (k & ? & ?) ? ?. exists k. split; [lia | done]. Qed.

Lemma add_char_spec r w c :
  wf_word w ->
  exists status r' w', add_char alloc_ok junk r w c = Some (status, r', w') /\ r <= r' /\
    ((status = 0%Z /\ wf_word w' /\ chars w' = chars w ++ [c]) \/
     (status = (-1)%Z /\ refused r r')).
Proof.
  intros (Hlen & Hle & Hnull). unfold add_char.
  destruct (Nat.eqb_spec (len w) (cap w)) as [Hfull|Hroom].
  - destruct (alloc_ok r) eqn:Hok.
    + simpl. set (n := if cap w =? 0 then 16 else cap w * 2).
      assert (Hn : cap w < n) by (unfold n; destruct (Nat.eqb_spec (cap w) 0); lia).
      assert (Hl : length (realloc_bytes junk (data w) n) = n).
      { unfold realloc_bytes. len. }
      rewrite Hl. destruct (Nat.ltb_spec (len w) n); [|lia].
      eexists _, _, _. split; [reflexivity|]. split; [lia|]. left. split; [done|].
      split.
      * unfold wf_word; simpl. rewrite length_insert, Hl. split_and!; try lia.
        split; [discriminate | lia].
      * unfold chars; simpl. rewrite take_insert_next by lia. f_equal.
        unfold realloc_bytes. rewrite take_app_le by lia. done.
    + eexists _, _, _. split; [reflexivity|]. split; [lia|]. right. split; [done|].
      exists r. split; [lia | done].
  - destruct (data w) as [d|] eqn:Hd; simpl in *; [|naive_solver lia].
    rewrite Hlen. destruct (Nat.ltb_spec (len w) (cap w)); [|lia].
    eexists _, _, _. split; [reflexivity|]. split; [lia|]. left. split; [done|].
    split.
    + unfold wf_word; simpl. rewrite length_insert. split_and!; try lia.
      split; [discriminate | lia].
    + unfold chars; simpl. rewrite Hd; simpl. apply take_insert_next. lia.
Qed.

Lemma push_spec r ts ty txt n :
  wf_tokens ts -> n <= length txt ->
  exists status r' ts', token_list_push alloc_ok r ts ty txt n = Some (status, r', ts') /\
    r <= r' /\ wf_tokens ts' /\
    ((status = 0%Z /\ items ts' = items ts ++ [mkToken ty (take n txt)]) \/
     (status = (-1)%Z /\ refused r r')).
Proof.
  intros Hwf Hn. unfold token_list_push, wf_tokens, count in *.
  assert (Hpush : forall r0 ts0, r <= r0 -> items ts0 = items ts ->
    length (items ts0) < capacity ts0 ->
    exists status r' ts',
      (if negb (alloc_ok r0) then Some (-1, S r0, ts0)%Z
       else if (n <=? length txt) && (length (items ts0) <? capacity ts0)
            then Some (0, S r0, mkTokenList (items ts0 ++ [mkToken ty (take n txt)]) (capacity ts0))%Z
            else None) = Some (status, r', ts') /\ r <= r' /\ length (items ts') <= capacity ts' /\
      ((status = 0%Z /\ items ts' = items ts ++ [mkToken ty (take n txt)]) \/
       (status = (-1)%Z /\ refused r r'))).
  { intros r0 ts0 Hr Hi Hroom. destruct (alloc_ok r0) eqn:Hok; simpl.
    - destruct (Nat.leb_spec n (length txt)); [|lia].
      destruct (Nat.ltb_spec (length (items ts0)) (capacity ts0)); [|lia].
      eexists _, _, _. split; [reflexivity|]. split; [lia|]. simpl.
      rewrite length_app; simpl. split; [lia|]. left. by rewrite Hi.
    - eexists _, _, _. split; [reflexivity|]. split; [lia|]. split; [lia|].
      right. split; [done|]. exists r0. split; [lia|done]. }
  destruct (Nat.eqb_spec (length (items ts)) (capacity ts)) as [Hfull|Hroom].
  - destruct (alloc_ok r) eqn:Hok.
    + apply Hpush; simpl; [lia | done |]. destruct (Nat.eqb_spec (capacity ts) 0); lia.
    + eexists _, _, _. split; [reflexivity|]. split; [lia|]. split; [lia|].
      right. split; [done|]. exists r. split; [lia | done].
  - apply Hpush; [lia | done | lia].
Qed.

(** Simulation relation, in the state between two tokens or inside a word. *)
Definition sim (s : auto) (st : lexer) : Prop :=
  wf_word (word st) /\ wf_tokens (tokens st) /\
  cur s = (if has_word st then Some (chars (word st)) else None) /\
  (has_word st = false -> len (word st) = 0) /\
  out s = items (tokens st).

Definition result (s : auto) (rest : cstr) : option (list Token) :=
  ref_final (foldl ref_step s rest).

(** What a piece of the scanner started in the automaton state [s] before
    [rest] may answer. *)
Definition sound (n r0 : nat) (s : auto) (rest : cstr) (p : option progress) : Prop :=
  match p with
  | None => False
  | Some (Scan rest2 st2) =>
      r0 <= requests st2 /\ length rest2 <= n /\
      exists s2, rmode s2 = Normal /\ sim s2 st2 /\ result s rest = result s2 rest2
  | Some (Return status st2) =>
      r0 <= requests st2 /\ wf_tokens (tokens st2) /\
      ((status = 0%Z /\ result s rest = Some (items (tokens st2))) \/
       (status = (-1)%Z /\ (result s rest = None \/ refused r0 (requests st2))))
  end.

Lemma sound_from n r0 s s' rest rest' p :
  result s rest = result s' rest' -> sound n r0 s' rest' p -> sound n r0 s rest p.
Proof.
  intros Heq. unfold sound. rewrite Heq. repeat case_match; naive_solver lia.
Qed.

Lemma fail_sound n r0 s rest st :
  wf_tokens (tokens st) -> r0 <= requests st -> result s rest = None ->
  sound n r0 s rest (Some (fail st)).
Proof. intros Ht Hr Hn. split; [done|]. split; [done|]. right. auto. Qed.

Lemma put_sound n r0 s rest s1 st c m k :
  sim s1 st -> has_word st = true -> r0 <= requests st ->
  (forall st', sim (app_cur m [c] s1) st' -> has_word st' = true -> r0 <= requests st' ->
     sound n r0 s rest (k st')) ->
  sound n r0 s rest (put alloc_ok junk st c k).
Proof.
  intros (Hw & Ht & Hc & Hl & Ho) Hh Hr Hk. unfold put.
  destruct (add_char_spec (requests st) (word st) c Hw) as (status & r' & w' & -> & Hr' & H).
  simpl. destruct H as [(-> & Hw' & Hch)|(-> & Href)]; simpl.
  - apply Hk; simpl; try done; try lia. rewrite Hh in Hc. unfold sim; simpl.
    rewrite Hh, Hc, Hch. split_and!; try done.
  - split; [lia|]. split; [done|]. right. split; [done|]. right.
    eapply refused_mono; [exact Href | lia | simpl; lia].
Qed.

Lemma sim_mode s st m : sim s st -> has_word st = true -> sim (app_cur m [] s) st.
Proof.
  intros (Hw & Ht & Hc & Hl & Ho) Hh. rewrite Hh in Hc.
  unfold sim; simpl. rewrite Hc, Hh; simpl. rewrite app_nil_r. done.
Qed.

Lemma has_word_cur s st : sim s st -> has_word st = true -> exists w, cur s = Some w.
Proof. intros (_ & _ & Hc & _) Hh. rewrite Hh in Hc. eauto. Qed.

Lemma app_cur_nil_id s m w : rmode s = m -> cur s = Some w -> app_cur m [] s = s.
Proof. destruct s; simpl; intros -> ->. unfold app_cur; simpl. by rewrite app_nil_r. Qed.

Lemma squote_sound n r0 rest : forall s st,
  length rest <= n -> sim s st -> has_word st = true -> rmode s = Sq -> r0 <= requests st ->
  sound n r0 s rest (squote alloc_ok junk rest st).
Proof.
  induction rest as [|c rest IH]; intros s st Hn Hs Hh Hm Hr; cbn [squote]; simpl in Hn.
  { apply fail_sound; [apply Hs | done |]. unfold result, ref_final; simpl. by rewrite Hm. }
  destruct (ceq_spec c "'") as [->|Hc].
  - split; [done|]. split; [lia|]. exists (app_cur Normal [] s).
    split; [done|]. split; [by apply sim_mode|].
    unfold result; simpl. unfold ref_step at 2. by rewrite Hm.
  - eapply (put_sound _ _ _ _ _ _ _ Sq); eauto. intros st' Hs' Hh' Hr'.
    eapply sound_from; [|apply (IH _ _ ltac:(lia) Hs' Hh' eq_refl Hr')].
    unfold result; simpl. unfold ref_step at 2. by rewrite Hm, ceq_neq.
Qed.

Lemma dquote_sound n r0 k : forall rest s st,
  length rest <= k -> k <= n -> sim s st -> has_word st = true -> rmode s = Dq -> r0 <= requests st ->
  sound n r0 s rest (dquote alloc_ok junk rest st).
Proof.
  induction k as [|k IH]; intros rest s st Hn Hk Hs Hh Hm Hr;
    (destruct rest as [|c rest]; cbn [dquote];
     [apply fail_sound; [apply Hs | done |]; unfold result, ref_final; simpl; by rewrite Hm |]);
    simpl in Hn; [lia|].
  destruct (ceq_spec c DQ) as [->|Hc].
  { split; [done|]. split; [lia|]. exists (app_cur Normal [] s).
    split; [done|]. split; [by apply sim_mode|].
    unfold result; simpl. unfold ref_step at 2. by rewrite Hm. }
  destruct (ceq_spec c BSL) as [->|Hc2].
  2:{ eapply (put_sound _ _ _ _ _ _ _ Dq); eauto. intros st' Hs' Hh' Hr'.
      eapply sound_from; [|apply (IH rest _ _); eauto; lia].
      unfold result; simpl. unfold ref_step at 2. by rewrite Hm, !ceq_neq. }
  destruct rest as [|c2 rest2].
  { apply fail_sound; [apply Hs | done |]. unfold result, ref_final; simpl.
    unfold ref_step. by rewrite Hm. }
  simpl in Hn.
  assert (Hres : result s (BSL :: c2 :: rest2) = result (app_cur DqEsc [] s) (c2 :: rest2)).
  { unfold result; simpl. by replace (ref_step s BSL) with (app_cur DqEsc [] s)
      by (unfold ref_step; by rewrite Hm). }
  eapply sound_from; [exact Hres |].
  pose proof (sim_mode _ _ DqEsc Hs Hh) as Hs1.
  destruct ((c2 =c DQ) || (c2 =c BSL)) eqn:Esc.
  - replace (negb (c2 =c DQ) && negb (c2 =c BSL)) with false
      by (rewrite <- negb_orb, Esc; done).
    eapply (put_sound _ _ _ _ _ _ _ Dq); eauto. intros st' Hs' Hh' Hr'.
    eapply sound_from; [|apply (IH rest2 _ _); eauto; lia].
    unfold result; simpl. unfold ref_step at 2; simpl. by rewrite Esc.
  - replace (negb (c2 =c DQ) && negb (c2 =c BSL)) with true
      by (rewrite <- negb_orb, Esc; done).
    eapply (put_sound _ _ _ _ _ _ _ Dq); eauto. intros st' Hs' Hh' Hr'.
    eapply (put_sound _ _ _ _ _ _ _ Dq); eauto. intros st2 Hs2 Hh2 Hr2.
    eapply (sound_from _ _ _ (app_cur Dq [c2] (app_cur Dq [BSL] (app_cur DqEsc [] s))) _ rest2);
      [|apply (IH rest2 _ _); eauto; lia].
    unfold result; simpl. unfold ref_step at 2; simpl. rewrite Esc.
    unfold app_cur; simpl. by rewrite <- !app_assoc.
Qed.

Lemma save_word_spec s st :
  sim s st ->
  exists status st', save_word alloc_ok st = Some (status, st') /\
    requests st <= requests st' /\ wf_tokens (tokens st') /\
    ((status = 0%Z /\ sim (mkAuto Normal None (flush s)) st') \/
     (status = (-1)%Z /\ refused (requests st) (requests st'))).
Proof.
  intros (Hw & Ht & Hc & Hl & Ho). unfold save_word.
  destruct (has_word st) eqn:Hh; simpl.
  2:{ eexists _, _. split; [reflexivity|]. split; [lia|]. split; [done|]. left.
      split; [done|]. unfold sim, flush; simpl. rewrite Hc, Hh. split_and!; auto. }
  assert (Hp : exists status r' ts',
    match data (word st) with
    | None => token_list_push alloc_ok (requests st) (tokens st) TOKEN_WORD [] 0
    | Some d => token_list_push alloc_ok (requests st) (tokens st) TOKEN_WORD d (len (word st))
    end = Some (status, r', ts') /\ requests st <= r' /\ wf_tokens ts' /\
    ((status = 0%Z /\ items ts' = items (tokens st) ++ [WORD (chars (word st))]) \/
     (status = (-1)%Z /\ refused (requests st) r'))).
  { destruct Hw as (Hlen & Hle & Hnull). unfold chars.
    destruct (data (word st)) as [d|] eqn:Hd; simpl in *.
    - apply push_spec; [done | lia].
    - assert (Hz : len (word st) = 0) by lia. rewrite Hz. by apply push_spec. }
  destruct Hp as (status & r' & ts' & -> & Hr & Ht' & Hcase). simpl.
  destruct Hcase as [(-> & Hi)|(-> & Href)]; simpl.
  - eexists _, _. split; [reflexivity|]. split; [done|]. split; [done|]. left.
    split; [done|]. unfold sim, flush; simpl. rewrite Hc, Ho, Hi.
    destruct Hw as (? & ? & ?). unfold wf_word; simpl. split_and!; auto; try lia; tauto.
  - eexists _, _. split; [reflexivity|]. split; [done|]. split; [done|]. right. done.
Qed.

Lemma operator_sound r0 s c rest st :
  sim (mkAuto Normal None (flush s)) st -> rmode s = Normal -> r0 <= requests st ->
  is_space c = false -> is_special c = true ->
  sound (length rest) r0 s (c :: rest)
    (let '(ty, op_len) := operator c rest in
     pushed ← token_list_push alloc_ok (requests st) (tokens st) ty (c :: rest) op_len;
     let '(status2, r, ts) := pushed in
     let st2 := set_tokens r ts st in
     Some (if (status2 =? 0)%Z then Scan (drop op_len (c :: rest)) st2 else fail st2)).
Proof.
  intros (Hw & Ht & Hc & Hl & Ho) Hm Hr Hsp Hspec. simpl in Hc, Ho.
  (* the token pushed and what the automaton does with it *)
  assert (Hop : forall ty n t, operator c rest = (ty, n) -> n <= length (c :: rest) ->
    mkToken ty (take n (c :: rest)) = t -> 1 <= n ->
    result s (c :: rest) = result (push_op t s) (drop n (c :: rest)) ->
    sound (length rest) r0 s (c :: rest)
    (let '(ty, op_len) := operator c rest in
     pushed ← token_list_push alloc_ok (requests st) (tokens st) ty (c :: rest) op_len;
     let '(status2, r, ts) := pushed in
     let st2 := set_tokens r ts st in
     Some (if (status2 =? 0)%Z then Scan (drop op_len (c :: rest)) st2 else fail st2))).
  { intros ty n t -> Hn Htok H1 Hres.
    destruct (push_spec (requests st) (tokens st) ty (c :: rest) n Ht Hn)
      as (status & r' & ts' & -> & Hr' & Ht' & H).
    cbn [mbind option_bind]. destruct H as [(-> & Hi)|(-> & Href)]; simpl Z.eqb; cbn match.
    - split; [simpl; lia|]. split; [rewrite length_drop; simpl; lia|]. exists (push_op t s).
      split; [done|]. split; [|done]. unfold sim, push_op; simpl.
      rewrite Htok, <- Ho in Hi. auto.
    - split; [simpl; lia|]. split; [done|]. right. split; [done|]. right.
      eapply refused_mono; [exact Href | lia | done]. }
  assert (Hres : forall t, normal_step s c = push_op t s ->
    result s (c :: rest) = result (push_op t s) rest).
  { intros t Hn. unfold result; simpl. unfold ref_step at 2. by rewrite Hm, Hn. }
  unfold is_special in Hspec. unfold operator in Hop |- *.
  destruct (ceq_spec c "|") as [->|H1]; [eapply Hop; eauto; simpl; lia|].
  destruct (ceq_spec c "&") as [->|H2]; [eapply Hop; eauto; simpl; lia|].
  destruct (ceq_spec c ";") as [->|H3]; [eapply Hop; eauto; simpl; lia|].
  destruct (ceq_spec c "<") as [->|H4]; [eapply Hop; eauto; simpl; lia|].
  destruct (ceq_spec c ">") as [->|H5]; [|done]. clear Hres.
  assert (Hgt : ref_step s ">" = mkAuto Gt None (flush s)) by (unfold ref_step; by rewrite Hm).
  destruct rest as [|c2 rest2]; unfold char_at in Hop |- *; cbn [nth] in Hop |- *.
  { eapply (Hop _ _ GT_token); try done; try lia.
    unfold result; cbn [foldl drop]. by rewrite Hgt. }
  destruct (ceq_spec c2 ">") as [->|H6].
  - eapply (Hop _ _ GTGT_token); try done; try (simpl; lia).
    unfold result; cbn [foldl drop]. by rewrite Hgt.
  - eapply (Hop _ _ GT_token); try done; try (simpl; lia).
    unfold result; cbn [foldl drop]. rewrite Hgt. unfold ref_step at 2; simpl.
    by rewrite ceq_neq.
Qed.

Lemma set_has_word_sim s st m :
  sim s st -> sim (app_cur m [] s) (set_has_word true st).
Proof.
  intros (Hw & Ht & Hc & Hl & Ho). unfold sim, app_cur; simpl.
  rewrite Hc, app_nil_r. split_and!; auto; [|done]. destruct (has_word st); [done|].
  unfold chars. by rewrite Hl.
Qed.

Lemma lex_step_sound s c rest st :
  sim s st -> rmode s = Normal ->
  sound (length rest) (requests st) s (c :: rest) (lex_step alloc_ok junk c rest st).
Proof.
  intros Hs Hm. unfold lex_step.
  assert (Hres : result s (c :: rest) = result (normal_step s c) rest).
  { unfold result; cbn [foldl]. unfold ref_step at 2. by rewrite Hm. }
  destruct (is_space c) eqn:Hsp.
  { destruct (save_word_spec s st Hs) as (status & st' & -> & Hr' & Ht & H).
    cbn [mbind option_bind]. destruct H as [(-> & Hs')|(-> & Href)]; simpl Z.eqb; cbn match.
    - split; [done|]. split; [lia|]. eexists. split; [|split; [exact Hs'|]]; [done|].
      rewrite Hres. unfold normal_step. by rewrite Hsp.
    - split; [done|]. split; [done|]. right. split; [done|]. by right. }
  destruct (is_special c) eqn:Hspec.
  { destruct (save_word_spec s st Hs) as (status & st' & -> & Hr' & Ht & H).
    cbn [mbind option_bind]. destruct H as [(-> & Hs')|(-> & Href)]; simpl negb; cbn match.
    - apply operator_sound; auto.
    - split; [simpl; lia|]. split; [done|]. right. split; [done|]. by right. }
  unfold is_special in Hspec. rewrite !orb_false_iff in Hspec.
  destruct Hspec as ((((H1 & H2) & H3) & H4) & H5).
  unfold normal_step in Hres. rewrite Hsp, H1, H2, H3, H4, H5 in Hres.
  destruct (c =c BSL) eqn:Hb.
  { destruct rest as [|c2 rest2].
    - apply fail_sound; simpl; [apply Hs | lia | done].
    - eapply (put_sound _ _ _ _ _ _ _ Normal); [by apply (set_has_word_sim s _ Esc) | done | done |].
      intros st' Hs' Hh' Hr'. split; [done|]. split; [simpl; lia|].
      eexists. split; [|split; [exact Hs'|]]; [done|]. rewrite Hres. done. }
  destruct (c =c "'") eqn:Hq.
  { eapply sound_from; [exact Hres |].
    apply squote_sound; try done. by apply set_has_word_sim. }
  destruct (c =c DQ) eqn:Hd.
  { eapply sound_from; [exact Hres |].
    apply (dquote_sound _ _ (length rest)); try done. by apply set_has_word_sim. }
  eapply (put_sound _ _ _ _ (app_cur Normal [] s) _ _ Normal);
    [by apply (set_has_word_sim _ _ Normal) | done | done |].
  intros st' Hs' Hh' Hr'. split; [done|]. split; [simpl; lia|].
  exists (app_cur Normal [c] s). split; [done|]. split; [|done].
  revert Hs'. unfold sim, app_cur; simpl. by rewrite app_nil_r.
Qed.

Lemma lex_loop_sound fuel : forall rest s st,
  length rest <= fuel -> sim s st -> rmode s = Normal ->
  exists status st', lex_loop alloc_ok junk fuel rest st = Some (Return status st') /\
    sound 0 (requests st) s rest (Some (Return status st')).
Proof.
  induction fuel as [|fuel IH]; intros rest s st Hn Hs Hm;
    destruct rest as [|c rest]; cbn [lex_loop]; simpl in Hn; try lia.
  1, 2: destruct (save_word_spec s st Hs) as (status & st' & -> & Hr & Ht & H);
    destruct H as [(-> & Hs')|(-> & Href)]; eexists _, _; (split; [reflexivity|]);
    [ split; [done|]; split; [done|]; left; split; [done|];
      unfold result, ref_final; simpl; rewrite Hm; destruct Hs' as (_ & _ & _ & _ & Ho);
      simpl in Ho; by rewrite Ho
    | split; [done|]; split; [done|]; right; auto].
  pose proof (lex_step_sound s c rest st Hs Hm) as Hstep.
  destruct (lex_step alloc_ok junk c rest st) as [[rest2 st2|status st2]|]; [| |done].
  - destruct Hstep as (Hr & Hl & s2 & Hm2 & Hs2 & Hres). simpl in *.
    destruct (IH rest2 s2 st2) as (status & st' & Hloop & Hsound); auto; [lia|].
    exists status, st'. split; [done|]. destruct Hsound as (Hr2 & Ht & H).
    split; [lia|]. split; [done|]. rewrite Hres.
    destruct H as [|(-> & [|Href])]; auto. right. split; [done|]. right.
    eapply refused_mono; [exact Href | done | done].
  - exists status, st2. split; [done|]. exact Hstep.
Qed.
End Correctness.

(** ** Spelling words and reading them back

    Three ways to write an arbitrary word on the command line. *)
Inductive quoting := Backslash | Single | Double.

Definition spell (q : quoting) (w : cstr) : cstr :=
  match q with
  | Backslash => str "''" ++ flat_map (fun c => [BSL; c]) w
  | Single => "'"%char :: w ++ ["'"%char]
  | Double => DQ :: flat_map (fun c => if (c =c DQ) || (c =c BSL) then [BSL; c] else [c]) w ++ [DQ]
  end.

(** Inside single quotes a single quote cannot be written. *)
Definition spellable (q : quoting) (w : cstr) : Prop :=
  match q with Single => "'"%char ∉ w | _ => True end.

Definition op_text (t : TokenType) : cstr :=
  match t with
  | TOKEN_WORD => []
  | TOKEN_OP_PIPE => str "|"
  | TOKEN_OP_AMP => str "&"
  | TOKEN_OP_SEMI => str ";"
  | TOKEN_OP_LT => str "<"
  | TOKEN_OP_GT => str ">"
  | TOKEN_OP_GTGT => str ">>"
  end.

(** A token with the way its word is to be quoted. *)
Definition spell_token (qt : quoting * Token) : cstr :=
  match type qt.2 with
  | TOKEN_WORD => spell qt.1 (text qt.2)
  | ty => op_text ty
  end ++ [" "%char].

Definition canonical (qt : quoting * Token) : Prop :=
  match type qt.2 with
  | TOKEN_WORD => spellable qt.1 (text qt.2)
  | ty => text qt.2 = op_text ty
  end.

Definition render (qts : list (quoting * Token)) : cstr := flat_map spell_token qts.

Lemma foldl_backslash w : forall v ts,
  foldl ref_step (mkAuto Normal (Some v) ts) (flat_map (fun c => [BSL; c]) w)
  = mkAuto Normal (Some (v ++ w)) ts.
Proof.
  induction w as [|c w IH]; intros v ts; cbn [flat_map app foldl]; [by rewrite app_nil_r|].
  replace (ref_step (ref_step _ BSL) c) with (mkAuto Normal (Some (v ++ [c])) ts)
    by (unfold ref_step; simpl; unfold app_cur; simpl; by rewrite app_nil_r).
  rewrite IH, <- app_assoc. done.
Qed.

Lemma foldl_single w : forall v ts, "'"%char ∉ w ->
  foldl ref_step (mkAuto Sq (Some v) ts) w = mkAuto Sq (Some (v ++ w)) ts.
Proof.
  induction w as [|c w IH]; intros v ts Hw; cbn [foldl]; [by rewrite app_nil_r|].
  apply not_elem_of_cons in Hw as [Hc Hw].
  unfold ref_step at 2; simpl. rewrite ceq_neq by done. unfold app_cur; simpl.
  rewrite IH by done. by rewrite <- app_assoc.
Qed.

Lemma foldl_double w : forall v ts,
  foldl ref_step (mkAuto Dq (Some v) ts)
    (flat_map (fun c => if (c =c DQ) || (c =c BSL) then [BSL; c] else [c]) w)
  = mkAuto Dq (Some (v ++ w)) ts.
Proof.
  induction w as [|c w IH]; intros v ts; cbn [flat_map]; [by rewrite app_nil_r|].
  rewrite foldl_app.
  assert (Hc : foldl ref_step (mkAuto Dq (Some v) ts)
    (if (c =c DQ) || (c =c BSL) then [BSL; c] else [c]) = mkAuto Dq (Some (v ++ [c])) ts).
  2:{ rewrite Hc, IH, <- app_assoc. done. }
  destruct ((c =c DQ) || (c =c BSL)) eqn:E; cbn [foldl].
  - unfold ref_step; simpl. rewrite E. unfold app_cur; simpl. by rewrite app_nil_r.
  - apply orb_false_iff in E as [E1 E2]. unfold ref_step; simpl. by rewrite E1, E2.
Qed.

Lemma foldl_spell q w ts : spellable q w ->
  foldl ref_step (mkAuto Normal None ts) (spell q w) = mkAuto Normal (Some w) ts.
Proof.
  intros Hs. destruct q; cbn [spell].
  - rewrite foldl_app. apply foldl_backslash.
  - cbn [foldl]. rewrite foldl_app.
    change (ref_step (mkAuto Normal None ts) "'") with (mkAuto Sq (Some []) ts).
    rewrite foldl_single by done. simpl. unfold ref_step; simpl. unfold app_cur; simpl.
    by rewrite app_nil_r.
  - cbn [foldl]. rewrite foldl_app.
    change (ref_step (mkAuto Normal None ts) DQ) with (mkAuto Dq (Some []) ts).
    rewrite foldl_double. simpl. unfold ref_step; simpl. unfold app_cur; simpl.
    by rewrite app_nil_r.
Qed.

Lemma foldl_render qts : forall ts, Forall canonical qts ->
  foldl ref_step (mkAuto Normal None ts) (render qts) = mkAuto Normal None (ts ++ qts.*2).
Proof.
  induction qts as [|[q [ty w]] qts IH]; intros ts Hf; [by rewrite app_nil_r|].
  apply Forall_cons in Hf as [Hc Hf]. unfold render; cbn [flat_map]. rewrite foldl_app.
  replace (foldl ref_step (mkAuto Normal None ts) (spell_token (q, mkToken ty w)))
    with (mkAuto Normal None (ts ++ [mkToken ty w])).
  { fold (render qts). rewrite IH by done. by rewrite <- app_assoc. }
  unfold spell_token, canonical in *; simpl in *. rewrite foldl_app.
  destruct ty; simpl in Hc; try (rewrite Hc; reflexivity).
  rewrite foldl_spell by done. reflexivity.
Qed.

Lemma ref_lex_render qts : Forall canonical qts -> ref_lex (render qts) = Some (qts.*2).
Proof. intros Hf. unfold ref_lex, ref_start. by rewrite foldl_render. Qed.

(** C5: [lex_line] always returns, never stores outside a block, and its
    answer is the automaton's: status 0 with the automaton's tokens, or -1
    because the line has an open quote or a trailing escape, or because an
    allocation was refused. *)
Theorem lex_line_correct (alloc_ok : nat -> bool) (junk : ascii) (line : cstr) :
  exists status st, lex_line alloc_ok junk line 0 token_list_init = Some (Return status st) /\
    count (tokens st) <= capacity (tokens st) /\
    ((status = 0%Z /\ ref_lex line = Some (items (tokens st))) \/
     (status = (-1)%Z /\ (ref_lex line = None \/ refused alloc_ok 0 (requests st)))).
Proof.
  destruct (lex_loop_sound alloc_ok junk (length line) line (ref_start [])
    (mkLexer 0 token_list_init word0 false)) as (status & st & Hl & _ & Ht & H); auto.
  { unfold sim, wf_word, wf_tokens; simpl. split_and!; try done. }
  exists status, st. split; [exact Hl|]. split; [exact Ht|]. exact H.
Qed.

(** C36: every sequence of tokens can be typed: written out with any mix of
    the three quotings, the line is lexed back to exactly those tokens when
    memory is available. *)
Theorem lex_line_render (junk : ascii) (qts : list (quoting * Token)) :
  Forall canonical qts ->
  exists st, lex_line (fun _ => true) junk (render qts) 0 token_list_init = Some (Return 0 st) /\
    items (tokens st) = qts.*2.
Proof.
  intros Hf. pose proof (ref_lex_render qts Hf) as Hr. unfold ref_lex in Hr.
  destruct (lex_loop_sound (fun _ => true) junk (length (render qts)) (render qts) (ref_start [])
    (mkLexer 0 token_list_init word0 false)) as (status & st & Hl & _ & _ & H); auto.
  { unfold sim, wf_word, wf_tokens; simpl. split_and!; try done. }
  unfold result in H. rewrite Hr in H. exists st.
  destruct H as [(-> & [= ->])|(_ & [|(k & _ & ?)])]; [|done|done]. by split.
Qed.

Lemma lex_line_render_witness :
  exists st, lex_line (fun _ => true) NUL
      (render [(Single, WORD (str "a b")); (Backslash, mkToken TOKEN_OP_GTGT (str ">>"));
               (Double, WORD [DQ; BSL])]) 0 token_list_init = Some (Return 0 st) /\
    items (tokens st) =
      [WORD (str "a b"); mkToken TOKEN_OP_GTGT (str ">>"); WORD [DQ; BSL]].
Proof.
  apply (lex_line_render NUL
    [(Single, WORD (str "a b")); (Backslash, mkToken TOKEN_OP_GTGT (str ">>"));
     (Double, WORD [DQ; BSL])]).
  repeat constructor. vm_compute. set_solver.
Defined.
