(* ===== verification/Parser.v ===== *)
(** * The C-Shell syntax check (c-shell/src/parser.c)

    [parse_tokens] as the loop of [parser.c] over the token array, and the
    grammar it decides, as inductive predicates. *)
From S2P Require Import Prelude Lexer.

Definition is_redirection (t : TokenType) : bool :=
  bool_decide (t = TOKEN_OP_LT) || bool_decide (t = TOKEN_OP_GT) || bool_decide (t = TOKEN_OP_GTGT).

Definition is_separator (t : TokenType) : bool :=
  bool_decide (t = TOKEN_OP_PIPE) || bool_decide (t = TOKEN_OP_SEMI) || bool_decide (t = TOKEN_OP_AMP).

Definition is_word (t : Token) : bool := bool_decide (type t = TOKEN_WORD).

(** The [while(i<tokens->count)] loop at the suffix [items+i]. *)
Fixpoint parse_loop (want_command : bool) (ts : list Token) : Z :=
  match ts with
  | [] => if want_command then -1 else 0
  | t :: ts' =>
      if want_command then
        if negb (is_word t) then -1 else parse_loop false ts'
      else if is_word t then parse_loop false ts'
      else if is_redirection (type t) then
        match ts' with
        | [] => -1
        | t2 :: ts2 => if negb (is_word t2) then -1 else parse_loop false ts2
        end
      else if is_separator (type t) then
        match ts' with
        | [] => if bool_decide (type t = TOKEN_OP_AMP) then 0 else -1
        | _ :: _ => parse_loop true ts'
        end
      else -1
  end%Z.

Definition parse_tokens (tokens : TokenList) : Z :=
  if count tokens =? 0 then 0%Z else parse_loop true (items tokens).

(** ** The grammar

    A command is a word followed by words and redirections; a sentence is a
    sequence of commands between separators, where only [&] may end it. *)
Inductive command : list Token -> Prop :=
  | command_name w : is_word w = true -> command [w]
  | command_arg c w : command c -> is_word w = true -> command (c ++ [w])
  | command_redir c r w :
      command c -> is_redirection (type r) = true -> is_word w = true -> command (c ++ [r; w]).

Inductive sentence : list Token -> Prop :=
  | sentence_one c : command c -> sentence c
  | sentence_amp c a : command c -> type a = TOKEN_OP_AMP -> sentence (c ++ [a])
  | sentence_seq c s rest :
      command c -> is_separator (type s) = true -> sentence rest -> sentence (c ++ s :: rest).

Create HintDb grammar.
#[export] Hint Constructors command sentence : grammar.

Lemma word_not_redirection t : is_word t = true -> is_redirection (type t) = false.
Proof. unfold is_word. rewrite bool_decide_eq_true. by intros ->. Qed.

Lemma word_not_separator t : is_word t = true -> is_separator (type t) = false.
Proof. unfold is_word. rewrite bool_decide_eq_true. by intros ->. Qed.

Lemma redirection_not_word t : is_redirection (type t) = true -> is_word t = false.
Proof. unfold is_word, is_redirection. destruct (type t); vm_compute; congruence. Qed.

Lemma separator_shape t : is_separator (type t) = true ->
  is_word t = false /\ is_redirection (type t) = false.
Proof. unfold is_word, is_separator. destruct (type t); vm_compute; intuition congruence. Qed.

Lemma parse_loop_sound n : forall ts,
  length ts <= n ->
  (parse_loop true ts = 0%Z -> sentence ts) /\
  (parse_loop false ts = 0%Z -> forall c, command c -> sentence (c ++ ts)).
Proof.
  induction n as [|n IH]; intros ts Hn.
  { destruct ts; simpl in Hn; [|lia]. split; [discriminate|].
    intros _ c Hc. rewrite app_nil_r. auto with grammar. }
  destruct ts as [|t ts]; [by apply (IH []); simpl; lia|]. simpl in Hn. cbn [parse_loop].
  split.
  - destruct (is_word t) eqn:Hw; simpl; [|discriminate]. intros H.
    change (t :: ts) with ([t] ++ ts). apply (IH ts); [lia | done |]. auto with grammar.
  - intros H c Hc. destruct (is_word t) eqn:Hw.
    { rewrite (app_assoc c [t] ts : c ++ t :: ts = _). apply (IH ts); [lia | done |].
      auto with grammar. }
    destruct (is_redirection (type t)) eqn:Hr.
    { destruct ts as [|t2 ts]; [discriminate|].
      destruct (is_word t2) eqn:Hw2; simpl in H; [|discriminate]. simpl in Hn.
      rewrite (app_assoc c [t; t2] ts : c ++ t :: t2 :: ts = _).
      apply (IH ts); [lia | done |]. auto with grammar. }
    destruct (is_separator (type t)) eqn:Hs; [|discriminate].
    destruct ts as [|t2 ts].
    + destruct (bool_decide_reflect (type t = TOKEN_OP_AMP)); [|discriminate].
      auto with grammar.
    + apply sentence_seq; auto. apply (IH (t2 :: ts)); [simpl in *; lia | done].
Qed.

Lemma parse_loop_command c ts : command c -> parse_loop true (c ++ ts) = parse_loop false ts.
Proof.
  intros Hc. revert ts.
  induction Hc as [w Hw|c w Hc IH Hw|c r w Hc IH Hr Hw]; intros ts.
  - simpl. by rewrite Hw.
  - rewrite <- app_assoc, IH. simpl. by rewrite Hw.
  - rewrite <- app_assoc, IH. simpl. by rewrite (redirection_not_word _ Hr), Hr, Hw.
Qed.

Lemma sentence_nonempty ts : sentence ts -> ts <> [].
Proof.
  assert (Hc : forall c, command c -> c <> []).
  { intros c H. destruct H; [done| |]; by intros [? ?]%app_eq_nil. }
  intros H. destruct H as [c H|c a H|c s rest H]; [auto| |]; by intros [? ?]%app_eq_nil.
Qed.

Lemma parse_loop_sentence ts : sentence ts -> parse_loop true ts = 0%Z.
Proof.
  intros H. induction H as [c Hc|c a Hc Ha|c s rest Hc Hs Hr IH].
  - rewrite <- (app_nil_r c). by rewrite parse_loop_command.
  - rewrite parse_loop_command by done. simpl. unfold is_word. by rewrite Ha.
  - rewrite parse_loop_command by done. destruct (separator_shape s Hs) as [Hw Hd].
    simpl. rewrite Hw, Hd, Hs. destruct rest; [|done]. by apply sentence_nonempty in Hr.
Qed.

(** C8: [parse_tokens] accepts exactly the sentences of the grammar (and the
    empty line), and answers -1 for everything else. *)
Theorem parse_tokens_grammar (tokens : TokenList) :
  (parse_tokens tokens = 0%Z <-> items tokens = [] \/ sentence (items tokens)) /\
  (parse_tokens tokens = 0%Z \/ parse_tokens tokens = (-1)%Z).
Proof.
  unfold parse_tokens, count. destruct (Nat.eqb_spec (length (items tokens)) 0) as [Hz|Hz].
  { apply length_zero_iff_nil in Hz. rewrite Hz. split; [tauto | by left]. }
  split.
  - split.
    + intros H. right. by eapply (parse_loop_sound (length (items tokens))).
    + intros [H|H]; [by rewrite H in Hz|]. by apply parse_loop_sentence.
  - assert (Hr : forall n ts b, length ts <= n -> parse_loop b ts = 0%Z \/ parse_loop b ts = (-1)%Z).
    { induction n as [|n IH]; intros [|t ts] b Hl; simpl in Hl; try lia;
        cbn [parse_loop]; repeat case_match; auto; apply IH; simpl in *; lia. }
    apply (Hr _ (items tokens) true (le_n _)).
Qed.
