(* ===== verification/Jobs.v ===== *)
(** * The job table of the C-Shell (c-shell/src/d1d2.c, resume.c)

    The parallel arrays [job_pid], [job_name], [job_live], [job_stopped],
    [job_leader_done] and [job_command] as one array of records, the SIGCHLD
    handler with the line it writes, and the operations that add, stop,
    resume and finish jobs.  Fixed-size buffers are written through [put],
    which fails ([None]) outside the buffer. *)
From S2P Require Import Prelude Lexer.
Local Open Scope Z_scope.

Definition MAX_JOBS : nat := 1024.

Record job := mkJob {
  job_pid : Z;
  job_name : cstr;
  job_live : Z;
  job_stopped : Z;
  job_leader_done : Z;
  job_command : cstr
}.

Record jobs := mkJobs { job_tab : list job; job_count : nat }.

Definition zero_job : job := mkJob 0 [] 0 0 0 [].
Definition jobs0 : jobs := mkJobs (replicate MAX_JOBS zero_job) 0.

Definition set_live (v : Z) (j : job) : job :=
  mkJob (job_pid j) (job_name j) v (job_stopped j) (job_leader_done j) (job_command j).
Definition set_stopped (v : Z) (j : job) : job :=
  mkJob (job_pid j) (job_name j) (job_live j) v (job_leader_done j) (job_command j).
Definition set_leader_done (v : Z) (j : job) : job :=
  mkJob (job_pid j) (job_name j) (job_live j) (job_stopped j) v (job_command j).

Definition truth (v : Z) : bool := negb (v =? 0).

(** ** Fixed-size buffers *)
Definition put (cap : nat) (buf : cstr) (c : ascii) : option cstr :=
  if (length buf <? cap)%nat then Some (buf ++ [c]) else None.

Fixpoint puts (cap : nat) (buf : cstr) (s : cstr) : option cstr :=
  match s with
  | [] => Some buf
  | c :: s' => b ← put cap buf c; puts cap b s'
  end.

(** The character of a decimal digit. *)
Definition digit (d : Z) : ascii := ascii_of_N (Z.to_N (48 + d)).

(** [while(value>0){ digits[d++]='0'+value%10; value/=10; }]; 64-bit values
    have at most 20 digits. *)
Fixpoint digits_loop (fuel : nat) (value : Z) (digits : cstr) : option cstr :=
  match fuel with
  | O => Some digits
  | S f =>
      if 0 <? value then d ← put 16 digits (digit (value mod 10)); digits_loop f (value / 10) d
      else Some digits
  end.

(** The line written by [report]. *)
Definition report (name : cstr) (pid : Z) (normal : bool) : option cstr :=
  let value := u64 pid in
  let tail := if normal then str " exited normally" ++ [LF] else str " exited abnormally" ++ [LF] in
  l1 ← puts 96 [] (take 32 name);
  l2 ← puts 96 l1 (str " with pid ");
  d0 ← (if value =? 0 then put 16 [] "0"%char else Some []);
  digits ← digits_loop 20 value d0;
  l3 ← puts 96 l2 (rev digits);
  puts 96 l3 tail.

(** ** The SIGCHLD handler *)
(** A wait status, as the macros of [sys/wait.h] classify it. *)
Inductive wstatus := Exited (code : Z) | Signaled (sig : Z) | Stopped (sig : Z) | Continued.

Definition WIFSTOPPED (s : wstatus) : bool := match s with Stopped _ => true | _ => false end.
Definition WIFCONTINUED (s : wstatus) : bool := match s with Continued => true | _ => false end.
Definition WIFEXITED (s : wstatus) : bool := match s with Exited _ => true | _ => false end.

(** A report: the slot of the job, and the line written. *)
Definition said : Type := nat * cstr.

Definition active (js : jobs) : list job := take (job_count js) (job_tab js).

Definition upd_job (i : nat) (f : job -> job) (js : jobs) : jobs :=
  mkJobs (alter f i (job_tab js)) (job_count js).

(** One child returned by [waitpid]. *)
Definition note_child (js : jobs) (pid : Z) (status : wstatus) : option (jobs * list said) :=
  match find_index (fun j => truth (job_live j) && (job_pid j =? pid)) (active js) with
  | None => Some (js, [])
  | Some i =>
      if WIFSTOPPED status then Some (upd_job i (set_stopped 1) js, [])
      else if WIFCONTINUED status then Some (upd_job i (set_stopped 0) js, [])
      else
        j ← job_tab js !! i;
        if job_leader_done j =? 0 then
          line ← report (job_name j) pid (WIFEXITED status);
          Some (upd_job i (set_leader_done 1) js, [(i, line)])
        else Some (js, [])
  end.

Fixpoint note_children (js : jobs) (cs : list (Z * wstatus)) : option (jobs * list said) :=
  match cs with
  | [] => Some (js, [])
  | (pid, status) :: cs' =>
      r1 ← note_child js pid status;
      r2 ← note_children r1.1 cs';
      Some (r2.1, r1.2 ++ r2.2)
  end.

(** Jobs whose leader is done and whose group has no process left;
    [gone pgid] is [kill(-pgid,0)!=0]. *)
Definition sweep_job (gone : Z -> bool) (j : job) : job :=
  if truth (job_live j) && truth (job_leader_done j) && gone (job_pid j)
  then set_stopped 0 (set_live 0 j) else j.

Definition sweep (gone : Z -> bool) (js : jobs) : jobs :=
  mkJobs (imap (fun i j => if (i <? job_count js)%nat then sweep_job gone j else j) (job_tab js))
    (job_count js).

Definition handle_sigchld (gone : Z -> bool) (cs : list (Z * wstatus)) (js : jobs) :
    option (jobs * list said) :=
  r ← note_children js cs;
  Some (sweep gone r.1, r.2).

(** ** Adding jobs *)

(** [save_command]: the texts of the tokens separated by blanks, cut at 255
    characters. *)
Fixpoint save_chars (s : cstr) (buf : cstr) : cstr :=
  match s with
  | [] => buf
  | c :: s' => if (length buf <? 255)%nat then save_chars s' (buf ++ [c]) else buf
  end.

Fixpoint save_tokens (ts : list Token) (buf : cstr) : cstr :=
  match ts with
  | [] => buf
  | t :: ts' =>
      if (length buf <? 255)%nat then
        let b1 := if (0 <? length buf)%nat && (length buf <? 255)%nat then buf ++ [" "%char] else buf in
        save_tokens ts' (save_chars (text t) b1)
      else buf
  end.

Definition save_command (ts : list Token) : cstr := save_tokens ts [].

(** The name of a job: the command without its leading [%], at most 31
    characters. *)
Definition strip_percent (name : cstr) : cstr :=
  match name with
  | c :: rest => if ceq c "%" then rest else name
  | [] => []
  end.

Definition save_name (name : cstr) : cstr := take 31 (strip_percent name).

Definition new_job (pid stopped : Z) (name : cstr) (ts : list Token) : job :=
  mkJob pid (save_name name) 1 stopped 0 (save_command ts).

Definition push_job (j : job) (js : jobs) : jobs :=
  mkJobs (<[job_count js := j]> (job_tab js)) (S (job_count js)).

Definition add_stopped_job (pgid : Z) (ts : list Token) (js : jobs) : Z * jobs :=
  if (job_count js =? MAX_JOBS)%nat then (-1, js)
  else
    let name := match ts with t :: _ => text t | [] => str "unknown" end in
    let js' := push_job (new_job pgid 1 name ts) js in
    (Z.of_nat (job_count js'), js').

(** The parent's part of [runbuff] once the child is started: [None] when the
    token list is empty, which [run_tokens] excludes. *)
Definition add_background_job (child : Z) (ts : list Token) (js : jobs) : option (Z * jobs) :=
  t ← head ts;
  let js' := push_job (new_job child 0 (text t) ts) js in
  Some (Z.of_nat (job_count js'), js').

(** ** Queries and updates *)
Definition has_stopped_jobs (js : jobs) : bool :=
  existsb (fun j => truth (job_live j) && truth (job_stopped j)) (active js).

Definition in_range (index : Z) (js : jobs) : bool :=
  negb ((index <? 0) || (Z.of_nat (job_count js) <=? index)).

Definition getjobinfo (index : Z) (js : jobs) : option (Z * cstr * Z) :=
  if in_range index js then
    j ← job_tab js !! Z.to_nat index;
    Some (job_pid j, take 31 (job_name j), job_live j)
  else None.

Definition find_job (number : Z) (js : jobs) : option (Z * Z) :=
  let index := number - 1 in
  if in_range index js then
    j ← job_tab js !! Z.to_nat index;
    if job_live j =? 0 then None else Some (index, job_pid j)
  else None.

Definition set_job_stopped (index v : Z) (js : jobs) : jobs :=
  if in_range index js then upd_job (Z.to_nat index) (set_stopped v) js else js.

Definition finish_job (index : Z) (js : jobs) : jobs :=
  if in_range index js then upd_job (Z.to_nat index) (set_stopped 0 ∘ set_live 0) js else js.

Definition job_command_text (index : Z) (js : jobs) : cstr :=
  if in_range index js then
    match job_tab js !! Z.to_nat index with Some j => job_command j | None => [] end
  else [].

(** [getpgid(pid)] is [group]; negative when the process does not exist. *)
Definition is_tracked_pid (group : Z) (js : jobs) : bool :=
  if group <? 0 then false
  else existsb (fun j => truth (job_live j) && (job_pid j =? group)) (active js).

(** The signals [shutdown_jobs] sends to process groups: SIGHUP (1), then
    SIGCONT (18). *)
Definition shutdown_jobs (js : jobs) : list (Z * Z) :=
  flat_map (fun j => if truth (job_live j) then [(- job_pid j, 1); (- job_pid j, 18)] else [])
    (active js).

Definition note_traced_exit (gone : Z -> bool) (pid : Z) (status : wstatus) (js : jobs) :
    option (jobs * list said) :=
  match find_index (fun j => truth (job_live j) && (job_pid j =? pid) && (job_leader_done j =? 0))
          (active js) with
  | None => Some (js, [])
  | Some i =>
      j ← job_tab js !! i;
      line ← report (job_name j) pid (WIFEXITED status);
      let js1 := upd_job i (set_leader_done 1) js in
      Some (if gone (job_pid j) then upd_job i (set_stopped 0 ∘ set_live 0) js1 else js1, [(i, line)])
  end.

(** ** The table as a machine *)
Inductive jevent :=
  | JSigchld (gone : Z -> bool) (cs : list (Z * wstatus))
  | JTraced (gone : Z -> bool) (pid : Z) (status : wstatus)
  | JStop (pgid : Z) (ts : list Token)
  | JBackground (child : Z) (ts : list Token)
  | JSetStopped (index v : Z)
  | JFinish (index : Z).

Definition jstep (e : jevent) (js : jobs) : option (jobs * list said) :=
  match e with
  | JSigchld gone cs => handle_sigchld gone cs js
  | JTraced gone pid status => note_traced_exit gone pid status js
  | JStop pgid ts => Some ((add_stopped_job pgid ts js).2, [])
  | JBackground child ts =>
      if (job_count js =? MAX_JOBS)%nat then Some (js, [])
      else r ← add_background_job child ts js; Some (r.2, [])
  | JSetStopped index v => Some (set_job_stopped index v js, [])
  | JFinish index => Some (finish_job index js, [])
  end.

Fixpoint jrun (es : list jevent) (js : jobs) : option (jobs * list said) :=
  match es with
  | [] => Some (js, [])
  | e :: es' => r1 ← jstep e js; r2 ← jrun es' r1.1; Some (r2.1, r1.2 ++ r2.2)
  end.

(** What the kernel guarantees about the events: process ids are positive
    [pid_t] values, and a background command has a name. *)
Definition valid_pid (pid : Z) : Prop := 0 < pid < 2 ^ 31.
Definition valid_event (e : jevent) : Prop :=
  match e with
  | JSigchld _ cs => Forall (fun c => valid_pid c.1) cs
  | JTraced _ pid _ => valid_pid pid
  | JBackground _ ts => ts <> []
  | _ => True
  end.

(** ** The report line *)
Lemma puts_ok cap s : forall buf, (length buf + length s <= cap)%nat -> puts cap buf s = Some (buf ++ s).
Proof.
  induction s as [|c s IH]; intros buf Hl; simpl in *; [by rewrite app_nil_r|].
  unfold put. destruct (Nat.ltb_spec (length buf) cap); [|lia]. cbn [mbind option_bind].
  rewrite IH by len. by rewrite <- app_assoc.
Qed.

(** The value of a numeral, least significant digit last. *)
Definition dec_value (s : cstr) : Z := fold_left (fun a c => 10 * a + (code c - 48)) s 0.
Definition is_digit (c : ascii) : Prop := 48 <= code c <= 57.

Lemma code_digit d : 0 <= d < 10 -> code (digit d) = 48 + d.
Proof. intros H. unfold code, digit. rewrite N_ascii_embedding by lia. lia. Qed.

Lemma dec_value_snoc s c : dec_value (s ++ [c]) = 10 * dec_value s + (code c - 48).
Proof. unfold dec_value. by rewrite fold_left_app. Qed.

Lemma digits_loop_ok k : forall fuel value ds,
  (k <= fuel)%nat -> (length ds + k <= 16)%nat -> 0 <= value < 10 ^ Z.of_nat k ->
  exists dl, digits_loop fuel value ds = Some (ds ++ dl) /\ (length dl <= k)%nat /\
    Forall is_digit dl /\ dec_value (rev dl) = value /\ (0 < value -> dl <> []).
Proof.
  induction k as [|k IH]; intros fuel value ds Hf Hl Hv.
  { assert (value = 0) as -> by (simpl in Hv; lia). exists []. rewrite app_nil_r.
    destruct fuel; simpl; split_and!; auto; lia. }
  destruct fuel as [|fuel]; [lia|]. cbn [digits_loop].
  destruct (Z.ltb_spec 0 value) as [Hp|Hp].
  - assert (Hm : 0 <= value mod 10 < 10) by (apply Z.mod_pos_bound; lia).
    unfold put. destruct (Nat.ltb_spec (length ds) 16); [|lia]. cbn [mbind option_bind].
    destruct (IH fuel (value / 10) (ds ++ [digit (value mod 10)])) as (dl & E & Hdl & Hd & Hval & _).
    + lia.
    + len.
    + rewrite Nat2Z.inj_succ, Z.pow_succ_r in Hv by lia. split; [apply Z.div_pos; lia|].
      apply Z.div_lt_upper_bound; lia.
    + exists (digit (value mod 10) :: dl). rewrite E, <- app_assoc. split_and!; try done.
      * simpl. lia.
      * constructor; [|done]. unfold is_digit. rewrite code_digit by done. lia.
      * simpl. rewrite dec_value_snoc, Hval, code_digit by done. pose proof (Z.div_mod value 10). lia.
  - assert (value = 0) as -> by lia. exists []. rewrite app_nil_r. split_and!; auto; simpl; lia.
Qed.

(** What [report] writes for a job name that fits its array. *)
Definition report_spec (name : cstr) (pid : Z) (normal : bool) (line : cstr) : Prop :=
  exists digits, Forall is_digit digits /\ dec_value digits = pid /\
    line = name ++ str " with pid " ++ digits ++
           (if normal then str " exited normally" else str " exited abnormally") ++ [LF].

Lemma report_ok name pid normal :
  (length name <= 31)%nat -> valid_pid pid ->
  exists line, report name pid normal = Some line /\ report_spec name pid normal line /\ (length line <= 96)%nat.
Proof.
  intros Hn [Hp1 Hp2]. unfold report, u64. rewrite Z.mod_small by lia.
  rewrite take_ge by lia. rewrite (puts_ok 96 name []) by (simpl; lia). cbn [mbind option_bind app].
  rewrite puts_ok by (simpl; lia). cbn [mbind option_bind].
  destruct (Z.eqb_spec pid 0); [lia|]. cbn [mbind option_bind].
  destruct (digits_loop_ok 10 20 pid []) as (dl & -> & Hdl & Hd & Hval & _); [lia | simpl; lia | lia|].
  cbn [mbind option_bind app].
  rewrite puts_ok by (len; rewrite length_rev; lia). cbn [mbind option_bind].
  set (tail := if normal then _ else _).
  assert (Ht : (length tail <= 19)%nat) by (unfold tail; destruct normal; simpl; lia).
  rewrite puts_ok by (len; rewrite length_rev; lia).
  eexists. split; [done|]. split.
  - exists (rev dl). split_and!; [by apply Forall_rev | done|]. rewrite <- !app_assoc. unfold tail. by destruct normal.
  - len. rewrite length_rev. lia.
Qed.

(** ** The invariant of the table *)
Definition job_ok (j : job) : Prop := (length (job_name j) <= 31)%nat /\ (length (job_command j) <= 255)%nat.

Definition jobs_ok (js : jobs) : Prop :=
  length (job_tab js) = MAX_JOBS /\ (job_count js <= MAX_JOBS)%nat /\ Forall job_ok (job_tab js).

(** The exit of the leader of job [i] has been reported. *)
Definition reported (js : jobs) (i : nat) : Prop :=
  (i < job_count js)%nat /\ exists j, job_tab js !! i = Some j /\ job_leader_done j <> 0.

(** An operation that says [rs]: the table stays well formed, jobs that were
    reported stay so, and the jobs said to have exited are distinct, were not
    reported before and are now. *)
Definition honest (js js' : jobs) (rs : list said) : Prop :=
  jobs_ok js' /\ (job_count js <= job_count js')%nat /\
  (forall i, reported js i -> reported js' i) /\
  (forall i, i ∈ rs.*1 -> reported js' i /\ ~ reported js i) /\ NoDup rs.*1.

Lemma honest_trans js1 js2 js3 rs1 rs2 :
  honest js1 js2 rs1 -> honest js2 js3 rs2 -> honest js1 js3 (rs1 ++ rs2).
Proof.
  intros (_ & Hc1 & Hk1 & Hn1 & Hd1) (Ho & Hc2 & Hk2 & Hn2 & Hd2). unfold honest.
  rewrite fmap_app. split_and!; auto; [lia| |].
  - intros i [Hi|Hi]%elem_of_app.
    + destruct (Hn1 i Hi). auto.
    + destruct (Hn2 i Hi) as [? Hno]. split; [done|]. intros ?%Hk1. done.
  - apply NoDup_app. split_and!; auto. intros i Hi1 Hi2.
    destruct (Hn1 i Hi1) as [Hr _], (Hn2 i Hi2) as [_ Hno]. done.
Qed.

Lemma honest_silent js js' :
  jobs_ok js' -> (job_count js <= job_count js')%nat ->
  (forall i j, (i < job_count js)%nat -> job_tab js !! i = Some j ->
     exists j', job_tab js' !! i = Some j' /\ (job_leader_done j <> 0 -> job_leader_done j' <> 0)) ->
  honest js js' [].
Proof.
  intros Ho Hc H. unfold honest. split_and!; auto.
  - intros i (Hi & j & Hj & Hl). destruct (H i j Hi Hj) as (j' & Hj' & Hl'). split; [lia | eauto].
  - by intros i ?%elem_of_nil.
  - apply NoDup_nil_2.
Qed.

Lemma upd_job_ok i f js :
  jobs_ok js -> (forall j, job_ok j -> job_ok (f j)) -> jobs_ok (upd_job i f js).
Proof.
  intros (Hl & Hc & Hf) H. split_and!; simpl; [by rewrite length_alter | done|].
  apply Forall_alter; [done|]. intros j _ Hj. auto.
Qed.

Lemma honest_upd i f js :
  jobs_ok js -> (forall j, job_ok j -> job_ok (f j)) ->
  (forall j, job_leader_done j <> 0 -> job_leader_done (f j) <> 0) -> honest js (upd_job i f js) [].
Proof.
  intros Ho Hf Hd. apply honest_silent; [by apply upd_job_ok | simpl; lia|].
  intros k j Hk Hj. simpl. rewrite list_lookup_alter. case_decide; subst; rewrite Hj; simpl; eauto.
Qed.

Lemma honest_report i j line js :
  jobs_ok js -> (i < job_count js)%nat -> job_tab js !! i = Some j -> job_leader_done j = 0 ->
  honest js (upd_job i (set_leader_done 1) js) [(i, line)].
Proof.
  intros Ho Hi Hj Hd.
  destruct (honest_upd i (set_leader_done 1) js Ho) as (H1 & H2 & H3 & _ & _); [done|done|].
  unfold honest. split_and!; auto; simpl.
  - intros k ->%list_elem_of_singleton. split.
    + split; [done|]. exists (set_leader_done 1 j). simpl. by rewrite list_lookup_alter_eq, Hj.
    + intros (_ & j' & Hj' & Hn). simplify_eq.
  - apply NoDup_singleton.
Qed.

Lemma find_active f js i :
  find_index f (active js) = Some i ->
  (i < job_count js)%nat /\ exists j, job_tab js !! i = Some j /\ f j = true.
Proof.
  intros [(j & Hj & Hf) _]%find_index_Some. unfold active in Hj.
  apply lookup_take_Some in Hj as [Hj Hi]. eauto.
Qed.

Lemma note_child_honest js pid status :
  jobs_ok js -> valid_pid pid ->
  exists js' rs, note_child js pid status = Some (js', rs) /\ honest js js' rs.
Proof.
  intros Ho Hp. unfold note_child.
  destruct (find_index _ (active js)) as [i|] eqn:Hf.
  2:{ exists js, []. split; [done|]. apply honest_silent; eauto. }
  apply find_active in Hf as (Hi & j & Hj & _).
  destruct (WIFSTOPPED status); [eexists _, _; split; [done | by apply honest_upd]|].
  destruct (WIFCONTINUED status); [eexists _, _; split; [done | by apply honest_upd]|].
  rewrite Hj. cbn [mbind option_bind].
  destruct (Z.eqb_spec (job_leader_done j) 0) as [Hd|Hd].
  - pose proof (Forall_lookup_1 _ _ _ _ (proj2 (proj2 Ho)) Hj) as [Hn _].
    destruct (report_ok (job_name j) pid (WIFEXITED status) Hn Hp) as (line & -> & _).
    cbn [mbind option_bind]. eexists _, _. split; [done|]. by eapply honest_report.
  - exists js, []. split; [done|]. apply honest_silent; eauto.
Qed.

Lemma note_children_honest cs : forall js,
  jobs_ok js -> Forall (fun c => valid_pid c.1) cs ->
  exists js' rs, note_children js cs = Some (js', rs) /\ honest js js' rs.
Proof.
  induction cs as [|[pid status] cs IH]; intros js Ho Hv; cbn [note_children].
  { exists js, []. split; [done|]. apply honest_silent; eauto. }
  apply Forall_cons in Hv as [Hp Hv].
  destruct (note_child_honest js pid status Ho) as (js1 & rs1 & -> & H1); [done|].
  cbn [mbind option_bind fst snd]. destruct (IH js1) as (js2 & rs2 & -> & H2); [apply H1 | done|].
  eexists _, _. split; [done|]. by eapply honest_trans.
Qed.

Lemma sweep_honest gone js : jobs_ok js -> honest js (sweep gone js) [].
Proof.
  intros (Hl & Hc & Hf). apply honest_silent; [|simpl; lia|].
  - split_and!; simpl; [by rewrite length_imap | done|]. apply Forall_lookup_2. intros i j'.
    rewrite list_lookup_imap. intros (j & Hj & ->)%fmap_Some. pose proof (Forall_lookup_1 _ _ _ _ Hf Hj).
    destruct (i <? job_count js)%nat; [|done]. unfold sweep_job. by destruct (_ && _).
  - intros i j Hi Hj. simpl. rewrite list_lookup_imap, Hj. simpl. eexists. split; [done|].
    destruct (i <? job_count js)%nat; [|done]. unfold sweep_job. by destruct (_ && _).
Qed.

Lemma save_chars_len s : forall buf, (length buf <= 255)%nat -> (length (save_chars s buf) <= 255)%nat.
Proof.
  induction s as [|c s IH]; intros buf Hl; simpl; [done|].
  destruct (Nat.ltb_spec (length buf) 255); [apply IH; len | done].
Qed.

Lemma save_tokens_len ts : forall buf, (length buf <= 255)%nat -> (length (save_tokens ts buf) <= 255)%nat.
Proof.
  induction ts as [|t ts IH]; intros buf Hl; simpl; [done|].
  destruct (Nat.ltb_spec (length buf) 255); [|done]. apply IH, save_chars_len.
  destruct (_ && _); len.
Qed.

Lemma new_job_ok pid stopped name ts : job_ok (new_job pid stopped name ts).
Proof.
  split; cbn [job_name job_command new_job]; [unfold save_name; rewrite length_take; lia | apply save_tokens_len; simpl; lia].
Qed.

Lemma push_job_honest j js :
  jobs_ok js -> job_ok j -> (job_count js < MAX_JOBS)%nat -> honest js (push_job j js) [].
Proof.
  intros (Hl & Hc & Hf) Hj Hlt. apply honest_silent; [|simpl; lia|].
  - split_and!; simpl; [by rewrite length_insert | lia|]. by apply Forall_insert.
  - intros i j' Hi Hj'. simpl. rewrite list_lookup_insert_ne by lia. eauto.
Qed.

Lemma jstep_honest e js :
  jobs_ok js -> valid_event e -> exists js' rs, jstep e js = Some (js', rs) /\ honest js js' rs.
Proof.
  intros Ho Hv. destruct e; simpl in *.
  - unfold handle_sigchld. destruct (note_children_honest cs js Ho Hv) as (js1 & rs & -> & H1).
    cbn [mbind option_bind fst snd]. eexists _, _. split; [done|]. rewrite <- (app_nil_r rs).
    eapply honest_trans; [done|]. apply sweep_honest. apply H1.
  - unfold note_traced_exit. destruct (find_index _ (active js)) as [i|] eqn:Hf.
    2:{ exists js, []. split; [done|]. apply honest_silent; eauto. }
    apply find_active in Hf as (Hi & j & Hj & Hd). apply andb_true_iff in Hd as [_ Hd%Z.eqb_eq].
    rewrite Hj. cbn [mbind option_bind].
    pose proof (Forall_lookup_1 _ _ _ _ (proj2 (proj2 Ho)) Hj) as [Hn _].
    destruct (report_ok (job_name j) pid (WIFEXITED status) Hn Hv) as (line & -> & _).
    cbn [mbind option_bind]. eexists _, _. split; [done|].
    pose proof (honest_report i j line js Ho Hi Hj Hd) as H1.
    destruct (gone (job_pid j)); [|done]. rewrite <- (app_nil_r [(i, line)]).
    eapply honest_trans; [done|]. by apply honest_upd; [apply H1| |].
  - eexists _, _. split; [done|]. unfold add_stopped_job.
    destruct (Nat.eqb_spec (job_count js) MAX_JOBS); [apply honest_silent; eauto|].
    apply push_job_honest; [done | apply new_job_ok | destruct Ho as (_ & ? & _); lia].
  - destruct (Nat.eqb_spec (job_count js) MAX_JOBS); [exists js, []; split; [done | apply honest_silent; eauto]|].
    destruct ts as [|t ts]; [done|]. simpl. eexists _, _. split; [done|].
    apply push_job_honest; [done | apply new_job_ok | destruct Ho as (_ & ? & _); lia].
  - eexists _, _. split; [done|]. unfold set_job_stopped.
    destruct (in_range index js); [by apply honest_upd | apply honest_silent; eauto].
  - eexists _, _. split; [done|]. unfold finish_job.
    destruct (in_range index js); [by apply honest_upd | apply honest_silent; eauto].
Qed.

Lemma jobs0_ok : jobs_ok jobs0.
Proof.
  split_and!; [apply length_replicate | simpl; lia|].
  apply Forall_replicate. split; simpl; lia.
Qed.

(** C29: whatever sequence of child notifications and job operations happens
    after the shell starts, no buffer of the job table or of the SIGCHLD
    handler overflows (at most 1024 jobs, 31-character names, 255-character
    commands, 96-byte report lines), and the exit of a job is reported at
    most once. *)
Theorem jobs_reported_once (es : list jevent) :
  Forall valid_event es ->
  exists js rs, jrun es jobs0 = Some (js, rs) /\ jobs_ok js /\ NoDup rs.*1.
Proof.
  intros Hv.
  assert (H : forall js, jobs_ok js -> exists js' rs, jrun es js = Some (js', rs) /\ honest js js' rs).
  { induction Hv as [|e es He Hv IH]; intros js Ho; cbn [jrun].
    - exists js, []. split; [done|]. apply honest_silent; eauto.
    - destruct (jstep_honest e js Ho He) as (js1 & rs1 & -> & H1). cbn [mbind option_bind fst snd].
      destruct (IH js1) as (js2 & rs2 & -> & H2); [apply H1|]. eexists _, _. split; [done|].
      by eapply honest_trans. }
  destruct (H jobs0 jobs0_ok) as (js & rs & E & Ho & _ & _ & _ & Hd). by eauto.
Qed.

(** Two jobs: one background, one stopped; the first exits twice. *)
Definition two_jobs : list jevent :=
  [JBackground 100 [mkToken TOKEN_WORD (str "%sleep"); mkToken TOKEN_WORD (str "5")];
   JStop 200 [mkToken TOKEN_WORD (str "vi")];
   JSigchld (fun _ => false) [(100, Exited 0); (200, Continued); (100, Signaled 9)];
   JTraced (fun _ => true) 200 (Signaled 2)].

Lemma jobs_reported_once_witness :
  exists js rs, jrun two_jobs jobs0 = Some (js, rs) /\ jobs_ok js /\ NoDup rs.*1.
Proof.
  apply (jobs_reported_once two_jobs). repeat constructor; simpl; discriminate || reflexivity || lia.
Defined.

(** The line that announces the exit of a job is the job's name, its pid
    in decimal and how it ended, and it fits the 96-byte buffer. *)
Theorem report_line_exact (name : cstr) (pid : Z) (normal : bool) :
  (length name <= 31)%nat -> 0 < pid < 2 ^ 31 ->
  exists line digits, report name pid normal = Some line /\ (length line <= 96)%nat /\
    Forall is_digit digits /\ dec_value digits = pid /\
    line = name ++ str " with pid " ++ digits ++
           (if normal then str " exited normally" else str " exited abnormally") ++ [LF].
Proof.
  intros Hn Hp. destruct (report_ok name pid normal Hn Hp) as (line & E & (ds & H1 & H2 & H3) & Hl).
  exists line, ds. auto.
Qed.

Lemma report_line_exact_witness :
  exists line digits, report (str "sleep") 4321 false = Some line /\ (length line <= 96)%nat /\
    Forall is_digit digits /\ dec_value digits = 4321 /\
    line = str "sleep" ++ str " with pid " ++ digits ++ str " exited abnormally" ++ [LF].
Proof. apply (report_line_exact (str "sleep") 4321 false); simpl; lia. Defined.

(** ** The saved command *)

(** The texts of the tokens separated by single blanks, untruncated. *)
Fixpoint join_tokens (ts : list Token) (buf : cstr) : cstr :=
  match ts with
  | [] => buf
  | t :: ts' => join_tokens ts' ((if (0 <? length buf)%nat then buf ++ [" "%char] else buf) ++ text t)
  end.

Lemma save_chars_take s : forall buf, (length buf <= 255)%nat -> save_chars s buf = take 255 (buf ++ s).
Proof.
  induction s as [|c s IH]; intros buf Hl; cbn [save_chars]; [by rewrite app_nil_r, take_ge|].
  destruct (Nat.ltb_spec (length buf) 255).
  - rewrite IH by len. by rewrite <- app_assoc.
  - rewrite take_app_le by lia. by rewrite take_ge by lia.
Qed.

Lemma join_tokens_prefix ts : forall buf, exists s, join_tokens ts buf = buf ++ s.
Proof.
  induction ts as [|t ts IH]; intros buf; [exists []; by rewrite app_nil_r|]. cbn [join_tokens].
  destruct (IH ((if (0 <? length buf)%nat then buf ++ [" "%char] else buf) ++ text t)) as [s ->].
  destruct (0 <? length buf)%nat; rewrite <- ?app_assoc; eauto.
Qed.

Lemma save_tokens_take ts : forall buf,
  (length buf <= 255)%nat -> save_tokens ts buf = take 255 (join_tokens ts buf).
Proof.
  induction ts as [|t ts IH]; intros buf Hl; cbn [save_tokens join_tokens]; [by rewrite take_ge|].
  assert (Hfull : forall b, length b = 255%nat -> b = take 255 (join_tokens ts b)).
  { intros b Hb. destruct (join_tokens_prefix ts b) as [s ->]. rewrite take_app_le by lia. by rewrite take_ge by lia. }
  destruct (Nat.ltb_spec (length buf) 255) as [Hlt|Hge].
  - rewrite andb_true_r. set (b := if (0 <? length buf)%nat then buf ++ [" "%char] else buf).
    assert (Hb : (length b <= 255)%nat) by (unfold b; destruct (0 <? length buf)%nat; len).
    rewrite save_chars_take by done. rewrite IH by (rewrite length_take; lia).
    destruct (decide (length (b ++ text t) <= 255)%nat) as [Hs|Hs]; [by rewrite (take_ge (b ++ text t))|].
    rewrite <- Hfull by (rewrite length_take; lia).
    destruct (join_tokens_prefix ts (b ++ text t)) as [s ->]. by rewrite (take_app_le (b ++ text t) s) by lia.
  - assert (Hb : length buf = 255%nat) by lia.
    destruct (join_tokens_prefix (t :: ts) buf) as [s E]. cbn [join_tokens] in E. rewrite E.
    rewrite take_app_le by lia. by rewrite take_ge by lia.
Qed.

(** The command text kept for a job is the first 255 characters of its
    tokens separated by single blanks. *)
Theorem save_command_truncates (ts : list Token) : save_command ts = take 255 (join_tokens ts []).
Proof. unfold save_command. apply save_tokens_take. simpl. lia. Qed.
