(* ===== verification/Resume.v ===== *)
(** * Resuming and signalling jobs (c-shell/src/resume.c, ping.c)

    The [resume] and [ping] builtins over the job table.  What they do to the
    outside world is returned as a list of actions; the replies of the
    operating system ([waitpid], the timer, [kill], [getpgid]) are
    arguments. *)
From S2P Require Import Prelude Lexer Jobs.
Local Open Scope Z_scope.

Inductive action :=
  | Print (s : cstr)
  | Complain (s : cstr)
  | Kill (target sig : Z)
  | Terminal (pgid : Z).

Definition SIGTERM : Z := 15.
Definition SIGCONT : Z := 18.
Definition SIGINT : Z := 2.
Definition LONG_MAX : Z := 2 ^ 63 - 1.

Definition line (s : string) : cstr := str s ++ [LF].

(** Decimal output of [%d] for a non-negative value below 10^16. *)
Definition decimal (n : Z) : cstr :=
  if n =? 0 then str "0" else rev (default [] (digits_loop 20 n [])).

(** ** Numbers *)
Definition is_digitb (c : ascii) : bool := (48 <=? code c) && (code c <=? 57).

(** The digits at the start of a string, and the rest. *)
Fixpoint span_digits (s : cstr) : cstr * cstr :=
  match s with
  | [] => ([], [])
  | c :: s' => if is_digitb c then let '(d, r) := span_digits s' in (c :: d, r) else ([], s)
  end.

(** [strtol] on a string that starts with a digit: the value, where it
    stopped, and whether [errno] became ERANGE. *)
Definition strtol (s : cstr) : Z * cstr * bool :=
  let '(d, r) := span_digits s in (Z.min (dec_value d) LONG_MAX, r, LONG_MAX <? dec_value d).

Definition parse_number (txt : cstr) : option Z :=
  if (code (char_at txt 0) <? 48) || (57 <? code (char_at txt 0)) then None
  else
    let '(value, rest, range) := strtol txt in
    if range || negb (bool_decide (rest = [])) then None else Some value.

(** [parse_id] of [ping.c] is the same text. *)
Definition parse_id : cstr -> option Z := parse_number.

Fixpoint signal_loop (s : cstr) (result : Z) : option Z :=
  match s with
  | [] => Some result
  | c :: s' =>
      if (code c <? 48) || (57 <? code c) then None
      else signal_loop s' (Z.rem (i32 (i32 (result * 10) + (code c - 48))) 64)
  end.

Definition parse_signal (txt : cstr) : option Z :=
  match txt with [] => None | _ => signal_loop txt 0 end.

(** ** Waiting for a group *)
Inductive outcome := WAIT_DONE | WAIT_STOPPED | WAIT_TIMEOUT.

(** A reply of [waitpid]: a child, an interrupted call, or no child left. *)
Inductive wreply := Child (s : wstatus) | Eintr | Echild.

Definition WTERMSIG_INT (s : wstatus) : bool :=
  match s with Signaled sig => sig =? SIGINT | _ => false end.

(** The loop of [wait_group]: each turn sees whether the timer has fired and
    then the reply of [waitpid]; [None] when the replies run out, that is,
    when [waitpid] has not answered yet. *)
Fixpoint wait_loop (pgid timeout : Z) (interrupted : bool) (turns : list (bool * wreply)) :
    option (outcome * list action) :=
  match turns with
  | [] => None
  | (fired, reply) :: turns' =>
      if (0 <? timeout) && fired then Some (WAIT_TIMEOUT, [Kill (- pgid) SIGTERM])
      else
        match reply with
        | Child s =>
            if WIFSTOPPED s then Some (WAIT_STOPPED, [])
            else wait_loop pgid timeout (interrupted || WTERMSIG_INT s) turns'
        | Eintr => wait_loop pgid timeout interrupted turns'
        | Echild => Some (WAIT_DONE, if interrupted then [Print [LF]] else [])
        end
  end.

Definition wait_group (pgid timeout : Z) (turns : list (bool * wreply)) : option (outcome * list action) :=
  wait_loop pgid timeout false turns.

(** ** resume *)
Definition all_words (ts : list Token) : bool := forallb (fun t => bool_decide (type t = TOKEN_WORD)) ts.

Definition print_stopped (number : Z) (js : jobs) : list action :=
  if (number <? 1) || (Z.of_nat (job_count js) <? number) then []
  else match job_tab js !! Z.to_nat (number - 1) with
       | Some j => [Print ([LF] ++ str "[" ++ decimal number ++ str "] + Stopped   " ++ job_command j ++ [LF])]
       | None => []
       end.

Definition resume_syntax : list action := [Complain (line "resume: invalid syntax")].

(** The arguments of [resume], after the checks on their number. *)
Record request := mkRequest { rq_number : Z; rq_foreground : bool; rq_timeout : Z }.

Definition resume_request (ts : list Token) : option request :=
  if negb (all_words ts) then None
  else match ts with
  | [_; t1; t2] | [_; t1; t2; _; _] =>
      match text t1 with
      | c :: rest =>
          if negb (ceq c "%") then None
          else
            number ← parse_number rest;
            fg ← (if streq (text t2) (str "fg") then Some true
                  else if streq (text t2) (str "bg") then Some false else None);
            match ts with
            | [_; _; _; t3; t4] =>
                if negb fg || negb (streq (text t3) (str "--timeout")) then None
                else
                  timeout ← parse_number (text t4);
                  if timeout <=? 0 then None else Some (mkRequest number fg timeout)
            | _ => Some (mkRequest number fg 0)
            end
      | [] => None
      end
  | _ => None
  end.

Section Resume.
Context (background_child : bool) (shell_pgrp : Z).

(** [run_resume]: its value, the new job table, and what it did; [None] while
    the group still runs. *)
Definition run_resume (turns : list (bool * wreply)) (ts : list Token) (js : jobs) :
    option (Z * jobs * list action) :=
  match ts with
  | [] => Some (0, js, [])
  | t0 :: _ =>
      if negb (bool_decide (type t0 = TOKEN_WORD)) || negb (streq (text t0) (str "resume")) then Some (0, js, [])
      else match resume_request ts with
      | None => Some (1, js, resume_syntax)
      | Some rq =>
          match (if (0 <? rq_number rq) && (rq_number rq <=? 100000) then find_job (rq_number rq) js else None) with
          | None => Some (1, js, [Complain (line "resume: no such job")])
          | Some (index, pgid) =>
              if negb (rq_foreground rq) then
                let js1 := set_job_stopped index 0 js in
                Some (1, js1, [Kill (- pgid) SIGCONT;
                               Print (str "[" ++ decimal (index + 1) ++ str "] + Running   " ++
                                      job_command_text index js1 ++ [LF])])
              else if background_child then Some (1, js, resume_syntax)
              else
                let js1 := set_job_stopped index 0 js in
                w ← wait_group pgid (rq_timeout rq) turns;
                let '(out, acts) := w in
                let pre := [Print (job_command_text index js ++ [LF]); Terminal pgid; Kill (- pgid) SIGCONT] ++
                           acts ++ [Terminal shell_pgrp] in
                match out with
                | WAIT_STOPPED =>
                    let js2 := set_job_stopped index 1 js1 in
                    Some (1, js2, pre ++ print_stopped (index + 1) js2)
                | WAIT_DONE => Some (1, finish_job index js1, pre)
                | WAIT_TIMEOUT =>
                    Some (1, finish_job index js1, pre ++ [Complain (line "resume: job timed out")])
                end
          end
      end
  end.
End Resume.

(** ** ping *)
Definition no_such_process : list action := [Complain (line "ping: no such process found")].

(** [getpgid] and the result of [kill] are arguments. *)
Definition run_ping (getpgid : Z -> Z) (kill : Z -> Z -> Z) (ts : list Token) (js : jobs) : Z * list action :=
  match ts with
  | [] => (0, [])
  | t0 :: _ =>
      if negb (bool_decide (type t0 = TOKEN_WORD)) || negb (streq (text t0) (str "ping")) then (0, [])
      else match ts with
      | [_; t1; t2] =>
          if negb (all_words [t1; t2]) then (1, [Complain (line "ping: invalid syntax")])
          else match parse_signal (text t2) with
          | None => (1, [Complain (line "ping: invalid syntax")])
          | Some sig =>
              let target :=
                match text t1 with
                | c :: rest =>
                    if ceq c "%" then
                      match parse_id rest with
                      | Some id =>
                          if (id <=? 0) || (100000 <? id) then None
                          else (fun r => - r.2) <$> find_job id js
                      | None => None
                      end
                    else
                      match parse_id (text t1) with
                      | Some id =>
                          if (id <=? 0) || (100000000 <? id) || negb (is_tracked_pid (getpgid id) js) then None
                          else Some id
                      | None => None
                      end
                | [] => None
                end in
              match target with
              | None => (1, no_such_process)
              | Some p =>
                  if negb (kill p sig =? 0) then (1, Kill p sig :: no_such_process)
                  else (1, [Kill p sig; Print (str "Sent signal " ++ text t2 ++ str " to " ++ text t1 ++ [LF])])
              end
          end
      | _ => (1, [Complain (line "ping: invalid syntax")])
      end
  end.

(** ** Numbers are read as their decimal value *)
Lemma is_digitb_spec c : is_digitb c = true <-> is_digit c.
Proof. unfold is_digitb, is_digit. rewrite andb_true_iff, !Z.leb_le. done. Qed.

Lemma span_digits_all s : Forall is_digit s -> span_digits s = (s, []).
Proof.
  intros H. induction H as [|c s Hc _ IH]; [done|]. simpl.
  apply is_digitb_spec in Hc. by rewrite Hc, IH.
Qed.

Lemma span_digits_nil s d : span_digits s = (d, []) -> d = s /\ Forall is_digit s.
Proof.
  revert d. induction s as [|c s IH]; intros d; simpl; [intros [= <-]; by constructor|].
  destruct (is_digitb c) eqn:Hc; [|discriminate]. destruct (span_digits s) as [d' r].
  intros [= <- ->]. destruct (IH d' eq_refl) as [-> H]. split; [done|]. constructor; [by apply is_digitb_spec | done].
Qed.

(** A job or process number is accepted exactly when it is a non-empty
    string of digits whose decimal value fits a [long], and is read as that
    value. *)
Theorem parse_number_decimal (s : cstr) (v : Z) :
  parse_number s = Some v <-> s <> [] /\ Forall is_digit s /\ dec_value s = v /\ v <= LONG_MAX.
Proof.
  unfold parse_number, strtol. destruct s as [|c s]; [simpl; naive_solver|].
  unfold char_at. cbn [nth]. split.
  - destruct (_ || _); [done|]. destruct (span_digits (c :: s)) as [d r] eqn:E.
    destruct (Z.ltb_spec LONG_MAX (dec_value d)); simpl; [done|].
    case_bool_decide as Hr; [|done]. subst r. apply span_digits_nil in E as [-> H2].
    intros [= <-]. split_and!; auto; lia.
  - intros (_ & Hd & Hv & Hl). pose proof Hd as Hd'. apply Forall_cons in Hd' as [[Hc1 Hc2] _].
    destruct (Z.ltb_spec (code c) 48); [lia|]. destruct (Z.ltb_spec 57 (code c)); [lia|]. simpl orb. cbv iota.
    rewrite span_digits_all by done. destruct (Z.ltb_spec LONG_MAX (dec_value (c :: s))); [lia|]. simpl.
    f_equal. lia.
Qed.

Lemma signal_loop_spec s : forall r, 0 <= r < 64 ->
  signal_loop s r = (if forallb is_digitb s
                     then Some ((fold_left (fun a c => 10 * a + (code c - 48)) s r) mod 64) else None).
Proof.
  induction s as [|c s IH]; intros r Hr; cbn [signal_loop forallb fold_left].
  { rewrite Z.mod_small by lia. done. }
  unfold is_digitb at 1. destruct (Z.ltb_spec (code c) 48); [by rewrite (proj2 (Z.leb_gt 48 (code c)))|].
  rewrite (proj2 (Z.leb_le 48 (code c))) by lia.
  destruct (Z.ltb_spec 57 (code c)); [by rewrite (proj2 (Z.leb_gt (code c) 57)) by lia|].
  rewrite (proj2 (Z.leb_le (code c) 57)) by lia. cbn [orb andb].
  rewrite (i32_id (r * 10)), i32_id by (unfold in_i32; lia).
  rewrite Z.rem_mod_nonneg by lia.
  rewrite IH by (apply Z.mod_pos_bound; lia).
  destruct (forallb is_digitb s); [|done]. f_equal.
  assert (Hfold : forall l a b, a mod 64 = b mod 64 ->
    fold_left (fun a c => 10 * a + (code c - 48)) l a mod 64 =
    fold_left (fun a c => 10 * a + (code c - 48)) l b mod 64).
  { induction l as [|x l IHl]; intros a b Hab; [done|]. cbn [fold_left]. apply IHl.
    rewrite (Z.add_mod (10 * a)), (Z.add_mod (10 * b)), (Z.mul_mod 10 a), (Z.mul_mod 10 b), Hab by lia. done. }
  apply Hfold. rewrite Z.mod_mod by lia. f_equal. lia.
Qed.

(** A signal number is accepted exactly when it is a non-empty string of
    digits, and is its decimal value modulo 64, whatever its length: the
    accumulation does not overflow. *)
Theorem parse_signal_mod64 (s : cstr) (v : Z) :
  parse_signal s = Some v <-> s <> [] /\ Forall is_digit s /\ v = dec_value s mod 64.
Proof.
  unfold parse_signal. destruct s as [|c s]; [naive_solver|]. rewrite signal_loop_spec by lia.
  fold (dec_value (c :: s)). destruct (forallb is_digitb (c :: s)) eqn:E.
  - rewrite forallb_forall in E. split.
    + intros [= <-]. split_and!; try done. apply Forall_forall. intros x Hx%list_elem_of_In. by apply is_digitb_spec, E.
    + by intros (_ & _ & ->).
  - split; [done|]. intros (_ & H & _). apply not_true_iff_false in E. destruct E.
    apply forallb_forall. intros x Hx%list_elem_of_In. apply is_digitb_spec. by eapply Forall_forall.
Qed.

(** ** The effect of resume *)
Lemma find_job_Some n js index pgid :
  find_job n js = Some (index, pgid) ->
  index = n - 1 /\ in_range index js = true /\
  exists j, job_tab js !! Z.to_nat index = Some j /\ job_live j <> 0 /\ job_pid j = pgid.
Proof.
  unfold find_job. destruct (in_range (n - 1) js) eqn:Hr; [|done].
  destruct (job_tab js !! Z.to_nat (n - 1)) as [j|] eqn:Hj; [|done]. cbn [mbind option_bind].
  destruct (Z.eqb_spec (job_live j) 0); [done|]. intros [= <- <-]. eauto 10.
Qed.

Lemma set_job_stopped_find n v js index pgid :
  find_job n js = Some (index, pgid) -> find_job n (set_job_stopped index v js) = Some (index, pgid).
Proof.
  intros (-> & Hr & j & Hj & Hl & Hp)%find_job_Some. unfold set_job_stopped. rewrite Hr. unfold find_job.
  assert (Hr' : in_range (n - 1) (upd_job (Z.to_nat (n - 1)) (set_stopped v) js) = true) by done.
  rewrite Hr'. simpl. rewrite list_lookup_alter_eq, Hj. simpl.
  destruct (Z.eqb_spec (job_live j) 0); [done|]. by rewrite Hp.
Qed.

Lemma finish_job_find n js index pgid :
  find_job n js = Some (index, pgid) -> find_job n (finish_job index js) = None.
Proof.
  intros (-> & Hr & j & Hj & Hl & Hp)%find_job_Some. unfold finish_job. rewrite Hr. unfold find_job.
  assert (Hr' : in_range (n - 1) (upd_job (Z.to_nat (n - 1)) (set_stopped 0 ∘ set_live 0) js) = true) by done.
  rewrite Hr'. simpl. by rewrite list_lookup_alter_eq, Hj.
Qed.

Lemma in_range_lookup index js : in_range index js = true -> (Z.to_nat index < job_count js)%nat.
Proof. unfold in_range. rewrite negb_true_iff, orb_false_iff, Z.ltb_ge, Z.leb_gt. lia. Qed.

Lemma set_job_stopped_has n js index pgid :
  find_job n js = Some (index, pgid) -> has_stopped_jobs (set_job_stopped index 1 js) = true.
Proof.
  intros (-> & Hr & j & Hj & Hl & Hp)%find_job_Some. unfold set_job_stopped. rewrite Hr.
  unfold has_stopped_jobs. apply existsb_exists. exists (set_stopped 1 j). split.
  - apply list_elem_of_In. eapply (list_elem_of_lookup_2 _ (Z.to_nat (n - 1))). unfold active. simpl.
    rewrite lookup_take_lt by (by apply in_range_lookup). by rewrite list_lookup_alter_eq, Hj.
  - unfold truth. simpl. destruct (Z.eqb_spec (job_live j) 0); done.
Qed.

(** The job a [resume] command names, and whether it asks for the foreground. *)
Definition resumes (ts : list Token) (js : jobs) (fg : bool) (n pgid : Z) : Prop :=
  exists t0 rest rq index, ts = t0 :: rest /\ type t0 = TOKEN_WORD /\ text t0 = str "resume" /\
    resume_request ts = Some rq /\ rq_foreground rq = fg /\ rq_number rq = n /\ 0 < n <= 100000 /\
    find_job n js = Some (index, pgid).

(** The process groups that were given the terminal, in order. *)
Definition terminals (acts : list action) : list Z :=
  omap (fun a => match a with Terminal p => Some p | _ => None end) acts.

Lemma terminals_app a b : terminals (a ++ b) = terminals a ++ terminals b.
Proof. apply omap_app. Qed.

Lemma wait_loop_terminals pgid timeout turns : forall i out acts,
  wait_loop pgid timeout i turns = Some (out, acts) -> terminals acts = [].
Proof.
  induction turns as [|[fired reply] turns IH]; intros i out acts; cbn [wait_loop]; [done|].
  destruct (_ && _); [by intros [= <- <-]|]. destruct reply as [s| |]; [|by apply IH|].
  - destruct (WIFSTOPPED s); [by intros [= <- <-] | apply IH].
  - intros [= <- <-]. by destruct i.
Qed.

Lemma print_stopped_terminals n js : terminals (print_stopped n js) = [].
Proof. unfold print_stopped. destruct (_ || _); [done|]. by destruct (job_tab js !! _). Qed.

Lemma terminals_handover s pgid acts sig shell_pgrp rest :
  terminals acts = [] -> terminals rest = [] ->
  terminals ((Print s :: Terminal pgid :: Kill (- pgid) sig :: acts ++ [Terminal shell_pgrp]) ++ rest) =
  [pgid; shell_pgrp].
Proof.
  intros H1 H2. rewrite terminals_app, H2, app_nil_r.
  change (terminals (Print s :: Terminal pgid :: Kill (- pgid) sig :: acts ++ [Terminal shell_pgrp]))
    with (pgid :: terminals (acts ++ [Terminal shell_pgrp])).
  by rewrite terminals_app, H1.
Qed.

(** A foreground [resume] hands the terminal to the job and always takes
    it back for the shell; afterwards the job is finished, or stopped again
    and still resumable, according to how the wait ended. *)
Theorem resume_foreground (shell_pgrp n pgid : Z) (turns : list (bool * wreply)) (ts : list Token)
    (js js' : jobs) (r : Z) (acts : list action) :
  resumes ts js true n pgid ->
  run_resume false shell_pgrp turns ts js = Some (r, js', acts) ->
  r = 1 /\ terminals acts = [pgid; shell_pgrp] /\
  (find_job n js' = None \/
   ((exists index, find_job n js' = Some (index, pgid)) /\ has_stopped_jobs js' = true)).
Proof.
  intros (t0 & rest & rq & index & -> & Ht & Hx & Hrq & Hfg & Hn & Hrange & Hf).
  unfold run_resume. rewrite Ht, Hx, Hrq. rewrite bool_decide_true by done.
  assert (Hs : streq (str "resume") (str "resume") = true) by reflexivity. rewrite Hs. cbn [negb orb].
  rewrite Hn, (proj2 (Z.ltb_lt 0 n)), (proj2 (Z.leb_le n 100000)) by lia. cbn [andb].
  rewrite Hf, Hfg. cbn [negb].
  destruct (wait_group pgid (rq_timeout rq) turns) as [[out wacts]|] eqn:Hw; [|done]. cbn [mbind option_bind].
  apply wait_loop_terminals in Hw.
  pose proof (set_job_stopped_find n 0 js index pgid Hf) as Hf1.
  destruct out; intros [= <- <- <-]; (split; [done|]); (split; [|try by left; eapply finish_job_find]).
  - by rewrite <- (app_nil_r (_ :: _)), terminals_handover.
  - rewrite !app_comm_cons. apply terminals_handover; [done | apply print_stopped_terminals].
  - right. split; [exists index; by apply set_job_stopped_find | by eapply set_job_stopped_has].
  - rewrite !app_comm_cons. by apply terminals_handover.
Qed.

Definition resume_demo : list Token :=
  [mkToken TOKEN_WORD (str "resume"); mkToken TOKEN_WORD (str "%2"); mkToken TOKEN_WORD (str "fg");
   mkToken TOKEN_WORD (str "--timeout"); mkToken TOKEN_WORD (str "30")].
Definition resume_jobs1 : jobs := (add_stopped_job 300 [mkToken TOKEN_WORD (str "vi")] jobs0).2.
Definition resume_jobs2 : jobs := (add_stopped_job 400 [mkToken TOKEN_WORD (str "less")] resume_jobs1).2.

Lemma resume_foreground_witness :
  exists js' acts,
    run_resume false 77 [(false, Eintr); (false, Child (Exited 0)); (false, Child (Stopped 20))] resume_demo
      resume_jobs2 = Some (1, js', acts) /\
    1 = 1 /\ terminals acts = [400; 77] /\
    (find_job 2 js' = None \/
     ((exists index, find_job 2 js' = Some (index, 400)) /\ has_stopped_jobs js' = true)).
Proof.
  set (out := default (0, jobs0, []) (run_resume false 77
    [(false, Eintr); (false, Child (Exited 0)); (false, Child (Stopped 20))] resume_demo resume_jobs2)).
  exists out.1.2, out.2. split; [vm_compute; reflexivity|].
  apply (resume_foreground 77 2 400 [(false, Eintr); (false, Child (Exited 0)); (false, Child (Stopped 20))]
    resume_demo resume_jobs2); [|vm_compute; reflexivity].
  eexists _, _, (mkRequest 2 true 30), 1.
  split; [reflexivity|]. repeat (split; [vm_compute; reflexivity|]).
  split; [lia | vm_compute; reflexivity].
Defined.

(** The process a [ping] argument stands for. *)
Lemma tracked_job group js :
  is_tracked_pid group js = true ->
  exists i j, (i < job_count js)%nat /\ job_tab js !! i = Some j /\ job_live j <> 0 /\ job_pid j = group.
Proof.
  unfold is_tracked_pid. destruct (group <? 0); [done|].
  intros (j & Hin & Hj)%existsb_exists. apply list_elem_of_In, list_elem_of_lookup_1 in Hin as [i Hi].
  unfold active in Hi. apply lookup_take_Some in Hi as [Hi Hlt].
  apply andb_true_iff in Hj as [Hl Hp%Z.eqb_eq]. unfold truth in Hl.
  exists i, j. split_and!; auto. intros E. by rewrite E in Hl.
Qed.

(** [ping] only ever signals processes of the shell's own live jobs, with
    a signal number below 64. *)
Theorem ping_only_own_jobs (getpgid : Z -> Z) (kill : Z -> Z -> Z) (ts : list Token) (js : jobs) (target sig : Z) :
  Kill target sig ∈ (run_ping getpgid kill ts js).2 ->
  0 <= sig < 64 /\
  exists i j, (i < job_count js)%nat /\ job_tab js !! i = Some j /\ job_live j <> 0 /\
    (target = - job_pid j \/ (0 < target <= 100000000 /\ getpgid target = job_pid j)).
Proof.
  assert (Hno : forall a, a ∈ no_such_process -> a <> Kill target sig).
  { intros a Ha. unfold no_such_process in Ha. by apply list_elem_of_singleton in Ha as ->. }
  unfold run_ping. destruct ts as [|t0 ts]; [by intros ?%elem_of_nil|].
  destruct (_ || _); [by intros ?%elem_of_nil|].
  destruct ts as [|t1 [|t2 [|? ?]]]; try (by intros ?%list_elem_of_singleton).
  destruct (negb _); [by intros ?%list_elem_of_singleton|].
  destruct (parse_signal (text t2)) as [s|] eqn:Hs; [|by intros ?%list_elem_of_singleton].
  set (tgt := match text t1 with [] => None | _ :: _ => _ end).
  assert (Htgt : forall p, tgt = Some p -> exists i j, (i < job_count js)%nat /\ job_tab js !! i = Some j /\
    job_live j <> 0 /\ (p = - job_pid j \/ (0 < p <= 100000000 /\ getpgid p = job_pid j))).
  { intros p. unfold tgt. destruct (text t1) as [|c rest]; [done|]. destruct (ceq c "%").
    - destruct (parse_id rest) as [id|]; [|done]. destruct (_ || _); [done|].
      destruct (find_job id js) as [[index pgid]|] eqn:Hf; [|done]. simpl. intros [= <-].
      apply find_job_Some in Hf as (-> & Hr & j & Hj & Hl & Hp).
      eexists _, j. split_and!; [by apply in_range_lookup | done | done | left; lia].
    - destruct (parse_id (c :: rest)) as [id|]; [|done].
      destruct (Z.leb_spec id 0), (Z.ltb_spec 100000000 id); simpl; try done.
      destruct (is_tracked_pid (getpgid id) js) eqn:Htr; simpl; [|done]. intros [= <-].
      destruct (tracked_job _ _ Htr) as (i & j & Hi & Hj & Hl & Hp). exists i, j. split_and!; auto; right; lia. }
  clearbody tgt. destruct tgt as [p|]; simpl; [|by intros Hin%Hno].
  intros Hin. assert (Hk : Kill target sig = Kill p s).
  { destruct (kill p s =? 0); simpl in Hin; apply elem_of_cons in Hin as [?|Hin]; try done.
    - by apply list_elem_of_singleton in Hin.
    - by apply Hno in Hin. }
  injection Hk as -> ->. split; [|by apply Htgt].
  unfold parse_signal in Hs. destruct (text t2) as [|c rest]; [done|].
  rewrite signal_loop_spec in Hs by lia. destruct (forallb _ _); [|done]. injection Hs as <-.
  apply Z.mod_pos_bound. lia.
Qed.

Definition ping_demo : list Token :=
  [mkToken TOKEN_WORD (str "ping"); mkToken TOKEN_WORD (str "%2"); mkToken TOKEN_WORD (str "73")].

Lemma ping_only_own_jobs_witness :
  0 <= 9 < 64 /\
  exists i j, (i < job_count resume_jobs2)%nat /\ job_tab resume_jobs2 !! i = Some j /\ job_live j <> 0 /\
    (-400 = - job_pid j \/ (0 < -400 <= 100000000 /\ (fun p : Z => p) (-400) = job_pid j)).
Proof.
  apply (ping_only_own_jobs (fun p => p) (fun _ _ => 0) ping_demo resume_jobs2).
  vm_compute. apply list_elem_of_In. left. reflexivity.
Defined.
