(* ===== verification/Stages.v ===== *)
(** * Pipelines of the C-Shell (c-shell/src/c3c4.c, redirection.c)

    Building the stages of a pipeline: the arguments of each stage, the files
    opened for its redirections, and the error paths with the descriptors they
    close.  The operating system answers [open], [calloc], [mkstemp] and the
    copies; every descriptor opened or closed is logged. *)
From S2P Require Import Prelude Lexer Parser.
Local Open Scope Z_scope.

Inductive mode := RDONLY | TRUNC | APPEND.

Inductive fdev := Opened (fd : Z) (path : cstr) (m : mode) | Made (fd : Z) | Closed (fd : Z).

(** Replies of the system, over its state [W]: [open], an allocation,
    [mkstemp] with [unlink], the success of the copies and [lseek] of
    [join_inputs], [pipe], and [fdopen]. *)
Class Files (W : Type) := {
  open_file : cstr -> mode -> W -> Z * W;
  allocate : W -> bool * W;
  mkstemp : W -> Z * W;
  copy_inputs : Z -> Z -> Z -> W -> bool * W;
  make_pipe : W -> option (Z * Z) * W;
  open_stream : Z -> W -> bool * W
}.

Record Stage := mkStage {
  sg_start : nat;
  sg_end : nat;
  args : list cstr;
  input : Z;
  output : Z;
  files : list Z;
  nfiles : nat;
  tee : Z * Z
}.

(** A stage as [calloc] leaves it, and as [make_stages] initialises it. *)
Definition zero_stage : Stage := mkStage 0 0 [] 0 0 [] 0 (0, 0).
Definition fresh_stage (s e : nat) : Stage := mkStage s e [] (-1) (-1) [] 0 (-1, -1).

Definition add_arg (a : cstr) (s : Stage) : Stage :=
  mkStage (sg_start s) (sg_end s) (args s ++ [a]) (input s) (output s) (files s) (nfiles s) (tee s).
Definition set_input (fd : Z) (s : Stage) : Stage :=
  mkStage (sg_start s) (sg_end s) (args s) fd (output s) (files s) (nfiles s) (tee s).
Definition add_file (fd : Z) (s : Stage) : Stage :=
  mkStage (sg_start s) (sg_end s) (args s) (input s) (output s) (files s ++ [fd]) (S (nfiles s)) (tee s).

(** The end of [stage_args]: a single output file is the output itself. *)
Definition finish_stage (s : Stage) : Stage :=
  if (nfiles s =? 1)%nat then
    match files s with
    | f :: _ => mkStage (sg_start s) (sg_end s) (args s) (input s) f (files s) 0 (tee s)
    | [] => s
    end
  else s.

Section Stages.
Context {W : Type} `{!Files W}.

Definition world : Type := W * list fdev.

Definition do_open (path : cstr) (m : mode) (st : world) : Z * world :=
  let '(fd, w) := open_file path m st.1 in
  (fd, (w, if fd <? 0 then st.2 else st.2 ++ [Opened fd path m])).

Definition do_close (fd : Z) (st : world) : world := (st.1, st.2 ++ [Closed fd]).

(** [if(fd>=0) close(fd);] *)
Definition close_if (fd : Z) (st : world) : world := if 0 <=? fd then do_close fd st else st.

Definition join_inputs (first second : Z) (st : world) : Z * world :=
  let '(joined, w1) := mkstemp st.1 in
  if joined <? 0 then (joined, do_close second (do_close first (w1, st.2)))
  else
    let st1 := (w1, st.2 ++ [Made joined]) in
    let '(ok, w2) := copy_inputs first second joined st1.1 in
    let st2 := (w2, st1.2) in
    let '(r, st3) := if ok then (joined, st2) else (-1, do_close joined st2) in
    (r, do_close second (do_close first st3)).

(** The loop of [stage_args] over the tokens of the stage. *)
Fixpoint stage_loop (ts : list Token) (s : Stage) (st : world) : Z * Stage * world :=
  match ts with
  | [] => (0, s, st)
  | t :: ts' =>
      if is_word t then stage_loop ts' (add_arg (text t) s) st
      else if negb (is_redirection (type t)) then stage_loop ts' s st
      else match ts' with
      | [] => (-2, s, st)
      | t2 :: ts2 =>
          if negb (is_word t2) then (-2, s, st)
          else if bool_decide (type t = TOKEN_OP_LT) then
            let '(fd, st1) := do_open (text t2) RDONLY st in
            if fd <? 0 then (-1, s, st1)
            else if 0 <=? input s then
              let '(fd2, st2) := join_inputs (input s) fd st1 in
              let s1 := set_input (-1) s in
              if fd2 <? 0 then (-1, s1, st2) else stage_loop ts2 (set_input fd2 s1) st2
            else stage_loop ts2 (set_input fd s) st1
          else
            let m := if bool_decide (type t = TOKEN_OP_GT) then TRUNC else APPEND in
            let '(fd, st1) := do_open (text t2) m st in
            if fd <? 0 then (-4, s, st1)
            else
              let '(ok, w2) := allocate st1.1 in
              let st2 := (w2, st1.2) in
              if negb ok then (-3, s, do_close fd st2) else stage_loop ts2 (add_file fd s) st2
      end
  end.

Definition stage_args (tokens : list Token) (s : Stage) (st : world) : Z * Stage * world :=
  let '(ok, w) := allocate st.1 in
  if negb ok then (-3, s, (w, st.2))
  else
    let '(r, s1, st1) := stage_loop (take (sg_end s - sg_start s) (drop (sg_start s) tokens)) s (w, st.2) in
    if r =? 0 then (0, finish_stage s1, st1) else (r, s1, st1).

Fixpoint close_all (fds : list Z) (st : world) : world :=
  match fds with [] => st | fd :: fds' => close_all fds' (do_close fd st) end.

Definition free_stage (s : Stage) (st : world) : world :=
  close_all (take (nfiles s) (files s))
    (close_if (tee s).1 (close_if (output s) (close_if (input s) st))).

Fixpoint free_stages (stages : list Stage) (st : world) : world :=
  match stages with [] => st | s :: stages' => free_stages stages' (free_stage s st) end.

(** The stages from index [i] on, where [start] is the next token. *)
Fixpoint make_loop (n : nat) (tokens : list Token) (start limit : nat) (done : list Stage) (st : world) :
    Z * list Stage * world :=
  match n with
  | O => (1, done, st)
  | S n' =>
      let stop := match find_index (fun t => bool_decide (type t = TOKEN_OP_PIPE))
                          (take (limit - start) (drop start tokens)) with
                  | Some j => (start + j)%nat
                  | None => limit
                  end in
      let '(r, s, st1) := stage_args tokens (fresh_stage start stop) st in
      if r =? 0 then make_loop n' tokens (S stop) limit (done ++ [s]) st1
      else (r, [], free_stages (done ++ s :: replicate n' zero_stage) st1)
  end.

Definition ends_list (t : Token) : bool :=
  bool_decide (type t = TOKEN_OP_SEMI) || bool_decide (type t = TOKEN_OP_AMP).

Definition make_stages (tokens : list Token) (force : bool) (st : world) : Z * list Stage * world :=
  let limit := default (length tokens) (find_index ends_list tokens) in
  let count := S (length (filter (fun t => type t = TOKEN_OP_PIPE) (take limit tokens))) in
  if (count =? 1)%nat && negb force then (0, [], st)
  else
    let '(ok, w) := allocate st.1 in
    if negb ok then (-3, [], (w, st.2))
    else make_loop count tokens 0 limit [] (w, st.2).
End Stages.

(** ** Ledger of descriptors *)
Definition cnt (x : Z) (l : list Z) : nat := length (filter (fun y => y = x) l).

Definition opens (log : list fdev) : list Z :=
  omap (fun e => match e with Opened fd _ _ | Made fd => Some fd | Closed _ => None end) log.
Definition closes (log : list fdev) : list Z :=
  omap (fun e => match e with Closed fd => Some fd | _ => None end) log.

Definition nonneg (fd : Z) : list Z := if 0 <=? fd then [fd] else [].
Definition held (s : Stage) : list Z :=
  nonneg (input s) ++ nonneg (output s) ++ nonneg (tee s).1 ++ take (nfiles s) (files s).

(** Every descriptor opened has been closed once, except those in [fds]. *)
Definition balanced (log : list fdev) (fds : list Z) : Prop :=
  forall x, cnt x (opens log) = (cnt x (closes log) + cnt x fds)%nat.

Lemma cnt_app x a b : cnt x (a ++ b) = (cnt x a + cnt x b)%nat.
Proof. unfold cnt. by rewrite filter_app, length_app. Qed.

Lemma cnt_nil x : cnt x [] = 0%nat.
Proof. done. Qed.

Lemma opens_app a b : opens (a ++ b) = opens a ++ opens b.
Proof. apply omap_app. Qed.
Lemma closes_app a b : closes (a ++ b) = closes a ++ closes b.
Proof. apply omap_app. Qed.

Create Rewrite HintDb ledger.
#[export] Hint Rewrite cnt_app cnt_nil opens_app closes_app @app_nil_r : ledger.

Ltac ledger :=
  unfold balanced in *; intros;
  repeat match goal with H : forall x : Z, cnt x _ = _, y : Z |- _ => specialize (H y) end;
  autorewrite with ledger in *; simpl in *; autorewrite with ledger in *; try lia.

Section Balance.
Context {W : Type} `{!Files W}.

Lemma balanced_open log fd p m fds : balanced log fds -> balanced (log ++ [Opened fd p m]) (fd :: fds).
Proof. intros H x. change (fd :: fds) with ([fd] ++ fds). ledger. Qed.

Lemma balanced_close log fd fds : balanced log (fd :: fds) -> balanced (log ++ [Closed fd]) fds.
Proof. intros H x. change (fd :: fds) with ([fd] ++ fds) in H. ledger. Qed.

Lemma balanced_perm log fds fds' : (forall x, cnt x fds = cnt x fds') -> balanced log fds -> balanced log fds'.
Proof. intros H Hb x. rewrite <- H. apply Hb. Qed.

Lemma close_if_balanced fd fds (st : W * list fdev) :
  balanced st.2 (nonneg fd ++ fds) -> balanced (close_if fd st).2 fds.
Proof.
  unfold close_if, nonneg. destruct (0 <=? fd); simpl; [apply balanced_close | done].
Qed.

Lemma close_all_balanced l : forall fds (st : W * list fdev),
  balanced st.2 (l ++ fds) -> balanced (close_all l st).2 fds.
Proof.
  induction l as [|fd l IH]; intros fds st H; simpl in *; [done|].
  apply IH. simpl. by apply balanced_close.
Qed.

Lemma free_stage_balanced s fds (st : W * list fdev) :
  balanced st.2 (held s ++ fds) -> balanced (free_stage s st).2 fds.
Proof.
  intros H. unfold free_stage, held in *. apply close_all_balanced, close_if_balanced, close_if_balanced, close_if_balanced.
  eapply balanced_perm; [|exact H]. intros x. autorewrite with ledger. lia.
Qed.

Lemma free_stages_balanced ss : forall fds (st : W * list fdev),
  balanced st.2 (concat (held <$> ss) ++ fds) -> balanced (free_stages ss st).2 fds.
Proof.
  induction ss as [|s ss IH]; intros fds st H; simpl in *; [done|].
  apply IH, free_stage_balanced. by rewrite app_assoc.
Qed.

Lemma join_inputs_balanced a b fds (st : W * list fdev) :
  balanced st.2 (a :: b :: fds) ->
  let '(r, st') := join_inputs a b st in
  if r <? 0 then balanced st'.2 fds else balanced st'.2 (r :: fds).
Proof.
  intros H. unfold join_inputs. destruct (mkstemp st.1) as [joined w1].
  destruct (joined <? 0) eqn:Hj.
  - rewrite Hj. simpl. by apply balanced_close, balanced_close.
  - destruct (copy_inputs a b joined _) as [[|] w2]; simpl; [rewrite Hj|].
    + apply balanced_close, balanced_close. intros x. change (a :: b :: joined :: fds) with ([a] ++ [b] ++ [joined] ++ fds).
      change (a :: b :: fds) with ([a] ++ [b] ++ fds) in H. ledger.
    + apply balanced_close, balanced_close, balanced_close. intros x.
      change (joined :: a :: b :: fds) with ([joined] ++ [a] ++ [b] ++ fds).
      change (a :: b :: fds) with ([a] ++ [b] ++ fds) in H. ledger.
Qed.

(** A stage under construction. *)
Definition building (s : Stage) : Prop :=
  nfiles s = length (files s) /\ output s = -1 /\ tee s = (-1, -1) /\ Forall (fun f => 0 <= f) (files s).

Lemma held_building s : building s -> held s = nonneg (input s) ++ files s.
Proof. intros (E1 & E2 & E3 & _). unfold held. rewrite E1, E2, E3. simpl. by rewrite take_ge. Qed.

Lemma held_set_input fd s : building s -> held (set_input fd s) = nonneg fd ++ files s.
Proof. intros H. by apply (held_building (set_input fd s)). Qed.

Lemma building_add_file fd s : 0 <= fd -> building s -> building (add_file fd s).
Proof.
  intros Hfd (E1 & E2 & E3 & E4). unfold building. simpl. rewrite length_app, E1. simpl.
  split_and!; auto; [lia|]. apply Forall_app. auto.
Qed.

Lemma held_add_file fd s : 0 <= fd -> building s -> held (add_file fd s) = nonneg (input s) ++ files s ++ [fd].
Proof. intros Hfd Hb. by apply (held_building (add_file fd s)), building_add_file. Qed.

Lemma stage_loop_balanced n : forall ts s (st : W * list fdev) fds,
  (length ts <= n)%nat -> building s -> balanced st.2 (held s ++ fds) ->
  let '(r, s', st') := stage_loop ts s st in building s' /\ balanced st'.2 (held s' ++ fds).
Proof.
  induction n as [|n IH]; intros [|t ts] s st fds Hn Hb H; cbn [stage_loop length] in *; try done; [lia|].
  destruct (is_word t); [by apply IH; [lia | | ]|].
  destruct (negb _); [by apply IH; [lia | | ]|].
  destruct ts as [|t2 ts]; [done|]. destruct (negb (is_word t2)); [done|]. cbn [length] in Hn.
  rewrite (held_building s Hb) in H.
  destruct (bool_decide (type t = TOKEN_OP_LT)).
  - unfold do_open. destruct (open_file _ _ _) as [fd w]. destruct (Z.ltb_spec fd 0) as [Hfd|Hfd].
    { split; [done|]. by rewrite (held_building s Hb). }
    assert (Hfd' : nonneg fd = [fd]) by (unfold nonneg; by rewrite (proj2 (Z.leb_le 0 fd))).
    pose proof (balanced_open st.2 fd (text t2) RDONLY _ H) as H1.
    destruct (0 <=? input s) eqn:Hi.
    + assert (Hin : nonneg (input s) = [input s]) by (unfold nonneg; by rewrite Hi). rewrite Hin in H1.
      pose proof (join_inputs_balanced (input s) fd (files s ++ fds) (w, st.2 ++ [Opened fd (text t2) RDONLY])) as Hjoin.
      destruct (join_inputs (input s) fd _) as [fd2 st2].
      specialize (Hjoin ltac:(intros x; specialize (H1 x); simpl in H1 |- *;
        change (fd :: input s :: files s ++ fds) with ([fd] ++ [input s] ++ files s ++ fds) in H1;
        change (input s :: fd :: files s ++ fds) with ([input s] ++ [fd] ++ files s ++ fds); rewrite !cnt_app in *; lia)).
      destruct (fd2 <? 0) eqn:Hf2.
      * split; [done|]. rewrite (held_set_input (-1) s Hb). done.
      * apply IH; [lia | done|]. assert (Hn2 : nonneg fd2 = [fd2])
          by (unfold nonneg; apply Z.ltb_ge in Hf2; by rewrite (proj2 (Z.leb_le 0 fd2))).
        rewrite (held_set_input fd2 (set_input (-1) s) Hb), Hn2. done.
    + apply IH; [lia | done|]. rewrite (held_set_input fd s Hb), Hfd'.
      assert (Hin : nonneg (input s) = []) by (unfold nonneg; by rewrite Hi). rewrite Hin in H1. done.
  - unfold do_open. destruct (open_file _ _ _) as [fd w]. destruct (Z.ltb_spec fd 0) as [Hfd|Hfd].
    { split; [done|]. by rewrite (held_building s Hb). }
    set (m := if bool_decide (type t = TOKEN_OP_GT) then TRUNC else APPEND).
    pose proof (balanced_open st.2 fd (text t2) m _ H) as H1. cbn [fst snd].
    destruct (allocate w) as [[|] w2]; cbn [negb].
    + apply IH; [lia | | ].
      * by apply building_add_file.
      * rewrite (held_add_file fd s Hfd Hb). simpl. eapply balanced_perm; [|exact H1]. intros x.
        change (fd :: (nonneg (input s) ++ files s) ++ fds) with ([fd] ++ (nonneg (input s) ++ files s) ++ fds).
        rewrite !cnt_app. lia.
    + split; [done|]. rewrite (held_building s Hb). simpl. by apply balanced_close.
Qed.

Lemma stage_loop_building n : forall ts s (st : W * list fdev),
  (length ts <= n)%nat -> building s -> building (stage_loop ts s st).1.2.
Proof.
  induction n as [|n IH]; intros [|t ts] s st Hn Hb; cbn [stage_loop length] in *; try done; [lia|].
  destruct (is_word t); [by apply IH; [lia|]|]. destruct (negb _); [by apply IH; [lia|]|].
  destruct ts as [|t2 ts]; [done|]. destruct (negb (is_word t2)); [done|]. cbn [length] in Hn.
  destruct (bool_decide (type t = TOKEN_OP_LT)); destruct (do_open _ _ _) as [fd st1].
  - destruct (fd <? 0); [done|]. destruct (0 <=? input s); [|by apply IH; [lia|]].
    destruct (join_inputs _ _ _) as [fd2 st2]. destruct (fd2 <? 0); [done | by apply IH; [lia|]].
  - destruct (Z.ltb_spec fd 0); [done|]. destruct (allocate st1.1) as [[|] w2]; cbn [negb]; [|done].
    apply IH; [lia|]. by apply building_add_file.
Qed.

Lemma stage_loop_code n : forall ts s (st : W * list fdev),
  (length ts <= n)%nat -> (stage_loop ts s st).1.1 <= 0.
Proof.
  induction n as [|n IH]; intros [|t ts] s st Hn; cbn [stage_loop length] in *; try (simpl; lia).
  destruct (is_word t); [by apply IH; lia|]. destruct (negb _); [by apply IH; lia|].
  destruct ts as [|t2 ts]; [simpl; lia|]. destruct (negb (is_word t2)); [simpl; lia|]. cbn [length] in Hn.
  destruct (bool_decide (type t = TOKEN_OP_LT)); destruct (do_open _ _ _) as [fd st1].
  - destruct (fd <? 0); [simpl; lia|]. destruct (0 <=? input s); [|by apply IH; lia].
    destruct (join_inputs _ _ _) as [fd2 st2]. destruct (fd2 <? 0); [simpl; lia | by apply IH; lia].
  - destruct (fd <? 0); [simpl; lia|]. destruct (allocate st1.1) as [[|] w2]; cbn [negb]; [|simpl; lia].
    by apply IH; lia.
Qed.

Lemma stage_args_code tokens s (st : W * list fdev) : (stage_args tokens s st).1.1 <= 0.
Proof.
  unfold stage_args. destruct (allocate st.1) as [[|] w]; cbn [negb]; [|simpl; lia].
  pose proof (stage_loop_code _ (take (sg_end s - sg_start s) (drop (sg_start s) tokens)) s (w, st.2) (le_n _)) as Hc.
  destruct (stage_loop _ _ _) as [[r s1] st1]. destruct (r =? 0); simpl in *; lia.
Qed.

Lemma held_finish s : building s -> forall x, cnt x (held (finish_stage s)) = cnt x (held s).
Proof.
  intros Hb x. unfold finish_stage. destruct (Nat.eqb_spec (nfiles s) 1) as [E|]; [|done].
  rewrite (held_building s Hb). destruct Hb as (E1 & E2 & E3 & E4).
  destruct (files s) as [|f [|? ?]] eqn:Ef; simpl in E1; try lia. unfold held. simpl. rewrite E3. simpl.
  apply Forall_cons in E4 as [Hf _]. unfold nonneg at 2. by rewrite (proj2 (Z.leb_le 0 f)).
Qed.

Lemma stage_args_balanced tokens a b (st : W * list fdev) fds :
  balanced st.2 fds ->
  let '(r, s', st') := stage_args tokens (fresh_stage a b) st in balanced st'.2 (held s' ++ fds).
Proof.
  intros H. unfold stage_args. destruct (allocate st.1) as [[|] w]; cbn [negb]; [|done].
  pose proof (stage_loop_balanced _ (take (sg_end (fresh_stage a b) - sg_start (fresh_stage a b))
    (drop (sg_start (fresh_stage a b)) tokens)) (fresh_stage a b) (w, st.2) fds (le_n _)) as Hl.
  destruct (stage_loop _ _ _) as [[r s'] st'].
  destruct Hl as [Hb Hl]; [by split_and! | done|]. destruct (r =? 0); [|done].
  eapply balanced_perm; [|exact Hl]. intros x. by rewrite !cnt_app, held_finish.
Qed.

Lemma free_zero_stages k : forall (st : W * list fdev),
  (free_stages (replicate k zero_stage) st).2 = st.2 ++ replicate (3 * k) (Closed 0).
Proof.
  induction k as [|k IH]; intros st; [simpl; by rewrite app_nil_r|].
  replace (3 * S k)%nat with (S (S (S (3 * k)))) by lia. cbn [replicate free_stages]. rewrite IH.
  cbn. by rewrite <- !app_assoc.
Qed.

Lemma free_stages_app a : forall b (st : W * list fdev), free_stages (a ++ b) st = free_stages b (free_stages a st).
Proof. induction a as [|s a IH]; intros b st; simpl; auto. Qed.

(** What has been opened and closed after [make_stages]. *)
Definition settled (n : nat) (out : Z * list Stage * (W * list fdev)) : Prop :=
  let '(r, stages, st') := out in
  if r =? 1 then balanced st'.2 (concat (held <$> stages))
  else exists log k, st'.2 = log ++ replicate (3 * k) (Closed 0) /\ balanced log [] /\ (k < n)%nat.

Lemma make_loop_balanced n : forall tokens start limit done (st : W * list fdev),
  balanced st.2 (concat (held <$> done)) -> settled n (make_loop n tokens start limit done st) \/ n = 0%nat.
Proof.
  induction n as [|n IH]; intros tokens start limit done st H; [by right|]. left. cbn [make_loop].
  set (stop := match find_index _ _ with Some j => _ | None => limit end).
  pose proof (stage_args_balanced tokens start stop st _ H) as Hs.
  destruct (stage_args tokens (fresh_stage start stop) st) as [[r s] st1] eqn:Es.
  destruct (r =? 0) eqn:Er.
  - assert (Hd : balanced st1.2 (concat (held <$> (done ++ [s])))).
    { eapply balanced_perm; [|exact Hs]. intros x. rewrite fmap_app, concat_app. simpl.
      autorewrite with ledger. lia. }
    destruct n as [|n].
    + cbn [make_loop]. unfold settled. done.
    + destruct (IH tokens (S stop) limit (done ++ [s]) st1 Hd) as [H'|]; [|lia].
      revert H'. unfold settled. destruct (make_loop _ _ _ _ _ _) as [[r' ss'] st'].
      destruct (r' =? 1); [done|]. intros (log & k & E & Hb & Hk). exists log, k. split_and!; auto; lia.
  - unfold settled.
    pose proof (stage_args_code tokens (fresh_stage start stop) st) as Hc. rewrite Es in Hc. simpl in Hc.
    assert (Hr1 : (r =? 1) = false) by (apply Z.eqb_neq; lia).
    rewrite Hr1.
    change (s :: replicate n zero_stage) with ([s] ++ replicate n zero_stage).
    rewrite app_assoc, free_stages_app. eexists _, n. split; [apply free_zero_stages|]. split; [|lia].
    apply free_stages_balanced. eapply balanced_perm; [|exact Hs]. intros x.
    rewrite app_nil_r, fmap_app, concat_app. simpl. autorewrite with ledger. lia.
Qed.

Definition pipes (tokens : list Token) : nat := length (filter (fun t => type t = TOKEN_OP_PIPE) tokens).

Lemma make_stages_settled (tokens : list Token) (force : bool) (w : W) :
  settled (S (pipes tokens)) (make_stages tokens force (w, [])).
Proof.
  assert (H0 : balanced [] []) by done. unfold make_stages.
  set (limit := default (length tokens) (find_index ends_list tokens)).
  set (count := S (length (filter _ (take limit tokens)))).
  assert (Hc : (count <= S (pipes tokens))%nat).
  { unfold count, pipes. rewrite <- (take_drop limit tokens) at 2. rewrite filter_app, length_app. lia. }
  destruct (_ && _); [exists [], 0%nat; split_and!; [done | done | lia]|].
  destruct (allocate _) as [[|] w1]; cbn [negb]; [|exists [], 0%nat; split_and!; [done | done | lia]].
  destruct (make_loop_balanced count tokens 0 limit [] (w1, []) H0) as [H|]; [|done].
  revert H. cbn [snd]. destruct (make_loop count tokens 0 limit [] (w1, [])) as [[r ss] st]. unfold settled.
  destruct (r =? 1); [done|]. intros (log & k & E & Hb & Hk). exists log, k. split_and!; auto; lia.
Qed.

(** Descriptors of a pipeline.  When [make_stages] succeeds, every
    descriptor it opened is either closed or held by exactly one stage, so
    none leaks; when it fails, all of them are closed, but every stage after
    the one that failed also closes descriptor 0 three times, because the
    array comes zeroed from [calloc] and 0 is taken for an open descriptor. *)
Theorem make_stages_ledger (tokens : list Token) (force : bool) (w : W) :
  let '(r, stages, st) := make_stages tokens force (w, []) in
  if r =? 1 then balanced st.2 (concat (held <$> stages))
  else exists log later, st.2 = log ++ replicate (3 * later) (Closed 0) /\ balanced log [] /\
         (later <= pipes tokens)%nat.
Proof.
  pose proof (make_stages_settled tokens force w) as H.
  destruct (make_stages tokens force (w, [])) as [[r stages] st]. unfold settled in H.
  destruct (r =? 1); [done|]. destruct H as (log & k & E & Hb & Hk). exists log, k. split_and!; auto; lia.
Qed.

(** The codes of [make_stages]; nothing is opened when it answers 0. *)
Lemma make_stages_code tokens force (st : W * list fdev) :
  let '(r, _, st') := make_stages tokens force st in r <= 1 /\ (r = 0 -> st' = st).
Proof.
  unfold make_stages. destruct (_ && _); [done|]. destruct (allocate st.1) as [[|] w]; cbn [negb]; [|done].
  set (limit := default _ _). generalize (S (length (filter (fun t => type t = TOKEN_OP_PIPE) (take limit tokens)))).
  intros n. set (done := @nil Stage). clearbody done. generalize 0%nat as start, (w, st.2) as st1. clear w.
  revert done. induction n as [|n IH]; intros done start st1; cbn [make_loop]; [split; lia|].
  set (stop := match find_index _ _ with Some j => _ | None => limit end).
  pose proof (stage_args_code tokens (fresh_stage start stop) st1) as Hc.
  destruct (stage_args _ _ _) as [[r s] st2]. destruct (Z.eqb_spec r 0); [apply IH|]. simpl in Hc. split; lia.
Qed.

(** A finished stage has no pipe for several outputs yet. *)
Definition ready (s : Stage) : Prop := tee s = (-1, -1) /\ ((1 < nfiles s)%nat -> output s = -1).

Lemma finish_ready s : building s -> ready (finish_stage s).
Proof.
  intros (E1 & E2 & E3 & E4). unfold finish_stage, ready.
  destruct (Nat.eqb_spec (nfiles s) 1); [|done]. destruct (files s); simpl; split; auto; lia.
Qed.

Lemma stage_args_ready tokens a b (st : W * list fdev) :
  let '(r, s', st') := stage_args tokens (fresh_stage a b) st in r = 0 -> ready s'.
Proof.
  unfold stage_args. destruct (allocate st.1) as [[|] w]; cbn [negb]; [|done].
  pose proof (stage_loop_building _ (take (sg_end (fresh_stage a b) - sg_start (fresh_stage a b))
    (drop (sg_start (fresh_stage a b)) tokens)) (fresh_stage a b) (w, st.2) (le_n _)) as Hl.
  destruct (stage_loop _ _ _) as [[r s'] st'].
  destruct (r =? 0) eqn:E; [intros _; apply finish_ready, Hl; by split_and! | apply Z.eqb_neq in E; lia].
Qed.

Lemma make_loop_ready n : forall tokens start limit done (st : W * list fdev),
  Forall ready done ->
  let '(r, ss, st') := make_loop n tokens start limit done st in
  Forall ready ss /\ (r = 1 -> length ss = (length done + n)%nat).
Proof.
  induction n as [|n IH]; intros tokens start limit done st H; cbn [make_loop]; [by rewrite Nat.add_0_r|].
  set (stop := match find_index _ _ with Some j => _ | None => limit end).
  pose proof (stage_args_ready tokens start stop st) as Hs.
  pose proof (stage_args_code tokens (fresh_stage start stop) st) as Hc.
  destruct (stage_args tokens (fresh_stage start stop) st) as [[r s] st1].
  destruct (Z.eqb_spec r 0); [|simpl in *; split; [done | lia]].
  specialize (IH tokens (S stop) limit (done ++ [s]) st1 ltac:(apply Forall_app; auto)).
  destruct (make_loop _ _ _ _ _ _) as [[r' ss'] st']. rewrite length_app in IH. simpl in IH.
  destruct IH as [IH1 IH2]. split; [done|]. intros E. rewrite (IH2 E). lia.
Qed.

Lemma make_stages_ready tokens force (st : W * list fdev) :
  let '(r, ss, _) := make_stages tokens force st in Forall ready ss /\ (r = 1 -> ss <> []).
Proof.
  unfold make_stages. destruct (_ && _); [done|]. destruct (allocate _) as [[|] w]; cbn [negb]; [|done].
  set (c := length (filter _ _)).
  pose proof (make_loop_ready (S c) tokens 0 (default (length tokens) (find_index ends_list tokens)) []
    (w, st.2) (Forall_nil_2 _)) as H.
  destruct (make_loop _ _ _ _ _ _) as [[r ss] st']. destruct H as [H1 H2]. split; [done|].
  intros E ->. specialize (H2 E). simpl in H2. lia.
Qed.

End Balance.

(** ** A system where the only existing file is [f] *)
Definition DemoFiles : Type := nat.
#[export] Instance DemoFilesEnv : Files DemoFiles := {
  open_file p m w := if bool_decide (p = str "missing") then (-1, w) else (Z.of_nat w, S w);
  allocate w := (true, w);
  mkstemp w := (Z.of_nat w, S w);
  copy_inputs _ _ _ w := (true, w);
  make_pipe w := (Some (Z.of_nat w, Z.of_nat (S w)), S (S w));
  open_stream _ w := (true, w)
}.

Definition word (s : string) : Token := mkToken TOKEN_WORD (str s).
Definition oper (t : TokenType) : Token := mkToken t [].

(** [cat < missing | wc]: the shell loses its standard input. *)
Example missing_input_closes_stdin :
  let '(r, _, st) := make_stages [word "cat"; oper TOKEN_OP_LT; word "missing"; oper TOKEN_OP_PIPE; word "wc"] false
                       ((3%nat : DemoFiles), []) in
  r = -1 /\ st.2 = [Closed 0; Closed 0; Closed 0].
Proof. vm_compute. done. Qed.

(** ** The syntax of stages *)

(** The words of a command that are not the operand of a redirection. *)
Fixpoint words_of (ts : list Token) : list cstr :=
  match ts with
  | [] => []
  | t :: ts' =>
      if is_word t then text t :: words_of ts'
      else match ts' with _ :: ts2 => words_of ts2 | [] => [] end
  end.

(** Commands separated by pipes. *)
Inductive pipeseq : list Token -> list (list Token) -> Prop :=
  | pipe_one c : command c -> pipeseq c [c]
  | pipe_more c p rest cs :
      command c -> type p = TOKEN_OP_PIPE -> pipeseq rest cs -> pipeseq (c ++ p :: rest) (c :: cs).

(** A command, read from the left: a word and then words and redirections. *)
Inductive arglist : list Token -> Prop :=
  | arg_nil : arglist []
  | arg_word w a : is_word w = true -> arglist a -> arglist (w :: a)
  | arg_redir r w a : is_redirection (type r) = true -> is_word w = true -> arglist a -> arglist (r :: w :: a).

Lemma arglist_app a b : arglist a -> arglist b -> arglist (a ++ b).
Proof. induction 1; simpl; auto using arglist. Qed.

Lemma command_args c : command c -> exists w a, c = w :: a /\ is_word w = true /\ arglist a.
Proof.
  induction 1 as [w Hw|c w Hc (w0 & a & -> & Hw0 & Ha) Hw|c r w Hc (w0 & a & -> & Hw0 & Ha) Hr Hw].
  - exists w, []. split_and!; auto using arglist.
  - exists w0, (a ++ [w]). split_and!; auto using arglist_app, arglist.
  - exists w0, (a ++ [r; w]). split_and!; auto using arglist_app, arglist.
Qed.

Section Syntax.
Context {W : Type} `{!Files W}.

Lemma stage_loop_words a : arglist a -> forall s (st : W * list fdev),
  let '(r, s', _) := stage_loop a s st in r <> -2 /\ (r = 0 -> args s' = args s ++ words_of a).
Proof.
  induction 1 as [|w a Hw _ IH|r w a Hr Hw _ IH]; intros s st; cbn [stage_loop words_of].
  - split; [done|]. by rewrite app_nil_r.
  - rewrite Hw. specialize (IH (add_arg (text w) s) st). destruct (stage_loop a _ st) as [[r s'] st'].
    destruct IH as [H1 H2]. split; [done|]. intros E. rewrite (H2 E). simpl. by rewrite <- app_assoc.
  - rewrite (redirection_not_word r Hr), Hr, Hw. cbn [negb].
    destruct (bool_decide (type r = TOKEN_OP_LT)); destruct (do_open _ _ _) as [fd st1].
    + destruct (fd <? 0); [done|]. destruct (0 <=? input s).
      * destruct (join_inputs _ _ _) as [fd2 st2]. destruct (fd2 <? 0); [done|].
        apply (IH (set_input fd2 (set_input (-1) s)) st2).
      * apply (IH (set_input fd s) st1).
    + destruct (fd <? 0); [done|]. destruct (allocate st1.1) as [[|] w2]; cbn [negb]; [|done].
      apply (IH (add_file fd s) (w2, st1.2)).
Qed.

Lemma finish_args s : args (finish_stage s) = args s.
Proof. unfold finish_stage. destruct (_ =? 1)%nat; [|done]. by destruct (files s). Qed.

Lemma stage_args_words tokens a b c (st : W * list fdev) :
  take (b - a) (drop a tokens) = c -> command c ->
  let '(r, s', _) := stage_args tokens (fresh_stage a b) st in r <> -2 /\ (r = 0 -> args s' = words_of c).
Proof.
  intros Hc Hcmd. destruct (command_args c Hcmd) as (w & l & -> & Hw & Hl).
  unfold stage_args. destruct (allocate st.1) as [[|] w1]; cbn [negb]; [|done].
  cbn [sg_end sg_start fresh_stage]. rewrite Hc.
  pose proof (stage_loop_words (w :: l) (arg_word w l Hw Hl) (fresh_stage a b) (w1, st.2)) as H.
  destruct (stage_loop _ _ _) as [[r s'] st'].
  destruct H as [H1 H2]. destruct (Z.eqb_spec r 0); [|done]. split; [done|]. intros _. rewrite finish_args. by apply H2.
Qed.

Lemma command_no_pipe c : command c -> Forall (fun t => bool_decide (type t = TOKEN_OP_PIPE) = false) c.
Proof.
  assert (Hword : forall w, is_word w = true -> bool_decide (type w = TOKEN_OP_PIPE) = false).
  { intros w. unfold is_word. by destruct (type w). }
  assert (Hred : forall r, is_redirection (type r) = true -> bool_decide (type r = TOKEN_OP_PIPE) = false).
  { intros r. unfold is_redirection. by destruct (type r). }
  induction 1; rewrite ?Forall_app, ?Forall_cons; split_and!; auto.
Qed.

Lemma find_pipe c p rest : command c -> type p = TOKEN_OP_PIPE ->
  find_index (fun t => bool_decide (type t = TOKEN_OP_PIPE)) (c ++ p :: rest) = Some (length c).
Proof.
  intros Hc Hp. apply find_index_Some. split.
  - exists p. rewrite list_lookup_middle by done. split; [done|]. by apply bool_decide_true.
  - intros j y Hj Hy. rewrite lookup_app_l in Hy by done. exact (Forall_lookup_1 _ _ _ _ (command_no_pipe c Hc) Hy).
Qed.

Lemma find_no_pipe c : command c -> find_index (fun t => bool_decide (type t = TOKEN_OP_PIPE)) c = None.
Proof.
  intros Hc. apply find_index_None. intros x Hx. pose proof (command_no_pipe c Hc) as H.
  rewrite Forall_forall in H. by apply H.
Qed.

Lemma make_loop_words cs : forall rest tokens start done (st : W * list fdev),
  pipeseq rest cs -> drop start tokens = rest -> (start <= length tokens)%nat ->
  let '(r, ss, _) := make_loop (length cs) tokens start (length tokens) done st in
  r <> -2 /\ (r = 1 -> args <$> ss = (args <$> done) ++ (words_of <$> cs)).
Proof.
  intros rest tokens start done st Hp. revert tokens start done st.
  induction Hp as [c Hc|c p rest cs Hc Hpt Hp IH]; intros tokens start done st Hd Hs; cbn [length make_loop].
  - assert (Hrest : take (length tokens - start) (drop start tokens) = c)
      by (rewrite take_ge by (rewrite length_drop; lia); done).
    rewrite Hrest, (find_no_pipe c Hc).
    pose proof (stage_args_words tokens start (length tokens) c st Hrest Hc) as Hst.
    pose proof (stage_args_code tokens (fresh_stage start (length tokens)) st) as Hcode.
    destruct (stage_args tokens _ st) as [[r s] st1]. simpl in Hcode. destruct Hst as [H1 H2].
    destruct (Z.eqb_spec r 0) as [Hr|Hr]; (split; [done|]); [|lia].
    intros _. rewrite fmap_app. simpl. by rewrite (H2 Hr).
  - assert (Hlen : (length tokens - start = length c + S (length rest))%nat).
    { rewrite <- length_drop, Hd, length_app. done. }
    rewrite Hd, take_ge by (rewrite length_app; simpl; lia). rewrite (find_pipe c p rest Hc Hpt).
    assert (Hst0 : take (start + length c - start) (drop start tokens) = c).
    { rewrite Hd. replace (start + length c - start)%nat with (length c) by lia. apply take_app_length. }
    pose proof (stage_args_words tokens start (start + length c) c st Hst0 Hc) as Hst.
    pose proof (stage_args_code tokens (fresh_stage start (start + length c)) st) as Hcode.
    destruct (stage_args tokens _ st) as [[r s] st1]. simpl in Hcode. destruct Hst as [H1 H2].
    destruct (Z.eqb_spec r 0) as [Hr|Hr]; [|split; [done | lia]].
    assert (Hd' : drop (S (start + length c)) tokens = rest).
    { replace (S (start + length c)) with (start + S (length c))%nat by lia. rewrite <- drop_drop, Hd.
      by rewrite (app_assoc c [p] rest : c ++ p :: rest = _), drop_app_length' by (rewrite length_app; simpl; lia). }
    specialize (IH tokens (S (start + length c)) (done ++ [s]) st1 Hd' ltac:(lia)).
    destruct (make_loop _ _ _ _ _ _) as [[r' ss] st']. destruct IH as [H3 H4]. split; [done|].
    intros E. rewrite (H4 E), fmap_app, <- app_assoc. simpl. by rewrite (H2 Hr).
Qed.

Lemma pipeseq_no_end ts cs : pipeseq ts cs -> find_index ends_list ts = None.
Proof.
  assert (Hcmd : forall c, command c -> Forall (fun t => ends_list t = false) c).
  { assert (Hword : forall w, is_word w = true -> ends_list w = false)
      by (intros w; unfold is_word, ends_list; by destruct (type w)).
    assert (Hred : forall r, is_redirection (type r) = true -> ends_list r = false)
      by (intros r; unfold is_redirection, ends_list; by destruct (type r)).
    induction 1; rewrite ?Forall_app, ?Forall_cons; split_and!; auto. }
  intros H. apply find_index_None. apply Forall_forall.
  induction H as [c Hc|c p rest cs Hc Hp _ IH]; [by apply Hcmd|].
  apply Forall_app. split; [by apply Hcmd|]. apply Forall_cons. split; [|done].
  unfold ends_list. by rewrite Hp.
Qed.

Lemma pipeseq_pipes ts cs : pipeseq ts cs -> S (pipes ts) = length cs.
Proof.
  assert (Hcmd : forall c, command c -> filter (fun t => type t = TOKEN_OP_PIPE) c = []).
  { intros c Hc. pose proof (command_no_pipe c Hc) as H. clear Hc. induction H as [|t c Ht _ IH]; [done|].
    rewrite filter_cons_False; [done|]. by apply bool_decide_eq_false in Ht. }
  unfold pipes. induction 1 as [c Hc|c p rest cs Hc Hp _ IH]; [by rewrite Hcmd|].
  rewrite filter_app, filter_cons_True, Hcmd by done. simpl in *. lia.
Qed.

Lemma words_of_command c : command c -> exists w a, c = w :: a /\ head (words_of c) = Some (text w).
Proof. intros (w & a & -> & Hw & _)%command_args. exists w, a. simpl. by rewrite Hw. Qed.

(** A pipeline that the syntax check accepts never makes [make_stages]
    report a syntax error, and when it succeeds there is one stage per
    command, whose arguments are the words of the command without the
    operands of redirections; so each stage has a program name. *)
Theorem make_stages_args (tokens : list Token) (cs : list (list Token)) (force : bool) (st : W * list fdev) :
  pipeseq tokens cs ->
  let '(r, stages, _) := make_stages tokens force st in
  r <> -2 /\
  (r = 1 -> args <$> stages = words_of <$> cs /\ Forall (fun s => args s <> []) stages).
Proof.
  intros Hp. unfold make_stages. rewrite (pipeseq_no_end _ _ Hp). cbn [default]. rewrite take_ge by done.
  fold (pipes tokens). rewrite (pipeseq_pipes _ _ Hp).
  destruct (_ && _); [done|]. destruct (allocate st.1) as [[|] w]; cbn [negb]; [|done].
  pose proof (make_loop_words cs tokens tokens 0 [] (w, st.2) Hp eq_refl ltac:(lia)) as H.
  destruct (make_loop _ _ _ _ _ _) as [[r ss] st']. destruct H as [H1 H2]. split; [done|]. intros E.
  specialize (H2 E). simpl in H2. split; [done|]. apply Forall_lookup_2. intros i s Hs Hn.
  assert (Hi : (words_of <$> cs) !! i = Some []) by (rewrite <- H2, list_lookup_fmap, Hs; simpl; by rewrite Hn).
  rewrite list_lookup_fmap in Hi. apply fmap_Some in Hi as (c & Hc & Hw).
  assert (Hcmd : command c).
  { clear -Hp Hc. revert i Hc. induction Hp as [c' Hc'|c' p rest cs Hc' _ _ IH]; intros [|i] Hi; simplify_eq/=; eauto. }
  destruct (words_of_command c Hcmd) as (w0 & a & _ & Hh). by rewrite <- Hw in Hh.
Qed.
End Syntax.

(** [sort < a < b > out | uniq -c] *)
Definition sort_uniq : list Token :=
  [word "sort"; oper TOKEN_OP_LT; word "a"; oper TOKEN_OP_LT; word "b"; oper TOKEN_OP_GT; word "out";
   oper TOKEN_OP_PIPE; word "uniq"; word "-c"].

Lemma make_stages_args_witness :
  let '(r, stages, _) := make_stages sort_uniq false ((3%nat : DemoFiles), []) in
  r <> -2 /\
  (r = 1 -> args <$> stages = words_of <$> [take 7 sort_uniq; drop 8 sort_uniq] /\
            Forall (fun s => args s <> []) stages).
Proof.
  apply (make_stages_args sort_uniq [take 7 sort_uniq; drop 8 sort_uniq] false ((3%nat : DemoFiles), [])).
  apply (pipe_more (take 7 sort_uniq) (oper TOKEN_OP_PIPE)); [|reflexivity|apply pipe_one].
  - apply (command_redir [word "sort"; oper TOKEN_OP_LT; word "a"; oper TOKEN_OP_LT; word "b"]); try reflexivity.
    apply (command_redir [word "sort"; oper TOKEN_OP_LT; word "a"]); try reflexivity.
    apply (command_redir [word "sort"]); try reflexivity. apply command_name. reflexivity.
  - apply (command_arg [word "uniq"]); [apply command_name|]; reflexivity.
Defined.
