(* ===== verification/Plumbing.v ===== *)
(** * Redirections and pipes at run time (c-shell/src/c3c4.c, redirection.c)

    The write loops that must survive short writes and interrupted calls, the
    redirections of a single command, and the descriptor table of the child
    that runs one stage of a pipeline. *)
From S2P Require Import Prelude Lexer Parser Stages.
Local Open Scope Z_scope.

(** ** Copying data *)

(** Replies of [write] and [read]. *)
Inductive wres := Wrote (n : nat) | WEintr | WFail.
Inductive rres := Got (s : cstr) | REof | REintr | RFail.

(** [write_all]: status and bytes written so far; [None] while [write] has
    not answered. *)
Fixpoint write_all (replies : list wres) (buf : cstr) (out : cstr) : option (Z * cstr * list wres) :=
  match buf with
  | [] => Some (0, out, replies)
  | _ :: _ =>
      match replies with
      | [] => None
      | WFail :: rs => Some (-1, out, rs)
      | WEintr :: rs => write_all rs buf out
      | Wrote n :: rs => write_all rs (drop n buf) (out ++ take n buf)
      end
  end.

(** [copy_fd]: its inner loop is the loop of [write_all]. *)
Fixpoint copy_fd (reads : list rres) (writes : list wres) (out : cstr) : option (Z * cstr * list wres) :=
  match reads with
  | [] => None
  | REof :: _ => Some (0, out, writes)
  | REintr :: rs => copy_fd rs writes out
  | RFail :: _ => Some (-1, out, writes)
  | Got s :: rs =>
      match write_all writes s out with
      | None => None
      | Some (r, out', ws) => if r =? 0 then copy_fd rs ws out' else Some (-1, out', ws)
      end
  end.

Definition bytes_read (reads : list rres) : cstr :=
  concat (omap (fun r => match r with Got s => Some s | _ => None end) reads).

Lemma write_all_spec replies : forall buf out r out' rs,
  write_all replies buf out = Some (r, out', rs) ->
  (r = 0 /\ out' = out ++ buf) \/ (r = -1 /\ exists n, out' = out ++ take n buf).
Proof.
  induction replies as [|[n| |] replies IH]; intros buf out r out' rs; destruct buf as [|c buf]; cbn [write_all];
    try (intros [= <- <- <-]; left; by rewrite app_nil_r); try done.
  - intros [[-> ->]|[-> [m ->]]]%IH.
    + left. split; [done|]. by rewrite <- app_assoc, take_drop.
    + right. split; [done|]. exists (n + m)%nat. rewrite <- app_assoc, <- take_take_drop. done.
  - apply IH.
  - intros [= <- <- <-]. right. split; [done|]. exists 0%nat. by rewrite take_0, app_nil_r.
Qed.

(** Copying a redirected input is faithful: when [copy_fd] succeeds it has
    written exactly the bytes it read, in order, whatever short writes and
    interrupted calls happened on the way, and on an error it has written a
    prefix of them. *)
Theorem copy_fd_faithful (reads : list rres) (writes : list wres) (r : Z) (out : cstr) (ws : list wres) :
  copy_fd reads writes [] = Some (r, out, ws) ->
  (r = 0 /\ exists rs1 rs2, reads = rs1 ++ REof :: rs2 /\ out = bytes_read rs1) \/
  (r = -1 /\ exists n, out = take n (bytes_read reads)).
Proof.
  assert (H : forall reads writes out0, copy_fd reads writes out0 = Some (r, out, ws) ->
    (r = 0 /\ exists rs1 rs2, reads = rs1 ++ REof :: rs2 /\ out = out0 ++ bytes_read rs1) \/
    (r = -1 /\ exists n, out = out0 ++ take n (bytes_read reads))).
  { clear. induction reads as [|[s| | |] reads IH]; intros writes out0; cbn [copy_fd]; try done.
    - destruct (write_all writes s out0) as [[[r' out'] ws']|] eqn:Hw; [|done].
      apply write_all_spec in Hw as [[-> ->]|[-> [n ->]]]; simpl.
      + intros [(-> & rs1 & rs2 & -> & ->)|(-> & n & ->)]%IH.
        * left. split; [done|]. exists (Got s :: rs1), rs2. unfold bytes_read. simpl. by rewrite <- app_assoc.
        * right. split; [done|]. exists (length s + n)%nat. unfold bytes_read. simpl.
          by rewrite <- app_assoc, take_app_add.
      + intros [= <- <- <-]. right. split; [done|]. exists (Nat.min n (length s)). unfold bytes_read. simpl.
        rewrite take_app_le by lia. by rewrite <- (take_take s n (length s)), (take_ge s (length s)).
    - intros [= <- <- <-]. left. split; [done|]. exists [], reads. unfold bytes_read. simpl. by rewrite app_nil_r.
    - intros [(-> & rs1 & rs2 & -> & ->)|(-> & n & ->)]%IH; [left|right]; (split; [done|]).
      + by exists (REintr :: rs1), rs2.
      + by exists n.
    - intros [= <- <- <-]. right. split; [done|]. exists 0%nat. by rewrite take_0, app_nil_r. }
  apply (H reads writes []).
Qed.

Lemma copy_fd_faithful_witness :
  exists out ws, copy_fd [Got (str "abc"); REintr; Got (str "de"); REof]
                   [Wrote 1; WEintr; Wrote 2; Wrote 2; WFail] [] = Some (0, out, ws) /\
    ((0 = 0 /\ exists rs1 rs2, [Got (str "abc"); REintr; Got (str "de"); REof] = rs1 ++ REof :: rs2 /\
        out = bytes_read rs1) \/
     (0 = -1 /\ exists n, out = take n (bytes_read [Got (str "abc"); REintr; Got (str "de"); REof]))).
Proof.
  exists (str "abcde"), [WFail]. split; [reflexivity|].
  apply (copy_fd_faithful _ [Wrote 1; WEintr; Wrote 2; Wrote 2; WFail] 0 (str "abcde") [WFail]). reflexivity.
Defined.

(** ** Redirections of a single command *)
Record OutputRedirect := mkOutput { o_files : list Z; read_fd : Z; write_fd : Z }.

Definition output_redirect_init : OutputRedirect := mkOutput [] (-1) (-1).

Section Redirect.
Context {W : Type} `{!Files W}.

(** The loop of [collect_command]: the words, and the descriptor that holds
    all the inputs. *)
Fixpoint collect_loop (ts : list Token) (argv : list cstr) (inp : Z) (st : W * list fdev) :
    Z * list cstr * Z * (W * list fdev) :=
  match ts with
  | [] => (0, argv, inp, st)
  | t :: ts' =>
      if is_word t then collect_loop ts' (argv ++ [text t]) inp st
      else if negb (is_redirection (type t)) then collect_loop ts' argv inp st
      else match ts' with
      | [] => (-2, argv, inp, close_if inp st)
      | t2 :: ts2 =>
          if negb (is_word t2) then (-2, argv, inp, close_if inp st)
          else if bool_decide (type t = TOKEN_OP_LT) then
            let '(fd, st1) := do_open (text t2) RDONLY st in
            if fd <? 0 then (-1, argv, inp, close_if inp st1)
            else
              let '(inp', st2) := if inp <? 0 then (fd, st1) else join_inputs inp fd st1 in
              if inp' <? 0 then (-1, argv, inp', st2) else collect_loop ts2 argv inp' st2
          else collect_loop ts2 argv inp st
      end
  end.

(** [collect_command]: status, arguments, and the input stream if any. *)
Definition collect_command (ts : list Token) (st : W * list fdev) : Z * list cstr * option Z * (W * list fdev) :=
  let '(r, argv, inp, st1) := collect_loop ts [] (-1) st in
  if negb (r =? 0) then (r, argv, None, st1)
  else if 0 <=? inp then
    let '(ok, w) := open_stream inp st1.1 in
    if ok then (0, argv, Some inp, (w, st1.2)) else (-1, argv, None, do_close inp (w, st1.2))
  else (0, argv, None, st1).

(** The loop of [prepare_output]. *)
Fixpoint output_loop (ts : list Token) (fs : list Z) (st : W * list fdev) : Z * list Z * (W * list fdev) :=
  match ts with
  | [] => (0, fs, st)
  | t :: ts' =>
      if negb (bool_decide (type t = TOKEN_OP_GT)) && negb (bool_decide (type t = TOKEN_OP_GTGT)) then
        if is_separator (type t) then (0, fs, st) else output_loop ts' fs st
      else match ts' with
      | [] => (-2, fs, st)
      | t2 :: ts2 =>
          if negb (is_word t2) then (-2, fs, st)
          else
            let m := if bool_decide (type t = TOKEN_OP_GT) then TRUNC else APPEND in
            let '(fd, st1) := do_open (text t2) m st in
            if fd <? 0 then (-1, [], close_all fs st1)
            else
              let '(ok, w) := allocate st1.1 in
              let st2 := (w, st1.2) in
              if negb ok then (-1, [], close_all fs (do_close fd st2)) else output_loop ts2 (fs ++ [fd]) st2
      end
  end.

Definition prepare_output (ts : list Token) (st : W * list fdev) : Z * OutputRedirect * (W * list fdev) :=
  let '(r, fs, st1) := output_loop ts [] st in
  if negb (r =? 0) then (r, mkOutput fs (-1) (-1), st1)
  else if (0 <? length fs)%nat then
    let '(p, w) := make_pipe st1.1 in
    match p with
    | None => (-1, mkOutput [] (-1) (-1), close_all fs (w, st1.2))
    | Some (a, b) => (0, mkOutput fs a b, (w, st1.2 ++ [Made a; Made b]))
    end
  else (0, mkOutput fs (-1) (-1), st1).

Definition output_redirect_close_child (o : OutputRedirect) (st : W * list fdev) : W * list fdev :=
  close_all (o_files o) (close_if (write_fd o) (close_if (read_fd o) st)).

Definition output_redirect_close_parent_write (o : OutputRedirect) (st : W * list fdev) :
    OutputRedirect * (W * list fdev) :=
  if 0 <=? write_fd o then (mkOutput (o_files o) (read_fd o) (-1), do_close (write_fd o) st) else (o, st).

Definition output_redirect_destroy (o : OutputRedirect) (st : W * list fdev) : OutputRedirect * (W * list fdev) :=
  (mkOutput [] (read_fd o) (write_fd o), close_all (o_files o) (close_if (write_fd o) (close_if (read_fd o) st))).

(** *** A single command takes the arguments a pipeline stage would take *)
Lemma collect_loop_words a : arglist a -> forall argv inp (st : W * list fdev),
  let '(r, argv', _, _) := collect_loop a argv inp st in r <> -2 /\ (r = 0 -> argv' = argv ++ words_of a).
Proof.
  induction 1 as [|w a Hw _ IH|r w a Hr Hw _ IH]; intros argv inp st; cbn [collect_loop words_of].
  - split; [done|]. by rewrite app_nil_r.
  - rewrite Hw. specialize (IH (argv ++ [text w]) inp st). destruct (collect_loop a _ _ st) as [[[r argv'] i'] st'].
    destruct IH as [H1 H2]. split; [done|]. intros E. rewrite (H2 E). by rewrite <- app_assoc.
  - rewrite (redirection_not_word r Hr), Hr, Hw. cbn [negb].
    destruct (bool_decide (type r = TOKEN_OP_LT)); [|apply IH].
    destruct (do_open _ _ _) as [fd st1]. destruct (fd <? 0); [done|].
    destruct (if inp <? 0 then _ else _) as [inp' st2]. destruct (inp' <? 0); [done|]. apply IH.
Qed.

(** For a command that the syntax check accepts, [collect_command] never
    reports a syntax error, and the arguments of a command run alone are
    those it would have as a stage of a pipeline, its name first. *)
Theorem collect_command_args (c : list Token) (st : W * list fdev) :
  command c ->
  let '(r, argv, _, _) := collect_command c st in
  r <> -2 /\ (r = 0 -> argv = words_of c /\ head argv = text <$> head c).
Proof.
  intros Hc. destruct (command_args c Hc) as (w & a & -> & Hw & Ha). unfold collect_command.
  pose proof (collect_loop_words (w :: a) (arg_word w a Hw Ha) [] (-1) st) as H.
  destruct (collect_loop _ _ _ _) as [[[r argv] inp] st1]. destruct H as [H1 H2].
  assert (Hres : r = 0 -> argv = words_of (w :: a) /\ head argv = text <$> head (w :: a)).
  { intros E. rewrite (H2 E). split; [done|]. simpl. by rewrite Hw. }
  destruct (Z.eqb_spec r 0); simpl; [|done].
  destruct (0 <=? inp); [|auto]. destruct (open_stream inp st1.1) as [[|] w1]; auto.
Qed.

(** *** The outputs *)
Lemma output_loop_balanced n : forall ts fs rest (st : W * list fdev),
  (length ts <= n)%nat -> balanced st.2 (fs ++ rest) ->
  let '(r, fs', st') := output_loop ts fs st in balanced st'.2 (fs' ++ rest).
Proof.
  induction n as [|n IH]; intros [|t ts] fs rest st Hn H; cbn [output_loop length] in *; try done; [lia|].
  destruct (_ && _); [destruct (is_separator _); [done | apply IH; [lia | done]]|].
  destruct ts as [|t2 ts]; [done|]. destruct (negb (is_word t2)); [done|]. cbn [length] in Hn.
  unfold do_open. destruct (open_file _ _ _) as [fd w]. destruct (Z.ltb_spec fd 0).
  - by apply close_all_balanced.
  - set (m := if bool_decide _ then TRUNC else APPEND). cbn [fst snd].
    pose proof (balanced_open st.2 fd (text t2) m _ H) as H1.
    destruct (allocate w) as [[|] w2]; cbn [negb].
    + apply IH; [lia|]. simpl. eapply balanced_perm; [|exact H1]. intros x.
      change (fd :: fs ++ rest) with ([fd] ++ fs ++ rest). rewrite !cnt_app. lia.
    + apply close_all_balanced. by apply balanced_close.
Qed.

(** [pipe] returns descriptors, which are not negative. *)
Definition pipes_nonneg : Prop :=
  forall (w : W) a b w', make_pipe w = (Some (a, b), w') -> 0 <= a /\ 0 <= b.

Lemma prepare_output_balanced ts rest (st : W * list fdev) :
  pipes_nonneg -> balanced st.2 rest ->
  let '(_, o, st') := prepare_output ts st in
  balanced st'.2 ((nonneg (read_fd o) ++ nonneg (write_fd o) ++ o_files o) ++ rest).
Proof.
  intros Hpipe H. unfold prepare_output. pose proof (output_loop_balanced _ ts [] rest st (le_n _) H) as Hl.
  destruct (output_loop ts [] st) as [[r fs] st1]. destruct (negb (r =? 0)); [done|].
  destruct (0 <? length fs)%nat; [|done].
  destruct (make_pipe st1.1) as [[[a b]|] w] eqn:Hp.
  - destruct (Hpipe _ _ _ _ Hp) as [Ha Hb]. unfold nonneg. cbn [read_fd write_fd o_files].
    rewrite (proj2 (Z.leb_le 0 a)), (proj2 (Z.leb_le 0 b)) by done. intros x. specialize (Hl x).
    assert (E1 : opens [Made a; Made b] = [a] ++ [b]) by done.
    assert (E2 : closes [Made a; Made b] = []) by done.
    cbn [snd]. rewrite opens_app, closes_app, E1, E2, !cnt_app, Hl, !cnt_app, cnt_nil. lia.
  - cbn. by apply close_all_balanced.
Qed.

Lemma destroy_balanced o (st : W * list fdev) :
  balanced st.2 (nonneg (read_fd o) ++ nonneg (write_fd o) ++ o_files o) ->
  balanced (output_redirect_destroy o st).2.2 [].
Proof.
  intros H. unfold output_redirect_destroy. cbn [snd].
  apply close_all_balanced, close_if_balanced, close_if_balanced. eapply balanced_perm; [|exact H].
  intros x. rewrite !cnt_app, cnt_nil. lia.
Qed.

(** Output redirections leak no descriptor and close none twice: whether
    [prepare_output] succeeds or fails at any point, destroying its result
    closes exactly what was opened, also when the parent has already closed
    the write end. *)
Theorem output_redirect_no_leak (ts : list Token) (w : W) :
  pipes_nonneg ->
  let '(r, o, st) := prepare_output ts (w, []) in
  balanced (output_redirect_destroy o st).2.2 [] /\
  let '(o', st') := output_redirect_close_parent_write o st in
  balanced (output_redirect_destroy o' st').2.2 [].
Proof.
  intros Hpipe. pose proof (prepare_output_balanced ts [] (w, []) Hpipe (fun x => eq_refl)) as H.
  destruct (prepare_output ts (w, [])) as [[r o] st]. rewrite app_nil_r in H. split; [by apply destroy_balanced|].
  unfold output_redirect_close_parent_write. destruct (0 <=? write_fd o) eqn:Hw; [|by apply destroy_balanced].
  apply destroy_balanced. cbn [read_fd write_fd o_files do_close snd]. apply balanced_close.
  eapply balanced_perm; [|exact H]. intros x. unfold nonneg at 2. rewrite Hw.
  set (l := nonneg (read_fd o) ++ nonneg (-1) ++ o_files o). change (write_fd o :: l) with ([write_fd o] ++ l).
  unfold l. rewrite !cnt_app. change (cnt x (nonneg (-1))) with 0%nat. lia.
Qed.
End Redirect.

(** [wc -l < a < b > c] *)
Lemma collect_command_args_witness :
  let c := [word "wc"; word "-l"; oper TOKEN_OP_LT; word "a"; oper TOKEN_OP_LT; word "b"; oper TOKEN_OP_GT; word "c"] in
  let '(r, argv, _, _) := collect_command c ((3%nat : DemoFiles), []) in
  r <> -2 /\ (r = 0 -> argv = words_of c /\ head argv = text <$> head c).
Proof.
  apply (collect_command_args _ ((3%nat : DemoFiles), [])).
  pose proof (command_name (word "wc") eq_refl) as c0.
  pose proof (command_arg _ (word "-l") c0 eq_refl) as c1.
  pose proof (command_redir _ (oper TOKEN_OP_LT) (word "a") c1 eq_refl eq_refl) as c2.
  pose proof (command_redir _ (oper TOKEN_OP_LT) (word "b") c2 eq_refl eq_refl) as c3.
  exact (command_redir _ (oper TOKEN_OP_GT) (word "c") c3 eq_refl eq_refl).
Defined.

(** [ls > a >> b > missing] *)
Lemma output_redirect_no_leak_witness :
  let '(r, o, st) := prepare_output [word "ls"; oper TOKEN_OP_GT; word "a"; oper TOKEN_OP_GTGT; word "b";
                                     oper TOKEN_OP_GT; word "missing"] ((3%nat : DemoFiles), []) in
  balanced (output_redirect_destroy o st).2.2 [] /\
  let '(o', st') := output_redirect_close_parent_write o st in
  balanced (output_redirect_destroy o' st').2.2 [].
Proof.
  apply (output_redirect_no_leak _ (3%nat : DemoFiles)). intros w a b w' [= <- <- <-]. lia.
Defined.

(** ** The descriptors of a pipeline stage

    The child that will run stage [i] has a copy of the shell's descriptor
    table: a map from descriptors to the objects (of some type [O]) they
    refer to. *)
Section Child.
Context {O : Type}.
Implicit Types t : gmap Z O.

Definition dup2 (a b : Z) (t : gmap Z O) : gmap Z O :=
  match t !! a with Some x => <[b := x]> t | None => t end.
Definition fclose (fd : Z) (t : gmap Z O) : gmap Z O := delete fd t.
Definition fclose_if (fd : Z) (t : gmap Z O) : gmap Z O := if 0 <=? fd then fclose fd t else t.
Fixpoint fclose_all (fds : list Z) (t : gmap Z O) : gmap Z O :=
  match fds with [] => t | fd :: fds' => fclose_all fds' (fclose fd t) end.

Definition close_pipes (pipes : list (Z * Z)) (t : gmap Z O) : gmap Z O :=
  fclose_all (concat ((fun p => [p.1; p.2]) <$> pipes)) t.

(** [close_stage_fds]: what the other stages hold. *)
Definition close_stage_fd (own j : nat) (s : Stage) (t : gmap Z O) : gmap Z O :=
  let t1 := if (j =? own)%nat then t else fclose_if (output s) (fclose_if (input s) t) in
  fclose_all (take (nfiles s) (files s)) (fclose_if (tee s).1 t1).

Fixpoint close_stage_fds (own j : nat) (ss : list Stage) (t : gmap Z O) : gmap Z O :=
  match ss with [] => t | s :: ss' => close_stage_fds own (S j) ss' (close_stage_fd own j s t) end.

(** The descriptor work of the child of stage [i]; [None] for an index out of
    range. *)
Definition child_setup (pipes : list (Z * Z)) (ss : list Stage) (i : nat) (t : gmap Z O) : option (gmap Z O) :=
  s ← ss !! i;
  t1 ← (if (0 <? i)%nat then p ← pipes !! (i - 1)%nat; Some (dup2 p.1 0 t) else Some t);
  t2 ← (if (i + 1 <? length ss)%nat then p ← pipes !! i; Some (dup2 p.2 1 t1) else Some t1);
  let t3 := if 0 <=? input s then dup2 (input s) 0 t2 else t2 in
  let t4 := if 0 <=? output s then dup2 (output s) 1 t3 else t3 in
  let t5 := close_pipes pipes t4 in
  let t6 := fclose_if (output s) (fclose_if (input s) t5) in
  Some (close_stage_fds i 0 ss t6).

(** Every descriptor the shell opened for the pipeline. *)
Definition stage_fds (s : Stage) : list Z :=
  nonneg (input s) ++ nonneg (output s) ++ nonneg (tee s).1 ++ take (nfiles s) (files s).
Definition pipeline_fds (pipes : list (Z * Z)) (ss : list Stage) : list Z :=
  concat ((fun p => [p.1; p.2]) <$> pipes) ++ concat (stage_fds <$> ss).

(** Where stage [i] reads and writes: its own redirection, else its
    neighbour's pipe, else what the shell has. *)
Definition stdin_of (pipes : list (Z * Z)) (s : Stage) (i : nat) : Z :=
  if 0 <=? input s then input s
  else if (0 <? i)%nat then default 0 (fst <$> pipes !! (i - 1)%nat) else 0.
Definition stdout_of (pipes : list (Z * Z)) (n : nat) (s : Stage) (i : nat) : Z :=
  if 0 <=? output s then output s
  else if (i + 1 <? n)%nat then default 1 (snd <$> pipes !! i) else 1.

Lemma fclose_all_lookup fds : forall t x, fclose_all fds t !! x = (if decide (x ∈ fds) then None else t !! x).
Proof.
  induction fds as [|fd fds IH]; intros t x; cbn [fclose_all].
  - rewrite decide_False; [done|]. apply not_elem_of_nil.
  - rewrite IH. unfold fclose. destruct (decide (x = fd)) as [->|Hne].
    + rewrite lookup_delete_eq. rewrite (decide_True (P := fd ∈ fd :: fds)) by set_solver. by case_decide.
    + rewrite lookup_delete_ne by done. destruct (decide (x ∈ fds)); [rewrite decide_True by set_solver; done|].
      by rewrite decide_False by set_solver.
Qed.

Lemma fclose_if_lookup fd t x : fclose_if fd t !! x = (if decide (x ∈ nonneg fd) then None else t !! x).
Proof.
  unfold fclose_if, nonneg. destruct (0 <=? fd).
  - apply (fclose_all_lookup [fd]).
  - rewrite decide_False; [done|]. apply not_elem_of_nil.
Qed.

(** Closing is monotone: a closed descriptor stays closed. *)
Lemma close_stage_fd_lookup own j s t x :
  close_stage_fd own j s t !! x =
  (if decide (x ∈ nonneg (tee s).1 ++ take (nfiles s) (files s) ++
                  (if (j =? own)%nat then [] else nonneg (input s) ++ nonneg (output s)))
   then None else t !! x).
Proof.
  unfold close_stage_fd. rewrite fclose_all_lookup, fclose_if_lookup.
  destruct (j =? own)%nat.
  - repeat case_decide; try done; set_solver.
  - rewrite !fclose_if_lookup. repeat case_decide; try done; set_solver.
Qed.

Lemma close_stage_fds_lookup own ss : forall j t x,
  close_stage_fds own j ss t !! x = None \/
  (close_stage_fds own j ss t !! x = t !! x /\
   forall k s, ss !! k = Some s ->
     x ∉ nonneg (tee s).1 /\ x ∉ take (nfiles s) (files s) /\
     ((j + k)%nat <> own -> x ∉ nonneg (input s) /\ x ∉ nonneg (output s))).
Proof.
  induction ss as [|s ss IH]; intros j t x; cbn [close_stage_fds]; [by right|].
  destruct (IH (S j) (close_stage_fd own j s t) x) as [H|[H Hs]]; [by left|].
  rewrite close_stage_fd_lookup in H. case_decide as Hd; [by left|]. right. split; [done|].
  intros [|k] s' Hk; simpl in Hk.
  - simplify_eq. rewrite Nat.add_0_r. destruct (Nat.eqb_spec j own); set_solver.
  - rewrite Nat.add_succ_r. by apply Hs.
Qed.

Lemma close_stage_fds_keep own ss : forall j t x,
  (forall s, s ∈ ss -> x ∉ stage_fds s) -> close_stage_fds own j ss t !! x = t !! x.
Proof.
  induction ss as [|s ss IH]; intros j t x H; cbn [close_stage_fds]; [done|].
  rewrite IH by (intros; apply H; set_solver). rewrite close_stage_fd_lookup.
  specialize (H s ltac:(set_solver)). unfold stage_fds in H. rewrite decide_False; [done|].
  destruct (j =? own)%nat; set_solver.
Qed.

Lemma dup2_lookup a b t x y : t !! a = Some y -> dup2 a b t !! x = (if decide (x = b) then Some y else t !! x).
Proof.
  intros H. unfold dup2. rewrite H. case_decide; subst; [by rewrite lookup_insert_eq | by rewrite lookup_insert_ne].
Qed.

(** A redirection step onto 0 or 1 changes that descriptor only. *)
Lemma dup2_std a b t :
  is_Some (t !! a) -> dup2 a b t !! b = t !! a /\ forall x, x <> b -> dup2 a b t !! x = t !! x.
Proof.
  intros [y Hy]. split; [rewrite (dup2_lookup a b t b y Hy), decide_True by done; done|].
  intros x Hx. by rewrite (dup2_lookup a b t x y Hy), decide_False.
Qed.

Definition all_open (fds : list Z) t : Prop := forall fd, fd ∈ fds -> 3 <= fd /\ is_Some (t !! fd).

Lemma pipe_fds_open pipes ss t n p :
  all_open (pipeline_fds pipes ss) t -> pipes !! n = Some p ->
  (3 <= p.1 /\ is_Some (t !! p.1)) /\ (3 <= p.2 /\ is_Some (t !! p.2)).
Proof.
  intros H Hp. assert (Hin : forall x, x ∈ [p.1; p.2] -> x ∈ pipeline_fds pipes ss).
  { intros x Hx. apply elem_of_app. left. apply elem_of_concat. exists [p.1; p.2]. split; [done|].
    apply list_elem_of_fmap. exists p. split; [done|]. by eapply list_elem_of_lookup_2. }
  split; apply H, Hin; set_solver.
Qed.

Lemma stage_fds_in pipes ss n s x : ss !! n = Some s -> x ∈ stage_fds s -> x ∈ pipeline_fds pipes ss.
Proof.
  intros Hs Hx. apply elem_of_app. right. apply elem_of_concat. exists (stage_fds s). split; [done|].
  apply list_elem_of_fmap. exists s. split; [done|]. by eapply list_elem_of_lookup_2.
Qed.

(** The four possible redirections of the child. *)
Lemma redirected pipes ss i s t :
  ss !! i = Some s -> S (length pipes) = length ss -> all_open (pipeline_fds pipes ss) t ->
  exists t1 t2,
    (if (0 <? i)%nat then p ← pipes !! (i - 1)%nat; Some (dup2 p.1 0 t) else Some t) = Some t1 /\
    (if (i + 1 <? length ss)%nat then p ← pipes !! i; Some (dup2 p.2 1 t1) else Some t1) = Some t2 /\
    let t3 := if 0 <=? input s then dup2 (input s) 0 t2 else t2 in
    let t4 := if 0 <=? output s then dup2 (output s) 1 t3 else t3 in
    t4 !! 0 = t !! stdin_of pipes s i /\ t4 !! 1 = t !! stdout_of pipes (length ss) s i /\
    forall x, x <> 0 -> x <> 1 -> t4 !! x = t !! x.
Proof.
  intros Hs Hlen Hopen. pose proof (lookup_lt_Some _ _ _ Hs) as Hi.
  assert (Hstage : forall fd, fd ∈ stage_fds s -> 3 <= fd /\ is_Some (t !! fd)).
  { intros fd Hfd. apply Hopen. by eapply stage_fds_in. }
  assert (H1 : exists t1, (if (0 <? i)%nat then p ← pipes !! (i - 1)%nat; Some (dup2 p.1 0 t) else Some t) = Some t1 /\
    t1 !! 0 = t !! (if (0 <? i)%nat then default 0 (fst <$> pipes !! (i - 1)%nat) else 0) /\
    forall x, x <> 0 -> t1 !! x = t !! x).
  { destruct (Nat.ltb_spec 0 i); [|by exists t].
    destruct (lookup_lt_is_Some_2 pipes (i - 1)) as [p Hp]; [lia|]. rewrite Hp. simpl. eexists. split; [done|].
    destruct (pipe_fds_open _ _ _ _ _ Hopen Hp) as [[_ Ho] _]. by apply dup2_std. }
  destruct H1 as (t1 & E1 & H10 & H1x). exists t1.
  assert (H2 : exists t2, (if (i + 1 <? length ss)%nat then p ← pipes !! i; Some (dup2 p.2 1 t1) else Some t1) = Some t2 /\
    t2 !! 1 = t !! (if (i + 1 <? length ss)%nat then default 1 (snd <$> pipes !! i) else 1) /\
    forall x, x <> 1 -> t2 !! x = t1 !! x).
  { destruct (Nat.ltb_spec (i + 1) (length ss)); [|exists t1; by rewrite <- H1x by lia].
    destruct (lookup_lt_is_Some_2 pipes i) as [p Hp]; [lia|]. rewrite Hp. simpl. eexists. split; [done|].
    destruct (pipe_fds_open _ _ _ _ _ Hopen Hp) as [_ [H3 Ho]]. rewrite <- (H1x p.2) in Ho |- * by lia.
    by apply dup2_std. }
  destruct H2 as (t2 & E2 & H21 & H2x). exists t2. split; [done|]. split; [done|]. cbv zeta.
  set (t3 := if 0 <=? input s then dup2 (input s) 0 t2 else t2).
  assert (H3 : t3 !! 0 = t !! stdin_of pipes s i /\ forall x, x <> 0 -> t3 !! x = t2 !! x).
  { unfold t3, stdin_of. destruct (0 <=? input s) eqn:Hin.
    - destruct (Hstage (input s)) as [Hge Ho]; [unfold stage_fds, nonneg; rewrite Hin; set_solver|].
      rewrite <- (H1x (input s)), <- (H2x (input s)) in Ho |- * by lia. by apply dup2_std.
    - split; [|done]. by rewrite H2x. }
  destruct H3 as [H30 H3x].
  assert (H4 : forall t4, t4 = (if 0 <=? output s then dup2 (output s) 1 t3 else t3) ->
    t4 !! 1 = t !! stdout_of pipes (length ss) s i /\ forall x, x <> 1 -> t4 !! x = t3 !! x).
  { intros t4 ->. unfold stdout_of. destruct (0 <=? output s) eqn:Hout.
    - destruct (Hstage (output s)) as [Hge Ho]; [unfold stage_fds, nonneg; rewrite Hout; set_solver|].
      rewrite <- (H1x (output s)), <- (H2x (output s)), <- (H3x (output s)) in Ho |- * by lia. by apply dup2_std.
    - split; [|done]. by rewrite H3x. }
  destruct (H4 _ eq_refl) as [H41 H4x]. split_and!; [by rewrite H4x | done|].
  intros x Hx0 Hx1. rewrite H4x, H3x, H2x, H1x by done. done.
Qed.

(** Plumbing of a pipeline.  In the child that runs stage [i], standard
    input and output are the stage's own redirection, else the pipe of its
    neighbour, else the shell's; and no other descriptor of the pipeline is
    left open, so that the readers see the end of their input. *)
Theorem child_plumbing (pipes : list (Z * Z)) (ss : list Stage) (i : nat) (s : Stage) (t : gmap Z O) :
  ss !! i = Some s -> S (length pipes) = length ss -> all_open (pipeline_fds pipes ss) t ->
  exists t', child_setup pipes ss i t = Some t' /\
    t' !! 0 = t !! stdin_of pipes s i /\ t' !! 1 = t !! stdout_of pipes (length ss) s i /\
    (forall fd, fd ∈ pipeline_fds pipes ss -> t' !! fd = None) /\
    (forall fd, fd ∉ pipeline_fds pipes ss -> fd <> 0 -> fd <> 1 -> t' !! fd = t !! fd).
Proof.
  intros Hs Hlen Hopen. unfold child_setup. rewrite Hs. cbn [mbind option_bind].
  destruct (redirected pipes ss i s t Hs Hlen Hopen) as (t1 & t2 & E1 & E2 & H0 & H1 & Hx).
  rewrite E1. unfold mbind at 1, option_bind at 1. rewrite E2. unfold mbind, option_bind. eexists. split; [done|]. cbv zeta in *.
  set (t4 := if 0 <=? output s then _ else _) in *. clearbody t4.
  set (t6 := fclose_if (output s) (fclose_if (input s) (close_pipes pipes t4))).
  assert (Ht6 : forall x, t6 !! x = (if decide (x ∈ nonneg (output s) ++ nonneg (input s) ++
      concat ((fun p => [p.1; p.2]) <$> pipes)) then None else t4 !! x)).
  { intros x. unfold t6, close_pipes. rewrite !fclose_if_lookup, fclose_all_lookup. repeat case_decide; try done; set_solver. }
  assert (Hkeep : forall x, x ∉ pipeline_fds pipes ss -> close_stage_fds i 0 ss t6 !! x = t4 !! x).
  { intros x Hn. rewrite close_stage_fds_keep, Ht6, decide_False; [done| |].
    - intros Hin. apply Hn. unfold pipeline_fds. apply elem_of_app. rewrite !elem_of_app in Hin.
      destruct Hin as [Hin|[Hin|Hin]]; [right|right|by left];
        apply (stage_fds_in [] ss i s x Hs); unfold stage_fds; set_solver.
    - intros s' Hs' Hin. apply Hn. apply list_elem_of_lookup_1 in Hs' as [n Hn']. by eapply stage_fds_in. }
  split_and!.
  - rewrite Hkeep; [done|]. intros Hin%Hopen. lia.
  - rewrite Hkeep; [done|]. intros Hin%Hopen. lia.
  - intros x Hin. destruct (close_stage_fds_lookup i ss 0 t6 x) as [?|[E Hall]]; [done|]. rewrite E, Ht6.
    apply elem_of_app in Hin as [Hin|Hin]; [rewrite decide_True by set_solver; done|].
    apply elem_of_concat in Hin as (l & Hl & (s' & -> & Hs')%list_elem_of_fmap).
    apply list_elem_of_lookup_1 in Hs' as [n Hn]. destruct (Hall n s' Hn) as (Ha & Hb & Hc).
    unfold stage_fds in Hl. destruct (decide (n = i)) as [->|Hne].
    + rewrite Hs in Hn. simplify_eq. rewrite decide_True; [done|]. set_solver.
    + destruct (Hc Hne). set_solver.
  - intros x Hn Hx0 Hx1. rewrite Hkeep by done. by apply Hx.
Qed.
End Child.

(** [a | b > f]: one pipe (3,4), the output of the second stage is 5. *)
Definition two_stages : list Stage :=
  [mkStage 0 1 [str "a"] (-1) (-1) [] 0 (-1, -1); mkStage 2 5 [str "b"] (-1) 5 [5] 0 (-1, -1)].
Definition shell_table : gmap Z string :=
  {[ 0 := "tty"; 1 := "tty"; 2 := "tty"; 3 := "read"; 4 := "write"; 5 := "f" ]}%string.

Lemma child_plumbing_witness :
  exists t', child_setup [(3, 4)] two_stages 1 shell_table = Some t' /\
    t' !! 0 = shell_table !! 3 /\ t' !! 1 = shell_table !! 5 /\
    (forall fd, fd ∈ pipeline_fds [(3, 4)] two_stages -> t' !! fd = None) /\
    (forall fd, fd ∉ pipeline_fds [(3, 4)] two_stages -> fd <> 0 -> fd <> 1 -> t' !! fd = shell_table !! fd).
Proof.
  apply (child_plumbing [(3, 4)] two_stages 1 (mkStage 2 5 [str "b"] (-1) 5 [5] 0 (-1, -1)) shell_table);
    [reflexivity | reflexivity|].
  intros fd Hfd. apply list_elem_of_In in Hfd. vm_compute in Hfd.
  destruct Hfd as [<-|[<-|[<-|[]]]]; (split; [discriminate | eexists; vm_compute; reflexivity]).
Defined.
