(* ===== verification/Pipeline.v ===== *)
(** * Running a pipeline (c-shell/src/c3c4.c: pipeline)

    The shell's side of [pipeline]: pipes, children, the process that copies
    the output of a stage to several files, process groups, the wait for a
    foreground pipeline and the clean-up on every path.  The child's side is
    [Plumbing.child_setup]. *)
From S2P Require Import Prelude Lexer Parser Jobs Resume Stages Plumbing.
Local Open Scope Z_scope.

(** Replies of [fork] in the parent: a process id, or a negative number. *)
Class Forks (W : Type) := { fork_child : W -> Z * W }.

(** What the parent does to its children and to the terminal. *)
Inductive pact :=
  | Forked (pid : Z)
  | Setpgid (pid pgid : Z)
  | ToTerminal (pgid : Z)
  | Out (s : cstr)
  | Err (s : cstr).

Definition set_tee (a b : Z) (s : Stage) : Stage :=
  mkStage (sg_start s) (sg_end s) (args s) (input s) b (files s) (nfiles s) (a, b).
(** [close(tee[1]); tee[1]=-1; output=-1;] *)
Definition drop_tee (s : Stage) : Stage :=
  mkStage (sg_start s) (sg_end s) (args s) (input s) (-1) (files s) (nfiles s) ((tee s).1, -1).

(** Replies of [waitpid] for one child, up to the first that is not EINTR. *)
Fixpoint wait_child (turns : list wreply) (status : wstatus) : option (wstatus * list wreply) :=
  match turns with
  | [] => None
  | Eintr :: turns' => wait_child turns' status
  | Echild :: turns' => Some (status, turns')
  | Child s :: turns' => Some (s, turns')
  end.

(** The wait loop of a foreground pipeline; [status] keeps its value when
    [waitpid] fails. *)
Fixpoint wait_children (n : nat) (turns : list wreply) (status : wstatus) (stopped interrupted : bool) :
    option (bool * bool) :=
  match n with
  | O => Some (stopped, interrupted)
  | S n' =>
      '(s, turns') ← wait_child turns status;
      if WIFSTOPPED s then wait_children n' turns' s true interrupted
      else if WTERMSIG_INT s then wait_children n' turns' s stopped true
      else wait_children n' turns' s stopped interrupted
  end.

Section Pipeline.
Context {W : Type} `{!Files W} `{!Forks W}.
Implicit Types st : W * list fdev.

Definition close_pairs (ps : list (Z * Z)) (st : W * list fdev) : W * list fdev :=
  close_all (concat ((fun p => [p.1; p.2]) <$> ps)) st.

(** The pipes between the stages; on an error those already made are closed. *)
Fixpoint open_pipes (n : nat) (made : list (Z * Z)) (st : W * list fdev) :
    option (list (Z * Z)) * (W * list fdev) :=
  match n with
  | O => (Some made, st)
  | S n' =>
      let '(p, w) := make_pipe st.1 in
      match p with
      | None => (None, close_pairs made (w, st.2))
      | Some (a, b) => open_pipes n' (made ++ [(a, b)]) (w, st.2 ++ [Made a; Made b])
      end
  end.

(** [if(nfiles>1 && pipe(tee)==0) output=tee[1];] *)
Definition open_tee (s : Stage) (st : W * list fdev) : Stage * (W * list fdev) :=
  if (1 <? nfiles s)%nat then
    let '(p, w) := make_pipe st.1 in
    match p with
    | Some (a, b) => (set_tee a b s, (w, st.2 ++ [Made a; Made b]))
    | None => (s, (w, st.2))
    end
  else (s, st).

(** The process group a child joins: the shell's when the shell is itself a
    background child, else that of the first child. *)
Definition group_of (group : Z) (children : list Z) (child : Z) : Z :=
  if negb (group =? 0) then group else match children with [] => child | c :: _ => c end.

(** The loop that starts the stages: stages with their current descriptors,
    children and actions. *)
Fixpoint launch (group : Z) (todo : list Stage) (children : list Z) (st : W * list fdev) :
    list Stage * list Z * list pact * (W * list fdev) :=
  match todo with
  | [] => ([], children, [], st)
  | s :: todo' =>
      let '(s1, st1) := open_tee s st in
      let '(child, w1) := fork_child st1.1 in
      let st2 := (w1, st1.2) in
      if child <? 0 then (s1 :: todo', children, [], st2)
      else
        let a1 := [Forked child; Setpgid child (group_of group children child)] in
        let children1 := children ++ [child] in
        let '(children2, a2, st3) :=
          if 0 <=? (tee s1).1 then
            let '(t, w2) := fork_child st2.1 in
            if 0 <? t then (children1 ++ [t], [Forked t; Setpgid t (group_of group children1 t)], (w2, st2.2))
            else (children1, [], (w2, st2.2))
          else (children1, [], st2) in
        let '(s2, st4) :=
          if 0 <=? (tee s1).2 then (drop_tee s1, do_close (tee s1).2 st3) else (s1, st3) in
        let '(rest, cs, acts, st5) := launch group todo' children2 st4 in
        (s2 :: rest, cs, a1 ++ a2 ++ acts, st5)
  end.

Definition stage_error (r : Z) : cstr :=
  if r =? -1 then line "cshell: no such file or directory"
  else if r =? -4 then line "cshell: unable to create file for writing"
  else line "cshell: invalid syntax".

(** [is_background_child()] and [getpgrp()] *)
Record shell_state := mkShell { backgroundchild : bool; shellpgrp : Z }.

(** After the wait of a foreground pipeline. *)
Definition after_wait (leader : Z) (ts : list Token) (stopped interrupted : bool) (js : jobs) : jobs * list pact :=
  if stopped then
    let '(n, js') := add_stopped_job leader ts js in
    (js', if 0 <? n then (fun a => match a with Print s => Out s | _ => Out [] end) <$> print_stopped n js'
          else [Err (line "cshell: too many jobs")])
  else (js, if interrupted then [Out [LF]] else []).

(** The end of [pipeline], once the stages are started. *)
Definition finish_pipeline (sh : shell_state) (turns : list wreply) (ts : list Token) (background : bool) (js : jobs)
    (ps : list (Z * Z)) (stages : list Stage) (children : list Z) (acts : list pact) (st : W * list fdev) :
    option (Z * jobs * list pact * (W * list fdev)) :=
  let st5 := close_pairs ps st in
  let st6 := free_stages stages st5 in
  if background then Some (default (-1) (head children), js, acts, st6)
  else if backgroundchild sh then
    _ ← wait_children (length children) turns (Exited 0) false false;
    Some (1, js, acts, st6)
  else
    '(stopped, interrupted) ← wait_children (length children) turns (Exited 0) false false;
    let give := match children with c :: _ => [ToTerminal c] | [] => [] end in
    let '(js', acts') := after_wait (default 0 (head children)) ts (stopped && (0 <? length children)%nat)
                           interrupted js in
    Some (1, js', acts ++ give ++ [ToTerminal (shellpgrp sh)] ++ acts', st6).

(** [pipeline]: the result, the job table, the actions and the ledger.
    [None] when [waitpid] has not answered yet. *)
Definition pipeline (sh : shell_state) (turns : list wreply) (ts : list Token) (background force : bool)
    (js : jobs) (st : W * list fdev) : option (Z * jobs * list pact * (W * list fdev)) :=
  let '(r, stages, st1) := make_stages ts force st in
  let fail := if background then -1 else 1 in
  if r =? 0 then Some (0, js, [], st1)
  else if r <? 0 then Some (fail, js, [Err (stage_error r)], st1)
  else
    let '(ok1, w1) := allocate st1.1 in
    let '(ok2, w2) := allocate w1 in
    let st2 := (w2, st1.2) in
    if negb ok1 || negb ok2 then
      Some (fail, js, [Err (str "cshell: memory allocation failed")], free_stages stages st2)
    else
      let '(ps, st3) := open_pipes (length stages - 1) [] st2 in
      match ps with
      | None => Some (fail, js, [Err (str "cshell: pipe failed")], free_stages stages st3)
      | Some ps =>
          let group := if negb background && backgroundchild sh then shellpgrp sh else 0 in
          let '(stages', children, acts, st4) := launch group stages [] st3 in
          finish_pipeline sh turns ts background js ps stages' children acts st4
      end.

Definition run_pipeline (sh : shell_state) (turns : list wreply) (ts : list Token) (js : jobs) st :=
  pipeline sh turns ts false false js st.
Definition launch_background_pipeline (sh : shell_state) (turns : list wreply) (ts : list Token) (js : jobs) st :=
  pipeline sh turns ts true false js st.
Definition run_redirected_builtin (sh : shell_state) (turns : list wreply) (ts : list Token) (js : jobs) st :=
  pipeline sh turns ts false true js st.

(** ** Descriptors *)
Definition pair_fds (ps : list (Z * Z)) : list Z := concat ((fun p => [p.1; p.2]) <$> ps).

Lemma balanced_made log a b fds :
  balanced log fds -> balanced (log ++ [Made a; Made b]) (a :: b :: fds).
Proof.
  intros H x. specialize (H x). rewrite opens_app, closes_app.
  change (opens [Made a; Made b]) with ([a] ++ [b]). change (closes [Made a; Made b]) with (@nil Z).
  change (a :: b :: fds) with ([a] ++ [b] ++ fds). rewrite !cnt_app, H, cnt_nil. lia.
Qed.

Lemma open_pipes_balanced n : forall made fds st,
  balanced st.2 (pair_fds made ++ fds) ->
  let '(ps, st') := open_pipes n made st in
  balanced st'.2 (pair_fds (default [] ps) ++ fds).
Proof.
  induction n as [|n IH]; intros made fds st H; cbn [open_pipes]; [done|].
  destruct (make_pipe st.1) as [[[a b]|] w].
  - apply IH. cbn [snd]. eapply balanced_perm; [|apply balanced_made, H]. intros x.
    unfold pair_fds. rewrite fmap_app, concat_app. simpl.
    change (a :: b :: concat ((fun p => [p.1; p.2]) <$> made) ++ fds)
      with ([a] ++ [b] ++ concat ((fun p => [p.1; p.2]) <$> made) ++ fds).
    change [a; b] with ([a] ++ [b]). rewrite !cnt_app. lia.
  - cbn. by apply close_all_balanced.
Qed.

Lemma nonneg_ge fd : 0 <= fd -> nonneg fd = [fd].
Proof. intros H. unfold nonneg. by rewrite (proj2 (Z.leb_le 0 fd)). Qed.

(** A stage once its turn has come: the pipe for its outputs, if any, is
    its output. *)
Definition teed (s : Stage) : Prop := tee s = (-1, -1) \/ (0 <= (tee s).1 /\ 0 <= (tee s).2 /\ output s = (tee s).2).

Lemma open_tee_balanced s st fds :
  pipes_nonneg (W := W) -> ready s -> balanced st.2 (held s ++ fds) ->
  let '(s', st') := open_tee s st in teed s' /\ balanced st'.2 (held s' ++ fds).
Proof.
  intros Hpipe [Ht Ho] H. unfold open_tee.
  destruct (Nat.ltb_spec 1 (nfiles s)) as [Hn|]; [|split; [by left | done]].
  destruct (make_pipe st.1) as [[[a b]|] w] eqn:Hp; [|split; [by left | done]].
  destruct (Hpipe _ _ _ _ Hp) as [Ha Hb]. split; [right; simpl; auto|].
  eapply balanced_perm; [|apply balanced_made, H]. intros x. unfold held. simpl.
  rewrite Ht, (Ho Hn), (nonneg_ge a), (nonneg_ge b) by done. simpl.
  change (cnt x ([a] ++ [b] ++ (nonneg (input s) ++ take (nfiles s) (files s)) ++ fds) =
          cnt x ((nonneg (input s) ++ [b] ++ [a] ++ take (nfiles s) (files s)) ++ fds)).
  rewrite !cnt_app. lia.
Qed.

Lemma drop_tee_balanced s st fds :
  teed s -> balanced st.2 (held s ++ fds) ->
  let '(s', st') := if 0 <=? (tee s).2 then (drop_tee s, do_close (tee s).2 st) else (s, st) in
  balanced st'.2 (held s' ++ fds).
Proof.
  intros [Ht|(Ha & Hb & Ho)] H; [by rewrite Ht|]. rewrite (proj2 (Z.leb_le 0 _) Hb). cbn [do_close snd].
  apply balanced_close. eapply balanced_perm; [|exact H]. intros x. unfold held. simpl. rewrite Ho, (nonneg_ge _ Hb).
  change (cnt x ((nonneg (input s) ++ [(tee s).2] ++ nonneg (tee s).1 ++ take (nfiles s) (files s)) ++ fds) =
          cnt x ([(tee s).2] ++ (nonneg (input s) ++ nonneg (tee s).1 ++ take (nfiles s) (files s)) ++ fds)).
  rewrite !cnt_app. lia.
Qed.

Lemma launch_balanced group todo : forall children fds st,
  pipes_nonneg (W := W) -> Forall ready todo -> balanced st.2 (concat (held <$> todo) ++ fds) ->
  let '(ss, _, _, st') := launch group todo children st in balanced st'.2 (concat (held <$> ss) ++ fds).
Proof.
  induction todo as [|s todo IH]; intros children fds st Hpipe Hr H; cbn [launch]; [done|].
  apply Forall_cons in Hr as [Hs Hr].
  assert (H' : balanced st.2 (held s ++ concat (held <$> todo) ++ fds)) by (simpl in H; by rewrite <- app_assoc in H).
  pose proof (open_tee_balanced s st _ Hpipe Hs H') as Ht. destruct (open_tee s st) as [s1 st1].
  destruct Ht as [Ht Hb]. destruct (fork_child st1.1) as [child w1].
  destruct (child <? 0); [simpl; by rewrite <- app_assoc|].
  set (x := if 0 <=? (tee s1).1 then _ else _).
  assert (Hx : x.2.2 = st1.2).
  { unfold x. destruct (0 <=? _); [|done]. destruct (fork_child _) as [t w2]. by destruct (0 <? t). }
  destruct x as [[children2 a2] st3]. simpl in Hx. rewrite <- Hx in Hb.
  pose proof (drop_tee_balanced s1 st3 _ Ht Hb) as Hd. destruct (if 0 <=? (tee s1).2 then _ else _) as [s2 st4].
  specialize (IH children2 (held s2 ++ fds) st4 Hpipe Hr).
  destruct (launch group todo children2 st4) as [[[rest cs] acts] st5].
  change (concat (held <$> s2 :: rest)) with (held s2 ++ concat (held <$> rest)).
  assert (Hd' : balanced st4.2 (concat (held <$> todo) ++ held s2 ++ fds))
    by (eapply balanced_perm; [|exact Hd]; intros y; rewrite !cnt_app; lia).
  eapply balanced_perm; [|exact (IH Hd')]. intros y. rewrite !cnt_app. lia.
Qed.

(** ** Process groups *)

(** The children forked, and the calls of [setpgid], in order. *)
Definition forks (acts : list pact) : list Z := omap (fun a => match a with Forked p => Some p | _ => None end) acts.
Definition setpgids (acts : list pact) : list (Z * Z) :=
  omap (fun a => match a with Setpgid p g => Some (p, g) | _ => None end) acts.

Lemma forks_app a b : forks (a ++ b) = forks a ++ forks b.
Proof. apply omap_app. Qed.
Lemma setpgids_app a b : setpgids (a ++ b) = setpgids a ++ setpgids b.
Proof. apply omap_app. Qed.

Lemma launch_groups group todo : forall children st,
  let '(_, cs, acts, _) := launch group todo children st in
  cs = children ++ forks acts /\ setpgids acts = (fun c => (c, group_of group cs c)) <$> forks acts /\
  (length (forks acts) <= 2 * length todo)%nat.
Proof.
  assert (Hg : forall l l2 x y, group_of group (l ++ [x]) y = group_of group ((l ++ [x]) ++ l2) y)
    by (intros [|c l] l2 x y; done).
  assert (Hg0 : forall l l2 x, group_of group l x = group_of group ((l ++ [x]) ++ l2) x)
    by (intros [|c l] l2 x; unfold group_of; by destruct (group =? 0)).
  induction todo as [|s todo IH]; intros children st; cbn [launch].
  - by rewrite app_nil_r.
  - destruct (open_tee s st) as [s1 st1]. destruct (fork_child st1.1) as [child w1].
    destruct (child <? 0); [simpl; rewrite app_nil_r; split_and!; [done|done|lia]|].
    destruct (0 <=? (tee s1).1); [destruct (fork_child _) as [t w2]; destruct (0 <? t)|];
      (match goal with |- context [if 0 <=? (tee s1).2 then ?a else ?b] =>
         destruct (if 0 <=? (tee s1).2 then a else b) as [s2 st4] end);
      (match goal with |- context [launch group todo ?ch ?x] =>
         specialize (IH ch x); destruct (launch group todo ch x) as [[[rest cs] acts] st5] end);
      destruct IH as (-> & Ep & Hl); rewrite !forks_app, !setpgids_app, Ep; cbn [forks setpgids omap list_omap app fmap list_fmap length];
      rewrite <- ?app_assoc; cbn [app fmap list_fmap]; (split_and!; [done| |lia]).
    + f_equal; [|f_equal].
      * f_equal. rewrite (Hg0 children (t :: forks acts) child). by rewrite <- app_assoc.
      * f_equal. rewrite (Hg children (t :: forks acts) child t). by rewrite <- app_assoc.
    + f_equal. f_equal. rewrite (Hg0 children (forks acts) child). by rewrite <- app_assoc.
    + f_equal. f_equal. rewrite (Hg0 children (forks acts) child). by rewrite <- app_assoc.
Qed.

Lemma after_wait_plain leader ts stopped interrupted js js' acts :
  after_wait leader ts stopped interrupted js = (js', acts) -> forks acts = [] /\ setpgids acts = [].
Proof.
  unfold after_wait. destruct stopped; [destruct (add_stopped_job leader ts js) as [n js1]|]; intros [= <- <-].
  - destruct (0 <? n); [|done]. induction (print_stopped n js1) as [|a l [IH1 IH2]]; [done|]. by destruct a.
  - by destruct interrupted.
Qed.

(** The group the children of a call join. *)
Definition job_group (sh : shell_state) (background : bool) (children : list Z) : Z :=
  if negb background && backgroundchild sh && negb (shellpgrp sh =? 0) then shellpgrp sh
  else default 0 (head children).

(** All the children of a call are in its group. *)
Definition grouped (sh : shell_state) (background : bool) (acts : list pact) : Prop :=
  setpgids acts = (fun c => (c, job_group sh background (forks acts))) <$> forks acts.

(** The call has closed what it opened; [k] stages that were never made are
    freed with the zeroes [calloc] left in them, each closing descriptor 0
    three times. *)
Definition closed_up (log : list fdev) (k : nat) : Prop :=
  exists log0, log = log0 ++ replicate (3 * k) (Closed 0) /\ balanced log0 [].

Lemma closed_up_0 log : balanced log [] -> closed_up log 0.
Proof. intros H. exists log. by rewrite app_nil_r. Qed.

(** The actions of the end of [pipeline]. *)
Lemma finish_grouped sh turns ts background js ps ss children acts st r js' acts' st' :
  finish_pipeline sh turns ts background js ps ss children acts st = Some (r, js', acts', st') ->
  st' = free_stages ss (close_pairs ps st) /\ forks acts' = forks acts /\ setpgids acts' = setpgids acts.
Proof.
  unfold finish_pipeline. destruct background; [by intros [= <- <- <- <-]|].
  destruct (backgroundchild sh); destruct (wait_children _ _ _ _ _) as [[stopped interrupted]|]; try done;
    [by intros [= <- <- <- <-]|].
  cbn [mbind option_bind]. destruct (after_wait _ _ _ _ _) as [js1 acts1] eqn:Ea. intros [= <- <- <- <-].
  destruct (after_wait_plain _ _ _ _ _ _ _ Ea) as [E1 E2]. 
  assert (Hf : forall g l, forks (ToTerminal g :: l) = forks l) by done.
  assert (Hs : forall g l, setpgids (ToTerminal g :: l) = setpgids l) by done.
  destruct children; cbn [app]; by rewrite forks_app, setpgids_app, ?Hf, ?Hs, E1, E2, !app_nil_r.
Qed.

End Pipeline.

(** The demonstration system with processes numbered from 100. *)
#[export] Instance DemoForks : Forks DemoFiles := { fork_child w := (100 + Z.of_nat w, S w) }.

(** [sort > a > b | wc] stopped by the user *)
Definition tee_line : list Token :=
  [word "sort"; oper TOKEN_OP_GT; word "a"; oper TOKEN_OP_GT; word "b"; oper TOKEN_OP_PIPE; word "wc"].


Example tee_line_job :
  match pipeline (mkShell false 50) [Eintr; Child (Stopped 20); Child (Exited 0); Child (Stopped 20)] tee_line
          false false jobs0 ((3%nat : DemoFiles), []) with
  | Some (r, js', acts, st') => (r, job_count js', acts)
  | None => (0, 0%nat, [])
  end =
  (1, 1%nat, [Forked 109; Setpgid 109 109; Forked 110; Setpgid 110 109; Forked 111; Setpgid 111 109;
              ToTerminal 109; ToTerminal 50; Out (LF :: str "[1] + Stopped   sort  a  b  wc" ++ [LF])]).
Proof. vm_compute. reflexivity. Qed.
