(* ===== verification/Relay.v ===== *)
(** * Copying output to several files (c-shell/src/c3c4.c)

    A command with output redirections writes into a pipe, and the shell (or,
    in a pipeline, a helper process) copies the pipe to every file.  The
    files answer each [write] on their own, the pipe is filled by the
    command while the shell polls it. *)
From S2P Require Import Prelude Lexer Jobs Stages Plumbing.
Local Open Scope Z_scope.

(** An output file: the replies its writes will get, and its contents. *)
Record sink := mkSink { replies : list wres; contents : cstr }.

(** The loop over the files; the result is -1 when a write failed. *)
Fixpoint relay_files (s : cstr) (fs : list sink) : option (Z * list sink) :=
  match fs with
  | [] => Some (0, [])
  | f :: fs' =>
      '(r, out, ws) ← write_all (replies f) s (contents f);
      '(r', fs2) ← relay_files s fs';
      Some (if r =? 0 then r' else -1, mkSink ws out :: fs2)
  end.

(** [output_redirect_relay]; [result] is sticky. *)
Fixpoint output_redirect_relay (reads : list rres) (fs : list sink) (result : Z) : option (Z * list sink) :=
  match reads with
  | [] => None
  | REof :: _ => Some (result, fs)
  | REintr :: rs => output_redirect_relay rs fs result
  | RFail :: _ => Some (-1, fs)
  | Got s :: rs =>
      '(r, fs') ← relay_files s fs;
      output_redirect_relay rs fs' (if r =? 0 then result else -1)
  end.

(** [run_tee], the helper process of a pipeline stage: the same loop, with
    the result of the writes ignored. *)
Definition run_tee (reads : list rres) (fs : list sink) : option (list sink) :=
  snd <$> output_redirect_relay reads fs 0.

(** ** Waiting for a command while copying its output *)

(** A reply of [waitpid] to [wait_with_relay]. *)
Inductive preply := PChild (s : wstatus) | PNone | PEintr | PError.

(** What happens during one turn of the loop: the bytes that arrive before
    the poll, whether the last writer is gone, the bytes that arrive between
    the poll and [waitpid], and the reply of [waitpid]. *)
Record turn := mkTurn { arrives : cstr; hup : bool; late : cstr; reply : preply }.

Definition BUFFER : nat := 4096.

(** [wait_with_relay]: [pending] is the contents of the pipe and [isopen] tells
    whether [read_fd] is still open.  The result with the status, what is left
    in the pipe, whether [read_fd] is open, and the files. *)
Fixpoint wait_with_relay (background : bool) (turns : list turn) (status : wstatus) (pending : cstr) (isopen : bool)
    (fs : list sink) : option (Z * wstatus * cstr * bool * list sink) :=
  match turns with
  | [] => None
  | t :: turns' =>
      let p1 := pending ++ arrives t in
      let wait (o : bool) :=
        let p2 := p1 ++ late t in
        match reply t with
        | PChild s =>
            if WIFSTOPPED s && background then wait_with_relay background turns' s p2 o fs
            else Some (0, s, p2, o, fs)
        | PError => Some (-1, status, p2, o, fs)
        | PNone | PEintr => wait_with_relay background turns' status p2 o fs
        end in
      if isopen then
        match p1 with
        | [] => if hup t then wait false else wait true
        | _ :: _ =>
            '(_, fs') ← relay_files (take BUFFER p1) fs;
            wait_with_relay background turns' status (drop BUFFER p1 ++ late t) isopen fs'
        end
      else wait false
  end.

(** ** Correctness *)
Definition never_fails (f : sink) : Prop := WFail ∉ replies f.

Lemma write_all_never_fails ws : forall buf out r out' ws',
  WFail ∉ ws -> write_all ws buf out = Some (r, out', ws') -> r = 0 /\ out' = out ++ buf /\ WFail ∉ ws'.
Proof.
  induction ws as [|[n| |] ws IH]; intros [|c buf] out r out' ws' Hn; cbn [write_all];
    try (intros [= <- <- <-]; by rewrite app_nil_r); try done.
  - intros (-> & -> & H)%IH; [|set_solver]. by rewrite <- app_assoc, take_drop.
  - intros H%IH; [done | set_solver].
  - set_solver.
Qed.

(** Every file received [s]. *)
Definition received (s : cstr) (fs fs' : list sink) : Prop :=
  Forall2 (fun f f' => contents f' = contents f ++ s /\ never_fails f') fs fs'.

Lemma relay_files_received s fs : forall r fs',
  Forall never_fails fs -> relay_files s fs = Some (r, fs') -> r = 0 /\ received s fs fs'.
Proof.
  induction fs as [|f fs IH]; intros r fs' H; cbn [relay_files].
  - intros [= <- <-]. split; [done | constructor].
  - apply Forall_cons in H as [Hf H]. destruct (write_all _ _ _) as [[[r1 out] ws]|] eqn:Hw; [|done]. cbn [mbind option_bind].
    destruct (relay_files s fs) as [[r2 fs2]|]; [|done]. cbn [mbind option_bind]. intros [= <- <-].
    destruct (write_all_never_fails _ _ _ _ _ _ Hf Hw) as (-> & -> & Hws).
    destruct (IH r2 fs2 H eq_refl) as [-> Hr]. split; [done|]. by constructor.
Qed.

Lemma received_nil fs : Forall never_fails fs -> received [] fs fs.
Proof. induction 1; constructor; [by rewrite app_nil_r | done]. Qed.

Lemma received_app a b fs1 fs2 fs3 : received a fs1 fs2 -> received b fs2 fs3 -> received (a ++ b) fs1 fs3.
Proof.
  intros H. revert fs3. induction H as [|f1 f2 fs1 fs2 [E1 _] H IH]; intros fs3 H3; inversion_clear H3 as [|? f3 ? ? [E2 Hn] Hr].
  - constructor.
  - constructor; [|by apply IH]. by rewrite E2, E1, <- app_assoc.
Qed.

Lemma received_never_fails s fs fs' : received s fs fs' -> Forall never_fails fs'.
Proof. induction 1 as [|? ? ? ? [_ Hn]]; by constructor. Qed.

(** The bytes a command writes during some turns. *)
Definition produced (turns : list turn) : cstr := concat ((fun t => arrives t ++ late t) <$> turns).

Lemma produced_cons t turns : produced (t :: turns) = arrives t ++ late t ++ produced turns.
Proof. unfold produced. simpl. by rewrite <- app_assoc. Qed.

Lemma wait_with_relay_spec bg turns : forall status pending isopen fs r status' left o fs',
  Forall never_fails fs ->
  wait_with_relay bg turns status pending isopen fs = Some (r, status', left, o, fs') ->
  exists before t after delivered,
    turns = before ++ t :: after /\ received delivered fs fs' /\
    pending ++ produced (before ++ [t]) = delivered ++ left /\ (o = true -> left = late t).
Proof.
  induction turns as [|t turns IH]; intros status pending isopen fs r status' left o fs' Hn; cbn [wait_with_relay]; [done|].
  set (p1 := pending ++ arrives t).
  assert (Hdone : forall o' r' s' l' o2 f2, (o' = true -> p1 = []) ->
    Some (r', s', p1 ++ late t, o', fs) = Some (r, status', l', o2, f2) -> l' = left -> o2 = o -> f2 = fs' ->
    exists before t0 after delivered, t :: turns = before ++ t0 :: after /\ received delivered fs fs' /\
      pending ++ produced (before ++ [t0]) = delivered ++ left /\ (o = true -> left = late t0)).
  { intros o' r' s' l' o2 f2 Ho [= <- <- <- <- <-] <- <- <-. exists [], t, turns, []. split_and!; [done | by apply received_nil| |].
    - unfold produced. simpl. rewrite app_nil_r, app_assoc. done.
    - intros E. by rewrite (Ho E). }
  assert (Hgo : forall s' pending' o' fs1 delivered, received delivered fs fs1 ->
    pending ++ arrives t ++ late t = delivered ++ pending' ->
    wait_with_relay bg turns s' pending' o' fs1 = Some (r, status', left, o, fs') ->
    exists before t0 after delivered0, t :: turns = before ++ t0 :: after /\ received delivered0 fs fs' /\
      pending ++ produced (before ++ [t0]) = delivered0 ++ left /\ (o = true -> left = late t0)).
  { intros s' pending' o' fs1 d Hd E Hw.
    destruct (IH _ _ _ _ _ _ _ _ _ (received_never_fails _ _ _ Hd) Hw) as (before & t0 & after & d2 & -> & Hr & E2 & Hl).
    exists (t :: before), t0, after, (d ++ d2). split_and!; [done | by eapply received_app | | done].
    simpl. rewrite produced_cons, !app_assoc, <- (app_assoc pending), E, <- !app_assoc, E2. done. }
  assert (Hsame : forall s' o', wait_with_relay bg turns s' (p1 ++ late t) o' fs = Some (r, status', left, o, fs') ->
    exists before t0 after delivered0, t :: turns = before ++ t0 :: after /\ received delivered0 fs fs' /\
      pending ++ produced (before ++ [t0]) = delivered0 ++ left /\ (o = true -> left = late t0)).
  { intros s' o'. apply (Hgo s' _ o' fs []); [by apply received_nil|]. unfold p1. by rewrite <- app_assoc. }
  assert (Hwait : forall o', (o' = true -> p1 = []) ->
    match reply t with
    | PChild s =>
        if WIFSTOPPED s && bg then wait_with_relay bg turns s (p1 ++ late t) o' fs
        else Some (0, s, p1 ++ late t, o', fs)
    | PError => Some (-1, status, p1 ++ late t, o', fs)
    | PNone | PEintr => wait_with_relay bg turns status (p1 ++ late t) o' fs
    end = Some (r, status', left, o, fs') ->
    exists before t0 after delivered0, t :: turns = before ++ t0 :: after /\ received delivered0 fs fs' /\
      pending ++ produced (before ++ [t0]) = delivered0 ++ left /\ (o = true -> left = late t0)).
  { intros o' Ho. destruct (reply t) as [s| | |]; [destruct (WIFSTOPPED s && bg)| | |]; try apply Hsame;
      intros E; by eapply (Hdone o'); try exact E. }
  destruct isopen; [|by apply Hwait].
  destruct p1 as [|c p] eqn:Ep; [destruct (hup t); by apply Hwait|].
  destruct (relay_files _ _) as [[r1 fs1]|] eqn:Hr; [|done]. cbn [mbind option_bind].
  destruct (relay_files_received _ _ _ _ Hn Hr) as [_ Hrec].
  apply (Hgo _ _ _ fs1 (take BUFFER (c :: p)) Hrec).
  rewrite <- Ep, app_assoc, (app_assoc (take _ _)), take_drop. done.
Qed.

(** Copying the output of a command loses nothing but its last gasp.  When
    no write fails, every file has received, in order, the same prefix of
    what the command wrote; what is missing at the return of
    [wait_with_relay] is what is still in the pipe, and while the pipe is
    open that is only what the command wrote between the last poll and its
    end. *)
Theorem relay_conserves (background : bool) (turns : list turn) (fs fs' : list sink) (r : Z)
    (status : wstatus) (left : cstr) (o : bool) :
  Forall never_fails fs ->
  wait_with_relay background turns (Exited 0) [] true fs = Some (r, status, left, o, fs') ->
  exists before t after delivered,
    turns = before ++ t :: after /\ received delivered fs fs' /\
    produced (before ++ [t]) = delivered ++ left /\ (o = true -> left = late t).
Proof. intros Hn H. exact (wait_with_relay_spec background turns (Exited 0) [] true fs r status left o fs' Hn H). Qed.

(** Two files, one with short writes; the command writes, sleeps, writes,
    closes its output and ends. *)
Definition two_sinks : list sink :=
  [mkSink [Wrote 3; Wrote 2; WEintr; Wrote 5] []; mkSink [Wrote 5; Wrote 5] (str ">")].
Definition calm : list turn :=
  [mkTurn (str "hello") false [] PNone; mkTurn [] false [] PNone; mkTurn (str "world") false [] PNone;
   mkTurn [] true [] PNone; mkTurn [] true [] (PChild (Exited 0))].

Lemma relay_conserves_witness :
  exists before t after delivered,
    calm = before ++ t :: after /\
    received delivered two_sinks [mkSink [] (str "helloworld"); mkSink [] (str ">helloworld")] /\
    produced (before ++ [t]) = delivered ++ [] /\ (false = true -> [] = late t).
Proof.
  apply (relay_conserves false calm two_sinks _ 0 (Exited 0) [] false); [|vm_compute; reflexivity].
  apply Forall_forall. intros f Hf. apply list_elem_of_In in Hf. intros H. apply list_elem_of_In in H.
  destruct Hf as [<-|[<-|[]]]; vm_compute in H; intuition discriminate.
Defined.

(** The race: the command writes its only output and ends just after the
    poll timed out; the file stays empty, although the command succeeded and
    the write succeeded. *)
Example output_lost :
  wait_with_relay false [mkTurn [] false (str "result") (PChild (Exited 0))] (Exited 0) [] true [mkSink [] []] =
  Some (0, Exited 0, str "result", true, [mkSink [] []]).
Proof. reflexivity. Qed.

(** The copy of [output_redirect_relay] and [run_tee]: when the end of the
    input is reached without a failed write, every file has received exactly
    the bytes read, whatever short or interrupted calls occurred. *)
Theorem output_redirect_relay_complete (reads : list rres) (fs fs' : list sink) (r : Z) :
  Forall never_fails fs -> RFail ∉ reads ->
  output_redirect_relay reads fs 0 = Some (r, fs') ->
  r = 0 /\ exists rs1 rs2, reads = rs1 ++ REof :: rs2 /\ received (bytes_read rs1) fs fs'.
Proof.
  revert fs. induction reads as [|[s| | |] reads IH]; intros fs Hn Hr; cbn [output_redirect_relay]; [done | | | |set_solver].
  - destruct (relay_files s fs) as [[r1 fs1]|] eqn:Hf; [|done]. cbn [mbind option_bind].
    destruct (relay_files_received _ _ _ _ Hn Hf) as [-> Hrec]. simpl. intros H.
    destruct (IH fs1 (received_never_fails _ _ _ Hrec) ltac:(set_solver) H) as (-> & rs1 & rs2 & -> & H2).
    split; [done|]. exists (Got s :: rs1), rs2. split; [done|]. by apply (received_app _ (bytes_read rs1) fs fs1 fs').
  - intros [= <- <-]. split; [done|]. exists [], reads. split; [done|]. by apply received_nil.
  - intros (-> & rs1 & rs2 & -> & H)%IH; [|done|set_solver]. split; [done|]. by exists (REintr :: rs1), rs2.
Qed.

Lemma output_redirect_relay_complete_witness :
  0 = 0 /\ exists rs1 rs2, [Got (str "hello"); REintr; Got (str "world"); REof] = rs1 ++ REof :: rs2 /\
    received (bytes_read rs1) two_sinks [mkSink [] (str "helloworld"); mkSink [] (str ">helloworld")].
Proof.
  apply (output_redirect_relay_complete _ two_sinks); [| |vm_compute; reflexivity].
  - apply Forall_forall. intros f Hf. apply list_elem_of_In in Hf. intros H. apply list_elem_of_In in H.
    destruct Hf as [<-|[<-|[]]]; vm_compute in H; intuition discriminate.
  - intros H. apply list_elem_of_In in H. simpl in H. intuition discriminate.
Defined.
