(* ===== verification/Execute.v ===== *)
(** * Running an external command (c-shell/src/execute.c)

    The search for the executable, the argument vector, and the parent's and
    the child's side of [run_external].  Allocation of short strings is
    assumed to succeed. *)
From S2P Require Import Prelude Lexer Parser Jobs Resume Stages Plumbing Pipeline Relay.
Local Open Scope c_scope.
Local Open Scope Z_scope.

(** ** The search *)
Definition COLON : ascii := ":"%char.

(** The tokens [strtok_r] cuts at colons, [cur] being the current one. *)
Fixpoint strtok (cur : cstr) (s : cstr) : list cstr :=
  match s with
  | [] => match cur with [] => [] | _ => [cur] end
  | c :: s' =>
      if c =c COLON then match cur with [] => strtok [] s' | _ => cur :: strtok [] s' end
      else strtok (cur ++ [c]) s'
  end.

Definition make_path (directory name : cstr) : cstr := directory ++ str "/" ++ name.

Definition has_slash (name : cstr) : bool := existsb (fun c => c =c "/") name.

Section Find.
(** [executable_file]: the file system's answer to [stat] and [access]. *)
Context (executable_file : cstr -> bool).

Fixpoint search_parts (parts : list cstr) (name : cstr) : option cstr :=
  match parts with
  | [] => None
  | part :: parts' =>
      let candidate := make_path (match part with [] => str "." | _ => part end) name in
      if executable_file candidate then Some candidate else search_parts parts' name
  end.

Definition find_executable (path : option cstr) (name : cstr) (path_only : bool) : option cstr :=
  if has_slash name then if executable_file name then Some name else None
  else
    let candidate := make_path (str ".") name in
    if negb path_only && executable_file candidate then Some candidate
    else match path with None => None | Some p => search_parts (strtok [] p) name end.

(** Directories of PATH that count: the non-empty fields. *)
Fixpoint split_colon (s : cstr) : list cstr :=
  match s with
  | [] => [[]]
  | c :: s' =>
      if c =c COLON then [] :: split_colon s'
      else match split_colon s' with f :: fs => (c :: f) :: fs | [] => [[c]] end
  end.

Definition search_list (path : option cstr) (name : cstr) (path_only : bool) : list cstr :=
  if has_slash name then [name]
  else (if path_only then [] else [make_path (str ".") name]) ++
       ((fun d => make_path d name) <$> filter (fun d => d <> []) (split_colon (default [] path))).
End Find.

Lemma split_colon_cons s : exists f fs, split_colon s = f :: fs.
Proof.
  induction s as [|c s (f & fs & E)]; simpl; [eauto|]. destruct (c =c COLON); [eauto|]. rewrite E. eauto.
Qed.

Lemma strtok_split s : forall cur,
  strtok cur s = filter (fun d => d <> []) (match split_colon s with f :: fs => (cur ++ f) :: fs | [] => [] end).
Proof.
  induction s as [|c s IH]; intros cur; simpl.
  - rewrite app_nil_r. by destruct cur.
  - destruct (c =c COLON).
    + rewrite app_nil_r. destruct (split_colon_cons s) as (f & fs & E).
      assert (IH0 : strtok [] s = filter (fun d => d <> []) (split_colon s)) by (by rewrite IH, E).
      rewrite IH0. by destruct cur.
    + rewrite IH. destruct (split_colon_cons s) as (f & fs & E). rewrite E. by rewrite <- app_assoc.
Qed.

Lemma strtok_nonempty s : forall cur, Forall (fun d => d <> []) (strtok cur s).
Proof. intros cur. rewrite strtok_split. apply Forall_forall. intros d. rewrite list_elem_of_filter. tauto. Qed.

(** The search for a command.  [find_executable] returns the first
    executable of: the name itself when it has a slash; else the current
    directory, unless the name was written with [%]; then the non-empty
    fields of PATH, in order.  An empty field never stands for the current
    directory, although the code provides for it. *)
Theorem find_executable_spec (executable_file : cstr -> bool) (path : option cstr) (name : cstr) (path_only : bool) :
  find_executable executable_file path name path_only =
  find (executable_file) (search_list path name path_only).
Proof.
  unfold find_executable, search_list. destruct (has_slash name); [simpl; by destruct (executable_file name)|].
  assert (Hs : forall parts, Forall (fun d => d <> []) parts ->
    search_parts executable_file parts name = find executable_file ((fun d => make_path d name) <$> parts)).
  { induction 1 as [|d parts Hd _ IH]; [done|]. simpl. destruct d as [|c d]; [done|].
    destruct (executable_file _); [done | apply IH]. }
  assert (Hp : match path with None => None | Some p => search_parts executable_file (strtok [] p) name end =
    find executable_file ((fun d => make_path d name) <$> filter (fun d => d <> []) (split_colon (default [] path)))).
  { destruct path as [p|]; [|done]. rewrite Hs by apply strtok_nonempty. rewrite strtok_split. simpl.
    destruct (split_colon_cons p) as (f & fs & E). by rewrite E. }
  rewrite Hp. destruct path_only; [done|]. change (negb false) with true. rewrite andb_true_l. done.
Qed.

(** ** The command *)
Definition starts_percent (name : cstr) : bool := match name with c :: _ => c =c "%" | [] => false end.

(** [simple_external] *)
Definition simple_external (ts : list Token) : bool :=
  match ts with [] => false | _ => forallb is_word ts end.

(** [exec_command]: the calls of [execve], given whether the kernel does not
    know the format of the file. *)
Definition exec_command (enoexec : bool) (path : cstr) (argv : list cstr) : list (cstr * list cstr) :=
  (path, argv) :: if enoexec then [(str "/bin/sh", str "sh" :: path :: tail argv)] else [].

Section External.
Context {W : Type} `{!Files W} `{!Forks W}.
Implicit Types st : W * list fdev.

(** [if(input_stream!=NULL) fclose(input_stream);] *)
Definition fclose_stream (inp : option Z) st : W * list fdev :=
  match inp with Some fd => do_close fd st | None => st end.

(** [run_external]: the result, the job table, the parent's actions, what the
    child executes, and the ledger; [None] while [waitpid] has not
    answered. *)
Definition run_external (sh : shell_state) (exe : cstr -> bool) (path_value : option cstr) (turns : list turn)
    (sinks : list sink) (ts : list Token) (js : jobs) (st : W * list fdev) :
    option (Z * jobs * list pact * option (cstr * list cstr) * (W * list fdev)) :=
  match ts with
  | [] => Some (0, js, [], None, st)
  | t :: _ =>
      if negb (is_word t) then Some (0, js, [], None, st)
      else
        let '(ok, w) := allocate st.1 in
        if negb ok then Some (1, js, [Err (str "cshell: memory allocation failed")], None, (w, st.2))
        else
          let '(r, argv, inp, st1) := collect_command ts (w, st.2) in
          if negb (r =? 0) then Some (1, js, [Err (line "cshell: no such file or directory")], None, st1)
          else if (length argv =? 0)%nat then Some (0, js, [], None, fclose_stream inp st1)
          else
            let '(r2, o, st2) := prepare_output ts st1 in
            if negb (r2 =? 0) then
              Some (1, js, [Err (line "cshell: unable to create file for writing")], None,
                    (output_redirect_destroy o (fclose_stream inp st2)).2)
            else
              let name := strip_percent (text t) in
              match find_executable exe path_value name (starts_percent (text t)) with
              | None =>
                  Some (1, js, [Err (str "cshell: command not found (" ++ name ++ line ")")], None,
                        (output_redirect_destroy o (fclose_stream inp st2)).2)
              | Some path =>
                  let group := if backgroundchild sh then shellpgrp sh else 0 in
                  let '(child, w2) := fork_child st2.1 in
                  let st3 := (w2, st2.2) in
                  if child <? 0 then
                    Some (1, js, [Err (str "cshell: fork failed")], None,
                          (output_redirect_destroy o (fclose_stream inp st3)).2)
                  else
                    let a1 := Setpgid child (if group =? 0 then child else group) ::
                              (if backgroundchild sh then [] else [ToTerminal child]) in
                    let '(o1, st4) := output_redirect_close_parent_write o st3 in
                    '(_, status, _, still, _) ←
                      wait_with_relay (backgroundchild sh) turns (Exited 0) [] (0 <=? read_fd o1) sinks;
                    let '(o2, st5) :=
                      if (0 <=? read_fd o1) && negb still
                      then (mkOutput (o_files o1) (-1) (write_fd o1), do_close (read_fd o1) st4) else (o1, st4) in
                    let '(js', a2) :=
                      if backgroundchild sh then (js, [])
                      else
                        let '(js1, a) := after_wait child ts (WIFSTOPPED status) (WTERMSIG_INT status) js in
                        (js1, ToTerminal (shellpgrp sh) :: a) in
                    Some (1, js', a1 ++ a2, Some (path, name :: tail argv),
                          (output_redirect_destroy o2 (fclose_stream inp st5)).2)
              end
  end.

Lemma collect_loop_balanced n : forall ts argv inp st,
  (length ts <= n)%nat -> balanced st.2 (nonneg inp) ->
  let '(r, _, inp', st') := collect_loop ts argv inp st in balanced st'.2 (if r =? 0 then nonneg inp' else []).
Proof.
  induction n as [|n IH]; intros [|t ts] argv inp st Hn H; cbn [collect_loop length] in *; try done; [lia|].
  destruct (is_word t); [by apply IH; [lia|]|]. destruct (negb _); [by apply IH; [lia|]|].
  assert (Hclose : balanced (close_if inp st).2 []) by (apply close_if_balanced; by rewrite app_nil_r).
  destruct ts as [|t2 ts]; [done|]. destruct (negb (is_word t2)); [done|]. cbn [length] in Hn.
  destruct (bool_decide (type t = TOKEN_OP_LT)); [|by apply IH; [lia|]].
  unfold do_open. destruct (open_file _ _ _) as [fd w]. destruct (Z.ltb_spec fd 0) as [Hfd|Hfd].
  { simpl. apply close_if_balanced. by rewrite app_nil_r. }
  pose proof (balanced_open st.2 fd (text t2) RDONLY _ H) as H1.
  destruct (Z.ltb_spec inp 0) as [Hi|Hi].
  - rewrite (proj2 (Z.ltb_ge fd 0)) by lia. apply IH; [lia|]. rewrite (nonneg_ge fd Hfd).
    assert (Hnone : nonneg inp = []) by (unfold nonneg; by rewrite (proj2 (Z.leb_gt 0 inp))). by rewrite Hnone in H1.
  - rewrite (nonneg_ge inp Hi) in H1.
    pose proof (join_inputs_balanced inp fd [] (w, st.2 ++ [Opened fd (text t2) RDONLY])) as Hj.
    destruct (join_inputs inp fd _) as [fd2 st2].
    specialize (Hj ltac:(eapply balanced_perm; [|exact H1]; intros x;
      change [fd; inp] with ([fd] ++ [inp]); change [inp; fd] with ([inp] ++ [fd]); rewrite !cnt_app; lia)).
    destruct (Z.ltb_spec fd2 0) as [Hf2|Hf2]; [done|]. apply IH; [lia|]. by rewrite (nonneg_ge fd2 Hf2).
Qed.

(** The descriptor behind a stream. *)
Definition stream_fd (inp : option Z) : list Z := match inp with Some fd => [fd] | None => [] end.

Lemma collect_command_balanced ts st :
  balanced st.2 [] ->
  let '(_, _, inp, st') := collect_command ts st in balanced st'.2 (stream_fd inp).
Proof.
  intros H. unfold collect_command.
  pose proof (collect_loop_balanced _ ts [] (-1) st (le_n _) H) as Hl.
  destruct (collect_loop ts [] (-1) st) as [[[r argv] inp] st1].
  destruct (Z.eqb_spec r 0); cbn [negb]; [|done]. unfold nonneg in Hl. destruct (0 <=? inp); [|done].
  destruct (open_stream inp st1.1) as [[|] w]; [done|]. simpl. by apply balanced_close.
Qed.

Lemma fclose_stream_balanced inp fds st : balanced st.2 (stream_fd inp ++ fds) -> balanced (fclose_stream inp st).2 fds.
Proof. destruct inp; simpl; [apply balanced_close | done]. Qed.

Definition redirect_fds (o : OutputRedirect) : list Z := nonneg (read_fd o) ++ nonneg (write_fd o) ++ o_files o.

Lemma finish_balanced inp o st :
  balanced st.2 (stream_fd inp ++ redirect_fds o) ->
  balanced (output_redirect_destroy o (fclose_stream inp st)).2.2 [].
Proof. intros H. by apply destroy_balanced, fclose_stream_balanced. Qed.

Lemma prepare_output_more ts st fds :
  pipes_nonneg (W := W) -> balanced st.2 fds ->
  let '(_, o, st') := prepare_output ts st in balanced st'.2 (fds ++ redirect_fds o).
Proof.
  intros Hp H. pose proof (prepare_output_balanced ts fds st Hp H) as Hf.
  destruct (prepare_output ts st) as [[r o] st']. eapply balanced_perm; [|exact Hf]. intros x. unfold redirect_fds. rewrite !cnt_app. lia.
Qed.

(** After the fork: the write end is closed, the read end too once it is
    exhausted. *)
Lemma parent_write_balanced inp o st :
  balanced st.2 (stream_fd inp ++ redirect_fds o) ->
  let '(o1, st1) := output_redirect_close_parent_write o st in balanced st1.2 (stream_fd inp ++ redirect_fds o1).
Proof.
  intros H. unfold output_redirect_close_parent_write. destruct (Z.leb_spec 0 (write_fd o)) as [Hw|]; [|done].
  cbn [do_close snd]. apply balanced_close. eapply balanced_perm; [|exact H]. intros x.
  unfold redirect_fds. cbn [read_fd write_fd o_files]. rewrite (nonneg_ge _ Hw). change (nonneg (-1)) with (@nil Z).
  match goal with |- _ = cnt x (?a :: ?l) => change (a :: l) with ([a] ++ l) end. rewrite !cnt_app, cnt_nil. lia.
Qed.

Lemma read_end_balanced inp o still st :
  balanced st.2 (stream_fd inp ++ redirect_fds o) ->
  let '(o1, st1) := if (0 <=? read_fd o) && negb still
                    then (mkOutput (o_files o) (-1) (write_fd o), do_close (read_fd o) st) else (o, st) in
  balanced st1.2 (stream_fd inp ++ redirect_fds o1).
Proof.
  intros H. destruct (Z.leb_spec 0 (read_fd o)) as [Hr|]; simpl; [destruct still; simpl|]; try done.
  apply balanced_close. eapply balanced_perm; [|exact H]. intros x.
  unfold redirect_fds. cbn [read_fd write_fd o_files]. rewrite (nonneg_ge _ Hr). change (nonneg (-1)) with (@nil Z).
  match goal with |- _ = cnt x (?a :: ?l) => change (a :: l) with ([a] ++ l) end. rewrite !cnt_app, cnt_nil. lia.
Qed.

Lemma collect_command_words c st :
  command c -> let '(r, argv, _, _) := collect_command c st in r = 0 -> argv = words_of c.
Proof.
  intros Hc. destruct (command_args c Hc) as (n & a & -> & Hn & Ha). unfold collect_command.
  pose proof (collect_loop_words (n :: a) (arg_word n a Hn Ha) [] (-1) st) as H.
  destruct (collect_loop _ _ _ _) as [[[r argv] inp] st1]. destruct H as [_ H].
  destruct (Z.eqb_spec r 0); simpl; [|done].
  destruct (0 <=? inp); [|auto]. destruct (open_stream inp st1.1) as [[|] w1]; auto.
Qed.

(** Running an external command.  On every path (a missing input, an output
    that cannot be created, an unknown command, a failed fork, a command
    that ends, is stopped or interrupted) every descriptor opened is closed
    exactly once; and what the child executes is the file the search found,
    with the words of the command as arguments, redirections left out and
    the [%] of the name removed. *)
Theorem run_external_clean (sh : shell_state) (exe : cstr -> bool) (path_value : option cstr) (turns : list turn)
    (sinks : list sink) (ts : list Token) (js js' : jobs) (w : W) (r : Z) (acts : list pact)
    (cmd : option (cstr * list cstr)) (st' : W * list fdev) :
  pipes_nonneg (W := W) ->
  run_external sh exe path_value turns sinks ts js (w, []) = Some (r, js', acts, cmd, st') ->
  balanced st'.2 [] /\
  (command ts -> forall path argv, cmd = Some (path, argv) ->
     exists t, head ts = Some t /\ argv = strip_percent (text t) :: tail (words_of ts) /\
       find_executable exe path_value (strip_percent (text t)) (starts_percent (text t)) = Some path).
Proof.
  intros Hpipe. unfold run_external. destruct ts as [|t ts]; [by intros [= <- <- <- <- <-]|].
  destruct (negb (is_word t)); [by intros [= <- <- <- <- <-]|].
  destruct (allocate _) as [[|] w1]; cbn [negb]; [|by intros [= <- <- <- <- <-]].
  pose proof (collect_command_balanced (t :: ts) (w1, []) (fun x => eq_refl)) as Hc.
  pose proof (collect_command_words (t :: ts) (w1, [])) as Hwords. cbn [snd].
  destruct (collect_command (t :: ts) (w1, [])) as [[[r1 argv] inp] st1] eqn:Ec.
  destruct (Z.eqb_spec r1 0) as [->|Hr1]; cbn [negb].
  2: { intros [= <- <- <- <- <-]. split; [|done].
       revert Ec Hc. unfold collect_command. destruct (collect_loop _ _ _ _) as [[[r2 a2] i2] s2].
       destruct (negb (r2 =? 0)) eqn:E2; [by intros [= <- <- <- <-]|].
       destruct (0 <=? i2); [destruct (open_stream i2 s2.1) as [[|] w2]|]; by intros [= <- <- <- <-]. }
  destruct (length argv =? 0)%nat.
  { intros [= <- <- <- <- <-]. split; [|done]. apply fclose_stream_balanced. by rewrite app_nil_r. }
  pose proof (prepare_output_more (t :: ts) st1 (stream_fd inp) Hpipe Hc) as Hp.
  destruct (prepare_output (t :: ts) st1) as [[r2 o] st2].
  destruct (negb (r2 =? 0)); [intros [= <- <- <- <- <-]; split; [by apply finish_balanced | done]|].
  destruct (find_executable _ _ _ _) as [path|] eqn:Hf;
    [|intros [= <- <- <- <- <-]; split; [by apply finish_balanced | done]].
  destruct (fork_child st2.1) as [child w2].
  destruct (child <? 0); [intros [= <- <- <- <- <-]; split; [by apply finish_balanced | done]|].
  pose proof (parent_write_balanced inp o (w2, st2.2) Hp) as Hw.
  destruct (output_redirect_close_parent_write o (w2, st2.2)) as [o1 st4].
  destruct (wait_with_relay _ _ _ _ _ _) as [[[[[rr status] left] still] fs]|]; [|done]. cbn [mbind option_bind].
  pose proof (read_end_balanced inp o1 still st4 Hw) as Hr.
  destruct (if (0 <=? read_fd o1) && negb still then _ else _) as [o2 st5].
  destruct (if backgroundchild sh then _ else _) as [js1 a2]. intros [= <- <- <- <- <-].
  split; [by apply finish_balanced|]. intros Hcmd path' argv' [= <- <-]. exists t.
  specialize (Hwords Hcmd eq_refl). subst argv. auto.
Qed.
End External.

(** [%sort -r < in > out1 > out2] where the second poll finds the output *)
Definition sort_line : list Token :=
  [word "%sort"; word "-r"; oper TOKEN_OP_LT; word "in"; oper TOKEN_OP_GT; word "out1"; oper TOKEN_OP_GT; word "out2"].
Definition bin_only (p : cstr) : bool := streq p (str "/bin/sort").
Definition sort_turns : list turn :=
  [mkTurn [] false [] PNone; mkTurn (str "b") false (str "a") PNone; mkTurn [] true [] PNone;
   mkTurn [] true [] PNone; mkTurn [] true [] (PChild (Exited 0))].
Definition sort_run := run_external (mkShell false 50) bin_only (Some (str "/usr/bin::/bin")) sort_turns
   [mkSink [Wrote 1; Wrote 1] []; mkSink [Wrote 1; Wrote 1] []] sort_line jobs0 ((3%nat : DemoFiles), []).

Lemma run_external_clean_witness :
  match sort_run with
  | Some (r, js', acts, cmd, st') =>
      cmd = Some (str "/bin/sort", [str "sort"; str "-r"]) /\
      balanced st'.2 [] /\
      (command sort_line -> forall path argv, cmd = Some (path, argv) ->
         exists t, head sort_line = Some t /\ argv = strip_percent (text t) :: tail (words_of sort_line) /\
           find_executable bin_only (Some (str "/usr/bin::/bin")) (strip_percent (text t)) (starts_percent (text t)) =
             Some path)
  | None => False
  end.
Proof.
  destruct sort_run as [[[[[r js'] acts] cmd] st']|] eqn:E; [|vm_compute in E; discriminate].
  split; [vm_compute in E; by simplify_eq|].
  apply (run_external_clean (mkShell false 50) bin_only (Some (str "/usr/bin::/bin")) sort_turns
    [mkSink [Wrote 1; Wrote 1] []; mkSink [Wrote 1; Wrote 1] []] sort_line jobs0 js' (3%nat : DemoFiles) r acts cmd st');
    [|exact E].
  intros w a b w' [= <- <- <-]. lia.
Defined.
