(* ===== verification/Dispatch.v ===== *)
(** * From a line to its commands (c-shell/src/d1d2.c: run, run_tokens, runcomm)

    How a line is cut into groups, which of them run in the background, and
    which part of the shell handles a group.  The handlers are an interface:
    what [runcomm] relies on is that each of them answers 0, without doing
    anything, exactly for the commands that are not its own. *)
From S2P Require Import Prelude Lexer Parser Stages Jobs Execute.
Local Open Scope Z_scope.

(** The parts of the shell over its state [S]. *)
Class Shell (S : Type) := {
  run_pipeline : list Token -> S -> Z * S;
  run_redirected_builtin : list Token -> S -> Z * S;
  run_hop : list Token -> S -> Z * S;
  run_locate : list Token -> S -> Z * S;
  run_peek : list Token -> S -> Z * S;
  run_reveal : list Token -> S -> Z * S;
  runactivity : list Token -> S -> Z * S;
  run_resume : list Token -> S -> Z * S;
  run_ping : list Token -> S -> Z * S;
  run_spy : list Token -> S -> Z * S;
  run_snoop : list Token -> S -> Z * S;
  run_external : list Token -> S -> Z * S;
  runbuff : list Token -> S -> S;
  (** [open] for reading followed by [close]: whether it succeeded *)
  open_input : cstr -> S -> bool * S;
  (** [prepare_output] followed by [output_redirect_destroy] *)
  touch_outputs : list Token -> S -> bool * S;
  search : cstr -> bool -> S -> option cstr;
  complain : cstr -> S -> S
}.

Definition first_word (ts : list Token) : option cstr :=
  match ts with t :: _ => if is_word t then Some (text t) else None | [] => None end.

Definition builtins : list cstr :=
  str <$> ["hop"; "reveal"; "peek"; "locate"; "activities"; "resume"; "ping"; "spy"; "snoop"]%string.

Definition is_builtin (name : cstr) : bool := existsb (streq name) builtins.
Definition has_pipe (ts : list Token) : bool := existsb (fun t => bool_decide (type t = TOKEN_OP_PIPE)) ts.
Definition has_redirect (ts : list Token) : bool := existsb (fun t => is_redirection (type t)) ts.

Section Dispatch.
Context {S : Type} `{!Shell S}.

(** The loop of [runcomm] that tries the inputs of a redirected [hop]. *)
Fixpoint hop_inputs (ts : list Token) (s : S) : bool * S :=
  match ts with
  | t :: ((t2 :: _) as ts') =>
      if bool_decide (type t = TOKEN_OP_LT) then
        let '(ok, s1) := open_input (text t2) s in
        if ok then hop_inputs ts' s1 else (false, s1)
      else hop_inputs ts' s
  | _ => (true, s)
  end.

Definition not_found (ts : list Token) (s : S) : bool :=
  match first_word ts with
  | None => false
  | Some name => match search (strip_percent name) (starts_percent name) s with None => true | Some _ => false end
  end.

(** The handlers [runcomm] tries in turn until one does not answer 0. *)
Definition handlers : list (list Token -> S -> Z * S) :=
  [run_pipeline; run_hop; run_locate; run_peek; run_reveal; runactivity; run_resume; run_ping; run_spy; run_snoop].

Fixpoint try_handlers (hs : list (list Token -> S -> Z * S)) (ts : list Token) (s : S) : Z * S :=
  match hs with
  | [] => (0, s)
  | h :: hs' => let '(r, s1) := h ts s in if r =? 0 then try_handlers hs' ts s1 else (r, s1)
  end.

Definition runcomm (ts : list Token) (s : S) : Z * S :=
  let named n := bool_decide (first_word ts = Some n) in
  if match first_word ts with Some n => is_builtin n | None => false end &&
     negb (named (str "hop")) && has_redirect ts && negb (has_pipe ts)
  then (1, (run_redirected_builtin ts s).2)
  else
    let '(stop, s1) :=
      if named (str "hop") && has_redirect ts then
        let '(ok, s1) := hop_inputs ts s in
        if negb ok then (true, complain (str "cshell: no such file or directory") s1)
        else
          let '(ok2, s2) := touch_outputs ts s1 in
          if negb ok2 then (true, complain (str "cshell: unable to create file for writing") s2) else (false, s2)
      else (false, s) in
    if stop then (1, s1)
    else
      let '(r, s2) := try_handlers handlers ts s1 in
      if r =? 0 then
        let missing := not_found ts s2 in
        let '(_, s3) := run_external ts s2 in
        (if missing then -1 else 1, s3)
      else (1, s2).

(** [run_tokens]: [cur] is the group read so far. *)
Fixpoint run_tokens (ts : list Token) (cur : list Token) (s : S) : S :=
  match ts with
  | [] => match cur with [] => s | _ => (runcomm cur s).2 end
  | t :: ts' =>
      if ends_list t then
        match cur with
        | [] => run_tokens ts' [] s
        | _ =>
            if bool_decide (type t = TOKEN_OP_AMP) then run_tokens ts' [] (runbuff cur s)
            else let '(r, s1) := runcomm cur s in if r <? 0 then s1 else run_tokens ts' [] s1
        end
      else run_tokens ts' (cur ++ [t]) s
  end.

(** [run]; the result is always 1. *)
Definition run (alloc_ok : nat -> bool) (junk : ascii) (line : cstr) (s : S) : option (Z * S) :=
  match lex_line alloc_ok junk line 0 token_list_init with
  | Some (Return status st) =>
      let invalid := if status =? 0 then parse_tokens (tokens st) else status in
      Some (1, if negb (invalid =? 0) then complain (str "cshell: invalid syntax") s
               else run_tokens (items (tokens st)) [] s)
  | _ => None
  end.

(** ** The groups of a line *)

(** A line as groups of piped commands, each with its background mark. *)
Inductive script : list Token -> list (list Token * bool) -> Prop :=
  | script_one g cs : pipeseq g cs -> script g [(g, false)]
  | script_amp g cs a : pipeseq g cs -> type a = TOKEN_OP_AMP -> script (g ++ [a]) [(g, true)]
  | script_seq g cs t rest gs :
      pipeseq g cs -> type t = TOKEN_OP_SEMI \/ type t = TOKEN_OP_AMP -> script rest gs ->
      script (g ++ t :: rest) ((g, bool_decide (type t = TOKEN_OP_AMP)) :: gs).

End Dispatch.

Lemma script_prepend c p rest gs :
  command c -> type p = TOKEN_OP_PIPE -> script rest gs -> exists gs', script (c ++ p :: rest) gs'.
Proof.
  intros Hc Hp H. destruct H as [g cs Hg|g cs a Hg Ha|g cs t rest gs Hg Ht Hr].
  - eexists. eapply script_one, pipe_more; eauto.
  - exists [(c ++ p :: g, true)]. rewrite app_comm_cons, app_assoc. eapply script_amp; [|done].
    by apply (pipe_more c p g cs).
  - eexists. rewrite app_comm_cons, app_assoc. eapply script_seq; [|done|done]. by apply (pipe_more c p g cs).
Qed.

Lemma separator_cases t : is_separator (type t) = true -> type t = TOKEN_OP_PIPE \/ ends_list t = true.
Proof. unfold is_separator, ends_list. destruct (type t); vm_compute; intuition congruence. Qed.

Lemma ends_list_iff t : ends_list t = true <-> type t = TOKEN_OP_SEMI \/ type t = TOKEN_OP_AMP.
Proof. unfold ends_list. by rewrite orb_true_iff, !bool_decide_eq_true. Qed.

Lemma sentence_script ts : sentence ts -> exists gs, script ts gs.
Proof.
  induction 1 as [c Hc|c a Hc Ha|c t rest Hc Ht Hr (gs & IH)].
  - eexists. eapply script_one, pipe_one, Hc.
  - eexists. eapply script_amp; [by apply pipe_one | done].
  - destruct (separator_cases t Ht) as [Hp|He]; [by eapply script_prepend|].
    eexists. eapply script_seq; [by apply pipe_one | by apply ends_list_iff | done].
Qed.

Lemma arglist_inner a : arglist a -> Forall (fun t => ends_list t = false) a.
Proof.
  assert (Hw : forall w, is_word w = true -> ends_list w = false).
  { intros w. unfold is_word, ends_list. rewrite bool_decide_eq_true. by intros ->. }
  assert (Hr : forall r, is_redirection (type r) = true -> ends_list r = false).
  { intros r. unfold is_redirection, ends_list. destruct (type r); vm_compute; congruence. }
  induction 1; repeat constructor; auto.
Qed.

Lemma pipeseq_inner g cs : pipeseq g cs -> Forall (fun t => ends_list t = false) g /\ g <> [].
Proof.
  assert (Hcmd : forall c, command c -> Forall (fun t => ends_list t = false) c /\ c <> []).
  { intros c (w & a & -> & Hw & Ha)%command_args. split; [|done]. by apply arglist_inner, arg_word. }
  induction 1 as [c Hc|c p rest cs Hc Hp Hr [IH _]]; [by apply Hcmd|]. destruct (Hcmd c Hc) as [H _].
  split; [|by destruct c]. apply Forall_app. split; [done|]. constructor; [|done]. unfold ends_list. by rewrite Hp.
Qed.

(** ** Which part handles a group *)

(** Whether a group has a pipe, and whether it has a redirection. *)
Definition piped (ts : list Token) : bool := bool_decide (Exists (fun t => type t = TOKEN_OP_PIPE) ts).
Definition redirected (ts : list Token) : bool :=
  bool_decide (Exists (fun t => type t = TOKEN_OP_LT \/ type t = TOKEN_OP_GT \/ type t = TOKEN_OP_GTGT) ts).

Lemma existsb_Exists {A} (f : A -> bool) (P : A -> Prop) `{!forall x, Decision (P x)} l :
  (forall x, f x = true <-> P x) -> existsb f l = bool_decide (Exists P l).
Proof.
  intros Hf. apply eq_true_iff_eq. rewrite bool_decide_eq_true, existsb_exists, List.Exists_exists.
  split; intros (x & Hx & Hp); exists x; (split; [done|]); by apply Hf.
Qed.

Lemma has_pipe_piped ts : has_pipe ts = piped ts.
Proof. apply existsb_Exists. intros t. apply bool_decide_eq_true. Qed.

Lemma has_redirect_redirected ts : has_redirect ts = redirected ts.
Proof. apply existsb_Exists. intros t. unfold is_redirection. destruct (type t); vm_compute; intuition congruence. Qed.

(** A handler that answers 0 and does nothing unless the command is its own. *)
Definition handles {S : Type} (mine : list Token -> bool) (h : list Token -> S -> Z * S) : Prop :=
  forall ts s, if mine ts then (h ts s).1 <> 0 else h ts s = (0, s).

Definition named (n : string) (ts : list Token) : bool := bool_decide (first_word ts = Some (str n)).

(** What [runcomm] relies on: each builtin looks at the first word,
    [run_pipeline] at the pipes of the group. *)
Class ShellLaws (S : Type) `{!Shell S} : Prop := {
  pipeline_handles : handles piped run_pipeline;
  hop_handles : handles (named "hop") run_hop;
  locate_handles : handles (named "locate") run_locate;
  peek_handles : handles (named "peek") run_peek;
  reveal_handles : handles (named "reveal") run_reveal;
  activity_handles : handles (named "activities") runactivity;
  resume_handles : handles (named "resume") run_resume;
  ping_handles : handles (named "ping") run_ping;
  spy_handles : handles (named "spy") run_spy;
  snoop_handles : handles (named "snoop") run_snoop
}.

(** The handler of a pipeline or of a builtin. *)
Definition handler_of {S : Type} `{!Shell S} (ts : list Token) : option (list Token -> S -> Z * S) :=
  if piped ts then Some run_pipeline
  else if named "hop" ts then Some run_hop
  else if named "locate" ts then Some run_locate
  else if named "peek" ts then Some run_peek
  else if named "reveal" ts then Some run_reveal
  else if named "activities" ts then Some runactivity
  else if named "resume" ts then Some run_resume
  else if named "ping" ts then Some run_ping
  else if named "spy" ts then Some run_spy
  else if named "snoop" ts then Some run_snoop
  else None.

Lemma try_handlers_cons {S : Type} mine (h : list Token -> S -> Z * S) hs ts s :
  handles mine h ->
  if mine ts then try_handlers (h :: hs) ts s = h ts s /\ (h ts s).1 <> 0
  else try_handlers (h :: hs) ts s = try_handlers hs ts s.
Proof.
  intros H. specialize (H ts s). destruct (mine ts); cbn [try_handlers].
  - destruct (h ts s) as [r s1]. simpl in H. by rewrite (proj2 (Z.eqb_neq r 0) H).
  - by rewrite H.
Qed.

Lemma try_handlers_spec {S : Type} `{!Shell S} `{!ShellLaws S} ts (s : S) :
  match handler_of ts with
  | Some h => try_handlers handlers ts s = h ts s /\ (h ts s).1 <> 0
  | None => try_handlers handlers ts s = (0, s)
  end.
Proof.
  unfold handler_of, handlers.
  repeat (match goal with |- context [try_handlers (?h :: ?hs) ts s] =>
    let H := fresh in
    first [ pose proof (try_handlers_cons _ h hs ts s pipeline_handles) as H
          | pose proof (try_handlers_cons _ h hs ts s hop_handles) as H
          | pose proof (try_handlers_cons _ h hs ts s locate_handles) as H
          | pose proof (try_handlers_cons _ h hs ts s peek_handles) as H
          | pose proof (try_handlers_cons _ h hs ts s reveal_handles) as H
          | pose proof (try_handlers_cons _ h hs ts s activity_handles) as H
          | pose proof (try_handlers_cons _ h hs ts s resume_handles) as H
          | pose proof (try_handlers_cons _ h hs ts s ping_handles) as H
          | pose proof (try_handlers_cons _ h hs ts s spy_handles) as H
          | pose proof (try_handlers_cons _ h hs ts s snoop_handles) as H ];
    match type of H with (if ?b then _ else _) => destruct b end; [exact H | rewrite H; clear H] end).
  done.
Qed.

Lemma builtin_named ts :
  match first_word ts with Some n => is_builtin n | None => false end =
  named "hop" ts || named "reveal" ts || named "peek" ts || named "locate" ts || named "activities" ts ||
  named "resume" ts || named "ping" ts || named "spy" ts || named "snoop" ts.
Proof.
  unfold named. destruct (first_word ts) as [n|]; [|done].
  assert (E : forall x, bool_decide (Some n = Some x) = streq n x)
    by (intros x; unfold streq; apply bool_decide_ext; split; [congruence | by intros ->]).
  rewrite !E. unfold is_builtin, builtins. simpl. by rewrite !orb_false_r, !orb_assoc.
Qed.

(** ** What running a group and a script means

    The specification does not mention [runcomm]: which part gets the group,
    and whether the rest of the line runs after it. *)
Section Spec.
Context {S : Type} `{!Shell S}.

(** The files a group reads from. *)
Fixpoint input_files (ts : list Token) : list cstr :=
  match ts with
  | t :: ((t2 :: _) as ts') => (if bool_decide (type t = TOKEN_OP_LT) then [text t2] else []) ++ input_files ts'
  | _ => []
  end.

Fixpoint open_all (fs : list cstr) (s : S) : bool * S :=
  match fs with
  | [] => (true, s)
  | f :: fs' => let '(ok, s1) := open_input f s in if ok then open_all fs' s1 else (false, s1)
  end.

(** Whether there is a program for the first word. *)
Definition found (ts : list Token) (s : S) : bool :=
  match first_word ts with
  | Some n => bool_decide (is_Some (search (strip_percent n) (starts_percent n) s))
  | None => true
  end.

(** One group: its effect, and whether the line goes on.  A group with a pipe
    goes to the pipeline code and a builtin to its own code, in the pipeline
    code too when it is redirected; [hop] is redirected by trying its files.
    Everything else is an external command, and only such a command, when it
    is not found, ends the line. *)
Definition run_group (ts : list Token) (s : S) : bool * S :=
  if named "hop" ts && redirected ts then
    let '(inputs, s1) := open_all (input_files ts) s in
    if negb inputs then (true, complain (str "cshell: no such file or directory") s1)
    else
      let '(outputs, s2) := touch_outputs ts s1 in
      if negb outputs then (true, complain (str "cshell: unable to create file for writing") s2)
      else (true, (if piped ts then run_pipeline ts s2 else run_hop ts s2).2)
  else
    match handler_of ts with
    | Some h => (true, (if redirected ts && negb (piped ts) then run_redirected_builtin ts s else h ts s).2)
    | None => (found ts s, (run_external ts s).2)
    end.

(** A script: its groups in order, those in the background by [runbuff],
    until a command is not found. *)
Fixpoint run_groups (gs : list (list Token * bool)) (s : S) : S :=
  match gs with
  | [] => s
  | (g, true) :: gs' => run_groups gs' (runbuff g s)
  | (g, false) :: gs' => let '(goes_on, s1) := run_group g s in if goes_on then run_groups gs' s1 else s1
  end.

Lemma hop_inputs_open_all ts : forall s : S, hop_inputs ts s = open_all (input_files ts) s.
Proof.
  induction ts as [|t [|t2 ts] IH]; intros s; [done | done|]. cbn [hop_inputs input_files].
  destruct (bool_decide (type t = TOKEN_OP_LT)); [|apply IH]. cbn [app open_all].
  destruct (open_input (text t2) s) as [[|] s1]; [apply IH | done].
Qed.

Lemma not_found_found ts (s : S) : not_found ts s = negb (found ts s).
Proof. unfold not_found, found. destruct (first_word ts) as [n|]; [|done]. by destruct (search _ _ s). Qed.
End Spec.

(** A group that is no redirected [hop]. *)
Lemma runcomm_other {S : Type} `{!Shell S} `{!ShellLaws S} (ts : list Token) (s : S) :
  named "hop" ts && redirected ts = false ->
  runcomm ts s =
    match handler_of ts with
    | Some h => (1, if redirected ts && negb (piped ts) then (run_redirected_builtin ts s).2 else (h ts s).2)
    | None => (if found ts s then 1 else -1, (run_external ts s).2)
    end.
Proof.
  intros Hhop. unfold runcomm. rewrite has_pipe_piped, has_redirect_redirected, builtin_named. change (bool_decide (first_word ts = Some (str "hop"))) with (named "hop" ts).
  rewrite Hhop. pose proof (try_handlers_spec ts s) as Ht. unfold handler_of in *.
  destruct (piped ts) eqn:Hp; cbn [andb orb negb].
  { rewrite !andb_false_r. destruct Ht as [-> Hr]. destruct (run_pipeline ts s) as [r s1]. simpl in Hr.
    by rewrite (proj2 (Z.eqb_neq r 0) Hr). }
  rewrite !andb_true_r.
  destruct (named "hop" ts) eqn:Hh; cbn [andb orb negb] in Hhop |- *.
  { rewrite Hhop. destruct Ht as [-> Hr]. destruct (run_hop ts s) as [r s1]. simpl in Hr.
    by rewrite (proj2 (Z.eqb_neq r 0) Hr). }
  rewrite !andb_true_r.
  destruct (named "locate" ts), (named "peek" ts), (named "reveal" ts), (named "activities" ts), (named "resume" ts),
    (named "ping" ts), (named "spy" ts), (named "snoop" ts); cbn [andb orb negb];
    try (destruct (redirected ts); [done|]; destruct Ht as [-> Hr];
         match goal with |- context [let '(_, _) := ?e in _] => destruct e as [r s1] end; simpl in Hr;
         by rewrite (proj2 (Z.eqb_neq r 0) Hr)).
  rewrite Ht. change (0 =? 0) with true. cbv iota. rewrite not_found_found. destruct (run_external ts s) as [r s1]. by destruct (found ts s).
Qed.

(** [runcomm] does what a group means, and answers -1 exactly when it is a
    command that is not found. *)
Lemma runcomm_group {S : Type} `{!Shell S} `{!ShellLaws S} (ts : list Token) (s : S) :
  runcomm ts s = (if (run_group ts s).1 then 1 else -1, (run_group ts s).2).
Proof.
  unfold run_group. destruct (named "hop" ts && redirected ts) eqn:Hh.
  - unfold runcomm. rewrite has_pipe_piped, has_redirect_redirected. change (bool_decide (first_word ts = Some (str "hop"))) with (named "hop" ts).
    apply andb_true_iff in Hh as [Hn Hr]. rewrite Hn, Hr, andb_false_r, hop_inputs_open_all. cbn [negb andb].
    destruct (open_all (input_files ts) s) as [[|] s1]; cbn [negb]; [|done].
    destruct (touch_outputs ts s1) as [[|] s2]; cbn [negb]; [|done].
    pose proof (try_handlers_spec ts s2) as Ht. unfold handler_of in Ht. rewrite Hn in Ht.
    destruct (piped ts); destruct Ht as [-> Hne];
      match goal with |- context [let '(_, _) := ?e in _] => destruct e as [r s3] end; simpl in Hne |- *;
      by rewrite (proj2 (Z.eqb_neq r 0) Hne).
  - rewrite runcomm_other by done. destruct (handler_of ts); [by destruct (redirected ts && negb (piped ts)) | done].
Qed.

Section Correct.
Context {S : Type} `{!Shell S} `{!ShellLaws S}.

Lemma run_tokens_inner g : Forall (fun t => ends_list t = false) g -> forall rest cur (s : S),
  run_tokens (g ++ rest) cur s = run_tokens rest (cur ++ g) s.
Proof.
  induction 1 as [|t g Ht _ IH]; intros rest cur s; simpl; [by rewrite app_nil_r|].
  rewrite Ht, IH. by rewrite <- app_assoc.
Qed.

Lemma run_tokens_script ts gs : script ts gs -> forall s : S, run_tokens ts [] s = run_groups gs s.
Proof.
  induction 1 as [g cs Hg|g cs a Hg Ha|g cs t rest gs Hg Ht Hr IH]; intros s; destruct (pipeseq_inner g cs Hg) as [Hi Hne].
  - rewrite <- (app_nil_r g) at 1. rewrite run_tokens_inner by done. simpl. destruct g as [|t g]; [done|].
    cbn [run_tokens run_groups]. rewrite runcomm_group. by destruct (run_group (t :: g) s) as [[|] s1].
  - rewrite run_tokens_inner by done. simpl. unfold ends_list. rewrite Ha. simpl. by destruct g.
  - rewrite run_tokens_inner by done. cbn [run_tokens]. rewrite (proj2 (ends_list_iff t) Ht). simpl. destruct g as [|t0 g]; [done|].
    destruct (bool_decide (type t = TOKEN_OP_AMP)); [apply IH|].
    rewrite runcomm_group. destruct (run_group _ s) as [[|] s1]; [apply IH | done].
Qed.
End Correct.

(** C28: a line is run as the script it spells.  When memory is available,
    [run] reports a syntax error exactly for the lines that do not lex or do
    not parse; a blank line does nothing; every other line is a sequence of
    well-formed pipelines, run in order, those marked with [&] in the
    background: each group goes to the part of the shell it belongs to (the
    pipeline code, the code of the builtin, an external command), and the
    line ends early exactly when a foreground external command is not found.
    The parts are an interface; each is assumed to answer 0 and do nothing
    exactly for the commands that are not its own, as their first lines do. *)
Theorem run_executes_script {S : Type} `{!Shell S} `{!ShellLaws S} (junk : ascii) (line : cstr) (s : S) :
  match ref_lex line with
  | None => run (fun _ => true) junk line s = Some (1, complain (str "cshell: invalid syntax") s)
  | Some [] => run (fun _ => true) junk line s = Some (1, s)
  | Some ts =>
      (~ sentence ts /\ run (fun _ => true) junk line s = Some (1, complain (str "cshell: invalid syntax") s)) \/
      (sentence ts /\ exists gs, script ts gs /\ run (fun _ => true) junk line s = Some (1, run_groups gs s))
  end.
Proof.
  destruct (lex_loop_sound (fun _ => true) junk (length line) line (ref_start [])
    (mkLexer 0 token_list_init word0 false)) as (status & st & Hl & _ & Ht & H); auto.
  { unfold sim, wf_word, wf_tokens; simpl. split_and!; try done. }
  unfold run, lex_line. rewrite Hl. change (result (ref_start []) line) with (ref_lex line) in H.
  destruct H as [(-> & E)|(-> & [E|(k & _ & Hk)])]; [| |done]; rewrite E; [|done].
  simpl. unfold parse_tokens, count. destruct (items (tokens st)) as [|t ts] eqn:Ei; [done|]. cbn [length].
  change (Nat.eqb (Datatypes.S (length ts)) 0) with false. cbv iota.
  destruct (Z.eqb_spec (parse_loop true (t :: ts)) 0) as [Hp|Hp]; cbn [negb].
  - right. assert (Hs : sentence (t :: ts)) by (by apply (parse_loop_sound _ (t :: ts) (le_n _))). split; [done|].
    destruct (sentence_script _ Hs) as [gs Hg]. exists gs. split; [done|]. by rewrite (run_tokens_script _ _ Hg).
  - left. split; [|done]. intros Hs. apply Hp. by apply parse_loop_sentence.
Qed.

(** A shell that records which part was called. *)
Definition Trace : Type := list string.
Definition own (mine : list Token -> bool) (n : string) (ts : list Token) (s : Trace) : Z * Trace :=
  if mine ts then (1, s ++ [n]) else (0, s).
#[export] Instance TraceShell : Shell Trace := {
  run_pipeline := own piped "pipeline";
  run_redirected_builtin := own (fun _ => true) "redirected";
  run_hop := own (named "hop") "hop";
  run_locate := own (named "locate") "locate";
  run_peek := own (named "peek") "peek";
  run_reveal := own (named "reveal") "reveal";
  runactivity := own (named "activities") "activities";
  run_resume := own (named "resume") "resume";
  run_ping := own (named "ping") "ping";
  run_spy := own (named "spy") "spy";
  run_snoop := own (named "snoop") "snoop";
  run_external := own (fun _ => true) "external";
  runbuff _ s := s ++ ["background"%string];
  open_input _ s := (true, s);
  touch_outputs _ s := (true, s);
  search n _ _ := if streq n (str "nosuch") then None else Some n;
  complain _ s := s ++ ["complain"%string]
}.

Lemma own_handles mine n : handles mine (own mine n).
Proof. intros ts s. unfold own. by destruct (mine ts). Defined.

#[export] Instance TraceLaws : ShellLaws Trace.
Proof. split; apply own_handles. Defined.

Definition script_line : cstr := str "peek f > o ; sleep 5 & nosuch ; ls".
Definition script_trace : Trace := ["redirected"; "background"; "external"]%string.

Lemma run_executes_script_witness :
  exists ts gs, ref_lex script_line = Some ts /\ script ts gs /\ run_groups gs ([] : Trace) = script_trace.
Proof.
  assert (E : run (fun _ => true) NUL script_line ([] : Trace) = Some (1, script_trace)) by (vm_compute; reflexivity).
  assert (Hn : match ref_lex script_line with Some (_ :: _) => true | _ => false end = true) by (vm_compute; reflexivity).
  pose proof (run_executes_script NUL script_line ([] : Trace)) as H.
  destruct (ref_lex script_line) as [[|t ts]|]; [discriminate Hn| |discriminate Hn].
  destruct H as [[_ H]|(_ & gs & Hg & H)]; [discriminate (eq_trans (eq_sym H) E)|].
  exists (t :: ts), gs. split; [reflexivity|]. split; [exact Hg|].
  exact (f_equal (fun o => match o with Some (_, x) => x | None => [] end) (eq_trans (eq_sym H) E)).
Defined.

(** [sleep 5 & nosuch ; ls]: the last command is never reached. *)
Example nosuch_stops :
  run (fun _ => true) NUL (str "sleep 5 & nosuch ; ls") ([] : Trace) =
  Some (1, ["background"; "external"]%string).
Proof. vm_compute. reflexivity. Qed.
