(* ===== verification/Children.v ===== *)
(** * The children of the shell (c-shell/src/c3c4.c, d1d2.c)

    What a child does after its descriptors are set up: the child of a
    pipeline stage, the child of a background command, and the process that
    copies the output of a stage to its files. *)
From S2P Require Import Prelude Lexer Parser Jobs Stages Plumbing Execute Dispatch.
Local Open Scope Z_scope.

Inductive child_action :=
  | RunsShell (ts : list Token)
  | Execs (calls : list (cstr * list cstr)) (name : cstr)
  | NotFound (name : cstr).

Section Children.
Context (executable_file : cstr -> bool) (path_value : option cstr) (enoexec : cstr -> bool).

(** The end of the child of a stage; [None] when it has no words, where the
    code would read a null pointer. *)
Definition stage_child (s : Stage) : option child_action :=
  name ← head (args s);
  Some (if is_builtin name then RunsShell (mkToken TOKEN_WORD <$> args s)
        else
          let n := strip_percent name in
          match find_executable executable_file path_value n (starts_percent name) with
          | None => NotFound n
          | Some p => Execs (exec_command (enoexec p) p (n :: tail (args s))) n
          end).

(** The child of [runbuff]: at most 63 words fit its array. *)
Definition background_child (ts : list Token) : child_action :=
  match ts with
  | t :: _ =>
      if simple_external ts && negb (is_builtin (text t)) then
        let n := strip_percent (text t) in
        match find_executable executable_file path_value n (starts_percent (text t)) with
        | None => NotFound n
        | Some p => Execs (exec_command (enoexec p) p (n :: tail (take 63 (text <$> ts)))) n
        end
      else RunsShell ts
  | [] => RunsShell ts
  end.

(** What the child of a command in the foreground executes. *)
Definition foreground_child (t : Token) (argv : list cstr) : child_action :=
  let n := strip_percent (text t) in
  match find_executable executable_file path_value n (starts_percent (text t)) with
  | None => NotFound n
  | Some p => Execs (exec_command (enoexec p) p (n :: tail argv)) n
  end.

Lemma simple_words ts : simple_external ts = true -> words_of ts = text <$> ts.
Proof.
  intros H. assert (Hall : forallb is_word ts = true) by (by destruct ts).
  clear H. induction ts as [|t ts IH]; [done|]. simpl in *. apply andb_true_iff in Hall as [-> H]. by rewrite IH.
Qed.

(** A background command is run like the same command in the foreground, as
    long as it has at most 63 words. *)
Theorem background_like_foreground (t : Token) (ts : list Token) :
  simple_external (t :: ts) = true -> is_builtin (text t) = false -> (length (t :: ts) <= 63)%nat ->
  background_child (t :: ts) = foreground_child t (words_of (t :: ts)).
Proof.
  intros Hs Hb Hl. unfold background_child, foreground_child. rewrite Hs, Hb, (simple_words _ Hs). cbn [andb negb].
  rewrite take_ge by (by rewrite length_fmap). done.
Qed.

(** And a stage of a pipeline like a command on its own. *)
Theorem stage_like_foreground (s : Stage) (t : Token) (c : list Token) :
  args s = words_of (t :: c) -> is_word t = true -> is_builtin (text t) = false ->
  stage_child s = Some (foreground_child t (words_of (t :: c))).
Proof.
  intros Ha Hw Hb. unfold stage_child, foreground_child. rewrite Ha. cbn [words_of]. rewrite Hw. cbn [head mbind option_bind].
  by rewrite Hb.
Qed.
End Children.

(** More words are dropped. *)
Definition long_command : list Token := word "echo" :: replicate 70 (word "x").
Example background_drops_words :
  match background_child (fun _ => true) None (fun _ => false) long_command,
        foreground_child (fun _ => true) None (fun _ => false) (word "echo") (words_of long_command) with
  | Execs [(_, bg)] _, Execs [(_, fg)] _ => (length bg, length fg)
  | _, _ => (0%nat, 0%nat)
  end = (63%nat, 71%nat).
Proof. vm_compute. reflexivity. Qed.

(** ** The copying process of a stage *)
Section Tee.
Context {O : Type}.

Fixpoint tee_close_stages (own j : nat) (ss : list Stage) (t : gmap Z O) : gmap Z O :=
  match ss with
  | [] => t
  | s :: ss' =>
      let t1 := fclose_if (input s) t in
      tee_close_stages own (S j) ss' (if (j =? own)%nat then t1 else fclose_if (output s) t1)
  end.

Definition tee_setup (pipes : list (Z * Z)) (ss : list Stage) (i : nat) (t : gmap Z O) : option (gmap Z O) :=
  s ← ss !! i;
  Some (tee_close_stages i 0 ss (fclose (tee s).2 (close_pipes pipes t))).

Lemma tee_close_stages_closed own ss : forall j t x, t !! x = None -> tee_close_stages own j ss t !! x = None.
Proof.
  induction ss as [|s ss IH]; intros j t x H; cbn [tee_close_stages]; [done|]. apply IH.
  destruct (j =? own)%nat; rewrite !fclose_if_lookup; repeat case_decide; done.
Qed.

(** The copying process holds no end of a pipe between the stages, nor the
    write end of its own pipe: it sees the end of its input. *)
Theorem tee_sees_end (pipes : list (Z * Z)) (ss : list Stage) (i : nat) (s : Stage) (t : gmap Z O) :
  ss !! i = Some s ->
  exists t', tee_setup pipes ss i t = Some t' /\ t' !! (tee s).2 = None /\
    forall p, p ∈ pipes -> t' !! p.1 = None /\ t' !! p.2 = None.
Proof.
  intros Hs. unfold tee_setup. rewrite Hs. eexists. split; [done|]. split.
  - apply tee_close_stages_closed. unfold fclose. apply lookup_delete_eq.
  - intros p Hp. assert (Hx : forall x, x ∈ [p.1; p.2] -> (tee_close_stages i 0 ss (fclose (tee s).2 (close_pipes pipes t))) !! x = None).
    { intros x Hx. apply tee_close_stages_closed. unfold fclose, close_pipes. rewrite lookup_delete_None. right.
      rewrite fclose_all_lookup, decide_True; [done|]. apply elem_of_concat. exists [p.1; p.2]. split; [done|].
      apply list_elem_of_fmap. eauto. }
    split; apply Hx; set_solver.
Qed.
End Tee.
