(* ===== verification/Background.v ===== *)
(** * Background commands (c-shell/src/d1d2.c: runbuff)

    The shell's side of [&]: the gate that holds the child back until the job
    is recorded, the child or the children of a pipeline, and the new entry
    of the job table. *)
From S2P Require Import Prelude Lexer Parser Jobs Resume Stages Plumbing Pipeline Execute Dispatch.
Local Open Scope Z_scope.

(** Where [runbuff] goes after the fork. *)
Inductive started (W : Type) :=
  | InChild
  | InParent (js : jobs) (acts : list pact) (st : W * list fdev).
Arguments InChild {W}.
Arguments InParent {W} js acts st.

Section Background.
Context {W : Type} `{!Files W} `{!Forks W}.

(** [pipe(bg_gate)]: both ends are -1 when it fails. *)
Definition open_gate (st : W * list fdev) : (Z * Z) * (W * list fdev) :=
  let '(g, w) := make_pipe st.1 in
  match g with
  | Some (a, b) => ((a, b), (w, st.2 ++ [Made a; Made b]))
  | None => ((-1, -1), (w, st.2))
  end.

Definition close_gate (gate : Z * Z) (st : W * list fdev) : W * list fdev :=
  close_if gate.2 (close_if gate.1 st).

(** [runbuff]; [None] when a pipeline would wait, which a background one
    does not. *)
Definition runbuff (sh : shell_state) (ts : list Token) (js : jobs) (st : W * list fdev) : option (started W) :=
  if (job_count js =? MAX_JOBS)%nat then
    Some (InParent js [Err (line "cshell: too many background jobs")] st)
  else
    let '(gate, st1) := open_gate st in
    '(child, acts, st2) ←
      (if has_pipe ts then
         '(r, _, acts, st') ← launch_background_pipeline sh [] ts js st1; Some (r, acts, st')
       else let '(c, w) := fork_child st1.1 in Some (c, [], (w, st1.2)));
    if child <? 0 then
      Some (InParent js (acts ++ if has_pipe ts then [] else [Err (str "cshell: fork failed")]) (close_gate gate st2))
    else if child =? 0 then Some InChild
    else
      '(n, js') ← add_background_job child ts js;
      Some (InParent js' (acts ++ [Setpgid child child;
                                   Out (str "[" ++ decimal n ++ str "] " ++ decimal child ++ [LF])])
                     (close_gate gate st2)).

Lemma no_list_end ts : Forall (fun t => ends_list t = false) ts -> find_index ends_list ts = None.
Proof. induction 1 as [|t ts Ht _ IH]; simpl; [done|]. by rewrite Ht, IH. Qed.

Lemma has_pipe_filter ts : has_pipe ts = true -> (0 < length (filter (fun t => type t = TOKEN_OP_PIPE) ts))%nat.
Proof.
  intros Hp. apply existsb_exists in Hp as (t & Hin & Ht). apply bool_decide_eq_true in Ht.
  destruct (filter _ ts) eqn:E; [|simpl; lia]. exfalso.
  apply (not_elem_of_nil t). rewrite <- E. apply list_elem_of_filter. split; [done|]. by apply list_elem_of_In.
Qed.

Lemma make_loop_nonzero n : forall tokens start limit acc (st : W * list fdev),
  (make_loop n tokens start limit acc st).1.1 <> 0.
Proof.
  induction n as [|n IH]; intros tokens start limit acc st; cbn [make_loop]; [done|].
  destruct (stage_args _ _ st) as [[r s] st1]. destruct (Z.eqb_spec r 0); [apply IH | done].
Qed.

Lemma make_stages_piped ts force (st : W * list fdev) :
  Forall (fun t => ends_list t = false) ts -> has_pipe ts = true -> (make_stages ts force st).1.1 <> 0.
Proof.
  intros Hi Hp. unfold make_stages. rewrite (no_list_end ts Hi). cbn [default]. rewrite take_ge by done.
  pose proof (has_pipe_filter ts Hp) as Hc. destruct (Nat.eqb_spec (S (length (filter (fun t => type t = TOKEN_OP_PIPE) ts))) 1); [lia|].
  cbn [andb]. destruct (allocate st.1) as [[|] w]; cbn [negb]; [apply make_loop_nonzero | done].
Qed.

(** [fork] in the parent does not return 0. *)
Definition forks_nonzero : Prop := forall w : W, (fork_child w).1 <> 0.

Lemma launch_leader group todo : forall children (st : W * list fdev),
  forks_nonzero -> Forall (fun c => 0 < c) children ->
  let '(_, cs, _, _) := launch group todo children st in Forall (fun c => 0 < c) cs.
Proof.
  induction todo as [|s todo IH]; intros children st Hf Hc; cbn [launch]; [done|].
  destruct (open_tee s st) as [s1 st1]. pose proof (Hf st1.1) as H1. destruct (fork_child st1.1) as [child w1].
  simpl in H1. destruct (Z.ltb_spec child 0); [done|].
  assert (Hc1 : Forall (fun c => 0 < c) (children ++ [child])) by (apply Forall_app; repeat constructor; [done | lia]).
  set (x := if 0 <=? (tee s1).1 then _ else _).
  assert (Hx : Forall (fun c => 0 < c) x.1.1).
  { unfold x. destruct (0 <=? (tee s1).1); [|done]. destruct (fork_child _) as [t w2].
    destruct (Z.ltb_spec 0 t); [|done]. apply Forall_app. repeat constructor; done. }
  destruct x as [[children2 a2] st3]. destruct (if 0 <=? (tee s1).2 then _ else _) as [s2 st4].
  specialize (IH children2 st4 Hf Hx). by destruct (launch group todo children2 st4) as [[[rest cs] acts] st5].
Qed.

(** The leader of a background pipeline is a process or -1, and a pipeline in
    the background does not wait. *)
Lemma background_leader sh ts js (st : W * list fdev) :
  forks_nonzero -> Forall (fun t => ends_list t = false) ts -> has_pipe ts = true ->
  exists r js' acts st', launch_background_pipeline sh [] ts js st = Some (r, js', acts, st') /\ (r = -1 \/ 0 < r).
Proof.
  intros Hf Hi Hp. unfold launch_background_pipeline, pipeline, finish_pipeline.
  pose proof (make_stages_piped ts false st Hi Hp) as Hne.
  destruct (make_stages ts false st) as [[r stages] st1]. simpl in Hne. rewrite (proj2 (Z.eqb_neq r 0) Hne).
  destruct (r <? 0); [eauto 10|]. destruct (allocate st1.1) as [ok1 w1]. destruct (allocate w1) as [ok2 w2].
  destruct (negb ok1 || negb ok2); [eauto 10|].
  destruct (open_pipes _ _ _) as [[ps|] st3]; [|eauto 10].
  pose proof (launch_leader (if negb true && backgroundchild sh then shellpgrp sh else 0) stages [] st3 Hf (Forall_nil_2 _)) as Hl.
  destruct (launch _ stages [] st3) as [[[ss children] acts] st4].
  do 4 eexists. split; [done|]. destruct children as [|c cs]; [by left|]. right. by apply Forall_cons in Hl as [? _].
Qed.

Lemma add_background_find child ts js n js' :
  jobs_ok js -> (job_count js < MAX_JOBS)%nat ->
  add_background_job child ts js = Some (n, js') ->
  n = Z.of_nat (S (job_count js)) /\ job_count js' = S (job_count js) /\ find_job n js' = Some (n - 1, child).
Proof.
  intros (Hlen & _ & _) Hlt. unfold add_background_job. destruct (head ts) as [t|]; [|done]. cbn [mbind option_bind].
  intros [= <- <-]. split; [done|]. split; [done|]. unfold find_job, in_range. simpl job_count.
  rewrite (proj2 (Z.ltb_ge _ _)), (proj2 (Z.leb_gt _ _)) by lia. cbn [orb negb].
  replace (Z.to_nat (Z.of_nat (S (job_count js)) - 1)) with (job_count js) by lia.
  unfold push_job. cbn [job_tab]. rewrite list_lookup_insert_eq by lia. done.
Qed.

(** Starting a background command.  For the groups the parser accepts, the
    shell never takes the branch of the child; it reports an error and
    leaves the job table alone, or it records exactly one new job, prints
    its number and its leader, and that number finds the job. *)
Theorem runbuff_starts_one_job (sh : shell_state) (g : list Token) (cs : list (list Token)) (js : jobs)
    (st : W * list fdev) :
  forks_nonzero -> pipeseq g cs -> jobs_ok js ->
  exists js' acts st', runbuff sh g js st = Some (InParent js' acts st') /\
    (js' = js \/
     exists child n, 0 < child /\ job_count js' = S (job_count js) /\ find_job n js' = Some (n - 1, child) /\
       last acts = Some (Out (str "[" ++ decimal n ++ str "] " ++ decimal child ++ [LF]))).
Proof.
  intros Hf Hg Hjs. destruct (pipeseq_inner g cs Hg) as [Hi Hne]. unfold runbuff.
  destruct (Nat.eqb_spec (job_count js) MAX_JOBS) as [|Hmax]; [eauto 10|].
  assert (Hlt : (job_count js < MAX_JOBS)%nat) by (destruct Hjs as (_ & Hle & _); lia).
  destruct (open_gate st) as [gate st1].
  assert (Hc : exists child acts st2,
    (if has_pipe g then '(r, _, acts, st') ← launch_background_pipeline sh [] g js st1; Some (r, acts, st')
     else let '(c, w) := fork_child st1.1 in Some (c, [], (w, st1.2))) = Some (child, acts, st2) /\ child <> 0).
  { destruct (has_pipe g) eqn:Hp.
    - destruct (background_leader sh g js st1 Hf Hi Hp) as (r & js1 & acts & st' & -> & Hr). simpl.
      do 3 eexists. split; [done | lia].
    - pose proof (Hf st1.1) as H0. destruct (fork_child st1.1) as [c w]. eauto 10. }
  destruct Hc as (child & acts & st2 & -> & Hc0). cbn [mbind option_bind].
  destruct (Z.ltb_spec child 0); [eauto 10|]. rewrite (proj2 (Z.eqb_neq child 0) Hc0).
  assert (Hadd : exists n js', add_background_job child g js = Some (n, js')).
  { destruct g as [|t g]; [done|]. unfold add_background_job. simpl. eauto. }
  destruct Hadd as (n & js' & Hadd). rewrite Hadd. cbn [mbind option_bind].
  destruct (add_background_find child g js n js' Hjs Hlt Hadd) as (-> & Hcount & Hfind).
  do 3 eexists. split; [done|]. right. eexists _, _. split; [|split; [exact Hcount|split; [exact Hfind|]]]; [lia|].
  by rewrite last_app.
Qed.
End Background.

(** [make | tee log &] *)
Definition make_tee : list Token := [word "make"; oper TOKEN_OP_PIPE; word "tee"; word "log"].

Lemma runbuff_starts_one_job_witness :
  exists js' acts st', runbuff (mkShell false 50) make_tee jobs0 ((3%nat : DemoFiles), []) = Some (InParent js' acts st') /\
    (js' = jobs0 \/
     exists child n, 0 < child /\ job_count js' = S (job_count jobs0) /\ find_job n js' = Some (n - 1, child) /\
       last acts = Some (Out (str "[" ++ decimal n ++ str "] " ++ decimal child ++ [LF]))).
Proof.
  apply (runbuff_starts_one_job (mkShell false 50) make_tee [[word "make"]; [word "tee"; word "log"]] jobs0
           ((3%nat : DemoFiles), [])).
  - intros w. unfold fork_child, DemoForks, fst. lia.
  - apply (pipe_more [word "make"] (oper TOKEN_OP_PIPE) [word "tee"; word "log"] [[word "tee"; word "log"]]).
    + apply command_name. reflexivity.
    + reflexivity.
    + apply pipe_one. apply (command_arg [word "tee"] (word "log")); [apply command_name; reflexivity | reflexivity].
  - apply jobs0_ok.
Defined.

Example make_tee_line :
  match runbuff (mkShell false 50) make_tee jobs0 ((3%nat : DemoFiles), []) with
  | Some (InParent js' acts _) => (job_count js', last acts)
  | _ => (0%nat, None)
  end = (1%nat, Some (Out (str "[1] 107" ++ [LF]))).
Proof. vm_compute. reflexivity. Qed.
