(* ===== verification/Peek.v ===== *)
(** * The peek builtin (c-shell/src/func.c)

    Printing files forward or by lines in reverse, with or without numbers.
    A file is the sequence of chunks [read] delivers; the growth of the line
    buffers is not modelled (allocation succeeds). *)
From S2P Require Import Prelude Lexer Parser Jobs Resume Stages Dispatch.
Local Open Scope c_scope.
Local Open Scope Z_scope.

Definition PEEK_CHUNK : nat := 4096.

Record PeekLine := mkLine { ldata : cstr; newline : bool }.

(** [print_line]: what is written. *)
Definition print_line (l : PeekLine) (numbered : bool) (number : Z) (backwards : bool) : cstr :=
  let d := if backwards then rev (ldata l) else ldata l in
  (if numbered && (0 <? length d)%nat then decimal number ++ str " " else []) ++ d ++
  (if newline l then [LF] else []).

(** ** Forward *)

(** One character of [print_forward]: line so far, line number, output. *)
Definition forward_char (numbered : bool) (st : cstr * Z * cstr) (c : ascii) : cstr * Z * cstr :=
  let '(l, n, out) := st in
  if c =c LF then
    let n' := if numbered && (0 <? length l)%nat then n + 1 else n in
    ([], n', out ++ print_line (mkLine l true) numbered n' false)
  else (l ++ [c], n, out).

Definition print_forward (chunks : list cstr) (numbered : bool) (line_number : Z) : Z * cstr :=
  let '(l, n, out) := foldl (foldl (forward_char numbered)) ([], line_number, []) chunks in
  if (0 <? length l)%nat then
    let n' := if numbered then n + 1 else n in
    (n', out ++ print_line (mkLine l false) numbered n' false)
  else (n, out).

(** ** Backward, for a regular file *)
Definition count_char (st : nat * Z) (c : ascii) : nat * Z :=
  let '(len, count) := st in
  if c =c LF then (0%nat, if (0 <? len)%nat then count + 1 else count) else (S len, count).

Definition count_nonempty (chunks : list cstr) : Z :=
  let '(len, count) := foldl (foldl count_char) (0%nat, 0) chunks in
  if (0 <? len)%nat then count + 1 else count.

(** The blocks of a regular file, last first: the block before [position]
    starts at [position-PEEK_CHUNK] or at 0, and is read whole. *)
Fixpoint blocks (fuel : nat) (content : cstr) (position : nat) : list cstr :=
  match fuel with
  | O => []
  | S fuel' =>
      if (0 <? position)%nat then
        let start := if (PEEK_CHUNK <? position)%nat then (position - PEEK_CHUNK)%nat else 0%nat in
        take (position - start) (drop start content) :: blocks fuel' content start
      else []
  end.

Record backst := mkBack { bline : PeekLine; bnumber : Z; first_newline : bool; bout : cstr }.

Definition back_char (numbered : bool) (st : backst) (c : ascii) : backst :=
  let l := bline st in
  if c =c LF then
    if first_newline st && (length (ldata l) =? 0)%nat then
      mkBack (mkLine (ldata l) true) (bnumber st) false (bout st)
    else
      let l' := mkLine (ldata l) true in
      if numbered && (0 <? length (ldata l))%nat then
        mkBack (mkLine [] true) (bnumber st - 1) false (bout st ++ print_line l' true (bnumber st) true)
      else mkBack (mkLine [] true) (bnumber st) false (bout st ++ print_line l' false 0 true)
  else mkBack (mkLine (ldata l ++ [c]) (newline l)) (bnumber st) (first_newline st) (bout st).

(** The inner loop of [print_reverse_regular] runs over a block backwards. *)
Definition back_block (numbered : bool) (st : backst) (b : cstr) : backst := foldl (back_char numbered) st (rev b).

Definition print_reverse_regular (content : cstr) (chunks : list cstr) (numbered : bool) (line_number : Z) : Z * cstr :=
  let remaining := count_nonempty chunks in
  let st := foldl (back_block numbered) (mkBack (mkLine [] false) (line_number + remaining) true [])
              (blocks (S (length content)) content (length content)) in
  let out := if (0 <? length (ldata (bline st)))%nat then
               if numbered then bout st ++ print_line (bline st) true (bnumber st) true
               else bout st ++ print_line (bline st) false 0 true
             else bout st in
  (line_number + remaining, out).

(** ** Backward, for anything else *)
Definition lines_char (st : cstr * list PeekLine) (c : ascii) : cstr * list PeekLine :=
  if c =c LF then ([], st.2 ++ [mkLine st.1 true]) else (st.1 ++ [c], st.2).

Definition read_all_lines (chunks : list cstr) : list PeekLine :=
  let '(l, ls) := foldl (foldl lines_char) ([], []) chunks in
  if (0 <? length l)%nat then ls ++ [mkLine l false] else ls.

Fixpoint reverse_loop (ls : list PeekLine) (numbered : bool) (number : Z) (out : cstr) : cstr :=
  match ls with
  | [] => out
  | l :: ls' =>
      if numbered && (0 <? length (ldata l))%nat
      then reverse_loop ls' numbered (number - 1) (out ++ print_line l true number false)
      else reverse_loop ls' numbered number (out ++ print_line l false 0 false)
  end.

Definition nonempty (ls : list PeekLine) : Z :=
  Z.of_nat (length (List.filter (fun l => (0 <? length (ldata l))%nat) ls)).

Definition print_reverse_lines (ls : list PeekLine) (numbered : bool) (line_number : Z) : Z * cstr :=
  let remaining := nonempty ls in
  (line_number + remaining, reverse_loop (rev ls) numbered (line_number + remaining) []).

(** ** The command *)

(** What a name refers to: cannot be opened, cannot be examined, a directory,
    a regular file with its contents and the chunks [read] cuts it into, or
    a pipe or terminal.  For ["-"] it is the standard input. *)
Inductive peekable :=
  | Missing | Unknown | Directory | Regular (content : cstr) (chunks : list cstr) | Stream (chunks : list cstr).

Section Peek.
Context (files : cstr -> peekable).

Definition no_such_file : action := Complain (line "peek: no such file or directory").

Definition peek_one (name : cstr) (numbered backwards : bool) (n : Z) : Z * list action :=
  match files name with
  | Missing | Unknown => (n, [no_such_file])
  | Directory => (n, [Complain (line "peek: is a directory")])
  | Regular content chunks =>
      let '(n', out) := if backwards then print_reverse_regular content chunks numbered n
                        else print_forward chunks numbered n in (n', [Print out])
  | Stream chunks =>
      let '(n', out) := if backwards then print_reverse_lines (read_all_lines chunks) numbered n
                        else print_forward chunks numbered n in (n', [Print out])
  end.

Fixpoint peek_files (names : list cstr) (numbered backwards : bool) (n : Z) : list action :=
  match names with
  | [] => []
  | name :: names' =>
      let '(n', acts) := peek_one name numbered backwards n in acts ++ peek_files names' numbered backwards n'
  end.

(** The letters of one option word; [None] for an unknown one. *)
Fixpoint peek_flags (s : cstr) (numbered backwards : bool) : option (bool * bool) :=
  match s with
  | [] => Some (numbered, backwards)
  | c :: s' =>
      if c =c "n" then peek_flags s' true backwards
      else if c =c "r" then peek_flags s' numbered true
      else None
  end.

Definition is_option (t : Token) : bool :=
  is_word t && match text t with c :: _ :: _ => c =c "-" | _ => false end.

(** The option words in front; [None] after a bad option. *)
Fixpoint peek_options (ts : list Token) (numbered backwards : bool) : option (bool * bool * list Token) :=
  match ts with
  | t :: ts' =>
      if is_option t then
        match peek_flags (tail (text t)) numbered backwards with
        | Some (nb, bw) => peek_options ts' nb bw
        | None => None
        end
      else Some (numbered, backwards, ts)
  | [] => Some (numbered, backwards, [])
  end.

Definition peek_syntax : list action := [Complain (line "peek: invalid syntax")].

Definition run_peek (ts : list Token) : Z * list action :=
  if bool_decide (first_word ts = Some (str "peek")) then
    match peek_options (tail ts) false false with
    | None => (1, peek_syntax)
    | Some (numbered, backwards, rest) =>
        if negb (forallb is_word rest) then (1, peek_syntax)
        else match rest with
             | [] => (1, (peek_one (str "-") numbered backwards 0).2)
             | _ => (1, peek_files (text <$> rest) numbered backwards 0)
             end
    end
  else (0, []).
End Peek.

(** ** Lines *)

(** A text made of complete lines. *)
Definition join (ls : list cstr) : cstr := concat ((fun l => l ++ [LF]) <$> ls).
Definition no_lf (l : cstr) : Prop := LF ∉ l.

Definition filled (ls : list cstr) : Z := Z.of_nat (length (List.filter (fun l => (0 <? length l)%nat) ls)).

(** The lines as they are shown: non-empty lines are counted from [n+1]. *)
Fixpoint show_lines (numbered : bool) (n : Z) (ls : list cstr) : list cstr :=
  match ls with
  | [] => []
  | l :: ls' =>
      let n' := if (0 <? length l)%nat then n + 1 else n in
      print_line (mkLine l true) numbered n' false :: show_lines numbered n' ls'
  end.

Lemma filled_cons l ls : filled (l :: ls) = (if (0 <? length l)%nat then 1 else 0) + filled ls.
Proof. unfold filled. cbn [List.filter]. destruct (0 <? length l)%nat; cbn [length]; lia. Qed.

Lemma filled_app a b : filled (a ++ b) = filled a + filled b.
Proof. unfold filled. rewrite List.filter_app, length_app. lia. Qed.

Lemma show_lines_app numbered a : forall n b,
  show_lines numbered n (a ++ b) = show_lines numbered n a ++ show_lines numbered (n + filled a) b.
Proof.
  induction a as [|l a IH]; intros n b; cbn [show_lines app]; [by rewrite Z.add_0_r|].
  rewrite IH, filled_cons. cbn [app]. do 3 f_equal. destruct (0 <? length l)%nat; lia.
Qed.

Lemma foldl_concat {A B} (f : B -> A -> B) (ls : list (list A)) : forall b, foldl (foldl f) b ls = foldl f b (concat ls).
Proof. induction ls as [|l ls IH]; intros b; simpl; [done|]. by rewrite IH, foldl_app. Qed.

Lemma not_lf c l : no_lf (c :: l) -> (c =c LF) = false /\ no_lf l.
Proof.
  unfold no_lf. rewrite not_elem_of_cons. intros [H1 H2]. split; [|done]. unfold ceq.
  destruct (Ascii.eqb_spec c LF); congruence.
Qed.

Lemma forward_word numbered w : no_lf w -> forall l n out,
  foldl (forward_char numbered) (l, n, out) w = (l ++ w, n, out).
Proof.
  induction w as [|c w IH]; intros Hw l n out; cbn [foldl]; [by rewrite app_nil_r|].
  destruct (not_lf c w Hw) as [Hc Hn]. unfold forward_char at 2. rewrite Hc, IH by done. by rewrite <- app_assoc.
Qed.

Lemma print_unnumbered l n m b : print_line l false n b = print_line l false m b.
Proof. done. Qed.

Lemma show_unnumbered ls : forall n m, show_lines false n ls = show_lines false m ls.
Proof. induction ls as [|x ls IH]; intros n m; simpl; [done|]. f_equal. apply IH. Qed.

Lemma forward_lines numbered ls : Forall no_lf ls -> forall n out last,
  no_lf last ->
  foldl (forward_char numbered) ([], n, out) (join ls ++ last) =
  (last, if numbered then n + filled ls else n, out ++ concat (show_lines numbered n ls)).
Proof.
  induction 1 as [|l ls Hl _ IH]; intros n out last Hlast.
  - simpl. rewrite forward_word by done. simpl. rewrite app_nil_r, Z.add_0_r. by destruct numbered.
  - unfold join. simpl. rewrite <- !app_assoc, foldl_app, forward_word by done. simpl.
    change (concat _ ++ last) with (join ls ++ last). rewrite IH by done. rewrite filled_cons.
    f_equal; [f_equal|].
    + destruct numbered; simpl; [|done]. destruct (0 <? length l)%nat; lia.
    + rewrite <- app_assoc. f_equal. destruct numbered; cbn [andb]; [done|].
      by rewrite (show_unnumbered ls _ (if (0 <? length l)%nat then n + 1 else n)).
Qed.

Lemma count_word w : no_lf w -> forall len k, foldl count_char (len, k) w = ((len + length w)%nat, k).
Proof.
  induction w as [|c w IH]; intros Hw len k; cbn [foldl length]; [by rewrite Nat.add_0_r|].
  destruct (not_lf c w Hw) as [Hc Hn]. unfold count_char at 2. rewrite Hc, IH by done. f_equal. lia.
Qed.

Lemma count_lines ls : Forall no_lf ls -> forall k, foldl count_char (0%nat, k) (join ls) = (0%nat, k + filled ls).
Proof.
  induction 1 as [|l ls Hl _ IH]; intros k; [simpl; by rewrite Z.add_0_r|].
  unfold join. simpl. rewrite <- app_assoc, foldl_app, count_word by done. simpl.
  change (concat _) with (join ls). rewrite IH, filled_cons. f_equal. destruct (0 <? length l)%nat; lia.
Qed.

Lemma lines_word w : no_lf w -> forall l ls, foldl lines_char (l, ls) w = (l ++ w, ls).
Proof.
  induction w as [|c w IH]; intros Hw l ls; cbn [foldl]; [by rewrite app_nil_r|].
  destruct (not_lf c w Hw) as [Hc Hn]. unfold lines_char at 2. rewrite Hc, IH by done. simpl. by rewrite <- app_assoc.
Qed.

Definition whole (l : cstr) : PeekLine := mkLine l true.

Lemma read_lines ls : Forall no_lf ls -> forall acc,
  foldl lines_char ([], acc) (join ls) = ([], acc ++ (whole <$> ls)).
Proof.
  induction 1 as [|l ls Hl _ IH]; intros acc; [simpl; by rewrite app_nil_r|].
  unfold join. simpl. rewrite <- app_assoc, foldl_app, lines_word by done. simpl.
  change (concat _) with (join ls). unfold lines_char at 2. cbn [fst snd]. change (LF =c LF) with true. cbv iota.
  rewrite IH. by rewrite <- app_assoc.
Qed.

(** ** Blocks read from the end *)
Lemma blocks_rev fuel : forall content position,
  (position < fuel)%nat -> (position <= length content)%nat ->
  concat (@rev ascii <$> blocks fuel content position) = rev (take position content).
Proof.
  induction fuel as [|fuel IH]; intros content position Hf Hp; [lia|]. cbn [blocks].
  destruct (Nat.ltb_spec 0 position); [|by replace position with 0%nat by lia].
  set (start := if (PEEK_CHUNK <? position)%nat then (position - PEEK_CHUNK)%nat else 0%nat).
  assert (Hs : (start < position)%nat) by (unfold start, PEEK_CHUNK; destruct (Nat.ltb_spec 4096 position); lia).
  rewrite fmap_cons. cbn [concat]. rewrite IH by lia. rewrite <- rev_app_distr. f_equal.
  rewrite take_take_drop. f_equal. lia.
Qed.

Lemma back_blocks numbered bs : forall st,
  foldl (back_block numbered) st bs = foldl (back_char numbered) st (concat (@rev ascii <$> bs)).
Proof.
  induction bs as [|b bs IH]; intros st; simpl; [done|]. rewrite IH, foldl_app. done.
Qed.

(** ** Backward *)
Definition add_back (w : cstr) (st : backst) : backst :=
  mkBack (mkLine (ldata (bline st) ++ w) (newline (bline st))) (bnumber st) (first_newline st) (bout st).

Lemma back_word numbered w : no_lf w -> forall st, foldl (back_char numbered) st w = add_back w st.
Proof.
  induction w as [|c w IH]; intros Hw st; cbn [foldl].
  - destruct st as [[d nl] n f o]. unfold add_back. simpl. by rewrite app_nil_r.
  - destruct (not_lf c w Hw) as [Hc Hn]. unfold back_char at 2. rewrite Hc, IH by done. unfold add_back. simpl.
    by rewrite <- app_assoc.
Qed.

Lemma no_lf_rev l : no_lf l -> no_lf (rev l).
Proof. unfold no_lf. rewrite !list_elem_of_In, <- in_rev. done. Qed.

(** A text of complete lines, read backwards. *)
Fixpoint back_text (rs : list cstr) : cstr :=
  match rs with
  | [] => []
  | [l] => rev l
  | l :: rs' => rev l ++ LF :: back_text rs'
  end.

Lemma join_app a b : join (a ++ b) = join a ++ join b.
Proof. unfold join. by rewrite fmap_app, concat_app. Qed.

Lemma rev_join ls : ls <> [] -> rev (join ls) = LF :: back_text (rev ls).
Proof.
  induction ls as [|l ls IH] using rev_ind; [done|]. intros _. rewrite join_app, !rev_app_distr. simpl.
  unfold join at 1. simpl. rewrite app_nil_r, rev_app_distr. simpl. f_equal.
  destruct ls as [|x ls]; [simpl; by rewrite app_nil_r|]. rewrite IH by done.
  destruct (rev (x :: ls)) eqn:E; [|done]. apply (f_equal (@length cstr)) in E.
  rewrite length_rev in E. done.
Qed.

(** The end of [print_reverse_regular]. *)
Definition back_finish (numbered : bool) (st : backst) : cstr :=
  if (0 <? length (ldata (bline st)))%nat then
    if numbered then bout st ++ print_line (bline st) true (bnumber st) true
    else bout st ++ print_line (bline st) false 0 true
  else bout st.

Lemma print_rev l n numbered :
  print_line (mkLine (rev l) true) numbered n true = print_line (whole l) numbered n false.
Proof. unfold print_line, whole. simpl. by rewrite rev_involutive. Qed.

Lemma length_pos_rev (l : cstr) : (0 <? length (rev l))%nat = (0 <? length l)%nat.
Proof. by rewrite length_rev. Qed.

Lemma back_lines numbered rs : Forall no_lf rs -> last rs <> Some [] -> forall n out,
  back_finish numbered (foldl (back_char numbered) (mkBack (mkLine [] true) n false out) (back_text rs)) =
  reverse_loop (whole <$> rs) numbered n out.
Proof.
  induction 1 as [|l rs Hl _ IH]; intros Hlast n out; [done|].
  assert (Hr : no_lf (rev l)) by (by apply no_lf_rev).
  destruct rs as [|l2 rs].
  - cbn [back_text]. rewrite (back_word numbered (rev l) Hr). unfold back_finish, add_back. cbn [bline ldata newline bnumber bout app].
    cbn [fmap list_fmap reverse_loop whole ldata]. rewrite length_pos_rev. simpl in Hlast.
    destruct l as [|c l]; [done|]. simpl (0 <? length (c :: l))%nat. cbv iota.
    destruct numbered; cbn [andb]; by rewrite print_rev.
  - change (back_text (l :: l2 :: rs)) with (rev l ++ LF :: back_text (l2 :: rs)).
    rewrite foldl_app, (back_word numbered (rev l) Hr). cbn [foldl]. unfold add_back. cbn [bline ldata newline bnumber first_newline bout app].
    unfold back_char at 2. change (LF =c LF) with true. cbv iota. cbn [first_newline andb bline ldata bnumber bout].
    rewrite length_pos_rev. change (whole <$> l :: l2 :: rs) with (whole l :: (whole <$> l2 :: rs)).
    cbn [reverse_loop]. change (ldata (whole l)) with l.
    destruct (numbered && (0 <? length l)%nat); rewrite print_rev; apply IH; done.
Qed.

Lemma reverse_unnumbered ls : forall n m out, reverse_loop ls false n out = reverse_loop ls false m out.
Proof. induction ls as [|l ls IH]; intros n m out; simpl; [done|]. apply IH. Qed.

Lemma print_empty l numbered n :
  (0 <? length l)%nat = false -> print_line (mkLine l true) numbered n false = l ++ [LF].
Proof. intros E. unfold print_line. cbn [ldata newline]. rewrite E. by rewrite andb_false_r. Qed.

Lemma reverse_show numbered ls : forall n out,
  reverse_loop (whole <$> rev ls) numbered (n + filled ls) out = out ++ concat (rev (show_lines numbered n ls)).
Proof.
  induction ls as [|l ls IH] using rev_ind; intros n out; [simpl; by rewrite app_nil_r|].
  rewrite rev_app_distr. cbn [rev app]. change (whole <$> l :: rev ls) with (whole l :: (whole <$> rev ls)).
  cbn [reverse_loop]. change (ldata (whole l)) with l. rewrite filled_app, filled_cons, show_lines_app, rev_app_distr.
  cbn [show_lines rev app concat]. change (filled []) with 0.
  destruct (0 <? length l)%nat eqn:El.
  - destruct numbered; cbn [andb].
    + replace (n + (filled ls + (1 + 0)) - 1) with (n + filled ls) by lia. rewrite IH, <- app_assoc.
      by replace (n + (filled ls + (1 + 0))) with (n + filled ls + 1) by lia.
    + rewrite (reverse_unnumbered _ _ (n + filled ls)), IH, <- app_assoc. done.
  - rewrite andb_false_r. replace (n + (filled ls + (0 + 0))) with (n + filled ls) by lia.
    rewrite IH, <- app_assoc. unfold whole. by rewrite !(print_empty l _ _ El).
Qed.

(** Forward printing.  However [read] cuts the file into chunks,
    [print_forward] prints its lines in order, each non-empty line after its
    number when numbers are asked for, and otherwise the bytes of the file
    unchanged; the numbers continue from one file to the next. *)
Theorem print_forward_spec (chunks : list cstr) (ls : list cstr) (final : cstr) (n : Z) :
  concat chunks = join ls ++ final -> Forall no_lf ls -> no_lf final ->
  let m := n + filled ls in
  print_forward chunks true n =
    (m + filled [final],
     concat (show_lines true n ls) ++
       match final with [] => [] | _ => decimal (m + 1) ++ str " " ++ final end) /\
  print_forward chunks false n = (n, concat chunks).
Proof.
  intros Hc Hls Hf m. unfold print_forward. rewrite !foldl_concat, Hc, !forward_lines by done. cbn [app].
  rewrite filled_cons. change (filled []) with 0. fold m.
  assert (Hshow : forall k, concat (show_lines false k ls) = join ls).
  { clear. induction ls as [|l ls IH]; intros k; [done|]. cbn [show_lines concat]. rewrite IH.
    unfold join. simpl. done. }
  rewrite Hshow. destruct final as [|c final]; cbn [length].
  - change (0 <? 0)%nat with false. cbv iota. rewrite !app_nil_r. split; [f_equal; lia | done].
  - change (0 <? S (length final))%nat with true. cbv iota. split; [f_equal | unfold print_line; simpl; by rewrite app_nil_r].
    unfold print_line. cbn [ldata newline]. simpl. by rewrite app_nil_r, <- app_assoc.
Qed.

(** Reverse printing.  For a text whose lines all end with a newline and
    whose first line is not empty, [peek -r] shows exactly the lines of the
    forward listing, with the same numbers, in the opposite order; a regular
    file, read block by block from its end, gives the same as a pipe, read
    whole. *)
Theorem print_reverse_spec (chunks : list cstr) (ls : list cstr) (numbered : bool) (n : Z) :
  concat chunks = join ls -> Forall no_lf ls -> head ls <> Some [] ->
  let listing := concat (rev (show_lines numbered n ls)) in
  print_reverse_regular (join ls) chunks numbered n = (n + filled ls, listing) /\
  print_reverse_lines (read_all_lines chunks) numbered n = (n + filled ls, listing).
Proof.
  intros Hc Hls Hhead listing. split.
  - unfold print_reverse_regular, count_nonempty. rewrite foldl_concat, Hc, count_lines by done.
    change (0 <? 0)%nat with false. cbv iota. rewrite Z.add_0_l. f_equal.
    rewrite back_blocks, blocks_rev by lia. rewrite take_ge by done.
    destruct (decide (ls = [])) as [->|Hne]; [done|]. rewrite (rev_join ls Hne). cbn [foldl].
    unfold back_char at 2. change (LF =c LF) with true. cbv iota. cbn [first_newline andb bline ldata bnumber bout length].
    change (0 =? 0)%nat with true. cbv iota.
    pose proof (back_lines numbered (rev ls)) as Hb. unfold back_finish in Hb. rewrite Hb; clear Hb.
    + unfold listing. by rewrite reverse_show.
    + apply Forall_forall. intros l Hl. rewrite Forall_forall in Hls. apply Hls.
      by rewrite list_elem_of_In, in_rev, <- list_elem_of_In.
    + destruct ls as [|l ls]; [done|]. simpl. rewrite last_app. simpl. done.
  - unfold read_all_lines. rewrite foldl_concat, Hc, read_lines by done.
    change (0 <? length (@nil ascii))%nat with false. cbv iota. cbn [app]. unfold print_reverse_lines.
    assert (Hn : nonempty (whole <$> ls) = filled ls).
    { unfold nonempty, filled. clear. f_equal. induction ls as [|l ls IH]; [done|]. simpl.
      destruct (0 <? length l)%nat; [simpl; f_equal|]; exact IH. }
    rewrite Hn. f_equal. unfold listing.
    pose proof (reverse_show numbered ls n []) as Hr. cbn [app] in Hr. rewrite <- Hr. f_equal. symmetry. apply map_rev.
Qed.

Definition poem : list cstr := [str "roses"; []; str "violets"].
Definition poem_chunks : list cstr := [str "ros"; str "es" ++ [LF; LF] ++ str "vio"; str "lets" ++ [LF]].

Lemma print_forward_spec_witness :
  let m := 4 + filled poem in
  print_forward (poem_chunks ++ [str "end"]) true 4 =
    (m + filled [str "end"], concat (show_lines true 4 poem) ++ decimal (m + 1) ++ str " " ++ str "end") /\
  print_forward (poem_chunks ++ [str "end"]) false 4 = (4, concat (poem_chunks ++ [str "end"])).
Proof.
  apply (print_forward_spec (poem_chunks ++ [str "end"]) poem (str "end") 4); [reflexivity | |].
  - repeat constructor; intros H; apply list_elem_of_In in H; vm_compute in H; intuition discriminate.
  - intros H; apply list_elem_of_In in H; vm_compute in H; intuition discriminate.
Defined.

Lemma print_reverse_spec_witness :
  let listing := concat (rev (show_lines true 4 poem)) in
  print_reverse_regular (join poem) poem_chunks true 4 = (4 + filled poem, listing) /\
  print_reverse_lines (read_all_lines poem_chunks) true 4 = (4 + filled poem, listing).
Proof.
  apply (print_reverse_spec poem_chunks poem true 4); [reflexivity | | discriminate].
  repeat constructor; intros H; apply list_elem_of_In in H; vm_compute in H; intuition discriminate.
Defined.

Example poem_listing :
  concat (rev (show_lines true 4 poem)) = str "6 violets" ++ [LF; LF] ++ str "5 roses" ++ [LF].
Proof. vm_compute. reflexivity. Qed.

(** A first line that is empty is lost when the file is regular. *)
Example leading_blank_lost :
  let text := LF :: str "a" ++ [LF] in
  print_reverse_regular text [text] false 0 = (0 + 1, str "a" ++ [LF]) /\
  print_reverse_lines (read_all_lines [text]) false 0 = (0 + 1, str "a" ++ [LF; LF]).
Proof. vm_compute. done. Qed.

(** A last line without newline is glued to its predecessor when the input is
    a pipe, and gets a newline when it is a regular file. *)
Example missing_newline :
  let text := str "a" ++ [LF] ++ str "b" in
  print_reverse_regular text [text] false 0 = (0 + 2, str "b" ++ [LF] ++ str "a" ++ [LF]) /\
  print_reverse_lines (read_all_lines [text]) false 0 = (0 + 2, str "ba" ++ [LF]).
Proof. vm_compute. done. Qed.
