(* ===== verification/Hop.v ===== *)
(** * Changing directory and its history (c-shell/src/func.c: hop, locate)

    The file of visited directories, its parser and printer, the choice of the
    most visited match, and the [hop] and [locate] builtins.  The file system
    is a parameter; allocation succeeds. *)
From S2P Require Import Prelude Lexer Parser Jobs Resume Stages Execute Dispatch.
Local Open Scope c_scope.
Local Open Scope Z_scope.

(** ** Library functions on numbers *)
Definition LLONG_MAX : Z := 2 ^ 63 - 1.
Definition LLONG_MIN : Z := - 2 ^ 63.

(** Decimal digits of a value below 10^[fuel+1]. *)
Fixpoint dec_digits (fuel : nat) (n : Z) : cstr :=
  match fuel with
  | O => [digit n]
  | S fuel' => if n <? 10 then [digit n] else dec_digits fuel' (n / 10) ++ [digit (n mod 10)]
  end.

(** [printf] of [%lld]; 19 digits are enough for 64 bits. *)
Definition printf_lld (n : Z) : cstr := if n <? 0 then str "-" ++ dec_digits 19 (- n) else dec_digits 19 n.

Definition isspace (c : ascii) : bool := (c =c " ") || ((9 <=? code c) && (code c <=? 13)).

Fixpoint skip_space (s : cstr) : cstr :=
  match s with c :: s' => if isspace c then skip_space s' else s | [] => [] end.

(** [strtoll] in base 10, with its saturation. *)
Definition strtoll (s : cstr) : Z :=
  let t := skip_space s in
  let '(neg, u) := match t with
                   | c :: t' => if c =c "-" then (true, t') else if c =c "+" then (false, t') else (false, t)
                   | [] => (false, t)
                   end in
  let v := dec_value (span_digits u).1 in
  if neg then Z.max LLONG_MIN (- v) else Z.min LLONG_MAX v.

(** ** The history file *)
Record Visit := mkVisit { vpath : cstr; vcount : Z; vlast : Z }.

(** [strchr]: what is before the first [c], and what is after it. *)
Fixpoint strchr (c : ascii) (s : cstr) : option (cstr * cstr) :=
  match s with
  | [] => None
  | x :: s' => if x =c c then Some ([], s')
               else match strchr c s' with Some (a, b) => Some (x :: a, b) | None => None end
  end.

(** The lines [getline] returns, newline included. *)
Fixpoint getlines (cur : cstr) (s : cstr) : list cstr :=
  match s with
  | [] => match cur with [] => [] | _ => [cur] end
  | c :: s' => if c =c LF then (cur ++ [c]) :: getlines [] s' else getlines (cur ++ [c]) s'
  end.

(** The body of the loop of [load_visits]. *)
Definition parse_visit (l : cstr) : option Visit :=
  '(count, rest) ← strchr TAB l;
  '(last, rest2) ← strchr TAB rest;
  let path := match strchr LF rest2 with Some (p, _) => p | None => rest2 end in
  Some (mkVisit path (strtoll count) (strtoll last)).

(** [load_visits]: the visits and the largest sequence number, which starts
    at 0. *)
Definition load_visits (file : option cstr) : list Visit * Z :=
  match file with
  | None => ([], 0)
  | Some content =>
      let visits := omap parse_visit (getlines [] content) in
      (visits, foldl (fun s v => if s <? vlast v then vlast v else s) 0 visits)
  end.

Definition print_visit (v : Visit) : cstr :=
  printf_lld (vcount v) ++ [TAB] ++ printf_lld (vlast v) ++ [TAB] ++ vpath v ++ [LF].

(** [save_visits]: the new contents of the file. *)
Definition save_visits (visits : list Visit) : cstr := concat (print_visit <$> visits).

(** The loop of [record_visit] with its [break]. *)
Fixpoint bump_visit (path : cstr) (sequence : Z) (visits : list Visit) : option (list Visit) :=
  match visits with
  | [] => None
  | v :: vs =>
      if streq (vpath v) path then Some (mkVisit (vpath v) (vcount v + 1) sequence :: vs)
      else match bump_visit path sequence vs with Some vs' => Some (v :: vs') | None => None end
  end.

Definition record_visit (path : cstr) (file : option cstr) : cstr :=
  let '(visits, seq0) := load_visits file in
  let sequence := seq0 + 1 in
  save_visits (match bump_visit path sequence visits with
               | Some vs => vs
               | None => visits ++ [mkVisit path 1 sequence]
               end).

(** [strstr(s,name)!=NULL] *)
Fixpoint is_prefix (p s : cstr) : bool :=
  match p, s with
  | [], _ => true
  | a :: p', b :: s' => (a =c b) && is_prefix p' s'
  | _, [] => false
  end.
Fixpoint strstr (s name : cstr) : bool :=
  is_prefix name s || match s with [] => false | _ :: s' => strstr s' name end.

(** The comparison of [find_visit]; [best] is the current choice. *)
Definition better (best : option cstr) (best_count best_last : Z) (v : Visit) : bool :=
  if best_count <? vcount v then true
  else if (vcount v =? best_count) && (best_last <? vlast v) then true
  else (vcount v =? best_count) && (vlast v =? best_last) &&
       match best with
       | None => true
       | Some b => match strcmp (vpath v) b with Lt => true | _ => false end
       end.

Definition find_step (access : cstr -> bool) (name : cstr) (st : option cstr * Z * Z) (v : Visit) : option cstr * Z * Z :=
  let '(best, c, l) := st in
  if negb (access (vpath v)) || negb (strstr (vpath v) name) then st
  else if better best c l v then (Some (vpath v), vcount v, vlast v) else st.

Definition find_visit (access : cstr -> bool) (name : cstr) (file : option cstr) : option cstr :=
  (foldl (find_step access name) (None, -1, -1) (load_visits file).1).1.1.

(** ** The builtin *)

(** The directory state of the shell and the history file. *)
Record dirs := mkDirs { cwd : cstr; home_dir : cstr; previous_dir : option cstr; history : option cstr }.

Section Hop.
(** [chdir_to cwd path]: the directory [chdir] leads to, [None] when it
    fails; [getcwd_ok d]: [getcwd] works in [d]; [access p]: the file exists. *)
Context (chdir_to : cstr -> cstr -> option cstr) (getcwd_ok access : cstr -> bool).

Definition change_directory (path : cstr) (d : dirs) : Z * dirs :=
  if negb (getcwd_ok (cwd d)) then (-1, d)
  else match chdir_to (cwd d) path with
  | None => (-1, d)
  | Some new =>
      if negb (getcwd_ok new) then (-1, mkDirs new (home_dir d) (previous_dir d) (history d))
      else if streq (cwd d) new then (0, mkDirs new (home_dir d) (previous_dir d) (history d))
      else (0, mkDirs new (home_dir d) (Some (cwd d)) (Some (record_visit new (history d))))
  end.

Definition do_hop (argument : cstr) (d : dirs) : Z * dirs :=
  if streq argument (str "~") then change_directory (home_dir d) d
  else if streq argument (str ".") then (0, d)
  else if streq argument (str "-") then
    match previous_dir d with None => (0, d) | Some p => change_directory p d end
  else
    let '(r, d1) := change_directory argument d in
    if r =? 0 then (0, d1)
    else match find_visit access argument (history d1) with
         | None => (-1, d1)
         | Some found => change_directory found d1
         end.

Definition no_dir : action := Complain (line "hop: no such directory").

Fixpoint hop_args (ts : list Token) (d : dirs) : list action * dirs :=
  match ts with
  | [] => ([], d)
  | t :: ts' =>
      if negb (is_word t) then ([], d)
      else
        let '(r, d1) := do_hop (text t) d in
        let '(acts, d2) := hop_args ts' d1 in
        ((if r =? 0 then [] else [no_dir]) ++ acts, d2)
  end.

Definition run_hop (ts : list Token) (d : dirs) : Z * list action * dirs :=
  if bool_decide (first_word ts = Some (str "hop")) then
    match tail ts with
    | [] => let '(r, d1) := do_hop (str "~") d in (1, if r =? 0 then [] else [no_dir], d1)
    | args => let '(acts, d1) := hop_args args d in (1, acts, d1)
    end
  else (0, [], d).
End Hop.

(** ** locate *)
Section Locate.
Context (is_executable_file : cstr -> bool) (getcwd : option cstr) (path_value : option cstr).

Definition make_candidate (directory name : cstr) : option cstr :=
  if (char_at directory 0 =c "/") then Some (directory ++ str "/" ++ name)
  else c ← getcwd; Some (c ++ str "/" ++ directory ++ str "/" ++ name).

Definition search_current (name : cstr) : list cstr :=
  match getcwd with
  | None => []
  | Some c => match make_candidate c name with
              | Some p => if is_executable_file p then [p] else []
              | None => []
              end
  end.

Definition search_path (name : cstr) : list cstr :=
  match path_value with
  | None => []
  | Some pv =>
      concat ((fun d => match make_candidate (match d with [] => str "." | _ => d end) name with
                        | Some p => if is_executable_file p then [p] else []
                        | None => []
                        end) <$> strtok [] pv)
  end.

Definition locate_one (name : cstr) : list action :=
  let found := search_current name ++ search_path name in
  match found with
  | [] => [Complain (str "locate: command not found (" ++ name ++ line ")")]
  | _ => (fun p => Print (p ++ [LF])) <$> found
  end.

Fixpoint locate_args (ts : list Token) : list action :=
  match ts with
  | [] => []
  | t :: ts' => if is_word t then locate_one (text t) ++ locate_args ts' else []
  end.

Definition run_locate (ts : list Token) : Z * list action :=
  if bool_decide (first_word ts = Some (str "locate")) then
    match tail ts with
    | [] => (1, [Complain (line "locate: invalid syntax")])
    | args => (1, locate_args args)
    end
  else (0, []).
End Locate.

(** ** Numbers are read back *)
Lemma dec_digits_ok fuel : forall n, 0 <= n < 10 ^ Z.of_nat (S fuel) ->
  Forall is_digit (dec_digits fuel n) /\ dec_value (dec_digits fuel n) = n /\ dec_digits fuel n <> [].
Proof.
  assert (H1 : forall n, 0 <= n < 10 -> Forall is_digit [digit n] /\ dec_value [digit n] = n /\ [digit n] <> []).
  { intros n Hn. pose proof (code_digit n Hn) as Hc. split_and!; [|unfold dec_value; cbn [fold_left]; lia|done].
    repeat constructor; rewrite Hc; lia. }
  induction fuel as [|fuel IH]; intros n Hn; cbn [dec_digits].
  - apply H1. simpl in Hn. lia.
  - destruct (Z.ltb_spec n 10); [apply H1; lia|].
    rewrite Nat2Z.inj_succ, Z.pow_succ_r in Hn by lia.
    assert (Hd : 0 <= n / 10 < 10 ^ Z.of_nat (S fuel)).
    { split; [apply Z.div_pos; lia|]. apply Z.div_lt_upper_bound; lia. }
    assert (Hm : 0 <= n mod 10 < 10) by (apply Z.mod_pos_bound; lia).
    destruct (IH _ Hd) as (Ha & Hb & Hc). destruct (H1 _ Hm) as (Hx & _ & _). split_and!.
    + apply Forall_app. auto.
    + rewrite dec_value_snoc, Hb, code_digit by done. pose proof (Z.div_mod n 10). lia.
    + by destruct (dec_digits fuel (n / 10)).
Qed.

Definition in_lld (n : Z) : Prop := 0 <= n <= LLONG_MAX.

Lemma printf_lld_digits n : in_lld n ->
  Forall is_digit (printf_lld n) /\ dec_value (printf_lld n) = n /\ printf_lld n <> [].
Proof.
  intros [H0 H1]. unfold printf_lld. destruct (Z.ltb_spec n 0); [lia|]. apply dec_digits_ok.
  unfold LLONG_MAX in H1. split; [done|]. change (10 ^ Z.of_nat 20) with 100000000000000000000. lia.
Qed.

Lemma digit_plain c : is_digit c -> isspace c = false /\ (c =c "-") = false /\ (c =c "+") = false.
Proof.
  unfold is_digit, isspace. intros H. assert (Hne : forall x, code x < 48 -> (c =c x) = false).
  { intros x Hx. destruct (ceq_spec c x) as [->|]; [lia | done]. }
  rewrite !Hne by (vm_compute; done). split_and!; try done.
  destruct (Z.leb_spec 9 (code c)), (Z.leb_spec (code c) 13); try done; lia.
Qed.

Lemma strtoll_printf n : in_lld n -> strtoll (printf_lld n) = n.
Proof.
  intros Hn. destruct (printf_lld_digits n Hn) as (Hd & Hv & Hne). unfold strtoll.
  destruct (printf_lld n) as [|c s] eqn:E; [done|]. pose proof Hd as Hd'. apply Forall_cons in Hd' as [Hc _].
  destruct (digit_plain c Hc) as (H1 & H2 & H3). cbn [skip_space]. rewrite H1, H2, H3.
  rewrite span_digits_all by done. cbn [fst]. rewrite Hv. destruct Hn. lia.
Qed.

(** ** Lines and fields *)
Lemma strchr_app c a b : c ∉ a -> strchr c (a ++ c :: b) = Some (a, b).
Proof.
  induction a as [|x a IH]; intros H; simpl.
  - unfold ceq. by rewrite Ascii.eqb_refl.
  - apply not_elem_of_cons in H as [H1 H2]. rewrite IH by done. destruct (ceq_spec x c); [congruence | done].
Qed.

Lemma strchr_none c a : c ∉ a -> strchr c a = None.
Proof.
  induction a as [|x a IH]; intros H; simpl; [done|]. apply not_elem_of_cons in H as [H1 H2].
  rewrite IH by done. destruct (ceq_spec x c); [congruence | done].
Qed.

Lemma getlines_line l rest : LF ∉ l -> forall cur, getlines cur (l ++ LF :: rest) = (cur ++ l ++ [LF]) :: getlines [] rest.
Proof.
  induction l as [|c l IH]; intros H cur; simpl; [done|]. apply not_elem_of_cons in H as [H1 H2].
  destruct (ceq_spec c LF); [congruence|]. rewrite IH by done. by rewrite <- app_assoc.
Qed.

Lemma digits_free c s : code c < 48 -> Forall is_digit s -> c ∉ s.
Proof. intros Hc H Hin. rewrite Forall_forall in H. specialize (H c Hin). unfold is_digit in H. lia. Qed.

(** A visit that the file can hold. *)
Definition visit_ok (v : Visit) : Prop := LF ∉ vpath v /\ in_lld (vcount v) /\ in_lld (vlast v).

Lemma print_visit_line v : visit_ok v ->
  exists l, print_visit v = l ++ [LF] /\ LF ∉ l /\ parse_visit (l ++ [LF]) = Some v.
Proof.
  intros (Hp & Hc & Hl). destruct (printf_lld_digits _ Hc) as (Dc & _ & _). destruct (printf_lld_digits _ Hl) as (Dl & _ & _).
  exists (printf_lld (vcount v) ++ TAB :: printf_lld (vlast v) ++ TAB :: vpath v). split_and!.
  - unfold print_visit. rewrite <- !app_assoc. simpl. by rewrite <- app_assoc.
  - rewrite not_elem_of_app, not_elem_of_cons, not_elem_of_app, not_elem_of_cons.
    split_and!; try done; by apply digits_free.
  - unfold parse_visit. rewrite <- app_assoc. cbn [app]. rewrite strchr_app by (by apply digits_free).
    cbn [mbind option_bind]. rewrite <- app_assoc. cbn [app]. rewrite strchr_app by (by apply digits_free).
    cbn [mbind option_bind]. rewrite strchr_app by done. rewrite !strtoll_printf by done. by destruct v.
Qed.

Lemma load_save vs : Forall visit_ok vs -> omap parse_visit (getlines [] (save_visits vs)) = vs.
Proof.
  induction 1 as [|v vs Hv _ IH]; [done|]. unfold save_visits. simpl.
  destruct (print_visit_line v Hv) as (l & -> & Hn & Hp). rewrite <- app_assoc. cbn [app].
  rewrite getlines_line by done. cbn [app]. simpl. rewrite Hp. f_equal. exact IH.
Qed.

(** The sequence number: the largest so far. *)
Definition newest (vs : list Visit) : Z := foldl (fun s v => if s <? vlast v then vlast v else s) 0 vs.

Lemma newest_ge vs : forall s0 v, v ∈ vs ->
  vlast v <= foldl (fun s v => if s <? vlast v then vlast v else s) s0 vs.
Proof.
  assert (Hmono : forall vs s0, s0 <= foldl (fun s v => if s <? vlast v then vlast v else s) s0 vs).
  { clear vs. induction vs as [|v vs IHv]; intros s0; simpl; [lia|]. etrans; [|apply IHv].
    destruct (Z.ltb_spec s0 (vlast v)); lia. }
  induction vs as [|x vs IH]; intros s0 v Hv; [by apply not_elem_of_nil in Hv|]. simpl.
  apply elem_of_cons in Hv as [->|Hv]; [|by apply IH]. etrans; [|apply Hmono].
  destruct (Z.ltb_spec s0 (vlast x)); lia.
Qed.

Lemma newest_bound vs : Forall visit_ok vs -> forall s0, in_lld s0 ->
  in_lld (foldl (fun s v => if s <? vlast v then vlast v else s) s0 vs).
Proof.
  induction 1 as [|v vs (_ & _ & Hv) _ IH]; intros s0 Hs; simpl; [done|]. apply IH. by destruct (s0 <? vlast v).
Qed.

(** ** Recording a visit *)
Definition history_ok (vs : list Visit) : Prop := Forall visit_ok vs /\ NoDup (vpath <$> vs).

Lemma bump_visit_None path s vs : bump_visit path s vs = None <-> path ∉ vpath <$> vs.
Proof.
  induction vs as [|v vs IH]; simpl; [split; [intros _; apply not_elem_of_nil | done]|].
  rewrite not_elem_of_cons. destruct (streq_spec (vpath v) path) as [->|Hne]; [naive_solver|].
  destruct (bump_visit path s vs); [|naive_solver]. split; [done|]. intros [_ H]. by apply IH in H.
Qed.

Lemma bump_visit_Some path s vs vs' :
  bump_visit path s vs = Some vs' ->
  exists pre v post, vs = pre ++ v :: post /\ vpath v = path /\ vs' = pre ++ mkVisit path (vcount v + 1) s :: post.
Proof.
  revert vs'. induction vs as [|v vs IH]; intros vs'; simpl; [done|].
  destruct (streq_spec (vpath v) path) as [<-|Hne].
  - intros [= <-]. by exists [], v, vs.
  - destruct (bump_visit path s vs) as [vs2|]; [|done]. intros [= <-].
    destruct (IH vs2 eq_refl) as (pre & w & post & -> & Hw & ->). by exists (v :: pre), w, post.
Qed.

(** The entry of a directory. *)
Definition visit_of (path : cstr) (vs : list Visit) : option Visit := List.find (fun v => streq (vpath v) path) vs.

Lemma visit_of_skip path v vs : vpath v <> path -> visit_of path (v :: vs) = visit_of path vs.
Proof. intros H. unfold visit_of. simpl. by destruct (streq_spec (vpath v) path). Qed.

Lemma visit_of_here path v vs : vpath v = path -> visit_of path (v :: vs) = Some v.
Proof. intros H. unfold visit_of. simpl. by destruct (streq_spec (vpath v) path). Qed.

Lemma visit_of_none path vs : path ∉ vpath <$> vs -> visit_of path vs = None.
Proof.
  induction vs as [|v vs IH]; [done|]. rewrite fmap_cons, not_elem_of_cons. intros [H1 H2].
  rewrite visit_of_skip by congruence. auto.
Qed.

Lemma visit_of_app path a b :
  visit_of path (a ++ b) = match visit_of path a with Some v => Some v | None => visit_of path b end.
Proof.
  induction a as [|v a IH]; [done|]. cbn [app]. destruct (decide (vpath v = path)) as [E|E].
  - by rewrite !visit_of_here.
  - by rewrite !visit_of_skip.
Qed.

(** The history after one more visit. *)
Definition visited (path : cstr) (vs : list Visit) : list Visit :=
  match bump_visit path (newest vs + 1) vs with
  | Some vs' => vs'
  | None => vs ++ [mkVisit path 1 (newest vs + 1)]
  end.

Definition times (path : cstr) (vs : list Visit) : Z := default 0 (vcount <$> visit_of path vs).

Lemma visited_spec path vs :
  history_ok vs -> LF ∉ path -> newest vs < LLONG_MAX -> times path vs < LLONG_MAX ->
  history_ok (visited path vs) /\
  visit_of path (visited path vs) = Some (mkVisit path (times path vs + 1) (newest vs + 1)) /\
  (forall q, q <> path -> visit_of q (visited path vs) = visit_of q vs).
Proof.
  intros [Hok Hnd] Hp Hn Ht. unfold visited.
  assert (Hnew : in_lld (newest vs + 1)).
  { pose proof (newest_bound vs Hok 0) as Hb. unfold in_lld, newest in *. unfold LLONG_MAX in *. lia. }
  destruct (bump_visit path (newest vs + 1) vs) as [vs'|] eqn:E.
  - apply bump_visit_Some in E as (pre & v & post & -> & Hv & ->).
    rewrite fmap_app, fmap_cons, Hv in Hnd. apply NoDup_app in Hnd as (Hpre & Hdis & Hpost).
    assert (Hnotin : path ∉ vpath <$> pre) by (intros Hin; apply (Hdis path Hin); set_solver).
    assert (Hcount : times path (pre ++ v :: post) = vcount v).
    { unfold times. rewrite visit_of_app, visit_of_none, visit_of_here by done. done. }
    rewrite Hcount in *. apply Forall_app in Hok as [Ho1 Ho2]. apply Forall_cons in Ho2 as [(Hv1 & Hv2 & Hv3) Ho2].
    split_and!.
    + split; [apply Forall_app; split; [done|]; constructor; [|done]; split_and!; unfold in_lld in *; simpl; auto; lia|].
      rewrite fmap_app, fmap_cons. cbn [vpath]. apply NoDup_app. auto.
    + by rewrite visit_of_app, visit_of_none, visit_of_here.
    + intros q Hq. rewrite !visit_of_app. rewrite !visit_of_skip by (simpl; congruence). done.
  - apply bump_visit_None in E.
    assert (Hcount : times path vs = 0) by (unfold times; by rewrite visit_of_none). rewrite Hcount in *. split_and!.
    + split.
      * apply Forall_app. split; [done|]. apply Forall_singleton. split_and!; simpl; auto. unfold in_lld, LLONG_MAX. lia.
      * rewrite fmap_app. apply NoDup_app. split_and!; [done| |repeat constructor; set_solver].
        intros x Hx. simpl. rewrite list_elem_of_singleton. intros ->. done.
    + rewrite visit_of_app, visit_of_none by done. by rewrite visit_of_here.
    + intros q Hq. rewrite visit_of_app. destruct (visit_of q vs); [done|]. rewrite visit_of_skip by (simpl; congruence). done.
Qed.

(** The history of visited directories.  The file written by [record_visit]
    is read back exactly; it then holds the old entries, each directory once,
    with one more visit of the new directory, whose time is later than every
    other. *)
Theorem record_visit_history (path : cstr) (vs : list Visit) :
  history_ok vs -> LF ∉ path -> newest vs < LLONG_MAX -> times path vs < LLONG_MAX ->
  exists vs', load_visits (Some (record_visit path (Some (save_visits vs)))) = (vs', newest vs') /\
    history_ok vs' /\
    visit_of path vs' = Some (mkVisit path (times path vs + 1) (newest vs + 1)) /\
    (forall q, q <> path -> visit_of q vs' = visit_of q vs) /\
    (forall v, v ∈ vs -> vlast v < newest vs + 1).
Proof.
  intros Hok Hp Hn Ht. exists (visited path vs).
  destruct (visited_spec path vs Hok Hp Hn Ht) as (Hok' & Hpath & Hother). split_and!; try done.
  - unfold record_visit, load_visits. rewrite (load_save vs) by apply Hok. fold (newest vs).
    change (match bump_visit path (newest vs + 1) vs with Some vs' => vs' | None => _ end) with (visited path vs).
    rewrite load_save by apply Hok'. done.
  - intros v Hv. pose proof (newest_ge vs 0 v Hv). unfold newest. lia.
Qed.

Definition trips : list Visit := [mkVisit (str "/home/me") 3 9; mkVisit (str "/tmp") 1 4].

Lemma record_visit_history_witness :
  exists vs', load_visits (Some (record_visit (str "/tmp") (Some (save_visits trips)))) = (vs', newest vs') /\
    history_ok vs' /\
    visit_of (str "/tmp") vs' = Some (mkVisit (str "/tmp") (times (str "/tmp") trips + 1) (newest trips + 1)) /\
    (forall q, q <> str "/tmp" -> visit_of q vs' = visit_of q trips) /\
    (forall v, v ∈ trips -> vlast v < newest trips + 1).
Proof.
  apply (record_visit_history (str "/tmp") trips).
  - split; [|apply (bool_decide_eq_true_1 _); vm_compute; reflexivity].
    repeat constructor; try (vm_compute; discriminate);
      intros H; apply list_elem_of_In in H; vm_compute in H; intuition discriminate.
  - intros H; apply list_elem_of_In in H; vm_compute in H; intuition discriminate.
  - vm_compute. reflexivity.
  - vm_compute. reflexivity.
Defined.

(** A directory whose name has a newline corrupts the history: its entry is
    cut, so it can never be found again. *)
Example newline_path_cut :
  load_visits (Some (record_visit (str "/a" ++ [LF] ++ str "b") None)) = ([mkVisit (str "/a") 1 1], 1).
Proof. vm_compute. reflexivity. Qed.

(** ** The best match *)
Lemma strcmp_lt_trans a : forall b c, strcmp a b = Lt -> strcmp b c = Lt -> strcmp a c = Lt.
Proof.
  induction a as [|x a IH]; intros [|y b] [|z c]; simpl; try done.
  destruct (Z.compare_spec (code x) (code y)), (Z.compare_spec (code y) (code z)),
    (Z.compare_spec (code x) (code z)); try done; try lia. apply IH.
Qed.

(** [v] is at least as good as [u]: more visits, then a later visit, then a
    path that is not larger. *)
Definition no_better (u v : Visit) : Prop :=
  vcount u < vcount v \/
  (vcount u = vcount v /\ (vlast u < vlast v \/ (vlast u = vlast v /\ strcmp (vpath u) (vpath v) <> Lt))).

Lemma strcmp_refl a : strcmp a a = Eq.
Proof. induction a as [|x a IH]; simpl; [done|]. by rewrite Z.compare_refl. Qed.

Lemma better_cases v w :
  if better (Some (vpath v)) (vcount v) (vlast v) w
  then no_better v w /\ forall u, no_better u v -> no_better u w
  else no_better w v.
Proof.
  unfold better, no_better. destruct (Z.ltb_spec (vcount v) (vcount w)); [split; [by left | intros u; lia]|].
  destruct (Z.eqb_spec (vcount w) (vcount v)) as [E|]; cbn [andb]; [|left; lia].
  destruct (Z.ltb_spec (vlast v) (vlast w)); [split; [right; lia | intros u; lia]|].
  destruct (Z.eqb_spec (vlast w) (vlast v)) as [El|]; cbn [andb]; [|right; lia].
  destruct (strcmp (vpath w) (vpath v)) eqn:Es; try (right; split; [lia|]; right; split; [lia | congruence]).
  assert (Hlt : forall u, strcmp (vpath u) (vpath v) <> Lt -> strcmp (vpath u) (vpath w) <> Lt).
  { intros u Hu H1. apply Hu. by eapply strcmp_lt_trans. }
  split.
  - right. split; [lia|]. right. split; [lia|]. apply Hlt. by rewrite strcmp_refl.
  - intros u [?|[? [?|[? Hu]]]]; [left; lia | right; split; [lia | left; lia] |].
    right. split; [lia|]. right. split; [lia|]. by apply Hlt.
Qed.

Definition matches (access : cstr -> bool) (name : cstr) (v : Visit) : bool := access (vpath v) && strstr (vpath v) name.

(** The choice after some entries: none of them matches, or the best one. *)
Definition chosen (access : cstr -> bool) (name : cstr) (seen : list Visit) (st : option cstr * Z * Z) : Prop :=
  (st = (None, -1, -1) /\ forall u, u ∈ seen -> matches access name u = false) \/
  exists v, v ∈ seen /\ matches access name v = true /\ st = (Some (vpath v), vcount v, vlast v) /\
    forall u, u ∈ seen -> matches access name u = true -> no_better u v.

Lemma find_step_chosen access name seen st w :
  0 <= vcount w -> chosen access name seen st -> chosen access name (seen ++ [w]) (find_step access name st w).
Proof.
  intros Hw H. unfold find_step. destruct st as [[best c] l].
  assert (Hm : negb (access (vpath w)) || negb (strstr (vpath w) name) = negb (matches access name w))
    by (unfold matches; by rewrite negb_andb).
  rewrite Hm. destruct (matches access name w) eqn:Ew; cbn [negb].
  - destruct H as [[[= -> -> ->] Hn]|(v & Hv & Hmv & [= -> -> ->] & Hbest)].
    + right. unfold better. rewrite (proj2 (Z.ltb_lt (-1) (vcount w))) by lia. exists w. split_and!; try done; [set_solver|].
      intros u Hu Hmu. apply elem_of_app in Hu as [Hu|Hu]; [by rewrite Hn in Hmu|].
      apply list_elem_of_singleton in Hu as ->. right. split; [done|]. right. split; [done|]. by rewrite strcmp_refl.
    + right. pose proof (better_cases v w) as Hb. destruct (better _ _ _ w).
      * destruct Hb as [Hvw Htrans]. exists w. split_and!; try done; [set_solver|].
        intros u Hu Hmu. apply elem_of_app in Hu as [Hu|Hu]; [by apply Htrans, Hbest|].
        apply list_elem_of_singleton in Hu as ->. right. split; [done|]. right. split; [done|]. by rewrite strcmp_refl.
      * exists v. split_and!; try done; [set_solver|].
        intros u Hu Hmu. apply elem_of_app in Hu as [Hu|Hu]; [by apply Hbest|]. by apply list_elem_of_singleton in Hu as ->.
  - destruct H as [[E Hn]|(v & Hv & Hmv & E & Hbest)].
    + left. split; [done|]. intros u Hu. apply elem_of_app in Hu as [Hu|Hu]; [by apply Hn | by apply list_elem_of_singleton in Hu as ->].
    + right. exists v. split_and!; try done; [set_solver|]. intros u Hu Hmu. apply elem_of_app in Hu as [Hu|Hu]; [by apply Hbest|].
      apply list_elem_of_singleton in Hu as ->. congruence.
Qed.

Lemma find_chosen access name vs : Forall visit_ok vs -> forall seen st,
  chosen access name seen st -> chosen access name (seen ++ vs) (foldl (find_step access name) st vs).
Proof.
  induction 1 as [|w vs (_ & Hw & _) _ IH]; intros seen st H; [by rewrite app_nil_r|]. cbn [foldl].
  rewrite (app_assoc seen [w] vs : seen ++ w :: vs = _). apply IH, find_step_chosen; [unfold in_lld in Hw; lia | done].
Qed.

(** The most visited match.  [find_visit] answers with an existing
    directory of the history whose path contains the name, the one with the
    most visits, the most recently visited among those, and it answers
    nothing only when there is no such directory. *)
Theorem find_visit_best (access : cstr -> bool) (name : cstr) (vs : list Visit) :
  Forall visit_ok vs ->
  match find_visit access name (Some (save_visits vs)) with
  | None => forall u, u ∈ vs -> matches access name u = false
  | Some p => exists v, v ∈ vs /\ vpath v = p /\ matches access name v = true /\
                forall u, u ∈ vs -> matches access name u = true -> no_better u v
  end.
Proof.
  intros Hok. unfold find_visit, load_visits. rewrite load_save by done. cbn [fst].
  destruct (find_chosen access name vs Hok [] (None, -1, -1)) as [[E Hn]|(v & Hv & Hm & E & Hb)].
  - left. split; [done|]. intros u Hu. by apply not_elem_of_nil in Hu.
  - rewrite E. exact Hn.
  - rewrite E. cbn [fst]. exists v. auto.
Qed.

Lemma find_visit_best_witness :
  exists v, v ∈ trips /\ vpath v = str "/home/me" /\ matches (fun _ => true) (str "m") v = true /\
    forall u, u ∈ trips -> matches (fun _ => true) (str "m") u = true -> no_better u v.
Proof.
  apply (find_visit_best (fun _ => true) (str "m") trips).
  repeat constructor; try (vm_compute; discriminate);
    intros H; apply list_elem_of_In in H; vm_compute in H; intuition discriminate.
Defined.

(** ** Going back *)
Section Back.
Context (chdir_to : cstr -> cstr -> option cstr) (getcwd_ok access : cstr -> bool).
Hypothesis getcwd_works : forall x, getcwd_ok x = true.

(** One change of directory: a failure changes nothing, a success to another
    directory remembers the old one and counts the visit. *)
Lemma change_directory_cases path d :
  let '(r, d1) := change_directory chdir_to getcwd_ok path d in
  (r = -1 /\ d1 = d /\ chdir_to (cwd d) path = None) \/
  (r = 0 /\ chdir_to (cwd d) path = Some (cwd d1) /\ home_dir d1 = home_dir d /\
   ((cwd d1 = cwd d /\ d1 = d) \/
    (cwd d1 <> cwd d /\ previous_dir d1 = Some (cwd d) /\ history d1 = Some (record_visit (cwd d1) (history d))))).
Proof.
  unfold change_directory. rewrite getcwd_works. cbn [negb].
  destruct (chdir_to (cwd d) path) as [new|] eqn:E; [|by left]. rewrite getcwd_works. cbn [negb].
  destruct (streq_spec (cwd d) new) as [<-|Hne]; right.
  - split_and!; try done. left. destruct d; done.
  - split_and!; try done. right. simpl. split_and!; done.
Qed.

Lemma do_hop_cases a d :
  let '(r, d1) := do_hop chdir_to getcwd_ok access a d in
  d1 = d \/ (r = 0 /\ cwd d1 <> cwd d /\ previous_dir d1 = Some (cwd d)).
Proof.
  unfold do_hop.
  assert (Hc : forall p, let '(r, d1) := change_directory chdir_to getcwd_ok p d in
    d1 = d \/ (r = 0 /\ cwd d1 <> cwd d /\ previous_dir d1 = Some (cwd d))).
  { intros p. pose proof (change_directory_cases p d) as H. destruct (change_directory _ _ p d) as [r d1].
    destruct H as [(-> & -> & _)|(-> & _ & _ & [[_ ->]|(Hne & Hp & _)])]; auto. }
  destruct (streq a (str "~")); [apply Hc|]. destruct (streq a (str ".")); [by left|].
  destruct (streq a (str "-")); [destruct (previous_dir d); [apply Hc | by left]|].
  pose proof (change_directory_cases a d) as H. destruct (change_directory _ _ a d) as [r d1].
  destruct H as [(-> & -> & _)|(-> & _ & _ & H)]; simpl.
  - destruct (find_visit access a (history d)); [apply Hc | by left].
  - destruct H as [[_ ->]|(Hne & Hp & _)]; auto.
Qed.

(** [hop -] goes back.  After any [hop] that changed the directory, [hop -]
    returns to the directory before it, provided that directory still
    exists, and a second [hop -] returns to the new one. *)
Theorem hop_back (a : cstr) (d : dirs) :
  (forall x y, y = cwd d \/ y = cwd (do_hop chdir_to getcwd_ok access a d).2 -> chdir_to x y = Some y) ->
  let d1 := (do_hop chdir_to getcwd_ok access a d).2 in
  cwd d1 <> cwd d ->
  let '(r2, d2) := do_hop chdir_to getcwd_ok access (str "-") d1 in
  r2 = 0 /\ cwd d2 = cwd d /\
  let '(r3, d3) := do_hop chdir_to getcwd_ok access (str "-") d2 in
  r3 = 0 /\ cwd d3 = cwd d1.
Proof.
  intros Hch d1 Hne. pose proof (do_hop_cases a d) as H. unfold d1 in *. clear d1.
  destruct (do_hop chdir_to getcwd_ok access a d) as [r d1]. cbn [snd] in *.
  destruct H as [->|(-> & _ & Hp)]; [done|].
  assert (Hdash : forall x p, previous_dir x = Some p ->
    do_hop chdir_to getcwd_ok access (str "-") x = change_directory chdir_to getcwd_ok p x)
    by (intros x p E; unfold do_hop; simpl; by rewrite E).
  rewrite (Hdash d1 _ Hp). pose proof (change_directory_cases (cwd d) d1) as H.
  destruct (change_directory _ _ (cwd d) d1) as [r2 d2].
  destruct H as [(_ & _ & E)|(-> & E & _ & H)]; rewrite Hch in E by auto; [done|]. injection E as E2.
  split; [done|]. split; [done|].
  destruct H as [[E3 _]|(_ & Hp2 & _)]; [congruence|].
  rewrite (Hdash d2 _ Hp2). pose proof (change_directory_cases (cwd d1) d2) as H3.
  destruct (change_directory _ _ (cwd d1) d2) as [r3 d3].
  destruct H3 as [(_ & _ & E3)|(-> & E3 & _)]; rewrite Hch in E3 by auto; [done|]. by injection E3 as ->.
Qed.
End Back.

(** A tree where every absolute path is a directory. *)
Definition flat_chdir (c p : cstr) : option cstr := if char_at p 0 =c "/" then Some p else None.

Lemma hop_back_witness :
  let d := mkDirs (str "/src") (str "/home") None None in
  let d1 := (do_hop flat_chdir (fun _ => true) (fun _ => true) (str "/tmp") d).2 in
  let '(r2, d2) := do_hop flat_chdir (fun _ => true) (fun _ => true) (str "-") d1 in
  r2 = 0 /\ cwd d2 = cwd d /\
  let '(r3, d3) := do_hop flat_chdir (fun _ => true) (fun _ => true) (str "-") d2 in
  r3 = 0 /\ cwd d3 = cwd d1.
Proof.
  apply (hop_back flat_chdir (fun _ => true) (fun _ => true) (fun _ => eq_refl) (str "/tmp")
           (mkDirs (str "/src") (str "/home") None None)).
  - intros x y [->| ->]; reflexivity.
  - discriminate.
Defined.
