(* ===== verification/Proc.v ===== *)
(** * The process table (xv6/kernel/proc.c, proc.h)

    [struct proc] field by field, the table [proc[NPROC]] with the globals of
    [proc.c], and the operations on processes: allocation, fork, exit, wait,
    sleep, wakeup and kill.  Pointers into [proc[]] are table indices, a null
    pointer is [None], and [None] as the result of an operation is a panic. *)
From S2P Require Import Prelude.
Local Open Scope Z_scope.

Definition NPROC : nat := 64.
Definition NCPU : nat := 8.
Definition NOFILE : nat := 16.
Definition PGSIZE : Z := 4096.

Inductive procstate := UNUSED | USED | SLEEPING | RUNNABLE | RUNNING | ZOMBIE.

#[export] Instance procstate_eq_dec : EqDecision procstate.
Proof. solve_decision. Defined.

(** A wait channel is the address of an object: a process, the tick counter,
    or any other kernel object. *)
Inductive channel := CProc (i : nat) | CTicks | CObj (a : Z).

#[export] Instance channel_eq_dec : EqDecision channel.
Proof. solve_decision. Defined.

(** The trapframe is the address of its page with the 36 saved registers;
    [context] is [ra], [sp] and [s0] to [s11]. *)
Record proc := mkProc {
  state : procstate;
  chan : option channel;
  killed : Z;
  xstate : Z;
  pid : Z;
  parent : option nat;
  kstack : Z;
  sz : Z;
  pagetable : option Z;
  trapframe : option (Z * list Z);
  context : list Z;
  ofile : list (option Z);
  cwd : option Z;
  name : cstr;
  ctime : Z;
  etime : Z;
  rtime : Z;
  first_run : Z;
  priority : Z;
  slice_used : Z;
  queued : Z;
  enq_time : Z
}.

Definition set_state (v : procstate) (r : proc) : proc :=
  mkProc v (chan r) (killed r) (xstate r) (pid r) (parent r) (kstack r) (sz r) (pagetable r) (trapframe r) (context r) (ofile r) (cwd r) (name r) (ctime r) (etime r) (rtime r) (first_run r) (priority r) (slice_used r) (queued r) (enq_time r).
Definition set_chan (v : option channel) (r : proc) : proc :=
  mkProc (state r) v (killed r) (xstate r) (pid r) (parent r) (kstack r) (sz r) (pagetable r) (trapframe r) (context r) (ofile r) (cwd r) (name r) (ctime r) (etime r) (rtime r) (first_run r) (priority r) (slice_used r) (queued r) (enq_time r).
Definition set_killed (v : Z) (r : proc) : proc :=
  mkProc (state r) (chan r) v (xstate r) (pid r) (parent r) (kstack r) (sz r) (pagetable r) (trapframe r) (context r) (ofile r) (cwd r) (name r) (ctime r) (etime r) (rtime r) (first_run r) (priority r) (slice_used r) (queued r) (enq_time r).
Definition set_xstate (v : Z) (r : proc) : proc :=
  mkProc (state r) (chan r) (killed r) v (pid r) (parent r) (kstack r) (sz r) (pagetable r) (trapframe r) (context r) (ofile r) (cwd r) (name r) (ctime r) (etime r) (rtime r) (first_run r) (priority r) (slice_used r) (queued r) (enq_time r).
Definition set_pid (v : Z) (r : proc) : proc :=
  mkProc (state r) (chan r) (killed r) (xstate r) v (parent r) (kstack r) (sz r) (pagetable r) (trapframe r) (context r) (ofile r) (cwd r) (name r) (ctime r) (etime r) (rtime r) (first_run r) (priority r) (slice_used r) (queued r) (enq_time r).
Definition set_parent (v : option nat) (r : proc) : proc :=
  mkProc (state r) (chan r) (killed r) (xstate r) (pid r) v (kstack r) (sz r) (pagetable r) (trapframe r) (context r) (ofile r) (cwd r) (name r) (ctime r) (etime r) (rtime r) (first_run r) (priority r) (slice_used r) (queued r) (enq_time r).
Definition set_kstack (v : Z) (r : proc) : proc :=
  mkProc (state r) (chan r) (killed r) (xstate r) (pid r) (parent r) v (sz r) (pagetable r) (trapframe r) (context r) (ofile r) (cwd r) (name r) (ctime r) (etime r) (rtime r) (first_run r) (priority r) (slice_used r) (queued r) (enq_time r).
Definition set_sz (v : Z) (r : proc) : proc :=
  mkProc (state r) (chan r) (killed r) (xstate r) (pid r) (parent r) (kstack r) v (pagetable r) (trapframe r) (context r) (ofile r) (cwd r) (name r) (ctime r) (etime r) (rtime r) (first_run r) (priority r) (slice_used r) (queued r) (enq_time r).
Definition set_pagetable (v : option Z) (r : proc) : proc :=
  mkProc (state r) (chan r) (killed r) (xstate r) (pid r) (parent r) (kstack r) (sz r) v (trapframe r) (context r) (ofile r) (cwd r) (name r) (ctime r) (etime r) (rtime r) (first_run r) (priority r) (slice_used r) (queued r) (enq_time r).
Definition set_trapframe (v : option (Z * list Z)) (r : proc) : proc :=
  mkProc (state r) (chan r) (killed r) (xstate r) (pid r) (parent r) (kstack r) (sz r) (pagetable r) v (context r) (ofile r) (cwd r) (name r) (ctime r) (etime r) (rtime r) (first_run r) (priority r) (slice_used r) (queued r) (enq_time r).
Definition set_context (v : list Z) (r : proc) : proc :=
  mkProc (state r) (chan r) (killed r) (xstate r) (pid r) (parent r) (kstack r) (sz r) (pagetable r) (trapframe r) v (ofile r) (cwd r) (name r) (ctime r) (etime r) (rtime r) (first_run r) (priority r) (slice_used r) (queued r) (enq_time r).
Definition set_ofile (v : list (option Z)) (r : proc) : proc :=
  mkProc (state r) (chan r) (killed r) (xstate r) (pid r) (parent r) (kstack r) (sz r) (pagetable r) (trapframe r) (context r) v (cwd r) (name r) (ctime r) (etime r) (rtime r) (first_run r) (priority r) (slice_used r) (queued r) (enq_time r).
Definition set_cwd (v : option Z) (r : proc) : proc :=
  mkProc (state r) (chan r) (killed r) (xstate r) (pid r) (parent r) (kstack r) (sz r) (pagetable r) (trapframe r) (context r) (ofile r) v (name r) (ctime r) (etime r) (rtime r) (first_run r) (priority r) (slice_used r) (queued r) (enq_time r).
Definition set_name (v : cstr) (r : proc) : proc :=
  mkProc (state r) (chan r) (killed r) (xstate r) (pid r) (parent r) (kstack r) (sz r) (pagetable r) (trapframe r) (context r) (ofile r) (cwd r) v (ctime r) (etime r) (rtime r) (first_run r) (priority r) (slice_used r) (queued r) (enq_time r).
Definition set_ctime (v : Z) (r : proc) : proc :=
  mkProc (state r) (chan r) (killed r) (xstate r) (pid r) (parent r) (kstack r) (sz r) (pagetable r) (trapframe r) (context r) (ofile r) (cwd r) (name r) v (etime r) (rtime r) (first_run r) (priority r) (slice_used r) (queued r) (enq_time r).
Definition set_etime (v : Z) (r : proc) : proc :=
  mkProc (state r) (chan r) (killed r) (xstate r) (pid r) (parent r) (kstack r) (sz r) (pagetable r) (trapframe r) (context r) (ofile r) (cwd r) (name r) (ctime r) v (rtime r) (first_run r) (priority r) (slice_used r) (queued r) (enq_time r).
Definition set_rtime (v : Z) (r : proc) : proc :=
  mkProc (state r) (chan r) (killed r) (xstate r) (pid r) (parent r) (kstack r) (sz r) (pagetable r) (trapframe r) (context r) (ofile r) (cwd r) (name r) (ctime r) (etime r) v (first_run r) (priority r) (slice_used r) (queued r) (enq_time r).
Definition set_first_run (v : Z) (r : proc) : proc :=
  mkProc (state r) (chan r) (killed r) (xstate r) (pid r) (parent r) (kstack r) (sz r) (pagetable r) (trapframe r) (context r) (ofile r) (cwd r) (name r) (ctime r) (etime r) (rtime r) v (priority r) (slice_used r) (queued r) (enq_time r).
Definition set_priority (v : Z) (r : proc) : proc :=
  mkProc (state r) (chan r) (killed r) (xstate r) (pid r) (parent r) (kstack r) (sz r) (pagetable r) (trapframe r) (context r) (ofile r) (cwd r) (name r) (ctime r) (etime r) (rtime r) (first_run r) v (slice_used r) (queued r) (enq_time r).
Definition set_slice_used (v : Z) (r : proc) : proc :=
  mkProc (state r) (chan r) (killed r) (xstate r) (pid r) (parent r) (kstack r) (sz r) (pagetable r) (trapframe r) (context r) (ofile r) (cwd r) (name r) (ctime r) (etime r) (rtime r) (first_run r) (priority r) v (queued r) (enq_time r).
Definition set_queued (v : Z) (r : proc) : proc :=
  mkProc (state r) (chan r) (killed r) (xstate r) (pid r) (parent r) (kstack r) (sz r) (pagetable r) (trapframe r) (context r) (ofile r) (cwd r) (name r) (ctime r) (etime r) (rtime r) (first_run r) (priority r) (slice_used r) v (enq_time r).
Definition set_enq_time (v : Z) (r : proc) : proc :=
  mkProc (state r) (chan r) (killed r) (xstate r) (pid r) (parent r) (kstack r) (sz r) (pagetable r) (trapframe r) (context r) (ofile r) (cwd r) (name r) (ctime r) (etime r) (rtime r) (first_run r) (priority r) (slice_used r) (queued r) v.

(** The globals of [proc.c] and [trap.c]; [cpu_proc] is [cpus[i].proc]. *)
Record kernel := mkKernel {
  procs : list proc;
  nextpid : Z;
  initproc : option nat;
  ticks : Z;
  mlfq_last_boost : Z;
  cpu_proc : list (option nat)
}.

Definition set_procs (v : list proc) (r : kernel) : kernel :=
  mkKernel v (nextpid r) (initproc r) (ticks r) (mlfq_last_boost r) (cpu_proc r).
Definition set_nextpid (v : Z) (r : kernel) : kernel :=
  mkKernel (procs r) v (initproc r) (ticks r) (mlfq_last_boost r) (cpu_proc r).
Definition set_initproc (v : option nat) (r : kernel) : kernel :=
  mkKernel (procs r) (nextpid r) v (ticks r) (mlfq_last_boost r) (cpu_proc r).
Definition set_ticks (v : Z) (r : kernel) : kernel :=
  mkKernel (procs r) (nextpid r) (initproc r) v (mlfq_last_boost r) (cpu_proc r).
Definition set_mlfq_last_boost (v : Z) (r : kernel) : kernel :=
  mkKernel (procs r) (nextpid r) (initproc r) (ticks r) v (cpu_proc r).
Definition set_cpu_proc (v : list (option nat)) (r : kernel) : kernel :=
  mkKernel (procs r) (nextpid r) (initproc r) (ticks r) (mlfq_last_boost r) v.

(** ** Table access *)
Definition get (k : kernel) (i : nat) : option proc := procs k !! i.
Definition upd (i : nat) (f : proc -> proc) (k : kernel) : kernel :=
  set_procs (alter f i (procs k)) k.
Definition is_state (s : procstate) (p : proc) : bool := bool_decide (state p = s).

(** The process running on CPU [c]. *)
Definition myproc (k : kernel) (c : nat) : option nat := mjoin (cpu_proc k !! c).

Definition cpu_clear (c : nat) (k : kernel) : kernel :=
  set_cpu_proc (<[c := None]> (cpu_proc k)) k.

(** What the process code calls in the rest of the kernel: page allocator,
    user page tables, open files and inodes, over their own state [W]. *)
Class ProcEnv (W : Type) := {
  kalloc : W -> option Z * W;
  kfree : Z -> W -> W;
  proc_pagetable : Z -> W -> option Z * W;
  proc_freepagetable : Z -> Z -> W -> W;
  uvmcopy : Z -> Z -> Z -> W -> Z * W;
  copyout_int : Z -> Z -> Z -> Z -> W -> Z * W;
  filedup : Z -> W -> W;
  fileclose : Z -> W -> W;
  idup : Z -> W -> W;
  iput_op : Z -> W -> W;
  namei_root : W -> Z * W
}.

Definition allocpid (k : kernel) : Z * kernel := (nextpid k, set_nextpid (i32 (nextpid k + 1)) k).

(** The registers of a page filled with 5s by [kalloc]. *)
Definition junk_trapframe : list Z := replicate 36 0x0505050505050505.

(** Highest user page, and the kernel stack of slot [i], two pages apart. *)
Definition MAXVA : Z := Z.shiftl 1 (9 + 9 + 9 + 12 - 1).
Definition TRAMPOLINE : Z := MAXVA - PGSIZE.
Definition KSTACK (i : nat) : Z := TRAMPOLINE - (Z.of_nat i + 1) * 2 * PGSIZE.

Definition procinit (k : kernel) : kernel :=
  set_procs (imap (fun i p => set_kstack (KSTACK i) (set_state UNUSED p)) (procs k)) k.

(** [forkret_addr] is the address of the assembly-visible function
    [forkret], where a new process starts. *)
Section Processes.
Context {W : Type} `{!ProcEnv W} (forkret_addr : Z).

Definition freeproc (i : nat) (k : kernel) (w : W) : kernel * W :=
  match get k i with
  | None => (k, w)
  | Some p =>
      let w1 := match trapframe p with Some (pa, _) => kfree pa w | None => w end in
      let w2 := match pagetable p with
                | Some pt => proc_freepagetable pt (sz p) w1
                | None => w1
                end in
      (upd i (fun p => set_state UNUSED (set_xstate 0 (set_killed 0 (set_chan None
        (set_name [] (set_pid 0 (set_sz 0 (set_pagetable None (set_trapframe None p))))))))) k, w2)
  end.

(** The scheduler bookkeeping of a new process. *)
Definition init_sched (t : Z) (p : proc) : proc :=
  set_enq_time t (set_queued 0 (set_slice_used 0 (set_priority 0 (set_first_run (-1)
    (set_rtime 0 (set_etime 0 (set_ctime t p))))))).

Definition allocproc (k : kernel) (w : W) : option nat * kernel * W :=
  match find_index (is_state UNUSED) (procs k) with
  | None => (None, k, w)
  | Some i =>
      let '(pid', k1) := allocpid k in
      let k2 := upd i (fun p => init_sched (ticks k1) (set_state USED (set_pid pid' p))) k1 in
      let '(tf, w1) := kalloc w in
      match tf with
      | None => let '(k3, w2) := freeproc i k2 w1 in (None, k3, w2)
      | Some pa =>
          let k3 := upd i (set_trapframe (Some (pa, junk_trapframe))) k2 in
          let '(pt, w2) := proc_pagetable pa w1 in
          match pt with
          | None =>
              let '(k4, w3) := freeproc i (upd i (set_pagetable None) k3) w2 in (None, k4, w3)
          | Some pt' =>
              (Some i, upd i (fun p => set_context (forkret_addr :: (kstack p + PGSIZE) ::
                                                    replicate 12 0) (set_pagetable (Some pt') p)) k3, w2)
          end
      end
  end.

Definition userinit (k : kernel) (w : W) : option (kernel * W) :=
  let '(r, k1, w1) := allocproc k w in
  i ← r;
  let '(root, w2) := namei_root w1 in
  Some (upd i (set_state RUNNABLE) (upd i (set_cwd (Some root)) (set_initproc (Some i) k1)), w2).

(** Registers of the trapframe: [a0] is the word at offset 112. *)
Definition TF_a0 : nat := 14.

Fixpoint dup_files (fs : list (option Z)) (w : W) : W :=
  match fs with
  | [] => w
  | Some f :: fs' => dup_files fs' (filedup f w)
  | None :: fs' => dup_files fs' w
  end.

(** [np->ofile[i] = filedup(p->ofile[i])] for the open slots of the parent. *)
Definition copy_files (parent child : list (option Z)) : list (option Z) :=
  zip_with (fun f g => match f with Some _ => f | None => g end) parent child.

(** [safestrcpy(np->name, p->name, 16)]. *)
Definition copy_name (n : cstr) : cstr := take 15 n.

Definition kfork (c : nat) (k : kernel) (w : W) : option (Z * kernel * W) :=
  me ← myproc k c;
  p ← get k me;
  match allocproc k w with
  | (None, k1, w1) => Some (-1, k1, w1)
  | (Some n, k1, w1) =>
      np ← get k1 n;
      pt ← pagetable p;
      npt ← pagetable np;
      let '(st, w2) := uvmcopy pt npt (sz p) w1 in
      if st <? 0 then let '(k2, w3) := freeproc n k1 w2 in Some (-1, k2, w3)
      else
        tf ← trapframe p;
        ntf ← trapframe np;
        let w3 := dup_files (ofile p) w2 in
        cw ← cwd p;
        let w4 := idup cw w3 in
        let k2 := upd n (fun q =>
          set_name (copy_name (name p)) (set_cwd (Some cw) (set_ofile (copy_files (ofile p) (ofile q))
            (set_trapframe (Some (ntf.1, <[TF_a0 := 0]> tf.2)) (set_sz (sz p) q))))) k1 in
        let k3 := upd n (set_parent (Some me)) k2 in
        Some (pid np, upd n (set_state RUNNABLE) k3, w4)
  end.

(** ** Sleeping and waking *)
Definition wakeup_one (ch : option channel) (p : proc) : proc :=
  if bool_decide (chan p = ch) then
    let p1 := set_chan None p in
    if is_state SLEEPING p1 then set_state RUNNABLE p1 else p1
  else p.

Definition wakeup (ch : option channel) (k : kernel) : kernel :=
  set_procs (wakeup_one ch <$> procs k) k.

Definition sleep_prepare (c : nat) (ch : option channel) (k : kernel) : option kernel :=
  me ← myproc k c;
  match ch with
  | None => None
  | Some _ => Some (upd me (set_chan ch) k)
  end.

(** [sched] gives the CPU back to the scheduler, which clears [c->proc]; it
    panics when the caller is still RUNNING.  Its three other checks (the
    caller holds [p->lock] and no other lock, interrupts are off) are about
    the locks of the core, which an atomic event does not show; [Spinlock]
    models them. *)
Definition sched (c : nat) (k : kernel) : option kernel :=
  me ← myproc k c;
  p ← get k me;
  if is_state RUNNING p then None else Some (cpu_clear c k).

Definition sleep (c : nat) (k : kernel) : option kernel :=
  me ← myproc k c;
  p ← get k me;
  match chan p with
  | Some _ => sched c (upd me (set_state SLEEPING) k)
  | None => Some k
  end.

Definition yield (c : nat) (k : kernel) : option kernel :=
  me ← myproc k c;
  sched c (upd me (set_state RUNNABLE) k).

Definition kkill (target : Z) (k : kernel) : Z * kernel :=
  match find_index (fun p => pid p =? target) (procs k) with
  | Some i =>
      (0, upd i (fun p => let p1 := set_killed 1 p in
                          if is_state SLEEPING p1 then set_state RUNNABLE p1 else p1) k)
  | None => (-1, k)
  end.

Definition setkilled (i : nat) (k : kernel) : kernel := upd i (set_killed 1) k.

(** ** Exit and wait *)
(** The loop of [reparent]: slot by slot, giving a child to init and waking
    init each time. *)
Fixpoint reparent_loop (n : nat) (i : nat) (me : nat) (k : kernel) : kernel :=
  match n with
  | O => k
  | S n' =>
      let k' :=
        match get k i with
        | Some pp =>
            if bool_decide (parent pp = Some me)
            then wakeup (CProc <$> initproc k) (upd i (set_parent (initproc k)) k)
            else k
        | None => k
        end in
      reparent_loop n' (S i) me k'
  end.

Definition reparent (me : nat) (k : kernel) : kernel := reparent_loop NPROC 0 me k.

Fixpoint close_files (fs : list (option Z)) (w : W) : W :=
  match fs with
  | [] => w
  | Some f :: fs' => close_files fs' (fileclose f w)
  | None :: fs' => close_files fs' w
  end.

(** The panic after [sched] ("zombie exit") is not here: [sched] does not
    come back to a ZOMBIE, which no scheduler picks. *)
Definition kexit (c : nat) (status : Z) (k : kernel) (w : W) : option (kernel * W) :=
  me ← myproc k c;
  p ← get k me;
  if bool_decide (initproc k = Some me) then None
  else
    let w1 := close_files (ofile p) w in
    cw ← cwd p;
    let w2 := iput_op cw w1 in
    let k1 := upd me (fun q => set_cwd None (set_ofile (const None <$> ofile q) q)) k in
    let k2 := reparent me k1 in
    p2 ← get k2 me;
    let k3 := wakeup (CProc <$> parent p2) k2 in
    let k4 := upd me (fun q => set_state ZOMBIE (set_etime (ticks k3) (set_xstate status q))) k3 in
    k5 ← sched c k4;
    Some (k5, w2).

(** One pass of the [for(;;)] of [kwait]: either it returns, or the caller
    goes to sleep on its own address and scans again when woken. *)
Inductive wait_result := Returned (r : Z) | Blocked.

(** First ZOMBIE child, as the scan of the table finds it. *)
Definition find_zombie (me : nat) (k : kernel) : option nat :=
  find_index (fun pp => bool_decide (parent pp = Some me) && is_state ZOMBIE pp) (procs k).

Definition havekids (me : nat) (k : kernel) : bool :=
  existsb (fun pp => bool_decide (parent pp = Some me)) (procs k).

(** Copy an [int] to user space, unless the address is 0. *)
Definition put_int (p : proc) (addr v : Z) (w : W) : option (Z * W) :=
  if addr =? 0 then Some (0, w)
  else pt ← pagetable p; Some (copyout_int pt (sz p) addr v w).

Definition wait_block (c me : nat) (k : kernel) (w : W) : option (wait_result * kernel * W) :=
  p ← get k me;
  if negb (havekids me k) || negb (killed p =? 0) then Some (Returned (-1), k, w)
  else
    k1 ← sleep_prepare c (Some (CProc me)) k;
    k2 ← sleep c k1;
    Some (Blocked, k2, w).

Definition kwait (c : nat) (addr : Z) (k : kernel) (w : W) : option (wait_result * kernel * W) :=
  me ← myproc k c;
  p ← get k me;
  match find_zombie me k with
  | Some i =>
      pp ← get k i;
      out ← put_int p addr (xstate pp) w;
      let '(r, w1) := out in
      if r <? 0 then Some (Returned (-1), k, w1)
      else
        let '(k2, w2) := freeproc i (upd i (set_parent None) k) w1 in
        Some (Returned (pid pp), k2, w2)
  | None => wait_block c me k w
  end.

(** Statistics of a reaped child: running time, waiting time, response time. *)
Definition waitx_stats (pp : proc) : Z * Z * Z :=
  let rt := i32 (rtime pp) in
  let turn := i32 (u32 (etime pp - ctime pp)) in
  let wt := i32 (turn - rt) in
  let rest := if first_run pp <? 0 then -1 else i32 (first_run pp - i32 (ctime pp)) in
  (rt, if wt <? 0 then 0 else wt, rest).

Definition kwaitx (c : nat) (addr rt_addr wt_addr rest_addr : Z) (k : kernel) (w : W) :
    option (wait_result * kernel * W) :=
  me ← myproc k c;
  p ← get k me;
  match find_zombie me k with
  | Some i =>
      pp ← get k i;
      let '(rt, wt, rest) := waitx_stats pp in
      o1 ← put_int p addr (xstate pp) w;
      if o1.1 <? 0 then Some (Returned (-1), k, o1.2) else
      o2 ← put_int p rt_addr rt o1.2;
      if o2.1 <? 0 then Some (Returned (-1), k, o2.2) else
      o3 ← put_int p wt_addr wt o2.2;
      if o3.1 <? 0 then Some (Returned (-1), k, o3.2) else
      o4 ← put_int p rest_addr rest o3.2;
      if o4.1 <? 0 then Some (Returned (-1), k, o4.2) else
      let '(k2, w2) := freeproc i (upd i (set_parent None) k) o4.2 in
      Some (Returned (pid pp), k2, w2)
  | None => wait_block c me k w
  end.

End Processes.

(** ** Table lemmas *)
#[global] Arguments reparent _ _ : simpl never.

Lemma upd_lookup i f k j :
  procs (upd i f k) !! j = (if decide (i = j) then f <$> procs k !! j else procs k !! j).
Proof. unfold upd; simpl. rewrite list_lookup_alter. by case_decide; subst. Qed.

Lemma upd_lookup_eq i f k p : get k i = Some p -> procs (upd i f k) !! i = Some (f p).
Proof. intros H. rewrite upd_lookup, decide_True by done. unfold get in H. by rewrite H. Qed.

Lemma upd_lookup_ne i f k j : i <> j -> procs (upd i f k) !! j = procs k !! j.
Proof. intros H. by rewrite upd_lookup, decide_False. Qed.

Lemma upd_length i f k : length (procs (upd i f k)) = length (procs k).
Proof. apply length_alter. Qed.

Lemma upd_upd i f g k : upd i f (upd i g k) = upd i (f ∘ g) k.
Proof. unfold upd, set_procs; simpl. by rewrite list_alter_alter_eq. Qed.

Lemma myproc_Some k c i : myproc k c = Some i <-> cpu_proc k !! c = Some (Some i).
Proof. unfold myproc. destruct (cpu_proc k !! c) as [[j|]|]; simpl; naive_solver. Qed.

Lemma is_state_true s p : is_state s p = true <-> state p = s.
Proof. apply bool_decide_eq_true. Qed.

Lemma is_state_false s p : is_state s p = false <-> state p <> s.
Proof. apply bool_decide_eq_false. Qed.

(** Writing a whole slot, the normal form of a sequence of updates. *)
Definition put (i : nat) (p : proc) (k : kernel) : kernel := upd i (const p) k.

Lemma upd_put i f k p : get k i = Some p -> upd i f k = put i (f p) k.
Proof.
  intros H. unfold put, upd. f_equal. apply list_alter_ext; [|done].
  intros q Hq. unfold get in H. by simplify_eq.
Qed.

Lemma get_put i p q k : get k i = Some p -> get (put i q k) i = Some q.
Proof. apply (upd_lookup_eq i (const q)). Qed.

Lemma put_put i p q k : put i p (put i q k) = put i p k.
Proof. apply upd_upd. Qed.
