(* ===== verification/Sched.v ===== *)
(** * Scheduling policies (xv6/kernel/proc.c, trap.c)

    The three compile-time variants of [scheduler] (round robin, FIFO,
    MLFQ), split at [swtch]: the choice of a process, and its dispatch; the
    MLFQ bookkeeping at timer ticks; and the timer interrupt of [trap.c]. *)
From S2P Require Import Prelude Proc.
Local Open Scope Z_scope.

(** ** Choosing a process

    The scans walk [proc[]] from slot [i] on, keeping the best candidate. *)
Definition candidate : Type := nat * proc.

Fixpoint fifo_scan (i : nat) (ps : list proc) (best : option candidate) : option candidate :=
  match ps with
  | [] => best
  | p :: ps' =>
      let better := match best with None => true | Some (_, b) => ctime p <? ctime b end in
      fifo_scan (S i) ps' (if is_state RUNNABLE p && better then Some (i, p) else best)
  end.

(** A process met RUNNABLE for the first time joins the tail of its queue. *)
Definition enqueue (t : Z) (p : proc) : proc :=
  if queued p =? 0 then set_queued 1 (set_enq_time t p) else p.

Definition mlfq_better (p : proc) (best : option candidate) : bool :=
  match best with
  | None => true
  | Some (_, b) =>
      (priority p <? priority b) ||
      ((priority p =? priority b) && (enq_time p <? enq_time b))
  end.

Fixpoint mlfq_scan (t : Z) (i : nat) (ps : list proc) (best : option candidate) :
    list proc * option candidate :=
  match ps with
  | [] => ([], best)
  | p :: ps' =>
      if is_state RUNNABLE p then
        let p1 := enqueue t p in
        let '(rest, b) := mlfq_scan t (S i) ps' (if mlfq_better p1 best then Some (i, p1) else best) in
        (p1 :: rest, b)
      else
        let '(rest, b) := mlfq_scan t (S i) ps' best in (p :: rest, b)
  end.

(** Round robin keeps walking the table: from slot [cursor], the next
    RUNNABLE slot. *)
Definition rr_next (cursor : nat) (ps : list proc) : option nat :=
  (fun j => (cursor + j)%nat) <$> find_index (is_state RUNNABLE) (drop cursor ps).

(** What [scheduler] does just before [swtch]: response time, state, [c->proc]. *)
Definition run_now (t : Z) (p : proc) : proc :=
  set_state RUNNING (if first_run p <? 0 then set_first_run (i32 t) p else p).

Definition dispatch (c i : nat) (k : kernel) : kernel :=
  set_cpu_proc (<[c := Some i]> (cpu_proc k)) (upd i (run_now (ticks k)) k).

(** One turn of the scheduler loop up to [swtch]; [None] when the core finds
    nothing to run and waits for an interrupt. *)
Definition fifo_schedule (c : nat) (k : kernel) : option nat * kernel :=
  match fifo_scan 0 (procs k) None with
  | Some (i, _) => (Some i, dispatch c i k)
  | None => (None, k)
  end.

Definition mlfq_schedule (c : nat) (k : kernel) : option nat * kernel :=
  let '(ps, best) := mlfq_scan (ticks k) 0 (procs k) None in
  let k1 := set_procs ps k in
  match best with
  | Some (i, _) => (Some i, dispatch c i k1)
  | None => (None, k1)
  end.

Definition rr_schedule (c cursor : nat) (k : kernel) : option nat * kernel :=
  match rr_next cursor (procs k) with
  | Some i => (Some i, dispatch c i k)
  | None => (None, k)
  end.

(** ** Time slices *)
Definition mlfq_slice : list Z := [1; 4; 8; 16].

Definition mlfq_higher_runnable (pri : Z) (self : nat) (k : kernel) : bool :=
  existsb (fun b : bool => b)
    (imap (fun j q => negb (j =? self)%nat && (is_state RUNNABLE q && (priority q <? pri)))
      (procs k)).

(** Charging one tick to the running process; reading [mlfq_slice] out of
    range is undefined. *)
Definition charge (t : Z) (p : proc) : option (bool * proc) :=
  let p1 := set_slice_used (i32 (slice_used p + 1)) p in
  slice ← (if priority p1 <? 0 then None else mlfq_slice !! Z.to_nat (priority p1));
  if slice <=? slice_used p1 then
    let p2 := if priority p1 <? 3 then set_priority (i32 (priority p1 + 1)) p1 else p1 in
    Some (true, set_enq_time t (set_slice_used 0 p2))
  else Some (false, p1).

Definition mlfq_tick (c : nat) (k : kernel) : option kernel :=
  match myproc k c with
  | None => Some k
  | Some me =>
      p ← get k me;
      charged ← charge (ticks k) p;
      let '(expired, p') := charged in
      let k1 := upd me (const p') k in
      if expired || mlfq_higher_runnable (priority p') me k1 then yield c k1 else Some k1
  end.

Definition MLFQ_BOOST_INTERVAL : Z := 48.

Definition boost_one (p : proc) : proc :=
  if negb (is_state UNUSED p) then set_slice_used 0 (set_priority 0 p) else p.

Definition mlfq_boost (k : kernel) : kernel :=
  set_mlfq_last_boost (ticks k) (set_procs (boost_one <$> procs k) k).

Definition update_time (k : kernel) : kernel :=
  set_procs ((fun p => if is_state RUNNING p then set_rtime (u32 (rtime p + 1)) p else p)
               <$> procs k) k.

(** ** The timer interrupt (trap.c), under each policy *)
Inductive policy := RR | FIFO | MLFQ.

Definition clockintr (pol : policy) (c : nat) (k : kernel) : kernel :=
  if (c =? 0)%nat then
    let k1 := wakeup (Some CTicks) (set_ticks (u32 (ticks k + 1)) k) in
    let k2 := update_time k1 in
    match pol with
    | MLFQ => if ticks k2 mod 48 =? 0 then mlfq_boost k2 else k2
    | _ => k2
    end
  else k.

(** What [kerneltrap] and the tail of [usertrap] do for a timer interrupt
    ([which_dev == 2]) once the interrupt is handled. *)
Definition timer_yield (pol : policy) (c : nat) (k : kernel) : option kernel :=
  match pol with
  | FIFO => Some k
  | MLFQ => mlfq_tick c k
  | RR => match myproc k c with Some _ => yield c k | None => Some k end
  end.

Definition timer_interrupt (pol : policy) (c : nat) (k : kernel) : option kernel :=
  timer_yield pol c (clockintr pol c k).

(** ** The chosen process

    Both scans are instances of the generic scan of the prelude, over the
    key that the policy minimises. *)
Definition runnable : proc -> bool := is_state RUNNABLE.
Definition fifo_key (p : proc) : Z * Z := (ctime p, 0).
Definition mlfq_key (p : proc) : Z * Z := (priority p, enq_time p).

Lemma runnable_true p : runnable p = true <-> state p = RUNNABLE.
Proof. unfold runnable, is_state. apply bool_decide_eq_true. Qed.

Lemma fifo_scan_pick ps : forall i best, fifo_scan i ps best = pick runnable fifo_key i ps best.
Proof.
  induction ps as [|p ps IH]; intros i best; [done|]. simpl. rewrite IH. f_equal.
  destruct best as [[n b]|]; [|done]. unfold klt; simpl. rewrite andb_false_r, orb_false_r. done.
Qed.

(** The table after a scan: every RUNNABLE process has been enqueued. *)
Definition settle (t : Z) (p : proc) : proc := if runnable p then enqueue t p else p.

Lemma enqueue_frame t p :
  state (enqueue t p) = state p /\ priority (enqueue t p) = priority p /\
  slice_used (enqueue t p) = slice_used p.
Proof. unfold enqueue. by destruct (queued p =? 0). Qed.

Lemma runnable_settle t p : runnable (settle t p) = runnable p.
Proof.
  unfold settle. destruct (runnable p) eqn:E; [|done].
  unfold runnable, is_state in *. by rewrite (proj1 (enqueue_frame t p)).
Qed.

Lemma settle_runnable t p : runnable p = true -> settle t p = enqueue t p.
Proof. unfold settle. by intros ->. Qed.

Lemma settle_other t p : runnable p = false -> settle t p = p.
Proof. unfold settle. by intros ->. Qed.

Lemma mlfq_scan_pick t ps : forall i best,
  mlfq_scan t i ps best =
  (settle t <$> ps, pick runnable mlfq_key i (settle t <$> ps) best).
Proof.
  induction ps as [|p ps IH]; intros i best; [done|]. cbn [mlfq_scan fmap list_fmap pick].
  rewrite runnable_settle. fold (runnable p).
  destruct (runnable p) eqn:Hr; rewrite IH.
  - rewrite (settle_runnable _ _ Hr). by destruct best as [[n b]|].
  - by rewrite (settle_other _ _ Hr).
Qed.

Lemma dispatch_lookup c i k j :
  procs (dispatch c i k) !! j =
  (if decide (i = j) then run_now (ticks k) <$> procs k !! j else procs k !! j).
Proof. apply (upd_lookup i (run_now (ticks k)) k j). Qed.

(** Position in the MLFQ: queue first, then time of arrival, then slot. *)
Definition queue_before (i : nat) (p : proc) (j : nat) (q : proc) : Prop :=
  priority p < priority q \/
  (priority p = priority q /\ (enq_time p < enq_time q \/ (enq_time p = enq_time q /\ (i < j)%nat))).

Lemma beats_before ps i p j q :
  beats runnable mlfq_key 0 ps i p -> ps !! i = Some p -> ps !! j = Some q -> runnable q = true ->
  i <> j -> queue_before i p j q.
Proof.
  intros Hb Hp Hq Hr Hne. destruct (Hb j q Hq Hr) as [Hle Hlt].
  unfold queue_before. rewrite klt_false in Hle. simpl in Hle.
  destruct (decide (j < i)%nat) as [Hji|Hji]; [|lia].
  specialize (Hlt ltac:(lia)). rewrite klt_true in Hlt. simpl in Hlt. lia.
Qed.

(** The promise of an MLFQ scheduling turn. *)
Definition mlfq_turn (c : nat) (k : kernel) (out : option nat * kernel) : Prop :=
  match out with
  | (None, k') => k' = k /\ forall i p, procs k !! i = Some p -> state p <> RUNNABLE
  | (Some i, k') =>
      exists p, procs k !! i = Some p /\ state p = RUNNABLE /\
        procs k' !! i = Some (run_now (ticks k) (enqueue (ticks k) p)) /\
        (forall j q, j <> i -> procs k !! j = Some q ->
           procs k' !! j = Some (settle (ticks k) q)) /\
        (forall j q, j <> i -> procs k !! j = Some q -> state q = RUNNABLE ->
           queue_before i (enqueue (ticks k) p) j (enqueue (ticks k) q)) /\
        cpu_proc k' = <[c := Some i]> (cpu_proc k)
  end.

Lemma mlfq_schedule_turn (c : nat) (k : kernel) : mlfq_turn c k (mlfq_schedule c k).
Proof.
  unfold mlfq_turn, mlfq_schedule. rewrite mlfq_scan_pick.
  pose proof (pick_spec runnable mlfq_key (settle (ticks k) <$> procs k) 0 None
    ltac:(discriminate)) as H.
  destruct (pick _ _ _ _ _) as [[i p]|].
  - destruct H as ([?|(_ & Hp & Hr)] & Hb & _); [done|]. rewrite Nat.sub_0_r in Hp.
    pose proof Hp as Hpk. rewrite list_lookup_fmap in Hpk.
    apply fmap_Some in Hpk as (p0 & Hp0 & ->). rewrite runnable_settle in Hr.
    rewrite (settle_runnable _ _ Hr) in *. exists p0. split_and!; try done.
    + by apply runnable_true.
    + rewrite dispatch_lookup; simpl. rewrite decide_True by done. by rewrite Hp.
    + intros j q Hj Hq. rewrite dispatch_lookup; simpl. rewrite decide_False by done.
      by rewrite list_lookup_fmap, Hq.
    + intros j q Hj Hq Hrq%runnable_true.
      rewrite <- (settle_runnable _ _ Hrq). eapply beats_before; eauto.
      * by rewrite list_lookup_fmap, Hq.
      * by rewrite runnable_settle.
  - destruct H as [_ Hnone].
    assert (Hn : forall i p, procs k !! i = Some p -> runnable p = false).
    { intros i p Hp. rewrite <- (runnable_settle (ticks k)). apply Hnone.
      apply list_elem_of_fmap. exists p. split; [done|]. by eapply list_elem_of_lookup_2. }
    split.
    + destruct k as [ps ? ? ? ? ?]; unfold set_procs; simpl in *. f_equal.
      apply list_eq. intros i. rewrite list_lookup_fmap.
      destruct (ps !! i) as [p|] eqn:Hp; [|done]. simpl. unfold settle. by rewrite (Hn i p Hp).
    + intros i p Hp Hr%runnable_true. by rewrite (Hn i p Hp) in Hr.
Qed.

(** An MLFQ scheduling turn runs the RUNNABLE process that comes first
    by queue, then by arrival time in the queue, then by slot; processes that
    were not queued yet first join the tail of their queue, every other slot
    is only changed by that, and the core idles only if nothing is RUNNABLE. *)
Theorem mlfq_schedule_spec (c : nat) (k : kernel) :
  match mlfq_schedule c k with
  | (None, k') => k' = k /\ forall i p, procs k !! i = Some p -> state p <> RUNNABLE
  | (Some i, k') =>
      exists p, procs k !! i = Some p /\ state p = RUNNABLE /\
        procs k' !! i = Some (run_now (ticks k) (enqueue (ticks k) p)) /\
        (forall j q, j <> i -> procs k !! j = Some q ->
           procs k' !! j = Some (settle (ticks k) q)) /\
        (forall j q, j <> i -> procs k !! j = Some q -> state q = RUNNABLE ->
           queue_before i (enqueue (ticks k) p) j (enqueue (ticks k) q)) /\
        cpu_proc k' = <[c := Some i]> (cpu_proc k)
  end.
Proof. apply mlfq_schedule_turn. Qed.

(** A FIFO scheduling turn runs the RUNNABLE process created earliest,
    the lowest slot among equals, and changes no other slot. *)
Theorem fifo_schedule_spec (c : nat) (k : kernel) :
  match fifo_schedule c k with
  | (None, k') => k' = k /\ forall i p, procs k !! i = Some p -> state p <> RUNNABLE
  | (Some i, k') =>
      exists p, procs k !! i = Some p /\ state p = RUNNABLE /\
        procs k' !! i = Some (run_now (ticks k) p) /\
        (forall j, j <> i -> procs k' !! j = procs k !! j) /\
        (forall j q, procs k !! j = Some q -> state q = RUNNABLE ->
           ctime p < ctime q \/ (ctime p = ctime q /\ (i <= j)%nat))
  end.
Proof.
  unfold fifo_schedule. rewrite fifo_scan_pick.
  pose proof (pick_spec runnable fifo_key (procs k) 0 None ltac:(discriminate)) as H.
  destruct (pick _ _ _ _ _) as [[i p]|].
  - destruct H as ([?|(_ & Hp & Hr)] & Hb & _); [done|]. rewrite Nat.sub_0_r in Hp.
    exists p. split_and!; try done.
    + by apply runnable_true.
    + rewrite dispatch_lookup, decide_True by done. by rewrite Hp.
    + intros j Hj. by rewrite dispatch_lookup, decide_False.
    + intros j q Hq Hrq%runnable_true. destruct (Hb j q Hq Hrq) as [Hle Hlt].
      rewrite klt_false in Hle. simpl in Hle. rewrite klt_true in Hlt. simpl in Hlt. lia.
  - split; [done|]. intros i p Hp Hr%runnable_true.
    destruct H as [_ H]. rewrite (H p) in Hr; [done|]. by eapply list_elem_of_lookup_2.
Qed.
