(* ===== verification/Table.v ===== *)
(** * The process table as a whole (xv6/kernel/proc.c, trap.c)

    The kernel as a machine whose events are the operations of [Proc] and
    [Sched], executed by the cores in any order; the invariant of the process
    table and its preservation by every event; absence of panics; and the
    sleep/wakeup protocol. *)
From S2P Require Import Prelude Proc Sched.
Local Open Scope Z_scope.

(** ** The machine *)
Inductive event :=
  | ETimer (c : nat)
  | ESchedule (c cursor : nat)
  | EYield (c : nat)
  | EFork (c : nat)
  | EExit (c : nat) (status : Z)
  | EWait (c : nat) (addr : Z)
  | EWaitx (c : nat) (addr rt_addr wt_addr rest_addr : Z)
  | ESleepPrepare (c : nat) (ch : channel)
  | ESleep (c : nat)
  | EWakeup (ch : channel)
  | EKill (target : Z)
  | ESetkilled (c : nat).

Definition schedule (pol : policy) (c cursor : nat) (k : kernel) : option nat * kernel :=
  match pol with
  | RR => rr_schedule c cursor k
  | FIFO => fifo_schedule c k
  | MLFQ => mlfq_schedule c k
  end.

(** The core on which an event happens, for the events a process executes. *)
Definition core_of (e : event) : option nat :=
  match e with
  | EYield c | EFork c | EExit c _ | EWait c _ | EWaitx c _ _ _ _
  | ESleepPrepare c _ | ESleep c | ESetkilled c => Some c
  | _ => None
  end.

(** An event can happen: a process event needs a process on the core, the
    scheduler only runs on a core without one. *)
Definition enabled (k : kernel) (e : event) : bool :=
  match e with
  | ESchedule c _ => (c <? length (cpu_proc k))%nat && bool_decide (myproc k c = None)
  | _ => match core_of e with
         | Some c => bool_decide (is_Some (myproc k c))
         | None => true
         end
  end.

Section Machine.
Context {W : Type} `{!ProcEnv W} (forkret_addr : Z) (pol : policy).

(** The effect of an event; [None] is a panic or a null dereference. *)
Definition step (e : event) (k : kernel) (w : W) : option (kernel * W) :=
  match e with
  | ETimer c => (., w) <$> timer_interrupt pol c k
  | ESchedule c cursor => Some ((schedule pol c cursor k).2, w)
  | EYield c => (., w) <$> yield c k
  | EFork c => r ← kfork forkret_addr c k w; Some (r.1.2, r.2)
  | EExit c status => kexit c status k w
  | EWait c addr => r ← kwait c addr k w; Some (r.1.2, r.2)
  | EWaitx c a1 a2 a3 a4 => r ← kwaitx c a1 a2 a3 a4 k w; Some (r.1.2, r.2)
  | ESleepPrepare c ch => (., w) <$> sleep_prepare c (Some ch) k
  | ESleep c => (., w) <$> sleep c k
  | EWakeup ch => Some (wakeup (Some ch) k, w)
  | EKill target => Some ((kkill target k).2, w)
  | ESetkilled c => me ← myproc k c; Some (setkilled me k, w)
  end.

Fixpoint run (es : list event) (k : kernel) (w : W) : option (kernel * W) :=
  match es with
  | [] => Some (k, w)
  | e :: es' =>
      if enabled k e then '(k', w') ← step e k w; run es' k' w' else None
  end.
End Machine.

(** ** The invariant *)
Definition mlfq_ok (p : proc) : Prop :=
  0 <= priority p /\
  exists s, mlfq_slice !! Z.to_nat (priority p) = Some s /\ 0 <= slice_used p < s.

(** No file and no directory is open. *)
Definition closed (p : proc) : Prop := Forall (fun f => f = None) (ofile p) /\ cwd p = None.

Inductive life := Free | Embryo | Alive | Dead.
Definition life_of (p : proc) : life :=
  match state p with
  | UNUSED => Free | USED => Embryo | ZOMBIE => Dead
  | SLEEPING | RUNNABLE | RUNNING => Alive
  end.

Definition slot_ok (np : Z) (init : option nat) (i : nat) (p : proc) : Prop :=
  mlfq_ok p /\ length (ofile p) = NOFILE /\
  (state p = SLEEPING -> chan p <> None) /\
  match life_of p with
  | Free => pid p = 0 /\ parent p = None /\ chan p = None /\ pagetable p = None /\
            trapframe p = None /\ closed p
  | Embryo => False
  | Alive => 0 < pid p < np /\ (init = Some i \/ parent p <> None) /\
             pagetable p <> None /\ trapframe p <> None /\ cwd p <> None
  | Dead => 0 < pid p < np /\ init <> Some i /\ parent p <> None /\ closed p
  end.

(** Cores and RUNNING processes are in bijection. *)
Record cpus_ok (k : kernel) : Prop := {
  on_cpu : forall i p, procs k !! i = Some p ->
    state p = RUNNING <-> exists c, cpu_proc k !! c = Some (Some i);
  cpu_inj : forall i c c', cpu_proc k !! c = Some (Some i) ->
    cpu_proc k !! c' = Some (Some i) -> c = c';
  cpu_range : forall i c, cpu_proc k !! c = Some (Some i) -> (i < length (procs k))%nat;
  cpus_len : length (cpu_proc k) = NCPU
}.

Record table_ok (k : kernel) : Prop := {
  procs_len : length (procs k) = NPROC;
  slots_ok : forall i p, procs k !! i = Some p -> slot_ok (nextpid k) (initproc k) i p;
  pid_inj : forall i j p q, procs k !! i = Some p -> procs k !! j = Some q ->
    pid p <> 0 -> pid p = pid q -> i = j;
  parent_alive : forall i j p, procs k !! i = Some p -> parent p = Some j ->
    exists q, procs k !! j = Some q /\ life_of q = Alive;
  init_alive : exists j q, initproc k = Some j /\ procs k !! j = Some q /\ life_of q = Alive;
  nextpid_pos : 0 < nextpid k < 2 ^ 31;
  running_ok : cpus_ok k
}.

(** ** Changes that keep every process's identity and resources *)
Definition keeps (p p' : proc) : Prop :=
  pid p' = pid p /\ parent p' = parent p /\ pagetable p' = pagetable p /\
  trapframe p' = trapframe p /\ ofile p' = ofile p /\ cwd p' = cwd p /\
  life_of p' = life_of p /\
  (state p' = SLEEPING -> chan p' <> None) /\ (life_of p = Free -> chan p = None -> chan p' = None) /\
  mlfq_ok p'.

(** Slot by slot, [k'] is related to [k]. *)
Definition pointwise (R : nat -> proc -> proc -> Prop) (k k' : kernel) : Prop :=
  length (procs k') = length (procs k) /\
  forall i p, procs k !! i = Some p -> exists p', procs k' !! i = Some p' /\ R i p p'.

Lemma pointwise_inv R k k' i p' :
  pointwise R k k' -> procs k' !! i = Some p' ->
  exists p, procs k !! i = Some p /\ R i p p'.
Proof.
  intros [Hl H] Hp'. destruct (procs k !! i) as [p|] eqn:Hp.
  - destruct (H i p Hp) as (q & Hq & HR). exists p. split; [done|]. by simplify_eq.
  - apply lookup_ge_None in Hp. apply lookup_lt_Some in Hp'. lia.
Qed.

Lemma pointwise_upd (R : nat -> proc -> proc -> Prop) i f k :
  (forall p, get k i = Some p -> R i p (f p)) ->
  (forall j p, j <> i -> procs k !! j = Some p -> R j p p) ->
  pointwise R k (upd i f k).
Proof.
  intros Hi Hj. split; [apply upd_length|]. intros j p Hp.
  destruct (decide (i = j)) as [<-|Hne].
  - exists (f p). split; [by apply upd_lookup_eq | by apply Hi].
  - exists p. split; [by rewrite upd_lookup_ne | by apply Hj; auto].
Qed.

Lemma pointwise_map (R : nat -> proc -> proc -> Prop) f k :
  (forall i p, procs k !! i = Some p -> R i p (f p)) -> pointwise R k (set_procs (f <$> procs k) k).
Proof.
  intros H. split; [apply length_fmap|]. intros i p Hp. exists (f p). simpl.
  rewrite list_lookup_fmap, Hp. auto.
Qed.

Lemma table_ok_keeps k k' :
  table_ok k -> pointwise (fun _ => keeps) k k' ->
  nextpid k <= nextpid k' < 2 ^ 31 -> initproc k' = initproc k -> cpus_ok k' ->
  table_ok k'.
Proof.
  intros [Hlen Hs Hpid Hpar Hinit Hnp _] Hk Hn Hi Hc.
  assert (Hfwd := proj2 Hk). assert (Hbwd := fun i p' => pointwise_inv _ _ _ i p' Hk).
  constructor; auto.
  - by rewrite (proj1 Hk).
  - intros i p' (p & Hp & H)%Hbwd. specialize (Hs i p Hp). rewrite Hi.
    destruct H as (E1 & E2 & E3 & E4 & E5 & E6 & E7 & Hsl & Hch & Hm).
    destruct Hs as (_ & Hof & _ & Hl). unfold slot_ok, closed in *.
    rewrite E1, E2, E3, E4, E5, E6, E7 in *. split_and!; auto.
    destruct (life_of p); intuition (congruence || lia).
  - intros i j p' q' (p & Hp & H)%Hbwd (q & Hq & H')%Hbwd.
    rewrite (proj1 H), (proj1 H'). eauto.
  - intros i j p' (p & Hp & H)%Hbwd E. destruct H as (_ & E2 & _). rewrite E2 in E.
    destruct (Hpar i j p Hp E) as (q & Hq & Hl). destruct (Hfwd j q Hq) as (q' & Hq' & H').
    exists q'. split; [done|]. destruct H' as (_ & _ & _ & _ & _ & _ & -> & _). done.
  - destruct Hinit as (j & q & Hj & Hq & Hl). destruct (Hfwd j q Hq) as (q' & Hq' & H').
    exists j, q'. split_and!; [congruence | done |]. by destruct H' as (_ & _ & _ & _ & _ & _ & -> & _).
  - lia.
Qed.

(** *** Cores *)
Definition same_running (_ : nat) (p p' : proc) : Prop := state p' = RUNNING <-> state p = RUNNING.

Lemma cpus_ok_same k k' :
  cpus_ok k -> pointwise same_running k k' -> cpu_proc k' = cpu_proc k -> cpus_ok k'.
Proof.
  intros [Ho Hi Hr Hl] Hp E. constructor; rewrite E; auto.
  - intros i p' (p & Hq & H)%(pointwise_inv _ _ _ _ _ Hp).
    unfold same_running in H. rewrite H. by apply Ho.
  - rewrite (proj1 Hp). done.
Qed.

Definition same_running_but (i j : nat) (p p' : proc) : Prop :=
  if decide (j = i) then True else state p' = RUNNING <-> state p = RUNNING.

Lemma same_running_but_other i j p : j <> i -> same_running_but i j p p.
Proof. intros. unfold same_running_but. by rewrite decide_False. Qed.

Lemma same_running_but_self i p p' : same_running_but i i p p'.
Proof. unfold same_running_but. by rewrite decide_True. Qed.
#[local] Hint Resolve same_running_but_other same_running_but_self : core.

Lemma cpus_ok_on c i p' k k' :
  cpus_ok k -> cpu_proc k !! c = Some None -> (forall p, procs k !! i = Some p -> state p <> RUNNING) ->
  pointwise (same_running_but i) k k' -> procs k' !! i = Some p' -> state p' = RUNNING ->
  cpu_proc k' = <[c := Some i]> (cpu_proc k) -> cpus_ok k'.
Proof.
  intros [Ho Hi Hr Hl] Hc Hn Hp Hp' Hs E.
  assert (Hlt : (c < length (cpu_proc k))%nat) by (by eapply lookup_lt_Some).
  assert (Hfresh : forall d, cpu_proc k !! d <> Some (Some i)).
  { intros d Hd. destruct (pointwise_inv _ _ _ _ _ Hp Hp') as (p & Hpk & _).
    apply (Hn p Hpk). apply (Ho i p Hpk). eauto. }
  constructor; rewrite E.
  - intros j q' Hq'. destruct (decide (j = i)) as [->|Hne].
    + simplify_eq. split; [|done]. intros _. exists c. by apply list_lookup_insert_eq.
    + destruct (pointwise_inv _ _ _ _ _ Hp Hq') as (q & Hq & H).
      unfold same_running_but in H. rewrite decide_False in H by done. rewrite H, (Ho j q Hq).
      split; intros [d Hd]; exists d; rewrite list_lookup_insert in *; repeat case_decide; naive_solver.
  - intros j d d'. rewrite !list_lookup_insert. repeat case_decide; naive_solver.
  - intros j d. rewrite list_lookup_insert, (proj1 Hp). case_decide; [|by eauto].
    intros [= <-]. apply lookup_lt_Some in Hp'. rewrite (proj1 Hp) in Hp'. done.
  - by rewrite length_insert.
Qed.

Lemma cpus_ok_off c i k k' :
  cpus_ok k -> cpu_proc k !! c = Some (Some i) ->
  pointwise (same_running_but i) k k' ->
  (forall p', procs k' !! i = Some p' -> state p' <> RUNNING) ->
  cpu_proc k' = <[c := None]> (cpu_proc k) -> cpus_ok k'.
Proof.
  intros [Ho Hi Hr Hl] Hc Hp Hn E.
  assert (Hlt : (c < length (cpu_proc k))%nat) by (by eapply lookup_lt_Some).
  constructor; rewrite E.
  - intros j q' Hq'. destruct (decide (j = i)) as [->|Hne].
    + split; [by intros ?%(Hn _ Hq')|]. intros [d Hd]. rewrite list_lookup_insert in Hd.
      case_decide; [naive_solver|]. destruct (Hi i c d Hc Hd). naive_solver.
    + destruct (pointwise_inv _ _ _ _ _ Hp Hq') as (q & Hq & H).
      unfold same_running_but in H. rewrite decide_False in H by done. rewrite H, (Ho j q Hq).
      split; intros [d Hd]; exists d; rewrite list_lookup_insert in *; repeat case_decide; naive_solver.
  - intros j d d'. rewrite !list_lookup_insert. repeat case_decide; naive_solver.
  - intros j d. rewrite list_lookup_insert, (proj1 Hp). case_decide; naive_solver.
  - by rewrite length_insert.
Qed.

(** ** Operations that only move a process between SLEEPING, RUNNABLE and RUNNING *)

(** A process that runs, at index [i] of core [c]. *)
Lemma table_running k c i :
  table_ok k -> myproc k c = Some i ->
  exists p, get k i = Some p /\ state p = RUNNING /\ cpu_proc k !! c = Some (Some i).
Proof.
  intros H Hc%myproc_Some. destruct (running_ok k H) as [Ho _ Hr _].
  destruct (lookup_lt_is_Some_2 (procs k) i) as [p Hp]; [by eapply Hr|].
  exists p. split_and!; auto. apply (Ho i p Hp). eauto.
Qed.

Lemma keeps_refl np init i p : slot_ok np init i p -> keeps p p.
Proof. intros (? & ? & ? & _). unfold keeps. by split_and!. Qed.

Section Moves.
Context (k : kernel) (Hk : table_ok k).

Lemma slot_keeps i p : procs k !! i = Some p -> keeps p p.
Proof. intros Hp. eapply keeps_refl. by apply slots_ok. Qed.

Lemma slot_mlfq i p : procs k !! i = Some p -> mlfq_ok p.
Proof. intros Hp. by destruct (slots_ok k Hk i p Hp). Qed.

Lemma slot_chan i p : procs k !! i = Some p -> state p = SLEEPING -> chan p <> None.
Proof. intros Hp. by destruct (slots_ok k Hk i p Hp) as (_ & _ & ? & _). Qed.

(** An update of one slot that changes neither identity nor RUNNING. *)
Lemma upd_ok i f :
  (forall p, get k i = Some p -> keeps p (f p) /\ same_running i p (f p)) ->
  table_ok (upd i f k).
Proof.
  intros H. apply (table_ok_keeps k); try done.
  - apply pointwise_upd; [by apply H | intros j p _; apply slot_keeps].
  - simpl. pose proof (nextpid_pos k Hk). lia.
  - apply (cpus_ok_same k); [by apply running_ok | | done].
    apply pointwise_upd; [by apply H | done].
Qed.

Lemma map_ok f :
  (forall i p, procs k !! i = Some p -> keeps p (f p) /\ same_running i p (f p)) ->
  table_ok (set_procs (f <$> procs k) k).
Proof.
  intros H. apply (table_ok_keeps k); try done.
  - apply pointwise_map. intros i p Hp. by apply (H i).
  - simpl. pose proof (nextpid_pos k Hk). lia.
  - apply (cpus_ok_same k); [by apply running_ok | | done].
    apply pointwise_map. intros i p Hp. by apply (H i).
Qed.

(** The process on core [c] leaves it, in a state that is not RUNNING. *)
Lemma leave_ok c i f :
  myproc k c = Some i ->
  (forall p, get k i = Some p -> state p = RUNNING -> keeps p (f p) /\ state (f p) <> RUNNING) ->
  table_ok (cpu_clear c (upd i f k)) /\ sched c (upd i f k) = Some (cpu_clear c (upd i f k)).
Proof.
  intros Hc H. destruct (table_running k c i Hk Hc) as (p & Hp & Hr & Hcpu).
  destruct (H p Hp Hr) as [Hkeep Hne]. split.
  - apply (table_ok_keeps k); try done.
    + apply (pointwise_upd (fun _ => keeps)); [by intros q Hq; simplify_eq | intros j q _; apply slot_keeps].
    + simpl. pose proof (nextpid_pos k Hk). lia.
    + apply (cpus_ok_off c i k); try done; [by apply running_ok | |].
      * by apply (pointwise_upd (same_running_but i)); auto.
      * intros q Hq. pose proof (upd_lookup_eq i f k p Hp). simplify_eq/=. congruence.
  - unfold sched. assert (E : myproc (upd i f k) c = Some i) by done.
    rewrite E. simpl. unfold get. rewrite (upd_lookup_eq i f k p Hp). simpl.
    destruct (is_state RUNNING (f p)) eqn:Es; [|done]. by apply is_state_true in Es.
Qed.

(** A RUNNABLE process gets the idle core [c]. *)
Lemma dispatch_ok c i p :
  get k i = Some p -> state p = RUNNABLE -> cpu_proc k !! c = Some None ->
  table_ok (dispatch c i k).
Proof.
  intros Hp Hs Hc.
  assert (Hf : keeps p (run_now (ticks k) p)).
  { pose proof (slot_keeps i p Hp) as Hkp. unfold run_now, keeps, mlfq_ok, life_of in *.
    destruct (first_run p <? 0); simpl; rewrite Hs in *; naive_solver. }
  apply (table_ok_keeps k); try done.
  - apply (pointwise_upd (fun _ => keeps)); [by intros q Hq; simplify_eq | intros j q _; apply slot_keeps].
  - simpl. pose proof (nextpid_pos k Hk). lia.
  - apply (cpus_ok_on c i (run_now (ticks k) p) k); try done; [by apply running_ok | | |].
    + intros q Hq. unfold get in Hp. simplify_eq. by rewrite Hs.
    + by apply (pointwise_upd (same_running_but i)); auto.
    + by apply upd_lookup_eq.
Qed.
End Moves.

(** *** Events that keep identities *)
Lemma table_ok_frame k k' :
  procs k' = procs k -> nextpid k' = nextpid k -> initproc k' = initproc k ->
  cpu_proc k' = cpu_proc k -> table_ok k -> table_ok k'.
Proof.
  intros E1 E2 E3 E4 [? ? ? ? ? ? [? ? ? ?]].
  constructor; rewrite ?E1, ?E2, ?E3; auto. constructor; rewrite ?E1, ?E4; auto.
Qed.

Lemma wakeup_one_keeps ch p :
  keeps p p -> keeps p (wakeup_one ch p) /\ forall i, same_running i p (wakeup_one ch p).
Proof.
  intros H. unfold wakeup_one, is_state. case_bool_decide; [|done].
  case_bool_decide as Hs; simpl in *; unfold keeps, same_running, life_of, mlfq_ok in *; simpl in *.
  - rewrite Hs in *. intuition congruence.
  - destruct (state p); intuition congruence.
Qed.

Lemma wakeup_ok ch k : table_ok k -> table_ok (wakeup ch k).
Proof.
  intros Hk. apply map_ok; [done|]. intros i p Hp.
  destruct (wakeup_one_keeps ch p (slot_keeps k Hk i p Hp)). auto.
Qed.

Lemma update_time_ok k : table_ok k -> table_ok (update_time k).
Proof.
  intros Hk. apply map_ok; [done|]. intros i p Hp. pose proof (slot_keeps k Hk i p Hp).
  by destruct (is_state RUNNING p).
Qed.

Lemma mlfq_ok_0 p : priority p = 0 -> slice_used p = 0 -> mlfq_ok p.
Proof. intros E1 E2. unfold mlfq_ok. rewrite E1, E2. split; [lia|]. exists 1. simpl. split; [done|lia]. Qed.

Lemma mlfq_boost_ok k : table_ok k -> table_ok (mlfq_boost k).
Proof.
  intros Hk. apply (table_ok_frame (set_procs (boost_one <$> procs k) k)); try done.
  apply map_ok; [done|]. intros i p Hp. pose proof (slot_keeps k Hk i p Hp) as H.
  unfold boost_one. destruct (negb _); [|done]. split; [|done].
  destruct H as (? & ? & ? & ? & ? & ? & ? & ? & ? & _).
  split_and!; auto using mlfq_ok_0.
Qed.

Lemma clockintr_ok pol c k : table_ok k -> table_ok (clockintr pol c k).
Proof.
  intros Hk. unfold clockintr. destruct (c =? 0)%nat; [|done].
  set (k1 := wakeup (Some CTicks) (set_ticks (u32 (ticks k + 1)) k)).
  assert (H1 : table_ok (update_time k1)).
  { apply update_time_ok, wakeup_ok. by apply (table_ok_frame k). }
  destruct pol; auto. destruct (_ =? 0); auto using mlfq_boost_ok.
Qed.

Lemma yield_ok c k i :
  table_ok k -> myproc k c = Some i ->
  yield c k = Some (cpu_clear c (upd i (set_state RUNNABLE) k)) /\
  table_ok (cpu_clear c (upd i (set_state RUNNABLE) k)).
Proof.
  intros Hk Hc. unfold yield. rewrite Hc. simpl. apply and_comm.
  apply leave_ok; [done..|]. intros p Hp Hr. pose proof (slot_keeps k Hk i p Hp).
  unfold keeps, life_of in *. simpl in *. rewrite Hr in *. split; [|done].
  intuition congruence.
Qed.

(** Charging a tick: never out of the slice table, and within the slice. *)
Lemma charge_ok t p :
  mlfq_ok p -> exists e p', charge t p = Some (e, p') /\ mlfq_ok p' /\
    (p' = set_slice_used (slice_used p + 1) p \/
     exists q, p' = set_enq_time t (set_slice_used 0 (set_priority q p))).
Proof.
  intros (Hp0 & s & Hs & Hu). unfold charge. simpl.
  assert (Hp : priority p = 0 \/ priority p = 1 \/ priority p = 2 \/ priority p = 3).
  { apply lookup_lt_Some in Hs. simpl in Hs. lia. }
  assert (Hsl : s <= 16) by (destruct Hp as [Hp|[Hp|[Hp|Hp]]]; rewrite Hp in Hs; injection Hs; lia).
  rewrite (i32_id (slice_used p + 1)) by (unfold in_i32; lia).
  rewrite (proj2 (Z.ltb_ge (priority p) 0)) by lia. rewrite Hs. simpl.
  destruct (Z.leb_spec s (slice_used p + 1)).
  - eexists _, _. split; [done|]. split.
    + destruct Hp as [Hp|[Hp|[Hp|Hp]]]; rewrite Hp; unfold mlfq_ok; simpl; rewrite ?Hp;
        (split; [by vm_compute | eexists; split; [by vm_compute | lia]]).
    + right. destruct (priority p <? 3); [eexists; reflexivity | exists (priority p); by destruct p].
  - eexists _, _. split; [done|]. split; [|by left]. unfold mlfq_ok. simpl. eauto with lia.
Qed.

Lemma charged_ok t k i p e p' :
  table_ok k -> get k i = Some p -> charge t p = Some (e, p') -> table_ok (upd i (const p') k).
Proof.
  intros Hk Hp Hc. apply upd_ok; [done|]. intros q Hq. simplify_eq/=.
  pose proof (slot_keeps k Hk i p Hp) as H.
  destruct (charge_ok t p (slot_mlfq k Hk i p Hp)) as (e' & p'' & Hc' & Hm & Hf). simplify_eq.
  unfold keeps, same_running, life_of in *.
  destruct Hf as [->|[r ->]]; simpl in *; intuition congruence.
Qed.

Lemma mlfq_tick_ok c k : table_ok k -> exists k', mlfq_tick c k = Some k' /\ table_ok k'.
Proof.
  intros Hk. unfold mlfq_tick. destruct (myproc k c) as [i|] eqn:Hc; [|eauto].
  destruct (table_running k c i Hk Hc) as (p & Hp & _ & _). rewrite Hp. simpl.
  destruct (charge_ok (ticks k) p (slot_mlfq k Hk i p Hp)) as (e & p' & He & _). rewrite He. simpl.
  assert (Hk1 := charged_ok _ k i p e p' Hk Hp He).
  destruct (e || _); [|eauto].
  destruct (yield_ok c (upd i (const p') k) i Hk1 Hc) as [Hy Hok]. eauto.
Qed.

Lemma clockintr_cpu pol c k : cpu_proc (clockintr pol c k) = cpu_proc k.
Proof. unfold clockintr. destruct (c =? 0)%nat; [|done]. destruct pol; try done. by destruct (_ =? 0). Qed.

Lemma timer_interrupt_ok pol c k :
  table_ok k -> exists k', timer_interrupt pol c k = Some k' /\ table_ok k'.
Proof.
  intros Hk. apply (clockintr_ok pol c) in Hk. unfold timer_interrupt, timer_yield. destruct pol.
  - destruct (myproc (clockintr RR c k) c) as [i|] eqn:Hc; [|eauto].
    destruct (yield_ok c _ i Hk Hc) as [Hy Hok]. eauto.
  - eauto.
  - by apply mlfq_tick_ok.
Qed.

Lemma settle_keeps t p : keeps p p -> keeps p (settle t p) /\ forall i, same_running i p (settle t p).
Proof. intros H. unfold settle, enqueue. destruct (runnable p); [|done]. by destruct (queued p =? 0). Qed.

Lemma schedule_ok pol c cursor k :
  table_ok k -> cpu_proc k !! c = Some None -> table_ok (schedule pol c cursor k).2.
Proof.
  intros Hk Hc. destruct pol; simpl.
  - unfold rr_schedule, rr_next.
    destruct (find_index _ (drop cursor (procs k))) as [j|] eqn:Hf; [|done].
    apply find_index_Some in Hf as [(p & Hp & Hr) _]. rewrite lookup_drop in Hp.
    apply is_state_true in Hr. by eapply dispatch_ok.
  - unfold fifo_schedule. rewrite fifo_scan_pick.
    pose proof (pick_spec runnable fifo_key (procs k) 0 None ltac:(discriminate)) as H.
    destruct (pick _ _ _ _ _) as [[i p]|]; [|done].
    destruct H as ([?|(_ & Hp & Hr)] & _); [done|]. rewrite Nat.sub_0_r in Hp.
    apply runnable_true in Hr. by eapply dispatch_ok.
  - unfold mlfq_schedule. rewrite mlfq_scan_pick.
    assert (Hk1 : table_ok (set_procs (settle (ticks k) <$> procs k) k)).
    { apply map_ok; [done|]. intros i p Hp.
      destruct (settle_keeps (ticks k) p (slot_keeps k Hk i p Hp)). auto. }
    pose proof (pick_spec runnable mlfq_key (settle (ticks k) <$> procs k) 0 None
      ltac:(discriminate)) as H.
    destruct (pick _ _ _ _ _) as [[i p]|]; [|done].
    destruct H as ([?|(_ & Hp & Hr)] & _); [done|]. rewrite Nat.sub_0_r in Hp.
    apply runnable_true in Hr. by eapply dispatch_ok.
Qed.

Lemma sleep_prepare_ok c ch k i :
  table_ok k -> myproc k c = Some i ->
  sleep_prepare c (Some ch) k = Some (upd i (set_chan (Some ch)) k) /\
  table_ok (upd i (set_chan (Some ch)) k).
Proof.
  intros Hk Hc. unfold sleep_prepare. rewrite Hc. split; [done|].
  apply upd_ok; [done|]. intros p Hp.
  destruct (table_running k c i Hk Hc) as (q & Hq & Hr & _). simplify_eq.
  pose proof (slot_keeps k Hk i p Hp). unfold keeps, same_running, life_of, mlfq_ok in *. simpl.
  rewrite Hr in *. intuition congruence.
Qed.

Lemma sleep_ok c k i :
  table_ok k -> myproc k c = Some i -> exists k', sleep c k = Some k' /\ table_ok k' /\
    (k' = k \/ k' = cpu_clear c (upd i (set_state SLEEPING) k)).
Proof.
  intros Hk Hc. unfold sleep. rewrite Hc. simpl.
  destruct (table_running k c i Hk Hc) as (p & Hp & Hr & _). rewrite Hp. simpl.
  destruct (chan p) as [ch|] eqn:Hch; [|eauto].
  destruct (leave_ok k Hk c i (set_state SLEEPING) Hc) as [Hok Hs]; [|rewrite Hs; eauto].
  intros q Hq _. simplify_eq.
  pose proof (slot_keeps k Hk i p Hp). unfold keeps, life_of in *. simpl. rewrite Hr in *.
  intuition congruence.
Qed.

Lemma kkill_ok target k : table_ok k -> table_ok (kkill target k).2.
Proof.
  intros Hk. unfold kkill. destruct (find_index _ _) as [i|]; [|done]. simpl.
  apply upd_ok; [done|]. intros p Hp. pose proof (slot_keeps k Hk i p Hp).
  unfold is_state. simpl. case_bool_decide as Hs; unfold keeps, same_running, life_of, mlfq_ok in *; simpl;
    rewrite ?Hs in *; intuition congruence.
Qed.

Lemma setkilled_ok i k : table_ok k -> table_ok (setkilled i k).
Proof.
  intros Hk. apply upd_ok; [done|]. intros p Hp. by pose proof (slot_keeps k Hk i p Hp).
Qed.
