(* ===== verification/Lifecycle.v ===== *)
(** * Fork, exit and wait (xv6/kernel/proc.c)

    The three operations that create, end and reap processes preserve the
    table invariant and never panic or dereference a null pointer, which
    completes the safety theorems of the process machine. *)
From S2P Require Import Prelude Proc Sched Table.
Local Open Scope Z_scope.

Section Lifecycle.
Context {W : Type} `{!ProcEnv W} (forkret_addr : Z).

(** ** Allocation *)

(** A slot just returned by [allocproc], from the free slot [p]. *)
Definition embryo (k : kernel) (p np : proc) : Prop :=
  state np = USED /\ pid np = nextpid k /\ parent np = parent p /\ chan np = chan p /\
  killed np = killed p /\ ofile np = ofile p /\ cwd np = cwd p /\
  is_Some (trapframe np) /\ is_Some (pagetable np) /\
  priority np = 0 /\ slice_used np = 0 /\ queued np = 0 /\ ctime np = ticks k /\
  rtime np = 0 /\ first_run np = -1 /\ enq_time np = ticks k.

(** A slot given back by [freeproc]. *)
Definition freed (p np : proc) : Prop :=
  state np = UNUSED /\ pid np = 0 /\ parent np = parent p /\ chan np = None /\
  killed np = 0 /\ ofile np = ofile p /\ cwd np = cwd p /\
  trapframe np = None /\ pagetable np = None /\
  priority np = priority p /\ slice_used np = slice_used p /\ enq_time np = enq_time p.

Lemma freeproc_put i p k w :
  get k i = Some p -> exists np w', freeproc i k w = (put i np k, w') /\ freed p np.
Proof.
  intros H. unfold freeproc. rewrite H. rewrite (upd_put i _ k p H).
  eexists _, _. split; [reflexivity|]. done.
Qed.

Lemma allocproc_cases k w :
  match allocproc forkret_addr k w with
  | (None, k', w') =>
      k' = k \/ exists i p np, get k i = Some p /\ state p = UNUSED /\
        k' = put i np (set_nextpid (i32 (nextpid k + 1)) k) /\
        freed (set_enq_time (ticks k) (set_slice_used 0 (set_priority 0 p))) np
  | (Some i, k', w') => exists p np, find_index (is_state UNUSED) (procs k) = Some i /\
      get k i = Some p /\ state p = UNUSED /\
      k' = put i np (set_nextpid (i32 (nextpid k + 1)) k) /\ embryo k p np
  end.
Proof.
  unfold allocproc. destruct (find_index _ _) as [i|] eqn:Hf; [|by left].
  pose proof Hf as [(p & Hp & Hs%is_state_true) _]%find_index_Some.
  simpl. set (k0 := set_nextpid (i32 (nextpid k + 1)) k). assert (H0 : get k0 i = Some p) by done.
  rewrite (upd_put i _ k0 p H0).
  set (p1 := init_sched _ _). assert (H1 : get (put i p1 k0) i = Some p1) by (by eapply get_put).
  destruct (kalloc w) as [[pa|] w1].
  - rewrite (upd_put i _ _ p1 H1), put_put. set (p2 := set_trapframe _ p1).
    assert (H2 : get (put i p2 k0) i = Some p2) by (by eapply get_put).
    destruct (proc_pagetable pa w1) as [[pt|] w2].
    + rewrite (upd_put i _ _ p2 H2), put_put. exists p. eexists. split_and!; try done.
    + rewrite (upd_put i _ _ p2 H2), put_put. set (p3 := set_pagetable None p2).
      destruct (freeproc_put i p3 (put i p3 k0) w2 ltac:(by eapply get_put)) as (np & w3 & -> & Hn).
      rewrite put_put. right. exists i, p, np. done.
  - destruct (freeproc_put i p1 (put i p1 k0) w1 H1) as (np & w3 & -> & Hn).
    rewrite put_put. right. exists i, p, np. done.
Qed.

Lemma free_slot k i p :
  table_ok k -> get k i = Some p -> state p = UNUSED ->
  pid p = 0 /\ parent p = None /\ chan p = None /\ pagetable p = None /\ trapframe p = None /\
  closed p /\ length (ofile p) = NOFILE.
Proof.
  intros Hk Hp Hs. destruct (slots_ok k Hk i p Hp) as (_ & Hl & _ & H).
  unfold life_of in H. rewrite Hs in H. naive_solver.
Qed.

(** A free slot is not on a core, so rewriting it leaves the cores alone. *)
Lemma put_cpus k n i p np :
  table_ok k -> get k i = Some p -> state p <> RUNNING -> state np <> RUNNING ->
  cpus_ok (put i np (set_nextpid n k)).
Proof.
  intros Hk Hp Hs Hn. apply (cpus_ok_same k); [by apply running_ok| |done].
  apply (pointwise_upd same_running i (const np) (set_nextpid n k)); [|done].
  intros q Hq. assert (q = p) as -> by (unfold get in *; simpl in *; congruence). by split.
Qed.

Lemma failed_ok k n i p np :
  table_ok k -> get k i = Some p -> state p = UNUSED ->
  freed (set_enq_time (ticks k) (set_slice_used 0 (set_priority 0 p))) np -> nextpid k <= n < 2 ^ 31 ->
  table_ok (put i np (set_nextpid n k)).
Proof.
  intros Hk Hp Hs Hf Hn. destruct (free_slot k i p Hk Hp Hs) as (?&?&?&?&?&?&?).
  destruct Hf as (E1&E2&E3&E4&E5&E6&E7&E8&E9&E10&E11&E12); simpl in *.
  apply (table_ok_keeps k); try done.
  - apply (pointwise_upd (fun _ => keeps) i (const np) (set_nextpid n k)).
    + intros q Hq. assert (q = p) as -> by (unfold get in *; simpl in *; congruence).
      unfold keeps, life_of; simpl. rewrite E1, Hs. split_and!; try congruence. by apply mlfq_ok_0.
    + intros j q _ Hq. by apply (slot_keeps k Hk j).
  - eapply put_cpus; eauto; congruence.
Qed.

(** A complete new process, child of the living process [me]. *)
Definition newborn (k : kernel) (me : nat) (np : proc) : Prop :=
  state np = RUNNABLE /\ pid np = nextpid k /\ parent np = Some me /\
  is_Some (pagetable np) /\ is_Some (trapframe np) /\ is_Some (cwd np) /\
  priority np = 0 /\ slice_used np = 0 /\ length (ofile np) = NOFILE.

Lemma newborn_slot k me i np n init :
  newborn k me np -> 0 < nextpid k < n -> slot_ok n init i np.
Proof.
  intros (E1 & E2 & E3 & [? E4] & [? E5] & [? E6] & E7 & E8 & E9) Hn.
  unfold slot_ok, life_of. rewrite E1, E2, E3, E4, E5, E6.
  split_and!; auto using mlfq_ok_0; try done; try lia.
Qed.

Lemma slot_ok_mono np np' init i p : np <= np' -> slot_ok np init i p -> slot_ok np' init i p.
Proof. unfold slot_ok. intros Hn. destruct (life_of p); intuition lia. Qed.

Lemma newborn_ok k me q i p np :
  table_ok k -> get k i = Some p -> state p = UNUSED -> nextpid k < 2 ^ 31 - 1 ->
  get k me = Some q -> life_of q = Alive -> newborn k me np ->
  table_ok (put i np (set_nextpid (nextpid k + 1) k)).
Proof.
  intros Hk Hp Hs Hn Hq Hl Hnew. set (k' := put _ _ _).
  pose proof (nextpid_pos k Hk) as Hpos.
  assert (Hne : forall j r, procs k !! j = Some r -> life_of r = Alive -> j <> i).
  { intros j r Hr Ha ->. unfold get in Hp. simplify_eq. unfold life_of in Ha. by rewrite Hs in Ha. }
  assert (Hi : procs k' !! i = Some np) by (by apply (get_put i p)).
  assert (Ho : forall j, j <> i -> procs k' !! j = procs k !! j)
    by (intros j Hj; by apply (upd_lookup_ne i _ (set_nextpid (nextpid k + 1) k) j)).
  assert (Hpid : forall j r, procs k !! j = Some r -> pid r <> nextpid k).
  { intros j r Hr. destruct (slots_ok k Hk j r Hr) as (_ & _ & _ & Hlr).
    destruct (life_of r); intuition lia. }
  pose proof Hnew as (E1 & E2 & E3 & Hrest). constructor.
  - unfold k', put. rewrite upd_length. apply (procs_len k Hk).
  - intros j r Hr. destruct (decide (j = i)) as [->|Hj].
    + simplify_eq. eapply newborn_slot; [exact Hnew | simpl; lia].
    + rewrite Ho in Hr by done. eapply slot_ok_mono; [|by apply (slots_ok k Hk)]. simpl; lia.
  - intros a b r s Hr Hb Hnz E.
    destruct (decide (a = i)) as [->|Ha], (decide (b = i)) as [->|Hb']; try done.
    + rewrite Ho in Hb by done. simplify_eq. destruct (Hpid b s Hb). congruence.
    + rewrite Ho in Hr by done. simplify_eq. destruct (Hpid a r Hr). congruence.
    + rewrite Ho in Hr, Hb by done. by eapply (pid_inj k Hk).
  - intros a b r Hr E.
    assert (H : exists s, procs k !! b = Some s /\ life_of s = Alive).
    { destruct (decide (a = i)) as [->|Ha]; [simplify_eq; eauto|].
      rewrite Ho in Hr by done. by eapply (parent_alive k Hk). }
    destruct H as (s & Hs' & Ha). exists s. rewrite Ho by eauto. done.
  - destruct (init_alive k Hk) as (j & r & Hj & Hr & Ha). exists j, r. rewrite Ho by eauto. done.
  - simpl. lia.
  - eapply put_cpus; eauto; congruence.
Qed.

Lemma copy_files_closed fs gs :
  length gs = length fs -> Forall (fun f => f = None) gs -> copy_files fs gs = fs.
Proof.
  unfold copy_files. revert gs. induction fs as [|f fs IH]; intros [|g gs] Hl Hg; try done.
  inv Hg. simpl. f_equal; [by destruct f|]. apply IH; [simpl in Hl; lia | done].
Qed.

(** What [kfork] gives the child, from the parent [p]. *)
Definition child_of (k : kernel) (me : nat) (p np : proc) : Prop :=
  state np = RUNNABLE /\ parent np = Some me /\ pid np = nextpid k /\ sz np = sz p /\
  ofile np = ofile p /\ cwd np = cwd p /\ name np = copy_name (name p) /\
  (snd <$> trapframe np) = (fun tf => <[TF_a0 := 0]> tf.2) <$> trapframe p /\
  priority np = 0 /\ slice_used np = 0 /\ queued np = 0 /\ ctime np = ticks k /\
  rtime np = 0 /\ first_run np = -1 /\ enq_time np = ticks k.

Definition forked (k : kernel) (me : nat) (p : proc) (r : Z) (k' : kernel) : Prop :=
  cpu_proc k' = cpu_proc k /\ ticks k' = ticks k /\ initproc k' = initproc k /\
  nextpid k <= nextpid k' <= nextpid k + 1 /\
  ((r = -1 /\ forall j q, procs k !! j = Some q -> procs k' !! j = Some q \/
      (state q = UNUSED /\ exists q', procs k' !! j = Some q' /\ state q' = UNUSED /\ enq_time q' = ticks k)) \/
   (r = nextpid k /\ exists n q np, find_index (is_state UNUSED) (procs k) = Some n /\
      procs k !! n = Some q /\ state q = UNUSED /\
      procs k' !! n = Some np /\ child_of k me p np /\ killed np = killed q /\
      forall j, j <> n -> procs k' !! j = procs k !! j)).

Lemma forked_failed k me p n i q np :
  get k i = Some q -> state q = UNUSED -> nextpid k <= n <= nextpid k + 1 ->
  state np = UNUSED -> enq_time np = ticks k ->
  forked k me p (-1) (put i np (set_nextpid n k)).
Proof.
  intros Hq Hs Hn Hu He. unfold forked. split_and!; try done; try (simpl; lia). left. split; [done|].
  intros j r Hr. destruct (decide (i = j)) as [->|Hj].
  - right. unfold get in Hq. simplify_eq. split; [done|]. exists np. split_and!; try done. by eapply (get_put j).
  - left. unfold put. by rewrite (upd_lookup_ne i _ (set_nextpid n k)).
Qed.

Lemma kfork_spec c k w me p :
  table_ok k -> nextpid k < 2 ^ 31 - 1 -> myproc k c = Some me -> get k me = Some p ->
  exists r k' w', kfork forkret_addr c k w = Some (r, k', w') /\ table_ok k' /\ forked k me p r k'.
Proof.
  intros Hk Hn Hc Hp. unfold kfork. rewrite Hc. simpl. rewrite Hp. simpl.
  destruct (table_running k c me Hk Hc) as (p' & Hp' & Hr & _). simplify_eq.
  assert (Ha : life_of p = Alive) by (unfold life_of; by rewrite Hr).
  pose proof (slots_ok k Hk me p Hp) as (_ & Hlen & _ & Hal). rewrite Ha in Hal.
  destruct Hal as (_ & _ & Hpt & Htf & Hcwd).
  pose proof (nextpid_pos k Hk) as Hpos.
  pose proof (allocproc_cases k w) as Halloc.
  rewrite (i32_id (nextpid k + 1)) in Halloc by (unfold in_i32; lia).
  destruct (allocproc forkret_addr k w) as [[[n|] k1] w1].
  2: { eexists _, _, _. split; [done|].
       destruct Halloc as [->|(i & q & np & Hq & Hs & -> & Hf)].
       - split; [done|]. unfold forked. split_and!; try done; try lia. left. auto.
       - split; [eapply failed_ok; eauto; lia|].
         destruct Hf as (? & _ & _ & _ & _ & _ & _ & _ & _ & _ & _ & ?). eapply forked_failed; eauto; lia. }
  destruct Halloc as (q & np & Hfirst & Hq & Hs & -> & He). set (k0 := set_nextpid (nextpid k + 1) k).
  assert (Hnp : get (put n np k0) n = Some np) by (by eapply get_put). rewrite Hnp. simpl.
  destruct (free_slot k n q Hk Hq Hs) as (?&?&?&?&?&[Hcl ?]&Hlq).
  destruct He as (E1&E2&E3&E4&E5&E6&E7&[tf E8]&[pt E9]&E10&E11&E12&E13&E14&E15&E16).
  destruct (pagetable p) as [ppt|]; [|done]. rewrite E9. simpl.
  destruct (uvmcopy ppt pt (sz p) w1) as [st w2]. destruct (st <? 0).
  - destruct (freeproc_put n np (put n np k0) w2 Hnp) as (np' & w3 & -> & Hf).
    eexists _, _, _. split; [done|]. rewrite put_put.
    assert (Hf' : freed (set_enq_time (ticks k) (set_slice_used 0 (set_priority 0 q))) np').
    { destruct Hf as (F1&F2&F3&F4&F5&F6&F7&F8&F9&F10&F11&F12). unfold freed. simpl. split_and!; congruence. }
    split; [eapply failed_ok; eauto; lia|].
    destruct Hf' as (? & _ & _ & _ & _ & _ & _ & _ & _ & _ & _ & ?). eapply forked_failed; eauto; lia.
  - destruct (trapframe p) as [ptf|] eqn:Etf; [|done]. rewrite E8. simpl.
    destruct (cwd p) as [cw|] eqn:Ecw; [|done]. simpl.
    rewrite (upd_put n _ _ np Hnp), put_put.
    set (n1 := set_name _ _). assert (G1 : get (put n n1 k0) n = Some n1) by (by eapply get_put).
    rewrite (upd_put n _ _ n1 G1), put_put. set (n2 := set_parent _ n1).
    assert (G2 : get (put n n2 k0) n = Some n2) by (by eapply get_put).
    rewrite (upd_put n _ _ n2 G2), put_put. set (n3 := set_state _ n2).
    assert (Hof : ofile n3 = ofile p).
    { simpl. rewrite E6. apply copy_files_closed; [lia | done]. }
    eexists _, _, _. split; [done|]. split.
    + eapply (newborn_ok k me p); eauto. unfold newborn. rewrite Hof. simpl. rewrite E9, E10, E11, E2.
      split_and!; try done; eauto.
    + unfold forked. split_and!; try done; try (simpl; lia). right. split; [done|].
      exists n, q, n3. split_and!; try done.
      * by apply (get_put n q).
      * unfold child_of. rewrite Hof, Etf, Ecw. by split_and!.
      * intros j Hj. by apply (upd_lookup_ne n _ k0 j).
Qed.

(** ** Exit *)

(** The new parent of a process when [me] exits. *)
Definition heir (me : nat) (init : option nat) (p : proc) : option nat :=
  if bool_decide (parent p = Some me) then init else parent p.
Definition adopt (me : nat) (init : option nat) (p : proc) : proc := set_parent (heir me init p) p.

Definition rouse (b : bool) (ch : option channel) (p : proc) : proc :=
  if b then wakeup_one ch p else p.

Lemma wakeup_one_twice ch p : wakeup_one ch (wakeup_one ch p) = wakeup_one ch p.
Proof.
  unfold wakeup_one, is_state. case_bool_decide as E; [|by repeat case_bool_decide].
  destruct (bool_decide (state (set_chan None p) = SLEEPING)) eqn:E2; simpl in *;
    (case_bool_decide; [|done]); simpl; rewrite ?E2; done.
Qed.

Lemma wakeup_one_parent ch p : parent (wakeup_one ch p) = parent p.
Proof. unfold wakeup_one. case_bool_decide; [|done]. by destruct (is_state _ _). Qed.

Lemma rouse_adopt b ch me init p : adopt me init (rouse b ch p) = rouse b ch (adopt me init p).
Proof.
  destruct b; [|done]. unfold rouse, adopt, heir. rewrite wakeup_one_parent. unfold wakeup_one, is_state.
  simpl. destruct (bool_decide (chan p = ch)); [|done]. by destruct (bool_decide (state p = SLEEPING)).
Qed.

Lemma adopt_id me init p : parent p <> Some me -> adopt me init p = p.
Proof. intros H. unfold adopt, heir. rewrite bool_decide_false by done. by destruct p. Qed.

(** [reparent] gives every child of [me] to init, and changes nothing else
    except by wakeups of init. *)
Lemma reparent_loop_spec me n : forall i k,
  nextpid (reparent_loop n i me k) = nextpid k /\ initproc (reparent_loop n i me k) = initproc k /\
  ticks (reparent_loop n i me k) = ticks k /\ cpu_proc (reparent_loop n i me k) = cpu_proc k /\
  pointwise (fun j p p' => exists b, p' = rouse b (CProc <$> initproc k)
      (if decide (i <= j < i + n)%nat then adopt me (initproc k) p else p))
    k (reparent_loop n i me k).
Proof.
  induction n as [|n IH]; intros i k; cbn [reparent_loop].
  { split_and!; try done. split; [done|]. intros j p Hp. exists p. split; [done|]. exists false.
    rewrite decide_False by lia. done. }
  set (k' := match get k i with Some pp => _ | None => k end).
  assert (Hk' : nextpid k' = nextpid k /\ initproc k' = initproc k /\ ticks k' = ticks k /\
    cpu_proc k' = cpu_proc k /\
    pointwise (fun j p p' => exists b, p' = rouse b (CProc <$> initproc k)
      (if decide (j = i) then adopt me (initproc k) p else p)) k k').
  { unfold k'. destruct (get k i) as [q|] eqn:Hq; [case_bool_decide as Hpar|].
    - split_and!; try done. split; [simpl; rewrite length_fmap; apply length_alter|].
      intros j p Hp. simpl. rewrite list_lookup_fmap, list_lookup_alter.
      destruct (decide (i = j)) as [<-|Hne].
      + rewrite Hp. simpl. eexists. split; [done|]. exists true. rewrite decide_True by done.
        unfold get in Hq. simplify_eq. unfold adopt, heir. by rewrite bool_decide_true.
      + rewrite Hp. simpl. eexists. split; [done|]. exists true. by rewrite decide_False.
    - split_and!; try done. split; [done|]. intros j p Hp. exists p. split; [done|]. exists false. simpl.
      case_decide; [|done]. subst. unfold get in Hq. simplify_eq. by rewrite adopt_id.
    - split_and!; try done. split; [done|]. intros j p Hp. exists p. split; [done|]. exists false. simpl.
      rewrite decide_False; [done|]. intros ->. unfold get in Hq. congruence. }
  destruct Hk' as (E1 & E2 & E3 & E4 & [Hl Hpt]).
  destruct (IH (S i) k') as (F1 & F2 & F3 & F4 & [Fl Fpt]). rewrite E2 in *.
  split_and!; try congruence. split; [congruence|]. intros j p Hp.
  destruct (Hpt j p Hp) as (p1 & Hp1 & b1 & ->). destruct (Fpt j _ Hp1) as (p2 & Hp2 & b2 & ->).
  eexists. split; [done|]. exists (b1 || b2).
  assert (Hb : forall q, rouse b2 (CProc <$> initproc k) (rouse b1 (CProc <$> initproc k) q) =
                         rouse (b1 || b2) (CProc <$> initproc k) q).
  { intros q. destruct b1, b2; try done. apply wakeup_one_twice. }
  repeat case_decide; try lia; rewrite ?rouse_adopt; apply Hb.
Qed.

(** [k'] is [k] after [reparent(me)]. *)
Definition reparented (me : nat) (k k' : kernel) : Prop :=
  nextpid k' = nextpid k /\ initproc k' = initproc k /\ ticks k' = ticks k /\ cpu_proc k' = cpu_proc k /\
  pointwise (fun _ p p' => exists b, p' = rouse b (CProc <$> initproc k) (adopt me (initproc k) p)) k k'.

Lemma reparent_loop_all me n k : length (procs k) = n -> reparented me k (reparent_loop n 0 me k).
Proof.
  intros Hlen. destruct (reparent_loop_spec me n 0 k) as (E1 & E2 & E3 & E4 & [Hl Hpt]).
  unfold reparented. split_and!; try done. split; [done|].
  intros j p Hp. destruct (Hpt j p Hp) as (p' & Hp' & b & ->).
  eexists. split; [done|]. exists b. rewrite decide_True; [done|].
  apply lookup_lt_Some in Hp. lia.
Qed.

Lemma reparent_spec me k : length (procs k) = NPROC -> reparented me k (reparent me k).
Proof. exact (reparent_loop_all me NPROC k). Qed.

(** The effect of an exit on one slot. *)
Definition exits (me : nat) (init par : option nat) (status t : Z) (j : nat) (p p' : proc) : Prop :=
  if decide (j = me) then
    state p' = ZOMBIE /\ xstate p' = status /\ etime p' = t /\ pid p' = pid p /\
    parent p' = heir me init p /\ closed p' /\ length (ofile p') = length (ofile p) /\
    priority p' = priority p /\ slice_used p' = slice_used p /\
    rtime p' = rtime p /\ ctime p' = ctime p /\ first_run p' = first_run p /\ enq_time p' = enq_time p
  else exists b, p' = rouse true (CProc <$> par) (rouse b (CProc <$> init) (adopt me init p)).

Lemma rouse_keeps b ch p : keeps p p ->
  keeps p (rouse b ch p) /\ forall i, same_running i p (rouse b ch p).
Proof. destruct b; [apply wakeup_one_keeps | done]. Qed.

Lemma keeps_trans p q r : keeps p q -> keeps q r -> keeps p r.
Proof.
  unfold keeps. intros (->&->&->&->&->&->&->&H1&H2&H3) (->&->&->&->&->&->&->&H4&H5&H6).
  split_and!; auto.
Qed.

Lemma keeps_self p q : keeps p q -> keeps q q.
Proof. unfold keeps. intros (?&?&?&?&?&?&?&?&?&?). split_and!; auto. Qed.

Lemma rouse_rouse_keeps b1 b2 ch1 ch2 p : keeps p p ->
  keeps p (rouse b2 ch2 (rouse b1 ch1 p)) /\
  forall i, same_running i p (rouse b2 ch2 (rouse b1 ch1 p)).
Proof.
  intros H. destruct (rouse_keeps b1 ch1 p H) as [K1 S1].
  destruct (rouse_keeps b2 ch2 _ (keeps_self _ _ K1)) as [K2 S2].
  split; [by eapply keeps_trans|]. intros i. unfold same_running in *. by rewrite (S2 i), (S1 i).
Qed.

Lemma adopt_keeps me init p : keeps p p -> keeps (adopt me init p) (adopt me init p).
Proof. unfold keeps, life_of. simpl. intuition. Qed.

Lemma exits_other me init par status t j p p' : exits me init par status t j p p' -> j <> me -> keeps p p ->
  keeps (adopt me init p) p' /\ same_running j p p'.
Proof.
  unfold exits. intros H Hj Hp. rewrite decide_False in H by done.
  destruct H as (b & ->).
  destruct (rouse_rouse_keeps b true (CProc <$> init) (CProc <$> par) _ (adopt_keeps me init p Hp)) as [? H]. split; [done|]. apply (H j).
Qed.

Lemma exit_slot me par status t init j p p' np :
  init <> Some me -> is_Some init ->
  slot_ok np init j p -> (j = me -> life_of p = Alive) ->
  exits me init par status t j p p' -> slot_ok np init j p'.
Proof.
  intros Hne [ini Hini] Hs Hme H. pose proof (keeps_refl _ _ _ _ Hs) as Hkp.
  destruct (decide (j = me)) as [->|Hj].
  - unfold exits in H. rewrite decide_True in H by done.
    destruct H as (E1&_&_&E2&E3&E4&E5&E6&E7&_). destruct Hs as (Hm & Hl & _ & Hal).
    rewrite Hme in Hal by done. unfold slot_ok, life_of, mlfq_ok in *. rewrite E1, E2, E3, E6, E7.
    destruct Hm, Hal as (? & [Hi|Hpar] & _); [done|].
    split_and!; try done; try lia; unfold heir; try case_bool_decide; congruence.
  - destruct (exits_other _ _ _ _ _ _ _ _ H Hj Hkp) as [(E1&E2&E3&E4&E5&E6&E7&Hsl&Hch&Hm) _].
    destruct Hs as (_ & Hof & _ & Hl). simpl in *. unfold slot_ok, closed in *.
    change (life_of (adopt me init p)) with (life_of p) in *.
    assert (Hh : parent p <> None -> heir me init p <> None).
    { unfold heir. case_bool_decide; congruence. }
    assert (Hh' : parent p = None -> heir me init p = None).
    { intros Hn. unfold heir. rewrite Hn. by rewrite bool_decide_false. }
    rewrite E1, E2, E3, E4, E5, E6, E7. split_and!; auto.
    destruct (life_of p); intuition (congruence || lia).
Qed.

Lemma exit_ok k k' c me par status t :
  table_ok k -> myproc k c = Some me -> initproc k <> Some me ->
  pointwise (exits me (initproc k) par status t) k k' ->
  nextpid k' = nextpid k -> initproc k' = initproc k -> cpu_proc k' = <[c := None]> (cpu_proc k) ->
  table_ok k'.
Proof.
  intros Hk Hc Hinit Hpt E1 E2 E3. destruct (table_running k c me Hk Hc) as (p & Hp & Hr & Hcpu).
  assert (Hfwd := proj2 Hpt). assert (Hbwd := fun i p' => pointwise_inv _ _ _ i p' Hpt).
  assert (Hlife : forall j q, j <> me -> procs k !! j = Some q -> life_of q = Alive ->
    exists q', procs k' !! j = Some q' /\ life_of q' = Alive).
  { intros j q Hj Hq Ha. destruct (Hfwd j q Hq) as (q' & Hq' & H). exists q'. split; [done|].
    destruct (exits_other _ _ _ _ _ _ _ _ H Hj (slot_keeps k Hk j q Hq)) as [(_&_&_&_&_&_&E&_) _].
    by rewrite E. }
  assert (Hpar : forall j q q', procs k !! j = Some q ->
     exits me (initproc k) par status t j q q' -> pid q' = pid q /\ parent q' = heir me (initproc k) q).
  { intros j q q' Hq H. destruct (decide (j = me)) as [->|Hj].
    - unfold exits in H. rewrite decide_True in H by done. naive_solver.
    - destruct (exits_other _ _ _ _ _ _ _ _ H Hj (slot_keeps k Hk j q Hq)) as [(?&?&_) _]. done. }
  destruct (init_alive k Hk) as (ini & iq & Hini & Hiq & Hia).
  constructor.
  - rewrite (proj1 Hpt). apply (procs_len k Hk).
  - intros j q' (q & Hq & H)%Hbwd. rewrite E1, E2. apply (exit_slot me par status t (initproc k) j q);
      [done | rewrite Hini; eauto | by apply (slots_ok k Hk) | | done].
    intros ->. unfold get in Hp. simplify_eq. unfold life_of. by rewrite Hr.
  - intros i j q' r' (q & Hq & H)%Hbwd (r & Hr' & H')%Hbwd.
    destruct (Hpar i q q' Hq H) as [-> _], (Hpar j r r' Hr' H') as [-> _]. by eapply (pid_inj k Hk).
  - intros i j q' (q & Hq & H)%Hbwd. destruct (Hpar i q q' Hq H) as [_ ->].
    unfold heir. case_bool_decide as Hb; intros E.
    + simplify_eq. eapply Hlife; eauto. congruence.
    + destruct (parent_alive k Hk i j q Hq E) as (s & Hs & Ha). eapply Hlife; eauto. congruence.
  - destruct (Hlife ini iq) as (q' & Hq' & Ha); [congruence | done.. |]. exists ini, q'.
    split_and!; congruence.
  - rewrite E1. apply (nextpid_pos k Hk).
  - apply (cpus_ok_off c me k); auto using running_ok.
    + split; [apply Hpt|]. intros j q Hq. destruct (Hfwd j q Hq) as (q' & Hq' & H). exists q'.
      split; [done|]. unfold same_running_but. case_decide; [done|].
      by destruct (exits_other _ _ _ _ _ _ _ _ H ltac:(done) (slot_keeps k Hk j q Hq)) as [_ ?].
    + intros q' (q & Hq & H)%Hbwd. unfold exits in H. rewrite decide_True in H by done.
      destruct H as [-> _]. done.
Qed.

Lemma rouse_fields b ch p :
  pid (rouse b ch p) = pid p /\ parent (rouse b ch p) = parent p /\ ofile (rouse b ch p) = ofile p /\
  cwd (rouse b ch p) = cwd p /\ priority (rouse b ch p) = priority p /\
  slice_used (rouse b ch p) = slice_used p /\ rtime (rouse b ch p) = rtime p /\
  ctime (rouse b ch p) = ctime p /\ first_run (rouse b ch p) = first_run p /\
  enq_time (rouse b ch p) = enq_time p.
Proof.
  destruct b; [|done]. unfold rouse, wakeup_one. destruct (bool_decide _); [|done].
  by destruct (is_state _ _).
Qed.

Definition close_all (q : proc) : proc := set_cwd None (set_ofile (const None <$> ofile q) q).

Lemma kexit_pointwise me status k k2 p2 :
  reparented me (upd me close_all k) k2 ->
  let k3 := wakeup (CProc <$> parent p2) k2 in
  pointwise (exits me (initproc k) (parent p2) status (ticks k)) k
    (upd me (fun q => set_state ZOMBIE (set_etime (ticks k3) (set_xstate status q))) k3) /\
  nextpid k3 = nextpid k /\ initproc k3 = initproc k /\ cpu_proc k3 = cpu_proc k /\ ticks k3 = ticks k.
Proof.
  intros (E1 & E2 & E3 & E4 & [Hl Hpt]) k3. split; [|done].
  split; [rewrite upd_length; simpl; rewrite length_fmap, Hl; apply upd_length|].
  intros j p Hp.
  destruct (Hpt j (if decide (j = me) then close_all p else p)) as (p' & Hp' & b & ->).
  { rewrite upd_lookup. destruct (decide (me = j)) as [->|Hne].
    - by rewrite decide_True, Hp.
    - by rewrite decide_False. }
  rewrite upd_lookup. simpl.
  rewrite list_lookup_fmap, Hp'. simpl. unfold exits.
  destruct (decide (me = j)) as [->|Hne].
  - eexists. split; [done|]. rewrite !decide_True by done.
    set (q := adopt j (initproc k) (close_all p)).
    destruct (rouse_fields b (CProc <$> initproc k) q) as (F1&F2&F3&F4&F5&F6&F7&F8&F9&F10).
    destruct (rouse_fields true (CProc <$> parent p2) (rouse b (CProc <$> initproc k) q))
      as (G1&G2&G3&G4&G5&G6&G7&G8&G9&G10). unfold closed.
    simpl in *. rewrite G1, G2, G3, G4, G5, G6, G7, G8, G9, G10, F1, F2, F3, F4, F5, F6, F7, F8, F9, F10, E3.
    split_and!; try done; simpl.
    + apply Forall_fmap. by apply Forall_true.
    + apply length_fmap.
  - eexists. split; [done|]. rewrite !decide_False by done. by exists b.
Qed.

(** Init cannot exit: the kernel panics. *)
Lemma kexit_init c status k w : myproc k c = initproc k -> kexit c status k w = None.
Proof.
  intros Hc. unfold kexit. rewrite Hc. destruct (initproc k) as [i|]; [|done]. cbn [mbind option_bind].
  destruct (get k i) as [p|]; [|done]. cbn [mbind option_bind]. by rewrite bool_decide_true.
Qed.

Lemma kexit_not_init c status k w me r :
  kexit c status k w = Some r -> myproc k c = Some me -> initproc k <> Some me.
Proof. intros Hx Hc Hi. rewrite kexit_init in Hx by congruence. done. Qed.

(** The body of [kexit] once [reparent] has returned [k2]. *)
Definition kexit_tail (me : nat) (status : Z) (k2 : kernel) (p2 : proc) : kernel :=
  let k3 := wakeup (CProc <$> parent p2) k2 in
  upd me (fun q => set_state ZOMBIE (set_etime (ticks k3) (set_xstate status q))) k3.

Lemma kexit_unfold c status k w me p cw :
  myproc k c = Some me -> get k me = Some p -> initproc k <> Some me -> cwd p = Some cw ->
  kexit c status k w =
  (p2 ← get (reparent me (upd me close_all k)) me;
   k5 ← sched c (kexit_tail me status (reparent me (upd me close_all k)) p2);
   Some (k5, iput_op cw (close_files (ofile p) w))).
Proof.
  intros Hc Hp Hi Hcw. unfold kexit, mbind, option_bind. rewrite Hc, Hp, Hcw.
  rewrite bool_decide_false by done. reflexivity.
Qed.

Lemma sched_zombie c me k p :
  myproc k c = Some me -> get k me = Some p -> state p = ZOMBIE -> sched c k = Some (cpu_clear c k).
Proof.
  intros Hc Hp Hs. unfold sched, mbind, option_bind, is_state. rewrite Hc, Hp, Hs. done.
Qed.

Lemma kexit_spec c status k w me p :
  table_ok k -> myproc k c = Some me -> get k me = Some p -> initproc k <> Some me ->
  exists k' w', kexit c status k w = Some (k', w') /\ table_ok k' /\
    pointwise (exits me (initproc k) (heir me (initproc k) p) status (ticks k)) k k' /\
    initproc k' = initproc k /\ nextpid k' = nextpid k /\ cpu_proc k' = <[c := None]> (cpu_proc k) /\
    ticks k' = ticks k.
Proof.
  intros Hk Hc Hp Hinit. destruct (table_running k c me Hk Hc) as (p' & Hp' & Hr & Hcpu). simplify_eq.
  pose proof (slots_ok k Hk me p Hp) as (_ & _ & _ & Ha). unfold life_of in Ha. rewrite Hr in Ha.
  destruct Ha as (_ & _ & _ & _ & Hcwd). destruct (cwd p) as [cw|] eqn:Hcw; [|done].
  rewrite (kexit_unfold c status k w me p cw Hc Hp Hinit Hcw).
  assert (Hrep : reparented me (upd me close_all k) (reparent me (upd me close_all k))).
  { apply reparent_spec. rewrite upd_length. apply (procs_len k Hk). }
  revert Hrep. generalize (reparent me (upd me close_all k)). intros k2 Hrep.
  destruct (proj2 (proj2 (proj2 (proj2 (proj2 Hrep)))) me (close_all p)) as (p2 & Hp2 & b & Hb);
    [by apply upd_lookup_eq|].
  assert (Hpar : parent p2 = heir me (initproc k) p).
  { rewrite Hb. exact (proj1 (proj2 (rouse_fields b _ _))). }
  destruct (kexit_pointwise me status k k2 p2 Hrep) as (Hpw & E1 & E2 & E3 & E4). rewrite Hpar in Hpw at 1.
  fold (kexit_tail me status k2 p2) in Hpw.
  assert (Hcpu4 : cpu_proc (kexit_tail me status k2 p2) = cpu_proc k) by exact E3.
  assert (Hn4 : nextpid (kexit_tail me status k2 p2) = nextpid k) by exact E1.
  assert (Ht4 : ticks (kexit_tail me status k2 p2) = ticks k) by exact E4.
  assert (Hi4 : initproc (kexit_tail me status k2 p2) = initproc k) by exact E2.
  revert Hpw Hcpu4 Hn4 Ht4 Hi4. unfold get. rewrite Hp2. unfold mbind at 1, option_bind at 1.
  generalize (kexit_tail me status k2 p2). intros k4 Hpw Hcpu4 Hn4 Ht4 Hi4.
  destruct (proj2 Hpw me p Hp) as (q & Hq & Hx).
  unfold exits in Hx. rewrite decide_True in Hx by done.
  rewrite (sched_zombie c me k4 q); [| by apply myproc_Some; rewrite Hcpu4 | done | by destruct Hx].
  eexists _, _. split; [done|]. split_and!; try done.
  - eapply exit_ok; eauto. simpl. by rewrite Hcpu4.
  - simpl. by rewrite Hcpu4.
Qed.

(** ** Wait *)
Definition reaped (k : kernel) (i : nat) (p : proc) (k' : kernel) : Prop :=
  exists np, k' = put i np k /\ freed (set_parent None p) np.

Lemma reap_ok k i p k' :
  table_ok k -> get k i = Some p -> state p = ZOMBIE -> reaped k i p k' -> table_ok k'.
Proof.
  intros Hk Hp Hs (np & -> & Hf).
  destruct Hf as (E1&E2&E3&E4&E5&E6&E7&E8&E9&E10&E11&E12); simpl in *.
  pose proof (slots_ok k Hk i p Hp) as (Hm & Hl & _ & Ha). unfold life_of in Ha. rewrite Hs in Ha.
  destruct Ha as (Hpid & Hni & Hpar & Hcl).
  assert (Hi : procs (put i np k) !! i = Some np) by (by apply (get_put i p)).
  assert (Ho : forall j, j <> i -> procs (put i np k) !! j = procs k !! j)
    by (intros j Hj; by apply upd_lookup_ne).
  assert (Hne : forall j q, procs k !! j = Some q -> life_of q = Alive -> j <> i).
  { intros j q Hq Hq' ->. unfold get in Hp. simplify_eq. unfold life_of in Hq'. by rewrite Hs in Hq'. }
  constructor.
  - unfold put. rewrite upd_length. apply (procs_len k Hk).
  - intros j q Hq. destruct (decide (j = i)) as [->|Hj].
    + simplify_eq. unfold slot_ok, life_of, mlfq_ok, closed in *. rewrite E1, E6, E7, E10, E11.
      destruct Hm, Hcl. by split_and!.
    + rewrite Ho in Hq by done. by apply (slots_ok k Hk).
  - intros a b q r Hq Hr Hnz E.
    destruct (decide (a = i)) as [->|Ha], (decide (b = i)) as [->|Hb]; try done; simplify_eq; try congruence.
    rewrite Ho in Hq, Hr by done. by eapply (pid_inj k Hk).
  - intros a b q Hq E. destruct (decide (a = i)) as [->|Ha]; [simplify_eq; congruence|].
    rewrite Ho in Hq by done. destruct (parent_alive k Hk a b q Hq E) as (r & Hr & Hal).
    exists r. rewrite Ho by eauto. done.
  - destruct (init_alive k Hk) as (j & r & Hj & Hr & Hal). exists j, r. rewrite Ho by eauto. done.
  - apply (nextpid_pos k Hk).
  - apply (put_cpus k (nextpid k) i p np); auto; congruence.
Qed.

(** [me] asleep on its own address, its core given up. *)
Definition asleep_in_wait (c me : nat) (k : kernel) : kernel :=
  cpu_clear c (upd me (set_state SLEEPING ∘ set_chan (Some (CProc me))) k).

(** The outcome of one pass of [wait]. *)
Definition waited (c me : nat) (p : proc) (k : kernel) (r : wait_result) (k' : kernel) : Prop :=
  match r with
  | Returned r =>
      (r = -1 /\ k' = k) \/
      exists i pp, procs k !! i = Some pp /\ parent pp = Some me /\ state pp = ZOMBIE /\
        r = pid pp /\ reaped k i pp k'
  | Blocked =>
      find_zombie me k = None /\ havekids me k = true /\ killed p = 0 /\ k' = asleep_in_wait c me k
  end.

Lemma find_zombie_Some me k i :
  find_zombie me k = Some i ->
  exists pp, get k i = Some pp /\ parent pp = Some me /\ state pp = ZOMBIE.
Proof.
  intros [(pp & Hp & H) _]%find_index_Some. apply andb_true_iff in H as [H1 H2].
  exists pp. split_and!; [done | by apply bool_decide_eq_true in H1 | by apply is_state_true].
Qed.

Lemma wait_block_spec c me k (w : W) p :
  table_ok k -> myproc k c = Some me -> get k me = Some p -> find_zombie me k = None ->
  exists r k' w', wait_block c me k w = Some (r, k', w') /\ table_ok k' /\ waited c me p k r k'.
Proof.
  intros Hk Hc Hp Hz. unfold wait_block. rewrite Hp. cbn [mbind option_bind].
  destruct (havekids me k) eqn:Hh, (killed p =? 0) eqn:Hkl; simpl;
    try (eexists _, _, _; split; [done|]; split; [done|]; by left).
  destruct (sleep_prepare_ok c (CProc me) k me Hk Hc) as [-> Hk1]. cbn [mbind option_bind].
  set (k1 := upd me (set_chan (Some (CProc me))) k).
  assert (Hp1 : get k1 me = Some (set_chan (Some (CProc me)) p)) by (by apply upd_lookup_eq).
  destruct (leave_ok k1 Hk1 c me (set_state SLEEPING) Hc) as [Hok Hs].
  { intros q Hq _. pose proof (slot_keeps k1 Hk1 me q Hq) as Hkp. simplify_eq.
    destruct (table_running k c me Hk Hc) as (p' & Hp' & Hr & _). simplify_eq.
    unfold keeps, life_of in *. simpl in *. rewrite Hr in *. intuition congruence. }
  assert (Hsl : sleep c k1 = sched c (upd me (set_state SLEEPING) k1)).
  { unfold sleep. assert (E : myproc k1 c = Some me) by done. rewrite E. cbn [mbind option_bind].
    by rewrite Hp1. }
  rewrite Hsl, Hs. cbn [mbind option_bind].
  eexists _, _, _. split; [done|]. split; [done|]. unfold waited, asleep_in_wait.
  apply Z.eqb_eq in Hkl. split_and!; try done. unfold k1. by rewrite upd_upd.
Qed.

(** Reaping: the zombie's slot is given back. *)
Lemma freeproc_reaped i k w pp :
  get k i = Some pp ->
  exists k' w', freeproc i (upd i (set_parent None) k) w = (k', w') /\ reaped k i pp k'.
Proof.
  intros Hp. rewrite (upd_put i _ k pp Hp).
  destruct (freeproc_put i (set_parent None pp) (put i (set_parent None pp) k) w) as (np & w' & -> & Hf);
    [by eapply get_put|].
  eexists _, _. split; [done|]. exists np. by rewrite put_put.
Qed.

Lemma put_int_Some p addr v (w : W) : pagetable p <> None -> exists r, put_int p addr v w = Some r.
Proof. intros H. unfold put_int. destruct (addr =? 0); [eauto|]. destruct (pagetable p); [simpl; eauto | done]. Qed.

Lemma running_pagetable k c me p :
  table_ok k -> myproc k c = Some me -> get k me = Some p -> pagetable p <> None.
Proof.
  intros Hk Hc Hp. destruct (table_running k c me Hk Hc) as (p' & Hp' & Hr & _). simplify_eq.
  destruct (slots_ok k Hk me p Hp) as (_ & _ & _ & H). unfold life_of in H. rewrite Hr in H. by destruct H as (_ & _ & ? & _).
Qed.

Lemma kwait_spec c addr k w me p :
  table_ok k -> myproc k c = Some me -> get k me = Some p ->
  exists r k' w', kwait c addr k w = Some (r, k', w') /\ table_ok k' /\ waited c me p k r k'.
Proof.
  intros Hk Hc Hp. unfold kwait. rewrite Hc. cbn [mbind option_bind]. rewrite Hp. cbn [mbind option_bind].
  destruct (find_zombie me k) as [i|] eqn:Hz; [|by apply wait_block_spec].
  destruct (find_zombie_Some me k i Hz) as (pp & Hpp & Hpar & Hs). rewrite Hpp. cbn [mbind option_bind].
  destruct (put_int_Some p addr (xstate pp) w) as [[r w1] ->]; [by eapply running_pagetable|].
  cbn [mbind option_bind]. destruct (r <? 0).
  { eexists _, _, _. split; [done|]. split; [done|]. by left. }
  destruct (freeproc_reaped i k w1 pp Hpp) as (k' & w' & -> & Hr).
  eexists _, _, _. split; [done|]. split; [by eapply reap_ok|]. right. exists i, pp. done.
Qed.

Lemma kwaitx_spec c a1 a2 a3 a4 k w me p :
  table_ok k -> myproc k c = Some me -> get k me = Some p ->
  exists r k' w', kwaitx c a1 a2 a3 a4 k w = Some (r, k', w') /\ table_ok k' /\ waited c me p k r k'.
Proof.
  intros Hk Hc Hp. unfold kwaitx. rewrite Hc. cbn [mbind option_bind]. rewrite Hp. cbn [mbind option_bind].
  destruct (find_zombie me k) as [i|] eqn:Hz; [|by apply wait_block_spec].
  destruct (find_zombie_Some me k i Hz) as (pp & Hpp & Hpar & Hs). rewrite Hpp. cbn [mbind option_bind].
  destruct (waitx_stats pp) as [[rt wt] rest].
  assert (Hpt : pagetable p <> None) by (by eapply running_pagetable).
  assert (Hfail : forall w0 : W, exists r k' w', Some (Returned (-1), k, w0) = Some (r, k', w') /\
    table_ok k' /\ waited c me p k r k').
  { intros w0. eexists _, _, _. split; [done|]. split; [done|]. by left. }
  do 4 (match goal with |- context [put_int p ?a ?v ?w] =>
    destruct (put_int_Some p a v w Hpt) as [[? ?] ->] end; cbn [mbind option_bind fst snd];
    match goal with |- context [?r <? 0] => destruct (r <? 0); [apply Hfail|] end).
  match goal with |- context [freeproc i _ ?w] =>
    destruct (freeproc_reaped i k w pp Hpp) as (k' & w' & -> & Hr) end.
  eexists _, _, _. split; [done|]. split; [by eapply reap_ok|]. right. exists i, pp. done.
Qed.
End Lifecycle.
