(* ===== verification/Kernel.v ===== *)
(** * Safety of the process machine (xv6/kernel/proc.c, trap.c)

    Every state reachable from boot by any interleaving of the kernel's
    process events satisfies the table invariant, and no event fails in it
    except the exit of init. *)
From S2P Require Import Prelude Proc Sched Table Lifecycle.
Local Open Scope Z_scope.

(** ** Boot: zeroed memory, [procinit], [userinit]. *)
Definition zero_proc : proc :=
  mkProc UNUSED None 0 0 0 None 0 0 None None (replicate 14 0) (replicate NOFILE None) None []
    0 0 0 0 0 0 0 0.
Definition zero_kernel : kernel :=
  mkKernel (replicate NPROC zero_proc) 1 None 0 0 (replicate NCPU None).
Definition boot_kernel : kernel := procinit zero_kernel.

Section Safety.
Context {W : Type} `{!ProcEnv W} (forkret_addr : Z) (pol : policy).

Lemma boot_slot i p : procs boot_kernel !! i = Some p -> p = set_kstack (KSTACK i) zero_proc.
Proof.
  unfold boot_kernel, procinit, zero_kernel. cbn [procs set_procs]. rewrite list_lookup_imap.
  intros (q & Hq & ->)%fmap_Some. apply lookup_replicate in Hq as [-> _]. done.
Qed.

Lemma first_slot k0 i np n :
  (forall j p, procs k0 !! j = Some p -> p = set_kstack (KSTACK j) zero_proc) ->
  length (procs k0) = NPROC -> cpu_proc k0 = replicate NCPU None ->
  (i < NPROC)%nat -> 1 < n < 2 ^ 31 ->
  state np = RUNNABLE -> pid np = 1 -> parent np = None -> is_Some (pagetable np) ->
  is_Some (trapframe np) -> is_Some (cwd np) -> priority np = 0 -> slice_used np = 0 ->
  length (ofile np) = NOFILE ->
  table_ok (put i np (set_nextpid n (set_initproc (Some i) k0))).
Proof.
  intros Hz Hlen Hcpu Hi Hn E1 E2 E3 E4 E5 E6 E7 E8 E9. set (k := put _ _ _).
  destruct (lookup_lt_is_Some_2 (procs k0) i) as [p0 Hp0]; [lia|].
  assert (Hii : procs k !! i = Some np) by (by apply (get_put i p0)).
  assert (Ho : forall j p, procs k !! j = Some p -> j <> i -> p = set_kstack (KSTACK j) zero_proc).
  { intros j p Hp Hj. apply Hz. unfold k, put in Hp. by rewrite upd_lookup_ne in Hp. }
  assert (Hno : forall c j, cpu_proc k !! c <> Some (Some j)).
  { intros c j. change (cpu_proc k) with (cpu_proc k0). rewrite Hcpu.
    intros [? _]%lookup_replicate. done. }
  assert (Hslot : forall j p, procs k !! j = Some p ->
    slot_ok n (Some i) j p /\ parent p = None /\ state p <> RUNNING /\ (pid p <> 0 -> j = i)).
  { intros j p Hp. destruct (decide (j = i)) as [->|Hj].
    - simplify_eq. split_and!; try done; try congruence. unfold slot_ok, life_of. rewrite E1, E2.
      destruct E4 as [? ->], E5 as [? ->], E6 as [? ->]. split_and!; auto using mlfq_ok_0; try done; lia.
    - rewrite (Ho j p Hp Hj). split_and!; try done. unfold slot_ok, closed. simpl.
      split_and!; try done; [by apply mlfq_ok_0 | by repeat constructor]. }
  constructor.
  - unfold k, put. by rewrite upd_length.
  - intros j p Hp. by apply Hslot.
  - intros a b p q Hp Hq Hnz E. destruct (Hslot a p Hp) as (_ & _ & _ & Ha).
    destruct (Hslot b q Hq) as (_ & _ & _ & Hb). rewrite Ha, Hb; congruence.
  - intros a b p Hp E. destruct (Hslot a p Hp) as (_ & Hpar & _). congruence.
  - exists i, np. split_and!; try done. unfold life_of. by rewrite E1.
  - simpl. lia.
  - constructor.
    + intros j p Hp. destruct (Hslot j p Hp) as (_ & _ & Hnr & _).
      split; [done|]. by intros [c Hc%Hno].
    + by intros j c c' Hc%Hno.
    + by intros j c Hc%Hno.
    + change (cpu_proc k) with (cpu_proc k0). by rewrite Hcpu.
Qed.

Lemma boot_ok w k w' : userinit forkret_addr boot_kernel w = Some (k, w') -> table_ok k /\ nextpid k = 2.
Proof.
  unfold userinit. pose proof (allocproc_cases forkret_addr boot_kernel w) as H.
  destruct (allocproc forkret_addr boot_kernel w) as [[[i|] k1] w1]; [|done].
  destruct H as (p & np & _ & Hp & Hs & -> & He). cbn [mbind option_bind].
  destruct (namei_root w1) as [root w2]. intros [= <- <-].
  assert (Hi : (i < NPROC)%nat) by (by apply lookup_lt_Some in Hp).
  rewrite (boot_slot i p Hp) in He.
  destruct He as (E1&E2&E3&E4&E5&E6&E7&E8&E9&E10&E11&_). simpl in *.
  set (k0 := set_initproc (Some i) _).
  assert (Hk0 : k0 = put i np (set_nextpid 2 (set_initproc (Some i) boot_kernel))) by done.
  assert (Hg : get k0 i = Some np) by (rewrite Hk0; by eapply get_put).
  rewrite (upd_put i _ k0 np Hg).
  rewrite (upd_put i _ _ (set_cwd (Some root) np)) by (by eapply get_put).
  rewrite put_put, Hk0, put_put. split; [|done].
  apply first_slot; try done; [apply boot_slot | simpl; rewrite E6; done].
Qed.

(** ** Every event *)
Definition init_exits (k : kernel) (e : event) : Prop :=
  exists c status, e = EExit c status /\ myproc k c = initproc k.

Lemma timer_interrupt_nextpid c k k' :
  timer_interrupt pol c k = Some k' -> nextpid k' = nextpid k.
Proof.
  assert (Hc : nextpid (clockintr pol c k) = nextpid k).
  { unfold clockintr. destruct (c =? 0)%nat; [|done]. destruct pol; try done. by destruct (_ =? 0). }
  assert (Hy : forall k1 k2, yield c k1 = Some k2 -> nextpid k2 = nextpid k1).
  { intros k1 k2. unfold yield, sched. destruct (myproc k1 c) as [i|]; [|done]. cbn [mbind option_bind].
    destruct (myproc (upd i _ k1) c) as [j|]; [|done]. cbn [mbind option_bind].
    destruct (get _ j) as [p|]; [|done]. cbn [mbind option_bind]. destruct (is_state _ _); [done|]. by intros [= <-]. }
  unfold timer_interrupt, timer_yield. rewrite <- Hc. destruct pol.
  - destruct (myproc _ c); [apply Hy | by intros [= <-]].
  - by intros [= <-].
  - unfold mlfq_tick. destruct (myproc _ c) as [i|]; [|by intros [= <-]].
    destruct (get _ i) as [p|]; [|done]. cbn [mbind option_bind].
    destruct (charge _ p) as [[e p']|]; [|done]. cbn [mbind option_bind].
    destruct (e || _); [by intros ->%Hy | by intros [= <-]].
Qed.

Lemma schedule_nextpid c cursor k : nextpid (schedule pol c cursor k).2 = nextpid k.
Proof.
  destruct pol; simpl.
  - unfold rr_schedule. by destruct (rr_next _ _).
  - unfold fifo_schedule. by destruct (fifo_scan _ _ _) as [[? ?]|].
  - unfold mlfq_schedule. destruct (mlfq_scan _ _ _ _) as [ps [[? ?]|]]; done.
Qed.

Lemma waited_nextpid c me p k r k' : waited c me p k r k' -> nextpid k' = nextpid k.
Proof.
  destruct r; simpl.
  - intros [[_ ->]|(i & pp & _ & _ & _ & _ & np & -> & _)]; done.
  - by intros (_ & _ & _ & ->).
Qed.

Lemma step_ok e k (w : W) :
  table_ok k -> nextpid k < 2 ^ 31 - 1 -> enabled k e = true ->
  (exists k' w', step forkret_addr pol e k w = Some (k', w') /\ table_ok k' /\
     nextpid k <= nextpid k' <= nextpid k + 1) \/ init_exits k e.
Proof.
  intros Hk Hn He. destruct e; simpl in He; try apply bool_decide_eq_true in He as [me Hc]; simpl;
    try (destruct (table_running k c me Hk Hc) as (p & Hp & _)).
  - left. destruct (timer_interrupt_ok pol c k Hk) as (k' & Hk' & Hok). rewrite Hk'. simpl.
    eexists _, _. split_and!; try done; rewrite (timer_interrupt_nextpid c k k' Hk'); lia.
  - left. apply andb_true_iff in He as [Hlt Hc]. apply bool_decide_eq_true in Hc.
    assert (Hcpu : cpu_proc k !! c = Some None).
    { apply Nat.ltb_lt in Hlt. destruct (lookup_lt_is_Some_2 _ _ Hlt) as [[i|] Hi]; [|done].
      unfold myproc in Hc. by rewrite Hi in Hc. }
    eexists _, _. split_and!; try done; [by apply schedule_ok | rewrite schedule_nextpid; lia..].
  - left. destruct (yield_ok c k me Hk Hc) as [-> Hok]. eexists _, _. split_and!; try done; simpl; lia.
  - left. destruct (kfork_spec forkret_addr c k w me p Hk Hn Hc Hp) as (r & k' & w' & -> & Hok & Hf).
    eexists _, _. split_and!; try done; apply Hf.
  - destruct (decide (initproc k = Some me)) as [Hi|Hi].
    + right. exists c, status. by rewrite Hi.
    + left. destruct (kexit_spec c status k w me p Hk Hc Hp Hi) as (k' & w' & -> & Hok & _ & _ & Hnp & _).
      eexists _, _. split_and!; try done; lia.
  - left. destruct (kwait_spec c addr k w me p Hk Hc Hp) as (r & k' & w' & -> & Hok & Hw).
    eexists _, _. split_and!; try done; simpl; rewrite (waited_nextpid _ _ _ _ _ _ Hw); lia.
  - left. destruct (kwaitx_spec c addr rt_addr wt_addr rest_addr k w me p Hk Hc Hp) as (r & k' & w' & -> & Hok & Hw).
    eexists _, _. split_and!; try done; simpl; rewrite (waited_nextpid _ _ _ _ _ _ Hw); lia.
  - left. destruct (sleep_prepare_ok c ch k me Hk Hc) as [-> Hok]. eexists _, _. split_and!; try done; simpl; lia.
  - left. destruct (sleep_ok c k me Hk Hc) as (k' & Hs & Hok & Hn'). rewrite Hs.
    eexists _, _. split_and!; try done; destruct Hn' as [->| ->]; simpl; lia.
  - left. eexists _, _. split_and!; try done; [by apply wakeup_ok | simpl; lia..].
  - left. eexists _, _. split_and!; try done; [by apply kkill_ok | unfold kkill; destruct (find_index _ _); simpl; lia..].
  - left. rewrite Hc. eexists _, _. split_and!; try done; [by apply setkilled_ok | simpl; lia..].
Qed.

Lemma run_ok es : forall k (w : W) k' w',
  table_ok k -> nextpid k + Z.of_nat (length es) < 2 ^ 31 - 1 ->
  run forkret_addr pol es k w = Some (k', w') ->
  table_ok k' /\ nextpid k' < 2 ^ 31 - 1.
Proof.
  induction es as [|e es IH]; intros k w k' w' Hk Hn; cbn [run].
  { intros [= <- <-]. split; [done|]. simpl in Hn. lia. }
  destruct (enabled k e) eqn:He; [|done]. cbn [length] in Hn.
  destruct (step_ok e k w Hk ltac:(lia) He) as [(k1 & w1 & -> & Hk1 & Hn1)|(c & st & -> & Hc)].
  - cbn [mbind option_bind]. intros H. apply (IH k1 w1 k' w' Hk1); [lia | done].
  - simpl. by rewrite kexit_init.
Qed.

(** C2: in every state reachable from boot, whatever the policy and the
    interleaving of events on the cores, the process table is well formed:
    pids are unique, RUNNING processes and busy cores are in bijection,
    sleepers have a channel, every process but init has a living parent,
    free and dead slots hold no file, living ones own their page table and
    trapframe, and MLFQ levels and slices are in range.  The bound on the
    number of events keeps the 31-bit pid counter from overflowing. *)
Theorem reachable_table_ok (w w0 w1 : W) (k0 k1 : kernel) (es : list event) :
  userinit forkret_addr boot_kernel w = Some (k0, w0) ->
  Z.of_nat (length es) < 2 ^ 31 - 3 ->
  run forkret_addr pol es k0 w0 = Some (k1, w1) ->
  table_ok k1.
Proof.
  intros Hb Hl Hr. destruct (boot_ok w k0 w0 Hb) as [Hk Hn].
  apply (run_ok es k0 w0 k1 w1 Hk); [lia | exact Hr].
Qed.

(** In a reachable state no enabled event fails in the model, except the exit
    of init, which the code turns into a panic.  Of the panics of the code
    this covers those on the state of the process table: null processes and
    page tables, "init exiting", "sched RUNNING" and the index of a slice; the
    checks of [sched] on locks and interrupts, "zombie exit" and the panics
    inside the file and memory operations are outside of this model. *)
Theorem reachable_no_panic (w w0 w1 : W) (k0 k1 : kernel) (es : list event) (e : event) :
  userinit forkret_addr boot_kernel w = Some (k0, w0) ->
  Z.of_nat (length es) < 2 ^ 31 - 3 ->
  run forkret_addr pol es k0 w0 = Some (k1, w1) ->
  enabled k1 e = true ->
  step forkret_addr pol e k1 w1 = None <-> init_exits k1 e.
Proof.
  intros Hb Hl Hr He. destruct (boot_ok w k0 w0 Hb) as [Hk Hn].
  destruct (run_ok es k0 w0 k1 w1 Hk ltac:(lia) Hr) as [Hk1 Hn1]. split.
  - intros Hs. destruct (step_ok e k1 w1 Hk1 Hn1 He) as [(k' & w' & Hs' & _)|H]; [congruence | done].
  - intros (c & st & -> & Hc). by apply kexit_init.
Qed.
End Safety.

(** ** [kill(0)]

    A free slot has pid 0, so [kkill(0)] does not fail but marks the first free
    slot, and nothing clears the mark before the slot is used again. *)
Section Kill0.
Context {W : Type} `{!ProcEnv W} (forkret_addr : Z).

Lemma first_pid0 k :
  table_ok k ->
  find_index (fun p => pid p =? 0) (procs k) = find_index (is_state UNUSED) (procs k).
Proof.
  intros Hk. assert (Hall : Forall (fun p => (pid p =? 0) = is_state UNUSED p) (procs k)).
  { apply Forall_lookup_2. intros i p Hp. destruct (slots_ok k Hk i p Hp) as (_ & _ & _ & H).
    unfold life_of in H. unfold is_state.
    destruct (state p) eqn:E; case_bool_decide; try done; apply Z.eqb_eq || apply Z.eqb_neq; intuition lia. }
  induction Hall as [|p ps E _ IH]; simpl; [done|]. by rewrite E, IH.
Qed.

(** After [kill(0)], which reports success, the next process created is
    born killed: its [killed] flag is set before it ever runs. *)
Theorem kill0_next_child_born_killed (c me : nat) (k k1 k2 : kernel) (w w2 : W) (r ret : Z) (free : nat) (p q : proc) :
  table_ok k -> nextpid k < 2 ^ 31 - 1 -> myproc k c = Some me -> get k me = Some p ->
  procs k !! free = Some q -> state q = UNUSED ->
  kkill 0 k = (r, k1) -> kfork forkret_addr c k1 w = Some (ret, k2, w2) -> 0 <= ret ->
  r = 0 /\ exists n np, procs k2 !! n = Some np /\ pid np = ret /\ state np = RUNNABLE /\ killed np = 1.
Proof.
  intros Hk Hn Hc Hp Hq Hu Hkill Hfork Hret.
  destruct (find_index (is_state UNUSED) (procs k)) as [i|] eqn:Hf.
  2:{ rewrite find_index_None in Hf. specialize (Hf q ltac:(by eapply list_elem_of_lookup_2)).
      by apply is_state_false in Hf. }
  pose proof (kkill_ok 0 k Hk) as Hk1. unfold kkill in Hkill, Hk1. rewrite (first_pid0 k Hk), Hf in Hkill, Hk1.
  injection Hkill as <- <-. split; [done|]. simpl in Hk1.
  pose proof Hf as [(qi & Hqi & Hui%is_state_true) _]%find_index_Some.
  set (f := fun p0 => _) in *.
  assert (Hfq : f qi = set_killed 1 qi) by (unfold f, is_state; simpl; by rewrite Hui).
  assert (Hi : procs (upd i f k) !! i = Some (set_killed 1 qi)) by (rewrite <- Hfq; by apply upd_lookup_eq).
  assert (Hme : get (upd i f k) me = Some p).
  { unfold get. rewrite upd_lookup_ne; [done|]. intros ->.
    destruct (table_running k c me Hk Hc) as (p' & Hp' & Hr & _). unfold get in *. simplify_eq. congruence. }
  destruct (kfork_spec forkret_addr c (upd i f k) w me p Hk1 Hn Hc Hme) as (r' & k' & w' & E & _ & Hforked).
  rewrite E in Hfork. injection Hfork as -> -> ->.
  destruct Hforked as (_ & _ & _ & _ & [[-> _]|(-> & n & qn & np & Hfirst & Hqn & _ & Hnp & Hch & Hkl & _)]); [lia|].
  exists n, np. destruct Hch as (Hs & _ & Hpid & _). split_and!; try done. rewrite Hkl.
  enough (n = i) as -> by (simplify_eq; done).
  enough (Hf1 : find_index (is_state UNUSED) (procs (upd i f k)) = Some i) by congruence.
  apply find_index_Some in Hf as [_ Hmin]. apply find_index_Some. split.
  - exists (set_killed 1 qi). split; [done|]. by apply is_state_true.
  - intros j y Hj Hy. rewrite upd_lookup_ne in Hy by lia. by apply (Hmin j).
Qed.
End Kill0.

(** ** A concrete environment: pages are numbered, copies succeed. *)
Definition DemoW : Type := Z.
#[export] Instance DemoEnv : ProcEnv DemoW := {
  kalloc w := (Some (w * PGSIZE), w + 1);
  kfree _ w := w;
  proc_pagetable _ w := (Some (w * PGSIZE), w + 1);
  proc_freepagetable _ _ w := w;
  uvmcopy _ _ _ w := (0, w);
  copyout_int _ _ _ _ w := (0, w);
  filedup _ w := w;
  fileclose _ w := w;
  idup _ w := w;
  iput_op _ w := w;
  namei_root w := (1, w)
}.

Definition demo_boot : kernel * DemoW :=
  default (zero_kernel, 0) (userinit 0 boot_kernel 7).

Lemma demo_ok es k (w : DemoW) :
  Z.of_nat (length es) < 1000 -> run 0 MLFQ es demo_boot.1 demo_boot.2 = Some (k, w) -> table_ok k.
Proof.
  intros Hl Hr. assert (Hb : userinit 0 boot_kernel 7 = Some (demo_boot.1, demo_boot.2)) by (vm_compute; reflexivity).
  destruct (boot_ok 0 7 demo_boot.1 demo_boot.2 Hb) as [Hk Hn].
  apply (run_ok 0 MLFQ es demo_boot.1 demo_boot.2 k w Hk); [lia | exact Hr].
Qed.

(** The state of the demonstration after some events. *)
Definition demo (es : list event) : kernel * DemoW :=
  default (zero_kernel, 0) (run 0 MLFQ es demo_boot.1 demo_boot.2).

(** init forks twice, waits, one child exits, init reaps it. *)
Definition demo_events : list event :=
  [ESchedule 0 0; EFork 0; EFork 0; EWait 0 0; ESchedule 1 0; ETimer 1; ESchedule 2 0; EExit 2 7;
   ESchedule 0 0; EWait 0 16].
Definition demo_end : kernel * DemoW := demo demo_events.

Lemma reachable_table_ok_witness : table_ok demo_end.1.
Proof.
  apply (reachable_table_ok 0 MLFQ (7 : DemoW) demo_boot.2 demo_end.2 demo_boot.1 demo_end.1 demo_events);
    vm_compute; reflexivity.
Defined.

Lemma reachable_no_panic_witness :
  step 0 MLFQ (EExit 0 0) demo_end.1 demo_end.2 = None <-> init_exits demo_end.1 (EExit 0 0).
Proof.
  apply (reachable_no_panic 0 MLFQ (7 : DemoW) demo_boot.2 demo_end.2 demo_boot.1 demo_end.1 demo_events);
    vm_compute; reflexivity.
Defined.

(** In the demonstration, init kills 0 and forks again. *)
Lemma kill0_next_child_born_killed_witness :
  exists k1 k2 w2 ret, kkill 0 demo_end.1 = (0, k1) /\ kfork 0 0 k1 demo_end.2 = Some (ret, k2, w2) /\
    exists n np, procs k2 !! n = Some np /\ pid np = ret /\ state np = RUNNABLE /\ killed np = 1.
Proof.
  set (k1 := (kkill 0 demo_end.1).2).
  set (out := default (0, zero_kernel, 0) (kfork 0 0 k1 demo_end.2)).
  exists k1, out.1.2, out.2, out.1.1. split; [vm_compute; reflexivity|]. split; [vm_compute; reflexivity|].
  apply (kill0_next_child_born_killed 0 0 0 demo_end.1 k1 out.1.2 demo_end.2 out.2 0 out.1.1 5
    (default zero_proc (get demo_end.1 0)) (default zero_proc (get demo_end.1 5))); try (vm_compute; reflexivity).
  - apply (demo_ok demo_events _ demo_end.2); vm_compute; reflexivity.
  - vm_compute; discriminate.
Defined.
