(* ===== verification/Wakeup.v ===== *)
(** * Sleep and wakeup (xv6/kernel/proc.c)

    A process registers with [sleep_prepare], checks its condition, and then
    calls [sleep]; these theorems say that a wakeup sent in between, or at any
    later moment, is never lost, and that [exit] wakes a waiting parent. *)
From S2P Require Import Prelude Proc Sched Table Lifecycle Kernel.
Local Open Scope Z_scope.

#[export] Instance event_eq_dec : EqDecision event.
Proof. solve_decision. Defined.

(** ** What an event may do to the slot of a process that does not register *)
Definition nudge (p p' : proc) : Prop :=
  (chan p' = chan p /\ (state p' = SLEEPING -> state p = SLEEPING \/ chan p <> None)) \/
  (chan p' = None /\ state p' <> SLEEPING).

Definition nudged (me : nat) (k k' : kernel) : Prop :=
  forall p, procs k !! me = Some p -> life_of p = Alive ->
  exists p', procs k' !! me = Some p' /\ life_of p' = Alive /\ nudge p p'.

Lemma nudge_same p p' : chan p' = chan p -> state p' = state p -> nudge p p'.
Proof. intros E1 E2. left. rewrite E1, E2. auto. Qed.

Lemma nudge_awake p p' : chan p' = chan p -> state p' <> SLEEPING -> nudge p p'.
Proof. intros E H. left. auto. Qed.

Lemma nudged_refl me k k' : procs k' = procs k -> nudged me k k'.
Proof. intros E p Hp Ha. exists p. rewrite E. split_and!; auto using nudge_same. Qed.

Lemma nudge_trans p q r : nudge p q -> nudge q r -> nudge p r.
Proof.
  unfold nudge. intros [[E H]|[E H]] [[E' H']|[E' H']]; try by right.
  - left. rewrite E in *. split; [done|]. intros [?|?]%H'; auto.
  - right. rewrite E in *. split; [done|]. by intros [?|?]%H'.
Qed.

Lemma nudged_trans me k1 k2 k3 : nudged me k1 k2 -> nudged me k2 k3 -> nudged me k1 k3.
Proof.
  intros H1 H2 p Hp Ha. destruct (H1 p Hp Ha) as (q & Hq & Hqa & Hn).
  destruct (H2 q Hq Hqa) as (r & Hr & Hra & Hn'). exists r. eauto using nudge_trans.
Qed.

Lemma nudged_upd me i f k :
  (forall p, get k i = Some p -> i = me -> life_of p = Alive -> life_of (f p) = Alive /\ nudge p (f p)) ->
  nudged me k (upd i f k).
Proof.
  intros H p Hp Ha. destruct (decide (i = me)) as [->|Hne].
  - exists (f p). destruct (H p Hp eq_refl Ha). split_and!; auto. by apply upd_lookup_eq.
  - exists p. rewrite upd_lookup_ne by done. split_and!; auto using nudge_same.
Qed.

Lemma nudged_map me f k :
  (forall p, life_of p = Alive -> life_of (f p) = Alive /\ nudge p (f p)) ->
  nudged me k (set_procs (f <$> procs k) k).
Proof.
  intros H p Hp Ha. exists (f p). simpl. rewrite list_lookup_fmap, Hp. split; [done|]. by apply H.
Qed.

Lemma wakeup_one_nudge ch p : life_of p = Alive ->
  life_of (wakeup_one ch p) = Alive /\ nudge p (wakeup_one ch p).
Proof.
  intros Ha. unfold wakeup_one, is_state. case_bool_decide; [|auto using nudge_same].
  case_bool_decide as Hs; simpl in *; (split; [done|]); by right.
Qed.

Lemma nudged_wakeup me ch k : nudged me k (wakeup ch k).
Proof. apply nudged_map. apply wakeup_one_nudge. Qed.

Lemma nudged_update_time me k : nudged me k (update_time k).
Proof. apply nudged_map. intros p Ha. destruct (is_state _ _); auto using nudge_same. Qed.

Lemma nudged_clockintr me pol c k : nudged me k (clockintr pol c k).
Proof.
  unfold clockintr. destruct (c =? 0)%nat; [|by apply nudged_refl].
  set (k1 := wakeup (Some CTicks) (set_ticks (u32 (ticks k + 1)) k)).
  assert (H : nudged me k (update_time k1)).
  { apply (nudged_trans me k k1); [|apply nudged_update_time].
    apply (nudged_wakeup me (Some CTicks) (set_ticks (u32 (ticks k + 1)) k)). }
  destruct pol; auto. destruct (_ =? 0); auto. eapply nudged_trans; [exact H|].
  apply (nudged_map me boost_one (update_time k1)). intros p Ha. unfold boost_one.
  destruct (negb _); auto using nudge_same.
Qed.

Lemma nudged_yield me c k k' : yield c k = Some k' -> nudged me k k'.
Proof.
  unfold yield, sched. destruct (myproc k c) as [i|]; [|done]. cbn [mbind option_bind].
  destruct (myproc (upd i _ k) c) as [j|]; [|done]. cbn [mbind option_bind].
  destruct (get _ j) as [p|]; [|done]. cbn [mbind option_bind].
  destruct (is_state _ _); [done|]. intros [= <-].
  apply (nudged_trans me k (upd i (set_state RUNNABLE) k)); [|by apply nudged_refl].
  apply nudged_upd. intros q _ _ _. split; [done|]. by apply nudge_awake.
Qed.

Lemma charge_nudge t p e p' : charge t p = Some (e, p') -> chan p' = chan p /\ state p' = state p.
Proof.
  unfold charge. simpl. destruct (if _ : bool then None else _) as [s|]; [|done]. simpl.
  destruct (s <=? _); intros [= <- <-]; [|done]. by destruct (priority p <? 3).
Qed.

Lemma nudged_timer me pol c k k' : timer_interrupt pol c k = Some k' -> nudged me k k'.
Proof.
  intros H. eapply nudged_trans; [apply (nudged_clockintr me pol c)|].
  revert H. unfold timer_interrupt, timer_yield. generalize (clockintr pol c k). intros k1. destruct pol.
  - destruct (myproc k1 c); [apply nudged_yield | intros [= <-]; by apply nudged_refl].
  - intros [= <-]. by apply nudged_refl.
  - unfold mlfq_tick. destruct (myproc k1 c) as [i|]; [|intros [= <-]; by apply nudged_refl].
    destruct (get k1 i) as [p|] eqn:Hp; [|done]. cbn [mbind option_bind].
    destruct (charge _ p) as [[e p']|] eqn:Hc; [|done]. cbn [mbind option_bind].
    assert (Hu : nudged me k1 (upd i (const p') k1)).
    { destruct (charge_nudge _ _ _ _ Hc) as [E1 E2]. apply nudged_upd. intros q Hq _ Ha. simplify_eq.
      unfold const, life_of in *. rewrite E2. auto using nudge_same. }
    destruct (e || _); [|by intros [= <-]]. intros Hy. by eapply nudged_trans, nudged_yield.
Qed.

Lemma nudged_dispatch me c i k : nudged me k (dispatch c i k).
Proof.
  apply (nudged_trans me k (upd i (run_now (ticks k)) k)); [|by apply nudged_refl].
  apply nudged_upd. intros p _ _ _. unfold run_now. split; [done|].
  apply nudge_awake; [by destruct (first_run p <? 0) | done].
Qed.

Lemma nudged_schedule me pol c cursor k : nudged me k (schedule pol c cursor k).2.
Proof.
  destruct pol; simpl.
  - unfold rr_schedule. destruct (rr_next _ _); [apply nudged_dispatch | by apply nudged_refl].
  - unfold fifo_schedule. destruct (fifo_scan _ _ _) as [[i p]|]; [apply nudged_dispatch | by apply nudged_refl].
  - unfold mlfq_schedule. rewrite mlfq_scan_pick.
    assert (H : nudged me k (set_procs (settle (ticks k) <$> procs k) k)).
    { apply nudged_map. intros p Ha. unfold settle, enqueue. destruct (runnable p); [|auto using nudge_same].
      destruct (queued p =? 0); auto using nudge_same. }
    destruct (pick _ _ _ _ _) as [[i p]|]; [|done]. eapply nudged_trans; [exact H | apply nudged_dispatch].
Qed.

Section Wakeups.
Context {W : Type} `{!ProcEnv W} (forkret_addr : Z) (pol : policy).

(** Events by which the process in slot [me] registers on a channel again,
    or ends. *)
Definition registers (me : nat) (k : kernel) (e : event) : bool :=
  match e with
  | ESleepPrepare c _ | EWait c _ | EWaitx c _ _ _ _ | EExit c _ => bool_decide (myproc k c = Some me)
  | _ => false
  end.

Lemma nudged_sleep me c k i k' :
  table_ok k -> myproc k c = Some i -> sleep c k = Some k' -> nudged me k k'.
Proof.
  intros Hk Hc. destruct (table_running k c i Hk Hc) as (p & Hp & Hr & _).
  unfold sleep. rewrite Hc. cbn [mbind option_bind]. rewrite Hp. cbn [mbind option_bind].
  destruct (chan p) as [ch|] eqn:Hch; [|intros [= <-]; by apply nudged_refl].
  unfold sched. destruct (myproc (upd i _ k) c) as [j|]; [|done]. cbn [mbind option_bind].
  destruct (get _ j) as [q|]; [|done]. cbn [mbind option_bind].
  destruct (is_state _ _); [done|]. intros [= <-].
  apply (nudged_trans me k (upd i (set_state SLEEPING) k)); [|by apply nudged_refl].
  apply nudged_upd. intros q' Hq' _ _. simplify_eq. split; [done|]. left. split; [done|].
  intros _. right. congruence.
Qed.

Lemma nudged_waited me c i p k r k' : i <> me -> waited c i p k r k' -> nudged me k k'.
Proof.
  intros Hne. destruct r; simpl.
  - intros [[_ ->]|(j & pp & Hj & _ & Hs & _ & np & -> & _)]; [by apply nudged_refl|].
    apply nudged_upd. intros q Hq -> Ha. unfold get in Hq. simplify_eq. unfold life_of in Ha. by rewrite Hs in Ha.
  - intros (_ & _ & _ & ->). unfold asleep_in_wait.
    apply (nudged_trans me k (upd i (set_state SLEEPING ∘ set_chan (Some (CProc i))) k)); [|by apply nudged_refl].
    apply nudged_upd. by intros q _ ->.
Qed.

Lemma step_nudged me e k (w : W) k' w' :
  table_ok k -> nextpid k < 2 ^ 31 - 1 -> enabled k e = true -> registers me k e = false ->
  step forkret_addr pol e k w = Some (k', w') -> nudged me k k'.
Proof.
  intros Hk Hn He Hreg Hs. destruct e; simpl in He, Hreg, Hs;
    try apply bool_decide_eq_true in He as [i Hc]; try rewrite Hc in Hreg; try apply bool_decide_eq_false in Hreg;
    try (destruct (table_running k c i Hk Hc) as (p & Hp & _)).
  - apply fmap_Some in Hs as (k1 & Hs & [= -> ->]). by eapply nudged_timer.
  - injection Hs as <- <-. apply nudged_schedule.
  - apply fmap_Some in Hs as (k1 & Hs & [= -> ->]). by eapply nudged_yield.
  - destruct (kfork_spec forkret_addr c k w i p Hk Hn Hc Hp) as (r & k1 & w1 & E & _ & Hf).
    rewrite E in Hs. injection Hs as <- <-. simpl.
    destruct Hf as (_ & _ & _ & _ & [[_ H]|(_ & n & q & np & _ & Hq & Hq' & _ & _ & _ & H)]);
      intros p' Hp' Ha; exists p'; (split; [|auto using nudge_same]).
    + destruct (H me p' Hp') as [?|[Hu _]]; [done|]. unfold life_of in Ha. by rewrite Hu in Ha.
    + rewrite H; [done|]. intros ->. simplify_eq. unfold life_of in Ha. by rewrite Hq' in Ha.
  - pose proof (kexit_not_init c status k w i _ Hs Hc) as Hi.
    destruct (kexit_spec c status k w i p Hk Hc Hp Hi) as (k1 & w1 & E & _ & [_ H] & _).
    rewrite E in Hs. injection Hs as <- <-. intros q Hq Ha. destruct (H me q Hq) as (q' & Hq' & Hx).
    exists q'. split; [done|]. unfold exits in Hx. rewrite decide_False in Hx by congruence.
    destruct Hx as (b & ->). set (q1 := rouse b _ _).
    assert (H1 : life_of q1 = Alive /\ nudge q q1).
    { unfold q1. destruct b; [|auto using nudge_same].
      apply (wakeup_one_nudge _ (adopt i (initproc k) q) Ha). }
    destruct H1 as [Ha1 Hn1]. destruct (wakeup_one_nudge (CProc <$> heir i (initproc k) p) q1 Ha1) as [Ha2 Hn2].
    split; [done|]. by eapply nudge_trans.
  - destruct (kwait_spec c addr k w i p Hk Hc Hp) as (r & k1 & w1 & E & _ & Hw).
    rewrite E in Hs. injection Hs as <- <-. eapply nudged_waited; [|done]. congruence.
  - destruct (kwaitx_spec c addr rt_addr wt_addr rest_addr k w i p Hk Hc Hp) as (r & k1 & w1 & E & _ & Hw).
    rewrite E in Hs. injection Hs as <- <-. eapply nudged_waited; [|done]. congruence.
  - rewrite (proj1 (sleep_prepare_ok c ch k i Hk Hc)) in Hs. injection Hs as <- <-.
    apply nudged_upd. intros q _ ->. congruence.
  - apply fmap_Some in Hs as (k1 & Hs & [= -> ->]). by eapply nudged_sleep.
  - injection Hs as <- <-. apply nudged_wakeup.
  - injection Hs as <- <-. unfold kkill. destruct (find_index _ _) as [j|]; [|by apply nudged_refl].
    apply nudged_upd. intros q _ _ Ha. unfold is_state. simpl. case_bool_decide.
    + split; [done|]. by apply nudge_awake.
    + auto using nudge_same.
  - rewrite Hc in Hs. injection Hs as <- <-. apply nudged_upd. auto using nudge_same.
Qed.

(** The process in slot [me] is registered on [ch] ([b = true]), or the
    wakeup has already reached it. *)
Definition listening (me : nat) (ch : channel) (b : bool) (k : kernel) : Prop :=
  exists p, procs k !! me = Some p /\ life_of p = Alive /\
    ((b = true /\ chan p = Some ch) \/ (chan p = None /\ state p <> SLEEPING)).

Lemma listening_nudged me ch b k k' : nudged me k k' -> listening me ch b k -> listening me ch b k'.
Proof.
  intros H (p & Hp & Ha & Hl). destruct (H p Hp Ha) as (p' & Hp' & Ha' & Hn). exists p'.
  split_and!; auto. destruct Hn as [[E Hs]|?]; [|by right]. rewrite E.
  destruct Hl as [?|[Hc Hns]]; [by left|]. right. split; [done|]. intros [?|?]%Hs; congruence.
Qed.

Lemma listening_wakeup me ch b k : listening me ch b k -> listening me ch false (wakeup (Some ch) k).
Proof.
  intros (p & Hp & Ha & Hl). exists (wakeup_one (Some ch) p).
  destruct (wakeup_one_nudge (Some ch) p Ha) as [Ha' _].
  split_and!; [simpl; by rewrite list_lookup_fmap, Hp | done|]. right.
  unfold wakeup_one, is_state. destruct Hl as [[_ Hc]|[Hc Hs]].
  - rewrite bool_decide_true by done. simpl. by case_bool_decide.
  - by rewrite bool_decide_false by congruence.
Qed.

(** No event of the run is a new registration of [me]. *)
Fixpoint unregistered (me : nat) (es : list event) (k : kernel) (w : W) : Prop :=
  match es with
  | [] => True
  | e :: es' =>
      registers me k e = false /\
      match step forkret_addr pol e k w with
      | Some (k', w') => unregistered me es' k' w'
      | None => True
      end
  end.

Lemma listening_run me ch es : forall b k (w : W) k' w',
  table_ok k -> nextpid k + Z.of_nat (length es) < 2 ^ 31 - 1 ->
  unregistered me es k w -> run forkret_addr pol es k w = Some (k', w') ->
  listening me ch b k -> listening me ch (b && negb (existsb (fun e => bool_decide (e = EWakeup ch)) es)) k'.
Proof.
  induction es as [|e es IH]; intros b k w k' w' Hk Hn Hu Hr Hl; cbn [run unregistered existsb] in *.
  { injection Hr as <- <-. by rewrite andb_true_r. }
  destruct (enabled k e) eqn:He; [|done]. destruct Hu as [Hreg Hu]. cbn [length] in Hn.
  destruct (step forkret_addr pol e k w) as [[k1 w1]|] eqn:Hs; [|done]. cbn [mbind option_bind] in Hr.
  destruct (step_ok forkret_addr pol e k w Hk ltac:(lia) He) as [(k2 & w2 & E & Hk1 & Hn1)|(c & st & -> & Hc)].
  2:{ exfalso. simpl in Hs. by rewrite kexit_init in Hs. }
  rewrite E in Hs. injection Hs as <- <-.
  case_bool_decide as Hw; simpl.
  - subst e. simpl in E. injection E as <- <-. rewrite andb_false_r.
    apply (IH false (wakeup (Some ch) k) w k' w'); auto; [lia|]. by eapply listening_wakeup.
  - eapply (IH b); eauto; [lia|]. eapply listening_nudged; [|done]. eapply step_nudged; eauto. lia.
Qed.

(** C13: no wakeup is lost.  Once a process has registered on a channel with
    [sleep_prepare], a wakeup of that channel at any later moment, before,
    between or after its [sleep], leaves it awake and unregistered, whatever
    the other processes, cores and timer interrupts do meanwhile. *)
Theorem no_lost_wakeup (c me : nat) (ch : channel) (k k1 k' : kernel) (w w' : W) (es : list event) :
  table_ok k -> nextpid k + Z.of_nat (length es) < 2 ^ 31 - 1 ->
  myproc k c = Some me -> sleep_prepare c (Some ch) k = Some k1 ->
  run forkret_addr pol es k1 w = Some (k', w') -> unregistered me es k1 w ->
  EWakeup ch ∈ es ->
  exists p, procs k' !! me = Some p /\ chan p = None /\ state p <> SLEEPING.
Proof.
  intros Hk Hn Hc Hp Hr Hu Hin.
  destruct (sleep_prepare_ok c ch k me Hk Hc) as [E Hk1]. rewrite E in Hp. injection Hp as <-.
  destruct (table_running k c me Hk Hc) as (p & Hp & Hrun & _).
  assert (Hl : listening me ch true (upd me (set_chan (Some ch)) k)).
  { exists (set_chan (Some ch) p). split_and!; [by apply upd_lookup_eq | unfold life_of; simpl; by rewrite Hrun|].
    by left. }
  apply (listening_run me ch es true _ w k' w' Hk1 Hn Hu Hr) in Hl as (q & Hq & _ & [[Hb _]|H]); [|eauto].
  exfalso. simpl in Hb. apply negb_true_iff, not_true_iff_false in Hb. apply Hb.
  apply existsb_exists. exists (EWakeup ch). split; [by apply list_elem_of_In | by apply bool_decide_true].
Qed.

Lemma rouse_sleeping b ch p c :
  state p = SLEEPING /\ chan p = Some c ->
  (state (rouse b ch p) = SLEEPING /\ chan (rouse b ch p) = Some c /\ (b = true -> ch <> Some c)) \/
  (state (rouse b ch p) = RUNNABLE /\ chan (rouse b ch p) = None).
Proof.
  intros [Hs Hc]. destruct b; simpl; [|by left]. unfold wakeup_one, is_state. simpl. rewrite Hs, Hc.
  case_bool_decide; [by right|]. left. split_and!; congruence.
Qed.

(** The exit of a child wakes a parent asleep in [wait]: afterwards the
    parent is RUNNABLE and its next scan of the table finds a zombie. *)
Theorem exit_wakes_waiting_parent (c me par : nat) (status : Z) (k k' : kernel) (w w' : W) (p q : proc) :
  table_ok k -> myproc k c = Some me -> get k me = Some p -> parent p = Some par -> par <> me ->
  get k par = Some q -> state q = SLEEPING -> chan q = Some (CProc par) ->
  kexit c status k w = Some (k', w') ->
  (exists q', get k' par = Some q' /\ state q' = RUNNABLE) /\ is_Some (find_zombie par k').
Proof.
  intros Hk Hc Hp Hpar Hne Hq Hsl Hch Hx.
  pose proof (kexit_not_init c status k w me _ Hx Hc) as Hi.
  destruct (kexit_spec c status k w me p Hk Hc Hp Hi) as (k1 & w1 & E & Hk1 & [_ H] & _).
  rewrite E in Hx. injection Hx as <- <-.
  assert (Hh : heir me (initproc k) p = Some par) by (unfold heir; rewrite bool_decide_false by congruence; done).
  rewrite Hh in H. split.
  - destruct (H par q Hq) as (q' & Hq' & He). exists q'. split; [done|]. unfold exits in He.
    rewrite decide_False in He by done. destruct He as (b & ->).
    set (q1 := adopt me (initproc k) q). assert (Hq1 : state q1 = SLEEPING /\ chan q1 = Some (CProc par)) by done.
    destruct (rouse_sleeping b (CProc <$> initproc k) q1 (CProc par) Hq1) as [(Hr1 & Hr2 & _)|Hr].
    + simpl. by destruct (rouse_sleeping true (Some (CProc par)) _ (CProc par) (conj Hr1 Hr2)) as [(_ & _ & Hx)|[Hx _]];
        [destruct Hx|].
    + unfold rouse at 1, wakeup_one. destruct Hr as [Hs Hn]. by rewrite Hn.
  - destruct (find_zombie par k1) as [i|] eqn:Hz; [eauto|]. exfalso.
    destruct (H me p Hp) as (p' & Hp' & He). unfold exits in He. rewrite decide_True in He by done.
    destruct He as (Hs & _ & _ & _ & Hpp & _). unfold find_zombie in Hz.
    rewrite find_index_None in Hz. specialize (Hz p' ltac:(by eapply list_elem_of_lookup_2)).
    rewrite Hpp, Hh in Hz. unfold is_state in Hz. rewrite Hs in Hz. by rewrite !bool_decide_true in Hz.
Qed.
End Wakeups.

(** ** The theorems on a concrete run: init and a child on two cores. *)
Definition two_running : kernel * DemoW := demo [ESchedule 0 0; EFork 0; ESchedule 1 0].
Definition meanwhile : list event :=
  [ETimer 0; EKill 2; ESchedule 0 0; ESleep 0; EWakeup CTicks; EWakeup (CObj 5); ETimer 1].

Lemma no_lost_wakeup_witness :
  exists k1 k' w', sleep_prepare 0 (Some (CObj 5)) two_running.1 = Some k1 /\
    run 0 MLFQ meanwhile k1 two_running.2 = Some (k', w') /\
    exists p, procs k' !! 0%nat = Some p /\ chan p = None /\ state p <> SLEEPING.
Proof.
  set (k1 := default zero_kernel (sleep_prepare 0 (Some (CObj 5)) two_running.1)).
  set (r := default (zero_kernel, 0) (run 0 MLFQ meanwhile k1 two_running.2)).
  exists k1, r.1, r.2. split; [vm_compute; reflexivity|]. split; [vm_compute; reflexivity|].
  apply (no_lost_wakeup 0 MLFQ 0 0 (CObj 5) two_running.1 k1 r.1 two_running.2 r.2 meanwhile).
  - apply (demo_ok [ESchedule 0 0; EFork 0; ESchedule 1 0] _ two_running.2); vm_compute; reflexivity.
  - vm_compute; reflexivity.
  - vm_compute; reflexivity.
  - vm_compute; reflexivity.
  - vm_compute; reflexivity.
  - vm_compute; repeat split.
  - apply list_elem_of_In. simpl. tauto.
Defined.

Definition waiting : kernel * DemoW := demo [ESchedule 0 0; EFork 0; EWait 0 0; ESchedule 1 0].

Lemma exit_wakes_waiting_parent_witness :
  exists k' w', kexit 1 3 waiting.1 waiting.2 = Some (k', w') /\
    (exists q', get k' 0 = Some q' /\ state q' = RUNNABLE) /\ is_Some (find_zombie 0 k').
Proof.
  set (r := default (zero_kernel, 0) (kexit 1 3 waiting.1 waiting.2)).
  exists r.1, r.2. split; [vm_compute; reflexivity|].
  apply (exit_wakes_waiting_parent 1 1 0 3 waiting.1 r.1 waiting.2 r.2
    (default zero_proc (get waiting.1 1)) (default zero_proc (get waiting.1 0)));
    try (vm_compute; reflexivity); [|vm_compute; discriminate].
  apply (demo_ok [ESchedule 0 0; EFork 0; EWait 0 0; ESchedule 1 0] _ waiting.2); vm_compute; reflexivity.
Defined.
