(* ===== verification/Accounting.v ===== *)
(** * Time accounting (xv6/kernel/proc.c, trap.c)

    The statistics kept per process ([ctime], [etime], [rtime], [first_run],
    [enq_time]) are consistent with the tick counter in every reachable state,
    so that [kwaitx] reports an exact decomposition of the turnaround time. *)
From S2P Require Import Prelude Proc Sched Table Lifecycle Kernel.
Local Open Scope Z_scope.

(** Last tick of the life of a process: its exit, or now. *)
Definition last_tick (t : Z) (p : proc) : Z := if is_state ZOMBIE p then etime p else t.

Definition acct (t : Z) (p : proc) : Prop :=
  enq_time p <= t /\
  (state p <> UNUSED ->
     0 <= ctime p /\ 0 <= rtime p /\ ctime p + rtime p <= last_tick t p <= t /\
     (first_run p = -1 \/ ctime p <= first_run p <= last_tick t p)).

Definition accounts (k : kernel) : Prop :=
  0 <= ticks k /\ forall i p, procs k !! i = Some p -> acct (ticks k) p.

(** Changes that leave the statistics alone. *)
Definition same_times (p p' : proc) : Prop :=
  ctime p' = ctime p /\ rtime p' = rtime p /\ first_run p' = first_run p /\ etime p' = etime p /\
  enq_time p' = enq_time p /\ (state p' = ZOMBIE <-> state p = ZOMBIE) /\
  (state p = UNUSED -> state p' = UNUSED).

Lemma last_tick_same t p p' : same_times p p' -> last_tick t p' = last_tick t p.
Proof.
  intros (_ & _ & _ & E & _ & H & _). unfold last_tick, is_state. rewrite E.
  by rewrite (bool_decide_ext _ _ H).
Qed.

Lemma acct_same t p p' : same_times p p' -> acct t p -> acct t p'.
Proof.
  intros Hs. pose proof (last_tick_same t p p' Hs) as El.
  destruct Hs as (E1 & E2 & E3 & _ & E5 & _ & Hu). unfold acct. rewrite El, E1, E2, E3, E5.
  intros [H1 H2]. split; [done|]. intros Hn. apply H2. auto.
Qed.

Lemma acct_mono t t' p : t <= t' -> acct t p -> acct t' p.
Proof.
  unfold acct, last_tick. intros Ht [H1 H2]. split; [lia|]. intros Hn. specialize (H2 Hn).
  destruct (is_state ZOMBIE p); lia.
Qed.

Lemma accounts_pointwise (R : nat -> proc -> proc -> Prop) k k' :
  pointwise R k k' -> accounts k -> ticks k' = ticks k ->
  (forall i p p', procs k !! i = Some p -> R i p p' -> acct (ticks k) p -> acct (ticks k) p') ->
  accounts k'.
Proof.
  intros Hp [H0 Ha] Et HR. split; [lia|]. rewrite Et.
  intros i p' (p & Hq & H)%(pointwise_inv _ _ _ _ _ Hp). eauto.
Qed.

Lemma accounts_upd i f k :
  accounts k -> (forall p, get k i = Some p -> acct (ticks k) p -> acct (ticks k) (f p)) ->
  accounts (upd i f k).
Proof.
  intros Ha Hf. apply (accounts_pointwise (fun j p p' => if decide (j = i) then p' = f p else p' = p) k); try done.
  - apply pointwise_upd; intros; [by rewrite decide_True | by rewrite decide_False].
  - intros j p p' Hp HR. case_decide; subst; auto.
Qed.

Lemma accounts_map f k :
  accounts k -> (forall p, acct (ticks k) p -> acct (ticks k) (f p)) -> accounts (set_procs (f <$> procs k) k).
Proof.
  intros Ha Hf. apply (accounts_pointwise (fun _ p p' => p' = f p) k); try done.
  - by apply pointwise_map.
  - by intros i p p' _ ->; apply Hf.
Qed.

Lemma accounts_frame k k' : procs k' = procs k -> ticks k' = ticks k -> accounts k -> accounts k'.
Proof. intros E1 E2 [? ?]. split; rewrite ?E1, E2; done. Qed.

Lemma wakeup_one_times ch p : same_times p (wakeup_one ch p).
Proof.
  unfold wakeup_one, is_state. case_bool_decide; [|done]. simpl. case_bool_decide as Hs; [|done].
  unfold same_times. simpl. rewrite Hs. split_and!; try done.
Qed.

Lemma accounts_wakeup ch k : accounts k -> accounts (wakeup ch k).
Proof. intros H. apply accounts_map; [done|]. intros p. apply acct_same, wakeup_one_times. Qed.

(** ** Ticks *)
Lemma accounts_clock pol c k :
  accounts k -> ticks k + 1 < 2 ^ 31 ->
  accounts (clockintr pol c k) /\ ticks k <= ticks (clockintr pol c k) <= ticks k + 1.
Proof.
  intros [H0 Ha] Hb. unfold clockintr. destruct (c =? 0)%nat; [|split; [done | lia]].
  set (k1 := set_ticks (u32 (ticks k + 1)) k).
  assert (Et : ticks k1 = ticks k + 1) by (simpl; apply u32_id; unfold in_u32; lia).
  set (f := fun p => if is_state RUNNING p then set_rtime (u32 (rtime p + 1)) p else p).
  assert (Hf : forall p, acct (ticks k) p -> acct (ticks k1) (f (wakeup_one (Some CTicks) p))).
  { intros p Hp. apply (acct_same _ _ _ (wakeup_one_times (Some CTicks) p)) in Hp. revert Hp.
    generalize (wakeup_one (Some CTicks) p). clear p. intros p Hp. rewrite Et. unfold f.
    destruct (is_state RUNNING p) eqn:Hr; [|by apply (acct_mono (ticks k)); [lia|]].
    apply is_state_true in Hr. destruct Hp as [He Hp]. specialize (Hp ltac:(congruence)).
    unfold acct, last_tick, is_state in *. simpl. rewrite Hr in *. simpl in *.
    rewrite u32_id by (unfold in_u32; lia). split; [lia|]. intros _. lia. }
  assert (H2 : accounts (update_time (wakeup (Some CTicks) k1))).
  { split; [simpl in *; lia|]. intros i p. cbn [procs ticks update_time wakeup set_procs].
    rewrite !list_lookup_fmap. intros (q & (r & Hr & ->)%fmap_Some & ->)%fmap_Some. apply Hf. by apply (Ha i). }
  destruct pol; [split; [done | simpl in *; lia].. |].
  destruct (_ =? 0); [|split; [done | simpl in *; lia]]. split; [|simpl in *; lia].
  apply (accounts_frame (set_procs (boost_one <$> procs (update_time (wakeup (Some CTicks) k1)))
    (update_time (wakeup (Some CTicks) k1)))); try done.
  apply accounts_map; [done|]. intros p. apply acct_same. unfold boost_one. by destruct (negb _).
Qed.

Lemma accounts_yield c k k' : accounts k -> table_ok k -> yield c k = Some k' -> accounts k' /\ ticks k' = ticks k.
Proof.
  intros Ha Hk Hy. destruct (myproc k c) as [i|] eqn:Hc; [|unfold yield in Hy; by rewrite Hc in Hy].
  destruct (yield_ok c k i Hk Hc) as [E _]. rewrite E in Hy. injection Hy as <-. split; [|done].
  apply (accounts_frame (upd i (set_state RUNNABLE) k)); try done.
  apply accounts_upd; [done|]. intros p Hp. apply acct_same.
  destruct (table_running k c i Hk Hc) as (p' & Hp' & Hr & _). simplify_eq.
  unfold same_times. simpl. rewrite Hr. by split_and!.
Qed.

Lemma accounts_timer pol c k k' :
  accounts k -> table_ok k -> ticks k + 1 < 2 ^ 31 -> timer_interrupt pol c k = Some k' ->
  accounts k' /\ ticks k <= ticks k' <= ticks k + 1.
Proof.
  intros Ha Hk Hb. destruct (accounts_clock pol c k Ha Hb) as [Ha1 Ht1].
  pose proof (clockintr_ok pol c k Hk) as Hk1. unfold timer_interrupt, timer_yield.
  revert Ha1 Ht1 Hk1. generalize (clockintr pol c k). intros k1 Ha1 Ht1 Hk1. destruct pol.
  - destruct (myproc k1 c); [|by intros [= <-]]. intros H. destruct (accounts_yield c k1 k' Ha1 Hk1 H) as [? ->]. done.
  - by intros [= <-].
  - unfold mlfq_tick. destruct (myproc k1 c) as [i|]; [|by intros [= <-]].
    destruct (get k1 i) as [p|] eqn:Hp; [|done]. cbn [mbind option_bind].
    destruct (charge_ok (ticks k1) p (slot_mlfq k1 Hk1 i p Hp)) as (e & p' & Hc & _ & Hf). rewrite Hc. cbn [mbind option_bind].
    assert (Hu : accounts (upd i (const p') k1)).
    { apply accounts_upd; [done|]. intros q Hq Hac. simplify_eq. unfold const.
      destruct Hf as [->|[r ->]]; [exact Hac|]. destruct Hac as [_ Hac]. split; [simpl; lia | exact Hac]. }
    destruct (e || _); [|by intros [= <-]].
    intros Hy. destruct (accounts_yield c _ k' Hu (charged_ok _ k1 i p e p' Hk1 Hp Hc) Hy) as [? ->]. done.
Qed.

(** ** The other events *)
Lemma acct_settle t p : acct t p -> acct t (settle t p).
Proof.
  intros Hp. unfold settle, enqueue. destruct (runnable p); [|done].
  destruct (queued p =? 0); [|done]. destruct Hp as [_ Hp]. split; [simpl; lia | exact Hp].
Qed.

Lemma accounts_dispatch c i p k :
  accounts k -> ticks k < 2 ^ 31 -> get k i = Some p -> state p = RUNNABLE -> accounts (dispatch c i k).
Proof.
  intros Ha Hb Hp Hs. destruct Ha as [H0 Ha'] eqn:E; clear E.
  apply (accounts_frame (upd i (run_now (ticks k)) k)); try done.
  apply accounts_upd; [done|]. intros q Hq [He Hac]. simplify_eq. specialize (Hac ltac:(congruence)).
  unfold run_now, acct, last_tick, is_state in *. rewrite Hs in Hac. simpl in Hac.
  destruct (Z.ltb_spec (first_run p) 0); simpl; (split; [done|]); intros _.
  - rewrite i32_id by (unfold in_i32; lia). lia.
  - lia.
Qed.

Lemma accounts_schedule pol c cursor k :
  accounts k -> ticks k < 2 ^ 31 ->
  accounts (schedule pol c cursor k).2 /\ ticks (schedule pol c cursor k).2 = ticks k.
Proof.
  intros Ha Hb. destruct pol; simpl.
  - unfold rr_schedule, rr_next. destruct (find_index _ _) as [j|] eqn:Hf; [|done]. simpl. split; [|done].
    apply find_index_Some in Hf as [(p & Hp & Hr) _]. rewrite lookup_drop in Hp.
    apply is_state_true in Hr. by eapply accounts_dispatch.
  - unfold fifo_schedule. rewrite fifo_scan_pick.
    pose proof (pick_spec runnable fifo_key (procs k) 0 None ltac:(discriminate)) as H.
    destruct (pick _ _ _ _ _) as [[i p]|]; [|done]. split; [|done].
    destruct H as ([?|(_ & Hp & Hr)] & _); [done|]. rewrite Nat.sub_0_r in Hp.
    apply runnable_true in Hr. by eapply accounts_dispatch.
  - unfold mlfq_schedule. rewrite mlfq_scan_pick.
    assert (Ha1 : accounts (set_procs (settle (ticks k) <$> procs k) k)).
    { apply accounts_map; [done | apply acct_settle]. }
    pose proof (pick_spec runnable mlfq_key (settle (ticks k) <$> procs k) 0 None
      ltac:(discriminate)) as H.
    destruct (pick _ _ _ _ _) as [[i p]|]; [|done]. split; [|done].
    destruct H as ([?|(_ & Hp & Hr)] & _); [done|]. rewrite Nat.sub_0_r in Hp.
    apply runnable_true in Hr. by eapply accounts_dispatch.
Qed.

Lemma accounts_forked k me p r k' :
  accounts k -> length (procs k') = length (procs k) -> forked k me p r k' -> accounts k' /\ ticks k' = ticks k.
Proof.
  intros [H0 Ha] Hl (_ & Et & _ & _ & Hf). split; [|done]. split; [lia|]. rewrite Et. intros i q' Hq'.
  destruct (lookup_lt_is_Some_2 (procs k) i) as [q Hq]; [rewrite <- Hl; by eapply lookup_lt_Some|].
  specialize (Ha i q Hq). destruct Hf as [[_ H]|(_ & n & q0 & np & _ & Hn & Hu & Hnp & Hc & _ & H)].
  - destruct (H i q Hq) as [Hs|(Hu & q2 & Hq2 & Hu2 & He)]; [congruence|]. simplify_eq.
    split; [lia | congruence].
  - destruct (decide (i = n)) as [->|Hne]; [|rewrite H in Hq' by done; congruence]. simplify_eq.
    destruct Hc as (Hs & _ & _ & _ & _ & _ & _ & _ & _ & _ & _ & E1 & E2 & E3 & E4).
    unfold acct, last_tick, is_state. rewrite Hs, E1, E2, E3, E4. simpl. split; [lia|]. intros _. lia.
Qed.

Lemma rouse_times b ch p : same_times p (rouse b ch p).
Proof. destruct b; [apply wakeup_one_times | done]. Qed.

Lemma accounts_exits me init par status k k' :
  accounts k -> table_ok k -> ticks k' = ticks k -> (forall p, procs k !! me = Some p -> state p = RUNNING) ->
  pointwise (exits me init par status (ticks k)) k k' -> accounts k'.
Proof.
  intros Ha Hk Et Hme Hp. eapply accounts_pointwise; [exact Hp | done | done|]. intros i p p' Hi Hx Hac.
  unfold exits in Hx. case_decide as Hd.
  - subst i. specialize (Hme p Hi). destruct Hac as [He Hac]. specialize (Hac ltac:(congruence)).
    destruct Hx as (Hs & _ & E0 & _ & _ & _ & _ & _ & _ & E1 & E2 & E3 & E4).
    unfold acct, last_tick, is_state in *. rewrite Hs, E0, E1, E2, E3, E4. rewrite Hme in Hac. simpl in *.
    split; [done|]. intros _. lia.
  - destruct Hx as (b & ->). apply (acct_same _ _ _ (rouse_times true _ _)), (acct_same _ _ _ (rouse_times b _ _)).
    exact Hac.
Qed.

Lemma accounts_waited c me p k r k' :
  accounts k -> table_ok k -> myproc k c = Some me -> waited c me p k r k' -> accounts k' /\ ticks k' = ticks k.
Proof.
  intros Ha Hk Hc. destruct r; simpl.
  - intros [[_ ->]|(i & pp & Hi & _ & _ & _ & np & -> & Hf)]; [done|]. split; [|done].
    apply accounts_upd; [done|]. intros q Hq [He _]. unfold get in Hq. simplify_eq. unfold const.
    destruct Hf as (Hu & _ & _ & _ & _ & _ & _ & _ & _ & _ & _ & E). simpl in E. split; [lia | congruence].
  - intros (_ & _ & _ & ->). split; [|done].
    apply (accounts_frame (upd me (set_state SLEEPING ∘ set_chan (Some (CProc me))) k)); try done.
    apply accounts_upd; [done|]. intros q Hq. apply acct_same.
    destruct (table_running k c me Hk Hc) as (q' & Hq' & Hr & _). simplify_eq.
    unfold same_times. simpl. rewrite Hr. by split_and!.
Qed.

(** ** An observer

    A life is what somebody who sees only the states of a slot and the clock
    writes down about the process in it: the tick at which it appeared, the
    number of ticks it was RUNNING, the tick at which it was first RUNNING and
    the tick at which it was dead. *)
Record life := mkLife { born : Z; ran : Z; first : option Z; died : option Z }.
Definition newborn (t : Z) : life := mkLife t 0 None None.

(** A tick of the clock: the timer interrupt of core 0. *)
Definition is_tick (e : event) : bool := match e with ETimer O => true | _ => false end.

(** The slot before and after an event, and the clock after it. *)
Definition watch (tick : bool) (t : Z) (p p' : proc) (l : life) : life :=
  let l1 := if is_state UNUSED p then newborn t else l in
  mkLife (born l1)
    (if tick && is_state RUNNING p then ran l1 + 1 else ran l1)
    (match first l1 with None => if is_state RUNNING p' then Some t else None | f => f end)
    (match died l1 with None => if is_state ZOMBIE p' then Some t else None | d => d end).

Definition watch_all (e : event) (k k' : kernel) (L : list life) : list life :=
  zip_with (fun pp l => watch (is_tick e) (ticks k') pp.1 pp.2 l) (zip (procs k) (procs k')) L.

Lemma watch_all_lookup e k k' L i p p' l :
  procs k !! i = Some p -> procs k' !! i = Some p' -> watch_all e k k' L !! i = Some l ->
  exists l0, L !! i = Some l0 /\ l = watch (is_tick e) (ticks k') p p' l0.
Proof.
  intros Hp Hp'. unfold watch_all. intros ((q & q') & l0 & -> & Hq & Hl)%lookup_zip_with_Some.
  apply lookup_zip_with_Some in Hq as (x & x' & [= -> ->] & Hx & Hx'). rewrite Hp in Hx. rewrite Hp' in Hx'.
  injection Hx as <-. injection Hx' as <-. by exists l0.
Qed.

(** The statistics of a slot are those of the life observed in it. *)
Definition tracked (p : proc) (l : life) : Prop :=
  state p <> UNUSED ->
  ctime p = born l /\ rtime p = ran l /\ first_run p = default (-1) (first l) /\
  (forall f, first l = Some f -> 0 <= f) /\ (state p = RUNNING -> first l <> None) /\
  died l = (if is_state ZOMBIE p then Some (etime p) else None).

(** *** What an event may do to a slot *)

(** Nothing that matters for the statistics; the process may stop running. *)
Definition quiet (p p' : proc) : Prop :=
  ctime p' = ctime p /\ rtime p' = rtime p /\ first_run p' = first_run p /\ etime p' = etime p /\
  (state p' = ZOMBIE <-> state p = ZOMBIE) /\ (state p = UNUSED -> state p' = UNUSED) /\
  (state p' = RUNNING -> state p = RUNNING).

Inductive follows (tick : bool) (t : Z) (p p' : proc) : Prop :=
  | follows_free : state p' = UNUSED -> follows tick t p p'
  | follows_quiet : quiet p p' -> (tick = true -> state p <> RUNNING) -> follows tick t p p'
  | follows_tick : tick = true -> state p = RUNNING -> state p' <> ZOMBIE ->
      ctime p' = ctime p -> rtime p' = u32 (rtime p + 1) -> first_run p' = first_run p -> follows tick t p p'
  | follows_born : tick = false -> state p = UNUSED -> state p' = RUNNABLE ->
      ctime p' = t -> rtime p' = 0 -> first_run p' = -1 -> follows tick t p p'
  | follows_run : tick = false -> state p = RUNNABLE -> state p' = RUNNING -> ctime p' = ctime p -> rtime p' = rtime p ->
      first_run p' = (if first_run p <? 0 then i32 t else first_run p) -> follows tick t p p'
  | follows_exit : tick = false -> state p = RUNNING -> state p' = ZOMBIE -> etime p' = t ->
      ctime p' = ctime p -> rtime p' = rtime p -> first_run p' = first_run p -> follows tick t p p'.

Lemma follows_tracked tick t p p' l :
  0 <= t < 2 ^ 31 -> (state p <> UNUSED -> 0 <= rtime p < 2 ^ 31) ->
  follows tick t p p' -> tracked p l -> tracked p' (watch tick t p p' l).
Proof.
  intros Ht Hr Hf Hl Hn'. unfold watch, is_state.
  destruct Hf as [Hu|(E1 & E2 & E3 & E4 & Hz & Hu & Hrun) Hq|Htk Hs Hs' E1 E2 E3|Htk Hs Hs' E1 E2 E3|Htk Hs Hs' E1 E2 E3|Htk Hs Hs' E0 E1 E2 E3].
  - done.
  - assert (Hn : state p <> UNUSED) by auto. specialize (Hl Hn) as (H1 & H2 & H3 & H4 & H5 & H6).
    rewrite (bool_decide_eq_false_2 (state p = UNUSED)) by done. unfold is_state in H6.
    assert (Ht' : tick && bool_decide (state p = RUNNING) = false).
    { destruct tick; [|done]. simpl. apply bool_decide_eq_false_2. auto. }
    rewrite Ht'. simpl. rewrite E1, E2, E3, E4, <- (bool_decide_ext _ _ Hz) in *.
    assert (Hfirst : match first l with None => if bool_decide (state p' = RUNNING) then Some t else None | f => f end = first l).
    { destruct (first l) eqn:Ef; [done|]. destruct (bool_decide_reflect (state p' = RUNNING)) as [Hr'|]; [|done]. by destruct (H5 (Hrun Hr')). }
    rewrite Hfirst. split_and!; auto. rewrite H6. by destruct (bool_decide (state p' = ZOMBIE)).
  - specialize (Hl ltac:(congruence)) as (H1 & H2 & H3 & H4 & H5 & H6). specialize (Hr ltac:(congruence)).
    rewrite Hs, Htk, (bool_decide_eq_false_2 (state p' = ZOMBIE)) by done. unfold is_state in H6. rewrite Hs in H6. simpl in *.
    rewrite H6, E1, E2, E3, u32_id by (unfold in_u32; lia).
    destruct (first l) as [f|] eqn:Ef; [|by destruct (H5 Hs)]. split_and!; try done; lia.
  - rewrite Hs, Hs', Htk. simpl. split_and!; try done; try congruence.
  - specialize (Hl ltac:(congruence)) as (H1 & H2 & H3 & H4 & H5 & H6). unfold is_state in H6. rewrite Hs in H6.
    rewrite Hs, Hs', Htk. simpl in *. rewrite H6, E1, E2, E3. split_and!; try done.
    + rewrite H3. destruct (first l) as [f|] eqn:Ef; simpl.
      * specialize (H4 f eq_refl). destruct (Z.ltb_spec f 0); [lia | done].
      * apply i32_id. unfold in_i32. lia.
    + intros f. destruct (first l) as [g|]; [apply H4 | intros [= <-]; lia].
    + by destruct (first l).
  - specialize (Hl ltac:(congruence)) as (H1 & H2 & H3 & H4 & H5 & H6). unfold is_state in H6. rewrite Hs in H6.
    rewrite Hs, Hs', Htk. simpl in *. rewrite H6, E0, E1, E2, E3. destruct (first l) eqn:Ef; [|by destruct (H5 Hs)].
    by split_and!.
Qed.

Lemma quiet_refl p : quiet p p.
Proof. unfold quiet. by split_and!. Qed.

Lemma quiet_trans p q r : quiet p q -> quiet q r -> quiet p r.
Proof.
  intros (A1 & A2 & A3 & A4 & A5 & A6 & A7) (B1 & B2 & B3 & B4 & B5 & B6 & B7).
  unfold quiet. split_and!; try congruence; try tauto; auto.
Qed.

Lemma wakeup_one_quiet ch p : quiet p (wakeup_one ch p).
Proof.
  unfold wakeup_one, is_state. case_bool_decide; [|apply quiet_refl]. simpl. case_bool_decide as Hs; [|done].
  unfold quiet. simpl. rewrite Hs. by split_and!.
Qed.

Lemma rouse_quiet b ch p : quiet p (rouse b ch p).
Proof. destruct b; [apply wakeup_one_quiet | apply quiet_refl]. Qed.

(** Slots of two tables, one by one. *)
Definition slots (R : proc -> proc -> Prop) (k k' : kernel) : Prop :=
  forall i p p', procs k !! i = Some p -> procs k' !! i = Some p' -> R p p'.

Lemma slots_upd (R : proc -> proc -> Prop) i f k :
  (forall p, R p p) -> (forall p, get k i = Some p -> R p (f p)) -> slots R k (upd i f k).
Proof.
  intros H0 Hf j p p' Hp. rewrite upd_lookup. case_decide as Hd; [subst|].
  - rewrite Hp. intros [= <-]. by apply Hf.
  - intros Hp'. rewrite Hp in Hp'. injection Hp' as <-. apply H0.
Qed.

Lemma slots_refl (R : proc -> proc -> Prop) k : (forall p, R p p) -> slots R k k.
Proof. intros H i p p' Hp Hp'. rewrite Hp in Hp'. by injection Hp' as <-. Qed.

(** A process that gives up its core. *)
Lemma leave_slots k i p f : get k i = Some p -> state p = RUNNING -> (forall q, quiet q (f q) \/ state q <> RUNNING) ->
  slots quiet k (upd i f k).
Proof.
  intros Hp Hr Hf. apply slots_upd; [apply quiet_refl|]. intros q Hq. simplify_eq. destruct (Hf p); [done | congruence].
Qed.

Lemma yield_slots c k k' : table_ok k -> yield c k = Some k' -> slots quiet k k'.
Proof.
  intros Hk Hy. destruct (myproc k c) as [i|] eqn:Hc; [|unfold yield in Hy; by rewrite Hc in Hy].
  destruct (yield_ok c k i Hk Hc) as [E _]. rewrite E in Hy. injection Hy as <-.
  destruct (table_running k c i Hk Hc) as (p & Hp & Hr & _). change (slots quiet k (upd i (set_state RUNNABLE) k)).
  apply (leave_slots k i p); [done | done|]. intros q. destruct (decide (state q = RUNNING)) as [Hq|]; [left | by right].
  unfold quiet. simpl. rewrite Hq. by split_and!.
Qed.

(** The clock charges exactly the running processes. *)
Definition ticked (tick : bool) (p p' : proc) : Prop :=
  ctime p' = ctime p /\ first_run p' = first_run p /\ etime p' = etime p /\
  rtime p' = (if tick && is_state RUNNING p then u32 (rtime p + 1) else rtime p) /\
  (state p' = ZOMBIE <-> state p = ZOMBIE) /\ (state p' = UNUSED <-> state p = UNUSED) /\
  (state p' = RUNNING <-> state p = RUNNING).

Lemma clock_slots pol c k : slots (ticked (c =? 0)%nat) k (clockintr pol c k).
Proof.
  intros i p p' Hp. unfold clockintr. destruct (c =? 0)%nat; [|intros Hp'; rewrite Hp in Hp'; injection Hp' as <-; by unfold ticked].
  set (q := wakeup_one (Some CTicks) p).
  assert (Hq : ticked true p (if is_state RUNNING q then set_rtime (u32 (rtime q + 1)) q else q)).
  { assert (E : state q = RUNNING <-> state p = RUNNING).
    { unfold q, wakeup_one, is_state. case_bool_decide; [|done]. simpl. case_bool_decide as Hs; [|done]. simpl. by rewrite Hs. }
    assert (Eu : state q = UNUSED <-> state p = UNUSED).
    { unfold q, wakeup_one, is_state. case_bool_decide; [|done]. simpl. case_bool_decide as Hs; [|done]. simpl. by rewrite Hs. }
    destruct (wakeup_one_quiet (Some CTicks) p) as (A1 & A2 & A3 & A4 & A5 & _). fold q in A1, A2, A3, A4, A5.
    unfold ticked, is_state. rewrite (bool_decide_ext _ _ E). case_bool_decide; simpl; rewrite ?A1, ?A2, ?A3, ?A4; by split_and!. }
  assert (Hl : procs (update_time (wakeup (Some CTicks) (set_ticks (u32 (ticks k + 1)) k))) !! i =
    Some (if is_state RUNNING q then set_rtime (u32 (rtime q + 1)) q else q)).
  { cbn [procs update_time wakeup set_procs]. rewrite !list_lookup_fmap. cbn [procs set_ticks]. by rewrite Hp. }
  destruct pol; cbv zeta; [rewrite Hl; by intros [= <-]..|]. destruct (_ =? 0); [|rewrite Hl; by intros [= <-]].
  unfold mlfq_boost. cbn [procs set_mlfq_last_boost set_procs]. rewrite list_lookup_fmap, Hl. intros [= <-].
  unfold boost_one. by destruct (negb _).
Qed.

Lemma ticked_follows c t p q p' : ticked (c =? 0)%nat p q -> quiet q p' -> follows (is_tick (ETimer c)) t p p'.
Proof.
  intros (A1 & A2 & A3 & A4 & A5 & A6 & A7) (B1 & B2 & B3 & B4 & B5 & B6 & B7).
  assert (Et : is_tick (ETimer c) = (c =? 0)%nat) by (by destruct c). rewrite Et.
  destruct ((c =? 0)%nat && is_state RUNNING p) eqn:E.
  - apply andb_true_iff in E as [Ec Er]. apply is_state_true in Er. apply follows_tick; try congruence.
    rewrite B5, A5. congruence.
  - apply follows_quiet; [unfold quiet; split_and!; try congruence; try tauto|].
    intros Ec Hr. rewrite Ec in E. by apply is_state_false in E.
Qed.

Lemma timer_slots pol c k k' :
  table_ok k -> timer_interrupt pol c k = Some k' -> slots (follows (is_tick (ETimer c)) (ticks k')) k k'.
Proof.
  intros Hk Hs i p p' Hp Hp'. pose proof (clockintr_ok pol c k Hk) as Hk1. pose proof (clock_slots pol c k i p) as Hc.
  destruct (lookup_lt_is_Some_2 (procs (clockintr pol c k)) i) as [q Hq].
  { rewrite (procs_len _ Hk1), <- (procs_len k Hk). by eapply lookup_lt_Some. }
  apply (ticked_follows c _ p q); [by apply Hc|]. clear Hc. revert Hs. unfold timer_interrupt, timer_yield.
  revert Hk1 Hq. generalize (clockintr pol c k). intros k1 Hk1 Hq.
  assert (Hsame : Some k1 = Some k' -> quiet q p') by (intros [= <-]; rewrite Hq in Hp'; injection Hp' as <-; apply quiet_refl).
  destruct pol; [|done|].
  - destruct (myproc k1 c); [|done]. intros Hy. by apply (yield_slots c k1 k' Hk1 Hy i).
  - unfold mlfq_tick. destruct (myproc k1 c) as [j|] eqn:Hm; [|done].
    destruct (get k1 j) as [pj|] eqn:Hj; [|done]. cbn [mbind option_bind].
    destruct (charge_ok (ticks k1) pj (slot_mlfq k1 Hk1 j pj Hj)) as (e & pj' & Hc & _ & Hf). rewrite Hc. cbn [mbind option_bind].
    assert (Hu : slots quiet k1 (upd j (const pj') k1)).
    { apply slots_upd; [apply quiet_refl|]. intros q0 Hq0. simplify_eq. unfold const.
      destruct Hf as [->|[r ->]]; unfold quiet; by split_and!. }
    destruct (lookup_lt_is_Some_2 (procs (upd j (const pj') k1)) i) as [q1 Hq1].
    { rewrite upd_length. by eapply lookup_lt_Some. }
    pose proof (Hu i q q1 Hq Hq1) as Hqq. destruct (e || _).
    + intros Hy. apply (quiet_trans _ q1); [done|].
      by apply (yield_slots c _ k' (charged_ok _ k1 j pj e pj' Hk1 Hj Hc) Hy i).
    + intros [= <-]. rewrite Hq1 in Hp'. by injection Hp' as <-.
Qed.

Lemma dispatch_slots c i p k : get k i = Some p -> state p = RUNNABLE -> slots (follows false (ticks k)) k (dispatch c i k).
Proof.
  intros Hp Hs. change (slots (follows false (ticks k)) k (upd i (run_now (ticks k)) k)).
  apply slots_upd; [intros q; by apply follows_quiet; [apply quiet_refl|]|]. intros q Hq. simplify_eq.
  apply follows_run; unfold run_now; destruct (first_run p <? 0); done.
Qed.

Lemma settle_fields t p : let q := settle t p in
  state q = state p /\ ctime q = ctime p /\ rtime q = rtime p /\ first_run q = first_run p /\ etime q = etime p.
Proof. unfold settle, enqueue. destruct (runnable p); [|done]. by destruct (queued p =? 0). Qed.

Lemma follows_settle tick t t' p p' : follows tick t (settle t' p) p' -> follows tick t p p'.
Proof.
  destruct (settle_fields t' p) as (E0 & E1 & E2 & E3 & E4). unfold quiet.
  intros [Hu|Hq Ht|Ht Hs Hs' A1 A2 A3|Ht Hs Hs' A1 A2 A3|Ht Hs Hs' A1 A2 A3|Ht Hs Hs' A0 A1 A2 A3].
  - by apply follows_free.
  - apply follows_quiet; [|by rewrite <- E0]. unfold quiet in *. by rewrite E0, E1, E2, E3, E4 in Hq.
  - apply follows_tick; rewrite <- ?E0, <- ?E1, <- ?E2, <- ?E3; assumption.
  - apply follows_born; rewrite <- ?E0, <- ?E1, <- ?E2, <- ?E3; assumption.
  - apply follows_run; rewrite <- ?E0, <- ?E1, <- ?E2, <- ?E3; assumption.
  - apply follows_exit; rewrite <- ?E0, <- ?E1, <- ?E2, <- ?E3; assumption.
Qed.

Lemma schedule_slots pol c cursor k : slots (follows false (ticks k)) k (schedule pol c cursor k).2.
Proof.
  assert (Hsame : slots (follows false (ticks k)) k k).
  { apply slots_refl. intros p. by apply follows_quiet; [apply quiet_refl|]. }
  destruct pol; simpl.
  - unfold rr_schedule, rr_next. destruct (find_index _ _) as [j|] eqn:Hf; [|done]. simpl.
    apply find_index_Some in Hf as [(p & Hp & Hr) _]. rewrite lookup_drop in Hp.
    apply is_state_true in Hr. by eapply dispatch_slots.
  - unfold fifo_schedule. rewrite fifo_scan_pick.
    pose proof (pick_spec runnable fifo_key (procs k) 0 None ltac:(discriminate)) as H.
    destruct (pick _ _ _ _ _) as [[i p]|]; [|done].
    destruct H as ([?|(_ & Hp & Hr)] & _); [done|]. rewrite Nat.sub_0_r in Hp.
    apply runnable_true in Hr. by eapply dispatch_slots.
  - unfold mlfq_schedule. rewrite mlfq_scan_pick.
    pose proof (pick_spec runnable mlfq_key (settle (ticks k) <$> procs k) 0 None
      ltac:(discriminate)) as H. set (k1 := set_procs (settle (ticks k) <$> procs k) k).
    assert (Hk1 : forall i p, procs k !! i = Some p -> procs k1 !! i = Some (settle (ticks k) p))
      by (intros i p Hp; unfold k1; cbn [procs set_procs]; by rewrite list_lookup_fmap, Hp).
    destruct (pick _ _ _ _ _) as [[i p]|].
    + destruct H as ([?|(_ & Hp & Hr)] & _); [done|]. rewrite Nat.sub_0_r in Hp. apply runnable_true in Hr.
      intros j q q' Hq Hq'. apply (follows_settle _ _ (ticks k)).
      by apply (dispatch_slots c i p k1 Hp Hr j _ q' (Hk1 j q Hq)).
    + intros j q q' Hq Hq'. apply (follows_settle _ _ (ticks k)). change (procs k1 !! j = Some q') in Hq'. rewrite (Hk1 j q Hq) in Hq'. injection Hq' as <-.
      by apply follows_quiet; [apply quiet_refl|].
Qed.

Lemma forked_slots k me p r k' : forked k me p r k' -> slots (follows false (ticks k')) k k'.
Proof.
  intros (_ & Et & _ & _ & Hf) i q q' Hq Hq'. rewrite Et.
  assert (Hsame : q' = q -> follows false (ticks k) q q') by (intros ->; by apply follows_quiet; [apply quiet_refl|]).
  destruct Hf as [[_ H]|(_ & n & q0 & np & _ & Hn & Hu & Hnp & Hc & _ & H)].
  - destruct (H i q Hq) as [Hs|(_ & q2 & Hq2 & Hu2 & _)]; [apply Hsame; congruence|]. simplify_eq. by apply follows_free.
  - destruct (decide (i = n)) as [->|Hne]; [|apply Hsame; rewrite H in Hq' by done; congruence]. simplify_eq.
    destruct Hc as (Hs & _ & _ & _ & _ & _ & _ & _ & _ & _ & _ & E1 & E2 & E3 & _). by apply follows_born.
Qed.

Lemma exits_slots me init par status k k' :
  ticks k' = ticks k -> (forall p, procs k !! me = Some p -> state p = RUNNING) ->
  pointwise (exits me init par status (ticks k)) k k' -> slots (follows false (ticks k')) k k'.
Proof.
  intros Et Hme Hp i p p' Hi Hi'. rewrite Et. destruct (pointwise_inv _ _ _ _ _ Hp Hi') as (p0 & Hp0 & Hx). simplify_eq.
  unfold exits in Hx. case_decide as Hd.
  - subst i. specialize (Hme p Hi). destruct Hx as (Hs & _ & E0 & _ & _ & _ & _ & _ & _ & E1 & E2 & E3 & _).
    by apply follows_exit.
  - destruct Hx as (b & ->). apply follows_quiet; [|done]. apply (quiet_trans _ (rouse b (CProc <$> init) (adopt me init p))); [|apply rouse_quiet].
    apply (quiet_trans _ (adopt me init p)); [|apply rouse_quiet]. unfold quiet, adopt. by split_and!.
Qed.

Lemma quiet_slots t k k' : slots quiet k k' -> slots (follows false t) k k'.
Proof. intros H i p p' Hp Hp'. apply follows_quiet; [by apply (H i) | done]. Qed.

Lemma waited_slots c me p k r k' t :
  table_ok k -> myproc k c = Some me -> waited c me p k r k' -> slots (follows false t) k k'.
Proof.
  intros Hk Hc. destruct r; simpl.
  - intros [[_ ->]|(i & pp & Hi & _ & _ & _ & np & -> & Hf)].
    + apply quiet_slots, slots_refl, quiet_refl.
    + apply slots_upd; [intros q; by apply follows_quiet; [apply quiet_refl|]|]. intros q Hq. apply follows_free. apply Hf.
  - intros (_ & _ & _ & ->). apply quiet_slots.
    change (slots quiet k (upd me (set_state SLEEPING ∘ set_chan (Some (CProc me))) k)).
    destruct (table_running k c me Hk Hc) as (q & Hq & Hr & _). apply (leave_slots k me q); [done | done|].
    intros x. destruct (decide (state x = RUNNING)) as [Hx|]; [left | by right]. unfold quiet. simpl. rewrite Hx. by split_and!.
Qed.

Section Reachable.
Context {W : Type} `{!ProcEnv W} (forkret_addr : Z) (pol : policy).

Lemma step_accounts e k (w : W) k' w' :
  table_ok k -> nextpid k < 2 ^ 31 - 1 -> enabled k e = true -> accounts k -> ticks k + 1 < 2 ^ 31 ->
  step forkret_addr pol e k w = Some (k', w') -> accounts k' /\ ticks k <= ticks k' <= ticks k + 1.
Proof.
  intros Hk Hn He Ha Hb Hs.
  assert (Hfix : forall k1, accounts k1 /\ ticks k1 = ticks k -> accounts k1 /\ ticks k <= ticks k1 <= ticks k + 1)
    by (intros k1 [? ->]; split; [done | lia]).
  destruct e; simpl in He, Hs;
    try apply bool_decide_eq_true in He as [i Hc];
    try (destruct (table_running k c i Hk Hc) as (p & Hp & Hr & _)).
  - apply fmap_Some in Hs as (k1 & Hs & [= -> ->]). by eapply accounts_timer.
  - injection Hs as <- <-. apply Hfix, accounts_schedule; [done | lia].
  - apply fmap_Some in Hs as (k1 & Hs & [= -> ->]). apply Hfix. by eapply accounts_yield.
  - destruct (kfork_spec forkret_addr c k w i p Hk Hn Hc Hp) as (r & k1 & w1 & E & Hk1 & Hf).
    rewrite E in Hs. injection Hs as <- <-. apply Hfix. eapply accounts_forked; eauto.
    simpl. by rewrite (procs_len k1 Hk1), (procs_len k Hk).
  - pose proof (kexit_not_init c status k w i _ Hs Hc) as Hi.
    destruct (kexit_spec c status k w i p Hk Hc Hp Hi) as (k1 & w1 & E & _ & H & _ & _ & _ & Et).
    rewrite E in Hs. injection Hs as <- <-. apply Hfix. split; [|done]. eapply accounts_exits; eauto.
    intros q Hq. unfold get in Hp. congruence.
  - destruct (kwait_spec c addr k w i p Hk Hc Hp) as (r & k1 & w1 & E & _ & Hw).
    rewrite E in Hs. injection Hs as <- <-. apply Hfix. by eapply accounts_waited.
  - destruct (kwaitx_spec c addr rt_addr wt_addr rest_addr k w i p Hk Hc Hp) as (r & k1 & w1 & E & _ & Hw).
    rewrite E in Hs. injection Hs as <- <-. apply Hfix. by eapply accounts_waited.
  - rewrite (proj1 (sleep_prepare_ok c ch k i Hk Hc)) in Hs. injection Hs as <- <-. apply Hfix. split; [|done].
    apply accounts_upd; [done|]. intros q Hq. by apply acct_same.
  - destruct (sleep_ok c k i Hk Hc) as (k1 & E & _ & Hk'). rewrite E in Hs. injection Hs as <- <-. apply Hfix.
    destruct Hk' as [->| ->]; [done|]. split; [|done]. apply (accounts_frame (upd i (set_state SLEEPING) k)); try done.
    apply accounts_upd; [done|]. intros q Hq. apply acct_same. simplify_eq. unfold same_times. simpl. rewrite Hr. by split_and!.
  - injection Hs as <- <-. apply Hfix. split; [by apply accounts_wakeup | done].
  - injection Hs as <- <-. apply Hfix. unfold kkill. destruct (find_index _ _) as [j|]; [|done]. split; [|done].
    apply accounts_upd; [done|]. intros q Hq. apply acct_same. unfold is_state. simpl. case_bool_decide as Hsl; [|done].
    unfold same_times. simpl. rewrite Hsl. by split_and!.
  - rewrite Hc in Hs. injection Hs as <- <-. apply Hfix. split; [|done].
    apply accounts_upd; [done|]. intros q Hq. by apply acct_same.
Qed.

Lemma run_accounts es : forall k (w : W) k' w',
  table_ok k -> nextpid k + Z.of_nat (length es) < 2 ^ 31 - 1 ->
  accounts k -> ticks k + Z.of_nat (length es) < 2 ^ 31 ->
  run forkret_addr pol es k w = Some (k', w') -> accounts k' /\ ticks k' < 2 ^ 31.
Proof.
  induction es as [|e es IH]; intros k w k' w' Hk Hn Ha Ht; cbn [run length] in *.
  { intros [= <- <-]. split; [done | lia]. }
  destruct (enabled k e) eqn:He; [|done].
  destruct (step forkret_addr pol e k w) as [[k1 w1]|] eqn:Hs; [|done]. cbn [mbind option_bind].
  destruct (step_accounts e k w k1 w1 Hk ltac:(lia) He Ha ltac:(lia) Hs) as [Ha1 Ht1].
  destruct (step_ok forkret_addr pol e k w Hk ltac:(lia) He) as [(k2 & w2 & E & Hk2 & Hn2)|(c & st & -> & Hc)].
  - rewrite E in Hs. injection Hs as <- <-. apply IH; auto; lia.
  - simpl in Hs. by rewrite kexit_init in Hs.
Qed.

Lemma boot_accounts (w : W) k w' : userinit forkret_addr boot_kernel w = Some (k, w') -> accounts k /\ ticks k = 0.
Proof.
  unfold userinit. pose proof (allocproc_cases forkret_addr boot_kernel w) as H.
  destruct (allocproc forkret_addr boot_kernel w) as [[[i|] k1] w1]; [|done].
  destruct H as (p & np & _ & Hp & Hs & -> & He). cbn [mbind option_bind].
  destruct (namei_root w1) as [root w2]. intros [= <- <-]. split; [|done].
  assert (H0 : accounts (set_initproc (Some i) (put i np (set_nextpid (i32 (nextpid boot_kernel + 1)) boot_kernel)))).
  { apply (accounts_frame (upd i (const np) boot_kernel)); try done. apply accounts_upd.
    - split; [done|]. intros j q ->%boot_slot. split; [done | by intros []].
    - intros q Hq _. destruct He as (E0&_&_&_&_&_&_&_&_&_&_&_&E1&E2&E3&E4). unfold acct, last_tick, is_state, const.
      rewrite E0, E1, E2, E3, E4. simpl. split; [lia|]. intros _. lia. }
  set (k0 := set_initproc _ _) in *. assert (Hg : get k0 i = Some np) by (by eapply get_put).
  apply accounts_upd; [apply accounts_upd; [exact H0 | by intros q _; apply acct_same]|].
  intros q Hq. unfold get in Hq. rewrite (upd_lookup_eq i _ k0 np Hg) in Hq. injection Hq as <-.
  apply acct_same. unfold same_times. simpl. rewrite (proj1 He). by split_and!.
Qed.

Lemma step_slots e k (w : W) k' w' :
  table_ok k -> nextpid k < 2 ^ 31 - 1 -> enabled k e = true ->
  step forkret_addr pol e k w = Some (k', w') -> slots (follows (is_tick e) (ticks k')) k k'.
Proof.
  intros Hk Hn He Hs.
  destruct e; simpl in He, Hs; cbn [is_tick];
    try apply bool_decide_eq_true in He as [i Hc];
    try (destruct (table_running k c i Hk Hc) as (p & Hp & Hr & _)).
  - apply fmap_Some in Hs as (k1 & Hs & [= -> ->]). by eapply timer_slots.
  - injection Hs as <- <-. assert (Et : ticks (schedule pol c cursor k).2 = ticks k).
    { destruct pol; simpl; [unfold rr_schedule; by destruct (rr_next _ _) | unfold fifo_schedule; by destruct (fifo_scan _ _ _) as [[? ?]|] |
        unfold mlfq_schedule; by destruct (mlfq_scan _ _ _ _) as [ps [[? ?]|]]]. }
    rewrite Et. apply schedule_slots.
  - apply fmap_Some in Hs as (k1 & Hs & [= -> ->]). by apply quiet_slots, (yield_slots c).
  - destruct (kfork_spec forkret_addr c k w i p Hk Hn Hc Hp) as (r & k1 & w1 & E & _ & Hf).
    rewrite E in Hs. injection Hs as <- <-. by eapply forked_slots.
  - pose proof (kexit_not_init c status k w i _ Hs Hc) as Hi.
    destruct (kexit_spec c status k w i p Hk Hc Hp Hi) as (k1 & w1 & E & _ & H & _ & _ & _ & Et).
    rewrite E in Hs. injection Hs as <- <-. eapply exits_slots; eauto.
    intros q Hq. unfold get in Hp. congruence.
  - destruct (kwait_spec c addr k w i p Hk Hc Hp) as (r & k1 & w1 & E & _ & Hw).
    rewrite E in Hs. injection Hs as <- <-. by eapply waited_slots.
  - destruct (kwaitx_spec c addr rt_addr wt_addr rest_addr k w i p Hk Hc Hp) as (r & k1 & w1 & E & _ & Hw).
    rewrite E in Hs. injection Hs as <- <-. by eapply waited_slots.
  - rewrite (proj1 (sleep_prepare_ok c ch k i Hk Hc)) in Hs. injection Hs as <- <-.
    apply quiet_slots, slots_upd; [apply quiet_refl | done].
  - destruct (sleep_ok c k i Hk Hc) as (k1 & E & _ & Hk'). rewrite E in Hs. injection Hs as <- <-. apply quiet_slots.
    destruct Hk' as [->| ->]; [apply slots_refl, quiet_refl|].
    change (slots quiet k (upd i (set_state SLEEPING) k)). apply (leave_slots k i p); [done | done|].
    intros x. destruct (decide (state x = RUNNING)) as [Hx|]; [left | by right]. unfold quiet. simpl. rewrite Hx. by split_and!.
  - injection Hs as <- <-. apply quiet_slots. intros i p p' Hp. unfold wakeup. cbn [procs set_procs]. rewrite list_lookup_fmap, Hp.
    intros [= <-]. apply wakeup_one_quiet.
  - injection Hs as <- <-. apply quiet_slots. unfold kkill.
    destruct (find_index _ _) as [j|]; [|apply slots_refl, quiet_refl].
    apply slots_upd; [apply quiet_refl|]. intros q Hq. unfold is_state. simpl. case_bool_decide as Hsl; [|done].
    unfold quiet. simpl. rewrite Hsl. by split_and!.
  - rewrite Hc in Hs. injection Hs as <- <-. apply quiet_slots, slots_upd; [apply quiet_refl | done].
Qed.

(** A run with the observer. *)
Fixpoint watched_run (es : list event) (k : kernel) (w : W) (L : list life) : option (kernel * W * list life) :=
  match es with
  | [] => Some (k, w, L)
  | e :: es' =>
      if enabled k e then '(k1, w1) ← step forkret_addr pol e k w; watched_run es' k1 w1 (watch_all e k k1 L) else None
  end.

Lemma watched_run_tracked es : forall k (w : W) L k' w' L',
  table_ok k -> nextpid k + Z.of_nat (length es) < 2 ^ 31 - 1 ->
  accounts k -> ticks k + Z.of_nat (length es) < 2 ^ 31 ->
  (forall i p l, procs k !! i = Some p -> L !! i = Some l -> tracked p l) -> length L = NPROC ->
  watched_run es k w L = Some (k', w', L') ->
  run forkret_addr pol es k w = Some (k', w') /\ length L' = NPROC /\
  forall i p l, procs k' !! i = Some p -> L' !! i = Some l -> tracked p l.
Proof.
  induction es as [|e es IH]; intros k w L k' w' L' Hk Hn Ha Ht HL Hlen; cbn [watched_run run length] in *.
  { by intros [= <- <- <-]. }
  destruct (enabled k e) eqn:He; [|done].
  destruct (step forkret_addr pol e k w) as [[k1 w1]|] eqn:Hs; [|done]. cbn [mbind option_bind].
  destruct (step_accounts e k w k1 w1 Hk ltac:(lia) He Ha ltac:(lia) Hs) as [Ha1 Ht1].
  destruct (step_ok forkret_addr pol e k w Hk ltac:(lia) He) as [(k2 & w2 & E & Hk2 & Hn2)|(c & st & -> & Hc)];
    [|simpl in Hs; by rewrite kexit_init in Hs].
  rewrite E in Hs. injection Hs as <- <-. apply IH; auto; try lia.
  2: { unfold watch_all. rewrite !length_zip_with, (procs_len k Hk), (procs_len k2 Hk2), Hlen. done. }
  intros i p' l' Hp' Hl'. destruct (lookup_lt_is_Some_2 (procs k) i) as [p Hp].
  { rewrite (procs_len k Hk), <- (procs_len k2 Hk2). by eapply lookup_lt_Some. }
  destruct (watch_all_lookup _ _ _ _ _ _ _ _ Hp Hp' Hl') as (l & Hl & ->). destruct Ha as [H0 Ha].
  apply follows_tracked; [lia | | | by apply (HL i)].
  - intros Hu. destruct (Ha i p Hp) as [_ Hac]. specialize (Hac Hu). lia.
  - by apply (step_slots e k w k2 w2 Hk ltac:(lia) He E i).
Qed.

Lemma boot_tracked (w : W) k w' : userinit forkret_addr boot_kernel w = Some (k, w') ->
  forall i p, procs k !! i = Some p -> tracked p (newborn 0).
Proof.
  unfold userinit. pose proof (allocproc_cases forkret_addr boot_kernel w) as H.
  destruct (allocproc forkret_addr boot_kernel w) as [[[i|] k1] w1]; [|done].
  destruct H as (p & np & _ & Hp & Hs & -> & He). cbn [mbind option_bind].
  destruct (namei_root w1) as [root w2]. intros [= <- <-] j q.
  set (k0 := set_initproc _ _). assert (Hg : get k0 i = Some np) by (by eapply get_put).
  assert (Hg1 : get (upd i (set_cwd (Some root)) k0) i = Some (set_cwd (Some root) np)) by (by apply upd_lookup_eq).
  destruct (decide (j = i)) as [->|Hj].
  - rewrite (upd_lookup_eq i _ _ _ Hg1). intros [= <-]. intros _.
    destruct He as (E0&_&_&_&_&_&_&_&_&_&_&_&E1&E2&E3&E4). simpl. rewrite E1, E2, E3. split_and!; done.
  - rewrite !upd_lookup_ne by done. unfold k0. cbn [procs set_initproc]. unfold put. rewrite upd_lookup_ne by done.
    intros Hq. rewrite (boot_slot j q Hq). by intros [].
Qed.

(** C35: the report of [kwaitx] on an exited child is exact.  Compare it with an
    observer who sees only the states of the slots and the clock: after any
    run from boot, the running time reported for a dead process is the number
    of ticks at which it was RUNNING, the running and waiting times add up to
    the ticks between its creation and its exit, and the response time is the
    delay between its creation and its first dispatch, or -1 if it never ran;
    nothing is clamped and nothing overflows. *)
Theorem waitx_stats_exact (w w0 w1 : W) (k0 k1 : kernel) (es : list event) (L : list life) (i : nat) (p : proc) :
  userinit forkret_addr boot_kernel w = Some (k0, w0) ->
  Z.of_nat (length es) < 2 ^ 31 - 3 ->
  watched_run es k0 w0 (replicate NPROC (newborn 0)) = Some (k1, w1, L) ->
  procs k1 !! i = Some p -> state p = ZOMBIE ->
  exists l t, L !! i = Some l /\ died l = Some t /\
    waitx_stats p = (ran l, t - born l - ran l, match first l with Some f => f - born l | None => -1 end) /\
    0 <= born l /\ 0 <= ran l <= t - born l /\ (forall f, first l = Some f -> born l <= f <= t).
Proof.
  intros Hb Hl Hw Hp Hs. destruct (boot_ok forkret_addr w k0 w0 Hb) as [Hk Hn].
  destruct (boot_accounts w k0 w0 Hb) as [Ha Ht].
  destruct (watched_run_tracked es k0 w0 _ k1 w1 L Hk ltac:(lia) Ha ltac:(lia) ltac:(intros j q l Hq (-> & _)%lookup_replicate; by apply (boot_tracked w k0 w0 Hb j)) ltac:(by rewrite length_replicate) Hw)
    as (Hr & Hlen & HL).
  destruct (run_ok forkret_addr pol es k0 w0 k1 w1 Hk ltac:(lia) Hr) as [Hk1 _].
  destruct (lookup_lt_is_Some_2 L i) as [l El]; [rewrite Hlen, <- (procs_len k1 Hk1); by eapply lookup_lt_Some|].
  destruct (run_accounts es k0 w0 k1 w1 Hk ltac:(lia) Ha ltac:(lia) Hr) as [[_ Ha1] Ht1].
  destruct (Ha1 i p Hp) as [_ Hac]. specialize (Hac ltac:(congruence)).
  unfold last_tick, is_state in Hac. rewrite Hs in Hac. simpl in Hac.
  destruct (HL i p l Hp El ltac:(congruence)) as (H1 & H2 & H3 & H4 & _ & H6). unfold is_state in H6. rewrite Hs in H6. simpl in H6.
  exists l, (etime p). rewrite <- H1, <- H2. split; [done|]. split; [done|].
  assert (Hf : forall f, first l = Some f -> ctime p <= f <= etime p).
  { intros f Ef. rewrite Ef in H3. simpl in H3. specialize (H4 f Ef). lia. }
  split_and!; [|lia|lia|lia|done].
  unfold waitx_stats.
  rewrite (u32_id (etime p - ctime p)) by (unfold in_u32; lia).
  rewrite (i32_id (rtime p)), (i32_id (etime p - ctime p)), (i32_id (ctime p)) by (unfold in_i32; lia).
  rewrite (i32_id (etime p - ctime p - rtime p)) by (unfold in_i32; lia).
  destruct (Z.ltb_spec (etime p - ctime p - rtime p) 0); [lia|]. rewrite H3.
  destruct (first l) as [f|] eqn:Ef; simpl; [|done]. specialize (Hf f eq_refl).
  destruct (Z.ltb_spec f 0); [lia|]. rewrite i32_id by (unfold in_i32; lia). done.
Qed.
End Reachable.

(** A child that runs, is preempted, runs again and exits. *)
Definition dead_events : list event :=
  [ESchedule 0 0; EFork 0; EWait 0 0; ETimer 0; ESchedule 1 0; ETimer 0; EYield 1; ETimer 0; ESchedule 1 0; ETimer 0; EExit 1 3].
Definition one_dead : kernel * DemoW * list life :=
  default (zero_kernel, 0, []) (watched_run 0 MLFQ dead_events demo_boot.1 demo_boot.2 (replicate NPROC (newborn 0))).

Lemma waitx_stats_exact_witness :
  exists p, procs one_dead.1.1 !! 1%nat = Some p /\ waitx_stats p = (2, 2, 1) /\
    exists l t, one_dead.2 !! 1%nat = Some l /\ died l = Some t /\
      waitx_stats p = (ran l, t - born l - ran l, match first l with Some f => f - born l | None => -1 end) /\
      0 <= born l /\ 0 <= ran l <= t - born l /\ (forall f, first l = Some f -> born l <= f <= t).
Proof.
  exists (default zero_proc (procs one_dead.1.1 !! 1%nat)). split; [vm_compute; reflexivity|].
  split; [vm_compute; reflexivity|].
  apply (waitx_stats_exact 0 MLFQ (7 : DemoW) demo_boot.2 one_dead.1.2 demo_boot.1 one_dead.1.1 dead_events one_dead.2 1);
    vm_compute; reflexivity.
Defined.
