(* ===== verification/Fairness.v ===== *)
(** * Fairness of the policies (xv6/kernel/proc.c, trap.c)

    MLFQ: how far a process sinks as it consumes ticks, the periodic boost,
    and the absence of starvation among CPU-bound processes on one core.
    Round robin: one pass over the table serves every RUNNABLE process. *)
From Stdlib Require Import Sorted.
From S2P Require Import Prelude Proc Sched Table Lifecycle Kernel Accounting.
Local Open Scope Z_scope.

(** ** Demotion *)

(** Queue and used slice after [n] ticks of CPU since a boost or birth. *)
Definition ladder (n : Z) : Z * Z :=
  if n <? 1 then (0, n) else if n <? 5 then (1, n - 1) else if n <? 13 then (2, n - 5)
  else (3, (n - 13) mod 16).

Fixpoint charges (ts : list Z) (p : proc) : option proc :=
  match ts with
  | [] => Some p
  | t :: ts' => '(_, p') ← charge t p; charges ts' p'
  end.

Lemma charge_ladder t p n :
  0 <= n -> (priority p, slice_used p) = ladder n ->
  exists e p', charge t p = Some (e, p') /\ (priority p', slice_used p') = ladder (n + 1) /\
    (e = true <-> slice_used p' = 0).
Proof.
  intros Hn. unfold ladder. pose proof (Z.mod_pos_bound (n - 13) 16 ltac:(lia)) as Hm.
  unfold charge; simpl.
  destruct (Z.ltb_spec n 1); [|destruct (Z.ltb_spec n 5); [|destruct (Z.ltb_spec n 13)]];
    intros [= Hp Hs]; rewrite Hp, Hs, i32_id by (unfold in_i32; lia); simpl.
  - assert (n = 0) as -> by lia. eexists _, _. split; [done|]. simpl. done.
  - destruct (Z.leb_spec 4 (n - 1 + 1)); eexists _, _; (split; [done|]); simpl; rewrite ?Hp.
    + assert (n = 4) as -> by lia. done.
    + rewrite (proj2 (Z.ltb_ge (n + 1) 1)), (proj2 (Z.ltb_lt (n + 1) 5)) by lia. split; [f_equal; lia|].
      split; [done | lia].
  - destruct (Z.leb_spec 8 (n - 5 + 1)); eexists _, _; (split; [done|]); simpl; rewrite ?Hp.
    + assert (n = 12) as -> by lia. done.
    + rewrite (proj2 (Z.ltb_ge (n + 1) 1)), (proj2 (Z.ltb_ge (n + 1) 5)), (proj2 (Z.ltb_lt (n + 1) 13)) by lia.
      split; [f_equal; lia|]. split; [done | lia].
  - rewrite (proj2 (Z.ltb_ge (n + 1) 1)), (proj2 (Z.ltb_ge (n + 1) 5)), (proj2 (Z.ltb_ge (n + 1) 13)) by lia.
    assert (Hstep : (n + 1 - 13) mod 16 = (if 16 <=? (n - 13) mod 16 + 1 then 0 else (n - 13) mod 16 + 1)).
    { pose proof (Z.div_mod (n - 13) 16 ltac:(lia)) as Hd. symmetry.
      destruct (Z.leb_spec 16 ((n - 13) mod 16 + 1)).
      - apply (Z.mod_unique_pos _ _ ((n - 13) / 16 + 1)); lia.
      - apply (Z.mod_unique_pos _ _ ((n - 13) / 16)); lia. }
    rewrite Hstep. destruct (Z.leb_spec 16 ((n - 13) mod 16 + 1)); eexists _, _; (split; [done|]); simpl; rewrite ?Hp.
    + done.
    + split; [done|]. split; [done | lia].
Qed.

(** A process that starts at the top of the MLFQ and consumes [n] ticks
    sinks exactly as its slices of 1, 4, 8 and 16 ticks say: it leaves queue
    0 after 1 tick, queue 1 after 5, queue 2 after 13, and then stays in
    queue 3, where its slice starts again every 16 ticks. *)
Theorem demotion_ladder (ts : list Z) (p : proc) :
  priority p = 0 -> slice_used p = 0 ->
  exists p', charges ts p = Some p' /\ (priority p', slice_used p') = ladder (Z.of_nat (length ts)).
Proof.
  intros Hp Hs.
  assert (H : forall n p, 0 <= n -> (priority p, slice_used p) = ladder n ->
    exists p', charges ts p = Some p' /\ (priority p', slice_used p') = ladder (n + Z.of_nat (length ts))).
  { clear. induction ts as [|t ts IH]; intros n p Hn H.
    - exists p. simpl. by rewrite Z.add_0_r.
    - destruct (charge_ladder t p n Hn H) as (e & p1 & Hc & H1 & _).
      destruct (IH (n + 1) p1 ltac:(lia) H1) as (p2 & Hc2 & H2). exists p2.
      cbn [charges]. rewrite Hc. split; [done|]. rewrite H2. f_equal. cbn [length]. lia. }
  apply (H 0); [lia|]. by rewrite Hp, Hs.
Qed.

Lemma demotion_ladder_witness :
  exists p', charges (replicate 14 9) zero_proc = Some p' /\ (priority p', slice_used p') = (3, 1).
Proof. apply (demotion_ladder (replicate 14 9) zero_proc); reflexivity. Defined.

(** ** No starvation

    One core, CPU-bound processes: a round is a scheduling turn if the core
    is idle, then a timer interrupt. *)
Definition round (k : kernel) : option (option nat * kernel) :=
  let '(r, k1) := match myproc k 0 with
                  | Some i => (Some i, k)
                  | None => mlfq_schedule 0 k
                  end in
  k2 ← timer_interrupt MLFQ 0 k1; Some (r, k2).

Fixpoint rounds (n : nat) (k : kernel) : option (list (option nat) * kernel) :=
  match n with
  | O => Some ([], k)
  | S n' => '(r, k1) ← round k; '(rs, k2) ← rounds n' k1; Some (r :: rs, k2)
  end.

(** Arrival times are not in the future, and the tick counter is far from
    its wrap-around for the next [n] ticks. *)
Definition timely (k : kernel) : Prop :=
  0 <= ticks k /\ forall i p, procs k !! i = Some p -> enq_time p <= ticks k.

(** What a timer tick does to a slot whose process is not running. *)
Definition calm (p p' : proc) : Prop :=
  enq_time p' = enq_time p /\ queued p' = queued p /\
  (state p = RUNNABLE -> state p' = RUNNABLE) /\ (priority p = 0 -> priority p' = 0).

Definition boosting (k : kernel) : bool := (ticks k + 1) mod 48 =? 0.

Lemma calm_refl p : calm p p.
Proof. done. Qed.

Lemma clock_slot k j p :
  ticks k + 1 < 2 ^ 32 -> 0 <= ticks k -> procs k !! j = Some p ->
  ticks (clockintr MLFQ 0 k) = ticks k + 1 /\
  exists p', procs (clockintr MLFQ 0 k) !! j = Some p' /\ calm p p' /\
    (state p = RUNNING -> state p' = RUNNING) /\
    (boosting k = true -> state p <> UNUSED -> priority p' = 0 /\ slice_used p' = 0) /\
    (boosting k = false -> priority p' = priority p /\ slice_used p' = slice_used p).
Proof.
  intros Ht H0 Hp. unfold clockintr. cbn [Nat.eqb].
  set (p1 := wakeup_one (Some CTicks) p).
  set (p2 := if is_state RUNNING p1 then set_rtime (u32 (rtime p1 + 1)) p1 else p1).
  set (k2 := update_time _).
  assert (Et : ticks k2 = ticks k + 1) by (simpl; apply u32_id; unfold in_u32; lia).
  assert (Hp2 : procs k2 !! j = Some p2) by (simpl; by rewrite !list_lookup_fmap, Hp).
  assert (H2 : calm p p2 /\ (state p = RUNNING -> state p2 = RUNNING) /\ (state p <> UNUSED -> state p2 <> UNUSED) /\
    priority p2 = priority p /\ slice_used p2 = slice_used p).
  { unfold p2, p1, wakeup_one, is_state, calm.
    destruct (bool_decide (chan p = Some CTicks)); simpl;
      repeat (case_bool_decide; simpl in * ); split_and!; auto; intros; congruence. }
  destruct H2 as ((?&?&?&?) & ? & Hu & ? & ?). rewrite Et. fold (boosting k).
  destruct (boosting k); (split; [done|]).
  - exists (boost_one p2). split; [unfold mlfq_boost; cbn [procs set_procs set_mlfq_last_boost]; by rewrite list_lookup_fmap, Hp2|].
    unfold calm, boost_one. destruct (is_state UNUSED p2) eqn:Hs; simpl.
    + apply is_state_true in Hs. split_and!; auto; try done. intros _ Hn. by destruct (Hu Hn).
    + split_and!; auto; done.
  - exists p2. split_and!; auto; done.
Qed.

Lemma yield_run c k me :
  table_ok k -> myproc k c = Some me ->
  exists k', yield c k = Some k' /\ ticks k' = ticks k /\
    (forall j, j <> me -> procs k' !! j = procs k !! j) /\
    procs k' !! me = set_state RUNNABLE <$> procs k !! me /\ cpu_proc k' = <[c := None]> (cpu_proc k).
Proof.
  intros Hk Hc. destruct (yield_ok c k me Hk Hc) as [-> _].
  eexists. split_and!; try done; intros; cbn [procs cpu_clear set_cpu_proc].
  - by rewrite upd_lookup_ne.
  - by rewrite upd_lookup, decide_True.
Qed.

(** A timer tick on core 0 while [me] runs there. *)
Lemma tick_spec k me p :
  table_ok k -> timely k -> ticks k + 1 < 2 ^ 32 -> myproc k 0 = Some me -> get k me = Some p ->
  exists k', timer_interrupt MLFQ 0 k = Some k' /\ table_ok k' /\ timely k' /\ ticks k' = ticks k + 1 /\
    length (cpu_proc k') = length (cpu_proc k) /\
    (forall j q, j <> me -> procs k !! j = Some q -> exists q', procs k' !! j = Some q' /\ calm q q' /\
       (boosting k = true -> state q <> UNUSED -> priority q' = 0)) /\
    (boosting k = true \/ (priority p = 0) ->
       myproc k' 0 = None /\ exists p', procs k' !! me = Some p' /\ enq_time p' = ticks k + 1).
Proof.
  intros Hk [Ht0 Ht] Hb Hc Hp. destruct (timer_interrupt_ok MLFQ 0 k Hk) as (k' & Hk' & Hok).
  exists k'. split; [done|]. split; [done|].
  pose proof (clockintr_ok MLFQ 0 k Hk) as Hk1.
  assert (Hslot := fun j q => clock_slot k j q Hb Ht0).
  destruct (Hslot me p Hp) as (Et & p1 & Hp1 & (E1 & _) & _ & Hbo & Hnb).
  assert (Hc1 : myproc (clockintr MLFQ 0 k) 0 = Some me) by (unfold myproc; by rewrite clockintr_cpu).
  rewrite <- (clockintr_cpu MLFQ 0 k).
  unfold timer_interrupt, timer_yield, mlfq_tick in Hk'. revert Hk' Hk1 Hc1 Hp1 Et Hslot.
  generalize (clockintr MLFQ 0 k). intros k1 Hk' Hk1 Hc1 Hp1 Et Hslot.
  rewrite Hc1 in Hk'. unfold get in Hk'. rewrite Hp1 in Hk'. cbn [mbind option_bind] in Hk'.
  destruct (charge_ok (ticks k1) p1 (slot_mlfq k1 Hk1 me p1 Hp1)) as (e & p2 & Hch & _ & Hf).
  rewrite Hch in Hk'. cbn [mbind option_bind] in Hk'.
  assert (Hk2 := charged_ok _ k1 me p1 e p2 Hk1 Hp1 Hch).
  destruct (yield_run 0 (upd me (const p2) k1) me Hk2 Hc1) as (ky & Hy & Ety & Hyo & Hym & Hyc).
  assert (Hme : procs (upd me (const p2) k1) !! me = Some p2) by (by apply (upd_lookup_eq me (const p2) k1 p1)).
  assert (Ho : forall j, j <> me -> procs (upd me (const p2) k1) !! j = procs k1 !! j) by (intros; by apply upd_lookup_ne).
  assert (Henq : enq_time p2 <= ticks k + 1).
  { destruct Hf as [->|[q ->]]; simpl; [|lia]. rewrite E1. specialize (Ht me p Hp). lia. }
  assert (Hres : ticks k' = ticks k + 1 /\ (forall j, j <> me -> procs k' !! j = procs k1 !! j) /\
    (exists p', procs k' !! me = Some p' /\ enq_time p' = enq_time p2) /\ (e = true -> myproc k' 0 = None) /\
    length (cpu_proc k') = length (cpu_proc k1)).
  { assert (Hl : length (cpu_proc ky) = length (cpu_proc k1)) by (rewrite Hyc; apply length_insert).
    assert (Hi : myproc ky 0 = None).
    { unfold myproc. rewrite Hyc. destruct (decide (0 < length (cpu_proc k1))%nat) as [?|?].
      - by rewrite list_lookup_insert_eq.
      - rewrite lookup_ge_None_2; [done|]. rewrite length_insert. simpl. lia. }
    assert (Hm : exists p', procs ky !! me = Some p' /\ enq_time p' = enq_time p2)
      by (rewrite Hym, Hme; simpl; eauto).
    destruct e; simpl in Hk'; [|destruct (mlfq_higher_runnable _ _ _)]; simpl in Hk';
      try (rewrite Hy in Hk'); injection Hk' as <-; split_and!; try done; eauto; try (rewrite Ety; done);
      intros; rewrite Hyo by done; auto. }
  destruct Hres as (Etk & Hoth & (p' & Hp' & Ep') & Hidle & Hlen).
  split_and!.
  - split; [lia|]. intros i q Hq. rewrite Etk. destruct (decide (i = me)) as [->|Hne]; [simplify_eq; lia|].
    rewrite Hoth in Hq by done.
    destruct (procs k !! i) as [q0|] eqn:Hq0.
    + destruct (Hslot i q0 Hq0) as (_ & q' & Hq' & (Eq & _) & _). simplify_eq. rewrite Eq. specialize (Ht i q0 Hq0). lia.
    + apply lookup_ge_None in Hq0. apply lookup_lt_Some in Hq.
      rewrite (procs_len k1 Hk1) in Hq. rewrite (procs_len k Hk) in Hq0. lia.
  - done.
  - done.
  - intros j q Hj Hq. destruct (Hslot j q Hq) as (_ & q' & Hq' & Hcalm & _ & Hbst & _). exists q'.
    rewrite Hoth by done. split_and!; auto. intros. by apply Hbst.
  - intros Hcond. assert (Hp0 : (priority p1, slice_used p1) = ladder 0).
    { destruct (table_running k 0 me Hk Hc) as (p0 & Hp0 & Hr & _). simplify_eq.
      destruct (boosting k) eqn:Hbk; [destruct Hbo as [-> ->]; [done|congruence|done]|].
      destruct Hnb as [-> ->]; [done|]. destruct Hcond as [?|Hpr]; [done|]. rewrite Hpr.
      destruct (slot_mlfq k Hk me p Hp) as (_ & s & Hs & Hsu). rewrite Hpr in Hs. injection Hs as <-.
      assert (slice_used p = 0) as -> by lia. done. }
    destruct (charge_ladder (ticks k1) p1 0 ltac:(lia) Hp0) as (e' & p2' & Hch' & Hl & Heq). simplify_eq.
    assert (e = true) as -> by (apply Heq; by injection Hl). split; [auto|]. exists p'. split; [done|].
    rewrite Ep'. destruct Hf as [->|[q ->]]; [|simpl; lia]. exfalso. clear -Hl Hp0. simpl in Hl.
    injection Hp0 as _ Hp0. rewrite Hp0 in Hl. discriminate.
Qed.

Lemma mlfq_schedule_frame c k :
  ticks (mlfq_schedule c k).2 = ticks k /\
  length (cpu_proc (mlfq_schedule c k).2) = length (cpu_proc k).
Proof.
  unfold mlfq_schedule. destruct (mlfq_scan _ _ _ _) as [ps [[i p]|]]; [|done]. simpl.
  split; [done | apply length_insert].
Qed.

Lemma settle_enq t p : enq_time p <= t -> enq_time p <= enq_time (settle t p) <= t.
Proof.
  intros H. unfold settle, enqueue. destruct (runnable p); [|lia].
  destruct (queued p =? 0); simpl; lia.
Qed.

Lemma settle_queued t p : state p = RUNNABLE -> (queued (settle t p) =? 0) = false.
Proof.
  intros Hr%runnable_true. rewrite (settle_runnable t p Hr). unfold enqueue.
  by destruct (queued p =? 0) eqn:E.
Qed.

Lemma settle_calm t t' p p' :
  calm (settle t p) p' -> state p = RUNNABLE -> enq_time (settle t' p') = enq_time (settle t p).
Proof.
  intros (<- & E2 & _) Hr. unfold settle at 1. destruct (runnable p'); [|done].
  unfold enqueue. by rewrite E2, settle_queued.
Qed.

(** One round from an idle core, when [q] is RUNNABLE: the process that is
    run comes no later than [q] in the MLFQ, and every other slot is calm. *)
Lemma round_idle k q pq :
  table_ok k -> timely k -> ticks k + 1 < 2 ^ 32 -> cpu_proc k !! 0%nat = Some None ->
  procs k !! q = Some pq -> state pq = RUNNABLE ->
  exists r k', round k = Some (Some r, k') /\ table_ok k' /\ timely k' /\ ticks k' = ticks k + 1 /\
    length (cpu_proc k') = length (cpu_proc k) /\
    (r = q \/ exists pr, procs k !! r = Some pr /\
       queue_before r (settle (ticks k) pr) q (settle (ticks k) pq) /\
       (priority pr = 0 -> myproc k' 0 = None /\
          exists p', procs k' !! r = Some p' /\ enq_time p' = ticks k + 1)) /\
    (forall j p, j <> r -> procs k !! j = Some p -> exists p', procs k' !! j = Some p' /\
       calm (settle (ticks k) p) p' /\ (boosting k = true -> state p <> UNUSED -> priority p' = 0)) /\
    (boosting k = true -> myproc k' 0 = None).
Proof.
  intros Hk Ht Hb Hc Hq Hs. pose proof (schedule_ok MLFQ 0 0 k Hk Hc) as Hk1. simpl in Hk1.
  pose proof (mlfq_schedule_turn 0 k) as Hturn. destruct (mlfq_schedule_frame 0 k) as [Etk El].
  assert (Hround : round k = (k2 ← timer_interrupt MLFQ 0 (mlfq_schedule 0 k).2; Some ((mlfq_schedule 0 k).1, k2))).
  { unfold round. assert (E : myproc k 0 = None) by (unfold myproc; by rewrite Hc). rewrite E.
    by destruct (mlfq_schedule 0 k). }
  unfold mlfq_turn in Hturn.
  destruct (mlfq_schedule 0 k) as [[r|] k1]; cbn [fst snd] in *; [|by destruct Hturn as [_ H]; destruct (H q pq Hq)].
  destruct Hturn as (pr & Hpr & Hsr & Hk1r & Hoth & Hbefore & Hcpu).
  assert (Hr1 : runnable pr = true) by (by apply runnable_true).
  assert (Ht1 : timely k1).
  { destruct Ht as [H0 Ht]. split; [lia|]. rewrite Etk. intros i p Hp.
    destruct (procs k !! i) as [p0|] eqn:Hp0.
    - pose proof (settle_enq (ticks k) p0 (Ht i p0 Hp0)) as He. destruct (decide (i = r)) as [->|Hne].
      + simplify_eq. rewrite (settle_runnable _ _ Hr1) in He. unfold run_now.
        by destruct (first_run _ <? 0); simpl; lia.
      + rewrite (Hoth i p0 Hne Hp0) in Hp. simplify_eq. lia.
    - apply lookup_ge_None in Hp0. apply lookup_lt_Some in Hp.
      rewrite (procs_len k1 Hk1) in Hp. rewrite (procs_len k Hk) in Hp0. lia. }
  assert (Hc1 : myproc k1 0 = Some r).
  { apply myproc_Some. rewrite Hcpu. apply list_lookup_insert_eq. by eapply lookup_lt_Some. }
  destruct (tick_spec k1 r _ Hk1 Ht1 ltac:(lia) Hc1 Hk1r) as (k' & Hti & Hk' & Ht' & Etk' & El' & Hcalm & Hexp).
  rewrite Hti in Hround. cbn [mbind option_bind] in Hround.
  assert (Hbo : boosting k1 = boosting k) by (unfold boosting; by rewrite Etk). rewrite Hbo in *.
  exists r, k'. rewrite Etk, El in *. split_and!; auto.
  - destruct (decide (r = q)) as [->|Hne]; [by left|]. right. exists pr. split_and!; auto.
    + rewrite (settle_runnable _ _ Hr1). rewrite (settle_runnable _ pq) by (by apply runnable_true).
      by apply Hbefore.
    + intros Hp0. apply Hexp. right. destruct (enqueue_frame (ticks k) pr) as (_ & E & _).
      unfold run_now. destruct (first_run _ <? 0); simpl; congruence.
  - intros j p Hj Hp. destruct (Hcalm j _ Hj (Hoth j p Hj Hp)) as (p' & Hp' & Hcm & Hbst).
    exists p'. split_and!; auto. intros Hb1 Hu. apply Hbst; [done|].
    unfold settle. destruct (runnable p); [|done]. by rewrite (proj1 (enqueue_frame _ _)).
  - intros Hb1. by destruct (Hexp (or_introl Hb1)).
Qed.

(** One round with [q] RUNNABLE, whether the core was busy or not. *)
Lemma round_step k q pq :
  table_ok k -> timely k -> ticks k + 1 < 2 ^ 32 ->
  procs k !! q = Some pq -> state pq = RUNNABLE ->
  exists r k', round k = Some (Some r, k') /\
    (r = q \/
     (table_ok k' /\ timely k' /\ ticks k' = ticks k + 1 /\
      exists pq', procs k' !! q = Some pq' /\ state pq' = RUNNABLE /\
        (boosting k = true -> priority pq' = 0 /\ myproc k' 0 = None))).
Proof.
  intros Hk Ht Hb Hq Hs. assert (Hu : state pq <> UNUSED) by congruence.
  pose proof (cpus_len k (running_ok k Hk)) as Hl.
  destruct (lookup_lt_is_Some_2 (cpu_proc k) 0) as [[me|] Hc0]; [rewrite Hl; unfold NCPU; lia| |].
  - assert (Hc : myproc k 0 = Some me) by (by apply myproc_Some).
    destruct (table_running k 0 me Hk Hc) as (p & Hp & Hr & _).
    destruct (tick_spec k me p Hk Ht Hb Hc Hp) as (k' & Hti & Hk' & Ht' & Etk & El & Hcalm & Hexp).
    exists me, k'. unfold round. rewrite Hc, Hti. split; [done|]. right. split_and!; auto.
    assert (Hne : q <> me) by (intros ->; unfold get in Hp; congruence).
    destruct (Hcalm q pq Hne Hq) as (pq' & Hq' & (_ & _ & Hcs & _) & Hbo).
    exists pq'. split_and!; auto. intros Hbk. split; [by apply Hbo | by destruct (Hexp (or_introl Hbk))].
  - destruct (round_idle k q pq Hk Ht Hb Hc0 Hq Hs) as (r & k' & Hr & Hk' & Ht' & Etk & El & _ & Hcalm & Hidle).
    exists r, k'. split; [done|]. destruct (decide (r = q)) as [->|Hne]; [by left|]. right.
    split_and!; auto. destruct (Hcalm q pq ltac:(done) Hq) as (pq' & Hq' & (_ & _ & Hcs & _) & Hbo).
    exists pq'. split_and!; auto. apply Hcs. apply runnable_true. rewrite runnable_settle. by apply runnable_true.
Qed.

(** After a boost: core idle, [q] waiting in queue 0. *)
Definition boosted (q : nat) (k : kernel) : Prop :=
  table_ok k /\ timely k /\ cpu_proc k !! 0%nat = Some None /\
  exists p, procs k !! q = Some p /\ state p = RUNNABLE /\ priority p = 0.

(** The slots that arrived in the MLFQ before [q]. *)
Definition ahead (k : kernel) (q j : nat) : bool :=
  match procs k !! j, procs k !! q with
  | Some pj, Some pq =>
      let ej := enq_time (settle (ticks k) pj) in
      let eq := enq_time (settle (ticks k) pq) in
      negb (j =? q)%nat && ((ej <? eq) || ((ej =? eq) && (j <? q)%nat))
  | _, _ => false
  end.

Definition ahead_set (k : kernel) (q : nat) : gset nat :=
  filter (fun j => ahead k q j = true) (set_seq 0 NPROC).

Lemma elem_of_ahead k q j :
  table_ok k -> j ∈ ahead_set k q <-> exists pj pq, procs k !! j = Some pj /\ procs k !! q = Some pq /\ j <> q /\
    (enq_time (settle (ticks k) pj) < enq_time (settle (ticks k) pq) \/
     (enq_time (settle (ticks k) pj) = enq_time (settle (ticks k) pq) /\ (j < q)%nat)).
Proof.
  intros Hk. unfold ahead_set. rewrite elem_of_filter, elem_of_set_seq. unfold ahead. split.
  - intros [H _]. destruct (procs k !! j) as [pj|]; [|done]. destruct (procs k !! q) as [pq|]; [|done].
    exists pj, pq. split_and!; try done; revert H; bool_cases; simpl; intros; try done; lia.
  - intros (pj & pq & Hj & Hq & Hne & H). split.
    + rewrite Hj, Hq. bool_cases; simpl; try done; lia.
    + apply lookup_lt_Some in Hj. rewrite (procs_len k Hk) in Hj. lia.
Qed.

Lemma boosted_round q k :
  boosted q k -> ticks k + 1 < 2 ^ 32 ->
  exists r k', round k = Some (Some r, k') /\
    (r = q \/ (boosted q k' /\ ticks k' = ticks k + 1 /\ ahead_set k' q ⊂ ahead_set k q)).
Proof.
  intros (Hk & Ht & Hc & pq & Hq & Hs & Hp0) Hb.
  destruct (round_idle k q pq Hk Ht Hb Hc Hq Hs) as (r & k' & Hr & Hk' & Ht' & Etk & El & Hwin & Hcalm & _).
  exists r, k'. split; [done|]. destruct Hwin as [?|(pr & Hpr & Hbef & Hexp)]; [by left|].
  destruct (decide (r = q)) as [?|Hne]; [by left|]. right.
  assert (Hpset : forall p, priority (settle (ticks k) p) = priority p).
  { intros p. unfold settle. destruct (runnable p); [apply enqueue_frame | done]. }
  unfold queue_before in Hbef. rewrite !Hpset, Hp0 in Hbef.
  assert (Hpr0 : priority pr = 0).
  { destruct (slot_mlfq k Hk r pr Hpr) as [? _]. lia. }
  destruct (Hexp Hpr0) as (Hidle & p' & Hp' & Ep'). rewrite Hpr0 in Hbef.
  destruct (Hcalm q pq ltac:(done) Hq) as (pq' & Hq' & Hcq & _).
  assert (Heq : enq_time (settle (ticks k') pq') = enq_time (settle (ticks k) pq)) by (by eapply settle_calm).
  pose proof (settle_enq (ticks k) pq (proj2 Ht q pq Hq)) as Hqle.
  split_and!; [|done|].
  - split; [done|]. split; [done|]. split.
    { destruct (lookup_lt_is_Some_2 (cpu_proc k') 0) as [[i|] Hi]; [|unfold myproc in Hidle; by rewrite Hi in Hidle|done].
      rewrite El. by eapply lookup_lt_Some. }
    exists pq'. destruct Hcq as (_ & _ & Hcs & Hcp). split_and!; auto.
    + apply Hcs. apply runnable_true. rewrite runnable_settle. by apply runnable_true.
    + apply Hcp. by rewrite Hpset.
  - apply strict_spec_alt. split.
    + intros j. rewrite (elem_of_ahead k' q j Hk'), (elem_of_ahead k q j Hk).
      intros (pj' & pq'' & Hj' & Hq'' & Hjq & Hlt). simplify_eq.
      destruct (decide (j = r)) as [->|Hjr].
      { simplify_eq. pose proof (settle_enq (ticks k') p' (proj2 Ht' r p' Hp')). exfalso. lia. }
      destruct (procs k !! j) as [pj|] eqn:Hj.
      * destruct (Hcalm j pj Hjr Hj) as (pj2 & Hj2 & (Ej & _) & _). simplify_eq. exists pj, pq.
        pose proof (settle_enq (ticks k') pj' (proj2 Ht' j pj' Hj')). split_and!; auto. lia.
      * apply lookup_ge_None in Hj. apply lookup_lt_Some in Hj'.
        rewrite (procs_len k' Hk') in Hj'. rewrite (procs_len k Hk) in Hj. lia.
    + intros E. assert (Hin : r ∈ ahead_set k q).
      { apply elem_of_ahead; [done|]. exists pr, pq. split_and!; auto. lia. }
      rewrite <- E in Hin. apply (elem_of_ahead k' q r Hk') in Hin as (pr' & pq'' & H1 & H2 & _ & Hlt). simplify_eq.
      pose proof (settle_enq (ticks k') p' (proj2 Ht' r p' Hp')). lia.
Qed.

(** [q] gets the core within [n] rounds. *)
Definition runs_within (n : nat) (k : kernel) (q : nat) : Prop :=
  exists m rs k', (m <= n)%nat /\ rounds m k = Some (rs, k') /\ Some q ∈ rs.

Lemma runs_now n k q k1 : round k = Some (Some q, k1) -> runs_within (S n) k q.
Proof.
  intros H. exists 1%nat, [Some q], k1. cbn [rounds]. rewrite H. cbn [mbind option_bind].
  split_and!; [lia | done | set_solver].
Qed.

Lemma runs_later n k q r k1 : round k = Some (r, k1) -> runs_within n k1 q -> runs_within (S n) k q.
Proof.
  intros H (m & rs & k' & Hm & Hr & Hin). exists (S m), (r :: rs), k'. cbn [rounds]. rewrite H.
  cbn [mbind option_bind]. rewrite Hr. split_and!; [lia | done | set_solver].
Qed.

Lemma runs_mono n n' k q : (n <= n')%nat -> runs_within n k q -> runs_within n' k q.
Proof. intros H (m & rs & k' & Hm & Hr). exists m, rs, k'. split; [lia | done]. Qed.

Lemma boosted_runs q n : forall k,
  (size (ahead_set k q) <= n)%nat -> boosted q k -> ticks k + Z.of_nat n + 1 < 2 ^ 32 ->
  runs_within (S n) k q.
Proof.
  induction n as [|n IH]; intros k Hn Hk Hb;
    destruct (boosted_round q k Hk ltac:(lia)) as (r & k' & Hr & [->|(Hk' & Et & Hsub)]);
    try (by eapply runs_now); apply subset_size in Hsub; [lia|].
  eapply runs_later; [done|]. apply IH; [lia | done | lia].
Qed.

Lemma ahead_size k q : (size (ahead_set k q) <= NPROC)%nat.
Proof.
  unfold ahead_set. rewrite <- (size_set_seq (C := gset nat) 0 NPROC). apply subseteq_size.
  intros j. rewrite elem_of_filter. by intros [_ ?].
Qed.

Lemma boost_then_runs q d : forall k pq,
  table_ok k -> timely k -> procs k !! q = Some pq -> state pq = RUNNABLE ->
  (ticks k + Z.of_nat d + 1) mod 48 = 0 -> ticks k + Z.of_nat d + 67 < 2 ^ 32 ->
  runs_within (S d + S NPROC) k q.
Proof.
  induction d as [|d IH]; intros k pq Hk Ht Hq Hs Hd Hb;
    destruct (round_step k q pq Hk Ht ltac:(lia) Hq Hs)
      as (r & k' & Hr & [->|(Hk' & Ht' & Et & pq' & Hq' & Hs' & Hbo)]);
    try (by eapply runs_now); (eapply runs_later; [done|]).
  - destruct Hbo as [Hp0 Hidle]; [unfold boosting; apply Z.eqb_eq; rewrite <- Hd; f_equal; lia|].
    apply boosted_runs; [apply ahead_size | | rewrite Et; unfold NPROC; lia].
    split; [done|]. split; [done|]. split; [|eauto].
    destruct (lookup_lt_is_Some_2 (cpu_proc k') 0) as [[i|] Hi];
      [rewrite (cpus_len k' (running_ok k' Hk')); unfold NCPU; lia | |done].
    unfold myproc in Hidle. by rewrite Hi in Hidle.
  - eapply IH; eauto; rewrite Et; [rewrite <- Hd; f_equal; lia | lia].
Qed.

(** C6: no starvation under MLFQ among CPU-bound processes on one core.  Take
    any reachable state, and suppose that from then on only core 0 works, in
    rounds of one turn of its scheduler and one timer interrupt, and that the
    processes only compute: none sleeps, is woken, forks or exits.  Then every
    RUNNABLE process gets the core within 113 rounds, whatever queue it has
    sunk to and whatever else is RUNNABLE: at most 48 ticks until the next
    boost, and then at most one tick for each of the other slots.  The
    restriction matters: a woken process keeps its old place in its queue and
    may overtake ([woken_process_overtakes]). *)
Theorem mlfq_no_starvation {W : Type} `{!ProcEnv W} (forkret_addr : Z) (w w0 w1 : W) (k0 k : kernel)
    (es : list event) (q : nat) (p : proc) :
  userinit forkret_addr boot_kernel w = Some (k0, w0) ->
  Z.of_nat (length es) < 2 ^ 31 - 3 ->
  run forkret_addr MLFQ es k0 w0 = Some (k, w1) ->
  procs k !! q = Some p -> state p = RUNNABLE ->
  runs_within 113 k q.
Proof.
  intros Hboot Hlen Hrun Hq Hs.
  destruct (boot_ok forkret_addr w k0 w0 Hboot) as [Hk0 Hn].
  destruct (boot_accounts forkret_addr w k0 w0 Hboot) as [Ha0 Ht0].
  destruct (run_ok forkret_addr MLFQ es k0 w0 k w1 Hk0 ltac:(lia) Hrun) as [Hk _].
  destruct (run_accounts forkret_addr MLFQ es k0 w0 k w1 Hk0 ltac:(lia) Ha0 ltac:(lia) Hrun) as [[H0 Ha] Hb].
  assert (Ht : timely k) by (split; [done|]; intros i r Hr; apply (Ha i r Hr)).
  pose proof (Z.mod_pos_bound (ticks k) 48 ltac:(lia)) as Hm.
  set (d := Z.to_nat (47 - ticks k mod 48)).
  assert (Hd : Z.of_nat d = 47 - ticks k mod 48) by (unfold d; lia).
  apply (runs_mono (S d + S NPROC)); [unfold NPROC; lia|].
  eapply boost_then_runs; eauto; [|lia].
  rewrite Hd. pose proof (Z.div_mod (ticks k) 48 ltac:(lia)).
  replace (ticks k + (47 - ticks k mod 48) + 1) with ((ticks k / 48 + 1) * 48) by lia.
  apply Z_mod_mult.
Qed.

(** init has sunk while two children wait. *)
Definition crowding : list event :=
  [ESchedule 0 0; EFork 0; EFork 0; ETimer 0; ESchedule 0 0; ETimer 0].
Definition crowded : kernel * DemoW := demo crowding.

Lemma mlfq_no_starvation_witness : runs_within 113 crowded.1 0.
Proof.
  apply (mlfq_no_starvation 0 (7 : DemoW) demo_boot.2 crowded.2 demo_boot.1 crowded.1 crowding 0
    (default zero_proc (procs crowded.1 !! 0%nat))); vm_compute; reflexivity.
Defined.

(** ** Waking up

    [queued] is only cleared when a slot is allocated, so a process that wakes
    up is not put at the tail of its queue. *)

(** A process that wakes up resumes the place in its queue that it had
    before it slept: it is preferred to a process of the same queue that has
    been RUNNABLE all along but arrived later than the sleeper once did. *)
Theorem woken_process_overtakes (c i j : nat) (ch : channel) (k : kernel) (p q : proc) :
  procs k !! i = Some p -> state p = SLEEPING -> chan p = Some ch -> queued p <> 0 ->
  procs k !! j = Some q -> state q = RUNNABLE -> chan q <> Some ch -> queued q <> 0 ->
  priority p = priority q -> enq_time p < enq_time q ->
  (mlfq_schedule c (wakeup (Some ch) k)).1 <> Some j.
Proof.
  intros Hi Hs Hc Hqp Hj Hr Hcq Hqq Epri Hlt Hpick.
  pose proof (mlfq_schedule_turn c (wakeup (Some ch) k)) as Hturn. unfold mlfq_turn in Hturn.
  destruct (mlfq_schedule c (wakeup (Some ch) k)) as [r k']. simpl in Hpick. subst r.
  destruct Hturn as (q' & Hq' & _ & _ & _ & Hbefore & _).
  assert (Hj' : procs (wakeup (Some ch) k) !! j = Some q).
  { simpl. rewrite list_lookup_fmap, Hj. simpl. unfold wakeup_one. by rewrite bool_decide_false. }
  assert (Hi' : procs (wakeup (Some ch) k) !! i = Some (set_state RUNNABLE (set_chan None p))).
  { simpl. rewrite list_lookup_fmap, Hi. simpl. unfold wakeup_one, is_state. rewrite bool_decide_true by done.
    simpl. by rewrite Hs. }
  assert (q' = q) as -> by congruence. assert (Hne : i <> j) by congruence.
  specialize (Hbefore i _ Hne Hi' ltac:(done)). unfold queue_before, enqueue in Hbefore.
  rewrite (proj2 (Z.eqb_neq (queued q) 0) Hqq) in Hbefore. simpl in Hbefore.
  rewrite (proj2 (Z.eqb_neq (queued p) 0) Hqp) in Hbefore. simpl in Hbefore. lia.
Qed.

(** init sleeps, its two children run and queue up again, init wakes. *)
Definition napping : kernel * DemoW :=
  demo [ESchedule 0 0; EFork 0; EFork 0; ETimer 0; ESchedule 0 0; EWakeup CTicks; ETimer 0;
        ESchedule 0 0; ETimer 0; ESchedule 0 0; ESleepPrepare 0 (CObj 5); ESleep 0].

Lemma woken_process_overtakes_witness :
  (mlfq_schedule 0 (wakeup (Some (CObj 5)) napping.1)).1 <> Some 1%nat.
Proof.
  apply (woken_process_overtakes 0 0 1 (CObj 5) napping.1
    (default zero_proc (procs napping.1 !! 0%nat)) (default zero_proc (procs napping.1 !! 1%nat)));
    vm_compute; reflexivity || discriminate.
Defined.

(** ** Round robin

    One execution of the [for] loop of [scheduler] on core 0, where each
    process gives the core back by [yield]. *)
Fixpoint rr_pass (fuel cursor : nat) (k : kernel) : option (list nat * kernel) :=
  match fuel with
  | O => Some ([], k)
  | S f =>
      match rr_schedule 0 cursor k with
      | (None, k1) => Some ([], k1)
      | (Some i, k1) => k2 ← yield 0 k1; '(l, k3) ← rr_pass f (S i) k2; Some (i :: l, k3)
      end
  end.

(** The indices, from [i] on, of the elements that satisfy a test. *)
Fixpoint slots_with (f : proc -> bool) (i : nat) (ps : list proc) : list nat :=
  match ps with
  | [] => []
  | p :: ps' => if f p then i :: slots_with f (S i) ps' else slots_with f (S i) ps'
  end.

Lemma slots_with_find f ps : forall i,
  slots_with f i ps = match find_index f ps with
                      | Some j => (i + j)%nat :: slots_with f (S (i + j)) (drop (S j) ps)
                      | None => []
                      end.
Proof.
  induction ps as [|p ps IH]; intros i; [done|]. simpl. destruct (f p).
  - by rewrite Nat.add_0_r.
  - rewrite IH. destruct (find_index f ps) as [j|]; [|done]. simpl. by rewrite Nat.add_succ_r.
Qed.

Lemma elem_of_slots f ps : forall i j, j ∈ slots_with f i ps <->
  exists p, (i <= j)%nat /\ ps !! (j - i)%nat = Some p /\ f p = true.
Proof.
  induction ps as [|p ps IH]; intros i j; simpl.
  { split; [set_solver|]. intros (p & _ & H & _). by rewrite lookup_nil in H. }
  assert (Htail : (exists q, (S i <= j)%nat /\ ps !! (j - S i)%nat = Some q /\ f q = true) <->
    (i < j)%nat /\ exists q, (p :: ps) !! (j - i)%nat = Some q /\ f q = true).
  { split.
    - intros (q & Hj & Hq & Hf). split; [lia|]. exists q. replace (j - i)%nat with (S (j - S i)) by lia. done.
    - intros [Hj (q & Hq & Hf)]. exists q. replace (j - i)%nat with (S (j - S i)) in Hq by lia. split_and!; try done; lia. }
  destruct (f p) eqn:Hf.
  - rewrite elem_of_cons, IH, Htail. split.
    + intros [->|(Hj & q & Hq & Hfq)]; [exists p; rewrite Nat.sub_diag; done | exists q; split_and!; try done; lia].
    + intros (q & Hj & Hq & Hfq). destruct (decide (j = i)) as [->|]; [by left|]. right. split; [lia | eauto].
  - rewrite IH, Htail. split.
    + intros (Hj & q & Hq & Hfq). exists q. split_and!; try done; lia.
    + intros (q & Hj & Hq & Hfq). destruct (decide (j = i)) as [->|]; [|split; [lia | eauto]].
      rewrite Nat.sub_diag in Hq. simplify_eq/=. congruence.
Qed.

Lemma rr_pass_from n : forall cursor k,
  table_ok k -> cpu_proc k !! 0%nat = Some None -> (NPROC <= cursor + n)%nat ->
  exists k', rr_pass n cursor k = Some (slots_with runnable cursor (drop cursor (procs k)), k') /\ table_ok k'.
Proof.
  induction n as [|n IH]; intros cursor k Hk Hc Hn; cbn [rr_pass].
  { exists k. rewrite drop_ge by (rewrite (procs_len k Hk); lia). done. }
  pose proof (schedule_ok RR 0 cursor k Hk Hc) as Hk1. simpl in Hk1. revert Hk1.
  unfold rr_schedule, rr_next. rewrite slots_with_find. fold runnable.
  destruct (find_index runnable (drop cursor (procs k))) as [j|] eqn:Hf; simpl; [|eauto].
  intros Hk1. set (i := (cursor + j)%nat) in *.
  assert (Hc1 : myproc (dispatch 0 i k) 0 = Some i).
  { apply myproc_Some. simpl. apply list_lookup_insert_eq. by eapply lookup_lt_Some. }
  destruct (yield_run 0 _ i Hk1 Hc1) as (k2 & Hy & _ & Ho & _ & Hc2).
  destruct (yield_ok 0 _ i Hk1 Hc1) as [Hy' Hk2]. rewrite Hy in Hy'. injection Hy' as ->.
  rewrite Hy. cbn [mbind option_bind].
  destruct (IH (S i) _ Hk2) as (k3 & -> & Hk3); [|lia|].
  { rewrite Hc2. apply list_lookup_insert_eq. simpl. rewrite length_insert. by eapply lookup_lt_Some. }
  cbn [mbind option_bind]. exists k3. split; [|done]. do 3 f_equal.
  - rewrite drop_drop. replace (cursor + S j)%nat with (S i) by lia. f_equal.
    apply list_eq. intros m. rewrite !lookup_drop, Ho, dispatch_lookup, decide_False by lia. done.
Qed.

(** One pass of the round-robin loop gives the core to every RUNNABLE
    process exactly once, in slot order. *)
Theorem rr_pass_serves_all (k : kernel) :
  table_ok k -> cpu_proc k !! 0%nat = Some None ->
  exists order k', rr_pass NPROC 0 k = Some (order, k') /\ table_ok k' /\
    StronglySorted lt order /\
    forall i, i ∈ order <-> exists p, procs k !! i = Some p /\ state p = RUNNABLE.
Proof.
  intros Hk Hc. destruct (rr_pass_from NPROC 0 k Hk Hc) as (k' & Hr & Hk'); [lia|].
  rewrite drop_0 in Hr. eexists _, k'. split_and!; [done | done | |].
  - generalize 0%nat. generalize (procs k). clear. induction l as [|p ps IH]; intros i; simpl; [constructor|].
    destruct (runnable p); [|done]. constructor; [done|]. apply Forall_forall. intros j.
    rewrite elem_of_slots. intros (q & Hj & _). lia.
  - intros i. rewrite elem_of_slots, Nat.sub_0_r. split.
    + intros (p & _ & Hp & Hs%runnable_true). eauto.
    + intros (p & Hp & Hs%runnable_true). exists p. split_and!; try done; lia.
Qed.

Lemma rr_pass_serves_all_witness :
  exists order k', rr_pass NPROC 0 crowded.1 = Some (order, k') /\ table_ok k' /\
    StronglySorted lt order /\
    forall i, i ∈ order <-> exists p, procs crowded.1 !! i = Some p /\ state p = RUNNABLE.
Proof.
  apply (rr_pass_serves_all crowded.1); [|vm_compute; reflexivity].
  apply (demo_ok crowding _ crowded.2);
    vm_compute; reflexivity.
Defined.
