(* ===== verification/Log.v ===== *)
(** * The write-ahead log of xv6 (xv6/kernel/log.c)

    The in-memory header, the four phases of a commit and the recovery, over
    a disk whose block writes are atomic and a buffer cache that may hold a
    newer copy of a block than the disk.  [end_op] is its two lock regions and,
    between them, [commit] one disk write at a time, so that other processes
    run while [log.committing] is set.  A crash keeps the disk and loses
    everything else.  Every disk write is recorded in order, so that a crash
    can be placed after any of them. *)
From S2P Require Import Prelude.
Local Open Scope Z_scope.

Definition MAXOPBLOCKS : Z := 10.
Definition LOGBLOCKS : nat := 30.

(** A block as its 32-bit words: BSIZE is 1024. *)
Definition block : Type := list Z.
Definition BWORDS : nat := 256.
Definition zero_block : block := replicate BWORDS 0.

Definition get (m : gmap Z block) (b : Z) : block := default zero_block (m !! b).

(** The state of the log and of the disk: [cache] is what the buffer cache
    holds, [trace] the disk writes so far. *)
Record logstate := mkLog {
  disk : gmap Z block;
  cache : gmap Z block;
  start : Z;
  lh : list Z;
  outstanding : Z;
  committing : bool;
  ncommit : Z;
  trace : list (Z * block)
}.

Definition set_lh (l : list Z) (s : logstate) : logstate :=
  mkLog (disk s) (cache s) (start s) l (outstanding s) (committing s) (ncommit s) (trace s).
Definition set_counts (o : Z) (c : bool) (n : Z) (s : logstate) : logstate :=
  mkLog (disk s) (cache s) (start s) (lh s) o c n (trace s).
Definition set_cache (c : gmap Z block) (s : logstate) : logstate :=
  mkLog (disk s) c (start s) (lh s) (outstanding s) (committing s) (ncommit s) (trace s).

(** ** Buffers (bio.c) *)
Definition view (s : logstate) (b : Z) : block := default (get (disk s) b) (cache s !! b).

Definition bread (b : Z) (s : logstate) : block * logstate :=
  (view s b, set_cache (<[b := view s b]> (cache s)) s).

Definition bwrite (b : Z) (x : block) (s : logstate) : logstate :=
  mkLog (<[b := x]> (disk s)) (<[b := x]> (cache s)) (start s) (lh s) (outstanding s) (committing s) (ncommit s)
    (trace s ++ [(b, x)]).

(** ** The header block *)

(** [hb->n=n; for(i<n) hb->block[i]=block[i];] *)
Fixpoint put_words (i : nat) (ws : list Z) (x : list Z) : list Z :=
  match ws with [] => x | w :: ws' => put_words (S i) ws' (<[i := w]> x) end.
Definition encode (l : list Z) (x : block) : block := put_words 0 (Z.of_nat (length l) :: l) x.
Definition decode (x : block) : list Z :=
  match x with n :: ws => take (Z.to_nat n) ws | [] => [] end.

Definition read_head (s : logstate) : logstate :=
  let '(x, s1) := bread (start s) s in set_lh (decode x) s1.

Definition write_head (s : logstate) : logstate :=
  let '(x, s1) := bread (start s) s in bwrite (start s) (encode (lh s) x) s1.

(** ** Copies *)

(** The slot of the log that holds the [tail]-th block. *)
Definition slot (s : logstate) (tail : nat) : Z := start s + Z.of_nat tail + 1.

(** One turn of the loop of [write_log]: a buffer goes to its slot. *)
Definition log_block (tail : nat) (b : Z) (s : logstate) : logstate :=
  let '(_, s1) := bread (slot s tail) s in
  let '(from, s2) := bread b s1 in
  bwrite (slot s tail) from s2.

Fixpoint write_log_loop (tail : nat) (bs : list Z) (s : logstate) : logstate :=
  match bs with
  | [] => s
  | b :: bs' => write_log_loop (S tail) bs' (log_block tail b s)
  end.
Definition write_log (s : logstate) : logstate := write_log_loop 0 (lh s) s.

(** One turn of the loop of [install_trans]: a slot goes home. *)
Definition install_block (tail : nat) (b : Z) (s : logstate) : logstate :=
  let '(x, s1) := bread (slot s tail) s in
  let '(_, s2) := bread b s1 in
  bwrite b x s2.

Fixpoint install_loop (tail : nat) (bs : list Z) (s : logstate) : logstate :=
  match bs with
  | [] => s
  | b :: bs' => install_loop (S tail) bs' (install_block tail b s)
  end.
Definition install_trans (s : logstate) : logstate := install_loop 0 (lh s) s.

Definition recover_from_log (s : logstate) : logstate := write_head (set_lh [] (install_trans (read_head s))).

(** [commit] run without interruption; below it runs step by step
    ([commit_step]), and [commit_steps_commit] shows that the two agree. *)
Definition commit (s : logstate) : logstate :=
  match lh s with
  | [] => s
  | _ => write_head (set_lh [] (install_trans (write_head (write_log s))))
  end.

(** ** Operations *)
Definition boot (start : Z) (d : gmap Z block) : logstate := mkLog d ∅ start [] 0 false 0 [].

(** [initlog] after a crash or a shutdown: the disk is all that is left. *)
Definition initlog (start : Z) (d : gmap Z block) : logstate := recover_from_log (boot start d).

(** One turn of [begin_op]: [None] when it has to sleep. *)
Definition begin_op (s : logstate) : option logstate :=
  if committing s then None
  else if Z.of_nat LOGBLOCKS <? Z.of_nat (length (lh s)) + (outstanding s + 1) * MAXOPBLOCKS then None
  else Some (set_counts (outstanding s + 1) false (ncommit s) s).

(** [log_write] of a block whose buffer now holds [x]; [None] for a panic. *)
Definition log_write (b : Z) (x : block) (s : logstate) : option logstate :=
  if (LOGBLOCKS <=? length (lh s))%nat then None
  else if outstanding s <? 1 then None
  else
    let s1 := set_cache (<[b := x]> (cache s)) s in
    Some (if bool_decide (b ∈ lh s) then s1 else set_lh (lh s ++ [b]) s1).

(** *** The three parts of [end_op]

    [end_op] holds [log.lock] in its first and in its last part, and not
    while [commit] runs: other processes run between any two disk writes of a
    commit and see [log.committing]. *)

(** The first lock region: whether this process commits, and the new state;
    [None] for a panic. *)
Definition end_op_first (s : logstate) : option (bool * logstate) :=
  let s1 := set_counts (outstanding s - 1) (committing s) (ncommit s) s in
  if committing s then None
  else if outstanding s1 =? 0 then Some (true, set_counts (outstanding s1) true (ncommit s1) s1)
  else Some (false, s1).

(** Where the committing process is in [commit]: before the test of
    [log.lh.n], in the loop of [write_log], before the first [write_head], in
    the loop of [install_trans], before the header is cleared, at the end. *)
Inductive cpc := CTest | CLog (tail : nat) | CHead | CInstall (tail : nat) | CClear | CDone.
#[export] Instance cpc_eq_dec : EqDecision cpc.
Proof. solve_decision. Defined.

(** The next step of [commit], with at most one disk write.  The loops read
    [log.lh] again at each turn. *)
Definition commit_step (p : cpc) (s : logstate) : cpc * logstate :=
  match p with
  | CTest => (match lh s with [] => CDone | _ => CLog 0 end, s)
  | CLog tail =>
      match lh s !! tail with
      | Some b => (CLog (S tail), log_block tail b s)
      | None => (CHead, s)
      end
  | CHead => (CInstall 0, write_head s)
  | CInstall tail =>
      match lh s !! tail with
      | Some b => (CInstall (S tail), install_block tail b s)
      | None => (CClear, s)
      end
  | CClear => (CDone, write_head (set_lh [] s))
  | CDone => (CDone, s)
  end.

Fixpoint commit_steps (n : nat) (p : cpc) (s : logstate) : cpc * logstate :=
  match n with O => (p, s) | S n' => let '(p', s') := commit_step p s in commit_steps n' p' s' end.

(** The last lock region. *)
Definition end_op_last (s : logstate) : logstate := set_counts (outstanding s) false (ncommit s + 1) s.

(** ** Sequences of disk writes *)
Definition apply_writes (ws : list (Z * block)) (d : gmap Z block) : gmap Z block :=
  foldl (fun m w => <[w.1 := w.2]> m) d ws.

(** The last value written to a block. *)
Fixpoint lastw (b : Z) (ws : list (Z * block)) : option block :=
  match ws with
  | [] => None
  | (k, x) :: ws' => match lastw b ws' with Some y => Some y | None => if k =? b then Some x else None end
  end.

Lemma lastw_app b v w : lastw b (v ++ w) = match lastw b w with Some y => Some y | None => lastw b v end.
Proof.
  induction v as [|[k x] v IH]; simpl; [by destruct (lastw b w)|]. rewrite IH. by destruct (lastw b w).
Qed.

Lemma lastw_None b ws : b ∉ ws.*1 -> lastw b ws = None.
Proof.
  induction ws as [|[k x] ws IH]; [done|]. rewrite fmap_cons, not_elem_of_cons. intros [H1 H2]. simpl in *.
  rewrite IH by done. destruct (Z.eqb_spec k b); [congruence | done].
Qed.

Lemma get_apply ws : forall d b, get (apply_writes ws d) b = default (get d b) (lastw b ws).
Proof.
  induction ws as [|[k x] ws IH]; intros d b; [done|]. cbn [apply_writes foldl].
  change (foldl _ _ ws) with (apply_writes ws (<[k := x]> d)). rewrite IH. cbn [lastw fst snd].
  destruct (lastw b ws); [done|]. cbn [default]. unfold get. destruct (Z.eqb_spec k b) as [->|Hne].
  - by rewrite lookup_insert_eq.
  - by rewrite lookup_insert_ne.
Qed.

Lemma apply_app v w d : apply_writes (v ++ w) d = apply_writes w (apply_writes v d).
Proof. unfold apply_writes. by rewrite foldl_app. Qed.

Lemma default_id {A} (a : A) o p : default (default a p) o = default a (match o with Some y => Some y | None => p end).
Proof. by destruct o. Qed.

(** [s'] is [s] after the disk writes [ws]. *)
Record wrote (ws : list (Z * block)) (s s' : logstate) : Prop := mkWrote {
  w_disk : disk s' = apply_writes ws (disk s);
  w_trace : trace s' = trace s ++ ws;
  w_view : forall b, view s' b = default (view s b) (lastw b ws);
  w_start : start s' = start s;
  w_lh : lh s' = lh s;
  w_counts : (outstanding s', committing s', ncommit s') = (outstanding s, committing s, ncommit s)
}.

Lemma wrote_refl s : wrote [] s s.
Proof. split; try done. by rewrite app_nil_r. Qed.

Lemma wrote_trans v w s1 s2 s3 : wrote v s1 s2 -> wrote w s2 s3 -> wrote (v ++ w) s1 s3.
Proof.
  intros [D1 T1 V1 S1 L1 C1] [D2 T2 V2 S2 L2 C2]. split; try congruence.
  - by rewrite D2, D1, apply_app.
  - by rewrite T2, T1, app_assoc.
  - intros b. by rewrite V2, V1, lastw_app, default_id.
Qed.

Lemma wrote_bread b s : wrote [] s (bread b s).2.
Proof.
  split; try done; [by rewrite app_nil_r|]. intros y. unfold view, bread. simpl.
  destruct (decide (y = b)) as [->|Hne]; [|by rewrite lookup_insert_ne]. rewrite lookup_insert_eq. done.
Qed.

Lemma wrote_bwrite b x s : wrote [(b, x)] s (bwrite b x s).
Proof.
  split; try done. intros y. unfold view, bwrite. simpl. destruct (Z.eqb_spec b y) as [->|Hne].
  - by rewrite lookup_insert_eq.
  - rewrite lookup_insert_ne by done. simpl. unfold get. by rewrite lookup_insert_ne.
Qed.

Lemma view_bread b s y : view (bread b s).2 y = view s y.
Proof. by rewrite (w_view _ _ _ (wrote_bread b s)). Qed.

Lemma write_head_wrote s : wrote [(start s, encode (lh s) (view s (start s)))] s (write_head s).
Proof.
  unfold write_head. cbn [bread]. apply (wrote_trans [] [_] _ _ _ (wrote_bread (start s) s)), wrote_bwrite.
Qed.

Lemma log_block_wrote tail b s : wrote [(slot s tail, view s b)] s (log_block tail b s).
Proof.
  rewrite <- (view_bread (slot s tail) s b). unfold log_block. cbn [bread].
  apply (wrote_trans [] [_] _ _ _ (wrote_bread (slot s tail) s)).
  apply (wrote_trans [] [_] _ _ _ (wrote_bread b _)), wrote_bwrite.
Qed.

Lemma install_block_wrote tail b s : wrote [(b, view s (slot s tail))] s (install_block tail b s).
Proof.
  unfold install_block. cbn [bread]. apply (wrote_trans [] [_] _ _ _ (wrote_bread (slot s tail) s)).
  apply (wrote_trans [] [_] _ _ _ (wrote_bread b _)), wrote_bwrite.
Qed.

(** ** Log area and home blocks *)
Definition home (st b : Z) : Prop := b < st \/ st + Z.of_nat LOGBLOCKS < b.

Fixpoint slot_writes (st : Z) (tail : nat) (bs : list Z) (f : Z -> block) : list (Z * block) :=
  match bs with [] => [] | b :: bs' => (st + Z.of_nat tail + 1, f b) :: slot_writes st (S tail) bs' f end.
Fixpoint home_writes (st : Z) (tail : nat) (bs : list Z) (f : Z -> block) : list (Z * block) :=
  match bs with [] => [] | b :: bs' => (b, f (st + Z.of_nat tail + 1)) :: home_writes st (S tail) bs' f end.

Lemma slot_writes_ext st f g : forall bs tail, (forall b, b ∈ bs -> f b = g b) -> slot_writes st tail bs f = slot_writes st tail bs g.
Proof.
  induction bs as [|b bs IH]; intros tail H; [done|]. simpl. rewrite (H b), (IH (S tail)); [done| |]; set_solver.
Qed.

Lemma slot_writes_keys st f b : forall bs tail, b ∈ (slot_writes st tail bs f).*1 ->
  st + Z.of_nat tail < b <= st + Z.of_nat (tail + length bs).
Proof.
  induction bs as [|x bs IH]; intros tail H; [by apply not_elem_of_nil in H|]. simpl in H.
  apply elem_of_cons in H as [->|H]; [simpl; lia|]. apply IH in H. simpl. lia.
Qed.

Lemma length_slot_writes st f : forall bs tail, length (slot_writes st tail bs f) = length bs.
Proof. induction bs as [|b bs IH]; intros tail; [done|]. simpl. by rewrite IH. Qed.

Lemma slot_writes_lookup st f : forall bs tail i b, bs !! i = Some b ->
  lastw (st + Z.of_nat (tail + i) + 1) (slot_writes st tail bs f) = Some (f b).
Proof.
  induction bs as [|x bs IH]; intros tail i b Hi; [done|]. cbn [slot_writes lastw]. destruct i as [|i].
  - simpl in Hi. injection Hi as ->. rewrite Nat.add_0_r, lastw_None, Z.eqb_refl; [done|].
    intros Hin%slot_writes_keys. lia.
  - simpl in Hi. specialize (IH (S tail) i b Hi). replace (tail + S i)%nat with (S tail + i)%nat by lia. by rewrite IH.
Qed.

Lemma home_writes_keys st f : forall bs tail, (home_writes st tail bs f).*1 = bs.
Proof. induction bs as [|b bs IH]; intros tail; [done|]. simpl. by rewrite IH. Qed.

(** Installing what the slots hold: the blocks of [bs] get [g]. *)
Definition copies (bs : list Z) (g : Z -> block) : list (Z * block) := (fun b => (b, g b)) <$> bs.

Lemma home_writes_copies st f g : forall bs tail,
  (forall i b, bs !! i = Some b -> f (st + Z.of_nat (tail + i) + 1) = g b) ->
  home_writes st tail bs f = copies bs g.
Proof.
  induction bs as [|b bs IH]; intros tail H; [done|]. simpl. f_equal.
  - f_equal. rewrite <- (H 0%nat b eq_refl). by rewrite Nat.add_0_r.
  - apply IH. intros i x Hx. rewrite <- (H (S i) x Hx). f_equal. lia.
Qed.

Lemma copies_keys bs g : (copies bs g).*1 = bs.
Proof. induction bs as [|b bs IH]; [done|]. simpl. f_equal. exact IH. Qed.

Lemma lastw_copies b bs g : lastw b (copies bs g) = if bool_decide (b ∈ bs) then Some (g b) else None.
Proof.
  induction bs as [|x bs IH]; [done|]. simpl. change ((fun b => (b, g b)) <$> bs) with (copies bs g). rewrite IH.
  destruct (Z.eqb_spec x b) as [->|Hne].
  - rewrite (bool_decide_eq_true_2 (b ∈ b :: bs)) by set_solver. by case_bool_decide.
  - case_bool_decide; [rewrite bool_decide_eq_true_2 by set_solver | rewrite bool_decide_eq_false_2 by set_solver]; done.
Qed.

Lemma home_writes_ext st f g : forall bs tail,
  (forall y, st < y <= st + Z.of_nat (tail + length bs) -> f y = g y) -> home_writes st tail bs f = home_writes st tail bs g.
Proof.
  induction bs as [|b bs IH]; intros tail H; [done|]. cbn [home_writes length] in *.
  rewrite (H (st + Z.of_nat tail + 1)) by lia. rewrite (IH (S tail)); [done|]. intros y Hy. apply H. lia.
Qed.

Lemma install_loop_wrote : forall bs tail s,
  Forall (home (start s)) bs -> (tail + length bs <= LOGBLOCKS)%nat ->
  wrote (home_writes (start s) tail bs (view s)) s (install_loop tail bs s).
Proof.
  induction bs as [|b bs IH]; intros tail s Hh Hl; [apply wrote_refl|]. cbn [home_writes].
  apply Forall_cons in Hh as [Hb Hh]. cbn [length] in Hl.
  pose proof (install_block_wrote tail b s) as W. cbn [install_loop]. set (s3 := install_block tail b s) in *.
  pose proof (IH (S tail) s3) as IH'. rewrite (w_start _ _ _ W) in IH'. specialize (IH' Hh ltac:(lia)).
  rewrite (home_writes_ext _ (view s3) (view s)) in IH'.
  - exact (wrote_trans _ _ _ _ _ W IH').
  - intros y Hy. rewrite (w_view _ _ _ W). simpl. unfold home in Hb. destruct (Z.eqb_spec b y); [lia | done].
Qed.

(** ** The header is read back *)
Lemma put_words_app : forall ws i (x : list Z), (i + length ws <= length x)%nat ->
  put_words i ws x = take i x ++ ws ++ drop (i + length ws) x.
Proof.
  induction ws as [|w ws IH]; intros i x Hl; cbn [put_words length] in *.
  - rewrite Nat.add_0_r. simpl. by rewrite take_drop.
  - rewrite IH by len. rewrite take_insert_next by lia. rewrite drop_insert_lt by lia.
    rewrite <- app_assoc. simpl. do 4 f_equal. lia.
Qed.

Lemma decode_encode l x : length x = BWORDS -> (length l <= LOGBLOCKS)%nat -> decode (encode l x) = l.
Proof.
  unfold BWORDS, LOGBLOCKS. intros Hx Hl. unfold encode. rewrite put_words_app by (simpl; lia). simpl.
  rewrite Nat2Z.id. by rewrite take_app_length.
Qed.

Lemma length_encode l x : length x = BWORDS -> (length l <= LOGBLOCKS)%nat -> length (encode l x) = BWORDS.
Proof.
  unfold BWORDS, LOGBLOCKS. intros Hx Hl. unfold encode. rewrite put_words_app by (simpl; lia). simpl.
  rewrite length_app, length_drop. lia.
Qed.

(** ** Recovery *)

(** The blocks a disk's header announces. *)
Definition announced (st : Z) (d : gmap Z block) : list Z := decode (get d st).

(** A disk that recovery can work with. *)
Definition header_ok (st : Z) (d : gmap Z block) : Prop :=
  length (get d st) = BWORDS /\ Forall (home st) (announced st d) /\ (length (announced st d) <= LOGBLOCKS)%nat.

Definition recovery_writes (st : Z) (d : gmap Z block) : list (Z * block) :=
  home_writes st 0 (announced st d) (get d) ++ [(st, encode [] (get d st))].

Lemma home_not_start st bs : Forall (home st) bs -> st ∉ bs.
Proof. intros H Hin. rewrite Forall_forall in H. specialize (H st Hin). unfold home in H. lia. Qed.

Lemma view_boot st d b : view (boot st d) b = get d b.
Proof. done. Qed.

Lemma recover_wrote st d : header_ok st d ->
  disk (initlog st d) = apply_writes (recovery_writes st d) d /\ trace (initlog st d) = recovery_writes st d.
Proof.
  intros (Hx & Hh & Hl). unfold initlog, recover_from_log.
  set (s1 := read_head (boot st d)).
  assert (V1 : forall b, view s1 b = get d b).
  { intros b. change (view (bread st (boot st d)).2 b = get d b). by rewrite view_bread. }
  pose proof (install_loop_wrote (announced st d) 0 s1 Hh Hl) as W.
  change (install_loop 0 (announced st d) s1) with (install_trans s1) in W.
  rewrite (home_writes_ext _ (view s1) (get d)) in W by (intros; apply V1). change (start s1) with st in W.
  set (s2 := set_lh [] (install_trans s1)).
  pose proof (write_head_wrote s2) as W2. change (lh s2) with (@nil Z) in W2.
  assert (Es : start s2 = st) by exact (w_start _ _ _ W). rewrite Es in W2.
  assert (Ev : view s2 st = get d st).
  { change (view s2 st) with (view (install_trans s1) st). rewrite (w_view _ _ _ W), lastw_None; [apply V1|].
    rewrite home_writes_keys. by apply home_not_start. }
  rewrite Ev in W2. split.
  - rewrite (w_disk _ _ _ W2). change (disk s2) with (disk (install_trans s1)). rewrite (w_disk _ _ _ W).
    change (disk s1) with d. unfold recovery_writes. by rewrite apply_app.
  - rewrite (w_trace _ _ _ W2). change (trace s2) with (trace (install_trans s1)). by rewrite (w_trace _ _ _ W).
Qed.

(** What recovery leaves in the home blocks. *)
Lemma recover_home st d b : header_ok st d -> home st b ->
  get (disk (initlog st d)) b = default (get d b) (lastw b (home_writes st 0 (announced st d) (get d))).
Proof.
  intros Hok Hb. destruct (recover_wrote st d Hok) as [-> _]. rewrite get_apply. unfold recovery_writes.
  rewrite lastw_app. simpl. unfold home in Hb. destruct (Z.eqb_spec st b); [lia | done].
Qed.

(** A prefix of a concatenation. *)
Lemma prefix_cases {A} (p a b : list A) :
  p `prefix_of` a ++ b -> p `prefix_of` a \/ exists x q, p = a ++ x :: q /\ (x :: q) `prefix_of` b.
Proof.
  intros [k E]. apply app_eq_app in E as [l [[-> ->]|[-> ->]]].
  - left. by exists l.
  - destruct l as [|x q]; [left; by rewrite app_nil_r|]. right. exists x, q. split; [done|]. by exists k.
Qed.

Lemma prefix_keys {A B} (p a : list (A * B)) x : p `prefix_of` a -> x ∈ p.*1 -> x ∈ a.*1.
Proof. intros [k ->] H. rewrite fmap_app. set_solver. Qed.

(** ** A commit *)

(** Between two commits: the header announces nothing, the blocks that are
    logged are home blocks that fit in the log, and all the other blocks are
    on the disk as the cache shows them. *)
Record log_ok (s : logstate) : Prop := mkLogOk {
  ok_clean : announced (start s) (disk s) = [];
  ok_header : length (view s (start s)) = BWORDS;
  ok_home : Forall (home (start s)) (lh s);
  ok_fits : (length (lh s) <= LOGBLOCKS)%nat;
  ok_cache : forall b, b ∉ lh s -> view s b = get (disk s) b
}.

Definition commit_writes (s : logstate) : list (Z * block) :=
  let st := start s in
  let h := encode (lh s) (view s st) in
  slot_writes st 0 (lh s) (view s) ++ ([(st, h)] ++ copies (lh s) (view s)) ++ [(st, encode [] h)].

(** What a slot of the log holds after the first phase. *)
Lemma slots_filled s i b d :
  log_ok s -> lh s !! i = Some b ->
  get (apply_writes (slot_writes (start s) 0 (lh s) (view s)) d) (start s + Z.of_nat i + 1) = view s b.
Proof.
  intros Hok Hi. rewrite get_apply.
  pose proof (slot_writes_lookup (start s) (view s) (lh s) 0 i b Hi) as E. simpl in E. by rewrite E.
Qed.

Lemma slot_not_start st f bs : st ∉ (slot_writes st 0 bs f).*1.
Proof. intros H%slot_writes_keys. lia. Qed.

Lemma slot_not_home st f bs b : (length bs <= LOGBLOCKS)%nat -> home st b -> b ∉ (slot_writes st 0 bs f).*1.
Proof. unfold home. intros Hl Hb H%slot_writes_keys. lia. Qed.

Lemma header_view s : log_ok s -> view s (start s) = get (disk s) (start s).
Proof. intros Hok. apply (ok_cache _ Hok), home_not_start, ok_home, Hok. Qed.

(** A disk whose header announces nothing is left alone. *)
Lemma recover_clean st d : length (get d st) = BWORDS -> announced st d = [] ->
  header_ok st d /\ forall b, home st b -> get (disk (initlog st d)) b = get d b.
Proof.
  intros Hx Ha. assert (Hok : header_ok st d) by (split_and!; [done | rewrite Ha; constructor | rewrite Ha; simpl; lia]).
  split; [done|]. intros b Hb. rewrite (recover_home st d b Hok Hb), Ha. done.
Qed.

(** A disk whose header announces the blocks [bs] and whose slots hold [g]. *)
Lemma recover_committed st d bs g : length (get d st) = BWORDS -> announced st d = bs ->
  Forall (home st) bs -> (length bs <= LOGBLOCKS)%nat ->
  (forall i b, bs !! i = Some b -> get d (st + Z.of_nat i + 1) = g b) ->
  header_ok st d /\
  forall b, home st b -> get (disk (initlog st d)) b = if bool_decide (b ∈ bs) then g b else get d b.
Proof.
  intros Hx Ha Hh Hl Hs. assert (Hok : header_ok st d) by (split_and!; [done | by rewrite Ha | by rewrite Ha]).
  split; [done|]. intros b Hb. rewrite (recover_home st d b Hok Hb), Ha, (home_writes_copies _ _ g), lastw_copies.
  - by case_bool_decide.
  - intros i x Hx'. by apply Hs.
Qed.

(** The disk after a prefix of the writes of a commit. *)
Lemma commit_prefix s ws :
  log_ok s -> ws `prefix_of` commit_writes s ->
  let d := apply_writes ws (disk s) in
  header_ok (start s) d /\
  forall b, home (start s) b ->
    get (disk (initlog (start s) d)) b = if (length ws <=? length (lh s))%nat then get (disk s) b else view s b.
Proof.
  intros Hok Hp d. set (st := start s) in *.
  set (h := encode (lh s) (view s st)).
  assert (Hlen : length h = BWORDS) by (apply length_encode; [apply Hok | apply Hok]).
  assert (Hlog : forall b, b = st \/ home st b -> b ∉ (slot_writes st 0 (lh s) (view s)).*1).
  { intros b [->|Hb]; [apply slot_not_start | by apply slot_not_home; [apply Hok|]]. }
  assert (Hnew : forall b, home st b -> default (get (disk s) b) (lastw b (copies (lh s) (view s))) = view s b).
  { intros b Hb. rewrite lastw_copies. case_bool_decide as Hin; [done|]. simpl. symmetry. by apply Hok. }
  assert (Hclean : forall d', (forall b, b = st \/ home st b -> get d' b = get (disk s) b) ->
    header_ok st d' /\ forall b, home st b -> get (disk (initlog st d')) b = get (disk s) b).
  { intros d' Hsame. destruct (recover_clean st d') as [Hh Hr].
    - rewrite Hsame by auto. unfold st. rewrite <- header_view by done. apply Hok.
    - unfold announced. rewrite Hsame by auto. apply Hok.
    - split; [done|]. intros b Hb. rewrite Hr by done. auto. }
  apply prefix_cases in Hp as [Hp|(x & q & -> & Hq)].
  - (* the log is being written *)
    pose proof (prefix_length _ _ Hp) as Hle. rewrite length_slot_writes in Hle. rewrite leb_correct by done.
    destruct (Hclean d) as [Hh Hr]; [|auto]. intros b Hb. unfold d. rewrite get_apply, lastw_None; [done|].
    intros Hin. apply (Hlog b Hb). by eapply prefix_keys.
  - rewrite leb_correct_conv by (rewrite length_app, length_slot_writes; simpl; lia).
    apply prefix_cases in Hq as [[k E]|(y & q2 & Eq & Hq2)].
    + (* committed, being installed *)
      simpl in E. injection E as <- E. fold st h in d.
      assert (Hq : q `prefix_of` copies (lh s) (view s)) by (by exists k).
      assert (Hd : forall b, get d b = default (get (disk s) b)
        (match lastw b q with Some y => Some y | None =>
           if st =? b then Some h else lastw b (slot_writes st 0 (lh s) (view s)) end)).
      { intros b. unfold d. rewrite get_apply, lastw_app. simpl. destruct (lastw b q); [done|]. by destruct (st =? b). }
      assert (Hq1 : forall b, b ∉ lh s -> lastw b q = None).
      { intros b Hb. apply lastw_None. intros Hin. apply Hb. rewrite <- (copies_keys (lh s) (view s)). by eapply prefix_keys. }
      assert (Hst : get d st = h).
      { rewrite Hd, Hq1, Z.eqb_refl by (apply home_not_start, Hok). done. }
      destruct (recover_committed st d (lh s) (view s)) as [Hh Hr].
      * by rewrite Hst.
      * unfold announced. rewrite Hst. apply decode_encode; apply Hok.
      * apply Hok.
      * apply Hok.
      * intros i b Hi. rewrite Hd, Hq1.
        -- destruct (Z.eqb_spec st (st + Z.of_nat i + 1)); [lia|].
           pose proof (slot_writes_lookup st (view s) (lh s) 0 i b Hi) as E0. simpl in E0. by rewrite E0.
        -- intros Hin. pose proof (ok_home _ Hok) as Hh. rewrite Forall_forall in Hh. specialize (Hh _ Hin).
           apply lookup_lt_Some in Hi. pose proof (ok_fits _ Hok). unfold home in Hh. fold st in Hh. lia.
      * split; [done|]. intros b Hb. rewrite Hr by done. case_bool_decide as Hin; [done|].
        rewrite Hd, Hq1 by done. destruct (Z.eqb_spec st b); [unfold home in Hb; lia|].
        rewrite lastw_None by auto. simpl. symmetry. by apply Hok.
    + (* installed and cleared *)
      destruct Hq2 as [k E]. simpl in E. injection E as <- E. destruct q2; [|done].
      assert (Ed : d = apply_writes (slot_writes st 0 (lh s) (view s) ++
        (((st, h) :: copies (lh s) (view s)) ++ [(st, encode [] h)])) (disk s)) by (unfold d; by rewrite Eq).
      clearbody d. subst d. set (d := apply_writes _ _).
      assert (Hst : get d st = encode [] h) by (unfold d; rewrite get_apply, !lastw_app; simpl; by rewrite Z.eqb_refl).
      destruct (recover_clean st d) as [Hh Hr].
      * rewrite Hst. apply length_encode; [done | simpl; lia].
      * unfold announced. rewrite Hst. apply decode_encode; [done | simpl; lia].
      * split; [done|]. intros b Hb. rewrite Hr by done. rewrite <- Hnew by done. unfold d.
        rewrite get_apply, !lastw_app. simpl. fold st h.
        destruct (Z.eqb_spec st b); [unfold home in Hb; lia|]. destruct (lastw b (copies _ _)); [done|].
        rewrite lastw_None by auto. done.
Qed.

(** ** Crashes during recovery *)
Lemma recover_idempotent st d ws :
  header_ok st d -> ws `prefix_of` recovery_writes st d ->
  let d' := apply_writes ws d in
  header_ok st d' /\ forall b, home st b -> get (disk (initlog st d')) b = get (disk (initlog st d)) b.
Proof.
  intros Hok Hp d'. destruct Hok as (Hx & Hh & Hl). pose proof (conj Hx (conj Hh Hl) : header_ok st d) as Hok.
  set (H := home_writes st 0 (announced st d) (get d)) in *.
  assert (HK : H.*1 = announced st d) by apply home_writes_keys.
  apply prefix_cases in Hp as [Hp|(x & q & -> & [k E])].
  - assert (Hlast : forall b, b ∉ announced st d -> get d' b = get d b).
    { intros b Hb. unfold d'. rewrite get_apply, lastw_None; [done|]. intros Hin. apply Hb. rewrite <- HK. by eapply prefix_keys. }
    assert (Hst : get d' st = get d st) by (by apply Hlast, home_not_start).
    assert (Ha : announced st d' = announced st d) by (unfold announced; by rewrite Hst).
    assert (Hok' : header_ok st d') by (split_and!; [by rewrite Hst | by rewrite Ha | by rewrite Ha]).
    split; [done|]. intros b Hb. rewrite !recover_home, Ha by done.
    rewrite (home_writes_ext st (get d') (get d)).
    + fold H. destruct (lastw b H) eqn:El; [done|]. simpl. unfold d'. rewrite get_apply. destruct Hp as [k Ek].
      change (H = ws ++ k) in Ek. rewrite Ek, lastw_app in El. destruct (lastw b k); [done|]. by rewrite El.
    + intros y Hy. apply Hlast. intros Hin. rewrite Forall_forall in Hh. specialize (Hh y Hin). unfold home in Hh. lia.
  - simpl in E. injection E as <- E. destruct q; [|done].
    assert (Hst : get d' st = encode [] (get d st)) by (unfold d'; rewrite get_apply, lastw_app; simpl; by rewrite Z.eqb_refl).
    destruct (recover_clean st d') as [Hok' Hr].
    + rewrite Hst. apply length_encode; [done | simpl; lia].
    + unfold announced. rewrite Hst. apply decode_encode; [done | simpl; lia].
    + split; [done|]. intros b Hb. rewrite Hr by done. rewrite (recover_home st d b Hok Hb). fold H. unfold d'.
      rewrite get_apply, lastw_app. simpl. destruct (Z.eqb_spec st b); [unfold home in Hb; lia | done].
Qed.

(** ** The state between operations *)
Lemma initlog_ok st d : header_ok st d ->
  log_ok (initlog st d) /\ start (initlog st d) = st /\ lh (initlog st d) = [] /\ outstanding (initlog st d) = 0 /\
  committing (initlog st d) = false.
Proof.
  intros Hok. pose proof Hok as (Hx & Hh & Hl).
  assert (W : forall ws s s' d0, wrote ws s s' -> (forall b, view s b = get d0 b) -> disk s = d0 ->
    forall b, view s' b = get (disk s') b).
  { intros ws s s' d0 Hw Hv Hd b. rewrite (w_view _ _ _ Hw), (w_disk _ _ _ Hw), get_apply, Hv, Hd. done. }
  set (s1 := read_head (boot st d)).
  assert (V1 : forall b, view s1 b = get d b).
  { intros b. change (view (bread st (boot st d)).2 b = get d b). by rewrite view_bread. }
  pose proof (install_loop_wrote (announced st d) 0 s1 Hh Hl) as Wi.
  change (install_loop 0 (announced st d) s1) with (install_trans s1) in Wi.
  set (s2 := set_lh [] (install_trans s1)). pose proof (write_head_wrote s2) as W2.
  assert (V2 : forall b, view s2 b = get (disk s2) b) by exact (W _ _ _ d Wi V1 eq_refl).
  assert (Es : start s2 = st) by exact (w_start _ _ _ Wi).
  change (initlog st d) with (write_head s2).
  assert (Hst : start (write_head s2) = st) by (rewrite (w_start _ _ _ W2); exact Es).
  pose proof (recover_wrote st d Hok) as [Hd _]. change (initlog st d) with (write_head s2) in Hd.
  assert (Hhead : get (disk (write_head s2)) st = encode [] (get d st)).
  { rewrite Hd, get_apply. unfold recovery_writes. rewrite lastw_app. simpl. by rewrite Z.eqb_refl. }
  assert (Vf : forall b, view (write_head s2) b = get (disk (write_head s2)) b) by exact (W _ _ _ _ W2 V2 eq_refl).
  assert (Hlh : lh (write_head s2) = []) by exact (w_lh _ _ _ W2).
  pose proof (w_counts _ _ _ Wi) as Hc2.
  split_and!; try done.
  - split; rewrite ?Hst, ?Hlh; [| |constructor|simpl; lia|auto].
    + unfold announced. rewrite Hhead. apply decode_encode; [done | simpl; lia].
    + rewrite Vf, Hhead. apply length_encode; [done | simpl; lia].
  - exact (f_equal (fun t => t.1.1) Hc2).
  - exact (f_equal (fun t => t.1.2) Hc2).
Qed.

(** A state in which all the writes of a commit of [s] have been done. *)
Lemma committed_ok s s' : log_ok s ->
  disk s' = apply_writes (commit_writes s) (disk s) ->
  (forall b, view s' b = default (view s b) (lastw b (commit_writes s))) -> start s' = start s -> lh s' = [] ->
  log_ok s' /\ (forall b, home (start s) b -> get (disk s') b = view s b) /\
  (forall b, home (start s) b -> view s' b = view s b).
Proof.
  intros Hok Hd Hv Hst Hlh.
  set (st := start s) in *. set (h := encode (lh s) (view s st)).
  assert (Hlen : length h = BWORDS) by (apply length_encode; [apply Hok | apply Hok]).
  assert (Hw : forall b, lastw b (commit_writes s) =
    if st =? b then Some (encode [] h) else
    if bool_decide (b ∈ lh s) then Some (view s b) else lastw b (slot_writes st 0 (lh s) (view s))).
  { intros b. unfold commit_writes. rewrite !lastw_app, lastw_copies. simpl. fold st h.
    destruct (st =? b); [done|]. by case_bool_decide. }
  assert (Hnew : forall b, b = st \/ home st b -> view s' b = get (disk s') b).
  { intros b Hb. rewrite Hv, Hd, get_apply, Hw. destruct (st =? b) eqn:E; [done|]. case_bool_decide as Hin; [done|].
    rewrite lastw_None; [by apply Hok|]. destruct Hb as [->|Hb]; [by rewrite Z.eqb_refl in E | by apply slot_not_home; [apply Hok|]]. }
  assert (Hview : forall b, home st b -> view s' b = view s b).
  { intros b Hb. rewrite Hv, Hw. destruct (Z.eqb_spec st b); [unfold home in Hb; lia|]. case_bool_decide; [done|].
    rewrite lastw_None; [done|]. by apply slot_not_home; [apply Hok|]. }
  assert (Hall : forall b, view s' b = get (disk s') b).
  { intros b. rewrite Hv, Hd, get_apply. destruct (lastw b (commit_writes s)) eqn:E; [done|]. simpl.
    apply Hok. intros Hin. rewrite Hw in E. destruct (st =? b); [done|]. by rewrite bool_decide_eq_true_2 in E. }
  split_and!; try done.
  - split; rewrite ?Hst, ?Hlh; [| |constructor|simpl; lia|auto].
    + unfold announced. rewrite <- Hall, Hv, Hw, Z.eqb_refl. apply decode_encode; [done | simpl; lia].
    + rewrite Hv, Hw, Z.eqb_refl. apply length_encode; [done | simpl; lia].
  - intros b Hb. rewrite <- Hall. by apply Hview.
Qed.


(** ** A commit step by step *)

Lemma lookup_middle (pre bs : list Z) b : (pre ++ b :: bs) !! length pre = Some b.
Proof. by rewrite lookup_app_r, Nat.sub_diag by lia. Qed.

Lemma steps_log : forall bs pre n s, lh s = pre ++ bs ->
  commit_steps (length bs + n) (CLog (length pre)) s =
  commit_steps n (CLog (length (pre ++ bs))) (write_log_loop (length pre) bs s).
Proof.
  induction bs as [|b bs IH]; intros pre n s E; [by rewrite app_nil_r|].
  cbn [length Nat.add commit_steps commit_step write_log_loop]. rewrite E, lookup_middle.
  specialize (IH (pre ++ [b]) n (log_block (length pre) b s)).
  rewrite (w_lh _ _ _ (log_block_wrote _ _ _)), <- app_assoc, length_app, Nat.add_1_r in IH. exact (IH E).
Qed.

Lemma steps_install : forall bs pre n s, lh s = pre ++ bs ->
  commit_steps (length bs + n) (CInstall (length pre)) s =
  commit_steps n (CInstall (length (pre ++ bs))) (install_loop (length pre) bs s).
Proof.
  induction bs as [|b bs IH]; intros pre n s E; [by rewrite app_nil_r|].
  cbn [length Nat.add commit_steps commit_step install_loop]. rewrite E, lookup_middle.
  specialize (IH (pre ++ [b]) n (install_block (length pre) b s)).
  rewrite (w_lh _ _ _ (install_block_wrote _ _ _)), <- app_assoc, length_app, Nat.add_1_r in IH. exact (IH E).
Qed.

Lemma write_log_lh : forall bs tail s, lh (write_log_loop tail bs s) = lh s.
Proof. induction bs as [|b bs IH]; intros tail s; [done|]. cbn [write_log_loop]. by rewrite IH, (w_lh _ _ _ (log_block_wrote _ _ _)). Qed.
Lemma install_lh : forall bs tail s, lh (install_loop tail bs s) = lh s.
Proof. induction bs as [|b bs IH]; intros tail s; [done|]. cbn [install_loop]. by rewrite IH, (w_lh _ _ _ (install_block_wrote _ _ _)). Qed.

(** Run without interruption, the steps are the function [commit]. *)
Lemma commit_steps_commit s : commit_steps (2 * length (lh s) + 5) CTest s = (CDone, commit s).
Proof.
  unfold commit. destruct (lh s) as [|b0 bs0] eqn:E; [cbn; by rewrite E|]. rewrite <- E.
  replace (2 * length (lh s) + 5)%nat with (S (length (lh s) + S (S (length (lh s) + 2)))) by lia.
  cbn [commit_steps commit_step]. rewrite E. rewrite <- E.
  rewrite (steps_log (lh s) [] _ s eq_refl). cbn [length app commit_steps commit_step].
  fold (write_log s). assert (El : lh (write_log s) = lh s) by apply write_log_lh.
  rewrite El, lookup_ge_None_2 by lia. cbn [commit_steps commit_step].
  assert (Eh : lh (write_head (write_log s)) = lh s) by (by rewrite (w_lh _ _ _ (write_head_wrote _))).
  rewrite (steps_install (lh s) [] _ _ Eh). cbn [length app]. unfold install_trans. rewrite Eh.
  cbn [Nat.add commit_steps commit_step]. by rewrite install_lh, Eh, lookup_ge_None_2 by lia.
Qed.

(** The writes a commit of [s] has done when it has come to [p]. *)
Definition done_writes (s : logstate) (p : cpc) : list (Z * block) :=
  let st := start s in
  let h := encode (lh s) (view s st) in
  let slots := slot_writes st 0 (lh s) (view s) in
  match p with
  | CTest => []
  | CLog t => take t slots
  | CHead => slots
  | CInstall t => slots ++ [(st, h)] ++ take t (copies (lh s) (view s))
  | CClear => slots ++ [(st, h)] ++ copies (lh s) (view s)
  | CDone => match lh s with [] => [] | _ => commit_writes s end
  end.

(** Whether the header that announces the transaction is on the disk. *)
Definition committed (p : cpc) : bool :=
  match p with CTest | CLog _ | CHead => false | CInstall _ | CClear | CDone => true end.

(** [s] is a commit of [s0] that has come to [p]. *)
Record mid (s0 : logstate) (p : cpc) (s : logstate) : Prop := mkMid {
  mid_wrote : wrote (done_writes s0 p) s0 (set_lh (lh s0) s);
  mid_lh : lh s = match p with CDone => [] | _ => lh s0 end;
  mid_phase : match p with CTest | CDone => True | CLog t | CInstall t => lh s0 <> [] /\ (t <= length (lh s0))%nat | _ => lh s0 <> [] end
}.

Lemma wrote_set_lh l ws s s' : wrote ws s s' -> wrote ws (set_lh l s) (set_lh l s').
Proof. intros [D T V S L C]. by split. Qed.

(** The next write, after those already done. *)
Lemma wrote_next ws w s0 s s' : lh s = lh s0 -> wrote ws s0 (set_lh (lh s0) s) -> wrote [w] s s' ->
  wrote (ws ++ [w]) s0 (set_lh (lh s0) s') /\ lh s' = lh s0.
Proof.
  intros E W W'. assert (Es : set_lh (lh s0) s = s) by (rewrite <- E; by destruct s). rewrite Es in W.
  pose proof (w_lh _ _ _ W') as El. assert (Es' : set_lh (lh s0) s' = s') by (rewrite <- E, <- El; by destruct s').
  rewrite Es'. split; [by apply (wrote_trans _ _ _ s) | congruence].
Qed.

Lemma slot_writes_at st f : forall bs tail i b, bs !! i = Some b ->
  slot_writes st tail bs f !! i = Some (st + Z.of_nat (tail + i) + 1, f b).
Proof.
  induction bs as [|x bs IH]; intros tail i b Hi; [done|]. destruct i as [|i]; simpl in *.
  - injection Hi as ->. by rewrite Nat.add_0_r.
  - rewrite (IH (S tail) i b Hi). do 2 f_equal. lia.
Qed.

Lemma copies_at bs g i b : bs !! i = Some b -> copies bs g !! i = Some (b, g b).
Proof. intros H. unfold copies. by rewrite list_lookup_fmap, H. Qed.

(** A view while the log is being written: the home blocks are as before. *)
Lemma view_slots s0 s ws b : log_ok s0 -> wrote ws s0 (set_lh (lh s0) s) ->
  ws `prefix_of` slot_writes (start s0) 0 (lh s0) (view s0) -> b = start s0 \/ home (start s0) b -> view s b = view s0 b.
Proof.
  intros Hok W Hp Hb. change (view s b) with (view (set_lh (lh s0) s) b). rewrite (w_view _ _ _ W), lastw_None; [done|].
  intros Hin. apply (prefix_keys _ _ _ Hp) in Hin. destruct Hb as [->|Hb].
  - by apply slot_not_start in Hin.
  - revert Hin. by apply slot_not_home; [apply Hok|].
Qed.

Lemma view_header s0 s ws b : log_ok s0 ->
  wrote (slot_writes (start s0) 0 (lh s0) (view s0) ++ [(start s0, encode (lh s0) (view s0 (start s0)))] ++ ws) s0 (set_lh (lh s0) s) ->
  ws `prefix_of` copies (lh s0) (view s0) ->
  view s (start s0) = encode (lh s0) (view s0 (start s0)) /\
  (forall i, lh s0 !! i = Some b -> view s (start s0 + Z.of_nat i + 1) = view s0 b).
Proof.
  intros Hok W Hp.
  assert (Hk : forall y, y ∉ lh s0 -> lastw y ws = None).
  { intros y Hy. apply lastw_None. intros Hin. apply Hy. rewrite <- (copies_keys (lh s0) (view s0)). by eapply prefix_keys. }
  assert (Hv : forall y, view s y = view (set_lh (lh s0) s) y) by done.
  pose proof (ok_home _ Hok) as Hh. split.
  - rewrite Hv, (w_view _ _ _ W), !lastw_app, (Hk _ (home_not_start _ _ Hh)). cbn [lastw]. by rewrite Z.eqb_refl.
  - intros i Hi. rewrite Hv, (w_view _ _ _ W), !lastw_app, Hk.
    + cbn [lastw]. destruct (Z.eqb_spec (start s0) (start s0 + Z.of_nat i + 1)); [lia|].
      pose proof (slot_writes_lookup (start s0) (view s0) (lh s0) 0 i b Hi) as E. simpl in E. by rewrite E.
    + intros Hin. rewrite Forall_forall in Hh. specialize (Hh _ Hin). apply lookup_lt_Some in Hi.
      pose proof (ok_fits _ Hok). unfold home in Hh. lia.
Qed.

(** A step of the commit does the next of its writes. *)
Lemma mid_step s0 p s p' s' : log_ok s0 -> mid s0 p s -> p <> CDone -> commit_step p s = (p', s') -> mid s0 p' s'.
Proof.
  intros Hok [W El Hph] Hne. pose proof (w_start _ _ _ W) as Es. change (start (set_lh _ s)) with (start s) in Es.
  destruct p as [|t| |t| |]; [| | | | |done]; cbn [commit_step]; cbn [done_writes] in W; rewrite ?El.
  - destruct (decide (lh s0 = [])) as [E0|E0].
    + rewrite E0. intros [= <- <-]. split; [cbn [done_writes]; rewrite E0 in W |- *; exact W | by rewrite El | done].
    + assert (Em : match lh s0 with [] => CDone | _ => CLog 0 end = CLog 0) by (by destruct (lh s0)). rewrite Em.
      intros [= <- <-]. split; [exact W | done | split; [done | lia]].
  - destruct Hph as [Hn Ht]. destruct (lh s0 !! t) as [b|] eqn:Eb; intros [= <- <-].
    + pose proof (log_block_wrote t b s) as W'. unfold slot in W'. rewrite Es in W'.
      rewrite (view_slots s0 s _ b Hok W (prefix_take _ _)) in W' by (right; by apply (Forall_lookup_1 _ _ _ _ (ok_home _ Hok) Eb)).
      destruct (wrote_next _ _ _ _ _ El W W') as [W2 El2]. split; [|done|split; [done|by apply lookup_lt_Some in Eb]].
      cbn [done_writes]. by erewrite take_S_r by exact (slot_writes_at _ _ _ 0 t b Eb).
    + apply lookup_ge_None_1 in Eb. split; [|done|done]. cbn [done_writes].
      rewrite take_ge in W by (rewrite length_slot_writes; lia). exact W.
  - intros [= <- <-]. pose proof (write_head_wrote s) as W'. rewrite Es, El in W'.
    rewrite (view_slots s0 s _ (start s0) Hok W) in W' by auto.
    destruct (wrote_next _ _ _ _ _ El W W') as [W2 El2]. split; [|done|split; [done|lia]]. cbn [done_writes]. by rewrite take_0.
  - destruct Hph as [Hn Ht]. destruct (lh s0 !! t) as [b|] eqn:Eb; intros [= <- <-].
    + pose proof (install_block_wrote t b s) as W'. unfold slot in W'. rewrite Es in W'.
      rewrite (proj2 (view_header s0 s _ b Hok W (prefix_take _ _)) t Eb) in W'.
      destruct (wrote_next _ _ _ _ _ El W W') as [W2 El2]. split; [|done|split; [done|by apply lookup_lt_Some in Eb]].
      cbn [done_writes]. rewrite (take_S_r _ _ _ (copies_at _ (view s0) _ _ Eb)). by rewrite !app_assoc in *.
    + apply lookup_ge_None_1 in Eb. split; [|done|done]. cbn [done_writes].
      rewrite take_ge in W by (unfold copies; rewrite length_fmap; lia). exact W.
  - intros [= <- <-]. pose proof (write_head_wrote (set_lh [] s)) as W'.
    change (lh (set_lh [] s)) with (@nil Z) in W'. change (start (set_lh [] s)) with (start s) in W'.
    change (view (set_lh [] s) (start s)) with (view s (start s)) in W'. rewrite Es in W'.
    rewrite (proj1 (view_header s0 s _ 0 Hok W (reflexivity _))) in W'. pose proof (w_lh _ _ _ W') as El'.
    apply (wrote_set_lh (lh s0)) in W'. change (set_lh (lh s0) (set_lh [] s)) with (set_lh (lh s0) s) in W'.
    pose proof (wrote_trans _ _ _ _ _ W W') as W2. split; [|done|done].
    cbn [done_writes]. destruct (lh s0) as [|b bs] eqn:E0; [done|]. rewrite <- E0 in *. unfold commit_writes.
    by rewrite <- app_assoc in W2.
Qed.

(** A step writes at most one block. *)
Lemma commit_step_wrote p s p' s' : commit_step p s = (p', s') ->
  exists ws, (length ws <= 1)%nat /\ disk s' = apply_writes ws (disk s) /\ trace s' = trace s ++ ws /\
    (outstanding s', committing s', ncommit s') = (outstanding s, committing s, ncommit s).
Proof.
  assert (H : forall ws s1 s2, wrote ws s1 s2 -> (length ws <= 1)%nat -> exists ws, (length ws <= 1)%nat /\
    disk s2 = apply_writes ws (disk s1) /\ trace s2 = trace s1 ++ ws /\
    (outstanding s2, committing s2, ncommit s2) = (outstanding s1, committing s1, ncommit s1)).
  { intros ws s1 s2 [] Hl. exists ws. auto. }
  destruct p as [|t| |t| |]; cbn [commit_step].
  - intros [= _ <-]. apply (H _ _ _ (wrote_refl s)); simpl; lia.
  - destruct (lh s !! t); intros [= _ <-]; [apply (H _ _ _ (log_block_wrote _ _ _)); simpl; lia | apply (H _ _ _ (wrote_refl s)); simpl; lia].
  - intros [= _ <-]. apply (H _ _ _ (write_head_wrote s)); simpl; lia.
  - destruct (lh s !! t); intros [= _ <-]; [apply (H _ _ _ (install_block_wrote _ _ _)); simpl; lia | apply (H _ _ _ (wrote_refl s)); simpl; lia].
  - intros [= _ <-]. apply (H _ _ _ (write_head_wrote (set_lh [] s))); simpl; lia.
  - intros [= _ <-]. apply (H _ _ _ (wrote_refl s)); simpl; lia.
Qed.

Lemma done_prefix s0 p : lh s0 <> [] \/ p = CTest \/ p = CDone ->
  done_writes s0 p `prefix_of` commit_writes s0.
Proof.
  intros Hp. unfold commit_writes. destruct p as [|t| |t| |]; cbn [done_writes].
  - apply prefix_nil.
  - by apply prefix_app_r, prefix_take.
  - by apply prefix_app_r.
  - apply prefix_app. rewrite <- app_assoc. apply prefix_app. apply prefix_app_r, prefix_take.
  - apply prefix_app. by apply prefix_app_r.
  - destruct (lh s0) eqn:E; [apply prefix_nil|]. rewrite <- E. done.
Qed.

(** A crash in the middle of a commit: before the header is written the old
    contents come back, afterwards the new ones. *)
Lemma mid_crash s0 p s : log_ok s0 -> mid s0 p s ->
  header_ok (start s0) (disk s) /\
  forall b, home (start s0) b ->
    get (disk (initlog (start s0) (disk s))) b = if committed p then view s0 b else get (disk s0) b.
Proof.
  intros Hok [W El Hph]. pose proof (w_disk _ _ _ W) as Hd. change (disk (set_lh _ s)) with (disk s) in Hd. rewrite Hd.
  destruct (commit_prefix s0 (done_writes s0 p) Hok) as [Hh Hr].
  { apply done_prefix. destruct p; tauto. }
  split; [done|]. intros b Hb. rewrite Hr by done.
  destruct p as [|t| |t| |]; cbn [committed done_writes];
    rewrite ?length_take, ?length_app, ?length_slot_writes; simpl length.
  - done.
  - rewrite leb_correct by lia. done.
  - rewrite leb_correct by lia. done.
  - rewrite leb_correct_conv by lia. done.
  - rewrite leb_correct_conv by lia. done.
  - destruct (lh s0) eqn:E0; [simpl; symmetry; apply Hok; rewrite E0; set_solver|]. rewrite <- E0. unfold commit_writes.
    rewrite leb_correct_conv; [done|]. rewrite length_app, length_slot_writes. simpl. lia.
Qed.

(** What the other processes see during a commit. *)
Lemma mid_view s0 p s b : log_ok s0 -> mid s0 p s -> home (start s0) b -> view s b = view s0 b.
Proof.
  intros Hok [W El Hph] Hb. change (view s b) with (view (set_lh (lh s0) s) b). rewrite (w_view _ _ _ W).
  destruct (lastw b (done_writes s0 p)) as [x|] eqn:Ex; [|done]. simpl.
  destruct (done_prefix s0 p) as [k Ek]; [destruct p; tauto|].
  assert (Hne : b <> start s0) by (unfold home in Hb; lia).
  assert (Hs : lastw b (slot_writes (start s0) 0 (lh s0) (view s0)) = None)
    by (apply lastw_None; by apply slot_not_home; [apply Hok|]).
  assert (Hall : forall q, q `prefix_of` copies (lh s0) (view s0) -> forall y, lastw b q = Some y -> y = view s0 b).
  { intros q [k' Eq] y Hy. induction (lh s0) as [|c bs IH] in q, k', Eq, Hy |- *.
    - simpl in Eq. symmetry in Eq. by apply app_eq_nil in Eq as [-> _].
    - destruct q as [|w q]; [done|]. simpl in Eq. injection Eq as <- Eq. simpl in Hy.
      destruct (lastw b q) eqn:E; [injection Hy as <-; by apply (IH q k')|].
      destruct (Z.eqb_spec c b) as [->|]; [by injection Hy|done]. }
  clear Ek. destruct p as [|t| |t| |]; cbn [done_writes] in Ex.
  - done.
  - rewrite lastw_None in Ex; [done|]. intros Hin. apply (prefix_keys _ _ _ (prefix_take _ _)) in Hin.
    revert Hin. by apply slot_not_home; [apply Hok|].
  - by rewrite Hs in Ex.
  - rewrite !lastw_app, Hs in Ex. cbn [lastw] in Ex. destruct (Z.eqb_spec (start s0) b); [congruence|].
    destruct (lastw b (take t _)) eqn:E; [injection Ex as <-; by apply (Hall _ (prefix_take _ _) _ E) | done].
  - rewrite !lastw_app, Hs in Ex. cbn [lastw] in Ex. destruct (Z.eqb_spec (start s0) b); [congruence|].
    destruct (lastw b (copies _ _)) eqn:E; [injection Ex as <-; by apply (Hall _ (reflexivity _) _ E) | done].
  - destruct (lh s0) eqn:E0; [done|]. rewrite <- E0 in *. unfold commit_writes in Ex. rewrite !lastw_app, Hs in Ex.
    cbn [lastw] in Ex. destruct (Z.eqb_spec (start s0) b); [congruence|].
    destruct (lastw b (copies _ _)) eqn:E; [injection Ex as <-; by apply (Hall _ (reflexivity _) _ E) | done].
Qed.

(** A finished commit leaves a log between two commits. *)
Lemma mid_done s0 s : log_ok s0 -> mid s0 CDone s ->
  log_ok s /\ forall b, home (start s0) b -> get (disk s) b = view s0 b.
Proof.
  intros Hok [[D T V S L C] El _]. cbn [done_writes] in *. change (disk (set_lh _ s)) with (disk s) in D.
  change (start (set_lh _ s)) with (start s) in S.
  assert (V' : forall b, view s b = default (view s0 b) (lastw b (done_writes s0 CDone))) by exact V. cbn [done_writes] in V'.
  destruct (lh s0) as [|b0 bs0] eqn:E0.
  - simpl in D. split.
    + destruct Hok as [H1 H2 H3 H4 H5]. split; rewrite ?El, ?S, ?D; [done| |constructor|simpl; lia|].
      * rewrite V'. exact H2.
      * intros b Hb. rewrite V'. simpl. apply H5. by rewrite E0.
    + intros b Hb. rewrite D. symmetry. apply Hok. rewrite E0. set_solver.
  - destruct (committed_ok s0 s Hok D V' S El) as (H1 & H2 & _). done.
Qed.

(** ** File-system operations and their specification

    The specification of the log: [cur] is what the file system sees, [dur]
    what survives a crash; [dur] becomes [cur] when the header that announces
    a transaction is written.  Each operation may log at most [MAXOPBLOCKS]
    blocks, its budget.  [committers] are the processes inside [commit]. *)
Inductive fsop := Begin | Write (i : nat) (b : Z) (x : block) | End (i : nat) | Step (i : nat).

Record fsrun := mkRun {
  impl : logstate; budget : list nat; committers : list cpc; cur : Z -> block; dur : Z -> block
}.

Definition homeb (st b : Z) : bool := (b <? st) || (st + Z.of_nat LOGBLOCKS <? b).
Definition drop_at {A} (i : nat) (l : list A) : list A := take i l ++ drop (S i) l.

(** One event: a process takes the turn of [begin_op], logs a block, enters
    [end_op], or makes its next step in the rest of [end_op].  [None] for a
    panic.  An operation that has to wait, or that does not exist or is out
    of budget, changes nothing. *)
Definition fsstep (op : fsop) (r : fsrun) : option fsrun :=
  match op with
  | Begin =>
      match begin_op (impl r) with
      | None => Some r
      | Some s => Some (mkRun s (budget r ++ [Z.to_nat MAXOPBLOCKS]) (committers r) (cur r) (dur r))
      end
  | Write i b x =>
      match budget r !! i with
      | Some (S n) =>
          if homeb (start (impl r)) b then
            s ← log_write b x (impl r);
            Some (mkRun s (<[i := n]> (budget r)) (committers r) (fun y => if y =? b then x else cur r y) (dur r))
          else Some r
      | _ => Some r
      end
  | End i =>
      match budget r !! i with
      | Some _ =>
          '(do_commit, s) ← end_op_first (impl r);
          Some (mkRun s (drop_at i (budget r)) (if do_commit : bool then committers r ++ [CTest] else committers r) (cur r) (dur r))
      | None => Some r
      end
  | Step i =>
      match committers r !! i with
      | Some CDone => Some (mkRun (end_op_last (impl r)) (budget r) (drop_at i (committers r)) (cur r) (dur r))
      | Some p =>
          let '(p', s) := commit_step p (impl r) in
          Some (mkRun s (budget r) (<[i := p']> (committers r)) (cur r) (match p with CHead => cur r | _ => dur r end))
      | None => Some r
      end
  end.

Fixpoint fsrun_all (ops : list fsop) (r : fsrun) : option fsrun :=
  match ops with [] => Some r | op :: ops' => r' ← fsstep op r; fsrun_all ops' r' end.

Definition mount (st : Z) (d : gmap Z block) : fsrun :=
  let s := initlog st d in mkRun s [] [] (fun b => get (disk s) b) (fun b => get (disk s) b).

Definition total (l : list nat) : nat := foldr Nat.add 0%nat l.

Lemma total_app a b : total (a ++ b) = (total a + total b)%nat.
Proof. induction a as [|x a IH]; simpl; [done|]. rewrite IH. lia. Qed.

Lemma total_insert l : forall i n m, l !! i = Some m -> (total (<[i := n]> l) + m = total l + n)%nat.
Proof. induction l as [|x l IH]; intros [|i] n m H; simpl in *; try done; [injection H as ->; lia|]. specialize (IH i n m H). lia. Qed.

Lemma total_lookup l : forall i m, l !! i = Some m -> (m <= total l)%nat.
Proof. induction l as [|x l IH]; intros [|i] m H; simpl in *; try done; [injection H as ->; lia|]. specialize (IH i m H). lia. Qed.

(** No commit is going on.  The budgets: none above the maximum, and together
    with what is logged they fit in the log. *)
Record fs_idle (st : Z) (r : fsrun) : Prop := mkFsIdle {
  fs_log : log_ok (impl r);
  fs_start : start (impl r) = st;
  fs_none : committers r = [];
  fs_flag : committing (impl r) = false;
  fs_count : outstanding (impl r) = Z.of_nat (length (budget r));
  fs_max : Forall (fun n => (n <= Z.to_nat MAXOPBLOCKS)%nat) (budget r);
  fs_fits : (length (lh (impl r)) + total (budget r) <= LOGBLOCKS)%nat;
  fs_quiet : budget r = [] -> lh (impl r) = [];
  fs_cur : forall b, home st b -> view (impl r) b = cur r b;
  fs_dur : forall b, home st b -> get (disk (impl r)) b = dur r b
}.

(** One process is inside [commit], which it began in the state [s0]; no
    operation is active. *)
Record fs_busy (st : Z) (r : fsrun) (s0 : logstate) (p : cpc) : Prop := mkFsBusy {
  fb_log : log_ok s0;
  fb_start : start s0 = st;
  fb_mid : mid s0 p (impl r);
  fb_one : committers r = [p];
  fb_flag : committing s0 = true;
  fb_count : outstanding s0 = 0;
  fb_budget : budget r = [];
  fb_cur : forall b, home st b -> view s0 b = cur r b;
  fb_dur : forall b, home st b -> (if committed p then view s0 b else get (disk s0) b) = dur r b
}.

Definition fs_ok (st : Z) (r : fsrun) : Prop := fs_idle st r \/ exists s0 p, fs_busy st r s0 p.

Lemma mount_ok st d : header_ok st d -> fs_ok st (mount st d).
Proof.
  intros H. left. destruct (initlog_ok st d H) as (Hok & Hs & Hl & Ho & Hc). split; simpl; try done.
  - lia.
  - intros b Hb. apply Hok. rewrite Hl. set_solver.
Qed.

Lemma homeb_spec st b : homeb st b = true <-> home st b.
Proof. unfold homeb, home. rewrite orb_true_iff, !Z.ltb_lt. done. Qed.

Lemma total_bound l n : Forall (fun x => (x <= n)%nat) l -> (total l <= n * length l)%nat.
Proof. induction 1; simpl; lia. Qed.

Lemma busy_counts st r s0 p : fs_busy st r s0 p -> committing (impl r) = true /\ outstanding (impl r) = 0.
Proof.
  intros H. pose proof (w_counts _ _ _ (mid_wrote _ _ _ (fb_mid _ _ _ _ H))) as E.
  injection E as E1 E2 _. simpl in E1, E2. rewrite E1, E2. split; apply H.
Qed.

Lemma begin_ok st r s : fs_ok st r -> begin_op (impl r) = Some s ->
  fs_ok st (mkRun s (budget r ++ [Z.to_nat MAXOPBLOCKS]) (committers r) (cur r) (dur r)) /\
  trace s = trace (impl r) /\ disk s = disk (impl r).
Proof.
  intros [[Hl Hs Hn Hi Hc Hm Hf Hq Hcur Hdur]|(s0 & p & H)]; unfold begin_op.
  2: { by rewrite (proj1 (busy_counts _ _ _ _ H)). }
  rewrite Hi.
  destruct (Z.ltb_spec (Z.of_nat LOGBLOCKS) (Z.of_nat (length (lh (impl r))) + (outstanding (impl r) + 1) * MAXOPBLOCKS)) as [|Hle];
    [done|]. intros [= <-]. split; [|done]. left. split; simpl; try done.
  - destruct Hl; by split.
  - rewrite length_app. simpl. lia.
  - apply Forall_app. split; [done|]. by constructor.
  - rewrite total_app. simpl. pose proof (total_bound _ _ Hm) as Hb. rewrite Hc in Hle. unfold MAXOPBLOCKS in *. lia.
  - by destruct (budget r).
Qed.

(** An operation is active only between two commits. *)
Lemma active_idle st r i n : fs_ok st r -> budget r !! i = Some n -> fs_idle st r.
Proof. intros [H|(s0 & p & H)] Hb; [done|]. by rewrite (fb_budget _ _ _ _ H) in Hb. Qed.

Lemma log_write_ok st r i n b x :
  fs_ok st r -> budget r !! i = Some (S n) -> home st b ->
  exists s, log_write b x (impl r) = Some s /\ trace s = trace (impl r) /\ disk s = disk (impl r) /\
    fs_ok st (mkRun s (<[i := n]> (budget r)) (committers r) (fun y => if y =? b then x else cur r y) (dur r)).
Proof.
  intros Hok Hb Hh. destruct (active_idle _ _ _ _ Hok Hb) as [Hl Hs Hnone Hi Hc Hm Hf Hq Hcur Hdur]. clear Hok.
  pose proof (total_insert (budget r) i n (S n) Hb) as Ht. pose proof (lookup_lt_Some _ _ _ Hb) as Hlt.
  pose proof (total_lookup (budget r) i (S n) Hb) as Hn.
  unfold log_write. destruct (Nat.leb_spec LOGBLOCKS (length (lh (impl r)))); [lia|].
  destruct (Z.ltb_spec (outstanding (impl r)) 1); [lia|].
  set (s1 := set_cache (<[b := x]> (cache (impl r))) (impl r)).
  assert (Hv : forall y, view s1 y = if y =? b then x else view (impl r) y).
  { intros y. unfold view, s1. simpl. destruct (Z.eqb_spec y b) as [->|Hne]; [by rewrite lookup_insert_eq | by rewrite lookup_insert_ne]. }
  assert (Hne : st <> b) by (unfold home in Hh; lia).
  assert (Hmax : Forall (fun n => (n <= Z.to_nat MAXOPBLOCKS)%nat) (<[i := n]> (budget r))).
  { apply Forall_insert; [done|]. apply (Forall_lookup_1 _ _ _ _ Hm) in Hb. lia. }
  assert (Hq' : <[i := n]> (budget r) <> []) by (intros E; apply (f_equal length) in E; rewrite length_insert in E; simpl in E; lia).
  eexists. split; [reflexivity|]. case_bool_decide as Hin.
  - split; [done|]. split; [done|]. left. split; simpl; try done; try (by rewrite length_insert); try lia.
    + destruct Hl as [H1 H2 H3 H4 H5]. split; try done.
      * rewrite Hv. change (start s1) with (start (impl r)). rewrite Hs. destruct (Z.eqb_spec st b); [done|]. by rewrite Hs in H2.
      * intros y Hy. rewrite Hv. destruct (Z.eqb_spec y b) as [->|]; [done|]. by apply H5.
    + intros y Hy. rewrite Hv. destruct (y =? b); auto.
  - split; [done|]. split; [done|]. left. split; simpl; try done; try (by rewrite length_insert).
    + destruct Hl as [H1 H2 H3 H4 H5]. split; try done.
      * change (view (set_lh _ s1) (start (set_lh _ s1))) with (view s1 (start (impl r))). rewrite Hv, Hs.
        destruct (Z.eqb_spec st b); [done|]. by rewrite Hs in H2.
      * simpl. apply Forall_app. split; [done|]. constructor; [by rewrite Hs | constructor].
      * simpl. rewrite length_app. simpl. lia.
      * intros y Hy. simpl in Hy. change (view (set_lh _ s1) y) with (view s1 y). rewrite Hv.
        apply not_elem_of_app in Hy as [Hy1 Hy2]. destruct (Z.eqb_spec y b) as [->|]; [set_solver|]. by apply H5.
    + rewrite length_app. simpl. lia.
    + intros y Hy. change (view (set_lh _ s1) y) with (view s1 y). rewrite Hv. destruct (y =? b); auto.
Qed.

Lemma drop_at_length {A} (l : list A) i x : l !! i = Some x -> length l = S (length (drop_at i l)).
Proof.
  intros H. rewrite <- (take_drop_middle _ _ _ H) at 1. unfold drop_at. rewrite !length_app. simpl. lia.
Qed.

Lemma end_ok st r i n :
  fs_ok st r -> budget r !! i = Some n ->
  exists do_commit s, end_op_first (impl r) = Some (do_commit, s) /\ trace s = trace (impl r) /\ disk s = disk (impl r) /\
    ncommit s = ncommit (impl r) /\
    fs_ok st (mkRun s (drop_at i (budget r)) (if do_commit : bool then committers r ++ [CTest] else committers r) (cur r) (dur r)).
Proof.
  intros Hok Hb. destruct (active_idle _ _ _ _ Hok Hb) as [Hl Hs Hn Hi Hc Hm Hf Hq Hcur Hdur]. clear Hok.
  pose proof (drop_at_length _ _ _ Hb) as Hlen. set (bs := drop_at i (budget r)) in *.
  assert (Htot : total (budget r) = (n + total bs)%nat).
  { rewrite <- (take_drop_middle _ _ _ Hb) at 1. unfold bs, drop_at. rewrite !total_app. simpl. lia. }
  assert (Hmax : Forall (fun n => (n <= Z.to_nat MAXOPBLOCKS)%nat) bs).
  { unfold bs, drop_at. apply Forall_app. split; [by apply Forall_take | by apply Forall_drop]. }
  unfold end_op_first. rewrite Hi. cbn [outstanding set_counts]. rewrite Hc, Hlen.
  destruct (Z.eqb_spec (Z.of_nat (S (length bs)) - 1) 0) as [E|E].
  - assert (Hnil : bs = []) by (apply length_zero_iff_nil; lia).
    eexists true, _. split; [reflexivity|]. do 3 (split; [done|]). right. rewrite E. eexists _, CTest. split; simpl.
    + instantiate (1 := set_counts 0 true (ncommit (impl r)) (impl r)). destruct Hl; by split.
    + done.
    + split; [|done|done]. cbn [done_writes]. apply wrote_refl.
    + by rewrite Hn.
    + done.
    + done.
    + done.
    + exact Hcur.
    + exact Hdur.
  - eexists false, _. split; [reflexivity|]. do 3 (split; [done|]). left.
    split; simpl; try done; [destruct Hl; by split | lia | lia|]. intros E2. rewrite E2 in E. simpl in E. lia.
Qed.

(** A step of the committing process. *)
Lemma commit_event_ok st r i p :
  fs_ok st r -> committers r !! i = Some p ->
  exists r' ws, fsstep (Step i) r = Some r' /\ fs_ok st r' /\ (length ws <= 1)%nat /\
    trace (impl r') = trace (impl r) ++ ws /\ disk (impl r') = apply_writes ws (disk (impl r)) /\
    budget r' = [] /\ cur r' = cur r /\
    ((ncommit (impl r') = ncommit (impl r) /\ (dur r' = dur r \/ dur r' = cur r) /\ p <> CDone /\
      exists p', commit_step p (impl r) = (p', impl r') /\ committers r' = [p']) \/
     (ncommit (impl r') = ncommit (impl r) + 1 /\ committers r' = [])).
Proof.
  intros [H|(s0 & p0 & H)] Hp; [by rewrite (fs_none _ _ H) in Hp|].
  rewrite (fb_one _ _ _ _ H) in Hp. destruct i as [|i]; [|done]. simpl in Hp. injection Hp as ->.
  pose proof (busy_counts _ _ _ _ H) as [Hcm Hout]. cbn [fsstep]. rewrite (fb_one _ _ _ _ H). cbn [lookup list_lookup].
  destruct (decide (p = CDone)) as [->|Hne].
  - eexists _, []. split; [reflexivity|]. simpl. rewrite app_nil_r.
    destruct H as [Hl Hs Hm H1 Hf Hc Hb Hcur Hdur]. destruct (mid_done s0 (impl r) Hl Hm) as [Hok Hd].
    pose proof (w_start _ _ _ (mid_wrote _ _ _ Hm)) as Est. change (start (set_lh _ (impl r))) with (start (impl r)) in Est.
    pose proof (mid_lh _ _ _ Hm) as El. simpl in El.
    split; [|split; [lia|]; do 4 (split; [done|]); by right]. left. split; simpl; try done.
    + destruct Hok; by split.
    + congruence.
    + by rewrite Hb, Hout.
    + by rewrite Hb.
    + rewrite Hb. change (lh (end_op_last (impl r))) with (lh (impl r)). rewrite El. simpl. lia.
    + intros b Hbm. change (view (end_op_last (impl r)) b) with (view (impl r) b).
      rewrite (mid_view s0 CDone (impl r) b Hl Hm) by (by rewrite Hs). auto.
    + intros b Hbm. rewrite Hd by (by rewrite Hs). rewrite <- Hdur by done. done.
  - destruct (commit_step p (impl r)) as [p' s'] eqn:Es.
    destruct (commit_step_wrote _ _ _ _ Es) as (ws & Hlen & Hd & Ht & Hc).
    set (r' := mkRun s' (budget r) [p'] (cur r) (match p with CHead => cur r | _ => dur r end)).
    assert (Er : match p with
      | CDone => Some (mkRun (end_op_last (impl r)) (budget r) (drop_at 0 [p]) (cur r) (dur r))
      | _ => Some (mkRun s' (budget r) (<[0%nat := p']> [p]) (cur r) (match p with CHead => cur r | _ => dur r end)) end = Some r')
      by (by destruct p). exists r', ws.
    destruct H as [Hl Hs Hm H1 Hf Hc0 Hb Hcur Hdur].
    split; [rewrite <- Er; by destruct p|]. injection Hc as Hc1 Hc2 Hc3.
    split; [|do 5 (split; [done|]); left; split; [done|]; split; [destruct p; auto|]; split; [done|]; by exists p'].
    right. exists s0, p'. split; try done; [by apply (mid_step s0 p (impl r))|].
    intros b Hbm. pose proof (Hdur b Hbm) as Hd0. pose proof (Hcur b Hbm) as Hc4.
    unfold r'. destruct p as [|t| |t| |]; simpl in *; try done.
    + destruct (lh (impl r)) eqn:El; injection Es as <- <-; [|done]. simpl. rewrite <- Hd0. apply Hl.
      rewrite (mid_lh _ _ _ Hm) in El. rewrite El. set_solver.
    + destruct (lh (impl r) !! t); by injection Es as <- <-.
    + by injection Es as <- <-.
    + destruct (lh (impl r) !! t); by injection Es as <- <-.
    + by injection Es as <- <-.
Qed.

(** Every event keeps the invariant and writes at most one block. *)
Lemma fsstep_ok st r op : fs_ok st r ->
  exists r' ws, fsstep op r = Some r' /\ fs_ok st r' /\ (length ws <= 1)%nat /\
    trace (impl r') = trace (impl r) ++ ws /\ disk (impl r') = apply_writes ws (disk (impl r)).
Proof.
  intros H.
  assert (Hnew : forall r', fs_ok st r' -> trace (impl r') = trace (impl r) -> disk (impl r') = disk (impl r) ->
    exists r'' ws, Some r' = Some r'' /\ fs_ok st r'' /\ (length ws <= 1)%nat /\
      trace (impl r'') = trace (impl r) ++ ws /\ disk (impl r'') = apply_writes ws (disk (impl r))).
  { intros r' H' Ht Hd. exists r', []. rewrite app_nil_r. simpl. auto. }
  destruct op as [|i b x|i|i].
  - cbn [fsstep]. destruct (begin_op (impl r)) as [s|] eqn:E; [|by apply Hnew].
    destruct (begin_ok st r s H E) as (Hok & Ht & Hd). by apply Hnew.
  - cbn [fsstep]. destruct (budget r !! i) as [[|n]|] eqn:E; [by apply Hnew| |by apply Hnew].
    destruct (homeb (start (impl r)) b) eqn:Hb; [|by apply Hnew]. apply homeb_spec in Hb.
    rewrite (fs_start _ _ (active_idle _ _ _ _ H E)) in Hb.
    destruct (log_write_ok st r i n b x H E Hb) as (s & -> & Ht & Hd & Hok). by apply Hnew.
  - cbn [fsstep]. destruct (budget r !! i) as [n|] eqn:E; [|by apply Hnew].
    destruct (end_ok st r i n H E) as (c & s & -> & Ht & Hd & _ & Hok). by apply Hnew.
  - destruct (committers r !! i) as [p|] eqn:E; [|cbn [fsstep]; rewrite E; by apply Hnew].
    destruct (commit_event_ok st r i p H E) as (r' & ws & E' & Hok & Hl & Ht & Hd & _). by exists r', ws.
Qed.

Lemma fsrun_ok st ops : forall r, fs_ok st r -> exists r', fsrun_all ops r = Some r' /\ fs_ok st r'.
Proof.
  induction ops as [|op ops IH]; intros r H; cbn [fsrun_all]; [eauto|].
  destruct (fsstep_ok st r op H) as (r1 & ws & -> & H1 & _). cbn [mbind option_bind]. by apply IH.
Qed.

Lemma fsrun_app ops1 ops2 : forall r, fsrun_all (ops1 ++ ops2) r = r' ← fsrun_all ops1 r; fsrun_all ops2 r'.
Proof. induction ops1 as [|op ops1 IH]; intros r; [done|]. cbn [app fsrun_all]. destruct (fsstep op r); [apply IH | done]. Qed.

(** A crash at any moment: what the disk holds recovers to [dur]. *)
Lemma crash_ok st r : fs_ok st r ->
  header_ok st (disk (impl r)) /\ forall b, home st b -> get (disk (initlog st (disk (impl r)))) b = dur r b.
Proof.
  intros [H|(s0 & p & [Hl Hs Hm H1 Hf Hc Hb Hcur Hdur])].
  - pose proof (fs_log _ _ H) as Hl. pose proof (fs_start _ _ H) as Hs.
    destruct (recover_clean st (disk (impl r))) as [Hh Hr].
    + rewrite <- Hs, <- header_view by done. apply Hl.
    + rewrite <- Hs. apply Hl.
    + split; [done|]. intros b Hb. rewrite Hr by done. by apply H.
  - destruct (mid_crash s0 p (impl r) Hl Hm) as [Hh Hr]. rewrite Hs in Hh, Hr. split; [done|].
    intros b Hbm. rewrite Hr by done. by apply Hdur.
Qed.

Lemma view_ok st r b : fs_ok st r -> home st b -> view (impl r) b = cur r b.
Proof.
  intros [H|(s0 & p & H)] Hb; [by apply H|].
  rewrite (mid_view s0 p (impl r) b (fb_log _ _ _ _ H) (fb_mid _ _ _ _ H)) by (by rewrite (fb_start _ _ _ _ H)). by apply H.
Qed.

Lemma quiet_durable st r b : fs_ok st r -> budget r = [] -> committers r = [] -> home st b -> dur r b = cur r b.
Proof.
  intros [H|(s0 & p & H)] Hq Hn Hb; [|by rewrite (fb_one _ _ _ _ H) in Hn].
  rewrite <- (fs_cur _ _ H), <- (fs_dur _ _ H) by done. symmetry. apply (fs_log _ _ H).
  rewrite (fs_quiet _ _ H Hq). set_solver.
Qed.

(** What survives a crash changes only when no operation is active, and then
    becomes what the file system sees; the commit counter counts the ends of
    commits. *)
Lemma fsstep_commits st r op r' :
  fs_ok st r -> fsstep op r = Some r' ->
  (ncommit (impl r') = ncommit (impl r) /\ dur r' = dur r) \/
  (budget r' = [] /\ forall b, home st b -> dur r' b = cur r' b).
Proof.
  intros H E. destruct (fsstep_ok st r op H) as (r0 & _ & E0 & H' & _). rewrite E in E0. injection E0 as <-.
  destruct op as [|i b x|i|i].
  - cbn [fsstep] in E. unfold begin_op in E. destruct (committing (impl r)); [injection E as <-; by left|].
    destruct (_ <? _); injection E as <-; by left.
  - cbn [fsstep] in E. destruct (budget r !! i) as [[|n]|]; [injection E as <-; by left| |injection E as <-; by left].
    destruct (homeb _ b); [|injection E as <-; by left]. unfold log_write in E.
    destruct (LOGBLOCKS <=? _)%nat; [done|]. destruct (outstanding _ <? 1); [done|].
    injection E as <-. left. simpl. by case_bool_decide.
  - cbn [fsstep] in E. destruct (budget r !! i) as [n|] eqn:Eb; [|injection E as <-; by left].
    destruct (end_ok st r i n H Eb) as (c & s & Es & _ & _ & Hn & _). rewrite Es in E. injection E as <-. by left.
  - destruct (committers r !! i) as [p|] eqn:Ep; [|cbn [fsstep] in E; rewrite Ep in E; injection E as <-; by left].
    destruct (commit_event_ok st r i p H Ep) as (r1 & ws & E1 & _ & _ & _ & _ & Hb & Hc & Hn). rewrite E in E1. injection E1 as <-.
    destruct Hn as [(Hn & [Hd|Hd] & _)|[Hn Hnone]].
    + by left.
    + right. split; [done|]. intros b _. congruence.
    + right. split; [done|]. intros b Hbm. by apply (quiet_durable st).
Qed.

(** Between two moments either nothing was committed, or what now survives is
    what could be seen at a moment in between when no operation was active. *)
Lemma fsrun_commits st ops : forall r r',
  fs_ok st r -> fsrun_all ops r = Some r' ->
  (ncommit (impl r') = ncommit (impl r) /\ dur r' = dur r) \/
  exists before after q, ops = before ++ after /\ fsrun_all before r = Some q /\ budget q = [] /\
    forall b, home st b -> dur r' b = cur q b.
Proof.
  induction ops as [|op ops IH]; intros r r' H; cbn [fsrun_all]; [intros [= <-]; by left|].
  destruct (fsstep_ok st r op H) as (r1 & _ & E1 & H1 & _). rewrite E1. cbn [mbind option_bind]. intros E2.
  destruct (IH r1 r' H1 E2) as [[Hn Hd]|(before & after & q & -> & Hb & Hq & Hd)].
  - destruct (fsstep_commits st r op r1 H E1) as [[Hn1 Hd1]|(Hb1 & Hd1)]; [left; split; congruence|].
    right. exists [op], ops, r1. cbn [fsrun_all]. rewrite E1. split_and!; try done. intros b Hb. rewrite Hd. auto.
  - right. exists (op :: before), after, q. cbn [fsrun_all]. rewrite E1. done.
Qed.

Lemma mount_snapshot st d ops r : header_ok st d -> fsrun_all ops (mount st d) = Some r ->
  exists before after q, ops = before ++ after /\ fsrun_all before (mount st d) = Some q /\ budget q = [] /\
    forall b, home st b -> dur r b = cur q b.
Proof.
  intros Hd E. destruct (fsrun_commits st ops _ r (mount_ok st d Hd) E) as [[_ Hr]|Hr]; [|done].
  exists [], ops, (mount st d). split_and!; try done. intros b _. by rewrite Hr.
Qed.

(** *** A commit ends *)
Definition remaining (s : logstate) (p : cpc) : nat :=
  let n := length (lh s) in
  match p with
  | CTest => 2 * n + 6 | CLog t => (n - t) + n + 5 | CHead => n + 4
  | CInstall t => (n - t) + 3 | CClear => 2 | CDone => 1
  end.

Lemma remaining_step p s p' s' : p <> CDone -> commit_step p s = (p', s') -> (remaining s' p' < remaining s p)%nat.
Proof.
  intros Hne. destruct p as [|t| |t| |]; [| | | | |done]; cbn [commit_step].
  - destruct (lh s) eqn:E; intros [= <- <-]; unfold remaining; lia.
  - destruct (lh s !! t) as [b|] eqn:E; intros [= <- <-]; unfold remaining; [|lia].
    rewrite (w_lh _ _ _ (log_block_wrote t b s)). apply lookup_lt_Some in E. lia.
  - intros [= <- <-]. unfold remaining. rewrite (w_lh _ _ _ (write_head_wrote s)). lia.
  - destruct (lh s !! t) as [b|] eqn:E; intros [= <- <-]; unfold remaining; [|lia].
    rewrite (w_lh _ _ _ (install_block_wrote t b s)). apply lookup_lt_Some in E. lia.
  - intros [= <- <-]. unfold remaining. lia.
Qed.

Lemma remaining_bound st r s0 p : fs_busy st r s0 p -> (remaining (impl r) p <= 2 * LOGBLOCKS + 6)%nat.
Proof.
  intros H. pose proof (ok_fits _ (fb_log _ _ _ _ H)) as Hf. pose proof (mid_lh _ _ _ (fb_mid _ _ _ _ H)) as El.
  destruct p; unfold remaining; rewrite ?El; lia.
Qed.

Lemma commit_ends_in st n : forall r p, fs_ok st r -> committers r = [p] -> (remaining (impl r) p <= n)%nat ->
  exists k r', (k <= n)%nat /\ fsrun_all (replicate k (Step 0)) r = Some r' /\ committers r' = [] /\ cur r' = cur r.
Proof.
  induction n as [|n IH]; intros r p H Hc Hr.
  { exfalso. revert Hr. unfold remaining. destruct p; lia. }
  destruct (commit_event_ok st r 0 p H) as (r1 & ws & E1 & H1 & _ & _ & _ & _ & Hcur & Hn); [by rewrite Hc|].
  destruct Hn as [(_ & _ & Hne & p' & Es & Hc1)|[_ Hc1]].
  - pose proof (remaining_step _ _ _ _ Hne Es) as Hlt.
    destruct (IH r1 p' H1 Hc1) as (k & r' & Hk & Ek & Hc' & Hcur'); [lia|].
    exists (S k), r'. cbn [replicate fsrun_all]. rewrite E1. split_and!; [lia | done | done | congruence].
  - exists 1%nat, r1. cbn [replicate fsrun_all]. rewrite E1. split_and!; [lia | done | done | done].
Qed.

(** C9: the log implements crash-safe transactions.  From any disk that can be
    mounted, under any interleaving of the lock regions of operations that
    each log at most [MAXOPBLOCKS] blocks and of the single disk writes of
    the commits: nothing panics (the log never overflows, nobody ends an
    operation during a commit); the file system always sees the latest
    writes; a crash at any moment, also between two disk writes of a commit,
    brings back [dur]; [dur] is what the file system showed at an earlier
    moment at which no operation was active, so that operations survive as a
    whole or not at all, and once no operation is active and no commit goes
    on it is what the file system shows now; and a commit ends after at most
    66 steps of the process that runs it. *)
Theorem log_refines (st : Z) (d : gmap Z block) (ops : list fsop) :
  header_ok st d ->
  exists r, fsrun_all ops (mount st d) = Some r /\
    (forall b, home st b -> view (impl r) b = cur r b /\ get (disk (initlog st (disk (impl r)))) b = dur r b) /\
    (exists before after q, ops = before ++ after /\ fsrun_all before (mount st d) = Some q /\ budget q = [] /\
       forall b, home st b -> dur r b = cur q b) /\
    (budget r = [] -> committers r = [] -> forall b, home st b -> dur r b = cur r b) /\
    exists k r', (k <= 2 * LOGBLOCKS + 6)%nat /\ fsrun_all (replicate k (Step 0)) r = Some r' /\
      committers r' = [] /\ cur r' = cur r.
Proof.
  intros Hd. destruct (fsrun_ok st ops (mount st d) (mount_ok st d Hd)) as (r & E & H). exists r. split; [done|].
  split_and!.
  - intros b Hb. split; [by apply (view_ok st) | by apply (crash_ok st r H)].
  - by apply (mount_snapshot st d).
  - intros Hb Hc b Hbm. by apply (quiet_durable st).
  - destruct H as [H|(s0 & p & H)].
    + exists 0%nat, r. split_and!; [lia | done | apply H | done].
    + apply (commit_ends_in st _ r p); [right; eauto | apply H | by apply (remaining_bound st r s0)].
Qed.

(** The disk after some of the writes of a run is the disk of a moment of it. *)
Lemma crash_point st ops : forall r r' ws rest, fs_ok st r -> fsrun_all ops r = Some r' ->
  trace (impl r') = trace (impl r) ++ ws ++ rest ->
  exists before after q, ops = before ++ after /\ fsrun_all before r = Some q /\ fs_ok st q /\
    disk (impl q) = apply_writes ws (disk (impl r)).
Proof.
  induction ops as [|op ops IH]; intros r r' ws rest H E Ht; cbn [fsrun_all] in E.
  - injection E as <-. rewrite <- (app_nil_r (trace (impl r))) in Ht at 1. apply app_inv_head in Ht.
    symmetry in Ht. apply app_eq_nil in Ht as [-> _]. by exists [], [], r.
  - destruct ws as [|w ws]; [by exists [], (op :: ops), r|].
    destruct (fsstep_ok st r op H) as (r1 & ws1 & E1 & H1 & Hl & Ht1 & Hd1). rewrite E1 in E. cbn [mbind option_bind] in E.
    assert (Hgo : forall ws0, trace (impl r') = trace (impl r1) ++ ws0 ++ rest ->
      apply_writes ws0 (disk (impl r1)) = apply_writes (w :: ws) (disk (impl r)) ->
      exists before after q, op :: ops = before ++ after /\ fsrun_all before r = Some q /\ fs_ok st q /\
        disk (impl q) = apply_writes (w :: ws) (disk (impl r))).
    { intros ws0 Ht0 Ed0. destruct (IH r1 r' ws0 rest H1 E Ht0) as (before & after & q & -> & Hb & Hq & Hd).
      exists (op :: before), after, q. cbn [fsrun_all]. rewrite E1. split_and!; try done. congruence. }
    destruct ws1 as [|w1 [|]]; [| |simpl in Hl; lia].
    + apply (Hgo (w :: ws)); [by rewrite Ht, Ht1, app_nil_r | by rewrite Hd1].
    + assert (Hpre : exists t, trace (impl r') = trace (impl r1) ++ t).
      { clear - H1 E. revert r1 H1 E. induction ops as [|op' ops IH]; intros r1 H1 E; cbn [fsrun_all] in E.
        - injection E as <-. exists []. by rewrite app_nil_r.
        - destruct (fsstep_ok st r1 op' H1) as (r2 & w2 & E2 & H2 & _ & Ht2 & _). rewrite E2 in E.
          destruct (IH r2 H2 E) as [t Et]. exists (w2 ++ t). by rewrite Et, Ht2, app_assoc. }
      destruct Hpre as [t Et]. pose proof Et as Et'. rewrite Ht, Ht1, <- app_assoc in Et'. apply app_inv_head in Et'.
      simpl in Et'. injection Et' as <- Et'. apply (Hgo ws); [by rewrite Et, Et' | by rewrite Hd1].
Qed.

(** C1: crashes are atomic.  From any reachable moment [r], run any further
    events, and let the crash fall anywhere among the disk writes they make,
    in particular anywhere among the writes of a commit: recovery brings back
    what survives at that moment [q] of the run (before or after the event,
    when only one event is run), which is what the file system showed at an
    earlier moment [q0] at which no operation was active, so no operation is
    ever seen half done; and a crash during that recovery, at any point,
    changes nothing. *)
Theorem log_crash_atomic (st : Z) (d : gmap Z block) (ops more : list fsop) (r r' : fsrun)
    (ws rest : list (Z * block)) :
  header_ok st d ->
  fsrun_all ops (mount st d) = Some r -> fsrun_all more r = Some r' ->
  trace (impl r') = trace (impl r) ++ ws ++ rest ->
  let crashed := apply_writes ws (disk (impl r)) in
  (exists before after q, more = before ++ after /\ fsrun_all before r = Some q /\
     (forall b, home st b -> get (disk (initlog st crashed)) b = dur q b) /\
     exists before0 after0 q0, ops ++ before = before0 ++ after0 /\ fsrun_all before0 (mount st d) = Some q0 /\
       budget q0 = [] /\ forall b, home st b -> get (disk (initlog st crashed)) b = cur q0 b) /\
  forall ws2, ws2 `prefix_of` trace (initlog st crashed) ->
    forall b, home st b -> get (disk (initlog st (apply_writes ws2 crashed))) b = get (disk (initlog st crashed)) b.
Proof.
  intros Hd Er Es Ht crashed.
  destruct (fsrun_ok st ops (mount st d) (mount_ok st d Hd)) as (r0 & E0 & H). rewrite Er in E0. injection E0 as <-.
  destruct (crash_point st more r r' ws rest H Es Ht) as (before & after & q & Hm & Hb & Hq & Hdq).
  destruct (crash_ok st q Hq) as [Hh Hr]. rewrite Hdq in Hh, Hr. fold crashed in Hh, Hr. split.
  - exists before, after, q. split_and!; try done.
    destruct (mount_snapshot st d (ops ++ before) q Hd) as (b0 & a0 & q0 & Hs & Hb0 & Hq0 & Hdur).
    { rewrite fsrun_app, Er. exact Hb. }
    exists b0, a0, q0. split_and!; try done. intros b Hbm. rewrite Hr by done. auto.
  - intros ws2 Hp b Hbm. destruct (recover_wrote st crashed Hh) as [_ Et].
    rewrite Et in Hp. by apply (recover_idempotent st crashed ws2 Hh Hp).
Qed.

(** Two operations that write overlapping blocks; while they are being
    committed a third one tries to begin.  The crash comes after the header
    of their common transaction and one installed block. *)
Definition blk (n : Z) : block := replicate BWORDS n.
Definition two_ops : list fsop :=
  [Begin; Begin; Write 0 100 (blk 1); Write 1 101 (blk 2); Write 0 101 (blk 3); End 0].
Definition commit_ops : list fsop := [End 0; Step 0; Step 0; Begin] ++ replicate 8 (Step 0).
Definition before_commit : fsrun := default (mount 2 ∅) (fsrun_all two_ops (mount 2 ∅)).
Definition after_commit : fsrun := default (mount 2 ∅) (fsrun_all commit_ops before_commit).
Definition commit_trace : list (Z * block) := drop (length (trace (impl before_commit))) (trace (impl after_commit)).

Lemma empty_header_ok : header_ok 2 ∅.
Proof. split_and!; [reflexivity | constructor | vm_compute; lia]. Defined.

Lemma log_refines_witness :
  exists r, fsrun_all (two_ops ++ commit_ops) (mount 2 ∅) = Some r /\
    (forall b, home 2 b -> view (impl r) b = cur r b /\ get (disk (initlog 2 (disk (impl r)))) b = dur r b) /\
    (exists before after q, two_ops ++ commit_ops = before ++ after /\ fsrun_all before (mount 2 ∅) = Some q /\ budget q = [] /\
       forall b, home 2 b -> dur r b = cur q b) /\
    (budget r = [] -> committers r = [] -> forall b, home 2 b -> dur r b = cur r b) /\
    exists k r', (k <= 2 * LOGBLOCKS + 6)%nat /\ fsrun_all (replicate k (Step 0)) r = Some r' /\
      committers r' = [] /\ cur r' = cur r.
Proof. apply (log_refines 2 ∅ (two_ops ++ commit_ops)). exact empty_header_ok. Defined.

Lemma log_crash_atomic_witness :
  let crashed := apply_writes (take 4 commit_trace) (disk (impl before_commit)) in
  (exists before after q, commit_ops = before ++ after /\ fsrun_all before before_commit = Some q /\
     (forall b, home 2 b -> get (disk (initlog 2 crashed)) b = dur q b) /\
     exists before0 after0 q0, two_ops ++ before = before0 ++ after0 /\ fsrun_all before0 (mount 2 ∅) = Some q0 /\
       budget q0 = [] /\ forall b, home 2 b -> get (disk (initlog 2 crashed)) b = cur q0 b) /\
  forall ws2, ws2 `prefix_of` trace (initlog 2 crashed) ->
    forall b, home 2 b -> get (disk (initlog 2 (apply_writes ws2 crashed))) b = get (disk (initlog 2 crashed)) b.
Proof.
  apply (log_crash_atomic 2 ∅ two_ops commit_ops before_commit after_commit (take 4 commit_trace) (drop 4 commit_trace)).
  - exact empty_header_ok.
  - vm_compute. reflexivity.
  - vm_compute. reflexivity.
  - vm_compute. reflexivity.
Defined.

(** In the demonstration the transaction survives the crash, the crash two
    writes earlier loses it, and the third operation had to wait. *)
Example crash_demo :
  let crashed := apply_writes (take 4 commit_trace) (disk (impl before_commit)) in
  get (disk (initlog 2 crashed)) 100 = blk 1 /\ get (disk (initlog 2 crashed)) 101 = blk 3 /\
  get (disk (initlog 2 (apply_writes (take 2 commit_trace) (disk (impl before_commit))))) 100 = zero_block /\
  length commit_trace = 6%nat /\ budget after_commit = [] /\ committers after_commit = [].
Proof. vm_compute. done. Qed.
