(* ===== verification/Sync.v ===== *)
(** * The sync system call (xv6/kernel/log.c, [sys_sync])

    [sys_sync] does not write anything: it waits until the commit counter
    shows that a commit has ended since the call.  The call is modelled by
    the value it waits for, computed when it starts, and the test that lets
    it return, and is placed among the operations of the other processes. *)
From S2P Require Import Prelude Log.
Local Open Scope Z_scope.

(** The commit number to wait for, when there is one. *)
Definition sync_target (s : logstate) : option Z :=
  if committing s || (0 <? outstanding s) then Some (ncommit s + 1) else None.

(** The test of the loop: whether the call returns now. *)
Definition sync_returns (target : option Z) (s : logstate) : bool :=
  match target with
  | Some n => negb (ncommit s <? n)
  | None => true
  end.

(** A call that does not wait finds no operation and no commit. *)
Lemma sync_now st r : fs_ok st r ->
  (budget r = [] /\ committers r = []) \/ sync_target (impl r) = Some (ncommit (impl r) + 1).
Proof.
  intros [H|(s0 & p & H)]; unfold sync_target.
  - rewrite (fs_flag _ _ H), (fs_count _ _ H), (fs_none _ _ H). simpl.
    destruct (Z.ltb_spec 0 (Z.of_nat (length (budget r)))); [by right|]. left. split; [apply nil_length_inv; lia | done].
  - right. by rewrite (proj1 (busy_counts _ _ _ _ H)).
Qed.

(** C31: when [sys_sync] returns, everything done before the call is on the
    disk.  The call may come at any moment, also during a commit, and the
    other processes do whatever they like while it waits, the disk writes of
    commits among it; a crash after its return brings back the file system as
    it was at some moment between the call and the return at which no
    operation was active; so an operation that ended before the call
    survives. *)
Theorem sync_durable (st : Z) (d : gmap Z block) (ops waiting : list fsop) (r r' : fsrun) :
  header_ok st d -> fsrun_all ops (mount st d) = Some r -> fsrun_all waiting r = Some r' ->
  sync_returns (sync_target (impl r)) (impl r') = true ->
  exists before after q, waiting = before ++ after /\ fsrun_all before r = Some q /\ budget q = [] /\
    forall b, home st b -> get (disk (initlog st (disk (impl r')))) b = cur q b.
Proof.
  intros Hd Er Ew Hret.
  destruct (fsrun_ok st ops (mount st d) (mount_ok st d Hd)) as (r0 & E0 & H). rewrite Er in E0. injection E0 as <-.
  destruct (fsrun_ok st waiting r H) as (r1 & E1 & H'). rewrite Ew in E1. injection E1 as <-.
  destruct (crash_ok st r' H') as [_ Hc].
  destruct (fsrun_commits st waiting r r' H Ew) as [[Hn Hdur]|(before & after & q & Ha & Hb & Hq & Hdur)].
  - destruct (sync_now st r H) as [[Hq Hnone]|Ht].
    + exists [], waiting, r. split_and!; try done. intros b Hbm. rewrite Hc, Hdur by done. by apply (quiet_durable st).
    + rewrite Ht in Hret. cbn [sync_returns] in Hret. rewrite Hn in Hret. apply negb_true_iff, Z.ltb_ge in Hret. lia.
  - exists before, after, q. split_and!; try done. intros b Hbm. by rewrite Hc, Hdur.
Qed.

(** An operation has ended and is being committed when [sync] is called:
    its block is in the log, the header is not.  Another operation has to
    wait; [sync] returns after the commit. *)
Definition busy : fsrun :=
  default (mount 2 ∅) (fsrun_all [Begin; Write 0 100 (blk 7); End 0; Step 0; Step 0] (mount 2 ∅)).
Definition rest_of_commit : list fsop := [Begin; Step 0; Step 0; Step 0; Step 0; Step 0; Step 0].
Definition flushed : fsrun := default (mount 2 ∅) (fsrun_all rest_of_commit busy).

(** A crash at the call would have lost its block. *)
Example sync_needed :
  get (disk (initlog 2 (disk (impl busy)))) 100 = zero_block /\ cur busy 100 = blk 7 /\ outstanding (impl busy) = 0.
Proof. vm_compute. done. Qed.

Lemma sync_durable_witness :
  sync_target (impl busy) = Some 1 /\ sync_returns (Some 1) (impl busy) = false /\
  exists before after q, rest_of_commit = before ++ after /\ fsrun_all before busy = Some q /\ budget q = [] /\
    forall b, home 2 b -> get (disk (initlog 2 (disk (impl flushed)))) b = cur q b.
Proof.
  split; [by vm_compute|]. split; [by vm_compute|].
  apply (sync_durable 2 ∅ [Begin; Write 0 100 (blk 7); End 0; Step 0; Step 0] rest_of_commit busy flushed).
  - exact empty_header_ok.
  - vm_compute. reflexivity.
  - vm_compute. reflexivity.
  - vm_compute. reflexivity.
Defined.
