(* ===== verification/Pipe.v ===== *)
(** * Pipes of xv6 (xv6/kernel/pipe.c)

    The ring buffer of 512 bytes with its 32-bit counters, which are allowed
    to wrap, and the two system calls cut where they sleep: a call either
    returns or goes to sleep, and is continued after it is woken. *)
From S2P Require Import Prelude.
Local Open Scope Z_scope.

Definition PIPESIZE : Z := 512.

Record pipe := mkPipe {
  pdata : list ascii;
  nread : Z;
  nwrite : Z;
  readopen : bool;
  writeopen : bool
}.

(** [pipealloc], once the page is there: it holds arbitrary bytes. *)
Definition pipealloc (junk : list ascii) : pipe := mkPipe junk 0 0 true true.

Definition index (c : Z) : nat := Z.to_nat (c mod PIPESIZE).

(** [pi->data[pi->nwrite++ % PIPESIZE] = ch;] *)
Definition put_byte (c : ascii) (p : pipe) : pipe :=
  mkPipe (<[index (nwrite p) := c]> (pdata p)) (nread p) (u32 (nwrite p + 1)) (readopen p) (writeopen p).
Definition take_byte (p : pipe) : pipe :=
  mkPipe (pdata p) (u32 (nread p + 1)) (nwrite p) (readopen p) (writeopen p).

(** How a stretch of a system call ends: it returns a value, or it sleeps,
    for [pipewrite] with [i] bytes done. *)
Inductive outcome := Return (r : Z) | Sleep (i : nat).

Definition full (p : pipe) : bool := nwrite p =? u32 (nread p + PIPESIZE).
Definition empty (p : pipe) : bool := nread p =? nwrite p.

Section Calls.
(** The caller's [killed] flag when byte [i] is handled, its memory for
    [copyin] and the success of [copyout]. *)
Context (killed : nat -> bool) (copyin : nat -> option ascii) (copyout : nat -> bool).

(** [k] bytes are left after the first [i].  The bytes that were put in the
    pipe are returned with the outcome. *)
Fixpoint write_loop (k i : nat) (p : pipe) : outcome * list ascii * pipe :=
  match k with
  | O => (Return (Z.of_nat i), [], p)
  | S k' =>
      if negb (readopen p) || killed i then (Return (-1), [], p)
      else if full p then (Sleep i, [], p)
      else match copyin i with
           | None => (Return (if (i =? 0)%nat then -1 else Z.of_nat i), [], p)
           | Some ch =>
               let '(o, bs, p') := write_loop k' (S i) (put_byte ch p) in (o, ch :: bs, p')
           end
  end.

(** [pipewrite] of [n] bytes, from byte [i] on when it is woken. *)
Definition pipewrite (n : Z) (i : nat) (p : pipe) : outcome * list ascii * pipe :=
  write_loop (Z.to_nat n - i) i p.

(** The bytes that reach the reader's memory are returned with the result. *)
Fixpoint read_loop (k i : nat) (p : pipe) : Z * list ascii * pipe :=
  match k with
  | O => (Z.of_nat i, [], p)
  | S k' =>
      if empty p then (Z.of_nat i, [], p)
      else
        let ch := nth (index (nread p)) (pdata p) NUL in
        if copyout i then
          let '(r, bs, p') := read_loop k' (S i) (take_byte p) in (r, ch :: bs, p')
        else (if (i =? 0)%nat then -1 else Z.of_nat i, [], p)
  end.

Definition piperead (n : Z) (p : pipe) : outcome * list ascii * pipe :=
  if empty p && writeopen p then (if killed 0%nat then Return (-1) else Sleep 0, [], p)
  else let '(r, bs, p') := read_loop (Z.to_nat n) 0 p in (Return r, bs, p').
End Calls.

(** [pipeclose]: whether the page is freed. *)
Definition pipeclose (writable : bool) (p : pipe) : pipe * bool :=
  let p' := if writable then mkPipe (pdata p) (nread p) (nwrite p) (readopen p) false
            else mkPipe (pdata p) (nread p) (nwrite p) false (writeopen p) in
  (p', negb (readopen p') && negb (writeopen p')).

(** ** The queue a pipe stands for *)
Definition used (p : pipe) : nat := Z.to_nat (u32 (nwrite p - nread p)).

Definition byte_at (p : pipe) (j : nat) : ascii := nth (index (nread p + Z.of_nat j)) (pdata p) NUL.

Definition queue (p : pipe) : list ascii := byte_at p <$> seq 0 (used p).

Record pipe_ok (p : pipe) : Prop := mkPipeOk {
  ok_data : length (pdata p) = Z.to_nat PIPESIZE;
  ok_nread : in_u32 (nread p);
  ok_nwrite : in_u32 (nwrite p);
  ok_used : u32 (nwrite p - nread p) <= PIPESIZE
}.

Lemma u32_mod512 x : u32 x mod 512 = x mod 512.
Proof.
  unfold u32. rewrite (Z.mod_eq x (2 ^ 32)) by lia.
  replace (x - 2 ^ 32 * (x / 2 ^ 32)) with (x + (- 2 ^ 23 * (x / 2 ^ 32)) * 512) by lia. by rewrite Z_mod_plus_full.
Qed.

(** The index ignores a wrap of the counter. *)
Lemma index_u32 x : index (u32 x) = index x.
Proof. unfold index, PIPESIZE. by rewrite u32_mod512. Qed.

Lemma index_lt x : (index x < Z.to_nat PIPESIZE)%nat.
Proof. unfold index, PIPESIZE. pose proof (Z.mod_pos_bound x 512). lia. Qed.

Lemma used_lt p : Z.of_nat (used p) = u32 (nwrite p - nread p).
Proof. unfold used. pose proof (u32_range (nwrite p - nread p)) as H. unfold in_u32 in H. lia. Qed.

Lemma full_spec p : pipe_ok p -> full p = (used p =? Z.to_nat PIPESIZE)%nat.
Proof.
  intros [_ Hr Hw Hu]. unfold full. pose proof (used_lt p) as He. unfold in_u32, PIPESIZE in *.
  destruct (Z.eqb_spec (nwrite p) (u32 (nread p + 512))) as [E|E]; symmetry; [apply Nat.eqb_eq | apply Nat.eqb_neq].
  - rewrite E in He. unfold u32 in He. rewrite Zminus_mod_idemp_l in He.
    replace (nread p + 512 - nread p) with 512 in He by lia. rewrite Z.mod_small in He by lia. lia.
  - intros Hn. apply E. rewrite Hn in He. unfold u32 in *.
    rewrite <- (Z.mod_small (nwrite p) (2 ^ 32)) by lia.
    replace (nwrite p) with (nread p + (nwrite p - nread p)) by lia.
    rewrite <- Zplus_mod_idemp_r, <- He. f_equal.
Qed.

Lemma empty_spec p : pipe_ok p -> empty p = (used p =? 0)%nat.
Proof.
  intros [_ Hr Hw Hu]. unfold empty. pose proof (used_lt p) as He. unfold in_u32 in *.
  destruct (Z.eqb_spec (nread p) (nwrite p)) as [E|E]; symmetry; [apply Nat.eqb_eq | apply Nat.eqb_neq].
  - rewrite E, Z.sub_diag in He. unfold u32 in He. rewrite Z.mod_0_l in He by lia. lia.
  - intros Hn. apply E. rewrite Hn in He. unfold u32 in He. symmetry in He.
    apply Z.mod_divide in He as [k Hk]; [|lia]. lia.
Qed.

Lemma used_put c p : pipe_ok p -> (used p < Z.to_nat PIPESIZE)%nat -> used (put_byte c p) = S (used p).
Proof.
  intros _ H. pose proof (used_lt p) as He. pose proof (used_lt (put_byte c p)) as He2. simpl in He2.
  unfold u32 in *. rewrite Zminus_mod_idemp_l in He2.
  replace (nwrite p + 1 - nread p) with ((nwrite p - nread p) + 1) in He2 by lia.
  rewrite <- Zplus_mod_idemp_l, <- He in He2. unfold PIPESIZE in H. rewrite Z.mod_small in He2 by lia. lia.
Qed.

Lemma used_take p : pipe_ok p -> (0 < used p)%nat -> S (used (take_byte p)) = used p.
Proof.
  intros [_ _ _ Hu] H. pose proof (used_lt p) as He. pose proof (used_lt (take_byte p)) as He2. simpl in He2.
  unfold u32 in *. rewrite Zminus_mod_idemp_r in He2.
  replace (nwrite p - (nread p + 1)) with ((nwrite p - nread p) + (-1)) in He2 by lia.
  rewrite <- Zplus_mod_idemp_l, <- He in He2. unfold PIPESIZE in Hu. rewrite Z.mod_small in He2 by lia. lia.
Qed.

(** Positions of the queue do not collide with the next free one. *)
Lemma index_nwrite p : pipe_ok p -> index (nwrite p) = index (nread p + Z.of_nat (used p)).
Proof.
  intros [_ Hr Hw Hu]. rewrite used_lt. unfold index, PIPESIZE. f_equal. unfold u32 in *.
  rewrite (Z.mod_eq (nwrite p - nread p) (2 ^ 32)) by lia.
  replace (nread p + (nwrite p - nread p - 2 ^ 32 * ((nwrite p - nread p) / 2 ^ 32)))
    with (nwrite p + (- (2 ^ 23) * ((nwrite p - nread p) / 2 ^ 32)) * 512) by lia.
  by rewrite Z_mod_plus_full.
Qed.

Lemma index_distinct x i j : (i < j)%nat -> (j - i < Z.to_nat PIPESIZE)%nat -> index (x + Z.of_nat i) <> index (x + Z.of_nat j).
Proof.
  unfold index, PIPESIZE. intros H1 H2 E. apply Z2Nat.inj in E; try (apply Z.mod_pos_bound; lia).
  assert (Hd : (Z.of_nat j - Z.of_nat i) mod 512 = 0).
  { replace (Z.of_nat j - Z.of_nat i) with (x + Z.of_nat j - (x + Z.of_nat i)) by lia.
    rewrite Zminus_mod, E, Z.sub_diag. done. }
  rewrite Z.mod_small in Hd by lia. lia.
Qed.

Lemma put_byte_ok c p : pipe_ok p -> full p = false -> pipe_ok (put_byte c p) /\ queue (put_byte c p) = queue p ++ [c].
Proof.
  intros Hok Hf. rewrite (full_spec p Hok) in Hf. apply Nat.eqb_neq in Hf. pose proof Hok as [Hd Hr Hw Hu].
  pose proof (used_lt p) as He. assert (Hlt : (used p < Z.to_nat PIPESIZE)%nat) by (unfold PIPESIZE in *; lia).
  pose proof (used_put c p Hok Hlt) as Hput. split.
  - split; simpl; try done; [by rewrite length_insert | apply u32_range|].
    change (Z.le (u32 (nwrite (put_byte c p) - nread (put_byte c p))) PIPESIZE).
    rewrite <- (used_lt (put_byte c p)), Hput. unfold PIPESIZE in *. lia.
  - unfold queue. rewrite Hput, seq_S, fmap_app. f_equal.
    + apply list_fmap_ext. intros k j Hj. apply lookup_seq in Hj as [-> Hk]. unfold byte_at. simpl.
      rewrite (index_nwrite p Hok). rewrite !nth_lookup, list_lookup_insert_ne; [done|].
      apply not_eq_sym, index_distinct; lia.
    + simpl. f_equal. unfold byte_at. simpl. rewrite <- (index_nwrite p Hok), nth_lookup, list_lookup_insert_eq; [done|].
      rewrite Hd. apply index_lt.
Qed.

Lemma take_byte_ok p : pipe_ok p -> empty p = false ->
  pipe_ok (take_byte p) /\ queue p = nth (index (nread p)) (pdata p) NUL :: queue (take_byte p).
Proof.
  intros Hok Hf. rewrite (empty_spec p Hok) in Hf. apply Nat.eqb_neq in Hf. pose proof Hok as [Hd Hr Hw Hu].
  pose proof (used_take p Hok ltac:(lia)) as Htake. split.
  - split; simpl; try done; [apply u32_range|]. change (Z.le (u32 (nwrite (take_byte p) - nread (take_byte p))) PIPESIZE).
    rewrite <- (used_lt (take_byte p)).
    pose proof (used_lt p). lia.
  - unfold queue. rewrite <- Htake. cbn [seq fmap list_fmap]. f_equal.
    + unfold byte_at. by rewrite Z.add_0_r.
    + rewrite <- seq_shift. rewrite <- list_fmap_compose. apply list_fmap_ext. intros k j _. unfold byte_at, compose. simpl.
      f_equal. unfold index. f_equal. unfold PIPESIZE.
      replace (nread p + Z.of_nat (S j)) with ((nread p + 1) + Z.of_nat j) by lia.
      by rewrite <- (Zplus_mod_idemp_l (nread p + 1)), <- (Zplus_mod_idemp_l (u32 (nread p + 1))), u32_mod512.
Qed.

Lemma length_queue p : length (queue p) = used p.
Proof. unfold queue. by rewrite length_fmap, length_seq. Qed.

Lemma queue_bound p : pipe_ok p -> (length (queue p) <= Z.to_nat PIPESIZE)%nat.
Proof. intros [_ _ _ Hu]. rewrite length_queue. pose proof (used_lt p). lia. Qed.

(** ** What a stretch of a call does to the queue *)
Definition same_ends (p p' : pipe) : Prop := readopen p' = readopen p /\ writeopen p' = writeopen p.

(** [pipewrite] stops early only because the reader is gone, the caller was
    killed, its memory is bad, or the pipe is full; in that last case it
    sleeps. *)
Definition write_end (killed : nat -> bool) (copyin : nat -> option ascii) (n i : nat) (p : pipe) (o : outcome) : Prop :=
  match o with
  | Sleep j => j = i /\ (i < n)%nat /\ length (queue p) = Z.to_nat PIPESIZE
  | Return r =>
      (r = Z.of_nat i /\ (n <= i)%nat) \/
      (r = -1 /\ (readopen p = false \/ killed i = true)) \/
      (copyin i = None /\ r = if (i =? 0)%nat then -1 else Z.of_nat i)
  end.

Lemma write_loop_spec killed copyin k : forall i p o bs p',
  pipe_ok p -> write_loop killed copyin k i p = (o, bs, p') ->
  pipe_ok p' /\ same_ends p p' /\ queue p' = queue p ++ bs /\ (length bs <= k)%nat /\
  (forall j b, bs !! j = Some b -> copyin (i + j)%nat = Some b) /\
  write_end killed copyin (i + k) (i + length bs) p' o.
Proof.
  induction k as [|k IH]; intros i p o bs p' Hok; simpl.
  { intros [= <- <- <-]. cbn [length]. rewrite app_nil_r, ?Nat.add_0_r. split_and!; try done. left. split; [done | lia]. }
  destruct (negb (readopen p) || killed i) eqn:E1.
  { intros [= <- <- <-]. cbn [length]. rewrite app_nil_r, ?Nat.add_0_r. split_and!; try done; try (simpl; lia).
    right; left. split; [done|]. apply orb_true_iff in E1 as [E1|E1]; [left; by apply negb_true_iff in E1 | by right]. }
  destruct (full p) eqn:E2.
  { intros [= <- <- <-]. cbn [length]. rewrite app_nil_r, ?Nat.add_0_r. split_and!; try done; try (simpl; lia). simpl.
    rewrite (full_spec p Hok) in E2. apply Nat.eqb_eq in E2. rewrite length_queue. split_and!; [done | lia | done]. }
  destruct (copyin i) as [ch|] eqn:E3.
  - destruct (write_loop _ _ k (S i) _) as [[o1 bs1] p1] eqn:E4. intros [= <- <- <-].
    destruct (put_byte_ok ch p Hok E2) as [Hok' Hq].
    destruct (IH _ _ _ _ _ Hok' E4) as (H1 & H2 & H3 & H4 & H5 & H6). split_and!; try done.
    + rewrite H3, Hq, <- app_assoc. done.
    + simpl. lia.
    + intros [|j] b Hb; simpl in Hb; simplify_eq; [by rewrite Nat.add_0_r|].
      rewrite <- (H5 j b Hb). f_equal. lia.
    + simpl length. by replace (i + S k)%nat with (S i + k)%nat by lia; replace (i + S (length bs1))%nat with (S i + length bs1)%nat by lia.
  - intros [= <- <- <-]. cbn [length]. rewrite app_nil_r, ?Nat.add_0_r. split_and!; try done; try (simpl; lia). right; right. done.
Qed.

Lemma read_loop_spec copyout k : forall i p r bs p',
  pipe_ok p -> read_loop copyout k i p = (r, bs, p') ->
  pipe_ok p' /\ same_ends p p' /\ queue p = bs ++ queue p' /\ (length bs <= k)%nat /\
  ((r = Z.of_nat (i + length bs) /\ (length bs = k \/ queue p' = [])) \/
   (copyout (i + length bs)%nat = false /\ r = if (i + length bs =? 0)%nat then -1 else Z.of_nat (i + length bs))).
Proof.
  induction k as [|k IH]; intros i p r bs p' Hok; simpl.
  { intros [= <- <- <-]. split_and!; try done. left. split; [simpl; f_equal; lia | by left]. }
  destruct (empty p) eqn:E1.
  { intros [= <- <- <-]. split_and!; try done; try (simpl; lia). left. split; [simpl; f_equal; lia|]. right.
    rewrite (empty_spec p Hok) in E1. apply Nat.eqb_eq in E1. apply nil_length_inv. by rewrite length_queue. }
  destruct (copyout i) eqn:E2.
  - destruct (read_loop _ k (S i) _) as [[r1 bs1] p1] eqn:E4. intros [= <- <- <-].
    destruct (take_byte_ok p Hok E1) as [Hok' Hq].
    destruct (IH _ _ _ _ _ Hok' E4) as (H1 & H2 & H3 & H4 & H5). split_and!; try done.
    + rewrite Hq, H3. done.
    + simpl. lia.
    + simpl length. replace (i + S (length bs1))%nat with (S i + length bs1)%nat by lia.
      destruct H5 as [[H5 [H6|H6]]|H5]; [left; split; [done | left; lia] | left; split; [done | by right] | by right].
  - intros [= <- <- <-]. split_and!; try done; try (simpl; lia). right. simpl. rewrite Nat.add_0_r. done.
Qed.

Lemma pipewrite_spec killed copyin n i p o bs p' :
  pipe_ok p -> pipewrite killed copyin n i p = (o, bs, p') -> (i <= Z.to_nat n)%nat ->
  pipe_ok p' /\ same_ends p p' /\ queue p' = queue p ++ bs /\
  (forall j b, bs !! j = Some b -> copyin (i + j)%nat = Some b) /\
  write_end killed copyin (Z.to_nat n) (i + length bs) p' o.
Proof.
  intros Hok E Hi. destruct (write_loop_spec _ _ _ _ _ _ _ _ Hok E) as (H1 & H2 & H3 & _ & H5 & H6).
  replace (i + (Z.to_nat n - i))%nat with (Z.to_nat n) in H6 by lia. done.
Qed.

(** [piperead] sleeps only while the pipe is empty and has a writer, so that
    a result of 0 means the end of the data; otherwise it takes as much as it
    can from the front of the queue. *)
Definition read_end (killed copyout : nat -> bool) (n : Z) (bs : list ascii) (p p' : pipe) (o : outcome) : Prop :=
  if bool_decide (queue p = []) && writeopen p then bs = [] /\ p' = p /\ o = if killed 0%nat then Return (-1) else Sleep 0
  else
    (o = Return (Z.of_nat (length bs)) /\ length bs = (Z.to_nat n `min` length (queue p))%nat) \/
    (copyout (length bs) = false /\ o = Return (if (length bs =? 0)%nat then -1 else Z.of_nat (length bs))).

Lemma empty_queue p : pipe_ok p -> empty p = bool_decide (queue p = []).
Proof.
  intros Hok. rewrite (empty_spec p Hok), <- length_queue. destruct (queue p); [by rewrite bool_decide_true|].
  by rewrite bool_decide_false.
Qed.

Lemma piperead_spec killed copyout n p o bs p' :
  pipe_ok p -> piperead killed copyout n p = (o, bs, p') ->
  pipe_ok p' /\ same_ends p p' /\ queue p = bs ++ queue p' /\ read_end killed copyout n bs p p' o.
Proof.
  unfold piperead, read_end. intros Hok. rewrite <- (empty_queue p Hok). destruct (empty p && writeopen p) eqn:E.
  - intros [= <- <- <-]. done.
  - destruct (read_loop copyout (Z.to_nat n) 0 p) as [[r bs1] p1] eqn:E1. intros [= <- <- <-].
    destruct (read_loop_spec _ _ _ _ _ _ _ Hok E1) as (H1 & H2 & H3 & H4 & H5). split_and!; try done; try apply H2.
    rewrite H3, length_app. destruct H5 as [[-> [H5|H5]]|[H5 ->]]; [left.. | by right].
    + split; [done|]. lia.
    + rewrite H5. simpl. split; [done | lia].
Qed.

(** ** A life of a pipe

    The calls of all the processes that hold its ends, cut into stretches and
    interleaved in any order. *)
Inductive pevent :=
  | EWrite (killed : nat -> bool) (copyin : nat -> option ascii) (n : Z) (i : nat)
  | ERead (killed copyout : nat -> bool) (n : Z)
  | EClose (writable : bool).

(** The bytes an event accepts and those it delivers. *)
Definition pstep (e : pevent) (p : pipe) : list ascii * list ascii * pipe :=
  match e with
  | EWrite killed copyin n i => let '(_, bs, p') := pipewrite killed copyin n i p in (bs, [], p')
  | ERead killed copyout n => let '(_, bs, p') := piperead killed copyout n p in ([], bs, p')
  | EClose w => ([], [], (pipeclose w p).1)
  end.

Fixpoint prun (es : list pevent) (p : pipe) : list ascii * list ascii * pipe :=
  match es with
  | [] => ([], [], p)
  | e :: es' =>
      let '(w, r, p1) := pstep e p in
      let '(ws, rs, p2) := prun es' p1 in (w ++ ws, r ++ rs, p2)
  end.

Lemma pstep_ok e p w r p' :
  pipe_ok p -> pstep e p = (w, r, p') -> pipe_ok p' /\ queue p ++ w = r ++ queue p'.
Proof.
  intros Hok. destruct e as [killed copyin n i|killed copyout n|wr]; simpl.
  - destruct (pipewrite _ _ n i p) as [[o bs] p1] eqn:E. intros [= <- <- <-].
    destruct (write_loop_spec _ _ _ _ _ _ _ _ Hok E) as (H1 & _ & H3 & _). done.
  - destruct (piperead _ _ n p) as [[o bs] p1] eqn:E. intros [= <- <- <-].
    destruct (piperead_spec _ _ _ _ _ _ _ Hok E) as (H1 & _ & H3 & _). by rewrite app_nil_r.
  - intros [= <- <- <-]. rewrite app_nil_r. destruct Hok, wr; split; done.
Qed.

Lemma prun_ok es : forall p ws rs p',
  pipe_ok p -> prun es p = (ws, rs, p') -> pipe_ok p' /\ queue p ++ ws = rs ++ queue p'.
Proof.
  induction es as [|e es IH]; intros p ws rs p' Hok; simpl.
  { intros [= <- <- <-]. by rewrite app_nil_r. }
  destruct (pstep e p) as [[w r] p1] eqn:E1. destruct (prun es p1) as [[ws1 rs1] p2] eqn:E2. intros [= <- <- <-].
  destruct (pstep_ok _ _ _ _ _ Hok E1) as [H1 H2]. destruct (IH _ _ _ _ H1 E2) as [H3 H4]. split; [done|].
  by rewrite app_assoc, H2, <- !app_assoc, H4.
Qed.

Lemma pipealloc_ok junk : length junk = Z.to_nat PIPESIZE -> pipe_ok (pipealloc junk).
Proof. intros H. split; simpl; [done | unfold in_u32; lia.. |]. by vm_compute. Qed.

(** C7: a pipe is a first-in first-out queue of at most 512 bytes, whatever
    the interleaving of the reads, writes and closes of the processes that
    hold its ends, and although its 32-bit counters wrap: the bytes held
    before and accepted since are, in order, the bytes delivered followed by
    those still held.  In every state so reached, a write appends the next
    bytes of its caller's memory and stops early only for a closed reader, a
    kill, a bad address or a full pipe; a read takes what it can from the
    front and sleeps exactly when the pipe is empty and has a writer. *)
Theorem pipe_fifo es p0 ws rs p :
  pipe_ok p0 -> prun es p0 = (ws, rs, p) ->
  queue p0 ++ ws = rs ++ queue p /\ (length (queue p) <= Z.to_nat PIPESIZE)%nat /\
  (forall killed copyin n i o bs p', pipewrite killed copyin n i p = (o, bs, p') -> (i <= Z.to_nat n)%nat ->
     queue p' = queue p ++ bs /\ same_ends p p' /\
     (forall j b, bs !! j = Some b -> copyin (i + j)%nat = Some b) /\
     write_end killed copyin (Z.to_nat n) (i + length bs) p' o) /\
  (forall killed copyout n o bs p', piperead killed copyout n p = (o, bs, p') ->
     queue p = bs ++ queue p' /\ same_ends p p' /\ read_end killed copyout n bs p p' o).
Proof.
  intros Hok E. destruct (prun_ok _ _ _ _ _ Hok E) as [Hp Hq].
  split_and!; [done | by apply queue_bound | |].
  - intros killed copyin n i o bs p' Ew Hi.
    destruct (pipewrite_spec _ _ _ _ _ _ _ _ Hp Ew Hi) as (_ & H2 & H3 & H4 & H5). done.
  - intros killed copyout n o bs p' Er. destruct (piperead_spec _ _ _ _ _ _ _ Hp Er) as (_ & H2 & H3 & H4). done.
Qed.

(** Two bytes are held and the write counter is about to wrap. *)
Definition near_wrap : pipe :=
  mkPipe (replicate 510 NUL ++ ["a"%char; "b"%char]) (2 ^ 32 - 2) 0 true true.

Definition hello : list ascii := str "hello".

Definition never (_ : nat) : bool := false.
Definition fine (_ : nat) : bool := true.

Definition demo : list pevent := [EWrite never (fun j => hello !! j) 5 0; ERead never fine 4; EClose true].

Lemma pipe_fifo_witness :
  let '(ws, rs, p) := prun demo near_wrap in
  queue near_wrap ++ ws = rs ++ queue p /\ rs = str "abhe" /\ queue p = str "llo" /\ nread p = 2 /\
  snd (fst (piperead never fine 100 p)) = str "llo".
Proof.
  destruct (prun demo near_wrap) as [[ws rs] p] eqn:E.
  assert (Hok : pipe_ok near_wrap).
  { split; [by vm_compute | unfold in_u32; simpl; lia.. | by vm_compute]. }
  destruct (pipe_fifo _ near_wrap ws rs p Hok E) as [H _]. split; [exact H|].
  clear H Hok. vm_compute in E. injection E as <- <- <-. split_and!; by vm_compute.
Defined.
