(* ===== verification/KString.v ===== *)
(** * Memory and strings of the kernel (xv6/kernel/string.c)

    The copies work on one memory, a list of bytes, with addresses as
    offsets, because source and destination may overlap.  The functions on
    strings only read or only write one of their arguments. *)
From S2P Require Import Prelude.
Local Open Scope nat_scope.
Local Open Scope c_scope.

(** ** Copies *)
Definition load (m : list ascii) (a : nat) : ascii := nth a m NUL.

(** [for (i = 0; i < n; i++) cdst[i] = c;] *)
Fixpoint memset (dst n : nat) (c : ascii) (m : list ascii) : list ascii :=
  match n with O => m | S n' => memset (S dst) n' c (<[dst := c]> m) end.

(** [while (n-- > 0) *d++ = *s++;] *)
Fixpoint forward (n s d : nat) (m : list ascii) : list ascii :=
  match n with O => m | S n' => forward n' (S s) (S d) (<[d := load m s]> m) end.

(** [while (n-- > 0) *--d = *--s;], from [s + n] and [d + n] down. *)
Fixpoint backward (n s d : nat) (m : list ascii) : list ascii :=
  match n with O => m | S n' => backward n' s d (<[d + n' := load m (s + n')]> m) end.

Definition memmove (dst src n : nat) (m : list ascii) : list ascii :=
  if n =? 0 then m
  else if (src <? dst) && (dst <? src + n) then backward n src dst m else forward n src dst m.

Definition memcpy (dst src n : nat) (m : list ascii) : list ascii := memmove dst src n m.

(** The result of [memcmp]: the difference of the first bytes that differ. *)
Fixpoint memcmp (n s1 s2 : nat) (m : list ascii) : Z :=
  match n with
  | O => 0
  | S n' => if load m s1 =c load m s2 then memcmp n' (S s1) (S s2) m else code (load m s1) - code (load m s2)
  end.

(** ** Strings *)
Fixpoint strncmp (n : nat) (p q : cstr) : Z :=
  match n with
  | O => 0
  | S n' =>
      let a := char_at p 0 in
      let b := char_at q 0 in
      if negb (a =c NUL) && (a =c b) then strncmp n' (tail p) (tail q) else code a - code b
  end.

(** The [n] bytes [strncpy] writes. *)
Fixpoint strncpy (n : nat) (t : cstr) : list ascii :=
  match n with
  | O => []
  | S n' => if char_at t 0 =c NUL then replicate n NUL else char_at t 0 :: strncpy n' (tail t)
  end.

(** The bytes [safestrcpy] writes. *)
Fixpoint safestrcpy (n : nat) (t : cstr) : list ascii :=
  match n with
  | O => []
  | S n' =>
      match n' with
      | O => [NUL]
      | _ => if char_at t 0 =c NUL then [NUL; NUL] else char_at t 0 :: safestrcpy n' (tail t)
      end
  end.

(** The index of the first NUL. *)
Fixpoint strlen (s : list ascii) : nat :=
  match s with [] => 0 | c :: s' => if c =c NUL then 0 else S (strlen s') end.

(** ** A copy is a copy of what the source held *)
Lemma load_lookup m a : a < length m -> m !! a = Some (load m a).
Proof.
  intros H. unfold load. destruct (lookup_lt_is_Some_2 m a H) as [c Hc]. by rewrite nth_lookup, Hc.
Qed.

Lemma insert_lookup (m : list ascii) d c i : d < length m -> <[d := c]> m !! i = if i =? d then Some c else m !! i.
Proof.
  intros H. destruct (Nat.eqb_spec i d) as [->|Hne]; [by rewrite list_lookup_insert_eq | by rewrite list_lookup_insert_ne].
Qed.

(** Byte [i] after [n] bytes were copied from [s] to [d]. *)
Definition copied (n s d : nat) (m : list ascii) (i : nat) : option ascii :=
  if (d <=? i) && (i <? d + n) then m !! (i - d + s) else m !! i.

Lemma forward_lookup n : forall s d m, s + n <= length m -> d + n <= length m -> d <= s \/ s + n <= d ->
  forall i, forward n s d m !! i = copied n s d m i.
Proof.
  unfold copied. induction n as [|n IH]; intros s d m Hs Hd Hov i; cbn [forward].
  { destruct (Nat.leb_spec d i), (Nat.ltb_spec i (d + 0)); (done || lia). }
  assert (Hl : length (<[d := load m s]> m) = length m) by apply length_insert.
  rewrite IH by (rewrite ?Hl; lia). rewrite !insert_lookup by lia.
  destruct (Nat.leb_spec (S d) i), (Nat.ltb_spec i (S d + n)), (Nat.leb_spec d i), (Nat.ltb_spec i (d + S n)); simpl; try lia;
    destruct (Nat.eqb_spec i d), (Nat.eqb_spec (i - S d + S s) d); try lia; subst; try done;
    try (f_equal; lia); rewrite Nat.sub_diag; symmetry; apply load_lookup; lia.
Qed.

Lemma backward_lookup n : forall s d m, s + n <= length m -> d + n <= length m -> s < d ->
  forall i, backward n s d m !! i = copied n s d m i.
Proof.
  unfold copied. induction n as [|n IH]; intros s d m Hs Hd Hov i; cbn [backward].
  { destruct (Nat.leb_spec d i), (Nat.ltb_spec i (d + 0)); (done || lia). }
  assert (Hl : length (<[d + n := load m (s + n)]> m) = length m) by apply length_insert.
  rewrite IH by (rewrite ?Hl; lia). rewrite !insert_lookup by lia.
  destruct (Nat.leb_spec d i), (Nat.ltb_spec i (d + n)), (Nat.ltb_spec i (d + S n)); simpl; try lia;
    destruct (Nat.eqb_spec i (d + n)), (Nat.eqb_spec (i - d + s) (d + n)); try lia; subst; try done.
  replace (d + n - d + s) with (s + n) by lia. symmetry. apply load_lookup. lia.
Qed.

Lemma copied_splice n s d m i : s + n <= length m -> d + n <= length m ->
  copied n s d m i = splice d (bytes_at s n m) m !! i.
Proof.
  intros Hs Hd. pose proof (length_bytes_at s n m Hs) as Hl. rewrite splice_lookup by lia. rewrite Hl. unfold copied.
  destruct (Nat.leb_spec d i), (Nat.ltb_spec i (d + n)); simpl; try done. rewrite bytes_at_lookup.
  destruct (Nat.ltb_spec (i - d) n); [f_equal; lia | lia].
Qed.

(** [memmove] copies correctly whatever the overlap of its arguments: the
    destination receives the bytes the source held before the call, and no
    other byte of the memory changes. *)
Theorem memmove_copies dst src n m :
  src + n <= length m -> dst + n <= length m ->
  memmove dst src n m = splice dst (bytes_at src n m) m.
Proof.
  intros Hs Hd. apply list_eq. intros i. rewrite <- copied_splice by done. unfold memmove.
  destruct (Nat.eqb_spec n 0) as [->|Hn].
  - unfold copied. destruct (Nat.leb_spec dst i), (Nat.ltb_spec i (dst + 0)); (done || lia).
  - destruct (Nat.ltb_spec src dst), (Nat.ltb_spec dst (src + n)); simpl.
    + by apply backward_lookup.
    + apply forward_lookup; lia.
    + apply forward_lookup; lia.
    + apply forward_lookup; lia.
Qed.

(** Both overlaps. *)
Lemma memmove_copies_witness :
  memmove 2 0 4 (str "abcdefgh") = str "ababcdgh" /\ memmove 0 2 4 (str "abcdefgh") = str "cdefefgh".
Proof.
  split.
  - rewrite (memmove_copies 2 0 4 (str "abcdefgh")); [by vm_compute | simpl; lia | simpl; lia].
  - rewrite (memmove_copies 0 2 4 (str "abcdefgh")); [by vm_compute | simpl; lia | simpl; lia].
Defined.

Lemma memset_splice n c : forall dst m, dst + n <= length m -> memset dst n c m = splice dst (replicate n c) m.
Proof.
  induction n as [|n IH]; intros dst m H; cbn [memset].
  { unfold splice. simpl. by rewrite Nat.add_0_r, take_drop. }
  rewrite IH by (rewrite length_insert; lia). apply list_eq. intros i.
  rewrite !splice_lookup by (rewrite ?length_insert, length_replicate; lia). rewrite !length_replicate, insert_lookup by lia.
  destruct (Nat.leb_spec (S dst) i), (Nat.ltb_spec i (S dst + n)), (Nat.leb_spec dst i), (Nat.ltb_spec i (dst + S n)); cbn [andb]; try lia;
    destruct (Nat.eqb_spec i dst); try lia; try done; by rewrite !lookup_replicate_2 by lia.
Qed.

(** ** Strings *)
Definition no_nul (s : cstr) : Prop := NUL ∉ s.

Lemma strncpy_spec n : forall t, no_nul t -> strncpy n t = take n (t ++ replicate n NUL).
Proof.
  induction n as [|n IH]; intros t Ht; [done|]. destruct t as [|c t]; cbn [strncpy char_at nth].
  - rewrite ceq_refl. simpl. by rewrite take_ge by (simpl; rewrite length_replicate; lia).
  - unfold no_nul in *. rewrite not_elem_of_cons in Ht. destruct Ht as [Hc Ht]. rewrite ceq_neq by congruence.
    cbn [tail app take]. f_equal. rewrite IH by done. apply list_eq. intros i.
    destruct (Nat.lt_ge_cases i n) as [Hi|Hi]; [|by rewrite !lookup_take_ge]. rewrite !lookup_take_lt by done.
    destruct (Nat.lt_ge_cases i (length t)); [by rewrite !lookup_app_l|]. rewrite !lookup_app_r by done.
    by rewrite !lookup_replicate_2 by lia.
Qed.

Lemma length_strncpy n : forall t, length (strncpy n t) = n.
Proof.
  induction n as [|n IH]; intros t; [done|]. cbn [strncpy]. destruct (_ =c NUL); [apply length_replicate|]. simpl. by rewrite IH.
Qed.

(** Two names are equal for [strncmp] when they agree up to the first NUL or
    the bound. *)
Lemma strncmp_zero n : forall p q, strncmp n p q = 0%Z <->
  forall i, i < n -> (forall j, j < i -> char_at p j <> NUL) -> char_at p i = char_at q i.
Proof.
  induction n as [|n IH]; intros p q; cbn [strncmp]; [split; [lia | done]|].
  assert (Ht : forall s i, char_at (tail s) i = char_at s (S i)) by (intros [|c s] i; [by destruct i | done]).
  destruct (ceq_spec (char_at p 0) NUL) as [E0|E0]; cbn [negb andb].
  - split.
    + intros E i Hi Hj. destruct i as [|i]; [|by destruct (Hj 0); [lia|]].
      apply code_inj. lia.
    + intros H. rewrite (H 0) by lia. lia.
  - destruct (ceq_spec (char_at p 0) (char_at q 0)) as [E1|E1].
    + rewrite IH. setoid_rewrite Ht. split.
      * intros H [|i] Hi Hj; [done|]. apply H; [lia|]. intros j Hjj. apply (Hj (S j)). lia.
      * intros H i Hi Hj. apply H; [lia|]. intros [|j] Hjj; [done|]. apply Hj. lia.
    + split; [|intros H; destruct E1; apply H; lia]. intros E. destruct E1. apply code_inj. lia.
Qed.
