(* ===== verification/Disk.v ===== *)
(** * Blocks and the integers stored in them (xv6/kernel/fs.h, buf.h)

    The file system sees the disk as blocks of 1024 bytes.  The processor is
    little-endian, so a [uint] read through a cast pointer takes four bytes,
    a [short] two.  The blocks are those the log presents: [put] is the pair
    of an update of the buffer and [log_write]. *)
From S2P Require Import Prelude.
Local Open Scope Z_scope.

Definition BSIZE : Z := 1024.
Abbreviation byteblock := (list ascii).
Abbreviation disk := (gmap Z (list ascii)).

Definition zeroes : byteblock := replicate (Z.to_nat BSIZE) NUL.
Definition get (d : disk) (b : Z) : byteblock := default zeroes (d !! b).
Definition put (b : Z) (x : byteblock) (d : disk) : disk := <[b := x]> d.

Lemma get_store b x d c : get (put b x d) c = if c =? b then x else get d c.
Proof.
  unfold get, put. destruct (Z.eqb_spec c b) as [->|H]; [by rewrite lookup_insert_eq | by rewrite lookup_insert_ne].
Qed.

(** Every block has its size. *)
Definition sized (d : disk) : Prop := forall b, length (get d b) = Z.to_nat BSIZE.

Lemma sized_put b x d : sized d -> length x = Z.to_nat BSIZE -> sized (put b x d).
Proof. intros H Hx c. rewrite get_store. by destruct (c =? b). Qed.

(** ** Bytes *)

(** Conversion to [uchar]. *)
Definition chr (z : Z) : ascii := ascii_of_N (Z.to_N (u8 z)).

Lemma code_chr z : code (chr z) = u8 z.
Proof.
  unfold code, chr. pose proof (Z.mod_pos_bound z (2 ^ 8) ltac:(lia)) as H. fold (u8 z) in H.
  rewrite N_ascii_embedding; lia.
Qed.

Lemma chr_code c : chr (code c) = c.
Proof.
  unfold chr. pose proof (code_range c) as H. unfold u8. rewrite Z.mod_small by lia. unfold code.
  by rewrite N2Z.id, ascii_N_embedding.
Qed.

(** ** Little-endian integers *)

(** The integer of a run of bytes, and the [n] bytes of an integer. *)
Fixpoint le (bs : list ascii) : Z :=
  match bs with [] => 0 | b :: bs' => code b + 256 * le bs' end.
Fixpoint unle (n : nat) (z : Z) : list ascii :=
  match n with O => [] | S n' => chr z :: unle n' (z / 256) end.

Lemma length_unle n : forall z, length (unle n z) = n.
Proof. induction n as [|n IH]; intros z; simpl; [done | by rewrite IH]. Qed.

Lemma le_unle n : forall z, le (unle n z) = z mod 256 ^ Z.of_nat n.
Proof.
  induction n as [|n IH]; intros z; [simpl; by rewrite Z.mod_1_r|].
  cbn [unle le]. rewrite IH, code_chr. unfold u8. rewrite Nat2Z.inj_succ, Z.pow_succ_r by lia.
  rewrite Z.rem_mul_r by lia. done.
Qed.

Lemma le_range bs : 0 <= le bs < 256 ^ Z.of_nat (length bs).
Proof.
  induction bs as [|b bs IH]; cbn [le length]; [simpl; lia|]. pose proof (code_range b).
  rewrite Nat2Z.inj_succ, Z.pow_succ_r by lia. lia.
Qed.

Lemma unle_le bs : unle (length bs) (le bs) = bs.
Proof.
  induction bs as [|b bs IH]; [done|]. cbn [le unle length]. pose proof (code_range b). f_equal.
  - rewrite <- (chr_code b) at 2. unfold chr. do 2 f_equal. unfold u8. change (2 ^ 8) with 256.
    rewrite Z.mul_comm, Z_mod_plus_full. done.
  - rewrite Z.mul_comm, Z.div_add by lia. rewrite Z.div_small by lia. simpl. exact IH.
Qed.

(** [((uint * )data)[i]], read and written. *)
Definition get_u32 (i : Z) (x : byteblock) : Z := le (bytes_at (Z.to_nat (4 * i)) 4 x).
Definition put_u32 (i v : Z) (x : byteblock) : byteblock := splice (Z.to_nat (4 * i)) (unle 4 v) x.

Section Words.
Context (i : Z) (x : byteblock) (Hx : length x = Z.to_nat BSIZE) (Hi : 0 <= i < 256).

Lemma length_put_u32 v : length (put_u32 i v x) = Z.to_nat BSIZE.
Proof. unfold put_u32. rewrite length_splice; [done|]. rewrite length_unle. unfold BSIZE in *. lia. Qed.

Lemma get_put_u32 v j : 0 <= j < 256 -> in_u32 v -> get_u32 j (put_u32 i v x) = if j =? i then v else get_u32 j x.
Proof.
  intros Hj Hv. unfold get_u32, put_u32. destruct (Z.eqb_spec j i) as [->|Hne].
  - rewrite <- (length_unle 4 v) at 1. rewrite bytes_at_splice_same by (rewrite length_unle; unfold BSIZE in *; lia).
    rewrite le_unle. by apply Z.mod_small.
  - rewrite bytes_at_splice_other; [done | rewrite length_unle; unfold BSIZE in *; lia..].
Qed.
End Words.

Lemma get_u32_range i x : length x = Z.to_nat BSIZE -> 0 <= i < 256 -> in_u32 (get_u32 i x).
Proof.
  intros Hx Hi. unfold get_u32, in_u32. pose proof (le_range (bytes_at (Z.to_nat (4 * i)) 4 x)) as H.
  rewrite length_bytes_at in H by (unfold BSIZE in *; lia). exact H.
Qed.

Lemma bytes_at_zeroes o n : (o + n <= Z.to_nat BSIZE)%nat -> bytes_at o n zeroes = replicate n NUL.
Proof.
  intros H. unfold bytes_at, zeroes. rewrite drop_replicate, take_replicate. f_equal. lia.
Qed.

Lemma get_u32_zeroes i : 0 <= i < 256 -> get_u32 i zeroes = 0.
Proof. intros Hi. unfold get_u32. rewrite bytes_at_zeroes by (unfold BSIZE; lia). done. Qed.
