(* ===== verification/Balloc.v ===== *)
(** * Allocation of disk blocks (xv6/kernel/fs.c, [balloc], [bfree])

    The free map holds one bit per block of the file system; the blocks
    before the data area (boot, super block, log, inodes, map) are marked in
    use when the file system is made. *)
From S2P Require Import Prelude Disk.
Local Open Scope Z_scope.

Record superblock := mkSuper {
  magic : Z;
  size : Z;
  nblocks : Z;
  ninodes : Z;
  nlog : Z;
  logstart : Z;
  inodestart : Z;
  bmapstart : Z
}.

Definition BPB : Z := BSIZE * 8.

(** [readsb]: the super block is eight words at the start of block 1. *)
Definition readsb (d : disk) : superblock :=
  let x := get d 1 in
  mkSuper (get_u32 0 x) (get_u32 1 x) (get_u32 2 x) (get_u32 3 x) (get_u32 4 x) (get_u32 5 x) (get_u32 6 x) (get_u32 7 x).

(** ** Bits of a block of the map *)
Definition mask (bi : Z) : Z := Z.shiftl 1 (bi mod 8).
Definition map_byte (bi : Z) (x : byteblock) : Z := code (nth (Z.to_nat (bi / 8)) x NUL).
Definition bit_free (bi : Z) (x : byteblock) : bool := Z.land (map_byte bi x) (mask bi) =? 0.
Definition bit_set (bi : Z) (x : byteblock) : byteblock :=
  <[Z.to_nat (bi / 8) := chr (Z.lor (map_byte bi x) (mask bi))]> x.
Definition bit_clear (bi : Z) (x : byteblock) : byteblock :=
  <[Z.to_nat (bi / 8) := chr (Z.land (map_byte bi x) (Z.lnot (mask bi)))]> x.

Section Allocator.
Context (sb : superblock).

Definition BBLOCK (b : Z) : Z := b / BPB + bmapstart sb.

Definition bzero (bno : Z) (d : disk) : disk := put bno zeroes d.

(** The inner loop of [balloc], from bit [bi] of the block of the map for
    blocks [b] and up; [k] bits of it are left. *)
Fixpoint bit_loop (k : nat) (b bi : Z) (x : byteblock) : option Z :=
  match k with
  | O => None
  | S k' =>
      if b + bi <? size sb then
        if bit_free bi x then Some bi else bit_loop k' b (bi + 1) x
      else None
  end.

Fixpoint balloc_loop (fuel : nat) (b : Z) (d : disk) : Z * disk :=
  match fuel with
  | O => (0, d)
  | S fuel' =>
      if b <? size sb then
        match bit_loop (Z.to_nat BPB) b 0 (get d (BBLOCK b)) with
        | Some bi => (b + bi, bzero (b + bi) (put (BBLOCK b) (bit_set bi (get d (BBLOCK b))) d))
        | None => balloc_loop fuel' (b + BPB) d
        end
      else (0, d)
  end.

Definition balloc (d : disk) : Z * disk := balloc_loop (S (Z.to_nat (size sb / BPB))) 0 d.

(** [None] is the panic "freeing free block". *)
Definition bfree (b : Z) (d : disk) : option disk :=
  let x := get d (BBLOCK b) in
  if bit_free (b mod BPB) x then None else Some (put (BBLOCK b) (bit_clear (b mod BPB) x) d).

(** ** The map as a set *)
Definition used (d : disk) (b : Z) : bool := negb (bit_free (b mod BPB) (get d (BBLOCK b))).

(** The first block after the map. *)
Definition datastart : Z := bmapstart sb + (size sb - 1) / BPB + 1.
Definition data (b : Z) : Prop := datastart <= b < size sb.
Definition is_map (b : Z) : Prop := bmapstart sb <= b < datastart.

Record layout_ok : Prop := mkLayout {
  lay_size : 0 < size sb < 2 ^ 31;
  lay_inodes : 1 < inodestart sb;
  lay_order : inodestart sb + (ninodes sb) / 16 < bmapstart sb;
  lay_ninodes : 0 < ninodes sb < 2 ^ 16
}.

(** The blocks of the metadata are in use. *)
Definition meta_used (d : disk) : Prop := forall b, 0 <= b < datastart -> b < size sb -> used d b = true.

Context (Hlay : layout_ok).

Lemma land_bit a k : 0 <= k -> (Z.land a (Z.shiftl 1 k) =? 0) = negb (Z.testbit a k).
Proof.
  intros Hk. rewrite Z.shiftl_1_l. destruct (Z.eqb_spec (Z.land a (2 ^ k)) 0) as [E|E]; symmetry.
  - apply negb_true_iff. apply (f_equal (fun z => Z.testbit z k)) in E.
    by rewrite Z.land_spec, Z.pow2_bits_true, Z.bits_0, andb_true_r in E.
  - apply negb_false_iff. destruct (Z.testbit a k) eqn:Ha; [done|]. exfalso. apply E. apply Z.bits_inj'. intros n Hn.
    rewrite Z.land_spec, Z.pow2_bits_eqb, Z.bits_0 by done. destruct (Z.eqb_spec k n) as [->|Hne]; [by rewrite Ha|].
    apply andb_false_r.
Qed.

Lemma mask_bit bi k : 0 <= k -> Z.testbit (mask bi) k = (bi mod 8 =? k).
Proof.
  intros Hk. unfold mask. rewrite Z.shiftl_1_l. apply Z.pow2_bits_eqb. pose proof (Z.mod_pos_bound bi 8). lia.
Qed.

Lemma u8_bit z k : 0 <= k < 8 -> Z.testbit (u8 z) k = Z.testbit z k.
Proof. intros Hk. unfold u8. rewrite Z.mod_pow2_bits_low by lia. done. Qed.

Lemma bit_free_spec bi x : bit_free bi x = negb (Z.testbit (map_byte bi x) (bi mod 8)).
Proof. unfold bit_free, mask. apply land_bit. pose proof (Z.mod_pos_bound bi 8). lia. Qed.

Lemma map_byte_insert x n bi bj c :
  length x = Z.to_nat BSIZE -> n = Z.to_nat (bi / 8) -> 0 <= bi < BPB -> 0 <= bj < BPB ->
  map_byte bj (<[n := c]> x) = if bi / 8 =? bj / 8 then code c else map_byte bj x.
Proof.
  intros Hx -> Hi Hj. unfold map_byte. unfold BPB, BSIZE in *.
  pose proof (Z.div_pos bi 8 ltac:(lia) ltac:(lia)). pose proof (Z.div_pos bj 8 ltac:(lia) ltac:(lia)).
  pose proof (Z.div_lt_upper_bound bi 8 1024 ltac:(lia) ltac:(lia)).
  rewrite !nth_lookup. destruct (Z.eqb_spec (bi / 8) (bj / 8)) as [E|Hne].
  - rewrite <- E. by rewrite list_lookup_insert_eq by lia.
  - by rewrite list_lookup_insert_ne by lia.
Qed.

Lemma same_bit bi bj : (bi / 8 = bj / 8 /\ bi mod 8 = bj mod 8) <-> bi = bj.
Proof. split; [|by intros ->]. intros [H1 H2]. rewrite (Z.div_mod bi 8), (Z.div_mod bj 8) by lia. lia. Qed.

(** Both updates change one bit. *)
Lemma bit_set_spec bi bj x : length x = Z.to_nat BSIZE -> 0 <= bi < BPB -> 0 <= bj < BPB ->
  bit_free bj (bit_set bi x) = bit_free bj x && negb (bi =? bj).
Proof.
  intros Hx Hi Hj. rewrite !bit_free_spec. unfold bit_set. rewrite (map_byte_insert x _ bi bj _ Hx eq_refl Hi Hj).
  pose proof (Z.mod_pos_bound bj 8 ltac:(lia)). pose proof (same_bit bi bj) as Hs.
  destruct (Z.eqb_spec (bi / 8) (bj / 8)) as [E|E].
  - rewrite code_chr, u8_bit, Z.lor_spec, mask_bit by lia. unfold map_byte. rewrite E. rewrite negb_orb. f_equal.
    destruct (Z.eqb_spec (bi mod 8) (bj mod 8)); destruct (Z.eqb_spec bi bj); tauto.
  - destruct (Z.eqb_spec bi bj) as [->|]; [done|]. by rewrite andb_true_r.
Qed.

Lemma bit_clear_spec bi bj x : length x = Z.to_nat BSIZE -> 0 <= bi < BPB -> 0 <= bj < BPB ->
  bit_free bj (bit_clear bi x) = bit_free bj x || (bi =? bj).
Proof.
  intros Hx Hi Hj. rewrite !bit_free_spec. unfold bit_clear. rewrite (map_byte_insert x _ bi bj _ Hx eq_refl Hi Hj).
  pose proof (Z.mod_pos_bound bj 8 ltac:(lia)). pose proof (same_bit bi bj) as Hs.
  destruct (Z.eqb_spec (bi / 8) (bj / 8)) as [E|E].
  - rewrite code_chr, u8_bit, Z.land_spec, Z.lnot_spec, mask_bit by lia. unfold map_byte. rewrite E.
    rewrite negb_andb, negb_involutive. f_equal.
    destruct (Z.eqb_spec (bi mod 8) (bj mod 8)); destruct (Z.eqb_spec bi bj); tauto.
  - destruct (Z.eqb_spec bi bj) as [->|]; [done|]. by rewrite orb_false_r.
Qed.

(** ** The map seen as a set of blocks *)
Lemma BBLOCK_map b : 0 <= b < size sb -> is_map (BBLOCK b).
Proof.
  intros Hb. unfold is_map, datastart, BBLOCK. pose proof (Z.div_pos b BPB ltac:(lia) ltac:(done)).
  pose proof (Z.div_le_mono b (size sb - 1) BPB ltac:(done) ltac:(lia)). lia.
Qed.

Lemma same_block b c : 0 <= b -> 0 <= c -> BBLOCK b = BBLOCK c -> b mod BPB = c mod BPB -> b = c.
Proof.
  unfold BBLOCK. intros Hb Hc H1 H2. rewrite (Z.div_mod b BPB), (Z.div_mod c BPB) by done. lia.
Qed.

Lemma mod_BPB b : 0 <= b mod BPB < BPB.
Proof. apply Z.mod_pos_bound. done. Qed.

(** Storing a new block of the map. *)
Lemma used_put_map b c x d :
  used (put (BBLOCK b) x d) c = if BBLOCK c =? BBLOCK b then negb (bit_free (c mod BPB) x) else used d c.
Proof. unfold used. rewrite get_store. by destruct (BBLOCK c =? BBLOCK b). Qed.

Lemma used_put_other b x d c : ~ is_map b -> 0 <= c < size sb -> used (put b x d) c = used d c.
Proof.
  intros Hb Hc. unfold used. rewrite get_store. pose proof (BBLOCK_map c Hc).
  destruct (Z.eqb_spec (BBLOCK c) b); [by subst b | done].
Qed.

Lemma used_mark b c d : sized d -> 0 <= b -> 0 <= c ->
  used (put (BBLOCK b) (bit_set (b mod BPB) (get d (BBLOCK b))) d) c = used d c || (c =? b).
Proof.
  intros Hs Hb Hc. rewrite used_put_map. destruct (Z.eqb_spec (BBLOCK c) (BBLOCK b)) as [E|E].
  - rewrite bit_set_spec by (apply Hs || apply mod_BPB). unfold used. rewrite negb_andb, negb_involutive, E. f_equal.
    pose proof (same_block c b Hc Hb E) as Hsb.
    destruct (Z.eqb_spec (b mod BPB) (c mod BPB)); destruct (Z.eqb_spec c b); subst; try done. by symmetry in e; apply Hsb in e.
  - destruct (Z.eqb_spec c b); [congruence|]. by rewrite orb_false_r.
Qed.

Lemma used_unmark b c d : sized d -> 0 <= b -> 0 <= c ->
  used (put (BBLOCK b) (bit_clear (b mod BPB) (get d (BBLOCK b))) d) c = used d c && negb (c =? b).
Proof.
  intros Hs Hb Hc. rewrite used_put_map. destruct (Z.eqb_spec (BBLOCK c) (BBLOCK b)) as [E|E].
  - rewrite bit_clear_spec by (apply Hs || apply mod_BPB). unfold used. rewrite negb_orb, E. f_equal.
    pose proof (same_block c b Hc Hb E) as Hsb.
    destruct (Z.eqb_spec (b mod BPB) (c mod BPB)); destruct (Z.eqb_spec c b); subst; try done. by symmetry in e; apply Hsb in e.
  - destruct (Z.eqb_spec c b); [congruence|]. by rewrite andb_true_r.
Qed.

(** ** The two operations *)
Lemma bit_loop_spec x b : forall k bi,
  match bit_loop k b bi x with
  | Some i => bi <= i < bi + Z.of_nat k /\ b + i < size sb /\ bit_free i x = true /\
      (forall j, bi <= j < i -> bit_free j x = false)
  | None => forall j, bi <= j < bi + Z.of_nat k -> b + j < size sb -> bit_free j x = false
  end.
Proof.
  induction k as [|k IH]; intros bi; cbn [bit_loop]; [intros; lia|].
  destruct (Z.ltb_spec (b + bi) (size sb)) as [Hlt|Hge]; [|intros; lia].
  destruct (bit_free bi x) eqn:E; [split_and!; (lia || done || (intros; lia))|].
  specialize (IH (bi + 1)). destruct (bit_loop k b (bi + 1) x) as [i|].
  - destruct IH as (H1 & H2 & H3 & H4). split_and!; try (lia || done). intros j Hj.
    destruct (Z.eq_dec j bi) as [->|]; [done|]. apply H4. lia.
  - intros j Hj Hs. destruct (Z.eq_dec j bi) as [->|]; [done|]. apply IH; lia.
Qed.

Lemma used_of_bit d m bi : 0 <= bi < BPB -> used d (BPB * m + bi) = negb (bit_free bi (get d (BBLOCK (BPB * m)))).
Proof.
  intros Hb. unfold used, BBLOCK. rewrite Z.add_comm, Z.mul_comm, Z_mod_plus_full, Z.div_add, Z.div_mul by done.
  by rewrite Z.mod_small, Z.div_small by done.
Qed.

(** What a successful allocation of [a] does. *)
Record allocated (d : disk) (a : Z) (d' : disk) : Prop := mkAllocated {
  al_data : data a;
  al_free : used d a = false;
  al_first : forall b, 0 <= b < a -> used d b = true;
  al_used : forall b, 0 <= b < size sb -> used d' b = used d b || (b =? a);
  al_zero : get d' a = zeroes;
  al_other : forall b, ~ is_map b -> b <> a -> get d' b = get d b;
  al_sized : sized d';
  al_meta : meta_used d'
}.

Lemma length_bit_set bi x : length (bit_set bi x) = length x.
Proof. unfold bit_set. len. Qed.

Lemma mark_allocated d a :
  sized d -> meta_used d -> 0 <= a < size sb -> used d a = false -> (forall b, 0 <= b < a -> used d b = true) ->
  allocated d a (bzero a (put (BBLOCK a) (bit_set (a mod BPB) (get d (BBLOCK a))) d)).
Proof.
  intros Hs Hm Ha Hf Hlow. pose proof (BBLOCK_map a Ha) as Hmap.
  assert (Hd : data a).
  { split; [|lia]. destruct (Z.lt_ge_cases a datastart) as [Hlt|]; [|done]. rewrite Hm in Hf by lia. done. }
  assert (Hna : ~ is_map a) by (unfold is_map, data in *; lia). unfold bzero.
  set (d1 := put (BBLOCK a) _ d).
  assert (Hu : forall b, 0 <= b < size sb -> used (put a zeroes d1) b = used d b || (b =? a)).
  { intros b Hb. rewrite used_put_other by done. apply used_mark; [done | lia | lia]. }
  assert (Hs1 : sized d1) by (apply sized_put; [done | rewrite length_bit_set; apply Hs]).
  split; try done.
  - by rewrite get_store, Z.eqb_refl.
  - intros b Hb Hne. unfold d1. rewrite !get_store. destruct (Z.eqb_spec b a); [done|].
    destruct (Z.eqb_spec b (BBLOCK a)); [by subst b | done].
  - apply sized_put; [done | reflexivity].
  - intros b Hb Hb2. rewrite Hu by lia. by rewrite Hm.
Qed.

Lemma balloc_loop_spec d : sized d -> meta_used d -> forall fuel m,
  0 <= m -> (Z.to_nat (size sb / BPB) < Z.to_nat m + fuel)%nat -> (forall b, 0 <= b < BPB * m -> b < size sb -> used d b = true) ->
  let '(a, d') := balloc_loop fuel (BPB * m) d in
  (a = 0 /\ d' = d /\ forall b, 0 <= b < size sb -> used d b = true) \/ (a <> 0 /\ allocated d a d').
Proof.
  intros Hs Hm. induction fuel as [|fuel IH]; intros m H0 Hf Hlow; cbn [balloc_loop].
  { left. split_and!; try done. intros b Hb. apply Hlow; [|lia]. split; [lia|].
    pose proof (Z.mod_pos_bound (size sb) BPB ltac:(done)). pose proof (Z.div_mod (size sb) BPB ltac:(done)).
    assert (size sb / BPB + 1 <= m) by lia. unfold BPB, BSIZE in *. nia. }
  destruct (Z.ltb_spec (BPB * m) (size sb)) as [Hlt|Hge].
  2:{ left. split_and!; try done. intros b Hb. apply Hlow; lia. }
  pose proof (bit_loop_spec (get d (BBLOCK (BPB * m))) (BPB * m) (Z.to_nat BPB) 0) as Hbit.
  assert (HB : 0 < BPB) by done.
  destruct (bit_loop _ _ _ _) as [bi|].
  - destruct Hbit as (H1 & H2 & H3 & H4). right. rewrite Z2Nat.id in H1 by lia.
    assert (Hmod : (BPB * m + bi) mod BPB = bi) by (rewrite Z.add_comm, Z.mul_comm, Z_mod_plus_full; by apply Z.mod_small).
    assert (Hblk : BBLOCK (BPB * m) = BBLOCK (BPB * m + bi)).
    { unfold BBLOCK. replace (BPB * m + bi) with (bi + m * BPB) by lia. by rewrite Z.div_add, (Z.mul_comm BPB m), Z.div_mul, Z.div_small by lia. }
    assert (Hall : allocated d (BPB * m + bi)
              (bzero (BPB * m + bi) (put (BBLOCK (BPB * m)) (bit_set bi (get d (BBLOCK (BPB * m)))) d))).
    { pose proof (mark_allocated d (BPB * m + bi)) as Hmark. rewrite Hmod, <- Hblk in Hmark. apply Hmark; try done; try nia.
      - rewrite used_of_bit, H3 by lia. done.
      - intros b Hb. destruct (Z.lt_ge_cases b (BPB * m)); [apply Hlow; lia|].
        replace b with (BPB * m + (b - BPB * m)) by lia. rewrite used_of_bit, H4 by lia. done. }
    split; [|exact Hall]. pose proof (al_data _ _ _ Hall) as [Hd _]. unfold datastart in Hd. destruct Hlay.
    pose proof (Z.div_pos (ninodes sb) 16 ltac:(lia) ltac:(lia)).
    pose proof (Z.div_pos (size sb - 1) BPB ltac:(lia) ltac:(lia)). lia.
  - replace (BPB * m + BPB) with (BPB * (m + 1)) by lia. apply IH; [lia | lia|]. intros b Hb Hb2.
    destruct (Z.lt_ge_cases b (BPB * m)); [apply Hlow; lia|].
    replace b with (BPB * m + (b - BPB * m)) by lia. rewrite used_of_bit by lia. rewrite Hbit; [done | lia | lia].
Qed.

(** [balloc] finds the lowest free block, or reports that there is none. *)
Lemma balloc_spec d : sized d -> meta_used d ->
  let '(a, d') := balloc d in
  (a = 0 /\ d' = d /\ forall b, 0 <= b < size sb -> used d b = true) \/ (a <> 0 /\ allocated d a d').
Proof.
  intros Hs Hm. pose proof (balloc_loop_spec d Hs Hm (S (Z.to_nat (size sb / BPB))) 0) as H.
  unfold balloc. rewrite Z.mul_0_r in H. apply H; [lia | lia | intros; lia].
Qed.

(** What freeing [b] does. *)
Record freed (d : disk) (b : Z) (d' : disk) : Prop := mkFreed {
  fr_used : forall c, 0 <= c < size sb -> used d' c = used d c && negb (c =? b);
  fr_other : forall c, ~ is_map c -> get d' c = get d c;
  fr_sized : sized d';
  fr_meta : meta_used d'
}.

Lemma bfree_spec d b : sized d -> meta_used d -> data b ->
  match bfree b d with
  | None => used d b = false
  | Some d' => used d b = true /\ freed d b d'
  end.
Proof.
  intros Hs Hm Hd. unfold bfree, used at 1 2. destruct (bit_free _ _) eqn:E; [done|]. split; [done|].
  assert (0 <= bmapstart sb /\ 0 <= (size sb - 1) / BPB).
  { destruct Hlay. split; [pose proof (Z.div_pos (ninodes sb) 16 ltac:(lia) ltac:(lia)); lia | apply Z.div_pos; [lia | done]]. }
  assert (Hb : 0 <= b < size sb) by (unfold data, datastart in Hd; lia).
  pose proof (BBLOCK_map b Hb) as Hmap.
  assert (Hu : forall c, 0 <= c < size sb ->
    used (put (BBLOCK b) (bit_clear (b mod BPB) (get d (BBLOCK b))) d) c = used d c && negb (c =? b))
    by (intros c Hc; apply used_unmark; [done | lia | lia]).
  split; try done.
  - intros c Hc. rewrite get_store. destruct (Z.eqb_spec c (BBLOCK b)); [by subst c | done].
  - apply sized_put; [done|]. unfold bit_clear. rewrite length_insert. apply Hs.
  - intros c Hc Hc2. rewrite Hu by lia. rewrite Hm by done. unfold data in Hd. destruct (Z.eqb_spec c b); [lia | done].
Qed.
End Allocator.
