(* ===== verification/Inode.v ===== *)
(** * Inodes on disk (xv6/kernel/fs.h, file.h; fs.c, [iupdate] and the load of [ilock])

    The in-memory inode, the 64-byte structure it is stored as, sixteen to a
    block, and the two copies between them. *)
From S2P Require Import Prelude Disk Balloc.
Local Open Scope Z_scope.

Definition NDIRECT : Z := 12.
Definition NINDIRECT : Z := BSIZE / 4.
Definition MAXFILE : Z := NDIRECT + NINDIRECT.
Definition IPB : Z := BSIZE / 64.

Record inode := mkInode {
  dev : Z;
  inum : Z;
  iref : Z;
  locked : bool;
  valid : bool;
  itype : Z;
  imajor : Z;
  iminor : Z;
  nlink : Z;
  isize : Z;
  addrs : list Z
}.

Definition set_addrs (l : list Z) (ip : inode) : inode :=
  mkInode (dev ip) (inum ip) (iref ip) (locked ip) (valid ip) (itype ip) (imajor ip) (iminor ip) (nlink ip) (isize ip) l.
Definition set_size (n : Z) (ip : inode) : inode :=
  mkInode (dev ip) (inum ip) (iref ip) (locked ip) (valid ip) (itype ip) (imajor ip) (iminor ip) (nlink ip) n (addrs ip).

(** The value of a [short]. *)
Definition i16 (x : Z) : Z := (x + 2 ^ 15) mod 2 ^ 16 - 2 ^ 15.

(** ** The structure on disk *)
Definition dinode_bytes (ip : inode) : list ascii :=
  unle 2 (itype ip) ++ unle 2 (imajor ip) ++ unle 2 (iminor ip) ++ unle 2 (nlink ip) ++ unle 4 (isize ip) ++
  (addrs ip ≫= unle 4).

Definition get_short (o : nat) (x : list ascii) : Z := i16 (le (bytes_at o 2 x)).
Definition get_uint (o : nat) (x : list ascii) : Z := le (bytes_at o 4 x).

(** [ilock]: the fields of [ip] are read from the structure [x]. *)
Definition load_dinode (x : list ascii) (ip : inode) : inode :=
  mkInode (dev ip) (inum ip) (iref ip) (locked ip) true (get_short 0 x) (get_short 2 x) (get_short 4 x) (get_short 6 x)
    (get_uint 8 x) ((fun k => get_uint (12 + 4 * k) x) <$> seq 0 13).

Section OnDisk.
Context (sb : superblock).

Definition IBLOCK (i : Z) : Z := i / IPB + inodestart sb.
Definition slot (i : Z) : nat := Z.to_nat (64 * (i mod IPB)).

Definition dinode_at (i : Z) (d : disk) : list ascii := bytes_at (slot i) 64 (get d (IBLOCK i)).

Definition iupdate (ip : inode) (d : disk) : disk :=
  put (IBLOCK (inum ip)) (splice (slot (inum ip)) (dinode_bytes ip) (get d (IBLOCK (inum ip)))) d.

(** ** What is stored is read back *)
Record fields_ok (ip : inode) : Prop := mkFields {
  f_addrs : length (addrs ip) = 13%nat;
  f_words : Forall in_u32 (addrs ip);
  f_size : in_u32 (isize ip);
  f_shorts : Forall (fun v => - 2 ^ 15 <= v < 2 ^ 15) [itype ip; imajor ip; iminor ip; nlink ip]
}.

Lemma length_words l : length (l ≫= unle 4) = (4 * length l)%nat.
Proof. induction l as [|a l IH]; [done|]. cbn [mbind list_bind]. rewrite length_app, length_unle, IH. simpl. lia. Qed.

Lemma length_dinode ip : length (addrs ip) = 13%nat -> length (dinode_bytes ip) = 64%nat.
Proof. intros H. unfold dinode_bytes. rewrite !length_app, !length_unle, length_words, H. done. Qed.

Lemma slot_le i : (slot i + 64 <= Z.to_nat BSIZE)%nat.
Proof. unfold slot, IPB, BSIZE. pose proof (Z.mod_pos_bound i 16). simpl. change (1024 / 64) with 16. lia. Qed.

Lemma slot_distinct i j : IBLOCK i = IBLOCK j -> i <> j -> (slot i + 64 <= slot j \/ slot j + 64 <= slot i)%nat.
Proof.
  unfold IBLOCK, slot, IPB, BSIZE. change (1024 / 64) with 16. intros H Hne.
  pose proof (Z.mod_pos_bound i 16). pose proof (Z.mod_pos_bound j 16).
  pose proof (Z.div_mod i 16). pose proof (Z.div_mod j 16). lia.
Qed.

Lemma short_back v : - 2 ^ 15 <= v < 2 ^ 15 -> i16 (le (unle 2 v)) = v.
Proof.
  intros Hv. rewrite le_unle. change (256 ^ Z.of_nat 2) with (2 ^ 16). unfold i16. rewrite Zplus_mod_idemp_l.
  rewrite Z.mod_small by lia. lia.
Qed.

Lemma bytes_at_app_l o n (x y : list ascii) : (o + n <= length x)%nat -> bytes_at o n (x ++ y) = bytes_at o n x.
Proof.
  intros H. apply list_eq. intros i. rewrite !bytes_at_lookup. destruct (Nat.ltb_spec i n); [|done].
  by rewrite lookup_app_l by lia.
Qed.

Lemma bytes_at_app_r o n (x y : list ascii) : (length x <= o)%nat -> bytes_at o n (x ++ y) = bytes_at (o - length x) n y.
Proof.
  intros H. apply list_eq. intros i. rewrite !bytes_at_lookup. destruct (Nat.ltb_spec i n); [|done].
  rewrite lookup_app_r by lia. f_equal. lia.
Qed.

Lemma words_back l : forall k v, l !! k = Some v -> in_u32 v -> get_uint (4 * k) (l ≫= unle 4) = v.
Proof.
  induction l as [|a l IH]; intros k v Hk Hv; [done|]. cbn [mbind list_bind]. destruct k as [|k]; simpl in Hk.
  - injection Hk as ->. unfold get_uint. rewrite bytes_at_app_l by (rewrite length_unle; lia).
    unfold bytes_at. rewrite drop_0, take_ge by (rewrite length_unle; lia). rewrite le_unle. by apply Z.mod_small.
  - unfold get_uint. rewrite bytes_at_app_r by (rewrite length_unle; lia). rewrite length_unle.
    replace (4 * S k - 4)%nat with (4 * k)%nat by lia. by apply IH.
Qed.

(** A field between what precedes and what follows it. *)
Lemma bytes_at_mid n (pre bs post : list ascii) : length bs = n -> bytes_at (length pre) n (pre ++ bs ++ post) = bs.
Proof.
  intros H. rewrite bytes_at_app_r by lia. rewrite Nat.sub_diag, bytes_at_app_l by lia.
  unfold bytes_at. rewrite drop_0. apply take_ge. lia.
Qed.

Lemma load_dinode_bytes ip jp : fields_ok ip ->
  load_dinode (dinode_bytes ip) jp =
  mkInode (dev jp) (inum jp) (iref jp) (locked jp) true (itype ip) (imajor ip) (iminor ip) (nlink ip) (isize ip) (addrs ip).
Proof.
  intros [Hl Hw Hs Hsh]. rewrite !Forall_cons in Hsh. destruct Hsh as (H1 & H2 & H3 & H4 & _).
  unfold load_dinode, dinode_bytes. set (rest := addrs ip ≫= unle 4).
  set (b1 := unle 2 (itype ip)). set (b2 := unle 2 (imajor ip)). set (b3 := unle 2 (iminor ip)).
  set (b4 := unle 2 (nlink ip)). set (b5 := unle 4 (isize ip)).
  f_equal.
  - unfold get_short. change 0%nat with (length (@nil ascii)). change (b1 ++ ?y) with ([] ++ b1 ++ y).
    rewrite bytes_at_mid by done. by apply short_back.
  - unfold get_short. change 2%nat with (length b1) at 1. rewrite bytes_at_mid by done. by apply short_back.
  - unfold get_short. change 4%nat with (length (b1 ++ b2)). rewrite (app_assoc b1), bytes_at_mid by done. by apply short_back.
  - unfold get_short. change 6%nat with (length ((b1 ++ b2) ++ b3)).
    rewrite (app_assoc b1), (app_assoc (b1 ++ b2)), bytes_at_mid by done. by apply short_back.
  - unfold get_uint. change 8%nat with (length (((b1 ++ b2) ++ b3) ++ b4)).
    rewrite (app_assoc b1), (app_assoc (b1 ++ b2)), (app_assoc ((b1 ++ b2) ++ b3)), bytes_at_mid by done.
    unfold b5. rewrite le_unle. by apply Z.mod_small.
  - apply list_eq. intros k. rewrite list_lookup_fmap. destruct (decide (k < 13)%nat) as [Hk|Hk].
    + rewrite lookup_seq_lt by done. simpl. destruct (lookup_lt_is_Some_2 (addrs ip) k) as [v Hv]; [lia|]. rewrite Hv. f_equal.
      rewrite <- (words_back (addrs ip) k v Hv) by (by apply (Forall_lookup_1 _ _ _ _ Hw Hv)). unfold get_uint. f_equal.
    + rewrite (lookup_ge_None_2 (addrs ip)) by lia. rewrite (lookup_ge_None_2 (seq 0 13)) by (rewrite length_seq; lia). done.
Qed.

(** [iupdate] stores its inode and leaves every other one alone. *)
Lemma dinode_iupdate ip d j : sized d -> length (addrs ip) = 13%nat ->
  dinode_at j (iupdate ip d) = if j =? inum ip then dinode_bytes ip else dinode_at j d.
Proof.
  intros Hs Hl. unfold dinode_at, iupdate. rewrite get_store. pose proof (slot_le (inum ip)) as Hle.
  pose proof (length_dinode ip Hl) as Hlen.
  destruct (Z.eqb_spec j (inum ip)) as [->|Hne].
  - rewrite Z.eqb_refl. rewrite <- Hlen at 1. apply bytes_at_splice_same. rewrite Hlen, Hs. done.
  - destruct (Z.eqb_spec (IBLOCK j) (IBLOCK (inum ip))) as [E|E]; [|done]. rewrite E. apply bytes_at_splice_other.
    + rewrite Hlen, Hs. done.
    + rewrite Hlen. destruct (slot_distinct j (inum ip) E Hne); lia.
Qed.

Lemma get_iupdate ip d b : b <> IBLOCK (inum ip) -> get (iupdate ip d) b = get d b.
Proof. intros H. unfold iupdate. rewrite get_store. by destruct (Z.eqb_spec b (IBLOCK (inum ip))). Qed.

Lemma sized_iupdate ip d : sized d -> length (addrs ip) = 13%nat -> sized (iupdate ip d).
Proof.
  intros Hs Hl. apply sized_put; [done|]. rewrite length_splice; [apply Hs|].
  rewrite (length_dinode ip Hl), Hs. apply slot_le.
Qed.

(** The inode area lies before the map. *)
Definition inum_ok (i : Z) : Prop := 0 < i < ninodes sb.

Lemma IBLOCK_meta i : layout_ok sb -> inum_ok i -> 0 <= IBLOCK i < bmapstart sb.
Proof.
  intros [_ H1 H2 H3] Hi. unfold inum_ok in Hi. unfold IBLOCK, IPB, BSIZE. change (1024 / 64) with 16.
  pose proof (Z.div_pos i 16 ltac:(lia) ltac:(lia)). pose proof (Z.div_le_mono i (ninodes sb) 16 ltac:(lia) ltac:(lia)). lia.
Qed.
End OnDisk.
