(* ===== verification/Content.v ===== *)
(** * The content of files (xv6/kernel/fs.c, [bmap], [itrunc], [readi], [writei])

    An inode holds 12 direct block numbers and the number of an indirect
    block of 256 more.  The file's bytes are read through that tree; the
    theorems relate it to a plain array of bytes and show that operations on
    one file leave the others alone. *)
From S2P Require Import Prelude Disk Balloc Inode.
Local Open Scope Z_scope.

Section Content.
Context (sb : superblock).
Local Abbreviation balloc := (Balloc.balloc sb).
Local Abbreviation bfree := (Balloc.bfree sb).
Local Abbreviation used := (Balloc.used sb).

(** ** Operations *)
Definition direct (i : Z) (ip : inode) : Z := nth (Z.to_nat i) (addrs ip) 0.
Definition set_direct (i a : Z) (ip : inode) : inode := set_addrs (<[Z.to_nat i := a]> (addrs ip)) ip.

(** Slot [i] of [ip->addrs], allocating its block when there is none. *)
Definition direct_alloc (i : Z) (ip : inode) (d : disk) : Z * inode * disk :=
  if direct i ip =? 0 then
    let '(a, d') := balloc d in
    if a =? 0 then (0, ip, d') else (a, set_direct i a ip, d')
  else (direct i ip, ip, d).

(** Entry [bn] of the indirect block [ind], whose buffer is held. *)
Definition indirect_alloc (bn ind : Z) (ip : inode) (d : disk) : Z * inode * disk :=
  let x := get d ind in
  let a := get_u32 bn x in
  if a =? 0 then
    let '(a', d') := balloc d in
    if a' =? 0 then (0, ip, d') else (a', ip, put ind (put_u32 bn a' x) d')
  else (a, ip, d).

(** [None] is the panic "bmap: out of range". *)
Definition bmap (bn : Z) (ip : inode) (d : disk) : option (Z * inode * disk) :=
  if bn <? NDIRECT then Some (direct_alloc bn ip d)
  else
    let bn := bn - NDIRECT in
    if bn <? NINDIRECT then
      let '(ind, ip1, d1) := direct_alloc NDIRECT ip d in
      if ind =? 0 then Some (0, ip1, d1) else Some (indirect_alloc bn ind ip1 d1)
    else None.

(** ** The tree of a file

    Position 12 is the indirect block, 13 and up are its entries. *)
Definition NPOS : nat := 269.

Definition ptr (d : disk) (ip : inode) (p : nat) : Z :=
  if (p <? 13)%nat then direct (Z.of_nat p) ip
  else if direct 12 ip =? 0 then 0 else get_u32 (Z.of_nat p - 13) (get d (direct 12 ip)).

(** The position of the [bn]-th block of the file. *)
Definition pos (bn : Z) : nat := Z.to_nat (if bn <? NDIRECT then bn else bn + 1).

Record inode_wf (d : disk) (ip : inode) : Prop := mkInodeWf {
  wf_len : length (addrs ip) = 13%nat;
  wf_data : forall p, (p < NPOS)%nat -> ptr d ip p <> 0 -> data sb (ptr d ip p) /\ used d (ptr d ip p) = true;
  wf_inj : forall p q, (p < NPOS)%nat -> (q < NPOS)%nat -> ptr d ip p = ptr d ip q -> ptr d ip p <> 0 -> p = q
}.

(** The byte at offset [o]; an offset without a block reads as zero. *)
Definition fbyte (d : disk) (ip : inode) (o : Z) : ascii :=
  let a := ptr d ip (pos (o / BSIZE)) in
  if a =? 0 then NUL else nth (Z.to_nat (o mod BSIZE)) (get d a) NUL.

(** No block of one file is a block of the other. *)
Definition disjoint (d : disk) (ip jp : inode) : Prop :=
  forall p q, (p < NPOS)%nat -> (q < NPOS)%nat -> ptr d ip p = ptr d jp q -> ptr d ip p = 0.

(** The tree and all the blocks of [jp] are the same on both disks. *)
Definition keeps (d d' : disk) (jp : inode) : Prop :=
  (forall q, (q < NPOS)%nat -> ptr d' jp q = ptr d jp q) /\
  (forall q, (q < NPOS)%nat -> ptr d jp q <> 0 -> get d' (ptr d jp q) = get d (ptr d jp q)).

Context (Hlay : layout_ok sb).

Lemma data_pos a : data sb a -> a <> 0 /\ in_u32 a /\ 0 <= a < size sb /\ ~ is_map sb a /\ ~ (0 <= a < bmapstart sb).
Proof.
  unfold data, is_map, datastart, in_u32. intros Ha. destruct Hlay.
  pose proof (Z.div_pos (ninodes sb) 16 ltac:(lia) ltac:(lia)).
  pose proof (Z.div_pos (size sb - 1) BPB ltac:(lia) ltac:(done)). lia.
Qed.

Lemma ptr_direct d ip p : (p < 13)%nat -> ptr d ip p = direct (Z.of_nat p) ip.
Proof. intros H. unfold ptr. by destruct (Nat.ltb_spec p 13); [|lia]. Qed.

Lemma ptr_12 d ip : ptr d ip 12 = direct 12 ip.
Proof. done. Qed.

Lemma pos_lt bn : 0 <= bn < MAXFILE -> (pos bn < NPOS)%nat /\ pos bn <> 12%nat.
Proof.
  unfold pos, MAXFILE, NDIRECT, NINDIRECT, BSIZE, NPOS. change (1024 / 4) with 256. intros H.
  destruct (Z.ltb_spec bn 12); lia.
Qed.

Lemma pos_inj a b : 0 <= a -> 0 <= b -> pos a = pos b -> a = b.
Proof. unfold pos, NDIRECT. intros. destruct (Z.ltb_spec a 12); destruct (Z.ltb_spec b 12); lia. Qed.

(** An inode without blocks. *)
Lemma direct_empty i ip : addrs ip = replicate 13 0 -> direct i ip = 0.
Proof.
  intros E. unfold direct. rewrite E, nth_lookup. destruct (replicate 13 0 !! Z.to_nat i) as [v|] eqn:Ev; [|done].
  by apply lookup_replicate in Ev as [-> _].
Qed.

Lemma ptr_empty d ip p : addrs ip = replicate 13 0 -> ptr d ip p = 0.
Proof. intros E. unfold ptr. rewrite !(direct_empty _ ip E). by destruct (p <? 13)%nat. Qed.

Lemma wf_empty d ip : addrs ip = replicate 13 0 -> inode_wf d ip.
Proof. intros E. split; [by rewrite E | |]; intros p *; by rewrite (ptr_empty d ip _ E). Qed.

(** Two disks that agree on the indirect block have the same tree. *)
Lemma ptr_ext d d' ip : (direct 12 ip <> 0 -> get d' (direct 12 ip) = get d (direct 12 ip)) ->
  forall q, ptr d' ip q = ptr d ip q.
Proof.
  intros H q. unfold ptr. destruct (q <? 13)%nat; [done|]. destruct (Z.eqb_spec (direct 12 ip) 0); [done|]. by rewrite H.
Qed.

Lemma keeps_intro d d' jp :
  (forall q, (q < NPOS)%nat -> ptr d jp q <> 0 -> get d' (ptr d jp q) = get d (ptr d jp q)) -> keeps d d' jp.
Proof.
  intros H. split; [|done]. intros q _. apply ptr_ext. intros Hne. rewrite <- (ptr_12 d). apply H; [unfold NPOS; lia | done].
Qed.

Lemma file_keeps_refl d jp : keeps d d jp.
Proof. by split. Qed.

Lemma file_keeps_trans d1 d2 d3 jp : keeps d1 d2 jp -> keeps d2 d3 jp -> keeps d1 d3 jp.
Proof.
  intros [P1 G1] [P2 G2]. split.
  - intros q Hq. by rewrite P2, P1.
  - intros q Hq Hne. rewrite <- G1 by done. rewrite <- (P1 q Hq) at 1 2. apply G2; [done | by rewrite P1].
Qed.

(** What is kept reads the same. *)
Lemma keeps_fbyte d d' jp o : keeps d d' jp -> 0 <= o < MAXFILE * BSIZE -> fbyte d' jp o = fbyte d jp o.
Proof.
  intros [P G] Ho. unfold fbyte. destruct (pos_lt (o / BSIZE)) as [Hp _].
  { split; [apply Z.div_pos; [lia | done] | apply Z.div_lt_upper_bound; [done | lia]]. }
  rewrite P by done. destruct (Z.eqb_spec (ptr d jp (pos (o / BSIZE))) 0); [done|]. by rewrite G.
Qed.

(** ** One more block *)
Definition disk_full (d : disk) : Prop := forall b, 0 <= b < size sb -> used d b = true.

Record disk_ok (d : disk) : Prop := mkDiskOk { dk_sized : sized d; dk_meta : meta_used sb d }.

(** The tree of [ip] gains the fresh block [a] at the empty position [p]. *)
Record grows (d : disk) (ip : inode) (p : nat) (a : Z) (d' : disk) (ip' : inode) : Prop := mkGrows {
  g_pos : (p < NPOS)%nat;
  g_old : ptr d ip p = 0;
  g_data : data sb a;
  g_free : used d a = false;
  g_ptr : forall q, (q < NPOS)%nat -> ptr d' ip' q = if (q =? p)%nat then a else ptr d ip q;
  g_used : forall b, 0 <= b < size sb -> used d' b = used d b || (b =? a);
  g_zero : get d' a = zeroes;
  g_other : forall b, ~ is_map sb b -> b <> a -> b <> direct 12 ip -> get d' b = get d b;
  g_ip : ip' = set_addrs (addrs ip') ip;
  g_len : length (addrs ip') = 13%nat;
  g_ok : disk_ok d'
}.

Lemma direct_set i j a ip : 0 <= i < 13 -> 0 <= j -> length (addrs ip) = 13%nat ->
  direct j (set_direct i a ip) = if j =? i then a else direct j ip.
Proof.
  intros Hi Hj Hl. unfold direct, set_direct. simpl. rewrite !nth_lookup. destruct (Z.eqb_spec j i) as [->|Hne].
  - by rewrite list_lookup_insert_eq by lia.
  - by rewrite list_lookup_insert_ne by lia.
Qed.

Lemma direct_grows d ip i a d' : disk_ok d -> inode_wf d ip -> 0 <= i < 13 -> direct i ip = 0 -> allocated sb d a d' ->
  grows d ip (Z.to_nat i) a d' (set_direct i a ip).
Proof.
  intros [Hs Hm] Hwf Hi H0 Hal. pose proof (data_pos a (al_data _ _ _ _ Hal)) as (Ha0 & Hau & Has & Ham & _).
  split; try apply Hal.
  - unfold NPOS. lia.
  - rewrite ptr_direct by lia. by rewrite Z2Nat.id by lia.
  - intros q Hq. unfold ptr at 1. rewrite (direct_set i 12) by (apply Hwf || lia). destruct (Nat.ltb_spec q 13) as [Hlt|Hge].
    + rewrite direct_set by (apply Hwf || lia). rewrite ptr_direct by done.
      destruct (Z.eqb_spec (Z.of_nat q) i); destruct (Nat.eqb_spec q (Z.to_nat i)); try done; lia.
    + destruct (Nat.eqb_spec q (Z.to_nat i)); [lia|]. unfold ptr. destruct (Nat.ltb_spec q 13); [lia|].
      destruct (Z.eqb_spec 12 i) as [<-|Hne].
      * destruct (Z.eqb_spec a 0); [done|]. rewrite H0. simpl. rewrite (al_zero _ _ _ _ Hal). apply get_u32_zeroes. unfold NPOS in Hq. lia.
      * destruct (Z.eqb_spec (direct 12 ip) 0); [done|]. f_equal.
        destruct (wf_data _ _ Hwf 12) as [Hd Hu]; [unfold NPOS; lia | by rewrite ptr_12|]. rewrite ptr_12 in *.
        apply Hal; [by apply data_pos|]. intros E. rewrite E, (al_free _ _ _ _ Hal) in Hu. done.
  - intros b Hb Hne _. by apply Hal.
  - done.
  - unfold set_direct. simpl. rewrite length_insert. apply Hwf.
  - split; apply Hal.
Qed.

Lemma indirect_grows d ip k a d' : disk_ok d -> inode_wf d ip -> 0 <= k < 256 -> direct 12 ip <> 0 ->
  get_u32 k (get d (direct 12 ip)) = 0 -> allocated sb d a d' ->
  grows d ip (Z.to_nat (k + 13)) a (put (direct 12 ip) (put_u32 k a (get d (direct 12 ip))) d') ip.
Proof.
  intros [Hs Hm] Hwf Hk H12 H0 Hal. pose proof (data_pos a (al_data _ _ _ _ Hal)) as (Ha0 & Hau & Has & Ham & _).
  destruct (wf_data _ _ Hwf 12) as [Hd Hu]; [unfold NPOS; lia | by rewrite ptr_12|]. rewrite ptr_12 in *.
  pose proof (data_pos _ Hd) as (_ & _ & _ & Hnm & _).
  assert (Hne : direct 12 ip <> a) by (intros E; rewrite E, (al_free _ _ _ _ Hal) in Hu; done).
  split; try apply Hal; try apply Hwf.
  - unfold NPOS. lia.
  - unfold ptr. destruct (Nat.ltb_spec (Z.to_nat (k + 13)) 13); [lia|]. destruct (Z.eqb_spec (direct 12 ip) 0); [done|].
    rewrite <- H0. f_equal. lia.
  - intros q Hq. unfold ptr. destruct (Nat.ltb_spec q 13) as [Hlt|Hge].
    + destruct (Nat.eqb_spec q (Z.to_nat (k + 13))); [lia | done].
    + destruct (Z.eqb_spec (direct 12 ip) 0); [done|]. rewrite get_store, Z.eqb_refl. unfold NPOS in Hq.
      rewrite get_put_u32 by (apply Hs || done || lia).
      destruct (Z.eqb_spec (Z.of_nat q - 13) k); destruct (Nat.eqb_spec q (Z.to_nat (k + 13))); try done; lia.
  - intros b Hb. rewrite used_put_other by done. by apply Hal.
  - rewrite get_store. destruct (Z.eqb_spec a (direct 12 ip)); [congruence | apply Hal].
  - intros b Hb Hba Hb12. rewrite get_store. destruct (Z.eqb_spec b (direct 12 ip)); [done | by apply Hal].
  - by destruct ip.
  - split.
    + apply sized_put; [apply Hal|]. apply length_put_u32; [apply Hs | done].
    + intros b Hb Hb2. rewrite used_put_other by (done || lia). by apply (al_meta _ _ _ _ Hal).
Qed.

(** What growing means for the file itself and for the others. *)
Section Grows.
Context (d d' : disk) (ip ip' : inode) (p : nat) (a : Z).
Context (Hwf : inode_wf d ip) (Hg : grows d ip p a d' ip').

Lemma grows_wf : inode_wf d' ip'.
Proof.
  pose proof (data_pos a (g_data _ _ _ _ _ _ Hg)) as (Ha0 & _ & Has & _).
  assert (Hfresh : forall q, (q < NPOS)%nat -> ptr d ip q <> 0 -> ptr d ip q <> a).
  { intros q Hq Hne E. destruct (wf_data _ _ Hwf q Hq Hne) as [_ Hu]. rewrite E, (g_free _ _ _ _ _ _ Hg) in Hu. done. }
  split; [apply Hg| |].
  - intros q Hq. rewrite (g_ptr _ _ _ _ _ _ Hg) by done. destruct (q =? p)%nat.
    + intros _. split; [apply Hg|]. rewrite (g_used _ _ _ _ _ _ Hg) by done. by rewrite Z.eqb_refl, orb_true_r.
    + intros Hne. destruct (wf_data _ _ Hwf q Hq Hne) as [Hd Hu]. split; [done|].
      rewrite (g_used _ _ _ _ _ _ Hg) by (by apply data_pos). by rewrite Hu.
  - intros q r Hq Hr. rewrite !(g_ptr _ _ _ _ _ _ Hg) by done.
    destruct (Nat.eqb_spec q p) as [->|Hqp]; destruct (Nat.eqb_spec r p) as [->|Hrp]; intros E Hne; try done.
    + exfalso. apply (Hfresh r); congruence.
    + exfalso. apply (Hfresh q); congruence.
    + by apply (wf_inj _ _ Hwf).
Qed.

(** Bytes stay the same: the new block is full of zeroes. *)
Lemma grows_fbyte o : 0 <= o < MAXFILE * BSIZE -> fbyte d' ip' o = fbyte d ip o.
Proof.
  intros Ho. destruct (pos_lt (o / BSIZE)) as [Hq Hq12].
  { split; [apply Z.div_pos; [lia | done] | apply Z.div_lt_upper_bound; [done | lia]]. }
  unfold fbyte. set (q := pos (o / BSIZE)) in *. rewrite (g_ptr _ _ _ _ _ _ Hg) by done.
  destruct (Nat.eqb_spec q p) as [->|Hne].
  - rewrite (g_old _ _ _ _ _ _ Hg), Z.eqb_refl, (g_zero _ _ _ _ _ _ Hg). destruct (a =? 0); [done|].
    rewrite nth_lookup. unfold zeroes. rewrite lookup_replicate_2; [done|]. pose proof (Z.mod_pos_bound o BSIZE ltac:(done)). lia.
  - destruct (Z.eqb_spec (ptr d ip q) 0) as [|H0]; [done|]. f_equal. destruct (wf_data _ _ Hwf q Hq H0) as [Hd Hu].
    apply (g_other _ _ _ _ _ _ Hg); [by apply data_pos | |].
    + intros E. rewrite E, (g_free _ _ _ _ _ _ Hg) in Hu. done.
    + rewrite <- (ptr_12 d). intros E. apply Hq12. apply (wf_inj _ _ Hwf); try done. unfold NPOS. lia.
Qed.

Context (jp : inode) (Hj : inode_wf d jp) (Hdis : disjoint d ip jp).

Lemma grows_keeps : keeps d d' jp.
Proof.
  apply keeps_intro. intros q Hq H0. destruct (wf_data _ _ Hj q Hq H0) as [Hd Hu].
  apply (g_other _ _ _ _ _ _ Hg); [by apply data_pos | |].
  - intros E. rewrite E, (g_free _ _ _ _ _ _ Hg) in Hu. done.
  - rewrite <- (ptr_12 d). intros E. apply H0. rewrite E. apply (Hdis 12%nat q); [unfold NPOS; lia | done | done].
Qed.

Lemma grows_disjoint : disjoint d' ip' jp.
Proof.
  destruct grows_keeps as [Hp _]. intros q r Hq Hr. rewrite (g_ptr _ _ _ _ _ _ Hg), Hp by done.
  destruct (Nat.eqb_spec q p) as [->|Hne]; [|by apply Hdis]. intros E.
  destruct (wf_data _ _ Hj r Hr) as [_ Hu]; [rewrite <- E; apply data_pos, Hg|].
  rewrite <- E, (g_free _ _ _ _ _ _ Hg) in Hu. done.
Qed.

Lemma grows_other_wf : inode_wf d' jp.
Proof.
  destruct grows_keeps as [Hp _]. split; [apply Hj | |].
  - intros q Hq. rewrite Hp by done. intros H0. destruct (wf_data _ _ Hj q Hq H0) as [Hd Hu]. split; [done|].
    rewrite (g_used _ _ _ _ _ _ Hg) by (by apply data_pos). by rewrite Hu.
  - intros q r Hq Hr. rewrite !Hp by done. by apply (wf_inj _ _ Hj).
Qed.
End Grows.

(** ** Changes to one file

    From [d], [ip] to [d'], [ip'] the bytes from [lo] to [hi] become those of
    [f]; the tree stays well formed, and so does every other file, which
    keeps its blocks. *)
Record evolves (lo hi : Z) (f : Z -> ascii) (d : disk) (ip : inode) (d' : disk) (ip' : inode) : Prop := mkEvolves {
  e_wf : inode_wf d' ip';
  e_ok : disk_ok d';
  e_byte : forall o, 0 <= o < MAXFILE * BSIZE -> fbyte d' ip' o = if (lo <=? o) && (o <? hi) then f o else fbyte d ip o;
  e_mono : forall q, (q < NPOS)%nat -> ptr d ip q <> 0 -> ptr d' ip' q = ptr d ip q;
  e_ip : ip' = set_addrs (addrs ip') ip;
  e_inodes : forall b, 0 < b < bmapstart sb -> get d' b = get d b;
  e_frame : forall jp, inode_wf d jp -> disjoint d ip jp -> keeps d d' jp /\ inode_wf d' jp /\ disjoint d' ip' jp
}.

Lemma outside lo o : (lo <=? o) && (o <? lo) = false.
Proof. destruct (Z.leb_spec lo o); destruct (Z.ltb_spec o lo); (done || lia). Qed.

Lemma evolves_refl lo f d ip : inode_wf d ip -> disk_ok d -> evolves lo lo f d ip d ip.
Proof.
  intros Hwf Hok. split; [done | done | by intros; rewrite outside | done | by destruct ip | done|].
  intros jp Hj Hd. split_and!; [apply file_keeps_refl | done | done].
Qed.

Lemma evolves_trans lo mid hi f d1 d2 d3 ip1 ip2 ip3 : lo <= mid <= hi ->
  evolves lo mid f d1 ip1 d2 ip2 -> evolves mid hi f d2 ip2 d3 ip3 -> evolves lo hi f d1 ip1 d3 ip3.
Proof.
  intros Hm [_ _ B1 M1 I1 N1 F1] [W2 O2 B2 M2 I2 N2 F2]. split; try done.
  - intros o Ho. rewrite B2, B1 by done.
    destruct (Z.leb_spec lo o), (Z.ltb_spec o hi), (Z.leb_spec mid o), (Z.ltb_spec o mid); simpl; (done || lia).
  - intros q Hq H0. by rewrite M2, M1 by (done || rewrite M1; done).
  - rewrite I2, I1. by destruct ip1.
  - intros b Hb. by rewrite N2, N1.
  - intros jp Hj Hd. destruct (F1 jp Hj Hd) as (K1 & J1 & D1). destruct (F2 jp J1 D1) as (K2 & J2 & D2).
    split_and!; [by apply (file_keeps_trans _ d2) | done | done].
Qed.

Lemma grows_evolves lo f d ip p a d' ip' : inode_wf d ip -> grows d ip p a d' ip' -> evolves lo lo f d ip d' ip'.
Proof.
  intros Hwf Hg. split; try apply Hg.
  - by apply (grows_wf d d' ip ip' p a).
  - intros o Ho. rewrite outside. by apply (grows_fbyte d d' ip ip' p a).
  - intros q Hq H0. rewrite (g_ptr _ _ _ _ _ _ Hg) by done. destruct (Nat.eqb_spec q p) as [->|]; [|done].
    by rewrite (g_old _ _ _ _ _ _ Hg) in H0.
  - intros b Hb. apply (g_other _ _ _ _ _ _ Hg).
    + unfold is_map. lia.
    + intros ->. pose proof (data_pos _ (g_data _ _ _ _ _ _ Hg)). lia.
    + intros ->. destruct (wf_data _ _ Hwf 12) as [Hd _]; [unfold NPOS; lia | rewrite ptr_12; lia|].
      apply data_pos in Hd. rewrite ptr_12 in Hd. lia.
  - intros jp Hj Hdis. split_and!.
    + by apply (grows_keeps d d' ip ip' p a).
    + by apply (grows_other_wf d d' ip ip' p a).
    + by apply (grows_disjoint d d' ip ip' p a).
Qed.

(** ** [bmap] *)
Lemma alloc_cases d : disk_ok d ->
  let '(a, d') := balloc d in (a = 0 /\ d' = d /\ disk_full d) \/ (a <> 0 /\ allocated sb d a d').
Proof. intros [Hs Hm]. apply (balloc_spec sb Hlay d Hs Hm). Qed.

(** The three ways to look a position up: it has a block, it gets one, the
    disk is full. *)
Inductive looked_up (d : disk) (ip : inode) (p : nat) : Z * inode * disk -> Prop :=
  | found a : a <> 0 -> ptr d ip p = a -> looked_up d ip p (a, ip, d)
  | grown a d' ip' : a <> 0 -> grows d ip p a d' ip' -> looked_up d ip p (a, ip', d')
  | no_space : ptr d ip p = 0 -> disk_full d -> looked_up d ip p (0, ip, d).

Lemma direct_alloc_spec i d ip : disk_ok d -> inode_wf d ip -> 0 <= i < 13 ->
  looked_up d ip (Z.to_nat i) (direct_alloc i ip d).
Proof.
  intros Hok Hwf Hi. assert (Hp : ptr d ip (Z.to_nat i) = direct i ip) by (rewrite ptr_direct by lia; by rewrite Z2Nat.id by lia).
  unfold direct_alloc. destruct (Z.eqb_spec (direct i ip) 0) as [E|E]; [|by constructor].
  pose proof (alloc_cases d Hok) as Hc. destruct (balloc d) as [a d'].
  destruct Hc as [(-> & -> & Hfull)|[Ha Hal]]; [apply no_space; [congruence | done]|].
  destruct (Z.eqb_spec a 0); [done|]. apply grown; [done|]. by apply direct_grows.
Qed.

Lemma indirect_alloc_spec k d ip : disk_ok d -> inode_wf d ip -> 0 <= k < 256 -> direct 12 ip <> 0 ->
  looked_up d ip (Z.to_nat (k + 13)) (indirect_alloc k (direct 12 ip) ip d).
Proof.
  intros Hok Hwf Hk H12.
  assert (Hp : ptr d ip (Z.to_nat (k + 13)) = get_u32 k (get d (direct 12 ip))).
  { unfold ptr. destruct (Nat.ltb_spec (Z.to_nat (k + 13)) 13); [lia|]. destruct (Z.eqb_spec (direct 12 ip) 0); [done|]. f_equal. lia. }
  unfold indirect_alloc. destruct (Z.eqb_spec (get_u32 k (get d (direct 12 ip))) 0) as [E|E]; [|by constructor].
  pose proof (alloc_cases d Hok) as Hc. destruct (balloc d) as [a d'].
  destruct Hc as [(-> & -> & Hfull)|[Ha Hal]]; [apply no_space; [congruence | done]|].
  destruct (Z.eqb_spec a 0); [done|]. apply grown; [done|]. by apply indirect_grows.
Qed.

Lemma looked_up_evolves lo f d ip p a ip' d' : disk_ok d -> inode_wf d ip -> looked_up d ip p (a, ip', d') ->
  evolves lo lo f d ip d' ip' /\ ((a = 0 /\ disk_full d') \/ (a <> 0 /\ ptr d' ip' p = a)).
Proof.
  intros Hok Hwf Hl. inversion Hl; subst.
  - split; [by apply evolves_refl|]. by right.
  - split; [by apply (grows_evolves lo f d ip p a)|]. right. split; [done|].
    match goal with H : grows _ _ _ _ _ _ |- _ => rewrite (g_ptr _ _ _ _ _ _ H) by apply H end. by rewrite Nat.eqb_refl.
  - split; [by apply evolves_refl|]. by left.
Qed.

Lemma bmap_spec lo f bn d ip : disk_ok d -> inode_wf d ip -> 0 <= bn < MAXFILE ->
  exists a ip' d', bmap bn ip d = Some (a, ip', d') /\ evolves lo lo f d ip d' ip' /\
    ((a = 0 /\ disk_full d') \/ (a <> 0 /\ ptr d' ip' (pos bn) = a)) /\
    (ptr d ip (pos bn) <> 0 -> d' = d /\ ip' = ip /\ a = ptr d ip (pos bn)).
Proof.
  intros Hok Hwf Hbn. unfold bmap, pos, MAXFILE, NDIRECT, NINDIRECT, BSIZE in *. change (1024 / 4) with 256 in *.
  destruct (Z.ltb_spec bn 12) as [Hlt|Hge].
  - pose proof (direct_alloc_spec bn d ip Hok Hwf ltac:(lia)) as Hl. destruct (direct_alloc bn ip d) as [[a ip'] d'].
    exists a, ip', d'. split; [done|]. destruct (looked_up_evolves lo f _ _ _ _ _ _ Hok Hwf Hl) as [He Ha].
    split_and!; try done. intros Hne. inversion Hl; subst; try done. exfalso. apply Hne. by eapply g_old.
  - destruct (Z.ltb_spec (bn - 12) 256) as [Hlt|]; [|lia].
    pose proof (direct_alloc_spec 12 d ip Hok Hwf ltac:(lia)) as Hl. change (Z.to_nat 12) with 12%nat in Hl.
    destruct (direct_alloc 12 ip d) as [[ind ip1] d1].
    destruct (looked_up_evolves lo f _ _ _ _ _ _ Hok Hwf Hl) as [He Ha]. replace (Z.to_nat (bn + 1)) with (Z.to_nat (bn - 12 + 13)) by lia.
    assert (Hsame : ptr d ip (Z.to_nat (bn - 12 + 13)) <> 0 -> d1 = d /\ ip1 = ip /\ ind <> 0).
    { intros Hne. assert (H12 : ptr d ip 12 <> 0).
      { intros E. apply Hne. unfold ptr. destruct (Nat.ltb_spec (Z.to_nat (bn - 12 + 13)) 13); [lia|]. rewrite ptr_12 in E. by rewrite E. }
      inversion Hl; subst; try done. exfalso. apply H12. by eapply g_old. }
    destruct (Z.eqb_spec ind 0) as [->|Hind].
    + exists 0, ip1, d1. split_and!; try done; [destruct Ha as [[_ Hf]|[? _]]; [by left | done]|].
      intros Hne. by destruct (Hsame Hne) as (_ & _ & ?).
    + destruct Ha as [[? _]|[_ Hp]]; [done|]. rewrite ptr_12 in Hp.
      pose proof (indirect_alloc_spec (bn - 12) d1 ip1 (e_ok _ _ _ _ _ _ _ He) (e_wf _ _ _ _ _ _ _ He) ltac:(lia) ltac:(congruence)) as Hl2.
      rewrite Hp in Hl2. destruct (indirect_alloc (bn - 12) ind ip1 d1) as [[a ip2] d2].
      destruct (looked_up_evolves lo f _ _ _ _ _ _ (e_ok _ _ _ _ _ _ _ He) (e_wf _ _ _ _ _ _ _ He) Hl2) as [He2 Ha2].
      exists a, ip2, d2. split_and!; [done | by apply (evolves_trans lo lo lo f d d1 d2 ip ip1 ip2); [lia | |] | done|].
      intros Hne. destruct (Hsame Hne) as (-> & -> & _). inversion Hl2; subst; try done. exfalso. apply Hne. by eapply g_old.
Qed.
End Content.
