(* ===== verification/Rw.v ===== *)
(** * Reading and writing files (xv6/kernel/fs.c, [readi], [writei])

    The two loops that copy between a caller's memory and the blocks of a
    file.  The caller's memory is a function from offsets to bytes, undefined
    where it cannot be read; for a read it is the number of bytes that can be
    stored before the first address that cannot be written. *)
From S2P Require Import Prelude Disk Balloc Inode Content.
Local Open Scope Z_scope.

Section ReadWrite.
Context (sb : superblock).

(** ** [writei] *)
Section Write.
Context (src : nat -> option ascii).

(** [either_copyin] of [m] bytes from offset [i]: the bytes that were copied
    and whether that is all of them. *)
Fixpoint copyin (i m : nat) : list ascii * bool :=
  match m with
  | O => ([], true)
  | S m' =>
      match src i with
      | None => ([], false)
      | Some c => let '(bs, ok) := copyin (S i) m' in (c :: bs, ok)
      end
  end.

(** The number of bytes of the current turn. *)
Definition chunk (n tot off : Z) : Z := Z.min (n - tot) (BSIZE - off mod BSIZE).

Fixpoint writei_loop (fuel : nat) (n tot off : Z) (ip : inode) (d : disk) : option (Z * Z * inode * disk) :=
  match fuel with
  | O => Some (tot, off, ip, d)
  | S fuel' =>
      if tot <? n then
        '(a, ip1, d1) ← bmap sb (off / BSIZE) ip d;
        if a =? 0 then Some (tot, off, ip1, d1)
        else
          let m := chunk n tot off in
          let '(bs, ok) := copyin (Z.to_nat tot) (Z.to_nat m) in
          let d2 := put a (splice (Z.to_nat (off mod BSIZE)) bs (get d1 a)) d1 in
          if ok : bool then writei_loop fuel' n (tot + m) (off + m) ip1 d2 else Some (tot, off, ip1, d2)
      else Some (tot, off, ip, d)
  end.

(** The result, the inode and the disk; [None] is a panic. *)
Definition writei (off n : Z) (ip : inode) (d : disk) : option (Z * inode * disk) :=
  if (isize ip <? off) || (u32 (off + n) <? off) then Some (-1, ip, d)
  else if MAXFILE * BSIZE <? u32 (off + n) then Some (-1, ip, d)
  else
    '(tot, off', ip1, d1) ← writei_loop (Z.to_nat n) n 0 off ip d;
    let ip2 := if isize ip1 <? off' then set_size off' ip1 else ip1 in
    Some (tot, ip2, iupdate sb ip2 d1).
End Write.

(** ** [readi] *)
Section Read.
Context (room : nat).

(** [either_copyout] of the bytes [bs] to offset [i]. *)
Definition copyout (i : nat) (bs : list ascii) : list ascii * bool :=
  (take (room - i) bs, (i + length bs <=? room)%nat).

(** The result, the bytes stored, the inode and the disk. *)
Fixpoint readi_loop (fuel : nat) (n tot off : Z) (ip : inode) (d : disk) : option (Z * list ascii * inode * disk) :=
  match fuel with
  | O => Some (tot, [], ip, d)
  | S fuel' =>
      if tot <? n then
        '(a, ip1, d1) ← bmap sb (off / BSIZE) ip d;
        if a =? 0 then Some (tot, [], ip1, d1)
        else
          let m := chunk n tot off in
          let '(bs, ok) := copyout (Z.to_nat tot) (bytes_at (Z.to_nat (off mod BSIZE)) (Z.to_nat m) (get d1 a)) in
          if ok : bool then
            '(r, bs', ip2, d2) ← readi_loop fuel' n (tot + m) (off + m) ip1 d1;
            Some (r, bs ++ bs', ip2, d2)
          else Some (-1, bs, ip1, d1)
      else Some (tot, [], ip, d)
  end.

Definition readi (off n : Z) (ip : inode) (d : disk) : option (Z * list ascii * inode * disk) :=
  if (isize ip <? off) || (u32 (off + n) <? off) then Some (0, [], ip, d)
  else
    let n' := if isize ip <? u32 (off + n) then isize ip - off else n in
    readi_loop (Z.to_nat n') n' 0 off ip d.
End Read.

Context (Hlay : layout_ok sb).

(** ** Storing into a block of the file *)
Lemma block_offset bn k : 0 <= k < BSIZE -> (bn * BSIZE + k) / BSIZE = bn /\ (bn * BSIZE + k) mod BSIZE = k.
Proof.
  intros Hk. split.
  - rewrite Z.add_comm, Z.div_add by done. by rewrite Z.div_small.
  - rewrite Z.add_comm, Z_mod_plus_full. by apply Z.mod_small.
Qed.

Lemma file_block o : 0 <= o < MAXFILE * BSIZE -> 0 <= o / BSIZE < MAXFILE.
Proof. intros Ho. split; [apply Z.div_pos; [lia | done] | apply Z.div_lt_upper_bound; [done | lia]]. Qed.

Section Store.
Context (bn k : Z) (bs : list ascii) (d : disk) (ip : inode) (a : Z).
Context (Hok : disk_ok sb d) (Hwf : inode_wf sb d ip) (Hbn : 0 <= bn < MAXFILE) (Hp : ptr d ip (pos bn) = a) (Ha : a <> 0).
Context (Hk : 0 <= k) (Hl : k + Z.of_nat (length bs) <= BSIZE).

Definition stored : disk := put a (splice (Z.to_nat k) bs (get d a)) d.

Lemma store_data : data sb a.
Proof.
  destruct (pos_lt bn Hbn) as [Hpos _]. destruct (wf_data _ _ _ Hwf (pos bn) Hpos) as [Hd _]; [congruence|]. by rewrite Hp in Hd.
Qed.

Lemma store_ptr q : ptr stored ip q = ptr d ip q.
Proof.
  destruct (pos_lt bn Hbn) as [Hpos Hp12]. apply ptr_ext. intros _. unfold stored. rewrite get_store.
  destruct (Z.eqb_spec (direct 12 ip) a) as [E|]; [|done]. exfalso. apply Hp12.
  apply (wf_inj _ _ _ Hwf); [done | unfold NPOS; lia | by rewrite Hp, ptr_12 | congruence].
Qed.

Lemma store_used b : 0 <= b < size sb -> used sb stored b = used sb d b.
Proof. intros Hb. apply used_put_other; [by apply (data_pos sb Hlay), store_data | done]. Qed.

Lemma store_ok : disk_ok sb stored.
Proof.
  destruct Hok as [Hs Hm]. split.
  - apply sized_put; [done|]. rewrite length_splice; [apply Hs|]. rewrite Hs. unfold BSIZE in *. lia.
  - intros b Hb Hb2. rewrite store_used by lia. by apply Hm.
Qed.

(** A tree that kept its positions is still well formed. *)
Lemma store_keeps_wf jp : inode_wf sb d jp -> (forall q, (q < NPOS)%nat -> ptr stored jp q = ptr d jp q) -> inode_wf sb stored jp.
Proof.
  intros Hj Hpj. split; [apply Hj| |].
  - intros q Hq. rewrite Hpj by done. intros H0. destruct (wf_data _ _ _ Hj q Hq H0). split; [done|].
    rewrite store_used; [done | by apply (data_pos sb Hlay)].
  - intros q r Hq Hr. rewrite !Hpj by done. by apply Hj.
Qed.

(** Offset [o] of the file is in the stored range exactly when its byte of the
    block is. *)
Lemma store_byte f o : (forall j c, bs !! j = Some c -> f (bn * BSIZE + k + Z.of_nat j) = c) -> 0 <= o < MAXFILE * BSIZE ->
  fbyte stored ip o =
  if (bn * BSIZE + k <=? o) && (o <? bn * BSIZE + k + Z.of_nat (length bs)) then f o else fbyte d ip o.
Proof.
  intros Hf Ho. unfold fbyte. rewrite store_ptr. unfold stored. rewrite get_store. pose proof (file_block o Ho) as Hob.
  pose proof (Z.mod_pos_bound o BSIZE ltac:(done)) as Hmo. pose proof (Z.div_mod o BSIZE ltac:(done)) as Hdm.
  destruct Hok as [Hs _]. specialize (Hs a). destruct (Z.eq_dec (o / BSIZE) bn) as [E|E].
  - rewrite E, Hp, Z.eqb_refl. destruct (Z.eqb_spec a 0); [done|]. rewrite !nth_lookup.
    rewrite splice_lookup by (unfold BSIZE in *; lia). rewrite E in Hdm.
    destruct (Z.leb_spec (bn * BSIZE + k) o); destruct (Z.ltb_spec o (bn * BSIZE + k + Z.of_nat (length bs)));
      destruct (Nat.leb_spec (Z.to_nat k) (Z.to_nat (o mod BSIZE)));
      destruct (Nat.ltb_spec (Z.to_nat (o mod BSIZE)) (Z.to_nat k + length bs)); simpl; try lia; try done.
    destruct (lookup_lt_is_Some_2 bs (Z.to_nat (o mod BSIZE) - Z.to_nat k)) as [c Hc]; [lia|]. rewrite Hc. simpl.
    rewrite <- (Hf _ _ Hc). f_equal. lia.
  - replace ((bn * BSIZE + k <=? o) && (o <? bn * BSIZE + k + Z.of_nat (length bs))) with false.
    + destruct (Z.eqb_spec (ptr d ip (pos (o / BSIZE))) 0); [done|].
      destruct (Z.eqb_spec (ptr d ip (pos (o / BSIZE))) a) as [E2|]; [|done]. exfalso. apply E, pos_inj; [lia | lia|].
      destruct (pos_lt _ Hob), (pos_lt _ Hbn). apply (wf_inj _ _ _ Hwf); [done | done | congruence | done].
    + destruct (Z.leb_spec (bn * BSIZE + k) o); [|done].
      destruct (Z.ltb_spec o (bn * BSIZE + k + Z.of_nat (length bs))); [|done].
      exfalso. apply E. unfold BSIZE in *. lia.
Qed.

Lemma store_frame jp : inode_wf sb d jp -> disjoint d ip jp ->
  keeps d stored jp /\ inode_wf sb stored jp /\ disjoint stored ip jp.
Proof.
  intros Hj Hdis. destruct (pos_lt bn Hbn) as [Hpos _].
  assert (Hkeep : keeps d stored jp).
  { apply keeps_intro. intros q Hq H0. unfold stored. rewrite get_store. destruct (Z.eqb_spec (ptr d jp q) a) as [E|]; [|done].
    exfalso. apply H0. rewrite <- (Hdis (pos bn) q) by congruence. congruence. }
  destruct Hkeep as [Hpj Hgj]. split_and!; [done | by apply store_keeps_wf|].
  intros q r Hq Hr. rewrite store_ptr, Hpj by done. by apply Hdis.
Qed.

Lemma store_evolves f : (forall j c, bs !! j = Some c -> f (bn * BSIZE + k + Z.of_nat j) = c) ->
  evolves sb (bn * BSIZE + k) (bn * BSIZE + k + Z.of_nat (length bs)) f d ip stored ip.
Proof.
  intros Hf. split.
  - apply store_keeps_wf; [done|]. intros q _. apply store_ptr.
  - apply store_ok.
  - intros o Ho. by apply store_byte.
  - intros q _ _. apply store_ptr.
  - by destruct ip.
  - intros b Hb. unfold stored. rewrite get_store. pose proof (data_pos sb Hlay a store_data).
    destruct (Z.eqb_spec b a); [lia | done].
  - apply store_frame.
Qed.
End Store.

(** ** The loops *)
Lemma copyin_spec src m : forall i bs ok, copyin src i m = (bs, ok) ->
  (length bs <= m)%nat /\ (forall j c, bs !! j = Some c -> src (i + j)%nat = Some c) /\
  (if ok : bool then length bs = m else (length bs < m)%nat /\ src (i + length bs)%nat = None).
Proof.
  induction m as [|m IH]; intros i bs ok; simpl.
  { intros [= <- <-]. split_and!; try done. }
  destruct (src i) as [c|] eqn:E.
  - destruct (copyin src (S i) m) as [bs1 ok1] eqn:E1. intros [= <- <-]. destruct (IH _ _ _ E1) as (H1 & H2 & H3).
    split_and!; [simpl; lia | |].
    + intros [|j] c' Hc; simpl in Hc; [injection Hc as <-; by rewrite Nat.add_0_r|].
      rewrite <- (H2 j c' Hc). f_equal. lia.
    + destruct ok1; simpl; [lia|]. destruct H3 as [H3 H4]. split; [lia|]. rewrite <- H4. f_equal. lia.
  - intros [= <- <-]. simpl. rewrite Nat.add_0_r. split_and!; (done || lia).
Qed.

Lemma chunk_range n tot off : tot < n -> 0 < chunk n tot off <= n - tot /\ off mod BSIZE + chunk n tot off <= BSIZE.
Proof. intros H. unfold chunk. pose proof (Z.mod_pos_bound off BSIZE ltac:(done)). lia. Qed.

(** [k] bytes of the caller's memory are in the file, [tot'] of them are
    reported. *)
Lemma writei_loop_spec src n base : forall fuel tot off ip d,
  disk_ok sb d -> inode_wf sb d ip -> 0 <= tot <= n -> n - tot <= Z.of_nat fuel ->
  0 <= base -> off = base + tot -> base + n <= MAXFILE * BSIZE ->
  exists tot' k ip' d', writei_loop src fuel n tot off ip d = Some (tot', base + tot', ip', d') /\
    tot <= tot' <= k /\ k <= n /\
    evolves sb off (base + k) (fun o => default NUL (src (Z.to_nat (o - base)))) d ip d' ip' /\
    (forall j, tot <= j < k -> is_Some (src (Z.to_nat j)) /\ ptr d' ip' (pos ((base + j) / BSIZE)) <> 0) /\
    ((tot' = k /\ (tot' = n \/ disk_full sb d')) \/ (k < n /\ src (Z.to_nat k) = None)).
Proof.
  induction fuel as [|fuel IH]; intros tot off ip d Hok Hwf Ht Hf Hb -> Hmax; cbn [writei_loop].
  { exists tot, tot, ip, d. split_and!; try done; try lia. by apply evolves_refl. }
  destruct (Z.ltb_spec tot n) as [Hlt|Hge].
  2:{ exists tot, tot, ip, d. split_and!; try done; try lia. by apply evolves_refl. }
  set (f := fun o => default NUL (src (Z.to_nat (o - base)))).
  destruct (bmap_spec sb Hlay (base + tot) f ((base + tot) / BSIZE) d ip Hok Hwf) as (a & ip1 & d1 & -> & He & Ha & _);
    [apply file_block; lia|]. cbn [mbind option_bind].
  destruct (Z.eqb_spec a 0) as [->|Hne].
  { exists tot, tot, ip1, d1. split_and!; try done; try lia. left. destruct Ha as [[_ H]|[H _]]; [auto | done]. }
  destruct Ha as [[? _]|[_ Hp]]; [done|]. pose proof (chunk_range n tot (base + tot) Hlt) as [Hc1 Hc2].
  destruct (copyin src (Z.to_nat tot) _) as [bs ok] eqn:Ec. destruct (copyin_spec _ _ _ _ _ Ec) as (Hl & Hbs & Hend).
  pose proof (Z.div_mod (base + tot) BSIZE ltac:(done)) as Hdm.
  set (m := chunk n tot (base + tot)) in *. set (k := (base + tot) mod BSIZE) in *. set (bn := (base + tot) / BSIZE) in *.
  pose proof (store_evolves bn k bs d1 ip1 a (e_ok _ _ _ _ _ _ _ _ He) (e_wf _ _ _ _ _ _ _ _ He)) as Hst.
  assert (Hbn : 0 <= bn < MAXFILE) by (apply file_block; lia).
  assert (Hk0 : 0 <= k) by (apply Z.mod_pos_bound; done).
  specialize (Hst Hbn Hp Hne Hk0 ltac:(lia) f). replace (bn * BSIZE + k) with (base + tot) in Hst by lia.
  specialize (Hst ltac:(intros j c Hj; unfold f;
    replace (Z.to_nat (base + tot + Z.of_nat j - base)) with (Z.to_nat tot + j)%nat by lia; by rewrite (Hbs j c Hj))).
  unfold stored in Hst. set (d2 := put a _ d1) in *.
  assert (He2 : evolves sb (base + tot) (base + tot + Z.of_nat (length bs)) f d ip d2 ip1)
    by (apply (evolves_trans sb _ (base + tot) _ f d d1 d2 ip ip1 ip1); [lia | done | done]).
  assert (Hread : forall j, tot <= j < tot + Z.of_nat (length bs) ->
    is_Some (src (Z.to_nat j)) /\ ptr d2 ip1 (pos ((base + j) / BSIZE)) <> 0).
  { intros j Hj. split.
    - destruct (lookup_lt_is_Some_2 bs (Z.to_nat (j - tot))) as [c Hc]; [lia|]. exists c. rewrite <- (Hbs _ _ Hc). f_equal. lia.
    - replace (base + j) with (bn * BSIZE + (k + (j - tot))) by lia.
      rewrite (proj1 (block_offset bn (k + (j - tot)) ltac:(lia))).
      destruct (pos_lt bn Hbn). rewrite (e_mono _ _ _ _ _ _ _ _ Hst); congruence. }
  destruct ok.
  - replace (base + tot + m) with (base + (tot + m)) by lia.
    destruct (IH (tot + m) (base + (tot + m)) ip1 d2) as (tot' & k' & ip' & d' & E & H1 & H2 & H3 & H4 & H5); try done; try lia.
    { apply He2. } { apply He2. }
    exists tot', k', ip', d'. split_and!; try done; try lia.
    + apply (evolves_trans sb (base + tot) (base + (tot + m)) (base + k') f d d2 d' ip ip1 ip'); [lia | | done].
      replace (base + (tot + m)) with (base + tot + Z.of_nat (length bs)) by lia. done.
    + intros j Hj. destruct (Z.lt_ge_cases j (tot + m)) as [Hj2|]; [|apply H4; lia].
      destruct (Hread j ltac:(lia)) as [Hs Hp2]. split; [done|]. rewrite (e_mono _ _ _ _ _ _ _ _ H3); [done | | done].
      apply pos_lt, file_block. lia.
  - exists tot, (tot + Z.of_nat (length bs)), ip1, d2. split_and!; try done; try lia.
    + by replace (base + (tot + Z.of_nat (length bs))) with (base + tot + Z.of_nat (length bs)) by lia.
    + right. destruct Hend as [Hend1 Hend2]. split; [lia|]. rewrite <- Hend2. f_equal. lia.
Qed.

(** ** Files *)

(** A file in good order: its tree, its number and fields, and a block behind
    every byte below its size. *)
Record file_ok (d : disk) (ip : inode) : Prop := mkFileOk {
  fo_wf : inode_wf sb d ip;
  fo_inum : inum_ok sb (inum ip);
  fo_shorts : Forall (fun v => - 2 ^ 15 <= v < 2 ^ 15) [itype ip; imajor ip; iminor ip; nlink ip];
  fo_size : 0 <= isize ip <= MAXFILE * BSIZE;
  fo_mapped : forall o, 0 <= o < isize ip -> ptr d ip (pos (o / BSIZE)) <> 0
}.

Lemma wf_fields d ip : inode_wf sb d ip -> Forall (fun v => - 2 ^ 15 <= v < 2 ^ 15) [itype ip; imajor ip; iminor ip; nlink ip] ->
  0 <= isize ip <= MAXFILE * BSIZE -> fields_ok ip.
Proof.
  intros Hwf Hsh Hs. split; [apply Hwf| | |done].
  - apply Forall_lookup_2. intros p v Hv. pose proof (lookup_lt_Some _ _ _ Hv) as Hp. rewrite (wf_len _ _ _ Hwf) in Hp.
    assert (E : ptr d ip p = v) by (rewrite ptr_direct by done; unfold direct; by rewrite Nat2Z.id, nth_lookup, Hv).
    destruct (Z.eq_dec v 0) as [->|H0]; [unfold in_u32; lia|].
    destruct (wf_data _ _ _ Hwf p) as [Hd _]; [unfold NPOS; lia | congruence|]. rewrite E in Hd. by apply (data_pos sb Hlay).
  - unfold in_u32. unfold MAXFILE, NDIRECT, NINDIRECT, BSIZE in Hs. change (1024 / 4) with 256 in Hs. lia.
Qed.

(** [iupdate] touches no block of a file and no bit of the map. *)
Section Update.
Context (d : disk) (ip : inode) (Hok : disk_ok sb d) (Hlen : length (addrs ip) = 13%nat) (Hin : inum_ok sb (inum ip)).

Lemma update_get b : ~ (0 <= b < bmapstart sb) -> get (iupdate sb ip d) b = get d b.
Proof. intros Hb. apply get_iupdate. pose proof (IBLOCK_meta sb (inum ip) Hlay Hin). lia. Qed.

Lemma update_used b : 0 <= b < size sb -> used sb (iupdate sb ip d) b = used sb d b.
Proof. intros Hb. apply used_put_other; [|done]. pose proof (IBLOCK_meta sb (inum ip) Hlay Hin). unfold is_map. lia. Qed.

Lemma update_ok : disk_ok sb (iupdate sb ip d).
Proof.
  destruct Hok as [Hs Hm]. split; [by apply sized_iupdate|]. intros b Hb Hb2. rewrite update_used by lia. by apply Hm.
Qed.

Lemma update_keeps jp : inode_wf sb d jp -> keeps d (iupdate sb ip d) jp.
Proof.
  intros Hj. apply keeps_intro. intros q Hq H0. apply update_get. destruct (wf_data _ _ _ Hj q Hq H0) as [Hd _].
  apply (data_pos sb Hlay) in Hd. lia.
Qed.

Lemma update_wf jp : inode_wf sb d jp -> inode_wf sb (iupdate sb ip d) jp.
Proof.
  intros Hj. destruct (update_keeps jp Hj) as [Hp _]. split; [apply Hj| |].
  - intros q Hq. rewrite Hp by done. intros H0. destruct (wf_data _ _ _ Hj q Hq H0). split; [done|].
    rewrite update_used; [done | by apply (data_pos sb Hlay)].
  - intros q r Hq Hr. rewrite !Hp by done. by apply Hj.
Qed.

Lemma update_disjoint jp kp : inode_wf sb d jp -> inode_wf sb d kp -> disjoint d jp kp -> disjoint (iupdate sb ip d) jp kp.
Proof.
  intros Hj Hk Hd q r Hq Hr. rewrite (proj1 (update_keeps jp Hj)), (proj1 (update_keeps kp Hk)) by done. by apply Hd.
Qed.
End Update.

(** The size is no part of the tree. *)
Lemma ptr_set_size d n ip q : ptr d (set_size n ip) q = ptr d ip q.
Proof. done. Qed.

Lemma wf_set_size d n ip : inode_wf sb d ip -> inode_wf sb d (set_size n ip).
Proof. intros [H1 H2 H3]. by split. Qed.

Lemma writei_spec src off n ip d :
  disk_ok sb d -> file_ok d ip -> 0 <= off <= isize ip -> 0 <= n -> off + n <= MAXFILE * BSIZE ->
  exists tot k ip' d', writei src off n ip d = Some (tot, ip', d') /\ 0 <= tot <= k /\ k <= n /\
    isize ip' = Z.max (isize ip) (off + tot) /\ ip' = set_size (isize ip') (set_addrs (addrs ip') ip) /\
    (forall o, 0 <= o < MAXFILE * BSIZE ->
       fbyte d' ip' o = if (off <=? o) && (o <? off + k) then default NUL (src (Z.to_nat (o - off))) else fbyte d ip o) /\
    (forall j, 0 <= j < k -> is_Some (src (Z.to_nat j))) /\
    ((tot = k /\ (tot = n \/ disk_full sb d')) \/ (k < n /\ src (Z.to_nat k) = None)) /\
    file_ok d' ip' /\ disk_ok sb d' /\
    dinode_at sb (inum ip) d' = dinode_bytes ip' /\
    (forall i, inum_ok sb i -> i <> inum ip -> dinode_at sb i d' = dinode_at sb i d) /\
    (forall jp, inode_wf sb d jp -> disjoint d ip jp -> keeps d d' jp /\ inode_wf sb d' jp /\ disjoint d' ip' jp).
Proof.
  intros Hok [Hwf Hin Hsh Hsz Hmap] Hoff Hn Hmax.
  assert (Hu : u32 (off + n) = off + n).
  { apply u32_id. unfold in_u32. unfold MAXFILE, NDIRECT, NINDIRECT, BSIZE in Hmax. change (1024 / 4) with 256 in Hmax. lia. }
  unfold writei. rewrite Hu. destruct (Z.ltb_spec (isize ip) off); [lia|]. destruct (Z.ltb_spec (off + n) off); [lia|].
  destruct (Z.ltb_spec (MAXFILE * BSIZE) (off + n)); [lia|]. cbn [orb].
  destruct (writei_loop_spec src n off (Z.to_nat n) 0 off ip d) as (tot & k & ip1 & d1 & -> & Htot & Hk & He & Hsome & Hend); try done; try lia.
  cbn [mbind option_bind]. set (ip2 := if isize ip1 <? off + tot then set_size (off + tot) ip1 else ip1).
  assert (Hi : ip2 = set_size (Z.max (isize ip) (off + tot)) ip1).
  { unfold ip2. rewrite (e_ip _ _ _ _ _ _ _ _ He). simpl. destruct (Z.ltb_spec (isize ip) (off + tot)).
    - by rewrite Z.max_r by lia.
    - rewrite Z.max_l by lia. by destruct ip. }
  assert (Hnum : inum ip2 = inum ip) by (rewrite Hi, (e_ip _ _ _ _ _ _ _ _ He); done).
  assert (Hwf2 : inode_wf sb d1 ip2) by (rewrite Hi; apply wf_set_size, He).
  assert (Hin2 : inum_ok sb (inum ip2)) by (by rewrite Hnum). clearbody ip2.
  pose proof (wf_len _ _ _ Hwf2) as Hlen2. pose proof (e_ok _ _ _ _ _ _ _ _ He) as Hok1.
  pose proof (update_keeps d1 ip2 Hlen2 Hin2 ip2 Hwf2) as Hkeep.
  exists tot, k, ip2, (iupdate sb ip2 d1). split_and!; try done; try lia.
  - by rewrite Hi.
  - rewrite Hi, (e_ip _ _ _ _ _ _ _ _ He). by destruct ip.
  - intros o Ho. rewrite (keeps_fbyte _ _ _ _ Hkeep) by done. rewrite Hi.
    change (fbyte d1 (set_size _ ip1) o) with (fbyte d1 ip1 o). by rewrite (e_byte _ _ _ _ _ _ _ _ He).
  - intros j Hj. by apply Hsome.
  - destruct Hend as [[? [?|Hf]]|?]; [by auto | | by right]. left. split; [done|]. right. intros b Hb.
    rewrite update_used by done. by apply Hf.
  - split; [by apply update_wf | done | | |].
    + rewrite Hi, (e_ip _ _ _ _ _ _ _ _ He). done.
    + rewrite Hi. simpl. lia.
    + intros o Ho. rewrite (proj1 Hkeep) by (apply pos_lt, file_block; rewrite Hi in Ho; simpl in Ho; lia).
      rewrite Hi in *. simpl in Ho. rewrite ptr_set_size. destruct (Z.lt_ge_cases o (isize ip)) as [Hlt|Hge].
      * rewrite (e_mono _ _ _ _ _ _ _ _ He); [apply Hmap; lia | apply pos_lt, file_block; lia | apply Hmap; lia].
      * replace o with (off + (o - off)) by lia. apply Hsome. lia.
  - by apply update_ok.
  - rewrite <- Hnum, dinode_iupdate by (done || apply Hok1). by rewrite Z.eqb_refl.
  - intros i Hi2 Hne. rewrite dinode_iupdate by (done || apply Hok1). destruct (Z.eqb_spec i (inum ip2)); [congruence|].
    unfold dinode_at. rewrite (e_inodes _ _ _ _ _ _ _ _ He); [done|]. pose proof (IBLOCK_meta sb i Hlay Hi2).
    destruct Hlay. split; [|lia]. unfold IBLOCK. pose proof (Z.div_pos i IPB). unfold inum_ok in Hi2. unfold IPB, BSIZE in *.
    change (1024 / 64) with 16 in *. lia.
  - intros jp Hj Hd. destruct (e_frame _ _ _ _ _ _ _ _ He jp Hj Hd) as (K & J & D). split_and!.
    + apply (file_keeps_trans _ d1); [done | by apply update_keeps].
    + by apply update_wf.
    + apply update_disjoint; try done. by rewrite Hi.
Qed.

(** C4: writing to a file updates it as an array of bytes and nothing else.
    A write at or before the end of the file that fits the maximal size
    never panics; [k] bytes of the caller's memory replace those at the
    offset and no other byte of the file changes; the size becomes the
    maximum of the old one and the end of the [tot] bytes reported, and no
    other field of the inode but its block numbers changes; fewer
    than [n] are reported only when the disk is full or the caller's memory
    cannot be read further; the file and the free map stay in good order; the
    new inode is on the disk; and every other file keeps its inode and its
    blocks. *)
Theorem writei_updates_array src off n ip d :
  disk_ok sb d -> file_ok d ip -> 0 <= off <= isize ip -> 0 <= n -> off + n <= MAXFILE * BSIZE ->
  exists tot k ip' d', writei src off n ip d = Some (tot, ip', d') /\ 0 <= tot <= k /\ k <= n /\
    isize ip' = Z.max (isize ip) (off + tot) /\ ip' = set_size (isize ip') (set_addrs (addrs ip') ip) /\
    (forall o, 0 <= o < MAXFILE * BSIZE ->
       fbyte d' ip' o = if (off <=? o) && (o <? off + k) then default NUL (src (Z.to_nat (o - off))) else fbyte d ip o) /\
    (forall j, 0 <= j < k -> is_Some (src (Z.to_nat j))) /\
    ((tot = k /\ (tot = n \/ disk_full sb d')) \/ (k < n /\ src (Z.to_nat k) = None)) /\
    file_ok d' ip' /\ disk_ok sb d' /\
    dinode_at sb (inum ip) d' = dinode_bytes ip' /\
    (forall i, inum_ok sb i -> i <> inum ip -> dinode_at sb i d' = dinode_at sb i d) /\
    (forall jp, inode_wf sb d jp -> disjoint d ip jp -> keeps d d' jp /\ inode_wf sb d' jp /\ disjoint d' ip' jp).
Proof. apply writei_spec. Qed.

(** A write within one block is all or nothing. *)
Lemma writei_one_block src off n ip d tot ip' d' : 0 < n -> off mod BSIZE + n <= BSIZE ->
  writei src off n ip d = Some (tot, ip', d') -> tot = -1 \/ tot = 0 \/ tot = n.
Proof.
  intros Hn Hm. unfold writei. destruct (_ || _); [intros [= <- _ _]; by left|].
  destruct (_ <? _); [intros [= <- _ _]; by left|]. destruct (Z.to_nat n) as [|f] eqn:Ef; [lia|]. cbn [writei_loop].
  destruct (Z.ltb_spec 0 n); [|lia]. destruct (bmap sb (off / BSIZE) ip d) as [[[a ip1] d1]|]; [|done]. cbn [mbind option_bind].
  destruct (a =? 0); [intros [= <- _ _]; auto|]. unfold chunk. rewrite Z.min_l by lia. rewrite Z.sub_0_r.
  destruct (copyin src _ _) as [bs ok]. destruct ok; [|intros [= <- _ _]; auto].
  assert (E : forall g x j e, writei_loop src g n (0 + n) x j e = Some (n, x, j, e)).
  { intros [|g] x j e; cbn [writei_loop]; [done|]. destruct (Z.ltb_spec (0 + n) n); [lia | done]. }
  rewrite E. cbn [mbind option_bind]. intros [= <- _ _]. auto.
Qed.

(** The [k] bytes of the file from offset [off]. *)
Definition slice (d : disk) (ip : inode) (off : Z) (k : nat) : list ascii :=
  (fun j => fbyte d ip (off + Z.of_nat j)) <$> seq 0 k.

Lemma slice_app d ip off a b : slice d ip off (a + b) = slice d ip off a ++ slice d ip (off + Z.of_nat a) b.
Proof.
  unfold slice. rewrite seq_app, fmap_app. f_equal. replace (0 + a)%nat with (a + 0)%nat by lia.
  rewrite <- (fmap_add_seq a 0 b), <- list_fmap_compose. apply list_fmap_ext. intros i j _. simpl. f_equal. lia.
Qed.

Lemma length_slice d ip off k : length (slice d ip off k) = k.
Proof. unfold slice. by rewrite length_fmap, length_seq. Qed.

Lemma slice_take d ip off k j : take j (slice d ip off k) = slice d ip off (j `min` k).
Proof.
  destruct (Nat.le_gt_cases k j) as [H|H].
  - rewrite Nat.min_r by lia. apply take_ge. by rewrite length_slice.
  - rewrite Nat.min_l by lia. replace k with (j + (k - j))%nat at 1 by lia.
    rewrite slice_app, take_app_le by (rewrite length_slice; lia). apply take_ge. by rewrite length_slice.
Qed.

(** A part of a block is a slice of the file. *)
Lemma block_slice d ip off m : sized d -> 0 <= off -> off mod BSIZE + Z.of_nat m <= BSIZE -> ptr d ip (pos (off / BSIZE)) <> 0 ->
  bytes_at (Z.to_nat (off mod BSIZE)) m (get d (ptr d ip (pos (off / BSIZE)))) = slice d ip off m.
Proof.
  intros Hs Ho Hm H0. pose proof (Z.mod_pos_bound off BSIZE ltac:(done)) as Hmo.
  pose proof (Z.div_mod off BSIZE ltac:(done)) as Hdm. apply list_eq. intros i. rewrite bytes_at_lookup. unfold slice.
  rewrite list_lookup_fmap. destruct (Nat.ltb_spec i m) as [Hi|Hi].
  - rewrite lookup_seq_lt by done. simpl. unfold fbyte.
    replace (off + Z.of_nat i) with (off / BSIZE * BSIZE + (off mod BSIZE + Z.of_nat i)) by lia.
    destruct (block_offset (off / BSIZE) (off mod BSIZE + Z.of_nat i)) as [-> ->]; [lia|].
    destruct (Z.eqb_spec (ptr d ip (pos (off / BSIZE))) 0); [done|]. rewrite nth_lookup.
    replace (Z.to_nat (off mod BSIZE + Z.of_nat i)) with (Z.to_nat (off mod BSIZE) + i)%nat by lia.
    destruct (lookup_lt_is_Some_2 (get d (ptr d ip (pos (off / BSIZE)))) (Z.to_nat (off mod BSIZE) + i)) as [c Hc].
    { rewrite Hs. unfold BSIZE in *. lia. } by rewrite Hc.
  - by rewrite (lookup_ge_None_2 (seq 0 m)) by (rewrite length_seq; lia).
Qed.

Lemma readi_loop_spec room n base d ip : disk_ok sb d -> inode_wf sb d ip -> 0 <= base -> base + n <= MAXFILE * BSIZE ->
  (forall o, 0 <= o < base + n -> ptr d ip (pos (o / BSIZE)) <> 0) ->
  forall fuel tot, 0 <= tot <= n -> n - tot <= Z.of_nat fuel -> (Z.to_nat tot <= room)%nat ->
  readi_loop room fuel n tot (base + tot) ip d =
  Some (if (Z.to_nat n <=? room)%nat then n else -1,
        slice d ip (base + tot) ((room `min` Z.to_nat n) - Z.to_nat tot), ip, d).
Proof.
  intros Hok Hwf Hb Hmax Hmap. induction fuel as [|fuel IH]; intros tot Ht Hf Hr; cbn [readi_loop].
  { replace tot with n by lia. destruct (Nat.leb_spec (Z.to_nat n) room); [|lia]. by replace (room `min` Z.to_nat n - Z.to_nat n)%nat with 0%nat by lia. }
  destruct (Z.ltb_spec tot n) as [Hlt|Hge].
  2:{ replace tot with n by lia. destruct (Nat.leb_spec (Z.to_nat n) room); [|lia]. by replace (room `min` Z.to_nat n - Z.to_nat n)%nat with 0%nat by lia. }
  pose proof (Hmap (base + tot) ltac:(lia)) as H0.
  destruct (bmap_spec sb Hlay 0 (fun _ => NUL) ((base + tot) / BSIZE) d ip Hok Hwf) as (a & ip1 & d1 & -> & _ & Ha & Hsame);
    [apply file_block; lia|]. destruct (Hsame H0) as (-> & -> & ->). cbn [mbind option_bind].
  destruct (Z.eqb_spec (ptr d ip (pos ((base + tot) / BSIZE))) 0) as [|_]; [done|].
  pose proof (chunk_range n tot (base + tot) Hlt) as [Hc1 Hc2]. set (m := chunk n tot (base + tot)) in *.
  rewrite block_slice by (apply Hok || lia || done). unfold copyout. rewrite length_slice, slice_take.
  destruct (Nat.leb_spec (Z.to_nat tot + Z.to_nat m) room) as [Hfit|Hnofit].
  - replace (base + tot + m) with (base + (tot + m)) by lia. rewrite IH by lia. cbn [mbind option_bind]. do 4 f_equal.
    replace (base + (tot + m)) with (base + tot + Z.of_nat (Z.to_nat m)) by lia.
    rewrite Nat.min_r by lia. rewrite <- slice_app. f_equal. lia.
  - destruct (Nat.leb_spec (Z.to_nat n) room); [lia|].
    by replace ((room - Z.to_nat tot) `min` Z.to_nat m)%nat with (room `min` Z.to_nat n - Z.to_nat tot)%nat by lia.
Qed.

(** The number of bytes a read at [off] for [n] bytes finds. *)
Definition available (ip : inode) (off n : Z) : Z :=
  if (isize ip <? off) || (2 ^ 32 <=? off + n) then 0 else Z.min n (isize ip - off).

Lemma readi_spec room off n ip d :
  disk_ok sb d -> file_ok d ip -> in_u32 off -> in_u32 n ->
  let k := available ip off n in
  readi room off n ip d =
  Some (if (Z.to_nat k <=? room)%nat then k else -1, slice d ip off (room `min` Z.to_nat k), ip, d).
Proof.
  intros Hok [Hwf Hin Hsh Hsz Hmap] Hoff Hn k. unfold readi, k, available, in_u32 in *.
  destruct (Z.ltb_spec (isize ip) off) as [Hlt|Hge]; [by rewrite Nat.min_0_r|].
  assert (Hmaxsz : isize ip < 2 ^ 31).
  { unfold MAXFILE, NDIRECT, NINDIRECT, BSIZE in Hsz. change (1024 / 4) with 256 in Hsz. lia. }
  destruct (Z.leb_spec (2 ^ 32) (off + n)) as [Hov|Hnov]; cbn [orb].
  - assert (E : u32 (off + n) = off + n - 2 ^ 32).
    { unfold u32. rewrite <- (Z_mod_plus_full _ (-1)), Z.mod_small by lia. lia. }
    rewrite E. destruct (Z.ltb_spec (off + n - 2 ^ 32) off); [by rewrite Nat.min_0_r | lia].
  - rewrite u32_id by (unfold in_u32; lia). destruct (Z.ltb_spec (off + n) off); [lia|].
    set (k2 := if isize ip <? off + n then isize ip - off else n).
    assert (Ek : Z.min n (isize ip - off) = k2) by (unfold k2; destruct (Z.ltb_spec (isize ip) (off + n)); lia).
    rewrite Ek. assert (Hk : 0 <= k2 /\ off + k2 <= isize ip) by lia. clearbody k2. clear Ek.
    rewrite <- (Nat.sub_0_r (room `min` Z.to_nat k2)). rewrite <- (Z.add_0_r off) at 1.
    rewrite (readi_loop_spec room k2 off d ip) by (done || lia || (intros o Ho; apply Hmap; lia)). by rewrite Z.add_0_r.
Qed.

(** C30: reading a file returns its bytes.  Whatever the offset and the length,
    a read of a file in good order never panics, changes neither the file nor
    the disk, stores the bytes of the file from the offset, as many as there
    are and the caller's memory takes, and returns their number, or -1 when
    the caller's memory did not take them all.  An offset past the end, or a
    range that wraps around 32 bits, finds nothing. *)
Theorem readi_reads_array room off n ip d :
  disk_ok sb d -> file_ok d ip -> in_u32 off -> in_u32 n ->
  let k := available ip off n in
  readi room off n ip d =
  Some (if (Z.to_nat k <=? room)%nat then k else -1, slice d ip off (room `min` Z.to_nat k), ip, d).
Proof. apply readi_spec. Qed.
End ReadWrite.

(** ** A small file system, with one empty file *)
Definition demo_sb : superblock := mkSuper 0x10203040 100 95 16 0 2 2 4.
Definition demo_disk : disk := put 4 (chr 31 :: replicate 1023 NUL) ∅.
Definition demo_ip : inode := mkInode 1 1 1 true true 2 0 0 1 0 (replicate 13 0).

Lemma demo_layout : layout_ok demo_sb.
Proof. split; split_and?; by vm_compute. Defined.

Lemma demo_disk_ok : disk_ok demo_sb demo_disk.
Proof.
  split.
  - intros b. unfold demo_disk. rewrite get_store. by destruct (b =? 4).
  - intros b Hb _. change (datastart demo_sb) with 5 in Hb.
    assert (Hc : b = 0 \/ b = 1 \/ b = 2 \/ b = 3 \/ b = 4) by lia. by destruct Hc as [->|[->|[->|[->| ->]]]].
Defined.

Lemma demo_file : file_ok demo_sb demo_disk demo_ip.
Proof.
  split; simpl; try lia.
  - by apply wf_empty.
  - unfold inum_ok. simpl. lia.
  - repeat constructor; simpl; lia.
  - split; by vm_compute.
Defined.

Definition hello (i : nat) : option ascii := str "hello" !! i.

(** Seven bytes are asked for and five can be read: they are stored, but none
    is reported. *)
Lemma writei_updates_array_witness :
  exists tot k ip' d', writei demo_sb hello 0 7 demo_ip demo_disk = Some (tot, ip', d') /\ 0 <= tot <= k /\ k <= 7 /\
    isize ip' = Z.max 0 tot /\ ((tot = k /\ (tot = 7 \/ disk_full demo_sb d')) \/ (k < 7 /\ hello (Z.to_nat k) = None)).
Proof.
  destruct (writei_updates_array demo_sb demo_layout hello 0 7 demo_ip demo_disk) as
    (tot & k & ip' & d' & H1 & H2 & H3 & H4 & _ & _ & _ & H7 & _).
  - exact demo_disk_ok.
  - exact demo_file.
  - simpl. lia.
  - lia.
  - vm_compute. discriminate.
  - exists tot, k, ip', d'. split_and!; try done; lia.
Defined.

Lemma readi_reads_array_witness :
  readi demo_sb 10 0 100 demo_ip demo_disk = Some (0, [], demo_ip, demo_disk).
Proof.
  apply (readi_reads_array demo_sb demo_layout 10 0 100 demo_ip demo_disk).
  - exact demo_disk_ok.
  - exact demo_file.
  - unfold in_u32. lia.
  - unfold in_u32. lia.
Defined.

Example write_then_read :
  match writei demo_sb hello 0 5 demo_ip demo_disk with
  | Some (5, ip, d) => readi demo_sb 100 1 100 ip d = Some (4, str "ello", ip, d) /\ direct 0 ip = 5
  | _ => False
  end.
Proof. vm_compute. done. Qed.
