(* ===== verification/Trunc.v ===== *)
(** * Truncating files (xv6/kernel/fs.c, [itrunc])

    [itrunc] gives every block of a file back, the indirect block last, and
    stores an empty inode. *)
From S2P Require Import Prelude Disk Balloc Inode Content Rw.
Local Open Scope Z_scope.

Section Truncate.
Context (sb : superblock).

(** The loop over the [k] direct blocks from [i] on. *)
Fixpoint free_direct (k : nat) (i : Z) (ip : inode) (d : disk) : option (inode * disk) :=
  match k with
  | O => Some (ip, d)
  | S k' =>
      if direct i ip =? 0 then free_direct k' (i + 1) ip d
      else d1 ← bfree sb (direct i ip) d; free_direct k' (i + 1) (set_direct i 0 ip) d1
  end.

(** The loop over the entries of the indirect block, whose buffer is [x]. *)
Fixpoint free_entries (k : nat) (j : Z) (x : byteblock) (d : disk) : option disk :=
  match k with
  | O => Some d
  | S k' =>
      if get_u32 j x =? 0 then free_entries k' (j + 1) x d
      else d1 ← bfree sb (get_u32 j x) d; free_entries k' (j + 1) x d1
  end.

Definition free_indirect (ip : inode) (d : disk) : option (inode * disk) :=
  if direct NDIRECT ip =? 0 then Some (ip, d)
  else
    d1 ← free_entries (Z.to_nat NINDIRECT) 0 (get d (direct NDIRECT ip)) d;
    d2 ← bfree sb (direct NDIRECT ip) d1;
    Some (set_direct NDIRECT 0 ip, d2).

(** [None] is a panic. *)
Definition itrunc (ip : inode) (d : disk) : option (inode * disk) :=
  '(ip1, d1) ← free_direct (Z.to_nat NDIRECT) 0 ip d;
  '(ip2, d2) ← free_indirect ip1 d1;
  let ip3 := set_size 0 ip2 in
  Some (ip3, iupdate sb ip3 d2).

Context (Hlay : layout_ok sb).

(** ** Blocks given back *)
Record frees (P : Z -> Prop) (d d' : disk) : Prop := mkFrees {
  fs_used : forall b, 0 <= b < size sb -> used sb d' b = true <-> used sb d b = true /\ ~ P b;
  fs_get : forall b, ~ is_map sb b -> get d' b = get d b;
  fs_disk : disk_ok sb d'
}.

Lemma frees_none d : disk_ok sb d -> frees (fun _ => False) d d.
Proof. intros H. split; [tauto | done | done]. Qed.

Lemma frees_trans P Q d1 d2 d3 : frees P d1 d2 -> frees Q d2 d3 -> frees (fun b => P b \/ Q b) d1 d3.
Proof.
  intros [U1 G1 _] [U2 G2 O2]. split; [|intros b Hb; by rewrite G2, G1 | done].
  intros b Hb. rewrite U2, U1 by done. tauto.
Qed.

Lemma frees_ext P Q d d' : (forall b, P b <-> Q b) -> frees P d d' -> frees Q d d'.
Proof. intros E [U G O]. split; [|done | done]. intros b Hb. rewrite U by done. by rewrite E. Qed.

Lemma frees_one b d : disk_ok sb d -> data sb b -> used sb d b = true ->
  exists d', bfree sb b d = Some d' /\ frees (eq b) d d'.
Proof.
  intros [Hs Hm] Hd Hu. pose proof (bfree_spec sb Hlay d b Hs Hm Hd) as H. destruct (bfree sb b d) as [d'|]; [|congruence].
  exists d'. split; [done|]. destruct H as [_ [Hu' Ho Hs' Hm']]. split; [|done | done].
  intros c Hc. rewrite Hu' by done. destruct (Z.eqb_spec c b) as [->|Hne]; simpl; rewrite ?andb_true_r, ?andb_false_r.
  - split; [done|]. by intros [_ []].
  - split; [intros H; split; congruence | by intros [? _]].
Qed.

(** Freeing the nonzero values of [e] on an interval. *)
Definition among (e : Z -> Z) (lo hi : Z) (b : Z) : Prop := b <> 0 /\ exists i, lo <= i < hi /\ e i = b.

Definition freeable (e : Z -> Z) (lo hi : Z) (d : disk) : Prop :=
  (forall i, lo <= i < hi -> e i <> 0 -> data sb (e i) /\ used sb d (e i) = true) /\
  (forall i j, lo <= i < hi -> lo <= j < hi -> e i = e j -> e i <> 0 -> i = j).

Lemma among_step e lo k b : among e lo (lo + Z.of_nat (S k)) b <->
  (b <> 0 /\ e lo = b) \/ among e (lo + 1) (lo + 1 + Z.of_nat k) b.
Proof.
  unfold among. split.
  - intros [H0 (i & Hi & E)]. destruct (Z.eq_dec i lo) as [->|]; [by left|]. right. split; [done|]. exists i. split; [lia | done].
  - intros [[H0 E]|[H0 (i & Hi & E)]]; split; try done; [exists lo | exists i]; (split; [lia | done]).
Qed.

Lemma freeable_step e lo k d d' : freeable e lo (lo + Z.of_nat (S k)) d -> e lo <> 0 -> frees (eq (e lo)) d d' ->
  freeable e (lo + 1) (lo + 1 + Z.of_nat k) d'.
Proof.
  intros [H1 H2] H0 [U _ _]. split; [|intros i j Hi Hj; apply H2; lia].
  intros i Hi Hne. destruct (H1 i ltac:(lia) Hne) as [Hd Hu]. split; [done|]. apply U; [by apply (data_pos sb Hlay)|]. split; [done|].
  intros E. assert (lo = i) by (apply H2; (lia || done)). lia.
Qed.

Lemma freeable_skip e lo k d : freeable e lo (lo + Z.of_nat (S k)) d -> freeable e (lo + 1) (lo + 1 + Z.of_nat k) d.
Proof. intros [H1 H2]. split; [intros i Hi; apply H1; lia | intros i j Hi Hj; apply H2; lia]. Qed.

Lemma frees_empty e lo d : disk_ok sb d -> frees (among e lo (lo + Z.of_nat 0)) d d.
Proof.
  intros Hok. apply (frees_ext (fun _ => False)); [|by apply frees_none].
  intros b. split; [done|]. intros [_ (i & Hi & _)]. lia.
Qed.

Lemma frees_skip e lo k d d' : e lo = 0 -> frees (among e (lo + 1) (lo + 1 + Z.of_nat k)) d d' ->
  frees (among e lo (lo + Z.of_nat (S k))) d d'.
Proof.
  intros E. apply frees_ext. intros b. rewrite among_step. split; [by right|]. intros [[Hb1 Hb2]|Hb]; [congruence | done].
Qed.

Lemma frees_cons e lo k d d1 d' : e lo <> 0 -> frees (eq (e lo)) d d1 ->
  frees (among e (lo + 1) (lo + 1 + Z.of_nat k)) d1 d' -> frees (among e lo (lo + Z.of_nat (S k))) d d'.
Proof.
  intros E H1 H2. apply (frees_ext (fun b => e lo = b \/ among e (lo + 1) (lo + 1 + Z.of_nat k) b)).
  - intros b. rewrite among_step. split; (intros [Hb|Hb]; [left | by right]); [subst b; done | by destruct Hb].
  - by apply (frees_trans _ _ _ d1).
Qed.

Lemma free_entries_spec x : forall k j d, disk_ok sb d -> freeable (fun i => get_u32 i x) j (j + Z.of_nat k) d ->
  exists d', free_entries k j x d = Some d' /\ frees (among (fun i => get_u32 i x) j (j + Z.of_nat k)) d d'.
Proof.
  induction k as [|k IH]; intros j d Hok Hf; cbn [free_entries].
  { exists d. split; [done|]. by apply frees_empty. }
  destruct (Z.eqb_spec (get_u32 j x) 0) as [E|E].
  - destruct (IH (j + 1) d Hok (freeable_skip _ _ _ _ Hf)) as (d' & -> & H). exists d'. split; [done|]. by apply frees_skip.
  - destruct (proj1 Hf j ltac:(lia) E) as [Hd Hu]. destruct (frees_one _ d Hok Hd Hu) as (d1 & -> & H1). cbn [mbind option_bind].
    destruct (IH (j + 1) d1 (fs_disk _ _ _ H1) (freeable_step _ _ _ _ _ Hf E H1)) as (d' & -> & H). exists d'. split; [done|].
    by apply (frees_cons _ _ _ _ d1).
Qed.

(** The inode keeps everything but the freed slots. *)
Definition cleared (lo hi : Z) (ip ip' : inode) : Prop :=
  ip' = set_addrs (addrs ip') ip /\ length (addrs ip') = 13%nat /\
  forall j, 0 <= j -> direct j ip' = if (lo <=? j) && (j <? hi) then 0 else direct j ip.

Lemma cleared_empty lo ip : length (addrs ip) = 13%nat -> cleared lo (lo + Z.of_nat 0) ip ip.
Proof. intros H. split_and!; [by destruct ip | done|]. intros j Hj. rewrite Z.add_0_r. by rewrite outside. Qed.

(** One slot, now empty, and then the rest. *)
Lemma cleared_step lo k ip ip1 ip' : 0 <= lo -> ip1 = set_addrs (addrs ip1) ip ->
  (forall j, 0 <= j -> direct j ip1 = if j =? lo then 0 else direct j ip) ->
  cleared (lo + 1) (lo + 1 + Z.of_nat k) ip1 ip' -> cleared lo (lo + Z.of_nat (S k)) ip ip'.
Proof.
  intros Hlo Hi Hd (H1 & H2 & H3). split_and!; [rewrite H1, Hi; by destruct ip | done|].
  intros j Hj. rewrite H3, Hd by done.
  destruct (Z.leb_spec lo j), (Z.ltb_spec j (lo + Z.of_nat (S k))), (Z.leb_spec (lo + 1) j), (Z.ltb_spec j (lo + 1 + Z.of_nat k)),
    (Z.eqb_spec j lo); simpl; (done || lia).
Qed.

Lemma free_direct_spec : forall k i ip d, disk_ok sb d -> length (addrs ip) = 13%nat -> 0 <= i -> i + Z.of_nat k <= 13 ->
  freeable (fun j => direct j ip) i (i + Z.of_nat k) d ->
  exists ip' d', free_direct k i ip d = Some (ip', d') /\ frees (among (fun j => direct j ip) i (i + Z.of_nat k)) d d' /\
    cleared i (i + Z.of_nat k) ip ip'.
Proof.
  induction k as [|k IH]; intros i ip d Hok Hl Hi Hk Hf; cbn [free_direct].
  { exists ip, d. split_and!; [done | by apply frees_empty | by apply cleared_empty]. }
  destruct (Z.eqb_spec (direct i ip) 0) as [E|E].
  - destruct (IH (i + 1) ip d Hok Hl ltac:(lia) ltac:(lia) (freeable_skip _ _ _ _ Hf)) as (ip' & d' & -> & H & Hc).
    exists ip', d'. split_and!; [done | by apply frees_skip|]. apply (cleared_step _ _ _ ip); [done | by destruct ip | | done].
    intros j Hj. destruct (Z.eqb_spec j i) as [->|]; [done | done].
  - destruct (proj1 Hf i ltac:(lia) E) as [Hd Hu]. destruct (frees_one _ d Hok Hd Hu) as (d1 & -> & H1). cbn [mbind option_bind].
    pose proof (freeable_step _ _ _ _ _ Hf E H1) as Hf1.
    assert (Hset : forall j, 0 <= j -> direct j (set_direct i 0 ip) = if j =? i then 0 else direct j ip)
      by (intros j Hj; apply direct_set; (lia || done)).
    assert (Heq : forall j, i + 1 <= j -> direct j (set_direct i 0 ip) = direct j ip)
      by (intros j Hj; rewrite Hset by lia; destruct (Z.eqb_spec j i); [lia | done]).
    destruct (IH (i + 1) (set_direct i 0 ip) d1) as (ip' & d' & -> & H & Hc); [apply H1 | | lia | lia | |].
    + unfold set_direct. simpl. by rewrite length_insert.
    + destruct Hf1 as [F1 F2]. split; [intros j Hj; rewrite Heq by lia; by apply F1 |].
      intros j l Hj Hl2. rewrite !Heq by lia. by apply F2.
    + exists ip', d'. split_and!; [done | | by apply (cleared_step _ _ _ (set_direct i 0 ip))].
      apply (frees_cons _ _ _ _ d1); [done | done|]. eapply frees_ext; [|exact H]. intros b. unfold among.
      split; (intros [Hb (j & Hj & Ej)]; split; [done|]; exists j; split; [done|]); by rewrite Heq in * by lia.
Qed.

(** ** The whole tree *)

(** The blocks of a file. *)
Definition blocks_of (d : disk) (ip : inode) (b : Z) : Prop := b <> 0 /\ exists p, (p < NPOS)%nat /\ ptr d ip p = b.

Lemma ptr_pos d ip i : 0 <= i < 13 -> ptr d ip (Z.to_nat i) = direct i ip.
Proof. intros Hi. rewrite ptr_direct by lia. by rewrite Z2Nat.id by lia. Qed.

Lemma ptr_entry d ip j : 0 <= j -> direct 12 ip <> 0 -> ptr d ip (Z.to_nat (j + 13)) = get_u32 j (get d (direct 12 ip)).
Proof.
  intros Hj H0. unfold ptr. destruct (Nat.ltb_spec (Z.to_nat (j + 13)) 13); [lia|].
  destruct (Z.eqb_spec (direct 12 ip) 0); [done|]. f_equal. lia.
Qed.

Section Tree.
Context (d : disk) (ip : inode) (Hok : disk_ok sb d) (Hwf : inode_wf sb d ip).

Lemma direct_freeable : freeable (fun j => direct j ip) 0 12 d.
Proof.
  split.
  - intros i Hi H0. rewrite <- (ptr_pos d) in * by lia. apply (wf_data _ _ _ Hwf); [unfold NPOS; lia | done].
  - intros i j Hi Hj. rewrite <- !(ptr_pos d) by lia. intros E H0.
    apply (wf_inj _ _ _ Hwf) in E; [lia | unfold NPOS; lia.. | done].
Qed.

(** The entries are still to be freed when the direct blocks are gone. *)
Lemma entries_freeable d1 : direct 12 ip <> 0 -> frees (among (fun j => direct j ip) 0 12) d d1 ->
  freeable (fun j => get_u32 j (get d (direct 12 ip))) 0 256 d1.
Proof.
  intros H12 Hf. split.
  - intros i Hi H0. rewrite <- (ptr_entry d) in * by (lia || done).
    destruct (wf_data _ _ _ Hwf (Z.to_nat (i + 13))) as [Hd Hu]; [unfold NPOS; lia | done|]. split; [done|].
    apply (fs_used _ _ _ Hf); [by apply (data_pos sb Hlay)|]. split; [done|]. intros [_ (j & Hj & E)].
    rewrite <- (ptr_pos d) in E by lia. symmetry in E. apply (wf_inj _ _ _ Hwf) in E; [lia | unfold NPOS; lia.. | done].
  - intros i j Hi Hj. rewrite <- !(ptr_entry d) by (lia || done). intros E H0.
    apply (wf_inj _ _ _ Hwf) in E; [lia | unfold NPOS; lia.. | done].
Qed.

(** And the indirect block when the entries are gone too. *)
Lemma indirect_left d1 d2 : direct 12 ip <> 0 -> frees (among (fun j => direct j ip) 0 12) d d1 ->
  frees (among (fun j => get_u32 j (get d (direct 12 ip))) 0 256) d1 d2 ->
  data sb (direct 12 ip) /\ used sb d2 (direct 12 ip) = true.
Proof.
  intros H12 Hf1 Hf2. destruct (wf_data _ _ _ Hwf 12) as [Hd Hu]; [unfold NPOS; lia | by rewrite ptr_12|].
  rewrite ptr_12 in *. split; [done|]. pose proof (data_pos sb Hlay _ Hd) as (_ & _ & Hr & _).
  apply (fs_used _ _ _ Hf2); [done|]. split.
  - apply (fs_used _ _ _ Hf1); [done|]. split; [done|]. intros [_ (j & Hj & E)].
    rewrite <- (ptr_pos d), <- (ptr_12 d) in E by lia. apply (wf_inj _ _ _ Hwf) in E; [lia | unfold NPOS; lia.. |].
    by rewrite E, ptr_12.
  - intros [_ (j & Hj & E)]. rewrite <- (ptr_entry d), <- (ptr_12 d) in E by (lia || done).
    apply (wf_inj _ _ _ Hwf) in E; [lia | unfold NPOS; lia.. |]. by rewrite E, ptr_12.
Qed.

Lemma blocks_split b : blocks_of d ip b <->
  among (fun j => direct j ip) 0 12 b \/
  (direct 12 ip <> 0 /\ (among (fun j => get_u32 j (get d (direct 12 ip))) 0 256 b \/ direct 12 ip = b)).
Proof.
  unfold blocks_of, among. split.
  - intros [H0 (p & Hp & E)]. destruct (Nat.lt_ge_cases p 12) as [Hlt|Hge].
    + left. split; [done|]. exists (Z.of_nat p). split; [lia|]. by rewrite <- (ptr_pos d), Nat2Z.id by lia.
    + right. destruct (decide (p = 12%nat)) as [->|Hne]; [rewrite ptr_12 in E; subst; auto|].
      assert (H12 : direct 12 ip <> 0).
      { intros E12. apply H0. rewrite <- E. unfold ptr. rewrite E12. by destruct (Nat.ltb_spec p 13); [lia|]. }
      split; [done|]. left. split; [done|]. exists (Z.of_nat p - 13). unfold NPOS in Hp. split; [lia|].
      rewrite <- (ptr_entry d) by (lia || done). rewrite <- E. f_equal. lia.
  - intros [[H0 (i & Hi & E)]|[H12 [[H0 (j & Hj & E)]|E]]].
    + split; [done|]. exists (Z.to_nat i). split; [unfold NPOS; lia|]. by rewrite ptr_pos by lia.
    + split; [done|]. exists (Z.to_nat (j + 13)). split; [unfold NPOS; lia|]. by rewrite ptr_entry by (lia || done).
    + split; [congruence|]. exists 12%nat. split; [unfold NPOS; lia | by rewrite ptr_12].
Qed.
End Tree.

Definition emptied (ip : inode) : inode := set_size 0 (set_addrs (replicate 13 0) ip).

Lemma cleared_all ip ip' : cleared 0 13 ip ip' -> ip' = set_addrs (replicate 13 0) ip.
Proof.
  intros (E & Hl & Hd). rewrite E. f_equal. apply list_eq_same_length with (n := 13%nat); [done | done|].
  intros i x y Hi Hx Hy. apply lookup_replicate in Hy as [-> _]. specialize (Hd (Z.of_nat i) ltac:(lia)).
  unfold direct in Hd at 1. rewrite Nat2Z.id, nth_lookup, Hx in Hd. simpl in Hd.
  destruct (Z.leb_spec 0 (Z.of_nat i)), (Z.ltb_spec (Z.of_nat i) 13); simpl in Hd; (done || lia).
Qed.

Lemma free_tree d ip : disk_ok sb d -> inode_wf sb d ip ->
  exists ip1 d1 d2, free_direct (Z.to_nat NDIRECT) 0 ip d = Some (ip1, d1) /\
    free_indirect ip1 d1 = Some (set_addrs (replicate 13 0) ip, d2) /\ frees (blocks_of d ip) d d2.
Proof.
  intros Hok Hwf. pose proof (wf_len _ _ _ Hwf) as Hlen.
  destruct (free_direct_spec (Z.to_nat NDIRECT) 0 ip d) as (ip1 & d1 & E1 & H1 & Hc);
    [done | done | lia | unfold NDIRECT; lia | by apply direct_freeable|].
  change (0 + Z.of_nat (Z.to_nat NDIRECT)) with 12 in *. exists ip1, d1. rewrite E1.
  assert (Hi1 : direct 12 ip1 = direct 12 ip) by (destruct Hc as (_ & _ & Hd); by rewrite Hd by lia).
  destruct Hc as (Hs & Hl1 & Hd1). unfold free_indirect. change NDIRECT with 12. rewrite Hi1.
  destruct (Z.eqb_spec (direct 12 ip) 0) as [E|E].
  - exists d1. split_and!; [done | |].
    + do 2 f_equal. apply cleared_all. split_and!; [done | done|]. intros j Hj. rewrite Hd1 by done.
      destruct (Z.leb_spec 0 j), (Z.ltb_spec j 12), (Z.ltb_spec j 13); simpl; try done; try lia. by replace j with 12 by lia.
    + eapply frees_ext; [|exact H1]. intros b. rewrite (blocks_split d ip b). tauto.
  - assert (Eg : get d1 (direct 12 ip) = get d (direct 12 ip)).
    { apply (fs_get _ _ _ H1). destruct (wf_data _ _ _ Hwf 12) as [Hd _]; [unfold NPOS; lia | by rewrite ptr_12|].
      by apply (data_pos sb Hlay). }
    rewrite Eg. destruct (free_entries_spec (get d (direct 12 ip)) (Z.to_nat NINDIRECT) 0 d1) as (d2 & -> & H2);
      [apply H1 | by apply entries_freeable|]. change (0 + Z.of_nat (Z.to_nat NINDIRECT)) with 256 in *.
    destruct (indirect_left d ip Hwf d1 d2 E H1 H2) as [Hd Hu].
    destruct (frees_one _ d2 (fs_disk _ _ _ H2) Hd Hu) as (d3 & E3 & H3). cbn [mbind option_bind]. rewrite E3. cbn [mbind option_bind].
    exists d3. split_and!; [done | |].
    + do 2 f_equal. apply cleared_all. split_and!.
      * unfold set_direct. rewrite Hs. by destruct ip.
      * unfold set_direct. simpl. by rewrite length_insert.
      * intros j Hj. rewrite direct_set, Hd1 by (done || lia).
        destruct (Z.leb_spec 0 j), (Z.ltb_spec j 12), (Z.ltb_spec j 13), (Z.eqb_spec j 12); simpl; (done || lia).
    + eapply frees_ext; [|exact (frees_trans _ _ _ _ _ (frees_trans _ _ _ _ _ H1 H2) H3)].
      intros b. simpl. rewrite (blocks_split d ip b). tauto.
Qed.

Lemma itrunc_spec ip d :
  disk_ok sb d -> inode_wf sb d ip -> inum_ok sb (inum ip) ->
  exists d', itrunc ip d = Some (emptied ip, d') /\
    (forall b, 0 <= b < size sb -> used sb d' b = true <-> used sb d b = true /\ ~ blocks_of d ip b) /\
    disk_ok sb d' /\ inode_wf sb d' (emptied ip) /\
    dinode_at sb (inum ip) d' = dinode_bytes (emptied ip) /\
    (forall i, inum_ok sb i -> i <> inum ip -> dinode_at sb i d' = dinode_at sb i d) /\
    (forall jp, inode_wf sb d jp -> disjoint d ip jp -> keeps d d' jp /\ inode_wf sb d' jp).
Proof.
  intros Hok Hwf Hin. destruct (free_tree d ip Hok Hwf) as (ip1 & d1 & d2 & E1 & E2 & Hf).
  unfold itrunc. rewrite E1. cbn [mbind option_bind]. rewrite E2. cbn [mbind option_bind]. fold (emptied ip).
  pose proof (fs_disk _ _ _ Hf) as Hok2. assert (Hl : length (addrs (emptied ip)) = 13%nat) by done.
  assert (Hin2 : inum_ok sb (inum (emptied ip))) by done.
  exists (iupdate sb (emptied ip) d2). split_and!; [done | | | | | |].
  - intros b Hb. rewrite update_used by done. by apply Hf.
  - by apply update_ok.
  - by apply wf_empty.
  - change (inum ip) with (inum (emptied ip)). rewrite dinode_iupdate by (done || apply Hok2). by rewrite Z.eqb_refl.
  - intros i Hi Hne. rewrite dinode_iupdate by (done || apply Hok2). destruct (Z.eqb_spec i (inum (emptied ip))); [by destruct Hne|].
    unfold dinode_at. rewrite (fs_get _ _ _ Hf); [done|]. pose proof (IBLOCK_meta sb i Hlay Hi). unfold is_map. lia.
  - intros jp Hj Hd.
    assert (Hk : keeps d d2 jp).
    { apply keeps_intro. intros q Hq H0. apply (fs_get _ _ _ Hf).
      destruct (wf_data _ _ _ Hj q Hq H0) as [Hdat _]. by apply (data_pos sb Hlay). }
    assert (Hj2 : inode_wf sb d2 jp).
    { split; [apply Hj| |].
      - intros q Hq. rewrite (proj1 Hk) by done. intros H0. destruct (wf_data _ _ _ Hj q Hq H0) as [Hdat Hu]. split; [done|].
        apply (fs_used _ _ _ Hf); [by apply (data_pos sb Hlay)|]. split; [done|]. intros [Hb (p & Hp & E)].
        apply Hb. rewrite <- E. by apply (Hd p q).
      - intros q r Hq Hr. rewrite !(proj1 Hk) by done. by apply Hj. }
    split; [apply (file_keeps_trans _ d2); [done | by apply update_keeps] | by apply update_wf].
Qed.

(** C11: truncating a file gives back exactly its blocks.  [itrunc] never frees
    a block twice, so never panics; afterwards the inode, in memory and on
    the disk, is empty; a block is in use exactly when it was and was not a
    block of the file; and every other file keeps its inode and its
    blocks. *)
Theorem itrunc_frees_blocks ip d :
  disk_ok sb d -> inode_wf sb d ip -> inum_ok sb (inum ip) ->
  exists d', itrunc ip d = Some (emptied ip, d') /\
    (forall b, 0 <= b < size sb -> used sb d' b = true <-> used sb d b = true /\ ~ blocks_of d ip b) /\
    disk_ok sb d' /\ inode_wf sb d' (emptied ip) /\
    dinode_at sb (inum ip) d' = dinode_bytes (emptied ip) /\
    (forall i, inum_ok sb i -> i <> inum ip -> dinode_at sb i d' = dinode_at sb i d) /\
    (forall jp, inode_wf sb d jp -> disjoint d ip jp -> keeps d d' jp /\ inode_wf sb d' jp).
Proof. apply itrunc_spec. Qed.
End Truncate.

(** A file of one block is truncated. *)
Definition one_block : inode := set_size 5 (set_direct 0 5 demo_ip).
Definition one_disk : disk := put 4 (chr 63 :: replicate 1023 NUL) ∅.

Lemma one_ok : disk_ok demo_sb one_disk.
Proof.
  split.
  - intros b. unfold one_disk. rewrite get_store. by destruct (b =? 4).
  - intros b Hb _. change (datastart demo_sb) with 5 in Hb.
    assert (Hc : b = 0 \/ b = 1 \/ b = 2 \/ b = 3 \/ b = 4) by lia. by destruct Hc as [->|[->|[->|[->| ->]]]].
Defined.

Lemma one_ptr d p : ptr d one_block p = if (p =? 0)%nat then 5 else 0.
Proof.
  unfold ptr. change (direct 12 one_block) with 0. destruct (Nat.ltb_spec p 13) as [Hp|Hp].
  - do 13 (destruct p as [|p]; [done|]). lia.
  - destruct (Nat.eqb_spec p 0); [lia | done].
Defined.

Lemma one_wf : inode_wf demo_sb one_disk one_block.
Proof.
  split; [done| |].
  - intros p _. rewrite one_ptr. destruct (p =? 0)%nat; [|done]. intros _. split; [vm_compute; split; congruence | by vm_compute].
  - intros p q _ _. rewrite !one_ptr. destruct (Nat.eqb_spec p 0), (Nat.eqb_spec q 0); (done || congruence).
Defined.

Lemma itrunc_frees_blocks_witness :
  exists d', itrunc demo_sb one_block one_disk = Some (emptied one_block, d') /\
    (forall b, 0 <= b < 100 -> used demo_sb d' b = true <-> used demo_sb one_disk b = true /\ ~ blocks_of one_disk one_block b).
Proof.
  destruct (itrunc_frees_blocks demo_sb demo_layout one_block one_disk one_ok one_wf) as (d' & E & H & _).
  - unfold inum_ok. simpl. lia.
  - exists d'. split; [exact E | exact H].
Defined.
