(* ===== verification/Itable.v ===== *)
(** * The inode table (xv6/kernel/fs.c)

    The table of inodes in use, with their reference counts and sleep locks:
    [iget], [idup], [ilock], [iunlock], [iput], [ialloc], [ifree] and the
    recovery of orphaned inodes, [ireclaim].  A pointer into the table is an
    index. *)
From S2P Require Import Prelude Disk Balloc Inode Content Rw Trunc.
Local Open Scope Z_scope.

(** How an operation ends: a result, a panic, or a wait for a sleep lock. *)
Inductive res (A : Type) := Ok (a : A) | Panic | Wait.
Arguments Ok {A} a.
Arguments Panic {A}.
Arguments Wait {A}.

#[export] Instance res_ret : MRet res := @Ok.
#[export] Instance res_bind : MBind res := fun A B f m =>
  match m with Ok a => f a | Panic => Panic | Wait => Wait end.

(** A partial function whose failure is a panic. *)
Definition or_panic {A} (o : option A) : res A := match o with Some a => Ok a | None => Panic end.

Definition NINODE : nat := 50.

Record fsys := mkFsys { fdisk : disk; itab : list inode }.

Definition set_ref (r : Z) (ip : inode) : inode :=
  mkInode (dev ip) (inum ip) r (locked ip) (valid ip) (itype ip) (imajor ip) (iminor ip) (nlink ip) (isize ip) (addrs ip).
Definition set_lock (b : bool) (ip : inode) : inode :=
  mkInode (dev ip) (inum ip) (iref ip) b (valid ip) (itype ip) (imajor ip) (iminor ip) (nlink ip) (isize ip) (addrs ip).
Definition set_valid (b : bool) (ip : inode) : inode :=
  mkInode (dev ip) (inum ip) (iref ip) (locked ip) b (itype ip) (imajor ip) (iminor ip) (nlink ip) (isize ip) (addrs ip).
(** [ip->dev = dev; ip->inum = inum; ip->ref = 1; ip->valid = 0;] *)
Definition recycle (dv nm : Z) (ip : inode) : inode :=
  mkInode dv nm 1 (locked ip) false (itype ip) (imajor ip) (iminor ip) (nlink ip) (isize ip) (addrs ip).

Definition null_inode : inode := mkInode 0 0 0 false false 0 0 0 0 0 (replicate 13 0).
Definition iinit (d : disk) : fsys := mkFsys d (replicate NINODE null_inode).

Definition entry (i : nat) (s : fsys) : inode := nth i (itab s) null_inode.
Definition set_entry (i : nat) (ip : inode) (s : fsys) : fsys := mkFsys (fdisk s) (<[i := ip]> (itab s)).
Definition set_disk (d : disk) (s : fsys) : fsys := mkFsys d (itab s).

Section Table.
Context (sb : superblock).

(** The scan of [iget]: the slot of the inode, or the first empty one. *)
Definition matches (dv nm : Z) (ip : inode) : bool := (0 <? iref ip) && (dev ip =? dv) && (inum ip =? nm).

Fixpoint iget_scan (dv nm : Z) (i : nat) (l : list inode) (empty : option nat) : nat + option nat :=
  match l with
  | [] => inr empty
  | ip :: l' =>
      if matches dv nm ip then inl i
      else iget_scan dv nm (S i) l' (match empty with Some _ => empty | None => if iref ip =? 0 then Some i else None end)
  end.

Definition iget (dv nm : Z) (s : fsys) : res (nat * fsys) :=
  match iget_scan dv nm 0 (itab s) None with
  | inl i => Ok (i, set_entry i (set_ref (iref (entry i s) + 1) (entry i s)) s)
  | inr (Some i) => Ok (i, set_entry i (recycle dv nm (entry i s)) s)
  | inr None => Panic
  end.

Definition idup (i : nat) (s : fsys) : fsys := set_entry i (set_ref (iref (entry i s) + 1) (entry i s)) s.

Definition ilock (i : nat) (s : fsys) : res fsys :=
  let ip := entry i s in
  if iref ip <? 1 then Panic
  else if locked ip then Wait
  else if valid ip then Ok (set_entry i (set_lock true ip) s)
  else
    let ip' := load_dinode (dinode_at sb (inum ip) (fdisk s)) (set_lock true ip) in
    if itype ip' =? 0 then Panic else Ok (set_entry i ip' s).

Definition iunlock (i : nat) (s : fsys) : res fsys :=
  let ip := entry i s in
  if negb (locked ip) || (iref ip <? 1) then Panic else Ok (set_entry i (set_lock false ip) s).

(** [dip->type = 0]. *)
Definition ifree (nm : Z) (d : disk) : disk :=
  put (IBLOCK sb nm) (splice (slot nm) (unle 2 0) (get d (IBLOCK sb nm))) d.

Definition iput (i : nat) (s : fsys) : res fsys :=
  let ip := entry i s in
  let last := (iref ip =? 1) && valid ip && (nlink ip =? 0) in
  if last then
    if locked ip then Wait
    else
      '(ip1, d1) ← or_panic (itrunc sb ip (fdisk s));
      let ip2 := set_valid false ip1 in
      let s2 := set_entry i (set_ref (iref ip2 - 1) ip2) (set_disk d1 s) in
      Ok (set_disk (ifree (inum ip) (fdisk s2)) s2)
  else Ok (set_entry i (set_ref (iref ip - 1) ip) s).

Definition iunlockput (i : nat) (s : fsys) : res fsys := s1 ← iunlock i s; iput i s1.

(** [memset] of the structure and its type. *)
Definition fresh_dinode (type : Z) : list ascii := splice 0 (unle 2 type) (replicate 64 NUL).

(** The loop of [ialloc], with [k] inodes left; [None] when there is no free
    one. *)
Fixpoint ialloc_loop (k : nat) (dv type nm : Z) (s : fsys) : res (option nat * fsys) :=
  match k with
  | O => Ok (None, s)
  | S k' =>
      if get_short 0 (dinode_at sb nm (fdisk s)) =? 0 then
        let d := put (IBLOCK sb nm) (splice (slot nm) (fresh_dinode type) (get (fdisk s) (IBLOCK sb nm))) (fdisk s) in
        '(i, s1) ← iget dv nm (set_disk d s); Ok (Some i, s1)
      else ialloc_loop k' dv type (nm + 1) s
  end.

Definition ialloc (dv type : Z) (s : fsys) : res (option nat * fsys) :=
  ialloc_loop (Z.to_nat (ninodes sb - 1)) dv type 1 s.

(** One turn of the loop of [ireclaim], and the loop. *)
Definition orphan (nm : Z) (d : disk) : bool :=
  let x := dinode_at sb nm d in negb (get_short 0 x =? 0) && (get_short 6 x =? 0).

Definition reclaim (dv nm : Z) (s : fsys) : res fsys :=
  if orphan nm (fdisk s) then
    '(i, s1) ← iget dv nm s;
    s2 ← ilock i s1;
    s3 ← iunlock i s2;
    iput i s3
  else Ok s.

Fixpoint reclaim_loop (k : nat) (dv nm : Z) (s : fsys) : res fsys :=
  match k with
  | O => Ok s
  | S k' => s1 ← reclaim dv nm s; reclaim_loop k' dv (nm + 1) s1
  end.

Definition ireclaim (dv : Z) (s : fsys) : res fsys := reclaim_loop (Z.to_nat (ninodes sb - 1)) dv 1 s.
End Table.

(** [stati]: device, number, type, links and size. *)
Definition stati (ip : inode) : Z * Z * Z * Z * Z := (dev ip, inum ip, itype ip, nlink ip, isize ip).
