(* ===== verification/Iref.v ===== *)
(** * References to inodes (xv6/kernel/fs.c, the inode table)

    Processes hold references to slots of the table, obtained with [iget],
    [idup] and [ialloc] and given back with [iput].  Any interleaving of
    these operations by any number of processes is a sequence of steps on the
    table and the multiset of references that are held. *)
From S2P Require Import Prelude Disk Balloc Inode Content Rw Trunc Itable.
Local Open Scope Z_scope.

Section References.
Context (sb : superblock).

(** The operations, on the table and the references held. *)
Inductive istep : fsys * list nat -> fsys * list nat -> Prop :=
  | step_get dv nm i s s' hs : iget dv nm s = Ok (i, s') -> istep (s, hs) (s', i :: hs)
  | step_alloc dv type i s s' hs : ialloc sb dv type s = Ok (Some i, s') -> istep (s, hs) (s', i :: hs)
  | step_dup i s hs : i ∈ hs -> istep (s, hs) (idup i s, i :: hs)
  | step_lock i s s' hs : i ∈ hs -> ilock sb i s = Ok s' -> istep (s, hs) (s', hs)
  | step_unlock i s s' hs : i ∈ hs -> iunlock i s = Ok s' -> istep (s, hs) (s', hs)
  | step_put i s s' hs hs' : iput sb i s = Ok s' -> istep (s, hs ++ i :: hs') (s', hs ++ hs').

(** The number of references to slot [i]. *)
Definition held (i : nat) (hs : list nat) : Z := Z.of_nat (count_occ Nat.eq_dec hs i).

Definition live (s : fsys) (i : nat) : Prop := 0 < iref (entry i s).

Record table_ok (s : fsys) (hs : list nat) : Prop := mkTableOk {
  t_len : length (itab s) = NINODE;
  t_in : forall i, i ∈ hs -> (i < NINODE)%nat;
  t_ref : forall i, (i < NINODE)%nat -> iref (entry i s) = held i hs;
  t_once : forall i j, (i < NINODE)%nat -> (j < NINODE)%nat -> live s i -> live s j ->
    dev (entry i s) = dev (entry j s) -> inum (entry i s) = inum (entry j s) -> i = j
}.

Lemma held_cons i j hs : held i (j :: hs) = held i hs + if (i =? j)%nat then 1 else 0.
Proof. unfold held. simpl. destruct (Nat.eq_dec j i), (Nat.eqb_spec i j); lia. Qed.

Lemma held_remove i j hs hs' : held i (hs ++ j :: hs') = held i (hs ++ hs') + if (i =? j)%nat then 1 else 0.
Proof. unfold held. rewrite !count_occ_app. simpl. destruct (Nat.eq_dec j i), (Nat.eqb_spec i j); lia. Qed.

Lemma held_pos i hs : i ∈ hs <-> 0 < held i hs.
Proof. unfold held. rewrite list_elem_of_In, (count_occ_In Nat.eq_dec). lia. Qed.

Lemma entry_set_entry i j ip s : (i < length (itab s))%nat -> entry j (set_entry i ip s) = if (j =? i)%nat then ip else entry j s.
Proof.
  intros Hi. unfold entry, set_entry. simpl. rewrite !nth_lookup. destruct (Nat.eqb_spec j i) as [->|Hne].
  - by rewrite list_lookup_insert_eq.
  - by rewrite list_lookup_insert_ne.
Qed.

(** A change of one slot: its count follows the references, and it keeps its
    inode unless it was free and becomes the only slot of its new one. *)
Lemma table_change s hs i ip hs' d :
  table_ok s hs -> (i < NINODE)%nat -> (forall j, j ∈ hs' -> (j < NINODE)%nat) ->
  (forall j, (j < NINODE)%nat -> held j hs' = if (j =? i)%nat then iref ip else held j hs) ->
  ((dev ip = dev (entry i s) /\ inum ip = inum (entry i s) /\ live s i) \/
   (forall j, (j < NINODE)%nat -> live s j -> ~ (dev (entry j s) = dev ip /\ inum (entry j s) = inum ip))) ->
  table_ok (set_disk d (set_entry i ip s)) hs'.
Proof.
  intros [Hl Hin Href Honce] Hi Hin' Hheld Hid.
  assert (He : forall j, entry j (set_disk d (set_entry i ip s)) = if (j =? i)%nat then ip else entry j s).
  { intros j. change (entry j (set_disk d (set_entry i ip s))) with (entry j (set_entry i ip s)). apply entry_set_entry. by rewrite Hl. }
  split; [simpl; by rewrite length_insert | done | |].
  - intros j Hj. rewrite He, Hheld by done. destruct (j =? i)%nat; [done | by apply Href].
  - intros j k Hj Hk. unfold live. rewrite !He.
    destruct (Nat.eqb_spec j i) as [->|Hji]; destruct (Nat.eqb_spec k i) as [->|Hki]; intros H1 H2 E1 E2; try done.
    + destruct Hid as [(D & N & Hlive)|Hid]; [apply Honce; (done || congruence)|]. destruct (Hid k Hk H2). split; congruence.
    + destruct Hid as [(D & N & Hlive)|Hid]; [apply Honce; (done || congruence)|]. destruct (Hid j Hj H1). split; congruence.
    + by apply Honce.
Qed.

Lemma scan_spec dv nm l : forall i0 e,
  match iget_scan dv nm i0 l e with
  | inl i => (i0 <= i)%nat /\ exists ip, l !! (i - i0)%nat = Some ip /\ matches dv nm ip = true
  | inr e' =>
      (forall j ip, l !! j = Some ip -> matches dv nm ip = false) /\
      match e, e' with
      | Some k, _ => e' = Some k
      | None, Some k => (i0 <= k)%nat /\ exists ip, l !! (k - i0)%nat = Some ip /\ iref ip = 0
      | None, None => forall j ip, l !! j = Some ip -> iref ip <> 0
      end
  end.
Proof.
  induction l as [|ip l IH]; intros i0 e; simpl.
  { split; [done|]. destruct e; [done | by intros j ip Hj]. }
  destruct (matches dv nm ip) eqn:Em.
  { split; [lia|]. exists ip. by rewrite Nat.sub_diag. }
  set (e1 := match e with Some _ => e | None => if iref ip =? 0 then Some i0 else None end).
  specialize (IH (S i0) e1). destruct (iget_scan dv nm (S i0) l e1) as [i|e'].
  - destruct IH as (Hle & jp & Hj & Hm). split; [lia|]. exists jp. by replace (i - i0)%nat with (S (i - S i0)) by lia.
  - destruct IH as [Hno He]. split; [by intros [|j] jp Hj; simplify_eq/=; eauto|].
    destruct e as [k|]; [done|]. unfold e1 in He. destruct (Z.eqb_spec (iref ip) 0) as [E|E].
    + rewrite He. split; [lia|]. exists ip. by rewrite Nat.sub_diag.
    + destruct e' as [k|].
      * destruct He as (Hle & jp & Hj & Hr). split; [lia|]. exists jp. by replace (k - i0)%nat with (S (k - S i0)) by lia.
      * intros [|j] jp Hj; simplify_eq/=; [done | by apply (He j)].
Qed.

Lemma matches_spec dv nm ip : matches dv nm ip = true <-> 0 < iref ip /\ dev ip = dv /\ inum ip = nm.
Proof. unfold matches. rewrite !andb_true_iff, Z.ltb_lt, !Z.eqb_eq. tauto. Qed.

Lemma entry_lookup s i ip : itab s !! i = Some ip -> entry i s = ip.
Proof. intros H. unfold entry. by rewrite nth_lookup, H. Qed.

(** What [iget] answers on a consistent table. *)
Lemma iget_spec dv nm s hs : table_ok s hs ->
  match iget dv nm s with
  | Ok (i, s') =>
      (i < NINODE)%nat /\ table_ok s' (i :: hs) /\ dev (entry i s') = dv /\ inum (entry i s') = nm /\
      (forall j, j ∈ hs -> dev (entry j s') = dev (entry j s) /\ inum (entry j s') = inum (entry j s))
  | Panic => forall j, (j < NINODE)%nat -> live s j /\ ~ (dev (entry j s) = dv /\ inum (entry j s) = nm)
  | Wait => False
  end.
Proof.
  intros Hok. pose proof Hok as [Hl Hin Href Honce]. unfold iget. pose proof (scan_spec dv nm (itab s) 0 None) as Hs.
  assert (Hlook : forall j, (j < NINODE)%nat -> itab s !! j = Some (entry j s)).
  { intros j Hj. destruct (lookup_lt_is_Some_2 (itab s) j) as [ip Hip]; [by rewrite Hl|]. by rewrite (entry_lookup _ _ _ Hip). }
  assert (Hpos : forall j, 0 <= held j hs) by (intros j; unfold held; lia).
  destruct (iget_scan dv nm 0 (itab s) None) as [i|[i|]].
  - destruct Hs as (_ & ip & Hip & Hm). rewrite Nat.sub_0_r in Hip. apply matches_spec in Hm as (Hr & Hd & Hn).
    pose proof (lookup_lt_Some _ _ _ Hip) as Hi. rewrite Hl in Hi. rewrite (entry_lookup _ _ _ Hip). split; [done|].
    set (ip' := set_ref (iref ip + 1) ip). rewrite !(entry_set_entry i i ip' s) by (by rewrite Hl). rewrite Nat.eqb_refl. split_and!.
    + apply (table_change s hs i ip' (i :: hs) (fdisk s)); try done.
      * intros j [->|Hj]%elem_of_cons; [done | by apply Hin].
      * intros j Hj. rewrite held_cons. destruct (Nat.eqb_spec j i) as [->|]; [|lia].
        unfold ip'. simpl. rewrite <- (Href i Hi), (entry_lookup _ _ _ Hip). done.
      * left. unfold live. rewrite (entry_lookup _ _ _ Hip). done.
    + done.
    + done.
    + intros j Hj. rewrite (entry_set_entry i j) by (by rewrite Hl). destruct (Nat.eqb_spec j i) as [->|]; [|done].
      by rewrite (entry_lookup _ _ _ Hip).
  - destruct Hs as [Hno (_ & ip & Hip & Hr)]. rewrite Nat.sub_0_r in Hip.
    pose proof (lookup_lt_Some _ _ _ Hip) as Hi. rewrite Hl in Hi. split; [done|].
    set (ip' := recycle dv nm (entry i s)). rewrite !(entry_set_entry i i ip' s) by (by rewrite Hl). rewrite Nat.eqb_refl.
    assert (Hfree : held i hs = 0) by (rewrite <- (Href i Hi), (entry_lookup _ _ _ Hip); done). split_and!.
    + apply (table_change s hs i ip' (i :: hs) (fdisk s)); try done.
      * intros j [->|Hj]%elem_of_cons; [done | by apply Hin].
      * intros j Hj. rewrite held_cons. destruct (Nat.eqb_spec j i) as [->|]; [simpl; lia | lia].
      * right. intros j Hj Hlive [E1 E2]. assert (Hm : matches dv nm (entry j s) = true) by (by apply matches_spec).
        by rewrite (Hno j _ (Hlook j Hj)) in Hm.
    + done.
    + done.
    + intros j Hj. rewrite (entry_set_entry i j) by (by rewrite Hl). destruct (Nat.eqb_spec j i) as [->|]; [|done].
      apply held_pos in Hj. lia.
  - destruct Hs as [Hno Hfull]. intros j Hj. assert (Hlive : live s j).
    { unfold live. pose proof (Hfull j _ (Hlook j Hj)) as H0. rewrite (Href j Hj) in *. pose proof (Hpos j). lia. }
    split; [done|]. intros [E1 E2]. assert (Hm : matches dv nm (entry j s) = true) by (by apply matches_spec).
    by rewrite (Hno j _ (Hlook j Hj)) in Hm.
Qed.

(** ** The steps *)

(** Same inode, with [k] more references. *)
Definition same_but (k : Z) (ip ip' : inode) : Prop := dev ip' = dev ip /\ inum ip' = inum ip /\ iref ip' = iref ip + k.

Lemma same_but_refl ip : same_but 0 ip ip.
Proof. split_and!; [done | done | lia]. Qed.

Lemma free_direct_same : forall k i ip d ip' d', free_direct sb k i ip d = Some (ip', d') -> same_but 0 ip ip'.
Proof.
  induction k as [|k IH]; intros i ip d ip' d'; cbn [free_direct]; [intros [= <- _]; apply same_but_refl|].
  destruct (direct i ip =? 0); [apply IH|]. destruct (bfree sb (direct i ip) d); [|done]. cbn [mbind option_bind].
  intros H. by apply IH in H.
Qed.

Lemma free_indirect_same ip d ip' d' : free_indirect sb ip d = Some (ip', d') -> same_but 0 ip ip'.
Proof.
  unfold free_indirect. destruct (direct NDIRECT ip =? 0); [intros [= <- _]; apply same_but_refl|].
  destruct (free_entries sb _ _ _ d) as [d1|]; [|done]. cbn [mbind option_bind].
  destruct (bfree sb _ d1); [|done]. cbn [mbind option_bind]. intros [= <- _]. exact (same_but_refl ip).
Qed.

Lemma itrunc_same ip d ip' d' : itrunc sb ip d = Some (ip', d') -> same_but 0 ip ip'.
Proof.
  unfold itrunc. destruct (free_direct sb _ 0 ip d) as [[ip1 d1]|] eqn:E1; [|done]. cbn [mbind option_bind].
  destruct (free_indirect sb ip1 d1) as [[ip2 d2]|] eqn:E2; [|done]. cbn [mbind option_bind]. intros [= <- _].
  apply free_direct_same in E1 as (D1 & N1 & R1). apply free_indirect_same in E2 as (D2 & N2 & R2).
  split_and!; simpl; (congruence || lia).
Qed.

(** A slot changed by an operation of a process that holds it. *)
Lemma slot_change s hs i ip k hs' d :
  table_ok s hs -> i ∈ hs -> same_but k (entry i s) ip -> (forall j, j ∈ hs' -> (j < NINODE)%nat) ->
  (forall j, held j hs' = held j hs + if (j =? i)%nat then k else 0) ->
  let s' := set_disk d (set_entry i ip s) in
  table_ok s' hs' /\ forall j, dev (entry j s') = dev (entry j s) /\ inum (entry j s') = inum (entry j s).
Proof.
  intros Hok Hi (D & N & R) Hin' Hheld s'. pose proof (t_in _ _ Hok i Hi) as Hlt. split.
  - apply (table_change s hs); try done.
    + intros j Hj. rewrite Hheld. destruct (Nat.eqb_spec j i) as [->|]; [|lia]. rewrite R, (t_ref _ _ Hok) by done. done.
    + left. split_and!; [done | done|]. unfold live. rewrite (t_ref _ _ Hok) by done. by apply held_pos.
  - intros j. change (entry j s') with (entry j (set_entry i ip s)).
    rewrite (entry_set_entry i j) by (by rewrite (t_len _ _ Hok)). destruct (Nat.eqb_spec j i) as [->|]; done.
Qed.

Lemma set_disk_same s : set_disk (fdisk s) s = s.
Proof. by destruct s. Qed.

Lemma table_set_disk s hs d : table_ok s hs -> table_ok (set_disk d s) hs.
Proof. by intros []. Qed.

Lemma ialloc_loop_spec dv type hs : forall k nm s i s', table_ok s hs -> ialloc_loop sb k dv type nm s = Ok (Some i, s') ->
  table_ok s' (i :: hs) /\ forall j, j ∈ hs -> dev (entry j s') = dev (entry j s) /\ inum (entry j s') = inum (entry j s).
Proof.
  induction k as [|k IH]; intros nm s i s' Hok; simpl; [done|]. destruct (get_short 0 _ =? 0); [|by apply IH].
  set (d := put _ _ _). pose proof (iget_spec dv nm (set_disk d s) hs (table_set_disk s hs d Hok)) as Hg.
  destruct (iget dv nm (set_disk d s)) as [[i1 s1]| |]; [|done..]. cbn [mbind res_bind]. intros [= <- <-].
  destruct Hg as (_ & H1 & _ & _ & H2). done.
Qed.

(** Every operation keeps the table consistent, and no slot changes its inode
    under a reference. *)
Lemma istep_ok s hs s' hs' : table_ok s hs -> istep (s, hs) (s', hs') ->
  table_ok s' hs' /\ forall j, j ∈ hs -> dev (entry j s') = dev (entry j s) /\ inum (entry j s') = inum (entry j s).
Proof.
  intros Hok Hst.
  assert (Hcons : forall i, i ∈ hs -> forall j, j ∈ i :: hs -> (j < NINODE)%nat).
  { intros i Hi j [->|Hj]%elem_of_cons; by apply (t_in _ _ Hok). }
  assert (Hzero : forall i j, held j hs = held j hs + if (j =? i)%nat then 0 else 0) by (intros i j; destruct (j =? i)%nat; lia).
  inversion Hst as [dv nm i|dv ty i|i|i|i|i s0 s1 h1 h2 Hput]; subst.
  - pose proof (iget_spec dv nm s hs Hok) as Hg. match goal with H : iget _ _ _ = _ |- _ => rewrite H in Hg end. by destruct Hg as (_ & ? & _ & _ & ?).
  - match goal with H : ialloc _ _ _ _ = _ |- _ => apply (ialloc_loop_spec _ _ _ _ _ _ _ _ Hok H) end.
  - unfold idup. rewrite <- (set_disk_same (set_entry i _ s)).
    destruct (slot_change s hs i (set_ref (iref (entry i s) + 1) (entry i s)) 1 (i :: hs) (fdisk s)) as [H1 H2];
      [done | done | done | by apply Hcons | intros j; by rewrite held_cons | auto].
  - match goal with H : ilock _ _ _ = _ |- _ => unfold ilock in H; revert H end.
    destruct (iref (entry i s) <? 1); [done|]. destruct (locked (entry i s)); [done|].
    destruct (valid (entry i s)); [|simpl; destruct (get_short _ _ =? 0); [done|]]; intros [= <-];
      match goal with |- table_ok (set_entry i ?ip s) _ /\ _ =>
        destruct (slot_change s hs' i ip 0 hs' (fdisk s)) as [H1 H2]; auto; [split_and!; simpl; (done || lia) | apply Hok] end.
  - match goal with H : iunlock _ _ = _ |- _ => unfold iunlock in H; revert H end.
    destruct (negb _ || _); [done|]. intros [= <-].
    destruct (slot_change s hs' i (set_lock false (entry i s)) 0 hs' (fdisk s)) as [H1 H2]; auto; [split_and!; simpl; (done || lia) | apply Hok].
  - assert (Hi : i ∈ h1 ++ i :: h2) by set_solver.
    assert (Hsub : forall j, j ∈ h1 ++ h2 -> (j < NINODE)%nat) by (intros j Hj; apply (t_in _ _ Hok); set_solver).
    assert (Hh : forall j, held j (h1 ++ h2) = held j (h1 ++ i :: h2) + if (j =? i)%nat then -1 else 0).
    { intros j. rewrite held_remove. destruct (j =? i)%nat; lia. }
    unfold iput in Hput. destruct ((iref (entry i s) =? 1) && valid (entry i s) && (nlink (entry i s) =? 0)).
    + destruct (locked (entry i s)); [done|]. destruct (itrunc sb (entry i s) (fdisk s)) as [[ip1 d1]|] eqn:Et; [|done].
      cbn [mbind res_bind or_panic] in Hput. injection Hput as <-. apply itrunc_same in Et as (D & N & R).
      set (ip2 := set_ref _ _). set (d2 := ifree _ _ _).
      change (set_disk d2 (set_entry i ip2 (set_disk d1 s))) with (set_disk d2 (set_entry i ip2 s)).
      destruct (slot_change s _ i ip2 (-1) (h1 ++ h2) d2 Hok Hi) as [H1 H2]; auto. split_and!; simpl; (done || lia).
    + injection Hput as <-. rewrite <- (set_disk_same (set_entry i _ s)).
      destruct (slot_change s _ i (set_ref (iref (entry i s) - 1) (entry i s)) (-1) (h1 ++ h2) (fdisk s) Hok Hi) as [H1 H2]; auto.
      split_and!; simpl; (done || lia).
Qed.

Lemma iinit_ok d : table_ok (iinit d) [].
Proof.
  assert (He : forall i, (i < NINODE)%nat -> entry i (iinit d) = null_inode).
  { intros i Hi. apply entry_lookup. by apply lookup_replicate_2. }
  split; [done | by intros i Hi%elem_of_nil | intros i Hi; by rewrite He|].
  intros i j Hi Hj. unfold live. rewrite He by done. simpl. lia.
Qed.

Lemma rtc_ok x y : rtc istep x y -> table_ok x.1 x.2 -> table_ok y.1 y.2.
Proof.
  induction 1 as [x|[s hs] [s' hs'] z Hst _ IH]; [done|]. intros Hok. apply IH. by apply (istep_ok s hs).
Qed.

(** C10: the inode table counts its references.  After any sequence of [iget],
    [idup], [ialloc], [ilock], [iunlock] and [iput] by any number of
    processes, the count of every slot is the number of references held to
    it; no two referenced slots hold the same inode; a slot keeps its inode
    as long as it is referenced; and [iget] answers with the slot of the
    inode it is asked for, the one in use if there is one, and panics only
    when all slots are in use for other inodes. *)
Theorem itable_refs_exact d s hs :
  rtc istep (iinit d, []) (s, hs) ->
  (forall i, (i < NINODE)%nat -> iref (entry i s) = held i hs) /\
  (forall i j, i ∈ hs -> j ∈ hs -> dev (entry i s) = dev (entry j s) -> inum (entry i s) = inum (entry j s) -> i = j) /\
  (forall s' hs', istep (s, hs) (s', hs') ->
     forall i, i ∈ hs -> dev (entry i s') = dev (entry i s) /\ inum (entry i s') = inum (entry i s)) /\
  (forall dv nm,
     match iget dv nm s with
     | Ok (i, s') => dev (entry i s') = dv /\ inum (entry i s') = nm /\
         forall j, j ∈ hs -> dev (entry j s) = dv -> inum (entry j s) = nm -> i = j
     | Panic => forall j, (j < NINODE)%nat -> j ∈ hs /\ ~ (dev (entry j s) = dv /\ inum (entry j s) = nm)
     | Wait => False
     end).
Proof.
  intros Hr. pose proof (rtc_ok _ _ Hr (iinit_ok d)) as Hok. simpl in Hok. pose proof Hok as [Hl Hin Href Honce].
  assert (Hlive : forall i, i ∈ hs -> live s i) by (intros i Hi; unfold live; rewrite Href by auto; by apply held_pos).
  split_and!; [done | intros i j Hi Hj; apply Honce; auto | intros s' hs' Hst; by apply (istep_ok s hs s' hs')|].
  intros dv nm. pose proof (iget_spec dv nm s hs Hok) as Hg. destruct (iget dv nm s) as [[i s']| |]; [|intros j Hj|done].
  - destruct Hg as (Hi & Hok' & Hd & Hn & Hsame). split_and!; [done | done|]. intros j Hj E1 E2. destruct (Hsame j Hj) as [D N].
    apply (t_once _ _ Hok'); try congruence; [by auto | |]; unfold live; rewrite (t_ref _ _ Hok') by auto; apply held_pos; set_solver.
  - destruct (Hg j Hj) as [H1 H2]. split; [|done]. apply held_pos. rewrite <- Href by done. exact H1.
Qed.
End References.

(** Inode 1 is obtained twice, and given back once. *)
Definition twice : fsys := set_entry 0 (set_ref 2 (recycle 1 1 null_inode)) (iinit ∅).
Definition once : fsys := set_entry 0 (set_ref 1 (recycle 1 1 null_inode)) (iinit ∅).

Lemma itable_refs_exact_witness :
  iref (entry 0 once) = held 0 [0%nat] /\ rtc (istep demo_sb) (iinit ∅, []) (once, [0%nat]).
Proof.
  assert (Hr : rtc (istep demo_sb) (iinit ∅, []) (once, [0%nat])).
  { eapply rtc_l; [apply (step_get demo_sb 1 1 0 (iinit ∅) (set_entry 0 (recycle 1 1 null_inode) (iinit ∅)) []); by vm_compute|].
    eapply rtc_l; [apply (step_get demo_sb 1 1 0 _ twice [0%nat]); by vm_compute|].
    eapply rtc_l; [apply (step_put demo_sb 0 twice once [] [0%nat]); by vm_compute|]. apply rtc_refl. }
  destruct (itable_refs_exact demo_sb ∅ once [0%nat] Hr) as [H _]. split; [|exact Hr]. apply H. unfold NINODE. lia.
Defined.
