(* ===== verification/Reclaim.v ===== *)
(** * Orphaned inodes are reclaimed (xv6/kernel/fs.c, [ireclaim])

    A crash can leave inodes that no directory links to but that are still
    allocated.  [ireclaim], called when the file system is mounted, frees
    them and their blocks. *)
From S2P Require Import Prelude Disk Balloc Inode Content Rw Trunc Itable.
Local Open Scope Z_scope.

Section Reclaim.
Context (sb : superblock) (Hlay : layout_ok sb).

Local Abbreviation dinode := (dinode_at sb).

Definition type_of (d : disk) (i : Z) : Z := get_short 0 (dinode i d).

(** Inode [i] as the disk has it. *)
Definition stored (d : disk) (i : Z) : inode := load_dinode (dinode i d) (recycle 1 i null_inode).

(** Every allocated inode has a tree in good order, and no two share a
    block. *)
Record fs_wf (d : disk) : Prop := mkFsWf {
  wf_disk : disk_ok sb d;
  wf_trees : forall i, inum_ok sb i -> type_of d i <> 0 -> inode_wf sb d (stored d i);
  wf_apart : forall i j, inum_ok sb i -> inum_ok sb j -> i <> j -> type_of d i <> 0 -> type_of d j <> 0 ->
    disjoint d (stored d i) (stored d j)
}.

(** ** A store into a slot of the inode area *)
Section SlotStore.
Context (d : disk) (nm : Z) (bs : list ascii).
Context (Hok : disk_ok sb d) (Hin : inum_ok sb nm) (Hbs : (length bs <= 64)%nat).

Definition slot_store : disk := put (IBLOCK sb nm) (splice (slot nm) bs (get d (IBLOCK sb nm))) d.

Lemma slot_store_fits : (slot nm + length bs <= length (get d (IBLOCK sb nm)))%nat.
Proof. rewrite (dk_sized _ _ Hok). pose proof (slot_le nm). lia. Qed.

Lemma slot_store_other i : i <> nm -> dinode i slot_store = dinode i d.
Proof.
  intros Hne. unfold dinode_at, slot_store. rewrite get_store.
  destruct (Z.eqb_spec (IBLOCK sb i) (IBLOCK sb nm)) as [E|]; [|done]. rewrite E.
  apply bytes_at_splice_other; [apply slot_store_fits|]. destruct (slot_distinct sb i nm E Hne); lia.
Qed.

Lemma slot_store_get b : ~ (0 <= b < bmapstart sb) -> get slot_store b = get d b.
Proof.
  intros Hb. unfold slot_store. rewrite get_store. pose proof (IBLOCK_meta sb nm Hlay Hin).
  destruct (Z.eqb_spec b (IBLOCK sb nm)); [lia | done].
Qed.

Lemma slot_store_used b : 0 <= b < size sb -> used sb slot_store b = used sb d b.
Proof. intros Hb. apply used_put_other; [|done]. pose proof (IBLOCK_meta sb nm Hlay Hin). unfold is_map. lia. Qed.

Lemma slot_store_ok : disk_ok sb slot_store.
Proof.
  split.
  - apply sized_put; [apply Hok|]. rewrite length_splice by apply slot_store_fits. apply Hok.
  - intros b Hb Hb2. rewrite slot_store_used by lia. by apply Hok.
Qed.

Lemma slot_store_keeps jp : inode_wf sb d jp -> keeps d slot_store jp /\ inode_wf sb slot_store jp.
Proof.
  intros Hj. assert (Hk : keeps d slot_store jp).
  { apply keeps_intro. intros q Hq H0. apply slot_store_get. destruct (wf_data _ _ _ Hj q Hq H0) as [Hd _].
    by apply (data_pos sb Hlay). }
  split; [done|]. split; [apply Hj| |].
  - intros q Hq. rewrite (proj1 Hk) by done. intros H0. destruct (wf_data _ _ _ Hj q Hq H0). split; [done|].
    rewrite slot_store_used; [done | by apply (data_pos sb Hlay)].
  - intros q r Hq Hr. rewrite !(proj1 Hk) by done. by apply Hj.
Qed.
End SlotStore.

Lemma ifree_type d nm : disk_ok sb d -> type_of (ifree sb nm d) nm = 0.
Proof.
  intros Hok. unfold type_of, dinode_at, ifree. rewrite get_store, Z.eqb_refl. unfold get_short, bytes_at.
  rewrite drop_0, take_take. change (2 `min` 64)%nat with (length (unle 2 0)).
  change (take ?n (drop ?o ?x)) with (bytes_at o n x). rewrite bytes_at_splice_same; [done|].
  rewrite (dk_sized _ _ Hok). pose proof (slot_le nm). simpl. lia.
Qed.

(** ** The effect of a reclamation

    The orphans with a number in [S] are gone, and only they. *)
Definition doomed (S : Z -> Prop) (d : disk) (i : Z) : Prop := S i /\ inum_ok sb i /\ orphan sb i d = true.

Record reclaimed (S : Z -> Prop) (d d' : disk) : Prop := mkReclaimed {
  r_fs : fs_wf d';
  r_dinode : forall i, inum_ok sb i -> ~ doomed S d i -> dinode i d' = dinode i d;
  r_gone : forall i, doomed S d i -> type_of d' i = 0;
  r_keeps : forall i, inum_ok sb i -> ~ doomed S d i -> type_of d i <> 0 -> keeps d d' (stored d i);
  r_used : forall b, 0 <= b < size sb ->
    used sb d' b = true <-> used sb d b = true /\ ~ exists i, doomed S d i /\ blocks_of d (stored d i) b
}.

Lemma orphan_type d i : orphan sb i d = true -> type_of d i <> 0 /\ get_short 6 (dinode i d) = 0.
Proof. unfold orphan, type_of. intros [H1 H2]%andb_true_iff. apply negb_true_iff, Z.eqb_neq in H1. by apply Z.eqb_eq in H2. Qed.

Lemma doomed_dec S d i : Decision (S i) -> Decision (doomed S d i).
Proof. intros HS. unfold doomed, inum_ok. apply _. Qed.

Lemma reclaimed_ext S T d d' : (forall i, S i <-> T i) -> reclaimed S d d' -> reclaimed T d d'.
Proof.
  intros E [R1 R2 R3 R4 R5]. assert (Hd : forall i, doomed S d i <-> doomed T d i) by (intros i; unfold doomed; by rewrite E).
  split; [done | intros i Hi Hn; apply R2; [done | by rewrite Hd] | intros i Hi; apply R3; by rewrite Hd |
    intros i Hi Hn; apply R4; [done | by rewrite Hd]|].
  intros b Hb. rewrite R5 by done. by setoid_rewrite Hd.
Qed.

(** Nothing happens when there is no orphan among [S]. *)
Lemma reclaimed_idle S d : fs_wf d -> (forall i, ~ doomed S d i) -> reclaimed S d d.
Proof.
  intros Hwf Hno. split; [done | done | intros i Hd; by destruct (Hno i) | intros i _ _ _; apply file_keeps_refl|].
  intros b Hb. split; [intros Hu; split; [done|]; intros (i & Hd & _); by destruct (Hno i) | by intros [? _]].
Qed.

Lemma blocks_of_keeps d d' ip b : keeps d d' ip -> blocks_of d' ip b <-> blocks_of d ip b.
Proof.
  intros [Hp _]. unfold blocks_of. split; intros [H0 (p & Hlt & E)]; split; try done; exists p; split; try done.
  - by rewrite <- Hp.
  - by rewrite Hp.
Qed.

Lemma stored_same d d' i : dinode i d' = dinode i d -> stored d' i = stored d i /\ type_of d' i = type_of d i /\ orphan sb i d' = orphan sb i d.
Proof. intros E. unfold stored, type_of, orphan. by rewrite E. Qed.

Lemma reclaimed_trans S T d1 d2 d3 : (forall i, Decision (S i)) -> (forall i, S i -> ~ T i) ->
  reclaimed S d1 d2 -> reclaimed T d2 d3 -> reclaimed (fun i => S i \/ T i) d1 d3.
Proof.
  intros HS Hdis H1 H2.
  assert (HT : forall i, T i -> inum_ok sb i -> dinode i d2 = dinode i d1).
  { intros i Hi Hin. apply (r_dinode _ _ _ H1); [done|]. intros [Hs _]. by apply (Hdis i). }
  assert (Hd2 : forall i, T i -> doomed T d2 i <-> doomed T d1 i).
  { intros i Hi. unfold doomed. split; intros (_ & Hin & Ho); (split_and!; [done | done|]);
      destruct (stored_same _ _ _ (HT i Hi Hin)) as (_ & _ & E); congruence. }
  assert (Hsplit : forall i, doomed (fun i => S i \/ T i) d1 i <-> doomed S d1 i \/ doomed T d1 i) by (unfold doomed; tauto).
  assert (HnT : forall i, ~ doomed T d1 i -> ~ doomed T d2 i) by (intros i Hn Hd; apply Hn, Hd2; [apply Hd | done]).
  assert (HTb : forall i b, doomed T d1 i -> blocks_of d2 (stored d2 i) b <-> blocks_of d1 (stored d1 i) b).
  { intros i b Hd. pose proof (HT i (proj1 Hd) (proj1 (proj2 Hd))) as E. destruct (stored_same _ _ _ E) as (-> & _ & _).
    apply blocks_of_keeps, (r_keeps _ _ _ H1); [apply Hd | | by apply orphan_type, Hd].
    intros [Hs _]. apply (Hdis i); [done | apply Hd]. }
  split.
  - apply H2.
  - intros i Hin Hn. rewrite Hsplit in Hn. rewrite (r_dinode _ _ _ H2), (r_dinode _ _ _ H1); auto 10.
  - intros i Hd. destruct (doomed_dec S d1 i (HS i)) as [Hs|Hs].
    + pose proof (r_gone _ _ _ H1 i Hs) as Hz. pose proof (proj1 (proj2 Hs)) as Hin.
      assert (E : dinode i d3 = dinode i d2).
      { apply (r_dinode _ _ _ H2); [done|]. intros [Ht _]. apply (Hdis i); [apply Hs | done]. }
      by destruct (stored_same _ _ _ E) as (_ & -> & _).
    + apply Hsplit in Hd as [?|Ht]; [done|]. apply (r_gone _ _ _ H2). apply Hd2; [apply Ht | done].
  - intros i Hin Hn Hty. rewrite Hsplit in Hn. destruct (stored_same _ _ _ (r_dinode _ _ _ H1 i Hin ltac:(tauto))) as (Es & Et & _).
    apply (file_keeps_trans _ d2); [apply (r_keeps _ _ _ H1); tauto|]. rewrite <- Es. apply (r_keeps _ _ _ H2); [done | auto | congruence].
  - intros b Hb. rewrite (r_used _ _ _ H2), (r_used _ _ _ H1) by done. rewrite Logic.and_assoc. apply and_iff_compat_l. split.
    + intros [Hn1 Hn2] (i & Hd & Hbl). apply Hsplit in Hd as [Hs|Ht]; [eauto|]. apply Hn2. exists i.
      split; [by apply Hd2; [apply Ht|] | by apply HTb].
    + intros Hn. split; [intros (i & Hd & Hbl); apply Hn; exists i; split; [apply Hsplit; by left | done]|].
      intros (i & Hd & Hbl). apply Hn. exists i. apply Hd2 in Hd; [|apply Hd]. split; [apply Hsplit; by right | by apply HTb].
Qed.

(** ** One orphan *)

(** A tree depends on the block numbers only. *)
Lemma ptr_addrs d ip jp q : addrs ip = addrs jp -> ptr d ip q = ptr d jp q.
Proof. intros E. unfold ptr, direct. by rewrite E. Qed.

Lemma wf_addrs d ip jp : addrs ip = addrs jp -> inode_wf sb d jp -> inode_wf sb d ip.
Proof.
  intros E [H1 H2 H3]. split; [congruence | intros p; rewrite (ptr_addrs d ip jp p E); apply H2|].
  intros p q. rewrite !(ptr_addrs d ip jp _ E). apply H3.
Qed.

Lemma disjoint_addrs d ip jp kp : addrs ip = addrs jp -> disjoint d jp kp -> disjoint d ip kp.
Proof. intros E H p q. rewrite (ptr_addrs d ip jp p E). apply H. Qed.

Lemma blocks_addrs d ip jp b : addrs ip = addrs jp -> blocks_of d ip b <-> blocks_of d jp b.
Proof. intros E. unfold blocks_of. by setoid_rewrite (fun p => ptr_addrs d ip jp p E). Qed.

(** No inode is in use. *)
Definition idle (s : fsys) : Prop :=
  length (itab s) = NINODE /\ Forall (fun ip => iref ip = 0 /\ locked ip = false) (itab s).

Lemma scan_idle dv nm l : forall i e, Forall (fun ip => iref ip = 0 /\ locked ip = false) l ->
  iget_scan dv nm i l e = inr (match e, l with Some _, _ => e | None, [] => None | None, _ => Some i end).
Proof.
  induction l as [|ip l IH]; intros i e Hl; simpl; [by destruct e|].
  apply Forall_cons in Hl as [[Hr _] Hl]. unfold matches. rewrite Hr. simpl. rewrite IH by done. by destruct e.
Qed.

Lemma entry_set i ip s : (i < length (itab s))%nat -> entry i (set_entry i ip s) = ip.
Proof. intros H. unfold entry, set_entry. simpl. by rewrite nth_lookup, list_lookup_insert_eq. Qed.

Lemma set_set_entry i ip jp s : set_entry i ip (set_entry i jp s) = set_entry i ip s.
Proof. unfold set_entry. simpl. by rewrite list_insert_insert_eq. Qed.

Lemma iget_idle dv nm s : idle s -> iget dv nm s = Ok (0%nat, set_entry 0 (recycle dv nm (entry 0 s)) s).
Proof.
  intros [Hl Hf]. unfold iget. rewrite (scan_idle dv nm (itab s) 0 None Hf). destruct (itab s); [done | done].
Qed.

(** The inode [iput] sees when an orphan is reclaimed. *)
Definition loaded (dv nm : Z) (s : fsys) : inode :=
  set_lock false (load_dinode (dinode nm (fdisk s)) (set_lock true (recycle dv nm (entry 0 s)))).

Lemma reclaim_orphan dv nm s d1 : idle s -> orphan sb nm (fdisk s) = true ->
  itrunc sb (loaded dv nm s) (fdisk s) = Some (emptied (loaded dv nm s), d1) ->
  reclaim sb dv nm s =
  Ok (set_disk (ifree sb nm d1) (set_entry 0 (set_ref 0 (set_valid false (emptied (loaded dv nm s)))) s)).
Proof.
  intros Hidle Ho Et. unfold reclaim. rewrite Ho, (iget_idle dv nm s Hidle). cbn [mbind res_bind].
  destruct Hidle as [Hl Hf]. assert (H0 : (0 < length (itab s))%nat) by (rewrite Hl; unfold NINODE; lia).
  assert (Hlock : locked (entry 0 s) = false).
  { unfold entry. rewrite nth_lookup. destruct (lookup_lt_is_Some_2 _ _ H0) as [ip Hip]. rewrite Hip.
    by apply (Forall_lookup_1 _ _ _ _ Hf Hip). }
  destruct (orphan_type _ _ Ho) as [Hty Hln].
  unfold ilock. rewrite entry_set by done. simpl. rewrite Hlock. unfold type_of in Hty.
  destruct (Z.eqb_spec (get_short 0 (dinode nm (fdisk s))) 0); [done|]. cbn [mbind res_bind]. rewrite set_set_entry.
  unfold iunlock. rewrite entry_set by done. simpl. rewrite set_set_entry. fold (loaded dv nm s).
  unfold iput. rewrite entry_set by done. simpl. rewrite Hln. simpl. fold (loaded dv nm s). rewrite Et.
  cbn [mbind res_bind or_panic]. unfold set_disk, set_entry. simpl. by rewrite list_insert_insert_eq.
Qed.

(** Freeing the tree and then the inode of an orphan. *)
Lemma free_reclaimed dv nm s d1 : fs_wf (fdisk s) -> inum_ok sb nm -> orphan sb nm (fdisk s) = true ->
  itrunc sb (loaded dv nm s) (fdisk s) = Some (emptied (loaded dv nm s), d1) ->
  reclaimed (eq nm) (fdisk s) (ifree sb nm d1).
Proof.
  intros [Hok Htrees Hapart] Hin Ho Et. set (d := fdisk s) in *. set (ip := loaded dv nm s) in *.
  destruct (orphan_type _ _ Ho) as [Hty _].
  assert (Hadr : addrs ip = addrs (stored d nm)) by done.
  assert (Hwf : inode_wf sb d ip) by (apply (wf_addrs d ip _ Hadr), Htrees; done).
  destruct (itrunc_spec sb Hlay ip d Hok Hwf Hin) as (d1' & Et' & Hu & Hok1 & _ & _ & Hdin & Hfr).
  rewrite Et in Et'. injection Et' as <-.
  assert (Hlen : (length (unle 2 0) <= 64)%nat) by (simpl; lia).
  change (ifree sb nm d1) with (slot_store d1 nm (unle 2 0)). set (d2 := slot_store d1 nm (unle 2 0)).
  assert (Hdin2 : forall i, inum_ok sb i -> i <> nm -> dinode i d2 = dinode i d).
  { intros i Hi Hne. unfold d2. rewrite slot_store_other by done. by apply Hdin. }
  assert (Hdoom : forall i, doomed (eq nm) d i <-> i = nm).
  { intros i. unfold doomed. split; [by intros [-> _] | by intros ->]. }
  assert (Hother : forall i, inum_ok sb i -> i <> nm -> type_of d i <> 0 -> keeps d d2 (stored d i) /\ inode_wf sb d2 (stored d i)).
  { intros i Hi Hne Ht. destruct (Hfr (stored d i)) as [Hk Hw]; [by apply Htrees | |].
    - apply (disjoint_addrs d ip (stored d nm) _ Hadr). by apply Hapart.
    - destruct (slot_store_keeps d1 nm (unle 2 0) Hin Hlen _ Hw) as [Hk2 Hw2]. split; [|done].
      by apply (file_keeps_trans _ d1). }
  assert (Hz : type_of d2 nm = 0) by (by apply ifree_type).
  assert (Hsame : forall i, inum_ok sb i -> type_of d2 i <> 0 -> i <> nm /\ stored d2 i = stored d i /\ type_of d i <> 0).
  { intros i Hi Ht. assert (Hne : i <> nm) by congruence. destruct (stored_same _ _ _ (Hdin2 i Hi Hne)) as (E1 & E2 & _).
    split_and!; [done | done | congruence]. }
  split.
  - split; [by apply slot_store_ok| |].
    + intros i Hi Ht. destruct (Hsame i Hi Ht) as (Hne & -> & Ht'). by apply Hother.
    + intros i j Hi Hj Hij Ht1 Ht2. destruct (Hsame i Hi Ht1) as (Hn1 & -> & Hti). destruct (Hsame j Hj Ht2) as (Hn2 & -> & Htj).
      intros p q Hp Hq. rewrite (proj1 (proj1 (Hother i Hi Hn1 Hti))), (proj1 (proj1 (Hother j Hj Hn2 Htj))) by done.
      by apply Hapart.
  - intros i Hi Hn. apply Hdin2; [done|]. by rewrite Hdoom in Hn.
  - intros i Hd. apply Hdoom in Hd as ->. done.
  - intros i Hi Hn Ht. apply Hother; [done | by rewrite Hdoom in Hn | done].
  - intros b Hb. unfold d2. rewrite slot_store_used, Hu by done. rewrite (blocks_addrs d ip (stored d nm) b Hadr).
    split; intros [H1 H2]; (split; [done|]).
    + intros (i & Hd & Hbl). apply Hdoom in Hd as ->. done.
    + intros Hbl. apply H2. exists nm. split; [by apply Hdoom | done].
Qed.

Lemma reclaim_spec dv nm s : idle s -> fs_wf (fdisk s) -> inum_ok sb nm ->
  exists s', reclaim sb dv nm s = Ok s' /\ idle s' /\ reclaimed (eq nm) (fdisk s) (fdisk s').
Proof.
  intros Hidle Hwf Hin. destruct (orphan sb nm (fdisk s)) eqn:Ho.
  - destruct (orphan_type _ _ Ho) as [Hty _].
    destruct (itrunc_spec sb Hlay (loaded dv nm s) (fdisk s)) as (d1 & Et & _); [apply Hwf | | done|].
    { apply (wf_addrs _ _ (stored (fdisk s) nm)); [done | by apply Hwf]. }
    rewrite (reclaim_orphan dv nm s d1 Hidle Ho Et). eexists. split; [reflexivity|]. split.
    + destruct Hidle as [Hl Hf]. split; simpl; [by rewrite length_insert|]. apply Forall_insert; [done|]. done.
    + by apply (free_reclaimed dv nm s).
  - unfold reclaim. rewrite Ho. exists s. split_and!; [done | done|].
    apply reclaimed_idle; [done|]. intros i (<- & _ & H). congruence.
Qed.

Lemma reclaim_loop_spec dv : forall k nm s, idle s -> fs_wf (fdisk s) -> 0 < nm -> nm + Z.of_nat k <= ninodes sb ->
  exists s', reclaim_loop sb k dv nm s = Ok s' /\ idle s' /\
    reclaimed (fun i => nm <= i < nm + Z.of_nat k) (fdisk s) (fdisk s').
Proof.
  induction k as [|k IH]; intros nm s Hidle Hwf H0 Hk; cbn [reclaim_loop].
  { exists s. split_and!; [done | done|]. apply reclaimed_idle; [done|]. intros i (? & _). lia. }
  destruct (reclaim_spec dv nm s Hidle Hwf) as (s1 & -> & Hidle1 & H1); [unfold inum_ok; lia|]. cbn [mbind res_bind].
  destruct (IH (nm + 1) s1 Hidle1 (r_fs _ _ _ H1)) as (s2 & -> & Hidle2 & H2); [lia | lia|].
  exists s2. split_and!; [done | done|].
  assert (E : forall i, (nm = i \/ nm + 1 <= i < nm + 1 + Z.of_nat k) <-> nm <= i < nm + Z.of_nat (S k)) by (intros i; lia).
  apply (reclaimed_ext _ _ _ _ E), (reclaimed_trans _ _ _ (fdisk s1)); [apply _ | intros i; lia | done | done].
Qed.

Lemma iinit_idle d : idle (iinit d).
Proof. split; [done|]. by apply Forall_replicate. Qed.

(** C27: mounting a file system reclaims its orphans.  On a disk whose files
    have trees in good order that share no block, [ireclaim] ends without a
    panic; every inode that was allocated without a link is free, and its
    blocks, and no others, are free too; every other inode is as it was, and
    so is every block of its file; the file system is still in good order. *)
Theorem ireclaim_frees_orphans dv d :
  fs_wf d ->
  exists s', ireclaim sb dv (iinit d) = Ok s' /\
    let d' := fdisk s' in
    fs_wf d' /\
    (forall i, inum_ok sb i -> orphan sb i d = true -> type_of d' i = 0) /\
    (forall i, inum_ok sb i -> orphan sb i d = false ->
       dinode i d' = dinode i d /\ (type_of d i <> 0 -> keeps d d' (stored d i))) /\
    (forall b, 0 <= b < size sb ->
       used sb d' b = true <->
       used sb d b = true /\ ~ exists i, inum_ok sb i /\ orphan sb i d = true /\ blocks_of d (stored d i) b).
Proof.
  intros Hwf. pose proof (lay_ninodes _ Hlay) as Hn.
  destruct (reclaim_loop_spec dv (Z.to_nat (ninodes sb - 1)) 1 (iinit d) (iinit_idle d) Hwf) as (s' & E & _ & [R1 R2 R3 R4 R5]); [lia | lia|].
  assert (Hd : forall i, doomed (fun i => 1 <= i < 1 + Z.of_nat (Z.to_nat (ninodes sb - 1))) d i <-> inum_ok sb i /\ orphan sb i d = true)
    by (intros i; unfold doomed, inum_ok; rewrite Z2Nat.id by lia; intuition lia).
  exists s'. split; [exact E|]. split_and!; [exact R1 | | |].
  - intros i Hi Ho. by apply R3, Hd.
  - intros i Hi Ho. assert (Hno : ~ (inum_ok sb i /\ orphan sb i d = true)) by (intros [_ ?]; congruence).
    rewrite <- Hd in Hno. split; [by apply R2 | by apply R4].
  - intros b Hb. simpl in R5. rewrite R5 by done. setoid_rewrite Hd.
    split; intros [H1 H2]; (split; [done|]); intros (i & H3); apply H2; exists i; tauto.
Qed.
End Reclaim.

(** The file of one block lost its last link before a crash. *)
Definition orphan_ip : inode :=
  mkInode 1 1 0 false false 2 0 0 0 5 (addrs one_block).
Definition crashed_disk : disk := iupdate demo_sb orphan_ip one_disk.

Lemma crashed_dinode i : dinode_at demo_sb i crashed_disk = if i =? 1 then dinode_bytes orphan_ip else dinode_at demo_sb i one_disk.
Proof. apply (dinode_iupdate demo_sb orphan_ip one_disk i); [apply one_ok | done]. Defined.

Lemma blank_type i : inum_ok demo_sb i -> get_short 0 (dinode_at demo_sb i one_disk) = 0.
Proof.
  intros Hi. unfold inum_ok in Hi. simpl in Hi. unfold dinode_at, one_disk. rewrite get_store.
  assert (Hb : IBLOCK demo_sb i = 2).
  { unfold IBLOCK, IPB, BSIZE. simpl. change (1024 / 64) with 16. rewrite Z.div_small by lia. done. }
  rewrite Hb. simpl. change (get ∅ 2) with zeroes. rewrite bytes_at_zeroes by apply slot_le. done.
Defined.

Lemma crashed_type i : inum_ok demo_sb i -> type_of demo_sb crashed_disk i = if i =? 1 then 2 else 0.
Proof.
  intros Hi. unfold type_of. rewrite crashed_dinode. destruct (i =? 1); [by vm_compute | by apply blank_type].
Defined.

Lemma crashed_wf : fs_wf demo_sb crashed_disk.
Proof.
  assert (Hone : inum_ok demo_sb 1) by (unfold inum_ok; simpl; lia).
  split.
  - apply (update_ok demo_sb demo_layout one_disk orphan_ip one_ok eq_refl Hone).
  - intros i Hi. rewrite crashed_type by done. destruct (Z.eqb_spec i 1) as [->|]; [|done]. intros _.
    apply (wf_addrs demo_sb crashed_disk _ one_block); [by vm_compute|].
    exact (update_wf demo_sb demo_layout one_disk orphan_ip eq_refl Hone one_block one_wf).
  - intros i j Hi Hj Hne. rewrite !crashed_type by done. destruct (Z.eqb_spec i 1), (Z.eqb_spec j 1); try done; lia.
Defined.

Lemma ireclaim_frees_orphans_witness :
  orphan demo_sb 1 crashed_disk = true /\ used demo_sb crashed_disk 5 = true /\
  exists s', ireclaim demo_sb 1 (iinit crashed_disk) = Ok s' /\ fs_wf demo_sb (fdisk s') /\ type_of demo_sb (fdisk s') 1 = 0.
Proof.
  split; [by vm_compute|]. split; [by vm_compute|].
  destruct (ireclaim_frees_orphans demo_sb demo_layout 1 crashed_disk crashed_wf) as (s' & E & H1 & H2 & _).
  exists s'. split; [exact E|]. split; [exact H1|]. apply H2; [unfold inum_ok; simpl; lia | by vm_compute].
Defined.
