(* ===== verification/Dir.v ===== *)
(** * Directories (xv6/kernel/fs.c, [dirlookup], [dirlink])

    A directory is a file of 16-byte entries, an inode number and a name of
    at most 14 characters; number 0 marks a free entry. *)
From S2P Require Import Prelude KString Disk Balloc Inode Content Rw Trunc Itable.
Local Open Scope Z_scope.

Definition DIRSIZ : nat := 14.
Definition T_DIR : Z := 1.

(** [struct dirent]. *)
Definition de_inum (x : list ascii) : Z := le (bytes_at 0 2 x).
Definition de_name (x : list ascii) : list ascii := bytes_at 2 DIRSIZ x.
Definition dirent (nm : Z) (name : list ascii) : list ascii := unle 2 nm ++ name.

Definition namecmp (s t : cstr) : Z := strncmp DIRSIZ s t.

Section Directory.
Context (sb : superblock).

(** [readi(dp, 0, (uint64)&de, off, sizeof(de))]; a short read is a panic. *)
Definition read_dirent (off : Z) (dp : inode) (d : disk) : res (list ascii * inode * disk) :=
  '(r, bs, dp', d') ← or_panic (readi sb 16 off 16 dp d);
  if r =? 16 then Ok (bs, dp', d') else Panic.

(** The loop of [dirlookup]: offset and number of the entry, if any. *)
Fixpoint lookup_loop (fuel : nat) (name : cstr) (off : Z) (dp : inode) (d : disk) : res (option (Z * Z) * inode * disk) :=
  match fuel with
  | O => Ok (None, dp, d)
  | S fuel' =>
      if off <? isize dp then
        '(de, dp1, d1) ← read_dirent off dp d;
        if de_inum de =? 0 then lookup_loop fuel' name (off + 16) dp1 d1
        else if namecmp name (de_name de) =? 0 then Ok (Some (off, de_inum de), dp1, d1)
        else lookup_loop fuel' name (off + 16) dp1 d1
      else Ok (None, dp, d)
  end.

(** The number of turns of the loops over a directory. *)
Definition turns (dp : inode) : nat := S (Z.to_nat (isize dp / 16)).

(** The slot of the inode found and the offset of its entry. *)
Definition dirlookup (p : nat) (name : cstr) (s : fsys) : res (option (nat * Z) * fsys) :=
  let dp := entry p s in
  if itype dp =? T_DIR then
    '(hit, dp1, d1) ← lookup_loop (turns dp) name 0 dp (fdisk s);
    let s1 := set_disk d1 (set_entry p dp1 s) in
    match hit with
    | Some (off, nm) => '(i, s2) ← iget (dev dp1) nm s1; Ok (Some (i, off), s2)
    | None => Ok (None, s1)
    end
  else Panic.

(** The loop of [dirlink]: the offset of the first free entry, or the size. *)
Fixpoint free_loop (fuel : nat) (off : Z) (dp : inode) (d : disk) : res (Z * inode * disk) :=
  match fuel with
  | O => Ok (off, dp, d)
  | S fuel' =>
      if off <? isize dp then
        '(de, dp1, d1) ← read_dirent off dp d;
        if de_inum de =? 0 then Ok (off, dp1, d1) else free_loop fuel' (off + 16) dp1 d1
      else Ok (off, dp, d)
  end.

Definition dirlink (p : nat) (name : cstr) (nm : Z) (s : fsys) : res (Z * fsys) :=
  '(hit, s1) ← dirlookup p name s;
  match hit with
  | Some (i, _) => s2 ← iput sb i s1; Ok (-1, s2)
  | None =>
      let dp := entry p s1 in
      '(off, dp1, d1) ← free_loop (turns dp) 0 dp (fdisk s1);
      let de := dirent nm (strncpy DIRSIZ name) in
      '(r, dp2, d2) ← or_panic (writei sb (fun i => de !! i) off 16 dp1 d1);
      Ok (if r =? 16 then 0 else -1, set_disk d2 (set_entry p dp2 s1))
  end.

(** ** The entries of a directory *)
Definition dent (d : disk) (dp : inode) (k : nat) : list ascii := slice d dp (16 * Z.of_nat k) 16.

(** The first of the [n] entries from the [k]-th with number and name. *)
Definition is_entry (name : cstr) (x : list ascii) : bool := negb (de_inum x =? 0) && (namecmp name (de_name x) =? 0).

Fixpoint dfind (n k : nat) (e : nat -> list ascii) (name : cstr) : option (nat * Z) :=
  match n with
  | O => None
  | S n' => if is_entry name (e k) then Some (k, de_inum (e k)) else dfind n' (S k) e name
  end.

(** What a directory says about a name. *)
Definition count (dp : inode) : nat := Z.to_nat (isize dp / 16).
Definition dir_lookup (d : disk) (dp : inode) (name : cstr) : option (nat * Z) := dfind (count dp) 0 (dent d dp) name.

Record dir_ok (d : disk) (dp : inode) : Prop := mkDirOk {
  dir_file : file_ok sb d dp;
  dir_type : itype dp = T_DIR;
  dir_size : isize dp mod 16 = 0
}.

Context (Hlay : layout_ok sb).

Lemma dir_count d dp : dir_ok d dp -> isize dp = 16 * Z.of_nat (count dp).
Proof.
  intros [[_ _ _ Hs _] _ Hm]. unfold count. pose proof (Z.div_mod (isize dp) 16). pose proof (Z.div_pos (isize dp) 16). lia.
Qed.

Lemma read_dirent_spec d dp k : disk_ok sb d -> dir_ok d dp -> (k < count dp)%nat ->
  read_dirent (16 * Z.of_nat k) dp d = Ok (dent d dp k, dp, d).
Proof.
  intros Hok Hd Hk. pose proof (dir_count d dp Hd) as Hc. pose proof (fo_size _ _ _ (dir_file _ _ Hd)) as Hs.
  assert (Hmax : isize dp < 2 ^ 31).
  { unfold MAXFILE, NDIRECT, NINDIRECT, BSIZE in Hs. change (1024 / 4) with 256 in Hs. lia. }
  unfold read_dirent. rewrite (readi_spec sb Hlay 16 _ 16 dp d Hok (dir_file _ _ Hd)) by (unfold in_u32; lia).
  unfold available. destruct (Z.ltb_spec (isize dp) (16 * Z.of_nat k)); [lia|].
  destruct (Z.leb_spec (2 ^ 32) (16 * Z.of_nat k + 16)); [lia|]. cbn [orb]. rewrite Z.min_l by lia. done.
Qed.

Lemma lookup_loop_spec name d dp : disk_ok sb d -> dir_ok d dp -> forall fuel k, (count dp < k + fuel)%nat ->
  lookup_loop fuel name (16 * Z.of_nat k) dp d =
  Ok ((fun e => (16 * Z.of_nat e.1, e.2)) <$> dfind (count dp - k) k (dent d dp) name, dp, d).
Proof.
  intros Hok Hd. pose proof (dir_count d dp Hd) as Hc.
  induction fuel as [|fuel IH]; intros k Hf; cbn [lookup_loop].
  { by replace (count dp - k)%nat with 0%nat by lia. }
  destruct (Z.ltb_spec (16 * Z.of_nat k) (isize dp)) as [Hlt|Hge].
  2:{ by replace (count dp - k)%nat with 0%nat by lia. }
  rewrite read_dirent_spec by (done || lia). cbn [mbind res_bind].
  replace (count dp - k)%nat with (S (count dp - S k)) by lia. cbn [dfind]. unfold is_entry.
  replace (16 * Z.of_nat k + 16) with (16 * Z.of_nat (S k)) by lia.
  destruct (de_inum (dent d dp k) =? 0); cbn [negb andb]; [by rewrite IH by lia|].
  destruct (namecmp name _ =? 0); [done | by rewrite IH by lia].
Qed.

(** The first free entry, or the end. *)
Fixpoint ffree (n k : nat) (e : nat -> list ascii) : nat :=
  match n with O => k | S n' => if de_inum (e k) =? 0 then k else ffree n' (S k) e end.

Lemma free_loop_spec d dp : disk_ok sb d -> dir_ok d dp -> forall fuel k, (count dp < k + fuel)%nat -> (k <= count dp)%nat ->
  free_loop fuel (16 * Z.of_nat k) dp d = Ok (16 * Z.of_nat (ffree (count dp - k) k (dent d dp)), dp, d).
Proof.
  intros Hok Hd. pose proof (dir_count d dp Hd) as Hc.
  induction fuel as [|fuel IH]; intros k Hf Hk; cbn [free_loop]; [lia|].
  destruct (Z.ltb_spec (16 * Z.of_nat k) (isize dp)) as [Hlt|Hge].
  2:{ replace (count dp - k)%nat with 0%nat by lia. simpl. do 3 f_equal. }
  rewrite read_dirent_spec by (done || lia). cbn [mbind res_bind].
  replace (count dp - k)%nat with (S (count dp - S k)) by lia. cbn [ffree].
  destruct (de_inum (dent d dp k) =? 0); [done|]. replace (16 * Z.of_nat k + 16) with (16 * Z.of_nat (S k)) by lia.
  by rewrite IH by lia.
Qed.

Lemma ffree_spec e : forall n k, let j := ffree n k e in
  (k <= j <= k + n)%nat /\ ((j < k + n)%nat -> de_inum (e j) = 0).
Proof.
  induction n as [|n IH]; intros k; simpl; [lia|]. destruct (Z.eqb_spec (de_inum (e k)) 0); [split; [lia | done]|].
  specialize (IH (S k)). simpl in IH. destruct IH as [H1 H2]. split; [lia|]. intros H. apply H2. lia.
Qed.

(** ** Searching a list of entries *)
Lemma dfind_Some e name : forall n k i v,
  dfind n k e name = Some (i, v) <->
  (k <= i < k + n)%nat /\ is_entry name (e i) = true /\ v = de_inum (e i) /\ forall j, (k <= j < i)%nat -> is_entry name (e j) = false.
Proof.
  induction n as [|n IH]; intros k i v; simpl; [split; [done | lia]|]. destruct (is_entry name (e k)) eqn:E.
  - split; [intros [= <- <-]; split_and!; (done || lia)|]. intros (Hi & He & -> & Hno).
    destruct (decide (i = k)) as [->|]; [done|]. by rewrite (Hno k) in E by lia.
  - rewrite IH. split; intros (Hi & He & Hv & Hno).
    + split_and!; [lia | lia | done | done|]. intros j Hj. destruct (decide (j = k)) as [->|]; [done | apply Hno; lia].
    + split_and!; [|lia|done|done|intros j Hj; apply Hno; lia]. destruct (decide (i = k)) as [->|]; [congruence | lia].
Qed.

Lemma dfind_None e name n k : dfind n k e name = None <-> forall j, (k <= j < k + n)%nat -> is_entry name (e j) = false.
Proof.
  revert k. induction n as [|n IH]; intros k; simpl; [split; [lia | done]|]. destruct (is_entry name (e k)) eqn:E.
  - split; [done|]. intros H. by rewrite H in E by lia.
  - rewrite IH. split; [|intros H j Hj; apply H; lia]. intros H j Hj. destruct (decide (j = k)) as [->|]; [done | apply H; lia].
Qed.

(** A new entry at a free place, or at the end. *)
Section NewEntry.
Context (e e' : nat -> list ascii) (n n' j : nat).
Context (Hsame : forall k, (k < n')%nat -> k <> j -> e' k = e k) (Hn' : n' = (n `max` S j)%nat) (Hj : (j <= n)%nat).
Context (Hfree : (j < n)%nat -> de_inum (e j) = 0).

Lemma new_entry_found name : dfind n 0 e name = None -> is_entry name (e' j) = true ->
  dfind n' 0 e' name = Some (j, de_inum (e' j)).
Proof.
  rewrite dfind_None. intros Hno Hyes. apply dfind_Some. split_and!; [lia | lia | done | done|].
  intros k Hk. rewrite Hsame by lia. apply Hno. lia.
Qed.

Lemma new_entry_other name : is_entry name (e' j) = false -> dfind n' 0 e' name = dfind n 0 e name.
Proof.
  intros Hno. assert (Hold : (j < n)%nat -> is_entry name (e j) = false) by (intros H; unfold is_entry; by rewrite Hfree).
  destruct (dfind n 0 e name) as [[i v]|] eqn:E.
  - apply dfind_Some in E as (Hi & He & -> & Hf). assert (Hne : i <> j) by (intros ->; rewrite Hold in He by lia; done).
    apply dfind_Some. rewrite !Hsame by lia. split_and!; [lia | lia | done | done|]. intros k Hk.
    destruct (decide (k = j)) as [->|]; [done|]. rewrite Hsame by lia. apply Hf. lia.
  - rewrite dfind_None in E. apply dfind_None. intros k Hk. destruct (decide (k = j)) as [->|]; [done|].
    rewrite Hsame by lia. apply E. lia.
Qed.
End NewEntry.

(** ** Names *)
Lemma char_at_take n (s : cstr) i : (i < n)%nat -> char_at (take n s) i = char_at s i.
Proof. intros H. unfold char_at. by rewrite !nth_lookup, lookup_take_lt. Qed.

Lemma char_at_nul (s : cstr) i : no_nul s -> char_at s i = NUL <-> (length s <= i)%nat.
Proof.
  intros H. unfold char_at. rewrite nth_lookup. split.
  - intros E. destruct (Nat.lt_ge_cases i (length s)) as [Hlt|]; [|done]. exfalso. destruct (lookup_lt_is_Some_2 s i Hlt) as [c Hc].
    rewrite Hc in E. simpl in E. subst c. apply H. by eapply list_elem_of_lookup_2.
  - intros Hle. by rewrite lookup_ge_None_2.
Qed.

Lemma char_at_strncpy n (t : cstr) i : no_nul t -> (i < n)%nat -> char_at (strncpy n t) i = char_at t i.
Proof.
  intros Ht Hi. rewrite strncpy_spec, char_at_take by done. unfold char_at. rewrite !nth_lookup.
  destruct (Nat.lt_ge_cases i (length t)); [by rewrite lookup_app_l|].
  rewrite lookup_app_r, lookup_replicate_2 by lia. by rewrite lookup_ge_None_2.
Qed.

(** Names are compared by their first 14 characters. *)
Lemma namecmp_stored (s t : cstr) : no_nul s -> no_nul t ->
  namecmp s (strncpy DIRSIZ t) = 0 <-> take DIRSIZ s = take DIRSIZ t.
Proof.
  intros Hs Ht. unfold namecmp. rewrite strncmp_zero. split.
  - intros H. assert (Hall : forall i, (i < DIRSIZ)%nat -> (i <= length s)%nat -> char_at s i = char_at t i).
    { intros i Hi Hle. rewrite <- (char_at_strncpy DIRSIZ t) by done. apply H; [done|]. intros j Hj. rewrite char_at_nul by done. lia. }
    assert (Hlen : length (take DIRSIZ s) = length (take DIRSIZ t)).
    { rewrite !length_take. destruct (Nat.lt_trichotomy (length s) (length t)) as [Hlt|[->|Hgt]]; [|done|].
      - destruct (Nat.lt_ge_cases (length s) DIRSIZ) as [Hl|]; [|lia]. pose proof (Hall _ Hl ltac:(lia)) as E.
        rewrite (proj2 (char_at_nul s (length s) Hs)) in E by done. symmetry in E. apply char_at_nul in E; [lia | done].
      - destruct (Nat.lt_ge_cases (length t) DIRSIZ) as [Hl|]; [|lia]. pose proof (Hall _ Hl ltac:(lia)) as E.
        rewrite (proj2 (char_at_nul t (length t) Ht)) in E by done. apply char_at_nul in E; [lia | done]. }
    apply (nth_ext _ _ NUL NUL); [done|]. intros i Hi. change (char_at (take DIRSIZ s) i = char_at (take DIRSIZ t) i).
    rewrite length_take in Hi. rewrite !char_at_take by lia. apply Hall; lia.
  - intros E i Hi _. rewrite char_at_strncpy, <- (char_at_take DIRSIZ t), <- E, char_at_take by done. done.
Qed.

Lemma de_dirent nm x : 0 <= nm < 2 ^ 16 -> length x = DIRSIZ -> de_inum (dirent nm x) = nm /\ de_name (dirent nm x) = x.
Proof.
  intros Hn Hx. unfold de_inum, de_name, dirent. split.
  - rewrite bytes_at_app_l by (rewrite length_unle; lia). unfold bytes_at. rewrite drop_0, take_ge by (rewrite length_unle; lia).
    rewrite le_unle. by apply Z.mod_small.
  - rewrite bytes_at_app_r by (rewrite length_unle; lia). rewrite length_unle. unfold bytes_at. rewrite drop_0. apply take_ge. lia.
Qed.

(** ** Storing an entry *)
Lemma dent_ext d dp d' dp' k : (forall o, 16 * Z.of_nat k <= o < 16 * Z.of_nat k + 16 -> fbyte d' dp' o = fbyte d dp o) ->
  dent d' dp' k = dent d dp k.
Proof.
  intros H. unfold dent, slice. apply list_fmap_ext. intros i x Hi. apply lookup_seq in Hi as [-> Hi]. apply H. lia.
Qed.

Lemma dent_new d dp k de : length de = 16%nat ->
  (forall o, 16 * Z.of_nat k <= o < 16 * Z.of_nat k + 16 -> fbyte d dp o = default NUL (de !! Z.to_nat (o - 16 * Z.of_nat k))) ->
  dent d dp k = de.
Proof.
  intros Hl H. apply list_eq. intros i. unfold dent, slice. rewrite list_lookup_fmap. destruct (Nat.lt_ge_cases i 16) as [Hi|Hi].
  - rewrite lookup_seq_lt by done. simpl. rewrite H by lia. destruct (lookup_lt_is_Some_2 de i) as [c Hc]; [lia|].
    replace (Z.to_nat (16 * Z.of_nat k + Z.of_nat i - 16 * Z.of_nat k)) with i by lia. by rewrite Hc.
  - rewrite (lookup_ge_None_2 (seq 0 16)) by (rewrite length_seq; lia). by rewrite lookup_ge_None_2 by lia.
Qed.

(** Entry [k] lies within the maximal size. *)
Definition fits (k : nat) : Prop := 16 * Z.of_nat k + 16 <= MAXFILE * BSIZE.

Lemma write_dirent d dp j de : disk_ok sb d -> dir_ok d dp -> (j <= count dp)%nat -> fits j -> length de = 16%nat ->
  exists r dp' d', writei sb (fun i => de !! i) (16 * Z.of_nat j) 16 dp d = Some (r, dp', d') /\ disk_ok sb d' /\ dir_ok d' dp' /\
    ((r = 16 /\ count dp' = (count dp `max` S j)%nat /\ dent d' dp' j = de /\
      forall k, fits k -> k <> j -> dent d' dp' k = dent d dp k) \/
     (r = 0 /\ disk_full sb d' /\ count dp' = count dp /\ forall k, fits k -> dent d' dp' k = dent d dp k)).
Proof.
  intros Hok Hd Hj Hf Hde. pose proof (dir_count d dp Hd) as Hc. unfold fits in *.
  destruct (writei_spec sb Hlay (fun i => de !! i) (16 * Z.of_nat j) 16 dp d Hok (dir_file _ _ Hd))
    as (r & k & dp' & d' & E & Hrk & Hk & Hsz & Hsame & Hby & Hsome & Hend & Hfile & Hok' & _); [lia | lia | lia|].
  assert (Hin : (16 * Z.of_nat j) mod BSIZE + 16 <= BSIZE).
  { unfold BSIZE. pose proof (Z.div_mod (16 * Z.of_nat j) 1024 ltac:(lia)). pose proof (Z.mod_pos_bound (16 * Z.of_nat j) 1024 ltac:(lia)). lia. }
  pose proof (writei_one_block sb _ _ 16 dp d r dp' d' ltac:(lia) Hin E) as Hall0.
  assert (Hall : r = 0 \/ r = 16) by lia. clear Hall0.
  assert (Hkr : k = r /\ (r = 16 \/ disk_full sb d')).
  { destruct Hend as [[-> ?]|[Hlt Hnone]]; [done|]. exfalso. apply lookup_ge_None_1 in Hnone. lia. }
  destruct Hkr as [-> Hwhy]. exists r, dp', d'.
  assert (Hty : itype dp' = T_DIR) by (rewrite Hsame; apply Hd).
  assert (Hcnt : Z.of_nat (count dp') = isize dp' / 16) by (unfold count; pose proof (Z.div_pos (isize dp') 16 ltac:(lia) ltac:(lia)); lia).
  split; [done|]. split; [done|]. destruct Hall as [-> | ->].
  - assert (Hs0 : isize dp' = 16 * Z.of_nat (count dp)) by lia. split.
    { split; [done | done|]. rewrite Hs0, Z.mul_comm. apply Z.mod_mul. lia. }
    right. split_and!; [done | by destruct Hwhy | |].
    + rewrite Hs0, Z.mul_comm, Z.div_mul in Hcnt by lia. lia.
    + intros i Hi. apply dent_ext. intros o Ho. rewrite Hby by lia. by rewrite Z.add_0_r, outside.
  - assert (Hs1 : isize dp' = 16 * Z.of_nat (count dp `max` S j)) by lia. split.
    { split; [done | done|]. rewrite Hs1, Z.mul_comm. apply Z.mod_mul. lia. }
    left. split_and!; [done | | |].
    + rewrite Hs1, Z.mul_comm, Z.div_mul in Hcnt by lia. lia.
    + apply dent_new; [done|]. intros o Ho. rewrite Hby by lia.
      destruct (Z.leb_spec (16 * Z.of_nat j) o), (Z.ltb_spec o (16 * Z.of_nat j + 16)); (done || lia).
    + intros i Hi Hne. apply dent_ext. intros o Ho. rewrite Hby by lia.
      destruct (Z.leb_spec (16 * Z.of_nat j) o), (Z.ltb_spec o (16 * Z.of_nat j + 16)); (done || lia).
Qed.

(** ** The operations on the file system *)
Lemma entry_after p ip s d : (p < length (itab s))%nat -> entry p (set_disk d (set_entry p ip s)) = ip.
Proof. intros H. unfold entry, set_entry. simpl. by rewrite nth_lookup, list_lookup_insert_eq. Qed.

(** [dirlookup] is the search of the entries. *)
Lemma dirlookup_spec p name s : disk_ok sb (fdisk s) -> dir_ok (fdisk s) (entry p s) ->
  dirlookup p name s =
  let s1 := set_disk (fdisk s) (set_entry p (entry p s) s) in
  match dir_lookup (fdisk s) (entry p s) name with
  | Some (k, nm) => '(i, s2) ← iget (dev (entry p s)) nm s1; Ok (Some (i, 16 * Z.of_nat k), s2)
  | None => Ok (None, s1)
  end.
Proof.
  intros Hok Hd. unfold dirlookup. rewrite (dir_type _ _ Hd), Z.eqb_refl.
  pose proof (lookup_loop_spec name (fdisk s) (entry p s) Hok Hd (turns (entry p s)) 0 ltac:(unfold turns, count; lia)) as Hl.
  change (16 * Z.of_nat 0) with 0 in Hl. rewrite Hl, Nat.sub_0_r. fold (dir_lookup (fdisk s) (entry p s) name). cbn [mbind res_bind].
  by destruct (dir_lookup (fdisk s) (entry p s) name) as [[k nm]|].
Qed.

(** C26: what is linked is looked up.  Linking a name a well-formed directory that
    has room does not have never panics.  On success the name leads to the inode number it was
    linked to, whatever free entry was taken; every other name, names being
    compared by their first 14 characters, leads where it led before.  It
    fails only when the disk is full, and then no name changes.  The
    directory stays in good order. *)
Theorem dirlink_lookup p name nm s :
  disk_ok sb (fdisk s) -> dir_ok (fdisk s) (entry p s) -> (p < length (itab s))%nat ->
  no_nul name -> 0 < nm < 2 ^ 16 -> isize (entry p s) + 16 <= MAXFILE * BSIZE ->
  dir_lookup (fdisk s) (entry p s) name = None ->
  exists r s', dirlink p name nm s = Ok (r, s') /\
    disk_ok sb (fdisk s') /\ dir_ok (fdisk s') (entry p s') /\
    ((r = 0 /\ (exists k, dir_lookup (fdisk s') (entry p s') name = Some (k, nm)) /\
      forall other, no_nul other -> take DIRSIZ other <> take DIRSIZ name ->
        dir_lookup (fdisk s') (entry p s') other = dir_lookup (fdisk s) (entry p s) other) \/
     (r = -1 /\ disk_full sb (fdisk s') /\
      forall other, dir_lookup (fdisk s') (entry p s') other = dir_lookup (fdisk s) (entry p s) other)).
Proof.
  intros Hok Hd Hp Hname Hnm Hmax Hnone. unfold dirlink. rewrite dirlookup_spec, Hnone by done. cbn [mbind res_bind].
  rewrite entry_after by done. change (fdisk (set_disk ?d _)) with d. set (dp := entry p s) in *. set (d := fdisk s) in *.
  pose proof (dir_count d dp Hd) as Hc. pose proof (ffree_spec (dent d dp) (count dp) 0) as [Hj Hfree].
  pose proof (free_loop_spec d dp Hok Hd (turns dp) 0 ltac:(unfold turns, count; lia) ltac:(lia)) as Hl.
  change (16 * Z.of_nat 0) with 0 in Hl. rewrite Hl, Nat.sub_0_r. cbn [mbind res_bind].
  set (j := ffree (count dp) 0 (dent d dp)) in *. set (de := dirent nm (strncpy DIRSIZ name)).
  destruct (de_dirent nm (strncpy DIRSIZ name) ltac:(lia) (length_strncpy _ _)) as [Hdi Hdn]. fold de in Hdi, Hdn.
  destruct (write_dirent d dp j de Hok Hd) as (r & dp' & d' & -> & Hok' & Hd' & Hcase); [lia | unfold fits; lia | |].
  { unfold de, dirent. by rewrite length_app, length_unle, length_strncpy. }
  cbn [mbind res_bind or_panic]. eexists _, _. split; [reflexivity|].
  rewrite (entry_after p dp') by (simpl; by rewrite length_insert). change (fdisk (set_disk ?d _)) with d.
  split; [done|]. split; [done|]. unfold dir_lookup in *. destruct Hcase as [(-> & Hn & Hnew & Hold)|(-> & Hfull & Hn & Hold)].
  - left. split; [done|]. assert (Hsame : forall k, (k < count dp')%nat -> k <> j -> dent d' dp' k = dent d dp k)
      by (intros k Hk Hne; apply Hold; [unfold fits; lia | done]).
    assert (He : forall other, is_entry other (dent d' dp' j) = (namecmp other (strncpy DIRSIZ name) =? 0)).
    { intros other. unfold is_entry. rewrite Hnew, Hdi, Hdn. destruct (Z.eqb_spec nm 0); [lia | done]. }
    split.
    + exists j. rewrite (new_entry_found _ _ _ _ j Hsame Hn) by (lia || done || (rewrite He; apply Z.eqb_eq, namecmp_stored; done)).
      by rewrite Hnew, Hdi.
    + intros other Ho Hne. apply (new_entry_other _ _ _ _ j Hsame Hn); [lia | done |]. rewrite He.
      apply Z.eqb_neq. by rewrite namecmp_stored.
  - right. split_and!; [done | done|]. intros other. rewrite Hn.
    assert (Hall : forall n k, (k + n <= count dp)%nat -> dfind n k (dent d' dp') other = dfind n k (dent d dp) other).
    { induction n as [|n IH]; intros k Hk; [done|]. simpl. rewrite Hold by (unfold fits; lia). by rewrite IH by lia. }
    apply Hall. lia.
Qed.
End Directory.

(** An empty directory gets its first entry. *)
Definition root_ip : inode := mkInode 1 1 1 true true T_DIR 0 0 1 0 (replicate 13 0).
Definition root_fs : fsys := set_entry 0 root_ip (iinit demo_disk).

Lemma root_ok : dir_ok demo_sb demo_disk root_ip.
Proof.
  split; [|done|done]. split; [by apply wf_empty | unfold inum_ok; simpl; lia | | split; by vm_compute|].
  { repeat (apply Forall_cons_2; [simpl; unfold T_DIR; lia|]). apply Forall_nil_2. }
  simpl. intros o Ho. lia.
Defined.

Lemma str_no_nul_usr : no_nul (str "usr").
Proof. unfold no_nul. vm_compute. intros H. repeat (apply elem_of_cons in H as [H|H]; [done|]). by apply elem_of_nil in H. Defined.

Lemma dirlink_lookup_witness :
  exists r s', dirlink demo_sb 0 (str "usr") 2 root_fs = Ok (r, s') /\ disk_ok demo_sb (fdisk s') /\
    dir_ok demo_sb (fdisk s') (entry 0 s').
Proof.
  destruct (dirlink_lookup demo_sb demo_layout 0 (str "usr") 2 root_fs) as (r & s' & E & H1 & H2 & _).
  - exact demo_disk_ok.
  - exact root_ok.
  - simpl. lia.
  - exact str_no_nul_usr.
  - lia.
  - vm_compute. discriminate.
  - by vm_compute.
  - exists r, s'. split; [exact E|]. split; [exact H1 | exact H2].
Defined.

Example link_demo :
  match dirlink demo_sb 0 (str "usr") 2 root_fs with
  | Ok (0, s) => dir_lookup (fdisk s) (entry 0 s) (str "usr") = Some (0%nat, 2) /\ dir_lookup (fdisk s) (entry 0 s) (str "us") = None
  | _ => False
  end.
Proof. vm_compute. done. Qed.
