(* ===== verification/Path.v ===== *)
(** * Path names (xv6/kernel/fs.c, [skipelem], [namex])

    Paths are cut into elements; [namex] walks from the root or the current
    directory, holding one reference and one lock at a time. *)
From S2P Require Import Prelude KString Disk Balloc Inode Content Rw Trunc Itable Dir.
Local Open Scope c_scope.

Definition slash : ascii := "/"%char.

(** [while ( *path == '/') path++;] *)
Fixpoint skip_slashes (p : cstr) : cstr :=
  match p with c :: p' => if c =c slash then skip_slashes p' else p | [] => [] end.

(** [while ( *path != '/' && *path != 0) path++;]: the element and the rest. *)
Fixpoint span_elem (p : cstr) : cstr * cstr :=
  match p with
  | c :: p' => if c =c slash then ([], p) else let '(e, r) := span_elem p' in (c :: e, r)
  | [] => ([], [])
  end.

(** The element, as the name buffer holds it, and the path after it. *)
Definition skipelem (path : cstr) : option (cstr * cstr) :=
  match skip_slashes path with
  | [] => None
  | p => let '(e, r) := span_elem p in Some (take DIRSIZ e, skip_slashes r)
  end.

Definition ROOTDEV : Z := 1.
Definition ROOTINO : Z := 1.

Section Names.
Context (sb : superblock).

(** The loop of [namex], at slot [i] with [name] in the buffer: the slot
    found, if any, and the buffer. *)
Fixpoint namex_loop (fuel : nat) (path : cstr) (nameiparent : bool) (name : cstr) (i : nat) (s : fsys) :
    res (option nat * cstr * fsys) :=
  match fuel with
  | O => Ok (None, name, s)
  | S fuel' =>
      match skipelem path with
      | None => if nameiparent then s1 ← iput sb i s; Ok (None, name, s1) else Ok (Some i, name, s)
      | Some (name', path') =>
          s1 ← ilock sb i s;
          if negb (itype (entry i s1) =? T_DIR)%Z then s2 ← iunlockput sb i s1; Ok (None, name', s2)
          else if (nlink (entry i s1) =? 0)%Z then s2 ← iunlockput sb i s1; Ok (None, name', s2)
          else if nameiparent && bool_decide (path' = []) then s2 ← iunlock i s1; Ok (Some i, name', s2)
          else
            '(next, s2) ← dirlookup sb i name' s1;
            match next with
            | None => s3 ← iunlockput sb i s2; Ok (None, name', s3)
            | Some (j, _) => s3 ← iunlockput sb i s2; namex_loop fuel' path' nameiparent name' j s3
            end
      end
  end.

(** [cwd] is the slot of the current directory. *)
Definition namex (cwd : nat) (path : cstr) (nameiparent : bool) (s : fsys) : res (option nat * cstr * fsys) :=
  '(i, s1) ← (match path with
              | c :: _ => if c =c slash then iget ROOTDEV ROOTINO s else Ok (cwd, idup cwd s)
              | [] => Ok (cwd, idup cwd s)
              end);
  namex_loop (S (length path)) path nameiparent [] i s1.

Definition namei (cwd : nat) (path : cstr) (s : fsys) : res (option nat * fsys) :=
  '(r, _, s1) ← namex cwd path false s; Ok (r, s1).
Definition nameiparent (cwd : nat) (path : cstr) (s : fsys) : res (option nat * cstr * fsys) := namex cwd path true s.
End Names.

(** ** The elements of a path *)

(** The names [namex] sees, one per turn. *)
Fixpoint elements (fuel : nat) (path : cstr) : list cstr :=
  match fuel with
  | O => []
  | S fuel' => match skipelem path with None => [] | Some (e, r) => e :: elements fuel' r end
  end.

(** A path cut at its slashes. *)
Fixpoint split (p : cstr) : list cstr :=
  match p with
  | [] => [[]]
  | c :: p' =>
      if c =c slash then [] :: split p'
      else match split p' with e :: es => (c :: e) :: es | [] => [[c]] end
  end.

Definition nonempty (e : cstr) : bool := negb (bool_decide (e = [])).

(** Its elements: empty ones are dropped, long ones cut. *)
Definition components (p : cstr) : list cstr := take DIRSIZ <$> List.filter nonempty (split p).

Lemma split_nonnil p : split p <> [].
Proof. destruct p as [|c p]; simpl; [done|]. destruct (c =c slash); [done|]. by destruct (split p). Qed.

Lemma filter_skip p : List.filter nonempty (split (skip_slashes p)) = List.filter nonempty (split p).
Proof. induction p as [|c p IH]; [done|]. simpl. destruct (c =c slash) eqn:E; [by rewrite IH|]. simpl. by rewrite E. Qed.

Lemma span_elem_spec p : let '(e, r) := span_elem p in
  split p = match r with [] => [e] | _ :: r' => e :: split r' end /\
  (r = [] \/ exists r', r = slash :: r') /\ length p = (length e + length r)%nat /\
  (match p with c :: _ => c <> slash | [] => False end -> e <> []).
Proof.
  induction p as [|c p IH]; simpl; [split_and!; auto|]. destruct (ceq_spec c slash) as [->|Hne].
  - split_and!; eauto.
  - destruct (span_elem p) as [e r]. destruct IH as (H1 & H2 & H3 & _). split_and!; [|done|simpl; lia|done].
    rewrite H1. by destruct r.
Qed.

Lemma skip_slashes_spec p : (length (skip_slashes p) <= length p)%nat /\
  match skip_slashes p with c :: _ => c <> slash | [] => True end.
Proof.
  induction p as [|c p [IH1 IH2]]; simpl; [auto|]. destruct (ceq_spec c slash); [split; [lia | done]|]. simpl. auto.
Qed.

(** One turn: the first element, the components of the rest, and less path. *)
Lemma skipelem_spec p :
  match skipelem p with
  | None => List.filter nonempty (split p) = []
  | Some (e, r) => components p = e :: components r /\ (length r < length p)%nat /\ skip_slashes r = r
  end.
Proof.
  unfold skipelem, components. rewrite <- (filter_skip p). destruct (skip_slashes_spec p) as [Hl Hc].
  destruct (skip_slashes p) as [|c q] eqn:Eq; [done|]. pose proof (span_elem_spec (c :: q)) as Hs.
  destruct (span_elem (c :: q)) as [e r]. destruct Hs as (H1 & H2 & H3 & H4). specialize (H4 Hc). rewrite H1.
  assert (Hlen : (0 < length e)%nat) by (destruct e; [done | simpl; lia]).
  assert (Hsk : forall x, skip_slashes (skip_slashes x) = skip_slashes x).
  { induction x as [|y x IH]; [done|]. simpl. destruct (y =c slash) eqn:E; [done|]. simpl. by rewrite E. }
  assert (Hne : nonempty e = true) by (unfold nonempty; by rewrite bool_decide_eq_false_2).
  destruct (skip_slashes_spec r) as [Hr _]. split_and!; [|lia | apply Hsk]. rewrite (filter_skip r).
  destruct H2 as [->|[r' ->]]; simpl; rewrite Hne; done.
Qed.

(** A path is walked by its components.  Whatever the path, the loop of
    [namex] ends after at most as many turns as the path has characters, and
    the elements it looks up are the non-empty parts between slashes, in
    order, each cut to 14 characters. *)
Theorem skipelem_components path fuel :
  (length path < fuel)%nat -> elements fuel path = components path.
Proof.
  revert path. induction fuel as [|fuel IH]; intros path Hf; [lia|]. cbn [elements]. pose proof (skipelem_spec path) as Hs.
  destruct (skipelem path) as [[e r]|].
  - destruct Hs as (-> & Hl & _). rewrite IH by lia. done.
  - unfold components. by rewrite Hs.
Qed.

Definition long_path : cstr := str "///usr//bin/averylongcommandname/".

Lemma skipelem_components_witness :
  elements (S (length long_path)) long_path = [str "usr"; str "bin"; str "averylongcomma"].
Proof. rewrite (skipelem_components long_path (S (length long_path))); [by vm_compute | lia]. Defined.
