(* ===== verification/Ram.v ===== *)
(** * Physical memory

    The memory is a function from addresses to bytes; 64-bit loads and stores
    are little-endian.  The pointers of the free list, the entries of page
    tables and the data of processes are all bytes of the same memory, so a
    write through a stale pointer would be seen by every reader. *)
From S2P Require Import Prelude Disk.
Local Open Scope Z_scope.

Abbreviation ram := (Z -> ascii).

Definition in_u64 (x : Z) : Prop := 0 <= x < 2 ^ 64.

(** The [n] bytes from [a], and [bs] written from [a]. *)
Fixpoint fetch (m : ram) (a : Z) (n : nat) : list ascii :=
  match n with O => [] | S n' => m a :: fetch m (a + 1) n' end.
Definition write (a : Z) (bs : list ascii) (m : ram) : ram :=
  fun x => if (a <=? x) && (x <? a + Z.of_nat (length bs)) then nth (Z.to_nat (x - a)) bs NUL else m x.

Definition load64 (m : ram) (a : Z) : Z := le (fetch m a 8).
Definition store64 (a v : Z) (m : ram) : ram := write a (unle 8 v) m.

(** [memset(a, c, n)] *)
Definition fill (a c n : Z) (m : ram) : ram := fun x => if (a <=? x) && (x <? a + n) then chr c else m x.

Lemma length_fetch m n : forall a, length (fetch m a n) = n.
Proof. induction n as [|n IH]; intros a; simpl; [done | by rewrite IH]. Qed.

Lemma fetch_ext m m' n : forall a, (forall x, a <= x < a + Z.of_nat n -> m' x = m x) -> fetch m' a n = fetch m a n.
Proof.
  induction n as [|n IH]; intros a H; cbn [fetch]; [done|]. rewrite (H a) by lia. f_equal. apply IH. intros x Hx. apply H. lia.
Qed.

Lemma fetch_nth m n : forall a i, (i < n)%nat -> nth i (fetch m a n) NUL = m (a + Z.of_nat i).
Proof.
  induction n as [|n IH]; intros a i Hi; [lia|]. cbn [fetch]. destruct i as [|i]; simpl nth; [f_equal; lia|].
  rewrite IH by lia. f_equal. lia.
Qed.

Lemma fetch_app m a n1 n2 : fetch m a (n1 + n2) = fetch m a n1 ++ fetch m (a + Z.of_nat n1) n2.
Proof.
  revert a. induction n1 as [|n1 IH]; intros a; [simpl; f_equal; lia|]. cbn [fetch Nat.add app]. rewrite IH. do 3 f_equal. lia.
Qed.

Lemma write_in a bs m x : a <= x < a + Z.of_nat (length bs) -> write a bs m x = nth (Z.to_nat (x - a)) bs NUL.
Proof. intros H. unfold write. destruct (Z.leb_spec a x), (Z.ltb_spec x (a + Z.of_nat (length bs))); (done || lia). Qed.

Lemma write_out a bs m x : ~ (a <= x < a + Z.of_nat (length bs)) -> write a bs m x = m x.
Proof. intros H. unfold write. destruct (Z.leb_spec a x), (Z.ltb_spec x (a + Z.of_nat (length bs))); (done || lia). Qed.

Lemma fetch_write_same a bs m : fetch (write a bs m) a (length bs) = bs.
Proof.
  apply (nth_ext _ _ NUL NUL); [apply length_fetch|]. intros i Hi. rewrite length_fetch in Hi.
  rewrite fetch_nth, write_in by lia. f_equal. lia.
Qed.

Lemma fetch_write_other a bs m b n : (b + Z.of_nat n <= a \/ a + Z.of_nat (length bs) <= b) -> fetch (write a bs m) b n = fetch m b n.
Proof. intros H. apply fetch_ext. intros x Hx. apply write_out. lia. Qed.

Lemma load64_range m a : in_u64 (load64 m a).
Proof. unfold load64, in_u64. pose proof (le_range (fetch m a 8)) as H. rewrite length_fetch in H. exact H. Qed.

Lemma load64_ext m m' a : (forall x, a <= x < a + 8 -> m' x = m x) -> load64 m' a = load64 m a.
Proof. intros H. unfold load64. by rewrite (fetch_ext m m'). Qed.

Lemma load64_store64 m a v : in_u64 v -> load64 (store64 a v m) a = v.
Proof.
  intros Hv. unfold load64, store64. rewrite <- (length_unle 8 v) at 2. rewrite fetch_write_same, le_unle. by apply Z.mod_small.
Qed.

Lemma store64_out a v m x : ~ (a <= x < a + 8) -> store64 a v m x = m x.
Proof. intros H. unfold store64. apply write_out. by rewrite length_unle. Qed.

Lemma load64_store64_ne m a v b : (b + 8 <= a \/ a + 8 <= b) -> load64 (store64 a v m) b = load64 m b.
Proof. intros H. apply load64_ext. intros x Hx. apply store64_out. lia. Qed.

Lemma fill_in a c n m x : a <= x < a + n -> fill a c n m x = chr c.
Proof. intros H. unfold fill. destruct (Z.leb_spec a x), (Z.ltb_spec x (a + n)); (done || lia). Qed.

Lemma fill_out a c n m x : ~ (a <= x < a + n) -> fill a c n m x = m x.
Proof. intros H. unfold fill. destruct (Z.leb_spec a x), (Z.ltb_spec x (a + n)); (done || lia). Qed.

Lemma load64_fill0 m a n b : a <= b -> b + 8 <= a + n -> load64 (fill a 0 n m) b = 0.
Proof.
  intros H1 H2. unfold load64. cbn [fetch]. rewrite !fill_in by lia. reflexivity.
Qed.
