(* ===== verification/Kalloc.v ===== *)
(** * The physical page allocator (xv6/kernel/kalloc.c)

    Free pages form a linked list threaded through the pages themselves: the
    first word of a free page is the address of the next one, so that a write
    to a page that is still on the list would break the list in the model as
    in the machine. *)
From S2P Require Import Prelude Ram.
Local Open Scope Z_scope.

Definition PGSIZE : Z := 4096.
Definition KERNBASE : Z := 0x80000000.
Definition PHYSTOP : Z := KERNBASE + 128 * 1024 * 1024.

Definition PGROUNDUP (sz : Z) : Z := Z.land (u64 (sz + PGSIZE - 1)) (Z.lnot (PGSIZE - 1)).
Definition PGROUNDDOWN (a : Z) : Z := Z.land a (Z.lnot (PGSIZE - 1)).

(** The memory and the head of the list. *)
Record kmem := mkKmem { bytes : ram; freelist : Z }.

Section Allocator.
(** [end], the first address after the kernel. *)
Context (kend : Z).

(** [None] is a panic. *)
Definition kfree (pa : Z) (k : kmem) : option kmem :=
  if negb (pa mod PGSIZE =? 0) || (pa <? kend) || (PHYSTOP <=? pa) then None
  else
    let m := fill pa 1 PGSIZE (bytes k) in
    Some (mkKmem (store64 pa (freelist k) m) pa).

(** The page, 0 when there is none. *)
Definition kalloc (k : kmem) : Z * kmem :=
  let r := freelist k in
  if r =? 0 then (0, k)
  else
    let k1 := mkKmem (bytes k) (load64 (bytes k) r) in
    (r, mkKmem (fill r 5 PGSIZE (bytes k1)) (freelist k1)).

(** [for (; p + PGSIZE <= pa_end; p += PGSIZE) kfree(p);] *)
Fixpoint freerange_loop (fuel : nat) (p pa_end : Z) (k : kmem) : option kmem :=
  match fuel with
  | O => Some k
  | S fuel' => if p + PGSIZE <=? pa_end then k1 ← kfree p k; freerange_loop fuel' (p + PGSIZE) pa_end k1 else Some k
  end.

Definition freerange (pa_start pa_end : Z) (k : kmem) : option kmem :=
  freerange_loop (S (Z.to_nat ((pa_end - PGROUNDUP pa_start) / PGSIZE))) (PGROUNDUP pa_start) pa_end k.

Definition kinit (m : ram) : option kmem := freerange kend PHYSTOP (mkKmem m 0).

(** ** The list *)

(** The memory threads the pages [l] from [a]. *)
Fixpoint threads (m : ram) (a : Z) (l : list Z) : Prop :=
  match l with [] => a = 0 | p :: l' => a = p /\ threads m (load64 m p) l' end.

(** A page the allocator manages. *)
Definition page (p : Z) : Prop := p mod PGSIZE = 0 /\ kend <= p < PHYSTOP.

Record kmem_ok (k : kmem) (free : list Z) : Prop := mkKmemOk {
  k_list : threads (bytes k) (freelist k) free;
  k_pages : Forall page free;
  k_distinct : NoDup free
}.

Context (Hend : KERNBASE <= kend).

Lemma page_pos p : page p -> 0 < p.
Proof. unfold page, KERNBASE in *. lia. Qed.

(** Distinct pages do not overlap. *)
Lemma page_apart p q x : page p -> page q -> p <> q -> p <= x < p + PGSIZE -> ~ (q <= x < q + PGSIZE).
Proof.
  intros [Hp _] [Hq _] Hne Hx Hy. apply Hne. apply Z.mod_divide in Hp as [a ->]; [|done].
  apply Z.mod_divide in Hq as [b ->]; [|done]. unfold PGSIZE in *. lia.
Qed.

(** The bytes of the pages are the same. *)
Definition keeps (m m' : ram) (ps : list Z) : Prop := forall p x, p ∈ ps -> p <= x < p + PGSIZE -> m' x = m x.

Lemma kp_refl m ps : keeps m m ps.
Proof. by intros p x _ _. Qed.

Lemma kp_trans m1 m2 m3 ps : keeps m1 m2 ps -> keeps m2 m3 ps -> keeps m1 m3 ps.
Proof. intros H1 H2 p x Hp Hx. rewrite (H2 p x Hp Hx). by apply (H1 p). Qed.

Lemma keeps_sub m m' ps qs : keeps m m' ps -> qs ⊆ ps -> keeps m m' qs.
Proof. intros H Hs p x Hp Hx. apply (H p); [by apply Hs | done]. Qed.

(** A change inside of a page keeps the other pages. *)
Lemma keeps_page m m' q ps : page q -> Forall page ps -> q ∉ ps -> (forall x, ~ (q <= x < q + PGSIZE) -> m' x = m x) -> keeps m m' ps.
Proof.
  intros Hq Hps Hn H p x Hp Hx. apply H. rewrite Forall_forall in Hps. apply (page_apart p q); auto. by intros ->.
Qed.

Lemma threads_ext m m' l : forall a, keeps m m' l -> threads m a l -> threads m' a l.
Proof.
  induction l as [|p l IH]; intros a H; [done|]. intros [-> Ht]. split; [done|].
  rewrite (load64_ext m m') by (intros x Hx; apply (H p); [set_solver | unfold PGSIZE; lia]).
  apply IH; [|done]. apply (keeps_sub _ _ _ _ H). set_solver.
Qed.

Lemma threads_u64 m a l : threads m a l -> Forall page l -> in_u64 a.
Proof.
  destruct l as [|p l]; simpl; [intros -> _; by unfold in_u64|]. intros [-> _] [Hp _]%Forall_cons. pose proof (page_pos p Hp).
  destruct Hp as [_ Hp]. unfold in_u64, PHYSTOP, KERNBASE in *. lia.
Qed.

(** Writes outside of the free pages do not matter to the allocator. *)
Lemma kmem_keeps k m free : kmem_ok k free -> keeps (bytes k) m free -> kmem_ok (mkKmem m (freelist k)) free.
Proof. intros [Hl Hp Hd] Hk. split; simpl; [by apply (threads_ext (bytes k)) | done | done]. Qed.

Lemma kfree_spec pa k free : kmem_ok k free -> page pa -> pa ∉ free ->
  exists k', kfree pa k = Some k' /\ kmem_ok k' (pa :: free) /\
    forall x, ~ (pa <= x < pa + PGSIZE) -> bytes k' x = bytes k x.
Proof.
  intros [Hl Hp Hd] Hpa Hn. pose proof Hpa as [Hmod Hr]. unfold kfree. rewrite Hmod. simpl.
  destruct (Z.ltb_spec pa kend); [lia|]. destruct (Z.leb_spec PHYSTOP pa); [lia|]. simpl. eexists. split; [done|].
  assert (Hout : forall x, ~ (pa <= x < pa + PGSIZE) -> store64 pa (freelist k) (fill pa 1 PGSIZE (bytes k)) x = bytes k x).
  { intros x Hx. rewrite store64_out, fill_out; [done | done | unfold PGSIZE in *; lia]. }
  split; [|done]. split; simpl; [|by constructor|by constructor]. split; [done|].
  rewrite load64_store64 by (by apply (threads_u64 _ _ _ Hl)).
  apply (threads_ext (bytes k)); [|done]. by apply (keeps_page _ _ pa).
Qed.

(** [kalloc] takes the head of the list and writes to that page only. *)
Lemma kalloc_spec k free : kmem_ok k free ->
  match free with
  | [] => kalloc k = (0, k)
  | p :: free' => exists k', kalloc k = (p, k') /\ kmem_ok k' free' /\ page p /\ p ∉ free' /\
      forall x, ~ (p <= x < p + PGSIZE) -> bytes k' x = bytes k x
  end.
Proof.
  intros [Hl Hp Hd]. unfold kalloc. destruct free as [|p free]; simpl in Hl; [by rewrite Hl|].
  destruct Hl as [-> Hl]. apply Forall_cons in Hp as [Hpp Hp]. apply NoDup_cons in Hd as [Hn Hd].
  pose proof (page_pos p Hpp). destruct (Z.eqb_spec p 0); [lia|]. eexists. split; [done|].
  assert (Hout : forall x, ~ (p <= x < p + PGSIZE) -> fill p 5 PGSIZE (bytes k) x = bytes k x) by (intros x; apply fill_out).
  split_and!; try done. split; simpl; [|done|done]. apply (threads_ext (bytes k)); [|done]. by apply (keeps_page _ _ p).
Qed.

(** ** Initialisation *)
Lemma PGROUNDDOWN_spec a : PGROUNDDOWN a = a / PGSIZE * PGSIZE.
Proof.
  unfold PGROUNDDOWN. rewrite <- Z.ldiff_land. change (PGSIZE - 1) with (Z.ones 12).
  rewrite Z.ldiff_ones_r, Z.shiftl_mul_pow2, Z.shiftr_div_pow2 by lia. done.
Qed.

Lemma PGROUNDUP_spec a : 0 <= a < 2 ^ 64 - PGSIZE -> PGROUNDUP a = (a + PGSIZE - 1) / PGSIZE * PGSIZE.
Proof.
  intros Ha. unfold PGROUNDUP, u64. rewrite (Z.mod_small (a + PGSIZE - 1)) by (unfold PGSIZE in *; lia). rewrite <- Z.ldiff_land. change (PGSIZE - 1) with (Z.ones 12).
  rewrite Z.ldiff_ones_r, Z.shiftl_mul_pow2, Z.shiftr_div_pow2 by lia. done.
Qed.

(** The [n] pages from [p]. *)
Fixpoint pages_from (n : nat) (p : Z) : list Z :=
  match n with O => [] | S n' => p :: pages_from n' (p + PGSIZE) end.

Lemma pages_from_in n : forall p x, x ∈ pages_from n p <-> exists i, (i < n)%nat /\ x = p + Z.of_nat i * PGSIZE.
Proof.
  induction n as [|n IH]; intros p x; simpl; [split; [by intros ?%elem_of_nil | intros (i & ? & _); lia]|].
  rewrite elem_of_cons, IH. split.
  - intros [->|(i & Hi & ->)]; [exists 0%nat; lia | exists (S i); lia].
  - intros ([|i] & Hi & ->); [left; lia | right; exists i; lia].
Qed.

Lemma length_pages_from n : forall p, length (pages_from n p) = n.
Proof. induction n as [|n IH]; intros p; simpl; [done | by rewrite IH]. Qed.

Lemma freerange_loop_spec : forall fuel p k free,
  kmem_ok k free -> p mod PGSIZE = 0 -> kend <= p -> p <= PHYSTOP -> (Z.to_nat ((PHYSTOP - p) / PGSIZE) < fuel)%nat ->
  (forall q, q ∈ free -> q < p) ->
  exists k', freerange_loop fuel p PHYSTOP k = Some k' /\
    kmem_ok k' (reverse (pages_from (Z.to_nat ((PHYSTOP - p) / PGSIZE)) p) ++ free).
Proof.
  induction fuel as [|fuel IH]; intros p k free Hok Hp Hlo Hhi Hf Hbelow; cbn [freerange_loop]; [lia|].
  pose proof (Z.div_mod (PHYSTOP - p) PGSIZE ltac:(done)) as Hdm. pose proof (Z.mod_pos_bound (PHYSTOP - p) PGSIZE ltac:(done)) as Hm.
  destruct (Z.leb_spec (p + PGSIZE) PHYSTOP) as [Hle|Hgt].
  - assert (Hpage : page p) by (split; [done | unfold PGSIZE in *; lia]).
    destruct (kfree_spec p k free Hok Hpage) as (k1 & -> & Hok1 & _); [intros Hin; specialize (Hbelow p Hin); lia|]. cbn [mbind option_bind].
    assert (En : (PHYSTOP - p) / PGSIZE = (PHYSTOP - (p + PGSIZE)) / PGSIZE + 1).
    { replace (PHYSTOP - p) with (PHYSTOP - (p + PGSIZE) + 1 * PGSIZE) by lia. by rewrite Z.div_add. }
    pose proof (Z.div_pos (PHYSTOP - (p + PGSIZE)) PGSIZE ltac:(lia) ltac:(done)) as Hpos.
    destruct (IH (p + PGSIZE) k1 (p :: free) Hok1) as (k' & -> & Hok'); [| lia | done | lia | |].
    + rewrite <- (Z.mul_1_l PGSIZE) at 1. by rewrite Z_mod_plus_full.
    + intros q [->|Hq]%elem_of_cons; [unfold PGSIZE; lia | specialize (Hbelow q Hq); unfold PGSIZE; lia].
    + exists k'. split; [done|]. rewrite En. replace (Z.to_nat ((PHYSTOP - (p + PGSIZE)) / PGSIZE + 1)) with (S (Z.to_nat ((PHYSTOP - (p + PGSIZE)) / PGSIZE))) by lia.
      cbn [pages_from]. rewrite reverse_cons, <- app_assoc. exact Hok'.
  - exists k. split; [done|]. replace (Z.to_nat ((PHYSTOP - p) / PGSIZE)) with 0%nat; [done|]. rewrite Z.div_small by lia. done.
Qed.

(** Every page between the kernel and the end of the memory. *)
Definition all_pages : list Z := reverse (pages_from (Z.to_nat ((PHYSTOP - PGROUNDUP kend) / PGSIZE)) (PGROUNDUP kend)).

Lemma kinit_spec m : kend <= PHYSTOP - PGSIZE -> exists k, kinit m = Some k /\ kmem_ok k all_pages.
Proof.
  intros Hk. assert (Hup : PGROUNDUP kend = (kend + PGSIZE - 1) / PGSIZE * PGSIZE)
    by (apply PGROUNDUP_spec; unfold PGSIZE, PHYSTOP, KERNBASE in *; lia).
  pose proof (Z.div_mod (kend + PGSIZE - 1) PGSIZE ltac:(done)). pose proof (Z.mod_pos_bound (kend + PGSIZE - 1) PGSIZE ltac:(done)).
  destruct (freerange_loop_spec (S (Z.to_nat ((PHYSTOP - PGROUNDUP kend) / PGSIZE))) (PGROUNDUP kend) (mkKmem m 0) []) as (k & E & Hok).
  - split; [done | constructor | constructor].
  - rewrite Hup. apply Z.mod_mul. done.
  - unfold PGSIZE in *. lia.
  - unfold PGSIZE, PHYSTOP, KERNBASE in *. lia.
  - lia.
  - by intros q ?%elem_of_nil.
  - exists k. split; [exact E|]. by rewrite app_nil_r in Hok.
Qed.

(** ** Owners of pages

    The code that allocates pages, writes to those it has and gives them
    back, in any order. *)
Inductive kevent := KAlloc | KFree (i : nat) | KWrite (i : nat) (off : Z) (bs : list ascii).

(** The allocator and the pages handed out; [None] is a panic.  An event on a
    page that is not owned, or outside of it, does not happen. *)
Definition kstep (e : kevent) (k : kmem) (owned : list Z) : option (kmem * list Z) :=
  match e with
  | KAlloc => let '(p, k1) := kalloc k in Some (k1, if p =? 0 then owned else p :: owned)
  | KFree i =>
      match owned !! i with
      | Some p => k1 ← kfree p k; Some (k1, take i owned ++ drop (S i) owned)
      | None => Some (k, owned)
      end
  | KWrite i off bs =>
      match owned !! i with
      | Some p => 
          if (0 <=? off) && (off + Z.of_nat (length bs) <=? PGSIZE) then Some (mkKmem (write (p + off) bs (bytes k)) (freelist k), owned)
          else Some (k, owned)
      | None => Some (k, owned)
      end
  end.

Fixpoint krun (es : list kevent) (k : kmem) (owned : list Z) : option (kmem * list Z) :=
  match es with [] => Some (k, owned) | e :: es' => '(k1, o1) ← kstep e k owned; krun es' k1 o1 end.

(** The pages are either owned or on the list. *)
Definition shared_out (k : kmem) (owned : list Z) : Prop :=
  exists free, kmem_ok k free /\ owned ++ free ≡ₚ all_pages.

Lemma shared_facts owned free : Forall page all_pages -> NoDup all_pages -> owned ++ free ≡ₚ all_pages ->
  Forall page owned /\ Forall page free /\ NoDup owned /\ (forall p, p ∈ owned -> p ∉ free).
Proof.
  intros Hp Hd Hperm. rewrite <- Hperm in Hp, Hd. apply Forall_app in Hp as [? ?]. apply NoDup_app in Hd as (? & ? & ?). done.
Qed.

Lemma kstep_ok e k owned : Forall page all_pages -> NoDup all_pages -> shared_out k owned ->
  exists k' owned', kstep e k owned = Some (k', owned') /\ shared_out k' owned'.
Proof.
  intros Hp Hd (free & Hok & Hperm). destruct (shared_facts owned free Hp Hd Hperm) as (Ho & Hf & Hnd & Hdis).
  destruct e as [|i|i off bs]; cbn [kstep].
  - pose proof (kalloc_spec k free Hok) as Hk. destruct free as [|p free].
    + rewrite Hk. exists k, owned. split; [done|]. by exists [].
    + destruct Hk as (k' & -> & Hok' & Hpp & _). pose proof (page_pos p Hpp). destruct (Z.eqb_spec p 0); [lia|].
      exists k', (p :: owned). split; [done|]. exists free. split; [done|]. rewrite <- Hperm. apply Permutation_middle.
  - destruct (owned !! i) as [p|] eqn:Ei; [|exists k, owned; split; [done | by exists free]].
    pose proof (list_elem_of_lookup_2 _ _ _ Ei) as Hin. rewrite Forall_forall in Ho.
    destruct (kfree_spec p k free Hok (Ho p Hin) (Hdis p Hin)) as (k' & -> & Hok' & _). cbn [mbind option_bind].
    eexists _, _. split; [done|]. exists (p :: free). split; [done|]. rewrite <- Hperm.
    rewrite <- (take_drop_middle owned i p Ei) at 3. rewrite <- !app_assoc. simpl. by rewrite <- Permutation_middle.
  - destruct (owned !! i) as [p|] eqn:Ei; [|exists k, owned; split; [done | by exists free]].
    destruct (Z.leb_spec 0 off), (Z.leb_spec (off + Z.of_nat (length bs)) PGSIZE); simpl; try (exists k, owned; split; [done | by exists free]).
    eexists _, _. split; [done|]. exists free. split; [|done]. pose proof (list_elem_of_lookup_2 _ _ _ Ei) as Hin. rewrite Forall_forall in Ho.
    apply (kmem_keeps k _ free Hok). apply (keeps_page _ _ p); [by apply Ho | apply Hok | by apply Hdis|].
    intros x Hx. apply write_out. lia.
Qed.

(** C33: no page has two owners.  After the initialisation every page between
    the end of the kernel and the end of the memory is free; then, whatever
    allocations, releases and writes by the owners of pages to their pages
    follow, nothing panics, the free list survives, and every page is at any
    time either free or owned, once. *)
Theorem kalloc_exclusive m es :
  kend <= PHYSTOP - PGSIZE ->
  exists k0 k owned free, kinit m = Some k0 /\ krun es k0 [] = Some (k, owned) /\
    threads (bytes k) (freelist k) free /\ owned ++ free ≡ₚ all_pages /\ NoDup (owned ++ free) /\
    Forall page (owned ++ free) /\ length all_pages = Z.to_nat ((PHYSTOP - PGROUNDUP kend) / PGSIZE).
Proof.
  intros Hk. destruct (kinit_spec m Hk) as (k0 & E0 & Hok0). pose proof Hok0 as [_ Hp Hd].
  assert (Hrun : forall es k owned, shared_out k owned -> exists k' owned', krun es k owned = Some (k', owned') /\ shared_out k' owned').
  { induction es0 as [|e es0 IH]; intros k owned Hs; cbn [krun]; [eauto|].
    destruct (kstep_ok e k owned Hp Hd Hs) as (k1 & o1 & -> & H1). cbn [mbind option_bind]. by apply IH. }
  destruct (Hrun es k0 []) as (k & owned & E & free & Hok & Hperm); [by exists all_pages|].
  exists k0, k, owned, free. split_and!; [done | done | apply Hok | done | by rewrite Hperm | by rewrite Hperm|].
  unfold all_pages. by rewrite length_reverse, length_pages_from.
Qed.
End Allocator.

Lemma kalloc_exclusive_witness :
  exists k0 k owned free, kinit (PHYSTOP - 3 * PGSIZE - 100) (fun _ => NUL) = Some k0 /\
    krun (PHYSTOP - 3 * PGSIZE - 100) [KAlloc; KAlloc; KWrite 1 100 (str "data"); KFree 0; KAlloc; KAlloc; KAlloc] k0 [] = Some (k, owned) /\
    threads (bytes k) (freelist k) free /\ NoDup (owned ++ free).
Proof.
  destruct (kalloc_exclusive (PHYSTOP - 3 * PGSIZE - 100) ltac:(vm_compute; discriminate) (fun _ => NUL)
    [KAlloc; KAlloc; KWrite 1 100 (str "data"); KFree 0; KAlloc; KAlloc; KAlloc]) as (k0 & k & owned & free & H1 & H2 & H3 & _ & H5 & _).
  - vm_compute. discriminate.
  - exists k0, k, owned, free. split_and!; assumption.
Defined.
