(* ===== verification/Bio.v ===== *)
(** * The buffer cache (xv6/kernel/bio.c)

    Thirty buffers on a circular doubly linked list, ordered by their last
    release.  The links are modelled as the two pointer fields of the nodes,
    node [HEAD] being [bcache.head]; a list of indices is only their
    specification. *)
From S2P Require Import Prelude.
Local Open Scope Z_scope.

Definition NBUF : nat := 30.
Definition HEAD : nat := NBUF.

Record buf := mkBuf {
  bvalid : bool;
  bdev : Z;
  blockno : Z;
  block : bool; (* the sleep lock is held *)
  refcnt : Z;
  bdata : list ascii
}.

Definition set_valid (x : list ascii) (b : buf) : buf := mkBuf true (bdev b) (blockno b) (block b) (refcnt b) x.
Definition set_lock (l : bool) (b : buf) : buf := mkBuf (bvalid b) (bdev b) (blockno b) l (refcnt b) (bdata b).
Definition set_refcnt (r : Z) (b : buf) : buf := mkBuf (bvalid b) (bdev b) (blockno b) (block b) r (bdata b).
Definition set_data (x : list ascii) (b : buf) : buf := mkBuf (bvalid b) (bdev b) (blockno b) (block b) (refcnt b) x.

Definition null_buf : buf := mkBuf false 0 0 false 0 [].

(** The buffers, the links and the disk. *)
Record bcache := mkCache {
  bufs : list buf;
  next : nat -> nat;
  prev : nat -> nat;
  dblocks : Z -> Z -> list ascii
}.

Definition upd (f : nat -> nat) (i v : nat) : nat -> nat := fun x => if (x =? i)%nat then v else f x.
Definition buffer (i : nat) (s : bcache) : buf := nth i (bufs s) null_buf.
Definition set_buf (i : nat) (b : buf) (s : bcache) : bcache := mkCache (<[i := b]> (bufs s)) (next s) (prev s) (dblocks s).
Definition set_links (n p : nat -> nat) (s : bcache) : bcache := mkCache (bufs s) n p (dblocks s).

(** ** The list *)

(** [b->next = head.next; b->prev = &head; head.next->prev = b; head.next = b;] *)
Definition push_front (b : nat) (s : bcache) : bcache :=
  let n1 := upd (next s) b (next s HEAD) in
  let p1 := upd (prev s) b HEAD in
  let p2 := upd p1 (n1 HEAD) b in
  set_links (upd n1 HEAD b) p2 s.

(** [b->next->prev = b->prev; b->prev->next = b->next;] *)
Definition unlink (b : nat) (s : bcache) : bcache :=
  let p1 := upd (prev s) (next s b) (prev s b) in
  set_links (upd (next s) (p1 b) (next s b)) p1 s.

Fixpoint binit_loop (k b : nat) (s : bcache) : bcache :=
  match k with O => s | S k' => binit_loop k' (S b) (push_front b s) end.

Definition binit (dk : Z -> Z -> list ascii) : bcache :=
  binit_loop NBUF 0 (mkCache (replicate NBUF null_buf) (fun _ => HEAD) (fun _ => HEAD) dk).

(** [for (b = head.next; b != &head; b = b->next) if (test) ...] *)
Fixpoint scan (fuel : nat) (step : nat -> nat) (test : nat -> bool) (b : nat) : option nat :=
  match fuel with
  | O => None
  | S fuel' => if (b =? HEAD)%nat then None else if test b then Some b else scan fuel' step test (step b)
  end.

(** ** Operations *)

(** The part of [bget] under the lock of the cache: the buffer to lock, or a
    panic. *)
Definition bget (dv bno : Z) (s : bcache) : option (nat * bcache) :=
  match scan (S NBUF) (next s) (fun i => (bdev (buffer i s) =? dv) && (blockno (buffer i s) =? bno)) (next s HEAD) with
  | Some i => Some (i, set_buf i (set_refcnt (refcnt (buffer i s) + 1) (buffer i s)) s)
  | None =>
      match scan (S NBUF) (prev s) (fun i => refcnt (buffer i s) =? 0) (prev s HEAD) with
      | Some i => Some (i, set_buf i (mkBuf false dv bno (block (buffer i s)) 1 (bdata (buffer i s))) s)
      | None => None
      end
  end.

(** The rest of [bread], with the lock of buffer [i]. *)
Definition bread (i : nat) (s : bcache) : bcache :=
  let b := set_lock true (buffer i s) in
  set_buf i (if bvalid b then b else set_valid (dblocks s (bdev b) (blockno b)) b) s.

Definition bwrite (i : nat) (s : bcache) : option bcache :=
  let b := buffer i s in
  if negb (block b) then None
  else Some (mkCache (bufs s) (next s) (prev s)
               (fun dv bno => if (dv =? bdev b) && (bno =? blockno b) then bdata b else dblocks s dv bno)).

Definition brelse (i : nat) (s : bcache) : option bcache :=
  let b := buffer i s in
  if negb (block b) then None
  else
    let s1 := set_buf i (set_refcnt (refcnt b - 1) (set_lock false b)) s in
    Some (if refcnt b - 1 =? 0 then push_front i (unlink i s1) else s1).

Definition bpin (i : nat) (s : bcache) : bcache := set_buf i (set_refcnt (refcnt (buffer i s) + 1) (buffer i s)) s.
Definition bunpin (i : nat) (s : bcache) : bcache := set_buf i (set_refcnt (refcnt (buffer i s) - 1) (buffer i s)) s.

(** ** The ring *)

(** From [x] the links go through [l] to [y], both ways. *)
Fixpoint linked (n p : nat -> nat) (x : nat) (l : list nat) (y : nat) : Prop :=
  match l with
  | [] => n x = y /\ p y = x
  | z :: l' => n x = z /\ p z = x /\ linked n p z l' y
  end.

Record ring (s : bcache) (l : list nat) : Prop := mkRing {
  ring_links : linked (next s) (prev s) HEAD l HEAD;
  ring_perm : l ≡ₚ seq 0 NBUF
}.

Lemma upd_eq f i v : upd f i v i = v.
Proof. unfold upd. by rewrite Nat.eqb_refl. Qed.

Lemma upd_ne f i v x : x <> i -> upd f i v x = f x.
Proof. intros H. unfold upd. by destruct (Nat.eqb_spec x i). Qed.

Lemma linked_app n p l1 l2 : forall x z y, linked n p x (l1 ++ z :: l2) y <-> linked n p x l1 z /\ linked n p z l2 y.
Proof. induction l1 as [|a l1 IH]; intros x z y; simpl; [tauto|]. rewrite IH. tauto. Qed.

(** Links from outside of the segment do not matter, except into its ends. *)
Lemma linked_ext n p n' p' l : forall x y,
  (forall z, z ∈ x :: l -> n' z = n z) -> (forall z, z ∈ l ++ [y] -> p' z = p z) ->
  linked n p x l y -> linked n' p' x l y.
Proof.
  induction l as [|a l IH]; intros x y Hn Hp; simpl.
  - intros [H1 H2]. rewrite Hn, Hp by set_solver. done.
  - intros (H1 & H2 & H3). rewrite Hn, Hp by set_solver. split_and!; [done | done|].
    apply IH; [intros z Hz; apply Hn; set_solver | intros z Hz; apply Hp; set_solver | done].
Qed.

Lemma linked_prev_in n p l : forall x y, linked n p x l y -> p y ∈ x :: l.
Proof.
  induction l as [|a l IH]; intros x y; simpl; [intros [_ ->]; set_solver|]. intros (_ & _ & H%IH). set_solver.
Qed.

Lemma linked_next_in n p l x y : linked n p x l y -> n x ∈ l ++ [y].
Proof. destruct l as [|a l]; simpl; [intros [-> _] | intros (-> & _)]; set_solver. Qed.

(** The same segment read backwards. *)
Lemma linked_reverse n p l : forall x y, linked n p x l y -> linked p n y (reverse l) x.
Proof.
  induction l as [|a l IH]; intros x y; simpl; [by intros [? ?]|]. intros (H1 & H2 & H3). rewrite reverse_cons.
  apply linked_app. split; [by apply IH | done].
Qed.

(** Taking [b] out. *)
Lemma linked_unlink n p b l2 y : forall l1 x, NoDup (x :: l1 ++ b :: l2) -> y ∉ l1 ++ b :: l2 ->
  linked n p x l1 b -> linked n p b l2 y -> linked (upd n (p b) (n b)) (upd p (n b) (p b)) x (l1 ++ l2) y.
Proof.
  induction l1 as [|a l1 IH]; intros x Hd Hy H1 H2; simpl in H1.
  - destruct H1 as [H1 Hp]. rewrite Hp. simpl in Hd. apply NoDup_cons in Hd as [Hx Hd]. apply NoDup_cons in Hd as [Hb Hd].
    destruct l2 as [|c l2]; simpl in H2 |- *.
    + destruct H2 as [-> H2]. by rewrite !upd_eq.
    + destruct H2 as (-> & H2 & H3). rewrite !upd_eq. split_and!; [done | done|]. apply NoDup_cons in Hd as [Hc Hd].
      apply (linked_ext n p); [| |done].
      * intros z Hz. apply upd_ne. set_solver.
      * intros z Hz. apply upd_ne. set_solver.
  - destruct H1 as (Ha & Hpa & H1). pose proof (linked_prev_in _ _ _ _ _ H1) as Hu. pose proof (linked_next_in _ _ _ _ _ H2) as Hv.
    simpl in Hd |- *. apply NoDup_cons in Hd as [Hx Hd]. pose proof Hd as [Han _]%NoDup_cons.
    assert (Hxu : x <> p b) by (intros E; rewrite <- E in Hu; set_solver).
    assert (Hav : a <> n b) by (intros E; rewrite <- E in Hv; set_solver).
    rewrite (upd_ne n (p b) _ x Hxu), (upd_ne p (n b) _ a Hav). split_and!; [done | done|].
    apply IH; [done | set_solver | done | done].
Qed.

Lemma unlink_ring s b l1 l2 : linked (next s) (prev s) HEAD (l1 ++ b :: l2) HEAD -> NoDup (l1 ++ b :: l2) -> HEAD ∉ l1 ++ b :: l2 ->
  linked (next (unlink b s)) (prev (unlink b s)) HEAD (l1 ++ l2) HEAD.
Proof.
  intros Hl Hd Hh. apply linked_app in Hl as [H1 H2]. unfold unlink. simpl.
  assert (E : upd (prev s) (next s b) (prev s b) b = prev s b).
  { apply upd_ne. pose proof (linked_next_in _ _ _ _ _ H2) as Hin. apply NoDup_app in Hd as (_ & _ & Hd). apply NoDup_cons in Hd as [Hb _].
    intros Eb. rewrite <- Eb in Hin. set_solver. }
  rewrite E. apply linked_unlink; try done. by constructor.
Qed.

Lemma push_front_ring s b l : linked (next s) (prev s) HEAD l HEAD -> NoDup (b :: l) -> HEAD ∉ b :: l ->
  linked (next (push_front b s)) (prev (push_front b s)) HEAD (b :: l) HEAD.
Proof.
  intros Hl Hd Hh. apply NoDup_cons in Hd as [Hb Hd]. pose proof (linked_next_in _ _ _ _ _ Hl) as Hin.
  unfold push_front. simpl. rewrite (upd_ne (next s) b _ HEAD) by set_solver.
  assert (Hbn : b <> next s HEAD) by set_solver. rewrite upd_eq, (upd_ne _ (next s HEAD)), upd_eq by done. split_and!; [done | done|].
  destruct l as [|c l]; simpl in Hl |- *.
  - destruct Hl as [E _]. rewrite (upd_ne _ HEAD) by set_solver. by rewrite E, !upd_eq.
  - destruct Hl as (E & _ & H3). rewrite E in *. rewrite (upd_ne _ HEAD), !upd_eq by set_solver. split_and!; [done | done|].
    apply NoDup_cons in Hd as [Hc Hd]. apply (linked_ext (next s) (prev s)); [| |done].
    + intros z Hz. assert (z <> HEAD /\ z <> b) as [? ?] by set_solver. by rewrite (upd_ne _ HEAD), upd_ne.
    + intros z Hz. assert (z <> c /\ z <> b) as [? ?] by set_solver. by rewrite (upd_ne _ c), upd_ne.
Qed.

(** A scan is a search of the list. *)
Lemma scan_find f g test l : forall x fuel, linked f g x l HEAD -> HEAD ∉ l -> (length l < fuel)%nat ->
  scan fuel f test (f x) = List.find test l.
Proof.
  induction l as [|a l IH]; intros x fuel Hl Hh Hf; (destruct fuel as [|fuel]; [simpl in Hf; lia|]); simpl in Hl |- *.
  - destruct Hl as [-> _]. done.
  - destruct Hl as (-> & _ & Hl). destruct (Nat.eqb_spec a HEAD) as [->|]; [set_solver|]. destruct (test a); [done|].
    apply IH; [done | set_solver | simpl in Hf; lia].
Qed.

Lemma ring_facts s l : ring s l -> NoDup l /\ HEAD ∉ l /\ length l = NBUF /\ (forall i, i ∈ l <-> (i < NBUF)%nat).
Proof.
  intros [_ Hp]. assert (Hin : forall i, i ∈ l <-> (i < NBUF)%nat) by (intros i; rewrite Hp, list_elem_of_In, in_seq; lia). split_and!; [|rewrite Hin; unfold HEAD; lia| |done].
  - rewrite Hp. apply NoDup_ListNoDup, seq_NoDup.
  - rewrite Hp. apply length_seq.
Qed.

Lemma ring_scan_next s l test : ring s l -> scan (S NBUF) (next s) test (next s HEAD) = List.find test l.
Proof.
  intros Hr. destruct (ring_facts s l Hr) as (_ & Hh & Hlen & _). apply (scan_find _ (prev s)); [apply Hr | done | lia].
Qed.

Lemma ring_scan_prev s l test : ring s l -> scan (S NBUF) (prev s) test (prev s HEAD) = List.find test (reverse l).
Proof.
  intros Hr. destruct (ring_facts s l Hr) as (_ & Hh & Hlen & _). apply (scan_find _ (next s)); [| |by rewrite length_reverse; lia].
  - apply linked_reverse, Hr.
  - by rewrite elem_of_reverse.
Qed.

(** The released buffer goes to the front. *)
Lemma ring_release s l1 l2 b : ring s (l1 ++ b :: l2) -> ring (push_front b (unlink b s)) (b :: l1 ++ l2).
Proof.
  intros Hr. destruct (ring_facts s _ Hr) as (Hd & Hh & _). destruct Hr as [Hl Hp]. split.
  - apply push_front_ring; [by apply unlink_ring | | set_solver].
    rewrite <- (Permutation_middle l1 l2 b) in Hd. done.
  - by rewrite (Permutation_middle l1 l2 b).
Qed.

Lemma binit_ring dk : ring (binit dk) (reverse (seq 0 NBUF)).
Proof.
  assert (H : forall k b s, (b + k <= NBUF)%nat -> linked (next s) (prev s) HEAD (reverse (seq 0 b)) HEAD ->
    linked (next (binit_loop k b s)) (prev (binit_loop k b s)) HEAD (reverse (seq 0 (b + k))) HEAD).
  { induction k as [|k IH]; intros b s Hb Hl; simpl; [by rewrite Nat.add_0_r|]. replace (b + S k)%nat with (S b + k)%nat by lia.
    apply IH; [lia|]. rewrite seq_S, reverse_snoc. simpl. apply push_front_ring; [done| |].
    - apply NoDup_cons. split; [rewrite elem_of_reverse, list_elem_of_In, in_seq; lia|].
      rewrite reverse_Permutation. apply NoDup_ListNoDup, seq_NoDup.
    - rewrite elem_of_cons, elem_of_reverse, list_elem_of_In, in_seq. unfold HEAD. lia. }
  split; [apply (H NBUF 0%nat); [done | done]|]. apply reverse_Permutation.
Qed.

(** ** The cache is transparent

    The users of the cache get buffers, read them, change them, write them,
    pin them and release them.  A buffer whose content is not on the disk is
    not given up: its last reference is dropped only after a write.  [mem] is
    the memory of blocks the users should see. *)
Definition memory : Type := Z -> Z -> list ascii.
Definition mset (dv bno : Z) (x : list ascii) (m : memory) : memory :=
  fun d b => if (d =? dv) && (b =? bno) then x else m d b.

Definition holds (i : nat) (dv bno : Z) (s : bcache) : Prop := bdev (buffer i s) = dv /\ blockno (buffer i s) = bno.
Definition clean (i : nat) (s : bcache) : Prop :=
  bdata (buffer i s) = dblocks s (bdev (buffer i s)) (blockno (buffer i s)).

(** The order in which the buffers were given up, from the history [h] of the
    releases that dropped a last reference, the latest first; [binit] puts
    the buffers on the list from the first to the last. *)
Fixpoint recency (h : list nat) : list nat :=
  match h with
  | [] => reverse (seq 0 NBUF)
  | i :: h' => i :: filter (fun j => j <> i) (recency h')
  end.

(** One event of a user, with the memory and the history. *)
Inductive bstep : bcache * memory * list nat -> bcache * memory * list nat -> Prop :=
  | step_bget dv bno i s s' m h : dv <> 0 -> bget dv bno s = Some (i, s') -> bstep (s, m, h) (s', m, h)
  | step_bread i s m h : (i < NBUF)%nat -> 0 < refcnt (buffer i s) -> block (buffer i s) = false ->
      bstep (s, m, h) (bread i s, m, h)
  | step_modify i x s m h : (i < NBUF)%nat -> block (buffer i s) = true ->
      bstep (s, m, h) (set_buf i (set_data x (buffer i s)) s, mset (bdev (buffer i s)) (blockno (buffer i s)) x m, h)
  | step_bwrite i s s' m h : (i < NBUF)%nat -> bwrite i s = Some s' -> bstep (s, m, h) (s', m, h)
  | step_brelse i s s' m h : (i < NBUF)%nat -> 1 < refcnt (buffer i s) \/ clean i s -> brelse i s = Some s' ->
      bstep (s, m, h) (s', m, if refcnt (buffer i s) =? 1 then i :: h else h)
  | step_bpin i s m h : (i < NBUF)%nat -> 0 < refcnt (buffer i s) -> bstep (s, m, h) (bpin i s, m, h)
  | step_bunpin i s m h : (i < NBUF)%nat ->
      1 < refcnt (buffer i s) \/ (refcnt (buffer i s) = 1 /\ block (buffer i s) = false /\ clean i s) ->
      bstep (s, m, h) (bunpin i s, m, h).

Record cache_ok (s : bcache) (m : memory) : Prop := mkCacheOk {
  c_ring : exists l, ring s l;
  c_len : length (bufs s) = NBUF;
  c_ref : forall i, (i < NBUF)%nat -> 0 <= refcnt (buffer i s);
  c_dev : forall i, (i < NBUF)%nat -> 0 < refcnt (buffer i s) -> bdev (buffer i s) <> 0;
  c_lock : forall i, (i < NBUF)%nat -> block (buffer i s) = true -> 0 < refcnt (buffer i s) /\ bvalid (buffer i s) = true;
  c_once : forall i j dv bno, (i < NBUF)%nat -> (j < NBUF)%nat -> dv <> 0 -> holds i dv bno s -> holds j dv bno s -> i = j;
  c_clean : forall i, (i < NBUF)%nat -> refcnt (buffer i s) = 0 -> bvalid (buffer i s) = true -> clean i s;
  c_cached : forall i, (i < NBUF)%nat -> bdev (buffer i s) <> 0 -> bvalid (buffer i s) = true ->
    bdata (buffer i s) = m (bdev (buffer i s)) (blockno (buffer i s));
  c_disk : forall dv bno, dv <> 0 -> (forall i, (i < NBUF)%nat -> holds i dv bno s -> bvalid (buffer i s) = false) ->
    dblocks s dv bno = m dv bno
}.

Lemma buffer_set i j b s : (i < length (bufs s))%nat -> buffer j (set_buf i b s) = if (j =? i)%nat then b else buffer j s.
Proof.
  intros Hi. unfold buffer, set_buf. simpl. rewrite !nth_lookup. destruct (Nat.eqb_spec j i) as [->|Hne].
  - by rewrite list_lookup_insert_eq.
  - by rewrite list_lookup_insert_ne.
Qed.

(** Changing the links does not change the buffers. *)
Lemma cache_links s m n p : cache_ok s m -> (exists l, ring (set_links n p s) l) -> cache_ok (set_links n p s) m.
Proof. intros [] Hr. by split. Qed.

(** A buffer is replaced, its block staying the same. *)
Section Replace.
Context (s : bcache) (m m' : memory) (i : nat) (b : buf).
Context (Hok : cache_ok s m) (Hi : (i < NBUF)%nat).
Context (Hdev : bdev b = bdev (buffer i s)) (Hblk : blockno b = blockno (buffer i s)).

Lemma replaced j : buffer j (set_buf i b s) = if (j =? i)%nat then b else buffer j s.
Proof. apply buffer_set. by rewrite (c_len _ _ Hok). Qed.

Lemma replaced_holds j dv bno : holds j dv bno (set_buf i b s) <-> holds j dv bno s.
Proof. unfold holds. rewrite replaced. destruct (Nat.eqb_spec j i) as [->|]; [by rewrite Hdev, Hblk | done]. Qed.

Lemma replace_ok :
  0 <= refcnt b -> (0 < refcnt b -> bdev b <> 0) -> (block b = true -> 0 < refcnt b /\ bvalid b = true) ->
  (refcnt b = 0 -> bvalid b = true -> bdata b = dblocks s (bdev b) (blockno b)) ->
  (bdev b <> 0 -> bvalid b = true -> bdata b = m' (bdev b) (blockno b)) ->
  (bvalid (buffer i s) = true -> bvalid b = true) ->
  (forall dv bno, dv <> 0 -> ~ holds i dv bno s \/ bvalid b = false -> m' dv bno = m dv bno) ->
  cache_ok (set_buf i b s) m'.
Proof.
  intros H1 H2 H3 H4 H5 H6 H7. destruct Hok as [Hr Hl Href Hd Hlk Hon Hcl Hca Hdi].
  split; [destruct Hr as [l [? ?]]; by exists l | simpl; by rewrite length_insert | | | | | | |].
  - intros j Hj. rewrite replaced. destruct (j =? i)%nat; auto.
  - intros j Hj. rewrite replaced. destruct (j =? i)%nat; auto.
  - intros j Hj. rewrite replaced. destruct (j =? i)%nat; auto.
  - intros j k dv bno Hj Hk. rewrite !replaced_holds. by apply Hon.
  - intros j Hj. unfold clean. rewrite replaced. destruct (j =? i)%nat; auto. by apply Hcl.
  - intros j Hj. rewrite replaced. destruct (Nat.eqb_spec j i) as [->|Hne]; [auto|]. intros Hdj Hv.
    rewrite H7; [by apply Hca | done | left]. intros Hh. apply Hne. apply (Hon j i (bdev (buffer j s)) (blockno (buffer j s))); done.
  - intros dv bno Hdv Hno. rewrite H7; [|done|].
    + apply Hdi; [done|]. intros j Hj Hh. specialize (Hno j Hj). rewrite replaced_holds, replaced in Hno. specialize (Hno Hh).
      destruct (Nat.eqb_spec j i) as [E|]; [|done]. rewrite E. destruct (bvalid (buffer i s)) eqn:Ev; [|done]. by rewrite H6 in Hno.
    + destruct (decide (bdev (buffer i s) = dv /\ blockno (buffer i s) = bno)) as [Hh|Hh]; [right | by left].
      specialize (Hno i Hi). rewrite replaced_holds, replaced, Nat.eqb_refl in Hno. by apply Hno.
Qed.
End Replace.

(** The count and the lock do not change what a buffer shows. *)
Lemma recount_ok s m i r l : cache_ok s m -> (i < NBUF)%nat -> 0 < refcnt (buffer i s) -> 0 <= r ->
  (l = true -> 0 < r /\ bvalid (buffer i s) = true) -> (r = 0 -> clean i s) ->
  cache_ok (set_buf i (set_refcnt r (set_lock l (buffer i s))) s) m.
Proof.
  intros Hok Hi Hr Hr0 Hl Hc. pose proof (c_dev _ _ Hok i Hi Hr) as Hd. apply (replace_ok s m m i); simpl; try done.
  - intros -> _. by apply Hc.
  - intros _ Hv. by apply (c_cached _ _ Hok).
Qed.

(** A hit only adds a reference. *)
Lemma hit_ok s m i : cache_ok s m -> (i < NBUF)%nat -> bdev (buffer i s) <> 0 ->
  cache_ok (set_buf i (set_refcnt (refcnt (buffer i s) + 1) (buffer i s)) s) m.
Proof.
  intros Hok Hi Hd. pose proof (c_ref _ _ Hok i Hi) as Hrf. apply (replace_ok s m m i); simpl; try done; try lia.
  - intros Hk. destruct (c_lock _ _ Hok i Hi Hk). split; [lia | done].
  - intros _ Hv. by apply (c_cached _ _ Hok).
Qed.

(** A buffer without references is given to another block: what it held is on
    the disk. *)
Lemma recycle_ok s m i dv bno : cache_ok s m -> (i < NBUF)%nat -> refcnt (buffer i s) = 0 -> dv <> 0 ->
  (forall j, (j < NBUF)%nat -> ~ holds j dv bno s) ->
  cache_ok (set_buf i (mkBuf false dv bno (block (buffer i s)) 1 (bdata (buffer i s))) s) m.
Proof.
  intros Hok Hi H0 Hdv Hno. set (b := mkBuf _ _ _ _ _ _). pose proof (replaced s m i b Hok Hi) as Hb.
  assert (Hne : forall j dv' bno', (j < NBUF)%nat -> j <> i -> holds i dv' bno' (set_buf i b s) -> ~ holds j dv' bno' (set_buf i b s)).
  { intros j dv' bno' Hj Hji. unfold holds. rewrite !Hb, Nat.eqb_refl. simpl. intros [-> ->]. destruct (Nat.eqb_spec j i); [done|]. by apply Hno. }
  destruct Hok as [Hr Hl Href Hd Hlk Hon Hcl Hca Hdi].
  assert (Hlb : block (buffer i s) = false).
  { destruct (block (buffer i s)) eqn:E; [|done]. destruct (Hlk i Hi E). lia. }
  split; [destruct Hr as [l [? ?]]; by exists l | simpl; by rewrite length_insert | | | | | | |].
  - intros j Hj. rewrite Hb. destruct (j =? i)%nat; [simpl; lia | auto].
  - intros j Hj. rewrite Hb. destruct (j =? i)%nat; [done | auto].
  - intros j Hj. rewrite Hb. destruct (j =? i)%nat; [simpl; by rewrite Hlb | auto].
  - intros j k dv' bno' Hj Hk Hdv' Hhj Hhk. destruct (decide (j = i)) as [->|Hji], (decide (k = i)) as [->|Hki]; [done | | |].
    + by destruct (Hne k dv' bno').
    + by destruct (Hne j dv' bno').
    + revert Hhj Hhk. unfold holds. rewrite !Hb. destruct (Nat.eqb_spec j i), (Nat.eqb_spec k i); try done. by apply Hon.
  - intros j Hj. unfold clean. rewrite Hb. destruct (j =? i)%nat; [done | by apply Hcl].
  - intros j Hj. rewrite Hb. destruct (j =? i)%nat; [done | auto].
  - intros dv' bno' Hdv' Hinv. simpl. destruct (decide (holds i dv' bno' s /\ bvalid (buffer i s) = true)) as [[[<- <-] Hv]|Hn].
    + rewrite <- (Hca i Hi Hdv' Hv). symmetry. by apply Hcl.
    + apply Hdi; [done|]. intros j Hj Hh. destruct (decide (j = i)) as [->|Hji].
      * destruct (bvalid (buffer i s)) eqn:E; [|done]. by destruct Hn.
      * specialize (Hinv j Hj). unfold holds in Hinv. rewrite Hb in Hinv. destruct (Nat.eqb_spec j i); [done|]. by apply Hinv.
Qed.

Lemma find_reverse_split (f : nat -> bool) l i : List.find f (reverse l) = Some i ->
  f i = true /\ exists l1 l2, l = l1 ++ i :: l2 /\ forall j, j ∈ l2 -> f j = false.
Proof.
  induction l as [|a l IH] using rev_ind; [done|]. rewrite reverse_snoc. simpl. destruct (f a) eqn:E.
  - intros [= <-]. split; [done|]. exists l, []. split; [done | set_solver].
  - intros [Hf (l1 & l2 & -> & Hl)]%IH. split; [done|]. exists l1, (l2 ++ [a]). split; [by rewrite <- app_assoc|].
    intros j. rewrite elem_of_app, list_elem_of_singleton. intros [?| ->]; auto.
Qed.

Lemma set_buf_ring s l i b : ring s l -> ring (set_buf i b s) l.
Proof. intros [? ?]. by split. Qed.

(** What [bget] answers: the buffer of the block, or the least recently
    released one that has no reference. *)
Lemma bget_spec dv bno s m l : cache_ok s m -> ring s l -> dv <> 0 ->
  match bget dv bno s with
  | Some (i, s') => (i < NBUF)%nat /\ cache_ok s' m /\ ring s' l /\ holds i dv bno s' /\ 0 < refcnt (buffer i s') /\
      (holds i dv bno s \/
       ((forall j, (j < NBUF)%nat -> ~ holds j dv bno s) /\ refcnt (buffer i s) = 0 /\
        exists l1 l2, l = l1 ++ i :: l2 /\ forall j, j ∈ l2 -> refcnt (buffer j s) <> 0))
  | None => forall j, (j < NBUF)%nat -> 0 < refcnt (buffer j s) /\ ~ holds j dv bno s
  end.
Proof.
  intros Hok Hr Hdv. destruct (ring_facts s l Hr) as (_ & _ & _ & Hin). unfold bget.
  rewrite (ring_scan_next s l) by done. set (t1 := fun i : nat => _). destruct (List.find t1 l) as [i|] eqn:E1.
  - apply find_some in E1 as [Hil Ht]. apply list_elem_of_In, Hin in Hil as Hi. unfold t1 in Ht.
    apply andb_true_iff in Ht as [Hd Hb]. apply Z.eqb_eq in Hd, Hb. pose proof (c_ref _ _ Hok i Hi) as Hrf.
    split; [done|]. split; [apply hit_ok; congruence|]. split; [by apply set_buf_ring|].
    unfold holds. rewrite !(replaced s m i _ Hok Hi i), Nat.eqb_refl. simpl. split; [done|]. split; [lia | by left].
  - assert (Hno : forall j, (j < NBUF)%nat -> ~ holds j dv bno s).
    { intros j Hj [Hd Hb]. apply Hin in Hj. apply list_elem_of_In in Hj. pose proof (find_none _ _ E1 j Hj) as Hf. unfold t1 in Hf.
      by rewrite Hd, Hb, !Z.eqb_refl in Hf. }
    rewrite (ring_scan_prev s l) by done. set (t2 := fun i : nat => _). destruct (List.find t2 (reverse l)) as [i|] eqn:E2.
    + apply find_reverse_split in E2 as (Ht & l1 & l2 & El & Hl2). unfold t2 in Ht. apply Z.eqb_eq in Ht.
      assert (Hi : (i < NBUF)%nat) by (apply Hin; set_solver).
      split; [done|]. split; [by apply recycle_ok|]. split; [by apply set_buf_ring|].
      unfold holds at 1. rewrite !(replaced s m i _ Hok Hi i), Nat.eqb_refl. simpl. split; [done|]. split; [lia|]. right.
      split; [done|]. split; [done|]. exists l1, l2. split; [done|]. intros j Hj%Hl2. unfold t2 in Hj. by apply Z.eqb_neq in Hj.
    + intros j Hj. split; [|by apply Hno]. apply Hin in Hj as Hl. pose proof (c_ref _ _ Hok j Hj).
      rewrite <- elem_of_reverse in Hl. apply list_elem_of_In in Hl. pose proof (find_none _ _ E2 j Hl) as Hf. unfold t2 in Hf.
      apply Z.eqb_neq in Hf. lia.
Qed.

(** What a valid buffer shows after the read. *)
Lemma bread_ok s m i : cache_ok s m -> (i < NBUF)%nat -> 0 < refcnt (buffer i s) ->
  cache_ok (bread i s) m /\ bvalid (buffer i (bread i s)) = true /\
  bdata (buffer i (bread i s)) = m (bdev (buffer i s)) (blockno (buffer i s)).
Proof.
  intros Hok Hi Hr. pose proof (c_dev _ _ Hok i Hi Hr) as Hd. unfold bread. rewrite (replaced s m i _ Hok Hi), Nat.eqb_refl. simpl.
  destruct (bvalid (buffer i s)) eqn:Ev; simpl.
  - split; [|by rewrite Ev, (c_cached _ _ Hok)]. apply (recount_ok s m i (refcnt (buffer i s)) true); try done; lia.
  - assert (E : dblocks s (bdev (buffer i s)) (blockno (buffer i s)) = m (bdev (buffer i s)) (blockno (buffer i s))).
    { apply (c_disk _ _ Hok); [done|]. intros j Hj Hh. by rewrite (c_once _ _ Hok j i _ _ Hj Hi Hd Hh). }
    split; [|done]. apply (replace_ok s m m i); simpl; try done. lia.
Qed.

Lemma modify_ok s m i x : cache_ok s m -> (i < NBUF)%nat -> block (buffer i s) = true ->
  cache_ok (set_buf i (set_data x (buffer i s)) s) (mset (bdev (buffer i s)) (blockno (buffer i s)) x m).
Proof.
  intros Hok Hi Hb. destruct (c_lock _ _ Hok i Hi Hb) as [Hr Hv]. pose proof (c_dev _ _ Hok i Hi Hr) as Hd.
  apply (replace_ok s m _ i); simpl; try done; [lia | intros; lia | by unfold mset; rewrite !Z.eqb_refl|].
  intros dv bno Hdv [Hn|]; [|congruence]. unfold mset, holds in *. destruct (Z.eqb_spec dv (bdev (buffer i s))), (Z.eqb_spec bno (blockno (buffer i s))); simpl; try done.
  by destruct Hn.
Qed.

Lemma bwrite_ok s s' m i : cache_ok s m -> (i < NBUF)%nat -> bwrite i s = Some s' -> cache_ok s' m.
Proof.
  intros Hok Hi. unfold bwrite. destruct (block (buffer i s)) eqn:Hb; [|done]. simpl. intros [= <-].
  destruct (c_lock _ _ Hok i Hi Hb) as [Hr Hv]. pose proof (c_dev _ _ Hok i Hi Hr) as Hd.
  destruct Hok as [Hring Hl Href Hdv Hlk Hon Hcl Hca Hdi]. split; try done.
  - destruct Hring as [l [? ?]]. by exists l.
  - intros j Hj H0 Hvj. specialize (Hcl j Hj H0 Hvj). unfold clean, buffer in *. simpl. rewrite Hcl.
    destruct (Z.eqb_spec (bdev (nth j (bufs s) null_buf)) (bdev (nth i (bufs s) null_buf))) as [E1|]; [|done].
    destruct (Z.eqb_spec (blockno (nth j (bufs s) null_buf)) (blockno (nth i (bufs s) null_buf))) as [E2|]; [|done].
    assert (E : j = i) by (by apply (Hon j i (bdev (nth i (bufs s) null_buf)) (blockno (nth i (bufs s) null_buf)))). rewrite E in H0. exfalso. clear -H0 Hr. cbn in *. lia.
  - intros dv bno Hnz Hinv. simpl. destruct (Z.eqb_spec dv (bdev (buffer i s))) as [->|], (Z.eqb_spec bno (blockno (buffer i s))) as [->|]; simpl;
      try (apply Hdi; done). specialize (Hinv i Hi). unfold buffer, holds in *. simpl in Hinv. rewrite Hinv in Hv; done.
Qed.

Lemma brelse_ok s s' m i : cache_ok s m -> (i < NBUF)%nat -> 1 < refcnt (buffer i s) \/ clean i s -> brelse i s = Some s' -> cache_ok s' m.
Proof.
  intros Hok Hi Hc. unfold brelse. destruct (block (buffer i s)) eqn:Hb; [|done]. cbn [negb]. intros [= <-].
  destruct (c_lock _ _ Hok i Hi Hb) as [Hr Hv]. set (s1 := set_buf i _ s).
  assert (Hok1 : cache_ok s1 m) by (apply (recount_ok s m i _ false); try done; [lia | intros; destruct Hc; [lia | done]]).
  destruct (refcnt (buffer i s) - 1 =? 0); [|done].
  apply (cache_links s1 m _ _ Hok1). destruct (c_ring _ _ Hok1) as [l Hl]. destruct (ring_facts s1 l Hl) as (_ & _ & _ & Hin).
  apply Hin, list_elem_of_split in Hi as (l1 & l2 & ->). exists (i :: l1 ++ l2). by apply ring_release.
Qed.

Lemma bunpin_ok s m i : cache_ok s m -> (i < NBUF)%nat ->
  1 < refcnt (buffer i s) \/ (refcnt (buffer i s) = 1 /\ block (buffer i s) = false /\ clean i s) -> cache_ok (bunpin i s) m.
Proof.
  intros Hok Hi Hc. apply (recount_ok s m i (refcnt (buffer i s) - 1) (block (buffer i s))); try done; try lia.
  - intros Hb. destruct (c_lock _ _ Hok i Hi Hb). destruct Hc as [|(_ & ? & _)]; [split; [lia | done] | congruence].
  - intros H0. destruct Hc as [|(_ & _ & ?)]; [lia | done].
Qed.

Lemma bstep_ok c c' : bstep c c' -> cache_ok c.1.1 c.1.2 -> cache_ok c'.1.1 c'.1.2.
Proof.
  intros H Hok. destruct H as [dv bno i s s' m h Hdv Hg|i s m h Hi Hr Hb|i x s m h Hi Hb|i s s' m h Hi Hw|i s s' m h Hi Hc Hw|i s m h Hi Hr|i s m h Hi Hc]; simpl in *.
  - destruct (c_ring _ _ Hok) as [l Hl]. pose proof (bget_spec dv bno s m l Hok Hl Hdv) as Hs. rewrite Hg in Hs. apply Hs.
  - by apply bread_ok.
  - by apply modify_ok.
  - by eapply bwrite_ok.
  - by eapply brelse_ok.
  - apply hit_ok; [done | done |]. by apply (c_dev _ _ Hok).
  - by apply bunpin_ok.
Qed.

(** ** The order of the ring *)
Lemma filter_out (l1 l2 : list nat) i : NoDup (l1 ++ i :: l2) -> filter (fun j => j <> i) (l1 ++ i :: l2) = l1 ++ l2.
Proof.
  intros Hd. apply NoDup_app in Hd as (_ & H1 & H2). apply NoDup_cons in H2 as [H2 _].
  assert (Hk : forall l : list nat, i ∉ l -> filter (fun j : nat => j <> i) l = l).
  { induction l as [|x l IH]; intros Hl; [done|]. rewrite filter_cons_True by set_solver. rewrite IH by set_solver. done. }
  rewrite filter_app, filter_cons_False by naive_solver. rewrite !Hk; [done | done|]. intros Hi. apply (H1 i Hi). set_solver.
Qed.

Lemma bget_ring dv bno i s s' l : bget dv bno s = Some (i, s') -> ring s l -> ring s' l.
Proof.
  unfold bget. intros H Hr. destruct (scan _ (next s) _ _); [injection H as _ <-; by apply set_buf_ring|].
  destruct (scan _ (prev s) _ _); [injection H as _ <-; by apply set_buf_ring | done].
Qed.

Lemma bstep_ring c c' : bstep c c' -> ring c.1.1 (recency c.2) -> ring c'.1.1 (recency c'.2).
Proof.
  intros H Hr. destruct H as [dv bno i s s' m h Hdv Hg|i s m h Hi _ Hb|i x s m h Hi Hb|i s s' m h Hi Hw|i s s' m h Hi Hc Hw|i s m h Hi _|i s m h Hi Hc]; simpl in *;
    try (by apply set_buf_ring).
  - by apply (bget_ring dv bno i s s').
  - unfold bwrite in Hw. destruct (negb _); [done|]. injection Hw as <-. destruct Hr. by split.
  - unfold brelse in Hw. destruct (negb _); [done|]. injection Hw as <-.
    set (s1 := set_buf i _ s). assert (Hr1 : ring s1 (recency h)) by (by apply set_buf_ring).
    replace (refcnt (buffer i s) - 1 =? 0) with (refcnt (buffer i s) =? 1) by (apply eq_true_iff_eq; rewrite !Z.eqb_eq; lia).
    destruct (refcnt (buffer i s) =? 1); [|done]. cbn [recency].
    destruct (ring_facts s1 _ Hr1) as (Hd & _ & _ & Hin). apply Hin, list_elem_of_split in Hi as (l1 & l2 & El).
    rewrite El in *. rewrite filter_out by done. by apply ring_release.
Qed.

Lemma binit_bufs dk : bufs (binit dk) = replicate NBUF null_buf /\ dblocks (binit dk) = dk.
Proof.
  enough (H : forall k b s, bufs (binit_loop k b s) = bufs s /\ dblocks (binit_loop k b s) = dblocks s) by apply H.
  induction k as [|k IH]; intros b s; simpl; [done|]. destruct (IH (S b) (push_front b s)) as [-> ->]. done.
Qed.

Lemma binit_ok dk : cache_ok (binit dk) dk.
Proof.
  destruct (binit_bufs dk) as [Hb Hd].
  assert (Hn : forall i, buffer i (binit dk) = null_buf).
  { intros i. unfold buffer. rewrite Hb, nth_lookup. destruct (replicate NBUF null_buf !! i) eqn:E; [by apply lookup_replicate in E as [-> _] | done]. }
  split; [eexists; apply binit_ring | by rewrite Hb | | | | | | |by rewrite Hd]; try (intros i Hi; rewrite Hn; done).
  - intros i j dv bno _ _ Hdv [Hh _]. by rewrite Hn in Hh.
Qed.

Lemma bstep_rtc_ok c c' : rtc bstep c c' -> cache_ok c.1.1 c.1.2 -> ring c.1.1 (recency c.2) ->
  cache_ok c'.1.1 c'.1.2 /\ ring c'.1.1 (recency c'.2).
Proof. induction 1 as [|c c1 c' Hs _ IH]; [done|]. intros Hok Hr. apply IH; [by apply (bstep_ok c) | by apply (bstep_ring c)]. Qed.

Lemma bcache_invariant dk s m h : rtc bstep (binit dk, dk, []) (s, m, h) -> cache_ok s m /\ ring s (recency h).
Proof. intros H. apply (bstep_rtc_ok _ _ H); [apply binit_ok | apply binit_ring]. Qed.

(** C32: the buffer cache is transparent.  Whatever blocks the users get, read,
    change under the lock, write, pin and release from the state [binit]
    builds, in any interleaving in which a buffer is given up only when its
    content is on the disk, the buffers stay on one ring, from the most to
    the least recently released ([recency] of the history of releases), and a
    block is in at most one of them.  [bget] answers with that buffer, or
    recycles the unreferenced buffer released the longest ago, and the read
    then shows exactly the last content stored in the block; it panics only
    when every buffer is referenced and none holds the block. *)
Theorem bcache_transparent dk s m h dv bno :
  rtc bstep (binit dk, dk, []) (s, m, h) -> dv <> 0 ->
  ring s (recency h) /\
  match bget dv bno s with
  | Some (i, s') => (i < NBUF)%nat /\ ring s' (recency h) /\
      (forall j, (j < NBUF)%nat -> holds j dv bno s' <-> j = i) /\
      bvalid (buffer i (bread i s')) = true /\ bdata (buffer i (bread i s')) = m dv bno /\
      (holds i dv bno s \/
       ((forall j, (j < NBUF)%nat -> ~ holds j dv bno s) /\ refcnt (buffer i s) = 0 /\
        exists l1 l2, recency h = l1 ++ i :: l2 /\ forall j, j ∈ l2 -> refcnt (buffer j s) <> 0))
  | None => forall j, (j < NBUF)%nat -> 0 < refcnt (buffer j s) /\ ~ holds j dv bno s
  end.
Proof.
  intros Hrun Hdv. apply bcache_invariant in Hrun as [Hok Hl]. split; [done|].
  pose proof (bget_spec dv bno s m _ Hok Hl Hdv) as Hs. destruct (bget dv bno s) as [[i s']|]; [|done].
  destruct Hs as (Hi & Hok' & Hr' & Hh & Href & Hlru). destruct (bread_ok s' m i Hok' Hi Href) as (_ & Hv & Hdata).
  split_and!; try done.
  - intros j Hj. split; [intros Hj'; by apply (c_once _ _ Hok' j i dv bno) | by intros ->].
  - rewrite Hdata. by destruct Hh as [-> ->].
Qed.

Definition demo_dk : memory := fun dv bno => replicate (Z.to_nat bno) "d"%char.

(** The first buffer given is 0, the last on the list; block 3 of device 1 is
    read, changed, written and released, and then found in the same buffer. *)
Definition demo1 : bcache := match bget 1 3 (binit demo_dk) with Some (_, s) => s | None => binit demo_dk end.
Definition demo2 : bcache := bread 0 demo1.
Definition demo3 : bcache := set_buf 0 (set_data ["x"%char] (buffer 0 demo2)) demo2.
Definition demo_mem : memory := mset (bdev (buffer 0 demo2)) (blockno (buffer 0 demo2)) ["x"%char] demo_dk.
Definition demo4 : bcache := default demo3 (bwrite 0 demo3).
Definition demo5 : bcache := default demo4 (brelse 0 demo4).

Lemma bcache_transparent_witness :
  match bget 1 3 demo5 with
  | Some (i, s') => i = 0%nat /\ bdata (buffer i (bread i s')) = ["x"%char]
  | None => False
  end /\ ring demo5 (0%nat :: reverse (seq 1 29)).
Proof.
  destruct (bcache_transparent demo_dk demo5 demo_mem [0%nat] 1 3) as (Hr & H); [|done|].
  - assert (H0 : (0 < NBUF)%nat) by (unfold NBUF; lia).
    apply (rtc_l _ _ (demo1, demo_dk, [])); [apply (step_bget 1 3 0); [done | vm_compute; reflexivity]|].
    apply (rtc_l _ _ (demo2, demo_dk, [])); [apply (step_bread 0); [exact H0 | vm_compute; reflexivity | vm_compute; reflexivity]|].
    apply (rtc_l _ _ (demo3, demo_mem, [])); [apply (step_modify 0 ["x"%char]); [exact H0 | vm_compute; reflexivity]|].
    apply (rtc_l _ _ (demo4, demo_mem, [])); [apply (step_bwrite 0); [exact H0 | vm_compute; reflexivity]|].
    apply (rtc_l _ _ (demo5, demo_mem, [0%nat])); [apply (step_brelse 0 demo4 demo5 demo_mem []); [exact H0 | right; vm_compute; reflexivity | vm_compute; reflexivity]|].
    apply rtc_refl.
  - assert (Em : demo_mem 1 3 = ["x"%char]) by (vm_compute; reflexivity). rewrite Em in H.
    assert (Ei : match bget 1 3 demo5 with Some (i, _) => i = 0%nat | None => False end) by (vm_compute; reflexivity).
    split; [|exact Hr].
    destruct (bget 1 3 demo5) as [[i s']|]; [|exact Ei]. split; [exact Ei|]. destruct H as (_ & _ & _ & _ & Hd & _). exact Hd.
Defined.
