(* ===== verification/Pagetable.v ===== *)
(** * Page tables (xv6/kernel/vm.c: walk; riscv.h)

    Sv39 page tables: three levels of pages of 512 entries, in the physical
    memory.  The tables are described by a finite map from paths of indices to
    pages: [[]] is the root, [[i]] the table below its entry [i], [[i; j]] the
    table of leaves below entry [j] of that. *)
From S2P Require Import Prelude Ram Kalloc.
Local Open Scope Z_scope.

Definition PTE_V : Z := 1.
Definition PTE_R : Z := 2.
Definition PTE_W : Z := 4.
Definition PTE_X : Z := 8.
Definition PTE_U : Z := 16.
Definition MAXVA : Z := Z.shiftl 1 (9 + 9 + 9 + 12 - 1).

Definition PA2PTE (pa : Z) : Z := u64 (Z.shiftl (Z.shiftr pa 12) 10).
Definition PTE2PA (pte : Z) : Z := u64 (Z.shiftl (Z.shiftr pte 10) 12).
Definition PTE_FLAGS (pte : Z) : Z := Z.land pte 0x3FF.
Definition PXSHIFT (level : Z) : Z := 12 + 9 * level.
Definition PX (level va : Z) : Z := Z.land (Z.shiftr va (PXSHIFT level)) 0x1FF.

(** The valid bit, and the test of any bits. *)
Definition has (bits pte : Z) : bool := negb (Z.land pte bits =? 0).

(** [pagetable[i]] *)
Definition entry (pagetable i : Z) : Z := pagetable + 8 * i.

Definition set_bytes (f : ram -> ram) (k : kmem) : kmem := mkKmem (f (bytes k)) (freelist k).

(** The loop of [walk] from a level; 0 is the null pointer. *)
Fixpoint walk_loop (level : nat) (pagetable va : Z) (alloc : bool) (k : kmem) : Z * kmem :=
  match level with
  | O => (entry pagetable (PX 0 va), k)
  | S l =>
      let pte := entry pagetable (PX (Z.of_nat level) va) in
      if has PTE_V (load64 (bytes k) pte) then walk_loop l (PTE2PA (load64 (bytes k) pte)) va alloc k
      else if negb alloc then (0, k)
      else
        let '(p, k1) := kalloc k in
        if p =? 0 then (0, k1)
        else
          let k2 := set_bytes (fill p 0 PGSIZE) k1 in
          let k3 := set_bytes (store64 pte (Z.lor (PA2PTE p) PTE_V)) k2 in
          walk_loop l p va alloc k3
  end.

(** [None] is a panic. *)
Definition walk (pagetable va : Z) (alloc : bool) (k : kmem) : option (Z * kmem) :=
  if MAXVA <=? va then None else Some (walk_loop 2 pagetable va alloc k).

(** ** Bits *)

Lemma PX_spec level va : 0 <= level -> PX level va = (va / 2 ^ PXSHIFT level) mod 512.
Proof.
  intros H. unfold PX, PXSHIFT. change 0x1FF with (Z.ones 9). rewrite Z.land_ones, Z.shiftr_div_pow2 by lia. done.
Qed.

Lemma PX_range level va : 0 <= level -> 0 <= PX level va < 512.
Proof. intros H. rewrite PX_spec by done. by apply Z.mod_pos_bound. Qed.

(** The indices determine the page of a virtual address. *)
Lemma PX_inj va vb : 0 <= va < 2 * MAXVA -> 0 <= vb < 2 * MAXVA ->
  PX 2 va = PX 2 vb -> PX 1 va = PX 1 vb -> PX 0 va = PX 0 vb -> va / PGSIZE = vb / PGSIZE.
Proof.
  intros Ha Hb. rewrite !PX_spec by done. unfold PGSIZE.
  change (2 ^ PXSHIFT 2) with (4096 * 262144). change (2 ^ PXSHIFT 1) with (4096 * 512). change (2 ^ PXSHIFT 0) with 4096.
  rewrite <- !Z.div_div by lia. change MAXVA with 274877906944 in *. intros E2 E1 E0.
  assert (0 <= va / 4096 < 134217728 /\ 0 <= vb / 4096 < 134217728) as [Hva Hvb] by (split; split; (apply Z.div_pos || apply Z.div_lt_upper_bound); lia).
  set (x := va / 4096) in *. set (y := vb / 4096) in *. clearbody x y. clear Ha Hb va vb.
  rewrite (Z.mod_small (x / 262144)), (Z.mod_small (y / 262144)) in E2 by (split; [apply Z.div_pos; lia | apply Z.div_lt_upper_bound; lia]).
  Z.div_mod_to_equations. lia.
Qed.

Lemma PX_page level va vb : 0 <= level -> va / PGSIZE = vb / PGSIZE -> PX level va = PX level vb.
Proof.
  intros Hl E. rewrite !PX_spec by done. unfold PXSHIFT. rewrite !Z.pow_add_r, <- !Z.div_div by lia. change (2 ^ 12) with PGSIZE. by rewrite E.
Qed.

Lemma has_lor_V x : has PTE_V (Z.lor x PTE_V) = true.
Proof.
  unfold has, PTE_V. destruct (Z.eqb_spec (Z.land (Z.lor x 1) 1) 0) as [E|]; [|done].
  apply (f_equal (fun z => Z.testbit z 0)) in E. rewrite Z.land_spec, Z.lor_spec in E. simpl in E. by rewrite orb_true_r in E.
Qed.

Lemma PA2PTE_spec pa : 0 <= pa < 2 ^ 56 -> PA2PTE pa = pa / 4096 * 1024.
Proof.
  intros H. unfold PA2PTE, u64. rewrite Z.shiftl_mul_pow2, Z.shiftr_div_pow2 by lia. change (2 ^ 12) with 4096. change (2 ^ 10) with 1024.
  apply Z.mod_small. pose proof (Z.div_pos pa 4096 ltac:(lia) ltac:(lia)). pose proof (Z.div_lt_upper_bound pa 4096 (2 ^ 44) ltac:(lia) ltac:(lia)). lia.
Qed.

(** An aligned address and flags of ten bits are packed without loss. *)
Lemma pack_spec pa perm : 0 <= pa < 2 ^ 56 -> 0 <= perm < 1024 -> Z.lor (PA2PTE pa) perm = pa / 4096 * 1024 + perm.
Proof.
  intros Hpa Hp. rewrite PA2PTE_spec by done. rewrite <- (Z.add_lor_land (pa / 4096 * 1024) perm).
  assert (E : Z.land (pa / 4096 * 1024) perm = 0); [|lia].
  apply Z.bits_inj'. intros n Hn. rewrite Z.land_spec, Z.bits_0. change 1024 with (2 ^ 10). rewrite <- Z.shiftl_mul_pow2, Z.shiftl_spec by lia.
  destruct (Z.ltb_spec n 10); [by rewrite Z.testbit_neg_r by lia|].
  rewrite (Z.bits_above_log2 perm n); [by rewrite andb_false_r | lia|].
  destruct (Z.eqb_spec perm 0) as [->|]; [simpl; lia|]. apply Z.log2_lt_pow2; [lia|]. apply Z.lt_le_trans with (2 ^ 10); [lia|].
  apply Z.pow_le_mono_r; lia.
Qed.

Lemma PTE2PA_pack pa perm : 0 <= pa < 2 ^ 56 -> pa mod PGSIZE = 0 -> 0 <= perm < 1024 -> PTE2PA (Z.lor (PA2PTE pa) perm) = pa.
Proof.
  intros Hpa Ha Hp. rewrite pack_spec by done. unfold PTE2PA, u64. rewrite Z.shiftl_mul_pow2, Z.shiftr_div_pow2 by lia.
  change (2 ^ 10) with 1024. change (2 ^ 12) with PGSIZE. rewrite Z.div_add_l, (Z.div_small perm) by lia. rewrite Z.add_0_r.
  change 4096 with PGSIZE. rewrite Z.mul_comm, <- Z_div_exact_2 by done. apply Z.mod_small. lia.
Qed.

Lemma pack_u64 pa perm : 0 <= pa < 2 ^ 56 -> 0 <= perm < 1024 -> in_u64 (Z.lor (PA2PTE pa) perm).
Proof.
  intros Hpa Hp. rewrite pack_spec by done. unfold in_u64. pose proof (Z.div_pos pa 4096 ltac:(lia) ltac:(lia)).
  pose proof (Z.div_lt_upper_bound pa 4096 (2 ^ 44) ltac:(lia) ltac:(lia)). lia.
Qed.

Lemma PTE_FLAGS_pack pa perm : 0 <= pa < 2 ^ 56 -> 0 <= perm < 1024 -> PTE_FLAGS (Z.lor (PA2PTE pa) perm) = perm.
Proof.
  intros Hpa Hp. rewrite pack_spec by done. unfold PTE_FLAGS. change 0x3FF with (Z.ones 10). rewrite Z.land_ones by lia. change (2 ^ 10) with 1024.
  rewrite Z.add_comm, Z_mod_plus_full. by apply Z.mod_small.
Qed.

(** ** The tables in the memory *)
Abbreviation tree := (gmap (list Z) Z).

Definition tables (t : tree) : list Z := (map_to_list t).*2.

Lemma elem_of_tables t p : p ∈ tables t <-> exists n, t !! n = Some p.
Proof.
  unfold tables. rewrite list_elem_of_fmap. split.
  - intros ([n q] & -> & H). exists n. by apply elem_of_map_to_list.
  - intros [n H]. exists (n, p). split; [done | by apply elem_of_map_to_list].
Qed.

Lemma tables_insert t n p : t !! n = None -> tables (<[n := p]> t) ≡ₚ p :: tables t.
Proof. intros H. unfold tables. by rewrite (map_to_list_insert t n p H). Qed.

Lemma tables_delete t n p : t !! n = Some p -> tables t ≡ₚ p :: tables (delete n t).
Proof. intros H. rewrite <- (insert_delete_id t n p H) at 1. apply tables_insert. apply lookup_delete_eq. Qed.

Lemma tables_inj t n n' p : NoDup (tables t) -> t !! n = Some p -> t !! n' = Some p -> n = n'.
Proof.
  intros Hd H H'. destruct (decide (n = n')) as [|Hne]; [done|]. rewrite (tables_delete t n p H) in Hd. apply NoDup_cons in Hd as [Hn _].
  destruct Hn. apply elem_of_tables. exists n'. by rewrite lookup_delete_ne.
Qed.

(** The entry of a virtual address in its table of leaves. *)
Definition path (va : Z) : list Z := [PX 2 va; PX 1 va].
Definition leaf (m : ram) (t : tree) (va : Z) : Z :=
  match t !! path va with Some p => load64 m (entry p (PX 0 va)) | None => 0 end.

Section Tables.
Context (kend : Z) (Hend : KERNBASE <= kend).
Local Abbreviation page := (page kend).
Local Abbreviation kmem_ok := (kmem_ok kend).

Record pt (m : ram) (root : Z) (t : tree) : Prop := mkPt {
  pt_root : t !! [] = Some root;
  pt_depth : forall n p, t !! n = Some p -> (length n <= 2)%nat;
  pt_up : forall n i p, t !! (n ++ [i]) = Some p -> is_Some (t !! n) /\ 0 <= i < 512;
  pt_pages : Forall page (tables t);
  pt_nodup : NoDup (tables t);
  pt_link : forall n p i, t !! n = Some p -> (length n < 2)%nat -> 0 <= i < 512 ->
    load64 m (entry p i) = match t !! (n ++ [i]) with Some q => Z.lor (PA2PTE q) PTE_V | None => 0 end
}.

Lemma page_pa p : page p -> 0 <= p < 2 ^ 56 /\ p mod PGSIZE = 0.
Proof. intros Hp. pose proof (page_pos kend Hend p Hp). destruct Hp as [? [? ?]]. unfold PHYSTOP, KERNBASE in *. lia. Qed.

Lemma pt_page m root t n p : pt m root t -> t !! n = Some p -> page p.
Proof. intros H Hn. apply pt_pages in H. rewrite Forall_forall in H. apply H, elem_of_tables. eauto. Qed.

Lemma entry_in p i : 0 <= i < 512 -> p <= entry p i /\ entry p i + 8 <= p + PGSIZE.
Proof. unfold entry, PGSIZE. lia. Qed.

Lemma load_keeps m m' ps p i : keeps m m' ps -> p ∈ ps -> 0 <= i < 512 -> load64 m' (entry p i) = load64 m (entry p i).
Proof. intros Hk Hp Hi. pose proof (entry_in p i Hi). apply load64_ext. intros x Hx. apply (Hk p); [done | lia]. Qed.

Lemma pt_keeps m m' root t : pt m root t -> keeps m m' (tables t) -> pt m' root t.
Proof.
  intros [Hr Hd Hu Hp Hn Hl] Hk. split; try done. intros n p i Hnp Hlen Hi. rewrite <- (Hl n p i) by done.
  apply (load_keeps _ _ (tables t)); [done | apply elem_of_tables; eauto | done].
Qed.

Lemma leaf_keeps m m' t va : keeps m m' (tables t) -> leaf m' t va = leaf m t va.
Proof.
  intros Hk. unfold leaf. destruct (t !! path va) as [p|] eqn:E; [|done].
  apply (load_keeps _ _ (tables t)); [done | apply elem_of_tables; eauto | by apply PX_range].
Qed.

(** Following a link. *)
Lemma follow m root t n p i : pt m root t -> t !! n = Some p -> (length n < 2)%nat -> 0 <= i < 512 ->
  match t !! (n ++ [i]) with
  | Some q => has PTE_V (load64 m (entry p i)) = true /\ PTE2PA (load64 m (entry p i)) = q
  | None => has PTE_V (load64 m (entry p i)) = false
  end.
Proof.
  intros Hpt Hn Hlen Hi. rewrite (pt_link _ _ _ Hpt n p i Hn Hlen Hi). destruct (t !! (n ++ [i])) as [q|] eqn:E; [|done].
  split; [apply has_lor_V|]. destruct (page_pa q) as [? ?]; [by apply (pt_page _ _ _ _ _ Hpt E)|]. by apply PTE2PA_pack.
Qed.

Lemma walk_false k root t va : pt (bytes k) root t -> 0 <= va < MAXVA ->
  walk root va false k = Some (match t !! path va with Some p => entry p (PX 0 va) | None => 0 end, k).
Proof.
  intros Hpt Hva. unfold walk. destruct (Z.leb_spec MAXVA va); [lia|]. f_equal. cbn [walk_loop]. change (Z.of_nat 2) with 2. change (Z.of_nat 1) with 1.
  pose proof (follow _ _ _ [] root (PX 2 va) Hpt (pt_root _ _ _ Hpt) ltac:(simpl; lia) (PX_range 2 va ltac:(lia))) as H2. cbn [app] in H2.
  destruct (t !! [PX 2 va]) as [p|] eqn:E2.
  - destruct H2 as [-> ->]. pose proof (follow _ _ _ [PX 2 va] p (PX 1 va) Hpt E2 ltac:(simpl; lia) (PX_range 1 va ltac:(lia))) as H1.
    cbn [app] in H1. unfold path. destruct (t !! [PX 2 va; PX 1 va]) as [q|]; [by destruct H1 as [-> ->] | by rewrite H1].
  - rewrite H2. destruct (t !! path va) as [q|] eqn:E; [|done].
    destruct (pt_up _ _ _ Hpt [PX 2 va] (PX 1 va) q E) as [[? ?] _]. congruence.
Qed.

(** A state of the memory: the tables, the free pages, and the pages [rest]
    that belong to others. *)
Record vm (k : kmem) (root : Z) (t : tree) (free rest : list Z) : Prop := mkVm {
  vm_kmem : kmem_ok k free;
  vm_pt : pt (bytes k) root t;
  vm_rest : Forall page rest;
  vm_nodup : NoDup (tables t ++ free ++ rest)
}.

(** New tables were added, and nothing else changed. *)
Record grows (root : Z) (rest : list Z) (k : kmem) (t : tree) (free : list Z) (k' : kmem) (t' : tree) (free' : list Z) : Prop := mkGrows {
  g_vm : vm k' root t' free' rest;
  g_rest : keeps (bytes k) (bytes k') rest;
  g_leaf : forall va, leaf (bytes k') t' va = leaf (bytes k) t va;
  g_total : tables t' ++ free' ≡ₚ tables t ++ free;
  g_more : t ⊆ t'
}.

Lemma grows_refl root rest k t free : vm k root t free rest -> grows root rest k t free k t free.
Proof. intros H. split; try done. Qed.

Lemma grows_trans root rest k t free k1 t1 free1 k2 t2 free2 :
  grows root rest k t free k1 t1 free1 -> grows root rest k1 t1 free1 k2 t2 free2 -> grows root rest k t free k2 t2 free2.
Proof.
  intros [A1 A2 A3 A4 A5] [B1 B2 B3 B4 B5]. split; [done | by eapply kp_trans | | by rewrite B4 | by trans t1].
  intros va. by rewrite B3.
Qed.

(** A table hung below entry [i] of the table at [n]. *)
Section Hang.
Context (m m3 : ram) (root : Z) (t : tree) (n : list Z) (i pn p : Z).
Context (Hpt : pt m root t) (Hn : t !! n = Some pn) (Hlen : (length n < 2)%nat) (Hi : 0 <= i < 512).
Context (Hno : t !! (n ++ [i]) = None) (Hp : page p) (Hfresh : p ∉ tables t).
Context (Em : m3 = store64 (entry pn i) (Z.lor (PA2PTE p) PTE_V) (fill p 0 PGSIZE m)).

Lemma hang_out x : ~ (p <= x < p + PGSIZE) -> ~ (entry pn i <= x < entry pn i + 8) -> m3 x = m x.
Proof. intros H1 H2. by rewrite Em, store64_out, fill_out. Qed.

Lemma hang_apart x : p <= x < p + PGSIZE -> ~ (pn <= x < pn + PGSIZE).
Proof.
  intros Hx. apply (page_apart kend p pn x); [done | by apply (pt_page _ _ _ _ _ Hpt Hn) | | done].
  intros ->. apply Hfresh, elem_of_tables. eauto.
Qed.

Lemma hang_new j : 0 <= j < 512 -> load64 m3 (entry p j) = 0.
Proof.
  intros Hj. pose proof (entry_in p j Hj). pose proof (entry_in pn i Hi).
  rewrite Em. rewrite (load64_ext (fill p 0 PGSIZE m)).
  - apply load64_fill0; lia.
  - intros x Hx. apply store64_out. pose proof (hang_apart x ltac:(lia)). lia.
Qed.

Lemma hang_old n' q j : t !! n' = Some q -> 0 <= j < 512 -> (n', j) <> (n, i) -> load64 m3 (entry q j) = load64 m (entry q j).
Proof.
  intros Hq Hj Hne. apply load64_ext. intros x Hx. pose proof (entry_in q j Hj) as Hin.
  pose proof (pt_page _ _ _ _ _ Hpt Hq) as Hpq. pose proof (entry_in pn i Hi) as Hin2. apply hang_out.
  - apply (page_apart kend q p x); [done | done | | lia]. intros ->. apply Hfresh, elem_of_tables. eauto.
  - destruct (decide (q = pn)) as [->|Hqn].
    + assert (n' = n) as -> by (apply (tables_inj t _ _ pn); [apply Hpt | done | done]). assert (j <> i) by congruence. unfold entry in *. lia.
    + pose proof (page_apart kend q pn x Hpq (pt_page _ _ _ _ _ Hpt Hn) Hqn ltac:(lia)). lia.
Qed.

Lemma hang_entry : load64 m3 (entry pn i) = Z.lor (PA2PTE p) PTE_V.
Proof. rewrite Em. apply load64_store64. destruct (page_pa p Hp). by apply pack_u64. Qed.

Lemma hang_pt : pt m3 root (<[n ++ [i] := p]> t).
Proof.
  pose proof Hpt as [Hr Hd Hu Hpg Hnd Hl]. split.
  - rewrite lookup_insert_ne; [done|]. by destruct n.
  - intros n' q. destruct (decide (n' = n ++ [i])) as [->|Hne]; [intros _; rewrite length_app; simpl; lia|]. rewrite lookup_insert_ne by done. apply Hd.
  - intros n' j q. destruct (decide (n' ++ [j] = n ++ [i])) as [E|Hne].
    + apply app_inj_tail in E as [-> ->]. intros _. split; [|done]. exists pn. rewrite lookup_insert_ne; [done|].
      intros E%(f_equal length). rewrite length_app in E. simpl in E. lia.
    + rewrite lookup_insert_ne by done. intros Hq%Hu. destruct Hq as [[q' Hq'] Hj]. split; [|done].
      destruct (decide (n ++ [i] = n')) as [<-|Hne']; [rewrite lookup_insert_eq; eauto | rewrite lookup_insert_ne; eauto].
  - rewrite tables_insert by done. by constructor.
  - rewrite tables_insert by done. by constructor.
  - intros n' q j. destruct (decide (n' = n ++ [i])) as [->|Hne].
    + rewrite lookup_insert_eq. intros [= <-] _ Hj. rewrite hang_new by done.
      rewrite lookup_insert_ne by (intros E%(f_equal length); rewrite !length_app in E; simpl in E; lia).
      destruct (t !! ((n ++ [i]) ++ [j])) as [r|] eqn:E; [|done]. destruct (Hu _ _ _ E) as [[? ?] _]. congruence.
    + rewrite lookup_insert_ne by done. intros Hq Hl' Hj. destruct (decide ((n', j) = (n, i))) as [[= -> ->]|Hne'].
      * rewrite lookup_insert_eq. assert (q = pn) as -> by congruence. apply hang_entry.
      * rewrite (hang_old n') by done. rewrite lookup_insert_ne; [by apply Hl|]. intros E. apply app_inj_tail in E as [-> ->]. done.
Qed.

Lemma hang_leaf va : leaf m3 (<[n ++ [i] := p]> t) va = leaf m t va.
Proof.
  unfold leaf. destruct (decide (n ++ [i] = path va)) as [<-|Hne].
  - rewrite lookup_insert_eq, Hno. apply hang_new. by apply PX_range.
  - rewrite lookup_insert_ne by done. destruct (t !! path va) as [q|] eqn:E; [|done].
    apply (hang_old (path va)); [done | by apply PX_range|]. intros [= <- _]. simpl in Hlen. lia.
Qed.
End Hang.

Lemma add_table k root t p free rest n pn i :
  vm k root t (p :: free) rest -> t !! n = Some pn -> (length n < 2)%nat -> 0 <= i < 512 -> t !! (n ++ [i]) = None ->
  exists k1, kalloc k = (p, k1) /\ p <> 0 /\
    grows root rest k t (p :: free)
      (set_bytes (store64 (entry pn i) (Z.lor (PA2PTE p) PTE_V)) (set_bytes (fill p 0 PGSIZE) k1)) (<[n ++ [i] := p]> t) free.
Proof.
  intros [Hk Hpt Hrest Hnd] Hn Hlen Hi Hno. pose proof (kalloc_spec kend Hend k (p :: free) Hk) as (k1 & E & Hk1 & Hp & Hpf & Hout).
  exists k1. split; [done|]. pose proof (page_pos kend Hend p Hp). split; [lia|].
  assert (Hfresh : p ∉ tables t) by (apply NoDup_app in Hnd as (_ & Hd & _); intros Hin; apply (Hd p Hin); set_solver).
  set (k3 := set_bytes _ _).
  assert (Hpt1 : pt (bytes k1) root t).
  { apply (pt_keeps (bytes k)); [done|]. apply (keeps_page kend _ _ p); [done | apply Hpt | done | done]. }
  assert (E3 : bytes k3 = store64 (entry pn i) (Z.lor (PA2PTE p) PTE_V) (fill p 0 PGSIZE (bytes k1))) by done.
  assert (Hkeep : forall ps, Forall page ps -> p ∉ ps -> pn ∉ ps -> keeps (bytes k) (bytes k3) ps).
  { intros ps Hps H1 H2 q x Hq Hx. rewrite Forall_forall in Hps. pose proof (entry_in pn i Hi).
    assert (Hap : ~ (p <= x < p + PGSIZE)) by (apply (page_apart kend q p x); auto; by intros ->).
    pose proof (page_apart kend q pn x (Hps q Hq) (pt_page _ _ _ _ _ Hpt Hn) ltac:(by intros ->) Hx).
    rewrite (hang_out (bytes k1) (bytes k3) i pn p E3) by lia. by apply Hout. }
  assert (Hpn : pn ∈ tables t) by (apply elem_of_tables; eauto).
  pose proof Hnd as (Hndt & Hd1 & Hnd2)%NoDup_app. apply NoDup_app in Hnd2 as (_ & Hd2 & _).
  split.
  - split; [|by eapply hang_pt|done|].
    + apply (kmem_keeps kend Hend k1); [done|]. apply (kp_trans _ (bytes k)).
      * intros q x Hq Hx. symmetry. apply Hout. destruct Hk1 as [_ Hps _]. rewrite Forall_forall in Hps.
        apply (page_apart kend q p x); auto. by intros ->.
      * apply Hkeep; [apply Hk1 | done | intros Hin; apply (Hd1 pn Hpn); set_solver].
    + rewrite tables_insert by done. simpl. apply NoDup_ListNoDup. apply (Permutation_NoDup (l := tables t ++ p :: free ++ rest)).
      * symmetry. apply Permutation_middle.
      * by apply NoDup_ListNoDup.
  - apply Hkeep; [done | intros Hin; by apply (Hd2 p); [set_solver|] | intros Hin; apply (Hd1 pn Hpn); set_solver].
  - intros va. rewrite (hang_leaf (bytes k1) (bytes k3) root t n i pn p) by done. apply leaf_keeps.
    apply (keeps_page kend _ _ p); [done | apply Hpt | done | done].
  - rewrite tables_insert by done. simpl. apply Permutation_middle.
  - by apply insert_subseteq.
Qed.

(** One level down, with a new table if there is none. *)
Lemma walk_down l k root t free rest n p va :
  vm k root t free rest -> t !! n = Some p -> (length n < 2)%nat ->
  let i := PX (Z.of_nat (S l)) va in
  (exists q k1 t1 free1, grows root rest k t free k1 t1 free1 /\ t1 !! (n ++ [i]) = Some q /\
     (length free <= length free1 + 1)%nat /\ (forall x y, t1 !! x = Some y -> t !! x = Some y \/ x = n ++ [i]) /\
     walk_loop (S l) p va true k = walk_loop l q va true k1) \/
  (free = [] /\ t !! (n ++ [i]) = None /\ walk_loop (S l) p va true k = (0, k)).
Proof.
  intros Hvm Hn Hlen i. assert (Hi : 0 <= i < 512) by (apply PX_range; lia).
  pose proof (follow _ _ _ n p i (vm_pt _ _ _ _ _ Hvm) Hn Hlen Hi) as Hf. cbn [walk_loop]. fold i.
  destruct (t !! (n ++ [i])) as [q|] eqn:E.
  - left. destruct Hf as [-> ->]. exists q, k, t, free. split; [by apply grows_refl|]. split_and!; [done | lia | by left | done].
  - rewrite Hf. cbn [negb]. destruct free as [|q free].
    + right. rewrite (kalloc_spec kend Hend k [] (vm_kmem _ _ _ _ _ Hvm)). done.
    + left. destruct (add_table k root t q free rest n p i Hvm Hn Hlen Hi E) as (k1 & -> & Hq & Hg).
      destruct (Z.eqb_spec q 0); [done|]. eexists q, _, _, free. split; [exact Hg|]. split; [apply lookup_insert_eq|]. split; [simpl; lia|]. split; [|done].
      intros x y. destruct (decide (n ++ [i] = x)) as [<-|Hne]; [by right | rewrite lookup_insert_ne by done; by left].
Qed.

(** The new tables are those of [va]. *)
Definition hangs (va : Z) (t t' : tree) : Prop := t ⊆ t' /\ forall x y, t' !! x = Some y -> t !! x = Some y \/ x = [PX 2 va] \/ x = path va.

Lemma walk_true k root t free rest va : vm k root t free rest -> 0 <= va < MAXVA ->
  exists a k' t' free', walk root va true k = Some (a, k') /\ grows root rest k t free k' t' free' /\ hangs va t t' /\
    match t' !! path va with
    | Some q => a = entry q (PX 0 va) /\ (length free <= length free' + 2)%nat
    | None => a = 0 /\ free' = [] /\ (length free <= 1)%nat
    end.
Proof.
  intros Hvm Hva. unfold walk. destruct (Z.leb_spec MAXVA va); [lia|].
  destruct (walk_down 1 k root t free rest [] root va Hvm (pt_root _ _ _ (vm_pt _ _ _ _ _ Hvm)) ltac:(simpl; lia))
    as [(q & k1 & t1 & free1 & Hg & Hq & Hlen1 & Hx1 & ->)|(-> & Hno & ->)].
  - destruct (walk_down 0 k1 root t1 free1 rest _ q va (g_vm _ _ _ _ _ _ _ _ Hg) Hq ltac:(simpl; lia))
      as [(r & k2 & t2 & free2 & Hg2 & Hr & Hlen2 & Hx2 & ->)|(-> & Hno & ->)].
    + eexists _, k2, t2, free2. split; [done|]. split; [by eapply grows_trans|].
      split; [split; [trans t1; [apply Hg | apply Hg2]|]; intros x y [[?|?]%Hx1| ->]%Hx2; [by left | by right; left | by right; right]|]. change (t2 !! path va = Some r) in Hr. rewrite Hr. split; [done | lia].
    + exists 0, k1, t1, []. split; [done|]. split; [done|]. split; [split; [apply Hg|]; intros x y [?|?]%Hx1; [by left | by right; left]|]. change (t1 !! path va = None) in Hno. by rewrite Hno.
  - exists 0, k, t, []. split; [done|]. split; [by apply grows_refl|]. split; [split; [done | by left]|].
    destruct (t !! path va) as [r|] eqn:E; [|by split_and!; [| |simpl; lia]]. destruct (pt_up _ _ _ (vm_pt _ _ _ _ _ Hvm) [PX 2 va] (PX 1 va) r E) as [[? ?] _].
    change (t !! [PX 2 va] = None) in Hno. congruence.
Qed.

(** A store to the entry of [va] in its table of leaves. *)
Lemma leaf_write k root t free rest va p v : vm k root t free rest -> 0 <= va < MAXVA -> t !! path va = Some p -> in_u64 v ->
  let k' := set_bytes (store64 (entry p (PX 0 va)) v) k in
  vm k' root t free rest /\ keeps (bytes k) (bytes k') rest /\
  (forall vb, 0 <= vb < 2 * MAXVA -> leaf (bytes k') t vb = if vb / PGSIZE =? va / PGSIZE then v else leaf (bytes k) t vb).
Proof.
  intros [Hk Hpt Hrest Hnd] Hva Hp Hv k'. set (a := entry p (PX 0 va)) in *.
  pose proof (entry_in p (PX 0 va) (PX_range 0 va ltac:(lia))) as Hin. fold a in Hin.
  assert (Hpin : p ∈ tables t) by (apply elem_of_tables; eauto). apply NoDup_app in Hnd as (Hndt & Hd & Hnd2). pose proof (Hd p Hpin) as Hdp.
  assert (Hpp : page p) by (by apply (pt_page _ _ _ _ _ Hpt Hp)).
  assert (Hout : forall x, ~ (p <= x < p + PGSIZE) -> bytes k' x = bytes k x) by (intros x Hx; apply store64_out; lia).
  assert (Hold : forall n q j, t !! n = Some q -> 0 <= j < 512 -> (n, j) <> (path va, PX 0 va) -> load64 (bytes k') (entry q j) = load64 (bytes k) (entry q j)).
  { intros n q j Hq Hj Hne. pose proof (entry_in q j Hj) as Hin'. apply load64_ext. intros x Hx. destruct (decide (q = p)) as [->|Hqp].
    - apply store64_out. assert (n = path va) as -> by (by apply (tables_inj t _ _ p)). assert (j <> PX 0 va) by congruence. subst a. unfold entry in *. lia.
    - apply Hout. apply (page_apart kend q p x); [by apply (pt_page _ _ _ _ _ Hpt Hq) | done | done | lia]. }
  split; [|split].
  - split; [| |done|].
    + apply (kmem_keeps kend Hend k); [done|]. apply (keeps_page kend _ _ p); [done | apply Hk | set_solver | done].
    + pose proof Hpt as [Hr Hdep Hu Hpg Hnd' Hl]. split; try done. intros n q j Hq Hlen Hj. rewrite <- (Hl n q j) by done.
      apply (Hold n); [done | done|]. intros [= -> _]. simpl in Hlen. lia.
    + apply NoDup_app. done.
  - apply (keeps_page kend _ _ p); [done | done | set_solver | done].
  - intros vb Hvb. unfold leaf. destruct (Z.eqb_spec (vb / PGSIZE) (va / PGSIZE)) as [E|Hne].
    + unfold path. rewrite !(PX_page _ vb va) by (lia || done). fold (path va). rewrite Hp. by apply load64_store64.
    + destruct (t !! path vb) as [q|] eqn:Eq; [|done]. apply (Hold (path vb)); [done | by apply PX_range|].
      intros [= E2 E1 E0]. apply Hne. apply PX_inj; (done || lia).
Qed.
End Tables.
