(* ===== verification/Vm.v ===== *)
(** * Virtual memory (xv6/kernel/vm.c; proc.c: proc_pagetable, growproc)

    The operations on address spaces, over the physical memory of [Ram], the
    allocator of [Kalloc] and the page tables of [Pagetable].  [None] is a
    panic; a null pointer is 0.  A kernel buffer is the list of its bytes. *)
From S2P Require Import Prelude Ram Kalloc Pagetable.
Local Open Scope Z_scope.

Definition TRAMPOLINE : Z := MAXVA - PGSIZE.
Definition TRAPFRAME : Z := TRAMPOLINE - PGSIZE.

Definition pte_at (k : kmem) (pte : Z) : Z := load64 (bytes k) pte.
Definition set_pte (pte v : Z) (k : kmem) : kmem := set_bytes (store64 pte v) k.
Definition zero_page (p : Z) (k : kmem) : kmem := set_bytes (fill p 0 PGSIZE) k.

Section Operations.
(** [end] and [trampoline] of the kernel's image. *)
Context (kend trampoline : Z).

Definition walkaddr (pagetable va : Z) (k : kmem) : option Z :=
  if MAXVA <=? va then Some 0
  else
    '(pte, k) ← walk pagetable va false k;
    if pte =? 0 then Some 0
    else if negb (has PTE_V (pte_at k pte)) then Some 0
    else if negb (has PTE_U (pte_at k pte)) then Some 0
    else Some (PTE2PA (pte_at k pte)).

Fixpoint mappages_loop (fuel : nat) (pagetable a last pa perm : Z) (k : kmem) : option (Z * kmem) :=
  match fuel with
  | O => None
  | S fuel' =>
      '(pte, k) ← walk pagetable a true k;
      if pte =? 0 then Some (-1, k)
      else if has PTE_V (pte_at k pte) then None
      else
        let k := set_pte pte (Z.lor (Z.lor (PA2PTE pa) perm) PTE_V) k in
        if a =? last then Some (0, k)
        else mappages_loop fuel' pagetable (u64 (a + PGSIZE)) last (u64 (pa + PGSIZE)) perm k
  end.

Definition mappages (pagetable va size pa perm : Z) (k : kmem) : option (Z * kmem) :=
  if negb (va mod PGSIZE =? 0) then None
  else if negb (size mod PGSIZE =? 0) then None
  else if size =? 0 then None
  else mappages_loop (Z.to_nat (size / PGSIZE)) pagetable va (u64 (va + size - PGSIZE)) pa perm k.

Definition kvmmap (kpgtbl va pa sz perm : Z) (k : kmem) : option kmem :=
  '(r, k) ← mappages kpgtbl va sz pa perm k;
  if negb (r =? 0) then None else Some k.

Definition uvmcreate (k : kmem) : Z * kmem :=
  let '(pagetable, k) := kalloc k in
  if pagetable =? 0 then (0, k) else (pagetable, zero_page pagetable k).

(** One turn of the loop of [uvmunmap]. *)
Definition unmap_page (pagetable a : Z) (do_free : bool) (k : kmem) : option kmem :=
  '(pte, k) ← walk pagetable a false k;
  if pte =? 0 then Some k
  else if negb (has PTE_V (pte_at k pte)) then Some k
  else
    k ← (if do_free then kfree kend (PTE2PA (pte_at k pte)) k else Some k);
    Some (set_pte pte 0 k).

Fixpoint uvmunmap_loop (fuel : nat) (pagetable a lim : Z) (do_free : bool) (k : kmem) : option kmem :=
  match fuel with
  | O => if a <? lim then None else Some k
  | S fuel' =>
      if a <? lim then
        k ← unmap_page pagetable a do_free k;
        uvmunmap_loop fuel' pagetable (u64 (a + PGSIZE)) lim do_free k
      else Some k
  end.

Definition uvmunmap (pagetable va npages : Z) (do_free : bool) (k : kmem) : option kmem :=
  if negb (va mod PGSIZE =? 0) then None
  else uvmunmap_loop (Z.to_nat npages) pagetable va (u64 (va + npages * PGSIZE)) do_free k.

Definition uvmdealloc (pagetable oldsz newsz : Z) (k : kmem) : option (Z * kmem) :=
  if oldsz <=? newsz then Some (oldsz, k)
  else if PGROUNDUP newsz <? PGROUNDUP oldsz then
    let npages := i32 ((PGROUNDUP oldsz - PGROUNDUP newsz) / PGSIZE) in
    k ← uvmunmap pagetable (PGROUNDUP newsz) (u64 npages) true k;
    Some (newsz, k)
  else Some (newsz, k).

Fixpoint uvmalloc_loop (fuel : nat) (pagetable a oldsz newsz xperm : Z) (k : kmem) : option (Z * kmem) :=
  match fuel with
  | O => if a <? newsz then None else Some (newsz, k)
  | S fuel' =>
      if a <? newsz then
        let '(mem, k) := kalloc k in
        if mem =? 0 then
          '(_, k) ← uvmdealloc pagetable a oldsz k;
          Some (0, k)
        else
          let k := zero_page mem k in
          '(r, k) ← mappages pagetable a PGSIZE mem (Z.lor (Z.lor PTE_R PTE_U) xperm) k;
          if negb (r =? 0) then
            k ← kfree kend mem k;
            '(_, k) ← uvmdealloc pagetable a oldsz k;
            Some (0, k)
          else uvmalloc_loop fuel' pagetable (u64 (a + PGSIZE)) oldsz newsz xperm k
      else Some (newsz, k)
  end.

Definition uvmalloc (pagetable oldsz newsz xperm : Z) (k : kmem) : option (Z * kmem) :=
  if newsz <? oldsz then Some (oldsz, k)
  else
    let oldsz := PGROUNDUP oldsz in
    uvmalloc_loop (Z.to_nat ((newsz - oldsz + PGSIZE - 1) / PGSIZE)) pagetable oldsz oldsz newsz xperm k.

(** The loop of [freewalk] over the 512 entries; [rec] frees a lower table. *)
Fixpoint freewalk_loop (rec : Z -> kmem -> option kmem) (n : nat) (i pagetable : Z) (k : kmem) : option kmem :=
  match n with
  | O => Some k
  | S n' =>
      let pte := pte_at k (entry pagetable i) in
      if has PTE_V pte && negb (has (Z.lor (Z.lor PTE_R PTE_W) PTE_X) pte) then
        k ← rec (PTE2PA pte) k;
        freewalk_loop rec n' (i + 1) pagetable (set_pte (entry pagetable i) 0 k)
      else if has PTE_V pte then None
      else freewalk_loop rec n' (i + 1) pagetable k
  end.

(** [depth] bounds the levels below. *)
Fixpoint freewalk (depth : nat) (pagetable : Z) (k : kmem) : option kmem :=
  match depth with
  | O => None
  | S depth' =>
      k ← freewalk_loop (freewalk depth') 512 0 pagetable k;
      kfree kend pagetable k
  end.

Definition uvmfree (pagetable sz : Z) (k : kmem) : option kmem :=
  k ← (if 0 <? sz then uvmunmap pagetable 0 (PGROUNDUP sz / PGSIZE) true k else Some k);
  freewalk 3 pagetable k.

(** The body of the loop of [uvmcopy]: the entry of the parent at [i] is
    copied; [false] is the jump to [err]. *)
Definition copy_page (old new i : Z) (k : kmem) : option (bool * kmem) :=
  '(pte, k) ← walk old i false k;
  if pte =? 0 then Some (true, k)
  else if negb (has PTE_V (pte_at k pte)) then Some (true, k)
  else
    let pa := PTE2PA (pte_at k pte) in
    let flags := PTE_FLAGS (pte_at k pte) in
    let '(mem, k) := kalloc k in
    if mem =? 0 then Some (false, k)
    else
      let k := set_bytes (fun m => write mem (fetch m pa (Z.to_nat PGSIZE)) m) k in
      '(r, k) ← mappages new i PGSIZE mem flags k;
      if negb (r =? 0) then k ← kfree kend mem k; Some (false, k) else Some (true, k).

Fixpoint uvmcopy_loop (fuel : nat) (old new i sz : Z) (k : kmem) : option (Z * kmem) :=
  match fuel with
  | O => if i <? sz then None else Some (0, k)
  | S fuel' =>
      if i <? sz then
        '(ok, k) ← copy_page old new i k;
        if ok : bool then uvmcopy_loop fuel' old new (u64 (i + PGSIZE)) sz k
        else k ← uvmunmap new 0 (i / PGSIZE) true k; Some (-1, k)
      else Some (0, k)
  end.

Definition uvmcopy (old new sz : Z) (k : kmem) : option (Z * kmem) :=
  uvmcopy_loop (Z.to_nat ((sz + PGSIZE - 1) / PGSIZE)) old new 0 sz k.

Definition uvmclear (pagetable va : Z) (k : kmem) : option kmem :=
  '(pte, k) ← walk pagetable va false k;
  if pte =? 0 then None else Some (set_pte pte (Z.land (pte_at k pte) (Z.lnot PTE_U)) k).

Definition ismapped (pagetable va : Z) (k : kmem) : option bool :=
  '(pte, k) ← walk pagetable va false k;
  if pte =? 0 then Some false else if has PTE_V (pte_at k pte) then Some true else Some false.

Definition vmfault (pagetable psz va : Z) (k : kmem) : option (Z * kmem) :=
  if psz <=? va then Some (0, k)
  else
    let va := PGROUNDDOWN va in
    mapped ← ismapped pagetable va k;
    if mapped : bool then Some (0, k)
    else
      let '(mem, k) := kalloc k in
      if mem =? 0 then Some (0, k)
      else
        let k := zero_page mem k in
        '(r, k) ← mappages pagetable va PGSIZE mem (Z.lor (Z.lor PTE_W PTE_U) PTE_R) k;
        if negb (r =? 0) then k ← kfree kend mem k; Some (0, k) else Some (mem, k).

(** [pa0 = walkaddr(...)], or the page [vmfault] allocates. *)
Definition user_page (pagetable psz va0 : Z) (k : kmem) : option (Z * kmem) :=
  pa0 ← walkaddr pagetable va0 k;
  if pa0 =? 0 then vmfault pagetable psz va0 k else Some (pa0, k).

Fixpoint copyout_loop (fuel : nat) (pagetable psz dstva : Z) (src : list ascii) (k : kmem) : option (Z * kmem) :=
  match src with
  | [] => Some (0, k)
  | _ =>
      match fuel with
      | O => None
      | S fuel' =>
          let va0 := PGROUNDDOWN dstva in
          if MAXVA <=? va0 then Some (-1, k)
          else
            '(pa0, k) ← user_page pagetable psz va0 k;
            if pa0 =? 0 then Some (-1, k)
            else
              '(pte, k) ← walk pagetable va0 false k;
              if negb (has PTE_W (pte_at k pte)) then Some (-1, k)
              else
                let n := Z.to_nat (Z.min (PGSIZE - (dstva - va0)) (Z.of_nat (length src))) in
                let k := set_bytes (write (pa0 + (dstva - va0)) (take n src)) k in
                copyout_loop fuel' pagetable psz (u64 (va0 + PGSIZE)) (drop n src) k
      end
  end.

Definition copyout (pagetable psz dstva : Z) (src : list ascii) (k : kmem) : option (Z * kmem) :=
  copyout_loop (length src) pagetable psz dstva src k.

(** The status, the bytes copied so far, and the memory. *)
Fixpoint copyin_loop (fuel : nat) (pagetable psz srcva len : Z) (dst : list ascii) (k : kmem) : option (Z * list ascii * kmem) :=
  if len <=? 0 then Some (0, dst, k)
  else
    match fuel with
    | O => None
    | S fuel' =>
        let va0 := PGROUNDDOWN srcva in
        '(pa0, k) ← user_page pagetable psz va0 k;
        if pa0 =? 0 then Some (-1, dst, k)
        else
          let n := Z.min (PGSIZE - (srcva - va0)) len in
          copyin_loop fuel' pagetable psz (u64 (va0 + PGSIZE)) (len - n)
            (dst ++ fetch (bytes k) (pa0 + (srcva - va0)) (Z.to_nat n)) k
    end.

Definition copyin (pagetable psz srcva len : Z) (k : kmem) : option (Z * list ascii * kmem) :=
  copyin_loop (Z.to_nat len) pagetable psz srcva len [] k.

(** The inner loop of [copyinstr]: the characters up to a NUL, and whether
    there was one. *)
Fixpoint scan_nul (bs : list ascii) : list ascii * bool :=
  match bs with
  | [] => ([], false)
  | c :: bs' => if Ascii.eqb c NUL then ([], true) else let '(l, b) := scan_nul bs' in (c :: l, b)
  end.

(** The string is without its terminator, which is stored when the status
    is 0. *)
Fixpoint copyinstr_loop (fuel : nat) (pagetable psz srcva max : Z) (dst : list ascii) (k : kmem) : option (Z * list ascii * kmem) :=
  if max <=? 0 then Some (-1, dst, k)
  else
    match fuel with
    | O => None
    | S fuel' =>
        let va0 := PGROUNDDOWN srcva in
        '(pa0, k) ← user_page pagetable psz va0 k;
        if pa0 =? 0 then Some (-1, dst, k)
        else
          let n := Z.min (PGSIZE - (srcva - va0)) max in
          let '(l, got_null) := scan_nul (fetch (bytes k) (pa0 + (srcva - va0)) (Z.to_nat n)) in
          if got_null : bool then Some (0, dst ++ l, k)
          else copyinstr_loop fuel' pagetable psz (u64 (va0 + PGSIZE)) (max - n) (dst ++ l) k
    end.

Definition copyinstr (pagetable psz srcva max : Z) (k : kmem) : option (Z * list ascii * kmem) :=
  copyinstr_loop (Z.to_nat max) pagetable psz srcva max [] k.

(** ** The address space of a process (proc.c) *)

(** [tf] is [p->trapframe]. *)
Definition proc_pagetable (tf : Z) (k : kmem) : option (Z * kmem) :=
  let '(pagetable, k) := uvmcreate k in
  if pagetable =? 0 then Some (0, k)
  else
    '(r, k) ← mappages pagetable TRAMPOLINE PGSIZE trampoline (Z.lor PTE_R PTE_X) k;
    if r <? 0 then k ← uvmfree pagetable 0 k; Some (0, k)
    else
      '(r, k) ← mappages pagetable TRAPFRAME PGSIZE tf (Z.lor PTE_R PTE_W) k;
      if r <? 0 then
        k ← uvmunmap pagetable TRAMPOLINE 1 false k;
        k ← uvmfree pagetable 0 k;
        Some (0, k)
      else Some (pagetable, k).

Definition proc_freepagetable (pagetable sz : Z) (k : kmem) : option kmem :=
  k ← uvmunmap pagetable TRAMPOLINE 1 false k;
  k ← uvmunmap pagetable TRAPFRAME 1 false k;
  uvmfree pagetable sz k.

(** The status and the new [p->sz]. *)
Definition growproc (pagetable sz n : Z) (k : kmem) : option (Z * Z * kmem) :=
  if 0 <? n then
    if TRAPFRAME <? u64 (sz + n) then Some (-1, sz, k)
    else
      '(sz', k) ← uvmalloc pagetable sz (u64 (sz + n)) PTE_W k;
      if sz' =? 0 then Some (-1, sz, k) else Some (0, sz', k)
  else if n <? 0 then
    '(sz', k) ← uvmdealloc pagetable sz (u64 (sz + n)) k;
    Some (0, sz', k)
  else Some (0, sz, k).

(** [sys_sbrk], with its two arguments: the result and the new [p->sz]. *)
Definition SBRK_EAGER : Z := 1.
Definition sys_sbrk (pagetable sz n t : Z) (k : kmem) : option (Z * Z * kmem) :=
  let addr := sz in
  if (t =? SBRK_EAGER) || (n <? 0) then
    '(r, sz', k) ← growproc pagetable sz n k;
    if r <? 0 then Some (-1, sz', k) else Some (addr, sz', k)
  else if u64 (addr + n) <? addr then Some (-1, sz, k)
  else if TRAPFRAME <? u64 (addr + n) then Some (-1, sz, k)
  else Some (addr, u64 (sz + n), k).
End Operations.
