(* ===== verification/Space.v ===== *)
(** * Address spaces (xv6/kernel/vm.c)

    An address space is a page table together with the finite map of its
    valid entries.  The pages of its entries below [lim] belong to it; every
    page of the memory is a table of this space, a page of its data, free, or
    in [rest], the property of others. *)
From S2P Require Import Prelude Ram Kalloc Pagetable Vm.
Local Open Scope Z_scope.

Abbreviation vmap := (gmap Z Z).

Definition NVPN : Z := MAXVA / PGSIZE.

(** Lists of pages are taken up to their order. *)
#[export] Instance keeps_proper m m' : Proper (Permutation ==> iff) (keeps m m').
Proof. intros ps qs Hp. split; intros H; apply (keeps_sub _ _ _ _ H); intros x; by rewrite Hp. Qed.

Section Space.
Context (kend : Z) (Hend : KERNBASE <= kend) (lim : Z).
Local Abbreviation page := (page kend).
Local Abbreviation vm := (vm kend).

Definition data (um : vmap) : list Z := PTE2PA <$> (map_to_list (filter (fun e => e.1 < lim) um)).*2.

Lemma data_insert um v e : um !! v = None -> data (<[v := e]> um) ≡ₚ (if v <? lim then [PTE2PA e] else []) ++ data um.
Proof.
  intros Hv. unfold data. destruct (Z.ltb_spec v lim) as [Hl|Hl].
  - rewrite map_filter_insert_True by done. rewrite map_to_list_insert; [done|]. by apply map_lookup_filter_None_2; left.
  - rewrite map_filter_insert_False by (simpl; lia). by rewrite delete_id.
Qed.

Lemma data_delete um v e : um !! v = Some e -> data um ≡ₚ (if v <? lim then [PTE2PA e] else []) ++ data (delete v um).
Proof. intros Hv. rewrite <- (insert_delete_id um v e Hv) at 1. apply data_insert, lookup_delete_eq. Qed.

Lemma elem_of_data um p : p ∈ data um <-> exists v e, um !! v = Some e /\ v < lim /\ p = PTE2PA e.
Proof.
  unfold data. rewrite list_elem_of_fmap. split.
  - intros (e & -> & ([v e'] & -> & H)%list_elem_of_fmap). apply elem_of_map_to_list, map_lookup_filter_Some in H as [? ?]. eauto.
  - intros (v & e & H & Hl & ->). exists e. split; [done|]. apply list_elem_of_fmap. exists (v, e). split; [done|].
    apply elem_of_map_to_list, map_lookup_filter_Some. done.
Qed.

Record aspace (k : kmem) (root : Z) (t : tree) (um : vmap) (free rest : list Z) : Prop := mkAspace {
  as_vm : vm k root t free (data um ++ rest);
  as_leaf : forall va, 0 <= va < 2 * MAXVA -> leaf (bytes k) t va = default 0 (um !! (va / PGSIZE));
  as_valid : forall v e, um !! v = Some e -> 0 <= v < NVPN /\ has PTE_V e = true /\ in_u64 e
}.

Lemma vm_perm k root t free rest rest' : rest ≡ₚ rest' -> vm k root t free rest -> vm k root t free rest'.
Proof. intros Hp [H1 H2 H3 H4]. split; [done | done | by rewrite <- Hp | by rewrite <- Hp]. Qed.

Lemma aspace_perm k root t um free rest rest' : rest ≡ₚ rest' -> aspace k root t um free rest -> aspace k root t um free rest'.
Proof. intros Hp [H1 H2 H3]. split; [|done|done]. apply (vm_perm _ _ _ _ (data um ++ rest)); [by rewrite Hp | done]. Qed.

(** ** Looking up *)

Lemma vpn_range va : 0 <= va < MAXVA -> 0 <= va / PGSIZE < NVPN.
Proof.
  intros H. change NVPN with (2 ^ 26). change MAXVA with (2 ^ 26 * 4096) in H. unfold PGSIZE.
  split; [apply Z.div_pos; lia | apply Z.div_lt_upper_bound; lia].
Qed.

(** What is needed to read a space. *)
Record view (m : ram) (root : Z) (t : tree) (um : vmap) : Prop := mkView {
  vw_pt : pt kend m root t;
  vw_leaf : forall va, 0 <= va < 2 * MAXVA -> leaf m t va = default 0 (um !! (va / PGSIZE));
  vw_valid : forall v e, um !! v = Some e -> 0 <= v < NVPN /\ has PTE_V e = true /\ in_u64 e
}.

Lemma aspace_view k root t um free rest : aspace k root t um free rest -> view (bytes k) root t um.
Proof. intros [[_ ? _ _] ? ?]. by split. Qed.

Lemma view_keeps m m' root t um : view m root t um -> keeps m m' (tables t) -> view m' root t um.
Proof. intros [Hpt Hl Hv] Hk. split; [by apply (pt_keeps _ m) | | done]. intros va Hva. rewrite (leaf_keeps _ _ t va Hk). by apply Hl. Qed.

Lemma walk_view k root t um va : view (bytes k) root t um -> 0 <= va < MAXVA ->
  exists pte, walk root va false k = Some (pte, k) /\
    match um !! (va / PGSIZE) with Some e => pte <> 0 /\ pte_at k pte = e | None => pte = 0 \/ pte_at k pte = 0 end /\
    (pte <> 0 -> exists p, t !! path va = Some p /\ pte = entry p (PX 0 va)).
Proof.
  intros [Hpt Hl Hv] Hva. pose proof (Hl va ltac:(lia)) as E. unfold leaf in E. eexists.
  split; [by apply (walk_false kend Hend)|]. destruct (t !! path va) as [p|] eqn:Ep.
  - pose proof (page_pos kend Hend p (pt_page _ _ _ _ _ _ Hpt Ep)) as Hp. pose proof (PX_range 0 va ltac:(lia)) as Hx.
    split; [|by eauto]. unfold pte_at. rewrite E. destruct (um !! (va / PGSIZE)); [|by right]. split; [unfold entry; lia | done].
  - split; [|done]. destruct (um !! (va / PGSIZE)) as [e|] eqn:Eu; [|by left]. destruct (Hv _ _ Eu) as (_ & Hb & _). simpl in E. by subst e.
Qed.

Lemma walk_um k root t um free rest va : aspace k root t um free rest -> 0 <= va < MAXVA ->
  exists pte, walk root va false k = Some (pte, k) /\
    match um !! (va / PGSIZE) with Some e => pte <> 0 /\ pte_at k pte = e | None => pte = 0 \/ pte_at k pte = 0 end /\
    (pte <> 0 -> exists p, t !! path va = Some p /\ pte = entry p (PX 0 va)).
Proof. intros Has. apply walk_view. by eapply aspace_view. Qed.

Lemma walkaddr_um k root t um free rest va : aspace k root t um free rest -> 0 <= va ->
  walkaddr root va k = Some (if MAXVA <=? va then 0 else
    match um !! (va / PGSIZE) with Some e => if has PTE_U e then PTE2PA e else 0 | None => 0 end).
Proof.
  intros Has Hva. unfold walkaddr. destruct (Z.leb_spec MAXVA va); [done|].
  destruct (walk_um k root t um free rest va Has ltac:(lia)) as (pte & -> & Hm & _). cbn [mbind option_bind].
  destruct (um !! (va / PGSIZE)) as [e|] eqn:E.
  - destruct Hm as [Hp ->]. destruct (Z.eqb_spec pte 0); [done|]. destruct (as_valid _ _ _ _ _ _ Has _ _ E) as (_ & -> & _). simpl. by destruct (has PTE_U e).
  - destruct (Z.eqb_spec pte 0); [done|]. destruct Hm as [|Hm]; [done|]. by rewrite Hm.
Qed.

Lemma ismapped_um k root t um free rest va : aspace k root t um free rest -> 0 <= va < MAXVA ->
  ismapped root va k = Some (match um !! (va / PGSIZE) with Some _ => true | None => false end).
Proof.
  intros Has Hva. unfold ismapped. destruct (walk_um k root t um free rest va Has Hva) as (pte & -> & Hm & _). cbn [mbind option_bind].
  destruct (um !! (va / PGSIZE)) as [e|] eqn:E.
  - destruct Hm as [Hp ->]. destruct (Z.eqb_spec pte 0); [done|]. by destruct (as_valid _ _ _ _ _ _ Has _ _ E) as (_ & -> & _).
  - destruct (Z.eqb_spec pte 0); [done|]. destruct Hm as [|Hm]; [done|]. by rewrite Hm.
Qed.

(** ** The allocator *)

(** A page is taken for a new use. *)
Lemma take_page k root t um p free rest : aspace k root t um (p :: free) rest ->
  exists k', kalloc k = (p, k') /\ p <> 0 /\ page p /\ aspace k' root t um free (p :: rest) /\ p ∉ data um ++ rest /\
    keeps (bytes k) (bytes k') (data um ++ rest).
Proof.
  intros [[Hk Hpt Hr Hn] Hl Hv]. destruct (kalloc_spec kend Hend k (p :: free) Hk) as (k' & E & Hk' & Hp & Hpf & Hout).
  pose proof (page_pos kend Hend p Hp). exists k'. split; [done|]. split; [lia|]. split; [done|].
  pose proof Hn as (Hnt & Hdt & Hnr)%NoDup_app. simpl in Hnr. apply NoDup_cons in Hnr as [Hpr Hnr].
  assert (Hpt' : p ∉ tables t) by (intros Hin; apply (Hdt p Hin); set_solver).
  assert (Hkt : keeps (bytes k) (bytes k') (tables t)) by (apply (keeps_page kend _ _ p); [done | apply Hpt | done | done]).
  assert (Hpd : p ∉ data um ++ rest) by set_solver.
  split; [|split; [done | by apply (keeps_page kend _ _ p)]].
  split; [|intros va Hva; rewrite (leaf_keeps _ _ t va Hkt); by apply Hl | done].
  assert (Hperm : data um ++ p :: rest ≡ₚ p :: data um ++ rest) by (symmetry; apply Permutation_middle).
  split; [done | by apply (pt_keeps _ (bytes k)) | rewrite Hperm; by constructor|].
  rewrite Hperm, <- (Permutation_middle free). done.
Qed.

Lemma vm_give k root t p free rest : vm k root t free (p :: rest) ->
  exists k', kfree kend p k = Some k' /\ vm k' root t (p :: free) rest /\ keeps (bytes k) (bytes k') (tables t) /\ keeps (bytes k) (bytes k') rest.
Proof.
  intros [Hk Hpt Hr Hn]. apply Forall_cons in Hr as [Hp Hr]. rewrite <- (Permutation_middle free) in Hn.
  pose proof Hn as (Hnt & Hdt & Hnr)%NoDup_app. apply NoDup_cons in Hnr as [Hpr Hnr].
  destruct (kfree_spec kend Hend p k free Hk Hp ltac:(set_solver)) as (k' & E & Hk' & Hout). exists k'. split; [done|].
  assert (Hpt' : p ∉ tables t) by (intros Hin; apply (Hdt p Hin); set_solver).
  assert (Hkt : keeps (bytes k) (bytes k') (tables t)) by (apply (keeps_page kend _ _ p); [done | apply Hpt | done | done]).
  split; [|split; [done | apply (keeps_page kend _ _ p); [done | done | set_solver | done]]].
  split; [done | by apply (pt_keeps _ (bytes k)) | done | done].
Qed.

(** A page of [rest] is given back. *)
Lemma give_page k root t um p free rest : aspace k root t um free (p :: rest) ->
  exists k', kfree kend p k = Some k' /\ aspace k' root t um (p :: free) rest /\ keeps (bytes k) (bytes k') (data um ++ rest).
Proof.
  intros [Hvm Hl Hv]. destruct (vm_give k root t p free (data um ++ rest)) as (k' & E & Hvm' & Hkt & Hkr).
  - apply (vm_perm _ _ _ _ (data um ++ p :: rest)); [symmetry; apply Permutation_middle | done].
  - exists k'. split; [done|]. split; [|done]. split; [done | | done]. intros va Hva. rewrite (leaf_keeps _ _ t va Hkt). by apply Hl.
Qed.

(** A page of data or of [rest] is written. *)
Lemma write_page k root t um free rest p f : aspace k root t um free rest -> p ∈ data um ++ rest ->
  (forall m x, ~ (p <= x < p + PGSIZE) -> f m x = m x) -> aspace (set_bytes f k) root t um free rest.
Proof.
  intros [[Hk Hpt Hr Hn] Hl Hv] Hp Hf. pose proof Hn as (Hnt & Hdt & Hnr)%NoDup_app. apply NoDup_app in Hnr as (Hnf & Hdf & Hnr).
  assert (Hpp : page p) by (rewrite Forall_forall in Hr; auto).
  assert (Hkt : keeps (bytes k) (f (bytes k)) (tables t)).
  { apply (keeps_page kend _ _ p); [done | apply Hpt | intros Hin; apply (Hdt p Hin); set_solver | apply Hf]. }
  split; [|intros va Hva; simpl; rewrite (leaf_keeps _ _ t va Hkt); by apply Hl | done].
  split; [|by apply (pt_keeps _ (bytes k)) | done | done].
  apply (kmem_keeps kend Hend k); [done|]. apply (keeps_page kend _ _ p); [done | apply Hk | intros Hin; by apply (Hdf p) | apply Hf].
Qed.

(** A new address space is empty. *)
Lemma uvmcreate_space k p free rest : kmem_ok kend k (p :: free) -> Forall page rest -> NoDup ((p :: free) ++ rest) ->
  exists k', uvmcreate k = (p, k') /\ p <> 0 /\ aspace k' p {[ [] := p ]} ∅ free rest /\ keeps (bytes k) (bytes k') rest.
Proof.
  intros Hk Hr Hn. destruct (kalloc_spec kend Hend k (p :: free) Hk) as (k1 & E & Hk1 & Hp & Hpf & Hout). pose proof (page_pos kend Hend p Hp).
  unfold uvmcreate. rewrite E. destruct (Z.eqb_spec p 0); [lia|]. eexists. split; [done|]. split; [lia|]. simpl in Hn. apply NoDup_cons in Hn as [Hpn Hn].
  assert (Et : tables {[ [] := p ]} = [p]) by (unfold tables; by rewrite map_to_list_singleton).
  assert (Hfill : forall ps, Forall page ps -> p ∉ ps -> keeps (bytes k1) (bytes (zero_page p k1)) ps).
  { intros ps Hps Hps'. apply (keeps_page kend _ _ p); [done | done | done|]. intros x Hx. by apply fill_out. }
  split; [|eapply kp_trans; [apply (keeps_page kend _ _ p); [done | done | set_solver | done] | apply Hfill; [done | set_solver]]].
  split; [| |by intros v e ?%lookup_empty_Some].
  - split; [| |done|].
    + apply (kmem_keeps kend Hend k1); [done|]. apply Hfill; [apply Hk1 | done].
    + split; rewrite ?Et; [apply lookup_singleton_eq | | | by constructor | apply NoDup_singleton|].
      * intros x q [<- _]%lookup_singleton_Some. simpl. lia.
      * intros x i q [Hni _]%lookup_singleton_Some. by destruct x.
      * intros x q i [<- <-]%lookup_singleton_Some _ Hi. cbn [app]. rewrite lookup_singleton_ne by done.
        pose proof (entry_in p i Hi). apply load64_fill0; lia.
    + rewrite Et. simpl. by constructor.
  - intros va Hva. unfold leaf. rewrite lookup_empty, lookup_singleton_ne by done. done.
Qed.

(** ** Mapping *)

Definition own (v pa : Z) : list Z := if v <? lim then [pa] else [].
Definition mkpte (pa perm : Z) : Z := Z.lor (Z.lor (PA2PTE pa) perm) PTE_V.

Lemma lor_V perm : 0 <= perm < 1024 -> 0 <= Z.lor perm PTE_V < 1024.
Proof.
  intros H. unfold PTE_V. assert (0 <= Z.lor perm 1) by (apply Z.lor_nonneg; lia). split; [done|].
  destruct (Z.eqb_spec (Z.lor perm 1) 0) as [->|]; [lia|]. change 1024 with (2 ^ 10). apply Z.log2_lt_pow2; [lia|].
  rewrite Z.log2_lor by lia. apply Z.max_lub_lt; [|simpl; lia].
  destruct (Z.eqb_spec perm 0) as [->|]; [simpl; lia | apply Z.log2_lt_pow2; lia].
Qed.

Section Pte.
Context (pa perm : Z) (Hpa : 0 <= pa < 2 ^ 56) (Hal : pa mod PGSIZE = 0) (Hperm : 0 <= perm < 1024).

Lemma mkpte_pack : mkpte pa perm = Z.lor (PA2PTE pa) (Z.lor perm PTE_V).
Proof. unfold mkpte. symmetry. apply Z.lor_assoc. Qed.

Lemma mkpte_u64 : in_u64 (mkpte pa perm).
Proof. rewrite mkpte_pack. apply pack_u64; [done | by apply lor_V]. Qed.

Lemma mkpte_pa : PTE2PA (mkpte pa perm) = pa.
Proof. rewrite mkpte_pack. apply PTE2PA_pack; [done | done | by apply lor_V]. Qed.

Lemma mkpte_flags : PTE_FLAGS (mkpte pa perm) = Z.lor perm PTE_V.
Proof. rewrite mkpte_pack. apply PTE_FLAGS_pack; [done | by apply lor_V]. Qed.

(** Tests of flags. *)
Lemma has_mkpte bits : Z.land 0x3FF bits = bits -> has bits (mkpte pa perm) = has bits (Z.lor perm PTE_V).
Proof. intros E. unfold has. rewrite <- E, Z.land_assoc. fold (PTE_FLAGS (mkpte pa perm)). by rewrite mkpte_flags, E. Qed.

Lemma mkpte_valid : has PTE_V (mkpte pa perm) = true.
Proof. apply has_lor_V. Qed.
End Pte.

(** One page is mapped: the page changes hands, or the memory ran out. *)
Lemma map_page k root t um free rest va pa perm :
  aspace k root t um free (own (va / PGSIZE) pa ++ rest) -> 0 <= va < MAXVA -> um !! (va / PGSIZE) = None ->
  0 <= pa < 2 ^ 56 -> pa mod PGSIZE = 0 -> 0 <= perm < 1024 ->
  exists pte k1 k' t' free', walk root va true k = Some (pte, k1) /\
    keeps (bytes k) (bytes k') (data um ++ own (va / PGSIZE) pa ++ rest) /\ tables t' ++ free' ≡ₚ tables t ++ free /\ hangs va t t' /\
    if pte =? 0 then k' = k1 /\ (free' = [] /\ (length free <= 1)%nat) /\ aspace k' root t' um free' (own (va / PGSIZE) pa ++ rest)
    else has PTE_V (pte_at k1 pte) = false /\ (length free <= length free' + 2)%nat /\ k' = set_pte pte (mkpte pa perm) k1 /\ aspace k' root t' (<[va / PGSIZE := mkpte pa perm]> um) free' rest.
Proof.
  intros [Hvm Hl Hv] Hva Hno Hpa Hal Hperm.
  destruct (walk_true kend Hend k root t free _ va Hvm Hva) as (a & k1 & t1 & free1 & Ew & [Hvm1 Hkp Hlf Htot _] & Hsub & Ha).
  assert (Hl1 : forall vb, 0 <= vb < 2 * MAXVA -> leaf (bytes k1) t1 vb = default 0 (um !! (vb / PGSIZE))) by (intros vb Hvb; rewrite Hlf; by apply Hl).
  destruct (t1 !! path va) as [p|] eqn:Ep.
  - pose proof (page_pos kend Hend p (pt_page _ _ _ _ _ _ (vm_pt _ _ _ _ _ _ Hvm1) Ep)) as Hp. pose proof (PX_range 0 va ltac:(lia)) as Hx.
    destruct (leaf_write kend Hend k1 root t1 free1 _ va p (mkpte pa perm) Hvm1 Hva Ep (mkpte_u64 pa perm Hpa Hperm)) as (Hvm2 & Hkp2 & Hlf2).
    destruct Ha as [-> Hlen]. exists (entry p (PX 0 va)), k1, (set_pte (entry p (PX 0 va)) (mkpte pa perm) k1), t1, free1. split; [done|].
    split; [by eapply kp_trans|]. split; [done|]. split; [done|]. destruct (Z.eqb_spec (entry p (PX 0 va)) 0) as [E|_]; [unfold entry in E; lia|].
    split; [|split; [done|split; [done|]]].
    + unfold pte_at. pose proof (Hl1 va ltac:(lia)) as E. unfold leaf in E. rewrite Ep, Hno in E. by rewrite E.
    + split.
      * apply (vm_perm _ _ _ _ (data um ++ own (va / PGSIZE) pa ++ rest)); [|done]. rewrite data_insert by done. rewrite mkpte_pa by done.
        fold (own (va / PGSIZE) pa). rewrite !app_assoc. apply Permutation_app_tail, Permutation_app_comm.
      * intros vb Hvb. unfold set_pte. rewrite Hlf2 by done. destruct (Z.eqb_spec (vb / PGSIZE) (va / PGSIZE)) as [->|Hne]; [by rewrite lookup_insert_eq|].
        rewrite lookup_insert_ne by done. by apply Hl1.
      * intros v e. destruct (decide (v = va / PGSIZE)) as [->|Hne]; [rewrite lookup_insert_eq|rewrite lookup_insert_ne by done; apply Hv].
        intros [= <-]. split; [by apply vpn_range|]. split; [apply mkpte_valid | by apply mkpte_u64].
  - destruct Ha as (-> & -> & Hlen). exists 0, k1, k1, t1, []. split_and!; try done.
Qed.

Lemma mappages_page k root t um free rest va pa perm :
  aspace k root t um free (own (va / PGSIZE) pa ++ rest) -> 0 <= va < MAXVA -> va mod PGSIZE = 0 -> um !! (va / PGSIZE) = None ->
  0 <= pa < 2 ^ 56 -> pa mod PGSIZE = 0 -> 0 <= perm < 1024 ->
  exists r k' t' free', mappages root va PGSIZE pa perm k = Some (r, k') /\
    keeps (bytes k) (bytes k') (data um ++ own (va / PGSIZE) pa ++ rest) /\ tables t' ++ free' ≡ₚ tables t ++ free /\ t ⊆ t' /\
    ((r = 0 /\ (length free <= length free' + 2)%nat /\ aspace k' root t' (<[va / PGSIZE := mkpte pa perm]> um) free' rest) \/
     (r = -1 /\ (free' = [] /\ (length free <= 1)%nat) /\ aspace k' root t' um free' (own (va / PGSIZE) pa ++ rest))).
Proof.
  intros Has Hva Hav Hno Hpa Hal Hperm. unfold mappages. rewrite Hav. cbn [Z.eqb negb]. change (PGSIZE mod PGSIZE =? 0) with true.
  change (PGSIZE =? 0) with false. change (Z.to_nat (PGSIZE / PGSIZE)) with 1%nat. cbn [negb mappages_loop].
  destruct (map_page k root t um free rest va pa perm Has Hva Hno Hpa Hal Hperm) as (pte & k1 & k' & t' & free' & -> & Hk & Ht & [Hs _] & H).
  cbn [mbind option_bind]. destruct (pte =? 0).
  - destruct H as (<- & Hlen & H). exists (-1), k', t', free'. split_and!; try done. by right.
  - destruct H as (-> & Hlen & Ek & H). fold (mkpte pa perm). rewrite <- Ek. replace (va + PGSIZE - PGSIZE) with va by lia. unfold u64.
    rewrite (Z.mod_small va) by (change MAXVA with (2 ^ 38) in Hva; lia). rewrite Z.eqb_refl.
    exists 0, k', t', free'. split_and!; try done. by left.
Qed.

(** ** Unmapping *)

(** The entry of [va] is cleared, after its page was possibly freed. *)
Lemma clear_pte k root t um free rest va pte : aspace k root t um free rest -> 0 <= va < MAXVA -> walk root va false k = Some (pte, k) -> pte <> 0 ->
  forall k1 free1 all1 rest1, vm k1 root t free1 all1 -> keeps (bytes k) (bytes k1) (tables t) -> all1 ≡ₚ data (delete (va / PGSIZE) um) ++ rest1 ->
  aspace (set_pte pte 0 k1) root t (delete (va / PGSIZE) um) free1 rest1 /\ keeps (bytes k1) (bytes (set_pte pte 0 k1)) all1.
Proof.
  intros Has Hva Hw Hnz k1 free1 all1 rest1 Hvm1 Hkt Hall. destruct (walk_um k root t um free rest va Has Hva) as (pte' & Hw' & _ & Hpath).
  rewrite Hw in Hw'. injection Hw' as <-. destruct (Hpath Hnz) as (p & Hp & ->). destruct Has as [Hvm Hl Hv].
  destruct (leaf_write kend Hend k1 root t free1 _ va p 0 Hvm1 Hva Hp ltac:(by unfold in_u64)) as (Hvm2 & Hkp2 & Hlf2).
  split; [|exact Hkp2]. split; [by apply (vm_perm _ _ _ _ all1)| |].
  - intros vb Hvb. unfold set_pte. rewrite Hlf2 by done. destruct (Z.eqb_spec (vb / PGSIZE) (va / PGSIZE)) as [->|Hne]; [by rewrite lookup_delete_eq|].
    rewrite lookup_delete_ne, (leaf_keeps _ _ t vb Hkt) by done. by apply Hl.
  - intros v e' [_ H]%lookup_delete_Some. by apply Hv.
Qed.

(** Without freeing, the page goes to the caller. *)
Lemma unmap_keep k root t um free rest va : aspace k root t um free rest -> 0 <= va < MAXVA ->
  exists k', unmap_page kend root va false k = Some k' /\ keeps (bytes k) (bytes k') (data um ++ rest) /\
    aspace k' root t (delete (va / PGSIZE) um) free
      (match um !! (va / PGSIZE) with Some e => own (va / PGSIZE) (PTE2PA e) | None => [] end ++ rest).
Proof.
  intros Has Hva. unfold unmap_page. destruct (walk_um k root t um free rest va Has Hva) as (pte & Hw & Hm & _). rewrite Hw. cbn [mbind option_bind].
  destruct (um !! (va / PGSIZE)) as [e|] eqn:E.
  - destruct Hm as [Hnz Hpe]. destruct (Z.eqb_spec pte 0); [done|]. rewrite Hpe. destruct (as_valid _ _ _ _ _ _ Has _ _ E) as (_ & -> & _).
    cbn [negb mbind option_bind]. eexists. split; [done|].
    destruct (clear_pte k root t um free rest va pte Has Hva Hw Hnz k free (data um ++ rest) (own (va / PGSIZE) (PTE2PA e) ++ rest)) as [H1 H2]; [apply Has | apply kp_refl | | done].
    rewrite (data_delete um _ e E). fold (own (va / PGSIZE) (PTE2PA e)). rewrite !app_assoc. apply Permutation_app_tail, Permutation_app_comm.
  - rewrite delete_id by done. exists k. split; [|split; [apply kp_refl | done]]. destruct (Z.eqb_spec pte 0); [done|]. destruct Hm as [|Hm]; [done|]. by rewrite Hm.
Qed.

Lemma unmap_free k root t um free rest va : aspace k root t um free rest -> 0 <= va < MAXVA -> va / PGSIZE < lim ->
  exists k' free', unmap_page kend root va true k = Some k' /\ aspace k' root t (delete (va / PGSIZE) um) free' rest /\
    data um ++ free ≡ₚ data (delete (va / PGSIZE) um) ++ free' /\
    keeps (bytes k) (bytes k') (data (delete (va / PGSIZE) um) ++ rest).
Proof.
  intros Has Hva Hlim. unfold unmap_page. destruct (walk_um k root t um free rest va Has Hva) as (pte & Hw & Hm & Hpath). rewrite Hw. cbn [mbind option_bind].
  destruct (um !! (va / PGSIZE)) as [e|] eqn:E.
  - destruct Hm as [Hnz Hpe]. destruct (Z.eqb_spec pte 0); [done|]. rewrite Hpe. destruct (as_valid _ _ _ _ _ _ Has _ _ E) as (_ & -> & _).
    cbn [negb]. pose proof (data_delete um _ e E) as Hdd. destruct (Z.ltb_spec (va / PGSIZE) lim); [|lia]. cbn [app] in Hdd.
    destruct (vm_give k root t (PTE2PA e) free (data (delete (va / PGSIZE) um) ++ rest)) as (k1 & -> & Hvm1 & Hkt & Hkr).
    { apply (vm_perm _ _ _ _ (data um ++ rest)); [by rewrite Hdd | apply Has]. }
    cbn [mbind option_bind]. destruct (clear_pte k root t um free rest va pte Has Hva Hw Hnz k1 _ _ rest Hvm1 Hkt) as [H1 H2]; [done|].
    eexists _, _. split; [done|]. split; [exact H1|]. split; [rewrite Hdd; simpl; by rewrite <- Permutation_middle|].
    by eapply kp_trans.
  - rewrite delete_id by done. exists k, free. split; [|split_and!; [done | done | apply kp_refl]].
    destruct (Z.eqb_spec pte 0); [done|]. destruct Hm as [|Hm]; [done|]. by rewrite Hm.
Qed.
End Space.
