(* ===== verification/Uvm.v ===== *)
(** * Growing and shrinking address spaces (xv6/kernel/vm.c: uvmunmap, uvmdealloc, uvmalloc)

    The range operations of [Vm] on the address spaces of [Space].  A failed
    [uvmalloc] leaves the address space as it was, and no page is lost on any
    path. *)
From S2P Require Import Prelude Ram Kalloc Pagetable Vm Space.
Local Open Scope Z_scope.

(** The number of pages that hold [sz] bytes. *)
Definition pages_of (sz : Z) : Z := (sz + PGSIZE - 1) / PGSIZE.

Lemma PGROUNDUP_pages sz : 0 <= sz <= MAXVA -> PGROUNDUP sz = pages_of sz * PGSIZE.
Proof. intros H. apply PGROUNDUP_spec. change MAXVA with (2 ^ 38) in H. unfold PGSIZE. lia. Qed.

Lemma pages_of_mono a b : a <= b -> pages_of a <= pages_of b.
Proof. intros H. apply Z.div_le_mono; [done | lia]. Qed.

Lemma pages_of_mul v : pages_of (v * PGSIZE) = v.
Proof. unfold pages_of. replace (v * PGSIZE + PGSIZE - 1) with (PGSIZE - 1 + v * PGSIZE) by lia. by rewrite Z.div_add. Qed.

Lemma pages_of_lt v sz : v * PGSIZE < sz <-> v < pages_of sz.
Proof.
  unfold pages_of, PGSIZE. split; intros H.
  - enough (v + 1 <= (sz + 4096 - 1) / 4096) by lia. apply Z.div_le_lower_bound; lia.
  - pose proof (Z.mul_div_le (sz + 4096 - 1) 4096 ltac:(lia)). lia.
Qed.

(** The entries outside of [v, v + n). *)
Definition hide (v n : Z) (um : vmap) : vmap := filter (fun e => ~ (v <= e.1 < v + n)) um.

Lemma hide_lookup v n um w : hide v n um !! w = if (v <=? w) && (w <? v + n) then None else um !! w.
Proof.
  unfold hide. destruct (Z.leb_spec v w), (Z.ltb_spec w (v + n)); simpl; destruct (um !! w) as [e|] eqn:E;
    try (apply map_lookup_filter_None; left; done); try (apply map_lookup_filter_Some; split; [done | simpl; lia]).
  apply map_lookup_filter_None. right. intros x _ Hx. simpl in Hx. lia.
Qed.

Lemma hide_step v n um : 0 <= n -> hide (v + 1) n (delete v um) = hide v (n + 1) um.
Proof.
  intros Hn. apply map_eq. intros w. rewrite !hide_lookup. destruct (decide (v = w)) as [<-|Hne].
  - rewrite lookup_delete_eq. destruct (Z.leb_spec v v), (Z.ltb_spec v (v + (n + 1))); try lia. simpl. by destruct ((v + 1 <=? v) && (v <? v + 1 + n)).
  - rewrite lookup_delete_ne by done. destruct (Z.leb_spec (v + 1) w), (Z.leb_spec v w); try lia; simpl; [|done].
    by replace (v + 1 + n) with (v + (n + 1)) by lia.
Qed.

Lemma hide_none v um : hide v 0 um = um.
Proof. apply map_eq. intros w. rewrite hide_lookup. destruct (Z.leb_spec v w), (Z.ltb_spec w (v + 0)); (done || lia). Qed.

Lemma hide_subseteq v n um : hide v n um ⊆ um.
Proof. apply map_filter_subseteq. Qed.

(** Pages [ps] mapped from [v]. *)
Fixpoint extend (v : Z) (ps : list Z) (perm : Z) (um : vmap) : vmap :=
  match ps with [] => um | p :: ps' => extend (v + 1) ps' perm (<[v := mkpte p perm]> um) end.

Lemma extend_snoc ps p perm : forall v um, extend v (ps ++ [p]) perm um = <[v + Z.of_nat (length ps) := mkpte p perm]> (extend v ps perm um).
Proof.
  induction ps as [|q ps IH]; intros v um; simpl; [by rewrite Z.add_0_r|]. rewrite IH. f_equal. lia.
Qed.

Lemma extend_lookup perm w ps : forall v um,
  extend v ps perm um !! w = if (v <=? w) && (w <? v + Z.of_nat (length ps)) then (fun p => mkpte p perm) <$> ps !! Z.to_nat (w - v) else um !! w.
Proof.
  induction ps as [|p ps IH]; intros v um; simpl length; cbn [extend].
  - destruct (Z.leb_spec v w), (Z.ltb_spec w (v + Z.of_nat 0)); (done || lia).
  - rewrite IH. destruct (Z.leb_spec (v + 1) w), (Z.leb_spec v w), (Z.ltb_spec w (v + 1 + Z.of_nat (length ps))), (Z.ltb_spec w (v + Z.of_nat (S (length ps))));
      try lia; simpl; try (rewrite lookup_insert_ne by lia; done).
    + replace (Z.to_nat (w - v)) with (S (Z.to_nat (w - (v + 1)))) by lia. done.
    + assert (w = v) as -> by lia. rewrite lookup_insert_eq. by replace (Z.to_nat (v - v)) with 0%nat by lia.
Qed.

Lemma hide_extend v ps perm um : (forall w, v <= w < v + Z.of_nat (length ps) -> um !! w = None) ->
  hide v (Z.of_nat (length ps)) (extend v ps perm um) = um.
Proof.
  intros H. apply map_eq. intros w. rewrite hide_lookup, extend_lookup.
  destruct (Z.leb_spec v w), (Z.ltb_spec w (v + Z.of_nat (length ps))); simpl; try done. symmetry. apply H. lia.
Qed.

Section Uvm.
Context (kend : Z) (Hend : KERNBASE <= kend) (lim : Z) (Hlim : 0 <= lim <= NVPN).
Local Abbreviation page := (page kend).
Local Abbreviation aspace := (aspace kend lim).
Local Abbreviation data := (data lim).

Lemma data_mono um um' : um' ⊆ um -> data um' ⊆ data um.
Proof.
  intros H p. rewrite !elem_of_data. intros (v & e & Hv & Hl & ->). exists v, e. split; [|done]. by eapply lookup_weaken.
Qed.

Lemma vpn_mul v : v * PGSIZE / PGSIZE = v.
Proof. by apply Z.div_mul. Qed.

Lemma mul_range v : 0 <= v < NVPN -> 0 <= v * PGSIZE < MAXVA.
Proof. change NVPN with (2 ^ 26). change MAXVA with (2 ^ 26 * 4096). unfold PGSIZE. lia. Qed.

Lemma mul_mod v : (v * PGSIZE) mod PGSIZE = 0.
Proof. by apply Z.mod_mul. Qed.

Lemma next_page v : 0 <= v < NVPN -> u64 (v * PGSIZE + PGSIZE) = (v + 1) * PGSIZE.
Proof. intros H%mul_range. change MAXVA with (2 ^ 38) in H. unfold u64. rewrite Z.mod_small; unfold PGSIZE in *; lia. Qed.

Lemma uvmunmap_loop_spec root t rest n : forall v um k free,
  aspace k root t um free rest -> 0 <= v -> v + Z.of_nat n <= lim ->
  exists k' free', uvmunmap_loop kend n root (v * PGSIZE) ((v + Z.of_nat n) * PGSIZE) true k = Some k' /\
    aspace k' root t (hide v (Z.of_nat n) um) free' rest /\
    data um ++ free ≡ₚ data (hide v (Z.of_nat n) um) ++ free' /\
    keeps (bytes k) (bytes k') (data (hide v (Z.of_nat n) um) ++ rest).
Proof.
  induction n as [|n IH]; intros v um k free Has Hv Hn; cbn [uvmunmap_loop].
  - destruct (Z.ltb_spec (v * PGSIZE) ((v + Z.of_nat 0) * PGSIZE)); [unfold PGSIZE in *; lia|]. exists k, free. simpl Z.of_nat. rewrite hide_none.
    split_and!; try done.
  - destruct (Z.ltb_spec (v * PGSIZE) ((v + Z.of_nat (S n)) * PGSIZE)) as [_|Hx]; [|unfold PGSIZE in Hx; lia].
    destruct (unmap_free kend Hend lim k root t um free rest (v * PGSIZE) Has) as (k1 & free1 & -> & Has1 & Hp1 & Hk1).
    { apply mul_range. lia. }
    { rewrite vpn_mul. lia. }
    cbn [mbind option_bind]. rewrite vpn_mul in *. rewrite next_page by lia.
    destruct (IH (v + 1) (delete v um) k1 free1 Has1 ltac:(lia) ltac:(lia)) as (k2 & free2 & E & Has2 & Hp2 & Hk2).
    replace (v + 1 + Z.of_nat n) with (v + Z.of_nat (S n)) in E by lia. rewrite E. rewrite hide_step in * by lia.
    replace (Z.of_nat n + 1) with (Z.of_nat (S n)) in * by lia. exists k2, free2. split_and!; [done | done | by rewrite Hp1|].
    eapply kp_trans; [|exact Hk2]. apply (keeps_sub _ _ _ _ Hk1).
    pose proof (data_mono (delete v um) (hide v (Z.of_nat (S n)) um)) as Hm. intros p [Hp|Hp]%elem_of_app; apply elem_of_app; [left | by right].
    apply Hm; [|done]. replace (Z.of_nat (S n)) with (Z.of_nat n + 1) by lia. rewrite <- hide_step by lia. apply hide_subseteq.
Qed.

Lemma uvmunmap_spec root t rest n v um k free :
  aspace k root t um free rest -> 0 <= v -> 0 <= n -> v + n <= lim ->
  exists k' free', uvmunmap kend root (v * PGSIZE) n true k = Some k' /\
    aspace k' root t (hide v n um) free' rest /\ data um ++ free ≡ₚ data (hide v n um) ++ free' /\
    keeps (bytes k) (bytes k') (data (hide v n um) ++ rest).
Proof.
  intros Has Hv Hn Hl. unfold uvmunmap. rewrite mul_mod. cbn [Z.eqb negb].
  destruct (uvmunmap_loop_spec root t rest (Z.to_nat n) v um k free Has Hv ltac:(lia)) as (k' & free' & E & H).
  rewrite Z2Nat.id in * by lia. exists k', free'. split; [|done]. rewrite <- E. f_equal. unfold u64.
  rewrite <- Z.mul_add_distr_r. apply Z.mod_small. change NVPN with (2 ^ 26) in Hlim. unfold PGSIZE. lia.
Qed.

Lemma uvmdealloc_spec root t rest um k free oldsz newsz :
  aspace k root t um free rest -> 0 <= newsz < oldsz -> pages_of oldsz <= lim ->
  let um' := hide (pages_of newsz) (pages_of oldsz - pages_of newsz) um in
  exists k' free', uvmdealloc kend root oldsz newsz k = Some (newsz, k') /\ aspace k' root t um' free' rest /\
    data um ++ free ≡ₚ data um' ++ free' /\ keeps (bytes k) (bytes k') (data um' ++ rest).
Proof.
  intros Has Hsz Hl um'. unfold uvmdealloc. destruct (Z.leb_spec oldsz newsz); [lia|].
  assert (Hmax : oldsz <= MAXVA).
  { change MAXVA with (NVPN * PGSIZE). destruct (Z.le_gt_cases oldsz (NVPN * PGSIZE)) as [|Hgt]; [done|].
    apply pages_of_lt in Hgt. lia. }
  pose proof (pages_of_mono newsz oldsz ltac:(lia)) as Hm. assert (0 <= pages_of newsz) by (unfold pages_of; apply Z.div_pos; unfold PGSIZE; lia).
  rewrite !PGROUNDUP_pages by lia. destruct (Z.ltb_spec (pages_of newsz * PGSIZE) (pages_of oldsz * PGSIZE)) as [Hlt|Hge].
  - rewrite <- Z.mul_sub_distr_r, Z.div_mul by done. change NVPN with (2 ^ 26) in Hlim.
    rewrite i32_id by (unfold in_i32; lia). unfold u64. rewrite Z.mod_small by lia.
    destruct (uvmunmap_spec root t rest (pages_of oldsz - pages_of newsz) (pages_of newsz) um k free Has) as (k' & free' & -> & Hres); [lia..|].
    exists k', free'. done.
  - assert (pages_of oldsz - pages_of newsz = 0) as E by (unfold PGSIZE in Hge; lia). subst um'. rewrite E, hide_none. exists k, free. split_and!; try done.
Qed.

(** ** Growing *)

Definition zeroed (m : ram) (ps : list Z) : Prop := forall p x, p ∈ ps -> p <= x < p + PGSIZE -> m x = NUL.

Lemma zeroed_keeps m m' ps : zeroed m ps -> keeps m m' ps -> zeroed m' ps.
Proof. intros H Hk p x Hp Hx. rewrite (Hk p x Hp Hx). by apply (H p). Qed.

Lemma data_extend perm (Hperm : 0 <= perm < 1024) ps : forall v um,
  (forall w, v <= w < v + Z.of_nat (length ps) -> um !! w = None) -> v + Z.of_nat (length ps) <= lim -> Forall page ps ->
  data (extend v ps perm um) ≡ₚ ps ++ data um.
Proof.
  induction ps as [|p ps IH]; intros v um Hno Hl Hp; cbn [extend]; [done|]. apply Forall_cons in Hp as [Hp Hps]. simpl length in *.
  rewrite IH; [| |lia|done].
  - rewrite data_insert by (apply Hno; lia). destruct (Z.ltb_spec v lim); [|lia]. destruct (page_pa kend Hend p Hp). rewrite mkpte_pa by done. simpl. by rewrite Permutation_middle.
  - intros w Hw. rewrite lookup_insert_ne by lia. apply Hno. lia.
Qed.

(** A page is allocated, filled by [f] and mapped. *)
Lemma add_page k root t um p free rest v perm f :
  aspace k root t um (p :: free) rest -> 0 <= v < lim -> um !! v = None -> 0 <= perm < 1024 ->
  (forall m x, ~ (p <= x < p + PGSIZE) -> f m x = m x) ->
  exists k1 r k3 t3 free3, kalloc k = (p, k1) /\ p <> 0 /\ page p /\ p ∉ data um ++ rest /\
    mappages root (v * PGSIZE) PGSIZE p perm (set_bytes f k1) = Some (r, k3) /\ t ⊆ t3 /\
    keeps (bytes k) (bytes k1) (data um ++ rest) /\ keeps (bytes k) (bytes k3) (data um ++ rest) /\ keeps (f (bytes k1)) (bytes k3) [p] /\
    tables t3 ++ free3 ≡ₚ tables t ++ free /\
    ((r = 0 /\ (length free <= length free3 + 2)%nat /\ aspace k3 root t3 (<[v := mkpte p perm]> um) free3 rest) \/
     (r = -1 /\ (free3 = [] /\ (length free <= 1)%nat) /\ aspace k3 root t3 um free3 (p :: rest))).
Proof.
  intros Has Hv Hno Hperm Hf. destruct (take_page kend Hend lim k root t um p free rest Has) as (k1 & E1 & Hnz & Hpp & Has1 & Hpn & Hk1).
  assert (Has2 : aspace (set_bytes f k1) root t um free (p :: rest)) by (apply (write_page kend Hend lim _ _ _ _ _ _ p); [done | set_solver | done]).
  assert (Hk2 : keeps (bytes k1) (bytes (set_bytes f k1)) (data um ++ rest)).
  { apply (keeps_page kend _ _ p); [done | | done | by apply Hf]. apply (vm_rest _ _ _ _ _ _ (as_vm _ _ _ _ _ _ _ _ Has)). }
  assert (Eo : own lim v p = [p]) by (unfold own; destruct (Z.ltb_spec v lim); [done | lia]).
  destruct (page_pa kend Hend p Hpp) as [Hpa Hal].
  destruct (mappages_page kend Hend lim (set_bytes f k1) root t um free rest (v * PGSIZE) p perm) as (r & k3 & t3 & free3 & E & Hk3 & Ht3 & Hs3 & Hres);
    rewrite ?vpn_mul, ?Eo in *; try done; [apply mul_range; lia | apply mul_mod|].
  exists k1, r, k3, t3, free3. split_and!; try done.
  - eapply kp_trans; [exact Hk1|]. eapply kp_trans; [exact Hk2|]. apply (keeps_sub _ _ _ _ Hk3). set_solver.
  - apply (keeps_sub _ _ _ _ Hk3). set_solver.
Qed.

Lemma zeroed_page p m m' : keeps (fill p 0 PGSIZE m) m' [p] -> zeroed m' [p].
Proof. intros Hk q x Hq Hx. rewrite (Hk q x Hq Hx). apply list_elem_of_singleton in Hq as ->. by apply fill_in. Qed.

Section Grow.
Context (root : Z) (um : vmap) (rest : list Z) (v0 v1 newsz xperm : Z).
Local Abbreviation perm := (Z.lor (Z.lor PTE_R PTE_U) xperm).
Context (Hperm : 0 <= perm < 1024) (Hv0 : 0 <= v0) (Hv1 : v1 = pages_of newsz) (Hl : v1 <= lim).
Context (Hno : forall w, v0 <= w < v1 -> um !! w = None).

Lemma data_grown k t free ps : aspace k root t (extend v0 ps perm um) free rest -> v0 + Z.of_nat (length ps) <= v1 -> Forall page ps ->
  data (extend v0 ps perm um) ≡ₚ ps ++ data um.
Proof. intros Has Hle Hps. apply data_extend; [done | intros w Hw; apply Hno; lia | lia | done]. Qed.

(** The undoing of a failed growth. *)
Lemma rollback k t free ps : aspace k root t (extend v0 ps perm um) free rest -> v0 + Z.of_nat (length ps) <= v1 -> Forall page ps ->
  exists r k' free', uvmdealloc kend root ((v0 + Z.of_nat (length ps)) * PGSIZE) (v0 * PGSIZE) k = Some (r, k') /\
    aspace k' root t um free' rest /\ ps ++ free ≡ₚ free' /\ keeps (bytes k) (bytes k') (data um ++ rest).
Proof.
  intros Has Hle Hps. destruct ps as [|p ps].
  - simpl. unfold uvmdealloc. rewrite Z.add_0_r. destruct (Z.leb_spec (v0 * PGSIZE) (v0 * PGSIZE)); [|lia].
    eexists _, k, free. split_and!; try done.
  - destruct (uvmdealloc_spec root t rest _ k free ((v0 + Z.of_nat (length (p :: ps))) * PGSIZE) (v0 * PGSIZE) Has) as (k' & free' & E & Has' & Hp' & Hk').
    + unfold PGSIZE in *. simpl. lia.
    + rewrite pages_of_mul. lia.
    + rewrite !pages_of_mul in *. replace (v0 + Z.of_nat (length (p :: ps)) - v0) with (Z.of_nat (length (p :: ps))) in * by lia.
      rewrite hide_extend in * by (intros w Hw; apply Hno; lia). eexists _, k', free'. split_and!; try done.
      rewrite (data_grown k t free (p :: ps) Has Hle Hps) in Hp'. apply (Permutation_app_inv_l (data um)). rewrite <- Hp'.
      rewrite !app_assoc. apply Permutation_app_tail, Permutation_app_comm.
Qed.

Definition grown (t : tree) (ps free : list Z) (k : kmem) (r : Z) (k' : kmem) (t' : tree) (free' : list Z) : Prop :=
  (exists ps', r = newsz /\ Z.of_nat (length ps') = v1 - v0 /\ Forall page ps' /\ aspace k' root t' (extend v0 ps' perm um) free' rest /\
     zeroed (bytes k') ps' /\ tables t' ++ ps' ++ free' ≡ₚ tables t ++ ps ++ free /\
     Z.of_nat (length free) <= Z.of_nat (length free') + 3 * (v1 - v0 - Z.of_nat (length ps))) \/
  (r = 0 /\ aspace k' root t' um free' rest /\ tables t' ++ free' ≡ₚ tables t ++ ps ++ free /\
   Z.of_nat (length free) < 3 * (v1 - v0 - Z.of_nat (length ps))).

Lemma uvmalloc_loop_spec n : forall ps k t free,
  aspace k root t (extend v0 ps perm um) free rest -> v0 + Z.of_nat (length ps) + Z.of_nat n = v1 -> Forall page ps -> zeroed (bytes k) ps ->
  exists r k' t' free',
    uvmalloc_loop kend n root ((v0 + Z.of_nat (length ps)) * PGSIZE) (v0 * PGSIZE) newsz xperm k = Some (r, k') /\
    keeps (bytes k) (bytes k') (data um ++ rest) /\ t ⊆ t' /\ grown t ps free k r k' t' free'.
Proof.
  induction n as [|n IH]; intros ps k t free Has Hn Hps Hz; cbn [uvmalloc_loop].
  - destruct (Z.ltb_spec ((v0 + Z.of_nat (length ps)) * PGSIZE) newsz) as [Hlt|_]; [apply pages_of_lt in Hlt; lia|].
    exists newsz, k, t, free. split_and!; try done. left. exists ps. split_and!; (done || lia).
  - destruct (Z.ltb_spec ((v0 + Z.of_nat (length ps)) * PGSIZE) newsz) as [_|Hge]; cycle 1.
    { assert (v0 + Z.of_nat (length ps) < pages_of newsz) as Hx%pages_of_lt by lia. lia. }
    set (v := v0 + Z.of_nat (length ps)) in *. pose proof (data_grown k t free ps Has ltac:(lia) Hps) as Hdata.
    destruct free as [|p free].
    + rewrite (kalloc_spec kend Hend k [] (vm_kmem _ _ _ _ _ _ (as_vm _ _ _ _ _ _ _ _ Has))). cbn [Z.eqb].
      destruct (rollback k t [] ps Has ltac:(lia) Hps) as (r & k' & free' & E & Has' & Hp' & Hk'). fold v in E. rewrite E. cbn [mbind option_bind].
      exists 0, k', t, free'. split_and!; try done. right. split_and!; [done | done | by rewrite Hp' | simpl; lia].
    + assert (Hnv : extend v0 ps perm um !! v = None).
      { rewrite extend_lookup. destruct (Z.ltb_spec v (v0 + Z.of_nat (length ps))); [lia|]. rewrite andb_false_r. apply Hno. lia. }
      destruct (add_page k root t _ p free rest v perm (fill p 0 PGSIZE) Has ltac:(lia) Hnv Hperm ltac:(intros m x; apply fill_out))
        as (k1 & r & k3 & t3 & free3 & -> & Hnz & Hpp & Hpn & Em & Hs3 & _ & Hk3 & Hkp & Ht3 & Hres). rewrite Hdata in Hk3.
      destruct (Z.eqb_spec p 0); [done|]. unfold zero_page. rewrite Em. cbn [mbind option_bind].
      assert (Hkr : keeps (bytes k) (bytes k3) (data um ++ rest)) by (apply (keeps_sub _ _ _ _ Hk3); set_solver).
      destruct Hres as [(-> & Hlen & Has3)|(-> & [-> Hlen] & Has3)]; cbn [Z.eqb negb].
      * rewrite next_page by lia. replace (v + 1) with (v0 + Z.of_nat (length (ps ++ [p]))) by (rewrite length_app; simpl; lia).
        destruct (IH (ps ++ [p]) k3 t3 free3 ltac:(rewrite extend_snoc; exact Has3)) as (r & k' & t' & free' & E & Hk' & Hs' & Hg); [rewrite length_app; simpl; lia | by apply Forall_app; auto | |].
        { intros q x [Hq|Hq]%elem_of_app; [|by apply (zeroed_page p (bytes k1) (bytes k3) Hkp)].
          apply (zeroed_keeps _ _ ps Hz); [|done]. apply (keeps_sub _ _ _ _ Hk3). set_solver. }
        exists r, k', t', free'. split; [exact E|]. split; [by eapply kp_trans|]. split; [by trans t3|].
        assert (Htot : tables t3 ++ (ps ++ [p]) ++ free3 ≡ₚ tables t ++ ps ++ p :: free).
        { rewrite (Permutation_app_comm ps [p]), <- app_assoc. simpl. rewrite <- !Permutation_middle. constructor.
          rewrite (Permutation_app_comm ps free3), app_assoc, Ht3, <- app_assoc. apply Permutation_app_head, Permutation_app_comm. }
        destruct Hg as [(ps' & ? & ? & ? & ? & ? & Hg & Hlt)|(? & ? & Hg & Hlt)];
          [left; exists ps'; rewrite <- Htot; split_and!; try done; rewrite length_app in Hlt; simpl in *; lia | right; rewrite <- Htot; split_and!; try done; rewrite length_app in Hlt; simpl in *; lia].
      * destruct (give_page kend Hend lim k3 root t3 _ p [] rest Has3) as (k4 & -> & Has4 & Hk4). cbn [mbind option_bind]. rewrite Hdata in Hk4.
        destruct (rollback k4 t3 [p] ps Has4 ltac:(lia) Hps) as (r & k' & free' & E & Has' & Hp' & Hk'). fold v in E. rewrite E. cbn [mbind option_bind].
        exists 0, k', t3, free'. split; [done|]. split; [eapply kp_trans; [exact Hkr|]; eapply kp_trans; [|exact Hk']; apply (keeps_sub _ _ _ _ Hk4); set_solver|].
        split; [done|]. right. split_and!; [done | done| |simpl; lia]. rewrite app_nil_r in Ht3. rewrite <- Hp', Ht3, <- app_assoc. apply Permutation_app_head.
        rewrite Permutation_app_comm. by rewrite <- app_assoc.
Qed.
End Grow.

Lemma uvmalloc_spec k root t um free rest oldsz newsz xperm :
  aspace k root t um free rest -> 0 <= oldsz <= newsz -> pages_of newsz <= lim -> 0 <= Z.lor (Z.lor PTE_R PTE_U) xperm < 1024 ->
  (forall w, pages_of oldsz <= w < pages_of newsz -> um !! w = None) ->
  exists r k' t' free', uvmalloc kend root oldsz newsz xperm k = Some (r, k') /\
    keeps (bytes k) (bytes k') (data um ++ rest) /\
    ((exists ps, r = newsz /\ Z.of_nat (length ps) = pages_of newsz - pages_of oldsz /\ zeroed (bytes k') ps /\
        aspace k' root t' (extend (pages_of oldsz) ps (Z.lor (Z.lor PTE_R PTE_U) xperm) um) free' rest /\
        tables t' ++ ps ++ free' ≡ₚ tables t ++ free /\
        Z.of_nat (length free) <= Z.of_nat (length free') + 3 * (pages_of newsz - pages_of oldsz)) \/
     (r = 0 /\ aspace k' root t' um free' rest /\ tables t' ++ free' ≡ₚ tables t ++ free /\
        Z.of_nat (length free) < 3 * (pages_of newsz - pages_of oldsz))).
Proof.
  intros Has Hsz Hl Hperm Hno. pose proof (pages_of_mono oldsz newsz ltac:(lia)) as Hm.
  assert (H0 : 0 <= pages_of oldsz) by (unfold pages_of; apply Z.div_pos; unfold PGSIZE; lia).
  assert (Hmax : newsz <= MAXVA).
  { change MAXVA with (NVPN * PGSIZE). destruct (Z.le_gt_cases newsz (NVPN * PGSIZE)) as [|Hgt]; [done|]. apply pages_of_lt in Hgt. lia. }
  unfold uvmalloc. destruct (Z.ltb_spec newsz oldsz); [lia|]. rewrite PGROUNDUP_pages by lia.
  assert (En : Z.to_nat ((newsz - pages_of oldsz * PGSIZE + PGSIZE - 1) / PGSIZE) = Z.to_nat (pages_of newsz - pages_of oldsz)).
  { f_equal. unfold pages_of at 2. replace (newsz + PGSIZE - 1) with (newsz - pages_of oldsz * PGSIZE + PGSIZE - 1 + pages_of oldsz * PGSIZE) by lia.
    rewrite Z.div_add by done. lia. }
  rewrite En. destruct (uvmalloc_loop_spec root um rest (pages_of oldsz) (pages_of newsz) newsz xperm Hperm H0 eq_refl Hl Hno
    (Z.to_nat (pages_of newsz - pages_of oldsz)) [] k t free Has) as (r & k' & t' & free' & E & Hk & _ & Hg); [simpl; lia | done | by intros p x ?%elem_of_nil|].
  simpl in E. rewrite Z.add_0_r in E. exists r, k', t', free'. split; [exact E|]. split; [done|].
  destruct Hg as [(ps & ? & ? & ? & ? & ? & Hg & Hlt)|(? & ? & Hg & Hlt)]; [left; exists ps | right]; simpl in *; rewrite Z.sub_0_r in Hlt; done.
Qed.

(** C24: growing an address space is all or nothing.  [uvmalloc] never panics
    when the pages it is to add are unmapped.  Either it returns the new size,
    and exactly the pages from the old size (rounded up) to the new size are
    mapped, to zeroed pages that were free, with the permissions asked for; or
    it returns 0, only when fewer than three free pages were left per page
    asked for, and the address space maps what it did before.  In both cases
    the bytes of every page of the space and of everybody else are untouched,
    and every page that left the free list is a table or a page of the space. *)
Theorem uvmalloc_atomic k root t um free rest oldsz newsz xperm :
  aspace k root t um free rest -> 0 <= oldsz <= newsz -> pages_of newsz <= lim -> 0 <= Z.lor (Z.lor PTE_R PTE_U) xperm < 1024 ->
  (forall w, pages_of oldsz <= w < pages_of newsz -> um !! w = None) ->
  exists r k' t' free', uvmalloc kend root oldsz newsz xperm k = Some (r, k') /\
    keeps (bytes k) (bytes k') (data um ++ rest) /\
    ((exists ps, r = newsz /\ Z.of_nat (length ps) = pages_of newsz - pages_of oldsz /\ zeroed (bytes k') ps /\
        aspace k' root t' (extend (pages_of oldsz) ps (Z.lor (Z.lor PTE_R PTE_U) xperm) um) free' rest /\
        tables t' ++ ps ++ free' ≡ₚ tables t ++ free /\
        Z.of_nat (length free) <= Z.of_nat (length free') + 3 * (pages_of newsz - pages_of oldsz)) \/
     (r = 0 /\ aspace k' root t' um free' rest /\ tables t' ++ free' ≡ₚ tables t ++ free /\
        Z.of_nat (length free) < 3 * (pages_of newsz - pages_of oldsz))).
Proof. apply uvmalloc_spec. Qed.
End Uvm.

(** A machine with thirty-two pages, and an empty address space in it. *)
Definition demo_end : Z := PHYSTOP - 32 * PGSIZE.

Lemma demo_space : exists k root free, uvmcreate (default (mkKmem (fun _ => NUL) 0) (kinit demo_end (fun _ => NUL))) = (root, k) /\
  length free = 31%nat /\ aspace demo_end NVPN k root {[ [] := root ]} ∅ free [].
Proof.
  assert (He : KERNBASE <= demo_end) by (vm_compute; discriminate).
  destruct (kinit_spec demo_end He (fun _ => NUL)) as (k0 & -> & Hk); [vm_compute; discriminate|]. simpl default.
  assert (Hlen : length (all_pages demo_end) = 32%nat) by (unfold all_pages; rewrite length_reverse, length_pages_from; reflexivity).
  destruct (all_pages demo_end) as [|p free] eqn:E; [done|].
  destruct (uvmcreate_space demo_end He NVPN k0 p free []) as (k & Ek & _ & Has & _); [done | done | rewrite app_nil_r; apply Hk|].
  exists k, p, free. split; [done|]. split; [simpl in Hlen; lia | done].
Qed.

Lemma uvmalloc_atomic_witness : exists k root ps k' t' free',
  uvmalloc demo_end root 0 10000 PTE_W k = Some (10000, k') /\ length ps = 3%nat /\ zeroed (bytes k') ps /\
  aspace demo_end NVPN k' root t' (extend 0 ps (Z.lor (Z.lor PTE_R PTE_U) PTE_W) ∅) free' [].
Proof.
  destruct demo_space as (k & root & free & _ & Hlen & Has).
  destruct (uvmalloc_atomic demo_end ltac:(vm_compute; discriminate) NVPN ltac:(split; vm_compute; discriminate) k root {[ [] := root ]} ∅ free [] 0 10000 PTE_W)
    as (r & k' & t' & free' & E & _ & [(ps & -> & Hl & Hz & Ha & _)|(_ & _ & _ & Hlt)]).
  - exact Has.
  - lia.
  - vm_compute. discriminate.
  - split; [vm_compute; discriminate | reflexivity].
  - intros w _. apply lookup_empty.
  - exists k, root, ps, k', t', free'. change (pages_of 10000 - pages_of 0) with 3 in Hl. split; [exact E|]. split; [lia|]. split; [exact Hz | exact Ha].
  - rewrite Hlen in Hlt. exfalso. vm_compute in Hlt. discriminate.
Defined.
