(* ===== verification/Uvmfree.v ===== *)
(** * Giving an address space back (xv6/kernel/vm.c: freewalk, uvmfree)

    [freewalk] frees the pages of a page table from the leaves up, reading
    the links of a table while the tables below it are already overwritten by
    the free list. *)
From S2P Require Import Prelude Ram Kalloc Pagetable Vm Space Uvm.
Local Open Scope Z_scope.

Lemma filter_none {A} (P : A -> Prop) {HD : forall x, Decision (P x)} (l : list A) : (forall x, x ∈ l -> ~ P x) -> filter P l = [].
Proof. induction l as [|x l IH]; intros H; [done|]. rewrite filter_cons_False by (apply H; set_solver). apply IH. set_solver. Qed.

Lemma filter_all {A} (P : A -> Prop) {HD : forall x, Decision (P x)} (l : list A) : (forall x, x ∈ l -> P x) -> filter P l = l.
Proof. induction l as [|x l IH]; intros H; [done|]. rewrite filter_cons_True by (apply H; set_solver). f_equal. apply IH. set_solver. Qed.

Section Freewalk.
Context (kend : Z) (Hend : KERNBASE <= kend).
Local Abbreviation page := (page kend).
Local Abbreviation kmem_ok := (kmem_ok kend).

(** The shape of the tree, which the memory has while it is not freed. *)
Context (t : tree).
Context (Hdepth : forall n p, t !! n = Some p -> (length n <= 2)%nat).
Context (Hup : forall n i p, t !! (n ++ [i]) = Some p -> is_Some (t !! n) /\ 0 <= i < 512).
Context (Hpages : Forall page (tables t)).

(** The pages of the nodes that satisfy [P]. *)
Definition part (P : list Z -> Prop) {HD : forall x, Decision (P x)} : list Z := (filter (fun e => P e.1) (map_to_list t)).*2.

Lemma elem_of_part P {HD : forall x, Decision (P x)} p : p ∈ part P <-> exists n, t !! n = Some p /\ P n.
Proof.
  unfold part. rewrite list_elem_of_fmap. split.
  - intros ([n q] & -> & H). apply list_elem_of_filter in H as [HP H]. apply elem_of_map_to_list in H. eauto.
  - intros (n & Hn & HP). exists (n, p). split; [done|]. apply list_elem_of_filter. split; [done|]. by apply elem_of_map_to_list.
Qed.

Lemma part_pages P {HD : forall x, Decision (P x)} : Forall page (part P).
Proof.
  apply Forall_forall. intros p (n & Hn & _)%elem_of_part. rewrite Forall_forall in Hpages. apply Hpages, elem_of_tables. eauto.
Qed.

Lemma part_split P P1 P2 {HD : forall x, Decision (P x)} {HD1 : forall x, Decision (P1 x)} {HD2 : forall x, Decision (P2 x)} :
  (forall n p, t !! n = Some p -> (P n <-> P1 n \/ P2 n) /\ ~ (P1 n /\ P2 n)) -> part P ≡ₚ part P1 ++ part P2.
Proof.
  intros H. unfold part. rewrite <- fmap_app. apply fmap_Permutation.
  assert (Hl : forall e, e ∈ map_to_list t -> (P e.1 <-> P1 e.1 \/ P2 e.1) /\ ~ (P1 e.1 /\ P2 e.1)).
  { intros [n p] He%elem_of_map_to_list. by apply (H n p). }
  clear H. induction (map_to_list t) as [|e l IH]; [done|]. rewrite !filter_cons.
  destruct (Hl e ltac:(set_solver)) as [H1 H2]. specialize (IH ltac:(set_solver)).
  destruct (decide (P e.1)), (decide (P1 e.1)), (decide (P2 e.1)); try tauto.
  - simpl. by constructor.
  - rewrite <- Permutation_middle. by constructor.
Qed.

Lemma part_none P {HD : forall x, Decision (P x)} : (forall n p, t !! n = Some p -> ~ P n) -> part P = [].
Proof.
  intros H. destruct (part P) as [|p l] eqn:E; [done|]. assert (Hp : p ∈ part P) by (rewrite E; set_solver).
  apply elem_of_part in Hp as (n & Hn & HP). by destruct (H n p Hn).
Qed.

Lemma part_one n p : t !! n = Some p -> part (fun x => x = n) = [p].
Proof.
  intros Hn. unfold part. apply elem_of_map_to_list in Hn. pose proof (NoDup_fst_map_to_list t) as Hd. revert Hn Hd.
  induction (map_to_list t) as [|[x q] l IH]; [by intros ?%elem_of_nil|]. rewrite elem_of_cons. cbn [fmap list_fmap fst]. intros Hin [Hx Hd]%NoDup_cons.
  rewrite filter_cons. simpl. destruct (decide (x = n)) as [->|Hne].
  - destruct Hin as [[= <-]|Hin]; [|destruct Hx; apply list_elem_of_fmap; by exists (n, p)]. cbn [fmap list_fmap snd]. f_equal.
    rewrite filter_none; [done|]. intros [x q'] Hin. simpl. intros ->. apply Hx, list_elem_of_fmap. by exists (n, q').
  - apply IH; [|done]. destruct Hin as [[= -> ->]|]; done.
Qed.

(** Below a node, and below its entries from [i]. *)
Definition from (n : list Z) (i : Z) (x : list Z) : Prop :=
  n `prefix_of` x /\ match x !! length n with Some j => i <=? j | None => false end = true.

Lemma up_closed x : forall n p, t !! (n ++ x) = Some p -> is_Some (t !! n).
Proof.
  induction x as [|i x IH] using rev_ind; intros n p; [rewrite app_nil_r; eauto|]. rewrite app_assoc. intros [[q Hq] _]%Hup. by apply (IH n q).
Qed.

Lemma below_cases n x p : t !! x = Some p -> n `prefix_of` x ->
  x = n \/ exists j y, x = n ++ j :: y /\ 0 <= j < 512 /\ x !! length n = Some j /\ is_Some (t !! (n ++ [j])).
Proof.
  intros Hx [y ->]. destruct y as [|j y]; [left; by rewrite app_nil_r|]. right. exists j, y.
  assert (Hj : is_Some (t !! (n ++ [j]))) by (apply (up_closed y _ p); by rewrite <- app_assoc). split; [done|].
  split; [destruct Hj as [q Hq]; by apply Hup in Hq as [_ ?]|]. split; [by rewrite lookup_app_r, Nat.sub_diag by lia | done].
Qed.

Lemma part_below n p : t !! n = Some p -> part (prefix n) ≡ₚ p :: part (from n 0).
Proof.
  intros Hn. rewrite (part_split _ (fun x => x = n) (from n 0)); [by rewrite (part_one n p Hn)|]. intros x q Hx. split.
  - split.
    + intros Hp. destruct (below_cases n x q Hx Hp) as [|(j & y & -> & Hj & E & _)]; [by left | right]. split; [done|]. rewrite E. apply Z.leb_le. lia.
    + intros [->|[? _]]; [by exists []; rewrite app_nil_r | done].
  - intros [-> [_ H]]. rewrite lookup_ge_None_2 in H by lia. done.
Qed.

Lemma part_from n i : part (from n i) ≡ₚ part (prefix (n ++ [i])) ++ part (from n (i + 1)).
Proof.
  apply part_split. intros x q Hx. unfold from. split.
  - split.
    + intros [Hp Hi]. destruct (below_cases n x q Hx Hp) as [->|(j & y & -> & Hj & E & _)]; [by rewrite lookup_ge_None_2 in Hi by lia|].
      rewrite E in *. apply Z.leb_le in Hi. destruct (decide (j = i)) as [->|]; [left; exists y; by rewrite <- app_assoc|].
      right. split; [done|]. apply Z.leb_le. lia.
    + intros [[y ->]|[Hp Hi]].
      * rewrite <- app_assoc. simpl. split; [by eexists|]. rewrite lookup_app_r, Nat.sub_diag by lia. simpl. apply Z.leb_refl.
      * split; [done|]. destruct (x !! length n); [|done]. apply Z.leb_le in Hi. apply Z.leb_le. lia.
  - intros [[y ->] [_ Hi]]. rewrite <- app_assoc, lookup_app_r, Nat.sub_diag in Hi by lia. simpl in Hi. apply Z.leb_le in Hi. lia.
Qed.

Lemma part_end n : part (from n 512) = [].
Proof.
  apply part_none. intros x q Hx [Hp Hi]. destruct (below_cases n x q Hx Hp) as [->|(j & y & -> & Hj & E & _)]; [by rewrite lookup_ge_None_2 in Hi by lia|].
  rewrite E in Hi. apply Z.leb_le in Hi. lia.
Qed.

Lemma part_missing n : t !! n = None -> part (prefix n) = [].
Proof. intros Hn. apply part_none. intros x q Hx [y ->]. destruct (up_closed y n q Hx). congruence. Qed.

Lemma part_all : part (prefix []) ≡ₚ tables t.
Proof.
  unfold part, tables. rewrite filter_all; [done|]. intros e _. simpl. apply prefix_nil.
Qed.

(** The links of a node. *)
Definition link (m : ram) (n : list Z) (p i : Z) : Prop :=
  load64 m (entry p i) = match t !! (n ++ [i]) with Some q => Z.lor (PA2PTE q) PTE_V | None => 0 end.
Definition links (m : ram) (P : list Z -> Prop) : Prop := forall n p i, P n -> t !! n = Some p -> 0 <= i < 512 -> link m n p i.

Lemma links_keeps m m' P {HD : forall x, Decision (P x)} : links m P -> keeps m m' (part P) -> links m' P.
Proof.
  intros H Hk n p i HP Hn Hi. unfold link. rewrite (load_keeps m m' (part P)); [by apply H | done | apply elem_of_part; eauto | done].
Qed.

(** A link is neither readable, writable nor executable. *)
Lemma link_rwx q : page q -> has (Z.lor (Z.lor PTE_R PTE_W) PTE_X) (Z.lor (PA2PTE q) PTE_V) = false.
Proof.
  intros Hq. destruct (page_pa kend Hend q Hq). unfold has.
  replace (Z.lor (Z.lor PTE_R PTE_W) PTE_X) with (Z.land 0x3FF (Z.lor (Z.lor PTE_R PTE_W) PTE_X)) by done.
  rewrite Z.land_assoc. fold (PTE_FLAGS (Z.lor (PA2PTE q) PTE_V)). by rewrite PTE_FLAGS_pack.
Qed.

(** What freeing the tables below [n] does. *)
Definition frees (f : kmem -> option kmem) (P : list Z -> Prop) {HD : forall x, Decision (P x)} (R : list Z) (k : kmem) (free : list Z) : Prop :=
  exists k' free', f k = Some k' /\ kmem_ok k' free' /\ free' ≡ₚ part P ++ free /\ keeps (bytes k) (bytes k') R.

Section Loop.
Context (rec : Z -> kmem -> option kmem) (n : list Z) (p : Z) (Hn : t !! n = Some p) (Hp : page p).
Context (Hrec : forall i q k free R, t !! (n ++ [i]) = Some q -> links (bytes k) (prefix (n ++ [i])) -> kmem_ok k free -> Forall page R ->
  NoDup (part (prefix (n ++ [i])) ++ free ++ R) -> frees (rec q) (prefix (n ++ [i])) R k free).

Lemma clear_entry k free i P {HD : forall x, Decision (P x)} R : 0 <= i < 512 -> kmem_ok k free -> Forall page R ->
  NoDup (part P ++ free ++ p :: R) -> links (bytes k) P -> (forall j, i + 1 <= j < 512 -> link (bytes k) n p j) ->
  let k' := set_pte (entry p i) 0 k in
  kmem_ok k' free /\ links (bytes k') P /\ (forall j, i + 1 <= j < 512 -> link (bytes k') n p j) /\ keeps (bytes k) (bytes k') R.
Proof.
  intros Hi Hk HR Hd Hls Hl k'. pose proof (entry_in p i Hi) as Hin.
  assert (Hout : forall x, ~ (p <= x < p + PGSIZE) -> bytes k' x = bytes k x) by (intros x Hx; apply store64_out; lia).
  rewrite (Permutation_app_comm (part P)), <- app_assoc in Hd. apply NoDup_app in Hd as (_ & Hdf & Hd). simpl in Hd. apply NoDup_cons in Hd as [Hpn _].
  assert (Hkp : forall ps, Forall page ps -> p ∉ ps -> keeps (bytes k) (bytes k') ps) by (intros ps ? ?; by apply (keeps_page kend _ _ p)).
  split; [|split; [|split]].
  - apply (kmem_keeps kend Hend k); [done|]. apply Hkp; [apply Hk|]. intros Hx. apply (Hdf p Hx). set_solver.
  - apply (links_keeps (bytes k) _ P); [done|]. apply Hkp; [apply part_pages | set_solver].
  - intros j Hj. unfold link. simpl. rewrite load64_store64_ne by (unfold entry; lia). by apply Hl.
  - apply Hkp; [done | set_solver].
Qed.

Lemma freewalk_loop_spec c : forall i k free R, i + Z.of_nat c = 512 -> 0 <= i -> links (bytes k) (from n i) ->
  (forall j, i <= j < 512 -> link (bytes k) n p j) -> kmem_ok k free -> Forall page R -> NoDup (part (from n i) ++ free ++ p :: R) ->
  frees (freewalk_loop rec c i p) (from n i) R k free.
Proof.
  induction c as [|c IH]; intros i k free R Hc Hi Hls Hl Hk HR Hd.
  - assert (i = 512) as -> by lia. exists k, free. rewrite part_end. split_and!; try done.
  - pose proof (Hl i ltac:(lia)) as Hli. unfold link in Hli. pose proof (part_from n i) as Hpf. rewrite Hpf, <- app_assoc in Hd.
    assert (Hls' : forall m, links m (from n i) -> links m (prefix (n ++ [i])) /\ links m (from n (i + 1))).
    { intros m H. split; intros x q j HP; apply H; [destruct HP as [y ->] | destruct HP as [? HP]]; split; try done.
      - rewrite <- app_assoc. by eexists.
      - rewrite <- app_assoc, lookup_app_r, Nat.sub_diag by lia. apply Z.leb_refl.
      - destruct (x !! length n); [|done]. apply Z.leb_le in HP. apply Z.leb_le. lia. }
    destruct (Hls' _ Hls) as [Hls1 Hls2]. unfold frees. cbn [freewalk_loop]. unfold pte_at. rewrite Hli.
    destruct (t !! (n ++ [i])) as [q|] eqn:Eq.
    + assert (Hq : page q) by (rewrite Forall_forall in Hpages; apply Hpages, elem_of_tables; eauto). destruct (page_pa kend Hend q Hq).
      rewrite has_lor_V, link_rwx, PTE2PA_pack by done. cbn [negb andb].
      destruct (Hrec i q k free (part (from n (i + 1)) ++ p :: R) Eq Hls1 Hk) as (k1 & free1 & -> & Hk1 & Hf1 & Hkp1).
      { apply Forall_app. split; [apply part_pages | by constructor]. }
      { by rewrite (Permutation_app_swap_app free). }
      cbn [mbind option_bind].
      assert (Hd1 : NoDup (part (from n (i + 1)) ++ free1 ++ p :: R)) by (rewrite Hf1, <- app_assoc; by rewrite (Permutation_app_swap_app _ (part (prefix _)))).
      destruct (clear_entry k1 free1 i (from n (i + 1)) R ltac:(lia) Hk1 HR Hd1) as (Hk2 & Hls3 & Hl3 & Hkp2).
      { apply (links_keeps (bytes k) _ (from n (i + 1))); [done|]. apply (keeps_sub _ _ _ _ Hkp1). set_solver. }
      { intros j Hj. unfold link. rewrite (load_keeps (bytes k) _ [p]); [apply Hl; lia | apply (keeps_sub _ _ _ _ Hkp1); set_solver | set_solver | lia]. }
      destruct (IH (i + 1) _ free1 R ltac:(lia) ltac:(lia) Hls3 Hl3 Hk2 HR Hd1) as (k' & free' & -> & Hk' & Hf' & Hkp').
      exists k', free'. split_and!; [done | done | |].
      * rewrite Hf', Hf1, Hpf, !app_assoc. apply Permutation_app_tail, Permutation_app_comm.
      * eapply kp_trans; [|by eapply kp_trans; [exact Hkp2|]]. apply (keeps_sub _ _ _ _ Hkp1). set_solver.
    + cbn [andb]. change (has PTE_V 0) with false. cbn [andb]. rewrite (part_missing _ Eq) in *. cbn [app] in *.
      destruct (IH (i + 1) k free R ltac:(lia) ltac:(lia) Hls2 ltac:(intros; apply Hl; lia) Hk HR Hd) as (k' & free' & -> & Hk' & Hf' & Hkp').
      exists k', free'. split_and!; try done. by rewrite Hf', Hpf.
Qed.
End Loop.

Lemma freewalk_unfold d p k : freewalk kend (S d) p k = (k1 ← freewalk_loop (freewalk kend d) 512 0 p k; kfree kend p k1).
Proof. reflexivity. Qed.

Lemma freewalk_spec d : forall n p k free R, (d + length n = 3)%nat -> t !! n = Some p -> links (bytes k) (prefix n) -> kmem_ok k free ->
  Forall page R -> NoDup (part (prefix n) ++ free ++ R) -> frees (freewalk kend d p) (prefix n) R k free.
Proof.
  induction d as [|d IH]; intros n p k free R Hlen Hn Hls Hk HR Hd; [apply Hdepth in Hn; lia|].
  assert (Hp : page p) by (rewrite Forall_forall in Hpages; apply Hpages, elem_of_tables; eauto). pose proof (part_below n p Hn) as Hpb.
  rewrite Hpb in Hd. simpl in Hd. assert (Hd' : NoDup (part (from n 0) ++ free ++ p :: R)) by (by rewrite <- (Permutation_middle free), <- Permutation_middle).
  destruct (freewalk_loop_spec (freewalk kend d) n p Hn Hp) with (c := 512%nat) (i := 0) (k := k) (free := free) (R := R)
    as (k1 & free1 & E & Hk1 & Hf1 & Hkp1); try done.
  - intros i q k0 free0 R0 Hq ? ? ? ?. apply IH; [rewrite length_app; simpl; lia | done..].
  - intros x q j [? _]. by apply Hls.
  - intros j Hj. by apply Hls.
  - unfold frees. rewrite freewalk_unfold, E. cbn [mbind option_bind].
    destruct (kfree_spec kend Hend p k1 free1 Hk1 Hp) as (k' & -> & Hk' & Hout).
    { rewrite Hf1. apply NoDup_cons in Hd as [Hpn _]. clear -Hpn. set_solver. }
    exists k', (p :: free1). split_and!; [done | done | by rewrite Hf1, Hpb|].
    eapply kp_trans; [exact Hkp1|]. apply (keeps_page kend _ _ p); [done | done | | done]. apply NoDup_cons in Hd as [Hpn _]. clear -Hpn. set_solver.
Qed.
End Freewalk.

(** ** Address spaces *)
Section Give_back.
Context (kend : Z) (Hend : KERNBASE <= kend) (lim : Z) (Hlim : 0 <= lim <= NVPN).
Local Abbreviation page := (page kend).
Local Abbreviation kmem_ok := (kmem_ok kend).
Local Abbreviation aspace := (aspace kend lim).
Local Abbreviation data := (data lim).

(** The links of a space without mappings. *)
Lemma empty_links k root t free rest : aspace k root t ∅ free rest -> links t (bytes k) (prefix []).
Proof.
  intros [[_ Hpt _ _] Hl _] n p i _ Hn Hi. unfold link. destruct (decide (length n < 2)%nat) as [Hlt|Hge]; [by apply (pt_link _ _ _ _ Hpt)|].
  destruct (t !! (n ++ [i])) as [q|] eqn:E; [apply (pt_depth _ _ _ _ Hpt) in E; rewrite length_app in E; simpl in E; lia|].
  pose proof (pt_depth _ _ _ _ Hpt n p Hn). destruct n as [|i2 [|i1 [|]]]; simpl in *; try lia.
  destruct (pt_up _ _ _ _ Hpt [i2] i1 p Hn) as [[q Hq] Hi1]. destruct (pt_up _ _ _ _ Hpt [] i2 q Hq) as [_ Hi2].
  set (va := i2 * 1073741824 + i1 * 2097152 + i * 4096).
  assert (Hx : path va = [i2; i1] /\ PX 0 va = i).
  { unfold path. rewrite !PX_spec by lia. unfold PXSHIFT, va. change (12 + 9 * 2) with 30. change (12 + 9 * 1) with 21. change (12 + 9 * 0) with 12.
    change (2 ^ 30) with 1073741824. change (2 ^ 21) with 2097152. change (2 ^ 12) with 4096.
    assert (E2 : (i2 * 1073741824 + i1 * 2097152 + i * 4096) / 1073741824 = i2) by (symmetry; apply Z.div_unique with (i1 * 2097152 + i * 4096); lia).
    assert (E1 : (i2 * 1073741824 + i1 * 2097152 + i * 4096) / 2097152 = i1 + i2 * 512) by (symmetry; apply Z.div_unique with (i * 4096); lia).
    assert (E0 : (i2 * 1073741824 + i1 * 2097152 + i * 4096) / 4096 = i + (i2 * 512 + i1) * 512) by (symmetry; apply Z.div_unique with 0; lia).
    rewrite E2, E1, E0, !Z_mod_plus_full, !Z.mod_small by lia. done. }
  destruct Hx as [Hx1 Hx2]. pose proof (Hl va) as Hv. unfold leaf in Hv. rewrite Hx1, Hx2, Hn, lookup_empty in Hv. apply Hv.
  change MAXVA with 274877906944. unfold va. lia.
Qed.

(** The tables of a space without mappings are given back. *)
Lemma free_tables k root t free rest : aspace k root t ∅ free rest ->
  exists k' free', freewalk kend 3 root k = Some k' /\ kmem_ok k' free' /\ free' ≡ₚ tables t ++ free /\ keeps (bytes k) (bytes k') rest.
Proof.
  intros Has. pose proof (empty_links k root t free rest Has) as Hl. destruct Has as [[Hk Hpt Hr Hn] _ _].
  assert (E : data ∅ = []) by (unfold data; rewrite map_filter_empty; done). rewrite E in *.
  destruct (freewalk_spec kend Hend t (pt_depth _ _ _ _ Hpt) (pt_up _ _ _ _ Hpt) (pt_pages _ _ _ _ Hpt) 3 [] root k free rest)
    as (k' & free' & Ef & Hk' & Hf & Hkp); [done | apply Hpt | done | done | done | |].
  - by rewrite part_all.
  - exists k', free'. rewrite part_all in Hf. done.
Qed.

Lemma pages_of_nonneg sz : 0 <= sz -> 0 <= pages_of sz.
Proof. intros H. unfold pages_of. apply Z.div_pos; unfold PGSIZE; lia. Qed.

Lemma uvmfree_spec k root t um free rest sz : aspace k root t um free rest -> 0 <= sz -> pages_of sz <= lim ->
  (forall v e, um !! v = Some e -> v < pages_of sz) ->
  exists k' free', uvmfree kend root sz k = Some k' /\ kmem_ok k' free' /\ free' ≡ₚ tables t ++ data um ++ free /\ keeps (bytes k) (bytes k') rest.
Proof.
  intros Has Hsz Hl Hum. pose proof (pages_of_nonneg sz Hsz) as Hp.
  assert (Hhide : hide 0 (pages_of sz) um = ∅).
  { apply map_eq. intros v. rewrite hide_lookup, lookup_empty. destruct (um !! v) as [e|] eqn:E; [|by destruct (_ && _)].
    pose proof (Hum v e E). destruct (as_valid _ _ _ _ _ _ _ _ Has v e E) as [[? _] _].
    destruct (Z.leb_spec 0 v), (Z.ltb_spec v (0 + pages_of sz)); (done || lia). }
  assert (Hun : exists k1 free1, (if 0 <? sz then uvmunmap kend root 0 (PGROUNDUP sz / PGSIZE) true k else Some k) = Some k1 /\
    aspace k1 root t ∅ free1 rest /\ free1 ≡ₚ data um ++ free /\ keeps (bytes k) (bytes k1) rest).
  { destruct (Z.ltb_spec 0 sz) as [Hpos|Hz].
    - assert (Hmax : sz <= MAXVA).
      { change MAXVA with (NVPN * PGSIZE). destruct (Z.le_gt_cases sz (NVPN * PGSIZE)) as [|Hgt]; [done|]. apply pages_of_lt in Hgt. lia. }
      rewrite PGROUNDUP_pages, Z.div_mul by (done || lia).
      destruct (uvmunmap_spec kend Hend lim Hlim root t rest (pages_of sz) 0 um k free Has) as (k1 & free1 & E & Has1 & Hd1 & Hk1); [lia..|].
      rewrite Hhide in *. exists k1, free1. change (0 * PGSIZE) with 0 in E. split_and!; [done | done | |].
      + rewrite Hd1. unfold data. by rewrite map_filter_empty.
      + apply (keeps_sub _ _ _ _ Hk1). set_solver.
    - assert (um = ∅) as ->.
      { rewrite <- Hhide. assert (sz = 0) as -> by lia. change (pages_of 0) with 0. by rewrite hide_none. }
      exists k, free. split_and!; done. }
  destruct Hun as (k1 & free1 & E & Has1 & Hf1 & Hk1). unfold uvmfree. rewrite E. cbn [mbind option_bind].
  destruct (free_tables k1 root t free1 rest Has1) as (k' & free' & -> & Hk' & Hf' & Hkp). exists k', free'. split_and!; [done | done | by rewrite Hf', Hf1 | by eapply kp_trans].
Qed.

(** One page is unmapped and kept. *)
Lemma unmap_one k root t um free rest v : aspace k root t um free rest -> 0 <= v < NVPN ->
  exists k', uvmunmap kend root (v * PGSIZE) 1 false k = Some k' /\ keeps (bytes k) (bytes k') (data um ++ rest) /\
    aspace k' root t (delete v um) free (match um !! v with Some e => own lim v (PTE2PA e) | None => [] end ++ rest).
Proof.
  intros Has Hv. unfold uvmunmap. rewrite mul_mod. cbn [Z.eqb negb]. change (Z.to_nat 1) with 1%nat. cbn [uvmunmap_loop].
  replace (v * PGSIZE + 1 * PGSIZE) with (v * PGSIZE + PGSIZE) by lia. rewrite next_page by done.
  destruct (Z.ltb_spec (v * PGSIZE) ((v + 1) * PGSIZE)) as [_|Hx]; [|unfold PGSIZE in Hx; lia].
  destruct (unmap_keep kend Hend lim k root t um free rest (v * PGSIZE) Has (mul_range v Hv)) as (k' & -> & Hk & Has'). rewrite vpn_mul in Has'.
  cbn [mbind option_bind]. rewrite Z.ltb_irrefl. exists k'. done.
Qed.
End Give_back.

(** ** The address space of a process *)
Definition UVPN : Z := TRAPFRAME / PGSIZE.
Definition VTRAMP : Z := TRAMPOLINE / PGSIZE.

(** The two pages every process has above its memory. *)
Abbreviation fixed tramp tf := (<[UVPN := mkpte tf (Z.lor PTE_R PTE_W)]> (<[VTRAMP := mkpte tramp (Z.lor PTE_R PTE_X)]> (∅ : vmap))).

Section Process.
Context (kend : Z) (Hend : KERNBASE <= kend).
Local Abbreviation page := (page kend).
Local Abbreviation kmem_ok := (kmem_ok kend).
Local Abbreviation aspace := (aspace kend UVPN).
Local Abbreviation data := (data UVPN).

Lemma Huvpn : 0 <= UVPN <= NVPN.
Proof. split; vm_compute; discriminate. Qed.

Lemma map_fixed k root t um free rest v pa perm : aspace k root t um free rest -> UVPN <= v < NVPN -> um !! v = None ->
  0 <= pa < 2 ^ 56 -> pa mod PGSIZE = 0 -> 0 <= perm < 1024 ->
  exists r k' t' free', mappages root (v * PGSIZE) PGSIZE pa perm k = Some (r, k') /\
    keeps (bytes k) (bytes k') (data um ++ rest) /\ tables t' ++ free' ≡ₚ tables t ++ free /\
    ((r = 0 /\ (length free <= length free' + 2)%nat /\ aspace k' root t' (<[v := mkpte pa perm]> um) free' rest) \/
     (r = -1 /\ (length free <= 1)%nat /\ aspace k' root t' um free' rest)).
Proof.
  intros Has Hv Hno Hpa Hal Hperm. pose proof Huvpn. assert (Eo : own UVPN v pa = []) by (unfold own; destruct (Z.ltb_spec v UVPN); [lia | done]).
  destruct (mappages_page kend Hend UVPN k root t um free rest (v * PGSIZE) pa perm) as (r & k' & t' & free' & E & Hk & Ht & _ & Hres);
    rewrite ?vpn_mul, ?Eo in *; try done; [apply mul_range; lia | apply mul_mod|]. exists r, k', t', free'. split_and!; try done.
  destruct Hres as [(? & ? & ?)|(? & [_ ?] & ?)]; [by left | by right].
Qed.

Lemma unmap_fixed k root t um free rest v : aspace k root t um free rest -> UVPN <= v < NVPN ->
  exists k', uvmunmap kend root (v * PGSIZE) 1 false k = Some k' /\ keeps (bytes k) (bytes k') (data um ++ rest) /\ aspace k' root t (delete v um) free rest.
Proof.
  intros Has Hv. pose proof Huvpn. destruct (unmap_one kend Hend UVPN k root t um free rest v Has ltac:(lia)) as (k' & E & Hk & Has').
  exists k'. split; [done|]. split; [done|]. unfold own in Has'. destruct (Z.ltb_spec v UVPN); [lia|]. by destruct (um !! v).
Qed.

Lemma unmap_only k root t x free rest v : aspace k root t (<[v := x]> ∅) free rest -> UVPN <= v < NVPN ->
  exists k', uvmunmap kend root (v * PGSIZE) 1 false k = Some k' /\ keeps (bytes k) (bytes k') rest /\ aspace k' root t ∅ free rest.
Proof.
  intros Has Hv. destruct (unmap_fixed k root t _ free rest v Has Hv) as (k' & E & Hk & Has').
  rewrite delete_insert_id in Has' by apply lookup_empty. exists k'. split; [done|]. split; [|done]. apply (keeps_sub _ _ _ _ Hk). set_solver.
Qed.

Lemma uvmfree_empty k root t free rest : aspace k root t ∅ free rest ->
  exists k' free', uvmfree kend root 0 k = Some k' /\ kmem_ok k' free' /\ free' ≡ₚ tables t ++ free /\ keeps (bytes k) (bytes k') rest.
Proof.
  intros Has. destruct (uvmfree_spec kend Hend UVPN Huvpn k root t ∅ free rest 0 Has) as (k' & free' & H1 & H2 & H3 & H4); [done | apply Huvpn | done|].
  exists k', free'. split_and!; try done.
Qed.

Lemma bind_some {A B} (f : A -> option B) x : mbind f (Some x) = f x.
Proof. done. Qed.

Lemma data_delete_fixed um v : UVPN <= v -> data (delete v um) ≡ₚ data um.
Proof.
  intros Hv. destruct (um !! v) as [e|] eqn:E; [|by rewrite delete_id].
  rewrite (data_delete UVPN um v e E). destruct (Z.ltb_spec v UVPN); [lia | done].
Qed.

(** All the memory of a process goes back to the allocator. *)
Lemma proc_freepagetable_spec k root t um free rest sz :
  aspace k root t um free rest -> 0 <= sz -> pages_of sz <= UVPN ->
  (forall v e, um !! v = Some e -> v < pages_of sz \/ v = UVPN \/ v = VTRAMP) ->
  exists k' free', proc_freepagetable kend root sz k = Some k' /\ kmem_ok k' free' /\
    free' ≡ₚ tables t ++ data um ++ free /\ NoDup (free' ++ rest) /\ keeps (bytes k) (bytes k') rest.
Proof.
  intros Has Hsz Hl Hum. pose proof Has as [[_ _ _ Hnd] _ _]. unfold proc_freepagetable.
  replace TRAMPOLINE with (VTRAMP * PGSIZE) by done. replace TRAPFRAME with (UVPN * PGSIZE) by done.
  destruct (unmap_fixed k root t um free rest VTRAMP Has) as (k1 & -> & Hk1 & Has1); [split; [vm_compute; discriminate | done]|]. rewrite bind_some.
  destruct (unmap_fixed k1 root t _ free rest UVPN Has1) as (k2 & -> & Hk2 & Has2); [done|]. rewrite bind_some.
  destruct (uvmfree_spec kend Hend UVPN Huvpn k2 root t _ free rest sz Has2 Hsz Hl) as (k' & free' & -> & Hk' & Hf' & Hkp).
  { intros v e [Hv1 [Hv2 He]%lookup_delete_Some]%lookup_delete_Some. destruct (Hum v e He) as [|[->| ->]]; done. }
  assert (Hf : free' ≡ₚ tables t ++ data um ++ free) by (rewrite Hf', !data_delete_fixed; [done | vm_compute; discriminate | done]).
  exists k', free'. split_and!; [done | done | done | |].
  - rewrite Hf. rewrite (Permutation_app_swap_app free), !app_assoc in Hnd. by rewrite !app_assoc.
  - eapply kp_trans; [|eapply kp_trans; [|exact Hkp]]; [apply (keeps_sub _ _ _ _ Hk1) | apply (keeps_sub _ _ _ _ Hk2)]; set_solver.
Qed.

(** C25: a process gives all of its memory back.  Whatever was mapped below
    [sz], [proc_freepagetable] removes the trampoline and the trapframe
    without freeing them, never panics, and puts exactly the pages of the
    process and the pages of its page table back on the free list, each once;
    the memory of everybody else, the trapframe page included, is untouched. *)
Theorem proc_freepagetable_no_leak k root t um free rest sz :
  aspace k root t um free rest -> 0 <= sz -> pages_of sz <= UVPN ->
  (forall v e, um !! v = Some e -> v < pages_of sz \/ v = UVPN \/ v = VTRAMP) ->
  exists k' free', proc_freepagetable kend root sz k = Some k' /\ kmem_ok k' free' /\
    free' ≡ₚ tables t ++ data um ++ free /\ NoDup (free' ++ rest) /\ keeps (bytes k) (bytes k') rest.
Proof. apply proc_freepagetable_spec. Qed.

(** Creating the space is all or nothing. *)
Section Create.
Context (trampoline : Z) (Htramp : 0 <= trampoline < 2 ^ 56) (Htal : trampoline mod PGSIZE = 0).

Lemma proc_pagetable_spec k free rest tf : kmem_ok k free -> Forall page rest -> NoDup (free ++ rest) -> 0 <= tf < 2 ^ 56 -> tf mod PGSIZE = 0 ->
  exists r k', proc_pagetable kend trampoline tf k = Some (r, k') /\ keeps (bytes k) (bytes k') rest /\
    ((r = 0 /\ (length free < 5)%nat /\ exists free', kmem_ok k' free' /\ free' ≡ₚ free) \/
     (r <> 0 /\ exists t free', aspace k' r t (fixed trampoline tf) free' rest /\ tables t ++ free' ≡ₚ free /\
        (length free <= length free' + 5)%nat)).
Proof.
  intros Hk Hr Hn Htf Hfal. unfold proc_pagetable. destruct free as [|root free].
  { unfold uvmcreate. rewrite (kalloc_spec kend Hend k [] Hk). cbn [Z.eqb]. exists 0, k. split_and!; try done. left. split_and!; [done | simpl; lia | eauto]. }
  destruct (uvmcreate_space kend Hend UVPN k root free rest Hk Hr Hn) as (k1 & -> & Hnz & Has1 & Hk1). destruct (Z.eqb_spec root 0); [done|].
  replace TRAMPOLINE with (VTRAMP * PGSIZE) by done. replace TRAPFRAME with (UVPN * PGSIZE) by done.
  destruct (map_fixed k1 root _ ∅ free rest VTRAMP trampoline (Z.lor PTE_R PTE_X) Has1) as (r & k2 & t2 & free2 & -> & Hk2 & Ht2 & Hres);
    [split; [vm_compute; discriminate | done] | apply lookup_empty | done | done | done |]. cbn [mbind option_bind].
  assert (Et : tables {[ [] := root ]} = [root]) by (unfold tables; by rewrite map_to_list_singleton). rewrite Et in Ht2. cbn [app] in Ht2.
  assert (Hk2' : keeps (bytes k) (bytes k2) rest) by (eapply kp_trans; [exact Hk1|]; apply (keeps_sub _ _ _ _ Hk2); set_solver).
  destruct Hres as [(-> & Hlen2 & Has2)|(-> & Hlen2 & Has2)]; cbn [Z.ltb Z.compare].
  - destruct (map_fixed k2 root t2 _ free2 rest UVPN tf (Z.lor PTE_R PTE_W) Has2) as (r & k3 & t3 & free3 & -> & Hk3 & Ht3 & Hres);
      [by split | rewrite lookup_insert_ne by done; apply lookup_empty | done | done | done |]. cbn [mbind option_bind].
    assert (Hk3' : keeps (bytes k) (bytes k3) rest) by (eapply kp_trans; [exact Hk2'|]; apply (keeps_sub _ _ _ _ Hk3); set_solver).
    destruct Hres as [(-> & Hlen3 & Has3)|(-> & Hlen3 & Has3)]; cbn [Z.ltb Z.compare].
    + exists root, k3. split; [done|]. split; [done|]. right. split; [done|]. exists t3, free3. split; [exact Has3|]. split; [by rewrite Ht3 | simpl; lia].
    + destruct (unmap_only k3 root t3 _ free3 rest VTRAMP Has3) as (k4 & -> & Hk4 & Has4); [done|]. rewrite bind_some.
      destruct (uvmfree_empty k4 root t3 free3 rest Has4) as (k5 & free5 & -> & Hk5 & Hf5 & Hkp5). cbn [mbind option_bind].
      exists 0, k5. split; [done|]. split; [eapply kp_trans; [exact Hk3'|]; by eapply kp_trans|].
      left. split; [done|]. split; [simpl; lia|]. exists free5. split; [done|]. by rewrite Hf5, Ht3.
  - destruct (uvmfree_empty k2 root t2 free2 rest Has2) as (k5 & free5 & -> & Hk5 & Hf5 & Hkp5). cbn [mbind option_bind].
    exists 0, k5. split; [done|]. split; [by eapply kp_trans|]. left. split; [done|]. split; [simpl; lia|]. exists free5. split; [done|]. by rewrite Hf5.
Qed.
End Create.
End Process.

(** A process with three pages of memory and its trapframe in [rest]. *)
Lemma demo_process : exists k root t ps free tf, length ps = 3%nat /\ (17 <= length free)%nat /\
  aspace demo_end UVPN k root t (extend 0 ps (Z.lor (Z.lor PTE_R PTE_U) PTE_W) (fixed KERNBASE tf)) free [tf].
Proof.
  assert (He : KERNBASE <= demo_end) by (vm_compute; discriminate).
  destruct (kinit_spec demo_end He (fun _ => NUL)) as (k0 & _ & Hk0); [vm_compute; discriminate|].
  assert (Hlen : length (all_pages demo_end) = 32%nat) by (unfold all_pages; rewrite length_reverse, length_pages_from; reflexivity).
  destruct (all_pages demo_end) as [|tf free0] eqn:Eall; [done|]. simpl in Hlen.
  destruct (kalloc_spec demo_end He k0 (tf :: free0) Hk0) as (k1 & _ & Hk1 & Htf & Hnf & _). destruct (page_pa demo_end He tf Htf) as [Htf1 Htf2].
  destruct (proc_pagetable_spec demo_end He KERNBASE ltac:(split; [vm_compute; discriminate | reflexivity]) eq_refl k1 free0 [tf] tf Hk1)
    as (root & k2 & _ & _ & [(_ & Hlt & _)|(_ & t2 & free2 & Has2 & Ht2 & Hle)]); [by constructor | | done | done | lia |].
  { rewrite (Permutation_app_comm free0). simpl. constructor; [done | apply Hk1]. }
  destruct (uvmalloc_spec demo_end He UVPN Huvpn k2 root t2 _ free2 [tf] 0 10000 PTE_W Has2)
    as (r & k3 & t3 & free3 & _ & _ & Hres); [lia | vm_compute; discriminate | split; [vm_compute; discriminate | done] | |].
  { intros w Hw. change (pages_of 10000) with 3 in Hw. rewrite !lookup_insert_ne, lookup_empty; [done | |];
      intros E; rewrite <- E in Hw; destruct Hw as [_ Hw]; vm_compute in Hw; discriminate. }
  change (pages_of 10000 - pages_of 0) with 3 in Hres. destruct Hres as [(ps & _ & Hps & _ & Has3 & Htot & Hle3)|(_ & _ & _ & Hlt)]; [|lia].
  exists k3, root, t3, ps, free3, tf. split; [lia|]. split; [lia | exact Has3].
Qed.

Lemma proc_freepagetable_no_leak_witness : exists k root t ps free tf, length ps = 3%nat /\
  exists k' free', proc_freepagetable demo_end root 10000 k = Some k' /\ kmem_ok demo_end k' free' /\ NoDup (free' ++ [tf]) /\
    free' ≡ₚ tables t ++ data UVPN (extend 0 ps (Z.lor (Z.lor PTE_R PTE_U) PTE_W) (fixed KERNBASE tf)) ++ free.
Proof.
  destruct demo_process as (k & root & t & ps & free & tf & Hps & _ & Has). exists k, root, t, ps, free, tf. split; [exact Hps|].
  assert (He : KERNBASE <= demo_end) by (vm_compute; discriminate).
  destruct (proc_freepagetable_no_leak demo_end He k root t _ free [tf] 10000 Has) as (k' & free' & H1 & H2 & H3 & H4 & _).
  - lia.
  - apply Z.leb_le. vm_compute. reflexivity.
  - intros v e Hv. rewrite extend_lookup in Hv. destruct (Z.leb_spec 0 v), (Z.ltb_spec v (0 + Z.of_nat (length ps))); cbn [andb] in Hv;
      [left; change (pages_of 10000) with 3; lia | right ..];
      (destruct (decide (v = UVPN)) as [->|Hne]; [left; reflexivity | right]; rewrite lookup_insert_ne in Hv by congruence;
       destruct (decide (v = VTRAMP)) as [->|Hne2]; [reflexivity | rewrite lookup_insert_ne in Hv by congruence; rewrite lookup_empty in Hv; discriminate]).
  - exists k', free'. split; [exact H1|]. split; [exact H2|]. split; [exact H4 | exact H3].
Defined.
