(* ===== verification/Uvmcopy.v ===== *)
(** * Copying address spaces (xv6/kernel/vm.c: uvmcopy)

    [fork] copies the memory of the parent into the empty address space of
    the child.  Both are page tables of the same physical memory: the tables
    and the pages of the parent are in the [rest] of the child. *)
From S2P Require Import Prelude Ram Kalloc Pagetable Vm Space Uvm Uvmfree.
Local Open Scope Z_scope.

Definition same_page (m : ram) (p q : Z) : Prop := forall o, 0 <= o < PGSIZE -> m (q + o) = m (p + o).

Lemma PTE_FLAGS_range e : 0 <= PTE_FLAGS e < 1024.
Proof. unfold PTE_FLAGS. change 0x3FF with (Z.ones 10). rewrite Z.land_ones by lia. apply Z.mod_pos_bound. lia. Qed.

Section Copy.
Context (kend : Z) (Hend : KERNBASE <= kend) (lim : Z) (Hlim : 0 <= lim <= NVPN).
Local Abbreviation page := (page kend).
Local Abbreviation aspace := (aspace kend lim).
Local Abbreviation data := (data lim).
Local Abbreviation view := (view kend).

(** The parent, and what else is in the memory. *)
Context (old : Z) (told : tree) (uold : vmap) (others : list Z).
Local Abbreviation rest := (tables told ++ data uold ++ others).

(** The entry of the child for a page of the parent. *)
Definition copied (m : ram) (e : Z) (o : option Z) : Prop := exists p, o = Some (mkpte p (PTE_FLAGS e)) /\ page p /\ same_page m (PTE2PA e) p.

Lemma copied_keeps m m' e o : keeps m m' [PTE2PA e] -> (forall p, o = Some (mkpte p (PTE_FLAGS e)) -> page p -> keeps m m' [p]) ->
  copied m e o -> copied m' e o.
Proof.
  intros Hk1 Hk2 (p & -> & Hp & Hs). exists p. split; [done|]. split; [done|]. intros x Hx.
  rewrite (Hk2 p eq_refl Hp p (p + x)) by (lia || by apply list_elem_of_singleton). rewrite (Hk1 (PTE2PA e) (PTE2PA e + x)) by (lia || by apply list_elem_of_singleton). by apply Hs.
Qed.

Lemma copy_fill p pa m x : ~ (p <= x < p + PGSIZE) -> write p (fetch m pa (Z.to_nat PGSIZE)) m x = m x.
Proof. intros Hx. apply write_out. rewrite length_fetch, Z2Nat.id by done. done. Qed.

Lemma copy_content p pa m o : 0 <= o < PGSIZE -> write p (fetch m pa (Z.to_nat PGSIZE)) m (p + o) = m (pa + o).
Proof.
  intros Ho. rewrite write_in by (rewrite length_fetch, Z2Nat.id by done; lia). replace (p + o - p) with o by lia.
  rewrite fetch_nth by (apply Z2Nat.inj_lt; [lia | done | lia]). by rewrite Z2Nat.id by lia.
Qed.

(** One page: nothing to copy, copied, or out of memory. *)
Lemma copy_page_spec k new t un free v :
  aspace k new t un free rest -> view (bytes k) old told uold -> 0 <= v < lim -> un !! v = None ->
  exists ok k' t' free', copy_page kend old new (v * PGSIZE) k = Some (ok, k') /\
    keeps (bytes k) (bytes k') (data un ++ rest) /\ t ⊆ t' /\
    match uold !! v with
    | None => ok = true /\ k' = k /\ t' = t /\ free' = free
    | Some e =>
        (ok = true /\ exists p, tables t' ++ p :: free' ≡ₚ tables t ++ free /\ (length free <= length free' + 3)%nat /\ page p /\
           aspace k' new t' (<[v := mkpte p (PTE_FLAGS e)]> un) free' rest /\ same_page (bytes k') (PTE2PA e) p) \/
        (ok = false /\ tables t' ++ free' ≡ₚ tables t ++ free /\ (length free <= 2)%nat /\ aspace k' new t' un free' rest)
    end.
Proof.
  intros Has Hview Hv Hno. pose proof (mul_range v ltac:(lia)) as Hva. unfold copy_page.
  destruct (walk_view kend Hend k old told uold (v * PGSIZE) Hview Hva) as (pte & -> & Hm & _). rewrite vpn_mul in Hm. cbn [mbind option_bind].
  destruct (uold !! v) as [e|] eqn:E; cycle 1.
  { exists true, k, t, free. split; [|split_and!; try done]. destruct (Z.eqb_spec pte 0); [done|]. destruct Hm as [|Hm]; [done|]. by rewrite Hm. }
  destruct Hm as [Hnz Hpe]. destruct (Z.eqb_spec pte 0); [done|]. rewrite Hpe. destruct (vw_valid _ _ _ _ _ Hview v e E) as (_ & -> & _). cbn [negb].
  destruct free as [|p free].
  { rewrite (kalloc_spec kend Hend k [] (vm_kmem _ _ _ _ _ _ (as_vm _ _ _ _ _ _ _ _ Has))). cbn [Z.eqb].
    exists false, k, t, []. split; [done|]. split; [apply kp_refl|]. split; [done|]. right. split_and!; (done || simpl; lia). }
  set (pa := PTE2PA e). assert (Hpa : pa ∈ rest).
  { apply elem_of_app. right. apply elem_of_app. left. apply elem_of_data. exists v, e. done || (split_and!; (done || lia)). }
  destruct (add_page kend Hend lim Hlim k new t un p free rest v (PTE_FLAGS e) (fun m => write p (fetch m pa (Z.to_nat PGSIZE)) m) Has Hv Hno (PTE_FLAGS_range e)
    ltac:(intros m x; apply copy_fill)) as (k1 & r & k3 & t3 & free3 & -> & Hpnz & Hpp & Hpn & -> & Hs3 & Hk1 & Hk3 & Hkp & Ht3 & Hres).
  destruct (Z.eqb_spec p 0); [done|]. cbn [mbind option_bind].
  destruct Hres as [(-> & Hlen & Has3)|(-> & [-> Hlen] & Has3)]; cbn [Z.eqb negb].
  - exists true, k3, t3, free3. split; [done|]. split; [done|]. split; [done|]. left. split; [done|]. exists p.
    split; [rewrite <- Permutation_middle, Ht3; apply Permutation_middle|]. split; [simpl; lia|]. split; [done|]. split; [done|]. intros o Ho.
    rewrite (Hkp p (p + o)) by (lia || by apply list_elem_of_singleton). rewrite copy_content by done. fold pa.
    rewrite (Hk1 pa (pa + o)), (Hk3 pa (pa + o)) by (lia || (apply elem_of_app; by right)). done.
  - destruct (give_page kend Hend lim k3 new t3 un p [] rest Has3) as (k4 & -> & Has4 & Hk4). cbn [mbind option_bind].
    exists false, k4, t3, [p]. split; [done|]. split; [by eapply kp_trans|]. split; [done|]. right.
    split_and!; [done | | simpl; lia | done]. rewrite app_nil_r in Ht3. rewrite Ht3, <- app_assoc. apply Permutation_app_head. rewrite Permutation_app_comm. done.
Qed.

(** The child while the parent is copied: [un0] is what it had before. *)
Section Loop.
Context (new : Z) (un0 : vmap) (sz : Z) (Hl : pages_of sz <= lim).
Context (Hno : forall w, 0 <= w < pages_of sz -> un0 !! w = None).

Definition upto (m : ram) (v : Z) (un : vmap) : Prop :=
  forall w, match (if (0 <=? w) && (w <? v) then uold !! w else None) with Some e => copied m e (un !! w) | None => un !! w = un0 !! w end.

Lemma upto_keeps m m' v un : v <= lim -> keeps m m' (data un ++ rest) -> upto m v un -> upto m' v un.
Proof.
  intros Hv Hk H w. specialize (H w). destruct (Z.leb_spec 0 w), (Z.ltb_spec w v); simpl in *; try done. destruct (uold !! w) as [e|] eqn:E; [|done].
  revert H. apply copied_keeps.
  - apply (keeps_sub _ _ _ _ Hk). intros x ->%list_elem_of_singleton. rewrite !elem_of_app. right. right. left. apply elem_of_data. exists w, e. split_and!; (done || lia).
  - intros p Hp Hpp. apply (keeps_sub _ _ _ _ Hk). intros x ->%list_elem_of_singleton. apply elem_of_app. left. apply elem_of_data.
    exists w, (mkpte p (PTE_FLAGS e)). split; [done|]. split; [lia|]. destruct (page_pa kend Hend p Hpp). by rewrite mkpte_pa by (done || apply PTE_FLAGS_range).
Qed.

Lemma upto_none v un m w : upto m v un -> 0 <= v <= w -> w < pages_of sz -> un !! w = None.
Proof. intros H Hv Hw. specialize (H w). destruct (Z.leb_spec 0 w), (Z.ltb_spec w v); simpl in H; try lia. rewrite H. apply Hno. lia. Qed.

(** What is undone after a failure. *)
Lemma upto_hide v un m : upto m v un -> 0 <= v <= pages_of sz -> hide 0 v un = un0.
Proof.
  intros H Hv. apply map_eq. intros w. specialize (H w). rewrite hide_lookup. destruct (Z.leb_spec 0 w), (Z.ltb_spec w (0 + v)); simpl in *; try done.
  - symmetry. apply Hno. lia.
  - destruct (Z.ltb_spec w v); [lia | done].
Qed.

Lemma upto_step m v un p e : 0 <= v -> uold !! v = Some e -> upto m v un -> page p -> same_page m (PTE2PA e) p ->
  upto m (v + 1) (<[v := mkpte p (PTE_FLAGS e)]> un).
Proof.
  intros Hv He H Hp Hs w. specialize (H w). destruct (decide (v = w)) as [<-|Hne].
  - destruct (Z.leb_spec 0 v), (Z.ltb_spec v (v + 1)); try lia. simpl. rewrite He, lookup_insert_eq. exists p. done.
  - rewrite lookup_insert_ne by done. replace (w <? v + 1) with (w <? v); [done|]. destruct (Z.ltb_spec w v), (Z.ltb_spec w (v + 1)); (done || lia).
Qed.

Lemma upto_skip m v un : 0 <= v -> uold !! v = None -> upto m v un -> upto m (v + 1) un.
Proof.
  intros Hv He H w. specialize (H w). destruct (decide (v = w)) as [<-|Hne].
  - rewrite Z.ltb_irrefl, andb_false_r in H. destruct (Z.leb_spec 0 v), (Z.ltb_spec v (v + 1)); try lia. simpl. by rewrite He.
  - replace (w <? v + 1) with (w <? v); [done|]. destruct (Z.ltb_spec w v), (Z.ltb_spec w (v + 1)); (done || lia).
Qed.

Lemma uvmcopy_loop_spec n : forall v k t un free,
  aspace k new t un free rest -> view (bytes k) old told uold -> 0 <= v -> v + Z.of_nat n = pages_of sz -> upto (bytes k) v un ->
  exists r k' t' un' free', uvmcopy_loop kend n old new (v * PGSIZE) sz k = Some (r, k') /\ keeps (bytes k) (bytes k') rest /\ t ⊆ t' /\
    aspace k' new t' un' free' rest /\ tables t' ++ data un' ++ free' ≡ₚ tables t ++ data un ++ free /\
    ((r = 0 /\ upto (bytes k') (pages_of sz) un') \/ (r = -1 /\ un' = un0 /\ (length free < 3 * n)%nat)).
Proof.
  induction n as [|n IH]; intros v k t un free Has Hview Hv Hn Hpre; cbn [uvmcopy_loop].
  - destruct (Z.ltb_spec (v * PGSIZE) sz) as [Hlt%pages_of_lt|_]; [lia|]. assert (v = pages_of sz) as -> by lia.
    exists 0, k, t, un, free. split_and!; try done. by left.
  - destruct (Z.ltb_spec (v * PGSIZE) sz) as [_|Hge]; [|assert (v < pages_of sz) as Hlt%pages_of_lt by lia; lia].
    destruct (copy_page_spec k new t un free v Has Hview ltac:(lia) (upto_none v un _ v Hpre ltac:(lia) ltac:(lia)))
      as (ok & k1 & t1 & free1 & -> & Hk1 & Hs1 & Hres). cbn [mbind option_bind].
    assert (Hkr : keeps (bytes k) (bytes k1) rest) by (apply (keeps_sub _ _ _ _ Hk1); intros x Hx; apply elem_of_app; by right).
    assert (Hview1 : view (bytes k1) old told uold) by (apply (view_keeps _ (bytes k)); [done|]; apply (keeps_sub _ _ _ _ Hkr); intros x Hx; apply elem_of_app; by left).
    pose proof (upto_keeps _ _ v un ltac:(lia) Hk1 Hpre) as Hpre1.
    destruct (uold !! v) as [e|] eqn:E.
    + destruct Hres as [(-> & p & Ht1 & Hlen & Hpp & Has1 & Hsame)|(-> & Ht1 & Hlen & Has1)].
      * rewrite next_page by lia.
        destruct (IH (v + 1) k1 t1 _ free1 Has1 Hview1 ltac:(lia) ltac:(lia) (upto_step _ _ _ _ _ Hv E Hpre1 Hpp Hsame))
          as (r & k' & t' & un' & free' & E' & Hk' & Hs' & Has' & Htot & Hr).
        exists r, k', t', un', free'. split; [exact E'|]. split; [by eapply kp_trans|]. split; [by trans t1|]. split; [done|]. split.
        -- rewrite Htot, data_insert by (apply (upto_none v un _ v Hpre); lia). destruct (Z.ltb_spec v lim); [|lia]. destruct (page_pa kend Hend p Hpp).
           rewrite mkpte_pa by (done || apply PTE_FLAGS_range). cbn [app]. rewrite (Permutation_middle (data un)). rewrite !(Permutation_app_swap_app _ (data un)).
           by rewrite Ht1.
        -- destruct Hr as [Hr|(-> & -> & Hlt)]; [by left | right]. split_and!; [done | done | lia].
      * rewrite Z.div_mul by done. destruct (uvmunmap_spec kend Hend lim Hlim new t1 rest v 0 un k1 free1 Has1) as (k2 & free2 & E2 & Has2 & Hd2 & Hk2); [lia..|].
        change (0 * PGSIZE) with 0 in E2. rewrite E2. cbn [mbind option_bind]. rewrite (upto_hide v un _ Hpre ltac:(lia)) in *.
        exists (-1), k2, t1, un0, free2. split; [done|]. split; [eapply kp_trans; [exact Hkr|]; apply (keeps_sub _ _ _ _ Hk2); intros x Hx; apply elem_of_app; by right|].
        split; [done|]. split; [done|]. split; [rewrite <- Hd2, !(Permutation_app_swap_app _ (data un)); by rewrite Ht1|]. right. split_and!; [done | done | lia].
    + destruct Hres as (-> & -> & -> & ->). rewrite next_page by lia.
      destruct (IH (v + 1) k t un free Has Hview ltac:(lia) ltac:(lia) (upto_skip _ _ _ Hv E Hpre)) as (r & k' & t' & un' & free' & E' & Hk' & Hs' & Has' & Htot & Hr).
      exists r, k', t', un', free'. split_and!; try done. destruct Hr as [Hr|(-> & -> & Hlt)]; [by left | right]. split_and!; [done | done | lia].
Qed.
End Loop.

Lemma uvmcopy_spec k new t un free sz :
  aspace k new t un free rest -> view (bytes k) old told uold -> 0 <= sz -> pages_of sz <= lim ->
  (forall w, 0 <= w < pages_of sz -> un !! w = None) ->
  exists r k' t' un' free', uvmcopy kend old new sz k = Some (r, k') /\ keeps (bytes k) (bytes k') rest /\
    aspace k' new t' un' free' rest /\ tables t' ++ data un' ++ free' ≡ₚ tables t ++ data un ++ free /\
    ((r = 0 /\ upto un (bytes k') (pages_of sz) un') \/ (r = -1 /\ un' = un /\ Z.of_nat (length free) < 3 * pages_of sz)).
Proof.
  intros Has Hview Hsz Hl Hno. pose proof (pages_of_nonneg sz Hsz) as H0.
  destruct (uvmcopy_loop_spec new un sz Hl Hno (Z.to_nat (pages_of sz)) 0 k t un free Has Hview) as (r & k' & t' & un' & free' & E & Hk & _ & Has' & Htot & Hr).
  - lia.
  - lia.
  - intros w. destruct (Z.leb_spec 0 w), (Z.ltb_spec w 0); (done || lia).
  - exists r, k', t', un', free'. split; [exact E|]. split_and!; try done. destruct Hr as [Hr|(-> & -> & Hlt)]; [by left | right]. split_and!; [done | done | lia].
Qed.
End Copy.

(** C22: [uvmcopy] copies the memory of the parent or undoes everything.  It
    never panics on an empty child.  If it returns 0, every mapped page of the
    parent below [sz] is mapped in the child at the same address with the same
    flags, to a page of its own with the same bytes, and no other entry of the
    child changed; if it returns -1, which takes fewer than three free pages
    per page of the parent, the child maps what it did.  In both cases no byte
    of the parent, its page table or another owner changed, and no page was
    lost. *)
Theorem uvmcopy_copies kend lim old told uold others k new t un free sz :
  KERNBASE <= kend -> 0 <= lim <= NVPN ->
  aspace kend lim k new t un free (tables told ++ data lim uold ++ others) -> view kend (bytes k) old told uold ->
  0 <= sz -> pages_of sz <= lim -> (forall w, 0 <= w < pages_of sz -> un !! w = None) ->
  exists r k' t' un' free', uvmcopy kend old new sz k = Some (r, k') /\
    keeps (bytes k) (bytes k') (tables told ++ data lim uold ++ others) /\
    aspace kend lim k' new t' un' free' (tables told ++ data lim uold ++ others) /\
    tables t' ++ data lim un' ++ free' ≡ₚ tables t ++ data lim un ++ free /\
    ((r = 0 /\ forall w,
        match (if (0 <=? w) && (w <? pages_of sz) then uold !! w else None) with
        | Some e => exists p, un' !! w = Some (mkpte p (PTE_FLAGS e)) /\ page kend p /\ same_page (bytes k') (PTE2PA e) p
        | None => un' !! w = un !! w
        end) \/
     (r = -1 /\ un' = un /\ Z.of_nat (length free) < 3 * pages_of sz)).
Proof. intros He Hlim. by apply uvmcopy_spec. Qed.

(** The three pages of the process of [demo_process] are copied. *)
Lemma uvmcopy_copies_witness : exists k parent ps child k' (un' : vmap) p q, length ps = 3%nat /\
  uvmcopy demo_end parent child 10000 k = Some (0, k') /\ ps !! 1%nat = Some p /\
  un' !! 1 = Some (mkpte q (PTE_FLAGS (mkpte p (Z.lor (Z.lor PTE_R PTE_U) PTE_W)))) /\
  same_page (bytes k') (PTE2PA (mkpte p (Z.lor (Z.lor PTE_R PTE_U) PTE_W))) q.
Proof.
  destruct demo_process as (k & root & t & ps & free & tf & Hps & Hlen & Has). assert (He : KERNBASE <= demo_end) by (vm_compute; discriminate).
  pose proof (aspace_view _ _ _ _ _ _ _ _ Has) as Hview. set (um := extend _ _ _ _) in *.
  pose proof Has as [[Hk Hpt Hrest Hnd] _ _]. pose proof (vm_kmem _ _ _ _ _ _ (as_vm _ _ _ _ _ _ _ _ Has)) as _.
  destruct (proc_pagetable_spec demo_end He KERNBASE ltac:(split; [vm_compute; discriminate | reflexivity]) eq_refl k free (tables t ++ data UVPN um ++ [tf]) 0 Hk)
    as (child & k1 & _ & Hk1 & [(_ & Hlt & _)|(_ & t1 & free1 & Has1 & _ & Hle)]).
  - apply Forall_app. split; [apply Hpt | exact Hrest].
  - rewrite (Permutation_app_swap_app free). exact Hnd.
  - split; [lia | reflexivity].
  - reflexivity.
  - exfalso. lia.
  - assert (Hu : forall w, 0 <= w < 3 -> (fixed KERNBASE 0 : vmap) !! w = None).
    { intros w Hw. rewrite !lookup_insert_ne, lookup_empty; [reflexivity | |]; intros E; rewrite <- E in Hw; destruct Hw as [_ Hw]; vm_compute in Hw; discriminate. }
    destruct (uvmcopy_copies demo_end UVPN root t um [tf] k1 child t1 _ free1 10000 He Huvpn Has1) as (r & k' & t' & un' & free' & E & _ & _ & _ & [(-> & Hc)|(_ & _ & Hlt)]).
    + apply (view_keeps _ (bytes k)); [exact Hview|]. apply (keeps_sub _ _ _ _ Hk1). intros x Hx. apply elem_of_app. left. exact Hx.
    + lia.
    + apply Z.leb_le. vm_compute. reflexivity.
    + exact Hu.
    + destruct (lookup_lt_is_Some_2 ps 1 ltac:(lia)) as [p Hp]. specialize (Hc 1). change ((0 <=? 1) && (1 <? pages_of 10000)) with true in Hc. cbv iota in Hc.
      assert (Eu : um !! 1 = Some (mkpte p (Z.lor (Z.lor PTE_R PTE_U) PTE_W))).
      { unfold um. rewrite extend_lookup, Hps. change ((0 <=? 1) && (1 <? 0 + Z.of_nat 3)) with true. cbv iota. change (Z.to_nat (1 - 0)) with 1%nat. rewrite Hp. reflexivity. }
      rewrite Eu in Hc. destruct Hc as (q & Hq & _ & Hs). exists k1, root, ps, child, k', un', p, q. split; [exact Hps|]. split; [exact E|].
      split; [exact Hp|]. split; [exact Hq | exact Hs].
    + exfalso. change (pages_of 10000) with 3 in Hlt. lia.
Defined.
