(* ===== verification/Usercopy.v ===== *)
(** * Copying between the kernel and user memory (xv6/kernel/vm.c: copyin, copyout, copyinstr, vmfault)

    A process sees the bytes of its mapped pages, and zeroes in the pages it
    was promised by [sys_sbrk] and that are not allocated yet.  The copies
    allocate such pages on the way, without changing what the process sees. *)
From S2P Require Import Prelude Ram Kalloc Pagetable Vm Space Uvm Uvmfree.
Local Open Scope Z_scope.

(** The byte a process sees at [va]. *)
Definition ubyte (m : ram) (um : vmap) (va : Z) : ascii :=
  match um !! (va / PGSIZE) with Some e => m (PTE2PA e + va mod PGSIZE) | None => NUL end.

Fixpoint ubytes (m : ram) (um : vmap) (va : Z) (n : nat) : list ascii :=
  match n with O => [] | S n' => ubyte m um va :: ubytes m um (va + 1) n' end.

Lemma ubytes_app m um n1 n2 : forall va, ubytes m um va (n1 + n2) = ubytes m um va n1 ++ ubytes m um (va + Z.of_nat n1) n2.
Proof.
  induction n1 as [|n1 IH]; intros va; [simpl; f_equal; lia|]. cbn [ubytes Nat.add app]. rewrite IH. do 3 f_equal. lia.
Qed.

Lemma ubytes_ext m m' um um' n : forall va, (forall x, va <= x < va + Z.of_nat n -> ubyte m' um' x = ubyte m um x) -> ubytes m' um' va n = ubytes m um va n.
Proof. induction n as [|n IH]; intros va H; cbn [ubytes]; [done|]. rewrite H by lia. f_equal. apply IH. intros x Hx. apply H. lia. Qed.

Lemma length_ubytes m um n : forall va, length (ubytes m um va n) = n.
Proof. induction n as [|n IH]; intros va; simpl; [done | by rewrite IH]. Qed.

(** The offset and the page of an address. *)
Lemma split_va va : 0 <= va -> va = va / PGSIZE * PGSIZE + va mod PGSIZE /\ 0 <= va mod PGSIZE < PGSIZE /\ 0 <= va / PGSIZE.
Proof.
  intros H. pose proof (Z.div_mod va PGSIZE ltac:(done)). pose proof (Z.mod_pos_bound va PGSIZE ltac:(done)).
  pose proof (Z.div_pos va PGSIZE H ltac:(done)). lia.
Qed.

Lemma in_page v o : 0 <= o < PGSIZE -> (v * PGSIZE + o) / PGSIZE = v /\ (v * PGSIZE + o) mod PGSIZE = o.
Proof.
  intros Ho. split.
  - rewrite Z.div_add_l by done. rewrite Z.div_small by done. lia.
  - rewrite Z.add_comm, Z_mod_plus_full. by apply Z.mod_small.
Qed.

(** Inside of one page the bytes are those of its frame. *)
Lemma fetch_page m um v e n : forall o, um !! v = Some e -> 0 <= o -> o + Z.of_nat n <= PGSIZE ->
  fetch m (PTE2PA e + o) n = ubytes m um (v * PGSIZE + o) n.
Proof.
  induction n as [|n IH]; intros o He Ho Hn; cbn [fetch ubytes]; [done|]. unfold ubyte at 1. destruct (in_page v o) as [-> ->]; [lia|]. rewrite He. f_equal.
  rewrite <- !Z.add_assoc. apply IH; [done | lia | lia].
Qed.

Section User.
Context (kend : Z) (Hend : KERNBASE <= kend) (lim : Z) (Hlim : 0 <= lim <= NVPN).
Local Abbreviation page := (page kend).
Local Abbreviation aspace := (aspace kend lim).
Local Abbreviation data := (data lim).

(** The same memory for the process, possibly with more of it allocated. *)
Record sees (um um' : vmap) (m m' : ram) : Prop := mkSees {
  se_more : um ⊆ um';
  se_byte : forall va, 0 <= va < lim * PGSIZE -> ubyte m' um' va = ubyte m um va
}.

Lemma sees_refl um m : sees um um m m.
Proof. by split. Qed.

Lemma sees_trans um1 um2 um3 m1 m2 m3 : sees um1 um2 m1 m2 -> sees um2 um3 m2 m3 -> sees um1 um3 m1 m3.
Proof. intros [A1 A2] [B1 B2]. split; [by trans um2|]. intros va Hva. by rewrite B2, A2. Qed.

Lemma vpn_lt va : 0 <= va < lim * PGSIZE -> 0 <= va / PGSIZE < lim.
Proof. intros H. split; [apply Z.div_pos; unfold PGSIZE in *; lia | apply Z.div_lt_upper_bound; unfold PGSIZE in *; lia]. Qed.

Lemma ubyte_keeps m m' um va : 0 <= va < lim * PGSIZE -> keeps m m' (data um) -> ubyte m' um va = ubyte m um va.
Proof.
  intros Hva Hk. unfold ubyte. destruct (um !! (va / PGSIZE)) as [e|] eqn:E; [|done]. destruct (split_va va) as (_ & Ho & _); [lia|].
  apply (Hk (PTE2PA e)); [|lia]. apply elem_of_data. exists (va / PGSIZE), e. split; [done|]. split; [by apply vpn_lt | done].
Qed.

(** A promised page is allocated. *)
Lemma sees_fault m m' um v p perm : um !! v = None -> page p -> 0 <= perm < 1024 -> keeps m m' (data um) -> zeroed m' [p] ->
  sees um (<[v := mkpte p perm]> um) m m'.
Proof.
  intros Hv Hp Hperm Hk Hz. split; [by apply insert_subseteq|]. intros va Hva. destruct (decide (v = va / PGSIZE)) as [E|Hne].
  - unfold ubyte. rewrite <- E, lookup_insert_eq, Hv. destruct (page_pa kend Hend p Hp). rewrite mkpte_pa by done.
    destruct (split_va va) as (_ & Ho & _); [lia|]. apply (Hz p); [by apply list_elem_of_singleton | lia].
  - unfold ubyte. rewrite lookup_insert_ne by done. by apply ubyte_keeps.
Qed.

(** Why a page may not be used. *)
Definition denied (um : vmap) (free : list Z) (psz v : Z) : Prop :=
  match um !! v with Some e => has PTE_U e = false | None => psz <= v * PGSIZE \/ (length free <= 2)%nat end.

Definition W_U_R : Z := Z.lor (Z.lor PTE_W PTE_U) PTE_R.

Lemma vmfault_spec k root t um free rest psz v : aspace k root t um free rest -> 0 <= v -> psz <= lim * PGSIZE -> um !! v = None \/ psz <= v * PGSIZE ->
  exists pa k' t' free', vmfault kend root psz (v * PGSIZE) k = Some (pa, k') /\ keeps (bytes k) (bytes k') (data um ++ rest) /\
    ((pa <> 0 /\ v < lim /\ v * PGSIZE < psz /\ page pa /\ um !! v = None /\ aspace k' root t' (<[v := mkpte pa W_U_R]> um) free' rest /\
        tables t' ++ pa :: free' ≡ₚ tables t ++ free /\ zeroed (bytes k') [pa]) \/
     (pa = 0 /\ aspace k' root t' um free' rest /\ tables t' ++ free' ≡ₚ tables t ++ free /\ (psz <= v * PGSIZE \/ (length free' <= 2)%nat))).
Proof.
  intros Has Hv Hpsz Hno. unfold vmfault. destruct (Z.leb_spec psz (v * PGSIZE)) as [Hge|Hlt].
  { exists 0, k, t, free. split; [done|]. split; [apply kp_refl|]. right. split_and!; try done. by left. }
  destruct Hno as [Hno|]; [|lia]. assert (Hvl : v < lim) by (unfold PGSIZE in *; nia). rewrite PGROUNDDOWN_spec, vpn_mul.
  rewrite (ismapped_um kend Hend lim k root t um free rest (v * PGSIZE) Has (mul_range v ltac:(lia))), vpn_mul, Hno. cbn [mbind option_bind].
  destruct free as [|p free].
  { rewrite (kalloc_spec kend Hend k [] (vm_kmem _ _ _ _ _ _ (as_vm _ _ _ _ _ _ _ _ Has))). cbn [Z.eqb].
    exists 0, k, t, []. split; [done|]. split; [apply kp_refl|]. right. split_and!; try done. right. simpl. lia. }
  destruct (add_page kend Hend lim Hlim k root t um p free rest v W_U_R (fill p 0 PGSIZE) Has ltac:(lia) Hno ltac:(by split) ltac:(intros m x; apply fill_out))
    as (k1 & r & k3 & t3 & free3 & -> & Hpnz & Hpp & Hpn & Em & Hs3 & _ & Hk3 & Hkp & Ht3 & Hres).
  destruct (Z.eqb_spec p 0); [done|]. unfold zero_page. fold W_U_R. rewrite Em. cbn [mbind option_bind].
  destruct Hres as [(-> & Hlen & Has3)|(-> & [-> Hlen] & Has3)]; cbn [Z.eqb negb].
  - exists p, k3, t3, free3. split; [done|]. split; [done|]. left. split_and!; try done; [|by eapply zeroed_page].
    rewrite <- Permutation_middle, Ht3. apply Permutation_middle.
  - destruct (give_page kend Hend lim k3 root t3 um p [] rest Has3) as (k4 & -> & Has4 & Hk4). cbn [mbind option_bind].
    exists 0, k4, t3, [p]. split; [done|]. split; [by eapply kp_trans|]. right. split_and!; try done; [|right; simpl; lia].
    rewrite app_nil_r in Ht3. rewrite Ht3, <- app_assoc. apply Permutation_app_head. rewrite Permutation_app_comm. done.
Qed.

(** Only pages of the process are open to it. *)
Definition users (um : vmap) : Prop := forall v e, um !! v = Some e -> has PTE_U e = true -> v < lim.

(** The space after some of its promised pages were allocated. *)
Record same_space (root : Z) (rest : list Z) (psz : Z) (k : kmem) (t : tree) (um : vmap) (free : list Z) (k' : kmem) (t' : tree) (um' : vmap) (free' : list Z) : Prop := mkSame {
  ss_space : aspace k' root t' um' free' rest;
  ss_users : users um';
  ss_more : um ⊆ um';
  ss_new : forall v e, um' !! v = Some e -> um !! v = Some e \/ (has PTE_U e = true /\ v * PGSIZE < psz);
  ss_rest : keeps (bytes k) (bytes k') rest;
  ss_total : tables t' ++ data um' ++ free' ≡ₚ tables t ++ data um ++ free
}.

Lemma same_refl root rest psz k t um free : aspace k root t um free rest -> users um -> same_space root rest psz k t um free k t um free.
Proof. intros H Hu. split; try done. by left. Qed.

Lemma same_trans root rest psz k t um free k1 t1 um1 free1 k2 t2 um2 free2 :
  same_space root rest psz k t um free k1 t1 um1 free1 -> same_space root rest psz k1 t1 um1 free1 k2 t2 um2 free2 -> same_space root rest psz k t um free k2 t2 um2 free2.
Proof.
  intros [A1 A2 A3 AN A4 A5] [B1 B2 B3 BN B4 B5]. split; [done | done | by trans um1 | | by eapply kp_trans | by rewrite B5].
  intros v e [He|He]%BN; [by apply AN | by right].
Qed.

Lemma user_page_spec k root t um free rest psz v : aspace k root t um free rest -> users um -> 0 <= v -> psz <= lim * PGSIZE ->
  exists pa k' t' um' free', user_page kend root psz (v * PGSIZE) k = Some (pa, k') /\
    same_space root rest psz k t um free k' t' um' free' /\ sees um um' (bytes k) (bytes k') /\
    ((pa <> 0 /\ v < lim /\ exists e, um' !! v = Some e /\ has PTE_U e = true /\ PTE2PA e = pa) \/ (pa = 0 /\ denied um' free' psz v)).
Proof.
  intros Has Hu Hv Hpsz. unfold user_page. rewrite (walkaddr_um kend Hend lim k root t um free rest (v * PGSIZE) Has) by (unfold PGSIZE; lia).
  rewrite vpn_mul. cbn [mbind option_bind].
  destruct (um !! v) as [e|] eqn:E.
  - destruct (as_valid _ _ _ _ _ _ _ _ Has v e E) as [Hvr _]. destruct (Z.leb_spec MAXVA (v * PGSIZE)) as [Hx|_]; [pose proof (mul_range v Hvr); lia|].
    destruct (has PTE_U e) eqn:EU.
    + assert (Hvl : v < lim) by (by apply (Hu v e)).
      assert (Hpp : page (PTE2PA e)).
      { pose proof (vm_rest _ _ _ _ _ _ (as_vm _ _ _ _ _ _ _ _ Has)) as Hr. apply Forall_app in Hr as [Hr _]. rewrite Forall_forall in Hr.
        apply Hr, elem_of_data. by exists v, e. }
      pose proof (page_pos kend Hend _ Hpp). destruct (Z.eqb_spec (PTE2PA e) 0); [lia|].
      exists (PTE2PA e), k, t, um, free. split; [done|]. split; [by apply same_refl|]. split; [apply sees_refl|]. left. split; [done|]. split; [done|]. by exists e.
    + cbn [Z.eqb]. exists 0, k, t, um, free. split; [|split; [by apply same_refl|]; split; [apply sees_refl|]; right; split; [done|]; unfold denied; by rewrite E].
      unfold vmfault. destruct (Z.leb_spec psz (v * PGSIZE)); [done|]. rewrite PGROUNDDOWN_spec, vpn_mul.
      by rewrite (ismapped_um kend Hend lim k root t um free rest (v * PGSIZE) Has (mul_range v Hvr)), vpn_mul, E.
  - replace (if MAXVA <=? v * PGSIZE then 0 else 0) with 0 by (by destruct (MAXVA <=? v * PGSIZE)). cbn [Z.eqb].
    destruct (vmfault_spec k root t um free rest psz v Has Hv Hpsz (or_introl E)) as (pa & k' & t' & free' & -> & Hk & Hres).
    assert (Hkr : keeps (bytes k) (bytes k') rest) by (apply (keeps_sub _ _ _ _ Hk); intros x Hx; apply elem_of_app; by right).
    assert (Hkd : keeps (bytes k) (bytes k') (data um)) by (apply (keeps_sub _ _ _ _ Hk); intros x Hx; apply elem_of_app; by left).
    destruct Hres as [(Hnz & Hvl & Hvp & Hpp & _ & Has' & Ht & Hz)|(-> & Has' & Ht & Hwhy)].
    + destruct (page_pa kend Hend pa Hpp). exists pa, k', t', (<[v := mkpte pa W_U_R]> um), free'. split; [done|]. split; [|split].
      * split; [exact Has' | | by apply insert_subseteq | | done|].
        -- intros w e. destruct (decide (v = w)) as [<-|Hne]; [done|]. rewrite lookup_insert_ne by done. apply Hu.
        -- intros w e. destruct (decide (v = w)) as [<-|Hne]; [|rewrite lookup_insert_ne by done; by left].
           rewrite lookup_insert_eq. intros [= <-]. right. split; [by rewrite has_mkpte | done].
        -- rewrite data_insert by done. destruct (Z.ltb_spec v lim); [|lia]. rewrite mkpte_pa by done. cbn [app].
           rewrite (Permutation_middle (data um)), !(Permutation_app_swap_app _ (data um)). by rewrite Ht.
      * by apply sees_fault.
      * left. split; [done|]. split; [done|]. exists (mkpte pa W_U_R). rewrite lookup_insert_eq, mkpte_pa by done. split; [done|]. split; [|done].
        by rewrite has_mkpte.
    + exists 0, k', t', um, free'. split; [done|]. split; [split; [done | done | done | by left | done|]|split].
      * by rewrite !(Permutation_app_swap_app _ (data um)), Ht.
      * split; [done|]. intros va Hva. by apply ubyte_keeps.
      * right. split; [done|]. unfold denied. by rewrite E.
Qed.

(** ** Into the kernel *)

Lemma chunk_step srcva : 0 <= srcva ->
  let v := srcva / PGSIZE in PGROUNDDOWN srcva = v * PGSIZE /\ srcva - v * PGSIZE = srcva mod PGSIZE /\ srcva = v * PGSIZE + srcva mod PGSIZE.
Proof. intros H v. subst v. rewrite PGROUNDDOWN_spec. destruct (split_va srcva H) as (E & _ & _). lia. Qed.

Lemma copyin_loop_spec root rest psz : psz <= lim * PGSIZE -> forall fuel srcva len dst k t um free,
  aspace k root t um free rest -> users um -> 0 <= srcva -> (Z.to_nat len <= fuel)%nat ->
  exists r n k' t' um' free', copyin_loop kend fuel root psz srcva len dst k = Some (r, dst ++ ubytes (bytes k) um srcva n, k') /\
    same_space root rest psz k t um free k' t' um' free' /\ sees um um' (bytes k) (bytes k') /\ (n = 0%nat \/ srcva + Z.of_nat n <= lim * PGSIZE) /\
    ((r = 0 /\ n = Z.to_nat len) \/ (r = -1 /\ Z.of_nat n < len /\ denied um' free' psz ((srcva + Z.of_nat n) / PGSIZE))).
Proof.
  intros Hpsz fuel. induction fuel as [|fuel IH]; intros srcva len dst k t um free Has Hu Hs Hf; cbn [copyin_loop]; destruct (Z.leb_spec len 0) as [Hle|Hgt]; try lia.
  1,2: exists 0, 0%nat, k, t, um, free; rewrite app_nil_r; split; [done|]; split; [by apply same_refl|]; split; [apply sees_refl|]; split; [by left | left; split; [done | lia]].
  destruct (chunk_step srcva Hs) as (-> & Eo & Es). destruct (split_va srcva Hs) as (_ & Ho & Hv). set (v := srcva / PGSIZE) in *. set (o := srcva mod PGSIZE) in *.
  destruct (user_page_spec k root t um free rest psz v Has Hu Hv Hpsz) as (pa & k1 & t1 & um1 & free1 & -> & Hss & Hse & Hres). cbn [mbind option_bind].
  destruct Hres as [(Hnz & Hvl & e & He & _ & Hpa)|(-> & Hden)].
  - destruct (Z.eqb_spec pa 0) as [|_]; [done|]. rewrite Eo. set (c := Z.min (PGSIZE - o) len). assert (Hc : 0 < c <= PGSIZE - o /\ c <= len) by lia.
    rewrite next_page by lia.
    assert (Ef : fetch (bytes k1) (pa + o) (Z.to_nat c) = ubytes (bytes k) um srcva (Z.to_nat c)).
    { rewrite <- Hpa, (fetch_page _ um1 v) by (done || lia). rewrite <- Es. apply ubytes_ext. intros x Hx. apply (se_byte _ _ _ _ Hse). unfold PGSIZE in *. nia. }
    rewrite Ef. destruct (IH ((v + 1) * PGSIZE) (len - c) (dst ++ ubytes (bytes k) um srcva (Z.to_nat c)) k1 t1 um1 free1) as (r & n & k2 & t2 & um2 & free2 & E & Hss2 & Hse2 & Hn & Hr).
    + apply Hss.
    + apply Hss.
    + unfold PGSIZE. lia.
    + lia.
    + destruct (decide (c = len)) as [Ec|Hne].
      * assert (n = 0%nat) as -> by (destruct Hr as [(_ & ->)|(_ & Hlt & _)]; lia). cbn [ubytes] in E. rewrite app_nil_r in E.
        exists r, (Z.to_nat c), k2, t2, um2, free2. split; [done|]. split; [by eapply same_trans|]. split; [by eapply sees_trans|].
        split; [right; unfold PGSIZE in *; nia|]. destruct Hr as [(-> & _)|(_ & Hlt & _)]; [left; split; [done | lia] | lia].
      * assert (Hcc : srcva + c = (v + 1) * PGSIZE) by lia.
        assert (En : ubytes (bytes k1) um1 ((v + 1) * PGSIZE) n = ubytes (bytes k) um ((v + 1) * PGSIZE) n).
        { apply ubytes_ext. intros x Hx. apply (se_byte _ _ _ _ Hse). destruct Hn as [->|Hn]; [simpl in Hx; lia | unfold PGSIZE in *; lia]. }
        exists r, (Z.to_nat c + n)%nat, k2, t2, um2, free2. rewrite ubytes_app, Z2Nat.id, Hcc, <- En by lia. rewrite app_assoc.
        split; [done|]. split; [by eapply same_trans|]. split; [by eapply sees_trans|]. split.
        -- right. destruct Hn as [->|Hn]; unfold PGSIZE in *; nia.
        -- destruct Hr as [(-> & ->)|(-> & Hlt & Hden)]; [left; split; [done | lia] | right]. split; [done|]. split; [lia|].
           replace (srcva + Z.of_nat (Z.to_nat c + n)) with ((v + 1) * PGSIZE + Z.of_nat n) by lia. done.
  - cbn [Z.eqb]. exists (-1), 0%nat, k1, t1, um1, free1. rewrite app_nil_r. split; [done|]. split; [done|]. split; [done|]. split; [by left|]. right. rewrite Z.add_0_r. split_and!; [done | simpl; lia | done].
Qed.

(** ** Strings *)
Lemma scan_nul_spec bs : let '(l, b) := scan_nul bs in
  NUL ∉ l /\ if b : bool then exists tl, bs = l ++ NUL :: tl else l = bs.
Proof.
  induction bs as [|c bs IH]; cbn [scan_nul]; [split; [by intros ?%elem_of_nil | done]|]. destruct (Ascii.eqb_spec c NUL) as [->|Hne].
  - split; [by intros ?%elem_of_nil | by exists bs].
  - destruct (scan_nul bs) as [l b]. destruct IH as [IH1 IH2]. split; [by intros [?|?]%elem_of_cons|]. destruct b; [destruct IH2 as [tl ->]; by exists tl | by rewrite IH2].
Qed.

Lemma copyinstr_loop_spec root rest psz : psz <= lim * PGSIZE -> forall fuel srcva max dst k t um free,
  aspace k root t um free rest -> users um -> 0 <= srcva -> (Z.to_nat max <= fuel)%nat ->
  exists r n k' t' um' free', copyinstr_loop kend fuel root psz srcva max dst k = Some (r, dst ++ ubytes (bytes k) um srcva n, k') /\
    same_space root rest psz k t um free k' t' um' free' /\ sees um um' (bytes k) (bytes k') /\ (n = 0%nat \/ srcva + Z.of_nat n <= lim * PGSIZE) /\
    NUL ∉ ubytes (bytes k) um srcva n /\
    ((r = 0 /\ Z.of_nat n < max /\ srcva + Z.of_nat n < lim * PGSIZE /\ ubyte (bytes k) um (srcva + Z.of_nat n) = NUL) \/
     (r = -1 /\ n = Z.to_nat max) \/ (r = -1 /\ Z.of_nat n < max /\ denied um' free' psz ((srcva + Z.of_nat n) / PGSIZE))).
Proof.
  intros Hpsz fuel. induction fuel as [|fuel IH]; intros srcva max dst k t um free Has Hu Hs Hf; cbn [copyinstr_loop]; destruct (Z.leb_spec max 0) as [Hle|Hgt]; try lia.
  1,2: exists (-1), 0%nat, k, t, um, free; rewrite app_nil_r; split; [done|]; split; [by apply same_refl|]; split; [apply sees_refl|]; split; [by left|];
    split; [by intros ?%elem_of_nil | right; left; split; [done | lia]].
  destruct (chunk_step srcva Hs) as (-> & Eo & Es). destruct (split_va srcva Hs) as (_ & Ho & Hv). set (v := srcva / PGSIZE) in *. set (o := srcva mod PGSIZE) in *.
  destruct (user_page_spec k root t um free rest psz v Has Hu Hv Hpsz) as (pa & k1 & t1 & um1 & free1 & -> & Hss & Hse & Hres). cbn [mbind option_bind].
  destruct Hres as [(Hnz & Hvl & e & He & _ & Hpa)|(-> & Hden)].
  - destruct (Z.eqb_spec pa 0) as [|_]; [done|]. rewrite Eo. set (c := Z.min (PGSIZE - o) max). assert (Hc : 0 < c <= PGSIZE - o /\ c <= max) by lia.
    rewrite next_page by lia.
    assert (Ef : fetch (bytes k1) (pa + o) (Z.to_nat c) = ubytes (bytes k) um srcva (Z.to_nat c)).
    { rewrite <- Hpa, (fetch_page _ um1 v) by (done || lia). rewrite <- Es. apply ubytes_ext. intros x Hx. apply (se_byte _ _ _ _ Hse). unfold PGSIZE in *. nia. }
    rewrite Ef. pose proof (scan_nul_spec (ubytes (bytes k) um srcva (Z.to_nat c))) as Hsc.
    destruct (scan_nul (ubytes (bytes k) um srcva (Z.to_nat c))) as [l [|]]; destruct Hsc as [Hnul Hl].
    + destruct Hl as [tl Hl]. pose proof (f_equal length Hl) as Hlen. rewrite length_ubytes, length_app in Hlen. simpl in Hlen.
      replace (Z.to_nat c) with (length l + S (length tl))%nat in Hl by lia. rewrite ubytes_app in Hl.
      apply app_inj_1 in Hl as [El Hl]; [|apply length_ubytes]. cbn [ubytes] in Hl. injection Hl as Hnul0 _.
      exists 0, (length l), k1, t1, um1, free1. rewrite El. split; [done|]. split; [done|]. split; [done|]. split; [right; unfold PGSIZE in *; nia|]. split; [done|].
      left. split; [done|]. split; [lia|]. split; [unfold PGSIZE in *; nia | done].
    + subst l.
      destruct (IH ((v + 1) * PGSIZE) (max - c) (dst ++ ubytes (bytes k) um srcva (Z.to_nat c)) k1 t1 um1 free1) as (r & n & k2 & t2 & um2 & free2 & E & Hss2 & Hse2 & Hn & Hnn & Hr);
        [apply Hss | apply Hss | unfold PGSIZE; lia | lia |].
      destruct (decide (c = max)) as [Ec|Hne].
      * assert (n = 0%nat) as -> by (destruct Hr as [(_ & Hlt & _)|[(_ & ->)|(_ & Hlt & _)]]; lia). cbn [ubytes] in E. rewrite app_nil_r in E.
        exists r, (Z.to_nat c), k2, t2, um2, free2. split; [done|]. split; [by eapply same_trans|]. split; [by eapply sees_trans|].
        split; [right; unfold PGSIZE in *; nia|]. split; [done|]. destruct Hr as [(_ & Hlt & _)|[(-> & _)|(_ & Hlt & _)]]; [lia | right; left; split; [done | lia] | lia].
      * assert (Hcc : srcva + c = (v + 1) * PGSIZE) by lia.
        assert (Hby : forall x, (v + 1) * PGSIZE <= x < lim * PGSIZE -> ubyte (bytes k1) um1 x = ubyte (bytes k) um x)
          by (intros x Hx; apply (se_byte _ _ _ _ Hse); unfold PGSIZE in *; lia).
        assert (En : ubytes (bytes k1) um1 ((v + 1) * PGSIZE) n = ubytes (bytes k) um ((v + 1) * PGSIZE) n).
        { apply ubytes_ext. intros x Hx. apply Hby. destruct Hn as [->|Hn]; [simpl in Hx; lia | unfold PGSIZE in *; lia]. }
        exists r, (Z.to_nat c + n)%nat, k2, t2, um2, free2. rewrite ubytes_app, Z2Nat.id, Hcc, <- En by lia. rewrite app_assoc.
        split; [done|]. split; [by eapply same_trans|]. split; [by eapply sees_trans|]. split; [right; destruct Hn as [->|Hn]; unfold PGSIZE in *; nia|].
        split; [intros [?|?]%elem_of_app; done|]. replace (srcva + Z.of_nat (Z.to_nat c + n)) with ((v + 1) * PGSIZE + Z.of_nat n) by lia.
        destruct Hr as [(-> & Hlt & Hb & Hz)|[(-> & ->)|(-> & Hlt & Hden)]]; [left | right; left | right; right].
        -- split; [done|]. split; [lia|]. split; [done|]. by rewrite <- Hby by lia.
        -- split; [done | lia].
        -- split; [done|]. split; [lia | done].
  - cbn [Z.eqb]. exists (-1), 0%nat, k1, t1, um1, free1. rewrite app_nil_r. split; [done|]. split; [done|]. split; [done|]. split; [by left|].
    split; [by intros ?%elem_of_nil|]. right. right. rewrite Z.add_0_r. split_and!; [done | simpl; lia | done].
Qed.

(** ** Out of the kernel *)
Lemma data_inj um v w e e' : NoDup (data um) -> um !! v = Some e -> um !! w = Some e' -> v < lim -> w < lim -> PTE2PA e = PTE2PA e' -> v = w.
Proof.
  intros Hd Hv Hw Hvl Hwl E. destruct (decide (v = w)) as [|Hne]; [done|]. rewrite (data_delete lim um v e Hv) in Hd.
  destruct (Z.ltb_spec v lim); [|lia]. apply NoDup_cons in Hd as [Hn _]. destruct Hn. rewrite E. apply elem_of_data. exists w, e'. by rewrite lookup_delete_ne.
Qed.

(** A write inside of a page of the process. *)
Lemma user_write k root t um free rest v e o bs : aspace k root t um free rest -> um !! v = Some e -> 0 <= v < lim -> 0 <= o -> o + Z.of_nat (length bs) <= PGSIZE ->
  let k' := set_bytes (write (PTE2PA e + o) bs) k in
  aspace k' root t um free rest /\ keeps (bytes k) (bytes k') rest /\
  (forall va, 0 <= va < lim * PGSIZE -> ubyte (bytes k') um va =
     if (v * PGSIZE + o <=? va) && (va <? v * PGSIZE + o + Z.of_nat (length bs)) then nth (Z.to_nat (va - (v * PGSIZE + o))) bs NUL else ubyte (bytes k) um va).
Proof.
  intros Has He Hv Ho Hlen k'. set (p := PTE2PA e). assert (Hp : p ∈ data um) by (apply elem_of_data; exists v, e; split_and!; (done || lia)).
  assert (Hout : forall m x, ~ (p <= x < p + PGSIZE) -> write (p + o) bs m x = m x) by (intros m x Hx; apply write_out; lia).
  pose proof (as_vm _ _ _ _ _ _ _ _ Has) as [_ _ Hpg Hnd]. apply NoDup_app in Hnd as (_ & _ & Hnd). apply NoDup_app in Hnd as (_ & _ & Hnd).
  apply NoDup_app in Hnd as (Hndd & Hdr & _). apply Forall_app in Hpg as [Hpgd Hpgr].
  assert (Hpp : page p) by (rewrite Forall_forall in Hpgd; auto).
  split; [apply (write_page kend Hend lim _ _ _ _ _ _ p); [done | apply elem_of_app; by left | done]|].
  split; [apply (keeps_page kend _ _ p); [done | done | by apply Hdr | by apply Hout]|].
  intros va Hva. destruct (split_va va) as (Eva & Hov & _); [lia|]. pose proof (vpn_lt va Hva) as Hvl. unfold ubyte.
  set (w := va / PGSIZE) in *. set (ow := va mod PGSIZE) in *. destruct (um !! w) as [e'|] eqn:Ew; cycle 1.
  { destruct (decide (v = w)) as [->|Hne]; [congruence|].
    destruct (Z.leb_spec (v * PGSIZE + o) va), (Z.ltb_spec va (v * PGSIZE + o + Z.of_nat (length bs))); try done. exfalso. unfold PGSIZE in *. nia. }
  simpl. fold p. destruct (decide (v = w)) as [Evw|Hne].
  - assert (e' = e) as -> by congruence. fold p. rewrite Evw in *.
    destruct (Z.leb_spec (w * PGSIZE + o) va), (Z.ltb_spec va (w * PGSIZE + o + Z.of_nat (length bs))); simpl; [|rewrite write_out by lia; done ..].
    rewrite write_in by lia. f_equal. lia.
  - replace ((v * PGSIZE + o <=? va) && (va <? v * PGSIZE + o + Z.of_nat (length bs))) with false.
    + apply Hout. assert (Hpe : page (PTE2PA e')) by (rewrite Forall_forall in Hpgd; apply Hpgd, elem_of_data; exists w, e'; split_and!; (done || lia)).
      apply (page_apart kend (PTE2PA e') p); [done | done | | lia]. intros E. apply Hne. apply (data_inj um v w e e'); (done || lia).
    + destruct (Z.leb_spec (v * PGSIZE + o) va), (Z.ltb_spec va (v * PGSIZE + o + Z.of_nat (length bs))); try done. exfalso. unfold PGSIZE in *. nia.
Qed.

(** The memory of the process after [n] bytes of [src] were stored from [dstva]. *)
Definition stored (m m' : ram) (um um' : vmap) (dstva : Z) (src : list ascii) (n : nat) : Prop :=
  forall va, 0 <= va < lim * PGSIZE -> ubyte m' um' va =
    if (dstva <=? va) && (va <? dstva + Z.of_nat n) then nth (Z.to_nat (va - dstva)) src NUL else ubyte m um va.

Definition refused (um : vmap) (free : list Z) (psz v : Z) : Prop :=
  denied um free psz v \/ exists e, um !! v = Some e /\ has PTE_W e = false.

Lemma stored_none m m' um um' dstva src : sees um um' m m' -> stored m m' um um' dstva src 0.
Proof. intros Hse va Hva. rewrite (se_byte _ _ _ _ Hse va Hva). destruct (Z.leb_spec dstva va), (Z.ltb_spec va (dstva + Z.of_nat 0)); (done || lia). Qed.

(** A chunk and what follows it. *)
Lemma stored_app m m1 m2 um um1 um2 dstva src c n : (c <= length src)%nat ->
  stored m m1 um um1 dstva (take c src) c -> stored m1 m2 um1 um2 (dstva + Z.of_nat c) (drop c src) n -> stored m m2 um um2 dstva src (c + n).
Proof.
  intros Hc H1 H2 va Hva. rewrite (H2 va Hva), (H1 va Hva), nth_skipn, nth_firstn.
  destruct (Z.leb_spec (dstva + Z.of_nat c) va), (Z.ltb_spec va (dstva + Z.of_nat c + Z.of_nat n)), (Z.leb_spec dstva va), (Z.ltb_spec va (dstva + Z.of_nat (c + n))),
    (Z.ltb_spec va (dstva + Z.of_nat c)); simpl; try lia; try done.
  - f_equal. lia.
  - destruct (Nat.ltb_spec (Z.to_nat (va - dstva)) c); [done | lia].
Qed.

Lemma copyout_loop_spec root rest psz : psz <= lim * PGSIZE -> forall fuel dstva src k t um free,
  aspace k root t um free rest -> users um -> 0 <= dstva -> (length src <= fuel)%nat ->
  exists r n k' t' um' free', copyout_loop kend fuel root psz dstva src k = Some (r, k') /\
    same_space root rest psz k t um free k' t' um' free' /\ stored (bytes k) (bytes k') um um' dstva src n /\ (n = 0%nat \/ dstva + Z.of_nat n <= lim * PGSIZE) /\
    ((r = 0 /\ n = length src) \/ (r = -1 /\ (n < length src)%nat /\ refused um' free' psz ((dstva + Z.of_nat n) / PGSIZE))).
Proof.
  intros Hpsz fuel. induction fuel as [|fuel IH]; intros dstva src k t um free Has Hu Hs Hf.
  - destruct src; [|simpl in Hf; lia]. exists 0, 0%nat, k, t, um, free. split; [done|]. split; [by apply same_refl|]. split; [apply stored_none, sees_refl|]. split; [by left | by left].
  - destruct src as [|c0 src0]; [exists 0, 0%nat, k, t, um, free; split; [done|]; split; [by apply same_refl|]; split; [apply stored_none, sees_refl|]; split; by left|].
    set (src := c0 :: src0) in *. assert (Hpos : (0 < length src)%nat) by (simpl; lia). cbn [copyout_loop].
    destruct (chunk_step dstva Hs) as (-> & Eo & Es). destruct (split_va dstva Hs) as (_ & Ho & Hv). set (v := dstva / PGSIZE) in *. set (o := dstva mod PGSIZE) in *.
    destruct (Z.leb_spec MAXVA (v * PGSIZE)) as [Hmax|Hmax].
    { exists (-1), 0%nat, k, t, um, free. split; [done|]. split; [by apply same_refl|]. split; [apply stored_none, sees_refl|]. split; [by left|]. right.
      rewrite Z.add_0_r. fold v. split; [done|]. split; [done|]. left. unfold denied. destruct (um !! v) as [e|] eqn:E.
      - destruct (as_valid _ _ _ _ _ _ _ _ Has v e E) as [Hvr _]. pose proof (mul_range v Hvr). lia.
      - left. change MAXVA with (NVPN * PGSIZE) in Hmax. unfold PGSIZE in *. nia. }
    destruct (user_page_spec k root t um free rest psz v Has Hu Hv Hpsz) as (pa & k1 & t1 & um1 & free1 & -> & Hss & Hse & Hres). cbn [mbind option_bind].
    destruct Hres as [(Hnz & Hvl & e & He & _ & Hpa)|(-> & Hden)]; cycle 1.
    { cbn [Z.eqb]. exists (-1), 0%nat, k1, t1, um1, free1. split; [done|]. split; [done|]. split; [by apply stored_none|]. split; [by left|]. right.
      rewrite Z.add_0_r. fold v. split; [done|]. split; [done | by left]. }
    destruct (Z.eqb_spec pa 0) as [|_]; [done|].
    destruct (walk_um kend Hend lim k1 root t1 um1 free1 rest (v * PGSIZE) (ss_space _ _ _ _ _ _ _ _ _ _ _ Hss) ltac:(unfold PGSIZE in *; lia)) as (pte & -> & Hm & _).
    rewrite vpn_mul, He in Hm. destruct Hm as [_ Hpe]. cbn [mbind option_bind]. rewrite Hpe. destruct (has PTE_W e) eqn:EW; cbn [negb]; cycle 1.
    { exists (-1), 0%nat, k1, t1, um1, free1. split; [done|]. split; [done|]. split; [by apply stored_none|]. split; [by left|]. right.
      rewrite Z.add_0_r. fold v. split; [done|]. split; [done|]. right. by exists e. }
    rewrite Eo. set (c := Z.to_nat (Z.min (PGSIZE - o) (Z.of_nat (length src)))). rewrite next_page by lia.
    assert (Hc : (0 < c <= length src)%nat /\ o + Z.of_nat c <= PGSIZE) by lia. assert (Hlt : length (take c src) = c) by (rewrite length_take; lia).
    destruct (user_write k1 root t1 um1 free1 rest v e o (take c src)) as (Has2 & Hk2 & Hb2); [apply Hss | done | lia | lia | lia|]. rewrite Hpa in *.
    set (k2 := set_bytes _ k1) in *. rewrite Hlt, <- Es in Hb2.
    assert (Hst : stored (bytes k) (bytes k2) um um1 dstva (take c src) c) by (intros va Hva; rewrite Hb2 by done; by rewrite (se_byte _ _ _ _ Hse va Hva)).
    assert (Hss2 : same_space root rest psz k t um free k2 t1 um1 free1).
    { eapply same_trans; [exact Hss|]. split; [exact Has2 | apply Hss | done | by left | exact Hk2 | done]. }
    destruct (IH ((v + 1) * PGSIZE) (drop c src) k2 t1 um1 free1) as (r & n & k3 & t3 & um3 & free3 & E3 & Hss3 & Hst3 & Hn3 & Hr);
      [done | apply Hss2 | unfold PGSIZE; lia | rewrite length_drop; lia|]. rewrite length_drop in Hr.
    exists r, (c + n)%nat, k3, t3, um3, free3. split; [exact E3|]. split; [by eapply same_trans|].
    destruct (decide (c = length src)) as [Ec|Hne].
    + assert (n = 0%nat) as -> by (destruct Hr as [[_ ->]|(_ & ? & _)]; lia).
      split; [apply (stored_app _ (bytes k2) _ _ um1); [lia | done|]|split; [right; unfold PGSIZE in *; nia|]].
      * intros va Hva. rewrite (Hst3 va Hva). by destruct (Z.leb_spec ((v + 1) * PGSIZE) va), (Z.ltb_spec va ((v + 1) * PGSIZE + Z.of_nat 0)),
          (Z.leb_spec (dstva + Z.of_nat c) va), (Z.ltb_spec va (dstva + Z.of_nat c + Z.of_nat 0)); simpl; try lia.
      * destruct Hr as [[-> _]|(_ & ? & _)]; [left; split; [done | lia] | lia].
    + assert (Hcc : dstva + Z.of_nat c = (v + 1) * PGSIZE) by lia.
      split; [apply (stored_app _ (bytes k2) _ _ um1); [lia | done | by rewrite Hcc]|]. split; [right; destruct Hn3 as [->|]; unfold PGSIZE in *; nia|].
      destruct Hr as [[-> ->]|(-> & Hlt3 & Href)]; [left; split; [done | lia] | right]. split; [done|]. split; [lia|].
      by replace (dstva + Z.of_nat (c + n)) with ((v + 1) * PGSIZE + Z.of_nat n) by lia.
Qed.

(** C23: [copyout] writes to the memory of the process and nowhere else.  It
    never panics; the bytes it stored are a prefix of [src], all of it when it
    returns 0, and the process sees exactly them from [dstva] on, also where
    the pages were only promised to it; every other byte it sees, and every
    page of other owners, is as before.  It returns -1 only when it reaches a
    page that is not open to the process, is read-only, is beyond its size, or
    cannot be allocated. *)
Theorem copyout_stores root rest psz dstva src k t um free :
  aspace k root t um free rest -> users um -> psz <= lim * PGSIZE -> 0 <= dstva ->
  exists r n k' t' um' free', copyout kend root psz dstva src k = Some (r, k') /\
    aspace k' root t' um' free' rest /\ keeps (bytes k) (bytes k') rest /\
    tables t' ++ data um' ++ free' ≡ₚ tables t ++ data um ++ free /\ um ⊆ um' /\
    (forall va, 0 <= va < lim * PGSIZE -> ubyte (bytes k') um' va =
       if (dstva <=? va) && (va <? dstva + Z.of_nat n) then nth (Z.to_nat (va - dstva)) src NUL else ubyte (bytes k) um va) /\
    ((r = 0 /\ n = length src) \/ (r = -1 /\ (n < length src)%nat /\ refused um' free' psz ((dstva + Z.of_nat n) / PGSIZE))).
Proof.
  intros Has Hu Hpsz Hd. destruct (copyout_loop_spec root rest psz Hpsz (length src) dstva src k t um free Has Hu Hd) as (r & n & k' & t' & um' & free' & E & [H1 _ H3 _ H4 H5] & Hst & _ & Hr); [lia|].
  exists r, n, k', t', um', free'. split_and!; try done.
Qed.

(** [copyin] and [copyinstr] read what the process sees.  Both leave the
    memory the process sees unchanged, although they allocate promised pages.
    [copyin] returns 0 with exactly the [len] bytes from [srcva], or -1 at
    a page it may not read.  [copyinstr] returns 0 with the bytes before the
    first NUL, which lies within the first [max] bytes; otherwise it returns
    -1, because there is no NUL in them or it reached such a page. *)
Theorem copyin_reads root rest psz srcva len k t um free :
  aspace k root t um free rest -> users um -> psz <= lim * PGSIZE -> 0 <= srcva ->
  (exists r n k' t' um' free', copyin kend root psz srcva len k = Some (r, ubytes (bytes k) um srcva n, k') /\
     same_space root rest psz k t um free k' t' um' free' /\ sees um um' (bytes k) (bytes k') /\
     ((r = 0 /\ n = Z.to_nat len) \/ (r = -1 /\ Z.of_nat n < len /\ denied um' free' psz ((srcva + Z.of_nat n) / PGSIZE)))) /\
  (exists r n k' t' um' free', copyinstr kend root psz srcva len k = Some (r, ubytes (bytes k) um srcva n, k') /\
     same_space root rest psz k t um free k' t' um' free' /\ sees um um' (bytes k) (bytes k') /\ NUL ∉ ubytes (bytes k) um srcva n /\
     ((r = 0 /\ Z.of_nat n < len /\ ubyte (bytes k) um (srcva + Z.of_nat n) = NUL) \/
      (r = -1 /\ n = Z.to_nat len) \/ (r = -1 /\ Z.of_nat n < len /\ denied um' free' psz ((srcva + Z.of_nat n) / PGSIZE)))).
Proof.
  intros Has Hu Hpsz Hs. split.
  - destruct (copyin_loop_spec root rest psz Hpsz (Z.to_nat len) srcva len [] k t um free Has Hu Hs) as (r & n & k' & t' & um' & free' & E & H1 & H2 & _ & Hr); [lia|].
    by exists r, n, k', t', um', free'.
  - destruct (copyinstr_loop_spec root rest psz Hpsz (Z.to_nat len) srcva len [] k t um free Has Hu Hs) as (r & n & k' & t' & um' & free' & E & H1 & H2 & _ & Hn & Hr); [lia|].
    exists r, n, k', t', um', free'. split_and!; try done. destruct Hr as [(? & ? & _ & ?)|Hr]; [by left | by right].
Qed.
End User.

Lemma demo_users ps tf : 0 <= tf < 2 ^ 56 -> length ps = 3%nat -> users UVPN (extend 0 ps (Z.lor (Z.lor PTE_R PTE_U) PTE_W) (fixed KERNBASE tf)).
Proof.
  intros Htf Hps v e Hv HU. rewrite extend_lookup, Hps in Hv.
  destruct (Z.leb_spec 0 v), (Z.ltb_spec v (0 + Z.of_nat 3)); cbn [andb] in Hv.
  { apply Z.lt_trans with 3; [lia | done]. }
  all: destruct (decide (v = UVPN)) as [->|Hne];
    [rewrite lookup_insert_eq in Hv; injection Hv as <-; by rewrite has_mkpte in HU | rewrite lookup_insert_ne in Hv by congruence].
  all: destruct (decide (v = VTRAMP)) as [->|Hne2];
    [rewrite lookup_insert_eq in Hv; injection Hv as <-; by rewrite has_mkpte in HU | rewrite lookup_insert_ne in Hv by congruence; by rewrite lookup_empty in Hv].
Qed.

Lemma demo_open ps tf v : length ps = 3%nat -> 0 <= v < 3 ->
  exists e, extend 0 ps (Z.lor (Z.lor PTE_R PTE_U) PTE_W) (fixed KERNBASE tf) !! v = Some e /\ has PTE_U e = true /\ has PTE_W e = true.
Proof.
  intros Hps Hv. destruct (lookup_lt_is_Some_2 ps (Z.to_nat v) ltac:(lia)) as [p Hp].
  exists (mkpte p (Z.lor (Z.lor PTE_R PTE_U) PTE_W)). rewrite extend_lookup, Hps.
  destruct (Z.leb_spec 0 v), (Z.ltb_spec v (0 + Z.of_nat 3)); try lia. cbn [andb]. rewrite Z.sub_0_r, Hp. split; [done|].
  unfold mkpte. rewrite <- Z.lor_assoc. change (Z.lor (Z.lor (Z.lor PTE_R PTE_U) PTE_W) PTE_V) with 0x17.
  split; unfold has; rewrite Z.land_lor_distr_l; apply negb_true_iff, Z.eqb_neq; intros [_ Ez]%Z.lor_eq_0_iff; discriminate.
Qed.

(** Eleven bytes across the end of a page. *)
Lemma copyout_stores_witness : exists k root k' (um' : vmap),
  copyout demo_end root 10000 4090 (str "hello world") k = Some (0, k') /\ ubyte (bytes k') um' 4090 = "h"%char /\ ubyte (bytes k') um' 4100 = "d"%char.
Proof.
  destruct demo_process as (k & root & t & ps & free & tf & Hps & Hlen & Has). assert (He : KERNBASE <= demo_end) by (vm_compute; discriminate).
  assert (Htf : page demo_end tf).
  { pose proof (vm_rest _ _ _ _ _ _ (as_vm _ _ _ _ _ _ _ _ Has)) as Hr. apply Forall_app in Hr as [_ Hr]. apply Forall_cons in Hr as [Hr _]. exact Hr. }
  destruct (page_pa demo_end He tf Htf) as [Htf1 _].
  destruct (copyout_stores demo_end He UVPN Huvpn root [tf] 10000 4090 (str "hello world") k t _ free Has) as (r & n & k' & t' & um' & free' & E & _ & _ & _ & Hmore & Hst & Hr).
  - apply demo_users; [exact Htf1 | exact Hps].
  - apply Z.leb_le. vm_compute. reflexivity.
  - lia.
  - destruct Hr as [(-> & ->)|(_ & Hn & Href)].
    + exists k, root, k', um'. split; [exact E|]. split; (rewrite Hst; [reflexivity | split; [lia | apply Z.ltb_lt; vm_compute; reflexivity]]).
    + exfalso. change (length (str "hello world")) with 11%nat in Hn.
      assert (Hv : 0 <= (4090 + Z.of_nat n) / PGSIZE < 3) by (split; [apply Z.div_pos; [lia | reflexivity] | apply Z.div_lt_upper_bound; [reflexivity | unfold PGSIZE; lia]]).
      destruct (demo_open ps tf _ Hps Hv) as (e & Ee & EU & EW). pose proof (lookup_weaken _ _ _ _ Ee Hmore) as Ee'.
      destruct Href as [Hd|(e' & He' & HW)]; [unfold denied in Hd; rewrite Ee' in Hd; congruence | congruence].
Defined.

Lemma copyin_reads_witness : exists k root n k', copyin demo_end root 10000 4090 11 k = Some (0, ubytes (bytes k) n 4090 11, k').
Proof.
  destruct demo_process as (k & root & t & ps & free & tf & Hps & Hlen & Has). assert (He : KERNBASE <= demo_end) by (vm_compute; discriminate).
  assert (Htf : page demo_end tf).
  { pose proof (vm_rest _ _ _ _ _ _ (as_vm _ _ _ _ _ _ _ _ Has)) as Hr. apply Forall_app in Hr as [_ Hr]. apply Forall_cons in Hr as [Hr _]. exact Hr. }
  destruct (page_pa demo_end He tf Htf) as [Htf1 _].
  destruct (copyin_reads demo_end He UVPN Huvpn root [tf] 10000 4090 11 k t _ free Has) as [(r & n & k' & t' & um' & free' & E & [_ _ Hmore _ _ _] & _ & Hr) _].
  - apply demo_users; [exact Htf1 | exact Hps].
  - apply Z.leb_le. vm_compute. reflexivity.
  - lia.
  - destruct Hr as [(-> & ->)|(_ & Hn & Hd)].
    + eexists k, root, _, k'. exact E.
    + exfalso. assert (Hv : 0 <= (4090 + Z.of_nat n) / PGSIZE < 3) by (split; [apply Z.div_pos; [lia | reflexivity] | apply Z.div_lt_upper_bound; [reflexivity | unfold PGSIZE; lia]]).
      destruct (demo_open ps tf _ Hps Hv) as (e & Ee & EU & _). pose proof (lookup_weaken _ _ _ _ Ee Hmore) as Ee'. unfold denied in Hd. rewrite Ee' in Hd. congruence.
Defined.
