(* ===== verification/Sbrk.v ===== *)
(** * The size of a process (xv6/kernel/sysproc.c: sys_sbrk; proc.c: growproc)

    [sys_sbrk] grows a process eagerly or by a promise, and shrinks it.  The
    address space of a process of size [sz] maps pages below [sz], not
    necessarily all of them, and above them only its trapframe and the
    trampoline. *)
From S2P Require Import Prelude Ram Kalloc Pagetable Vm Space Uvm Uvmfree Usercopy.
Local Open Scope Z_scope.

Section Sbrk.
Context (kend : Z) (Hend : KERNBASE <= kend).
Local Abbreviation aspace := (aspace kend UVPN).
Local Abbreviation data := (data UVPN).

Record pspace (k : kmem) (root : Z) (t : tree) (um : vmap) (free rest : list Z) (sz : Z) : Prop := mkPspace {
  ps_space : aspace k root t um free rest;
  ps_users : users UVPN um;
  ps_size : 0 <= sz <= TRAPFRAME;
  ps_below : forall v e, um !! v = Some e -> v < pages_of sz \/ v = UVPN \/ v = VTRAMP
}.

Lemma pages_limit sz : sz <= TRAPFRAME -> pages_of sz <= UVPN.
Proof. intros H. replace UVPN with (pages_of TRAPFRAME) by done. by apply pages_of_mono. Qed.

Lemma trapframe_limit : TRAPFRAME = UVPN * PGSIZE.
Proof. done. Qed.

(** What the process sees below [a] stays. *)
Definition same_below (m m' : ram) (um um' : vmap) (a : Z) : Prop := forall va, 0 <= va < a -> ubyte m' um' va = ubyte m um va.

Lemma pspace_free k root t um free rest sz w : pspace k root t um free rest sz -> pages_of sz <= w < UVPN -> um !! w = None.
Proof.
  intros Hps Hw. destruct (um !! w) as [e|] eqn:E; [|done]. destruct (ps_below _ _ _ _ _ _ _ Hps w e E) as [|[->| ->]]; [lia | lia|].
  assert (UVPN < VTRAMP) by done. lia.
Qed.

(** The entries above the old size, and all others as they were. *)
Definition grown_map (um um' : vmap) (sz newsz perm : Z) : Prop :=
  (forall w, pages_of sz <= w < pages_of newsz -> exists p, page kend p /\ um' !! w = Some (mkpte p perm)) /\
  (forall w, ~ (pages_of sz <= w < pages_of newsz) -> um' !! w = um !! w).

(** Growing eagerly, with any permissions. *)
Lemma grow_perm k root t um free rest sz n xperm : pspace k root t um free rest sz -> 0 <= n -> sz + n <= TRAPFRAME ->
  0 <= Z.lor (Z.lor PTE_R PTE_U) xperm < 1024 ->
  exists r k' t' um' free', uvmalloc kend root sz (sz + n) xperm k = Some (r, k') /\ keeps (bytes k) (bytes k') rest /\
    tables t' ++ data um' ++ free' ≡ₚ tables t ++ data um ++ free /\ same_below (bytes k) (bytes k') um um' TRAPFRAME /\
    ((r = sz + n /\ pspace k' root t' um' free' rest (sz + n) /\ grown_map um um' sz (sz + n) (Z.lor (Z.lor PTE_R PTE_U) xperm) /\
        Z.of_nat (length free) <= Z.of_nat (length free') + 3 * (pages_of (sz + n) - pages_of sz)) \/
     (r = 0 /\ um' = um /\ pspace k' root t' um' free' rest sz /\ Z.of_nat (length free) < 3 * (pages_of (sz + n) - pages_of sz))).
Proof.
  intros Hps Hn Hlim Hperm. pose proof Hps as [Has Hu Hsz Hb]. pose proof (pages_limit (sz + n) Hlim) as Hpl.
  destruct (uvmalloc_spec kend Hend UVPN Huvpn k root t um free rest sz (sz + n) xperm Has) as (r & k' & t' & free' & E & Hk & Hres); [lia | done | done | |].
  { intros w Hw. apply (pspace_free k root t um free rest sz w Hps). lia. }
  assert (Hkr : keeps (bytes k) (bytes k') rest) by (apply (keeps_sub _ _ _ _ Hk); intros x Hx; apply elem_of_app; by right).
  assert (Hkd : keeps (bytes k) (bytes k') (data um)) by (apply (keeps_sub _ _ _ _ Hk); intros x Hx; apply elem_of_app; by left).
  pose proof (pages_of_mono sz (sz + n) ltac:(lia)) as Hm.
  destruct Hres as [(ps & -> & Hlen & Hz & Has' & Htot & Henough)|(-> & Has' & Htot & Hshort)].
  - set (um' := extend _ _ _ _) in *.
    assert (Hpg : Forall (page kend) ps).
    { assert (Hall : Forall (page kend) (tables t' ++ ps ++ free')).
      { rewrite Htot. apply Forall_app. split; [apply (pt_pages _ _ _ _ (vm_pt _ _ _ _ _ _ (as_vm _ _ _ _ _ _ _ _ Has))) | apply (vm_kmem _ _ _ _ _ _ (as_vm _ _ _ _ _ _ _ _ Has))]. }
      apply Forall_app in Hall as [_ Hall]. by apply Forall_app in Hall as [? _]. }
    assert (Hlook : forall w, um' !! w = if (pages_of sz <=? w) && (w <? pages_of (sz + n)) then (fun p => mkpte p (Z.lor (Z.lor PTE_R PTE_U) xperm)) <$> ps !! Z.to_nat (w - pages_of sz) else um !! w).
    { intros w. unfold um'. rewrite extend_lookup. by replace (pages_of sz + Z.of_nat (length ps)) with (pages_of (sz + n)) by lia. }
    exists (sz + n), k', t', um', free'. split; [done|]. split; [done|]. split; [|split].
    + unfold um'. rewrite (data_extend kend Hend UVPN) by (done || lia || (intros w Hw; apply (pspace_free k root t um free rest sz w Hps); lia)).
      rewrite <- app_assoc, (Permutation_app_swap_app ps (data um)), !(Permutation_app_swap_app _ (data um)). by rewrite Htot.
    + intros va Hva. rewrite trapframe_limit in Hva. unfold ubyte. rewrite Hlook. pose proof (vpn_lt UVPN va Hva) as Hvl.
      destruct (Z.leb_spec (pages_of sz) (va / PGSIZE)), (Z.ltb_spec (va / PGSIZE) (pages_of (sz + n))); simpl;
        try (apply (ubyte_keeps UVPN (bytes k) (bytes k') um va Hva Hkd)).
      destruct (lookup_lt_is_Some_2 ps (Z.to_nat (va / PGSIZE - pages_of sz)) ltac:(lia)) as [p Hp]. rewrite Hp. simpl.
      rewrite (pspace_free k root t um free rest sz _ Hps) by lia. pose proof (list_elem_of_lookup_2 _ _ _ Hp) as Hin.
      rewrite Forall_forall in Hpg. destruct (page_pa kend Hend p (Hpg p Hin)). rewrite mkpte_pa by done.
      destruct (split_va va) as (_ & Ho & _); [lia|]. apply (Hz p); [done | lia].
    + left. split; [done|]. split; [|split; [split|lia]].
      2: { intros w Hw. destruct (lookup_lt_is_Some_2 ps (Z.to_nat (w - pages_of sz)) ltac:(lia)) as [p Hp]. exists p.
        split; [rewrite Forall_forall in Hpg; by apply Hpg, (list_elem_of_lookup_2 _ _ _ Hp)|]. rewrite Hlook, Hp.
        destruct (Z.leb_spec (pages_of sz) w), (Z.ltb_spec w (pages_of (sz + n))); simpl; (done || lia). }
      2: { intros w Hw. rewrite Hlook. destruct (Z.leb_spec (pages_of sz) w), (Z.ltb_spec w (pages_of (sz + n))); simpl; (done || lia). }
      split; [done | | lia|].
      * intros v e. rewrite Hlook. destruct (Z.leb_spec (pages_of sz) v), (Z.ltb_spec v (pages_of (sz + n))); simpl; intros Hv HU; try (by apply (Hu v e)). lia.
      * intros v e. rewrite Hlook. destruct (Z.leb_spec (pages_of sz) v), (Z.ltb_spec v (pages_of (sz + n))); simpl; intros Hv; try (destruct (Hb v e Hv); [left; lia | by right]). left. lia.
  - exists 0, k', t', um, free'. split; [done|]. split; [done|]. split; [by rewrite !(Permutation_app_swap_app _ (data um)), Htot|].
    split; [intros va Hva; by apply (ubyte_keeps UVPN)|]. right. split; [done|]. split; [done|]. split; [by split|]. lia.
Qed.

Lemma grow_spec k root t um free rest sz n : pspace k root t um free rest sz -> 0 < n -> sz + n <= TRAPFRAME ->
  exists r k' t' um' free', uvmalloc kend root sz (sz + n) PTE_W k = Some (r, k') /\ keeps (bytes k) (bytes k') rest /\
    tables t' ++ data um' ++ free' ≡ₚ tables t ++ data um ++ free /\ same_below (bytes k) (bytes k') um um' TRAPFRAME /\
    ((r = sz + n /\ pspace k' root t' um' free' rest (sz + n)) \/ (r = 0 /\ um' = um /\ pspace k' root t' um' free' rest sz)).
Proof.
  intros Hps Hn Hlim. destruct (grow_perm k root t um free rest sz n PTE_W Hps ltac:(lia) Hlim ltac:(by split))
    as (r & k' & t' & um' & free' & E & Hk & Htot & Hs & Hres). exists r, k', t', um', free'. split_and!; try done.
  destruct Hres as [(-> & Hp & _)|(-> & -> & Hp & _)]; [by left | by right].
Qed.

(** Shrinking. *)
Lemma shrink_spec k root t um free rest sz newsz : pspace k root t um free rest sz -> 0 <= newsz < sz ->
  exists k' um' free', uvmdealloc kend root sz newsz k = Some (newsz, k') /\ keeps (bytes k) (bytes k') rest /\
    tables t ++ data um' ++ free' ≡ₚ tables t ++ data um ++ free /\ same_below (bytes k) (bytes k') um um' newsz /\ pspace k' root t um' free' rest newsz.
Proof.
  intros Hps Hn. pose proof Hps as [Has Hu Hsz Hb]. pose proof (pages_limit sz ltac:(lia)) as Hpl.
  destruct (uvmdealloc_spec kend Hend UVPN Huvpn root t rest um k free sz newsz Has ltac:(lia) Hpl) as (k' & free' & E & Has' & Htot & Hk).
  set (um' := hide _ _ _) in *. pose proof (pages_of_mono newsz sz ltac:(lia)) as Hm.
  assert (Hlook : forall w, um' !! w = if (pages_of newsz <=? w) && (w <? pages_of sz) then None else um !! w).
  { intros w. unfold um'. rewrite hide_lookup. by replace (pages_of newsz + (pages_of sz - pages_of newsz)) with (pages_of sz) by lia. }
  exists k', um', free'. split; [done|]. split; [apply (keeps_sub _ _ _ _ Hk); intros x Hx; apply elem_of_app; by right|]. split; [by rewrite Htot|]. split.
  - intros va Hva. rewrite trapframe_limit in Hsz. assert (Hva2 : 0 <= va < UVPN * PGSIZE) by lia.
    rewrite (ubyte_keeps UVPN (bytes k) (bytes k') um' va Hva2); [|apply (keeps_sub _ _ _ _ Hk); intros x Hx; apply elem_of_app; by left].
    unfold ubyte. rewrite Hlook. replace (pages_of newsz <=? va / PGSIZE) with false; [done|]. symmetry. apply Z.leb_gt, pages_of_lt.
    destruct (split_va va) as (Ev & Ho & _); lia.
  - split; [done | | lia|].
    + intros v e. rewrite Hlook. destruct (_ && _); [done | apply Hu].
    + intros v e. rewrite Hlook. destruct (Z.leb_spec (pages_of newsz) v), (Z.ltb_spec v (pages_of sz)); simpl; intros Hv; try done; destruct (Hb v e Hv) as [?|?]; (by right) || (left; lia).
Qed.

(** C34: [sys_sbrk] keeps the address space of the process in order.  It
    returns the old size and moves the size by [n], or returns -1 and leaves
    the size and the mappings alone; a request to shrink below zero returns
    the old size and does nothing.  The new size never exceeds the trapframe,
    nothing is mapped above it but the trapframe and the trampoline, the
    process still sees every byte below the smaller of the two sizes as it
    was, and no page is lost, whether the memory is allocated or only
    promised. *)
Theorem sbrk_keeps_space k root t um free rest sz n mode :
  pspace k root t um free rest sz -> in_i32 n ->
  exists r sz' k' t' um' free', sys_sbrk kend root sz n mode k = Some (r, sz', k') /\ pspace k' root t' um' free' rest sz' /\
    ((r = sz /\ sz' = (if 0 <=? sz + n then sz + n else sz)) \/ (r = -1 /\ sz' = sz /\ um' = um /\ 0 < n)) /\
    (forall va, 0 <= va < Z.min sz sz' -> ubyte (bytes k') um' va = ubyte (bytes k) um va) /\
    keeps (bytes k) (bytes k') rest /\ tables t' ++ data um' ++ free' ≡ₚ tables t ++ data um ++ free.
Proof.
  intros Hps Hn. pose proof (ps_size _ _ _ _ _ _ _ Hps) as Hsz. unfold in_i32 in Hn. change TRAPFRAME with 274877898752 in Hsz. unfold sys_sbrk, growproc.
  assert (Hu64 : 0 <= sz + n -> u64 (sz + n) = sz + n) by (intros H; apply Z.mod_small; lia).
  destruct ((mode =? SBRK_EAGER) || (n <? 0)) eqn:Em.
  - destruct (Z.ltb_spec 0 n) as [Hpos|Hneg].
    + rewrite Hu64 by lia. destruct (Z.ltb_spec TRAPFRAME (sz + n)) as [Hbig|Hok].
      * cbn [mbind option_bind]. exists (-1), sz, k, t, um, free. split; [done|]. split; [done|]. split; [by right|]. split_and!; try done.
      * destruct (grow_spec k root t um free rest sz n Hps Hpos Hok) as (r & k' & t' & um' & free' & -> & Hk & Htot & Hsame & Hres). cbn [mbind option_bind].
        assert (Hb : forall va, 0 <= va < sz -> ubyte (bytes k') um' va = ubyte (bytes k) um va) by (intros va Hva; apply Hsame; change TRAPFRAME with 274877898752; lia).
        destruct Hres as [(-> & Hps')|(-> & -> & Hps')].
        -- destruct (Z.eqb_spec (sz + n) 0); [lia|]. cbn [mbind option_bind]. exists sz, (sz + n), k', t', um', free'. split; [done|]. split; [done|].
           split; [left; split; [done|]; destruct (Z.leb_spec 0 (sz + n)); [done | lia]|]. split_and!; try done. intros va Hva. apply Hb. lia.
        -- cbn [Z.eqb mbind option_bind]. exists (-1), sz, k', t', um, free'. split; [done|]. split; [done|]. split; [by right|]. split_and!; try done. intros va Hva. apply Hb. lia.
    + destruct (Z.ltb_spec n 0) as [Hlt|Hz].
      * destruct (Z.leb_spec 0 (sz + n)) as [Hge|Hwrap].
        -- rewrite Hu64 by lia. destruct (shrink_spec k root t um free rest sz (sz + n) Hps ltac:(lia)) as (k' & um' & free' & -> & Hk & Htot & Hsame & Hps'). cbn [mbind option_bind].
           exists sz, (sz + n), k', t, um', free'. split; [done|]. split; [done|]. split; [by left|]. split_and!; try done. intros va Hva. apply Hsame. lia.
        -- assert (Hbig : sz <= u64 (sz + n)) by (unfold u64; rewrite <- (Z_mod_plus_full (sz + n) 1), Z.mod_small; lia).
           unfold uvmdealloc. destruct (Z.leb_spec sz (u64 (sz + n))); [|lia]. cbn [mbind option_bind].
           exists sz, sz, k, t, um, free. split; [done|]. split; [done|]. split; [by left|]. split_and!; try done.
      * assert (n = 0) as -> by lia. cbn [mbind option_bind]. rewrite Z.add_0_r. destruct (Z.leb_spec 0 sz); [|lia].
        exists sz, sz, k, t, um, free. split; [done|]. split; [done|]. split; [by left|]. split_and!; try done.
  - apply orb_false_iff in Em as [_ Hn0%Z.ltb_ge]. rewrite Hu64 by lia. destruct (Z.ltb_spec (sz + n) sz); [lia|].
    destruct (Z.ltb_spec TRAPFRAME (sz + n)) as [Hbig|Hok].
    + change TRAPFRAME with 274877898752 in Hbig. exists (-1), sz, k, t, um, free. split; [done|]. split; [done|]. split; [right; split_and!; (done || lia)|]. split_and!; try done.
    + exists sz, (sz + n), k, t, um, free. split; [done|]. split; [|split; [left; split; [done|]; destruct (Z.leb_spec 0 (sz + n)); [done | lia]|split_and!; try done]].
      pose proof Hps as [Has Hu Hs Hb]. pose proof (pages_of_mono sz (sz + n) ltac:(lia)). split; [done | done | lia|].
      intros v e Hv. destruct (Hb v e Hv); [left; lia | by right].
Qed.
End Sbrk.

(** The process of [demo_process] has size 10000. *)
Lemma demo_open_space : exists k root t um free tf, (17 <= length free)%nat /\ pspace demo_end k root t um free [tf] 10000 /\
  forall v, 0 <= v < 3 -> exists e, um !! v = Some e /\ has PTE_U e = true /\ has PTE_W e = true.
Proof.
  destruct demo_process as (k & root & t & ps & free & tf & Hps & Hl & Has). assert (He : KERNBASE <= demo_end) by (vm_compute; discriminate).
  eexists k, root, t, _, free, tf. split; [exact Hl|]. split; [|intros v Hv; by apply demo_open]. split; [exact Has | | done|].
  - apply demo_users; [|done]. pose proof (vm_rest _ _ _ _ _ _ (as_vm _ _ _ _ _ _ _ _ Has)) as Hr. apply Forall_app in Hr as [_ [Htf _]%Forall_cons].
    by destruct (page_pa demo_end He tf Htf).
  - intros v e Hv. rewrite extend_lookup, Hps in Hv. destruct (Z.leb_spec 0 v), (Z.ltb_spec v (0 + Z.of_nat 3)); cbn [andb] in Hv;
      [left; change (pages_of 10000) with 3; lia | right ..];
      (destruct (decide (v = UVPN)) as [->|Hne]; [by left | right]; rewrite lookup_insert_ne in Hv by congruence;
       destruct (decide (v = VTRAMP)) as [->|Hne2]; [done | rewrite lookup_insert_ne in Hv by congruence; by rewrite lookup_empty in Hv]).
Qed.

Lemma demo_pspace : exists k root t um free tf, (17 <= length free)%nat /\ pspace demo_end k root t um free [tf] 10000.
Proof. destruct demo_open_space as (k & root & t & um & free & tf & Hl & Hps & _). by exists k, root, t, um, free, tf. Qed.

Lemma sbrk_keeps_space_witness : exists k root r sz' k', sys_sbrk demo_end root 10000 (-5000) SBRK_EAGER k = Some (r, sz', k') /\ r = 10000 /\ sz' = 5000.
Proof.
  destruct demo_pspace as (k & root & t & um & free & tf & _ & Hps). assert (He : KERNBASE <= demo_end) by (vm_compute; discriminate).
  destruct (sbrk_keeps_space demo_end He k root t um free [tf] 10000 (-5000) SBRK_EAGER Hps) as (r & sz' & k' & t' & um' & free' & E & _ & Hr & _).
  - split; lia.
  - destruct Hr as [(-> & ->)|(_ & _ & _ & Hn)]; [|lia]. exists k, root, 10000, 5000, k'. split; [exact E | split; reflexivity].
Defined.
