(* ===== verification/Grep.v ===== *)
(** * The pattern matcher of grep (xv6/user/grep.c)

    The matcher of Kernighan and Pike, against a description of patterns as
    lists of items, and the loop that cuts what it reads into lines. *)
From S2P Require Import Prelude.

(** ** The matcher *)

(** The loop of [matchstar], over the rest of the pattern. *)
Fixpoint matchstar (here : cstr -> bool) (c : ascii) (text : cstr) : bool :=
  if here text then true
  else match text with
       | [] => false
       | x :: text' => if Ascii.eqb x c || Ascii.eqb c "."%char then matchstar here c text' else false
       end.

Fixpoint matchhere (re : cstr) (text : cstr) {struct re} : bool :=
  match re with
  | [] => true
  | c :: re1 =>
      match re1 with
      | c1 :: re2 =>
          if Ascii.eqb c1 "*"%char then matchstar (matchhere re2) c text
          else match text with
               | x :: text' => if Ascii.eqb c "."%char || Ascii.eqb c x then matchhere re1 text' else false
               | [] => false
               end
      | [] =>
          if Ascii.eqb c "$"%char then match text with [] => true | _ => false end
          else match text with
               | x :: text' => if Ascii.eqb c "."%char || Ascii.eqb c x then matchhere re1 text' else false
               | [] => false
               end
      end
  end.

(** The loop of [match]. *)
Fixpoint match_loop (re text : cstr) : bool :=
  if matchhere re text then true
  else match text with [] => false | _ :: text' => match_loop re text' end.

Definition match_ (re text : cstr) : bool :=
  match re with
  | c :: re1 => if Ascii.eqb c "^"%char then matchhere re1 text else match_loop re text
  | [] => match_loop re text
  end.

(** ** What a pattern means *)
Inductive item := One (c : ascii) | Many (c : ascii) | End.

Fixpoint parse (re : cstr) : list item :=
  match re with
  | [] => []
  | c :: re1 =>
      match re1 with
      | c1 :: re2 => if Ascii.eqb c1 "*"%char then Many c :: parse re2 else One c :: parse re1
      | [] => if Ascii.eqb c "$"%char then [End] else [One c]
      end
  end.

Definition accepts (c x : ascii) : Prop := c = "."%char \/ c = x.

(** [word its s rest]: the items match the string [s], before [rest]. *)
Inductive word : list item -> cstr -> cstr -> Prop :=
  | word_nil rest : word [] [] rest
  | word_one c x its s rest : accepts c x -> word its s rest -> word (One c :: its) (x :: s) rest
  | word_many c xs its s rest : Forall (accepts c) xs -> word its s rest -> word (Many c :: its) (xs ++ s) rest
  | word_end : word [End] [] [].

Definition prefix_matches (its : list item) (text : cstr) : Prop := exists s rest, text = s ++ rest /\ word its s rest.

Lemma accepts_eqb c x : Ascii.eqb c "."%char || Ascii.eqb c x = true <-> accepts c x.
Proof. unfold accepts. rewrite orb_true_iff, !Ascii.eqb_eq. done. Qed.

Lemma one_step c its text : prefix_matches (One c :: its) text <->
  match text with x :: text' => accepts c x /\ prefix_matches its text' | [] => False end.
Proof.
  split.
  - intros (s & rest & -> & H). inversion H; subst. split; [done|]. by eexists _, _.
  - destruct text as [|x text]; [done|]. intros (Ha & s & rest & -> & H). exists (x :: s), rest. split; [done | by constructor].
Qed.

Lemma many_step c its text : prefix_matches (Many c :: its) text <->
  prefix_matches its text \/ match text with x :: text' => accepts c x /\ prefix_matches (Many c :: its) text' | [] => False end.
Proof.
  split.
  - intros (s & rest & -> & H). inversion H as [| |? xs ? s' ? Hxs Hw|]; subst. destruct xs as [|x xs]; [left; by exists s', rest|]. right. simpl.
    apply Forall_cons in Hxs as [Hx Hxs]. split; [done|]. exists (xs ++ s'), rest. split; [done | by constructor].
  - intros [(s & rest & -> & H)|Hx].
    + exists s, rest. split; [done|]. by apply (word_many c []).
    + destruct text as [|x text]; [done|]. destruct Hx as (Ha & s & rest & -> & H). inversion H as [| |? xs ? s' ? Hxs Hw|]; subst.
      exists ((x :: xs) ++ s'), rest. split; [done|]. by constructor; [constructor|].
Qed.

Lemma end_step text : prefix_matches [End] text <-> text = [].
Proof.
  split; [intros (s & rest & -> & H); by inversion H | intros ->; exists [], []; by split; [|constructor]].
Qed.

Lemma matchstar_spec here c its : (forall text, here text = true <-> prefix_matches its text) ->
  forall text, matchstar here c text = true <-> prefix_matches (Many c :: its) text.
Proof.
  intros Hh. induction text as [|x text IH]; cbn [matchstar]; rewrite many_step, <- Hh.
  - destruct (here []); split; try done; [by left | by intros [?|?]].
  - destruct (here (x :: text)); [split; [by left | done]|]. rewrite <- IH, <- accepts_eqb, orb_comm, (Ascii.eqb_sym x c).
    destruct (Ascii.eqb c "."%char || Ascii.eqb c x); split; try done; [by right | by intros [?|[_ ?]] | by intros [?|[? _]]].
Qed.

Lemma matchhere_spec re : forall text, matchhere re text = true <-> prefix_matches (parse re) text.
Proof.
  induction re as [re IH] using (induction_ltof1 _ (@length ascii)). unfold ltof in IH. intros text. destruct re as [|c [|c1 re2]]; cbn [matchhere parse].
  - split; [intros _; exists [], text; by split; [|constructor] | done].
  - destruct (Ascii.eqb c "$"%char); [rewrite end_step; by destruct text|]. rewrite one_step. destruct text as [|x text]; [done|].
    rewrite <- accepts_eqb. destruct (Ascii.eqb c "."%char || Ascii.eqb c x); [|by split; [|intros [? _]]].
    split; [intros _; split; [done|]; exists [], text; by split; [|constructor] | done].
  - destruct (Ascii.eqb c1 "*"%char).
    + apply matchstar_spec. apply IH. simpl. lia.
    + rewrite one_step. destruct text as [|x text]; [done|]. rewrite <- accepts_eqb, <- (IH (c1 :: re2)) by (simpl; lia).
      destruct (Ascii.eqb c "."%char || Ascii.eqb c x); split; [done | by intros [_ ?] | done | by intros [? _]].
Qed.

Lemma match_loop_spec re text : match_loop re text = true <-> exists pre rest, text = pre ++ rest /\ prefix_matches (parse re) rest.
Proof.
  induction text as [|x text IH]; cbn [match_loop].
  - destruct (matchhere re []) eqn:E; [split; [intros _; exists [], []; by rewrite <- matchhere_spec | done]|].
    split; [done|]. intros (pre & rest & Ht & H). symmetry in Ht. apply app_nil in Ht as [_ ->]. apply matchhere_spec in H. congruence.
  - destruct (matchhere re (x :: text)) eqn:E; [split; [intros _; exists [], (x :: text); by rewrite <- matchhere_spec | done]|].
    rewrite IH. split.
    + intros (pre & rest & -> & H). by exists (x :: pre), rest.
    + intros ([|y pre] & rest & Ht & H); simpl in Ht; [subst rest; apply matchhere_spec in H; congruence|]. injection Ht as -> ->. by exists pre, rest.
Qed.

(** ** The loop over the input *)

(** [strchr(p, '\n')] in the bytes that are left before the terminator of the
    buffer: the bytes before it and after it. *)
Fixpoint find_newline (p : cstr) : option (cstr * cstr) :=
  match p with
  | [] => None
  | c :: p' =>
      if Ascii.eqb c NUL then None
      else if Ascii.eqb c LF then Some ([], p')
      else match find_newline p' with Some (l, r) => Some (c :: l, r) | None => None end
  end.

(** The inner loop: what is written, and what is left from [p]. *)
Fixpoint lines_loop (fuel : nat) (pattern p : cstr) : cstr * cstr :=
  match fuel with
  | O => ([], p)
  | S fuel' =>
      match find_newline p with
      | Some (l, r) =>
          let '(out, rst) := lines_loop fuel' pattern r in
          ((if match_ pattern l then l ++ [LF] else []) ++ out, rst)
      | None => ([], p)
      end
  end.

(** [read(fd, buf + m, sizeof(buf) - m - 1)]: the kernel gives at least one
    byte when there are some and room is left, [hint] decides how many. *)
Definition read_some (hint space : nat) (data : cstr) : cstr * cstr :=
  let n := Nat.min (S hint) (Nat.min space (length data)) in (take n data, drop n data).

(** [buf] is the first [m] bytes of the buffer. *)
Fixpoint grep_loop (fuel : nat) (pattern : cstr) (hints : nat -> nat) (data buf : cstr) : cstr :=
  match fuel with
  | O => []
  | S fuel' =>
      let '(got, data') := read_some (hints fuel) (1024 - length buf - 1) data in
      match got with
      | [] => []
      | _ =>
          let '(out, rst) := lines_loop (S (length (buf ++ got))) pattern (buf ++ got) in
          out ++ grep_loop fuel' pattern hints data' rst
      end
  end.

Definition grep (pattern : cstr) (hints : nat -> nat) (data : cstr) : cstr := grep_loop (S (length data)) pattern hints data [].

(** The lines of the input that are ended, and what follows them. *)
Fixpoint cut (data : cstr) : list cstr * cstr :=
  match data with
  | [] => ([], [])
  | c :: data' =>
      let '(ls, r) := cut data' in
      if Ascii.eqb c LF then ([] :: ls, r) else match ls with l :: ls' => ((c :: l) :: ls', r) | [] => ([], c :: r) end
  end.

Definition select (pattern : cstr) (ls : list cstr) : cstr := mjoin ((fun l => if match_ pattern l then l ++ [LF] else []) <$> ls).

(** The buffer can hold the lines. *)
Definition fits (d : list cstr * cstr) : Prop := Forall (fun l => (length l <= 1022)%nat) d.1 /\ (length d.2 <= 1022)%nat.

Lemma find_newline_cut p : NUL ∉ p -> match find_newline p with
  | Some (l, r) => cut p = (l :: (cut r).1, (cut r).2) /\ (length r < length p)%nat /\ NUL ∉ r
  | None => cut p = ([], p)
  end.
Proof.
  induction p as [|c p IH]; intros Hn; cbn [find_newline cut]; [done|]. apply not_elem_of_cons in Hn as [Hc Hn]. specialize (IH Hn).
  destruct (Ascii.eqb_spec c NUL) as [->|_]; [done|]. destruct (Ascii.eqb_spec c LF) as [->|Hl]; [destruct (cut p); split_and!; [done | simpl; lia | done]|].
  destruct (find_newline p) as [[l r]|]; [destruct IH as (-> & ? & ?); split_and!; [done | simpl; lia | done] | by rewrite IH].
Qed.

Lemma lines_loop_cut pattern fuel : forall p, NUL ∉ p -> (length p < fuel)%nat -> lines_loop fuel pattern p = (select pattern (cut p).1, (cut p).2).
Proof.
  induction fuel as [|fuel IH]; intros p Hn Hf; cbn [lines_loop]; [lia|]. pose proof (find_newline_cut p Hn) as H.
  destruct (find_newline p) as [[l r]|]; [destruct H as (-> & ? & ?); rewrite IH by (done || lia); done | by rewrite H].
Qed.

Lemma cut_app a b : cut (a ++ b) = ((cut a).1 ++ (cut ((cut a).2 ++ b)).1, (cut ((cut a).2 ++ b)).2).
Proof.
  induction a as [|c a IH]; simpl; [by destruct (cut b)|]. rewrite IH. destruct (cut a) as [ls r]. simpl.
  destruct (Ascii.eqb c LF) eqn:Ec; simpl; [done|]. destruct ls as [|l ls]; simpl; [|done]. rewrite Ec. by destruct (cut (r ++ b)) as [[|l' ls'] r'].
Qed.

Lemma cut_rest a : LF ∉ (cut a).2.
Proof.
  induction a as [|c a IH]; simpl; [by intros ?%elem_of_nil|]. destruct (cut a) as [ls r]. destruct (Ascii.eqb_spec c LF) as [|Hc]; [done|].
  destruct ls; simpl; [|done]. by apply not_elem_of_cons.
Qed.

Lemma cut_sub a x : x ∈ (cut a).2 -> x ∈ a.
Proof.
  induction a as [|c a IH]; simpl; [done|]. destruct (cut a) as [ls r]. simpl in IH. destruct (Ascii.eqb c LF); [intros; right; by apply IH|].
  destruct ls; simpl; [|intros; right; by apply IH]. intros [->|?]%elem_of_cons; [left | right; by apply IH].
Qed.

Lemma cut_open buf data : LF ∉ buf -> cut (buf ++ data) = match cut data with (l :: ls, r) => ((buf ++ l) :: ls, r) | ([], r) => ([], buf ++ r) end.
Proof.
  induction buf as [|c buf IH]; simpl; [by destruct (cut data) as [[|l ls] r]|]. intros [Hc Hb]%not_elem_of_cons. rewrite IH by done.
  destruct (Ascii.eqb_spec c LF); [done|]. by destruct (cut data) as [[|l ls] r].
Qed.

(** What is in the buffer is shorter than the line it is part of. *)
Lemma buffered_fits buf data : LF ∉ buf -> fits (cut (buf ++ data)) -> (length buf <= 1022)%nat.
Proof.
  intros Hb. rewrite cut_open by done. destruct (cut data) as [[|l ls] r]; intros [H1 H2]; simpl in *.
  - rewrite length_app in H2. lia.
  - apply Forall_cons in H1 as [H1 _]. rewrite length_app in H1. lia.
Qed.

Lemma select_app pattern l1 l2 : select pattern (l1 ++ l2) = select pattern l1 ++ select pattern l2.
Proof. unfold select. by rewrite fmap_app, join_app. Qed.

Lemma grep_loop_spec pattern hints fuel : forall data buf, NUL ∉ buf ++ data -> LF ∉ buf -> fits (cut (buf ++ data)) -> (length data < fuel)%nat ->
  grep_loop fuel pattern hints data buf = select pattern (cut (buf ++ data)).1.
Proof.
  induction fuel as [|fuel IH]; intros data buf Hn Hl Hfit Hf; [lia|]. cbn [grep_loop]. pose proof (buffered_fits buf data Hl Hfit) as Hbuf.
  unfold read_some. set (n := Nat.min _ _). destruct data as [|d data].
  - rewrite take_nil, app_nil_r. rewrite <- (app_nil_r buf), cut_open by done. simpl. done.
  - assert (Hn1 : (1 <= n <= length (d :: data))%nat) by (unfold n; cbn [length]; lia). set (dd := d :: data) in *.
    assert (E : take n dd ++ drop n dd = dd) by apply take_drop. destruct (take n dd) as [|g got] eqn:Eg.
    + apply (f_equal length) in Eg. rewrite length_take in Eg. simpl in Eg. lia.
    + rewrite <- Eg in *. clear Eg g got.
      assert (E' : buf ++ dd = (buf ++ take n dd) ++ drop n dd) by (by rewrite <- app_assoc, E). rewrite E' in Hn, Hfit |- *. clear E E'.
      assert (Hn2 : NUL ∉ buf ++ take n dd) by set_solver. rewrite lines_loop_cut by (done || lia).
      rewrite (cut_app (buf ++ take n dd)) in Hfit |- *. cbn [fst]. rewrite select_app. f_equal. apply IH.
      * intros Hin. apply elem_of_app in Hin as [Hin|Hin]; [|set_solver]. apply Hn, elem_of_app. left. by apply cut_sub.
      * apply cut_rest.
      * destruct Hfit as [H1 H2]. cbn [fst snd] in *. apply Forall_app in H1 as [_ H1]. done.
      * rewrite length_drop. unfold dd in *. cbn [length] in *. lia.
Qed.

(** C37: [grep] prints exactly the matching lines.  Whatever pieces the kernel
    returns from [read], on input without NUL bytes whose lines fit in the
    buffer the output is the lines ended by a newline that [match] accepts, in
    order; and [match] accepts a line exactly when some part of it, at its
    start if the pattern begins with a caret, is a word of the pattern, where
    a dot stands for any character, a star for any number of what precedes it,
    and a final dollar for the end of the line. *)
Theorem grep_selects pattern hints data :
  NUL ∉ data -> fits (cut data) ->
  grep pattern hints data = select pattern (cut data).1 /\
  forall re text, match_ re text = true <->
    match re with
    | c :: re1 => if Ascii.eqb c "^"%char then prefix_matches (parse re1) text
                  else exists pre rest, text = pre ++ rest /\ prefix_matches (parse re) rest
    | [] => True
    end.
Proof.
  intros Hn Hf. split; [apply grep_loop_spec; [done | by intros ?%elem_of_nil | done | lia]|].
  intros [|c re1] text; cbn [match_].
  - rewrite match_loop_spec. split; [done|]. intros _. exists [], text. split; [done|]. exists [], text. by split; [|constructor].
  - destruct (Ascii.eqb c "^"%char); [apply matchhere_spec | apply match_loop_spec].
Qed.

Lemma grep_selects_witness :
  grep (str "^ab*c$") (fun n => n) (str "abbc" ++ [LF] ++ str "xabc" ++ [LF] ++ str "ac" ++ [LF] ++ str "ab") = str "abbc" ++ [LF] ++ str "ac" ++ [LF].
Proof.
  set (d := str "abbc" ++ [LF] ++ str "xabc" ++ [LF] ++ str "ac" ++ [LF] ++ str "ab").
  destruct (grep_selects (str "^ab*c$") (fun n => n) d) as [-> _].
  - intros H. repeat (apply elem_of_cons in H as [H|H]; [discriminate H|]). apply elem_of_nil in H. exact H.
  - split; [repeat constructor; simpl; lia | simpl; lia].
  - reflexivity.
Defined.
