(* ===== verification/Console.v ===== *)
(** * The console (xv6/kernel/console.c)

    The line discipline: keys arrive by interrupts and are edited in a ring
    of 128 characters with three wrapping counters; [consoleread] takes whole
    lines out of it.  The call is cut where it sleeps. *)
From S2P Require Import Prelude Disk.
Local Open Scope Z_scope.

Definition INPUT_BUF_SIZE : Z := 128.
Definition BACKSPACE : Z := 0x100.
Definition C (x : Z) : Z := x - 64.

Record cons := mkCons {
  cbuf : list ascii;
  cr : Z; (* read index *)
  cw : Z; (* write index *)
  ce : Z  (* edit index *)
}.

(** What goes to the uart. *)
Definition consputc (c : Z) : list Z := if c =? BACKSPACE then [8; 32; 8] else [c].

Definition slot (x : Z) : nat := Z.to_nat (x mod INPUT_BUF_SIZE).
Definition char_in (x : Z) (s : cons) : ascii := nth (slot x) (cbuf s) NUL.
Definition set_e (x : Z) (s : cons) : cons := mkCons (cbuf s) (cr s) (cw s) x.

(** Kill line; at most the whole buffer is erased. *)
Fixpoint kill_line (fuel : nat) (s : cons) : cons * list Z :=
  match fuel with
  | O => (s, [])
  | S fuel' =>
      if negb (ce s =? cw s) && negb (Ascii.eqb (char_in (u32 (ce s - 1)) s) LF) then
        let '(s', out) := kill_line fuel' (set_e (u32 (ce s - 1)) s) in (s', consputc BACKSPACE ++ out)
      else (s, [])
  end.

(** One key; the boolean tells whether readers are woken. *)
Definition consoleintr (c : Z) (s : cons) : cons * list Z * bool :=
  if c =? C 80 (* P *) then (s, [], false)
  else if c =? C 85 (* U *) then let '(s', out) := kill_line (Z.to_nat INPUT_BUF_SIZE) s in (s', out, false)
  else if (c =? C 72 (* H *)) || (c =? 0x7f) then
    if negb (ce s =? cw s) then (set_e (u32 (ce s - 1)) s, consputc BACKSPACE, false) else (s, [], false)
  else if negb (c =? 0) && (u32 (ce s - cr s) <? INPUT_BUF_SIZE) then
    let c := if c =? 13 then 10 else c in
    let s1 := mkCons (<[slot (ce s) := chr c]> (cbuf s)) (cr s) (cw s) (u32 (ce s + 1)) in
    if (c =? 10) || (c =? C 68 (* D *)) || (u32 (ce s1 - cr s1) =? INPUT_BUF_SIZE)
    then (mkCons (cbuf s1) (cr s1) (ce s1) (ce s1), consputc c, true)
    else (s1, consputc c, false)
  else (s, [], false).

(** How a stretch of [consoleread] ends: with a result, or asleep with [n]
    bytes still wanted. *)
Inductive routcome := Returned (v : Z) | Asleep (n : nat).

Section Read.
(** [killed] and the success of [either_copyout] for byte [i] of the call. *)
Context (killed : bool) (writable : nat -> bool).

(** [n] bytes are wanted of [target]. *)
Fixpoint consoleread (n target : nat) (s : cons) : routcome * list ascii * cons :=
  match n with
  | O => (Returned (Z.of_nat target), [], s)
  | S n' =>
      if cr s =? cw s then (if killed then Returned (-1) else Asleep n, [], s)
      else
        let c := char_in (cr s) s in
        let s1 := mkCons (cbuf s) (u32 (cr s + 1)) (cw s) (ce s) in
        if Ascii.eqb c (chr (C 68)) then
          (Returned (Z.of_nat (target - n)), [],
           if (n <? target)%nat then mkCons (cbuf s1) (u32 (cr s1 - 1)) (cw s1) (ce s1) else s1)
        else if negb (writable (target - n)) then (Returned (Z.of_nat (target - n)), [], s1)
        else if Ascii.eqb c LF then (Returned (Z.of_nat (target - n')), [c], s1)
        else let '(o, bs, s2) := consoleread n' target s1 in (o, c :: bs, s2)
  end.
End Read.

Section Write.
(** [either_copyin] of [nn] bytes at [src + i]; [None] is its -1. *)
Context (either_copyin : Z -> Z -> option (list ascii)).

(** Batches of 32 bytes move to the uart; what was moved before a failure
    stays written. *)
Fixpoint consolewrite (fuel : nat) (i n : Z) : Z * list ascii :=
  match fuel with
  | O => (i, [])
  | S fuel' =>
      if i <? n then
        let nn := if n - i <? 32 then n - i else 32 in
        match either_copyin i nn with
        | None => (i, [])
        | Some bs => let '(r, out) := consolewrite fuel' (i + nn) n in (r, bs ++ out)
        end
      else (i, [])
  end.
End Write.

(** ** The terminal it stands for

    [ready] are the characters of finished lines, [edit] the line that is
    being typed. *)
Record tty := mkTty { ready : list ascii; edit : list ascii }.

Definition tty_key (c : Z) (t : tty) : tty :=
  if c =? C 80 then t
  else if c =? C 85 then mkTty (ready t) []
  else if (c =? C 72) || (c =? 0x7f) then mkTty (ready t) (take (length (edit t) - 1) (edit t))
  else if (c =? 0) || (128 <=? Z.of_nat (length (ready t ++ edit t))) then t
  else
    let c := if c =? 13 then 10 else c in
    let l := edit t ++ [chr c] in
    if (c =? 10) || (c =? C 68) || (Z.of_nat (length (ready t ++ l)) =? 128) then mkTty (ready t ++ l) []
    else mkTty (ready t) l.

(** What the typist sees of a key. *)
Definition tty_echo (c : Z) (t : tty) : list Z :=
  if c =? C 80 then []
  else if c =? C 85 then concat (repeat [8; 32; 8] (length (edit t)))
  else if (c =? C 72) || (c =? 0x7f) then if (length (edit t) =? 0)%nat then [] else [8; 32; 8]
  else if (c =? 0) || (128 <=? Z.of_nat (length (ready t ++ edit t))) then []
  else [if c =? 13 then 10 else c].

Section Tty_read.
Context (killed : bool) (writable : nat -> bool).
Fixpoint tty_read (n target : nat) (q : list ascii) : routcome * list ascii * list ascii :=
  match n, q with
  | O, _ => (Returned (Z.of_nat target), [], q)
  | S n', [] => (if killed then Returned (-1) else Asleep n, [], [])
  | S n', c :: q' =>
      if Ascii.eqb c (chr (C 68)) then (Returned (Z.of_nat (target - n)), [], if (n <? target)%nat then q else q')
      else if negb (writable (target - n)) then (Returned (Z.of_nat (target - n)), [], q')
      else if Ascii.eqb c LF then (Returned (Z.of_nat (target - n')), [c], q')
      else let '(o, bs, q2) := tty_read n' target q' in (o, c :: bs, q2)
  end.
End Tty_read.

(** The ring holds the two queues from the true count [R] of characters read. *)
Record cons_ok (s : cons) (R : Z) (t : tty) : Prop := mkConsOk {
  co_len : length (cbuf s) = Z.to_nat INPUT_BUF_SIZE;
  co_r : cr s = u32 R;
  co_w : cw s = u32 (R + Z.of_nat (length (ready t)));
  co_e : ce s = u32 (R + Z.of_nat (length (ready t ++ edit t)));
  co_fit : Z.of_nat (length (ready t ++ edit t)) <= INPUT_BUF_SIZE;
  co_data : forall j c, (ready t ++ edit t) !! j = Some c -> char_in (R + Z.of_nat j) s = c;
  co_edit : LF ∉ edit t
}.

Lemma slot_u32 x : slot (u32 x) = slot x.
Proof.
  unfold slot, u32, INPUT_BUF_SIZE. f_equal. rewrite (Z.mod_eq x (2 ^ 32)) by lia.
  replace (x - 2 ^ 32 * (x / 2 ^ 32)) with (x + (- 2 ^ 25 * (x / 2 ^ 32)) * 128) by lia. by rewrite Z_mod_plus_full.
Qed.

Lemma slot_lt x : (slot x < Z.to_nat INPUT_BUF_SIZE)%nat.
Proof. unfold slot, INPUT_BUF_SIZE. pose proof (Z.mod_pos_bound x 128). lia. Qed.

(** Positions less than 128 apart are different. *)
Lemma slot_ne x y : x < y < x + 128 -> slot x <> slot y.
Proof.
  unfold slot, INPUT_BUF_SIZE. intros H E. apply Z2Nat.inj in E; [|apply Z.mod_pos_bound; lia ..].
  pose proof (Z.div_mod x 128). pose proof (Z.div_mod y 128). lia.
Qed.

Lemma u32_add x y : u32 (u32 x + y) = u32 (x + y).
Proof. unfold u32. by rewrite Zplus_mod_idemp_l. Qed.

Lemma u32_sub x y : u32 (u32 x - y) = u32 (x - y).
Proof. unfold u32. by rewrite Zminus_mod_idemp_l. Qed.

(** Counters are equal exactly when the true counts are. *)
Lemma u32_eqb x y : Z.abs (x - y) < 2 ^ 32 -> (u32 x =? u32 y) = (x =? y).
Proof.
  intros H. destruct (Z.eqb_spec x y) as [->|Hne]; [apply Z.eqb_refl|]. apply Z.eqb_neq. intros E. apply Hne.
  unfold u32 in E. pose proof (Z.div_mod x (2 ^ 32)). pose proof (Z.div_mod y (2 ^ 32)). lia.
Qed.

Lemma u32_dist R n : 0 <= n < 2 ^ 32 -> u32 (u32 (R + n) - u32 R) = n.
Proof.
  intros H. unfold u32. rewrite <- Zminus_mod. replace (R + n - R) with n by lia. by apply Z.mod_small.
Qed.

Lemma char_in_u32 x s : char_in (u32 x) s = char_in x s.
Proof. unfold char_in. by rewrite slot_u32. Qed.

Section Simulation.
Context (s : cons) (R : Z) (t : tty) (Hok : cons_ok s R t).

Lemma edit_empty : (ce s =? cw s) = (length (edit t) =? 0)%nat.
Proof.
  rewrite (co_e _ _ _ Hok), (co_w _ _ _ Hok). pose proof (co_fit _ _ _ Hok) as Hf. rewrite length_app in *. unfold INPUT_BUF_SIZE in Hf.
  rewrite u32_eqb by lia. destruct (Nat.eqb_spec (length (edit t)) 0); [apply Z.eqb_eq | apply Z.eqb_neq]; lia.
Qed.

Lemma ready_empty : (cr s =? cw s) = (length (ready t) =? 0)%nat.
Proof.
  rewrite (co_r _ _ _ Hok), (co_w _ _ _ Hok). pose proof (co_fit _ _ _ Hok) as Hf. rewrite length_app in *. unfold INPUT_BUF_SIZE in Hf.
  rewrite u32_eqb by lia. destruct (Nat.eqb_spec (length (ready t)) 0); [apply Z.eqb_eq | apply Z.eqb_neq]; lia.
Qed.

Lemma room : u32 (ce s - cr s) = Z.of_nat (length (ready t ++ edit t)).
Proof. rewrite (co_e _ _ _ Hok), (co_r _ _ _ Hok). pose proof (co_fit _ _ _ Hok) as Hf. unfold INPUT_BUF_SIZE in Hf. rewrite u32_dist; lia. Qed.

(** The last character typed is erased. *)
Lemma erase_ok l x : edit t = l ++ [x] -> cons_ok (set_e (u32 (ce s - 1)) s) R (mkTty (ready t) l) /\ char_in (u32 (ce s - 1)) s = x /\ x <> LF.
Proof.
  intros El. destruct Hok as [H1 H2 H3 H4 H5 H6 H7]. rewrite El in *. rewrite app_assoc, !length_app in *. simpl in *.
  split; [|split].
  - split; simpl; try done.
    + rewrite H4, u32_sub. f_equal. rewrite length_app. lia.
    + rewrite length_app. lia.
    + intros j c Hj. apply H6. by apply lookup_app_l_Some.
    + intros Hin. apply H7. set_solver.
  - rewrite char_in_u32, H4. assert (E : char_in (u32 (R + Z.of_nat (length (ready t) + length l + 1)) - 1) s = char_in (R + Z.of_nat (length (ready t) + length l)) s).
    { unfold char_in. rewrite <- slot_u32, u32_sub, slot_u32. do 2 f_equal. lia. }
    rewrite E. apply H6. rewrite <- length_app. apply list_lookup_middle. done.
  - intros ->. apply H7. set_solver.
Qed.

(** A character is stored behind the line being typed. *)
Lemma ring_store_ok x : Z.of_nat (length (ready t ++ edit t)) < INPUT_BUF_SIZE ->
  let s' := mkCons (<[slot (ce s) := x]> (cbuf s)) (cr s) (cw s) (u32 (ce s + 1)) in
  length (cbuf s') = Z.to_nat INPUT_BUF_SIZE /\
  ce s' = u32 (R + Z.of_nat (length (ready t ++ edit t ++ [x]))) /\
  (forall j c, (ready t ++ edit t ++ [x]) !! j = Some c -> char_in (R + Z.of_nat j) s' = c).
Proof.
  intros Hroom. destruct Hok as [H1 H2 H3 H4 H5 H6 H7]. simpl. split_and!.
  - by rewrite length_insert.
  - rewrite H4, u32_add. f_equal. rewrite !length_app. simpl. lia.
  - intros j c Hj. rewrite app_assoc in Hj.
    assert (Es : slot (ce s) = slot (R + Z.of_nat (length (ready t ++ edit t)))) by (rewrite H4; apply slot_u32).
    unfold char_in. simpl. rewrite Es, (nth_lookup (<[_:=_]> _)).
    destruct (decide (j < length (ready t ++ edit t))%nat) as [Hlt|Hge].
    + rewrite lookup_app_l in Hj by done. unfold INPUT_BUF_SIZE in *.
      rewrite list_lookup_insert_ne by (apply not_eq_sym, slot_ne; lia).
      rewrite <- nth_lookup. by apply H6.
    + assert (j = length (ready t ++ edit t)) as ->.
      { apply lookup_lt_Some in Hj. rewrite (length_app _ [x]) in Hj. simpl in Hj. lia. }
      rewrite list_lookup_middle in Hj by done. injection Hj as <-.
      rewrite list_lookup_insert_eq; [done|]. rewrite H1. apply slot_lt.
Qed.

(** A character is added to the line that is being typed. *)
Lemma type_ok x : x <> LF -> Z.of_nat (length (ready t ++ edit t)) < INPUT_BUF_SIZE ->
  cons_ok (mkCons (<[slot (ce s) := x]> (cbuf s)) (cr s) (cw s) (u32 (ce s + 1))) R (mkTty (ready t) (edit t ++ [x])).
Proof.
  intros Hx Hroom. destruct (ring_store_ok x Hroom) as (S1 & S2 & S3). destruct Hok as [H1 H2 H3 H4 H5 H6 H7].
  split; simpl; try done.
  - rewrite !length_app in *. simpl. lia.
  - rewrite elem_of_app, list_elem_of_singleton. intros [?|E]; [done | by apply Hx].
Qed.

(** A character ends the line: all of it becomes readable. *)
Lemma line_ok x : Z.of_nat (length (ready t ++ edit t)) < INPUT_BUF_SIZE ->
  cons_ok (mkCons (<[slot (ce s) := x]> (cbuf s)) (cr s) (u32 (ce s + 1)) (u32 (ce s + 1))) R (mkTty (ready t ++ edit t ++ [x]) []).
Proof.
  intros Hroom. destruct (ring_store_ok x Hroom) as (S1 & S2 & S3). destruct Hok as [H1 H2 H3 H4 H5 H6 H7].
  split; simpl; rewrite ?app_nil_r; try done.
  - rewrite !length_app in *. simpl. lia.
  - apply not_elem_of_nil.
Qed.

(** A character is read. *)
Lemma take_ok c q : ready t = c :: q ->
  char_in (cr s) s = c /\ cons_ok (mkCons (cbuf s) (u32 (cr s + 1)) (cw s) (ce s)) (R + 1) (mkTty q (edit t)).
Proof.
  intros Eq. destruct Hok as [H1 H2 H3 H4 H5 H6 H7]. rewrite Eq in *. simpl in *. split.
  - rewrite H2, char_in_u32. rewrite <- (H6 O c eq_refl). f_equal. lia.
  - split; simpl; try done.
    + rewrite H2. apply u32_add.
    + rewrite H3. f_equal. lia.
    + rewrite H4. f_equal. lia.
    + lia.
    + intros j x Hj. rewrite <- (H6 (S j) x Hj). unfold char_in. simpl. do 2 f_equal. lia.
Qed.
End Simulation.

(** Kill line erases exactly what is being typed. *)
Lemma kill_line_ok fuel s R t : cons_ok s R t -> (length (edit t) <= fuel)%nat ->
  cons_ok (fst (kill_line fuel s)) R (mkTty (ready t) []) /\
  snd (kill_line fuel s) = concat (repeat (consputc BACKSPACE) (length (edit t))).
Proof.
  revert s t. induction fuel as [|fuel IH]; intros s [rd ed] Hok Hf; simpl in Hf.
  { destruct ed; simpl in *; [done | lia]. }
  destruct ed as [|x l _] using rev_ind; simpl; rewrite (edit_empty _ _ _ Hok); simpl; [done|].
  destruct (erase_ok _ _ _ Hok l x eq_refl) as (Hok' & Ex & Hx). rewrite length_app in Hf. simpl in *.
  rewrite length_app. simpl. rewrite Nat.add_1_r. simpl.
  rewrite Ex. rewrite (proj2 (Ascii.eqb_neq x LF) Hx). simpl.
  destruct (IH _ _ Hok' ltac:(simpl; lia)) as [Ha Hb]. destruct (kill_line fuel _) as [s' out]. simpl in *. by rewrite Hb.
Qed.

(** A key does to the ring what it does to the terminal, echoes it, and wakes
    the readers exactly when there is more to read. *)
Lemma key_ok c s R t : 0 <= c < 256 -> cons_ok s R t ->
  let '(s', out, woken) := consoleintr c s in
  cons_ok s' R (tty_key c t) /\ out = tty_echo c t /\
  woken = (length (ready t) <? length (ready (tty_key c t)))%nat.
Proof.
  intros Hc Hok. assert (Hsame : false = (length (ready t) <? length (ready t))%nat) by (symmetry; apply Nat.ltb_irrefl).
  unfold consoleintr, tty_key, tty_echo.
  destruct (c =? C 80); [done|]. destruct (c =? C 85).
  { pose proof (kill_line_ok (Z.to_nat INPUT_BUF_SIZE) _ _ _ Hok) as Hk.
    destruct (kill_line _ _). simpl in *. pose proof (co_fit _ _ _ Hok) as Hf. rewrite length_app in Hf.
    destruct Hk as [? ?]; [lia|]. done. }
  destruct ((c =? C 72) || (c =? 0x7f)).
  { rewrite (edit_empty _ _ _ Hok). destruct t as [rd ed]. destruct ed as [|x l _] using rev_ind; simpl; [done|].
    destruct (erase_ok _ _ _ Hok l x eq_refl) as (Hok' & _). rewrite length_app, Nat.add_sub, take_app_length by done. simpl.
    rewrite Nat.add_1_r. simpl. done. }
  rewrite (room _ _ _ Hok). unfold INPUT_BUF_SIZE at 1.
  destruct (c =? 0); [done|]. simpl negb. cbn [andb orb]. rewrite Z.ltb_antisym.
  destruct (Z.leb_spec 128 (Z.of_nat (length (ready t ++ edit t)))) as [|Hroom]; [done|]. cbn [negb].
  set (c' := if c =? 13 then 10 else c). cbn [ce cr cbuf].
  destruct (ring_store_ok _ _ _ Hok (chr c') Hroom) as (_ & Se & _). simpl in Se.
  rewrite Se, (co_r _ _ _ Hok). rewrite u32_dist by (rewrite app_assoc, length_app; simpl; lia).
  unfold INPUT_BUF_SIZE. rewrite <- Se, <- (co_r _ _ _ Hok).
  assert (Hout : consputc c' = [c']).
  { unfold consputc, BACKSPACE, c'. destruct (c =? 13); [done|]. by destruct (Z.eqb_spec c 0x100); [lia|]. }
  destruct (Z.eqb_spec c' 10) as [E|Hlf]; cbn [orb].
  - split_and!; [by apply line_ok | done |]. simpl. symmetry. apply Nat.ltb_lt. rewrite !length_app. simpl. lia.
  - destruct ((c' =? C 68) || _).
    + split_and!; [by apply line_ok | done |]. simpl. symmetry. apply Nat.ltb_lt. rewrite !length_app. simpl. lia.
    + split_and!; [|done..]. apply type_ok; [done| |done].
      intros E. apply Hlf. apply (f_equal code) in E. rewrite code_chr in E.
      change (code LF) with 10 in E. unfold u8 in E. rewrite Z.mod_small in E; [done|].
      unfold c'. destruct (c =? 13); lia.
Qed.

(** A stretch of [consoleread] takes from the front of what is readable. *)
Lemma read_ok killed writable n target s R t : cons_ok s R t ->
  let '(o, bs, s') := consoleread killed writable n target s in
  let '(o', bs', q) := tty_read killed writable n target (ready t) in
  o = o' /\ bs = bs' /\ exists R', cons_ok s' R' (mkTty q (edit t)).
Proof.
  revert s R t. induction n as [|n IH]; intros s R [rd ed] Hok; simpl; [by split_and!; [..|exists R]|].
  rewrite (ready_empty _ _ _ Hok). simpl. destruct rd as [|c q]; simpl; [by split_and!; [..|exists R]|].
  destruct (take_ok _ _ _ Hok c q eq_refl) as [Ec Hok']. rewrite Ec. simpl in Hok'.
  destruct (Ascii.eqb c (chr (C 68))).
  { split_and!; [done..|]. destruct (S n <? target)%nat; [|by exists (R + 1)].
    exists R. rewrite u32_sub, Z.add_simpl_r, (co_r _ _ _ Hok). replace (u32 (u32 R)) with (cr s); [by destruct s|].
    rewrite (co_r _ _ _ Hok). unfold u32. by rewrite Z.mod_mod. }
  destruct (writable _); simpl; [|by split_and!; [..|exists (R + 1)]].
  destruct (Ascii.eqb c LF); [by split_and!; [..|exists (R + 1)]|].
  specialize (IH _ _ _ Hok'). simpl in IH.
  destruct (consoleread _ _ n _ _) as [[o bs] s2], (tty_read _ _ n _ _) as [[o' bs'] q2].
  destruct IH as (-> & -> & ?). done.
Qed.

(** A readable buffer is written whole, in order, however it is cut. *)
Lemma consolewrite_whole copyin bs fuel i :
  (forall a m, 0 <= a -> 0 <= m -> a + m <= Z.of_nat (length bs) -> copyin a m = Some (take (Z.to_nat m) (drop (Z.to_nat a) bs))) ->
  0 <= i <= Z.of_nat (length bs) -> Z.of_nat (length bs) - i <= Z.of_nat fuel ->
  consolewrite copyin fuel i (Z.of_nat (length bs)) = (Z.of_nat (length bs), drop (Z.to_nat i) bs).
Proof.
  intros Hin. revert i. induction fuel as [|fuel IH]; intros i Hi Hf; simpl.
  { rewrite drop_ge by lia. f_equal. lia. }
  destruct (Z.ltb_spec i (Z.of_nat (length bs))); [|rewrite drop_ge by lia; f_equal; lia].
  set (nn := if _ <? 32 then _ else _).
  assert (Hnn : 0 < nn <= Z.of_nat (length bs) - i) by (unfold nn; destruct (Z.ltb_spec (Z.of_nat (length bs) - i) 32); lia).
  rewrite Hin by lia. rewrite IH by lia. f_equal.
  replace (Z.to_nat (i + nn)) with (Z.to_nat i + Z.to_nat nn)%nat by lia.
  rewrite <- drop_drop. apply take_drop.
Qed.

(** ** Any interleaving of keys and readers *)
Inductive event := Key (c : Z) | Read (killed : bool) (writable : nat -> bool) (n target : nat).
Inductive observed := Echo (out : list Z) (woken : bool) | Got (o : routcome) (bs : list ascii).

Definition key_event (e : event) : Prop := match e with Key c => 0 <= c < 256 | Read _ _ _ _ => True end.

Definition cons_step (e : event) (s : cons) : observed * cons :=
  match e with
  | Key c => let '(s', out, woken) := consoleintr c s in (Echo out woken, s')
  | Read k w n target => let '(o, bs, s') := consoleread k w n target s in (Got o bs, s')
  end.

Definition tty_step (e : event) (t : tty) : observed * tty :=
  match e with
  | Key c => (Echo (tty_echo c t) (length (ready t) <? length (ready (tty_key c t)))%nat, tty_key c t)
  | Read k w n target =>
      let '(o, bs, q) := tty_read k w n target (ready t) in (Got o bs, mkTty q (edit t))
  end.

Fixpoint trace {S : Type} (step : event -> S -> observed * S) (es : list event) (s : S) : list observed :=
  match es with [] => [] | e :: es => let '(o, s') := step e s in o :: trace step es s' end.

Definition cons_init : cons := mkCons (replicate (Z.to_nat INPUT_BUF_SIZE) NUL) 0 0 0.

Lemma cons_init_ok : cons_ok cons_init 0 (mkTty [] []).
Proof. split; try done. by apply not_elem_of_nil. Qed.

Lemma trace_ok es : forall s R t, cons_ok s R t -> Forall key_event es -> trace cons_step es s = trace tty_step es t.
Proof.
  induction es as [|e es IH]; intros s R t Hok Hes; [done|]. inversion Hes as [|? ? He Hes']; subst. simpl.
  destruct e as [c|k w n target]; simpl.
  - pose proof (key_ok c _ _ _ He Hok) as Hk. destruct (consoleintr c s) as [[s' out] woken].
    destruct Hk as (Hok' & -> & ->). f_equal. by eapply IH.
  - pose proof (read_ok k w n target _ _ _ Hok) as Hr.
    destruct (consoleread _ _ _ _ _) as [[o bs] s'], (tty_read _ _ _ _ _) as [[o' bs'] q].
    destruct Hr as (-> & -> & R' & Hok'). f_equal. by eapply IH.
Qed.

(** C38: the console's ring buffer, with its three counters that wrap at 2^32,
    implements a terminal with a queue of finished lines and a line being
    typed: over any interleaving of keys (0..255) and stretches of
    [consoleread], the echoes, the wake-ups, the bytes delivered and the ways
    the calls end or sleep are those of the terminal.  So backspace and kill
    line only ever edit the unfinished line, a full ring refuses keys instead
    of overwriting unread ones, and ^D ends a read, kept for the next call
    when bytes were already delivered. *)
Theorem console_line_discipline es : Forall key_event es ->
  trace cons_step es cons_init = trace tty_step es (mkTty [] []).
Proof. intros H. by apply (trace_ok es _ 0), H; apply cons_init_ok. Qed.

Lemma console_line_discipline_witness :
  let keys := [Key 104; Key 105; Key 127; Key 111; Key 13; Key 97; Key 21; Key 4;
               Read false (fun _ => true) 10 10; Read false (fun _ => true) 10 10; Read false (fun _ => true) 10 10] in
  trace cons_step keys cons_init = trace tty_step keys (mkTty [] []) /\
  drop 8 (trace tty_step keys (mkTty [] [])) =
    [Got (Returned 3) ["h"; "o"; LF]%char; Got (Returned 0) []; Got (Asleep 10) []].
Proof.
  split; [|by vm_compute]. apply (console_line_discipline _). repeat constructor; lia.
Defined.
