(* ===== verification/Ledger.v ===== *)
(** * References and locks across calls (xv6/kernel/fs.c)

    What the operations on inodes and paths do to the references and the
    sleep locks a caller holds.  [led s hs lk]: the references to the slots
    of the table are exactly [hs], the slots locked are exactly [lk]. *)
From S2P Require Import Prelude KString Disk Balloc Inode Content Rw Trunc Itable Iref Dir Path.
Local Open Scope Z_scope.

(** ** Operations that keep a slot's identity, count and lock *)
Definition same_slot (ip ip' : inode) : Prop :=
  dev ip' = dev ip /\ inum ip' = inum ip /\ iref ip' = iref ip /\ locked ip' = locked ip.

#[export] Instance same_slot_preorder : PreOrder same_slot.
Proof. split; [by intros ip | intros a b c (? & ? & ? & ?) (? & ? & ? & ?); repeat split; congruence]. Qed.

#[export] Hint Extern 0 (same_slot ?x ?y) => (split_and!; done) : core.

Section Keep.
Context (sb : superblock).

Lemma direct_alloc_slot i ip d : same_slot ip (direct_alloc sb i ip d).1.2.
Proof. unfold direct_alloc. destruct (_ =? 0); [|done]. destruct (Balloc.balloc sb d) as [a d']. by destruct (a =? 0). Qed.

Lemma indirect_alloc_slot bn a ip d : same_slot ip (indirect_alloc sb bn a ip d).1.2.
Proof.
  unfold indirect_alloc. destruct (_ =? 0); [|done]. destruct (Balloc.balloc sb d) as [b d']. by destruct (b =? 0).
Qed.

Lemma bmap_slot bn ip d a ip' d' : bmap sb bn ip d = Some (a, ip', d') -> same_slot ip ip'.
Proof.
  unfold bmap. pose proof (direct_alloc_slot bn ip d) as H1. pose proof (direct_alloc_slot NDIRECT ip d) as H2.
  destruct (bn <? NDIRECT); [intros [= E]; by rewrite E in H1|]. destruct (_ <? NINDIRECT); [|done].
  destruct (direct_alloc sb NDIRECT ip d) as [[ind ip1] d1]. destruct (ind =? 0); [by intros [= <- <- <-]|].
  intros [= E]. pose proof (indirect_alloc_slot (bn - NDIRECT) ind ip1 d1) as H3. rewrite E in H3. by transitivity ip1.
Qed.

Lemma readi_loop_slot room : forall fuel n tot off ip d r bs ip' d',
  readi_loop sb room fuel n tot off ip d = Some (r, bs, ip', d') -> same_slot ip ip'.
Proof.
  induction fuel as [|fuel IH]; intros n tot off ip d r bs ip' d'; cbn [readi_loop]; [by intros [= _ _ <- _]|].
  destruct (tot <? n); [|by intros [= _ _ <- _]].
  destruct (bmap sb _ ip d) as [[[a ip1] d1]|] eqn:Eb; [|done]. apply bmap_slot in Eb. cbn [mbind option_bind].
  destruct (a =? 0); [by intros [= _ _ <- _]|]. destruct (copyout _ _ _) as [cs [|]]; [|by intros [= _ _ <- _]].
  destruct (readi_loop sb room fuel _ _ _ ip1 d1) as [[[[r1 bs1] ip2] d2]|] eqn:E; [|done]. cbn [mbind option_bind].
  intros [= _ _ <- _]. apply IH in E. by transitivity ip1.
Qed.

Lemma readi_slot room off n ip d r bs ip' d' : readi sb room off n ip d = Some (r, bs, ip', d') -> same_slot ip ip'.
Proof. unfold readi. destruct (_ || _); [by intros [= _ _ <- _] | apply readi_loop_slot]. Qed.

Lemma writei_loop_slot src : forall fuel n tot off ip d t o ip' d',
  writei_loop sb src fuel n tot off ip d = Some (t, o, ip', d') -> same_slot ip ip'.
Proof.
  induction fuel as [|fuel IH]; intros n tot off ip d t o ip' d'; cbn [writei_loop]; [by intros [= _ _ <- _]|].
  destruct (tot <? n); [|by intros [= _ _ <- _]].
  destruct (bmap sb _ ip d) as [[[a ip1] d1]|] eqn:Eb; [|done]. apply bmap_slot in Eb. cbn [mbind option_bind].
  destruct (a =? 0); [by intros [= _ _ <- _]|]. destruct (copyin _ _ _) as [cs [|]]; [|by intros [= _ _ <- _]].
  intros E. apply IH in E. by transitivity ip1.
Qed.

Lemma writei_slot src off n ip d r ip' d' : writei sb src off n ip d = Some (r, ip', d') -> same_slot ip ip'.
Proof.
  unfold writei. destruct (_ || _); [by intros [= _ <- _]|]. destruct (_ <? _); [by intros [= _ <- _]|].
  destruct (writei_loop _ _ _ _ _ _ _ _) as [[[[t o] ip1] d1]|] eqn:E; [|done]. cbn [mbind option_bind].
  apply writei_loop_slot in E. intros [= _ <- _]. transitivity ip1; [done|]. by destruct (isize ip1 <? o).
Qed.

Lemma free_direct_slot : forall k i ip d ip' d', free_direct sb k i ip d = Some (ip', d') -> same_slot ip ip'.
Proof.
  induction k as [|k IH]; intros i ip d ip' d'; cbn [free_direct]; [by intros [= <- _]|].
  destruct (direct i ip =? 0); [apply IH|]. destruct (bfree sb (direct i ip) d); [|done]. cbn [mbind option_bind].
  intros H. apply IH in H. by transitivity (set_direct i 0 ip).
Qed.

Lemma itrunc_slot ip d ip' d' : itrunc sb ip d = Some (ip', d') -> same_slot ip ip'.
Proof.
  unfold itrunc, free_indirect. destruct (free_direct sb _ 0 ip d) as [[ip1 d1]|] eqn:E1; [|done]. cbn [mbind option_bind].
  apply free_direct_slot in E1. destruct (direct NDIRECT ip1 =? 0); [cbn; intros [= <- _]; by transitivity ip1|].
  destruct (free_entries sb _ _ _ d1) as [d2|]; [|done]. cbn [mbind option_bind].
  destruct (bfree sb _ d2); [|done]. cbn [mbind option_bind]. intros [= <- _]. by transitivity ip1.
Qed.

Lemma read_dirent_slot off dp d de dp' d' : read_dirent sb off dp d = Ok (de, dp', d') -> same_slot dp dp'.
Proof.
  unfold read_dirent. destruct (readi _ _ _ _ _ _) as [[[[r bs] dp1] d1]|] eqn:E; [|done]. cbn [mbind res_bind or_panic].
  apply readi_slot in E. destruct (r =? 16); [|done]. by intros [= _ <- _].
Qed.

Lemma lookup_loop_slot name : forall fuel off dp d hit dp' d',
  lookup_loop sb fuel name off dp d = Ok (hit, dp', d') -> same_slot dp dp'.
Proof.
  induction fuel as [|fuel IH]; intros off dp d hit dp' d'; cbn [lookup_loop]; [by intros [= _ <- _]|].
  destruct (off <? isize dp); [|by intros [= _ <- _]].
  destruct (read_dirent _ _ _ _) as [[[de dp1] d1]| |] eqn:E; [|done..]. cbn [mbind res_bind]. apply read_dirent_slot in E.
  destruct (de_inum de =? 0); [intros H; apply IH in H; by transitivity dp1|].
  destruct (namecmp _ _ =? 0); [by intros [= _ <- _] | intros H; apply IH in H; by transitivity dp1].
Qed.

Lemma free_loop_slot : forall fuel off dp d o dp' d', free_loop sb fuel off dp d = Ok (o, dp', d') -> same_slot dp dp'.
Proof.
  induction fuel as [|fuel IH]; intros off dp d o dp' d'; cbn [free_loop]; [by intros [= _ <- _]|].
  destruct (off <? isize dp); [|by intros [= _ <- _]].
  destruct (read_dirent _ _ _ _) as [[[de dp1] d1]| |] eqn:E; [|done..]. cbn [mbind res_bind]. apply read_dirent_slot in E.
  destruct (de_inum de =? 0); [by intros [= _ <- _] | intros H; apply IH in H; by transitivity dp1].
Qed.
End Keep.

(** ** The ledger *)
Record led (s : fsys) (hs lk : list nat) : Prop := mkLed {
  l_table : table_ok s hs;
  l_once : NoDup lk;
  l_sub : forall i, i ∈ lk -> i ∈ hs;
  l_lock : forall i, (i < NINODE)%nat -> locked (entry i s) = bool_decide (i ∈ lk)
}.

#[export] Instance held_proper i : Proper ((≡ₚ) ==> eq) (held i).
Proof. intros a b H. unfold held. f_equal. by apply Permutation_count_occ. Qed.

#[export] Instance table_ok_proper s : Proper ((≡ₚ) ==> iff) (table_ok s).
Proof.
  assert (Himp : forall a b, a ≡ₚ b -> table_ok s a -> table_ok s b).
  { intros a b H [H1 H2 H3 H4]. split; try done; intros i Hi.
    - apply H2. by rewrite H.
    - rewrite <- H. by apply H3. }
  intros a b H. split; by apply Himp.
Qed.

#[export] Instance led_proper s : Proper ((≡ₚ) ==> (≡ₚ) ==> iff) (led s).
Proof.
  assert (Himp : forall a b l m, a ≡ₚ b -> l ≡ₚ m -> led s a l -> led s b m).
  { intros a b l m H H' [H1 H2 H3 H4]. split; [by rewrite <- H | by rewrite <- H' | intros i Hi; rewrite <- H; apply H3; by rewrite H'|].
    intros i Hi. rewrite H4 by done. apply bool_decide_ext. by rewrite H'. }
  intros a b H l m H'. split; by apply Himp.
Qed.

Section Operations.
Context (sb : superblock).

Lemma led_lt s hs lk i : led s hs lk -> i ∈ hs -> (i < length (itab s))%nat.
Proof. intros [Ht _ _ _] Hi. rewrite (t_len _ _ Ht). by apply (t_in _ _ Ht). Qed.

(** A table that changes in one slot, whose lock becomes [b]. *)
Lemma locks_change (s : fsys) (i : nat) (ip : inode) (d : disk) (lk : list nat) (b : bool) : (i < length (itab s))%nat -> locked ip = b ->
  (forall j, (j < NINODE)%nat -> locked (entry j s) = bool_decide (j ∈ lk)) ->
  forall j, (j < NINODE)%nat -> locked (entry j (set_disk d (set_entry i ip s))) = if (j =? i)%nat then b else bool_decide (j ∈ lk).
Proof.
  intros Hi Hb Hlk j Hj. change (entry j (set_disk d (set_entry i ip s))) with (entry j (set_entry i ip s)).
  rewrite entry_set_entry by done. by destruct (j =? i)%nat; [|apply Hlk].
Qed.

Lemma led_disk s hs lk d : led s hs lk -> led (set_disk d s) hs lk.
Proof. intros [H1 H2 H3 H4]. split; try done. by apply table_set_disk. Qed.

(** The content of a held slot changes. *)
Lemma led_content s hs lk i ip d : led s hs lk -> i ∈ hs -> same_slot (entry i s) ip ->
  led (set_disk d (set_entry i ip s)) hs lk.
Proof.
  intros Hl Hi (D & N & R & L). pose proof (led_lt _ _ _ _ Hl Hi) as Hlt. destruct Hl as [H1 H2 H3 H4]. split; try done.
  - apply (slot_change s hs i ip 0 hs); try done; [split_and!; (done || lia) | apply H1|].
    intros j. destruct (j =? i)%nat; lia.
  - intros j Hj. rewrite (locks_change s i ip d lk (locked ip) Hlt eq_refl H4 j Hj). destruct (Nat.eqb_spec j i) as [->|]; [|done].
    rewrite L. by apply H4.
Qed.

Lemma led_entry s hs lk i ip : led s hs lk -> i ∈ hs -> same_slot (entry i s) ip -> led (set_entry i ip s) hs lk.
Proof. intros Hl Hi Hs. apply (led_content s hs lk i ip (fdisk s) Hl Hi Hs). Qed.

Lemma led_iget s hs lk dv nm i s' : led s hs lk -> iget dv nm s = Ok (i, s') -> led s' (i :: hs) lk.
Proof.
  intros [H1 H2 H3 H4] E. pose proof (iget_spec dv nm s hs H1) as Hg. rewrite E in Hg. destruct Hg as (Hi & Ht & _).
  split; [done | done | set_solver|]. intros j Hj.
  revert E. unfold iget. destruct (iget_scan _ _ _ _ _) as [k|[k|]]; [| |done]; intros [= -> <-];
    (rewrite entry_set_entry by (by rewrite (t_len _ _ H1)); destruct (Nat.eqb_spec j i) as [->|]; by apply H4).
Qed.

Lemma led_idup s hs lk i : led s hs lk -> i ∈ hs -> led (idup i s) (i :: hs) lk.
Proof.
  intros Hl Hi. pose proof (led_lt _ _ _ _ Hl Hi) as Hlt. destruct Hl as [H1 H2 H3 H4]. split; [|done|set_solver|].
  - apply (istep_ok sb s hs); [done | by constructor].
  - intros j Hj. unfold idup. rewrite entry_set_entry by done. destruct (Nat.eqb_spec j i) as [->|]; by apply H4.
Qed.

Lemma led_ilock s hs lk i s' : led s hs lk -> i ∈ hs -> ilock sb i s = Ok s' -> led s' hs (i :: lk).
Proof.
  intros Hl Hi E. pose proof (led_lt _ _ _ _ Hl Hi) as Hlt. destruct Hl as [H1 H2 H3 H4].
  assert (Ht : table_ok s' hs) by (apply (istep_ok sb s hs); [done | by apply (step_lock sb i)]).
  unfold ilock in E. destruct (iref (entry i s) <? 1); [done|]. destruct (locked (entry i s)) eqn:El; [done|].
  rewrite H4 in El by (by apply (t_in _ _ H1)). apply bool_decide_eq_false in El.
  split; [done | by constructor | set_solver|]. intros j Hj.
  assert (Hs : exists ip, s' = set_entry i ip s /\ locked ip = true).
  { destruct (valid (entry i s)); [injection E as <-; eauto|]. destruct (itype _ =? 0); [done|]. injection E as <-. eauto. }
  destruct Hs as (ip & -> & Hip). rewrite entry_set_entry by done.
  destruct (Nat.eqb_spec j i) as [->|Hne].
  - rewrite Hip. symmetry. apply bool_decide_eq_true. set_solver.
  - rewrite H4 by done. apply bool_decide_ext. set_solver.
Qed.

Lemma led_iunlock s hs lk i s' : led s hs (i :: lk) -> iunlock i s = Ok s' -> led s' hs lk.
Proof.
  intros Hl E. assert (Hi : i ∈ hs) by (apply (l_sub _ _ _ Hl); set_solver).
  pose proof (led_lt _ _ _ _ Hl Hi) as Hlt. destruct Hl as [H1 H2 H3 H4]. apply NoDup_cons in H2 as [Hni Hnd].
  assert (Ht : table_ok s' hs) by (apply (istep_ok sb s hs); [done | by apply (step_unlock sb i)]).
  unfold iunlock in E. destruct (negb _ || _); [done|]. injection E as <-.
  split; [done | done | set_solver|]. intros j Hj. rewrite entry_set_entry by done. destruct (Nat.eqb_spec j i) as [->|Hne].
  - symmetry. by apply bool_decide_eq_false.
  - rewrite H4 by done. apply bool_decide_ext. set_solver.
Qed.

Lemma led_iput s hs lk i s' : led s (i :: hs) lk -> (forall j, j ∈ lk -> j ∈ hs) -> iput sb i s = Ok s' -> led s' hs lk.
Proof.
  intros Hl Hsub E. assert (Hi : i ∈ i :: hs) by set_solver.
  pose proof (led_lt _ _ _ _ Hl Hi) as Hlt. destruct Hl as [H1 H2 H3 H4].
  assert (Ht : table_ok s' hs) by (apply (istep_ok sb s (i :: hs)); [done | by apply (step_put sb i s s' [] hs)]).
  split; try done. intros j Hj.
  assert (Hs : exists ip d, s' = set_disk d (set_entry i ip s) /\ locked ip = locked (entry i s)).
  { unfold iput in E. destruct (_ && _).
    - destruct (locked (entry i s)) eqn:El; [done|]. destruct (itrunc sb (entry i s) (fdisk s)) as [[ip1 d1]|] eqn:Et; [|done].
      apply itrunc_slot in Et as (_ & _ & _ & L). cbn [mbind res_bind or_panic] in E. injection E as <-.
      eexists _, _. split; [reflexivity|]. simpl. congruence.
    - injection E as <-. eexists _, (fdisk s). split; reflexivity. }
  destruct Hs as (ip & d & -> & L). rewrite (locks_change s i ip d lk _ Hlt L H4 j Hj).
  destruct (Nat.eqb_spec j i) as [->|]; [|done]. by apply H4.
Qed.

Lemma led_iunlockput s hs lk i s' : led s (i :: hs) (i :: lk) -> iunlockput sb i s = Ok s' -> led s' hs lk.
Proof.
  intros Hl E. unfold iunlockput in E. destruct (iunlock i s) as [s1| |] eqn:E1; [|done..]. cbn [mbind res_bind] in E.
  pose proof (l_once _ _ _ Hl) as [Hni _]%NoDup_cons. pose proof (l_sub _ _ _ Hl) as Hsub.
  apply (led_iput s1 hs lk i s'); [by apply (led_iunlock s _ _ i) | | done].
  intros j Hj. assert (j <> i) by (by intros ->). specialize (Hsub j). set_solver.
Qed.

Lemma led_ialloc s hs lk dv type o s' : led s hs lk -> ialloc sb dv type s = Ok (o, s') ->
  led s' (match o with Some i => i :: hs | None => hs end) lk.
Proof.
  intros Hl. unfold ialloc. generalize (Z.to_nat (ninodes sb - 1)). generalize 1. intros nm k. revert nm.
  induction k as [|k IH]; intros nm; cbn [ialloc_loop]; [by intros [= <- <-]|].
  destruct (_ =? 0); [|apply IH]. destruct (iget _ _ _) as [[i s1]| |] eqn:E; [|done..]. cbn [mbind res_bind].
  intros [= <- <-]. eapply led_iget; [|exact E]. by apply led_disk.
Qed.

(** ** Directories and paths *)
Lemma led_dirlookup s hs lk p name o s' : led s hs lk -> p ∈ hs -> dirlookup sb p name s = Ok (o, s') ->
  led s' (match o with Some (i, _) => i :: hs | None => hs end) lk.
Proof.
  intros Hl Hp. unfold dirlookup. destruct (_ =? T_DIR); [|done].
  destruct (lookup_loop _ _ _ _ _ _) as [[[hit dp] d]| |] eqn:E; [|done..]. cbn [mbind res_bind].
  apply lookup_loop_slot in E. pose proof (led_content _ _ _ p dp d Hl Hp E) as Hl1.
  destruct hit as [[off nm]|]; [|by intros [= <- <-]].
  destruct (iget _ _ _) as [[i s2]| |] eqn:E2; [|done..]. cbn [mbind res_bind]. intros [= <- <-]. by eapply led_iget.
Qed.

Lemma led_dirlink s hs lk p name nm r s' : led s hs lk -> p ∈ hs -> dirlink sb p name nm s = Ok (r, s') -> led s' hs lk.
Proof.
  intros Hl Hp. unfold dirlink. destruct (dirlookup _ _ _ _) as [[hit s1]| |] eqn:E; [|done..]. cbn [mbind res_bind].
  pose proof (led_dirlookup _ _ _ _ _ _ _ Hl Hp E) as Hl1. destruct hit as [[i off]|].
  - destruct (iput _ _ _) as [s2| |] eqn:E2; [|done..]. cbn [mbind res_bind]. intros [= _ <-].
    eapply led_iput; [exact Hl1 | apply Hl | exact E2].
  - destruct (free_loop _ _ _ _ _) as [[[off dp] d]| |] eqn:E2; [|done..]. cbn [mbind res_bind]. apply free_loop_slot in E2.
    destruct (writei _ _ _ _ _ _) as [[[r' dp'] d']|] eqn:E3; [|done]. cbn [mbind res_bind or_panic]. apply writei_slot in E3.
    intros [= _ <-]. apply led_content; [done | done | by transitivity dp].
Qed.

Lemma led_namex_loop par : forall fuel path name i s hs o name' s', led s (i :: hs) [] -> (length path < fuel)%nat ->
  namex_loop sb fuel path par name i s = Ok (o, name', s') ->
  led s' (match o with Some j => j :: hs | None => hs end) [].
Proof.
  induction fuel as [|fuel IH]; intros path name i s hs o name' s' Hl Hf; [lia|].
  assert (Hi : i ∈ i :: hs) by set_solver. cbn [namex_loop].
  pose proof (skipelem_spec path) as Hsk. destruct (skipelem path) as [[name1 path1]|].
  2:{ destruct par; [|by intros [= <- _ <-]]. destruct (iput _ _ _) as [s1| |] eqn:E; [|done..]. cbn [mbind res_bind].
      intros [= <- _ <-]. eapply led_iput; [exact Hl | set_solver | exact E]. }
  destruct (ilock _ _ _) as [s1| |] eqn:E1; [|done..]. cbn [mbind res_bind].
  pose proof (led_ilock _ _ _ _ _ Hl Hi E1) as Hl1.
  assert (Hdrop : forall s2 nm, (s3 ← iunlockput sb i s2; Ok (None, nm, s3)) = Ok (o, name', s') -> forall hs' lk,
    led s2 (i :: hs') (i :: lk) -> o = None /\ led s' hs' lk).
  { intros s2 nm E hs' lk H2. destruct (iunlockput sb i s2) as [s3| |] eqn:E3; [|done..]. cbn [mbind res_bind] in E.
    injection E as <- _ <-. split; [done|]. by eapply led_iunlockput. }
  destruct (negb _); [intros E; by destruct (Hdrop _ _ E _ _ Hl1) as [-> ?]|].
  destruct (nlink _ =? 0); [intros E; by destruct (Hdrop _ _ E _ _ Hl1) as [-> ?]|].
  destruct (par && _).
  { destruct (iunlock i s1) as [s2| |] eqn:E2; [|done..]. cbn [mbind res_bind]. intros [= <- _ <-]. by eapply led_iunlock. }
  destruct (dirlookup _ _ _ _) as [[next s2]| |] eqn:E2; [|done..]. cbn [mbind res_bind].
  pose proof (led_dirlookup _ _ _ _ _ _ _ Hl1 Hi E2) as Hl2. destruct next as [[j off]|].
  - destruct (iunlockput sb i s2) as [s3| |] eqn:E3; [|done..]. cbn [mbind res_bind]. intros E.
    eapply (IH path1); [|lia|exact E]. apply (led_iunlockput s2 (j :: hs) [] i); [|exact E3]. by rewrite (Permutation_swap j i hs).
  - intros E. by destruct (Hdrop _ _ E _ _ Hl2) as [-> ?].
Qed.

(** Resolving a path adds the reference it returns and nothing else. *)
Lemma led_namex par cwd path s hs o name s' : led s hs [] -> cwd ∈ hs -> namex sb cwd path par s = Ok (o, name, s') ->
  led s' (match o with Some j => j :: hs | None => hs end) [].
Proof.
  intros Hl Hc. unfold namex.
  assert (Hstart : forall i s1, (match path with c :: _ => if (c =c slash)%c then iget ROOTDEV ROOTINO s else Ok (cwd, idup cwd s)
    | [] => Ok (cwd, idup cwd s) end) = Ok (i, s1) -> led s1 (i :: hs) []).
  { pose proof (led_idup _ _ _ _ Hl Hc) as Hd. intros i s1. destruct path as [|c path]; [by intros [= <- <-]|].
    destruct (c =c slash)%c; [by apply led_iget | by intros [= <- <-]]. }
  destruct (match path with _ :: _ => _ | _ => _ end) as [[i s1]| |]; [|done..]. cbn [mbind res_bind].
  intros E. eapply led_namex_loop; [by apply Hstart | | exact E]. lia.
Qed.
End Operations.
