(* ===== verification/File.v ===== *)
(** * Open files (xv6/kernel/file.c, [pipealloc] of pipe.c)

    The table of open files, the pipes and inodes they stand for, and the
    descriptors and current directories of the processes.  A pointer to a
    file is an index of the table, a pointer to a pipe is a key of [pipes].
    Operations end with a result, a panic or a wait, as those on inodes do;
    the log's [begin_op] and [end_op] do not show at this level. *)
From S2P Require Import Prelude KString Disk Balloc Inode Content Rw Trunc Itable Pipe Dir Path.
Local Open Scope Z_scope.

Definition NFILE : nat := 100.
Definition NOFILE : nat := 16.
Definition NDEV : Z := 10.
Definition MAXOPBLOCKS : Z := 10.

Inductive fdtype := FD_NONE | FD_PIPE | FD_INODE | FD_DEVICE.
#[export] Instance fdtype_eq_dec : EqDecision fdtype.
Proof. solve_decision. Defined.

Record file := mkFile {
  ftype : fdtype;
  fref : Z;
  readable : bool;
  writable : bool;
  fpipe : nat; (* FD_PIPE *)
  fip : nat;   (* FD_INODE and FD_DEVICE *)
  foff : Z;    (* FD_INODE *)
  fmajor : Z   (* FD_DEVICE *)
}.

(** [ofile] and [cwd] of a [struct proc]. *)
Record pfiles := mkPfiles { ofile : list (option nat); cwd : option nat }.

Record ksys := mkKsys { kfs : fsys; ftab : list file; pipes : gmap nat pipe; procs : list pfiles }.

Definition null_file : file := mkFile FD_NONE 0 false false 0 0 0 0.
Definition no_files : pfiles := mkPfiles (replicate NOFILE None) None.

Definition set_fref (r : Z) (f : file) : file :=
  mkFile (ftype f) r (readable f) (writable f) (fpipe f) (fip f) (foff f) (fmajor f).
Definition set_ftype (t : fdtype) (f : file) : file :=
  mkFile t (fref f) (readable f) (writable f) (fpipe f) (fip f) (foff f) (fmajor f).
Definition set_off (o : Z) (f : file) : file :=
  mkFile (ftype f) (fref f) (readable f) (writable f) (fpipe f) (fip f) o (fmajor f).

Definition file_at (i : nat) (k : ksys) : file := nth i (ftab k) null_file.
Definition set_fs (s : fsys) (k : ksys) : ksys := mkKsys s (ftab k) (pipes k) (procs k).
Definition set_file (i : nat) (f : file) (k : ksys) : ksys := mkKsys (kfs k) (<[i := f]> (ftab k)) (pipes k) (procs k).
Definition set_pipes (m : gmap nat pipe) (k : ksys) : ksys := mkKsys (kfs k) (ftab k) m (procs k).
Definition set_procs (l : list pfiles) (k : ksys) : ksys := mkKsys (kfs k) (ftab k) (pipes k) l.

(** ** The table *)
Fixpoint free_file (i : nat) (l : list file) : option nat :=
  match l with
  | [] => None
  | f :: l' => if fref f =? 0 then Some i else free_file (S i) l'
  end.

Definition filealloc (k : ksys) : option (nat * ksys) :=
  match free_file 0 (ftab k) with
  | Some i => Some (i, set_file i (set_fref 1 (file_at i k)) k)
  | None => None
  end.

Definition filedup (i : nat) (k : ksys) : res ksys :=
  let f := file_at i k in
  if fref f <? 1 then Panic else Ok (set_file i (set_fref (fref f + 1) f) k).

(** [pipeclose] of the pipe at [q], whose page goes back when both ends are
    closed; a pipe that is not there would be a dangling pointer. *)
Definition close_pipe (q : nat) (w : bool) (k : ksys) : res ksys :=
  pi ← or_panic (pipes k !! q);
  let '(pi', freed) := pipeclose w pi in
  Ok (set_pipes (if freed : bool then delete q (pipes k) else <[q := pi']> (pipes k)) k).

Section Files.
Context (sb : superblock).

Definition fileclose (i : nat) (k : ksys) : res ksys :=
  let f := file_at i k in
  if fref f <? 1 then Panic
  else if 0 <? fref f - 1 then Ok (set_file i (set_fref (fref f - 1) f) k)
  else
    let k1 := set_file i (set_ftype FD_NONE (set_fref 0 f)) k in
    match ftype f with
    | FD_PIPE => close_pipe (fpipe f) (writable f) k1
    | FD_INODE | FD_DEVICE => s ← iput sb (fip f) (kfs k1); Ok (set_fs s k1)
    | FD_NONE => Ok k1
    end.

(** The structure copied out, if any; [copied] tells whether [copyout]
    succeeds. *)
Definition filestat (copied : bool) (i : nat) (k : ksys) : res (Z * option (Z * Z * Z * Z * Z) * ksys) :=
  let f := file_at i k in
  match ftype f with
  | FD_INODE | FD_DEVICE =>
      s1 ← ilock sb (fip f) (kfs k);
      let st := stati (entry (fip f) s1) in
      s2 ← iunlock (fip f) s1;
      Ok (if copied then (0, Some st, set_fs s2 k) else (-1, None, set_fs s2 k))
  | _ => Ok (-1, None, k)
  end.

(** ** Reading and writing

    [killed] as for pipes; [room] bytes can be stored before the first
    address that cannot be written, [src] is the memory a write reads.
    [dev_read] and [dev_write] are the rows of [devsw], with what the driver
    answers. *)
Section Io.
Context (killed : nat -> bool) (room : nat) (src : nat -> option ascii).
Context (dev_read : Z -> option (outcome * list ascii)) (dev_write : Z -> option outcome).

Definition fileread (i : nat) (n : Z) (k : ksys) : res (outcome * list ascii * ksys) :=
  let f := file_at i k in
  if negb (readable f) || (n <? 0) then Ok (Return (-1), [], k)
  else
    match ftype f with
    | FD_PIPE =>
        pi ← or_panic (pipes k !! fpipe f);
        let '(o, bs, pi') := piperead killed (fun j => (j <? room)%nat) n pi in
        Ok (o, bs, set_pipes (<[fpipe f := pi']> (pipes k)) k)
    | FD_DEVICE =>
        if (fmajor f <? 0) || (NDEV <=? fmajor f) then Ok (Return (-1), [], k)
        else match dev_read (fmajor f) with None => Ok (Return (-1), [], k) | Some (o, bs) => Ok (o, bs, k) end
    | FD_INODE =>
        s1 ← ilock sb (fip f) (kfs k);
        '(r, bs, ip, d) ← or_panic (readi sb room (foff f) n (entry (fip f) s1) (fdisk s1));
        let f1 := if 0 <? r then set_off (u32 (foff f + r)) f else f in
        s2 ← iunlock (fip f) (set_disk d (set_entry (fip f) ip s1));
        Ok (Return r, bs, set_fs s2 (set_file i f1 k))
    | FD_NONE => Panic
    end.

(** [((MAXOPBLOCKS - 1 - 1 - 2) / 2) * BSIZE]. *)
Definition max_write : Z := (MAXOPBLOCKS - 1 - 1 - 2) / 2 * BSIZE.

(** One turn: the bytes from [j] on, at most [n1] of them. *)
Definition write_chunk (i : nat) (j n1 : Z) (k : ksys) : res (Z * ksys) :=
  let f := file_at i k in
  s1 ← ilock sb (fip f) (kfs k);
  '(r, ip, d) ← or_panic (writei sb (fun x => src (Z.to_nat j + x)%nat) (foff f) n1 (entry (fip f) s1) (fdisk s1));
  let f1 := if 0 <? r then set_off (u32 (foff f + r)) f else f in
  s2 ← iunlock (fip f) (set_disk d (set_entry (fip f) ip s1));
  Ok (r, set_fs s2 (set_file i f1 k)).

Fixpoint write_chunks (fuel : nat) (i : nat) (j n : Z) (k : ksys) : res (Z * ksys) :=
  match fuel with
  | O => Ok (j, k)
  | S fuel' =>
      if j <? n then
        let n1 := if max_write <? n - j then max_write else n - j in
        '(r, k1) ← write_chunk i j n1 k;
        if negb (r =? n1) then Ok (j, k1) else write_chunks fuel' i (j + r) n k1
      else Ok (j, k)
  end.

(** [done] bytes of a write to a pipe were moved before it slept. *)
Definition filewrite (i : nat) (n : Z) (done : nat) (k : ksys) : res (outcome * ksys) :=
  let f := file_at i k in
  if negb (writable f) || (n <? 0) then Ok (Return (-1), k)
  else
    match ftype f with
    | FD_PIPE =>
        pi ← or_panic (pipes k !! fpipe f);
        let '(o, _, pi') := pipewrite killed src n done pi in
        Ok (o, set_pipes (<[fpipe f := pi']> (pipes k)) k)
    | FD_DEVICE =>
        if (fmajor f <? 0) || (NDEV <=? fmajor f) then Ok (Return (-1), k)
        else match dev_write (fmajor f) with None => Ok (Return (-1), k) | Some o => Ok (o, k) end
    | FD_INODE =>
        '(j, k1) ← write_chunks (Z.to_nat n) i 0 n k;
        Ok (Return (if j =? n then n else -1), k1)
    | FD_NONE => Panic
    end.
End Io.

(** ** [pipealloc]

    [page] is what [kalloc] answers: an address and the bytes of the page. *)
Definition pipe_file (w : bool) (q : nat) (f : file) : file :=
  mkFile FD_PIPE (fref f) (negb w) w q (fip f) (foff f) (fmajor f).

Definition pipealloc (page : option (nat * list ascii)) (k : ksys) : res (option (nat * nat) * ksys) :=
  match filealloc k with
  | None => Ok (None, k)
  | Some (f0, k1) =>
      match filealloc k1 with
      | None => k2 ← fileclose f0 k1; Ok (None, k2)
      | Some (f1, k2) =>
          match page with
          | None => k3 ← fileclose f0 k2; k4 ← fileclose f1 k3; Ok (None, k4)
          | Some (q, junk) =>
              let k3 := set_pipes (<[q := Pipe.pipealloc junk]> (pipes k2)) k2 in
              let k4 := set_file f0 (pipe_file false q (file_at f0 k3)) k3 in
              let k5 := set_file f1 (pipe_file true q (file_at f1 k4)) k4 in
              Ok (Some (f0, f1), k5)
          end
      end
  end.
End Files.
