(* ===== verification/Sysfile.v ===== *)
(** * File system calls (xv6/kernel/sysfile.c)

    The system calls on descriptors and paths, for the process at index [p].
    [argstr] has fetched the paths: [None] is its failure.  The calls return
    what the user sees and the state; [exec] is not among them. *)
From S2P Require Import Prelude KString Disk Balloc Inode Content Rw Trunc Itable Pipe Dir Path File.
Local Open Scope Z_scope.

Definition T_FILE : Z := 2.
Definition T_DEVICE : Z := 3.
Definition NLINK_MAX : Z := 32767.
Definition O_RDONLY : Z := 0x000.
Definition O_WRONLY : Z := 0x001.
Definition O_RDWR : Z := 0x002.
Definition O_CREATE : Z := 0x200.
Definition O_TRUNC : Z := 0x400.

Definition set_nlink (n : Z) (ip : inode) : inode :=
  mkInode (dev ip) (inum ip) (iref ip) (locked ip) (valid ip) (itype ip) (imajor ip) (iminor ip) n (isize ip) (addrs ip).
Definition set_dev (ma mi : Z) (ip : inode) : inode :=
  mkInode (dev ip) (inum ip) (iref ip) (locked ip) (valid ip) (itype ip) ma mi (nlink ip) (isize ip) (addrs ip).

(** ** Descriptors *)
Definition proc_at (p : nat) (k : ksys) : pfiles := nth p (procs k) no_files.
Definition set_proc (p : nat) (x : pfiles) (k : ksys) : ksys := set_procs (<[p := x]> (procs k)) k.
Definition set_fd (fd : nat) (v : option nat) (x : pfiles) : pfiles := mkPfiles (<[fd := v]> (ofile x)) (cwd x).

(** The file behind a descriptor. *)
Definition argfd (fd : Z) (p : nat) (k : ksys) : option nat :=
  if (fd <? 0) || (Z.of_nat NOFILE <=? fd) then None else nth (Z.to_nat fd) (ofile (proc_at p k)) None.

Fixpoint free_fd (fd : nat) (l : list (option nat)) : option nat :=
  match l with
  | [] => None
  | None :: _ => Some fd
  | Some _ :: l' => free_fd (S fd) l'
  end.

Definition fdalloc (f p : nat) (k : ksys) : option (nat * ksys) :=
  match free_fd 0 (ofile (proc_at p k)) with
  | Some fd => Some (fd, set_proc p (set_fd fd (Some f) (proc_at p k)) k)
  | None => None
  end.

Definition sys_dup (fd : Z) (p : nat) (k : ksys) : res (Z * ksys) :=
  match argfd fd p k with
  | None => Ok (-1, k)
  | Some f =>
      match fdalloc f p k with
      | None => Ok (-1, k)
      | Some (fd', k1) => k2 ← filedup f k1; Ok (Z.of_nat fd', k2)
      end
  end.

Section Calls.
Context (sb : superblock).

Section Io.
Context (killed : nat -> bool) (room : nat) (src : nat -> option ascii).
Context (dev_read : Z -> option (outcome * list ascii)) (dev_write : Z -> option outcome).

Definition sys_read (fd n : Z) (p : nat) (k : ksys) : res (outcome * list ascii * ksys) :=
  match argfd fd p k with
  | None => Ok (Return (-1), [], k)
  | Some f => fileread sb killed room dev_read f n k
  end.

Definition sys_write (fd n : Z) (done : nat) (p : nat) (k : ksys) : res (outcome * ksys) :=
  match argfd fd p k with
  | None => Ok (Return (-1), k)
  | Some f => filewrite sb killed src dev_write f n done k
  end.
End Io.

Definition sys_close (fd : Z) (p : nat) (k : ksys) : res (Z * ksys) :=
  match argfd fd p k with
  | None => Ok (-1, k)
  | Some f =>
      k1 ← fileclose sb f (set_proc p (set_fd (Z.to_nat fd) None (proc_at p k)) k);
      Ok (0, k1)
  end.

Definition sys_fstat (fd : Z) (copied : bool) (p : nat) (k : ksys) : res (Z * option (Z * Z * Z * Z * Z) * ksys) :=
  match argfd fd p k with
  | None => Ok (-1, None, k)
  | Some f => filestat sb copied f k
  end.

(** ** Links *)

(** The entry of slot [i] becomes [ip] and is stored with [iupdate]. *)
Definition update (i : nat) (ip : inode) (s : fsys) : fsys := set_disk (iupdate sb ip (fdisk s)) (set_entry i ip s).

(** The label [bad] of [sys_link]. *)
Definition unlink_again (i : nat) (s : fsys) : res (Z * fsys) :=
  s1 ← ilock sb i s;
  s2 ← iunlockput sb i (update i (set_nlink (nlink (entry i s1) - 1) (entry i s1)) s1);
  Ok (-1, s2).

(** After the count of [ip] went up: the entry in the new directory. *)
Definition link_into (cw : nat) (new : cstr) (ip : nat) (s : fsys) : res (Z * fsys) :=
  '(o, name, s1) ← nameiparent sb cw new s;
  match o with
  | None => unlink_again ip s1
  | Some dp =>
      s2 ← ilock sb dp s1;
      if nlink (entry dp s2) =? 0 then s3 ← iunlockput sb dp s2; unlink_again ip s3
      else
        '(r, s3) ← (if negb (dev (entry dp s2) =? dev (entry ip s2)) then Ok (-1, s2)
                    else dirlink sb dp name (inum (entry ip s2)) s2);
        s4 ← iunlockput sb dp s3;
        if r <? 0 then unlink_again ip s4 else s5 ← iput sb ip s4; Ok (0, s5)
  end.

Definition link (cw : nat) (old new : cstr) (s : fsys) : res (Z * fsys) :=
  '(o, s1) ← namei sb cw old s;
  match o with
  | None => Ok (-1, s1)
  | Some ip =>
      s2 ← ilock sb ip s1;
      if (itype (entry ip s2) =? T_DIR) || (NLINK_MAX <=? nlink (entry ip s2)) then s3 ← iunlockput sb ip s2; Ok (-1, s3)
      else
        s3 ← iunlock ip (update ip (set_nlink (nlink (entry ip s2) + 1) (entry ip s2)) s2);
        link_into cw new ip s3
  end.

(** The loop of [isdirempty]. *)
Fixpoint empty_loop (fuel : nat) (off : Z) (dp : inode) (d : disk) : res (bool * inode * disk) :=
  match fuel with
  | O => Ok (true, dp, d)
  | S fuel' =>
      if off <? isize dp then
        '(de, dp1, d1) ← read_dirent sb off dp d;
        if negb (de_inum de =? 0) then Ok (false, dp1, d1) else empty_loop fuel' (off + 16) dp1 d1
      else Ok (true, dp, d)
  end.

Definition isdirempty (i : nat) (s : fsys) : res (bool * fsys) :=
  '(b, dp, d) ← empty_loop (turns (entry i s)) 32 (entry i s) (fdisk s);
  Ok (b, set_disk d (set_entry i dp s)).

(** The label [bad] of [sys_unlink]. *)
Definition give_up_dir (dp : nat) (s : fsys) : res (Z * fsys) := s1 ← iunlockput sb dp s; Ok (-1, s1).

(** The entry at [off] of [dp], which names [ip], is erased. *)
Definition erase_entry (dp ip : nat) (off : Z) (s : fsys) : res (Z * fsys) :=
  '(r, dpi, d) ← or_panic (writei sb (fun j => replicate 16 NUL !! j) off 16 (entry dp s) (fdisk s));
  if negb (r =? 16) then Panic
  else
    let s1 := set_disk d (set_entry dp dpi s) in
    let s2 := if itype (entry ip s1) =? T_DIR then update dp (set_nlink (nlink (entry dp s1) - 1) (entry dp s1)) s1 else s1 in
    s3 ← iunlockput sb dp s2;
    s4 ← iunlockput sb ip (update ip (set_nlink (nlink (entry ip s3) - 1) (entry ip s3)) s3);
    Ok (0, s4).

Definition unlink_name (dp : nat) (name : cstr) (s : fsys) : res (Z * fsys) :=
  if (namecmp name (str ".") =? 0) || (namecmp name (str "..") =? 0) then give_up_dir dp s
  else
    '(o, s1) ← dirlookup sb dp name s;
    match o with
    | None => give_up_dir dp s1
    | Some (ip, off) =>
        s2 ← ilock sb ip s1;
        if nlink (entry ip s2) <? 1 then Panic
        else
          '(empty, s3) ← (if itype (entry ip s2) =? T_DIR then isdirempty ip s2 else Ok (true, s2));
          if negb empty then s4 ← iunlockput sb ip s3; give_up_dir dp s4
          else erase_entry dp ip off s3
    end.

Definition unlink (cw : nat) (path : cstr) (s : fsys) : res (Z * fsys) :=
  '(o, name, s1) ← nameiparent sb cw path s;
  match o with
  | None => Ok (-1, s1)
  | Some dp => s2 ← ilock sb dp s1; unlink_name dp name s2
  end.

(** ** Creating *)

(** The label [fail] of [create]. *)
Definition create_fail (dp ip : nat) (s : fsys) : res (option nat * fsys) :=
  s1 ← iunlockput sb ip (update ip (set_nlink 0 (entry ip s)) s);
  s2 ← iunlockput sb dp s1;
  Ok (None, s2).

(** The directory entries of the new inode [ip]; whether they were made. *)
Definition create_links (dp ip : nat) (name : cstr) (type : Z) (s : fsys) : res (bool * fsys) :=
  let nm := inum (entry ip s) in
  '(ok, s1) ←
    (if type =? T_DIR then
       '(r1, s1) ← dirlink sb ip (str ".") nm s;
       if r1 <? 0 then Ok (false, s1)
       else '(r2, s2) ← dirlink sb ip (str "..") (inum (entry dp s1)) s1; Ok (negb (r2 <? 0), s2)
     else Ok (true, s));
  if ok : bool then '(r, s2) ← dirlink sb dp name nm s1; Ok (negb (r <? 0), s2) else Ok (false, s1).

(** A new inode named [name] in the locked directory [dp]. *)
Definition create_new (dp : nat) (name : cstr) (type major minor : Z) (s : fsys) : res (option nat * fsys) :=
  '(o, s1) ← ialloc sb (dev (entry dp s)) type s;
  match o with
  | None => s2 ← iunlockput sb dp s1; Ok (None, s2)
  | Some ip =>
      s2 ← ilock sb ip s1;
      let s3 := update ip (set_nlink 1 (set_dev major minor (entry ip s2))) s2 in
      '(ok, s4) ← create_links dp ip name type s3;
      if negb ok then create_fail dp ip s4
      else
        let s5 := if type =? T_DIR then update dp (set_nlink (nlink (entry dp s4) + 1) (entry dp s4)) s4 else s4 in
        s6 ← iunlockput sb dp s5;
        Ok (Some ip, s6)
  end.

(** The slot of the inode, locked, if there is or can be one. *)
Definition create (cw : nat) (path : cstr) (type major minor : Z) (s : fsys) : res (option nat * fsys) :=
  '(o, name, s1) ← nameiparent sb cw path s;
  match o with
  | None => Ok (None, s1)
  | Some dp =>
      s2 ← ilock sb dp s1;
      if (nlink (entry dp s2) =? 0) || ((type =? T_DIR) && (NLINK_MAX <=? nlink (entry dp s2)))
      then s3 ← iunlockput sb dp s2; Ok (None, s3)
      else
        '(hit, s3) ← dirlookup sb dp name s2;
        match hit with
        | Some (ip, _) =>
            s4 ← iunlockput sb dp s3;
            s5 ← ilock sb ip s4;
            if (type =? T_FILE) && ((itype (entry ip s5) =? T_FILE) || (itype (entry ip s5) =? T_DEVICE)) then Ok (Some ip, s5)
            else s6 ← iunlockput sb ip s5; Ok (None, s6)
        | None => create_new dp name type major minor s3
        end
  end.

(** ** The calls *)
Definition cwd_of (p : nat) (k : ksys) : res nat := or_panic (cwd (proc_at p k)).

Definition sys_link (old new : option cstr) (p : nat) (k : ksys) : res (Z * ksys) :=
  match old, new with
  | Some old, Some new => cw ← cwd_of p k; '(r, s) ← link cw old new (kfs k); Ok (r, set_fs s k)
  | _, _ => Ok (-1, k)
  end.

Definition sys_unlink (path : option cstr) (p : nat) (k : ksys) : res (Z * ksys) :=
  match path with
  | Some path => cw ← cwd_of p k; '(r, s) ← unlink cw path (kfs k); Ok (r, set_fs s k)
  | None => Ok (-1, k)
  end.

(** [create] for [sys_mkdir] and [sys_mknod], which drop the inode. *)
Definition make (path : option cstr) (type major minor : Z) (p : nat) (k : ksys) : res (Z * ksys) :=
  match path with
  | None => Ok (-1, k)
  | Some path =>
      cw ← cwd_of p k;
      '(o, s) ← create cw path type major minor (kfs k);
      match o with
      | None => Ok (-1, set_fs s k)
      | Some ip => s1 ← iunlockput sb ip s; Ok (0, set_fs s1 k)
      end
  end.

Definition sys_mkdir (path : option cstr) : nat -> ksys -> res (Z * ksys) := make path T_DIR 0 0.
(** The device numbers become [short]. *)
Definition sys_mknod (path : option cstr) (major minor : Z) : nat -> ksys -> res (Z * ksys) :=
  make path T_DEVICE (i16 major) (i16 minor).

Definition flag (omode bit : Z) : bool := negb (Z.land omode bit =? 0).

(** The inode that [sys_open] opens, locked. *)
Definition open_inode (cw : nat) (path : cstr) (omode : Z) (s : fsys) : res (option nat * fsys) :=
  if flag omode O_CREATE then create cw path T_FILE 0 0 s
  else
    '(o, s1) ← namei sb cw path s;
    match o with
    | None => Ok (None, s1)
    | Some ip =>
        s2 ← ilock sb ip s1;
        if (itype (entry ip s2) =? T_DIR) && negb (omode =? O_RDONLY) then s3 ← iunlockput sb ip s2; Ok (None, s3)
        else Ok (Some ip, s2)
    end.

(** The fields of the new file. *)
Definition open_file (i : nat) (ip : inode) (omode : Z) (f : file) : file :=
  let r := negb (flag omode O_WRONLY) in
  let w := flag omode O_WRONLY || flag omode O_RDWR in
  if itype ip =? T_DEVICE then mkFile FD_DEVICE (fref f) r w (fpipe f) i (foff f) (imajor ip)
  else mkFile FD_INODE (fref f) r w (fpipe f) i 0 (fmajor f).

Definition open_fail (ip : nat) (k : ksys) : res (Z * ksys) := s ← iunlockput sb ip (kfs k); Ok (-1, set_fs s k).

(** From the locked inode on. *)
Definition open_locked (ip : nat) (omode : Z) (p : nat) (k : ksys) : res (Z * ksys) :=
  let i := entry ip (kfs k) in
  if (itype i =? T_DEVICE) && ((imajor i <? 0) || (NDEV <=? imajor i)) then open_fail ip k
  else
    match filealloc k with
    | None => open_fail ip k
    | Some (f, k1) =>
        match fdalloc f p k1 with
        | None => k2 ← fileclose sb f k1; open_fail ip k2
        | Some (fd, k2) =>
            let k3 := set_file f (open_file ip i omode (file_at f k2)) k2 in
            s1 ← (if flag omode O_TRUNC && (itype i =? T_FILE) then
                    '(i', d) ← or_panic (itrunc sb i (fdisk (kfs k3))); Ok (set_disk d (set_entry ip i' (kfs k3)))
                  else Ok (kfs k3));
            s2 ← iunlock ip s1;
            Ok (Z.of_nat fd, set_fs s2 k3)
        end
    end.

Definition sys_open (path : option cstr) (omode : Z) (p : nat) (k : ksys) : res (Z * ksys) :=
  match path with
  | None => Ok (-1, k)
  | Some path =>
      cw ← cwd_of p k;
      '(o, s) ← open_inode cw path omode (kfs k);
      match o with
      | None => Ok (-1, set_fs s k)
      | Some ip => open_locked ip omode p (set_fs s k)
      end
  end.

Definition sys_chdir (path : option cstr) (p : nat) (k : ksys) : res (Z * ksys) :=
  match path with
  | None => Ok (-1, k)
  | Some path =>
      cw ← cwd_of p k;
      '(o, s) ← namei sb cw path (kfs k);
      match o with
      | None => Ok (-1, set_fs s k)
      | Some ip =>
          s1 ← ilock sb ip s;
          if negb (itype (entry ip s1) =? T_DIR) then s2 ← iunlockput sb ip s1; Ok (-1, set_fs s2 k)
          else
            s2 ← iunlock ip s1;
            s3 ← iput sb cw s2;
            Ok (0, set_proc p (mkPfiles (ofile (proc_at p k)) (Some ip)) (set_fs s3 k))
      end
  end.

(** [out] tells whether both calls of [copyout] succeed. *)
Definition sys_pipe (page : option (nat * list ascii)) (out : bool) (p : nat) (k : ksys) : res (Z * ksys) :=
  '(o, k1) ← pipealloc sb page k;
  match o with
  | None => Ok (-1, k1)
  | Some (rf, wf) =>
      let drop k := (k' ← fileclose sb rf k; k'' ← fileclose sb wf k'; Ok (-1, k'')) in
      match fdalloc rf p k1 with
      | None => drop k1
      | Some (fd0, k2) =>
          match fdalloc wf p k2 with
          | None => drop (set_proc p (set_fd fd0 None (proc_at p k2)) k2)
          | Some (fd1, k3) =>
              if out then Ok (0, k3)
              else drop (set_proc p (set_fd fd1 None (set_fd fd0 None (proc_at p k3))) k3)
          end
      end
  end.

(** ** Processes *)

(** [kfork]: the descriptors from [fd] on, in [todo], and the current
    directory go to the process at [np]. *)
Fixpoint fork_fds (todo : list (option nat)) (fd np : nat) (k : ksys) : res ksys :=
  match todo with
  | [] => Ok k
  | None :: todo' => fork_fds todo' (S fd) np k
  | Some f :: todo' =>
      k1 ← filedup f k;
      fork_fds todo' (S fd) np (set_proc np (set_fd fd (Some f) (proc_at np k1)) k1)
  end.

Definition fork_files (np p : nat) (k : ksys) : res ksys :=
  k1 ← fork_fds (ofile (proc_at p k)) 0 np k;
  cw ← cwd_of p k1;
  let k2 := set_fs (idup cw (kfs k1)) k1 in
  Ok (set_proc np (mkPfiles (ofile (proc_at np k2)) (Some cw)) k2).

(** [kexit]: all descriptors are closed and the current directory dropped. *)
Fixpoint exit_fds (todo : list (option nat)) (fd p : nat) (k : ksys) : res ksys :=
  match todo with
  | [] => Ok k
  | None :: todo' => exit_fds todo' (S fd) p k
  | Some f :: todo' =>
      k1 ← fileclose sb f k;
      exit_fds todo' (S fd) p (set_proc p (set_fd fd None (proc_at p k1)) k1)
  end.

Definition exit_files (p : nat) (k : ksys) : res ksys :=
  k1 ← exit_fds (ofile (proc_at p k)) 0 p k;
  cw ← cwd_of p k1;
  s ← iput sb cw (kfs k1);
  let k2 := set_fs s k1 in
  Ok (set_proc p (mkPfiles (ofile (proc_at p k2)) None) k2).

(** [userinit]: the first process starts in the root directory. *)
Definition init_files (p : nat) (k : ksys) : res ksys :=
  '(o, s) ← namei sb 0 (str "/") (kfs k);
  Ok (set_proc p (mkPfiles (ofile (proc_at p k)) o) (set_fs s k)).
End Calls.
