(* ===== verification/Syspaths.v ===== *)
(** * References and locks of the calls on paths (xv6/kernel/sysfile.c)

    On every path through them, the error paths included, the calls that
    resolve, link, unlink and create names give back each reference and each
    lock they take, except the inode they return. *)
From S2P Require Import Prelude KString Disk Balloc Inode Content Rw Trunc Itable Iref Dir Path Ledger File Sysfile.
Local Open Scope Z_scope.

(** The next operation of a call succeeds; [E] says so. *)
Ltac run E :=
  match goal with
  | |- context [@mbind res _ _ _ _ ?m] => destruct m eqn:E; [|discriminate..]; cbn [mbind res_bind]
  end.

Section Paths.
Context (sb : superblock).

Lemma led_update s hs lk i ip : led s hs lk -> i ∈ hs -> same_slot (entry i s) ip -> led (update sb i ip s) hs lk.
Proof. apply led_content. Qed.

Lemma led_unlink_again s hs i r s' : led s (i :: hs) [] -> unlink_again sb i s = Ok (r, s') -> led s' hs [].
Proof.
  intros Hl. assert (Hi : i ∈ i :: hs) by set_solver. unfold unlink_again. run E1.
  pose proof (led_ilock _ _ _ _ _ _ Hl Hi E1) as H1. run E2. intros [= _ <-].
  eapply led_iunlockput; [|exact E2]. by apply led_update.
Qed.

Lemma led_link_into s hs cw new ip r s' : led s (ip :: hs) [] -> cw ∈ ip :: hs ->
  link_into sb cw new ip s = Ok (r, s') -> led s' hs [].
Proof.
  intros Hl Hc. unfold link_into, nameiparent. run E1. destruct a as [[o name] s1]. pose proof (led_namex _ _ _ _ _ _ _ _ _ Hl Hc E1) as H1.
  destruct o as [dp|]; [|by apply led_unlink_again].
  assert (Hdp : dp ∈ dp :: ip :: hs) by set_solver. run E2. pose proof (led_ilock _ _ _ _ _ _ H1 Hdp E2) as H2.
  destruct (nlink _ =? 0).
  { run E3. apply led_unlink_again. by eapply led_iunlockput. }
  run E3. destruct a0 as [r1 s3].
  assert (H3 : led s3 (dp :: ip :: hs) [dp]).
  { destruct (negb _); [by injection E3 as _ <- | exact (led_dirlink _ _ _ _ _ _ _ _ _ H2 Hdp E3)]. }
  run E4. pose proof (led_iunlockput _ _ _ _ _ _ H3 E4) as H4. destruct (r1 <? 0); [by apply led_unlink_again|].
  run E5. intros [= _ <-]. eapply led_iput; [exact H4 | set_solver | exact E5].
Qed.

Lemma led_namei s hs cw path o s' : led s hs [] -> cw ∈ hs -> namei sb cw path s = Ok (o, s') ->
  led s' (match o with Some j => j :: hs | None => hs end) [].
Proof.
  intros Hl Hc. unfold namei. run E1. destruct a as [[o1 name] s1]. intros [= <- <-]. by eapply led_namex.
Qed.

Lemma led_link s hs cw old new r s' : led s hs [] -> cw ∈ hs -> link sb cw old new s = Ok (r, s') -> led s' hs [].
Proof.
  intros Hl Hc. unfold link. run E1. destruct a as [o s1]. pose proof (led_namei _ _ _ _ _ _ Hl Hc E1) as H1.
  destruct o as [ip|]; [|by intros [= _ <-]]. assert (Hip : ip ∈ ip :: hs) by set_solver.
  run E2. pose proof (led_ilock _ _ _ _ _ _ H1 Hip E2) as H2. destruct (_ || _).
  { run E3. intros [= _ <-]. by eapply led_iunlockput. }
  run E3. apply led_link_into; [|set_solver]. eapply (led_iunlock sb); [|exact E3]. by apply led_update.
Qed.

(** ** Unlinking *)
Lemma empty_loop_slot : forall fuel off dp d b dp' d', empty_loop sb fuel off dp d = Ok (b, dp', d') -> same_slot dp dp'.
Proof.
  induction fuel as [|fuel IH]; intros off dp d b dp' d'; cbn [empty_loop]; [by intros [= _ <- _]|].
  destruct (off <? isize dp); [|by intros [= _ <- _]]. run E. destruct a as [[de dp1] d1]. apply read_dirent_slot in E.
  destruct (negb _); [by intros [= _ <- _] | intros H; apply IH in H; by transitivity dp1].
Qed.

Lemma led_isdirempty s hs lk i b s' : led s hs lk -> i ∈ hs -> isdirempty sb i s = Ok (b, s') -> led s' hs lk.
Proof.
  intros Hl Hi. unfold isdirempty. run E. destruct a as [[b1 dp] d]. apply empty_loop_slot in E. intros [= _ <-]. by apply led_content.
Qed.

Lemma led_give_up s hs lk dp r s' : led s (dp :: hs) (dp :: lk) -> give_up_dir sb dp s = Ok (r, s') -> led s' hs lk.
Proof. intros Hl. unfold give_up_dir. run E. intros [= _ <-]. by eapply led_iunlockput. Qed.

Lemma led_erase s hs dp ip off r s' : led s (ip :: dp :: hs) [ip; dp] -> erase_entry sb dp ip off s = Ok (r, s') -> led s' hs [].
Proof.
  intros Hl. unfold erase_entry. run E1. destruct a as [[n dpi] d].
  destruct (writei _ _ _ _ _ _) as [[[n' dpi'] d']|] eqn:Ew; [|done]. injection E1 as -> -> ->. apply writei_slot in Ew.
  destruct (negb _); [done|].
  assert (Hdp : dp ∈ ip :: dp :: hs) by set_solver. assert (Hip : ip ∈ ip :: hs) by set_solver.
  pose proof (led_content _ _ _ dp dpi d Hl Hdp Ew) as H1. set (s1 := set_disk d _) in *. set (s2 := if itype _ =? T_DIR then _ else s1).
  assert (H2 : led s2 (dp :: ip :: hs) [dp; ip]).
  { rewrite (Permutation_swap ip dp hs), (perm_swap ip dp []). unfold s2. destruct (_ =? T_DIR); [by apply led_update | done]. }
  run E3. pose proof (led_iunlockput _ _ _ _ _ _ H2 E3) as H3. run E4. intros [= _ <-].
  eapply led_iunlockput; [|exact E4]. by apply led_update.
Qed.

Lemma led_unlink_name s hs dp name r s' : led s (dp :: hs) [dp] -> unlink_name sb dp name s = Ok (r, s') -> led s' hs [].
Proof.
  intros Hl. unfold unlink_name. destruct (_ || _); [by apply led_give_up|].
  assert (Hdp : dp ∈ dp :: hs) by set_solver. run E1. destruct a as [o s1]. pose proof (led_dirlookup _ _ _ _ _ _ _ _ Hl Hdp E1) as H1.
  destruct o as [[ip off]|]; [|by apply led_give_up]. assert (Hip : ip ∈ ip :: dp :: hs) by set_solver.
  run E2. pose proof (led_ilock _ _ _ _ _ _ H1 Hip E2) as H2. destruct (_ <? 1); [done|]. run E3. destruct a0 as [empty s3].
  assert (H3 : led s3 (ip :: dp :: hs) [ip; dp]).
  { destruct (_ =? T_DIR); [by eapply led_isdirempty | by injection E3 as _ <-]. }
  destruct empty; simpl; [by apply led_erase|]. run E4. apply led_give_up. by eapply led_iunlockput.
Qed.

Lemma led_unlink s hs cw path r s' : led s hs [] -> cw ∈ hs -> unlink sb cw path s = Ok (r, s') -> led s' hs [].
Proof.
  intros Hl Hc. unfold unlink, nameiparent. run E1. destruct a as [[o name] s1]. pose proof (led_namex _ _ _ _ _ _ _ _ _ Hl Hc E1) as H1.
  destruct o as [dp|]; [|by intros [= _ <-]]. run E2. apply led_unlink_name. eapply led_ilock; [exact H1 | set_solver | exact E2].
Qed.

(** ** Creating and opening *)
Lemma led_create_links s hs lk dp ip name type b s' : led s hs lk -> dp ∈ hs -> ip ∈ hs ->
  create_links sb dp ip name type s = Ok (b, s') -> led s' hs lk.
Proof.
  intros Hl Hdp Hip. unfold create_links. run E1. destruct a as [ok s1].
  assert (H1 : led s1 hs lk).
  { revert E1. destruct (type =? T_DIR); [|by intros [= _ <-]]. run E1. destruct a as [r1 s2].
    pose proof (led_dirlink _ _ _ _ _ _ _ _ _ Hl Hip E1) as H1. destruct (r1 <? 0); [by intros [= _ <-]|]. run E2. destruct a as [r2 s3].
    intros [= _ <-]. exact (led_dirlink _ _ _ _ _ _ _ _ _ H1 Hip E2). }
  destruct ok; [|by intros [= _ <-]]. run E2. destruct a as [r s2]. intros [= _ <-]. exact (led_dirlink _ _ _ _ _ _ _ _ _ H1 Hdp E2).
Qed.

(** The inode that is returned, with its lock. *)
Definition got (o : option nat) : list nat := option_list o.

Lemma led_create_new s hs dp name type ma mi o s' : led s (dp :: hs) [dp] ->
  create_new sb dp name type ma mi s = Ok (o, s') -> led s' (got o ++ hs) (got o).
Proof.
  intros Hl. unfold create_new. run E1. destruct a as [oi s1]. pose proof (led_ialloc _ _ _ _ _ _ _ _ Hl E1) as H1.
  destruct oi as [ip|].
  2:{ run E2. intros [= <- <-]. by eapply led_iunlockput. }
  assert (Hip : ip ∈ ip :: dp :: hs) by set_solver. assert (Hdp : dp ∈ ip :: dp :: hs) by set_solver.
  run E2. pose proof (led_ilock _ _ _ _ _ _ H1 Hip E2) as H2. set (s3 := update _ _ _ _).
  assert (H3 : led s3 (ip :: dp :: hs) [ip; dp]) by (by apply led_update). run E4. destruct a0 as [ok s4].
  pose proof (led_create_links _ _ _ _ _ _ _ _ _ H3 Hdp Hip E4) as H4. destruct ok; simpl.
  - set (s5 := if type =? T_DIR then _ else s4).
    assert (H5 : led s5 (dp :: ip :: hs) [dp; ip]).
    { rewrite (Permutation_swap ip dp hs), (perm_swap ip dp []). unfold s5. destruct (_ =? T_DIR); [by apply led_update | done]. }
    run E6. intros [= <- <-]. simpl. by eapply led_iunlockput.
  - unfold create_fail. run E5. run E6. intros [= <- <-]. simpl. eapply led_iunlockput; [|exact E6].
    eapply led_iunlockput; [|exact E5]. by apply led_update.
Qed.

Lemma led_create s hs cw path type ma mi o s' : led s hs [] -> cw ∈ hs ->
  create sb cw path type ma mi s = Ok (o, s') -> led s' (got o ++ hs) (got o).
Proof.
  intros Hl Hc. unfold create, nameiparent. run E1. destruct a as [[oi name] s1]. pose proof (led_namex _ _ _ _ _ _ _ _ _ Hl Hc E1) as H1.
  destruct oi as [dp|]; [|by intros [= <- <-]]. assert (Hdp : dp ∈ dp :: hs) by set_solver.
  run E2. pose proof (led_ilock _ _ _ _ _ _ H1 Hdp E2) as H2. destruct (_ || _).
  { run E3. intros [= <- <-]. by eapply led_iunlockput. }
  run E3. destruct a0 as [hit s3]. pose proof (led_dirlookup _ _ _ _ _ _ _ _ H2 Hdp E3) as H3.
  destruct hit as [[ip off]|]; [|by apply led_create_new]. rewrite (Permutation_swap dp ip hs) in H3.
  run E4. pose proof (led_iunlockput _ _ _ _ _ _ H3 E4) as H4. assert (Hip : ip ∈ ip :: hs) by set_solver.
  run E5. pose proof (led_ilock _ _ _ _ _ _ H4 Hip E5) as H5. destruct (_ && _); [by intros [= <- <-]|].
  run E6. intros [= <- <-]. by eapply led_iunlockput.
Qed.

Lemma led_open_inode s hs cw path omode o s' : led s hs [] -> cw ∈ hs ->
  open_inode sb cw path omode s = Ok (o, s') -> led s' (got o ++ hs) (got o).
Proof.
  intros Hl Hc. unfold open_inode. destruct (flag _ _); [by apply led_create|]. run E1. destruct a as [oi s1].
  pose proof (led_namei _ _ _ _ _ _ Hl Hc E1) as H1. destruct oi as [ip|]; [|by intros [= <- <-]].
  assert (Hip : ip ∈ ip :: hs) by set_solver. run E2. pose proof (led_ilock _ _ _ _ _ _ H1 Hip E2) as H2.
  destruct (_ && _); [|by intros [= <- <-]]. run E3. intros [= <- <-]. by eapply led_iunlockput.
Qed.
End Paths.
