(* ===== verification/Sysrefs.v ===== *)
(** * Who holds what (xv6/kernel/file.c, sysfile.c)

    Every reference to an open file is a descriptor of a process, every
    reference to an inode is an open file or a current directory, and every
    open end of a pipe is an open file.  [inv] says so in the middle of a
    call, with the references [hs] and the locks [lk] on inodes and the
    references [ex] to files that the call itself holds, and the files [raw]
    that it has allocated and not yet filled in. *)
From S2P Require Import Prelude KString Disk Balloc Inode Content Rw Trunc Itable Iref Pipe Dir Path Ledger File Sysfile Syspaths.
Local Open Scope Z_scope.

(** ** Sums over a table *)
Section Bind.
Context {A B : Type} (g : A -> list B).

Lemma bind_split (l : list A) i x : l !! i = Some x -> l ≫= g ≡ₚ g x ++ (delete i l ≫= g).
Proof.
  intros H. rewrite <- (take_drop_middle l i x H) at 1. rewrite delete_take_drop, !bind_app. simpl. apply Permutation_app_swap_app.
Qed.

Lemma bind_insert (l : list A) i x y : l !! i = Some x -> <[i := y]> l ≫= g ≡ₚ g y ++ (delete i l ≫= g).
Proof.
  intros H. rewrite (bind_split (<[i := y]> l) i y) by (apply list_lookup_insert_eq; by eapply lookup_lt_Some).
  do 2 f_equiv. by rewrite !delete_take_drop, take_insert_ge, drop_insert_lt by lia.
Qed.

(** A change that makes no difference. *)
Lemma bind_same (l : list A) i x y : l !! i = Some x -> g y = g x -> <[i := y]> l ≫= g ≡ₚ l ≫= g.
Proof. intros H E. by rewrite (bind_insert l i x y H), E, <- (bind_split l i x H). Qed.
End Bind.

(** ** The references *)
Definition cwds (ps : list pfiles) : list nat := ps ≫= (fun x => option_list (cwd x)).
Definition fds (ps : list pfiles) : list nat := ps ≫= (fun x => ofile x ≫= option_list).
Definition f_inodes (f : file) : list nat := match ftype f with FD_INODE | FD_DEVICE => [fip f] | _ => [] end.
Definition f_ends (f : file) : list (nat * bool) := match ftype f with FD_PIPE => [(fpipe f, writable f)] | _ => [] end.

(** Side [w] of a pipe is open. *)
Definition end_open (w : bool) (pi : pipe) : bool := if w then writeopen pi else readopen pi.

Record pipes_ok (m : gmap nat pipe) (es : list (nat * bool)) : Prop := mkPipesOk {
  po_once : NoDup es;
  po_open : forall q w, (q, w) ∈ es <-> exists pi, m !! q = Some pi /\ end_open w pi = true;
  po_used : forall q pi, m !! q = Some pi -> readopen pi || writeopen pi = true
}.

#[export] Instance pipes_ok_proper m : Proper ((≡ₚ) ==> iff) (pipes_ok m).
Proof.
  assert (Himp : forall a b, a ≡ₚ b -> pipes_ok m a -> pipes_ok m b).
  { intros a b H [H1 H2 H3]. split; [by rewrite <- H | intros q w; by rewrite <- H | done]. }
  intros a b H. split; by apply Himp.
Qed.

Record inv (k : ksys) (hs lk ex raw : list nat) : Prop := mkInv {
  i_led : led (kfs k) (hs ++ cwds (procs k) ++ (ftab k ≫= f_inodes)) lk;
  i_len : length (ftab k) = NFILE;
  i_fds : Forall (fun x => length (ofile x) = NOFILE) (procs k);
  i_ref : forall i, (i < NFILE)%nat -> fref (file_at i k) = held i (ex ++ fds (procs k));
  i_in : forall i, i ∈ ex ++ fds (procs k) -> (i < NFILE)%nat;
  i_free : forall i, (i < NFILE)%nat -> fref (file_at i k) = 0 -> ftype (file_at i k) = FD_NONE;
  i_live : forall i, (i < NFILE)%nat -> i ∉ raw -> fref (file_at i k) <> 0 -> ftype (file_at i k) <> FD_NONE;
  i_raw : forall i, i ∈ raw -> ftype (file_at i k) = FD_NONE;
  i_pipes : pipes_ok (pipes k) (ftab k ≫= f_ends)
}.

#[export] Instance inv_proper k : Proper ((≡ₚ) ==> (≡ₚ) ==> (≡ₚ) ==> (≡ₚ) ==> iff) (inv k).
Proof.
  assert (Himp : forall a a' b b' c c' d d', a ≡ₚ a' -> b ≡ₚ b' -> c ≡ₚ c' -> d ≡ₚ d' -> inv k a b c d -> inv k a' b' c' d').
  { intros a a' b b' c c' d d' Ha Hb Hc Hd [H1 H2 H3 H4 H5 H6 H7 H8 H9]. split; try done.
    - by rewrite <- Ha, <- Hb.
    - intros i Hi. rewrite <- Hc. by apply H4.
    - intros i. rewrite <- Hc. apply H5.
    - intros i Hi. rewrite <- Hd. by apply H7.
    - intros i. rewrite <- Hd. apply H8. }
  intros a a' Ha b b' Hb c c' Hc d d' Hd. split; apply Himp; (done || by symmetry).
Qed.

(** The files of a table that is well formed. *)
Lemma ftab_lookup k i : length (ftab k) = NFILE -> (i < NFILE)%nat -> ftab k !! i = Some (file_at i k).
Proof.
  intros Hl Hi. destruct (lookup_lt_is_Some_2 (ftab k) i) as [f Hf]; [by rewrite Hl|]. unfold file_at. by rewrite nth_lookup, Hf.
Qed.

Lemma file_at_set i j f k : (i < length (ftab k))%nat -> file_at j (set_file i f k) = if (j =? i)%nat then f else file_at j k.
Proof.
  intros Hi. unfold file_at, set_file. simpl. rewrite !nth_lookup. destruct (Nat.eqb_spec j i) as [->|].
  - by rewrite list_lookup_insert_eq.
  - by rewrite list_lookup_insert_ne.
Qed.

Lemma held_nonneg i l : 0 <= held i l.
Proof. unfold held. lia. Qed.

Lemma not_held i l : held i l = 0 -> i ∉ l.
Proof. intros H Hin%held_pos. lia. Qed.

(** One file changes: its count, its inode and its end of a pipe follow. *)
Lemma inv_change k hs lk ex raw i f m hs' ex' raw' :
  inv k hs lk ex raw -> (i < NFILE)%nat ->
  hs' ++ f_inodes f ≡ₚ hs ++ f_inodes (file_at i k) ->
  (forall j, held j ex' = held j ex + if (j =? i)%nat then fref f - fref (file_at i k) else 0) ->
  (forall j, j ∈ ex' -> j ∈ ex \/ j = i) ->
  (fref f = 0 -> ftype f = FD_NONE) -> (i ∉ raw' -> fref f <> 0 -> ftype f <> FD_NONE) -> (i ∈ raw' -> ftype f = FD_NONE) ->
  (forall j, j <> i -> j ∈ raw' <-> j ∈ raw) ->
  pipes_ok m (f_ends f ++ (delete i (ftab k) ≫= f_ends)) ->
  inv (set_pipes m (set_file i f k)) hs' lk ex' raw'.
Proof.
  intros [H1 H2 H3 H4 H5 H6 H7 H8 H9] Hi Hhs Hheld Hex Hfree Hlive Hraw Hother Hp.
  pose proof (ftab_lookup k i H2 Hi) as Hf.
  assert (Hat : forall j, file_at j (set_pipes m (set_file i f k)) = if (j =? i)%nat then f else file_at j k).
  { intros j. apply file_at_set. by rewrite H2. }
  split; simpl; try done.
  - rewrite (bind_insert f_inodes (ftab k) i _ f Hf). rewrite (bind_split f_inodes (ftab k) i _ Hf) in H1.
    assert (E : forall c d, hs' ++ c ++ f_inodes f ++ d ≡ₚ hs ++ c ++ f_inodes (file_at i k) ++ d).
    { intros c d. rewrite (Permutation_app_swap_app c (f_inodes f)), (Permutation_app_swap_app c (f_inodes (file_at i k))).
      rewrite !(app_assoc _ _ (c ++ d)). by rewrite Hhs. }
    by rewrite E.
  - by rewrite length_insert.
  - intros j Hj. rewrite Hat. specialize (H4 j Hj). unfold held in *. rewrite count_occ_app in *. specialize (Hheld j).
    destruct (Nat.eqb_spec j i) as [->|]; lia.
  - intros j [Hj|Hj]%elem_of_app; [|apply H5; apply elem_of_app; by right].
    destruct (Hex j Hj) as [Hx| ->]; [apply H5; apply elem_of_app; by left | done].
  - intros j Hj. rewrite Hat. destruct (Nat.eqb_spec j i) as [->|]; [done | by apply H6].
  - intros j Hj. rewrite Hat. destruct (Nat.eqb_spec j i) as [->|Hne]; [done|]. rewrite (Hother j Hne). by apply H7.
  - intros j. rewrite Hat. destruct (Nat.eqb_spec j i) as [->|Hne]; [done|]. rewrite (Hother j Hne). by apply H8.
  - by rewrite (bind_insert f_ends (ftab k) i _ f Hf).
Qed.

(** The same, where the pipes and the file's end stay. *)
Lemma inv_file k hs lk ex raw i f hs' ex' raw' :
  inv k hs lk ex raw -> (i < NFILE)%nat ->
  hs' ++ f_inodes f ≡ₚ hs ++ f_inodes (file_at i k) ->
  (forall j, held j ex' = held j ex + if (j =? i)%nat then fref f - fref (file_at i k) else 0) ->
  (forall j, j ∈ ex' -> j ∈ ex \/ j = i) ->
  (fref f = 0 -> ftype f = FD_NONE) -> (i ∉ raw' -> fref f <> 0 -> ftype f <> FD_NONE) -> (i ∈ raw' -> ftype f = FD_NONE) ->
  (forall j, j <> i -> j ∈ raw' <-> j ∈ raw) -> f_ends f = f_ends (file_at i k) ->
  inv (set_file i f k) hs' lk ex' raw'.
Proof.
  intros Hinv Hi. intros. apply (inv_change k hs lk ex raw i f (pipes k)); try done.
  pose proof (ftab_lookup k i (i_len _ _ _ _ _ Hinv) Hi) as Hf.
  match goal with E : f_ends f = _ |- _ => rewrite E end. rewrite <- (bind_split f_ends (ftab k) i _ Hf). apply Hinv.
Qed.

Lemma inv_fs k hs lk ex raw s hs' lk' :
  inv k hs lk ex raw -> led s (hs' ++ cwds (procs k) ++ (ftab k ≫= f_inodes)) lk' -> inv (set_fs s k) hs' lk' ex raw.
Proof. by intros [] ?. Qed.

(** A file that nobody refers to need not be filled in. *)
Lemma inv_unraw k hs lk ex raw i : inv k hs lk ex (i :: raw) -> i ∉ ex ++ fds (procs k) -> inv k hs lk ex raw.
Proof.
  intros [H1 H2 H3 H4 H5 H6 H7 H8 H9] Hi. split; try done.
  - intros j Hj Hraw Href. apply H7; [done | | done]. intros [->|]%elem_of_cons; [|done]. apply Hi.
    apply held_pos. rewrite <- H4 by done. pose proof (held_nonneg i (ex ++ fds (procs k))). rewrite (H4 i Hj) in Href. rewrite H4 by done. lia.
  - intros j Hj. apply H8. by apply elem_of_cons; right.
Qed.

(** ** The table of files *)
Lemma free_file_spec : forall l i0 i, free_file i0 l = Some i -> (i0 <= i)%nat /\ exists f, l !! (i - i0)%nat = Some f /\ fref f = 0.
Proof.
  induction l as [|f l IH]; intros i0 i; simpl; [done|]. destruct (Z.eqb_spec (fref f) 0).
  - intros [= <-]. split; [lia|]. rewrite Nat.sub_diag. eauto.
  - intros [H1 (g & Hg & H2)]%IH. split; [lia|]. exists g. split; [|done]. by replace (i - i0)%nat with (S (i - S i0)) by lia.
Qed.

Lemma inv_filealloc k hs lk ex raw i k' : inv k hs lk ex raw -> filealloc k = Some (i, k') ->
  inv k' hs lk (i :: ex) (i :: raw) /\ i ∉ ex ++ fds (procs k) /\ procs k' = procs k /\ kfs k' = kfs k /\ pipes k' = pipes k.
Proof.
  intros Hinv. unfold filealloc. destruct (free_file 0 (ftab k)) as [i'|] eqn:E; [|done]. intros [= -> <-].
  apply free_file_spec in E as (_ & f & Hf & Hz). rewrite Nat.sub_0_r in Hf.
  pose proof (lookup_lt_Some _ _ _ Hf) as Hi. rewrite (i_len _ _ _ _ _ Hinv) in Hi.
  assert (Ef : file_at i k = f) by (unfold file_at; by rewrite nth_lookup, Hf).
  assert (Ht : ftype (file_at i k) = FD_NONE) by (apply Hinv; [done | by rewrite Ef]).
  assert (Hno : i ∉ ex ++ fds (procs k)) by (apply not_held; rewrite <- (i_ref _ _ _ _ _ Hinv i Hi); by rewrite Ef).
  split_and!; try done. apply (inv_file k hs lk ex raw); try done.
  - intros j. rewrite held_cons. rewrite Ef, Hz. simpl. destruct (j =? i)%nat; lia.
  - intros j [->|]%elem_of_cons; auto.
  - intros Hn. destruct Hn. by apply elem_of_cons; left.
  - intros j Hne. rewrite elem_of_cons. tauto.
Qed.

Lemma inv_filedup k hs lk ex raw i k' : inv k hs lk ex raw -> i ∈ ex ++ fds (procs k) -> filedup i k = Ok k' ->
  inv k' hs lk (i :: ex) raw /\ procs k' = procs k.
Proof.
  intros Hinv Hin. pose proof (i_in _ _ _ _ _ Hinv i Hin) as Hi. unfold filedup. destruct (Z.ltb_spec (fref (file_at i k)) 1); [done|].
  intros [= <-]. split; [|done]. apply (inv_file k hs lk ex raw); try done.
  - intros j. rewrite held_cons. simpl. destruct (j =? i)%nat; lia.
  - intros j [->|]%elem_of_cons; auto.
  - simpl. lia.
  - intros Hr Hn. apply (i_live _ _ _ _ _ Hinv); [done | done | lia].
  - apply Hinv.
Qed.

(** ** Pipes *)
Lemma pipes_close m q w es pi pi' freed : pipes_ok m ((q, w) :: es) -> m !! q = Some pi -> pipeclose w pi = (pi', freed) ->
  pipes_ok (if freed then delete q m else <[q := pi']> m) es.
Proof.
  intros [H1 H2 H3] Hq E. apply NoDup_cons in H1 as [Hni Hnd].
  assert (Hflags : forall v, end_open v pi' = if Bool.eqb v w then false else end_open v pi).
  { intros v. unfold pipeclose in E. injection E as <- _. by destruct v, w. }
  assert (Hfreed : freed = negb (readopen pi') && negb (writeopen pi')) by (unfold pipeclose in E; by injection E as <- <-).
  assert (Hsame : forall v, (q, v) ∈ es <-> end_open v pi' = true).
  { intros v. rewrite Hflags. specialize (H2 q v). rewrite elem_of_cons in H2. destruct (Bool.eqb_spec v w) as [->|Hne].
    - split; [intros Hin; by destruct Hni | done].
    - split.
      + intros Hin. destruct (proj1 H2 (or_intror Hin)) as (pi2 & E2 & E3). congruence.
      + intros Ho. destruct (proj2 H2 (ex_intro _ pi (conj Hq Ho))) as [[= E2]|]; [by destruct Hne | done]. }
  assert (Hothers : forall q' v, q' <> q -> (q', v) ∈ es <-> exists pi, m !! q' = Some pi /\ end_open v pi = true).
  { intros q' v Hne. rewrite <- H2, elem_of_cons. split; [by right | intros [[= E2 _]|]; [by destruct Hne | done]]. }
  destruct freed; split; try done.
  - intros q' v. destruct (decide (q' = q)) as [->|Hne]; [|rewrite lookup_delete_ne by done; by apply Hothers].
    rewrite Hsame, lookup_delete_eq. symmetry in Hfreed. apply andb_true_iff in Hfreed as [F1%negb_true_iff F2%negb_true_iff].
    unfold end_open. destruct v; split; try congruence; by intros (? & ? & _).
  - intros q' pi2 Hq'. apply lookup_delete_Some in Hq' as [_ Hq']. by eapply H3.
  - intros q' v. destruct (decide (q' = q)) as [->|Hne]; [|rewrite lookup_insert_ne by done; by apply Hothers].
    rewrite Hsame, lookup_insert_eq. split; [eauto | by intros (? & [= <-] & ?)].
  - intros q' pi2 Hq'. apply lookup_insert_Some in Hq' as [[<- <-]|[_ Hq']]; [|by eapply H3].
    by destruct (readopen pi'), (writeopen pi').
Qed.

Lemma pipes_alloc m q junk es : m !! q = None -> pipes_ok m es ->
  pipes_ok (<[q := Pipe.pipealloc junk]> m) ((q, false) :: (q, true) :: es).
Proof.
  intros Hq [H1 H2 H3]. assert (Hno : forall w, (q, w) ∉ es) by (intros w Hin; apply H2 in Hin as (? & ? & _); congruence).
  split.
  - apply NoDup_cons. split; [rewrite elem_of_cons; intros [[=]|Hin]; by eapply Hno|]. apply NoDup_cons. split; [apply Hno | done].
  - intros q' w. rewrite !elem_of_cons, H2. destruct (decide (q' = q)) as [->|Hne].
    + rewrite lookup_insert_eq. split; [intros _; exists (Pipe.pipealloc junk); by destruct w|]. intros _. destruct w; auto.
    + rewrite lookup_insert_ne by done. split; [intros [[= ? _]|[[= ? _]|?]]; done | auto].
  - intros q' pi Hq'. apply lookup_insert_Some in Hq' as [[_ <-]|[_ Hq']]; [done | by eapply H3].
Qed.

Lemma pipes_io m q es pi pi' : m !! q = Some pi -> readopen pi' = readopen pi -> writeopen pi' = writeopen pi ->
  pipes_ok m es -> pipes_ok (<[q := pi']> m) es.
Proof.
  intros Hq Hr Hw [H1 H2 H3]. assert (He : forall v, end_open v pi' = end_open v pi) by (intros []; done). split; [done| |].
  - intros q' w. rewrite H2. destruct (decide (q' = q)) as [->|Hne]; [|by rewrite lookup_insert_ne].
    rewrite lookup_insert_eq, Hq. split; intros (? & [= <-] & ?); (eexists; split; [done | by rewrite He in *]) || (eexists; split; [done|]; congruence).
  - intros q' pi2 Hq'. apply lookup_insert_Some in Hq' as [[_ <-]|[_ Hq']]; [rewrite Hr, Hw; by eapply H3 | by eapply H3].
Qed.

Section Calls.
Context (sb : superblock).

(** ** Closing *)
Lemma inv_fileclose k hs lk ex raw i k' : inv k hs lk (i :: ex) raw -> (forall j, j ∈ lk -> j ∈ hs) ->
  fileclose sb i k = Ok k' -> inv k' hs lk ex raw /\ procs k' = procs k.
Proof.
  intros Hinv Hsub. assert (Hi : (i < NFILE)%nat) by (apply (i_in _ _ _ _ _ Hinv); set_solver).
  pose proof (ftab_lookup k i (i_len _ _ _ _ _ Hinv) Hi) as Hf. unfold fileclose.
  destruct (Z.ltb_spec (fref (file_at i k)) 1); [done|]. destruct (Z.ltb_spec 0 (fref (file_at i k) - 1)).
  { intros [= <-]. split; [|done]. apply (inv_file k hs lk (i :: ex) raw); try done; simpl.
    - intros j. rewrite held_cons. destruct (j =? i)%nat; lia.
    - intros j Hj. left. by apply elem_of_cons; right.
    - lia.
    - intros Hr _. apply (i_live _ _ _ _ _ Hinv); [done | done | lia].
    - apply Hinv. }
  set (f := set_ftype FD_NONE (set_fref 0 (file_at i k))).
  assert (Hdrop : forall m, pipes_ok m (delete i (ftab k) ≫= f_ends) ->
    inv (set_pipes m (set_file i f k)) (hs ++ f_inodes (file_at i k)) lk ex raw).
  { intros m Hm. apply (inv_change k hs lk (i :: ex) raw); try done; simpl.
    - by rewrite app_nil_r.
    - intros j. rewrite held_cons. destruct (j =? i)%nat; lia.
    - intros j Hj. left. by apply elem_of_cons; right. }
  assert (Hp : pipes_ok (pipes k) (f_ends (file_at i k) ++ (delete i (ftab k) ≫= f_ends))).
  { rewrite <- (bind_split f_ends (ftab k) i _ Hf). apply Hinv. }
  assert (Hput : f_inodes (file_at i k) = [fip (file_at i k)] -> f_ends (file_at i k) = [] -> forall s,
    iput sb (fip (file_at i k)) (kfs k) = Ok s -> inv (set_fs s (set_file i f k)) hs lk ex raw).
  { intros E1 E2 s Es. rewrite E2 in Hp. specialize (Hdrop (pipes k) Hp). rewrite E1 in Hdrop.
    rewrite (Permutation_app_comm hs [_]) in Hdrop. pose proof (i_led _ _ _ _ _ Hdrop) as Hl. simpl in Hl.
    apply (inv_fs (set_file i f k) (fip (file_at i k) :: hs) lk ex raw); [exact Hdrop|]. simpl.
    eapply led_iput; [exact Hl | | exact Es]. intros j Hj. apply elem_of_app. left. by apply Hsub. }
  unfold f_inodes, f_ends in *. destruct (ftype (file_at i k)) eqn:Et.
  - intros [= <-]. split; [|done]. specialize (Hdrop (pipes k) Hp). rewrite app_nil_r in Hdrop. exact Hdrop.
  - unfold close_pipe. change (pipes (set_file i f k)) with (pipes k). destruct (pipes k !! fpipe (file_at i k)) as [pi|] eqn:Eq; [|done]. cbn [mbind res_bind or_panic].
    destruct (pipeclose (writable (file_at i k)) pi) as [pi' freed] eqn:Ec. intros [= <-]. split; [|done].
    rewrite app_nil_r in Hdrop. apply Hdrop. by apply (pipes_close _ _ _ _ pi pi' freed Hp).
  - destruct (iput _ _ _) as [s| |] eqn:E; [|done..]. cbn [mbind res_bind]. intros [= <-]. split; [|done]. by apply Hput.
  - destruct (iput _ _ _) as [s| |] eqn:E; [|done..]. cbn [mbind res_bind]. intros [= <-]. split; [|done]. by apply Hput.
Qed.

(** ** Descriptors *)
Lemma proc_lookup p k : (p < length (procs k))%nat -> procs k !! p = Some (proc_at p k).
Proof. intros Hp. destruct (lookup_lt_is_Some_2 (procs k) p Hp) as [x Hx]. unfold proc_at. by rewrite nth_lookup, Hx. Qed.

Lemma inv_ofile k hs lk ex raw p : inv k hs lk ex raw -> (p < length (procs k))%nat -> length (ofile (proc_at p k)) = NOFILE.
Proof. intros Hinv Hp. exact (Forall_lookup_1 _ _ p _ (i_fds _ _ _ _ _ Hinv) (proc_lookup p k Hp)). Qed.

(** One process changes its descriptors or its directory: references move
    between it and the call. *)
Lemma inv_proc k hs lk ex raw p x hs' ex' :
  inv k hs lk ex raw -> (p < length (procs k))%nat -> length (ofile x) = NOFILE ->
  hs' ++ option_list (cwd x) ≡ₚ hs ++ option_list (cwd (proc_at p k)) ->
  ex' ++ (ofile x ≫= option_list) ≡ₚ ex ++ (ofile (proc_at p k) ≫= option_list) ->
  inv (set_proc p x k) hs' lk ex' raw.
Proof.
  intros [H1 H2 H3 H4 H5 H6 H7 H8 H9] Hp Hlen Hhs Hex. pose proof (proc_lookup p k Hp) as Hx.
  assert (Hfds : ex' ++ fds (<[p := x]> (procs k)) ≡ₚ ex ++ fds (procs k)).
  { unfold fds. rewrite (bind_insert _ (procs k) p _ x Hx), (bind_split _ (procs k) p _ Hx), !app_assoc. by rewrite Hex. }
  split; simpl; try done.
  - assert (E : hs' ++ cwds (<[p := x]> (procs k)) ≡ₚ hs ++ cwds (procs k)).
    { unfold cwds. rewrite (bind_insert _ (procs k) p _ x Hx), (bind_split _ (procs k) p _ Hx), !app_assoc. by rewrite Hhs. }
    rewrite app_assoc, E, <- app_assoc. done.
  - by apply Forall_insert.
  - intros i Hi. rewrite Hfds. by apply H4.
  - intros i. rewrite Hfds. apply H5.
Qed.

(** A reference becomes a descriptor that was free, and back. *)
Lemma inv_set_fd k hs lk ex raw p fd f : inv k hs lk (f :: ex) raw -> (p < length (procs k))%nat ->
  ofile (proc_at p k) !! fd = Some None -> inv (set_proc p (set_fd fd (Some f) (proc_at p k)) k) hs lk ex raw.
Proof.
  intros Hinv Hp Hfd. apply (inv_proc k hs lk (f :: ex) raw); try done.
  - simpl. rewrite length_insert. by eapply inv_ofile.
  - simpl. rewrite (bind_insert _ _ fd _ (Some f) Hfd), (bind_split _ _ fd _ Hfd). simpl. by rewrite Permutation_middle.
Qed.

Lemma inv_clear_fd k hs lk ex raw p fd f : inv k hs lk ex raw -> (p < length (procs k))%nat ->
  ofile (proc_at p k) !! fd = Some (Some f) -> inv (set_proc p (set_fd fd None (proc_at p k)) k) hs lk (f :: ex) raw.
Proof.
  intros Hinv Hp Hfd. apply (inv_proc k hs lk ex raw); try done.
  - simpl. rewrite length_insert. by eapply inv_ofile.
  - simpl. rewrite (bind_insert _ _ fd _ None Hfd), (bind_split _ _ fd _ Hfd). simpl. by rewrite Permutation_middle.
Qed.

Lemma free_fd_spec : forall l i0 i, free_fd i0 l = Some i -> (i0 <= i)%nat /\ l !! (i - i0)%nat = Some None.
Proof.
  induction l as [|[f|] l IH]; intros i0 i; simpl; [done| |].
  - intros [H1 H2]%IH. split; [lia|]. by replace (i - i0)%nat with (S (i - S i0)) by lia.
  - intros [= <-]. split; [lia|]. by rewrite Nat.sub_diag.
Qed.

Lemma fdalloc_spec f p k fd k' : fdalloc f p k = Some (fd, k') ->
  ofile (proc_at p k) !! fd = Some None /\ k' = set_proc p (set_fd fd (Some f) (proc_at p k)) k.
Proof.
  unfold fdalloc. destruct (free_fd 0 _) as [x|] eqn:E; [|done]. intros [= <- <-].
  apply free_fd_spec in E as [_ E]. by rewrite Nat.sub_0_r in E.
Qed.

Lemma proc_at_set p x k : (p < length (procs k))%nat -> proc_at p (set_proc p x k) = x.
Proof. intros Hp. unfold proc_at, set_proc. simpl. by rewrite nth_lookup, list_lookup_insert_eq. Qed.

Lemma proc_at_other p q x k : p <> q -> proc_at p (set_proc q x k) = proc_at p k.
Proof. intros Hne. unfold proc_at, set_proc. simpl. by rewrite !nth_lookup, list_lookup_insert_ne. Qed.

Lemma set_proc_twice p x y k : set_proc p y (set_proc p x k) = set_proc p y k.
Proof. unfold set_proc, set_procs. simpl. by rewrite list_insert_insert_eq. Qed.

Lemma inv_fdalloc k hs lk ex raw p f fd k' : inv k hs lk (f :: ex) raw -> (p < length (procs k))%nat ->
  fdalloc f p k = Some (fd, k') -> inv k' hs lk ex raw /\ length (procs k') = length (procs k).
Proof.
  intros Hinv Hp [E ->]%fdalloc_spec. split; [by apply inv_set_fd | simpl; by rewrite length_insert].
Qed.

Lemma argfd_lookup fd p k f : argfd fd p k = Some f -> ofile (proc_at p k) !! Z.to_nat fd = Some (Some f).
Proof.
  unfold argfd. destruct (_ || _); [done|]. rewrite nth_lookup. by destruct (ofile (proc_at p k) !! Z.to_nat fd) as [[g|]|]; simpl; intros E; simplify_eq.
Qed.

Lemma fd_in k p fd f : (p < length (procs k))%nat -> ofile (proc_at p k) !! fd = Some (Some f) -> f ∈ fds (procs k).
Proof.
  intros Hp Hfd. unfold fds. rewrite (bind_split _ _ p _ (proc_lookup p k Hp)), (bind_split _ _ fd _ Hfd). simpl. by left.
Qed.

Lemma cwd_in p k cw : (p < length (procs k))%nat -> cwd_of p k = Ok cw -> cw ∈ cwds (procs k).
Proof.
  intros Hp. unfold cwd_of. destruct (cwd (proc_at p k)) eqn:E; [|done]. intros [= <-].
  unfold cwds. rewrite (bind_split _ _ p _ (proc_lookup p k Hp)), E. by left.
Qed.

(** Between calls nothing is in hand. *)
Definition settled (k : ksys) : Prop := inv k [] [] [] [].

(** ** Opening *)
Lemma inv_open_fail k hs ip r k' : inv k (ip :: hs) [ip] [] [] -> open_fail sb ip k = Ok (r, k') ->
  inv k' hs [] [] [] /\ procs k' = procs k.
Proof.
  intros Hinv. unfold open_fail. run E. intros [= _ <-]. split; [|done]. apply (inv_fs k (ip :: hs) [ip]); [done|].
  eapply led_iunlockput; [apply Hinv | exact E].
Qed.

(** The new file takes over the reference to its inode. *)
Lemma inv_open_file k hs lk f ip omode i : inv k (ip :: hs) lk [] [f] -> f ∈ fds (procs k) ->
  inv (set_file f (open_file ip i omode (file_at f k)) k) hs lk [] [].
Proof.
  intros Hinv Hf. assert (Hlt : (f < NFILE)%nat) by (by apply (i_in _ _ _ _ _ Hinv)).
  assert (Hraw : ftype (file_at f k) = FD_NONE) by (apply (i_raw _ _ _ _ _ Hinv); by left).
  assert (Hpos : fref (file_at f k) <> 0).
  { rewrite (i_ref _ _ _ _ _ Hinv f Hlt). apply held_pos in Hf. simpl. lia. }
  assert (Ht : ftype (open_file ip i omode (file_at f k)) <> FD_NONE) by (unfold open_file; by destruct (_ =? _)).
  apply (inv_file k (ip :: hs) lk [] [f]); try done.
  - unfold f_inodes at 2. rewrite Hraw, app_nil_r. unfold open_file. destruct (_ =? _); simpl; by rewrite Permutation_app_comm.
  - intros j. unfold open_file. destruct (_ =? T_DEVICE), (j =? f)%nat; simpl; lia.
  - intros j Hj. by left.
  - intros E. destruct Hpos. unfold open_file in E. by destruct (_ =? T_DEVICE).
  - by intros Hin%elem_of_nil.
  - intros j Hne. rewrite elem_of_nil, list_elem_of_singleton. tauto.
  - unfold f_ends at 2. rewrite Hraw. unfold open_file. by destruct (_ =? _).
Qed.

Lemma inv_open_locked k ip omode p r k' : inv k [ip] [ip] [] [] -> (p < length (procs k))%nat ->
  open_locked sb ip omode p k = Ok (r, k') -> settled k' /\ length (procs k') = length (procs k).
Proof.
  intros Hinv Hp. assert (Hfail : forall k1 r k', inv k1 [ip] [ip] [] [] -> procs k1 = procs k -> open_fail sb ip k1 = Ok (r, k') ->
    settled k' /\ length (procs k') = length (procs k)).
  { intros k1 r1 k2 H1 E1 E2. destruct (inv_open_fail _ _ _ _ _ H1 E2) as [? ->]. by rewrite E1. }
  unfold open_locked. destruct (_ && _); [by apply Hfail|].
  destruct (filealloc k) as [[f k1]|] eqn:E1; [|by apply Hfail].
  destruct (inv_filealloc _ _ _ _ _ _ _ Hinv E1) as (H1 & Hno & P1 & F1 & _).
  destruct (fdalloc f p k1) as [[fd k2]|] eqn:E2.
  2:{ run E3. destruct (inv_fileclose _ _ _ _ _ _ _ H1 (fun j Hj => Hj) E3) as [H3 P3].
      apply Hfail; [|by rewrite P3]. apply (inv_unraw _ _ _ _ _ f); [exact H3 | by rewrite P3, P1]. }
  rewrite <- P1 in Hp. destruct (inv_fdalloc _ _ _ _ _ _ _ _ _ H1 Hp E2) as [H2 L2].
  assert (Hin : f ∈ fds (procs k2) /\ kfs k2 = kfs k).
  { apply fdalloc_spec in E2 as [Ex ->]. split; [|done]. simpl. unfold fds.
    rewrite (bind_insert _ _ p _ _ (proc_lookup p k1 Hp)). simpl. rewrite (bind_insert _ _ fd _ _ Ex). by left. }
  destruct Hin as [Hin F2]. set (k3 := set_file f _ k2).
  assert (H3 : inv k3 [] [ip] [] []) by (by apply inv_open_file). assert (Hl3 : led (kfs k3) (cwds (procs k3) ++ (ftab k3 ≫= f_inodes)) [ip]) by apply H3.
  assert (Hip : ip ∈ cwds (procs k3) ++ (ftab k3 ≫= f_inodes)) by (apply (l_sub _ _ _ Hl3); by left).
  run E4. assert (Hl4 : led a (cwds (procs k3) ++ (ftab k3 ≫= f_inodes)) [ip]).
  { revert E4. destruct (_ && _); [|by intros [= <-]]. destruct (itrunc sb _ _) as [[i' d]|] eqn:Et; [|done]. cbn [mbind res_bind or_panic].
    intros [= <-]. apply itrunc_slot in Et. apply led_content; [done | done|]. change (kfs k3) with (kfs k2). by rewrite F2. }
  run E5. intros [= _ <-]. split; [|simpl; by rewrite L2, P1].
  apply (inv_fs k3 [] [ip]); [done|]. by eapply (led_iunlock sb).
Qed.

(** ** Pipes *)
Lemma inv_close_raw k hs f ex raw k' : inv k hs [] (f :: ex) (f :: raw) -> f ∉ ex ++ fds (procs k) -> fileclose sb f k = Ok k' ->
  inv k' hs [] ex raw /\ procs k' = procs k.
Proof.
  intros Hinv Hno E. destruct (inv_fileclose _ _ _ _ _ _ _ Hinv ltac:(set_solver) E) as [H1 P1]. split; [|done].
  apply (inv_unraw _ _ _ _ _ f); [done | by rewrite P1].
Qed.

(** Two new files become the ends of a new pipe; in between, only the end for
    reading is there. *)
Lemma pipes_half m q junk es : m !! q = None -> pipes_ok m es ->
  pipes_ok (<[q := mkPipe junk 0 0 true false]> m) ((q, false) :: es).
Proof.
  intros Hq Hm. pose proof (pipes_alloc m q junk es Hq Hm) as Ha. rewrite (perm_swap (q, true) (q, false) es) in Ha.
  pose proof (pipes_close _ _ _ _ (Pipe.pipealloc junk) (mkPipe junk 0 0 true false) false Ha
    ltac:(by rewrite lookup_insert_eq) eq_refl) as Hc. by rewrite insert_insert_eq in Hc.
Qed.

Lemma inv_pipe_ends k f0 f1 q junk : inv k [] [] [f1; f0] [f1; f0] -> f1 <> f0 -> pipes k !! q = None ->
  let k1 := set_pipes (<[q := Pipe.pipealloc junk]> (pipes k)) k in
  let k2 := set_file f0 (pipe_file false q (file_at f0 k1)) k1 in
  inv (set_file f1 (pipe_file true q (file_at f1 k2)) k2) [] [] [f1; f0] [].
Proof.
  intros Hinv Hne Hq k1 k2. pose proof (i_len _ _ _ _ _ Hinv) as Hlen.
  assert (L : forall f, f ∈ [f1; f0] -> (f < NFILE)%nat) by (intros f Hf; apply (i_in _ _ _ _ _ Hinv); set_solver).
  assert (N : forall f, f ∈ [f1; f0] -> ftype (file_at f k) = FD_NONE) by apply Hinv.
  assert (R : forall f, f ∈ [f1; f0] -> fref (file_at f k) <> 0).
  { intros f Hf. rewrite (i_ref _ _ _ _ _ Hinv f (L f Hf)). assert (0 < held f ([f1; f0] ++ fds (procs k))); [|lia]. apply held_pos. set_solver. }
  assert (I0 : f0 ∈ [f1; f0]) by set_solver. assert (I1 : f1 ∈ [f1; f0]) by set_solver.
  pose proof (ftab_lookup k f0 Hlen (L f0 I0)) as T0. pose proof (ftab_lookup k f1 Hlen (L f1 I1)) as T1.
  assert (Hnone : forall f, f ∈ [f1; f0] -> f_inodes (file_at f k) = [] /\ f_ends (file_at f k) = []).
  { intros f Hf. unfold f_inodes, f_ends. by rewrite N. }
  set (es := ftab k ≫= f_ends).
  assert (Hes : delete f0 (ftab k) ≫= f_ends ≡ₚ es).
  { unfold es. rewrite (bind_split f_ends _ f0 _ T0). by rewrite (proj2 (Hnone f0 I0)). }
  set (g0 := pipe_file false q (file_at f0 k)). set (m0 := <[q := mkPipe junk 0 0 true false]> (pipes k)).
  assert (H1 : inv (set_pipes m0 (set_file f0 g0 k)) [] [] [f1; f0] [f1]).
  { apply (inv_change k [] [] [f1; f0] [f1; f0]); try done.
    - auto.
    - by rewrite (proj1 (Hnone f0 I0)).
    - intros j. simpl. destruct (j =? f0)%nat; lia.
    - auto.
    - intros E. by destruct (R f0 I0).
    - intros E%list_elem_of_singleton. by destruct Hne.
    - intros j Hj. set_solver.
    - rewrite Hes. apply pipes_half; [done | apply Hinv]. }
  assert (A1 : file_at f1 k2 = file_at f1 k).
  { unfold k2. rewrite file_at_set by (simpl; rewrite Hlen; auto). by destruct (Nat.eqb_spec f1 f0). }
  assert (A1' : file_at f1 (set_pipes m0 (set_file f0 g0 k)) = file_at f1 k) by (rewrite <- A1; done).
  assert (T1' : <[f0 := g0]> (ftab k) !! f1 = Some (file_at f1 k)) by (by rewrite list_lookup_insert_ne).
  apply (inv_change (set_pipes m0 (set_file f0 g0 k)) [] [] [f1; f0] [f1] f1 _ (<[q := Pipe.pipealloc junk]> (pipes k)) [] [f1; f0] []);
    try done; rewrite ?A1', ?A1; auto.
  - by rewrite (proj1 (Hnone f1 I1)).
  - intros j. simpl. destruct (j =? f1)%nat; lia.
  - intros E. by destruct (R f1 I1).
  - by intros E%elem_of_nil.
  - intros j Hj. set_solver.
  - assert (E : delete f1 (<[f0 := g0]> (ftab k)) ≫= f_ends ≡ₚ (q, false) :: es).
    { pose proof (bind_split f_ends _ f1 _ T1') as E. rewrite (proj2 (Hnone f1 I1)) in E. simpl in E.
      rewrite <- E, (bind_insert f_ends _ f0 _ g0 T0). simpl. by rewrite Hes. }
    rewrite E, (perm_swap (q, false) (q, true) es). apply pipes_alloc; [done | apply Hinv].
Qed.

Definition fresh_page (page : option (nat * list ascii)) (k : ksys) : Prop :=
  match page with Some (q, _) => pipes k !! q = None | None => True end.

Lemma inv_pipealloc k page o k' : settled k -> fresh_page page k -> pipealloc sb page k = Ok (o, k') ->
  procs k' = procs k /\
  match o with Some (rf, wf) => inv k' [] [] [rf; wf] [] | None => settled k' end.
Proof.
  intros Hinv Hq. unfold pipealloc. destruct (filealloc k) as [[f0 k1]|] eqn:E0; [|by intros [= <- <-]].
  destruct (inv_filealloc _ _ _ _ _ _ _ Hinv E0) as (H0 & N0 & P0 & _ & Q0).
  destruct (filealloc k1) as [[f1 k2]|] eqn:E1.
  2:{ run E2. intros [= <- <-]. rewrite <- P0 in N0. by destruct (inv_close_raw _ _ _ _ _ _ H0 N0 E2) as [H2 ->]. }
  destruct (inv_filealloc _ _ _ _ _ _ _ H0 E1) as (H1 & N1 & P1 & _ & Q1).
  assert (Hne : f1 <> f0) by (intros ->; apply N1; set_solver). destruct page as [[q junk]|].
  - simpl in Hq. rewrite <- Q0, <- Q1 in Hq. intros [= <- <-]. split; [simpl; by rewrite P1, P0|].
    rewrite (perm_swap f1 f0 []). by apply inv_pipe_ends.
  - run E2. run E3. intros [= <- <-].
    assert (H1' : inv k2 [] [] [f0; f1] [f0; f1]) by (by rewrite (perm_swap f1 f0 [])).
    assert (N0' : f0 ∉ [f1] ++ fds (procs k2)) by (rewrite P1, P0; set_solver).
    destruct (inv_close_raw _ _ _ _ _ _ H1' N0' E2) as [H2 P2].
    assert (N1' : f1 ∉ [] ++ fds (procs a)) by (rewrite P2, P1, P0 in *; set_solver).
    destruct (inv_close_raw _ _ _ _ _ _ H2 N1' E3) as [H3 P3]. by rewrite P3, P2, P1, P0.
Qed.
End Calls.
