(* ===== verification/Sysinv.v ===== *)
(** * The file system calls keep the books (xv6/kernel/file.c, sysfile.c)

    Every system call on descriptors and paths, the part of [fork] that copies
    descriptors and the part of [exit] that closes them, taken in any order
    by any processes: the references counted in the tables are those that
    processes and open files hold. *)
From S2P Require Import Prelude KString Disk Balloc Inode Content Rw Trunc Itable Iref Pipe Dir Path Ledger File Sysfile Syspaths Sysrefs.
Local Open Scope Z_scope.

Section Calls.
Context (sb : superblock).

(** ** Calls that only change the file system *)
Lemma settled_fs k s : settled k -> led s (cwds (procs k) ++ (ftab k ≫= f_inodes)) [] -> settled (set_fs s k).
Proof. intros H Hl. by apply (inv_fs k [] []). Qed.

Lemma cwd_held p k cw : (p < length (procs k))%nat -> cwd_of p k = Ok cw -> cw ∈ cwds (procs k) ++ (ftab k ≫= f_inodes).
Proof. intros Hp E. apply elem_of_app. left. by eapply cwd_in. Qed.

Lemma settled_link k old new p r k' : settled k -> (p < length (procs k))%nat -> sys_link sb old new p k = Ok (r, k') -> settled k'.
Proof.
  intros Hk Hp. unfold sys_link. destruct old as [old|], new as [new|]; try by intros [= _ <-].
  run E1. run E2. destruct a0 as [r1 s]. intros [= _ <-]. apply settled_fs; [done|].
  by eapply led_link; [apply Hk | eapply cwd_held | exact E2].
Qed.

Lemma settled_unlink k path p r k' : settled k -> (p < length (procs k))%nat -> sys_unlink sb path p k = Ok (r, k') -> settled k'.
Proof.
  intros Hk Hp. unfold sys_unlink. destruct path as [path|]; [|by intros [= _ <-]].
  run E1. run E2. destruct a0 as [r1 s]. intros [= _ <-]. apply settled_fs; [done|].
  by eapply led_unlink; [apply Hk | eapply cwd_held | exact E2].
Qed.

Lemma settled_make k path type ma mi p r k' : settled k -> (p < length (procs k))%nat -> make sb path type ma mi p k = Ok (r, k') -> settled k'.
Proof.
  intros Hk Hp. unfold make. destruct path as [path|]; [|by intros [= _ <-]].
  run E1. run E2. destruct a0 as [o s].
  pose proof (led_create sb _ _ _ _ _ _ _ _ _ (i_led _ _ _ _ _ Hk) (cwd_held p k a Hp E1) E2) as Hl.
  destruct o as [ip|]; [|intros [= _ <-]; by apply settled_fs].
  run E3. intros [= _ <-]. apply settled_fs; [done|]. eapply (led_iunlockput sb); [exact Hl | exact E3].
Qed.

(** ** Calls on descriptors *)
Lemma settled_open k path omode p r k' : settled k -> (p < length (procs k))%nat -> sys_open sb path omode p k = Ok (r, k') ->
  settled k' /\ length (procs k') = length (procs k).
Proof.
  intros Hk Hp. unfold sys_open. destruct path as [path|]; [|by intros [= _ <-]]. run E1. run E2. destruct a0 as [o s].
  pose proof (led_open_inode sb _ _ _ _ _ _ _ (i_led _ _ _ _ _ Hk) (cwd_held p k a Hp E1) E2) as Hl.
  destruct o as [ip|]; [|intros [= _ <-]; split; [by apply settled_fs | done]].
  apply (inv_open_locked sb (set_fs s k)); [|done]. by apply (inv_fs k [] []).
Qed.

Lemma settled_dup k fd p r k' : settled k -> (p < length (procs k))%nat -> sys_dup fd p k = Ok (r, k') ->
  settled k' /\ length (procs k') = length (procs k).
Proof.
  intros Hk Hp. unfold sys_dup. destruct (argfd fd p k) as [f|] eqn:E1; [|by intros [= _ <-]].
  destruct (fdalloc f p k) as [[fd' k1]|] eqn:E2; [|by intros [= _ <-]]. run E3. intros [= _ <-].
  assert (Hf : f ∈ fds (procs k)) by (eapply fd_in; [done | by apply argfd_lookup]).
  (* the count may as well go up first *)
  apply fdalloc_spec in E2 as [Ex ->].
  assert (Hd : exists k2, filedup f k = Ok k2 /\ a = set_proc p (set_fd fd' (Some f) (proc_at p k)) k2).
  { revert E3. unfold filedup. change (file_at f (set_proc _ _ k)) with (file_at f k). destruct (_ <? 1); [done|]. intros [= <-]. eauto. }
  destruct Hd as (k2 & E4 & ->). destruct (inv_filedup _ _ _ _ _ _ _ Hk Hf E4) as [H2 P2].
  assert (Ep : proc_at p k = proc_at p k2) by (unfold proc_at; by rewrite P2). rewrite Ep in *. rewrite <- P2 in *.
  split; [by apply inv_set_fd | simpl; by rewrite length_insert].
Qed.

Lemma settled_close k fd p r k' : settled k -> (p < length (procs k))%nat -> sys_close sb fd p k = Ok (r, k') ->
  settled k' /\ length (procs k') = length (procs k).
Proof.
  intros Hk Hp. unfold sys_close. destruct (argfd fd p k) as [f|] eqn:E1; [|by intros [= _ <-]].
  apply argfd_lookup in E1. pose proof (inv_clear_fd _ _ _ _ _ _ _ _ Hk Hp E1) as H1. run E2. intros [= _ <-].
  destruct (inv_fileclose sb _ _ _ _ _ _ _ H1 ltac:(set_solver) E2) as [H2 ->]. split; [done | simpl; by rewrite length_insert].
Qed.

Lemma settled_chdir k path p r k' : settled k -> (p < length (procs k))%nat -> sys_chdir sb path p k = Ok (r, k') ->
  settled k' /\ length (procs k') = length (procs k).
Proof.
  intros Hk Hp. unfold sys_chdir. destruct path as [path|]; [|by intros [= _ <-]]. run E1. run E2. destruct a0 as [o s].
  pose proof (cwd_held p k a Hp E1) as Hc. pose proof (led_namei sb _ _ _ _ _ _ (i_led _ _ _ _ _ Hk) Hc E2) as Hl.
  destruct o as [ip|]; [|intros [= _ <-]; split; [by apply settled_fs | done]].
  run E3. pose proof (led_ilock sb _ _ _ _ _ Hl ltac:(by left) E3) as Hl3. destruct (negb _).
  { run E4. intros [= _ <-]. split; [|done]. apply settled_fs; [done|]. by eapply led_iunlockput. }
  run E4. pose proof (led_iunlock sb _ _ _ _ _ Hl3 E4) as Hl4. run E5. intros [= _ <-]. split; [|simpl; by rewrite length_insert].
  assert (Hcw : cwd (proc_at p k) = Some a) by (revert E1; unfold cwd_of; destruct (cwd (proc_at p k)); [by intros [= ->] | done]).
  set (x := mkPfiles _ _). change (set_proc p x (set_fs a2 k)) with (set_fs a2 (set_proc p x k)).
  assert (H1 : inv (set_fs a1 (set_proc p x k)) [a] [] [] []).
  { change (inv (set_proc p x (set_fs a1 k)) [a] [] [] []). apply (inv_proc (set_fs a1 k) [ip] [] [] []); try done.
    - by apply (inv_fs k [] []).
    - simpl. by eapply inv_ofile.
    - simpl. change (proc_at p (set_fs a1 k)) with (proc_at p k). rewrite Hcw. simpl. apply perm_swap. }
  apply (inv_fs (set_fs a1 (set_proc p x k)) [a] []); [done|]. eapply led_iput; [apply H1 | set_solver | exact E5].
Qed.

Lemma settled_pipe k page out p r k' : settled k -> (p < length (procs k))%nat -> fresh_page page k ->
  sys_pipe sb page out p k = Ok (r, k') -> settled k' /\ length (procs k') = length (procs k).
Proof.
  intros Hk Hp Hq. unfold sys_pipe. run E1. destruct a as [o k1]. destruct (inv_pipealloc sb _ _ _ _ Hk Hq E1) as [P1 H1].
  destruct o as [[rf wf]|]; [|intros [= _ <-]; by rewrite P1]. rewrite <- P1 in *. clear k Hk Hq P1 E1.
  assert (Hdrop : forall k r k', inv k [] [] [rf; wf] [] -> length (procs k) = length (procs k1) ->
    (k1 ← fileclose sb rf k; k2 ← fileclose sb wf k1; Ok (-1, k2)) = Ok (r, k') -> settled k' /\ length (procs k') = length (procs k1)).
  { intros k r0 k0 H L. run E2. run E3. intros [= _ <-].
    destruct (inv_fileclose sb _ _ _ _ _ _ _ H ltac:(set_solver) E2) as [H2 P2].
    destruct (inv_fileclose sb _ _ _ _ _ _ _ H2 ltac:(set_solver) E3) as [H3 P3]. by rewrite P3, P2. }
  destruct (fdalloc rf p k1) as [[fd0 k2]|] eqn:E2; [|by apply Hdrop].
  destruct (inv_fdalloc _ _ _ _ _ _ _ _ _ H1 Hp E2) as [H2 L2].
  apply fdalloc_spec in E2 as [Ex2 Ek2].
  assert (B2 : ofile (proc_at p k2) !! fd0 = Some (Some rf)).
  { rewrite Ek2, proc_at_set by done. simpl. apply list_lookup_insert_eq. by eapply lookup_lt_Some. }
  rewrite <- L2 in *. destruct (fdalloc wf p k2) as [[fd1 k3]|] eqn:E3.
  2:{ apply Hdrop; [by apply inv_clear_fd | simpl; by rewrite length_insert]. }
  destruct (inv_fdalloc _ _ _ _ _ _ _ _ _ H2 Hp E3) as [H3 L3]. destruct out; [by intros [= _ <-]|].
  apply fdalloc_spec in E3 as [Ex Ek3]. assert (P3 : proc_at p k3 = set_fd fd1 (Some wf) (proc_at p k2)) by (rewrite Ek3; by apply proc_at_set).
  rewrite <- L3 in *.   assert (Hne : fd0 <> fd1) by congruence.
  apply Hdrop; [|simpl; by rewrite length_insert].
  assert (H4 : inv (set_proc p (set_fd fd0 None (proc_at p k3)) k3) [] [] [rf] []).
  { apply inv_clear_fd; [done | done|]. rewrite P3. simpl. by rewrite list_lookup_insert_ne. }
  rewrite (perm_swap wf rf []). set (x := set_fd fd0 None (proc_at p k3)) in *.
  pose proof (inv_clear_fd _ _ _ _ _ p fd1 wf H4 ltac:(simpl; by rewrite length_insert)) as H5.
  rewrite proc_at_set, set_proc_twice in H5 by done. apply H5. unfold x. simpl.
  rewrite list_lookup_insert_ne by done. rewrite P3. simpl. apply list_lookup_insert_eq. by eapply lookup_lt_Some.
Qed.

(** ** Reading and writing *)

(** Only the offset of a file moves. *)
Lemma settled_off k i s b o : settled k -> i ∈ fds (procs k) -> led s (cwds (procs k) ++ (ftab k ≫= f_inodes)) [] ->
  settled (set_fs s (set_file i (if b : bool then set_off o (file_at i k) else file_at i k) k)).
Proof.
  intros Hk Hi Hl. assert (Hlt : (i < NFILE)%nat) by (by apply (i_in _ _ _ _ _ Hk)). set (f := if b then _ else _).
  assert (Ef : fref f = fref (file_at i k) /\ ftype f = ftype (file_at i k) /\ f_inodes f = f_inodes (file_at i k) /\ f_ends f = f_ends (file_at i k))
    by (by destruct b).
  destruct Ef as (E1 & E2 & E3 & E4). pose proof (ftab_lookup k i (i_len _ _ _ _ _ Hk) Hlt) as Hf. apply settled_fs.
  - apply (inv_file k [] [] [] []); try done; rewrite ?E1, ?E2, ?E3.
    + done.
    + intros j. destruct (j =? i)%nat; lia.
    + auto.
    + by apply Hk.
    + by apply Hk.
    + by intros ?%elem_of_nil.
  - simpl. by rewrite (bind_same f_inodes (ftab k) i _ f Hf E3).
Qed.

Lemma file_inode_held k i : settled k -> i ∈ fds (procs k) -> ftype (file_at i k) = FD_INODE \/ ftype (file_at i k) = FD_DEVICE ->
  fip (file_at i k) ∈ cwds (procs k) ++ (ftab k ≫= f_inodes).
Proof.
  intros Hk Hi Ht. assert (Hlt : (i < NFILE)%nat) by (by apply (i_in _ _ _ _ _ Hk)).
  rewrite (bind_split f_inodes _ i _ (ftab_lookup k i (i_len _ _ _ _ _ Hk) Hlt)). unfold f_inodes at 1.
  destruct Ht as [-> | ->]; set_solver.
Qed.

(** Lock, use the content, unlock. *)
Lemma led_use s hs i s1 ip d s2 : led s hs [] -> i ∈ hs -> ilock sb i s = Ok s1 -> same_slot (entry i s1) ip ->
  iunlock i (set_disk d (set_entry i ip s1)) = Ok s2 -> led s2 hs [].
Proof.
  intros Hl Hi E1 Hs E2. eapply (led_iunlock sb); [|exact E2]. apply led_content; [|done|done]. by eapply led_ilock.
Qed.

Lemma write_loop_flags killed cin : forall k i p, let p' := (write_loop killed cin k i p).2 in
  readopen p' = readopen p /\ writeopen p' = writeopen p.
Proof.
  induction k as [|k IH]; intros i p; simpl; [done|]. destruct (_ || _); [done|]. destruct (full p); [done|].
  destruct (cin i) as [c|]; [|done]. specialize (IH (S i) (put_byte c p)).
  by destruct (write_loop killed cin k (S i) (put_byte c p)) as [[o bs] p'].
Qed.

Lemma read_loop_flags cout : forall k i p, let p' := (read_loop cout k i p).2 in
  readopen p' = readopen p /\ writeopen p' = writeopen p.
Proof.
  induction k as [|k IH]; intros i p; simpl; [done|]. destruct (empty p); [done|]. destruct (cout i); [|done].
  specialize (IH (S i) (take_byte p)). by destruct (read_loop cout k (S i) (take_byte p)) as [[r bs] p'].
Qed.

Lemma settled_pipe_io k q pi pi' : settled k -> pipes k !! q = Some pi -> readopen pi' = readopen pi /\ writeopen pi' = writeopen pi ->
  settled (set_pipes (<[q := pi']> (pipes k)) k).
Proof. intros [H1 H2 H3 H4 H5 H6 H7 H8 H9] Hq [Hr Hw]. split; try done. by apply (pipes_io _ _ _ pi pi'). Qed.

Section Io.
Context (killed : nat -> bool) (room : nat) (src : nat -> option ascii).
Context (dev_read : Z -> option (outcome * list ascii)) (dev_write : Z -> option outcome).

Lemma settled_read k fd n p o bs k' : settled k -> (p < length (procs k))%nat ->
  sys_read sb killed room dev_read fd n p k = Ok (o, bs, k') -> settled k' /\ length (procs k') = length (procs k).
Proof.
  intros Hk Hp. unfold sys_read. destruct (argfd fd p k) as [i|] eqn:E0; [|by intros [= _ _ <-]].
  assert (Hi : i ∈ fds (procs k)) by (eapply fd_in; [done | by apply argfd_lookup]).
  unfold fileread. destruct (_ || _); [by intros [= _ _ <-]|]. destruct (ftype (file_at i k)) eqn:Et; [done| | |].
  - destruct (pipes k !! _) as [pi|] eqn:Eq; [|done]. cbn [mbind res_bind or_panic].
    destruct (piperead _ _ n pi) as [[o1 bs1] pi'] eqn:Er. intros [= _ _ <-]. split; [|done]. apply (settled_pipe_io k _ pi); [done | done|].
    unfold piperead in Er. destruct (_ && _); [by injection Er as _ _ <-|].
    pose proof (read_loop_flags (fun j => (j <? room)%nat) (Z.to_nat n) 0 pi) as Hf.
    destruct (read_loop _ _ _ _) as [[r bs2] pi2]. by injection Er as _ _ <-.
  - run E1. destruct (readi _ _ _ _ _ _) as [[[[r bs1] ip] d]|] eqn:Er; [|done]. cbn [mbind res_bind or_panic].
    run E2. intros [= _ _ <-]. split; [|done]. apply settled_off; [done | done|]. apply readi_slot in Er.
    eapply led_use; [apply Hk | | exact E1 | exact Er | exact E2]. apply file_inode_held; auto.
  - destruct (_ || _); [by intros [= _ _ <-]|]. destruct (dev_read _) as [[o1 bs1]|]; by intros [= _ _ <-].
Qed.

Lemma settled_chunk k i j n r k' : settled k -> i ∈ fds (procs k) -> ftype (file_at i k) = FD_INODE ->
  write_chunk sb src i j n k = Ok (r, k') -> settled k' /\ procs k' = procs k /\ ftype (file_at i k') = FD_INODE.
Proof.
  intros Hk Hi Ht. unfold write_chunk. run E1. destruct (writei _ _ _ _ _ _) as [[[r1 ip] d]|] eqn:Ew; [|done]. cbn [mbind res_bind or_panic].
  run E2. intros [= _ <-]. split_and!; [|done|].
  - apply settled_off; [done | done|]. apply writei_slot in Ew. eapply led_use; [apply Hk | | exact E1 | exact Ew | exact E2].
    apply file_inode_held; auto.
  - set (f1 := if 0 <? r1 then _ else _). change (ftype (file_at i (set_file i f1 k)) = FD_INODE).
    rewrite file_at_set by (rewrite (i_len _ _ _ _ _ Hk); by apply (i_in _ _ _ _ _ Hk)). rewrite Nat.eqb_refl.
    unfold f1. by destruct (0 <? r1).
Qed.

Lemma settled_chunks i n : forall fuel j k j' k', settled k -> i ∈ fds (procs k) -> ftype (file_at i k) = FD_INODE ->
  write_chunks sb src fuel i j n k = Ok (j', k') -> settled k' /\ procs k' = procs k.
Proof.
  induction fuel as [|fuel IH]; intros j k j' k' Hk Hi Ht; cbn [write_chunks]; [by intros [= _ <-]|].
  destruct (j <? n); [|by intros [= _ <-]]. run E1. destruct a as [r k1].
  destruct (settled_chunk _ _ _ _ _ _ Hk Hi Ht E1) as (H1 & P1 & T1). destruct (negb _); [by intros [= _ <-]|].
  rewrite <- P1. apply IH; [done | by rewrite P1 | done].
Qed.

Lemma settled_write k fd n done p o k' : settled k -> (p < length (procs k))%nat ->
  sys_write sb killed src dev_write fd n done p k = Ok (o, k') -> settled k' /\ length (procs k') = length (procs k).
Proof.
  intros Hk Hp. unfold sys_write. destruct (argfd fd p k) as [i|] eqn:E0; [|by intros [= _ <-]].
  assert (Hi : i ∈ fds (procs k)) by (eapply fd_in; [done | by apply argfd_lookup]).
  unfold filewrite. destruct (_ || _); [by intros [= _ <-]|]. destruct (ftype (file_at i k)) eqn:Et; [done| | |].
  - destruct (pipes k !! _) as [pi|] eqn:Eq; [|done]. cbn [mbind res_bind or_panic].
    pose proof (write_loop_flags killed src (Z.to_nat n - done) done pi) as Hf. unfold pipewrite.
    destruct (write_loop _ _ _ _ pi) as [[o1 bs1] pi']. intros [= _ <-]. split; [|reflexivity]. by apply (settled_pipe_io k _ pi).
  - run E1. destruct a as [j k1]. intros [= _ <-]. by destruct (settled_chunks _ _ _ _ _ _ _ Hk Hi Et E1) as [? ->].
  - destruct (_ || _); [by intros [= _ <-]|]. destruct (dev_write _); by intros [= _ <-].
Qed.
End Io.

Lemma settled_fstat k fd copied p r st k' : settled k -> (p < length (procs k))%nat ->
  sys_fstat sb fd copied p k = Ok (r, st, k') -> settled k' /\ length (procs k') = length (procs k).
Proof.
  intros Hk Hp. unfold sys_fstat. destruct (argfd fd p k) as [i|] eqn:E0; [|by intros [= _ _ <-]].
  assert (Hi : i ∈ fds (procs k)) by (eapply fd_in; [done | by apply argfd_lookup]).
  assert (Hgo : ftype (file_at i k) = FD_INODE \/ ftype (file_at i k) = FD_DEVICE -> forall s1 s2,
    ilock sb (fip (file_at i k)) (kfs k) = Ok s1 -> iunlock (fip (file_at i k)) s1 = Ok s2 -> settled (set_fs s2 k)).
  { intros Ht s1 s2 E1 E2. apply settled_fs; [done|]. eapply (led_iunlock sb); [|exact E2].
    eapply led_ilock; [apply Hk | by apply file_inode_held | exact E1]. }
  unfold filestat. destruct (ftype (file_at i k)) eqn:Et; try by intros [= _ _ <-].
  - run E1. run E2. destruct copied; intros [= _ _ <-]; split; eauto.
  - run E1. run E2. destruct copied; intros [= _ _ <-]; split; eauto.
Qed.

(** ** Processes *)
Lemma fork_fds_settled np : forall todo fd k k', settled k -> (np < length (procs k))%nat ->
  (forall f, Some f ∈ todo -> f ∈ fds (procs k)) ->
  (forall j, (j < length todo)%nat -> ofile (proc_at np k) !! (fd + j)%nat = Some None) ->
  fork_fds todo fd np k = Ok k' ->
  settled k' /\ kfs k' = kfs k /\ length (procs k') = length (procs k) /\ cwd (proc_at np k') = cwd (proc_at np k) /\
  forall p, p <> np -> proc_at p k' = proc_at p k.
Proof.
  induction todo as [|[f|] todo IH]; intros fd k k' Hk Hn Hin Hfree; cbn [fork_fds]; [by intros [= <-]| |].
  - run E1. destruct (inv_filedup _ _ _ _ _ _ _ Hk (Hin f ltac:(by left)) E1) as [H1 P1].
    assert (F1 : kfs a = kfs k) by (revert E1; unfold filedup; destruct (_ <? 1); [done | by intros [= <-]]).
    assert (Ep : forall p, proc_at p a = proc_at p k) by (intros p; unfold proc_at; by rewrite P1).
    assert (B : ofile (proc_at np a) !! fd = Some None).
    { rewrite Ep. specialize (Hfree 0%nat). rewrite Nat.add_0_r in Hfree. apply Hfree. simpl. lia. }
    rewrite <- P1 in Hn. pose proof (inv_set_fd _ _ _ _ _ np fd f H1 Hn B) as H2. set (k2 := set_proc _ _ _) in *.
    intros E2. destruct (IH (S fd) k2 k') as (H3 & F3 & L3 & C3 & O3); [done | | | |exact E2|].
    + simpl. by rewrite length_insert.
    + intros g Hg. assert (Hg' : g ∈ fds (procs k)) by (apply Hin; by right).
      assert (Hs : f :: fds (procs k) ≡ₚ fds (procs k2)).
      { pose proof (proc_lookup np a Hn) as Hx. unfold fds, k2. simpl. rewrite (bind_insert _ _ np _ _ Hx), <- P1, (bind_split _ _ np _ Hx).
        simpl. by rewrite (bind_insert _ _ fd _ (Some f) B), (bind_split _ _ fd _ B). }
      rewrite <- Hs. by right.
    + intros j Hj. unfold k2. rewrite proc_at_set by done. simpl. rewrite list_lookup_insert_ne, Ep by lia.
      replace (S (fd + j)) with (fd + S j)%nat by lia. apply Hfree. simpl. lia.
    + split_and!; [done | by rewrite F3 | rewrite L3; simpl; by rewrite length_insert, P1 | |].
      * rewrite C3. unfold k2. rewrite proc_at_set by done. simpl. by rewrite Ep.
      * intros p Hne. rewrite O3 by done. unfold k2. by rewrite proc_at_other, Ep.
  - intros E. apply IH in E; try done.
    + intros g Hg. apply Hin. by right.
    + intros j Hj. replace (S fd + j)%nat with (fd + S j)%nat by lia. apply Hfree. simpl. lia.
Qed.

Lemma settled_fork k np p k' : settled k -> (p < length (procs k))%nat -> (np < length (procs k))%nat -> p <> np ->
  proc_at np k = no_files -> fork_files np p k = Ok k' -> settled k' /\ length (procs k') = length (procs k).
Proof.
  intros Hk Hp Hn Hne Hblank. unfold fork_files. run E1. pose proof (inv_ofile _ _ _ _ _ _ Hk Hp) as Hlen.
  destruct (fork_fds_settled np (ofile (proc_at p k)) 0 k a Hk Hn) as (H1 & F1 & L1 & C1 & O1); [| |exact E1|].
  { intros f [fd Hfd]%list_elem_of_lookup. by apply (fd_in k p fd). }
  { intros j Hj. rewrite Hblank. apply lookup_replicate_2. lia. }
  run E2. rename a0 into cw. intros [= <-]. split; [|simpl; by rewrite length_insert].
  assert (Hcw : cw ∈ cwds (procs a) ++ (ftab a ≫= f_inodes)) by (apply (cwd_held p a); [by rewrite L1 | exact E2]).
  set (k2 := set_fs _ a). assert (H2 : inv k2 [cw] [] [] []).
  { apply (inv_fs a [] []); [done|]. apply (led_idup sb); [apply H1 | done]. }
  apply (inv_proc k2 [cw] [] [] []); try done.
  - simpl. by rewrite L1.
  - simpl. eapply inv_ofile; [exact H2 | simpl; by rewrite L1].
  - simpl. change (proc_at np k2) with (proc_at np a). by rewrite C1, Hblank.
Qed.

(** Closing does not look at the processes. *)
Lemma fileclose_procs i l k : fileclose sb i (set_procs l k) = k' ← fileclose sb i k; Ok (set_procs l k').
Proof.
  unfold fileclose. change (file_at i (set_procs l k)) with (file_at i k).
  destruct (_ <? 1); [done|]. destruct (0 <? _); [done|]. destruct (ftype (file_at i k)); try done.
  - unfold close_pipe. simpl. by destruct (pipes k !! fpipe (file_at i k)).
  - simpl. by destruct (iput _ _ _).
  - simpl. by destruct (iput _ _ _).
Qed.

Lemma exit_fds_settled p : forall todo fd k k', settled k -> (p < length (procs k))%nat ->
  (forall j v, todo !! j = Some v -> ofile (proc_at p k) !! (fd + j)%nat = Some v) ->
  exit_fds sb todo fd p k = Ok k' -> settled k' /\ length (procs k') = length (procs k) /\ cwd (proc_at p k') = cwd (proc_at p k).
Proof.
  assert (Hshift : forall (todo : list (option nat)) v fd (l : list (option nat)), (forall j x, (v :: todo) !! j = Some x -> l !! (fd + j)%nat = Some x) ->
    forall j (x : option nat), todo !! j = Some x -> l !! (S fd + j)%nat = Some x).
  { intros todo v fd l H j x Hj. replace (S fd + j)%nat with (fd + S j)%nat by lia. by apply H. }
  induction todo as [|[f|] todo IH]; intros fd k k' Hk Hp Htodo; cbn [exit_fds]; [by intros [= <-]| |].
  - run E1. assert (B : ofile (proc_at p k) !! fd = Some (Some f)) by (specialize (Htodo 0%nat _ eq_refl); by rewrite Nat.add_0_r in Htodo).
    pose proof (inv_clear_fd _ _ _ _ _ p fd f Hk Hp B) as H1. set (x := set_fd fd None (proc_at p k)) in *.
    assert (E2 : fileclose sb f (set_proc p x k) = Ok (set_procs (<[p := x]> (procs k)) a)) by (unfold set_proc; by rewrite fileclose_procs, E1).
    destruct (inv_fileclose sb _ _ _ _ _ _ _ H1 ltac:(set_solver) E2) as [H2 _].
    assert (Pa : procs a = procs k).
    { pose proof (fileclose_procs f (procs k) k) as E3. replace (set_procs (procs k) k) with k in E3 by (by destruct k). rewrite E1 in E3. injection E3 as ->. done. }
    assert (Ex : set_proc p (set_fd fd None (proc_at p a)) a = set_procs (<[p := x]> (procs k)) a).
    { unfold set_proc, x, proc_at. by rewrite Pa. }
    rewrite Ex. set (k2 := set_procs _ a) in *. assert (Ek2 : proc_at p k2 = x) by (unfold k2, proc_at; simpl; by rewrite nth_lookup, list_lookup_insert_eq).
    intros E3. destruct (IH (S fd) k2 k' H2) as (H3 & L3 & C3); [simpl; by rewrite length_insert | | exact E3 |].
    + rewrite Ek2. intros j v Hj. simpl. rewrite list_lookup_insert_ne by lia. by eapply Hshift.
    + split_and!; [done | rewrite L3; simpl; by rewrite length_insert | by rewrite C3, Ek2].
  - intros E. apply IH in E; [done | done | done|]. by eapply Hshift.
Qed.

Lemma settled_exit k p k' : settled k -> (p < length (procs k))%nat -> exit_files sb p k = Ok k' ->
  settled k' /\ length (procs k') = length (procs k).
Proof.
  intros Hk Hp. unfold exit_files. run E1. destruct (exit_fds_settled p (ofile (proc_at p k)) 0 k a Hk Hp (fun j v H => H) E1) as (H1 & L1 & C1).
  rewrite <- L1 in *. run E2. rename a0 into cw. run E3. intros [= <-]. split; [|simpl; by rewrite length_insert].
  assert (Hcw : cwd (proc_at p a) = Some cw) by (revert E2; unfold cwd_of; destruct (cwd (proc_at p a)); [by intros [= ->] | done]).
  set (x := mkPfiles _ None). change (set_proc p x (set_fs a0 a)) with (set_fs a0 (set_proc p x a)).
  assert (H2 : inv (set_proc p x a) [cw] [] [] []).
  { apply (inv_proc a [] [] [] []); try done; [exact (inv_ofile _ _ _ _ _ p H1 Hp) | by rewrite Hcw]. }
  apply (inv_fs (set_proc p x a) [cw] []); [done|]. eapply led_iput; [apply H2 | set_solver | exact E3].
Qed.

Lemma settled_init k p k' : settled k -> (p < length (procs k))%nat -> cwd (proc_at p k) = None -> init_files sb p k = Ok k' ->
  settled k' /\ length (procs k') = length (procs k).
Proof.
  intros Hk Hp Hnone. unfold init_files. run E1. destruct a as [o s]. intros [= <-]. split; [|simpl; by rewrite length_insert].
  assert (Hl : led s (option_list o ++ cwds (procs k) ++ (ftab k ≫= f_inodes)) []).
  { revert E1. unfold namei.
    change (namex sb 0 (str "/") false (kfs k)) with ('(i, s1) ← iget ROOTDEV ROOTINO (kfs k); namex_loop sb 2 (str "/") false [] i s1).
    destruct (iget _ _ _) as [[i s1]| |] eqn:E; [|done..]. cbn [mbind res_bind].
    run E2. destruct a as [[o1 nm] s2]. intros [= <- <-].
    pose proof (led_iget _ _ _ _ _ _ _ (i_led _ _ _ _ _ Hk) E) as Hl1. eapply led_namex_loop in E2; [|exact Hl1|simpl; lia]. by destruct o1. }
  assert (H1 : inv (set_fs s k) (option_list o) [] [] []) by (by apply (inv_fs k [] [])).
  apply (inv_proc (set_fs s k) (option_list o) [] [] []); try done; [exact (inv_ofile _ _ _ _ _ p H1 Hp)|].
  simpl. change (proc_at p (set_fs s k)) with (proc_at p k). rewrite Hnone. by rewrite app_nil_r.
Qed.

(** ** Any sequence of calls *)
Inductive fcall : ksys -> ksys -> nat -> Prop :=
  | f_init p k k' : cwd (proc_at p k) = None -> init_files sb p k = Ok k' -> fcall k k' p
  | f_open path omode p r k k' : sys_open sb path omode p k = Ok (r, k') -> fcall k k' p
  | f_dup fd p r k k' : sys_dup fd p k = Ok (r, k') -> fcall k k' p
  | f_close fd p r k k' : sys_close sb fd p k = Ok (r, k') -> fcall k k' p
  | f_read kl room dv fd n p o bs k k' : sys_read sb kl room dv fd n p k = Ok (o, bs, k') -> fcall k k' p
  | f_write kl src dv fd n done p o k k' : sys_write sb kl src dv fd n done p k = Ok (o, k') -> fcall k k' p
  | f_fstat fd copied p r st k k' : sys_fstat sb fd copied p k = Ok (r, st, k') -> fcall k k' p
  | f_link old new p r k k' : sys_link sb old new p k = Ok (r, k') -> fcall k k' p
  | f_unlink path p r k k' : sys_unlink sb path p k = Ok (r, k') -> fcall k k' p
  | f_mkdir path p r k k' : sys_mkdir sb path p k = Ok (r, k') -> fcall k k' p
  | f_mknod path ma mi p r k k' : sys_mknod sb path ma mi p k = Ok (r, k') -> fcall k k' p
  | f_chdir path p r k k' : sys_chdir sb path p k = Ok (r, k') -> fcall k k' p
  | f_pipe page out p r k k' : fresh_page page k -> sys_pipe sb page out p k = Ok (r, k') -> fcall k k' p
  | f_fork np p k k' : (np < length (procs k))%nat -> p <> np -> proc_at np k = no_files -> fork_files np p k = Ok k' -> fcall k k' p
  | f_exit p k k' : exit_files sb p k = Ok k' -> fcall k k' p.

Definition fstep (k k' : ksys) : Prop := exists p, (p < length (procs k))%nat /\ fcall k k' p.

Lemma settled_step k k' : settled k -> fstep k k' -> settled k'.
Proof.
  intros Hk (p & Hp & Hc).
  assert (Hconj : forall P, settled k' /\ P -> settled k') by (by intros P [? _]).
  destruct Hc as [? ? ? Hn E|? ? ? ? ? ? E|? ? ? ? ? E|? ? ? ? ? E|? ? ? ? ? ? ? ? ? ? E|? ? ? ? ? ? ? ? ? ? E|? ? ? ? ? ? ? E|
    ? ? ? ? ? ? E|? ? ? ? ? E|? ? ? ? ? E|? ? ? ? ? ? ? E|? ? ? ? ? E|? ? ? ? ? ? Hq E|? ? ? ? Hn Hne Hb E|? ? ? E].
  - exact (Hconj _ (settled_init _ _ _ Hk Hp Hn E)).
  - exact (Hconj _ (settled_open _ _ _ _ _ _ Hk Hp E)).
  - exact (Hconj _ (settled_dup _ _ _ _ _ Hk Hp E)).
  - exact (Hconj _ (settled_close _ _ _ _ _ Hk Hp E)).
  - exact (Hconj _ (settled_read _ _ _ _ _ _ _ _ _ _ Hk Hp E)).
  - exact (Hconj _ (settled_write _ _ _ _ _ _ _ _ _ _ Hk Hp E)).
  - exact (Hconj _ (settled_fstat _ _ _ _ _ _ _ Hk Hp E)).
  - exact (settled_link _ _ _ _ _ _ Hk Hp E).
  - exact (settled_unlink _ _ _ _ _ Hk Hp E).
  - exact (settled_make _ _ _ _ _ _ _ _ Hk Hp E).
  - exact (settled_make _ _ _ _ _ _ _ _ Hk Hp E).
  - exact (Hconj _ (settled_chdir _ _ _ _ _ Hk Hp E)).
  - exact (Hconj _ (settled_pipe _ _ _ _ _ _ Hk Hp Hq E)).
  - exact (Hconj _ (settled_fork _ _ _ _ Hk Hp Hn Hne Hb E)).
  - exact (Hconj _ (settled_exit _ _ _ Hk Hp E)).
Qed.

(** The state the kernel boots with. *)
Definition files_init (d : disk) : ksys := mkKsys (iinit d) (replicate NFILE null_file) ∅ (replicate 64 no_files).

Lemma files_init_settled d : settled (files_init d).
Proof.
  assert (Hf : forall i, file_at i (files_init d) = null_file).
  { intros i. unfold file_at, files_init. cbn [ftab]. rewrite nth_lookup.
    destruct (replicate NFILE null_file !! i) eqn:E; [|done]. by apply lookup_replicate_1 in E as [-> _]. }
  split; try (intros i; rewrite ?Hf; done).
  - split; [apply iinit_ok | by apply NoDup_nil | done|]. intros i Hi. change (kfs (files_init d)) with (iinit d). rewrite (entry_lookup (iinit d) i null_inode); [done|].
    by apply lookup_replicate_2.
  - done.
  - by apply Forall_replicate.
  - intros i Hi. by apply elem_of_nil in Hi.
  - change (pipes_ok ∅ []). split; [by apply NoDup_nil | |by intros q pi Hq; rewrite lookup_empty in Hq].
    intros q w. split; [by intros ?%elem_of_nil | by intros (pi & Hq & _); rewrite lookup_empty in Hq].
Qed.

Lemma settled_reach k k' : settled k -> rtc fstep k k' -> settled k'.
Proof. intros Hk Hr. induction Hr as [|x y z Hst _ IH]; [done|]. apply IH. by eapply settled_step. Qed.

(** C3: the books of open files balance.  After any sequence of [open], [dup],
    [close], [read], [write], [fstat], [link], [unlink], [mkdir], [mknod],
    [chdir], [pipe], [fork] and [exit] by any processes, on every path
    through these calls, errors included: the count of an open file is the
    number of descriptors that refer to it, and a file has a type exactly
    when there are any; the count of an inode is the number of open files
    and current directories that refer to it; no inode is left locked; and
    an end of a pipe is open exactly when one open file is that end, the
    pipe being freed when both are closed.  So no call leaks a file, an
    inode or a pipe, and none frees one that is in use. *)
Theorem calls_balance d k : rtc fstep (files_init d) k ->
  (forall i, (i < NFILE)%nat -> fref (file_at i k) = held i (fds (procs k)) /\ (ftype (file_at i k) = FD_NONE <-> i ∉ fds (procs k))) /\
  (forall i, (i < NINODE)%nat -> iref (entry i (kfs k)) = held i (cwds (procs k) ++ (ftab k ≫= f_inodes)) /\ locked (entry i (kfs k)) = false) /\
  pipes_ok (pipes k) (ftab k ≫= f_ends).
Proof.
  intros Hr. pose proof (settled_reach _ _ (files_init_settled d) Hr) as [H1 H2 H3 H4 H5 H6 H7 H8 H9]. split_and!; [| |done].
  - intros i Hi. specialize (H4 i Hi). simpl in H4. split; [done|]. split.
    + intros Ht Hin%held_pos. apply (H7 i Hi (not_elem_of_nil i)); [lia | done].
    + intros Hni. apply H6; [done|]. rewrite H4. pose proof (held_nonneg i (fds (procs k))).
      destruct (decide (0 < held i (fds (procs k)))) as [Hh|]; [by apply held_pos in Hh | lia].
  - intros i Hi. split; [by apply (t_ref _ _ (l_table _ _ _ H1))|]. rewrite (l_lock _ _ _ H1) by done. by apply bool_decide_eq_false, not_elem_of_nil.
Qed.
End Calls.

(** The first process makes a pipe and forks; both close an end. *)
Definition then_ {A} (r : res A) (a : A) : A := match r with Ok a => a | _ => a end.
Definition shell1 : ksys := then_ (init_files demo_sb 0 (files_init ∅)) (files_init ∅).
Definition shell2 : ksys := (then_ (sys_pipe demo_sb (Some (7%nat, [])) true 0 shell1) (0, shell1)).2.
Definition shell3 : ksys := then_ (fork_files 1 0 shell2) shell2.
Definition shell4 : ksys := (then_ (sys_close demo_sb 0 0 shell3) (0, shell3)).2.

Lemma calls_balance_witness :
  rtc (fstep demo_sb) (files_init ∅) shell4 /\ fref (file_at 0 shell4) = 1 /\ fref (file_at 1 shell4) = 2 /\
  fref (file_at 1 shell4) = held 1 (fds (procs shell4)).
Proof.
  assert (Hr : rtc (fstep demo_sb) (files_init ∅) shell4).
  { apply (rtc_l _ _ shell1); [exists 0%nat; split; [simpl; lia|]; apply f_init; by vm_compute|].
    apply (rtc_l _ _ shell2).
    { exists 0%nat. split; [vm_compute; lia|]. apply (f_pipe _ (Some (7%nat, [])) true _ 0); by vm_compute. }
    apply (rtc_l _ _ shell3).
    { exists 0%nat. split; [vm_compute; lia|]. apply (f_fork _ 1); [vm_compute; lia | lia | by vm_compute | by vm_compute]. }
    apply (rtc_l _ _ shell4); [|apply rtc_refl]. exists 0%nat. split; [vm_compute; lia|].
    apply (f_close _ 0 _ 0). by vm_compute. }
  split; [exact Hr|]. split; [by vm_compute|]. split; [by vm_compute|].
  assert (H1 : (1 < NFILE)%nat) by (unfold NFILE; lia).
  exact (proj1 (proj1 (calls_balance demo_sb ∅ shell4 Hr) 1%nat H1)).
Defined.
