(* ===== verification/Filewrite.v ===== *)
(** * Writing through a descriptor (xv6/kernel/file.c, [filewrite])

    A long write is cut into transactions of three blocks; this file shows
    that the file is updated as by one write, and what is left of it when the
    disk fills up. *)
From S2P Require Import Prelude KString Disk Balloc Inode Content Rw Trunc Itable Iref Reclaim Pipe Dir Path File.
Local Open Scope Z_scope.

Section Write.
Context (sb : superblock) (Hlay : layout_ok sb).

(** The inode behind file [i], and its bytes. *)
Definition the_inode (k : ksys) (i : nat) : inode := entry (fip (file_at i k)) (kfs k).
Definition the_byte (k : ksys) (i : nat) (o : Z) : ascii := fbyte (fdisk (kfs k)) (the_inode k i) o.

(** File [i] is open on an inode that is in memory and not locked. *)
Record open_ok (k : ksys) (i : nat) : Prop := mkOpenOk {
  op_file : (i < length (ftab k))%nat;
  op_slot : (fip (file_at i k) < length (itab (kfs k)))%nat;
  op_ref : 1 <= iref (the_inode k i);
  op_free : locked (the_inode k i) = false;
  op_valid : valid (the_inode k i) = true;
  op_disk : disk_ok sb (fdisk (kfs k));
  op_ok : file_ok sb (fdisk (kfs k)) (the_inode k i);
  op_off : 0 <= foff (file_at i k) <= isize (the_inode k i)
}.

(** [m] bytes of [src] from [j] on were written at [off + j]. *)
Record wrote (src : nat -> option ascii) (i : nat) (off j m : Z) (k k' : ksys) : Prop := mkWrote {
  wr_off : foff (file_at i k') = off + m;
  wr_size : isize (the_inode k' i) = Z.max (isize (the_inode k i)) (off + m);
  wr_bytes : forall o, 0 <= o < MAXFILE * BSIZE ->
    the_byte k' i o = if (off + j <=? o) && (o <? off + m) then default NUL (src (Z.to_nat (o - off))) else the_byte k i o;
  wr_ok : open_ok k' i;
  wr_file : ftype (file_at i k') = ftype (file_at i k) /\ fip (file_at i k') = fip (file_at i k)
}.

Lemma file_lock d b ip : file_ok sb d ip -> file_ok sb d (set_lock b ip).
Proof. intros [A B C D E]. split; try done. by apply (wf_addrs sb d _ ip). Qed.

Section Source.
Context (src : nat -> option ascii) (n : Z) (Hsrc : forall j, 0 <= j < n -> is_Some (src (Z.to_nat j))).

Lemma max_size : MAXFILE * BSIZE < 2 ^ 32.
Proof. by vm_compute. Qed.

Lemma write_chunk_spec i off j n1 k : open_ok k i -> foff (file_at i k) = off + j -> 0 <= j -> 0 <= n1 -> j + n1 <= n ->
  0 <= off -> off + n <= MAXFILE * BSIZE ->
  exists r k', write_chunk sb src i j n1 k = Ok (r, k') /\ 0 <= r <= n1 /\ wrote src i off j (j + r) k k' /\
    (r = n1 \/ disk_full sb (fdisk (kfs k'))).
Proof.
  intros [H1 H2 H3 H4 H5 H6 H7 H8] Hoff Hj Hn1 Hn H0 Hmax. unfold write_chunk, ilock.
  fold (the_inode k i). set (ip := the_inode k i) in *. set (f := file_at i k) in *.
  destruct (Z.ltb_spec (iref ip) 1); [lia|]. rewrite H4, H5. cbn [mbind res_bind].
  rewrite !(entry_set_entry (fip f)) by done. rewrite Nat.eqb_refl. change (fdisk (set_entry _ _ (kfs k))) with (fdisk (kfs k)).
  assert (Hf : file_ok sb (fdisk (kfs k)) (set_lock true ip)) by (by apply file_lock).
  destruct (writei_spec sb Hlay (fun x => src (Z.to_nat j + x)%nat) (foff f) n1 (set_lock true ip) (fdisk (kfs k)) H6 Hf)
    as (tot & m & ip' & d' & -> & Ht & Hm & Hsz & Hip & Hby & _ & Hend & Hok & Hd & _); [done | lia | lia|].
  cbn [mbind res_bind or_panic]. set (s1 := set_disk d' _).
  assert (Hall : tot = m /\ (tot = n1 \/ disk_full sb d')).
  { destruct Hend as [?|[Hlt Hno]]; [done|]. destruct (Hsrc (j + m)) as [c Hc]; [lia|]. exfalso.
    replace (Z.to_nat j + Z.to_nat m)%nat with (Z.to_nat (j + m)) in Hno by lia. congruence. }
  destruct Hall as [<- Hfull]. clear Hend.
  assert (He : entry (fip f) s1 = ip').
  { unfold s1. change (entry (fip f) (set_disk d' ?s)) with (entry (fip f) s). rewrite entry_set_entry by (simpl; by rewrite length_insert). by rewrite Nat.eqb_refl. }
  unfold iunlock. rewrite He. assert (Hl : locked ip' = true /\ iref ip' = iref ip /\ valid ip' = true) by (rewrite Hip; done).
  destruct Hl as (L1 & L2 & L3). rewrite L1, L2. destruct (Z.ltb_spec (iref ip) 1); [lia|]. cbn [negb orb mbind res_bind].
  set (s2 := set_entry _ _ s1). set (f1 := if 0 <? tot then _ else f).
  assert (Hf1 : foff f1 = off + (j + tot) /\ ftype f1 = ftype f /\ fip f1 = fip f).
  { unfold f1. pose proof max_size. destruct (Z.ltb_spec 0 tot); simpl; [|split_and!; (done || lia)]. rewrite u32_id by (unfold in_u32; lia). split_and!; (done || lia). }
  destruct Hf1 as (O1 & O2 & O3). set (k' := set_fs s2 (set_file i f1 k)).
  assert (Hfile : file_at i k' = f1).
  { change (file_at i k') with (file_at i (set_file i f1 k)). unfold file_at. simpl. by rewrite nth_lookup, list_lookup_insert_eq. }
  assert (Hlen : length (itab s1) = length (itab (kfs k))) by (simpl; by rewrite !length_insert).
  assert (Hino : the_inode k' i = set_lock false ip').
  { unfold the_inode. rewrite Hfile, O3. change (kfs k') with s2. unfold s2. rewrite entry_set_entry by (by rewrite Hlen). by rewrite Nat.eqb_refl. }
  assert (Hok' : file_ok sb d' (set_lock false ip')) by (by apply file_lock).
  assert (Hisz : isize ip' = Z.max (isize ip) (off + (j + tot))) by (rewrite Hsz; simpl; lia).
  exists tot, k'. split_and!; [done | lia | lia | | done]. split.
  - by rewrite Hfile.
  - rewrite Hino. exact Hisz.
  - intros o Ho. unfold the_byte. rewrite Hino. change (fdisk (kfs k')) with d'.
    change (fbyte d' (set_lock false ip') o) with (fbyte d' ip' o). rewrite Hby by done. rewrite Hoff.
    replace (off + j + tot) with (off + (j + tot)) by lia.
    destruct ((off + j <=? o) && (o <? off + (j + tot))) eqn:Eb; [|done].
    apply andb_true_iff in Eb as [?%Z.leb_le ?%Z.ltb_lt]. do 2 f_equal. lia.
  - split; rewrite ?Hino, ?Hfile; simpl; rewrite ?length_insert; try done; rewrite ?O3; try done; rewrite ?L2, ?O1, ?Hisz; lia.
  - rewrite Hfile. done.
Qed.

Lemma wrote_join i off j m1 m2 k1 k2 k3 : 0 <= off -> j <= m1 <= m2 -> wrote src i off j m1 k1 k2 -> wrote src i off m1 m2 k2 k3 ->
  wrote src i off j m2 k1 k3.
Proof.
  intros H0 Hj [A1 A2 A3 A4 [A5 A6]] [B1 B2 B3 B4 [B5 B6]]. split; try done.
  - rewrite B2, A2. lia.
  - intros o Ho. rewrite B3, A3 by done.
    destruct (Z.leb_spec (off + j) o), (Z.leb_spec (off + m1) o), (Z.ltb_spec o (off + m1)), (Z.ltb_spec o (off + m2)); simpl; (done || lia).
  - by rewrite B5, B6.
Qed.

Lemma max_write_pos : 0 < max_write.
Proof. by vm_compute. Qed.

Lemma write_chunks_spec i off : 0 <= off -> off + n <= MAXFILE * BSIZE -> forall fuel j k,
  open_ok k i -> foff (file_at i k) = off + j -> 0 <= j <= n -> n - j <= Z.of_nat fuel ->
  exists j' m k', write_chunks sb src fuel i j n k = Ok (j', k') /\ j <= j' <= m /\ m <= n /\ wrote src i off j m k k' /\
    (m = n /\ j' = n \/ j' < n /\ disk_full sb (fdisk (kfs k'))).
Proof.
  intros H0 Hmax. induction fuel as [|fuel IH]; intros j k Hk Hoff Hj Hf; cbn [write_chunks].
  all: assert (Hend : j = n -> exists j' m k', @Ok (Z * ksys) (j, k) = Ok (j', k') /\ j <= j' <= m /\ m <= n /\ wrote src i off j m k k' /\
    (m = n /\ j' = n \/ j' < n /\ disk_full sb (fdisk (kfs k')))).
  1, 3: intros ->; exists n, n, k; split_and!; [done | lia | lia | lia | | by left]; pose proof (op_off _ _ Hk); split; try done; [lia|];
    intros o Ho; destruct (Z.leb_spec (off + n) o), (Z.ltb_spec o (off + n)); simpl; (done || lia).
  - apply Hend. lia.
  - destruct (Z.ltb_spec j n); [|apply Hend; lia]. pose proof max_write_pos. set (n1 := if max_write <? n - j then _ else _).
    assert (Hn1 : 0 < n1 <= n - j) by (unfold n1; destruct (Z.ltb_spec max_write (n - j)); lia).
    destruct (write_chunk_spec i off j n1 k) as (r & k1 & -> & Hr & Hw & Hfull); try done; [lia..|]. cbn [mbind res_bind].
    destruct (Z.eqb_spec r n1) as [->|Hne]; cbn [negb].
    + destruct (IH (j + n1) k1) as (j' & m & k' & -> & Hj' & Hm & Hw' & Hcase); [apply Hw | apply Hw | lia | lia|].
      exists j', m, k'. split_and!; [done | lia | lia | lia | | done]. apply (wrote_join i off j (j + n1) m k k1 k'); (done || lia).
    + exists j, (j + r), k1. split_and!; [done | lia | lia | lia | done|]. right. split; [lia|]. by destruct Hfull.
Qed.
End Source.

(** A write through a descriptor updates the file as one write would,
    although it is cut into transactions of three blocks.  If the caller's
    memory can be read and the file's maximal size is respected, the write
    never panics; a prefix of [m] bytes replaces those at the descriptor's
    offset, no other byte of the file changes, and the offset and the size
    follow; the call answers the number of bytes when that is all of them,
    and -1 when the disk is full, in which case the bytes written so far stay
    written and the offset has moved past them. *)
Theorem filewrite_stores killed src dev_write i n done k :
  open_ok k i -> ftype (file_at i k) = FD_INODE -> writable (file_at i k) = true -> 0 <= n ->
  (forall j, 0 <= j < n -> is_Some (src (Z.to_nat j))) -> foff (file_at i k) + n <= MAXFILE * BSIZE ->
  exists r m k', filewrite sb killed src dev_write i n done k = Ok (Return r, k') /\
    0 <= m <= n /\ wrote src i (foff (file_at i k)) 0 m k k' /\
    ((r = n /\ m = n) \/ (r = -1 /\ disk_full sb (fdisk (kfs k')))).
Proof.
  intros Hk Ht Hw Hn Hsrc Hmax. unfold filewrite. rewrite Hw, Ht. destruct (Z.ltb_spec n 0); [lia|]. cbn [negb orb].
  pose proof (op_off _ _ Hk). destruct (write_chunks_spec src n Hsrc i (foff (file_at i k)) ltac:(lia) Hmax (Z.to_nat n) 0 k)
    as (j' & m & k' & -> & Hj & Hm & Hwr & Hcase); [done | lia | lia | lia|]. cbn [mbind res_bind].
  eexists _, m, k'. split; [reflexivity|]. split; [lia|]. split; [done|].
  destruct Hcase as [[-> ->]|[Hlt Hfull]]; [left; by rewrite Z.eqb_refl|].
  right. destruct (Z.eqb_spec j' n); [lia | done].
Qed.
End Write.

(** Five bytes go to an empty file. *)
Definition note_fs : fsys := set_entry 0 (set_lock false root_ip) (iinit demo_disk).
Definition note_sys : ksys :=
  mkKsys note_fs (<[0%nat := mkFile FD_INODE 1 true true 0 0 0 0]> (replicate NFILE null_file)) ∅ [].

Lemma note_open : open_ok demo_sb note_sys 0.
Proof.
  split; [by vm_compute; lia | by vm_compute; lia | by vm_compute | done | done | exact demo_disk_ok | | by vm_compute].
  change (file_ok demo_sb demo_disk (set_lock false root_ip)). apply file_lock, root_ok.
Defined.

Lemma filewrite_stores_witness :
  exists r m k', filewrite demo_sb (fun _ => false) (fun j => str "hello" !! j) (fun _ => None) 0 5 0 note_sys = Ok (Return r, k') /\
    wrote demo_sb (fun j => str "hello" !! j) 0 0 0 m note_sys k' /\ (r = 5 \/ r = -1).
Proof.
  destruct (filewrite_stores demo_sb demo_layout (fun _ => false) (fun j => str "hello" !! j) (fun _ => None) 0 5 0 note_sys)
    as (r & m & k' & E & _ & Hw & Hr).
  - exact note_open.
  - reflexivity.
  - reflexivity.
  - lia.
  - intros j Hj. apply lookup_lt_is_Some_2. change (length (str "hello")) with 5%nat. lia.
  - vm_compute. discriminate.
  - exists r, m, k'. split; [exact E|]. split; [exact Hw|]. destruct Hr as [[-> _]|[-> _]]; [left | right]; reflexivity.
Defined.
