(* ===== verification/Snoop.v ===== *)
(** * snoop (c-shell/src/snoop.c)

    The tracer: the table of system calls with their counts and times, the
    loop that drives the traced process from stop to stop, and the summary.
    What [ptrace] and [waitpid] answer in each round is an argument; times are
    values of an abstract type with addition and subtraction. *)
From Stdlib Require Import Sorted.
From S2P Require Import Prelude Lexer Jobs Execute Resume.
Local Open Scope Z_scope.

Definition MAX_ENTRIES : nat := 512.
Definition SYSCALL_STOP : Z := 133. (* SIGTRAP | 0x80 *)

Section Snoop.
Context {T : Type} (zero : T) (add sub : T -> T -> T).

Record Entry := mkEntry { number : Z; calls : Z; seconds : T }.

(** ** The table *)
Fixpoint entry_index (n : Z) (i : nat) (l : list Entry) : option nat :=
  match l with
  | [] => None
  | e :: l' => if number e =? n then Some i else entry_index n (S i) l'
  end.

(** The place of the entry, made if there is room. *)
Definition find_entry (n : Z) (l : list Entry) : option nat * list Entry :=
  match entry_index n 0 l with
  | Some i => (Some i, l)
  | None => if (length l =? MAX_ENTRIES)%nat then (None, l) else (Some (length l), l ++ [mkEntry n 0 zero])
  end.

Definition count_call (i : nat) (l : list Entry) : list Entry :=
  alter (fun e => mkEntry (number e) (calls e + 1) (seconds e)) i l.
Definition add_time (i : nat) (t : T) (l : list Entry) : list Entry :=
  alter (fun e => mkEntry (number e) (calls e) (add (seconds e) t)) i l.

(** ** The loop *)

(** What [PTRACE_GET_SYSCALL_INFO] says, with the time at which it is asked. *)
Inductive sysinfo := OpEntry (nr : Z) (now : T) | OpExit (now : T) | OpNone.

Inductive waited :=
  | WaitError                        (* not EINTR *)
  | Ended (status : wstatus)         (* exited or killed *)
  | StoppedBy (sig : Z) (info : sysinfo).

(** One round: whether [ptrace] could resume the process, for each EINTR of
    [waitpid] whether an interrupt was pending, and the answer in the end. *)
Record round := mkTurn { resumed : bool; eintr : list bool; answer : waited }.

(** How [trace] returns: 0, 0 after [detach], or 1 with the final status. *)
Inductive tresult := Lost | Detached | Final (status : wstatus).

(** The result, the signal given at each resumption, and the table; [None]
    while the process still runs. *)
Fixpoint trace (attached : bool) (turns : list round) (deliver : Z) (open_call : option nat) (started : T) (l : list Entry) :
    option (tresult * list Z * list Entry) :=
  match turns with
  | [] => None
  | t :: turns' =>
      if negb (resumed t) then Some (Lost, [], l)
      else if attached && existsb id (eintr t) then Some (Detached, [deliver], l)
      else
        let go d o s l' :=
          '(r, ds, l2) ← trace attached turns' d o s l'; Some (r, deliver :: ds, l2) in
        match answer t with
        | WaitError => Some (Lost, [deliver], l)
        | Ended st => Some (Final st, [deliver], l)
        | StoppedBy sig info =>
            if negb (sig =? SYSCALL_STOP) then go sig open_call started l
            else
              match info with
              | OpEntry nr now =>
                  let '(o, l1) := find_entry nr l in
                  go 0 o now (match o with Some i => count_call i l1 | None => l1 end)
              | OpExit now =>
                  match open_call with
                  | Some i => go 0 None started (add_time i (sub now started) l)
                  | None => go 0 open_call started l
                  end
              | OpNone => go 0 open_call started l
              end
        end
  end.

(** ** The summary *)

(** [for(;j>0 && entries[j-1].calls<key.calls;j--) entries[j]=entries[j-1];]
    on the entries before the key, the last first. *)
Fixpoint shift (key : Entry) (before : list Entry) : list Entry :=
  match before with
  | e :: before' => if calls e <? calls key then e :: shift key before' else key :: before
  | [] => [key]
  end.

Definition sort_entries (l : list Entry) : list Entry := rev (fold_left (fun before key => shift key before) l []).

Section Print.
(** The table of [syscalls.c] and the text of a time. *)
Context (names : list (option cstr)) (show_time : T -> cstr) (show : Z -> cstr).

Definition syscall_name (n : Z) : option cstr :=
  if (n <? 0) || (Z.of_nat (length names) <=? n) then None else nth (Z.to_nat n) names None.

(** ["%-20s"]. *)
Definition pad (w : nat) (s : cstr) : cstr := s ++ replicate (w - length s) " "%char.

Definition row (e : Entry) : cstr :=
  let name := match syscall_name (number e) with Some n => n | None => str "syscall_" ++ show (number e) end in
  pad 20 name ++ [" "%char] ++ pad 8 (show (calls e)) ++ [" "%char] ++ show_time (seconds e) ++ [ "s"%char; LF ].

Definition print_summary (l : list Entry) : list cstr :=
  (pad 20 (str "syscall") ++ [" "%char] ++ pad 8 (str "calls") ++ [" "%char] ++ str "time" ++ [LF]) :: (row <$> sort_entries l).
End Print.

(** ** The command *)
Inductive attach_result := Attached | Denied | NoProcess.
Inductive snooped := NotSnoop | Complaint (msg : cstr) | Summary (lines : list cstr) | Running.

Section Command.
Context (names : list (option cstr)) (show_time : T -> cstr) (show : Z -> cstr).
(** What [ptrace] says to attaching, [find_executable], whether [fork]
    succeeds, and the turns of the trace that starts at time [t0]. *)
Context (attach : Z -> attach_result) (find_exec : cstr -> bool -> option cstr) (forked : bool) (turns : list round) (t0 : T).

Definition summary (attached : bool) : snooped :=
  match trace attached turns 0 None t0 [] with
  | Some (_, _, l) => Summary (print_summary names show_time show l)
  | None => Running
  end.

(** The number must be digits only, positive and at most 100000000. *)
Definition snoop_pid (txt : cstr) : snooped :=
  let '(pid, rest, _) := strtol txt in
  if (code (char_at txt 0) <? 48) || (57 <? code (char_at txt 0)) || negb (bool_decide (rest = [])) || (pid <=? 0) || (100000000 <? pid)
  then Complaint (str "snoop: no such process")
  else match attach pid with
       | Attached => summary true
       | Denied => Complaint (str "snoop: permission denied")
       | NoProcess => Complaint (str "snoop: no such process")
       end.

Definition snoop_command (name : cstr) : snooped :=
  let path_only := match name with c :: _ => ceq c "%" | [] => false end in
  let name := if path_only then drop 1 name else name in
  match find_exec name path_only with
  | None => Complaint (str "snoop: command not found")
  | Some _ => if forked then summary false else Complaint (str "snoop: fork failed")
  end.

Definition run_snoop (ts : list Token) : snooped :=
  match ts with
  | t0 :: rest =>
      if negb (bool_decide (type t0 = TOKEN_WORD)) || negb (streq (text t0) (str "snoop")) then NotSnoop
      else match rest with
           | [] => Complaint (str "snoop: invalid syntax")
           | t1 :: rest' =>
               if streq (text t1) (str "-p") then
                 match rest' with
                 | [t2] => snoop_pid (text t2)
                 | _ => Complaint (str "snoop: invalid syntax")
                 end
               else snoop_command (text t1)
           end
  | [] => NotSnoop
  end.
End Command.

(** ** What is counted *)

(** The numbers of the calls entered before the trace ends. *)
Fixpoint entered (attached : bool) (turns : list round) : list Z :=
  match turns with
  | [] => []
  | t :: turns' =>
      if negb (resumed t) then []
      else if attached && existsb id (eintr t) then []
      else match answer t with
           | StoppedBy sig info =>
               (if sig =? SYSCALL_STOP then match info with OpEntry nr _ => [nr] | _ => [] end else []) ++ entered attached turns'
           | _ => []
           end
  end.

(** The signal that is passed on after a round. *)
Definition passed_on (t : round) : Z :=
  match answer t with StoppedBy sig _ => if sig =? SYSCALL_STOP then 0 else sig | _ => 0 end.

Definition calls_of (n : Z) (l : list Entry) : Z :=
  match entry_index n 0 l with Some i => match l !! i with Some e => calls e | None => 0 end | None => 0 end.

Definition numbers (l : list Entry) : list Z := number <$> l.

Lemma entry_index_spec n : forall l i0,
  match entry_index n i0 l with
  | Some i => exists e, (i0 <= i)%nat /\ l !! (i - i0)%nat = Some e /\ number e = n
  | None => n ∉ numbers l
  end.
Proof.
  induction l as [|e l IH]; intros i0; simpl; [apply not_elem_of_nil|]. destruct (Z.eqb_spec (number e) n) as [E|Hne].
  - exists e. rewrite Nat.sub_diag. split_and!; (done || lia).
  - specialize (IH (S i0)). destruct (entry_index n (S i0) l) as [i|].
    + destruct IH as (e' & Hi & He & Hn). exists e'. replace (i - i0)%nat with (S (i - S i0)) by lia. split_and!; (done || lia).
    + unfold numbers in *. simpl. rewrite elem_of_cons. intros [E|]; [by destruct Hne | done].
Qed.

Lemma calls_of_NoDup l i e : NoDup (numbers l) -> l !! i = Some e -> calls_of (number e) l = calls e.
Proof.
  intros Hnd Hi. unfold calls_of. pose proof (entry_index_spec (number e) l 0) as Hf.
  destruct (entry_index (number e) 0 l) as [j|].
  - destruct Hf as (e' & _ & He' & Hn). rewrite Nat.sub_0_r in He'.
    assert (i = j) as ->; [|rewrite He'; congruence].
    apply (NoDup_lookup _ _ _ (number e) Hnd); unfold numbers; rewrite list_lookup_fmap; [by rewrite Hi | rewrite He'; simpl; congruence].
  - destruct Hf. unfold numbers. apply list_elem_of_fmap. exists e. split; [done|]. by eapply list_elem_of_lookup_2.
Qed.

Lemma calls_of_new n l : n ∉ numbers l -> calls_of n l = 0.
Proof.
  intros Hn. unfold calls_of. pose proof (entry_index_spec n l 0) as Hf. destruct (entry_index n 0 l) as [i|]; [|done].
  destruct Hf as (e & _ & He & <-). destruct Hn. unfold numbers. apply list_elem_of_fmap. exists e. split; [done | by eapply list_elem_of_lookup_2].
Qed.

Lemma numbers_alter (f : Entry -> Entry) i l : (forall e, number (f e) = number e) -> numbers (alter f i l) = numbers l.
Proof.
  intros Hf. revert i. induction l as [|e l IH]; intros [|i]; simpl; try done; unfold numbers in *; simpl; [by rewrite Hf|].
  f_equal. apply IH.
Qed.

Lemma alter_none (f : Entry -> Entry) (i : nat) (l : list Entry) : l !! i = None -> alter f i l = l.
Proof.
  intros Hi. apply list_eq. intros j. destruct (decide (i = j)) as [<-|]; [by rewrite list_lookup_alter_eq, Hi | by rewrite list_lookup_alter_ne].
Qed.

(** An entry that changes in place. *)
Lemma calls_alter (f : Entry -> Entry) i l e n : (forall e, number (f e) = number e) -> NoDup (numbers l) -> l !! i = Some e ->
  calls_of n (alter f i l) = if number e =? n then calls (f e) else calls_of n l.
Proof.
  intros Hf Hnd Hi. assert (Hnd' : NoDup (numbers (alter f i l))) by (by rewrite numbers_alter).
  assert (Hi' : alter f i l !! i = Some (f e)) by (by rewrite list_lookup_alter_eq, Hi).
  destruct (Z.eqb_spec (number e) n) as [<-|Hne].
  - rewrite <- (Hf e). by apply (calls_of_NoDup _ i).
  - destruct (decide (n ∈ numbers l)) as [Hin|Hin].
    + unfold numbers in Hin. apply list_elem_of_fmap in Hin as (e' & -> & [j Hj]%list_elem_of_lookup).
      assert (Hji : j <> i) by congruence. rewrite (calls_of_NoDup l j e') by done. apply (calls_of_NoDup _ j); [done|].
      by rewrite list_lookup_alter_ne.
    + by rewrite !calls_of_new by (by rewrite ?numbers_alter).
Qed.

Lemma calls_snoc n l m : m ∉ numbers l -> NoDup (numbers l) -> calls_of n (l ++ [mkEntry m 0 zero]) = calls_of n l.
Proof.
  intros Hm Hnd. set (l' := l ++ _). assert (En : numbers l' = numbers l ++ [m]) by (unfold numbers, l'; by rewrite fmap_app).
  assert (Hnd' : NoDup (numbers l')).
  { rewrite En. apply NoDup_app. split_and!; [done | | apply NoDup_singleton]. intros x Hx ->%list_elem_of_singleton. done. }
  destruct (decide (n ∈ numbers l)) as [Hin|Hin].
  - apply list_elem_of_fmap in Hin as (e & -> & [j Hj]%list_elem_of_lookup). rewrite (calls_of_NoDup l j e) by done.
    apply (calls_of_NoDup l' j); [done|]. by apply lookup_app_l_Some.
  - rewrite (calls_of_new n l) by done. destruct (decide (n = m)) as [->|Hne].
    + apply (calls_of_NoDup l' (length l) (mkEntry m 0 zero)); [done|]. by apply list_lookup_middle.
    + apply calls_of_new. rewrite En, elem_of_app, list_elem_of_singleton. tauto.
Qed.

(** One call is counted, unless the table is full. *)
Definition total (n : Z) (l : list Z) : Z := Z.of_nat (length (filter (fun x => x = n) l)).

Lemma enter_counts nr l o l1 : NoDup (numbers l) -> find_entry nr l = (o, l1) ->
  (nr ∈ numbers l \/ (length l < MAX_ENTRIES)%nat) ->
  let l2 := match o with Some i => count_call i l1 | None => l1 end in
  NoDup (numbers l2) /\ (forall n, calls_of n l2 = calls_of n l + total n [nr]) /\
  numbers l2 = numbers l ++ (if decide (nr ∈ numbers l) then [] else [nr]).
Proof.
  intros Hnd E Hroom. unfold find_entry in E. pose proof (entry_index_spec nr l 0) as Hf.
  assert (Ht : forall n, total n [nr] = if nr =? n then 1 else 0).
  { intros n. unfold total. rewrite filter_cons, filter_nil. destruct (Z.eqb_spec nr n), (decide (nr = n)); (done || congruence). }
  destruct (entry_index nr 0 l) as [i|].
  - injection E as <- <-. destruct Hf as (e & _ & He & <-). rewrite Nat.sub_0_r in He. unfold count_call.
    rewrite numbers_alter by done. rewrite decide_True by (apply list_elem_of_fmap; exists e; split; [done | by eapply list_elem_of_lookup_2]).
    rewrite app_nil_r. split_and!; [done | | done]. intros n. rewrite (calls_alter _ i l e), Ht by done.
    destruct (Z.eqb_spec (number e) n) as [<-|]; [|lia]. simpl. by rewrite (calls_of_NoDup l i).
  - destruct (Nat.eqb_spec (length l) MAX_ENTRIES) as [Hfull|Hl]; [destruct Hroom; [done | lia]|]. injection E as <- <-.
    assert (En : numbers (l ++ [mkEntry nr 0 zero]) = numbers l ++ [nr]) by (unfold numbers; by rewrite fmap_app).
    assert (Hnd' : NoDup (numbers (l ++ [mkEntry nr 0 zero]))).
    { rewrite En. apply NoDup_app. split_and!; [done | | apply NoDup_singleton]. intros x Hx ->%list_elem_of_singleton. done. }
    assert (He : (l ++ [mkEntry nr 0 zero]) !! length l = Some (mkEntry nr 0 zero)) by (by apply list_lookup_middle).
    unfold count_call. rewrite numbers_alter by done. rewrite decide_False by done. split_and!; [done | | done].
    intros n. rewrite (calls_alter (fun e => mkEntry (number e) (calls e + 1) (seconds e)) _ _ _ n (fun e => eq_refl) Hnd' He), Ht. simpl.
    destruct (Z.eqb_spec nr n) as [<-|]; [by rewrite calls_of_new | by rewrite calls_snoc, Z.add_0_r].
Qed.

(** No more than 512 different calls. *)
Definition few (l : list Z) : Prop := (size (list_to_set l : gset Z) <= MAX_ENTRIES)%nat.

Lemma few_room l nr es : NoDup (numbers l) -> few (numbers l ++ nr :: es) -> nr ∈ numbers l \/ (length l < MAX_ENTRIES)%nat.
Proof.
  intros Hnd Hf. destruct (decide (nr ∈ numbers l)) as [|Hn]; [by left|]. right. unfold few in Hf.
  assert (Hnd' : NoDup (nr :: numbers l)) by (by apply NoDup_cons).
  assert (Hs : (list_to_set (nr :: numbers l) : gset Z) ⊆ list_to_set (numbers l ++ nr :: es)) by (clear; set_solver).
  apply subseteq_size in Hs. rewrite (size_list_to_set (C := gset Z) (nr :: numbers l) Hnd') in Hs. simpl in Hs.
  unfold numbers in Hs at 1. rewrite length_fmap in Hs. lia.
Qed.

Lemma few_same l l' : (forall x, x ∈ l <-> x ∈ l') -> few l -> few l'.
Proof.
  intros H. unfold few. replace (list_to_set l' : gset Z) with (list_to_set l : gset Z); [done|]. apply set_eq. intros x.
  by rewrite !elem_of_list_to_set.
Qed.

Lemma total_sum n a b : total n (a ++ b) = total n a + total n b.
Proof. unfold total. rewrite filter_app, length_app. lia. Qed.

(** The loop counts every call that is entered, whenever and however the
    trace ends. *)
Lemma trace_counts attached : forall turns deliver o started l r ds l',
  NoDup (numbers l) -> few (numbers l ++ entered attached turns) ->
  trace attached turns deliver o started l = Some (r, ds, l') ->
  NoDup (numbers l') /\ (forall n, calls_of n l' = calls_of n l + total n (entered attached turns)) /\
  (forall i v, (deliver :: ds) !! S (S i) = Some v -> exists t, turns !! i = Some t /\ v = passed_on t) /\
  (forall v, head ds = Some v -> v = deliver).
Proof.
  induction turns as [|t turns IH]; intros deliver o started l r ds l' Hnd Hfew; cbn [trace entered]; [done|].
  assert (H0 : forall n, calls_of n l = calls_of n l + total n []) by (intros n; unfold total; simpl; lia).
  cbn [entered] in Hfew. destruct (resumed t); cbn [negb] in *; [|by intros [= _ <- <-]].
  destruct (attached && _); [by intros [= _ <- <-]; split_and!; [| | |intros v [= <-]]|].
  assert (Hstep : forall d o1 s1 l1 es, passed_on t = d -> NoDup (numbers l1) -> few (numbers l1 ++ entered attached turns) ->
    (forall n, calls_of n l1 = calls_of n l + total n es) ->
    ('(r, ds, l2) ← trace attached turns d o1 s1 l1; Some (r, deliver :: ds, l2)) = Some (r, ds, l') ->
    NoDup (numbers l') /\ (forall n, calls_of n l' = calls_of n l + total n (es ++ entered attached turns)) /\
    (forall i v, (deliver :: ds) !! S (S i) = Some v -> exists t', (t :: turns) !! i = Some t' /\ v = passed_on t') /\
    (forall v, head ds = Some v -> v = deliver)).
  { intros d o1 s1 l1 es Hd Hnd1 Hfew1 Hc1. destruct (trace attached turns d o1 s1 l1) as [[[r2 ds2] l2]|] eqn:E; [|done].
    cbn [mbind option_bind]. intros [= -> <- ->]. destruct (IH _ _ _ _ _ _ _ Hnd1 Hfew1 E) as (A1 & A2 & A3 & A4).
    split_and!; [done | | | by intros v [= <-]].
    - intros n. rewrite A2, Hc1, total_sum. lia.
    - intros [|i] v Hv; simpl in Hv.
      + exists t. split; [done|]. rewrite Hd. apply A4. by destruct ds2.
      + by apply (A3 i v). }
  assert (Hp : forall sig info, answer t = StoppedBy sig info -> passed_on t = if sig =? SYSCALL_STOP then 0 else sig)
    by (intros sig info E; unfold passed_on; by rewrite E).
  destruct (answer t) as [|st|sig info]; [by intros [= _ <- <-]; split_and!; [| | |intros v [= <-]] .. |].
  specialize (Hp _ _ eq_refl). destruct (sig =? SYSCALL_STOP) eqn:Es; cbn [negb].
  - destruct info as [nr now|now|].
    + destruct (find_entry nr l) as [o1 l1] eqn:Ef.
      destruct (enter_counts nr l o1 l1 Hnd Ef (few_room _ _ _ Hnd Hfew)) as (B1 & B2 & B3).
      apply Hstep; [done | done | | done]. eapply few_same; [|exact Hfew]. intros x. rewrite B3. destruct (decide _); set_solver.
    + destruct o as [i|]; [|by apply (Hstep 0 None started l [])].
      set (f := fun e => mkEntry (number e) (calls e) (add (seconds e) (sub now started))).
      apply (Hstep 0 None started (alter f i l) []); [done | by rewrite numbers_alter | by rewrite numbers_alter|].
      intros n. destruct (l !! i) as [e|] eqn:Ei; [|rewrite alter_none by done; apply H0].
      rewrite (calls_alter f i l e) by done. destruct (Z.eqb_spec (number e) n) as [<-|]; [|done]. simpl. rewrite (calls_of_NoDup l i e) by done.
      unfold total. simpl. lia.
    + by apply (Hstep 0 o started l []).
  - by apply (Hstep sig o started l []).
Qed.

(** ** The order of the summary *)
Definition more (a b : Entry) : Prop := calls b <= calls a.

Lemma shift_perm key l : shift key l ≡ₚ key :: l.
Proof. induction l as [|e l IH]; simpl; [done|]. destruct (_ <? _); [|done]. rewrite IH. apply perm_swap. Qed.

Lemma sort_perm l : forall acc, fold_left (fun before key => shift key before) l acc ≡ₚ l ++ acc.
Proof. induction l as [|e l IH]; intros acc; simpl; [done|]. rewrite IH, shift_perm. symmetry. apply Permutation_middle. Qed.

Lemma shift_sorted key l : StronglySorted (fun a b => calls a <= calls b) l -> StronglySorted (fun a b => calls a <= calls b) (shift key l).
Proof.
  induction 1 as [|e l Hs IH Hall]; simpl; [repeat constructor|]. destruct (Z.ltb_spec (calls e) (calls key)).
  - constructor; [done|]. rewrite shift_perm. constructor; [lia | done].
  - constructor; [by constructor|]. constructor; [done|]. eapply Forall_impl; [exact Hall|]. simpl. lia.
Qed.

(** Among entries with equal counts, the last seen stays the last. *)
Lemma shift_stable c key l : StronglySorted (fun a b => calls a <= calls b) l ->
  filter (fun e => calls e = c) (shift key l) = filter (fun e => calls e = c) (key :: l).
Proof.
  induction 1 as [|e l Hs IH Hall]; simpl; [done|]. destruct (Z.ltb_spec (calls e) (calls key)); [|done].
  rewrite filter_cons, IH, !filter_cons. destruct (decide (calls e = c)), (decide (calls key = c)); (done || lia).
Qed.

Lemma sort_spec l : forall acc, StronglySorted (fun a b => calls a <= calls b) acc ->
  let out := fold_left (fun before key => shift key before) l acc in
  StronglySorted (fun a b => calls a <= calls b) out /\
  forall c, filter (fun e => calls e = c) out = rev (filter (fun e => calls e = c) l) ++ filter (fun e => calls e = c) acc.
Proof.
  induction l as [|e l IH]; intros acc Hs; simpl; [done|]. destruct (IH (shift e acc) (shift_sorted e acc Hs)) as [H1 H2].
  split; [done|]. intros c. rewrite H2, shift_stable, !filter_cons by done. destruct (decide _); simpl; [by rewrite <- app_assoc | done].
Qed.

Lemma rev_sorted {A} (R : A -> A -> Prop) l : StronglySorted R l -> StronglySorted (fun a b => R b a) (rev l).
Proof.
  induction 1 as [|x l Hs IH Hall]; simpl; [constructor|]. revert IH. generalize (rev l) (Forall_rev Hall). clear.
  intros m Hm Hs. induction Hs as [|y m Hs IH Hy]; simpl; [repeat constructor|]. inversion Hm as [|? ? Hxy Hm']; subst.
  constructor; [by apply IH|]. apply Forall_app. split; [done | by repeat constructor].
Qed.

Lemma sort_entries_spec l : sort_entries l ≡ₚ l /\ StronglySorted more (sort_entries l) /\
  forall c, filter (fun e => calls e = c) (sort_entries l) = filter (fun e => calls e = c) l.
Proof.
  destruct (sort_spec l [] (SSorted_nil _)) as [H1 H2]. unfold sort_entries. split_and!.
  - rewrite <- Permutation_rev, sort_perm. by rewrite app_nil_r.
  - by apply rev_sorted in H1.
  - intros c. specialize (H2 c). rewrite filter_nil, app_nil_r in H2.
    assert (Hr : forall m : list Entry, filter (fun e => calls e = c) (rev m) = rev (filter (fun e => calls e = c) m)).
    { induction m as [|e m IH]; [done|]. simpl. rewrite filter_app, IH, !filter_cons, filter_nil. destruct (decide _); simpl; [done | by rewrite app_nil_r]. }
    by rewrite Hr, H2, rev_involutive.
Qed.

(** Snoop reports every system call.  Whatever stops the traced process
    makes and however the trace ends, if it uses at most 512 different calls
    then each entry of the summary has exactly the number of times its call
    was entered, no call appears twice, the calls are listed by falling
    count, calls with equal counts in the order they were first seen; and a
    signal that stopped the process is passed on at the next resumption. *)
Theorem snoop_reports_calls attached turns started r ds l :
  few (entered attached turns) -> trace attached turns 0 None started [] = Some (r, ds, l) ->
  (forall n, calls_of n l = total n (entered attached turns)) /\
  (forall e, e ∈ sort_entries l -> calls e = total (number e) (entered attached turns)) /\
  NoDup (numbers (sort_entries l)) /\ StronglySorted more (sort_entries l) /\
  (forall c, filter (fun e => calls e = c) (sort_entries l) = filter (fun e => calls e = c) l) /\
  (forall i v, ds !! S i = Some v -> exists t, turns !! i = Some t /\ v = passed_on t).
Proof.
  intros Hfew E. assert (Hnil : NoDup (numbers (@nil Entry))) by apply NoDup_nil_2.
  destruct (trace_counts attached turns 0 None started [] r ds l Hnil Hfew E) as (H1 & H2 & H3 & _).
  destruct (sort_entries_spec l) as (S1 & S2 & S3). split_and!; try done.
  - intros e He. rewrite S1 in He. apply list_elem_of_lookup in He as [i Hi]. rewrite <- (calls_of_NoDup l i e) by done. by rewrite H2.
  - unfold numbers in *. by rewrite S1.
Qed.
End Snoop.

(** A process that reads, writes and reads, with a signal in between. *)
Definition demo_turns : list (@round Z) :=
  [mkTurn true [] (StoppedBy SYSCALL_STOP (OpEntry 0 10)); mkTurn true [false] (StoppedBy SYSCALL_STOP (OpExit 15));
   mkTurn true [] (StoppedBy 14 OpNone);
   mkTurn true [] (StoppedBy SYSCALL_STOP (OpEntry 1 20)); mkTurn true [] (StoppedBy SYSCALL_STOP (OpExit 21));
   mkTurn true [] (StoppedBy SYSCALL_STOP (OpEntry 1 22)); mkTurn true [] (Ended (Exited 0))].

Lemma snoop_reports_calls_witness :
  exists r ds l, trace 0 Z.add Z.sub false demo_turns 0 None 0 [] = Some (r, ds, l) /\
    ds = [0; 0; 0; 14; 0; 0; 0] /\ (number <$> sort_entries l) = [1; 0] /\ calls_of 1 l = total 1 [0; 1; 1].
Proof.
  assert (Hfew : few (entered false demo_turns)) by (vm_compute; lia).
  eexists _, _, _. split; [vm_compute; reflexivity|]. split; [reflexivity|]. split; [by vm_compute|].
  exact (proj1 (snoop_reports_calls 0 Z.add Z.sub false demo_turns 0 _ _ _ Hfew eq_refl) 1).
Defined.
