(* ===== verification/Mainloop.v ===== *)
(** * The shell's main loop and prompt (c-shell/src/main.c, prompt.c)

    Lines are read with [fgets] into a buffer of 1026 bytes and handed to
    [run].  Standard input is a list of what arrives: characters, the end of
    file a terminal sends, and interrupts; the end of the list is the end of
    the input. *)
From S2P Require Import Prelude.
Local Open Scope nat_scope.

Definition CSHELL_MAX_INPUT : nat := 1024.
Definition INPUT_SIZE : nat := CSHELL_MAX_INPUT + 2.

(** ** The prompt *)
Record ShellState := mkShellState { home_dir : cstr; previous_dir : option cstr }.

Definition slash : ascii := "/"%char.

(** The part of [cwd] below the home directory, if it is below. *)
Definition display_path (st : ShellState) (cwd : cstr) : option cstr :=
  let home := home_dir st in
  if streq home [slash] then Some (if streq cwd [slash] then [] else cwd)
  else if streq (take (length home) cwd) home && (ceq (char_at cwd (length home)) NUL || ceq (char_at cwd (length home)) slash)
  then Some (drop (length home) cwd)
  else None.

(** What [getcwd], [gethostname] and [getpwuid] answer and whether [fflush]
    succeeds; the text printed, or nothing on failure. *)
Definition print_prompt (st : ShellState) (cwd host user : option cstr) (flushed : bool) : option cstr :=
  cwd ← cwd; host ← host; user ← user;
  if negb flushed then None
  else Some (str "<" ++ user ++ str "@" ++ host ++ str ":" ++
        (match display_path st cwd with Some rel => str "~" ++ rel | None => cwd end) ++ str "> ").

(** ** Reading *)
Inductive item := Byte (c : ascii) | CtrlD | Intr.

(** A string with whether the end of file was met, or a null pointer. *)
Inductive fres := Line (s : list ascii) (eof : bool) | NullEof | NullIntr.

Fixpoint fgets (room : nat) (src : list item) : fres * list item :=
  match room with
  | O => (Line [] false, src)
  | S room' =>
      match src with
      | [] => (NullEof, [])
      | CtrlD :: src' => (NullEof, src')
      | Intr :: src' => (NullIntr, src')
      | Byte c :: src' =>
          if ceq c LF then (Line [LF] false, src')
          else match fgets room' src' with
               | (Line s e, rest) => (Line (c :: s) e, rest)
               | (NullEof, rest) => (Line [c] true, rest)
               | (NullIntr, rest) => (NullIntr, rest)
               end
      end
  end.

(** The buffer as a string. *)
Fixpoint cut_nul (s : list ascii) : cstr :=
  match s with [] => [] | c :: s' => if ceq c NUL then [] else c :: cut_nul s' end.

(** [input[strcspn(input, "\n")] = '\0']. *)
Fixpoint cut_line (s : cstr) : cstr :=
  match s with [] => [] | c :: s' => if ceq c LF then [] else c :: cut_line s' end.

Definition has_newline (s : cstr) : bool := existsb (ceq LF) s.

(** [while ((ch = getchar()) != '\n' && ch != EOF)]. *)
Fixpoint skip_line (src : list item) : list item :=
  match src with
  | [] => []
  | Byte c :: src' => if ceq c LF then src' else skip_line src'
  | _ :: src' => src'
  end.

(** What the shell prints and does; [Exit] follows [shutdown_jobs]. *)
Inductive act := Prompt (text : cstr) | Run (line : cstr) | TooLong | Newline | StoppedWarning | Exit (status : Z).

Section Loop.
Context (tty : bool).

(** On a terminal, an end of file in the middle of a line does not end it;
    after a hangup it is not a terminal any more. *)
Fixpoint more_input (fuel : nat) (s : cstr) (eof : bool) (src : list item) : cstr * list act * list item :=
  match fuel with
  | O => (s, [], src)
  | S fuel' =>
      if tty && negb (bool_decide (src = [])) && eof && negb (has_newline s) && (length s <? INPUT_SIZE - 1) then
        match fgets (INPUT_SIZE - 1 - length s) src with
        | (Line s2 e2, src') => more_input fuel' (s ++ cut_nul s2) e2 src'
        | (NullEof, src') => more_input fuel' s true src'
        | (NullIntr, src') => ([], [Newline], src')
        end
      else (s, [], src)
  end.

(** What the system answers, at a turn of the loop and after the lines run so
    far: the current directory, the name of the host and of the user, any of
    which can fail, whether the prompt can be written, and whether there are
    stopped jobs. *)
Context (st : ShellState) (cwd host user : nat -> list cstr -> option cstr) (flushed has_stopped : nat -> list cstr -> bool).

Definition prompt_at (turn : nat) (ran : list cstr) : option cstr :=
  print_prompt st (cwd turn ran) (host turn ran) (user turn ran) (flushed turn ran).

(** What the shell does; [None] when the fuel is too small. *)
Fixpoint main_loop (fuel turn : nat) (src : list item) (warned : bool) (ran : list cstr) : option (list act) :=
  match fuel with
  | O => None
  | S fuel' =>
      match prompt_at turn ran with
      | None => Some [Exit 1]
      | Some p =>
          match fgets (INPUT_SIZE - 1) src with
          | (NullIntr, src') => acts ← main_loop fuel' (S turn) src' warned ran; Some (Prompt p :: Newline :: acts)
          | (NullEof, src') =>
              if has_stopped turn ran && negb warned
              then acts ← main_loop fuel' (S turn) src' true ran; Some (Prompt p :: StoppedWarning :: acts)
              else Some [Prompt p; Newline; Exit 0]
          | (Line s0 eof, src0) =>
              let '(s, said, src') := more_input (S (length src0)) (cut_nul s0) eof src0 in
              if negb (has_newline s) && (length s =? INPUT_SIZE - 1) then
                acts ← main_loop fuel' (S turn) (skip_line src') false ran; Some (Prompt p :: said ++ TooLong :: acts)
              else
                let line := cut_line s in
                if bool_decide (line = []) then acts ← main_loop fuel' (S turn) src' false ran; Some (Prompt p :: said ++ acts)
                else acts ← main_loop fuel' (S turn) src' false (ran ++ [line]); Some (Prompt p :: said ++ Run line :: acts)
          end
      end
  end.
End Loop.

(** ** The lines of an input *)
Fixpoint lines (s : list ascii) : list cstr :=
  match s with
  | [] => []
  | c :: s' =>
      if ceq c LF then [] :: lines s'
      else match lines s' with l :: ls => (c :: l) :: ls | [] => [[c]] end
  end.

Definition line_act (l : cstr) : list act :=
  if bool_decide (l = []) then [] else if length l <=? CSHELL_MAX_INPUT then [Run l] else [TooLong].

Definition runs (ls : list cstr) : list cstr := List.filter (fun l => negb (bool_decide (l = [])) && (length l <=? CSHELL_MAX_INPUT)) ls.

(** The first line and the rest of the input after it. *)
Fixpoint split_line (s : list ascii) : cstr * list ascii :=
  match s with
  | [] => ([], [])
  | c :: s' => if ceq c LF then ([], s') else let '(l, r) := split_line s' in (c :: l, r)
  end.

Lemma lines_split s : s <> [] -> lines s = (split_line s).1 :: lines (split_line s).2.
Proof.
  induction s as [|c s IH]; [done|]. intros _. simpl. destruct (ceq c LF); [done|].
  destruct s as [|d s]; [done|]. rewrite IH by done. by destruct (split_line (d :: s)) as [l r].
Qed.

Lemma split_line_spec s : let '(l, r) := split_line s in LF ∉ l /\ (s = l ++ LF :: r \/ (s = l /\ r = [])).
Proof.
  induction s as [|c s IH]; simpl; [split; [apply not_elem_of_nil | by right]|]. destruct (ceq_spec c LF) as [->|Hne].
  - split; [apply not_elem_of_nil | by left].
  - destruct (split_line s) as [l r]. destruct IH as [Hl Hs]. split; [rewrite elem_of_cons; intros [E|?]; congruence|].
    destruct Hs as [->|[-> ->]]; [by left | by right].
Qed.

(** [fgets] on plain characters. *)
Lemma fgets_line l rest : forall room, LF ∉ l -> length l < room ->
  fgets room (Byte <$> l ++ LF :: rest) = (Line (l ++ [LF]) false, Byte <$> rest).
Proof.
  induction l as [|c l IH]; intros [|room] Hl Hlen; simpl in *; try lia; [done|].
  rewrite not_elem_of_cons in Hl. destruct Hl as [Hc Hl]. rewrite ceq_neq by congruence. by rewrite IH by (done || lia).
Qed.

Lemma fgets_full l rest : forall room, LF ∉ l -> length l = room -> fgets room (Byte <$> l ++ rest) = (Line l false, Byte <$> rest).
Proof.
  induction l as [|c l IH]; intros [|room] Hl Hlen; simpl in *; try lia; [done|].
  rewrite not_elem_of_cons in Hl. destruct Hl as [Hc Hl]. rewrite ceq_neq by congruence. by rewrite IH by (done || lia).
Qed.

Lemma fgets_last l : forall room, LF ∉ l -> l <> [] -> length l < room -> fgets room (Byte <$> l) = (Line l true, []).
Proof.
  induction l as [|c l IH]; intros [|room] Hl Hne Hlen; simpl in *; try lia; try done.
  rewrite not_elem_of_cons in Hl. destruct Hl as [Hc Hl]. rewrite ceq_neq by congruence.
  destruct l as [|d l]; [destruct room; [simpl in Hlen; lia | done]|]. by rewrite IH by (done || simpl in *; lia).
Qed.

Lemma skip_line_spec l rest : LF ∉ l -> skip_line (Byte <$> l ++ LF :: rest) = Byte <$> rest /\ skip_line (Byte <$> l) = [].
Proof.
  induction l as [|c l IH]; simpl; [done|]. rewrite not_elem_of_cons. intros [Hc Hl]. rewrite ceq_neq by congruence. by apply IH.
Qed.

Lemma cut_nul_id s : NUL ∉ s -> cut_nul s = s.
Proof. induction s as [|c s IH]; [done|]. simpl. rewrite not_elem_of_cons. intros [Hc Hs]. rewrite ceq_neq by congruence. by rewrite IH. Qed.

Lemma cut_line_id l r : LF ∉ l -> cut_line (l ++ LF :: r) = l /\ cut_line l = l.
Proof.
  induction l as [|c l IH]; simpl; [done|]. rewrite not_elem_of_cons. intros [Hc Hl]. rewrite ceq_neq by congruence.
  by destruct (IH Hl) as [-> ->].
Qed.

Lemma has_newline_spec s : has_newline s = bool_decide (LF ∈ s).
Proof.
  unfold has_newline. induction s as [|c s IH]; [done|]. cbn [existsb]. rewrite IH. destruct (ceq_spec LF c) as [<-|Hne]; cbn [orb].
  - by rewrite (bool_decide_eq_true_2 (LF ∈ LF :: s)) by (by left).
  - apply bool_decide_ext. rewrite elem_of_cons. split; [by right | intros [|]; [congruence | done]].
Qed.

(** ** The loop on a file *)
Section Plain.
Context (st : ShellState) (cwd host user : nat -> list cstr -> option cstr) (flushed has_stopped : nat -> list cstr -> bool).

Let prompt := prompt_at st cwd host user flushed.
Let loop := main_loop false st cwd host user flushed has_stopped.

(** What the shell should do with the lines [ls] from a turn on: prompt, and
    deal with the next line; at the end warn once if jobs are stopped, and
    leave; leave with status 1 as soon as the prompt cannot be printed. *)
Fixpoint session (turn : nat) (ls : list cstr) (ran : list cstr) : list act :=
  match prompt turn ran with
  | None => [Exit 1]
  | Some p =>
      Prompt p ::
      match ls with
      | l :: ls' => line_act l ++ session (S turn) ls' (ran ++ runs [l])
      | [] =>
          if has_stopped turn ran
          then StoppedWarning :: match prompt (S turn) ran with Some p' => [Prompt p'; Newline; Exit 0] | None => [Exit 1] end
          else [Newline; Exit 0]
      end
  end.

(** Everything but the prompts. *)
Definition besides (acts : list act) : list act :=
  List.filter (fun a => match a with Prompt _ => false | _ => true end) acts.

(** Without a terminal nothing more is read into a line. *)
Lemma more_plain fuel s eof src : more_input false fuel s eof src = (s, [], src).
Proof. by destruct fuel. Qed.

(** A line, wherever it ends, has its effect and leaves the rest. *)
Lemma main_turn fuel turn s warned ran p : NUL ∉ s -> s <> [] -> prompt_at st cwd host user flushed turn ran = Some p ->
  let '(l, r) := split_line s in
  loop (S fuel) turn (Byte <$> s) warned ran =
  acts ← loop fuel (S turn) (Byte <$> r) false (ran ++ runs [l]); Some (Prompt p :: line_act l ++ acts).
Proof.
  intros Hnul Hs Hpr. pose proof (split_line_spec s) as Hsp. destruct (split_line s) as [l r]. destruct Hsp as [Hl Hcase].
  assert (Hln : NUL ∉ l) by (destruct Hcase as [E|[E _]]; rewrite E in Hnul; set_solver).
  assert (Hneeds : forall g src, fgets (INPUT_SIZE - 1) (Byte <$> s) = (Line l g, src) \/ fgets (INPUT_SIZE - 1) (Byte <$> s) = (Line (l ++ [LF]) g, src) ->
    length l <= CSHELL_MAX_INPUT -> src = Byte <$> r ->
    loop (S fuel) turn (Byte <$> s) warned ran =
    acts ← loop fuel (S turn) (Byte <$> r) false (ran ++ runs [l]); Some (Prompt p :: line_act l ++ acts)).
  { intros g src Hg Hlen ->. destruct (cut_line_id l [] Hl) as [C1 C2].
    assert (Hshort : length l =? INPUT_SIZE - 1 = false) by (apply Nat.eqb_neq; unfold INPUT_SIZE; lia).
    assert (Hnul2 : NUL ∉ l ++ [LF]) by (rewrite elem_of_app, list_elem_of_singleton; intros [|]; done).
    assert (Hnl : has_newline (l ++ [LF]) = true) by (rewrite has_newline_spec; apply bool_decide_eq_true; set_solver).
    unfold line_act, runs. simpl List.filter. rewrite (proj2 (Nat.leb_le _ _) Hlen).
    unfold loop. cbn [main_loop]. rewrite Hpr. destruct Hg as [-> | ->]; rewrite more_plain, cut_nul_id by done.
    - rewrite Hshort, andb_false_r, C2. destruct (bool_decide_reflect (l = [])) as [->|Hl0]; simpl; [by rewrite app_nil_r | done].
    - rewrite Hnl, C1. cbn [negb andb]. destruct (bool_decide_reflect (l = [])) as [->|Hl0]; simpl; [by rewrite app_nil_r | done]. }
  destruct (Nat.le_gt_cases (length l) CSHELL_MAX_INPUT) as [Hlen|Hlen].
  - destruct Hcase as [->|[-> ->]].
    + apply (Hneeds false (Byte <$> r)); [right | done | done]. apply fgets_line; [done | unfold INPUT_SIZE; lia].
    + apply (Hneeds true []); [left | done | done]. apply fgets_last; [done | done | unfold INPUT_SIZE; lia].
  - set (a := take (INPUT_SIZE - 1) l). assert (Ha : length a = INPUT_SIZE - 1) by (unfold a; rewrite length_take; unfold INPUT_SIZE; lia).
    assert (Eal : l = a ++ drop (INPUT_SIZE - 1) l) by (symmetry; apply take_drop). set (b := drop (INPUT_SIZE - 1) l) in *.
    assert (HaLF : LF ∉ a) by (rewrite Eal in Hl; set_solver). assert (HbLF : LF ∉ b) by (rewrite Eal in Hl; set_solver).
    assert (HaN : NUL ∉ a) by (rewrite Eal in Hln; set_solver).
    assert (Hrest : exists u, s = a ++ u /\ skip_line (Byte <$> u) = Byte <$> r).
    { destruct Hcase as [->|[-> ->]].
      - exists (b ++ LF :: r). rewrite Eal at 1. rewrite <- app_assoc. split; [done|]. by apply skip_line_spec.
      - exists b. split; [done|]. by apply (skip_line_spec b []). }
    destruct Hrest as (u & -> & Hu). unfold loop. cbn [main_loop]. rewrite Hpr, (fgets_full a u) by done. rewrite more_plain, cut_nul_id by done.
    rewrite has_newline_spec, bool_decide_eq_false_2 by done. rewrite Ha, Nat.eqb_refl. cbn [negb andb]. rewrite Hu.
    assert (Hl0 : l <> []) by (intros ->; simpl in Hlen; lia). unfold line_act, runs. simpl List.filter.
    rewrite bool_decide_eq_false_2 by done. destruct (Nat.leb_spec (length l) CSHELL_MAX_INPUT); [lia|]. simpl. by rewrite app_nil_r.
Qed.

(** The end of the input. *)
Lemma main_end fuel turn ran : loop (S (S fuel)) turn (Byte <$> []) false ran = Some (session turn [] ran).
Proof.
  unfold loop. cbn [session main_loop]. unfold prompt. destruct (prompt_at st cwd host user flushed turn ran) as [p|]; [|done].
  simpl fgets. cbv iota. destruct (has_stopped turn ran); cbn [andb negb]; [|done].
  destruct (prompt_at st cwd host user flushed (S turn) ran) as [p'|]; [|done]. by rewrite andb_false_r.
Qed.

Lemma main_loop_lines : forall n s turn ran fuel, length s <= n -> NUL ∉ s -> length (lines s) + 2 <= fuel ->
  loop fuel turn (Byte <$> s) false ran = Some (session turn (lines s) ran).
Proof.
  induction n as [|n IH]; intros s turn ran fuel Hn Hnul Hf.
  { destruct s; [|simpl in Hn; lia]. destruct fuel as [|[|fuel]]; simpl in Hf; [lia | lia | apply main_end]. }
  destruct (decide (s = [])) as [->|Hs]; [destruct fuel as [|[|fuel]]; simpl in Hf; [lia | lia | apply main_end]|].
  destruct fuel as [|fuel]; [lia|].
  destruct (prompt_at st cwd host user flushed turn ran) as [p|] eqn:Hp.
  2: { unfold loop. cbn [main_loop]. rewrite Hp. destruct (lines s); cbn [session]; unfold prompt; by rewrite Hp. }
  pose proof (main_turn fuel turn s false ran p Hnul Hs Hp) as Ht. rewrite (lines_split s Hs) in *.
  pose proof (split_line_spec s) as Hsp. destruct (split_line s) as [l r]. rewrite Ht. cbn [fst snd length] in Hf |- *.
  destruct Hsp as [_ Hcase].
  assert (Hr : length r <= n /\ NUL ∉ r).
  { destruct Hcase as [E|[E ->]]; [|split; [simpl; lia | apply not_elem_of_nil]]. rewrite E in Hn, Hnul.
    rewrite length_app in Hn. simpl in Hn. split; [lia | set_solver]. }
  rewrite (IH r (S turn) (ran ++ runs [l]) fuel) by (done || lia || apply Hr). cbn [session]. unfold prompt. by rewrite Hp.
Qed.

Lemma besides_app a b : besides (a ++ b) = besides a ++ besides b.
Proof. apply List.filter_app. Qed.

Lemma besides_line l : besides (line_act l) = line_act l.
Proof. unfold line_act. by destruct (bool_decide (l = [])), (length l <=? CSHELL_MAX_INPUT). Qed.

Lemma session_besides ls : forall turn ran, (forall t r, prompt t r <> None) ->
  besides (session turn ls ran) =
  (ls ≫= line_act) ++ (if has_stopped (turn + length ls) (ran ++ runs ls) then [StoppedWarning] else []) ++ [Newline; Exit 0].
Proof.
  induction ls as [|l ls IH]; intros turn ran Hp; cbn [session]; (destruct (prompt turn ran) as [p|] eqn:E; [|by apply Hp in E]).
  - rewrite app_nil_r, Nat.add_0_r. destruct (has_stopped turn ran); [|done].
    destruct (prompt (S turn) ran) eqn:E2; [done | by apply Hp in E2].
  - assert (Er : runs (l :: ls) = runs [l] ++ runs ls) by (unfold runs; simpl List.filter; by destruct (_ && _)).
    change (besides (Prompt p :: ?x)) with (besides x). rewrite besides_app, besides_line, IH by done.
    rewrite Er. assert (Eb : (l :: ls) ≫= line_act = line_act l ++ (ls ≫= line_act)) by done.
    rewrite Eb, <- !app_assoc. replace (turn + length (l :: ls)) with (S turn + length ls) by (simpl; lia). done.
Qed.

(** C39: the shell runs the lines of its input.  Reading from a file with any
    bytes but NUL, the shell ends; before each line it prints the prompt, and
    leaves with status 1, running nothing more, when the prompt cannot be
    printed; it runs, in order, exactly the lines that are not empty and have
    at most 1024 characters, whether or not the last one ends with a newline;
    it refuses each longer line as a whole and goes on with the next one; at
    the end it warns once if jobs are stopped, and leaves.  When the prompt
    never fails, that is all it does with every line of the file. *)
Theorem main_runs_lines s : NUL ∉ s ->
  main_loop false st cwd host user flushed has_stopped (length (lines s) + 2) 0 (Byte <$> s) false [] = Some (session 0 (lines s) []) /\
  ((forall t r, prompt_at st cwd host user flushed t r <> None) ->
   besides (session 0 (lines s) []) =
   (lines s ≫= line_act) ++ (if has_stopped (length (lines s)) (runs (lines s)) then [StoppedWarning] else []) ++ [Newline; Exit 0]).
Proof. intros H. split; [by apply (main_loop_lines (length s)) | intros Hp; by rewrite session_besides]. Qed.
End Plain.

(** The directory is removed by the line [rm]. *)
Definition demo_cwd (_ : nat) (ran : list cstr) : option cstr :=
  if bool_decide (str "rm" ∈ ran) then None else Some (str "/home/u/d").
Definition demo_loop (s : list ascii) : option (list act) :=
  main_loop false (mkShellState (str "/home/u") None) demo_cwd (fun _ _ => Some (str "h")) (fun _ _ => Some (str "u"))
    (fun _ _ => true) (fun _ ran => 1 <? length ran) (length (lines s) + 2) 0 (Byte <$> s) false [].

Lemma main_runs_lines_witness :
  demo_loop (str "ls" ++ [LF; LF] ++ str "pwd") =
  Some [Prompt (str "<u@h:~/d> "); Run (str "ls"); Prompt (str "<u@h:~/d> "); Prompt (str "<u@h:~/d> "); Run (str "pwd");
        Prompt (str "<u@h:~/d> "); StoppedWarning; Prompt (str "<u@h:~/d> "); Newline; Exit 0] /\
  demo_loop (str "ls" ++ [LF] ++ str "rm" ++ [LF] ++ str "pwd") =
  Some [Prompt (str "<u@h:~/d> "); Run (str "ls"); Prompt (str "<u@h:~/d> "); Run (str "rm"); Exit 1].
Proof.
  assert (H : forall l : list ascii, forallb (fun c => negb (ceq c NUL)) l = true -> NUL ∉ l).
  { intros l Hl Hin. rewrite forallb_forall in Hl. apply list_elem_of_In, Hl in Hin. by vm_compute in Hin. }
  unfold demo_loop. split.
  - refine (eq_trans (proj1 (main_runs_lines _ _ _ _ _ _ _ (H _ _))) _); vm_compute; reflexivity.
  - refine (eq_trans (proj1 (main_runs_lines _ _ _ _ _ _ _ (H _ _))) _); vm_compute; reflexivity.
Defined.

(** ** The prompt names the directory *)

(** Below home the prompt shows the rest of the path, elsewhere all of it:
    what is printed after the tilde, appended to home, is the directory. *)
Lemma display_path_spec st cwd rel : home_dir st <> [slash] ->
  display_path st cwd = Some rel <-> cwd = home_dir st ++ rel /\ (rel = [] \/ (exists r, rel = slash :: r) \/ exists r, rel = NUL :: r).
Proof.
  intros Hroot. unfold display_path. destruct (streq_spec (home_dir st) [slash]) as [|_]; [done|].
  set (h := home_dir st). destruct (streq_spec (take (length h) cwd) h) as [E|Hne]; cbn [andb].
  - assert (Ec : cwd = h ++ drop (length h) cwd) by (by rewrite <- E at 1; rewrite take_drop).
    set (d := drop (length h) cwd) in *.
    assert (Hch : char_at cwd (length h) = char_at d 0).
    { unfold char_at. rewrite Ec, !nth_lookup, lookup_app_r, Nat.sub_diag by lia. done. }
    rewrite Hch. split.
    + destruct (ceq_spec (char_at d 0) NUL) as [Hn|Hn]; cbn [orb].
      * intros [= <-]. split; [done|]. destruct d as [|c d']; [by left|]. right. right. exists d'. unfold char_at in Hn. simpl in Hn. by subst c.
      * destruct (ceq_spec (char_at d 0) slash) as [Hs|Hs]; [|done]. intros [= <-]. split; [done|]. destruct d as [|c d']; [by left|].
        right. left. exists d'. unfold char_at in Hs. simpl in Hs. by subst c.
    + intros [Hc Hrel]. assert (d = rel) as -> by (rewrite Ec in Hc; by apply app_inv_head in Hc).
      by destruct Hrel as [->|[[r ->]|[r ->]]].
  - split; [done|]. intros [-> _]. by rewrite take_app_length in Hne.
Qed.
