(* ===== verification/Reveal.v ===== *)
(** * reveal (c-shell/src/reveal.c)

    The directory lister: its arguments, the entries of a directory, sorted,
    and the recursive listing.  What the directory calls of the host answer is
    an argument; [malloc] is taken to succeed. *)
From Stdlib Require Import Sorted.
From S2P Require Import Prelude Lexer.
Local Open Scope nat_scope.

Record RevealEntry := mkRevealEntry { ename : cstr; directory : bool }.

Definition join_path (dir name : cstr) : cstr := dir ++ str "/" ++ name.

(** [compare_entries], as an order. *)
Definition name_le (a b : cstr) : bool := match strcmp a b with Datatypes.Gt => false | _ => true end.

(** [qsort]: names in a directory are different, so there is one result. *)
Fixpoint insert_entry (e : RevealEntry) (l : list RevealEntry) : list RevealEntry :=
  match l with
  | [] => [e]
  | x :: l' => if name_le (ename e) (ename x) then e :: l else x :: insert_entry e l'
  end.
Definition qsort (l : list RevealEntry) : list RevealEntry := fold_right insert_entry [] l.

Section Host.
(** [readdir] from [opendir] on, and [lstat]: whether it is a directory. *)
Context (readdir : cstr -> option (list cstr)) (lstat : cstr -> option bool).

Definition skipped (show_hidden : bool) (name : cstr) : bool :=
  streq name (str ".") || streq name (str "..") || (negb show_hidden && ceq (char_at name 0) ".").

Fixpoint collect (path : cstr) (show_hidden : bool) (names : list cstr) : list RevealEntry :=
  match names with
  | [] => []
  | n :: names' =>
      if skipped show_hidden n then collect path show_hidden names'
      else match lstat (join_path path n) with
           | None => collect path show_hidden names'
           | Some d => mkRevealEntry n d :: collect path show_hidden names'
           end
  end.

Definition read_entries (path : cstr) (show_hidden : bool) : option (list RevealEntry) :=
  names ← readdir path; Some (qsort (collect path show_hidden names)).

(** The lines printed, below at most [fuel] directories. *)
Fixpoint print_directory (fuel : nat) (show_hidden recursive : bool) (path shown_path : cstr) : list cstr :=
  match read_entries path show_hidden with
  | None => []
  | Some entries =>
      entries ≫= (fun e =>
        let child_shown := if bool_decide (shown_path = []) then ename e else join_path shown_path (ename e) in
        if directory e then
          (if recursive then child_shown ++ str "/" else child_shown) ::
          (if recursive then
             match fuel with
             | O => []
             | S fuel' => print_directory fuel' show_hidden recursive (join_path path (ename e)) child_shown
             end
           else [])
        else [child_shown])
  end.

(** ** The command *)
Context (realpath : cstr -> option cstr) (is_dir : cstr -> bool) (home : cstr) (previous : option cstr).

Definition resolve_reveal_path (argument : option cstr) : option cstr :=
  match argument with
  | None => realpath (str ".")
  | Some a =>
      if streq a (str ".") then realpath (str ".")
      else if streq a (str "~") then realpath home
      else if streq a (str "-") then match previous with Some p => realpath p | None => None end
      else realpath a
  end.

(** The letters of one flag word. *)
Fixpoint flag_letters (s : cstr) (a t : bool) : option (bool * bool) :=
  match s with
  | [] => Some (a, t)
  | c :: s' => if ceq c "a" then flag_letters s' true t else if ceq c "t" then flag_letters s' a true else None
  end.

(** The flag words; what is left of the tokens. *)
Fixpoint flags (ts : list Token) (a t : bool) : option (bool * bool * list Token) :=
  match ts with
  | w :: ts' =>
      if bool_decide (type w = TOKEN_WORD) then
        match text w with
        | c :: letters =>
            if negb (ceq c "-") || bool_decide (letters = []) then Some (a, t, ts)
            else '(a', t') ← flag_letters letters a t; flags ts' a' t'
        | [] => Some (a, t, ts)
        end
      else Some (a, t, ts)
  | [] => Some (a, t, [])
  end.

Inductive revealed := NotReveal | InvalidSyntax | NoSuchDirectory | Listing (lines : list cstr).

(** What follows the flags: at most one word. *)
Definition argument (ts : list Token) : option (option cstr) :=
  match ts with
  | [] => Some None
  | w :: ts' =>
      if negb (bool_decide (type w = TOKEN_WORD)) then None
      else match ts' with
           | w' :: _ => if bool_decide (type w' = TOKEN_WORD) then None else Some (Some (text w))
           | [] => Some (Some (text w))
           end
  end.

Definition run_reveal (fuel : nat) (ts : list Token) : revealed :=
  match ts with
  | w :: ts' =>
      if negb (bool_decide (type w = TOKEN_WORD)) || negb (streq (text w) (str "reveal")) then NotReveal
      else match flags ts' false false with
           | None => InvalidSyntax
           | Some (a, t, rest) =>
               match argument rest with
               | None => InvalidSyntax
               | Some arg =>
                   match resolve_reveal_path arg with
                   | None => NoSuchDirectory
                   | Some path => if is_dir path then Listing (print_directory fuel a t path []) else NoSuchDirectory
                   end
               end
           end
  | [] => NotReveal
  end.
End Host.

(** ** The tree below a directory *)
Inductive tree := Leaf | Node (children : list (cstr * tree)).

Definition is_node (t : tree) : bool := match t with Node _ => true | Leaf => false end.

Fixpoint depth (t : tree) : nat :=
  match t with Leaf => 0 | Node cs => S (fold_right (fun c d => depth c.2 `max` d) 0 cs) end.

(** The host shows the tree [t] at [path]: [readdir] gives the names of the
    children, with the two dots, in any order. *)
Inductive shows (readdir : cstr -> option (list cstr)) (lstat : cstr -> option bool) : cstr -> tree -> Prop :=
  | shows_leaf path : shows readdir lstat path Leaf
  | shows_node path cs names :
      readdir path = Some names ->
      List.filter (fun n => negb (streq n (str ".") || streq n (str ".."))) names ≡ₚ cs.*1 ->
      NoDup cs.*1 ->
      (forall n t, (n, t) ∈ cs -> lstat (join_path path n) = Some (is_node t) /\ shows readdir lstat (join_path path n) t) ->
      shows readdir lstat path (Node cs).

(** Children in the order of their names. *)
Definition sorted_children (cs : list (cstr * tree)) : Prop := StronglySorted (fun a b => name_le a b = true) cs.*1.

Inductive sorted_tree : tree -> Prop :=
  | sorted_leaf : sorted_tree Leaf
  | sorted_node cs : sorted_children cs -> (forall n t, (n, t) ∈ cs -> sorted_tree t) -> sorted_tree (Node cs).

(** The listing in preorder of the visible part. *)
Fixpoint listing (show_hidden recursive : bool) (shown : cstr) (t : tree) : list cstr :=
  match t with
  | Leaf => []
  | Node cs =>
      concat (map (fun c =>
        if negb show_hidden && ceq (char_at c.1 0) "." then []
        else
          let child := if bool_decide (shown = []) then c.1 else join_path shown c.1 in
          match c.2 with
          | Leaf => [child]
          | Node _ => if recursive then (child ++ str "/") :: listing show_hidden recursive child c.2 else [child]
          end) cs)
  end.

(** ** Order *)
Lemma strcmp_sym a : forall b, strcmp b a = CompOpp (strcmp a b).
Proof.
  induction a as [|x a IH]; intros [|y b]; simpl; try done. rewrite (Z.compare_antisym (code x) (code y)).
  destruct (code x ?= code y)%Z; simpl; [apply IH | done | done].
Qed.

Lemma strcmp_eq a : forall b, strcmp a b = Eq -> a = b.
Proof.
  induction a as [|x a IH]; intros [|y b]; simpl; try done. destruct (Z.compare_spec (code x) (code y)) as [E| |]; [|done..].
  intros H. apply IH in H. apply code_inj in E. by subst.
Qed.

Lemma name_le_trans a : forall b c, name_le a b = true -> name_le b c = true -> name_le a c = true.
Proof.
  unfold name_le. induction a as [|x a IH]; intros [|y b] [|z c]; simpl; try done.
  destruct (Z.compare_spec (code x) (code y)), (Z.compare_spec (code y) (code z)), (Z.compare_spec (code x) (code z)); try done; try lia.
  apply IH.
Qed.

Lemma name_le_total a b : name_le a b = true \/ name_le b a = true.
Proof. unfold name_le. rewrite (strcmp_sym a b). destruct (strcmp a b); auto. Qed.

Lemma name_le_antisym a b : name_le a b = true -> name_le b a = true -> a = b.
Proof.
  unfold name_le. rewrite (strcmp_sym a b). destruct (strcmp a b) eqn:E; try done. intros _ _. by apply strcmp_eq.
Qed.

Definition entry_le (a b : RevealEntry) : Prop := name_le (ename a) (ename b) = true.

Lemma insert_perm e l : insert_entry e l ≡ₚ e :: l.
Proof. induction l as [|x l IH]; simpl; [done|]. destruct (name_le _ _); [done|]. rewrite IH. apply perm_swap. Qed.

Lemma qsort_perm l : qsort l ≡ₚ l.
Proof. induction l as [|e l IH]; simpl; [done|]. by rewrite insert_perm, IH. Qed.

Lemma insert_sorted e l : StronglySorted entry_le l -> StronglySorted entry_le (insert_entry e l).
Proof.
  induction 1 as [|x l Hs IH Hall]; simpl; [repeat constructor|]. destruct (name_le (ename e) (ename x)) eqn:E.
  - constructor; [by constructor|]. constructor; [done|]. eapply Forall_impl; [exact Hall|]. intros y. by apply name_le_trans.
  - constructor; [done|]. rewrite insert_perm. constructor; [|done]. destruct (name_le_total (ename e) (ename x)); [congruence | done].
Qed.

Lemma qsort_sorted l : StronglySorted entry_le (qsort l).
Proof. induction l as [|e l IH]; simpl; [constructor | by apply insert_sorted]. Qed.

(** A sorted list of entries with different names is determined by them. *)
Lemma sorted_unique : forall l m, StronglySorted entry_le l -> StronglySorted entry_le m -> NoDup (ename <$> l) -> l ≡ₚ m -> l = m.
Proof.
  induction l as [|x l IH]; intros m Hl Hm Hnd Hp; [by apply Permutation_nil_l in Hp|].
  destruct m as [|y m]; [by symmetry in Hp; apply Permutation_nil_l in Hp|].
  inversion Hl as [|? ? Hl' Hx]; subst. inversion Hm as [|? ? Hm' Hy]; subst. apply NoDup_cons in Hnd as [Hx0 Hnd].
  assert (x = y) as ->.
  { assert (Hy' : y ∈ x :: l) by (rewrite Hp; by left). assert (Hx' : x ∈ y :: m) by (rewrite <- Hp; by left).
    apply elem_of_cons in Hy' as [->|Hy']; [done|]. apply elem_of_cons in Hx' as [->|Hx']; [done|].
    rewrite Forall_forall in Hx, Hy. pose proof (name_le_antisym _ _ (Hx y Hy') (Hy x Hx')) as E.
    destruct Hx0. rewrite E. by apply list_elem_of_fmap_2. }
  f_equal. apply IH; try done. by apply Permutation_cons_inv in Hp.
Qed.

(** ** The entries of a directory *)
Definition visible (show_hidden : bool) (n : cstr) : bool := negb (negb show_hidden && ceq (char_at n 0) ".").

Definition entries_of (show_hidden : bool) (cs : list (cstr * tree)) : list RevealEntry :=
  (fun c => mkRevealEntry c.1 (is_node c.2)) <$> List.filter (fun c => visible show_hidden c.1) cs.

Section Tree.
Context (readdir : cstr -> option (list cstr)) (lstat : cstr -> option bool).

Lemma collect_spec path hidden names : (forall n, n ∈ names -> skipped hidden n = false -> is_Some (lstat (join_path path n))) ->
  collect lstat path hidden names =
  (fun n => mkRevealEntry n (default false (lstat (join_path path n)))) <$> List.filter (fun n => negb (skipped hidden n)) names.
Proof.
  induction names as [|n names IH]; intros H; simpl; [done|]. rewrite IH by (intros m Hm; apply H; by right).
  destruct (skipped hidden n) eqn:E; simpl; [done|]. destruct (H n ltac:(by left) E) as [d ->]. done.
Qed.

Lemma filter_filter_b {A} (f g : A -> bool) l : List.filter f (List.filter g l) = List.filter (fun x => g x && f x) l.
Proof. induction l as [|x l IH]; simpl; [done|]. destruct (g x); simpl; by rewrite IH. Qed.

Lemma filter_perm {A} (f : A -> bool) l m : l ≡ₚ m -> List.filter f l ≡ₚ List.filter f m.
Proof.
  induction 1 as [|x l m _ IH|x y l|l m n _ IH1 _ IH2]; simpl; [done | by destruct (f x); rewrite IH | | by rewrite IH1].
  destruct (f x), (f y); try done. apply perm_swap.
Qed.

Lemma filter_fst (f : cstr -> bool) (cs : list (cstr * tree)) : List.filter f cs.*1 = (List.filter (fun c => f c.1) cs).*1.
Proof. induction cs as [|[n t] cs IH]; [done|]. rewrite fmap_cons. cbn [List.filter fst]. rewrite IH. by destruct (f n). Qed.

Lemma fmap_filter_nodup (cs : list (cstr * tree)) (f : cstr * tree -> bool) : NoDup cs.*1 -> NoDup (List.filter f cs).*1.
Proof.
  induction cs as [|c cs IH]; [done|]. rewrite fmap_cons. cbn [List.filter]. intros [Hc Hnd]%NoDup_cons. destruct (f c); [|by apply IH].
  rewrite fmap_cons. apply NoDup_cons.
  split; [|by apply IH]. intros (d & E & Hd)%list_elem_of_fmap. apply Hc. rewrite E. apply list_elem_of_fmap_2.
  apply list_elem_of_In, filter_In in Hd as [Hd _]. by apply list_elem_of_In.
Qed.

Lemma sorted_filter {A} (R : A -> A -> Prop) (f : A -> bool) l : StronglySorted R l -> StronglySorted R (List.filter f l).
Proof.
  induction 1 as [|x l Hs IH Hall]; simpl; [constructor|]. destruct (f x); [|done]. constructor; [done|].
  apply Forall_forall. intros y Hy. apply list_elem_of_In, filter_In in Hy as [Hy _]. rewrite Forall_forall in Hall.
  apply Hall. by apply list_elem_of_In.
Qed.

Lemma sorted_map {A B} (R : B -> B -> Prop) (f : A -> B) l : StronglySorted R (f <$> l) <-> StronglySorted (fun a b => R (f a) (f b)) l.
Proof.
  induction l as [|x l IH]; simpl; [split; constructor|]. split; intros H; inversion H as [|? ? Hs Hall]; subst; constructor; try by apply IH.
  - rewrite Forall_fmap in Hall. done.
  - rewrite Forall_fmap. done.
Qed.

(** Whatever order [readdir] has, the entries come out in the order of names. *)
Lemma read_entries_spec path hidden cs : shows readdir lstat path (Node cs) -> sorted_children cs ->
  read_entries readdir lstat path hidden = Some (entries_of hidden cs).
Proof.
  intros Hsh Hsort. inversion Hsh as [|? ? names Hr Hperm Hnd Hch]; subst. unfold read_entries. rewrite Hr. simpl. f_equal.
  set (dots := fun n => negb (streq n (str ".") || streq n (str ".."))) in Hperm.
  assert (Hskip : forall n, negb (skipped hidden n) = dots n && visible hidden n).
  { intros n. unfold skipped, dots, visible. by rewrite negb_orb. }
  assert (Hin : forall n, n ∈ names -> skipped hidden n = false -> exists t, (n, t) ∈ cs).
  { intros n Hn Hs. assert (Hn' : n ∈ cs.*1).
    { rewrite <- Hperm. apply list_elem_of_In, filter_In. split; [by apply list_elem_of_In|].
      specialize (Hskip n). rewrite Hs in Hskip. simpl in Hskip. symmetry in Hskip. by apply andb_true_iff in Hskip as [? _]. }
    apply list_elem_of_fmap in Hn' as ([n' t] & -> & Ht). by exists t. }
  rewrite collect_spec.
  2:{ intros n Hn Hs. destruct (Hin n Hn Hs) as [t Ht]. destruct (Hch n t Ht) as [-> _]. by eexists. }
  set (f := fun n => mkRevealEntry n (default false (lstat (join_path path n)))).
  assert (E : f <$> List.filter (fun n => negb (skipped hidden n)) names ≡ₚ entries_of hidden cs).
  { replace (List.filter (fun n => negb (skipped hidden n)) names) with (List.filter (visible hidden) (List.filter dots names)).
    2:{ rewrite filter_filter_b. apply List.filter_ext. intros n. by rewrite Hskip. }
    rewrite (filter_perm (visible hidden) _ _ Hperm), filter_fst. unfold entries_of. rewrite <- list_fmap_compose.
    apply reflexive_eq, list_fmap_ext. intros i [n t] Hi. unfold f. simpl. f_equal.
    destruct (Hch n t) as [-> _]; [|done]. apply list_elem_of_lookup_2, list_elem_of_In, filter_In in Hi as [Hi _]. by apply list_elem_of_In. }
  assert (Hsort2 : StronglySorted entry_le (entries_of hidden cs)).
  { unfold entries_of. apply (sorted_map entry_le). apply sorted_filter. by apply (sorted_map (fun a b => name_le a b = true) fst). }
  symmetry. apply sorted_unique; [done | apply qsort_sorted | | by rewrite qsort_perm, E].
  unfold entries_of. rewrite <- list_fmap_compose. by apply fmap_filter_nodup.
Qed.

(** ** The listing *)
Lemma bind_entries hidden (F : RevealEntry -> list cstr) (G : cstr * tree -> list cstr) cs :
  (forall c, c ∈ cs -> G c = if visible hidden c.1 then F (mkRevealEntry c.1 (is_node c.2)) else []) ->
  entries_of hidden cs ≫= F = concat (map G cs).
Proof.
  unfold entries_of. induction cs as [|c cs IH]; intros H; [done|]. cbn [map concat List.filter].
  rewrite (H c) by (by left). rewrite <- IH by (intros d Hd; apply H; by right). by destruct (visible hidden c.1).
Qed.

Lemma depth_child cs n t : (n, t) ∈ cs -> depth t < depth (Node cs).
Proof.
  intros Hin. change (depth t < S (fold_right (fun c d => depth c.2 `max` d) 0 cs)).
  induction cs as [|[m u] cs IH]; [by apply elem_of_nil in Hin|]. cbn [fold_right snd].
  apply elem_of_cons in Hin as [E|Hin]; [injection E as <- <-; lia|]. specialize (IH Hin). lia.
Qed.

Lemma print_directory_spec hidden recursive : forall fuel path shown cs,
  shows readdir lstat path (Node cs) -> sorted_tree (Node cs) -> depth (Node cs) <= S fuel ->
  print_directory readdir lstat fuel hidden recursive path shown = listing hidden recursive shown (Node cs).
Proof.
  induction fuel as [|fuel IH]; intros path shown cs Hsh Hst Hd; inversion Hst as [|? Hsort Hsub]; subst;
    cbn [print_directory listing]; rewrite (read_entries_spec path hidden cs Hsh Hsort); apply bind_entries; intros [n t] Hin;
    pose proof (depth_child cs n t Hin) as Hdt; cbn [fst snd ename directory]; unfold visible;
    destruct (negb hidden && ceq (char_at n 0) "."); cbn [negb]; try done; destruct t as [|cs']; cbn [is_node]; try done;
    destruct recursive; try done.
  - assert (0 < depth (Node cs')) by (cbn [depth]; lia). lia.
  - rewrite (IH _ _ cs'); [done | | by apply (Hsub n) | lia].
    inversion Hsh as [|? ? names Hr Hperm Hnd Hch]; subst. by apply Hch.
Qed.
End Tree.

(** Reveal lists a directory tree.  Whatever order the host reads
    directories in, the listing is the preorder of the tree with the children
    of each directory sorted by name, hidden names left out unless they are
    asked for together with everything below them, directories marked and
    entered only for the recursive listing; symbolic links are not followed,
    so that it ends. *)
Theorem reveal_lists_tree readdir lstat realpath is_dir home previous path cs hidden recursive ts :
  flags (ts : list Token) false false = Some (hidden, recursive, []) -> realpath (str ".") = Some path -> is_dir path = true ->
  shows readdir lstat path (Node cs) -> sorted_tree (Node cs) ->
  run_reveal readdir lstat realpath is_dir home previous (depth (Node cs)) (mkToken TOKEN_WORD (str "reveal") :: ts) =
  Listing (listing hidden recursive [] (Node cs)).
Proof.
  intros Hf Hp Hdir Hsh Hst. unfold run_reveal. cbn [type text]. rewrite bool_decide_eq_true_2 by done.
  destruct (streq_spec (str "reveal") (str "reveal")); [|done]. cbn [negb orb]. rewrite Hf. cbn [argument resolve_reveal_path].
  rewrite Hp, Hdir. f_equal. apply print_directory_spec; [done | done | lia].
Qed.

(** Two files and a directory, read in reverse. *)
Definition demo_tree : list (cstr * tree) := [(str "a", Leaf); (str "b", Node [(str "x", Leaf)]); (str "c", Leaf)].
Definition demo_readdir (p : cstr) : option (list cstr) :=
  if streq p (str "/w") then Some [str "c"; str ".."; str "b"; str "."; str "a"]
  else if streq p (str "/w/b") then Some [str "x"; str "."; str ".."] else None.
Definition demo_lstat (p : cstr) : option bool :=
  if streq p (str "/w/b") then Some true else Some false.

Lemma demo_shows : shows demo_readdir demo_lstat (str "/w") (Node demo_tree).
Proof.
  assert (Hnd : forall l, bool_decide (NoDup l) = true -> NoDup (l : list cstr)) by (intros l; apply bool_decide_eq_true).
  apply shows_node with (names := [str "c"; str ".."; str "b"; str "."; str "a"]); [by vm_compute | | by apply Hnd; vm_compute|].
  { change ([str "c"; str "b"; str "a"] ≡ₚ [str "a"; str "b"; str "c"]).
    rewrite (Permutation_rev [str "c"; str "b"; str "a"]). done. }
  intros n t Hin. unfold demo_tree in Hin. rewrite !elem_of_cons, elem_of_nil in Hin.
  destruct Hin as [[= -> ->]|[[= -> ->]|[[= -> ->]|[]]]]; (split; [by vm_compute|]); try apply shows_leaf.
  apply shows_node with (names := [str "x"; str "."; str ".."]); [by vm_compute | by vm_compute | by apply Hnd; vm_compute|].
  intros n t Hin. apply list_elem_of_singleton in Hin as [= -> ->]. split; [by vm_compute | apply shows_leaf].
Defined.

Lemma demo_sorted : sorted_tree (Node demo_tree).
Proof.
  constructor; [unfold sorted_children; simpl; repeat constructor|]. intros n t Hin. unfold demo_tree in Hin. rewrite !elem_of_cons, elem_of_nil in Hin.
  destruct Hin as [[= -> ->]|[[= -> ->]|[[= -> ->]|[]]]]; try constructor; [unfold sorted_children; simpl; repeat constructor|].
  intros n t Hin. apply list_elem_of_singleton in Hin as [= -> ->]. constructor.
Defined.

Lemma reveal_lists_tree_witness :
  run_reveal demo_readdir demo_lstat (fun _ => Some (str "/w")) (fun _ => true) [] None (depth (Node demo_tree))
    [mkToken TOKEN_WORD (str "reveal"); mkToken TOKEN_WORD (str "-t")] =
  Listing [str "a"; str "b/"; str "b/x"; str "c"].
Proof.
  rewrite (reveal_lists_tree demo_readdir demo_lstat (fun _ => Some (str "/w")) (fun _ => true) [] None (str "/w") demo_tree false true
    [mkToken TOKEN_WORD (str "-t")] eq_refl eq_refl eq_refl demo_shows demo_sorted). by vm_compute.
Defined.
