(* ===== verification/Activities.v ===== *)
(** * activities (c-shell/src/activities.c)

    The list of jobs with the processes of their groups, read from the
    host's process directory: the parser of a status line, the collection of
    a group's members, and the report. *)
From Stdlib Require Import Sorted.
From S2P Require Import Prelude Lexer Jobs Parser Resume Stages Execute Dispatch Hop.
Local Open Scope Z_scope.

Record member := mkMember { mpid : Z; mname : cstr; mstate : ascii }.

(** [strrchr]: what is after the last [c]. *)
Fixpoint strrchr (c : ascii) (s : cstr) : option cstr :=
  match s with
  | [] => None
  | x :: s' =>
      match strrchr c s' with
      | Some r => Some r
      | None => if ceq x c then Some s' else None
      end
  end.

(** ["%d"] of [sscanf]. *)
Definition scan_int (s : cstr) : option (Z * cstr) :=
  let t := skip_space s in
  let '(neg, u) := match t with
                   | c :: t' => if ceq c "-" then (true, t') else if ceq c "+" then (false, t') else (false, t)
                   | [] => (false, t)
                   end in
  match span_digits u with
  | ([], _) => None
  | (ds, r) => Some (i32 (if neg then - dec_value ds else dec_value ds), r)
  end.

(** The name, at most [size - 1] characters of it, the state and the group of
    the status line [buffer]. *)
Definition readstat (size : nat) (buffer : cstr) : option (cstr * ascii * Z) :=
  '(before, inside) ← strchr "(" buffer;
  after ← strrchr ")" buffer;
  (* [end - start - 1], which is negative when the last [)] is before the first [(] *)
  let len := Z.of_nat (length buffer) - Z.of_nat (length after) - 1 - Z.of_nat (length before) - 1 in
  if len <? 0 then None
  else
    let name := take (Z.to_nat (Z.min len (Z.of_nat size - 1))) inside in
    match drop 1 after with
    | [] => None
    | state :: rest =>
        '(ppid, rest1) ← scan_int rest;
        '(pgrp, _) ← scan_int rest1;
        Some (name, state, pgrp)
    end.

Definition statename (state : ascii) : cstr := if ceq state "T" || ceq state "t" then str "Stopped" else str "Running".

(** ** A group *)
Section Host.
(** The names in the process directory and the first line of a process's
    status file. *)
Context (entries : option (list cstr)) (stat : Z -> option cstr).

(** [atoi]. *)
Definition atoi (s : cstr) : Z := i32 (strtoll s).

Fixpoint collect_members (grp : Z) (max : nat) (self : cstr) (names : list cstr) : list member :=
  match names, max with
  | [], _ => []
  | _, O => []
  | n :: names', S max' =>
      let skip := collect_members grp max self names' in
      if (code (char_at n 0) <? 48) || (57 <? code (char_at n 0)) then skip
      else
        let pid := atoi n in
        match buffer ← stat pid; readstat 64 buffer with
        | None => skip
        | Some (name, state, pgrp) =>
            if negb (pgrp =? grp) then skip
            else if ceq state "Z" then skip
            else if (pid =? grp) && streq name self then skip
            else mkMember pid name state :: collect_members grp max' self names'
        end
  end.

(** [qsort] with [comp]: process numbers are different. *)
Fixpoint insert_member (m : member) (l : list member) : list member :=
  match l with
  | [] => [m]
  | x :: l' => if mpid m <=? mpid x then m :: l else x :: insert_member m l'
  end.

Definition collectgrp (grp : Z) (max : nat) (self : cstr) : list member :=
  match entries with
  | None => []
  | Some names => fold_right insert_member [] (collect_members grp max self names)
  end.

(** ** The report *)
Definition member_line (m : member) : cstr :=
  str "  " ++ printf_lld (mpid m) ++ str " " ++ mname m ++ str " " ++ statename (mstate m) ++ [LF].

Definition job_lines (self : cstr) (i : nat) (js : jobs) : list cstr :=
  match getjobinfo (Z.of_nat i) js with
  | None => []
  | Some (pgid, _, live) =>
      if live =? 0 then []
      else match collectgrp pgid 128 self with
           | [] => []
           | ms => (str "[" ++ printf_lld (Z.of_nat i + 1) ++ str "] pgid " ++ printf_lld pgid ++ [LF]) :: (member_line <$> ms)
           end
  end.

(** The value returned, and the lines; [shell_pid] is [getpid()]. *)
Definition runactivity (shell_pid : Z) (ts : list Token) (js : jobs) : Z * list cstr :=
  match ts with
  | t :: ts' =>
      if negb (bool_decide (type t = TOKEN_WORD)) || negb (streq (text t) (str "activities")) then (0, [])
      else match ts' with
           | _ :: _ => (1, [line "activities: invalid syntax"])
           | [] =>
               let self := match buffer ← stat shell_pid; readstat 64 buffer with Some (name, _, _) => name | None => [] end in
               (1, seq 0 (job_count js) ≫= (fun i => job_lines self i js))
           end
  | [] => (0, [])
  end.
End Host.

(** ** Status lines *)
Lemma strrchr_app c a b : c ∉ b -> strrchr c (a ++ c :: b) = Some b.
Proof.
  intros Hb. assert (Hn : forall s, c ∉ s -> strrchr c s = None).
  { induction s as [|x s IH]; [done|]. rewrite not_elem_of_cons. intros [H1 H2]. simpl. rewrite IH by done. by rewrite ceq_neq by congruence. }
  induction a as [|x a IH]; simpl; [by rewrite Hn, ceq_refl | by rewrite IH].
Qed.

(** A number that is followed by something that is not a digit. *)
Lemma span_digits_stop ds r : Forall is_digit ds -> (match r with c :: _ => is_digitb c = false | [] => True end) -> span_digits (ds ++ r) = (ds, r).
Proof.
  intros Hd Hr. induction Hd as [|d ds Hx Hd IH]; simpl.
  - destruct r as [|c r]; [done|]. simpl. by rewrite Hr.
  - assert (E : is_digitb d = true) by (unfold is_digitb; unfold is_digit in Hx; apply andb_true_iff; split; apply Z.leb_le; lia).
    by rewrite E, IH.
Qed.

Lemma scan_printf n r : in_lld n -> in_i32 n -> (match r with c :: _ => is_digitb c = false | [] => True end) ->
  scan_int (" "%char :: printf_lld n ++ r) = Some (n, r).
Proof.
  intros Hn Hi Hr. destruct (printf_lld_digits n Hn) as (Hd & Hv & Hne). unfold scan_int.
  destruct (printf_lld n) as [|c s] eqn:E; [done|]. pose proof Hd as Hd'. apply Forall_cons in Hd' as [Hc _].
  destruct (digit_plain c Hc) as (H1 & H2 & H3). cbn [app skip_space]. change (isspace " ") with true. cbn iota beta.
  cbn [skip_space]. rewrite H1, H2, H3. change (c :: s ++ r) with ((c :: s) ++ r). rewrite span_digits_stop by done. by rewrite Hv, i32_id.
Qed.

(** The line the host writes for a process. *)
Definition stat_line (pid : Z) (comm : cstr) (state : ascii) (ppid pgrp : Z) (rest : cstr) : cstr :=
  printf_lld pid ++ str " (" ++ comm ++ str ") " ++ [state] ++ [" "%char] ++ printf_lld ppid ++ [" "%char] ++ printf_lld pgrp ++ [" "%char] ++ rest.

Lemma digits_no c n : in_lld n -> code c < 48 -> c ∉ printf_lld n.
Proof. intros Hn Hc. apply digits_free; [done|]. by apply printf_lld_digits. Qed.

(** A name may hold parentheses, blanks and digits: it ends at the last
    closing parenthesis. *)
Lemma readstat_line size pid comm state ppid pgrp rest :
  in_lld pid -> in_lld ppid -> in_i32 ppid -> in_lld pgrp -> in_i32 pgrp -> state <> ")"%char -> ")"%char ∉ rest -> (0 < size)%nat ->
  readstat size (stat_line pid comm state ppid pgrp rest) = Some (take (size - 1) comm, state, pgrp).
Proof.
  intros Hpid Hppid Hppid' Hpgrp Hpgrp' Hst Hrest Hsize. unfold readstat, stat_line.
  set (tail := [" "%char] ++ [state] ++ [" "%char] ++ printf_lld ppid ++ [" "%char] ++ printf_lld pgrp ++ [" "%char] ++ rest).
  assert (E1 : printf_lld pid ++ str " (" ++ comm ++ str ") " ++ [state] ++ [" "%char] ++ printf_lld ppid ++ [" "%char] ++ printf_lld pgrp ++ [" "%char] ++ rest =
    (printf_lld pid ++ [" "%char]) ++ "("%char :: (comm ++ ")"%char :: tail)).
  { unfold tail. rewrite <- !app_assoc. done. }
  rewrite E1. rewrite strchr_app.
  2:{ rewrite elem_of_app, list_elem_of_singleton. intros [H|H]; [|done]. by apply (digits_no "(" pid Hpid eq_refl). }
  cbn [mbind option_bind]. assert (Ht : ")"%char ∉ tail).
  { unfold tail. rewrite !elem_of_app, !list_elem_of_singleton. pose proof (digits_no ")" ppid Hppid eq_refl). pose proof (digits_no ")" pgrp Hpgrp eq_refl).
    intros [H'|[H'|[H'|[H'|[H'|[H'|[H'|H']]]]]]]; done. }
  assert (E2 : (printf_lld pid ++ [" "%char]) ++ "("%char :: comm ++ ")"%char :: tail = ((printf_lld pid ++ [" "%char]) ++ "("%char :: comm) ++ ")"%char :: tail)
    by exact (app_assoc (printf_lld pid ++ [" "%char]) ("("%char :: comm) (")"%char :: tail)).
  rewrite E2, strrchr_app by done. cbn [mbind option_bind]. rewrite <- E2.
  match goal with |- context [?x <? 0] => set (len := x) end. assert (El : len = Z.of_nat (length comm)) by (unfold len; rewrite !length_app; cbn [length]; rewrite !length_app; cbn [length]; lia).
  rewrite El. destruct (Z.ltb_spec (Z.of_nat (length comm)) 0); [lia|].
  unfold tail. cbn [app drop]. rewrite (scan_printf ppid) by done. cbn [mbind option_bind].
  rewrite (scan_printf pgrp) by done. cbn [mbind option_bind]. do 3 f_equal.
  destruct (Nat.le_gt_cases (length comm) (size - 1)).
  - rewrite take_app_le by lia. rewrite !take_ge by lia. done.
  - rewrite take_app_le by lia. f_equal. lia.
Qed.

(** ** The members of a group *)
Record proc_info := mkProcInfo { p_pid : Z; p_comm : cstr; p_state : ascii; p_ppid : Z; p_pgrp : Z; p_rest : cstr }.

Definition info_ok (p : proc_info) : Prop :=
  in_lld (p_pid p) /\ in_i32 (p_pid p) /\ in_lld (p_ppid p) /\ in_i32 (p_ppid p) /\ in_lld (p_pgrp p) /\ in_i32 (p_pgrp p) /\
  p_state p <> ")"%char /\ ")"%char ∉ p_rest p.

(** The process is shown for the group [grp] by a shell named [self]. *)
Definition shown (grp : Z) (self : cstr) (p : proc_info) : bool :=
  (p_pgrp p =? grp) && negb (ceq (p_state p) "Z") && negb ((p_pid p =? grp) && streq (take 63 (p_comm p)) self).

Definition to_member (p : proc_info) : member := mkMember (p_pid p) (take 63 (p_comm p)) (p_state p).

Section Group.
Context (ps : list proc_info) (names : list cstr) (stat : Z -> option cstr) (grp : Z) (self : cstr).

(** Names that do not start with a digit are not processes. *)
Definition digit_name (n : cstr) : bool := negb ((code (char_at n 0) <? 48) || (57 <? code (char_at n 0))).

Context (Hok : Forall info_ok ps) (Hnd : NoDup (p_pid <$> ps)).
Context (Hnames : List.filter digit_name names ≡ₚ ((fun p => printf_lld (p_pid p)) <$> ps)).
Context (Hstat : forall p, p ∈ ps -> stat (p_pid p) = Some (stat_line (p_pid p) (p_comm p) (p_state p) (p_ppid p) (p_pgrp p) (p_rest p))).

(** What one name contributes. *)
Definition contribution (n : cstr) : list member :=
  if digit_name n then
    match buffer ← stat (atoi n); readstat 64 buffer with
    | Some (name, state, pgrp) =>
        if negb (pgrp =? grp) then [] else if ceq state "Z" then [] else if (atoi n =? grp) && streq name self then []
        else [mkMember (atoi n) name state]
    | None => []
    end
  else [].

Lemma collect_members_spec l : forall max, (length (l ≫= contribution) <= max)%nat -> collect_members stat grp max self l = l ≫= contribution.
Proof.
  induction l as [|n l IH]; intros max Hmax; [done|]. change ((n :: l) ≫= contribution) with (contribution n ++ (l ≫= contribution)) in *.
  rewrite length_app in Hmax. cbn [collect_members]. destruct max as [|max].
  { destruct (contribution n); [|simpl in Hmax; lia]. destruct (l ≫= contribution); [done | simpl in Hmax; lia]. }
  revert Hmax. unfold contribution at 1 3, digit_name. set (k := length (l ≫= contribution)) in *.
  assert (Hskip : (k <= S max)%nat -> collect_members stat grp (S max) self l = l ≫= contribution) by apply IH.
  destruct ((code _ <? 48) || _); [done|]. cbn [negb].
  destruct (stat (atoi n) ≫= _) as [[[name state] pgrp]|]; [|done].
  destruct (negb (pgrp =? grp)); [done|]. destruct (ceq state "Z"); [done|]. destruct (_ && _); [done|].
  cbn [app length]. intros Hmax. by rewrite IH by lia.
Qed.

Lemma contribution_proc p : p ∈ ps -> contribution (printf_lld (p_pid p)) = if shown grp self p then [to_member p] else [].
Proof.
  intros Hp. rewrite Forall_forall in Hok. destruct (Hok p Hp) as (A1 & A2 & A3 & A4 & A5 & A6 & A7 & A8).
  destruct (printf_lld_digits _ A1) as (Hd & _ & Hne). unfold contribution, digit_name.
  destruct (printf_lld (p_pid p)) as [|c s] eqn:E; [done|]. apply Forall_cons in Hd as [Hc _]. rewrite <- E.
  assert (Hch : char_at (printf_lld (p_pid p)) 0 = c) by (by rewrite E). rewrite Hch. unfold is_digit in Hc.
  destruct (Z.ltb_spec (code c) 48), (Z.ltb_spec 57 (code c)); try lia. cbn [orb negb].
  assert (Hat : atoi (printf_lld (p_pid p)) = p_pid p) by (unfold atoi; rewrite strtoll_printf by done; by apply i32_id).
  rewrite Hat, Hstat by done. cbn [mbind option_bind]. rewrite readstat_line by (done || lia). unfold shown, to_member.
  change (64 - 1)%nat with 63%nat. destruct (p_pgrp p =? grp); cbn [negb andb]; [|done].
  destruct (ceq (p_state p) "Z"); cbn [negb andb]; [done|]. by destruct (_ && _).
Qed.

Lemma contribution_skip l : l ≫= contribution = List.filter digit_name l ≫= contribution.
Proof.
  induction l as [|n l IH]; [done|]. change ((n :: l) ≫= contribution) with (contribution n ++ (l ≫= contribution)). rewrite IH.
  cbn [List.filter]. destruct (digit_name n) eqn:E; [done|]. unfold contribution at 1. by rewrite E.
Qed.

Lemma contributions : names ≫= contribution ≡ₚ to_member <$> List.filter (shown grp self) ps.
Proof.
  rewrite contribution_skip, Hnames. clear Hnames Hnd.
  assert (H : forall l, (forall p, p ∈ l -> p ∈ ps) -> ((fun p => printf_lld (p_pid p)) <$> l) ≫= contribution = to_member <$> List.filter (shown grp self) l).
  { induction l as [|p l IH]; intros Hl; [done|]. rewrite fmap_cons.
    change ((?x :: ?y) ≫= contribution) with (contribution x ++ (y ≫= contribution)).
    rewrite contribution_proc by (apply Hl; by left). rewrite IH by (intros q Hq; apply Hl; by right).
    cbn [List.filter]. by destruct (shown grp self p). }
  by rewrite H.
Qed.

Lemma insert_member_perm m l : insert_member m l ≡ₚ m :: l.
Proof. induction l as [|x l IH]; simpl; [done|]. destruct (_ <=? _); [done|]. rewrite IH. apply perm_swap. Qed.

Lemma sort_members_perm l : fold_right insert_member [] l ≡ₚ l.
Proof. induction l as [|m l IH]; simpl; [done|]. by rewrite insert_member_perm, IH. Qed.

Lemma sort_members_sorted l : StronglySorted (fun a b => mpid a <= mpid b) (fold_right insert_member [] l).
Proof.
  induction l as [|m l IH]; simpl; [constructor|]. induction IH as [|x l' Hs IH Hall]; simpl; [repeat constructor|].
  destruct (Z.leb_spec (mpid m) (mpid x)).
  - constructor; [by constructor|]. constructor; [done|]. eapply Forall_impl; [exact Hall|]. simpl. lia.
  - constructor; [done|]. rewrite insert_member_perm. constructor; [lia | done].
Qed.

(** Activities shows the processes of a job.  From a process directory
    in any order and status lines whose process names hold any characters,
    the members collected for a group of at most 128 shown processes are
    exactly the processes of that group that are not zombies (and not a
    group leader that still carries the shell's own name), each once, with
    its number, its name and its state, by rising number. *)
Theorem activities_lists_group :
  (length (List.filter (shown grp self) ps) <= 128)%nat ->
  let ms := collectgrp (Some names) stat grp 128 self in
  StronglySorted (fun a b => mpid a <= mpid b) ms /\ NoDup (mpid <$> ms) /\
  ms ≡ₚ (to_member <$> List.filter (shown grp self) ps).
Proof.
  intros Hmax ms. assert (E : ms ≡ₚ to_member <$> List.filter (shown grp self) ps).
  { unfold ms, collectgrp. rewrite sort_members_perm, collect_members_spec; [apply contributions|].
    rewrite (Permutation_length contributions), length_fmap. done. }
  split_and!; [apply sort_members_sorted | | done]. rewrite E, <- list_fmap_compose. clear -Hnd.
  induction ps as [|p l IH]; [constructor|]. rewrite fmap_cons in Hnd. apply NoDup_cons in Hnd as [Hp Hnd]. cbn [List.filter].
  destruct (shown grp self p); [|by apply IH]. rewrite fmap_cons. apply NoDup_cons. split; [|by apply IH].
  intros (q & Eq & Hq)%list_elem_of_fmap. apply Hp. apply list_elem_of_fmap. exists q. split; [done|].
  apply list_elem_of_In, filter_In in Hq as [Hq _]. by apply list_elem_of_In.
Qed.
End Group.

(** A pipeline of two processes, one with a strange name, among others. *)
Definition demo_procs : list proc_info :=
  [mkProcInfo 420 (str "a) (b") "S" 300 410 (str "0 -1"); mkProcInfo 410 (str "cat") "T" 300 410 (str "0 -1");
   mkProcInfo 300 (str "cshell") "S" 1 300 (str "0 -1")].
Definition demo_stat (pid : Z) : option cstr :=
  match List.find (fun p => p_pid p =? pid) demo_procs with
  | Some p => Some (stat_line (p_pid p) (p_comm p) (p_state p) (p_ppid p) (p_pgrp p) (p_rest p))
  | None => None
  end.

Lemma activities_lists_group_witness :
  let ms := collectgrp (Some (str "self" :: ((fun p => printf_lld (p_pid p)) <$> demo_procs))) demo_stat 410 128 (str "cshell") in
  StronglySorted (fun a b => mpid a <= mpid b) ms /\ ms = [mkMember 410 (str "cat") "T"; mkMember 420 (str "a) (b") "S"].
Proof.
  split; [|by vm_compute].
  apply (activities_lists_group demo_procs (str "self" :: ((fun p => printf_lld (p_pid p)) <$> demo_procs)) demo_stat 410 (str "cshell")).
  - repeat (apply Forall_cons_2; [unfold info_ok, in_lld, in_i32, LLONG_MAX; simpl; split_and!; try lia; try done;
      intros H; repeat (apply elem_of_cons in H as [H|H]; [done|]); by apply elem_of_nil in H|]). apply Forall_nil_2.
  - apply (bool_decide_eq_true_1 (NoDup (p_pid <$> demo_procs))). by vm_compute.
  - by vm_compute.
  - intros p Hp. unfold demo_procs in Hp. rewrite !elem_of_cons, elem_of_nil in Hp. by destruct Hp as [->|[->|[->|[]]]].
  - vm_compute. lia.
Defined.
