(* ===== verification/Spy.v ===== *)
(** * spy (c-shell/src/spy.c)

    The open files of a process, from the host's process directory: its
    directory and program, the files mapped into its memory, each once, and
    its descriptors by number.  What the host's calls answer is an argument;
    allocation succeeds. *)
From Stdlib Require Import Sorted.
From S2P Require Import Prelude Lexer Jobs Parser Resume Stages Execute Dispatch Hop Snoop Activities.
Local Open Scope Z_scope.

(** The kinds of file [stat] tells apart. *)
Inductive filekind := REG | DIR | CHR | BLK | FIFO | SOCK | LINK | OTHER.

Section Host.
Context (stat : cstr -> option filekind).

Definition type_name (path : cstr) : cstr :=
  match stat path with
  | None => str "unknown"
  | Some REG => str "REG"
  | Some DIR => str "DIR"
  | Some CHR => str "CHR"
  | Some BLK => str "BLK"
  | Some FIFO => str "FIFO"
  | Some SOCK => str "SOCK"
  | Some LINK => str "LINK"
  | Some OTHER => str "a_inode"
  end.

(** ["%-8d %-8s %-8s %s\n"]. *)
Definition print_row (pid : Z) (fd ty path : cstr) : cstr :=
  pad 8 (printf_lld pid) ++ str " " ++ pad 8 fd ++ str " " ++ pad 8 ty ++ str " " ++ path ++ [LF].

Definition proc_path (pid : Z) (entry : cstr) : cstr := str "/proc/" ++ printf_lld pid ++ str "/" ++ entry.

(** What [readlink] answers: a target, or whether access was denied. *)
Context (readlink : cstr -> cstr + bool).

(** The row, and the target that is remembered. *)
Definition print_link (pid : Z) (entry label : cstr) : cstr * cstr :=
  let link := proc_path pid entry in
  match readlink link with
  | inl target => (print_row pid label (type_name link) target, target)
  | inr denied => (print_row pid label (str "unknown") (if denied : bool then str "(permission denied)" else str "(unreadable)"), [])
  end.

(** ** Memory *)
Definition seen_before (paths : list cstr) (path : cstr) : bool := existsb (streq path) paths.

(** ["%*s"]: a word is passed over. *)
Fixpoint span_word (s : cstr) : cstr * cstr :=
  match s with
  | c :: s' => if isspace c then ([], s) else let '(w, r) := span_word s' in (c :: w, r)
  | [] => ([], [])
  end.

Definition skip_word (s : cstr) : option cstr :=
  match span_word (skip_space s) with ([], _) => None | (_, r) => Some r end.

(** [sscanf(line, "%*s %*s %*s %*s %lu %n", ...)] and the cut of the path at
    its newline: the inode and the path. *)
Definition parse_map (l : cstr) : option (Z * cstr) :=
  s1 ← skip_word l; s2 ← skip_word s1; s3 ← skip_word s2; s4 ← skip_word s3;
  match span_digits (skip_space s4) with
  | ([], _) => None
  | (ds, r) => Some (dec_value ds, match strchr LF (skip_space r) with Some (p, _) => p | None => skip_space r end)
  end.

(** A line that names a file. *)
Definition mapped (exe l : cstr) : option cstr :=
  match parse_map l with
  | Some (inode, path) =>
      if inode =? 0 then None
      else if negb (ceq (char_at path 0) "/") then None
      else if streq path exe then None else Some path
  | None => None
  end.

(** The loop over the lines, with the paths printed so far. *)
Fixpoint mem_paths (exe : cstr) (ls : list cstr) (paths : list cstr) : list cstr :=
  match ls with
  | [] => []
  | l :: ls' =>
      match mapped exe l with
      | None => mem_paths exe ls' paths
      | Some path => if seen_before paths path then mem_paths exe ls' paths else path :: mem_paths exe ls' (paths ++ [path])
      end
  end.

Definition print_mem (pid : Z) (exe : cstr) (maps : option (list cstr)) : list cstr :=
  match maps with
  | None => []
  | Some ls => (fun path => print_row pid (str "mem") (type_name path) path) <$> mem_paths exe ls []
  end.

(** ** Descriptors *)
Fixpoint insert_fd (fd : Z) (l : list Z) : list Z :=
  match l with [] => [fd] | x :: l' => if fd <=? x then fd :: l else x :: insert_fd fd l' end.

(** The numbers in the descriptor directory, without the one that reads it. *)
Definition fd_numbers (own : Z) (names : list cstr) : list Z :=
  names ≫= (fun n => if (code (char_at n 0) <? 48) || (57 <? code (char_at n 0)) then []
                     else if atoi n =? own then [] else [atoi n]).

Definition print_fds (pid own : Z) (names : option (list cstr)) : list cstr :=
  match names with
  | None => []
  | Some names =>
      fold_right insert_fd [] (fd_numbers own names) ≫= (fun fd =>
        let link := proc_path pid (str "fd/" ++ printf_lld fd) in
        match readlink link with
        | inl target => [print_row pid (printf_lld fd) (type_name link) target]
        | inr _ => []
        end)
  end.

(** ** The command *)
Context (maps fd_names : Z -> option (list cstr)) (shell_pid self_pid dir_fd : Z).

Definition spy_rows (pid : Z) : list cstr :=
  let '(cwd_row, _) := print_link pid (str "cwd") (str "cwd") in
  let '(exe_row, exe) := print_link pid (str "exe") (str "txt") in
  [pad 8 (str "PID") ++ str " " ++ pad 8 (str "FD") ++ str " " ++ pad 8 (str "TYPE") ++ str " " ++ str "PATH" ++ [LF]; cwd_row; exe_row] ++
  print_mem pid exe (maps pid) ++ print_fds pid (if pid =? self_pid then dir_fd else -1) (fd_names pid).

Definition spy_pid (txt : cstr) : option Z :=
  let '(value, rest, range) := strtol txt in
  if (code (char_at txt 0) <? 48) || (57 <? code (char_at txt 0)) || negb (bool_decide (rest = [])) || range || (value <=? 0) || (100000000 <? value)
  then None else Some value.

Inductive spied := NotSpy | SpySyntax | SpyNoProcess | SpyRows (rows : list cstr).

Definition run_spy (ts : list Token) : spied :=
  match ts with
  | t :: ts' =>
      if negb (bool_decide (type t = TOKEN_WORD)) || negb (streq (text t) (str "spy")) then NotSpy
      else if negb (forallb (fun t => bool_decide (type t = TOKEN_WORD)) ts') then SpySyntax
      else
        let go pid := match stat (str "/proc/" ++ printf_lld pid) with Some _ => SpyRows (spy_rows pid) | None => SpyNoProcess end in
        match ts' with
        | [] => go shell_pid
        | [t1] => match spy_pid (text t1) with Some pid => go pid | None => SpyNoProcess end
        | _ => SpySyntax
        end
  | [] => NotSpy
  end.
End Host.

(** ** What is reported *)
Lemma seen_before_spec paths p : seen_before paths p = bool_decide (p ∈ paths).
Proof.
  unfold seen_before. induction paths as [|q paths IH]; [done|]. cbn [existsb]. rewrite IH. destruct (streq_spec p q) as [->|Hne]; cbn [orb].
  - by rewrite (bool_decide_eq_true_2 (q ∈ q :: paths)) by (by left).
  - apply bool_decide_ext. rewrite elem_of_cons. split; [by right | intros [|]; done].
Qed.

(** Every mapped file is reported once: the paths are those of the lines that
    name a file other than the program, without repetition. *)
Lemma mem_paths_spec exe ls : forall paths,
  NoDup (mem_paths exe ls paths) /\ forall p, p ∈ mem_paths exe ls paths <-> p ∉ paths /\ p ∈ omap (mapped exe) ls.
Proof.
  induction ls as [|l ls IH]; intros paths; simpl.
  - split; [constructor|]. intros p. rewrite elem_of_nil. set_solver.
  - destruct (mapped exe l) as [path|] eqn:E; [|apply IH]. rewrite seen_before_spec.
    destruct (bool_decide_reflect (path ∈ paths)) as [Hin|Hni].
    + destruct (IH paths) as [H1 H2]. split; [done|]. intros p. rewrite H2, elem_of_cons. split; [tauto|]. intros [Hp [->|?]]; done.
    + destruct (IH (paths ++ [path])) as [H1 H2]. split.
      * apply NoDup_cons. split; [|done]. rewrite H2, elem_of_app, list_elem_of_singleton. tauto.
      * intros p. rewrite !elem_of_cons, H2, elem_of_app, list_elem_of_singleton. destruct (decide (p = path)) as [->|]; tauto.
Qed.

Lemma insert_fd_perm fd l : insert_fd fd l ≡ₚ fd :: l.
Proof. induction l as [|x l IH]; simpl; [done|]. destruct (_ <=? _); [done|]. rewrite IH. apply perm_swap. Qed.

(** Descriptors are reported by rising number. *)
Lemma sorted_fds l : StronglySorted Z.le (fold_right insert_fd [] l) /\ fold_right insert_fd [] l ≡ₚ l.
Proof.
  induction l as [|fd l [IHs IHp]]; simpl; [by split; [constructor|]|]. split; [|by rewrite insert_fd_perm, IHp]. clear IHp.
  induction IHs as [|x m Hs IH Hall]; simpl; [repeat constructor|]. destruct (Z.leb_spec fd x).
  - constructor; [by constructor|]. constructor; [done|]. eapply Forall_impl; [exact Hall|]. simpl. lia.
  - constructor; [done|]. rewrite insert_fd_perm. constructor; [lia | done].
Qed.
