(* ===== verification/Shell.v ===== *)
(** * The shell of xv6 (xv6/user/sh.c)

    The parser, by recursive descent over a buffer, and the system calls that
    running a parsed command makes.  A pointer into the buffer is the string
    that starts there; an argument is a pair of such pointers, its first
    character and the one after its last, until [nulterminate] cuts it. *)
From S2P Require Import Prelude.
Local Open Scope nat_scope.

Definition MAXARGS : nat := 10.
Definition O_RDONLY : Z := 0.
Definition O_WRONLY : Z := 1.
Definition O_CREATE : Z := 0x200.
Definition O_TRUNC : Z := 0x400.

(** Parsed commands, with arguments of type [W]. *)
Inductive cmd (W : Type) :=
  | Exec (argv : list W)
  | Redir (c : cmd W) (file : W) (mode fd : Z)
  | Pipe (l r : cmd W)
  | Seq (l r : cmd W) (* LIST *)
  | Back (c : cmd W).
Arguments Exec {W} argv.
Arguments Redir {W} c file mode fd.
Arguments Pipe {W} l r.
Arguments Seq {W} l r.
Arguments Back {W} c.

(** ** Tokens *)
Definition whitespace : cstr := [" "%char; TAB; CR; LF; "011"%char].
Definition symbols : cstr := str "<|>&;()".
Definition strchr (set : cstr) (c : ascii) : bool := bool_decide (c ∈ set).

Fixpoint skip (s : cstr) : cstr :=
  match s with c :: s' => if strchr whitespace c then skip s' else s | [] => [] end.

(** What is left after the word that starts here. *)
Fixpoint skip_word (s : cstr) : cstr :=
  match s with
  | c :: s' => if strchr whitespace c || strchr symbols c then s else skip_word s'
  | [] => []
  end.

Inductive tok := TEnd | TSym (c : ascii) | TAppend | TWord.

(** The token, where it starts and ends, and the rest. *)
Definition gettoken (ps : cstr) : tok * cstr * cstr * cstr :=
  let q := skip ps in
  let '(ret, s) :=
    match q with
    | [] => (TEnd, q)
    | c :: s =>
        if ceq c ">" then
          match s with
          | d :: s' => if ceq d ">" then (TAppend, s') else (TSym c, s)
          | [] => (TSym c, s)
          end
        else if strchr symbols c then (TSym c, s)
        else (TWord, skip_word q)
    end in
  (ret, q, s, skip s).

(** The position moves over blanks, whatever the answer. *)
Definition peek (ps : cstr) (toks : cstr) : bool * cstr :=
  let s := skip ps in (match s with c :: _ => strchr toks c | [] => false end, s).

(** ** The parser *)
Record span := mkSpan { q : cstr; eq : cstr }.

Inductive pres (A : Type) := POk (a : A) (ps : cstr) | PPanic (msg : cstr) | PFuel.
Arguments POk {A} a ps.
Arguments PPanic {A} msg.
Arguments PFuel {A}.

Definition pbind {A B} (m : pres A) (f : A -> cstr -> pres B) : pres B :=
  match m with POk a ps => f a ps | PPanic s => PPanic s | PFuel => PFuel end.

(** A redirection: file, mode and descriptor. *)
Definition redir := (span * Z * Z)%type.
Definition wrap {W} (c : cmd W) (rs : list (W * Z * Z)) : cmd W := fold_left (fun c r => Redir c r.1.1 r.1.2 r.2) rs c.

(** The redirections at this point, in order. *)
Fixpoint parseredirs (fuel : nat) (ps : cstr) : pres (list redir) :=
  match fuel with
  | O => PFuel
  | S fuel' =>
      let '(hit, ps1) := peek ps (str "<>") in
      if hit then
        let '(t, _, _, ps2) := gettoken ps1 in
        let '(t2, q, eq, ps3) := gettoken ps2 in
        match t2 with
        | TWord =>
            let r := match t with
                     | TAppend => (mkSpan q eq, Z.lor O_WRONLY O_CREATE, 1%Z)
                     | TSym c => if ceq c "<" then (mkSpan q eq, O_RDONLY, 0%Z)
                                 else (mkSpan q eq, Z.lor (Z.lor O_WRONLY O_CREATE) O_TRUNC, 1%Z)
                     | _ => (mkSpan q eq, O_RDONLY, 0%Z)
                     end in
            pbind (parseredirs fuel' ps3) (fun rs ps4 => POk (r :: rs) ps4)
        | _ => PPanic (str "missing file for redirection")
        end
      else POk [] ps1
  end.

(** The loop of [parseexec]: the redirections wrap the command whose argument
    vector is still being filled. *)
Fixpoint parseargs (fuel argc : nat) (ps : cstr) : pres (list span * list redir) :=
  match fuel with
  | O => PFuel
  | S fuel' =>
      let '(stop, ps1) := peek ps (str "|)&;") in
      if stop then POk ([], []) ps1
      else
        let '(t, q, eq, ps2) := gettoken ps1 in
        match t with
        | TEnd => POk ([], []) ps2
        | TWord =>
            if MAXARGS <=? S argc then PPanic (str "too many args")
            else pbind (parseredirs fuel' ps2) (fun rs ps3 =>
                 pbind (parseargs fuel' (S argc) ps3) (fun a ps4 => POk (mkSpan q eq :: a.1, rs ++ a.2) ps4))
        | _ => PPanic (str "syntax")
        end
  end.

Fixpoint parseline (fuel : nat) (ps : cstr) : pres (cmd span) :=
  match fuel with
  | O => PFuel
  | S fuel' =>
      pbind (parsepipe fuel' ps) (fun c ps1 =>
      pbind (backs fuel' c ps1) (fun c2 ps2 =>
      let '(hit, ps3) := peek ps2 (str ";") in
      if hit then
        let '(_, _, _, ps4) := gettoken ps3 in
        pbind (parseline fuel' ps4) (fun r ps5 => POk (Seq c2 r) ps5)
      else POk c2 ps3))
  end
(* while(peek(ps, es, "&")) *)
with backs (fuel : nat) (c : cmd span) (ps : cstr) : pres (cmd span) :=
  match fuel with
  | O => PFuel
  | S fuel' =>
      let '(hit, ps1) := peek ps (str "&") in
      if hit then let '(_, _, _, ps2) := gettoken ps1 in backs fuel' (Back c) ps2 else POk c ps1
  end
with parsepipe (fuel : nat) (ps : cstr) : pres (cmd span) :=
  match fuel with
  | O => PFuel
  | S fuel' =>
      pbind (parseexec fuel' ps) (fun c ps1 =>
      let '(hit, ps2) := peek ps1 (str "|") in
      if hit then
        let '(_, _, _, ps3) := gettoken ps2 in
        pbind (parsepipe fuel' ps3) (fun r ps4 => POk (Pipe c r) ps4)
      else POk c ps2)
  end
with parseexec (fuel : nat) (ps : cstr) : pres (cmd span) :=
  match fuel with
  | O => PFuel
  | S fuel' =>
      let '(block, ps1) := peek ps (str "(") in
      if block then parseblock fuel' ps1
      else
        pbind (parseredirs fuel' ps1) (fun rs ps2 =>
        pbind (parseargs fuel' 0 ps2) (fun a ps3 => POk (wrap (Exec a.1) (rs ++ a.2)) ps3))
  end
with parseblock (fuel : nat) (ps : cstr) : pres (cmd span) :=
  match fuel with
  | O => PFuel
  | S fuel' =>
      let '(opened, ps1) := peek ps (str "(") in
      if opened then
        let '(_, _, _, ps2) := gettoken ps1 in
        pbind (parseline fuel' ps2) (fun c ps3 =>
        let '(hit, ps4) := peek ps3 (str ")") in
        if hit then
          let '(_, _, _, ps5) := gettoken ps4 in
          pbind (parseredirs fuel' ps5) (fun rs ps6 => POk (wrap c rs) ps6)
        else PPanic (str "syntax - missing )"))
      else PPanic (str "parseblock")
  end.

(** Enough for any string (see [parse_total]). *)
Definition enough (s : cstr) : nat := 5 * length s + 10.

(** ** Ending the arguments

    The buffer holds the string and its NUL; a pointer into it is a suffix
    of the string, so its offset is what is in front of it. *)
Definition offset (n : nat) (p : cstr) : nat := n - length p.
Definition cut (n : nat) (b : cstr) (e : cstr) : cstr := <[offset n e := NUL]> b.

Fixpoint nulterminate (n : nat) (c : cmd span) (b : cstr) : cstr :=
  match c with
  | Exec argv => fold_left (fun b a => cut n b (eq a)) argv b
  | Redir c file _ _ => cut n (nulterminate n c b) (eq file)
  | Pipe l r | Seq l r => nulterminate n r (nulterminate n l b)
  | Back c => nulterminate n c b
  end.

(** The command and the buffer its arguments point into. *)
Definition parsecmd (s : cstr) : pres (cmd span * cstr) :=
  pbind (parseline (enough s) s) (fun c ps =>
  let '(_, ps1) := peek ps [] in
  if bool_decide (ps1 = []) then POk (c, nulterminate (length s) c (s ++ [NUL])) ps1
  else PPanic (str "leftovers: " ++ ps1 ++ [LF] ++ str "syntax")).

(** The string an argument points at. *)
Fixpoint cstring (b : cstr) : cstr := match b with c :: b' => if ceq c NUL then [] else c :: cstring b' | [] => [] end.
Definition arg_at (n : nat) (b : cstr) (a : span) : cstr := cstring (drop (offset n (q a)) b).

(** ** More fuel changes nothing *)
Definition le_res {A} (a b : pres A) : Prop := a = PFuel \/ a = b.

#[export] Instance le_res_preorder {A} : PreOrder (@le_res A).
Proof. split; [by right | intros a b c [->|<-] [->|<-]; unfold le_res; auto]. Qed.

Lemma pbind_le {A B} (a b : pres A) (f g : A -> cstr -> pres B) :
  le_res a b -> (forall x ps, le_res (f x ps) (g x ps)) -> le_res (pbind a f) (pbind b g).
Proof. intros [->|<-] H; [by left|]. destruct a; simpl; [apply H | by right..]. Qed.

Lemma parseredirs_mono : forall f s, le_res (parseredirs f s) (parseredirs (S f) s).
Proof.
  induction f as [|f IH]; intros s; [by left|]. remember (S f) as f1 eqn:E1. rewrite E1 at 1. cbn [parseredirs]. subst f1.
  destruct (peek s _) as [[|] ps1]; [|by right]. destruct (gettoken ps1) as [[[t ?] ?] ps2].
  destruct (gettoken ps2) as [[[[| | |] q] eq] ps3]; try by right. apply pbind_le; [apply IH | by right].
Qed.

Lemma parseargs_mono : forall f argc s, le_res (parseargs f argc s) (parseargs (S f) argc s).
Proof.
  induction f as [|f IH]; intros argc s; [by left|]. remember (S f) as f1 eqn:E1. rewrite E1 at 1. cbn [parseargs]. subst f1.
  destruct (peek s _) as [[|] ps1]; [by right|]. destruct (gettoken ps1) as [[[[| | |] q] eq] ps2]; try by right.
  destruct (_ <=? _); [by right|]. apply pbind_le; [apply parseredirs_mono|]. intros rs ps3.
  apply pbind_le; [apply IH | by right].
Qed.

Lemma parse_mono f :
  (forall s, le_res (parseline f s) (parseline (S f) s)) /\ (forall c s, le_res (backs f c s) (backs (S f) c s)) /\
  (forall s, le_res (parsepipe f s) (parsepipe (S f) s)) /\ (forall s, le_res (parseexec f s) (parseexec (S f) s)) /\
  (forall s, le_res (parseblock f s) (parseblock (S f) s)).
Proof.
  induction f as [|f (IHl & IHb & IHp & IHe & IHk)]; [by split_and!; left|]. remember (S f) as f1 eqn:E1.
  split_and!; intros; rewrite E1 at 1; cbn [parseline backs parsepipe parseexec parseblock]; subst f1.
  - apply pbind_le; [apply IHp|]. intros c ps1. apply pbind_le; [apply IHb|]. intros c2 ps2.
    destruct (peek ps2 _) as [[|] ps3]; [|by right]. destruct (gettoken ps3) as [[[? ?] ?] ps4]. apply pbind_le; [apply IHl | by right].
  - destruct (peek s _) as [[|] ps1]; [|by right]. destruct (gettoken ps1) as [[[? ?] ?] ps2]. apply IHb.
  - apply pbind_le; [apply IHe|]. intros c ps1. destruct (peek ps1 _) as [[|] ps2]; [|by right].
    destruct (gettoken ps2) as [[[? ?] ?] ps3]. apply pbind_le; [apply IHp | by right].
  - destruct (peek s _) as [[|] ps1]; [apply IHk|]. apply pbind_le; [apply parseredirs_mono|]. intros rs ps2.
    apply pbind_le; [apply parseargs_mono | by right].
  - destruct (peek s _) as [[|] ps1]; [|by right]. destruct (gettoken ps1) as [[[? ?] ?] ps2]. apply pbind_le; [apply IHl|]. intros c ps3. destruct (peek ps3 _) as [[|] ps4]; [|by right].
    destruct (gettoken ps4) as [[[? ?] ?] ps5]. apply pbind_le; [apply parseredirs_mono | by right].
Qed.

Lemma mono_le {A} (X : nat -> pres A) : (forall f, le_res (X f) (X (S f))) -> forall f f', f <= f' -> le_res (X f) (X f').
Proof. intros H f f' Hle. induction Hle as [|f' _ IH]; [by right|]. by transitivity (X f'). Qed.

(** A result reached with some fuel is the result with any more. *)
Lemma mono_ok {A} (X : nat -> pres A) a ps : (forall f, le_res (X f) (X (S f))) -> forall f f', f <= f' -> X f = POk a ps -> X f' = POk a ps.
Proof. intros H f f' Hle E. destruct (mono_le X H f f' Hle) as [E'|E']; congruence. Qed.

(** ** Blanks in front do not matter *)
Lemma skip_skip s : skip (skip s) = skip s.
Proof. induction s as [|c s IH]; [done|]. simpl. destruct (strchr whitespace c) eqn:E; [done|]. simpl. by rewrite E. Qed.

Lemma peek_skip s toks : peek (skip s) toks = peek s toks.
Proof. unfold peek. by rewrite skip_skip. Qed.

Lemma gettoken_skip s : gettoken (skip s) = gettoken s.
Proof. unfold gettoken. by rewrite skip_skip. Qed.

Lemma parse_skip f s : parseredirs f (skip s) = parseredirs f s /\ (forall argc, parseargs f argc (skip s) = parseargs f argc s) /\
  (forall c, backs f c (skip s) = backs f c s) /\ parseexec f (skip s) = parseexec f s /\ parsepipe f (skip s) = parsepipe f s /\
  parseline f (skip s) = parseline f s.
Proof.
  assert (He : forall f, parseexec f (skip s) = parseexec f s) by (intros [|g]; [done|]; cbn [parseexec]; by rewrite peek_skip).
  assert (Hp : forall f, parsepipe f (skip s) = parsepipe f s) by (intros [|g]; [done|]; cbn [parsepipe]; by rewrite He).
  split_and!; [destruct f; [done|]; cbn [parseredirs]; by rewrite peek_skip | intros argc; destruct f; [done|]; cbn [parseargs]; by rewrite peek_skip |
    intros c; destruct f; [done|]; cbn [backs]; by rewrite peek_skip | done | done | destruct f; [done|]; cbn [parseline]; by rewrite Hp].
Qed.

(** ** The parser ends *)
Definition good {A} (n : nat) (r : pres A) : Prop :=
  match r with POk _ ps => length ps <= n | PPanic _ => True | PFuel => False end.

Lemma good_bind {A B} n m (a : pres A) (f : A -> cstr -> pres B) :
  good n a -> (forall x ps, length ps <= n -> good m (f x ps)) -> good m (pbind a f).
Proof. destruct a; simpl; auto. Qed.

Lemma good_weaken {A} n m (a : pres A) : good n a -> n <= m -> good m a.
Proof. destruct a; simpl; [lia | done | done]. Qed.

Lemma skip_len s : length (skip s) <= length s.
Proof. induction s as [|c s IH]; simpl; [done|]. destruct (strchr _ _); simpl; lia. Qed.

Lemma skip_word_len s : length (skip_word s) <= length s.
Proof. induction s as [|c s IH]; simpl; [done|]. destruct (_ || _); simpl; lia. Qed.

Lemma gettoken_len s t q eq ps : gettoken s = (t, q, eq, ps) -> length ps <= length s /\ (skip s <> [] -> length ps < length s).
Proof.
  unfold gettoken. pose proof (skip_len s) as Hs. destruct (skip s) as [|c s1] eqn:E; simpl in Hs.
  { intros [= _ _ _ <-]. simpl. split; [lia | done]. }
  assert (Hend : forall t' e, length e <= length s1 -> (t', c :: s1, e, skip e) = (t, q, eq, ps) ->
    length ps <= length s /\ (c :: s1 <> [] -> length ps < length s)).
  { intros t' e He [= _ _ _ <-]. pose proof (skip_len e). lia. }
  destruct (ceq c ">"); [|destruct (strchr symbols c) eqn:Es; [by apply Hend|]].
  - destruct s1 as [|d s2]; [by apply Hend|]. destruct (ceq d ">"); apply Hend; simpl; lia.
  - apply Hend. simpl. pose proof (skip_word_len s1). rewrite Es, orb_false_r. destruct (strchr whitespace c) eqn:Ew; [|done].
    exfalso. clear -E Ew. revert c Ew E. induction s as [|d s IH]; intros c Ew; simpl; [done|].
    destruct (strchr whitespace d) eqn:Ed; [by apply IH|]. intros [= -> _]. congruence.
Qed.

Lemma peek_hit s toks ps : peek s toks = (true, ps) -> ps = skip s /\ skip s <> [].
Proof. unfold peek. destruct (skip s) as [|c s1]; [done|]. by intros [= _ <-]. Qed.

Lemma peek_miss s toks b ps : peek s toks = (b, ps) -> ps = skip s.
Proof. unfold peek. by intros [= _ <-]. Qed.

Lemma parseredirs_total : forall f s, length s < f -> good (length s) (parseredirs f s).
Proof.
  induction f as [|f IH]; intros s Hf; [lia|]. cbn [parseredirs]. destruct (peek s _) as [hit ps1] eqn:Ep. pose proof (skip_len s) as Hs.
  destruct hit; [|apply peek_miss in Ep as ->; simpl; lia]. apply peek_hit in Ep as [-> Hne].
  destruct (gettoken (skip s)) as [[[t ?] ?] ps2] eqn:E2. apply gettoken_len in E2 as [_ E2]. rewrite skip_skip in E2. specialize (E2 Hne).
  destruct (gettoken ps2) as [[[[| | |] q0] eq0] ps3] eqn:E3; try done. apply gettoken_len in E3 as [E3 _].
  eapply good_bind; [apply IH; lia|]. intros rs ps4 H4. simpl. lia.
Qed.

Lemma parseargs_total : forall f argc s, length s < f -> good (length s) (parseargs f argc s).
Proof.
  induction f as [|f IH]; intros argc s Hf; [lia|]. cbn [parseargs]. destruct (peek s _) as [stop ps1] eqn:Ep.
  apply peek_miss in Ep as ->. pose proof (skip_len s) as Hs. destruct stop; [simpl; lia|].
  destruct (gettoken (skip s)) as [[[t q0] eq0] ps2] eqn:E2. pose proof (gettoken_len _ _ _ _ _ E2) as [L1 L2].
  destruct t; try done; [simpl; lia|]. destruct (_ <=? _); [done|].
  assert (Hlt : length ps2 < length s).
  { rewrite skip_skip in L2. destruct (skip s) as [|c s1] eqn:Es; [|specialize (L2 ltac:(done)); lia].
    rewrite <- Es, gettoken_skip in E2. unfold gettoken in E2. rewrite Es in E2. done. }
  eapply good_bind; [apply parseredirs_total; lia|]. intros rs ps3 H3. eapply good_bind; [apply IH; lia|]. intros a ps4 H4. simpl. lia.
Qed.

Lemma backs_total : forall f c s, length s < f -> good (length s) (backs f c s).
Proof.
  induction f as [|f IH]; intros c s Hf; [lia|]. cbn [backs]. destruct (peek s _) as [hit ps1] eqn:Ep. pose proof (skip_len s) as Hs.
  destruct hit; [|apply peek_miss in Ep as ->; simpl; lia]. apply peek_hit in Ep as [-> Hne].
  destruct (gettoken (skip s)) as [[[t ?] ?] ps2] eqn:E2. apply gettoken_len in E2 as [_ E2]. rewrite skip_skip in E2. specialize (E2 Hne).
  eapply good_weaken; [apply IH; lia | lia].
Qed.

(** After a symbol that was peeked there is less to read. *)
Lemma token_less s toks ps t q eq ps2 : peek s toks = (true, ps) -> gettoken ps = (t, q, eq, ps2) -> length ps2 < length s.
Proof.
  intros [-> Hne]%peek_hit [_ E2]%gettoken_len. rewrite skip_skip in E2. pose proof (skip_len s). specialize (E2 Hne). lia.
Qed.

Lemma parse_total : forall f,
  (forall s, 5 * length s + 5 <= f -> good (length s) (parseline f s)) /\ (forall s, 5 * length s + 4 <= f -> good (length s) (parsepipe f s)) /\
  (forall s, 5 * length s + 3 <= f -> good (length s) (parseexec f s)) /\
  (forall s, 5 * length s + 2 <= f -> good (length s) (parseblock f s)).
Proof.
  induction f as [|f (IHl & IHp & IHe & IHk)]; [split_and!; intros; lia|]. split_and!; intros s Hf;
    cbn [parseline parsepipe parseexec parseblock].
  - eapply good_bind; [apply IHp; lia|]. intros c ps1 H1. eapply good_bind; [apply backs_total; lia|]. intros c2 ps2 H2.
    destruct (peek ps2 _) as [[|] ps3] eqn:E; [|apply peek_miss in E as ->; pose proof (skip_len ps2); simpl; lia].
    destruct (gettoken ps3) as [[[t ?] ?] ps4] eqn:E4. pose proof (token_less _ _ _ _ _ _ _ E E4).
    eapply good_bind; [apply IHl; lia|]. intros r ps5 H5. simpl. lia.
  - eapply good_bind; [apply IHe; lia|]. intros c ps1 H1.
    destruct (peek ps1 _) as [[|] ps2] eqn:E; [|apply peek_miss in E as ->; pose proof (skip_len ps1); simpl; lia].
    destruct (gettoken ps2) as [[[t ?] ?] ps3] eqn:E3. pose proof (token_less _ _ _ _ _ _ _ E E3).
    eapply good_bind; [apply IHp; lia|]. intros r ps4 H4. simpl. lia.
  - destruct (peek s _) as [[|] ps1] eqn:E.
    + apply peek_hit in E as [-> Hne]. pose proof (skip_len s). eapply good_weaken; [apply IHk; lia | lia].
    + apply peek_miss in E as ->. pose proof (skip_len s). eapply good_bind; [apply parseredirs_total; lia|]. intros rs ps2 H2.
      eapply good_bind; [apply parseargs_total; lia|]. intros a ps3 H3. simpl. lia.
  - destruct (peek s _) as [[|] ps1] eqn:E1; [|done]. destruct (gettoken ps1) as [[[t ?] ?] ps2] eqn:E2.
    pose proof (token_less _ _ _ _ _ _ _ E1 E2).
    eapply good_bind; [apply IHl; lia|]. intros c ps3 H3. destruct (peek ps3 _) as [[|] ps4] eqn:E; [|done].
    destruct (gettoken ps4) as [[[t4 ?] ?] ps5] eqn:E5. pose proof (token_less _ _ _ _ _ _ _ E E5).
    eapply good_bind; [apply parseredirs_total; lia|]. intros rs ps6 H6. simpl. lia.
Qed.

(** The parser always answers: a command, or a complaint. *)
Lemma parsecmd_total s : parsecmd s <> PFuel.
Proof.
  unfold parsecmd. destruct (parse_total (enough s)) as (Hl & _). specialize (Hl s). unfold enough in *.
  destruct (parseline _ s); simpl; [|done | by destruct (Hl ltac:(lia))]. by destruct (bool_decide _).
Qed.

(** ** Printing *)

(** The text of an argument. *)
Definition word (s : span) : cstr := take (length (q s) - length (eq s)) (q s).

Fixpoint cmd_map {A B} (f : A -> B) (c : cmd A) : cmd B :=
  match c with
  | Exec argv => Exec (f <$> argv)
  | Redir c file mode fd => Redir (cmd_map f c) (f file) mode fd
  | Pipe l r => Pipe (cmd_map f l) (cmd_map f r)
  | Seq l r => Seq (cmd_map f l) (cmd_map f r)
  | Back c => Back (cmd_map f c)
  end.

Definition plain (c : ascii) : Prop := strchr whitespace c = false /\ strchr symbols c = false.
Definition word_ok (w : cstr) : Prop := w <> [] /\ Forall plain w /\ NUL ∉ w.

Definition show_word (w : cstr) : cstr := w ++ str " ".
Definition show_redir (r : cstr * Z * Z) : cstr :=
  (if (r.2 =? 0)%Z then str "< " else if Z.testbit r.1.2 10 then str "> " else str ">> ") ++ show_word r.1.1.
Definition redir_ok (r : cstr * Z * Z) : Prop :=
  word_ok r.1.1 /\ ((r.1.2, r.2) = (O_RDONLY, 0%Z) \/ (r.1.2, r.2) = (Z.lor (Z.lor O_WRONLY O_CREATE) O_TRUNC, 1%Z) \/
                    (r.1.2, r.2) = (Z.lor O_WRONLY O_CREATE, 1%Z)).

(** The text of a command where a line, a line without [;], a pipeline or one
    command of a pipeline is expected. *)
Record texts := mkTexts { t_line : cstr; t_back : cstr; t_pipe : cstr; t_unit : cstr }.

Definition block (s : cstr) : cstr := str "( " ++ s ++ str ") ".

Fixpoint show (c : cmd cstr) : texts :=
  match c with
  | Exec argv => let s := argv ≫= show_word in mkTexts s s s s
  | Redir c file mode fd => let s := t_unit (show c) ++ show_redir (file, mode, fd) in mkTexts s s s s
  | Pipe l r => let s := t_unit (show l) ++ str "| " ++ t_pipe (show r) in mkTexts s s s (block s)
  | Back c => let s := t_back (show c) ++ str "& " in mkTexts s s (block s) (block s)
  | Seq l r => let s := t_back (show l) ++ str "; " ++ t_line (show r) in mkTexts s (block s) (block s) (block s)
  end.

Fixpoint cmd_ok (c : cmd cstr) : Prop :=
  match c with
  | Exec argv => Forall word_ok argv /\ length argv < MAXARGS
  | Redir c file mode fd => cmd_ok c /\ redir_ok (file, mode, fd)
  | Pipe l r | Seq l r => cmd_ok l /\ cmd_ok r
  | Back c => cmd_ok c
  end.

(** The next character that is not blank is one of [toks], if any. *)
Definition stops (toks : cstr) (s : cstr) : Prop := match skip s with [] => True | c :: _ => strchr toks c = true end.

Lemma peek_char c s toks : strchr whitespace c = false -> peek (c :: s) toks = (strchr toks c, c :: s).
Proof. intros H. unfold peek. simpl. by rewrite H. Qed.

Lemma gettoken_sym c s : strchr whitespace c = false -> strchr symbols c = true -> ceq c ">" = false ->
  gettoken (c :: s) = (TSym c, c :: s, s, skip s).
Proof. intros H1 H2 H3. unfold gettoken. simpl. by rewrite H1, H3, H2. Qed.

Lemma peek_stops s toks : stops toks s -> peek s toks = (negb (bool_decide (skip s = [])), skip s).
Proof. unfold stops, peek. destruct (skip s) as [|c s1]; [done|]. by intros ->. Qed.

Lemma peek_other s toks others : stops toks s -> (forall c, strchr toks c = true -> strchr others c = false) -> peek s others = (false, skip s).
Proof. unfold stops, peek. intros H Ho. destruct (skip s) as [|c s1]; [done|]. by rewrite Ho. Qed.

Lemma stops_sub s toks more : stops toks s -> (forall c, strchr toks c = true -> strchr more c = true) -> stops more s.
Proof. unfold stops. destruct (skip s); auto. Qed.

Lemma skip_word_plain w s : Forall plain w -> (match s with c :: _ => strchr whitespace c || strchr symbols c = true | [] => True end) ->
  skip_word (w ++ s) = s.
Proof.
  intros Hw Hs. induction Hw as [|c w [H1 H2] Hw IH]; simpl.
  - destruct s as [|c s]; [done|]. simpl. by rewrite Hs.
  - by rewrite H1, H2, IH.
Qed.

Lemma word_char w s : word_ok w -> exists c s', w ++ s = c :: s' /\ plain c.
Proof. intros (Hne & Hw & _). destruct w as [|c w]; [done|]. apply Forall_cons in Hw as [Hc _]. by exists c, (w ++ s). Qed.

Lemma gettoken_word w s : word_ok w -> gettoken (show_word w ++ s) = (TWord, show_word w ++ s, str " " ++ s, skip s) /\
  word (mkSpan (show_word w ++ s) (str " " ++ s)) = w.
Proof.
  intros Hw. unfold show_word. rewrite <- app_assoc. destruct (word_char w (str " " ++ s) Hw) as (c & s' & E & [H1 H2]). split.
  - unfold gettoken. rewrite E. simpl skip. rewrite H1. rewrite H2.
    assert (Hgt : ceq c ">" = false) by (destruct (ceq_spec c ">") as [->|]; done). rewrite Hgt, <- E.
    rewrite skip_word_plain by (done || apply Hw). done.
  - unfold word. cbn [q eq]. rewrite length_app. replace (length w + length (str " " ++ s) - length (str " " ++ s)) with (length w) by lia.
    apply take_app_length.
Qed.

Lemma strchr_in (l : cstr) c : strchr l c = true <-> c ∈ l.
Proof. unfold strchr. apply bool_decide_eq_true. Qed.

(** ** Reading back what is printed *)
Definition map_redir (r : redir) : cstr * Z * Z := (word r.1.1, r.1.2, r.2).
Definition show_redirs (rs : list (cstr * Z * Z)) : cstr := rs ≫= show_redir.

(** After a command of a pipeline; after a pipeline; after a line. *)
Definition after_unit : cstr := str "|)&;".
Definition after_pipe : cstr := str ")&;".
Definition after_line : cstr := str ")".

(** The sets of characters the parser looks for are small. *)
Ltac chars :=
  let c := fresh in let K := fresh in
  intros c; unfold strchr at 1; rewrite bool_decide_eq_true; intros K;
  repeat (apply elem_of_cons in K as [->|K]; [done|]); by apply elem_of_nil in K.

Lemma peek_redirs s : stops after_unit s -> peek s (str "<>") = (false, skip s).
Proof. intros H. apply (peek_other s after_unit); [done | chars]. Qed.

Lemma plain_no c : plain c -> strchr (str "<>") c = false /\ strchr (str "|)&;") c = false /\ strchr (str "(") c = false.
Proof.
  intros [_ H]. assert (Hs : forall l : cstr, l ⊆ symbols -> strchr l c = false).
  { intros l Hl. unfold strchr in *. apply bool_decide_eq_false in H. apply bool_decide_eq_false. intros Hc. by apply H, Hl. }
  split_and!; apply Hs; intros x Hx; repeat (apply elem_of_cons in Hx as [->|Hx]; [apply (bool_decide_eq_true_1 _); by vm_compute|]); by apply elem_of_nil in Hx.
Qed.

Lemma parseredirs_none f s c s' : s = c :: s' -> plain c -> parseredirs (S f) s = POk [] s.
Proof.
  intros -> Hc. cbn [parseredirs]. destruct (plain_no c Hc) as (H1 & _). destruct Hc as [Hw _]. by rewrite peek_char, H1 by done.
Qed.

Lemma parseredirs_show rs s : Forall redir_ok rs -> stops after_unit s ->
  exists f rs', parseredirs f (show_redirs rs ++ s) = POk rs' (skip s) /\ map_redir <$> rs' = rs.
Proof.
  intros Hrs Hs. induction Hrs as [|[[w mode] fd] rs [Hw Hm] Hrs IH].
  { exists 1, []. cbn [parseredirs]. change (show_redirs [] ++ s) with s. by rewrite peek_redirs. }
  destruct IH as (f & rs' & E & Em). change (show_redirs ((w, mode, fd) :: rs)) with (show_redir (w, mode, fd) ++ show_redirs rs).
  rewrite <- app_assoc. destruct (gettoken_word w (show_redirs rs ++ s) Hw) as [Et Ew]. cbn [fst snd] in Hw, Hm.
  assert (Hgo : forall c pre t, show_redir (w, mode, fd) = (c :: pre) ++ str " " ++ show_word w -> strchr whitespace c = false -> strchr (str "<>") c = true ->
    (forall x, gettoken ((c :: pre) ++ str " " ++ x) = (t, (c :: pre) ++ str " " ++ x, str " " ++ x, skip x)) ->
    (match t with
     | TAppend => (mode, fd) = (Z.lor O_WRONLY O_CREATE, 1%Z)
     | TSym c => (mode, fd) = if ceq c "<" then (O_RDONLY, 0%Z) else (Z.lor (Z.lor O_WRONLY O_CREATE) O_TRUNC, 1%Z)
     | _ => False end) ->
    exists f rs', parseredirs f (show_redir (w, mode, fd) ++ show_redirs rs ++ s) = POk rs' (skip s) /\ map_redir <$> rs' = (w, mode, fd) :: rs).
  { intros c pre t -> Hc1 Hc2 Hg Ht. rewrite <- !app_assoc. exists (S f). cbn [parseredirs]. rewrite <- app_comm_cons, peek_char, Hc2 by done.
    rewrite app_comm_cons, Hg. rewrite gettoken_skip, Et. rewrite (proj1 (parse_skip f _)), E. cbn [pbind].
    eexists. split; [reflexivity|]. rewrite fmap_cons, Em. f_equal. unfold map_redir.
    destruct t; try done; [|injection Ht as -> ->; cbn [fst snd]; by rewrite Ew].
    destruct (ceq c0 "<"); injection Ht as -> ->; cbn [fst snd]; by rewrite Ew. }
  destruct Hm as [[= -> ->]|[[= -> ->]|[= -> ->]]].
  - by apply (Hgo "<"%char [] (TSym "<")).
  - by apply (Hgo ">"%char [] (TSym ">")).
  - by apply (Hgo ">"%char (str ">") TAppend).
Qed.

Definition show_args (args : list cstr) : cstr := args ≫= show_word.

(** Two parses, one after the other, with the fuel of both. *)
Lemma redirs_ok f f' s rs ps : parseredirs f s = POk rs ps -> f <= f' -> parseredirs f' s = POk rs ps.
Proof. intros E Hle. exact (mono_ok (fun f => parseredirs f s) _ _ (fun f => parseredirs_mono f s) f f' Hle E). Qed.

Lemma args_ok f f' argc s a ps : parseargs f argc s = POk a ps -> f <= f' -> parseargs f' argc s = POk a ps.
Proof. intros E Hle. exact (mono_ok (fun f => parseargs f argc s) _ _ (fun f => parseargs_mono f argc s) f f' Hle E). Qed.

Lemma parseargs_end argc s : stops after_unit s -> parseargs 1 argc s = POk ([], []) (skip s).
Proof.
  intros Hs. cbn [parseargs]. change (str "|)&;") with after_unit. rewrite (peek_stops s after_unit Hs). destruct (skip s) as [|c s1] eqn:E; [|done].
  rewrite bool_decide_eq_true_2 by done. done.
Qed.

Lemma parseargs_show rs s : Forall redir_ok rs -> stops after_unit s -> forall args argc, Forall word_ok args -> argc + length args < MAXARGS ->
  (args = [] -> rs = []) ->
  exists f a, parseargs f argc (show_args args ++ show_redirs rs ++ s) = POk a (skip s) /\ word <$> a.1 = args /\ map_redir <$> a.2 = rs.
Proof.
  intros Hrs Hs. induction args as [|w args IH]; intros argc Hargs Hlen Hnil.
  { rewrite Hnil by done. exists 1, ([], []). by rewrite parseargs_end. }
  apply Forall_cons in Hargs as [Hw Hargs]. simpl in Hlen.
  change (show_args (w :: args)) with (show_word w ++ show_args args). rewrite <- app_assoc.
  set (rest := show_args args ++ show_redirs rs ++ s). destruct (gettoken_word w rest Hw) as [Et Ew].
  destruct (word_char w (str " " ++ rest) Hw) as (c & s' & Ec & Hc). rewrite app_assoc in Ec. fold (show_word w) in Ec.
  assert (Hpeek : peek (show_word w ++ rest) (str "|)&;") = (false, show_word w ++ rest)).
  { rewrite Ec. destruct (plain_no c Hc) as (_ & H2 & _). destruct Hc as [Hc _]. by rewrite peek_char, H2. }
  assert (Hmore : exists f rs' a, parseredirs f (skip rest) = POk rs' (skip (skip rest)) /\ parseargs f (S argc) (skip rest) = POk a (skip s) /\
    word <$> a.1 = args /\ map_redir <$> (rs' ++ a.2) = rs \/
    parseredirs f (skip rest) = POk rs' (skip s) /\ parseargs f (S argc) (skip s) = POk a (skip s) /\
    word <$> a.1 = args /\ map_redir <$> (rs' ++ a.2) = rs).
  { destruct args as [|w2 args2].
    - destruct (parseredirs_show rs s Hrs Hs) as (f & rs' & E & Em). exists (S f), rs', ([], []). right.
      rewrite (proj1 (parse_skip _ rest)). split_and!; [by apply (redirs_ok f); [|lia] | | done | by rewrite app_nil_r].
      rewrite (proj1 (proj2 (parse_skip _ s))). apply (args_ok 1); [by apply parseargs_end | lia].
    - destruct (IH (S argc)) as (f & a & E & E1 & E2); [done | simpl in *; lia | done|]. fold rest in E.
      apply Forall_cons in Hargs as [Hw2 _]. destruct (word_char w2 (str " " ++ show_args args2 ++ show_redirs rs ++ s) Hw2) as (d & s2 & Ed & Hd).
      assert (Er : rest = d :: s2) by (rewrite <- Ed; unfold rest, show_args, show_word; cbn; rewrite <- !app_assoc; done).
      assert (Esk : skip rest = rest) by (rewrite Er; simpl; destruct Hd as [Hd _]; by rewrite Hd).
      exists (S f), [], a. left. rewrite !Esk. split_and!; [by apply (parseredirs_none f rest d s2) | by apply (args_ok f); [|lia] | done | done]. }
  destruct Hmore as (f & rs' & a & Hmore). exists (S f), (mkSpan (show_word w ++ rest) (str " " ++ rest) :: a.1, rs' ++ a.2).
  cbn [parseargs]. rewrite Hpeek, Et. destruct (Nat.leb_spec MAXARGS (S argc)); [lia|].
  destruct Hmore as [(M1 & M2 & M3 & M4)|(M1 & M2 & M3 & M4)]; rewrite M1; cbn [pbind].
  - rewrite (proj1 (proj2 (parse_skip _ _))), M2. cbn [pbind fst snd]. rewrite fmap_cons, Ew, M3. done.
  - rewrite M2. cbn [pbind fst snd]. rewrite fmap_cons, Ew, M3. done.
Qed.

(** A parse that succeeds with some fuel and gives back the command. *)
Definition reads (X : nat -> pres (cmd span)) (c : cmd cstr) (ps : cstr) : Prop := exists f r, X f = POk r ps /\ cmd_map word r = c.

Definition reads_unit (c : cmd cstr) : Prop := forall s, stops after_unit s -> reads (fun f => parseexec f (t_unit (show c) ++ s)) c (skip s).
Definition reads_pipe (c : cmd cstr) : Prop := forall s, stops after_pipe s -> reads (fun f => parsepipe f (t_pipe (show c) ++ s)) c (skip s).
Definition reads_line (c : cmd cstr) : Prop := forall s, stops after_line s -> reads (fun f => parseline f (t_line (show c) ++ s)) c (skip s).

Lemma wrap_app {W} (c : cmd W) a b : wrap c (a ++ b) = wrap (wrap c a) b.
Proof. unfold wrap. apply fold_left_app. Qed.

Lemma wrap_map c rs : cmd_map word (wrap c rs) = wrap (cmd_map word c) (map_redir <$> rs).
Proof. revert c. induction rs as [|r rs IH]; intros c; [done|]. simpl. by rewrite IH. Qed.

(** A command of a pipeline is a plain command or a block, with redirections. *)
Definition unit_form (c : cmd cstr) : Prop := exists base rs, c = wrap base rs /\ t_unit (show c) = t_unit (show base) ++ show_redirs rs /\
  Forall redir_ok rs /\
  ((exists argv, base = Exec argv /\ cmd_ok base) \/ (t_unit (show base) = block (t_line (show base)) /\ reads_line base)).

(** More fuel, for each of the parsing functions. *)
Lemma exec_ok f f' s r ps : parseexec f s = POk r ps -> f <= f' -> parseexec f' s = POk r ps.
Proof. intros E Hle. refine (mono_ok (fun f => parseexec f s) _ _ _ f f' Hle E). intros g. apply parse_mono. Qed.

Lemma pipe_ok f f' s r ps : parsepipe f s = POk r ps -> f <= f' -> parsepipe f' s = POk r ps.
Proof. intros E Hle. refine (mono_ok (fun f => parsepipe f s) _ _ _ f f' Hle E). intros g. apply parse_mono. Qed.

Lemma line_more f f' s r ps : parseline f s = POk r ps -> f <= f' -> parseline f' s = POk r ps.
Proof. intros E Hle. refine (mono_ok (fun f => parseline f s) _ _ _ f f' Hle E). intros g. apply parse_mono. Qed.

Lemma skip_blank s : skip (str " " ++ s) = skip s.
Proof. done. Qed.

(** A printed symbol is a token of its own. *)
Lemma sym_token c s : strchr whitespace c = false -> strchr symbols c = true -> ceq c ">" = false ->
  gettoken ((c :: str " ") ++ s) = (TSym c, (c :: str " ") ++ s, str " " ++ s, skip s).
Proof. intros H1 H2 H3. change ((c :: str " ") ++ s) with (c :: str " " ++ s). by rewrite gettoken_sym. Qed.

Lemma peek_redirs_paren rs s : Forall redir_ok rs -> stops after_unit s ->
  peek (show_redirs rs ++ s) (str "(") = (false, skip (show_redirs rs ++ s)).
Proof.
  intros Hrs Hs. destruct Hrs as [|[[w mode] fd] rs [_ Hm] _]; [apply (peek_other _ after_unit); [done | chars]|].
  cbn [fst snd] in Hm. by destruct Hm as [[= -> ->]|[[= -> ->]|[= -> ->]]].
Qed.

Lemma unit_reads c : unit_form c -> reads_unit c.
Proof.
  unfold reads_unit. intros (base & rs & -> & -> & Hrs & Hbase) s Hs. rewrite <- app_assoc. destruct Hbase as [(argv & -> & [Ha Hn])|[-> Hl]].
  - change (t_unit (show (Exec argv))) with (show_args argv). destruct argv as [|w argv].
    + destruct (parseredirs_show rs s Hrs Hs) as (f & rs' & E & Em). exists (S (S f)), (wrap (Exec []) (rs' ++ [])). split.
      * cbn [parseexec]. change (show_args [] ++ show_redirs rs ++ s) with (show_redirs rs ++ s). rewrite peek_redirs_paren by done.
        rewrite (proj1 (parse_skip (S f) _)), (redirs_ok f (S f) _ _ _ E) by lia. cbn [pbind].
        rewrite (proj1 (proj2 (parse_skip (S f) s))). rewrite (args_ok 1 (S f) 0 s ([], []) (skip s)); [done | by apply parseargs_end | lia].
      * by rewrite wrap_map, app_nil_r, Em.
    + destruct (parseargs_show rs s Hrs Hs (w :: argv) 0) as (f & a & E & E1 & E2); [done..|].
      assert (Hw := Ha). apply Forall_cons in Hw as [Hw _].
      destruct (word_char w (str " " ++ show_args argv ++ show_redirs rs ++ s) Hw) as (c & s' & Ec & Hc).
      assert (Es : show_args (w :: argv) ++ show_redirs rs ++ s = c :: s').
      { rewrite <- Ec. change (show_args (w :: argv)) with ((w ++ str " ") ++ show_args argv). by rewrite <- !app_assoc. }
      exists (S (S f)), (wrap (Exec a.1) ([] ++ a.2)). split; [|by rewrite wrap_map; simpl; rewrite E1, E2].
      cbn [parseexec]. rewrite Es in *. destruct (plain_no c Hc) as (_ & _ & H3). rewrite peek_char, H3 by apply Hc.
      rewrite (parseredirs_none f (c :: s') c s' eq_refl Hc). cbn [pbind]. by rewrite (args_ok f (S f) 0 _ _ _ E) by lia.
  - unfold block. rewrite <- !app_assoc. set (rest := show_redirs rs ++ s).
    destruct (Hl (str ") " ++ rest)) as (f1 & r & E1 & Em1); [done|]. destruct (parseredirs_show rs s Hrs Hs) as (f2 & rs' & E2 & Em2). fold rest in E2.
    exists (S (S (f1 + f2))), (wrap r rs'). split; [|by rewrite wrap_map, Em1, Em2].
    cbn [parseexec]. change (str "( ") with ("("%char :: str " "). rewrite <- app_comm_cons, peek_char by done.
    change (strchr (str "(") "(") with true. cbn [parseblock]. rewrite peek_char by done. change (strchr (str "(") "(") with true. cbv iota.
    rewrite app_comm_cons, sym_token by done. rewrite (proj2 (proj2 (proj2 (proj2 (proj2 (parse_skip _ _)))))).
    rewrite (line_more f1 _ _ _ _ E1) by lia. cbn [pbind]. change (skip (str ") " ++ rest)) with (")"%char :: str " " ++ rest).
    rewrite peek_char by done. change (strchr (str ")") ")") with true. cbv iota. rewrite app_comm_cons, sym_token by done.
    rewrite (proj1 (parse_skip _ _)), (redirs_ok f2 _ _ _ _ E2) by lia. done.
Qed.

(** Where one kind of text is expected, a text of a narrower kind may stand. *)
Lemma pipe_reads_unit c : t_pipe (show c) = t_unit (show c) -> reads_unit c -> reads_pipe c.
Proof.
  intros E H s Hs. rewrite E. destruct (H s) as (f & r & Ef & Em); [apply (stops_sub _ after_pipe); [done | chars]|].
  exists (S f), r. split; [|done]. cbn [parsepipe]. rewrite Ef. cbn [pbind]. rewrite peek_skip, (peek_other s after_pipe) by (done || chars). done.
Qed.

Lemma pipe_reads_pipe l r : reads_unit l -> reads_pipe r -> reads_pipe (Pipe l r).
Proof.
  intros Hl Hr s Hs. cbn [show t_pipe]. rewrite <- !app_assoc. destruct (Hl (str "| " ++ t_pipe (show r) ++ s)) as (f1 & r1 & E1 & Em1); [done|].
  destruct (Hr s Hs) as (f2 & r2 & E2 & Em2). exists (S (f1 + f2)), (Pipe r1 r2). split; [|simpl; by rewrite Em1, Em2].
  cbn [parsepipe]. rewrite (exec_ok f1 _ _ _ _ E1) by lia. cbn [pbind].
  change (skip (str "| " ++ t_pipe (show r) ++ s)) with ("|"%char :: str " " ++ t_pipe (show r) ++ s).
  rewrite peek_char by done. change (strchr (str "|") "|") with true. cbv iota. rewrite app_comm_cons, sym_token by done.
  rewrite (proj1 (proj2 (proj2 (proj2 (proj2 (parse_skip _ _)))))). by rewrite (pipe_ok f2 _ _ _ _ E2) by lia.
Qed.

(** A pipeline and the [&]s after it. *)
Definition reads_back (c : cmd cstr) : Prop := forall s, stops after_pipe s ->
  exists f r0 ps r n, parsepipe f (t_back (show c) ++ s) = POk r0 ps /\ (forall g, backs (n + g) r0 ps = backs g r (skip s)) /\ cmd_map word r = c.

Lemma back_reads_pipe c : t_back (show c) = t_pipe (show c) -> reads_pipe c -> reads_back c.
Proof. intros E H s Hs. rewrite E. destruct (H s Hs) as (f & r & Ef & Em). by exists f, r, (skip s), r, 0. Qed.

Lemma back_reads_back c : reads_back c -> reads_back (Back c).
Proof.
  intros H s Hs. cbn [show t_back]. rewrite <- app_assoc. destruct (H (str "& " ++ s)) as (f & r0 & ps & r & n & E & Eb & Em); [done|].
  exists f, r0, ps, (Back r), (S n). split_and!; [done | | simpl; by rewrite Em]. intros g. replace (S n + g) with (n + S g) by lia.
  rewrite Eb. change (skip (str "& " ++ s)) with ("&"%char :: str " " ++ s). cbn [backs]. rewrite peek_char by done.
  change (strchr (str "&") "&") with true. cbv iota. by rewrite app_comm_cons, sym_token.
Qed.

(** What [parseline] reads before it looks for a [;]. *)
Lemma back_part c s : reads_back c -> stops after_pipe s -> peek s (str "&") = (false, skip s) ->
  exists f r0 ps r, parsepipe f (t_back (show c) ++ s) = POk r0 ps /\ backs f r0 ps = POk r (skip s) /\ cmd_map word r = c.
Proof.
  intros H Hs Hp. destruct (H s Hs) as (f & r0 & ps & r & n & E & Eb & Em). exists (n + S f), r0, ps, r.
  split_and!; [apply (pipe_ok f); [done | lia] | | done]. rewrite Eb. cbn [backs]. by rewrite peek_skip, Hp.
Qed.

Lemma line_reads_back c : t_line (show c) = t_back (show c) -> reads_back c -> reads_line c.
Proof.
  intros E H s Hs. rewrite E. destruct (back_part c s H) as (f & r0 & ps & r & Ep & Eb & Em);
    [apply (stops_sub _ after_line); [done | chars] | apply (peek_other _ after_line); [done | chars] |].
  exists (S f), r. split; [|done]. cbn [parseline]. rewrite Ep. cbn [pbind]. rewrite Eb. cbn [pbind].
  rewrite peek_skip, (peek_other s after_line) by (done || chars). done.
Qed.

Lemma backs_ok f f' c s r ps : backs f c s = POk r ps -> f <= f' -> backs f' c s = POk r ps.
Proof. intros E Hle. refine (mono_ok (fun f => backs f c s) _ _ _ f f' Hle E). intros g. apply parse_mono. Qed.

Lemma line_reads_seq l r : reads_back l -> reads_line r -> reads_line (Seq l r).
Proof.
  intros Hl Hr s Hs. cbn [show t_line]. rewrite <- !app_assoc.
  destruct (back_part l (str "; " ++ t_line (show r) ++ s) Hl) as (f1 & r0 & ps & r1 & Ep & Eb & Em1); [done..|].
  destruct (Hr s Hs) as (f2 & r2 & E2 & Em2). exists (S (f1 + f2)), (Seq r1 r2). split; [|simpl; by rewrite Em1, Em2].
  cbn [parseline]. rewrite (pipe_ok f1 _ _ _ _ Ep) by lia. cbn [pbind]. rewrite (backs_ok f1 _ _ _ _ _ Eb) by lia. cbn [pbind].
  change (skip (str "; " ++ t_line (show r) ++ s)) with (";"%char :: str " " ++ t_line (show r) ++ s).
  rewrite peek_char by done. change (strchr (str ";") ";") with true. cbv iota. rewrite app_comm_cons, sym_token by done.
  rewrite (proj2 (proj2 (proj2 (proj2 (proj2 (parse_skip _ _)))))). by rewrite (line_more f2 _ _ _ _ E2) by lia.
Qed.

Lemma block_form c : t_unit (show c) = block (t_line (show c)) -> reads_line c -> unit_form c.
Proof. intros E H. exists c, []. split_and!; [done | by rewrite app_nil_r | done | by right]. Qed.

Lemma redir_form c r : unit_form c -> redir_ok r -> unit_form (Redir c r.1.1 r.1.2 r.2).
Proof.
  intros (base & rs & -> & E & Hrs & Hb) Hr. exists base, (rs ++ [r]). split_and!; [by rewrite wrap_app | | by apply Forall_app_2; [|apply Forall_singleton] | done].
  cbn [show t_unit]. rewrite E. unfold show_redirs. rewrite bind_app. cbn. rewrite app_nil_r, <- app_assoc. by destruct r as [[? ?] ?].
Qed.

(** From each kind of text to the next wider one. *)
Lemma unit_up c : t_pipe (show c) = t_unit (show c) -> unit_form c -> unit_form c /\ reads_pipe c.
Proof. intros E U. split; [done|]. by apply pipe_reads_unit, unit_reads. Qed.

Lemma show_reads c : cmd_ok c -> unit_form c /\ reads_pipe c /\ reads_back c /\ reads_line c.
Proof.
  induction c as [argv|c IH file mode fd|l IHl r IHr|l IHl r IHr|c IH]; cbn [cmd_ok].
  - intros H. destruct (unit_up (Exec argv) eq_refl) as [U P].
    { exists (Exec argv), []. split_and!; [done | by rewrite app_nil_r | done | left; by exists argv]. }
    pose proof (back_reads_pipe (Exec argv) eq_refl P) as B. split_and!; [done.. | by apply line_reads_back].
  - intros [H Hr]. destruct (IH H) as (U0 & _). destruct (unit_up (Redir c file mode fd) eq_refl (redir_form c (file, mode, fd) U0 Hr)) as [U P].
    pose proof (back_reads_pipe (Redir c file mode fd) eq_refl P) as B. split_and!; [done.. | by apply line_reads_back].
  - intros [Hl Hr]. destruct (IHl Hl) as (U0 & _), (IHr Hr) as (_ & P0 & _). pose proof (pipe_reads_pipe l r (unit_reads _ U0) P0) as P.
    pose proof (back_reads_pipe (Pipe l r) eq_refl P) as B. pose proof (line_reads_back (Pipe l r) eq_refl B) as L.
    split_and!; [by apply block_form | done..].
  - intros [Hl Hr]. destruct (IHl Hl) as (_ & _ & B0 & _), (IHr Hr) as (_ & _ & _ & L0). pose proof (line_reads_seq l r B0 L0) as L.
    destruct (unit_up (Seq l r) eq_refl (block_form (Seq l r) eq_refl L)) as [U P].
    split_and!; [done.. | by apply back_reads_pipe | done].
  - intros H. destruct (IH H) as (_ & _ & B0 & _). pose proof (back_reads_back c B0) as B. pose proof (line_reads_back (Back c) eq_refl B) as L.
    destruct (unit_up (Back c) eq_refl (block_form (Back c) eq_refl L)) as [U P]. done.
Qed.

(** The fuel [parsecmd] takes is enough to find what any fuel finds. *)
Lemma line_enough s f r ps : parseline f s = POk r ps -> parseline (enough s) s = POk r ps.
Proof.
  intros E. destruct (Nat.le_ge_cases f (enough s)) as [H|H]; [by apply (line_more f)|].
  assert (Hm := mono_le (fun f => parseline f s) (fun g => proj1 (parse_mono g) s) _ _ H). cbn beta in Hm.
  destruct Hm as [Hf|Hf]; [|congruence]. pose proof (proj1 (parse_total (enough s)) s ltac:(unfold enough; lia)) as G. by rewrite Hf in G.
Qed.

(** ** The arguments the program sees *)

(** Words are cut out of the buffer: they start and end inside it, are made
    of plain characters and end before one that is not. *)
Definition span_ok (s0 : cstr) (a : span) : Prop :=
  q a `suffix_of` s0 /\ q a = word a ++ eq a /\ Forall plain (word a) /\ (match eq a with c :: _ => ~ plain c | [] => True end).

Fixpoint spans (c : cmd span) : list span :=
  match c with
  | Exec argv => argv
  | Redir c file _ _ => spans c ++ [file]
  | Pipe l r | Seq l r => spans l ++ spans r
  | Back c => spans c
  end.

Lemma skip_suffix s : skip s `suffix_of` s.
Proof. induction s as [|c s IH]; [done|]. simpl. destruct (strchr _ _); [by apply suffix_cons_r | done]. Qed.

Lemma skip_word_split s : exists w, s = w ++ skip_word s /\ Forall plain w /\ match skip_word s with c :: _ => ~ plain c | [] => True end.
Proof.
  induction s as [|c s (w & E & Hw & He)]; [by exists []|]. simpl. destruct (strchr whitespace c) eqn:E1, (strchr symbols c) eqn:E2; simpl.
  1-3: exists []; split_and!; [done | done | intros [? ?]; congruence].
  exists (c :: w). split_and!; [simpl; by rewrite <- E | by constructor | done].
Qed.

Lemma gettoken_inside s0 s t q0 e ps : s `suffix_of` s0 -> gettoken s = (t, q0, e, ps) ->
  ps `suffix_of` s0 /\ (t = TWord -> span_ok s0 (mkSpan q0 e)).
Proof.
  intros Hs. unfold gettoken. assert (Hq : skip s `suffix_of` s0) by (etrans; [apply skip_suffix | done]).
  destruct (skip s) as [|c s1] eqn:E; [intros [= <- <- <- <-]; done|].
  assert (Hend : forall t' e', e' `suffix_of` c :: s1 -> t' <> TWord -> (t', c :: s1, e', skip e') = (t, q0, e, ps) ->
    ps `suffix_of` s0 /\ (t = TWord -> span_ok s0 (mkSpan q0 e))).
  { intros t' e' He Ht [= <- _ _ <-]. split; [|done]. etrans; [apply skip_suffix|]. by etrans. }
  destruct (ceq c ">"); [|destruct (strchr symbols c) eqn:Es; [apply Hend; [by apply suffix_cons_r | done]|]].
  - destruct s1 as [|d s2]; [apply Hend; [by apply suffix_cons_r | done]|].
    destruct (ceq d ">"); apply Hend; try done; [by apply suffix_cons_r, suffix_cons_r | by apply suffix_cons_r].
  - destruct (skip_word_split (c :: s1)) as (w & Ew & Hw & He). revert Ew He. generalize (skip_word (c :: s1)) as e'. intros e' Ew He [= <- <- <- <-].
    assert (Hsuf : e' `suffix_of` c :: s1) by (by exists w). split; [etrans; [apply skip_suffix|]; by etrans|]. intros _.
    assert (Eword : word (mkSpan (c :: s1) e') = w).
    { unfold word. cbn [q eq]. rewrite Ew. rewrite length_app. replace (_ + _ - _) with (length w) by lia. apply take_app_length. }
    unfold span_ok. rewrite Eword. cbn [q eq]. done.
Qed.

(** A parse that stays in the buffer. *)
Definition inside {A} (s0 : cstr) (sp : A -> list span) (r : pres A) : Prop :=
  match r with POk a ps => ps `suffix_of` s0 /\ Forall (span_ok s0) (sp a) | _ => True end.

Lemma inside_bind {A B} s0 (sp : A -> list span) (sp' : B -> list span) a f :
  inside s0 sp a -> (forall x ps, ps `suffix_of` s0 -> Forall (span_ok s0) (sp x) -> inside s0 sp' (f x ps)) -> inside s0 sp' (pbind a f).
Proof. destruct a; simpl; [|done..]. intros [H1 H2] H. by apply H. Qed.

Lemma peek_inside s0 s toks b ps : s `suffix_of` s0 -> peek s toks = (b, ps) -> ps `suffix_of` s0.
Proof. intros H ->%peek_miss. etrans; [apply skip_suffix | done]. Qed.

Lemma next_inside s0 s t q0 e ps : s `suffix_of` s0 -> gettoken s = (t, q0, e, ps) -> ps `suffix_of` s0.
Proof. intros H E. by apply (gettoken_inside _ _ _ _ _ _ H E). Qed.

Definition redir_spans (rs : list redir) : list span := (fun r => r.1.1) <$> rs.

Lemma spans_wrap c rs : spans (wrap c rs) = spans c ++ redir_spans rs.
Proof.
  revert c. induction rs as [|r rs IH]; intros c; [by rewrite app_nil_r|].
  change (wrap c (r :: rs)) with (wrap (Redir c r.1.1 r.1.2 r.2) rs). rewrite IH. cbn [spans]. by rewrite <- app_assoc.
Qed.

Lemma parseredirs_inside s0 f : forall s, s `suffix_of` s0 -> inside s0 redir_spans (parseredirs f s).
Proof.
  induction f as [|f IH]; intros s Hs; [done|]. cbn [parseredirs]. destruct (peek s _) as [[|] ps1] eqn:E1;
    pose proof (peek_inside _ _ _ _ _ Hs E1) as H1; [|done]. destruct (gettoken ps1) as [[[t ?] ?] ps2] eqn:E2.
  pose proof (next_inside _ _ _ _ _ _ H1 E2) as H2. destruct (gettoken ps2) as [[[t2 q0] e] ps3] eqn:E3.
  destruct (gettoken_inside _ _ _ _ _ _ H2 E3) as [H3 Hw]. destruct t2; try done. eapply inside_bind; [by apply IH|].
  intros rs ps4 H4 Hrs. split; [done|]. cbn [redir_spans fmap list_fmap]. constructor; [|done]. destruct t as [| c | |]; [..|by apply Hw]; try by apply Hw.
  destruct (ceq c "<"); by apply Hw.
Qed.

Lemma parseargs_inside s0 f : forall argc s, s `suffix_of` s0 -> inside s0 (fun a => a.1 ++ redir_spans a.2) (parseargs f argc s).
Proof.
  induction f as [|f IH]; intros argc s Hs; [done|]. cbn [parseargs]. destruct (peek s _) as [[|] ps1] eqn:E1;
    pose proof (peek_inside _ _ _ _ _ Hs E1) as H1; [done|]. destruct (gettoken ps1) as [[[t q0] e] ps2] eqn:E2.
  destruct (gettoken_inside _ _ _ _ _ _ H1 E2) as [H2 Hw]. destruct t; try done. destruct (_ <=? _); [done|].
  eapply inside_bind; [by apply parseredirs_inside|]. intros rs ps3 H3 Hrs. eapply inside_bind; [by apply IH|]. intros a ps4 H4 Ha.
  split; [done|]. cbn [fst snd]. unfold redir_spans in *. rewrite fmap_app. apply Forall_app in Ha as [Ha1 Ha2].
  rewrite <- app_comm_cons. constructor; [by apply Hw|]. by repeat apply Forall_app_2.
Qed.

Lemma parse_inside s0 f : (forall s, s `suffix_of` s0 -> inside s0 spans (parseline f s)) /\
  (forall c s, s `suffix_of` s0 -> Forall (span_ok s0) (spans c) -> inside s0 spans (backs f c s)) /\
  (forall s, s `suffix_of` s0 -> inside s0 spans (parsepipe f s)) /\ (forall s, s `suffix_of` s0 -> inside s0 spans (parseexec f s)) /\
  (forall s, s `suffix_of` s0 -> inside s0 spans (parseblock f s)).
Proof.
  induction f as [|f (IHl & IHb & IHp & IHe & IHk)]; [done|]. split_and!; cbn [parseline backs parsepipe parseexec parseblock]; [intros s Hs | intros c s Hs Hc | intros s Hs ..].
  - eapply inside_bind; [by apply IHp|]. intros c ps1 H1 Hc. eapply inside_bind; [by apply IHb|]. intros c2 ps2 H2 Hc2.
    destruct (peek ps2 _) as [[|] ps3] eqn:E3; pose proof (peek_inside _ _ _ _ _ H2 E3) as H3; [|done].
    destruct (gettoken ps3) as [[[? ?] ?] ps4] eqn:E4. pose proof (next_inside _ _ _ _ _ _ H3 E4).
    eapply inside_bind; [by apply IHl|]. intros r ps5 H5 Hr. split; [done|]. by apply Forall_app_2.
  - destruct (peek s _) as [[|] ps1] eqn:E1; pose proof (peek_inside _ _ _ _ _ Hs E1) as H1; [|done].
    destruct (gettoken ps1) as [[[? ?] ?] ps2] eqn:E2. pose proof (next_inside _ _ _ _ _ _ H1 E2). by apply IHb.
  - eapply inside_bind; [by apply IHe|]. intros c ps1 H1 Hc. destruct (peek ps1 _) as [[|] ps2] eqn:E2; pose proof (peek_inside _ _ _ _ _ H1 E2) as H2; [|done].
    destruct (gettoken ps2) as [[[? ?] ?] ps3] eqn:E3. pose proof (next_inside _ _ _ _ _ _ H2 E3).
    eapply inside_bind; [by apply IHp|]. intros r ps5 H5 Hr. split; [done|]. by apply Forall_app_2.
  - destruct (peek s _) as [[|] ps1] eqn:E1; pose proof (peek_inside _ _ _ _ _ Hs E1) as H1; [by apply IHk|].
    eapply inside_bind; [by apply parseredirs_inside|]. intros rs ps2 H2 Hrs. eapply inside_bind; [by apply parseargs_inside|].
    intros a ps3 H3 Ha. split; [done|]. rewrite spans_wrap. unfold redir_spans in *. rewrite fmap_app. apply Forall_app in Ha as [Ha1 Ha2]. by repeat apply Forall_app_2.
  - destruct (peek s _) as [[|] ps1] eqn:E1; pose proof (peek_inside _ _ _ _ _ Hs E1) as H1; [|done].
    destruct (gettoken ps1) as [[[? ?] ?] ps2] eqn:E2. pose proof (next_inside _ _ _ _ _ _ H1 E2).
    eapply inside_bind; [by apply IHl|]. intros c ps3 H3 Hc. destruct (peek ps3 _) as [[|] ps4] eqn:E4; pose proof (peek_inside _ _ _ _ _ H3 E4) as H4; [|done].
    destruct (gettoken ps4) as [[[? ?] ?] ps5] eqn:E5. pose proof (next_inside _ _ _ _ _ _ H4 E5).
    eapply inside_bind; [by apply parseredirs_inside|]. intros rs ps6 H6 Hrs. split; [done|]. rewrite spans_wrap. by apply Forall_app_2.
Qed.

Lemma nulterminate_cuts n c b : nulterminate n c b = fold_left (fun b a => cut n b (eq a)) (spans c) b.
Proof.
  revert b. induction c as [argv|c IH file mode fd|l IHl r IHr|l IHl r IHr|c IH]; intros b; cbn [nulterminate spans]; [done | ..];
    rewrite ?fold_left_app, ?IHl, ?IHr, ?IH; done.
Qed.

Lemma cuts_lookup n (l : list span) b i : i < length b ->
  fold_left (fun b a => cut n b (eq a)) l b !! i = if bool_decide (i ∈ (fun a => offset n (eq a)) <$> l) then Some NUL else b !! i.
Proof.
  revert b. induction l as [|a l IH]; intros b Hi; [done|]. cbn [fold_left fmap list_fmap]. unfold cut in *.
  rewrite IH by (by rewrite length_insert).
  destruct (decide (i ∈ (fun a => offset n (eq a)) <$> l)) as [Hin|Hin].
  { rewrite !bool_decide_eq_true_2; [done | apply elem_of_cons; by right | done]. }
  rewrite (bool_decide_eq_false_2 (i ∈ _)) by done. destruct (decide (i = offset n (eq a))) as [->|Hne].
  - rewrite bool_decide_eq_true_2 by (apply elem_of_cons; by left). by apply list_lookup_insert_eq.
  - rewrite bool_decide_eq_false_2 by (intros [?|?]%elem_of_cons; done). by apply list_lookup_insert_ne.
Qed.

Lemma cstring_at (b : cstr) w : NUL ∉ w -> forall o, (forall j, j < length w -> b !! (o + j) = w !! j) -> b !! (o + length w) = Some NUL ->
  cstring (drop o b) = w.
Proof.
  induction w as [|c w IH]; intros Hn o Hj He.
  - simpl in He. rewrite Nat.add_0_r in He. by rewrite (drop_S _ _ _ He).
  - assert (Hc := Hj 0 ltac:(simpl; lia)). rewrite Nat.add_0_r in Hc. simpl in Hc. rewrite (drop_S _ _ _ Hc). simpl.
    rewrite ceq_neq by set_solver. f_equal. apply IH; [set_solver | | by rewrite <- He; f_equal; simpl; lia].
    intros j Hlt. change (w !! j) with ((c :: w) !! S j). rewrite <- Hj by (simpl; lia). f_equal. lia.
Qed.

(** Where a word lies in the buffer. *)
Lemma span_place s0 a : span_ok s0 a -> offset (length s0) (eq a) = offset (length s0) (q a) + length (word a) /\
  (forall j, j < length (word a) -> (s0 ++ [NUL]) !! (offset (length s0) (q a) + j) = word a !! j) /\ offset (length s0) (eq a) <= length s0 /\
  forall c, (s0 ++ [NUL]) !! offset (length s0) (eq a) = Some c -> c = NUL \/ ~ plain c.
Proof.
  intros ([pre Es] & Eq & _ & He). unfold offset. assert (Ln : length s0 = length pre + length (q a)) by (by rewrite Es, length_app).
  assert (Lq : length (q a) = length (word a) + length (eq a)) by (by rewrite Eq at 1; rewrite length_app).
  revert Ln. generalize (length s0) as n. intros n Ln. split_and!; [lia | | lia |].
  - intros j Hj. replace (n - length (q a)) with (length pre) by lia. rewrite Es, Eq, <- !app_assoc.
    rewrite lookup_app_r by lia. replace (length pre + j - length pre) with j by lia. by rewrite lookup_app_l.
  - intros c. replace (n - length (eq a)) with (length pre + length (word a)) by lia. rewrite Es, Eq, <- !app_assoc.
    rewrite lookup_app_r, lookup_app_r by lia. replace (_ + _ - _ - _) with 0 by lia. destruct (eq a) as [|d e]; simpl; intros [= <-]; [by left | by right].
Qed.

(** In the buffer [nulterminate] leaves, every argument is its word. *)
Lemma nulterminate_args s0 c : NUL ∉ s0 -> Forall (span_ok s0) (spans c) ->
  Forall (fun a => arg_at (length s0) (nulterminate (length s0) c (s0 ++ [NUL])) a = word a) (spans c).
Proof.
  intros Hn Hc. rewrite nulterminate_cuts. assert (Hall := Hc). rewrite Forall_forall in Hall. apply Forall_forall. intros a Ha.
  assert (Ho := Hall a Ha). destruct (span_place s0 a Ho) as (Ee & Hw & Hle & _). destruct Ho as ([pre Es] & Eq & Hp & _).
  assert (Lb : length (s0 ++ [NUL]) = S (length s0)) by (rewrite length_app; simpl; lia).
  unfold arg_at. apply cstring_at.
  - intros Hin. apply Hn. rewrite Es, Eq. set_solver.
  - intros j Hj. rewrite cuts_lookup by lia. rewrite bool_decide_eq_false_2; [by apply Hw|]. intros (a2 & E2 & H2)%list_elem_of_fmap.
    destruct (span_place s0 a2 (Hall a2 H2)) as (_ & _ & _ & Hend). destruct (lookup_lt_is_Some_2 (word a) j Hj) as [x Hx].
    destruct (Hend x) as [->|Hnp]; [by rewrite <- E2, (Hw j Hj) | |].
    + apply Hn. rewrite Es, Eq. apply elem_of_app. right. apply elem_of_app. left. by apply (list_elem_of_lookup_2 _ j).
    + apply Hnp. by apply (Forall_lookup_1 _ _ _ _ Hp Hx).
  - rewrite cuts_lookup by lia. rewrite bool_decide_eq_true_2; [done|]. apply list_elem_of_fmap. by exists a.
Qed.

Lemma cmd_map_ext {B} (f g : span -> B) (c : cmd span) : Forall (fun a => f a = g a) (spans c) -> cmd_map f c = cmd_map g c.
Proof.
  induction c as [argv|c IH file mode fd|l IHl r IHr|l IHl r IHr|c IH]; cbn [spans cmd_map]; intros H; try apply Forall_app in H as [H1 H2].
  - f_equal. apply list_fmap_ext. intros i x Hx. by apply (Forall_lookup_1 _ _ _ _ H Hx).
  - rewrite IH by done. rewrite Forall_singleton in H2. by rewrite H2.
  - by rewrite IHl, IHr.
  - by rewrite IHl, IHr.
  - by rewrite IH.
Qed.

(** A character that the words and the literals avoid is not in the text. *)
Definition all_texts (P : cstr -> Prop) (x : texts) : Prop := P (t_line x) /\ P (t_back x) /\ P (t_pipe x) /\ P (t_unit x).

Lemma show_avoids x c : x ∉ str " ()|&;<>" -> (forall w, word_ok w -> x ∉ w) -> cmd_ok c -> all_texts (fun s => x ∉ s) (show c).
Proof.
  intros Hx Hw. assert (Hlit : forall l : cstr, l ⊆ str " ()|&;<>" -> x ∉ l) by set_solver.
  assert (L1 := Hlit (str "( ") ltac:(set_solver)). assert (L2 := Hlit (str ") ") ltac:(set_solver)). assert (L3 := Hlit (str "| ") ltac:(set_solver)).
  assert (L4 := Hlit (str "& ") ltac:(set_solver)). assert (L5 := Hlit (str "; ") ltac:(set_solver)). assert (L6 := Hlit (str "< ") ltac:(set_solver)).
  assert (L7 := Hlit (str "> ") ltac:(set_solver)). assert (L8 := Hlit (str ">> ") ltac:(set_solver)). assert (L9 := Hlit (str " ") ltac:(set_solver)).
  assert (Hb : forall s, x ∉ s -> x ∉ block s) by (intros s H; unfold block; rewrite !elem_of_app; tauto).
  assert (Hsw : forall w, word_ok w -> x ∉ show_word w) by (intros w Hok; unfold show_word; rewrite elem_of_app; specialize (Hw w Hok); tauto).
  unfold all_texts. induction c as [argv|c IH file mode fd|l IHl r IHr|l IHl r IHr|c IH]; cbn [cmd_ok show t_line t_back t_pipe t_unit].
  - intros [Ha _]. assert (H : x ∉ argv ≫= show_word); [|done]. intros (w & Hin & Hi)%list_elem_of_bind.
    rewrite Forall_forall in Ha. by apply (Hsw w (Ha w Hi)).
  - intros [Hc [Hf _]]. destruct (IH Hc) as (_ & _ & _ & Hu). pose proof (Hsw _ Hf) as Hs.
    assert (H : x ∉ t_unit (show c) ++ show_redir (file, mode, fd)); [|done].
    unfold show_redir. rewrite !elem_of_app. cbn [fst snd] in *. destruct (fd =? 0)%Z, (Z.testbit mode 10); tauto.
  - intros [Hl Hr]. destruct (IHl Hl) as (_ & _ & _ & Hu), (IHr Hr) as (_ & _ & Hp & _).
    assert (H : x ∉ t_unit (show l) ++ str "| " ++ t_pipe (show r)) by (rewrite !elem_of_app; tauto). auto.
  - intros [Hl Hr]. destruct (IHl Hl) as (_ & Hb2 & _ & _), (IHr Hr) as (Hp & _).
    assert (H : x ∉ t_back (show l) ++ str "; " ++ t_line (show r)) by (rewrite !elem_of_app; tauto). auto.
  - intros Hc. destruct (IH Hc) as (_ & Hb2 & _). assert (H : x ∉ t_back (show c) ++ str "& ") by (rewrite !elem_of_app; tauto). auto.
Qed.

Lemma show_no_nul c : cmd_ok c -> NUL ∉ t_line (show c).
Proof. intros H. apply (show_avoids NUL c); [by apply (bool_decide_eq_false_1 _) | by intros w (_ & _ & Hn) | done]. Qed.

(** Nor does it hold a blank other than the spaces between words, or start with one. *)
Lemma show_no_blank x c : x <> " "%char -> strchr whitespace x = true -> cmd_ok c -> x ∉ t_line (show c).
Proof.
  intros Hne Hx H. apply (show_avoids x c); [| |done].
  - intros Hin. clear H. repeat (apply elem_of_cons in Hin as [->|Hin]; [congruence || done|]). by apply elem_of_nil in Hin.
  - intros w (_ & Hp & _) Hin. rewrite Forall_forall in Hp. destruct (Hp x Hin) as [Hw _]. congruence.
Qed.

Definition starts (s : cstr) : Prop := match s with c :: _ => strchr whitespace c = false | [] => True end.

Lemma starts_app a b : starts a -> starts b -> starts (a ++ b).
Proof. by destruct a. Qed.

Lemma show_word_starts w : word_ok w -> starts (show_word w).
Proof. intros (Hne & Hp & _). destruct w as [|c w]; [done|]. apply Forall_cons in Hp as [[Hc _] _]. done. Qed.

Lemma show_starts c : cmd_ok c -> all_texts starts (show c).
Proof.
  unfold all_texts. induction c as [argv|c IH file mode fd|l IHl r IHr|l IHl r IHr|c IH]; cbn [cmd_ok show t_line t_back t_pipe t_unit].
  - intros [Ha _]. assert (H : starts (argv ≫= show_word)); [|done]. destruct argv as [|w argv]; [done|]. apply Forall_cons in Ha as [Hw _].
    pose proof (show_word_starts w Hw) as Hs. destruct w as [|a w]; [by destruct Hw|]. done.
  - intros [Hc _]. destruct (IH Hc) as (_ & _ & _ & Hu). assert (H : starts (t_unit (show c) ++ show_redir (file, mode, fd))); [|done].
    apply starts_app; [done|]. unfold show_redir. cbn [fst snd]. by destruct (fd =? 0)%Z, (Z.testbit mode 10).
  - intros [Hl _]. destruct (IHl Hl) as (_ & _ & _ & Hu). split_and!; try done; by apply starts_app.
  - intros [Hl _]. destruct (IHl Hl) as (_ & Hu & _ & _). split_and!; try done; by apply starts_app.
  - intros Hc. destruct (IH Hc) as (_ & Hu & _ & _). split_and!; try done; by apply starts_app.
Qed.

(** Whatever string is parsed, the arguments of the command are, in the
    buffer it leaves, the words of the text. *)
Lemma parsecmd_args s r b ps : NUL ∉ s -> parsecmd s = POk (r, b) ps ->
  cmd_map (arg_at (length s) b) r = cmd_map word r.
Proof.
  intros Hn E. unfold parsecmd in E. pose proof (proj1 (parse_inside s (enough s)) s ltac:(done)) as Hin.
  destruct (parseline (enough s) s) as [c ps0|m|]; [|done..]. cbn [pbind peek] in E. destruct (bool_decide _); [|done]. injection E as <- <- <-.
  apply cmd_map_ext. apply nulterminate_args; [done | apply Hin].
Qed.

(** The text of a command, with blanks after it, is read back. *)
Lemma parse_text c s : cmd_ok c -> skip s = [] -> NUL ∉ s -> let text := t_line (show c) ++ s in
  exists r b, parsecmd text = POk (r, b) [] /\ cmd_map (arg_at (length text) b) r = c.
Proof.
  intros Hc Hs Hn text. destruct (show_reads c Hc) as (_ & _ & _ & L).
  destruct (L s) as (f & r & E & Em); [by unfold stops; rewrite Hs|]. fold text in E. rewrite Hs in E. apply line_enough in E.
  assert (Ep : parsecmd text = POk (r, nulterminate (length text) r (text ++ [NUL])) []) by (unfold parsecmd; by rewrite E).
  exists r, (nulterminate (length text) r (text ++ [NUL])). split; [done|]. rewrite (parsecmd_args text r _ []); [done | | done].
  unfold text. rewrite elem_of_app. intros [?|?]; [|done]. by apply (show_no_nul c Hc).
Qed.

(** C19: A command printed as a line of text is read back by the shell: parsing
    ends without complaint and without leftovers, and the command has the
    same shape (lists, pipes, background jobs, blocks and redirections in
    their order), with each argument and file name, as the program sees it in
    the buffer that [nulterminate] has cut, equal to the one printed. *)
Theorem sh_parse_roundtrip c : cmd_ok c ->
  exists r b, parsecmd (t_line (show c)) = POk (r, b) [] /\ cmd_map (arg_at (length (t_line (show c))) b) r = c.
Proof. intros Hc. pose proof (parse_text c [] Hc eq_refl) as H. rewrite app_nil_r in H. apply H. by apply not_elem_of_nil. Qed.

Lemma word_ok_check w :
  bool_decide (w <> []) && forallb (fun a => negb (strchr whitespace a) && negb (strchr symbols a) && negb (ceq a NUL)) w = true -> word_ok w.
Proof.
  intros [Hne%bool_decide_eq_true Hall]%andb_true_iff. rewrite forallb_forall in Hall.
  assert (Hc : forall a, a ∈ w -> plain a /\ a <> NUL).
  { intros a Ha%list_elem_of_In%Hall. apply andb_true_iff in Ha as [[H1 H2]%andb_true_iff H3]. apply negb_true_iff in H1, H2, H3.
    split; [done|]. intros ->. done. }
  split_and!; [done | apply Forall_forall; intros a Ha; by apply Hc | intros Hn; by apply (Hc NUL)].
Qed.

Lemma sh_parse_roundtrip_witness :
  let c := Seq (Back (Pipe (Redir (Exec [str "cat"]) (str "in") O_RDONLY 0) (Pipe (Seq (Exec [str "a"]) (Exec [])) (Exec [str "wc"; str "-l"])))) (Exec [str "ls"]) in
  t_line (show c) = str "cat < in | ( a ; ) | wc -l & ; ls " /\
  exists r b, parsecmd (t_line (show c)) = POk (r, b) [] /\ cmd_map (arg_at (length (t_line (show c))) b) r = c.
Proof.
  intros c. split; [reflexivity|]. apply sh_parse_roundtrip. unfold c. cbn [cmd_ok].
  unfold MAXARGS, redir_ok. cbn [fst snd length]. repeat (split || lia || (apply word_ok_check; reflexivity) || apply Forall_nil || apply Forall_cons). by left.
Defined.
