(* ===== verification/Shrun.v ===== *)
(** * The shell of xv6: running commands (xv6/user/sh.c)

    What [runcmd] does with a parsed command, as the tree of processes it
    forks: each process closes, opens and duplicates descriptors of its own
    table, forks, waits, runs a program or exits.  Descriptors are allocated
    lowest first, as the kernel does.  [main] reads lines and runs them. *)
From S2P Require Import Prelude Shell.
Local Open Scope nat_scope.

(** What a descriptor stands for; a pipe is named after the process that made it. *)
Inductive chan := Console | File (file : cstr) (mode : Z) | PipeR (id : list nat) | PipeW (id : list nat).
Notation fds := (list (option chan)).

(** ** System calls on a descriptor table *)
Definition is_free (o : option chan) : bool := match o with None => true | Some _ => false end.

Definition alloc (ch : chan) (t : fds) : option (nat * fds) :=
  match find_index is_free t with Some fd => Some (fd, <[fd := Some ch]> t) | None => None end.

Definition close (fd : nat) (t : fds) : fds := <[fd := None]> t.

Definition dup (fd : nat) (t : fds) : fds :=
  match t !! fd with
  | Some (Some ch) => match alloc ch t with Some (_, t') => t' | None => t end
  | _ => t
  end.

Definition pipe (id : list nat) (t : fds) : option (nat * nat * fds) :=
  match alloc (PipeR id) t with
  | None => None
  | Some (p0, t1) => match alloc (PipeW id) t1 with None => None | Some (p1, t2) => Some (p0, p1, t2) end
  end.

(** ** Running *)

(** What a process does, in order.  [Run] is the program it becomes. *)
Inductive act :=
  | Run (argv : list cstr) (t : fds)
  | Msg (s : cstr)
  | Fork (child : list act)
  | Wait (t : fds)
  | Exit (status : Z).

Definition panic (s : cstr) : list act := [Msg (s ++ [LF]); Exit 1].

Section Run.
Context (exec_ok : cstr -> bool) (open_ok : cstr -> Z -> bool) (fork_ok : list nat -> bool).

(** [p] names the process and [k] counts the children it has forked. *)
Fixpoint runcmd (c : cmd cstr) (p : list nat) (k : nat) (t : fds) : list act :=
  match c with
  | Exec [] => [Exit 1]
  | Exec ((a0 :: _) as argv) =>
      if exec_ok a0 then [Run argv t] else [Msg (str "exec " ++ a0 ++ str " failed" ++ [LF]); Exit 0]
  | Redir c file mode fd =>
      match (if open_ok file mode then alloc (File file mode) (close (Z.to_nat fd) t) else None) with
      | Some (_, t1) => runcmd c p k t1
      | None => [Msg (str "open " ++ file ++ str " failed" ++ [LF]); Exit 1]
      end
  | Seq l r =>
      if fork_ok (p ++ [k]) then Fork (runcmd l (p ++ [k]) 0 t) :: Wait t :: runcmd r p (S k) t
      else panic (str "fork")
  | Pipe l r =>
      match pipe p t with
      | None => panic (str "pipe")
      | Some (p0, p1, t1) =>
          if fork_ok (p ++ [k]) then
            Fork (runcmd l (p ++ [k]) 0 (close p1 (close p0 (dup p1 (close 1 t1))))) ::
            if fork_ok (p ++ [S k]) then
              Fork (runcmd r (p ++ [S k]) 0 (close p1 (close p0 (dup p0 (close 0 t1))))) ::
              let t2 := close p1 (close p0 t1) in [Wait t2; Wait t2; Exit 0]
            else panic (str "fork")
          else panic (str "fork")
      end
  | Back c =>
      if fork_ok (p ++ [k]) then [Fork (runcmd c (p ++ [k]) 0 t); Exit 0] else panic (str "fork")
  end.

(** ** Reading lines *)

(** [gets(buf, n + 1)]: the line read, and the input that is left. *)
Fixpoint gets (n : nat) (input : cstr) : cstr * cstr :=
  match n with
  | O => ([], input)
  | S n' =>
      match input with
      | [] => ([], [])
      | c :: rest =>
          if ceq c LF || ceq c CR then ([c], rest)
          else let '(l, r) := gets n' rest in (c :: l, r)
      end
  end.

(** [sizeof(buf)] *)
Definition NBUF : nat := 100.

(** The string the buffer holds, or the end of the input. *)
Definition getcmd (input : cstr) : option cstr * cstr :=
  let '(l, r) := gets (NBUF - 1) input in
  match cstring l with [] => (None, r) | s => (Some s, r) end.

Inductive mact :=
  | Prompt (* write(2, "$ ", 2) *)
  | Chdir (dir : cstr)
  | Say (s : cstr)
  | Spawn (child : list act)
  | Reap
  | Quit (status : Z).

Fixpoint lead (s : cstr) : cstr := match s with c :: s' => if ceq c " " || ceq c TAB then lead s' else s | [] => [] end.

(** The child: [runcmd(parsecmd(cmd))]. *)
Definition child (s : cstr) (p : list nat) (t : fds) : list act :=
  match parsecmd s with
  | POk (c, b) _ => runcmd (cmd_map (arg_at (length s) b) c) p 0 t
  | PPanic m => panic m
  | PFuel => []
  end.

Context (chdir_ok : cstr -> bool).

(** One turn of the loop: what the shell does, and whether a child was forked. *)
Definition turn (buf : cstr) (k : nat) (t : fds) : list mact * bool :=
  let cmd := lead buf in
  if match cmd with c :: _ => ceq c LF | [] => false end then ([], false)
  else if bool_decide (take 3 cmd = str "cd ") then
    let dir := drop 3 (take (length cmd - 1) cmd) in
    (Chdir dir :: if chdir_ok dir then [] else [Say (str "cannot cd " ++ dir ++ [LF])], false)
  else if fork_ok [k] then ([Spawn (child cmd [k] t); Reap], true)
  else ([Say (str "fork" ++ [LF]); Quit 1], true).

Fixpoint sh_loop (fuel k : nat) (input : cstr) (t : fds) : option (list mact) :=
  match fuel with
  | O => None
  | S fuel' =>
      match getcmd input with
      | (None, _) => Some [Prompt; Quit 0]
      | (Some buf, rest) =>
          let '(acts, forked) := turn buf k t in
          if forked && negb (fork_ok [k]) then Some (Prompt :: acts)
          else
            acts' ← sh_loop fuel' (if forked then S k else k) rest t;
            Some (Prompt :: acts ++ acts')
      end
  end.

(** [while((fd = open("console", O_RDWR)) >= 0)]: at most one turn for each
    descriptor. *)
Context (console : bool).

Fixpoint open_std (fuel : nat) (t : fds) : fds :=
  match fuel with
  | O => t
  | S fuel' =>
      match (if console then alloc Console t else None) with
      | Some (fd, t1) => if 3 <=? fd then close fd t1 else open_std fuel' t1
      | None => t
      end
  end.

Definition sh_main (input : cstr) (t : fds) : option (list mact) :=
  sh_loop (S (length input)) 0 input (open_std (S (length t)) t).
End Run.

(** ** What a command means

    The same tree, with the tables given at once: a redirection replaces its
    descriptor, a pipe connects the output of one side to the input of the
    other, and nobody holds an end of a pipe that is not its own.  A program
    that cannot be run, a file that cannot be opened and a fork that fails
    end the process with a message. *)
Section Spec.
Context (exec_ok : cstr -> bool) (open_ok : cstr -> Z -> bool) (fork_ok : list nat -> bool).

Definition dies (m : cstr) (status : Z) : list act := [Msg (m ++ [LF]); Exit status].

Fixpoint meaning (c : cmd cstr) (p : list nat) (k : nat) (t : fds) : list act :=
  match c with
  | Exec [] => [Exit 1]
  | Exec ((a0 :: _) as argv) => if exec_ok a0 then [Run argv t] else dies (str "exec " ++ a0 ++ str " failed") 0
  | Redir c file mode fd =>
      if open_ok file mode then meaning c p k (<[Z.to_nat fd := Some (File file mode)]> t)
      else dies (str "open " ++ file ++ str " failed") 1
  | Seq l r =>
      if fork_ok (p ++ [k]) then Fork (meaning l (p ++ [k]) 0 t) :: Wait t :: meaning r p (S k) t else dies (str "fork") 1
  | Pipe l r =>
      if fork_ok (p ++ [k]) then
        Fork (meaning l (p ++ [k]) 0 (<[1 := Some (PipeW p)]> t)) ::
        if fork_ok (p ++ [S k]) then
          [Fork (meaning r (p ++ [S k]) 0 (<[0 := Some (PipeR p)]> t)); Wait t; Wait t; Exit 0]
        else dies (str "fork") 1
      else dies (str "fork") 1
  | Back c => if fork_ok (p ++ [k]) then [Fork (meaning c (p ++ [k]) 0 t); Exit 0] else dies (str "fork") 1
  end.
End Spec.

(** The standard descriptors are open and two more are free. *)
Definition taken (t : fds) (i : nat) : Prop := exists ch, t !! i = Some (Some ch).
Definition ready (t : fds) : Prop :=
  taken t 0 /\ taken t 1 /\ taken t 2 /\ exists i j, i < j /\ t !! i = Some None /\ t !! j = Some None.

Lemma alloc_at ch t fd : (forall i, i < fd -> taken t i) -> t !! fd = Some None -> alloc ch t = Some (fd, <[fd := Some ch]> t).
Proof.
  intros Hb Hf. unfold alloc. destruct (find_index is_free t) as [i|] eqn:E.
  - apply find_index_Some in E as [(x & Hx & Hfree) Hmin]. assert (i = fd) as ->; [|done].
    destruct (Nat.lt_trichotomy i fd) as [Hlt|[->|Hlt]]; [|done|].
    + destruct (Hb i Hlt) as [ch' Hc]. rewrite Hc in Hx. by injection Hx as <-.
    + by specialize (Hmin fd _ Hlt Hf).
  - rewrite find_index_None in E. by specialize (E _ (list_elem_of_lookup_2 _ _ _ Hf)).
Qed.

Lemma taken_insert t i j ch : taken t i -> taken (<[j := Some ch]> t) i.
Proof.
  intros [ch' H]. unfold taken. destruct (decide (i = j)) as [->|Hne]; [|rewrite list_lookup_insert_ne by done; by exists ch'].
  exists ch. apply list_lookup_insert_eq. by apply (lookup_lt_Some _ _ (Some ch')).
Qed.

Lemma taken_close t i j : i <> j -> taken t i -> taken (close j t) i.
Proof. intros Hne [ch H]. exists ch. unfold close. by rewrite list_lookup_insert_ne. Qed.

Lemma ready_insert t i ch : i < 3 -> ready t -> ready (<[i := Some ch]> t).
Proof.
  intros Hi (H0 & H1 & H2 & a & b & Hab & Ha & Hb). assert (Hge : forall x, t !! x = Some None -> i <> x).
  { intros x Hx ->. destruct x as [|[|[|x]]]; [destruct H0 as [ch' E] | destruct H1 as [ch' E] | destruct H2 as [ch' E] | lia]; congruence. }
  split_and!; [by apply taken_insert.. | exists a, b; split_and!; [done | ..]; rewrite list_lookup_insert_ne by auto; done].
Qed.

(** The two lowest free descriptors. *)
Lemma ready_pipe t p : ready t -> exists i j, 2 < i < j /\ t !! i = Some None /\ t !! j = Some None /\
  pipe p t = Some (i, j, <[j := Some (PipeW p)]> (<[i := Some (PipeR p)]> t)).
Proof.
  intros (H0 & H1 & H2 & a & b & Hab & Ha & Hb). unfold pipe.
  assert (Hlow : forall x t', (forall y, y < 3 -> taken t' y) -> t' !! x = Some None -> 2 < x).
  { intros x t' Ht Hx. destruct (decide (2 < x)); [done|]. destruct (Ht x ltac:(lia)) as [ch E]. congruence. }
  assert (Halloc : forall t' x ch, t' !! x = Some None -> exists fd, alloc ch t' = Some (fd, <[fd := Some ch]> t') /\ fd <= x /\ t' !! fd = Some None /\
    forall y, y < fd -> t' !! y <> Some None).
  { intros t' x ch Hx. unfold alloc. destruct (find_index is_free t') as [fd|] eqn:E; [|rewrite find_index_None in E; by specialize (E _ (list_elem_of_lookup_2 _ _ _ Hx))].
    exists fd. apply find_index_Some in E as [([c|] & Hc & Hfree) Hmin]; [done|]. split_and!; [done | | done |].
    - destruct (decide (fd <= x)); [done|]. by specialize (Hmin x _ ltac:(lia) Hx).
    - intros y Hy E. by specialize (Hmin y _ Hy E). }
  destruct (Halloc t a (PipeR p) Ha) as (i & E1 & Hia & Hi & Hmin). rewrite E1.
  assert (Hb' : <[i := Some (PipeR p)]> t !! b = Some None) by (by rewrite list_lookup_insert_ne by lia).
  destruct (Halloc _ b (PipeW p) Hb') as (j & E2 & _ & Hj & _). rewrite E2.
  assert (Hij : i <> j) by (intros ->; rewrite list_lookup_insert_eq in Hj; [done | by apply (lookup_lt_Some _ _ None)]).
  rewrite list_lookup_insert_ne in Hj by done. exists i, j. split_and!; [| | done..].
  - apply (Hlow i t); [|done]. intros y Hy. destruct y as [|[|[|y]]]; done || lia.
  - destruct (decide (i < j)); [done|]. by specialize (Hmin j ltac:(lia)).
Qed.

(** One side of a pipe: its end takes the standard descriptor, the others go. *)
Lemma side_table t i j fd ch1 ch2 : 2 < i < j -> t !! i = Some None -> t !! j = Some None -> fd < 3 -> (forall x, x < fd -> taken t x) -> taken t fd ->
  let t1 := <[j := Some ch2]> (<[i := Some ch1]> t) in
  close j (close i (dup j (close fd t1))) = <[fd := Some ch2]> t /\ close j (close i (dup i (close fd t1))) = <[fd := Some ch1]> t /\
  close j (close i t1) = t.
Proof.
  intros Hij Hi Hj Hfd Hlow [ch Hch] t1. pose proof (lookup_lt_Some _ _ _ Hi) as Li. pose proof (lookup_lt_Some _ _ _ Hj) as Lj.
  pose proof (lookup_lt_Some _ _ _ Hch) as Lf.
  assert (Hback : forall t', (forall x, x <> i -> x <> j -> t' !! x = t !! x) -> length t' = length t -> close j (close i t') = t).
  { intros t' Ht Hl. apply list_eq. intros x. unfold close. destruct (decide (x = j)) as [->|Hxj].
    - rewrite list_lookup_insert_eq; [done|]. rewrite length_insert. lia.
    - rewrite list_lookup_insert_ne by done. destruct (decide (x = i)) as [->|Hxi]; [rewrite list_lookup_insert_eq; [done | lia]|].
      rewrite list_lookup_insert_ne by done. auto. }
  assert (Hal : forall c2, alloc c2 (close fd t1) = Some (fd, <[fd := Some c2]> (close fd t1))).
  { intros c2. apply alloc_at; [intros x Hx; apply taken_close; [lia|]; by do 2 apply taken_insert; apply Hlow|].
    unfold close. apply list_lookup_insert_eq. unfold t1. rewrite !length_insert. lia. }
  assert (Hlj : close fd t1 !! j = Some (Some ch2)).
  { unfold close, t1. rewrite list_lookup_insert_ne by lia. apply list_lookup_insert_eq. rewrite length_insert. lia. }
  assert (Hli : close fd t1 !! i = Some (Some ch1)).
  { unfold close, t1. rewrite list_lookup_insert_ne, list_lookup_insert_ne by lia. apply list_lookup_insert_eq. lia. }
  assert (Hside : forall c2, close j (close i (<[fd := Some c2]> (close fd t1))) = <[fd := Some c2]> t).
  { intros c2. unfold close at 3. rewrite list_insert_insert_eq. unfold close, t1.
    rewrite !(list_insert_insert_ne _ _ fd) by lia. f_equal. apply (Hback (<[j:=Some ch2]> (<[i:=Some ch1]> t))); [|by rewrite !length_insert].
    intros x Hxi Hxj. by rewrite !list_lookup_insert_ne. }
  split_and!.
  - unfold dup. by rewrite Hlj, Hal.
  - unfold dup. by rewrite Hli, Hal.
  - apply Hback; [|unfold t1; by rewrite !length_insert]. intros x Hxi Hxj. unfold t1. by rewrite !list_lookup_insert_ne.
Qed.

Lemma redir_table t fd ch : ready t -> fd < 2 -> alloc ch (close fd t) = Some (fd, <[fd := Some ch]> t).
Proof.
  intros (H0 & H1 & _) Hfd. assert (Ht : taken t fd) by (destruct fd as [|[|fd]]; [done..|lia]). destruct Ht as [c0 Hc].
  rewrite (alloc_at ch (close fd t) fd).
  - unfold close. by rewrite list_insert_insert_eq.
  - intros i Hi. apply taken_close; [lia|]. destruct i; [done|lia].
  - unfold close. apply list_lookup_insert_eq. by apply (lookup_lt_Some _ _ (Some c0)).
Qed.

Lemma runcmd_meaning exec_ok open_ok fork_ok c : cmd_ok c -> forall p k t, ready t ->
  runcmd exec_ok open_ok fork_ok c p k t = meaning exec_ok open_ok fork_ok c p k t.
Proof.
  induction c as [argv|c IH file mode fd|l IHl r IHr|l IHl r IHr|c IH]; cbn [cmd_ok runcmd meaning].
  - intros _ p k t _. destruct argv as [|a0 argv]; [done|]. destruct (exec_ok a0); [done|]. unfold dies. by rewrite <- !app_assoc.
  - intros [Hc [_ Hm]] p k t Ht. assert (Hfd : Z.to_nat fd < 2) by (destruct Hm as [[= _ ->]|[[= _ ->]|[= _ ->]]]; simpl; lia).
    destruct (open_ok file mode); [|unfold dies; by rewrite <- !app_assoc].
    rewrite redir_table by done. apply IH; [done|]. apply ready_insert; [lia | done].
  - intros [Hl Hr] p k t Ht. destruct (ready_pipe t p Ht) as (i & j & Hij & Hi & Hj & E). rewrite E. assert (Ht0 := Ht). destruct Ht0 as (H0 & H1 & H2 & _).
    destruct (side_table t i j 1 (PipeR p) (PipeW p)) as (E1 & _ & _); [done | done | done | lia | intros x Hx; by replace x with 0 by lia | done|].
    destruct (side_table t i j 0 (PipeR p) (PipeW p)) as (_ & E2 & E3); [done | done | done | lia | intros; lia | done|].
    cbv zeta in E1, E2, E3. rewrite E1, E2, E3. rewrite IHl, IHr; [done | done | by apply ready_insert; [lia|] | done | by apply ready_insert; [lia|]].
  - intros [Hl Hr] p k t Ht. by rewrite IHl, IHr.
  - intros Hc p k t Ht. by rewrite IH.
Qed.

(** ** Lines of input *)
(** A blank line, a change of directory, a command printed as text, or a text
    that does not parse. *)
Inductive line := Blank (s : cstr) | Cd (dir : cstr) | Cmd (c : cmd cstr) | Bad (s m : cstr).

Definition line_text (l : line) : cstr :=
  match l with Blank s => s | Cd dir => str "cd " ++ dir | Cmd c => t_line (show c) | Bad s _ => s end.
Definition show_line (l : line) : cstr := line_text l ++ [LF].

Definition no_end (s : cstr) : Prop := NUL ∉ s /\ LF ∉ s /\ CR ∉ s.

Definition line_ok (l : line) : Prop := length (show_line l) < NBUF /\
  match l with
  | Blank s => Forall (fun c => c = " "%char \/ c = TAB) s
  | Cd dir => no_end dir
  | Cmd c => cmd_ok c /\ t_line (show c) <> [] /\ take 3 (t_line (show c)) <> str "cd "
  | Bad s m => no_end s /\ s <> [] /\ starts s /\ take 3 s <> str "cd " /\ parsecmd (s ++ [LF]) = PPanic m
  end.

(** What the shell does with its lines: [k] counts the children so far. *)
Section Lines.
Context (exec_ok : cstr -> bool) (open_ok : cstr -> Z -> bool) (fork_ok : list nat -> bool) (chdir_ok : cstr -> bool).

Definition child_of (l : line) (k : nat) (t : fds) : option (list act) :=
  match l with
  | Cmd c => Some (meaning exec_ok open_ok fork_ok c [k] 0 t)
  | Bad _ m => Some (dies m 1)
  | _ => None
  end.

Fixpoint session (ls : list line) (k : nat) (t : fds) : list mact :=
  match ls with
  | [] => [Prompt; Quit 0]
  | l :: ls' =>
      Prompt ::
      match child_of l k t with
      | Some acts =>
          if fork_ok [k] then Spawn acts :: Reap :: session ls' (S k) t else [Say (str "fork" ++ [LF]); Quit 1]
      | None =>
          match l with
          | Cd dir => Chdir dir :: if chdir_ok dir then [] else [Say (str "cannot cd " ++ dir ++ [LF])]
          | _ => []
          end ++ session ls' k t
      end
  end.
End Lines.

Lemma line_no_end l : line_ok l -> no_end (line_text l).
Proof.
  intros [_ Hl]. destruct l as [s|dir|c|s m]; simpl.
  - assert (H : forall c, c <> " "%char -> c <> TAB -> c ∉ s) by (intros c H1 H2 Hc; rewrite Forall_forall in Hl; destruct (Hl c Hc); done).
    split_and!; apply H; done.
  - destruct Hl as (H1 & H2 & H3). change (no_end (str "cd " ++ dir)).
    unfold no_end. rewrite !elem_of_app. split_and!; intros [Hx|Hx]; try done; by apply (bool_decide_eq_true_2 _) in Hx.
  - destruct Hl as (Hc & Hne & _). split_and!; [by apply show_no_nul | by apply show_no_blank | by apply show_no_blank].
  - apply Hl.
Qed.

Lemma gets_line n s rest : no_end s -> length s < n -> gets n (s ++ [LF] ++ rest) = (s ++ [LF], rest).
Proof.
  intros (Hn & Hl & Hr). revert n. induction s as [|c s IH]; intros [|n] Hlen; simpl in Hlen; try lia; [done|]. simpl.
  rewrite (ceq_neq c LF), (ceq_neq c CR) by set_solver. simpl. rewrite not_elem_of_cons in Hn, Hl, Hr.
  change (LF :: rest) with ([LF] ++ rest). rewrite IH; [done | tauto.. | lia].
Qed.

Lemma cstring_all s : NUL ∉ s -> cstring s = s.
Proof. induction s as [|c s IH]; [done|]. intros H. simpl. rewrite ceq_neq by set_solver. f_equal. apply IH. set_solver. Qed.

Lemma getcmd_line l rest : line_ok l -> getcmd (show_line l ++ rest) = (Some (show_line l), rest).
Proof.
  intros Hl. pose proof (line_no_end l Hl) as Hs. destruct Hl as [Hlen _]. unfold getcmd, show_line in *. rewrite <- app_assoc.
  rewrite gets_line; [|done | rewrite length_app in Hlen; simpl in Hlen; lia].
  rewrite cstring_all by (rewrite elem_of_app; intros [?|?%list_elem_of_singleton]; [by destruct Hs | done]). by destruct (line_text l).
Qed.

Lemma lead_starts s : starts s -> lead s = s.
Proof.
  destruct s as [|c s]; [done|]. simpl. intros H. destruct (ceq_spec c " ") as [->|_]; [done|]. by destruct (ceq_spec c TAB) as [->|_].
Qed.

Lemma starts_not_lf c s : starts (c :: s) -> ceq c LF = false.
Proof. intros H. destruct (ceq_spec c LF) as [->|]; [done | done]. Qed.

Lemma lead_blank s : Forall (fun c => c = " "%char \/ c = TAB) s -> lead (s ++ [LF]) = [LF].
Proof. induction 1 as [|c s Hc _ IH]; [done|]. simpl. rewrite IH. by destruct Hc as [->| ->]. Qed.

(** A line of text that is neither blank nor a change of directory. *)
Lemma take_cd s : take 3 s <> str "cd " -> take 3 (s ++ [LF]) <> str "cd ".
Proof. intros H E. apply H. destruct s as [|x [|y [|z s']]]; [done | | | done]; discriminate E. Qed.

Section Session.
Context (exec_ok : cstr -> bool) (open_ok : cstr -> Z -> bool) (fork_ok : list nat -> bool) (chdir_ok : cstr -> bool).
Abbreviation one_turn := (turn exec_ok open_ok fork_ok chdir_ok).

Lemma turn_child s k t : s <> [] -> starts s -> take 3 s <> str "cd " ->
  one_turn (s ++ [LF]) k t =
  if fork_ok [k] then ([Spawn (child exec_ok open_ok fork_ok (s ++ [LF]) [k] t); Reap], true) else ([Say (str "fork" ++ [LF]); Quit 1], true).
Proof.
  intros Hne Hst Hcd. unfold turn. rewrite lead_starts by (by destruct s). rewrite (bool_decide_eq_false_2 _ (take_cd s Hcd)).
  destruct s as [|x s']; [done|]. by rewrite <- app_comm_cons, (starts_not_lf x s').
Qed.

Lemma turn_line l k t : line_ok l -> ready t ->
  one_turn (show_line l) k t =
  match child_of exec_ok open_ok fork_ok l k t with
  | Some acts => if fork_ok [k] then ([Spawn acts; Reap], true) else ([Say (str "fork" ++ [LF]); Quit 1], true)
  | None => (match l with Cd dir => Chdir dir :: if chdir_ok dir then [] else [Say (str "cannot cd " ++ dir ++ [LF])] | _ => [] end, false)
  end.
Proof.
  intros [_ Hl] Ht. unfold show_line. destruct l as [s|dir|c|s m]; cbn [child_of line_text].
  - unfold turn. by rewrite lead_blank.
  - unfold turn. rewrite lead_starts by done. change (bool_decide (take 3 ((str "cd " ++ dir) ++ [LF]) = str "cd ")) with true.
    cbv iota beta zeta. assert (Ed : drop 3 (take (length ((str "cd " ++ dir) ++ [LF]) - 1) ((str "cd " ++ dir) ++ [LF])) = dir).
    { rewrite length_app, Nat.add_sub, take_app_length. done. }
    by rewrite Ed.
  - destruct Hl as (Hc & Hne & Hcd). rewrite turn_child; [|done | apply (show_starts c Hc) | done].
    unfold child. destruct (parse_text c [LF] Hc) as (r & b & Ep & Em); [done | by apply (bool_decide_eq_false_1 _)|].
    rewrite Ep, Em. by rewrite runcmd_meaning.
  - destruct Hl as (_ & Hne & Hst & Hcd & Hp). rewrite turn_child by done. unfold child. by rewrite Hp.
Qed.

Lemma sh_loop_session ls : Forall line_ok ls -> forall fuel k t, ready t -> length ls < fuel ->
  sh_loop exec_ok open_ok fork_ok chdir_ok fuel k (ls ≫= show_line) t = Some (session exec_ok open_ok fork_ok chdir_ok ls k t).
Proof.
  intros Hok. induction ls as [|l ls IH]; intros [|fuel] k t Ht Hf; try lia; [done|].
  apply Forall_cons in Hok as [Hl Hok]. cbn [sh_loop session].
  change ((l :: ls) ≫= show_line) with (show_line l ++ (ls ≫= show_line)). rewrite getcmd_line, turn_line by done.
  assert (Hrest : forall k', sh_loop exec_ok open_ok fork_ok chdir_ok fuel k' (ls ≫= show_line) t =
    Some (session exec_ok open_ok fork_ok chdir_ok ls k' t)) by (intros k'; apply IH; [done | done | simpl in Hf; lia]).
  destruct (child_of exec_ok open_ok fork_ok l k t) as [acts|].
  - destruct (fork_ok [k]) eqn:Ef; cbn [andb negb]; rewrite ?Ef; [|done]. cbn [negb]. by rewrite Hrest.
  - cbn [andb]. by rewrite Hrest.
Qed.
End Session.

(** ** The standard descriptors *)

(** A table with two free descriptors besides the first three. *)
Definition roomy (t : fds) : Prop := exists i j, 3 <= i < j /\ t !! i = Some None /\ t !! j = Some None.

(** The console for each of the first three that is closed. *)
Definition filled (t : fds) : fds := ((fun o => Some (default Console o)) <$> take 3 t) ++ drop 3 t.

(** A descriptor past the first three is opened and closed again. *)
Lemma open_std_full fuel a b c t : (exists i, t !! i = Some None) ->
  open_std true (S fuel) (Some a :: Some b :: Some c :: t) = Some a :: Some b :: Some c :: t.
Proof.
  intros [i Hi]. set (T := Some a :: Some b :: Some c :: t).
  destruct (find_index is_free t) as [j|] eqn:E; [|rewrite find_index_None in E; by specialize (E _ (list_elem_of_lookup_2 _ _ _ Hi))].
  assert (ET : find_index is_free T = Some (S (S (S j)))) by (unfold T; simpl; by rewrite E).
  apply find_index_Some in E as [([ch|] & Hj & Hfree) _]; [done|].
  cbn [open_std]. unfold alloc. rewrite ET. change (3 <=? S (S (S j))) with true. cbv iota.
  unfold close. rewrite list_insert_insert_eq. by apply list_insert_id.
Qed.

Lemma open_std_filled t : roomy t -> open_std true (S (length t)) t = filled t /\ ready (filled t).
Proof.
  intros (i & j & Hij & Hi & Hj). destruct t as [|a [|b [|c t]]]; try (apply lookup_lt_Some in Hj; simpl in Hj; lia).
  destruct i as [|[|[|i]]]; try lia. destruct j as [|[|[|j]]]; try lia. simpl in Hi, Hj.
  assert (Hfree : exists i, t !! i = Some None) by eauto. split.
  - assert (Hf : forall n x y z, open_std true (S n) (Some x :: Some y :: Some z :: t) = Some x :: Some y :: Some z :: t)
      by (intros; by apply open_std_full).
    assert (S0 : forall n b c, open_std true (S n) (None :: b :: c :: t) = open_std true n (Some Console :: b :: c :: t)) by done.
    assert (S1 : forall n a c, open_std true (S n) (Some a :: None :: c :: t) = open_std true n (Some a :: Some Console :: c :: t)) by done.
    assert (S2 : forall n a b, open_std true (S n) (Some a :: Some b :: None :: t) = open_std true n (Some a :: Some b :: Some Console :: t)) by done.
    cbn [length]. destruct a as [a|], b as [b|], c as [c|]; rewrite ?S0, ?S1, ?S2; apply Hf.
  - split_and!; [by eexists.. | exists (3 + i), (3 + j); split_and!; [lia | done | done]].
Qed.


(** A directory that does not exist, a program that does not, a syntax error
    and a pipe in the background; descriptor 3 is in use. *)
Definition demo_lines : list line :=
  [Cd (str "d"); Blank (str "  "); Cmd (Exec [str "nosuch"]); Bad (str "(a") (str "syntax - missing )");
   Cmd (Back (Pipe (Redir (Exec [str "cat"]) (str "in") O_RDONLY 0) (Exec [str "wc"])))].

