(* ===== verification/Exec.v ===== *)
(** * Running a program (xv6/kernel/exec.c)

    [kexec] builds a new address space from an ELF file and switches to it,
    or undoes everything.  Files are those of [Path] and [Rw], memory that of
    [Vm]; the transaction around the reading of the file does not show. *)
From S2P Require Import Prelude KString Disk Balloc Inode Content Rw Trunc Itable Dir Path Ram Kalloc Pagetable Vm.
Local Open Scope Z_scope.

Definition ELF_MAGIC : Z := 0x464C457F.
Definition ELF_PROG_LOAD : Z := 1.
Definition MAXARG : nat := 32.
Definition USERSTACK : Z := 1.

(** The fields of the two headers that are used. *)
Record elfhdr := mkElf { magic : Z; entry_pc : Z; phoff : Z; phnum : Z }.
Definition elfhdr_of (bs : list ascii) : elfhdr :=
  mkElf (le (bytes_at 0 4 bs)) (le (bytes_at 24 8 bs)) (le (bytes_at 32 8 bs)) (le (bytes_at 56 2 bs)).
Definition ELF_SIZE : Z := 64.

Record proghdr := mkPh { ptype : Z; pflags : Z; poff : Z; vaddr : Z; filesz : Z; memsz : Z }.
Definition proghdr_of (bs : list ascii) : proghdr :=
  mkPh (le (bytes_at 0 4 bs)) (le (bytes_at 4 4 bs)) (le (bytes_at 8 8 bs)) (le (bytes_at 16 8 bs)) (le (bytes_at 32 8 bs)) (le (bytes_at 40 8 bs)).
Definition PH_SIZE : Z := 56.

(** The process: its page table and size, the page of its trapframe, its name. *)
Record eproc := mkEproc { pagetable : Z; psz : Z; trapframe : Z; pname : cstr }.

(** Offsets in the trapframe. *)
Definition TF_EPC : Z := 24.
Definition TF_SP : Z := 48.
Definition TF_A1 : Z := 120.

Definition flags2perm (flags : Z) : Z :=
  Z.lor (if Z.land flags 1 =? 0 then 0 else PTE_X) (if Z.land flags 2 =? 0 then 0 else PTE_W).

Section Exec.
Context (sb : superblock) (kend trampoline : Z).

Fixpoint loadseg_loop (fuel : nat) (pagetable va offset sz i : Z) (ip : inode) (d : disk) (k : kmem) : option (Z * inode * disk * kmem) :=
  match fuel with
  | O => None
  | S fuel' =>
      if i <? sz then
        pa ← walkaddr pagetable (u64 (va + i)) k;
        if pa =? 0 then None
        else
          let n := if sz - i <? PGSIZE then sz - i else PGSIZE in
          '(r, bs, ip, d) ← readi sb (Z.to_nat n) (u32 (offset + i)) n ip d;
          let k := set_bytes (write pa bs) k in
          if negb (u32 r =? n) then Some (-1, ip, d, k)
          else loadseg_loop fuel' pagetable va offset sz (u32 (i + PGSIZE)) ip d k
      else Some (0, ip, d, k)
  end.

Definition loadseg (pagetable va offset sz : Z) (ip : inode) (d : disk) (k : kmem) : option (Z * inode * disk * kmem) :=
  loadseg_loop (S (Z.to_nat (sz / PGSIZE + 1))) pagetable va offset sz 0 ip d k.

(** One turn of the loop over the program headers: whether it went well, and
    the new size. *)
Definition load_header (pagetable sz off : Z) (ip : inode) (d : disk) (k : kmem) : option (bool * Z * inode * disk * kmem) :=
  '(r, bs, ip, d) ← readi sb (Z.to_nat PH_SIZE) (u32 off) PH_SIZE ip d;
  if negb (r =? PH_SIZE) then Some (false, sz, ip, d, k)
  else
    let ph := proghdr_of bs in
    if negb (ptype ph =? ELF_PROG_LOAD) then Some (true, sz, ip, d, k)
    else if memsz ph <? filesz ph then Some (false, sz, ip, d, k)
    else if u64 (vaddr ph + memsz ph) <? vaddr ph then Some (false, sz, ip, d, k)
    else if negb (vaddr ph mod PGSIZE =? 0) then Some (false, sz, ip, d, k)
    else
      '(sz1, k) ← uvmalloc kend pagetable sz (u64 (vaddr ph + memsz ph)) (flags2perm (pflags ph)) k;
      if sz1 =? 0 then Some (false, sz, ip, d, k)
      else
        '(r, ip, d, k) ← loadseg pagetable (vaddr ph) (u32 (poff ph)) (u32 (filesz ph)) ip d k;
        Some (negb (r <? 0), sz1, ip, d, k).

Fixpoint load_loop (n : nat) (pagetable sz off : Z) (ip : inode) (d : disk) (k : kmem) : option (bool * Z * inode * disk * kmem) :=
  match n with
  | O => Some (true, sz, ip, d, k)
  | S n' =>
      '(ok, sz, ip, d, k) ← load_header pagetable sz off ip d k;
      if ok : bool then load_loop n' pagetable sz (i32 (off + PH_SIZE)) ip d k else Some (false, sz, ip, d, k)
  end.

(** The strings of the arguments: the stack pointer and the addresses. *)
Fixpoint push_args (argv : list cstr) (pagetable sz sp stackbase : Z) (ustack : list Z) (k : kmem) : option (option (Z * list Z) * kmem) :=
  match argv with
  | [] => Some (Some (sp, ustack), k)
  | a :: argv' =>
      let sp := u64 (sp - (Z.of_nat (length a) + 1)) in
      let sp := sp - sp mod 16 in
      if sp <? stackbase then Some (None, k)
      else
        '(r, k) ← copyout kend pagetable sz sp (a ++ [NUL]) k;
        if r <? 0 then Some (None, k) else push_args argv' pagetable sz sp stackbase (ustack ++ [sp]) k
  end.

(** The stack: the final stack pointer, or [None] when something did not fit. *)
Definition push_stack (argv : list cstr) (pagetable sz : Z) (k : kmem) : option (option Z * kmem) :=
  let stackbase := sz - USERSTACK * PGSIZE in
  '(o, k) ← push_args argv pagetable sz sz stackbase [] k;
  match o with
  | None => Some (None, k)
  | Some (sp, ustack) =>
      let sp := u64 (sp - (Z.of_nat (length argv) + 1) * 8) in
      let sp := sp - sp mod 16 in
      if sp <? stackbase then Some (None, k)
      else
        '(r, k) ← copyout kend pagetable sz sp ((ustack ++ [0]) ≫= unle 8) k;
        if r <? 0 then Some (None, k) else Some (Some sp, k)
  end.

(** What follows the last slash. *)
Fixpoint last_elem (last s : cstr) : cstr :=
  match s with [] => last | c :: s' => last_elem (if ceq c "/" then s' else last) s' end.

(** From the loading of the file to the end; [bad] frees the new space. *)
Definition exec_stack (path : cstr) (argv : list cstr) (epc root sz : Z) (p : eproc) (k : kmem) : option (Z * eproc * kmem) :=
  let sz := PGROUNDUP sz in
  '(sz1, k) ← uvmalloc kend root sz (u64 (sz + (USERSTACK + 1) * PGSIZE)) PTE_W k;
  if sz1 =? 0 then k ← proc_freepagetable kend root sz k; Some (-1, p, k)
  else
    k ← uvmclear root (sz1 - (USERSTACK + 1) * PGSIZE) k;
    '(o, k) ← push_stack argv root sz1 k;
    match o with
    | None => k ← proc_freepagetable kend root sz1 k; Some (-1, p, k)
    | Some sp =>
        let tf := trapframe p in
        let k := set_bytes (store64 (tf + TF_A1) sp) k in
        let name := take 15 (last_elem path path) in
        let k := set_bytes (fun m => store64 (tf + TF_SP) sp (store64 (tf + TF_EPC) epc m)) k in
        k ← proc_freepagetable kend (pagetable p) (psz p) k;
        Some (Z.of_nat (length argv), mkEproc root sz1 tf name, k)
    end.

Definition kexec (path : cstr) (argv : list cstr) (cwd : nat) (p : eproc) (s : fsys) (k : kmem) : res (Z * eproc * fsys * kmem) :=
  '(o, s) ← namei sb cwd path s;
  match o with
  | None => Ok (-1, p, s, k)
  | Some i =>
      s ← ilock sb i s;
      '(r, bs, ip, d) ← or_panic (readi sb (Z.to_nat ELF_SIZE) 0 ELF_SIZE (Itable.entry i s) (fdisk s));
      let s := set_disk d (set_entry i ip s) in
      let elf := elfhdr_of bs in
      if negb (r =? ELF_SIZE) || negb (magic elf =? ELF_MAGIC) then s ← iunlockput sb i s; Ok (-1, p, s, k)
      else
        '(root, k) ← or_panic (proc_pagetable kend trampoline (trapframe p) k);
        if root =? 0 then s ← iunlockput sb i s; Ok (-1, p, s, k)
        else
          '(ok, sz, ip, d, k) ← or_panic (load_loop (Z.to_nat (phnum elf)) root 0 (i32 (phoff elf)) (Itable.entry i s) (fdisk s) k);
          let s := set_disk d (set_entry i ip s) in
          if negb ok then
            k ← or_panic (proc_freepagetable kend root sz k);
            s ← iunlockput sb i s;
            Ok (-1, p, s, k)
          else
            s ← iunlockput sb i s;
            '(r, p, k) ← or_panic (exec_stack path argv (entry_pc elf) root sz p k);
            Ok (r, p, s, k)
  end.
End Exec.
