(* ===== verification/Execmem.v ===== *)
(** * Building the memory of a program (xv6/kernel/exec.c)

    What the parts of [kexec] do to the new address space: segments are
    loaded from the file, the stack gets the arguments, and every failure
    gives all pages back. *)
From S2P Require Import Prelude KString Disk Balloc Inode Content Rw Ram Kalloc Pagetable Vm Space Uvm Uvmfree Usercopy Sbrk Exec.
Local Open Scope Z_scope.

(** ** How many pages there are *)
Definition NPAGES : nat := Z.to_nat 32768.

(** Two ranges side by side. *)
Lemma join_ranges {A} (f g h : A) a b c x : a <= b <= c -> (a <= x < b -> h = f) ->
  (if (b <=? x) && (x <? c) then f else if (a <=? x) && (x <? b) then h else g) = if (a <=? x) && (x <? c) then f else g.
Proof.
  intros Hab Hf. destruct (Z.leb_spec b x), (Z.ltb_spec x c), (Z.leb_spec a x), (Z.ltb_spec x b); simpl; try lia; try done. apply Hf. lia.
Qed.

Lemma same_range {A} (f g h : A) a c x : (a <= x < c -> h = f) -> (if (a <=? x) && (x <? c) then h else g) = if (a <=? x) && (x <? c) then f else g.
Proof. intros Hf. destruct (Z.leb_spec a x), (Z.ltb_spec x c); simpl; try done. apply Hf. lia. Qed.

Lemma no_range {A} (f g : A) a c x : c <= a -> (if (a <=? x) && (x <? c) then f else g) = g.
Proof. intros H. destruct (Z.leb_spec a x), (Z.ltb_spec x c); simpl; (done || lia). Qed.

Section Mem.
Context (kend : Z) (Hend : KERNBASE <= kend).
Local Abbreviation page := (page kend).
Local Abbreviation aspace := (aspace kend UVPN).
Local Abbreviation pspace := (pspace kend).
Local Abbreviation data := (data UVPN).

Lemma pages_bound (l : list Z) : Forall page l -> NoDup l -> (length l <= NPAGES)%nat.
Proof.
  intros Hp Hn. assert (Hi : NoDup ((fun p => Z.to_nat ((p - KERNBASE) / PGSIZE)) <$> l)).
  { apply NoDup_fmap_2_strong; [|done]. intros x y Hx Hy E. rewrite Forall_forall in Hp. destruct (Hp x Hx) as [Mx Rx], (Hp y Hy) as [My Ry].
    apply Z2Nat.inj in E; [|apply Z.div_pos; [lia | done]..]. unfold KERNBASE in *. change PGSIZE with 4096 in *.
    pose proof (Z.div_mod x 4096 ltac:(done)). pose proof (Z.div_mod y 4096 ltac:(done)).
    replace (x - 2147483648) with (x + (-524288) * 4096) in E by lia. replace (y - 2147483648) with (y + (-524288) * 4096) in E by lia.
    rewrite !Z.div_add in E by done. lia. }
  assert (Hs : (fun p => Z.to_nat ((p - KERNBASE) / PGSIZE)) <$> l ⊆ seq 0 NPAGES).
  { intros x (p & -> & Hin)%list_elem_of_fmap. apply elem_of_seq. rewrite Forall_forall in Hp. destruct (Hp p Hin) as [_ Hr].
    assert ((p - KERNBASE) / PGSIZE < 32768) by (apply Z.div_lt_upper_bound; [done|]; unfold PHYSTOP, KERNBASE in *; change PGSIZE with 4096; lia).
    pose proof (Z.div_pos (p - KERNBASE) PGSIZE ltac:(lia) ltac:(done)). unfold NPAGES. lia. }
  pose proof (NoDup_submseteq _ _ Hi Hs) as Hsub. apply submseteq_length in Hsub. by rewrite length_fmap, length_seq in Hsub.
Qed.

Lemma space_bound k root t um free rest : aspace k root t um free rest -> (length (tables t ++ data um ++ free) <= NPAGES)%nat.
Proof.
  intros [[Hk Hpt Hr Hn] _ _]. assert (Hperm : tables t ++ free ++ data um ++ rest ≡ₚ (tables t ++ data um ++ free) ++ rest).
  { rewrite <- !app_assoc. apply Permutation_app_head. rewrite (Permutation_app_swap_app free). done. }
  rewrite Hperm in Hn. apply NoDup_app in Hn as (Hn & _ & _). apply pages_bound; [|done].
  apply Forall_app in Hr as [Hd _]. repeat apply Forall_app_2; [apply (pt_pages _ _ _ _ Hpt) | done | apply (k_pages _ _ _ Hk)].
Qed.

(** All pages below the size are mapped for the user, as they are before any
    memory was promised. *)
Definition all_mapped (um : vmap) (sz : Z) : Prop := forall v, 0 <= v < pages_of sz -> exists e, um !! v = Some e /\ has PTE_U e = true.

Lemma mapped_bound k root t um free rest sz : pspace k root t um free rest sz -> all_mapped um sz -> pages_of sz + Z.of_nat (length free) <= Z.of_nat NPAGES.
Proof.
  intros Hps Hf. pose proof (space_bound _ _ _ _ _ _ (ps_space _ _ _ _ _ _ _ _ Hps)) as Hb. rewrite !length_app in Hb.
  pose proof (pages_limit sz ltac:(apply (ps_size _ _ _ _ _ _ _ _ Hps))) as Hl.
  assert (Hsub : pages_of sz <= Z.of_nat (length (data um))); [|lia].
  unfold Space.data. rewrite !length_fmap, length_map_to_list. set (m := filter _ um).
  assert (Hdom : (list_to_set (Z.of_nat <$> seq 0 (Z.to_nat (pages_of sz))) : gset Z) ⊆ dom m).
  { intros v Hv. apply elem_of_list_to_set, list_elem_of_fmap in Hv as (j & -> & Hj%elem_of_seq). apply elem_of_dom.
    destruct (Hf (Z.of_nat j) ltac:(lia)) as (e & He & _). exists e. apply map_lookup_filter_Some. split; [done|]. simpl. lia. }
  apply subseteq_size in Hdom. rewrite size_dom in Hdom. rewrite size_list_to_set in Hdom.
  - rewrite length_fmap, length_seq in Hdom. lia.
  - apply NoDup_fmap_2; [intros x y; lia | apply NoDup_seq].
Qed.

(** ** Growing by any amount *)
Lemma uvmalloc_loop_more root oldsz xperm new1 new2 : 0 < new1 -> new1 <= new2 -> forall n1 n2 a k k', (n1 <= n2)%nat ->
  uvmalloc_loop kend n1 root a oldsz new1 xperm k = Some (0, k') -> uvmalloc_loop kend n2 root a oldsz new2 xperm k = Some (0, k').
Proof.
  intros H0 Hle. induction n1 as [|n1 IH]; intros n2 a k k' Hn; cbn [uvmalloc_loop].
  { destruct (a <? new1); [done | intros [= -> _]; lia]. }
  destruct (Z.ltb_spec a new1); [|intros [= -> _]; lia]. destruct n2 as [|n2]; [lia|]. cbn [uvmalloc_loop]. destruct (Z.ltb_spec a new2); [|lia].
  destruct (kalloc k) as [mem k1]. destruct (mem =? 0); [done|].
  destruct (mappages _ _ _ _ _ _) as [[r k2]|]; [|done]. cbn [mbind option_bind]. destruct (negb (r =? 0)); [done|]. apply IH. lia.
Qed.

Lemma user_flag xperm p : page p -> 0 <= Z.lor (Z.lor PTE_R PTE_U) xperm < 1024 -> has PTE_U (mkpte p (Z.lor (Z.lor PTE_R PTE_U) xperm)) = true.
Proof.
  intros Hp Hx. destruct (page_pa kend Hend p Hp). rewrite has_mkpte by done. unfold has. apply negb_true_iff, Z.eqb_neq. intros E.
  assert (Hb : Z.testbit (Z.land (Z.lor (Z.lor (Z.lor PTE_R PTE_U) xperm) PTE_V) PTE_U) 4 = false) by (by rewrite E).
  rewrite Z.land_spec, !Z.lor_spec in Hb. change (Z.testbit PTE_U 4) with true in Hb. by rewrite orb_true_r in Hb.
Qed.

(** The space after a growth to [sz']. *)
Record grew (root : Z) (rest : list Z) (k : kmem) (t : tree) (um : vmap) (free : list Z) (sz : Z)
    (k' : kmem) (t' : tree) (um' : vmap) (free' : list Z) (sz' : Z) : Prop := mkGrew {
  gr_space : pspace k' root t' um' free' rest sz';
  gr_mapped : all_mapped um' sz';
  gr_rest : keeps (bytes k) (bytes k') rest;
  gr_total : tables t' ++ data um' ++ free' ≡ₚ tables t ++ data um ++ free
}.

Lemma trapframe_pages : Z.of_nat NPAGES < pages_of TRAPFRAME.
Proof. by vm_compute. Qed.

Lemma exec_grow root rest k t um free sz newsz xperm :
  pspace k root t um free rest sz -> all_mapped um sz -> 0 <= newsz < 2 ^ 64 -> 0 <= Z.lor (Z.lor PTE_R PTE_U) xperm < 1024 ->
  exists r k' t' um' free' sz', uvmalloc kend root sz newsz xperm k = Some (r, k') /\ grew root rest k t um free sz k' t' um' free' sz' /\
    same_below (bytes k) (bytes k') um um' TRAPFRAME /\
    ((r = sz' /\ sz' = Z.max sz newsz /\ grown_map kend um um' sz sz' (Z.lor (Z.lor PTE_R PTE_U) xperm) /\
        Z.of_nat (length free) <= Z.of_nat (length free') + 3 * (pages_of sz' - pages_of sz)) \/
     (r = 0 /\ sz' = sz /\ um' = um /\ Z.of_nat (length free) < 3 * (pages_of newsz - pages_of sz))).
Proof.
  intros Hps Hf Hnew Hperm. pose proof (ps_size _ _ _ _ _ _ _ _ Hps) as Hsz.
  destruct (Z.ltb_spec newsz sz) as [Hlt|Hge].
  { exists sz, k, t, um, free, sz. unfold uvmalloc. destruct (Z.ltb_spec newsz sz); [|lia]. split; [done|].
    split; [split; try done; apply kp_refl|]. split; [done|]. left. split_and!; [done | lia | split; [intros w Hw; lia | done] | lia]. }
  assert (Hup : forall n, 0 <= n -> sz + n <= TRAPFRAME ->
    exists r k' t' um' free' sz', uvmalloc kend root sz (sz + n) xperm k = Some (r, k') /\ grew root rest k t um free sz k' t' um' free' sz' /\
    same_below (bytes k) (bytes k') um um' TRAPFRAME /\
    ((r = sz' /\ sz' = sz + n /\ grown_map kend um um' sz sz' (Z.lor (Z.lor PTE_R PTE_U) xperm) /\
        Z.of_nat (length free) <= Z.of_nat (length free') + 3 * (pages_of sz' - pages_of sz)) \/
     (r = 0 /\ sz' = sz /\ um' = um /\ Z.of_nat (length free) < 3 * (pages_of (sz + n) - pages_of sz)))).
  { intros n Hn Hlim. destruct (grow_perm kend Hend k root t um free rest sz n xperm Hps Hn Hlim Hperm)
      as (r & k' & t' & um' & free' & E & Hk & Htot & Hs & [(-> & Hp & Hg & Hl)|(-> & -> & Hp & Hl)]).
    - exists (sz + n), k', t', um', free', (sz + n). split; [done|]. split; [|split; [done | by left]]. split; try done. intros v Hv.
      destruct Hg as [G1 G2]. destruct (Z.lt_ge_cases v (pages_of sz)).
      + rewrite G2 by lia. apply Hf. lia.
      + destruct (G1 v ltac:(lia)) as (p & Hpg & ->). eexists. split; [done|]. by apply user_flag.
    - exists 0, k', t', um, free', sz. split; [done|]. split; [by split|]. split; [done | by right]. }
  destruct (Z.le_gt_cases newsz TRAPFRAME) as [Hle|Hbig].
  { destruct (Hup (newsz - sz) ltac:(lia) ltac:(lia)) as (r & k' & t' & um' & free' & sz' & E & H). replace (sz + (newsz - sz)) with newsz in * by lia.
    exists r, k', t', um', free', sz'. rewrite Z.max_r by lia. by split. }
  destruct (Hup (TRAPFRAME - sz) ltac:(lia) ltac:(lia)) as (r & k' & t' & um' & free' & sz' & E & Hg & Hs & Hres).
  replace (sz + (TRAPFRAME - sz)) with TRAPFRAME in * by lia. pose proof (pages_of_mono TRAPFRAME newsz ltac:(lia)) as Hm.
  destruct Hres as [(_ & -> & _)|(-> & -> & -> & Hlen)].
  { exfalso. pose proof (mapped_bound _ _ _ _ _ _ _ (gr_space _ _ _ _ _ _ _ _ _ _ _ _ Hg) (gr_mapped _ _ _ _ _ _ _ _ _ _ _ _ Hg)).
    pose proof trapframe_pages. lia. }
  exists 0, k', t', um, free', sz. split; [|split; [done|split; [done|]; right; split_and!; (done || lia)]].
  unfold uvmalloc in *. destruct (Z.ltb_spec newsz sz); [lia|]. destruct (Z.ltb_spec TRAPFRAME sz); [lia|].
  eapply uvmalloc_loop_more; [| | |exact E]; [done | lia|]. apply Z2Nat.inj_le; [| |apply Z.div_le_mono; [done|lia]].
  all: rewrite PGROUNDUP_pages by (unfold TRAPFRAME, TRAMPOLINE in *; change PGSIZE with 4096 in *; lia).
  all: assert (pages_of sz * PGSIZE < sz + PGSIZE) by (unfold pages_of; pose proof (Z.mul_div_le (sz + PGSIZE - 1) PGSIZE ltac:(done)); lia).
  all: apply Z.div_pos; [lia | done].
Qed.

(** ** Reading the file *)
Lemma user_pa k root t um free rest v e : aspace k root t um free rest -> um !! v = Some e -> v < UVPN -> page (PTE2PA e).
Proof.
  intros [[_ _ Hr _] _ _] He Hv. apply Forall_app in Hr as [Hd _]. rewrite Forall_forall in Hd. apply Hd. apply elem_of_data. by exists v, e.
Qed.

Section Load.
Context (sb : superblock) (Hlay : layout_ok sb) (d : disk) (ip : inode) (Hd : disk_ok sb d) (Hip : file_ok sb d ip).

Lemma file_small : 0 <= isize ip < 2 ^ 31.
Proof. destruct Hip as [_ _ _ Hsz _]. assert (MAXFILE * BSIZE < 2 ^ 31) by done. lia. Qed.

(** A read into the kernel: all of it, or less. *)
Lemma readi_kernel off n : in_u32 off -> 0 <= n < 2 ^ 31 -> exists m, 0 <= m <= n /\
  readi sb (Z.to_nat n) off n ip d = Some (m, slice d ip off (Z.to_nat m), ip, d) /\ (m = n -> 0 < n -> off + n <= isize ip) /\
  (off + n <= isize ip -> m = n).
Proof.
  intros Ho Hn. pose proof file_small as Hs. set (m := available ip off n).
  assert (Hm : 0 <= m <= n /\ (m = n -> 0 < n -> off + n <= isize ip) /\ (off + n <= isize ip -> m = n)).
  { unfold m, available, in_u32 in *. destruct (Z.ltb_spec (isize ip) off), (Z.leb_spec (2 ^ 32) (off + n)); simpl; lia. }
  exists m. rewrite (readi_spec sb Hlay (Z.to_nat n) off n ip d Hd Hip Ho ltac:(unfold in_u32; lia)). fold m.
  destruct (Nat.leb_spec (Z.to_nat m) (Z.to_nat n)); [|lia]. rewrite Nat.min_r by lia. split_and!; try done; lia.
Qed.

Lemma slice_nth off k z : 0 <= z < Z.of_nat k -> nth (Z.to_nat z) (slice d ip off k) NUL = fbyte d ip (off + z).
Proof.
  intros Hz. unfold slice. apply nth_lookup_Some. rewrite list_lookup_fmap, lookup_seq_lt by lia. simpl. do 2 f_equal. lia.
Qed.

Section Segment.
Context (root : Z) (rest : list Z) (t : tree) (um : vmap) (free : list Z) (sz0 va off sz : Z).
Context (Hfull : all_mapped um sz0) (Hal : va mod PGSIZE = 0) (Hva : 0 <= va) (Hsz : 0 <= sz < 2 ^ 30) (Hin : va + sz <= sz0) (Hoff : in_u32 off).

Lemma loadseg_loop_spec : forall fuel j k, pspace k root t um free rest sz0 -> 0 <= j -> j = 0 \/ off + j * PGSIZE <= isize ip ->
  sz <= (j + Z.of_nat fuel - 1) * PGSIZE -> (0 < fuel)%nat -> j * PGSIZE < 2 ^ 30 + PGSIZE ->
  exists r k', loadseg_loop sb fuel root va off sz (j * PGSIZE) ip d k = Some (r, ip, d, k') /\ pspace k' root t um free rest sz0 /\
    keeps (bytes k) (bytes k') rest /\
    (r = -1 /\ isize ip < off + sz \/ r = 0 /\ (j * PGSIZE < sz -> off + sz <= isize ip) /\ forall x, 0 <= x < TRAPFRAME ->
       ubyte (bytes k') um x = if (va + j * PGSIZE <=? x) && (x <? va + sz) then fbyte d ip (off + (x - va)) else ubyte (bytes k) um x).
Proof.
  pose proof file_small as Hfs. assert (HP : PGSIZE = 4096) by done.
  induction fuel as [|fuel IH]; intros j k Hps Hj Hoj Hf Hpos Hjb; [lia|]. cbn [loadseg_loop]. pose proof (ps_size _ _ _ _ _ _ _ _ Hps) as Hs0.
  change TRAPFRAME with 274877898752 in Hs0.
  destruct (Z.ltb_spec (j * PGSIZE) sz) as [Hlt|Hge]; cycle 1.
  { exists 0, k. split; [done|]. split; [done|]. split; [apply kp_refl|]. right. split; [done|]. split; [lia|]. intros x Hx.
    destruct (Z.leb_spec (va + j * PGSIZE) x), (Z.ltb_spec x (va + sz)); simpl; (done || lia). }
  set (v := va / PGSIZE + j). assert (Ev : va + j * PGSIZE = v * PGSIZE) by (unfold v; pose proof (Z.div_mod va PGSIZE ltac:(done)); lia).
  assert (Hv : 0 <= v < pages_of sz0) by (split; [unfold v; pose proof (Z.div_pos va PGSIZE Hva ltac:(done)); lia | apply pages_of_lt; lia]).
  destruct (Hfull v Hv) as (e & He & HU). pose proof (pages_limit sz0 ltac:(change TRAPFRAME with 274877898752; lia)) as Hpl.
  unfold u64. rewrite (Z.mod_small (va + j * PGSIZE)) by lia. rewrite Ev.
  pose proof (ps_space _ _ _ _ _ _ _ _ Hps) as Has.
  rewrite (walkaddr_um kend Hend UVPN k root t um free rest (v * PGSIZE) Has) by lia. cbn [mbind option_bind].
  destruct (Z.leb_spec MAXVA (v * PGSIZE)) as [Hmx|_]; [change MAXVA with (2 ^ 38) in Hmx; lia|].
  rewrite vpn_mul, He, HU. pose proof (user_pa _ _ _ _ _ _ v e Has He ltac:(lia)) as Hpg. pose proof (page_pos kend Hend _ Hpg) as Hnz.
  destruct (Z.eqb_spec (PTE2PA e) 0) as [Hz|_]; [lia|]. set (n := if sz - j * PGSIZE <? PGSIZE then sz - j * PGSIZE else PGSIZE).
  assert (Hn : 0 < n <= PGSIZE /\ n <= sz - j * PGSIZE) by (unfold n; destruct (Z.ltb_spec (sz - j * PGSIZE) PGSIZE); lia).
  assert (Hu : u32 (off + j * PGSIZE) = off + j * PGSIZE) by (unfold in_u32 in Hoff; apply u32_id; unfold in_u32; destruct Hoj; [subst j|]; lia).
  rewrite Hu. destruct (readi_kernel (off + j * PGSIZE) n) as (m & Hm & -> & Hall & Hget); [unfold in_u32 in *; destruct Hoj; [subst j|]; lia | lia|].
  cbn [mbind option_bind]. rewrite u32_id by (unfold in_u32; lia).
  destruct (user_write kend Hend UVPN k root t um free rest v e 0 (slice d ip (off + j * PGSIZE) (Z.to_nat m)) Has He ltac:(lia) ltac:(lia)
    ltac:(rewrite length_slice; lia)) as (Has' & Hk' & Hby). rewrite Z.add_0_r in Has', Hk', Hby.
  set (k1 := set_bytes _ k) in *. assert (Hps1 : pspace k1 root t um free rest sz0) by (by destruct Hps; split).
  destruct (Z.eqb_spec m n) as [->|Hne]; cbn [negb]; [|exists (-1), k1; split_and!; try done; left; lia].
  specialize (Hall eq_refl ltac:(lia)). replace (u32 (j * PGSIZE + PGSIZE)) with ((j + 1) * PGSIZE) by (rewrite u32_id; unfold in_u32; lia).
  destruct (Z.lt_ge_cases ((j + 1) * PGSIZE) sz) as [Hmore|Hlast].
  - assert (n = PGSIZE) as En by (unfold n; destruct (Z.ltb_spec (sz - j * PGSIZE) PGSIZE); lia).
    destruct (IH (j + 1) k1 Hps1) as (r & k' & -> & Hps' & Hk2 & Hres); [lia | right; lia | lia | lia | lia|].
    exists r, k'. split; [done|]. split; [done|]. split; [by eapply kp_trans|]. destruct Hres as [[-> Hs]|(-> & Hfit & Hb2)]; [by left|]. right. split; [done|].
    split; [intros _; apply Hfit; lia|]. intros x Hx. rewrite Hb2, Hby by done. rewrite !Z.add_0_r, length_slice, Z2Nat.id, En by lia. rewrite <- Ev.
    replace (va + (j + 1) * PGSIZE) with (va + j * PGSIZE + PGSIZE) by lia. apply join_ranges; [lia|]. intros Hr. rewrite slice_nth by lia. f_equal. lia.
  - destruct fuel as [|fuel]; [lia|]. cbn [loadseg_loop]. destruct (Z.ltb_spec ((j + 1) * PGSIZE) sz); [lia|].
    exists 0, k1. split; [done|]. split; [done|]. split; [done|]. right. split; [done|].
    assert (En : n = sz - j * PGSIZE) by (unfold n; destruct (Z.ltb_spec (sz - j * PGSIZE) PGSIZE); lia).
    split; [intros _; lia|]. intros x Hx. rewrite Hby by done. rewrite !Z.add_0_r, length_slice, Z2Nat.id, En by lia. rewrite <- Ev.
    replace (va + j * PGSIZE + (sz - j * PGSIZE)) with (va + sz) by lia.
    apply same_range. intros Hr. rewrite slice_nth by lia. f_equal. lia.
Qed.

Lemma loadseg_spec k : pspace k root t um free rest sz0 ->
  exists r k', loadseg sb root va off sz ip d k = Some (r, ip, d, k') /\ pspace k' root t um free rest sz0 /\ keeps (bytes k) (bytes k') rest /\
    (r = -1 /\ isize ip < off + sz \/ r = 0 /\ (0 < sz -> off + sz <= isize ip) /\ forall x, 0 <= x < TRAPFRAME ->
       ubyte (bytes k') um x = if (va <=? x) && (x <? va + sz) then fbyte d ip (off + (x - va)) else ubyte (bytes k) um x).
Proof.
  intros Hps. assert (HP : PGSIZE = 4096) by done. pose proof (Z.div_mod sz PGSIZE ltac:(done)). pose proof (Z.mod_pos_bound sz PGSIZE ltac:(done)).
  pose proof (Z.div_pos sz PGSIZE ltac:(lia) ltac:(done)).
  destruct (loadseg_loop_spec (S (Z.to_nat (sz / PGSIZE + 1))) 0 k Hps) as (r & k' & E & H'); [lia | by left | lia | lia | lia|].
  exists r, k'. change (0 * PGSIZE) with 0 in *. rewrite !Z.add_0_r in H'. done.
Qed.
End Segment.

(** ** The headers *)
Definition header (off : Z) : proghdr := proghdr_of (slice d ip (u32 off) (Z.to_nat PH_SIZE)).

Fixpoint header_offs (n : nat) (off : Z) : list Z :=
  match n with O => [] | S n' => off :: header_offs n' (i32 (off + PH_SIZE)) end.
Definition headers (n : nat) (off : Z) : list proghdr := header <$> header_offs n off.

Definition put_seg (ph : proghdr) (b : Z -> ascii) (va : Z) : ascii :=
  if (vaddr ph <=? va) && (va <? vaddr ph + filesz ph) then fbyte d ip (u32 (poff ph) + (va - vaddr ph)) else b va.

(** The memory and the size that a list of headers describes. *)
Definition put_header (b : Z -> ascii) (ph : proghdr) : Z -> ascii := if ptype ph =? ELF_PROG_LOAD then put_seg ph b else b.
Definition image (phs : list proghdr) : Z -> ascii := fold_left put_header phs (fun _ => NUL).
Definition add_size (sz : Z) (ph : proghdr) : Z := if ptype ph =? ELF_PROG_LOAD then Z.max sz (vaddr ph + memsz ph) else sz.
Definition image_size (phs : list proghdr) : Z := fold_left add_size phs 0.

(** What makes a header unfit. *)
Definition unfit (off : Z) (ph : proghdr) : Prop :=
  isize ip < u32 off + PH_SIZE \/
  ptype ph = ELF_PROG_LOAD /\
    (memsz ph < filesz ph \/ 2 ^ 64 <= vaddr ph + memsz ph \/ vaddr ph mod PGSIZE <> 0 \/ vaddr ph + memsz ph = 0 \/
     isize ip < u32 (poff ph) + filesz ph).

Lemma le_at_range o n (bs : list ascii) : 0 <= le (bytes_at o n bs) < 256 ^ Z.of_nat n.
Proof.
  pose proof (le_range (bytes_at o n bs)) as H. assert (length (bytes_at o n bs) <= n)%nat by (unfold bytes_at; rewrite length_take; lia).
  assert (256 ^ Z.of_nat (length (bytes_at o n bs)) <= 256 ^ Z.of_nat n) by (apply Z.pow_le_mono_r; lia). lia.
Qed.

Lemma flags_range f : 0 <= Z.lor (Z.lor PTE_R PTE_U) (flags2perm f) < 1024.
Proof. unfold flags2perm. destruct (_ =? 0), (_ =? 0); by split. Qed.

Lemma load_header_spec root rest k t um free sz off : pspace k root t um free rest sz -> all_mapped um sz ->
  exists ok k' t' um' free' sz', load_header sb kend root sz off ip d k = Some (ok, sz', ip, d, k') /\
    grew root rest k t um free sz k' t' um' free' sz' /\
    if ok : bool then sz' = add_size sz (header off) /\ (forall x, 0 <= x < TRAPFRAME -> ubyte (bytes k') um' x = put_header (ubyte (bytes k) um) (header off) x) /\
      Z.of_nat (length free) <= Z.of_nat (length free') + 3 * (pages_of sz' - pages_of sz)
    else unfit off (header off) \/ ptype (header off) = ELF_PROG_LOAD /\ Z.of_nat (length free) < 3 * (pages_of (vaddr (header off) + memsz (header off)) - pages_of sz).
Proof.
  intros Hps Hf. unfold load_header. pose proof (ps_size _ _ _ _ _ _ _ _ Hps) as Hsz.
  assert (Hsame : grew root rest k t um free sz k t um free sz) by (split; try done; apply kp_refl).
  destruct (readi_kernel (u32 off) PH_SIZE (u32_range off) ltac:(done)) as (m & Hm & -> & Hall & Hget). cbn [mbind option_bind].
  destruct (Z.eqb_spec m PH_SIZE) as [->|Hne]; cbn [negb]; cycle 1.
  { exists false, k, t, um, free, sz. split; [done|]. split; [done|]. left. left. lia. }
  fold (header off). set (ph := header off) in *. unfold unfit, add_size, put_header.
  assert (Hva : 0 <= vaddr ph < 2 ^ 64) by (apply (le_at_range 16 8)). assert (Hme : 0 <= memsz ph < 2 ^ 64) by (apply (le_at_range 40 8)).
  assert (Hfi : 0 <= filesz ph < 2 ^ 64) by (apply (le_at_range 32 8)).
  destruct (Z.eqb_spec (ptype ph) ELF_PROG_LOAD) as [Ety|_]; cbn [negb]; cycle 1.
  { exists true, k, t, um, free, sz. split; [done|]. split; [done|]. split_and!; [done | done | lia]. }
  assert (Hbad : forall P : Prop, P -> (P -> unfit off ph) -> exists ok k' t' um' free' sz', Some (false, sz, ip, d, k) = Some (ok, sz', ip, d, k') /\
    grew root rest k t um free sz k' t' um' free' sz' /\
    if ok : bool then sz' = Z.max sz (vaddr ph + memsz ph) /\ (forall x, 0 <= x < TRAPFRAME -> ubyte (bytes k') um' x = put_seg ph (ubyte (bytes k) um) x) /\
      Z.of_nat (length free) <= Z.of_nat (length free') + 3 * (pages_of sz' - pages_of sz)
    else unfit off ph \/ ptype ph = ELF_PROG_LOAD /\ Z.of_nat (length free) < 3 * (pages_of (vaddr ph + memsz ph) - pages_of sz)).
  { intros P HP HB. exists false, k, t, um, free, sz. split; [done|]. split; [done|]. left. auto. }
  unfold unfit in Hbad. destruct (Z.ltb_spec (memsz ph) (filesz ph)) as [H1|H1]; [apply (Hbad _ H1); tauto|].
  destruct (Z.ltb_spec (u64 (vaddr ph + memsz ph)) (vaddr ph)) as [H2|H2].
  { apply (Hbad (2 ^ 64 <= vaddr ph + memsz ph)); [|tauto]. destruct (Z.le_gt_cases (2 ^ 64) (vaddr ph + memsz ph)); [done|].
    unfold u64 in H2. rewrite Z.mod_small in H2 by lia. lia. }
  assert (Hno : vaddr ph + memsz ph < 2 ^ 64).
  { destruct (Z.le_gt_cases (2 ^ 64) (vaddr ph + memsz ph)); [|done]. unfold u64 in H2.
    rewrite <- (Z_mod_plus_full _ (-1)), Z.mod_small in H2 by lia. lia. }
  destruct (Z.eqb_spec (vaddr ph mod PGSIZE) 0) as [H3|H3]; cbn [negb]; [|apply (Hbad _ H3); tauto].
  unfold u64. rewrite (Z.mod_small (vaddr ph + memsz ph)) by lia.
  destruct (exec_grow root rest k t um free sz (vaddr ph + memsz ph) (flags2perm (pflags ph)) Hps Hf ltac:(lia) (flags_range _))
    as (r & k1 & t1 & um1 & free1 & sz1 & -> & Hg & Hsb & Hres). cbn [mbind option_bind].
  destruct Hres as [(-> & Esz & _ & Hlen)|(-> & -> & -> & Hlen)]; cycle 1.
  { cbn [Z.eqb]. exists false, k1, t1, um, free1, sz. split; [done|]. split; [done|]. by right. }
  pose proof Hg as [Hps1 Hf1 Hk1 Htot1]. pose proof (mapped_bound _ _ _ _ _ _ _ Hps1 Hf1) as Hb1.
  assert (Hsmall : sz1 < 2 ^ 30).
  { destruct (Z.lt_ge_cases sz1 (2 ^ 30)) as [|Hbig]; [done|]. apply pages_of_mono in Hbig. change (pages_of (2 ^ 30)) with 262144 in Hbig. unfold NPAGES in Hb1. lia. }
  destruct (Z.eqb_spec sz1 0) as [E0|_].
  { exists false, k1, t1, um1, free1, sz. assert (sz = 0) by lia. subst sz1 sz. rewrite E0 in *. split; [done|]. split; [done|]. left. right. split; [done|]. lia. }
  rewrite (u32_id (filesz ph)) by (unfold in_u32; lia).
  destruct (loadseg_spec root rest t1 um1 free1 sz1 (vaddr ph) (u32 (poff ph)) (filesz ph) Hf1 H3 ltac:(lia) ltac:(lia) ltac:(lia) (u32_range _) k1 Hps1)
    as (r & k2 & -> & Hps2 & Hk2 & Hres2). cbn [mbind option_bind].
  exists (negb (r <? 0)), k2, t1, um1, free1, sz1. split; [done|]. split; [split; try done; by eapply kp_trans|].
  destruct Hres2 as [[-> Hs]|(-> & Hfit & Hby)]; cbn [Z.ltb negb Z.compare].
  - left. right. split; [done|]. lia.
  - split; [lia|]. split; [|lia]. intros x Hx. rewrite Hby by done. unfold put_seg. by rewrite Hsb.
Qed.

Lemma grew_trans root rest k t um free sz k1 t1 um1 free1 sz1 k2 t2 um2 free2 sz2 :
  grew root rest k t um free sz k1 t1 um1 free1 sz1 -> grew root rest k1 t1 um1 free1 sz1 k2 t2 um2 free2 sz2 ->
  grew root rest k t um free sz k2 t2 um2 free2 sz2.
Proof. intros [A1 A2 A3 A4] [B1 B2 B3 B4]. split; try done; [by eapply kp_trans | by rewrite B4]. Qed.

Lemma put_header_ext b b' ph x : b x = b' x -> put_header b ph x = put_header b' ph x.
Proof. intros E. unfold put_header, put_seg. destruct (_ =? _); [|done]. by destruct (_ && _). Qed.

Lemma put_headers_ext phs x : forall b b' : Z -> ascii, b x = b' x -> fold_left put_header phs b x = fold_left put_header phs b' x.
Proof. induction phs as [|ph phs IH]; intros b b' E; [done|]. simpl. apply IH. by apply put_header_ext. Qed.

Lemma add_size_le phs : forall sz, sz <= fold_left add_size phs sz.
Proof.
  induction phs as [|ph phs IH]; intros sz; [simpl; lia|]. simpl. etrans; [|apply IH]. unfold add_size. destruct (_ =? _); lia.
Qed.

Lemma load_loop_spec root rest n : forall k t um free sz off, pspace k root t um free rest sz -> all_mapped um sz ->
  exists ok k' t' um' free' sz', load_loop sb kend n root sz off ip d k = Some (ok, sz', ip, d, k') /\
    grew root rest k t um free sz k' t' um' free' sz' /\
    if ok : bool then sz' = fold_left add_size (headers n off) sz /\
      (forall x, 0 <= x < TRAPFRAME -> ubyte (bytes k') um' x = fold_left put_header (headers n off) (ubyte (bytes k) um) x) /\
      Z.of_nat (length free) <= Z.of_nat (length free') + 3 * (pages_of sz' - pages_of sz)
    else (exists o, o ∈ header_offs n off /\ unfit o (header o)) \/
      Z.of_nat (length free) < 3 * (pages_of (fold_left add_size (headers n off) sz) - pages_of sz).
Proof.
  induction n as [|n IH]; intros k t um free sz off Hps Hf; cbn [load_loop].
  { exists true, k, t, um, free, sz. split; [done|]. split; [split; try done; apply kp_refl|]. simpl. split_and!; [done | done | lia]. }
  destruct (load_header_spec root rest k t um free sz off Hps Hf) as (ok & k1 & t1 & um1 & free1 & sz1 & -> & Hg & Hres). cbn [mbind option_bind].
  change (headers (S n) off) with (header off :: headers n (i32 (off + PH_SIZE))). cbn [fold_left]. pose proof (add_size_le (headers n (i32 (off + PH_SIZE)))) as Hle.
  destruct ok.
  - destruct Hres as (Esz & Hby & Hlen). pose proof Hg as [Hps1 Hf1 _ _].
    destruct (IH k1 t1 um1 free1 sz1 (i32 (off + PH_SIZE)) Hps1 Hf1) as (ok & k2 & t2 & um2 & free2 & sz2 & -> & Hg2 & Hres2).
    exists ok, k2, t2, um2, free2, sz2. split; [done|]. split; [by eapply grew_trans|]. rewrite <- Esz. destruct ok.
    + destruct Hres2 as (E2 & Hby2 & Hlen2). split_and!; [done | | lia]. intros x Hx. rewrite Hby2 by done. apply put_headers_ext. by apply Hby.
    + destruct Hres2 as [(o & Ho & Hu)|Hm]; [left; exists o; split; [by right | done] | right]. lia.
  - exists false, k1, t1, um1, free1, sz1. split; [done|]. split; [done|]. destruct Hres as [Hu|[Hty Hm]]; [left; exists off; split; [by left | done] | right].
    assert (Hs : vaddr (header off) + memsz (header off) <= add_size sz (header off)) by (unfold add_size; rewrite Hty, Z.eqb_refl; lia).
    pose proof (pages_of_mono _ _ Hs). pose proof (pages_of_mono _ _ (Hle (add_size sz (header off)))). lia.
Qed.
End Load.

(** ** The guard page *)
Lemma change_pte k root t um free rest va pte e e' : aspace k root t um free rest -> 0 <= va < MAXVA -> walk root va false k = Some (pte, k) -> pte <> 0 ->
  um !! (va / PGSIZE) = Some e -> PTE2PA e' = PTE2PA e -> has PTE_V e' = true -> in_u64 e' ->
  aspace (set_pte pte e' k) root t (<[va / PGSIZE := e']> um) free rest /\ keeps (bytes k) (bytes (set_pte pte e' k)) (data um ++ rest) /\
  data (<[va / PGSIZE := e']> um) ≡ₚ data um.
Proof.
  intros Has Hva Hw Hnz He Hpa HV Hu. destruct (walk_um kend Hend UVPN k root t um free rest va Has Hva) as (pte' & Hw' & _ & Hpath).
  rewrite Hw in Hw'. injection Hw' as <-. destruct (Hpath Hnz) as (p & Hp & ->). pose proof Has as [Hvm Hl Hv].
  destruct (leaf_write kend Hend k root t free _ va p e' Hvm Hva Hp Hu) as (Hvm2 & Hkp2 & Hlf2).
  assert (Hdata : data (<[va / PGSIZE := e']> um) ≡ₚ data um).
  { rewrite (data_delete UVPN um _ e He). rewrite (data_delete UVPN (<[va / PGSIZE := e']> um) (va / PGSIZE) e') by (by rewrite lookup_insert_eq).
    rewrite delete_insert_eq, Hpa. done. }
  split; [|split; [exact Hkp2 | done]]. split.
  - apply (vm_perm kend _ _ _ _ (data um ++ rest)); [by rewrite Hdata | done].
  - intros vb Hvb. unfold set_pte. rewrite Hlf2 by done. destruct (Z.eqb_spec (vb / PGSIZE) (va / PGSIZE)) as [->|Hne]; [by rewrite lookup_insert_eq|].
    rewrite lookup_insert_ne by done. by apply Hl.
  - intros v e2. destruct (decide (v = va / PGSIZE)) as [->|Hne]; [rewrite lookup_insert_eq|rewrite lookup_insert_ne by done; apply Hv].
    intros [= <-]. destruct (Hv _ _ He). done.
Qed.

Definition no_user (e : Z) : Z := Z.land e (Z.lnot PTE_U).

Lemma no_user_pa e : PTE2PA (no_user e) = PTE2PA e.
Proof. unfold PTE2PA, no_user. rewrite Z.shiftr_land. change (Z.shiftr (Z.lnot PTE_U) 10) with (-1). by rewrite Z.land_m1_r. Qed.

Lemma no_user_flags e : has PTE_V (no_user e) = has PTE_V e /\ has PTE_U (no_user e) = false.
Proof. unfold has, no_user. rewrite <- !Z.land_assoc. change (Z.land (Z.lnot PTE_U) PTE_V) with PTE_V. change (Z.land (Z.lnot PTE_U) PTE_U) with 0. by rewrite Z.land_0_r. Qed.

Lemma no_user_u64 e : in_u64 e -> in_u64 (no_user e).
Proof.
  intros He. unfold no_user, in_u64 in *. rewrite <- (Z.mod_small e (2 ^ 64)) by done. rewrite <- Z.land_ones by lia.
  rewrite <- Z.land_assoc, (Z.land_comm (Z.ones 64)), Z.land_assoc, Z.land_ones by lia. apply Z.mod_pos_bound. lia.
Qed.

Lemma ubyte_insert m um v e e' : um !! v = Some e -> PTE2PA e' = PTE2PA e -> forall x, ubyte m (<[v := e']> um) x = ubyte m um x.
Proof.
  intros He Hpa x. unfold ubyte. destruct (decide (x / PGSIZE = v)) as [<-|Hne]; [by rewrite lookup_insert_eq, He, Hpa | by rewrite lookup_insert_ne].
Qed.

Lemma uvmclear_spec k root t um free rest sz v e : pspace k root t um free rest sz -> um !! v = Some e -> 0 <= v < UVPN ->
  exists k', uvmclear root (v * PGSIZE) k = Some k' /\ pspace k' root t (<[v := no_user e]> um) free rest sz /\ keeps (bytes k) (bytes k') rest /\
    data (<[v := no_user e]> um) ≡ₚ data um /\ forall x, 0 <= x < TRAPFRAME -> ubyte (bytes k') (<[v := no_user e]> um) x = ubyte (bytes k) um x.
Proof.
  intros [Has Hu Hsz Hb] He Hv. assert (Hn : 0 <= v < NVPN) by (assert (UVPN < NVPN) by done; lia). pose proof (mul_range v Hn) as Hva. unfold uvmclear.
  destruct (walk_um kend Hend UVPN k root t um free rest (v * PGSIZE) Has Hva) as (pte & Hw & Hm & _). rewrite Hw. cbn [mbind option_bind].
  rewrite vpn_mul, He in Hm. destruct Hm as [Hnz Hpe]. destruct (Z.eqb_spec pte 0); [done|]. rewrite Hpe. fold (no_user e).
  destruct (as_valid _ _ _ _ _ _ _ _ Has v e He) as (_ & HV & Hr). destruct (no_user_flags e) as [F1 F2].
  destruct (change_pte k root t um free rest (v * PGSIZE) pte e (no_user e) Has Hva Hw Hnz) as (Has' & Hk & Hdata);
    [by rewrite vpn_mul | apply no_user_pa | by rewrite F1 | by apply no_user_u64|]. rewrite vpn_mul in *.
  eexists. split; [done|]. split; [|split; [|split; [done|]]].
  - split; [done | | done|].
    + intros w e2. destruct (decide (w = v)) as [->|Hne]; [rewrite lookup_insert_eq; lia | rewrite lookup_insert_ne by done; apply Hu].
    + intros w e2. destruct (decide (w = v)) as [->|Hne]; [intros _; by apply (Hb v e) | rewrite lookup_insert_ne by done; apply Hb].
  - apply (keeps_sub _ _ _ _ Hk). intros x Hx. apply elem_of_app. by right.
  - intros x Hx. rewrite (ubyte_insert _ um v e) by (done || apply no_user_pa). rewrite trapframe_limit in Hx.
    apply (ubyte_keeps UVPN); [done|]. apply (keeps_sub _ _ _ _ Hk). intros y Hy. apply elem_of_app. by left.
Qed.

(** ** Copying to pages that are there *)
Definition writable_at (um : vmap) (x : Z) : Prop := exists e, um !! (x / PGSIZE) = Some e /\ has PTE_U e = true /\ has PTE_W e = true.

Lemma copyout_loop_mapped root rest t um free sz psz : forall fuel dst src k, pspace k root t um free rest sz -> 0 <= dst -> dst + Z.of_nat (length src) <= TRAPFRAME ->
  (forall x, dst <= x < dst + Z.of_nat (length src) -> writable_at um x) -> (length src <= fuel)%nat ->
  exists k', copyout_loop kend fuel root psz dst src k = Some (0, k') /\ pspace k' root t um free rest sz /\ keeps (bytes k) (bytes k') rest /\
    forall x, 0 <= x < TRAPFRAME -> ubyte (bytes k') um x =
      if (dst <=? x) && (x <? dst + Z.of_nat (length src)) then nth (Z.to_nat (x - dst)) src NUL else ubyte (bytes k) um x.
Proof.
  induction fuel as [|fuel IH]; intros dst src k Hps Hd Hlim Hw Hf.
  { destruct src; [|simpl in Hf; lia]. exists k. split; [done|]. split; [done|]. split; [apply kp_refl|]. intros x Hx. symmetry. apply no_range. simpl. lia. }
  destruct src as [|c src']; [exists k; split; [done|]; split; [done|]; split; [apply kp_refl|]; intros x Hx;
    symmetry; apply no_range; simpl; lia|].
  cbn [copyout_loop]. set (src := c :: src') in *. assert (Hpos : (0 < length src)%nat) by (simpl; lia).
  destruct (chunk_step dst Hd) as (Ev & Eo & Ed). destruct (split_va dst Hd) as (_ & Ho & Hv0). set (v := dst / PGSIZE) in *. rewrite Ev, Eo.
  destruct (Hw dst ltac:(lia)) as (e & He & HU & HW). fold v in He.
  pose proof Hps as [Has Hu Hsz Hb]. assert (Hvl : v < UVPN) by (apply (vpn_lt UVPN dst); rewrite <- trapframe_limit; lia).
  assert (Hva : 0 <= v * PGSIZE < MAXVA) by (apply mul_range; assert (UVPN < NVPN) by done; lia).
  destruct (Z.leb_spec MAXVA (v * PGSIZE)); [lia|]. unfold user_page.
  rewrite (walkaddr_um kend Hend UVPN k root t um free rest (v * PGSIZE) Has) by lia. destruct (Z.leb_spec MAXVA (v * PGSIZE)); [lia|].
  rewrite vpn_mul, He, HU. pose proof (page_pos kend Hend _ (user_pa _ _ _ _ _ _ v e Has He Hvl)) as Hnz. rewrite !bind_some.
  destruct (Z.eqb_spec (PTE2PA e) 0) as [Hz|_]; [lia|]. rewrite !bind_some. destruct (Z.eqb_spec (PTE2PA e) 0) as [Hz|_]; [lia|].
  destruct (walk_um kend Hend UVPN k root t um free rest (v * PGSIZE) Has Hva) as (pte & -> & Hm & _). rewrite vpn_mul, He in Hm. destruct Hm as [_ Hpe].
  rewrite !bind_some, Hpe, HW. cbn [negb]. set (o := dst mod PGSIZE) in *. set (n := Z.to_nat (Z.min (PGSIZE - o) (Z.of_nat (length src)))).
  assert (Hn : Z.of_nat n = Z.min (PGSIZE - o) (Z.of_nat (length src))) by (unfold n; rewrite Z2Nat.id; lia).
  assert (Hlt : length (take n src) = n) by (rewrite length_take; lia).
  destruct (user_write kend Hend UVPN k root t um free rest v e o (take n src) Has He ltac:(lia) ltac:(lia) ltac:(rewrite Hlt; lia)) as (Has' & Hk' & Hby).
  set (k1 := set_bytes _ k) in *. assert (Hps1 : pspace k1 root t um free rest sz) by (by split). rewrite <- Ed, Hlt in Hby.
  assert (Hstep : length (drop n src) = 0%nat \/ u64 (v * PGSIZE + PGSIZE) = dst + Z.of_nat n).
  { destruct (Z.le_gt_cases (Z.of_nat (length src)) (PGSIZE - o)); [left; rewrite length_drop; lia | right]. unfold u64. rewrite Z.mod_small; [lia|].
    change MAXVA with 274877906944 in Hva. change PGSIZE with 4096 in *. lia. }
  destruct Hstep as [Hz|Hnext].
  - assert (Hall : n = length src) by (rewrite length_drop in Hz; lia). apply nil_length_inv in Hz. rewrite Hz.
    exists k1. split; [by destruct fuel|]. split; [done|]. split; [done|]. intros x Hx. rewrite trapframe_limit in Hx. rewrite Hby by done.
    by rewrite Hall, take_ge by lia.
  - rewrite Hnext. destruct (IH (dst + Z.of_nat n) (drop n src) k1 Hps1) as (k2 & -> & Hps2 & Hk2 & Hb2);
      [lia | rewrite length_drop; lia | intros x Hx; apply Hw; rewrite length_drop in Hx; lia | rewrite length_drop; simpl in *; lia|].
    exists k2. split; [done|]. split; [done|]. split; [by eapply kp_trans|]. intros x Hx. rewrite Hb2 by done. rewrite trapframe_limit in Hx. rewrite Hby by done.
    rewrite length_drop. replace (dst + Z.of_nat n + Z.of_nat (length src - n)) with (dst + Z.of_nat (length src)) by lia.
    rewrite (same_range (nth (Z.to_nat (x - dst)) src NUL) (if (dst <=? x) && (x <? dst + Z.of_nat n) then nth (Z.to_nat (x - dst)) (take n src) NUL else ubyte (bytes k) um x)).
    + apply join_ranges; [lia|]. intros Hr. rewrite !nth_lookup, lookup_take_lt by lia. done.
    + intros Hr. rewrite !nth_lookup, lookup_drop. do 2 f_equal. lia.
Qed.

Lemma copyout_mapped root rest t um free sz psz dst src k : pspace k root t um free rest sz -> 0 <= dst -> dst + Z.of_nat (length src) <= TRAPFRAME ->
  (forall x, dst <= x < dst + Z.of_nat (length src) -> writable_at um x) ->
  exists k', copyout kend root psz dst src k = Some (0, k') /\ pspace k' root t um free rest sz /\ keeps (bytes k) (bytes k') rest /\
    forall x, 0 <= x < TRAPFRAME -> ubyte (bytes k') um x =
      if (dst <=? x) && (x <? dst + Z.of_nat (length src)) then nth (Z.to_nat (x - dst)) src NUL else ubyte (bytes k) um x.
Proof. intros Hps Hd Hl Hw. by apply copyout_loop_mapped. Qed.
End Mem.
