(* ===== verification/Execspec.v ===== *)
(** * [exec] replaces the program or changes nothing (xv6/kernel/exec.c)

    The layout of the stack, the switch from the old address space to the
    new one, and the theorem about [kexec]. *)
From S2P Require Import Prelude KString Disk Balloc Inode Content Rw Trunc Itable Iref Reclaim Dir Path Ram Kalloc Pagetable Vm Space Uvm Uvmfree Usercopy Sbrk Exec Execmem.
Local Open Scope Z_scope.

(** ** The layout of the stack *)

(** Where a string goes below [sp], and where the strings end. *)
Definition slot (sp : Z) (a : cstr) : Z := let s := sp - (Z.of_nat (length a) + 1) in s - s mod 16.
Fixpoint slots (sp : Z) (argv : list cstr) : list Z :=
  match argv with [] => [] | a :: argv' => slot sp a :: slots (slot sp a) argv' end.
Definition bottom (sp : Z) (argv : list cstr) : Z := fold_left slot argv sp.
(** Where the vector of their addresses goes. *)
Definition vector_at (sp : Z) (argv : list cstr) : Z :=
  let s := bottom sp argv - (Z.of_nat (length argv) + 1) * 8 in s - s mod 16.
Definition stack_fits (sz : Z) (argv : list cstr) : Prop := sz - USERSTACK * PGSIZE <= vector_at sz argv.

Lemma align_down s : s - 16 < s - s mod 16 <= s /\ (s - s mod 16) mod 16 = 0.
Proof.
  pose proof (Z.mod_pos_bound s 16 ltac:(lia)). split; [lia|]. rewrite Zminus_mod, Z.mod_mod, Z.sub_diag by lia. done.
Qed.

Lemma arg_slot_le sp a : slot sp a <= sp - (Z.of_nat (length a) + 1).
Proof. unfold slot. pose proof (align_down (sp - (Z.of_nat (length a) + 1))). lia. Qed.

Lemma bottom_le argv : forall sp, bottom sp argv <= sp.
Proof. induction argv as [|a argv IH]; intros sp; [simpl; unfold bottom; simpl; lia|]. change (bottom sp (a :: argv)) with (bottom (slot sp a) argv). pose proof (IH (slot sp a)). pose proof (arg_slot_le sp a). lia. Qed.

Lemma ubytes_nth m um n : forall va bs, length bs = n -> (forall i, 0 <= i < Z.of_nat n -> ubyte m um (va + i) = nth (Z.to_nat i) bs NUL) -> ubytes m um va n = bs.
Proof.
  induction n as [|n IH]; intros va bs Hl H; destruct bs as [|c bs]; simpl in Hl; try lia; [done|]. cbn [ubytes]. f_equal.
  - specialize (H 0 ltac:(lia)). by rewrite Z.add_0_r in H.
  - apply IH; [lia|]. intros i Hi. specialize (H (1 + i) ltac:(lia)). rewrite Z.add_assoc in H. rewrite H. replace (Z.to_nat (1 + i)) with (S (Z.to_nat i)) by lia. done.
Qed.

Lemma length_slots argv : forall sp, length (slots sp argv) = length argv.
Proof. induction argv as [|a argv IH]; intros sp; simpl; [done | by rewrite IH]. Qed.

Lemma length_unles (l : list Z) : length (l ≫= unle 8) = (8 * length l)%nat.
Proof.
  induction l as [|x l IH]; [done|]. change ((x :: l) ≫= unle 8) with (unle 8 x ++ (l ≫= unle 8)). rewrite length_app, length_unle, IH. simpl. lia.
Qed.

Section Stack.
Context (kend : Z) (Hend : KERNBASE <= kend).
Local Abbreviation page := (page kend).
Local Abbreviation aspace := (aspace kend UVPN).
Local Abbreviation pspace := (pspace kend).
Local Abbreviation data := (data UVPN).

Section Push.
Context (root : Z) (rest : list Z) (t : tree) (um : vmap) (free : list Z) (sz : Z).
Context (Hsz : 2 * PGSIZE <= sz <= TRAPFRAME) (Hw : forall x, sz - PGSIZE <= x < sz -> writable_at um x).

(** The bytes outside of a range stay. *)
Definition outside (m m' : ram) (a b : Z) : Prop := forall x, 0 <= x < TRAPFRAME -> ~ (a <= x < b) -> ubyte m' um x = ubyte m um x.

Lemma outside_ubytes m m' a b va n : outside m m' a b -> 0 <= va -> va + Z.of_nat n <= TRAPFRAME -> va + Z.of_nat n <= a \/ b <= va ->
  ubytes m' um va n = ubytes m um va n.
Proof. intros H H0 Hl Hd. apply ubytes_ext. intros x Hx. apply H; lia. Qed.

(** One store to the stack. *)
Lemma push_bytes k sp bs : pspace k root t um free rest sz -> sz - PGSIZE <= sp -> sp + Z.of_nat (length bs) <= sz ->
  exists k', copyout kend root sz sp bs k = Some (0, k') /\ pspace k' root t um free rest sz /\ keeps (bytes k) (bytes k') rest /\
    ubytes (bytes k') um sp (length bs) = bs /\ outside (bytes k) (bytes k') sp (sp + Z.of_nat (length bs)).
Proof.
  intros Hps Hlo Hhi. destruct (copyout_mapped kend Hend root rest t um free sz sz sp bs k Hps) as (k' & E & Hps' & Hk & Hby);
    [lia | lia | intros x Hx; apply Hw; lia|]. exists k'. split_and!; try done.
  - apply ubytes_nth; [done|]. intros i Hi. rewrite Hby by lia. destruct (Z.leb_spec sp (sp + i)), (Z.ltb_spec (sp + i) (sp + Z.of_nat (length bs))); try lia.
    simpl. do 2 f_equal. lia.
  - intros x Hx Hno. rewrite Hby by done. destruct (Z.leb_spec sp x), (Z.ltb_spec x (sp + Z.of_nat (length bs))); simpl; (done || lia).
Qed.

Definition strings_at (m : ram) (argv : list cstr) (us : list Z) : Prop :=
  Forall2 (fun a s => ubytes m um s (S (length a)) = a ++ [NUL]) argv us.

Lemma slots_above argv : forall sp, Forall (fun s => bottom sp argv <= s) (slots sp argv).
Proof.
  induction argv as [|a argv IH]; intros sp; simpl; constructor; [apply bottom_le|]. apply IH.
Qed.

Lemma strings_keep m m' argv : forall sp a, strings_at m argv (slots sp argv) -> 0 <= bottom sp argv -> sp <= TRAPFRAME -> a <= bottom sp argv -> forall lo, lo <= a -> outside m m' lo a ->
  strings_at m' argv (slots sp argv).
Proof.
  induction argv as [|s argv IH]; intros sp a H Hb Hl Ha lo Hlo Ho; [constructor|]. cbn [slots] in *. apply Forall2_cons in H as [H1 H2].
  change (bottom sp (s :: argv)) with (bottom (slot sp s) argv) in *. pose proof (bottom_le argv (slot sp s)). pose proof (arg_slot_le sp s). constructor.
  - rewrite <- H1. apply (outside_ubytes _ _ lo a); [done | lia | lia | lia].
  - apply (IH _ a) with (lo := lo); try done. lia.
Qed.

Lemma push_args_spec argv : forall k sp acc, Forall (fun a => Z.of_nat (length a) < PGSIZE) argv ->
  pspace k root t um free rest sz -> sz - PGSIZE <= sp <= sz ->
  exists o k', push_args kend argv root sz sp (sz - PGSIZE) acc k = Some (o, k') /\ pspace k' root t um free rest sz /\ keeps (bytes k) (bytes k') rest /\
    match o with
    | None => bottom sp argv < sz - PGSIZE
    | Some (sp', us) => sp' = bottom sp argv /\ sz - PGSIZE <= sp' /\ us = acc ++ slots sp argv /\
        outside (bytes k) (bytes k') sp' sp /\ strings_at (bytes k') argv (slots sp argv)
    end.
Proof.
  assert (HP : PGSIZE = 4096) by done. induction argv as [|a argv IH]; intros k sp acc Hargs Hps Hsp; cbn [push_args slots].
  { exists (Some (sp, acc)), k. split; [done|]. split; [done|]. split; [apply kp_refl|]. split_and!; [done | lia | by rewrite app_nil_r | done | constructor]. }
  apply Forall_cons in Hargs as [Ha Hargs]. change TRAPFRAME with 274877898752 in Hsz.
  assert (Eu : u64 (sp - (Z.of_nat (length a) + 1)) = sp - (Z.of_nat (length a) + 1)) by (apply Z.mod_small; lia). rewrite Eu. fold (slot sp a).
  change (bottom sp (a :: argv)) with (bottom (slot sp a) argv). pose proof (arg_slot_le sp a) as Hsl. pose proof (bottom_le argv (slot sp a)) as Hbl.
  destruct (Z.ltb_spec (slot sp a) (sz - PGSIZE)) as [Hlow|Hok].
  { exists None, k. split; [done|]. split; [done|]. split; [apply kp_refl|]. lia. }
  destruct (push_bytes k (slot sp a) (a ++ [NUL]) Hps Hok) as (k1 & -> & Hps1 & Hk1 & Hs1 & Ho1); [rewrite length_app; simpl; lia|].
  rewrite bind_some. cbn [Z.ltb Z.compare]. rewrite length_app in Hs1, Ho1. cbn [length] in Hs1, Ho1.
  destruct (IH k1 (slot sp a) (acc ++ [slot sp a]) Hargs Hps1 ltac:(lia)) as (o & k2 & -> & Hps2 & Hk2 & Hres).
  exists o, k2. split; [done|]. split; [done|]. split; [by eapply kp_trans|]. destruct o as [[sp' us]|]; [|done].
  destruct Hres as (-> & Hlo & -> & Ho2 & Hst). split_and!; [done | done | by rewrite <- app_assoc | |].
  - intros x Hx Hno. rewrite Ho2, Ho1 by (done || lia). done.
  - constructor; [|done]. rewrite <- Hs1. replace (length a + 1)%nat with (S (length a)) by lia.
    apply (outside_ubytes _ _ (bottom (slot sp a) argv) (slot sp a)); [done | lia | change TRAPFRAME with 274877898752; lia | lia].
Qed.

Lemma push_stack_spec argv k : Forall (fun a => Z.of_nat (length a) < PGSIZE) argv -> (length argv < MAXARG)%nat -> pspace k root t um free rest sz ->
  exists o k', push_stack kend argv root sz k = Some (o, k') /\ pspace k' root t um free rest sz /\ keeps (bytes k) (bytes k') rest /\
    match o with
    | None => ~ stack_fits sz argv
    | Some sp => sp = vector_at sz argv /\ stack_fits sz argv /\ outside (bytes k) (bytes k') (sz - PGSIZE) sz /\
        strings_at (bytes k') argv (slots sz argv) /\
        ubytes (bytes k') um sp (8 * S (length argv)) = (slots sz argv ++ [0]) ≫= unle 8
    end.
Proof.
  intros Hargs Hn Hps. assert (HP : PGSIZE = 4096) by done. unfold push_stack, stack_fits, USERSTACK, MAXARG in *. rewrite !Z.mul_1_l.
  destruct (push_args_spec argv k sz [] Hargs Hps ltac:(lia)) as (o & k1 & -> & Hps1 & Hk1 & Hres). rewrite bind_some. cbn [app] in Hres.
  destruct o as [[sp us]|]; cycle 1.
  { exists None, k1. split_and!; try done. pose proof (align_down (bottom sz argv - (Z.of_nat (length argv) + 1) * 8)). unfold vector_at. lia. }
  destruct Hres as (-> & Hlo & -> & Ho & Hst). change TRAPFRAME with 274877898752 in Hsz.
  assert (Eu : u64 (bottom sz argv - (Z.of_nat (length argv) + 1) * 8) = bottom sz argv - (Z.of_nat (length argv) + 1) * 8).
  { pose proof (bottom_le argv sz). apply Z.mod_small. lia. }
  rewrite Eu. fold (vector_at sz argv). pose proof (align_down (bottom sz argv - (Z.of_nat (length argv) + 1) * 8)) as Hal. fold (vector_at sz argv) in Hal.
  destruct (Z.ltb_spec (vector_at sz argv) (sz - PGSIZE)) as [Hlow|Hok]; [exists None, k1; split_and!; (done || lia)|].
  set (bs := (slots sz argv ++ [0]) ≫= unle 8).
  assert (Hlen : length bs = (8 * S (length argv))%nat).
  { unfold bs. rewrite length_unles, length_app, length_slots. simpl. lia. }
  pose proof (bottom_le argv sz) as Hbl.
  destruct (push_bytes k1 (vector_at sz argv) bs Hps1 Hok) as (k2 & -> & Hps2 & Hk2 & Hs2 & Ho2); [lia|]. rewrite bind_some. cbn [Z.ltb Z.compare].
  exists (Some (vector_at sz argv)), k2. split; [done|]. split; [done|]. split; [by eapply kp_trans|].
  split_and!; [done | done | | | by rewrite <- Hlen].
  - intros x Hx Hno. rewrite Ho2, Ho by (done || lia). done.
  - apply (strings_keep (bytes k1) _ argv sz (bottom sz argv)) with (lo := vector_at sz argv); try done; [lia | change TRAPFRAME with 274877898752; lia | lia|].
    intros x Hx Hno. apply Ho2; [done | lia].
Qed.
End Push.

(** ** Two address spaces *)

(** A process whose memory is not being changed. *)
Record settled (m : ram) (p : eproc) (t : tree) (um : vmap) : Prop := mkSettled {
  st_view : view kend m (pagetable p) t um;
  st_users : users UVPN um;
  st_size : 0 <= psz p <= TRAPFRAME;
  st_below : forall v e, um !! v = Some e -> v < pages_of (psz p) \/ v = UVPN \/ v = VTRAMP
}.

Lemma settled_keeps m m' p t um : settled m p t um -> keeps m m' (tables t) -> settled m' p t um.
Proof. intros [A B C D] Hk. split; try done. by apply (view_keeps kend m). Qed.

Lemma pspace_settled k p t um free rest : pspace k (pagetable p) t um free rest (psz p) -> settled (bytes k) p t um.
Proof. intros [A B C D]. split; try done. by apply (aspace_view kend UVPN k _ t um free rest). Qed.

Lemma pspace_pages k root t um free rest sz : pspace k root t um free rest sz ->
  Forall page (tables t ++ data um ++ free ++ rest) /\ NoDup (tables t ++ data um ++ free ++ rest) /\ kmem_ok kend k free.
Proof.
  intros [[[Hk Hpt Hr Hn] _ _] _ _ _]. apply Forall_app in Hr as [Hd Hr]. split_and!; [| |done].
  - repeat apply Forall_app_2; [apply (pt_pages _ _ _ _ Hpt) | done | apply (k_pages _ _ _ Hk) | done].
  - by rewrite (Permutation_app_swap_app (data um)).
Qed.

Lemma rebuild k p t um free rest : kmem_ok kend k free -> settled (bytes k) p t um ->
  Forall page (tables t ++ data um ++ free ++ rest) -> NoDup (tables t ++ data um ++ free ++ rest) -> pspace k (pagetable p) t um free rest (psz p).
Proof.
  intros Hk [[Vp Vl Vv] Hu Hs Hb] Hp Hn. rewrite (Permutation_app_swap_app (data um)) in Hn. rewrite !Forall_app in Hp. destruct Hp as (_ & Hd & _ & Hr).
  split; [|done..]. split; [|done..]. split; [done | done | by apply Forall_app | done].
Qed.

(** The memory of [root] is given back, the other process stays. *)
Lemma give_back k root t um free sz p told uold R :
  pspace k root t um free (tables told ++ data uold ++ R) sz -> settled (bytes k) p told uold ->
  exists k' free', proc_freepagetable kend root sz k = Some k' /\ pspace k' (pagetable p) told uold free' R (psz p) /\
    free' ≡ₚ tables t ++ data um ++ free /\ keeps (bytes k) (bytes k') (tables told ++ data uold ++ R).
Proof.
  intros Hps Hold. destruct (pspace_pages _ _ _ _ _ _ _ Hps) as (Hp & Hn & _). pose proof Hps as [Has _ Hs Hb].
  destruct (proc_freepagetable_spec kend Hend k root t um free _ sz Has) as (k' & free' & E & Hk' & Hf & _ & Hkp);
    [lia | apply pages_limit; lia | done|]. exists k', free'. split; [done|]. split; [|done].
  assert (Hall : tables told ++ data uold ++ free' ++ R ≡ₚ tables t ++ data um ++ free ++ tables told ++ data uold ++ R).
  { rewrite Hf. solve_Permutation. }
  apply rebuild; [done | | by rewrite Hall | by rewrite Hall]. apply (settled_keeps (bytes k)); [done|]. apply (keeps_sub _ _ _ _ Hkp). set_solver.
Qed.

(** The other process becomes the one that is worked on. *)
Lemma turn_over k root t um free sz p told uold R name :
  pspace k root t um free (tables told ++ data uold ++ R) sz -> settled (bytes k) p told uold ->
  pspace k (pagetable p) told uold free (tables t ++ data um ++ R) (psz p) /\ settled (bytes k) (mkEproc root sz (trapframe p) name) t um.
Proof.
  intros Hps Hold. destruct (pspace_pages _ _ _ _ _ _ _ Hps) as (Hp & Hn & Hk). split; [|by apply (pspace_settled k (mkEproc root sz (trapframe p) name) t um free _ Hps)].
  assert (Hall : tables told ++ data uold ++ free ++ tables t ++ data um ++ R ≡ₚ tables t ++ data um ++ free ++ tables told ++ data uold ++ R) by solve_Permutation.
  apply rebuild; [done | done | by rewrite Hall | by rewrite Hall].
Qed.

(** ** The stack and the switch *)
Definition exec_name (path : cstr) : cstr := take 15 (last_elem path path).
Definition stack_top (sz : Z) : Z := (pages_of sz + 2) * PGSIZE.

(** What the new program finds: its arguments on the stack, the registers,
    and a page below the stack that it cannot touch. *)
Record started (m : ram) (um : vmap) (argv : list cstr) (top tf epc : Z) : Prop := mkStarted {
  sd_strings : strings_at um m argv (slots top argv);
  sd_vector : ubytes m um (vector_at top argv) (8 * S (length argv)) = (slots top argv ++ [0]) ≫= unle 8;
  sd_fits : top - PGSIZE <= vector_at top argv;
  sd_sp : load64 m (tf + TF_SP) = vector_at top argv;
  sd_a1 : load64 m (tf + TF_A1) = vector_at top argv;
  sd_epc : load64 m (tf + TF_EPC) = epc;
  sd_guard : exists e, um !! (top / PGSIZE - 2) = Some e /\ has PTE_U e = false
}.

Lemma roundup_space k root t um free rest sz : pspace k root t um free rest sz -> all_mapped um sz ->
  PGROUNDUP sz = pages_of sz * PGSIZE /\ pspace k root t um free rest (pages_of sz * PGSIZE) /\ all_mapped um (pages_of sz * PGSIZE) /\
  0 <= pages_of sz <= 32768.
Proof.
  intros Hps Hf. pose proof (mapped_bound kend Hend _ _ _ _ _ _ _ Hps Hf) as Hb. pose proof Hps as [A B C D]. unfold NPAGES in Hb.
  pose proof (pages_of_nonneg sz ltac:(lia)) as H0. split; [apply PGROUNDUP_pages; change MAXVA with 274877906944; change TRAPFRAME with 274877898752 in C; lia|].
  split; [|split; [unfold all_mapped; by rewrite pages_of_mul | lia]]. split; [done | done | change TRAPFRAME with 274877898752; change PGSIZE with 4096; lia|].
  by rewrite pages_of_mul.
Qed.

Lemma stack_entry p : page p -> has PTE_U (mkpte p (Z.lor (Z.lor PTE_R PTE_U) PTE_W)) = true /\ has PTE_W (mkpte p (Z.lor (Z.lor PTE_R PTE_U) PTE_W)) = true.
Proof. intros Hp. destruct (page_pa kend Hend p Hp). by rewrite !has_mkpte. Qed.

(** Stores to the trapframe touch no other page. *)
Definition set_frame (tf sp epc : Z) (m : ram) : ram := store64 (tf + TF_SP) sp (store64 (tf + TF_EPC) epc (store64 (tf + TF_A1) sp m)).

Lemma set_frame_out tf sp epc m x : ~ (tf <= x < tf + PGSIZE) -> set_frame tf sp epc m x = m x.
Proof. intros Hx. unfold set_frame, TF_SP, TF_EPC, TF_A1. change PGSIZE with 4096 in Hx. by rewrite !store64_out by lia. Qed.

Lemma set_frame_regs tf sp epc m : in_u64 sp -> in_u64 epc ->
  load64 (set_frame tf sp epc m) (tf + TF_SP) = sp /\ load64 (set_frame tf sp epc m) (tf + TF_A1) = sp /\ load64 (set_frame tf sp epc m) (tf + TF_EPC) = epc.
Proof.
  intros Hs He. unfold set_frame, TF_SP, TF_EPC, TF_A1. split_and!.
  - by apply load64_store64.
  - rewrite !load64_store64_ne by lia. by apply load64_store64.
  - rewrite load64_store64_ne by lia. by apply load64_store64.
Qed.

(** The registers are set and the old space is given back. *)
Lemma switch_over k root t um free sz p told uold others sp epc name :
  pspace k root t um free (tables told ++ data uold ++ trapframe p :: others) sz -> settled (bytes k) p told uold ->
  let tf := trapframe p in let p' := mkEproc root sz tf name in
  exists k' free', proc_freepagetable kend (pagetable p) (psz p) (set_bytes (set_frame tf sp epc) k) = Some k' /\
    pspace k' root t um free' (tf :: others) sz /\ free' ≡ₚ tables told ++ data uold ++ free /\
    keeps (bytes k) (bytes k') (tables t ++ data um ++ others) /\ keeps (set_frame tf sp epc (bytes k)) (bytes k') [tf].
Proof.
  intros Hps Hold tf p'. destruct (pspace_pages _ _ _ _ _ _ _ Hps) as (Hp & Hn & _). set (k1 := set_bytes (set_frame tf sp epc) k).
  assert (Hperm : tables t ++ data um ++ free ++ tables told ++ data uold ++ trapframe p :: others ≡ₚ
    tf :: tables t ++ data um ++ free ++ tables told ++ data uold ++ others) by (unfold tf; solve_Permutation).
  rewrite Hperm in Hp, Hn. apply Forall_cons in Hp as [Hptf Hp]. apply NoDup_cons in Hn as [Hntf _].
  assert (Hk1 : keeps (bytes k) (bytes k1) (tables t ++ data um ++ free ++ tables told ++ data uold ++ others)).
  { apply (keeps_page kend _ _ tf); try done. intros x Hx. by apply set_frame_out. }
  assert (Hps1 : pspace k1 root t um free (tables told ++ data uold ++ tf :: others) sz).
  { destruct Hps as [A B C D]. split; try done. apply (write_page kend Hend UVPN _ _ _ _ _ _ tf); [done | set_solver | intros m x Hx; by apply set_frame_out]. }
  assert (Hold1 : settled (bytes k1) p told uold) by (apply (settled_keeps (bytes k)); [done|]; apply (keeps_sub _ _ _ _ Hk1); set_solver).
  destruct (turn_over k1 root t um free sz p told uold (tf :: others) name Hps1 Hold1) as [Hps2 Hset].
  destruct (give_back k1 (pagetable p) told uold free (psz p) _ t um (tf :: others) Hps2 Hset) as (k2 & free2 & -> & Hps3 & Hfr & Hk2).
  exists k2, free2. split_and!; try done.
  - eapply kp_trans; [apply (keeps_sub _ _ _ _ Hk1) | apply (keeps_sub _ _ _ _ Hk2)]; set_solver.
  - apply (keeps_sub _ _ _ _ Hk2). set_solver.
Qed.

Lemma exec_stack_spec path argv epc root sz p k t um free told uold others :
  pspace k root t um free (tables told ++ data uold ++ trapframe p :: others) sz -> all_mapped um sz -> settled (bytes k) p told uold ->
  Forall (fun a => Z.of_nat (length a) < PGSIZE) argv -> (length argv < MAXARG)%nat -> in_u64 epc ->
  let tf := trapframe p in let top := stack_top sz in
  exists r p' k' t' um' free', exec_stack kend path argv epc root sz p k = Some (r, p', k') /\
    pspace k' (pagetable p') t' um' free' (tf :: others) (psz p') /\ keeps (bytes k) (bytes k') others /\
    tables t' ++ data um' ++ free' ≡ₚ (tables told ++ data uold) ++ tables t ++ data um ++ free /\
    ((r = -1 /\ p' = p /\ (t', um') = (told, uold) /\ keeps (bytes k) (bytes k') (data uold ++ [tf]) /\ (~ stack_fits top argv \/ (length free < 6)%nat)) \/
     (r = Z.of_nat (length argv) /\ p' = mkEproc root top tf (exec_name path) /\
        (forall x, 0 <= x < top - PGSIZE -> ubyte (bytes k') um' x = ubyte (bytes k) um x) /\ started (bytes k') um' argv top tf epc)).
Proof.
  intros Hps Hf Hold Hargs Hargc Hepc tf top. assert (HP : PGSIZE = 4096) by done.
  destruct (roundup_space _ _ _ _ _ _ _ Hps Hf) as (Er & Hps0 & Hf0 & Hpg). unfold exec_stack. rewrite Er. fold tf. set (v := pages_of sz) in *.
  unfold u64, USERSTACK. rewrite (Z.mod_small (v * PGSIZE + (1 + 1) * PGSIZE)) by lia.
  assert (Etop : v * PGSIZE + (1 + 1) * PGSIZE = top) by (unfold top, stack_top; fold v; lia). rewrite Etop.
  set (rest := tables told ++ data uold ++ trapframe p :: others) in *.
  destruct (exec_grow kend Hend root rest k t um free (v * PGSIZE) top PTE_W Hps0 Hf0 ltac:(lia) ltac:(by split))
    as (r & k1 & t1 & um1 & free1 & sz1 & -> & [Hps1 Hf1 Hk1 Htot1] & Hsb & Hres). rewrite bind_some.
  assert (Hold1 : settled (bytes k1) p told uold) by (apply (settled_keeps (bytes k)); [done|]; apply (keeps_sub _ _ _ _ Hk1); unfold rest; set_solver).
  destruct Hres as [(-> & -> & [G1 _] & _)|(-> & -> & -> & Hlen)]; cycle 1.
  { cbn [Z.eqb]. destruct (give_back k1 root t1 um free1 (v * PGSIZE) p told uold (tf :: others) Hps1 Hold1) as (k2 & free2 & -> & Hps2 & Hfr & Hk2). rewrite bind_some.
    assert (Hkk : keeps (bytes k) (bytes k2) rest) by (by eapply kp_trans).
    exists (-1), p, k2, told, uold, free2. split_and!; try done; [apply (keeps_sub _ _ _ _ Hkk); unfold rest; set_solver | |].
    - rewrite Hfr, Htot1. solve_Permutation.
    - left. split_and!; try done; [apply (keeps_sub _ _ _ _ Hkk); unfold rest; set_solver|]. right.
      replace (pages_of top) with (v + 2) in Hlen by (unfold top, stack_top; by rewrite pages_of_mul). rewrite pages_of_mul in Hlen. lia. }
  rewrite Z.max_r in * by lia. destruct (Z.eqb_spec top 0); [lia|]. rewrite pages_of_mul in G1.
  assert (Ept : pages_of top = v + 2) by (unfold top, stack_top; by rewrite pages_of_mul). rewrite Ept in G1.
  destruct (G1 v ltac:(lia)) as (pg & Hpgp & Ev). destruct (G1 (v + 1) ltac:(lia)) as (pw & Hpwp & Ew).
  replace (top - (1 + 1) * PGSIZE) with (v * PGSIZE) by lia. assert (HU : 40000 < UVPN) by done.
  destruct (uvmclear_spec kend Hend k1 root t1 um1 free1 rest top v _ Hps1 Ev ltac:(lia)) as (k2 & -> & Hps2 & Hk2 & Hd2 & Hby2). rewrite bind_some.
  set (um2 := <[v := no_user _]> um1) in *.
  assert (Hwr : forall x, top - PGSIZE <= x < top -> writable_at um2 x).
  { intros x Hx. assert (Ex : x / PGSIZE = v + 1) by (symmetry; apply (Z.div_unique x PGSIZE (v + 1) (x - (v + 1) * PGSIZE)); lia).
    eexists. rewrite Ex. unfold um2. rewrite lookup_insert_ne by lia. split; [done|]. by apply stack_entry. }
  assert (Htop : 2 * PGSIZE <= top <= TRAPFRAME) by (change TRAPFRAME with 274877898752; lia).
  destruct (push_stack_spec root rest t1 um2 free1 top Htop Hwr argv k2 Hargs Hargc Hps2) as (o & k3 & -> & Hps3 & Hk3 & Hres). rewrite bind_some.
  assert (Hkk : keeps (bytes k) (bytes k3) rest) by (eapply kp_trans; [exact Hk1 | by eapply kp_trans]).
  assert (Hold3 : settled (bytes k3) p told uold) by (apply (settled_keeps (bytes k)); [done|]; apply (keeps_sub _ _ _ _ Hkk); unfold rest; set_solver).
  destruct o as [sp|]; cycle 1.
  { destruct (give_back k3 root t1 um2 free1 top p told uold (tf :: others) Hps3 Hold3) as (k4 & free4 & -> & Hps4 & Hfr & Hk4). rewrite bind_some.
    assert (Hk04 : keeps (bytes k) (bytes k4) rest) by (by eapply kp_trans).
    exists (-1), p, k4, told, uold, free4. split_and!; try done; [apply (keeps_sub _ _ _ _ Hk04); unfold rest; set_solver | |].
    - rewrite Hfr, Hd2, Htot1. solve_Permutation.
    - left. split_and!; try done; [apply (keeps_sub _ _ _ _ Hk04); unfold rest; set_solver | by left]. }
  destruct Hres as (-> & Hfit & Hout & Hst & Hvec). set (sp := vector_at top argv) in *.
  destruct (switch_over k3 root t1 um2 free1 top p told uold others sp epc (exec_name path) Hps3 Hold3) as (k5 & free5 & E5 & Hps5 & Hfr & Hk5 & Hkf).
  fold tf in E5, Hps5, Hkf. cbv zeta. change (set_bytes _ (set_bytes _ k3)) with (set_bytes (set_frame tf sp epc) k3). rewrite E5, bind_some.
  assert (Hby5 : forall x, 0 <= x < TRAPFRAME -> ubyte (bytes k5) um2 x = ubyte (bytes k3) um2 x).
  { intros x Hx. rewrite trapframe_limit in Hx. apply (ubyte_keeps UVPN); [done|]. apply (keeps_sub _ _ _ _ Hk5). set_solver. }
  exists (Z.of_nat (length argv)), (mkEproc root top tf (exec_name path)), k5, t1, um2, free5. split_and!; try done.
  - eapply kp_trans; [apply (keeps_sub _ _ _ _ Hkk); unfold rest; set_solver|]. apply (keeps_sub _ _ _ _ Hk5). set_solver.
  - rewrite Hfr, Hd2. rewrite <- Htot1. solve_Permutation.
  - right. split_and!; try done.
    + intros x Hx. rewrite Hby5, Hout, Hby2, Hsb by lia. done.
    + pose proof (align_down (bottom top argv - (Z.of_nat (length argv) + 1) * 8)) as Hal. fold (vector_at top argv) in Hal. fold sp in Hal.
      unfold stack_fits, USERSTACK in Hfit. fold sp in Hfit. unfold MAXARG in Hargc. rewrite Z.mul_1_l in Hfit. pose proof (bottom_le argv top).
      destruct (set_frame_regs tf sp epc (bytes k3)) as (R1 & R2 & R3); [unfold in_u64; change TRAPFRAME with 274877898752 in Htop; lia | done|].
      assert (Hreg : forall o, 0 <= o -> o + 8 <= PGSIZE -> load64 (bytes k5) (tf + o) = load64 (set_frame tf sp epc (bytes k3)) (tf + o)).
      { intros o Ho1 Ho2. apply load64_ext. intros x Hx. apply (Hkf tf); [by apply list_elem_of_singleton | lia]. }
      split; fold sp; try (rewrite Hreg by (unfold TF_SP, TF_EPC, TF_A1; lia); done); try lia.
      * apply (strings_keep um2 (bytes k3) _ argv top (bottom top argv)) with (lo := bottom top argv); try done; try lia.
        intros x Hx _. by apply Hby5.
      * rewrite <- Hvec. apply ubytes_ext. intros x Hx. apply Hby5. lia.
      * exists (no_user (mkpte pg (Z.lor (Z.lor PTE_R PTE_U) PTE_W))). split; [|apply no_user_flags].
        replace (top / PGSIZE) with (v + 2) by (unfold top, stack_top; fold v; by rewrite Z.div_mul). replace (v + 2 - 2) with v by lia. apply lookup_insert_eq.
Qed.

(** ** A new address space *)
Section Fresh.
Context (trampoline tf : Z) (Htramp : 0 <= trampoline < 2 ^ 56) (Htal : trampoline mod PGSIZE = 0) (Htf : page tf).

Lemma fixed_lookup v e : fixed trampoline tf !! v = Some e -> (v = UVPN \/ v = VTRAMP) /\ has PTE_U e = false.
Proof.
  destruct (page_pa kend Hend tf Htf). destruct (decide (v = UVPN)) as [->|H1].
  { rewrite lookup_insert_eq. intros [= <-]. split; [by left|]. by rewrite has_mkpte. }
  rewrite lookup_insert_ne by done. destruct (decide (v = VTRAMP)) as [->|H2].
  { rewrite lookup_insert_eq. intros [= <-]. split; [by right|]. by rewrite has_mkpte. }
  rewrite lookup_insert_ne by done. by rewrite lookup_empty.
Qed.

Lemma fixed_none x : 0 <= x < TRAPFRAME -> fixed trampoline tf !! (x / PGSIZE) = None.
Proof.
  intros Hx. destruct (fixed trampoline tf !! (x / PGSIZE)) as [e|] eqn:E; [|done]. rewrite trapframe_limit in Hx.
  pose proof (vpn_lt UVPN x Hx). assert (UVPN < VTRAMP) by done. destruct (fixed_lookup _ _ E) as [[?|?] _]; lia.
Qed.

Lemma data_fixed : data (fixed trampoline tf) = [].
Proof.
  destruct (data (fixed trampoline tf)) as [|q l] eqn:E; [done|]. exfalso. assert (Hq : q ∈ data (fixed trampoline tf)) by (rewrite E; by left).
  apply elem_of_data in Hq as (v & e & Hv & Hlt & _). assert (UVPN < VTRAMP) by done. destruct (fixed_lookup _ _ Hv) as [[?|?] _]; lia.
Qed.

Lemma fresh_space k root t free rest : aspace k root t (fixed trampoline tf) free rest ->
  pspace k root t (fixed trampoline tf) free rest 0 /\ all_mapped (fixed trampoline tf) 0 /\ forall x, 0 <= x < TRAPFRAME -> ubyte (bytes k) (fixed trampoline tf) x = NUL.
Proof.
  intros Has. split; [|split].
  - split; [done | | done |].
    + intros v e Hv HU. destruct (fixed_lookup v e Hv) as [_ Hn]. congruence.
    + intros v e Hv. right. by apply (fixed_lookup v e).
  - intros v Hv. change (pages_of 0) with 0 in Hv. lia.
  - intros x Hx. unfold ubyte. by rewrite fixed_none.
Qed.
End Fresh.

(** ** [kexec] *)
Section Top.
Context (sb : superblock) (Hlay : layout_ok sb) (trampoline : Z) (Htramp : 0 <= trampoline < 2 ^ 56) (Htal : trampoline mod PGSIZE = 0).

Lemma same_entry i s : set_disk (fdisk s) (set_entry i (Itable.entry i s) s) = s.
Proof.
  destruct s as [d tab]. unfold set_disk, set_entry, Itable.entry. cbn [itab fdisk]. f_equal. apply list_eq. intros j.
  destruct (decide (j = i)) as [->|Hne]; [|by rewrite list_lookup_insert_ne]. destruct (tab !! i) as [x|] eqn:E.
  - rewrite list_lookup_insert_eq by (by apply (lookup_lt_Some _ _ x)). by rewrite (nth_lookup_Some _ _ _ x).
  - rewrite list_insert_ge; [done|]. by apply lookup_ge_None.
Qed.

(** The parts of an executable file. *)
Definition elf_of (d : disk) (ip : inode) : elfhdr := elfhdr_of (slice d ip 0 (Z.to_nat ELF_SIZE)).
Definition elf_headers (d : disk) (ip : inode) : list proghdr := headers d ip (Z.to_nat (phnum (elf_of d ip))) (i32 (phoff (elf_of d ip))).

(** Why a program may not be run. *)
Definition not_run (d : disk) (ip : inode) (argv : list cstr) (free : list Z) : Prop :=
  isize ip < ELF_SIZE \/ magic (elf_of d ip) <> ELF_MAGIC \/
  (exists o, o ∈ header_offs (Z.to_nat (phnum (elf_of d ip))) (i32 (phoff (elf_of d ip))) /\ unfit ip o (header d ip o)) \/
  ~ stack_fits (stack_top (image_size (elf_headers d ip))) argv \/
  Z.of_nat (length free) < 3 * pages_of (image_size (elf_headers d ip)) + 11.

Lemma kexec_spec path argv cwd p s k told uold free others i s1 s2 s3 :
  namei sb cwd path s = Ok (Some i, s1) -> ilock sb i s1 = Ok s2 -> iunlockput sb i s2 = Ok s3 ->
  disk_ok sb (fdisk s2) -> file_ok sb (fdisk s2) (Itable.entry i s2) ->
  pspace k (pagetable p) told uold free (trapframe p :: others) (psz p) ->
  Forall (fun a => Z.of_nat (length a) < PGSIZE) argv -> (length argv < MAXARG)%nat ->
  let d := fdisk s2 in let ip := Itable.entry i s2 in let tf := trapframe p in let top := stack_top (image_size (elf_headers d ip)) in
  exists r p' k' t' um' free', kexec sb kend trampoline path argv cwd p s k = Ok (r, p', s3, k') /\
    pspace k' (pagetable p') t' um' free' (tf :: others) (psz p') /\ keeps (bytes k) (bytes k') others /\
    tables t' ++ data um' ++ free' ≡ₚ tables told ++ data uold ++ free /\
    ((r = -1 /\ p' = p /\ (t', um') = (told, uold) /\ keeps (bytes k) (bytes k') (data uold ++ [tf]) /\ not_run d ip argv free) \/
     (r = Z.of_nat (length argv) /\ (exists root, p' = mkEproc root top tf (exec_name path)) /\
        (forall x, 0 <= x < top - PGSIZE -> ubyte (bytes k') um' x = image d ip (elf_headers d ip) x) /\
        started (bytes k') um' argv top tf (entry_pc (elf_of d ip)))).
Proof.
  intros En El Eu Hd Hip Hps Hargs Hargc d ip tf top. destruct (pspace_pages _ _ _ _ _ _ _ Hps) as (Hpg & Hnd & Hkm).
  pose proof (pspace_settled _ _ _ _ _ _ Hps) as Hold. unfold kexec. rewrite En. cbn [mbind res_bind]. rewrite El. cbn [mbind res_bind].
  fold d ip. destruct (readi_kernel sb Hlay d ip Hd Hip 0 ELF_SIZE ltac:(done) ltac:(done)) as (m & Hm & -> & Hall & Hget). cbn [mbind res_bind or_panic].
  assert (Hse : set_disk d (set_entry i ip s2) = s2) by apply same_entry. rewrite !Hse.
  assert (Hsame : forall free', free' ≡ₚ free -> forall k', kmem_ok kend k' free' -> keeps (bytes k) (bytes k') (tables told ++ data uold ++ tf :: others) ->
    pspace k' (pagetable p) told uold free' (tf :: others) (psz p)).
  { intros free' Hf k' Hk' Hkp. apply rebuild; [done | apply (settled_keeps (bytes k)); [done | apply (keeps_sub _ _ _ _ Hkp); clear; set_solver] | by rewrite Hf | by rewrite Hf]. }
  assert (Hstop : forall k' free', pspace k' (pagetable p) told uold free' (tf :: others) (psz p) -> free' ≡ₚ free ->
    keeps (bytes k) (bytes k') (tables told ++ data uold ++ tf :: others) -> not_run d ip argv free ->
    exists r p' k'' t' um' free'', (s' ← iunlockput sb i s2; Ok (-1, p, s', k')) = Ok (r, p', s3, k'') /\
      pspace k'' (pagetable p') t' um' free'' (tf :: others) (psz p') /\ keeps (bytes k) (bytes k'') others /\
      tables t' ++ data um' ++ free'' ≡ₚ tables told ++ data uold ++ free /\
      ((r = -1 /\ p' = p /\ (t', um') = (told, uold) /\ keeps (bytes k) (bytes k'') (data uold ++ [tf]) /\ not_run d ip argv free) \/
       (r = Z.of_nat (length argv) /\ (exists root, p' = mkEproc root top tf (exec_name path)) /\
          (forall x, 0 <= x < top - PGSIZE -> ubyte (bytes k'') um' x = image d ip (elf_headers d ip) x) /\
          started (bytes k'') um' argv top tf (entry_pc (elf_of d ip))))).
  { intros k' free' Hps' Hf Hkp Hno. exists (-1), p, k', told, uold, free'. rewrite Eu. cbn [mbind res_bind].
    split_and!; try done; [apply (keeps_sub _ _ _ _ Hkp); clear; set_solver | by rewrite Hf|]. left. split_and!; try done. apply (keeps_sub _ _ _ _ Hkp). clear. set_solver. }
  destruct (Z.eqb_spec m ELF_SIZE) as [->|Hne]; cbn [negb orb]; [|apply (Hstop k free Hps); [done | apply kp_refl | left; lia]].
  fold (elf_of d ip). destruct (Z.eqb_spec (magic (elf_of d ip)) ELF_MAGIC) as [_|Hmg]; cbn [negb]; [|apply (Hstop k free Hps); [done | apply kp_refl | by right; left]].
  set (rest := tables told ++ data uold ++ tf :: others).
  assert (Hpr : free ++ rest ≡ₚ tables told ++ data uold ++ free ++ tf :: others) by (unfold rest; solve_Permutation).
  assert (Hptf : page tf) by (rewrite Forall_forall in Hpg; apply Hpg; set_solver).
  destruct (page_pa kend Hend tf Hptf) as [Htf1 Htf2]. fold tf.
  set (phs := elf_headers d ip) in *. assert (Hsz0 : 0 <= pages_of (image_size phs)) by (apply pages_of_nonneg, add_size_le).
  destruct (proc_pagetable_spec kend Hend trampoline Htramp Htal k free rest tf Hkm) as (root & k1 & -> & Hk1 & Hres); [| |done|done|].
  { assert (Hp2 : Forall page (free ++ rest)) by (by rewrite Hpr). by apply Forall_app in Hp2 as [_ ?]. }
  { by rewrite Hpr. }
  cbn [mbind res_bind or_panic]. destruct Hres as [(-> & Hlen & free1 & Hkm1 & Hf1)|(Hnz & t1 & free1 & Has1 & Htot1 & Hlen)].
  { cbn [Z.eqb]. apply (Hstop k1 free1); [by apply Hsame | done | done|]. do 4 right. fold phs. lia. }
  destruct (Z.eqb_spec root 0); [done|]. destruct (fresh_space trampoline tf Htramp Hptf k1 root t1 free1 rest Has1) as (Hps1 & Hfull1 & Hz1).
  assert (Hd1 : data (fixed trampoline tf) = []) by (by apply data_fixed).
  destruct (load_loop_spec kend Hend sb Hlay d ip Hd Hip root rest (Z.to_nat (phnum (elf_of d ip))) k1 t1 _ free1 0 (i32 (phoff (elf_of d ip))) Hps1 Hfull1)
    as (ok & k2 & t2 & um2 & free2 & sz2 & E2 & [Hps2 Hfull2 Hk2 Htot2] & Hres2).
  fold (elf_headers d ip) in Hres2. fold phs in Hres2. fold (image_size phs) in Hres2. change (fdisk s2) with d. change (Itable.entry i s2) with ip.
  rewrite E2. cbn [mbind res_bind or_panic]. rewrite !Hse.
  assert (Hkk : keeps (bytes k) (bytes k2) rest) by (by eapply kp_trans).
  assert (Hold2 : settled (bytes k2) p told uold) by (apply (settled_keeps (bytes k)); [done|]; apply (keeps_sub _ _ _ _ Hkk); unfold rest; clear; set_solver).
  rewrite Hd1 in Htot2. cbn [app] in Htot2. assert (Hall2 : tables t2 ++ data um2 ++ free2 ≡ₚ free) by (by rewrite Htot2).
  destruct ok; cbn [negb].
  - destruct Hres2 as (-> & Hby2 & Hlen2). rewrite Eu. cbn [mbind res_bind].
    destruct (exec_stack_spec path argv (entry_pc (elf_of d ip)) root (image_size phs) p k2 t2 um2 free2 told uold others Hps2 Hfull2 Hold2 Hargs Hargc)
      as (r & p' & k3 & t3 & um3 & free3 & -> & Hps3 & Hk3 & Htot3 & Hend3); [apply (le_at_range 24 8)|]. cbn [mbind res_bind or_panic].
    exists r, p', k3, t3, um3, free3. split; [done|]. split; [done|].
    split; [eapply kp_trans; [|exact Hk3]; apply (keeps_sub _ _ _ _ Hkk); unfold rest; clear; set_solver|]. split; [by rewrite Htot3, Hall2, <- app_assoc|].
    destruct Hend3 as [(-> & -> & [= -> ->] & Hk4 & Hwhy)|(-> & -> & Hby3 & Hst)]; [left | right].
    + split; [reflexivity|]. split; [reflexivity|]. split; [reflexivity|]. split.
      * eapply kp_trans; [|exact Hk4]. apply (keeps_sub _ _ _ _ Hkk). unfold rest. clear. set_solver.
      * destruct Hwhy as [Hw|Hw]; [do 3 right; left; exact Hw | do 4 right]. fold phs. change (pages_of 0) with 0 in Hlen2. lia.
    + split; [reflexivity|]. split; [eexists; reflexivity|]. split; [|exact Hst]. intros x Hx. fold top in Hby3. rewrite Hby3 by exact Hx.
      assert (Hxl : 0 <= x < TRAPFRAME).
      { pose proof (ps_size _ _ _ _ _ _ _ _ Hps3) as Hs. cbn [psz] in Hs. fold top in Hs. change PGSIZE with 4096 in Hx. lia. }
      rewrite Hby2 by exact Hxl. apply put_headers_ext. apply Hz1. exact Hxl.
  - destruct (give_back k2 root t2 um2 free2 sz2 p told uold (tf :: others) Hps2 Hold2) as (k3 & free3 & -> & Hps3 & Hf3 & Hk3). cbn [mbind res_bind or_panic].
    apply (Hstop k3 free3 Hps3); [by rewrite Hf3 | by eapply kp_trans|]. destruct Hres2 as [Hu|Hm2]; [by do 2 right; left | do 4 right].
    fold phs. change (pages_of 0) with 0 in Hm2. lia.
Qed.

(** C16: [exec] replaces the program or changes nothing.  For a file in good
    order, whatever its bytes, and any arguments, [kexec] never panics, and
    releases the file.  Either it returns -1, and then the process has the
    page table, size and memory it had, every page that was taken on the way
    is back on the free list, and there is a reason: the file is no
    executable, one of its headers is unfit, the arguments do not fit the
    stack, or memory is short.  Or it returns the number of arguments, and
    then the process has a new address space that holds the segments of the
    file in the order of their headers and zeroes elsewhere, ends in a guard
    page and a stack with the strings, the vector of their addresses and a
    null pointer, starts at the entry of the file with the stack pointer and
    the second argument register at the vector, and every page of the old
    address space is free.  Pages of others are untouched and none is lost. *)
Theorem exec_replaces_or_undoes path argv cwd p s k told uold free others i s1 s2 s3 :
  namei sb cwd path s = Ok (Some i, s1) -> ilock sb i s1 = Ok s2 -> iunlockput sb i s2 = Ok s3 ->
  disk_ok sb (fdisk s2) -> file_ok sb (fdisk s2) (Itable.entry i s2) ->
  pspace k (pagetable p) told uold free (trapframe p :: others) (psz p) ->
  Forall (fun a => Z.of_nat (length a) < PGSIZE) argv -> (length argv < MAXARG)%nat ->
  let d := fdisk s2 in let ip := Itable.entry i s2 in let tf := trapframe p in let top := stack_top (image_size (elf_headers d ip)) in
  exists r p' k' t' um' free', kexec sb kend trampoline path argv cwd p s k = Ok (r, p', s3, k') /\
    pspace k' (pagetable p') t' um' free' (tf :: others) (psz p') /\ keeps (bytes k) (bytes k') others /\
    tables t' ++ data um' ++ free' ≡ₚ tables told ++ data uold ++ free /\
    ((r = -1 /\ p' = p /\ (t', um') = (told, uold) /\ keeps (bytes k) (bytes k') (data uold ++ [tf]) /\ not_run d ip argv free) \/
     (r = Z.of_nat (length argv) /\ (exists root, p' = mkEproc root top tf (exec_name path)) /\
        (forall x, 0 <= x < top - PGSIZE -> ubyte (bytes k') um' x = image d ip (elf_headers d ip) x) /\
        started (bytes k') um' argv top tf (entry_pc (elf_of d ip)))).
Proof. apply kexec_spec. Qed.
End Top.
End Stack.

(** ** A small program *)
Definition demo_elf : list ascii :=
  (unle 4 ELF_MAGIC ++ replicate 20 NUL ++ unle 8 16 ++ unle 8 64 ++ replicate 16 NUL ++ unle 2 1 ++ replicate 6 NUL) ++
  (unle 4 1 ++ unle 4 5 ++ unle 8 0 ++ unle 8 0 ++ unle 8 0 ++ unle 8 120 ++ unle 8 5000 ++ unle 8 4096).

Definition demo_written : Z * inode * disk := default (0, root_ip, demo_disk) (writei demo_sb (fun j => demo_elf !! j) 0 120 root_ip demo_disk).
Definition elf_ip : inode := demo_written.1.2.
Definition elf_disk : disk := demo_written.2.
Definition elf_fs : fsys := set_entry 0 (set_lock false elf_ip) (iinit elf_disk).

Lemma elf_file : disk_ok demo_sb elf_disk /\ file_ok demo_sb elf_disk elf_ip.
Proof.
  destruct (writei_spec demo_sb demo_layout (fun j => demo_elf !! j) 0 120 root_ip demo_disk demo_disk_ok)
    as (tot & m & ip' & d' & E & _ & _ & _ & _ & _ & _ & _ & Hf & Hd & _); [apply root_ok | done | lia | vm_compute; discriminate|].
  unfold elf_disk, elf_ip, demo_written. rewrite E. done.
Qed.

Definition elf_fs2 : fsys := set_entry 0 (set_lock true (set_ref 2 elf_ip)) (iinit elf_disk).

Lemma elf_file2 : file_ok demo_sb (fdisk elf_fs2) (Itable.entry 0 elf_fs2).
Proof.
  destruct elf_file as [_ [A B C D E]]. change (fdisk elf_fs2) with elf_disk. change (Itable.entry 0 elf_fs2) with (set_lock true (set_ref 2 elf_ip)).
  split; try done. by apply (wf_addrs demo_sb elf_disk _ elf_ip).
Qed.

Lemma exec_replaces_or_undoes_witness : exists k p k' p' (um' : vmap) s3,
  kexec demo_sb demo_end KERNBASE (str "/") [str "sh"; str "-c"] 0 p elf_fs k = Ok (2, p', s3, k') /\ psz p' = 4 * PGSIZE /\
  ubyte (bytes k') um' 1 = "E"%char /\ ubyte (bytes k') um' 4096 = NUL /\ load64 (bytes k') (trapframe p + TF_EPC) = 16.
Proof.
  destruct demo_pspace as (k & root & t & um & free & tf & Hlen & Hps). assert (He : KERNBASE <= demo_end) by (vm_compute; discriminate).
  set (p := mkEproc root 10000 tf []).
  destruct (iunlockput demo_sb 0 elf_fs2) as [s3| |] eqn:Eu; [|exfalso; vm_compute in Eu; discriminate Eu..].
  destruct (exec_replaces_or_undoes demo_end He demo_sb demo_layout KERNBASE ltac:(split; done) eq_refl (str "/") [str "sh"; str "-c"] 0 p elf_fs k t um free []
    0 (set_entry 0 (set_lock false (set_ref 2 elf_ip)) (iinit elf_disk)) elf_fs2 s3) as (r & p' & k' & t' & um' & free' & E & _ & _ & _ & Hres).
  - vm_compute. reflexivity.
  - vm_compute. reflexivity.
  - exact Eu.
  - apply elf_file.
  - exact elf_file2.
  - exact Hps.
  - repeat constructor.
  - vm_compute. lia.
  - destruct Hres as [(_ & _ & _ & _ & Hno)|(-> & (root' & ->) & Hby & [_ _ _ _ _ Hepc _])].
    + exfalso. destruct Hno as [Hn|[Hn|[(o & Ho & Hn)|[Hn|Hn]]]].
      * vm_compute in Hn. discriminate Hn.
      * apply Hn. vm_compute. reflexivity.
      * vm_compute in Ho. apply list_elem_of_singleton in Ho as ->. vm_compute in Hn. intuition discriminate.
      * apply Hn. vm_compute. discriminate.
      * change (pages_of _) with 2 in Hn. lia.
    + exists k, p, k', (mkEproc root' (4 * PGSIZE) tf (exec_name (str "/"))), um', s3. split; [exact E|]. split; [reflexivity|].
      split; [rewrite Hby by (vm_compute; intuition discriminate); vm_compute; reflexivity|].
      split; [rewrite Hby by (vm_compute; intuition discriminate); vm_compute; reflexivity|]. exact Hepc.
Defined.
