(* ===== verification/Umalloc.v ===== *)
(** * The allocator of user programs (xv6/user/umalloc.c)

    The circular list of free blocks of [malloc] and [free].  An address
    counts units of [sizeof(Header)], 16 bytes; a block is its header and
    what follows it.  The two fields of the headers are functions of the
    address; [brk] is the end of the memory of the process. *)
From S2P Require Import Prelude.
Local Open Scope Z_scope.

Record heap := mkHeap { hptr : Z -> Z; hsize : Z -> Z; freep : Z; brk : Z }.

Definition upd (f : Z -> Z) (a v : Z) : Z -> Z := fun x => if x =? a then v else f x.
Definition set_ptr (a v : Z) (h : heap) : heap := mkHeap (upd (hptr h) a v) (hsize h) (freep h) (brk h).
Definition set_size (a v : Z) (h : heap) : heap := mkHeap (hptr h) (upd (hsize h) a v) (freep h) (brk h).
Definition set_freep (p : Z) (h : heap) : heap := mkHeap (hptr h) (hsize h) p (brk h).
Definition set_brk (b : Z) (h : heap) : heap := mkHeap (hptr h) (hsize h) (freep h) b.

Section Umalloc.
(** The address of [base], and the memory the kernel can give. *)
Context (base limit : Z).

(** The loop of [free] that finds the block before [bp]. *)
Fixpoint find_place (fuel : nat) (bp p : Z) (h : heap) : option Z :=
  match fuel with
  | O => None
  | S fuel' =>
      if (p <? bp) && (bp <? hptr h p) then Some p
      else if (hptr h p <=? p) && ((p <? bp) || (bp <? hptr h p)) then Some p
      else find_place fuel' bp (hptr h p) h
  end.

(** [bp] joined with the block after it, if they meet. *)
Definition join_next (bp p : Z) (h : heap) : heap :=
  if bp + hsize h bp =? hptr h p then
    let h := set_size bp (u32 (hsize h bp + hsize h (hptr h p))) h in
    set_ptr bp (hptr h (hptr h p)) h
  else set_ptr bp (hptr h p) h.

Definition join_prev (bp p : Z) (h : heap) : heap :=
  if p + hsize h p =? bp then
    let h := set_size p (u32 (hsize h p + hsize h bp)) h in
    set_ptr p (hptr h bp) h
  else set_ptr p bp h.

Definition free (fuel : nat) (ap : Z) (h : heap) : option heap :=
  let bp := ap - 1 in
  p ← find_place fuel bp (freep h) h;
  Some (set_freep p (join_prev bp p (join_next bp p h))).

(** [sbrk(nu * sizeof(Header))]: the argument is an [int].  The kernel may
    refuse. *)
Definition sbrk (grant : bool) (bytes : Z) (h : heap) : option (Z * heap) :=
  let n := i32 bytes / 16 in
  if grant && (brk h + n <=? limit) then Some (brk h, set_brk (brk h + n) h) else None.

(** The result is [freep], [None] a refusal. *)
Definition morecore (fuel : nat) (grant : bool) (nu : Z) (h : heap) : option (option Z * heap) :=
  let nu := if nu <? 4096 then 4096 else nu in
  match sbrk grant (nu * 16) h with
  | None => Some (None, h)
  | Some (hp, h) => h ← free fuel (hp + 1) (set_size hp nu h); Some (Some (freep h), h)
  end.

(** Taking [n] from the block [p]. *)
Definition take_units (prevp p n : Z) (h : heap) : Z * heap :=
  if hsize h p =? n then (p + 1, set_freep prevp (set_ptr prevp (hptr h p) h))
  else
    let h := set_size p (u32 (hsize h p - n)) h in
    let p := p + hsize h p in
    (p + 1, set_freep prevp (set_size p n h)).

Fixpoint malloc_loop (fuel : nat) (grant : bool) (prevp p n : Z) (h : heap) : option (option Z * heap) :=
  match fuel with
  | O => None
  | S fuel' =>
      if n <=? hsize h p then let '(r, h) := take_units prevp p n h in Some (Some r, h)
      else if p =? freep h then
        '(r, h) ← morecore fuel grant n h;
        match r with
        | None => Some (None, h)
        | Some p => malloc_loop fuel' grant p (hptr h p) n h
        end
      else malloc_loop fuel' grant p (hptr h p) n h
  end.

(** The list before the first block. *)
Definition first_list (h : heap) : heap := if freep h =? 0 then set_size base 0 (set_freep base (set_ptr base base h)) else h.

Definition nunits (nbytes : Z) : Z := u32 ((nbytes + 16 - 1) / 16 + 1).

Definition malloc (fuel : nat) (grant : bool) (nbytes : Z) (h : heap) : option (option Z * heap) :=
  let n := nunits nbytes in
  let h := first_list h in
  malloc_loop fuel grant (freep h) (hptr h (freep h)) n h.

(** ** The list of free blocks *)
Abbreviation blk := (Z * Z)%type.

Definition haddr (l : list blk) (e : Z) : Z := match l with x :: _ => x.1 | [] => e end.

(** The headers link the blocks [l], the last one to [e]. *)
Fixpoint linked (h : heap) (l : list blk) (e : Z) : Prop :=
  match l with
  | [] => True
  | x :: l' => hsize h x.1 = x.2 /\ hptr h x.1 = haddr l' e /\ linked h l' e
  end.

(** In order of addresses, with gaps between them. *)
Fixpoint apart (l : list blk) : Prop :=
  match l with
  | x :: (y :: _) as l' => x.1 + x.2 < y.1 /\ apart l'
  | _ => True
  end.

Fixpoint zseq (a : Z) (n : nat) : list Z := match n with O => [] | S n' => a :: zseq (a + 1) n' end.
Definition units (x : blk) : list Z := zseq x.1 (Z.to_nat x.2).
Definition all_units (l : list blk) : list Z := l ≫= units.

Lemma zseq_app n m : forall a, zseq a (n + m) = zseq a n ++ zseq (a + Z.of_nat n) m.
Proof. induction n as [|n IH]; intros a; [simpl; by rewrite Z.add_0_r|]. simpl. rewrite IH. do 3 f_equal. lia. Qed.

Lemma elem_of_zseq n : forall a x, x ∈ zseq a n <-> a <= x < a + Z.of_nat n.
Proof.
  induction n as [|n IH]; intros a x; simpl; [rewrite elem_of_nil; lia|]. rewrite elem_of_cons, IH. lia.
Qed.

Lemma elem_of_units x u : 0 <= x.2 -> u ∈ units x <-> x.1 <= u < x.1 + x.2.
Proof. intros H. unfold units. rewrite elem_of_zseq. by rewrite Z2Nat.id. Qed.

Lemma units_split a n m : 0 <= n -> 0 <= m -> units (a, n + m) = units (a, n) ++ units (a + n, m).
Proof. intros Hn Hm. unfold units. cbn [fst snd]. rewrite Z2Nat.inj_add, zseq_app, Z2Nat.id by lia. done. Qed.

Lemma all_units_app l1 l2 : all_units (l1 ++ l2) = all_units l1 ++ all_units l2.
Proof. apply bind_app. Qed.

Lemma links_app h l1 l2 e : linked h (l1 ++ l2) e <-> linked h l1 (haddr l2 e) /\ linked h l2 e.
Proof.
  induction l1 as [|x l1 IH]; simpl; [tauto|]. rewrite IH. destruct l1; simpl; tauto.
Qed.

Lemma links_ext h h' l e : (forall x, x ∈ l -> hsize h' x.1 = hsize h x.1 /\ hptr h' x.1 = hptr h x.1) -> linked h l e -> linked h' l e.
Proof.
  induction l as [|x l IH]; intros H; simpl; [done|]. destruct (H x ltac:(by left)) as [-> ->]. intros (? & ? & ?). split_and!; try done.
  apply IH; [|done]. intros y Hy. apply H. by right.
Qed.

Lemma apart_app l1 x y l2 : apart (l1 ++ x :: y :: l2) <-> apart (l1 ++ [x]) /\ x.1 + x.2 < y.1 /\ apart (y :: l2).
Proof.
  induction l1 as [|z l1 IH]; [simpl; tauto|]. destruct l1 as [|w l1]; [simpl in *; tauto|].
  change (apart ((z :: w :: l1) ++ x :: y :: l2)) with (z.1 + z.2 < w.1 /\ apart ((w :: l1) ++ x :: y :: l2)).
  change (apart ((z :: w :: l1) ++ [x])) with (z.1 + z.2 < w.1 /\ apart ((w :: l1) ++ [x])). rewrite IH. tauto.
Qed.

Lemma apart_tail x l : apart (x :: l) -> apart l.
Proof. destruct l; simpl; tauto. Qed.

Lemma apart_lt l : forall x, apart (x :: l) -> Forall (fun y => 0 <= y.2) l -> forall y, y ∈ l -> x.1 + x.2 < y.1.
Proof.
  induction l as [|z l IH]; intros x Ha Hp y Hy; [by apply elem_of_nil in Hy|]. apply Forall_cons in Hp as [Hz Hp]. destruct Ha as [H1 H2].
  apply elem_of_cons in Hy as [->|Hy]; [done|]. specialize (IH z H2 Hp y Hy). lia.
Qed.

Lemma apart_suffix a b : apart (a ++ b) -> apart b.
Proof. induction a as [|x a IH]; [done|]. intros H. apply IH. by apply apart_tail in H. Qed.

(** The last block below [bp]. *)
Lemma place bp l : forall x, apart (x :: l) -> Forall (fun y => 0 <= y.2) (x :: l) -> x.1 < bp -> (forall y, y ∈ l -> y.1 <> bp) ->
  exists l1 z l2, x :: l = l1 ++ z :: l2 /\ z.1 < bp /\ (forall y, y ∈ l1 -> y.1 < z.1) /\ (forall y, y ∈ l2 -> bp < y.1).
Proof.
  induction l as [|y l IH]; intros x Ha Hp Hx Hne.
  { exists [], x, []. split_and!; try done; intros y Hy; by apply elem_of_nil in Hy. }
  destruct (Z.lt_total y.1 bp) as [Hlt|[E|Hgt]].
  - destruct (IH y (apart_tail _ _ Ha) ltac:(by apply Forall_cons in Hp as [_ ?]) Hlt) as (l1 & z & l2 & E & Hz & H1 & H2); [intros w Hw; apply Hne; by right|].
    exists (x :: l1), z, l2. rewrite E. split_and!; try done. intros w [->|Hw]%elem_of_cons; [|by apply H1].
    assert (Hin : z ∈ y :: l) by (rewrite E; set_solver). pose proof (apart_lt _ _ Ha ltac:(by apply Forall_cons in Hp as [_ ?]) z Hin).
    apply Forall_cons in Hp as [? _]. lia.
  - by destruct (Hne y ltac:(by left)).
  - exists [], x, (y :: l). split_and!; try done; [intros w Hw; by apply elem_of_nil in Hw|]. intros w [->|Hw]%elem_of_cons; [done|].
    apply Forall_cons in Hp as [_ Hp]. apply Forall_cons in Hp as [Hy Hp]. pose proof (apart_lt _ _ (apart_tail _ _ Ha) Hp w Hw). lia.
Qed.

(** ** Finding the place *)
Section Find.
Context (h : heap) (bp : Z).

Lemma find_here z l2 f : linked h (z :: l2) base -> base <= z.1 < bp -> (forall y, y ∈ l2 -> bp < y.1) -> find_place (S f) bp z.1 h = Some z.1.
Proof.
  intros (_ & E & _) Hz H2. cbn [find_place]. rewrite E. destruct l2 as [|y l2]; simpl.
  - destruct (Z.ltb_spec z.1 bp), (Z.ltb_spec bp base), (Z.leb_spec base z.1); simpl; (done || lia).
  - specialize (H2 y ltac:(by left)). destruct (Z.ltb_spec z.1 bp), (Z.ltb_spec bp y.1); simpl; (done || lia).
Qed.

Lemma find_forward z l2 f mid : linked h (mid ++ z :: l2) base -> base <= z.1 < bp -> (forall y, y ∈ l2 -> bp < y.1) ->
  apart (mid ++ z :: l2) -> Forall (fun y => 0 <= y.2) (mid ++ z :: l2) ->
  find_place (length mid + S f) bp (haddr (mid ++ z :: l2) base) h = Some z.1.
Proof.
  intros Hl Hz H2 Ha Hp. induction mid as [|x mid IH]; [by apply (find_here z l2)|].
  destruct Hl as (_ & E & Hl). assert (Hlt : x.1 < haddr (mid ++ z :: l2) base <= z.1).
  { apply Forall_cons in Hp as [Hx Hp]. destruct mid as [|y mid]; simpl in *; [lia|]. destruct Ha as [H1 Ha]. apply Forall_cons in Hp as [Hy Hp].
    pose proof (apart_lt _ _ Ha Hp z ltac:(set_solver)). lia. }
  cbn [length Nat.add haddr app find_place]. rewrite E. destruct (Z.ltb_spec x.1 bp), (Z.ltb_spec bp (haddr (mid ++ z :: l2) base)), (Z.leb_spec (haddr (mid ++ z :: l2) base) x.1); simpl; try lia.
  apply IH; [done | by apply apart_tail in Ha | by apply Forall_cons in Hp as [_ ?]].
Qed.

Lemma find_wrap f mid : linked h mid base -> base < bp -> (forall y, y ∈ mid -> bp < y.1) -> apart mid -> Forall (fun y => 0 <= y.2) mid ->
  find_place (length mid + f) bp (haddr mid base) h = find_place f bp base h.
Proof.
  intros Hl Hb Hm Ha Hp. induction mid as [|x mid IH]; [done|]. destruct Hl as (_ & E & Hl). pose proof (Hm x ltac:(by left)) as Hx.
  assert (Hnext : haddr mid base = base \/ x.1 < haddr mid base) by (destruct mid; [by left | right]; apply Forall_cons in Hp as [? _]; destruct Ha; simpl; lia).
  cbn [length Nat.add haddr find_place]. rewrite E. rewrite <- IH; [|done | intros y Hy; apply Hm; by right | by apply apart_tail in Ha | by apply Forall_cons in Hp as [_ ?]].
  destruct (Z.ltb_spec x.1 bp); [lia|]. cbn [andb orb].
  destruct (Z.leb_spec (haddr mid base) x.1), (Z.ltb_spec bp (haddr mid base)); simpl; (done || lia).
Qed.

(** From any block of the list, the place is found. *)
Lemma find_place_spec l1 z l2 p fuel : let L := l1 ++ z :: l2 in haddr L base = base ->
  linked h L base -> apart L -> Forall (fun y => 0 <= y.2) L -> base <= z.1 < bp -> (forall y, y ∈ l2 -> bp < y.1) ->
  p ∈ L.*1 -> (2 * length L < fuel)%nat -> find_place fuel bp p h = Some z.1.
Proof.
  intros L HL Hl Ha Hp Hz H2 (x & -> & Hx)%list_elem_of_fmap Hf. apply list_elem_of_split in Hx as (a & b & E). unfold L in E.
  assert (Hmore : forall f1 f2 q, (f1 <= f2)%nat -> find_place f1 bp q h = Some z.1 -> find_place f2 bp q h = Some z.1).
  { induction f1 as [|f1 IH]; intros [|f2] q Hle; try done; [lia|]. cbn [find_place]. destruct (_ && _); [done|]. destruct (_ && _); [done|]. apply IH. lia. }
  assert (Hfwd : forall a' b', l1 ++ z :: l2 = a' ++ b' -> (exists mid, b' = mid ++ z :: l2) -> find_place (S (length L)) bp (haddr b' base) h = Some z.1).
  { intros a' b' E' (mid & ->). apply (Hmore (length mid + 1)%nat); [unfold L; rewrite E', !length_app; simpl; lia|].
    unfold L in *. rewrite E' in Hl, Ha, Hp. apply links_app in Hl as [_ Hl]. apply Forall_app in Hp as [_ Hp].
    apply find_forward; try done. by apply apart_suffix in Ha. }
  assert (Hcase : (exists mid, x :: b = mid ++ z :: l2) \/ exists c, l2 = c ++ x :: b).
  { clear -E. revert l1 E. induction a as [|w a IH]; intros l1 E.
    - left. simpl in E. rewrite <- E. by exists l1.
    - destruct l1 as [|v l1]; simpl in E; injection E as -> E; [right; by exists a | apply (IH l1 E)]. }
  destruct Hcase as [Hm|(c & Ec)].
  - apply (Hmore (S (length L))); [lia|]. exact (Hfwd a (x :: b) E Hm).
  - assert (Hsub : forall y, y ∈ x :: b -> bp < y.1) by (intros y Hy; apply H2; rewrite Ec; set_solver).
    apply (Hmore (length (x :: b) + S (length L))%nat). { assert (length (x :: b) <= length L)%nat; [unfold L; rewrite E, length_app; lia | lia]. }
    change x.1 with (haddr (x :: b) base). rewrite find_wrap; [| | lia | done | |].
    + rewrite <- HL at 1. apply (Hfwd [] L); [done | by exists l1].
    + unfold L in Hl. rewrite E in Hl. by apply links_app in Hl as [_ ?].
    + unfold L in Ha. rewrite E in Ha. by apply apart_suffix in Ha.
    + unfold L in Hp. rewrite E in Hp. by apply Forall_app in Hp as [_ ?].
Qed.
End Find.

(** ** Joining *)
Lemma hupd_eq f a v : upd f a v a = v.
Proof. unfold upd. by rewrite Z.eqb_refl. Qed.

Lemma hupd_ne f a v x : x <> a -> upd f a v x = f x.
Proof. intros H. unfold upd. by destruct (Z.eqb_spec x a). Qed.

(** The headers other than the one of [a] are the same. *)
Definition same_but (a : Z) (h h' : heap) : Prop :=
  freep h' = freep h /\ brk h' = brk h /\ forall x, x <> a -> hsize h' x = hsize h x /\ hptr h' x = hptr h x.

Lemma linked_same h h' a l e : same_but a h h' -> (forall x, x ∈ l -> x.1 <> a) -> linked h l e -> linked h' l e.
Proof. intros (_ & _ & H) Ha. apply links_ext. intros x Hx. by apply H, Ha. Qed.

Lemma join_next_spec h bp n z l2 : linked h (z :: l2) base -> hsize h bp = n -> 0 < n -> z.1 < bp -> base < bp ->
  (forall y, y ∈ l2 -> bp < y.1) -> haddr l2 (bp + n) >= bp + n -> apart l2 -> Forall (fun y => 0 < y.2) l2 ->
  (forall y, y ∈ l2 -> n + y.2 < 2 ^ 32) ->
  exists n' l2', let h' := join_next bp z.1 h in same_but bp h h' /\ linked h' ((bp, n') :: l2') base /\ apart ((bp, n') :: l2') /\ 0 < n' /\
    units (bp, n') ++ all_units l2' = units (bp, n) ++ all_units l2 /\ (forall y, y ∈ l2' -> y ∈ l2) /\ (n' = n \/ exists y, y ∈ l2 /\ bp + n = y.1 /\ n' = n + y.2) /\ (length l2' <= length l2)%nat.
Proof.
  intros (_ & Ep & Hl) En Hn Hz Hb H2 Hge Ha Hp Hlim. unfold join_next. rewrite En, Ep. destruct l2 as [|y l2]; simpl in *.
  - destruct (Z.eqb_spec (bp + n) base); [lia|]. exists n, []. split; [split_and!; try done; intros x Hx; simpl; by rewrite hupd_ne|].
    simpl. rewrite hupd_eq. split_and!; try done; by left.
  - assert (Hy : y.1 <> bp) by (specialize (H2 y ltac:(by left)); lia). destruct Hl as (Ey & Epy & Hl). apply Forall_cons in Hp as [Hy0 Hp].
    assert (Hne : forall x, x ∈ l2 -> x.1 <> bp) by (intros x Hx; specialize (H2 x ltac:(by right)); lia).
    destruct (Z.eqb_spec (bp + n) y.1) as [E|E].
    + exists (n + y.2), l2. rewrite Ey, u32_id by (unfold in_u32; specialize (Hlim y ltac:(by left)); lia).
      assert (Hs : same_but bp h (set_ptr bp (haddr l2 base) (set_size bp (n + y.2) h))) by (split_and!; try done; intros x Hx; simpl; by rewrite !hupd_ne).
      change (hptr (set_size bp (n + y.2) h)) with (hptr h). rewrite Ep. cbn [haddr]. rewrite Epy. split; [done|]. split; [|split; [|split; [|split; [|split; [|split]]]]].
      * simpl. rewrite !hupd_eq. split; [done|]. split; [done|]. by apply (linked_same h _ bp).
      * destruct l2 as [|w l2]; [done|]. simpl in *. destruct Ha. split; [lia | done].
      * lia.
      * rewrite units_split by lia. rewrite E. unfold all_units. cbn [mbind list_bind]. rewrite <- app_assoc. by destruct y.
      * intros x Hx. by right.
      * right. exists y. split; [by left | done].
      * simpl. lia.
    + exists n, (y :: l2). assert (Hs : same_but bp h (set_ptr bp y.1 h)) by (split_and!; try done; intros x Hx; simpl; by rewrite hupd_ne).
      split; [done|]. split; [|split; [split; [cbn [fst snd]; lia | done]|split; [done|split; [done|split; [done|split; [by left | done]]]]]].
      cbn [linked fst snd haddr]. split; [done|]. split; [apply hupd_eq|]. change (linked (set_ptr bp y.1 h) (y :: l2) base). apply (linked_same h _ bp); [done | | done].
      intros x [->|Hx]%elem_of_cons; auto.
Qed.

(** ** The state of the allocator *)
Record ok (h : heap) (bl al : list blk) : Prop := mkOk {
  o_links : linked h ((base, 0) :: bl) base;
  o_apart : apart ((base, 0) :: bl);
  o_freep : freep h ∈ ((base, 0) :: bl).*1;
  o_sizes : Forall (fun x => 0 < x.2) (bl ++ al);
  o_heads : Forall (fun x => hsize h x.1 = x.2) al;
  o_nodup : NoDup (all_units (bl ++ al));
  o_range : forall u, u ∈ all_units (bl ++ al) -> base < u < brk h;
  o_brk : base < brk h <= limit
}.

#[export] Instance all_units_perm : Proper (Permutation ==> Permutation) all_units.
Proof. intros l l' H. unfold all_units. by rewrite H. Qed.

Lemma ok_perm h bl al al' : al ≡ₚ al' -> ok h bl al -> ok h bl al'.
Proof. intros E [A B C D F G H I]. split; try done; try (intros u; rewrite <- E; auto); by rewrite <- E. Qed.

Context (Hbase : 0 < base) (Hlimit : limit < 2 ^ 32).

Lemma block_unit l x : x ∈ l -> forall u, u ∈ units x -> u ∈ all_units l.
Proof. intros Hx u Hu. unfold all_units. apply list_elem_of_bind. by exists x. Qed.

Lemma head_unit x : 0 < x.2 -> x.1 ∈ units x.
Proof. intros H. apply elem_of_units; lia. Qed.

(** Blocks of two lists do not overlap. *)
Lemma blocks_apart l1 l2 x y : NoDup (all_units (l1 ++ l2)) -> x ∈ l1 -> y ∈ l2 -> 0 < x.2 -> 0 < y.2 -> x.1 + x.2 <= y.1 \/ y.1 + y.2 <= x.1.
Proof.
  intros Hn Hx Hy Px Py. rewrite all_units_app in Hn. apply NoDup_app in Hn as (_ & Hd & _).
  destruct (Z.le_gt_cases (x.1 + x.2) y.1); [by left|]. destruct (Z.le_gt_cases (y.1 + y.2) x.1); [by right|]. exfalso.
  apply (Hd (Z.max x.1 y.1)); [apply (block_unit l1 x Hx) | apply (block_unit l2 y Hy)]; apply elem_of_units; lia.
Qed.

(** A block that [bp] meets from below grows, another one is linked to it. *)
Lemma join_prev_spec h bp n (z : blk) l2 : linked h ((bp, n) :: l2) base -> hsize h z.1 = z.2 -> z.1 < bp -> 0 <= z.2 -> 0 < n -> z.1 + z.2 <= bp ->
  z.2 + n < 2 ^ 32 -> apart ((bp, n) :: l2) -> (forall y, y ∈ l2 -> bp < y.1) ->
  exists (z' : blk) l2', let h' := join_prev bp z.1 h in same_but z.1 h h' /\ linked h' (z' :: l2') base /\ apart (z' :: l2') /\ z'.1 = z.1 /\
    units z' ++ all_units l2' = units z ++ units (bp, n) ++ all_units l2 /\ (forall y, y ∈ l2' -> y = (bp, n) \/ y ∈ l2) /\
    (z' = z /\ l2' = (bp, n) :: l2 \/ z.1 + z.2 = bp /\ z'.2 = z.2 + n) /\ (length l2' <= S (length l2))%nat.
Proof.
  intros Hl Ez Hz Hz0 Hn Hle Hlim Ha H2. assert (Hl' := Hl). destruct Hl' as (En & Ep & Hl2). cbn [fst snd] in *. unfold join_prev. rewrite Ez.
  assert (Hne : forall x, x ∈ l2 -> x.1 <> z.1) by (intros x Hx; specialize (H2 x Hx); lia).
  destruct (Z.eqb_spec (z.1 + z.2) bp) as [E|E].
  - exists (z.1, z.2 + n), l2. rewrite En, u32_id by (unfold in_u32; lia). change (hptr (set_size z.1 (z.2 + n) h)) with (hptr h). rewrite Ep.
    assert (Hs : same_but z.1 h (set_ptr z.1 (haddr l2 base) (set_size z.1 (z.2 + n) h))) by (split_and!; try done; intros x Hx; simpl; by rewrite !hupd_ne).
    split; [done|]. split; [|split; [|split; [done|split; [|split; [|split]]]]].
    + simpl. rewrite !hupd_eq. split; [done|]. split; [done|]. by apply (linked_same h _ z.1).
    + destruct l2 as [|w l2]; [done|]. destruct Ha as [? ?]. split; [cbn [fst snd] in *; lia | done].
    + rewrite units_split, <- app_assoc by lia. rewrite E. by destruct z.
    + auto.
    + right. done.
    + lia.
  - exists z, ((bp, n) :: l2). assert (Hs : same_but z.1 h (set_ptr z.1 bp h)) by (split_and!; try done; intros x Hx; simpl; by rewrite hupd_ne).
    split; [done|]. split; [|split; [|split; [done|split; [done|split; [|split; [by left | done]]]]]].
    + cbn [linked]. split; [done|]. split; [apply hupd_eq|]. change (linked (set_ptr z.1 bp h) ((bp, n) :: l2) base). apply (linked_same h _ z.1); [done | | done].
      intros x [->|Hx]%elem_of_cons; [simpl; lia | auto].
    + split; [cbn [fst]; lia | done].
    + intros y [->|Hy]%elem_of_cons; auto.
Qed.

Lemma block_range h bl al (x : blk) : ok h bl al -> x ∈ bl ++ al -> base < x.1 /\ x.1 + x.2 <= brk h /\ 0 < x.2.
Proof.
  intros [_ _ _ Hs _ _ Hr _] Hx. rewrite Forall_forall in Hs. specialize (Hs x Hx).
  pose proof (Hr x.1 (block_unit _ _ Hx _ (head_unit x Hs))). assert (x.1 + x.2 - 1 ∈ units x) as Hu by (apply elem_of_units; lia).
  pose proof (Hr _ (block_unit _ _ Hx _ Hu)). lia.
Qed.

Lemma all_units_cons (x : blk) l : all_units (x :: l) = units x ++ all_units l.
Proof. done. Qed.

Lemma apart_replace l1 (z z' : blk) l2 l2' : apart (l1 ++ z :: l2) -> z'.1 = z.1 -> apart (z' :: l2') -> apart (l1 ++ z' :: l2').
Proof.
  intros H E H'. induction l1 as [|x l1 IH]; [done|]. destruct l1 as [|y l1].
  - destruct H as [H _]. split; [by rewrite E | done].
  - destruct H as [? H]. split; [done | by apply IH].
Qed.

(** The list changed after [z], and the blocks that are taken. *)
Lemma ok_relink h h' bl al al' l1 (z z' : blk) l2 l2' : ok h bl al -> (base, 0) :: bl = l1 ++ z :: l2 ->
  linked h' (l1 ++ z' :: l2') base -> apart (z' :: l2') -> z'.1 = z.1 -> (z' = z \/ 0 < z'.2) -> Forall (fun y => 0 < y.2) l2' -> (base, 0) ∈ l1 ++ [z'] ->
  Forall (fun x => 0 < x.2 /\ hsize h' x.1 = x.2) al' -> freep h' = z.1 -> brk h' = brk h ->
  units z' ++ all_units l2' ++ all_units al' ≡ₚ units z ++ all_units l2 ++ all_units al ->
  exists bl', l1 ++ z' :: l2' = (base, 0) :: bl' /\ ok h' bl' al' /\ all_units (bl' ++ al') ≡ₚ all_units (bl ++ al).
Proof.
  intros Hok EL Hl Ha Ez Hz Hp Hb Hh Hf Hk Hu. destruct Hok as [_ Ha0 _ Hs _ Hn Hr Hbk]. rewrite EL in Ha0.
  assert (HA : apart (l1 ++ z' :: l2')) by (by eapply apart_replace).
  assert (HE : exists bl', l1 ++ z' :: l2' = (base, 0) :: bl').
  { destruct l1 as [|y l1]; [|injection EL as <- _; by eexists]. apply elem_of_cons in Hb as [<-|Hb]; [|by apply elem_of_nil in Hb]. by eexists. }
  destruct HE as (bl' & E). exists bl'. split; [done|].
  assert (HP : all_units (bl' ++ al') ≡ₚ all_units (bl ++ al)).
  { change (all_units (bl' ++ al')) with (all_units (((base, 0) :: bl') ++ al')). change (all_units (bl ++ al)) with (all_units (((base, 0) :: bl) ++ al)).
    rewrite <- E, EL, !all_units_app, !all_units_cons, <- !app_assoc, Hu. done. }
  apply Forall_app in Hs as [Hsb Hsa]. split; [|done]. split.
  - by rewrite <- E.
  - by rewrite <- E.
  - rewrite <- E, Hf, fmap_app. cbn [fmap list_fmap]. rewrite Ez. apply elem_of_app. right. by left.
  - apply Forall_app. split; [|eapply Forall_impl; [exact Hh|]; by intros ? []]. rewrite Forall_forall in Hsb |- *. intros y Hy.
    assert (HQ : forall w, w ∈ l1 ++ z' :: l2' -> w = (base, 0) \/ 0 < w.2).
    { intros w Hw. apply elem_of_app in Hw as [Hw|[->|Hw]%elem_of_cons]; [| |by rewrite Forall_forall in Hp; auto].
      - assert (Hin : w ∈ (base, 0) :: bl) by (rewrite EL; set_solver). apply elem_of_cons in Hin as [?|?]; auto.
      - destruct Hz as [->|?]; [|auto]. assert (Hin : z ∈ (base, 0) :: bl) by (rewrite EL; set_solver). apply elem_of_cons in Hin as [?|?]; auto. }
    destruct (HQ y) as [->|?]; [rewrite E; by right | exfalso | done]. rewrite E in HA, HQ.
    assert (Hge : Forall (fun w : blk => 0 <= w.2) bl') by (apply Forall_forall; intros w Hw; destruct (HQ w) as [->|?]; [by right | simpl; lia | lia]).
    pose proof (apart_lt _ _ HA Hge _ Hy) as Hlt. simpl in Hlt. lia.
  - eapply Forall_impl; [exact Hh|]. by intros ? [].
  - by rewrite HP.
  - intros u. rewrite HP, Hk. apply Hr.
  - by rewrite Hk.
Qed.

(** Where a block that is not free belongs in the list. *)
Lemma free_place h bl al bp n : ok h bl ((bp, n) :: al) ->
  exists l1 z l2, (base, 0) :: bl = l1 ++ z :: l2 /\ base <= z.1 < bp /\ z.1 + z.2 <= bp /\ 0 <= z.2 /\ (forall y, y ∈ l1 -> y.1 < z.1) /\
    (forall y, y ∈ l2 -> y ∈ bl /\ bp + n <= y.1) /\ (z = (base, 0) \/ z ∈ bl).
Proof.
  intros Hok. assert (Hin : (bp, n) ∈ (bp, n) :: al) by (by left). destruct (block_range _ _ _ (bp, n) Hok) as (Hb & _ & Hn); [set_solver|]. cbn [fst snd] in *.
  assert (Hd : forall y, y ∈ bl -> 0 < y.2 /\ (y.1 + y.2 <= bp \/ bp + n <= y.1)).
  { intros y Hy. destruct (block_range _ _ _ y Hok) as (_ & _ & Hy0); [set_solver|]. split; [done|]. by apply (blocks_apart bl _ y (bp, n) (o_nodup _ _ _ Hok) Hy Hin). }
  destruct (place bp bl (base, 0) (o_apart _ _ _ Hok)) as (l1 & z & l2 & EL & Hz & H1 & H2).
  { constructor; [simpl; lia|]. apply Forall_forall. intros y Hy. destruct (Hd y Hy). lia. }
  { simpl. lia. }
  { intros y Hy E. destruct (Hd y Hy). lia. }
  assert (Hall : forall y, y ∈ l1 ++ z :: l2 -> y = (base, 0) \/ y ∈ bl) by (intros y; rewrite <- EL; by intros [?|?]%elem_of_cons; auto).
  assert (Hzb : z = (base, 0) \/ z ∈ bl) by (apply Hall; set_solver).
  exists l1, z, l2. split; [done|]. assert (Hz0 : base <= z.1 /\ 0 <= z.2 /\ z.1 + z.2 <= bp).
  { destruct Hzb as [->|Hzb]; [simpl; lia|]. destruct (Hd z Hzb). destruct (block_range _ _ _ z Hok); [set_solver|]. lia. }
  split; [lia|]. split; [lia|]. split; [lia|]. split; [done|]. split; [|done].
  intros y Hy. specialize (H2 y Hy). destruct (Hall y ltac:(set_solver)) as [->|Hyb]; [simpl in H2; lia|]. split; [done|]. destruct (Hd y Hyb). lia.
Qed.

Lemma taken_apart h bl al x : ok h bl (x :: al) -> forall a b, a ∈ x :: bl -> b ∈ al -> b.1 <> a.1.
Proof.
  intros Hok a b Ha Hb. destruct (block_range _ _ _ a Hok) as (_ & _ & A0); [set_solver|]. destruct (block_range _ _ _ b Hok) as (_ & _ & B0); [set_solver|].
  pose proof (o_nodup _ _ _ Hok) as Hn. replace (bl ++ x :: al) with ((bl ++ [x]) ++ al) in Hn by (by rewrite <- app_assoc).
  destruct (blocks_apart _ _ a b Hn) as [?|?]; [set_solver | done | done | done | lia | lia].
Qed.

(** Giving a block back. *)
Lemma free_spec h bl al bp n fuel : ok h bl ((bp, n) :: al) -> (2 * length bl + 2 < fuel)%nat ->
  exists h' bl', free fuel (bp + 1) h = Some h' /\ ok h' bl' al /\ all_units (bl' ++ al) ≡ₚ all_units (bl ++ (bp, n) :: al) /\ brk h' = brk h /\
    (length bl' <= S (length bl))%nat /\ exists x, x ∈ bl' /\ n <= x.2.
Proof.
  intros Hok Hfuel. destruct (free_place _ _ _ _ _ Hok) as (l1 & z & l2 & EL & Hz & Hzle & Hz0 & H1 & H2 & Hzb).
  destruct (block_range _ _ _ (bp, n) Hok) as (Hb & Hbe & Hn); [set_solver|]. cbn [fst snd] in *.
  pose proof Hok as [Hl Ha Hf Hs Hh _ _ Hk]. apply Forall_cons in Hh as [Hhb Hha]. cbn [fst snd] in Hhb.
  assert (Hr2 : forall y, y ∈ l2 -> bp + n <= y.1 /\ y.1 + y.2 <= brk h /\ 0 < y.2).
  { intros y Hy. destruct (H2 y Hy) as [Hy1 Hy2]. destruct (block_range _ _ _ y Hok) as (_ & ? & ?); [set_solver | done]. }
  rewrite EL in Hl, Ha, Hf. pose proof Hl as Hl0. apply links_app in Hl0 as [Hl1 Hlz]. pose proof (apart_suffix _ _ Ha) as Haz.
  unfold free. replace (bp + 1 - 1) with bp by lia. rewrite (find_place_spec h bp l1 z l2 (freep h) fuel); cycle 1.
  { by rewrite <- EL. } { done. } { done. }
  { rewrite <- EL. constructor; [simpl; lia|]. apply Forall_app in Hs as [Hs _]. eapply Forall_impl; [exact Hs|]. simpl. lia. }
  { done. } { intros y Hy. destruct (Hr2 y Hy). lia. } { done. } { rewrite <- EL. simpl. lia. }
  cbn [mbind option_bind]. destruct (join_next_spec h bp n z l2 Hlz Hhb Hn) as (n' & l2' & Hs1 & Hln & Han & Hn' & Hun & Hsub & Hcase & Hlen); [lia | lia | | | | | |].
  { intros y Hy. destruct (Hr2 y Hy). lia. }
  { destruct l2 as [|y l2]; simpl; [lia|]. destruct (Hr2 y ltac:(by left)). lia. }
  { by apply apart_tail in Haz. }
  { apply Forall_forall. intros y Hy. by destruct (Hr2 y Hy) as (_ & _ & ?). }
  { intros y Hy. destruct (Hr2 y Hy) as (? & ? & _). lia. }
  set (h1 := join_next bp z.1 h) in *. assert (Hn'' : n <= n' /\ bp + n' <= brk h).
  { destruct Hcase as [->|(y & Hy & Ey & ->)]; [lia|]. destruct (Hr2 y Hy) as (? & ? & ?). lia. }
  assert (Hz1 : hsize h1 z.1 = z.2) by (rewrite (proj1 (proj2 (proj2 Hs1) z.1 ltac:(lia))); by destruct Hlz).
  destruct (join_prev_spec h1 bp n' z l2' Hln Hz1) as (z' & l3 & Hs2 & Hlz' & Haz' & Ez & Hu2 & Hsub2 & Hcase2 & Hlen2); try lia; [done | |].
  { intros y Hy. destruct (Hr2 y (Hsub y Hy)). lia. }
  set (h2 := join_prev bp z.1 h1) in *. assert (Hkeep : forall x, x <> bp -> x <> z.1 -> hsize h2 x = hsize h x /\ hptr h2 x = hptr h x).
  { intros x X1 X2. destruct (proj2 (proj2 Hs2) x X2) as [-> ->]. by apply Hs1. }
  edestruct (ok_relink h (set_freep z.1 h2) bl ((bp, n) :: al) al l1 z z' l2 l3) as (bl' & Ebl & Hok' & Hu'); try done.
  { apply links_app. cbn [haddr]. rewrite Ez. split; [|eapply links_ext; [|exact Hlz']; by intros ? _]. eapply links_ext; [|exact Hl1]. intros x Hx. specialize (H1 x Hx). apply Hkeep; lia. }
  { destruct Hcase2 as [[-> _]|[? ?]]; [by left | right; lia]. }
  { apply Forall_forall. intros y Hy. destruct (Hsub2 y Hy) as [->|Hy']; [done|]. destruct (Hr2 y (Hsub y Hy')) as (_ & _ & ?). done. }
  { destruct l1 as [|w l1]; injection EL as <- _; [|simpl; by left]. destruct Hcase2 as [[-> _]|[E2 _]]; [simpl; by left | simpl in *; lia]. }
  { apply Forall_forall. intros x Hx. rewrite Forall_forall in Hha. split; [by destruct (block_range _ _ _ x Hok) as (_ & _ & ?); [set_solver|]|]. rewrite <- (Hha x Hx). simpl. apply Hkeep.
    - apply (taken_apart _ _ _ _ Hok (bp, n) x); [set_solver | done].
    - destruct Hzb as [->|Hzb]; [destruct (block_range _ _ _ x Hok); [set_solver | simpl; lia]|].
      apply (taken_apart _ _ _ _ Hok z x); [set_solver | done]. }
  { simpl. transitivity (brk h1); [apply Hs2 | apply Hs1]. }
  { rewrite app_assoc, Hu2, Hun, all_units_cons. clear. solve_Permutation. }
  eexists _, bl'. split; [reflexivity|]. split; [done|]. split; [done|]. split; [transitivity (brk h1); [apply Hs2 | apply Hs1]|].
  assert (Hl' : (length bl' <= S (length bl))%nat).
  { apply (f_equal length) in Ebl, EL. rewrite length_app in Ebl, EL. simpl in *. lia. }
  split; [done|]. assert (Hx : exists x, x ∈ l1 ++ z' :: l3 /\ n <= x.2).
  { destruct Hcase2 as [[_ ->]|[_ E2]]; [exists (bp, n') | exists z']; (split; [set_solver | simpl; lia]). }
  destruct Hx as (x & Hx & Hxn). exists x. split; [|done]. rewrite Ebl in Hx. apply elem_of_cons in Hx as [->|?]; [simpl in Hxn; lia | done].
Qed.

(** ** More memory *)
Lemma free_block_ne h bl al a : ok h bl al -> (forall x : blk, x ∈ bl ++ al -> x.1 <> a) -> a <> base -> forall x : blk, x ∈ (base, 0) :: bl -> x.1 <> a.
Proof. intros Hok Ha Hb x [->|Hx]%elem_of_cons; [simpl; lia|]. apply Ha. set_solver. Qed.

Lemma ok_grow h bl al nu : ok h bl al -> 0 < nu -> brk h + nu <= limit ->
  ok (set_size (brk h) nu (set_brk (brk h + nu) h)) bl ((brk h, nu) :: al).
Proof.
  intros Hok Hnu Hlim. assert (Hne : forall x : blk, x ∈ bl ++ al -> x.1 <> brk h) by (intros x Hx; destruct (block_range _ _ _ x Hok Hx) as (? & ? & ?); lia).
  pose proof Hok as [Hl Ha Hf Hs Hh Hn Hr Hk].
  assert (HP : all_units (bl ++ (brk h, nu) :: al) ≡ₚ units (brk h, nu) ++ all_units (bl ++ al)) by (rewrite !all_units_app, all_units_cons; clear; solve_Permutation).
  split; try done.
  - eapply links_ext; [|exact Hl]. intros x Hx. simpl. rewrite hupd_ne; [done|]. eapply free_block_ne; [done | done | lia | done].
  - apply Forall_app in Hs as [? ?]. apply Forall_app. split; [done|]. by constructor.
  - constructor; [simpl; apply hupd_eq|]. apply Forall_forall. intros x Hx. simpl. rewrite hupd_ne; [by rewrite Forall_forall in Hh; apply Hh|]. apply Hne. set_solver.
  - rewrite HP. apply NoDup_app. split; [|split; [|done]].
    + clear. unfold units. generalize (brk h, nu).1. induction (Z.to_nat (brk h, nu).2) as [|k IH]; intros a; simpl; constructor; [rewrite elem_of_zseq; lia | done].
    + intros u Hu Hu'. apply Hr in Hu'. apply elem_of_units in Hu; simpl in *; lia.
  - intros u. rewrite HP, elem_of_app. simpl. intros [Hu|Hu]; [apply elem_of_units in Hu; simpl in *; lia|]. apply Hr in Hu. lia.
  - simpl. lia.
Qed.

(** What [morecore] asks for. *)
Definition core_units (nu : Z) : Z := Z.max 4096 nu.
Definition granted (grant : bool) (nu : Z) (h : heap) : bool := grant && (brk h + core_units nu <=? limit).

Lemma morecore_spec h bl al grant nu fuel : ok h bl al -> nu < 2 ^ 27 -> (2 * length bl + 2 < fuel)%nat ->
  if granted grant nu h then
    exists h' bl', morecore fuel grant nu h = Some (Some (freep h'), h') /\ ok h' bl' al /\
      all_units (bl' ++ al) ≡ₚ all_units (bl ++ (brk h, core_units nu) :: al) /\ brk h' = brk h + core_units nu /\ (length bl' <= S (length bl))%nat /\
      exists x, x ∈ bl' /\ nu <= x.2
  else morecore fuel grant nu h = Some (None, h).
Proof.
  intros Hok Hnu Hf. unfold granted, morecore, core_units. replace (if nu <? 4096 then 4096 else nu) with (Z.max 4096 nu) by (destruct (Z.ltb_spec nu 4096); lia).
  set (m := Z.max 4096 nu) in *. unfold sbrk. rewrite i32_id by (unfold in_i32; lia). rewrite Z.div_mul by lia.
  destruct (grant && (brk h + m <=? limit)) eqn:E; [|done]. apply andb_prop in E as [_ E%Z.leb_le]. simpl.
  edestruct free_spec as (h' & bl' & Eh & Hok' & HP & Hb & Hlen & x & Hx & Hxn); [apply (ok_grow h bl al m); [done | lia | done] | exact Hf|]. cbv beta in Eh.
  rewrite Eh. simpl. exists h', bl'. split; [done|]. split; [done|]. split; [done|]. split; [done|]. split; [done|]. exists x. split; [done|lia].
Qed.

(** ** Taking a block *)
Lemma pred_block h bl al p (y : blk) : ok h bl al -> p ∈ ((base, 0) :: bl).*1 -> hptr h p = y.1 -> y ∈ (base, 0) :: bl -> 0 < y.2 ->
  exists l1 w l2, (base, 0) :: bl = l1 ++ w :: y :: l2 /\ w.1 = p.
Proof.
  intros Hok (w & -> & Hw)%list_elem_of_fmap Ep Hy Hy0. apply list_elem_of_split in Hw as (l1 & l2 & EL). pose proof (o_links _ _ _ Hok) as Hl.
  assert (Hsz : forall x : blk, x ∈ (base, 0) :: bl -> hsize h x.1 = x.2).
  { clear -Hl. intros x Hx. apply list_elem_of_split in Hx as (a & b & E). rewrite E in Hl. apply links_app in Hl as [_ Hl]. by destruct Hl. }
  rewrite EL in Hl. apply links_app in Hl as [_ (_ & Eh & _)]. rewrite Ep in Eh. destruct l2 as [|y' l2]; simpl in Eh.
  - apply elem_of_cons in Hy as [->|Hy]; [simpl in Hy0; lia|]. destruct (block_range _ _ _ y Hok); [set_solver | lia].
  - exists l1, w, l2. split; [|done]. rewrite EL. do 3 f_equal. assert (y'.2 = y.2); [|by destruct y', y; simpl in *; subst].
    rewrite <- (Hsz y Hy), <- (Hsz y') by (rewrite EL; set_solver). by rewrite Eh.
Qed.

Lemma nodup_heads (l : list blk) : NoDup (all_units l) -> Forall (fun x => 0 < x.2) l -> NoDup l.*1.
Proof.
  induction l as [|x l IH]; intros Hn Hp; [constructor|]. apply Forall_cons in Hp as [Hx Hp]. rewrite all_units_cons in Hn. apply NoDup_app in Hn as (_ & Hd & Hn).
  cbn [fmap list_fmap]. constructor; [|by apply IH]. intros (y & E & Hy)%list_elem_of_fmap. apply (Hd x.1); [by apply head_unit|].
  rewrite E. apply (block_unit l y Hy), head_unit. rewrite Forall_forall in Hp. by apply Hp.
Qed.

Lemma ok_heads h bl al : ok h bl al -> NoDup (((base, 0) :: bl) ++ al).*1.
Proof.
  intros Hok. cbn [app fmap list_fmap]. constructor; [|apply nodup_heads; apply Hok].
  intros (y & E & Hy)%list_elem_of_fmap. destruct (block_range _ _ _ y Hok Hy). simpl in E. lia.
Qed.

(** No header lies within the block [y] but its own. *)
Lemma header_outside h bl al a (y : blk) b (x : blk) u : ok h bl al -> ((base, 0) :: bl) ++ al = a ++ y :: b -> 0 < y.2 -> x ∈ a ++ b -> u ∈ units y -> x.1 <> u.
Proof.
  intros Hok E Hy Hx Hu Eu. subst u. assert (Hall : forall v : blk, v ∈ a ++ y :: b -> v = (base, 0) \/ v ∈ bl ++ al) by (intros v; rewrite <- E; set_solver).
  assert (Hyb : y ∈ bl ++ al) by (destruct (Hall y) as [->|?]; [set_solver | simpl in Hy; lia | done]).
  pose proof (o_range _ _ _ Hok _ (block_unit _ y Hyb _ Hu)) as Hr. destruct (Hall x) as [->|Hxb]; [set_solver | simpl in Hr; lia|].
  destruct (block_range _ _ _ x Hok Hxb) as (_ & _ & Hx0). pose proof (o_nodup _ _ _ Hok) as Hn.
  change (all_units (bl ++ al)) with (all_units (((base, 0) :: bl) ++ al)) in Hn. rewrite E in Hn.
  assert (HP : all_units (a ++ y :: b) ≡ₚ units y ++ all_units (a ++ b)) by (rewrite !all_units_app, all_units_cons; clear; solve_Permutation).
  rewrite HP in Hn. apply NoDup_app in Hn as (_ & Hd & _). apply (Hd _ Hu). apply (block_unit _ x Hx), head_unit, Hx0.
Qed.

Section Take.
Context (h : heap) (bl al l1 : list blk) (w y : blk) (l2 : list blk) (n : Z).
Context (Hok : ok h bl al) (EL : (base, 0) :: bl = l1 ++ w :: y :: l2) (Hn : 0 < n <= y.2).

Lemma take_free : y ∈ bl.
Proof. assert (Hy : y ∈ (base, 0) :: bl) by (rewrite EL; set_solver). apply elem_of_cons in Hy as [->|?]; [simpl in Hn; lia | done]. Qed.

Lemma take_pred (x : blk) : x ∈ l1 ++ y :: l2 ++ al -> x.1 <> w.1.
Proof.
  intros Hx E. pose proof (ok_heads _ _ _ Hok) as Hd. rewrite EL in Hd.
  assert (HP : (((l1 ++ w :: y :: l2) ++ al).*1) ≡ₚ w.1 :: ((l1 ++ y :: l2 ++ al).*1)) by (rewrite !fmap_app; cbn [fmap list_fmap]; rewrite !fmap_app; clear; solve_Permutation).
  rewrite HP in Hd. apply NoDup_cons in Hd as [Hd _]. apply Hd. rewrite <- E. apply list_elem_of_fmap. by exists x.
Qed.

Lemma take_other (x : blk) u : x ∈ l1 ++ w :: l2 ++ al -> u ∈ units y -> x.1 <> u.
Proof.
  intros Hx. apply (header_outside h bl al (l1 ++ [w]) y (l2 ++ al)); [done | | lia |].
  - rewrite EL. cbn [app]. by rewrite <- !app_assoc.
  - by rewrite <- app_assoc.
Qed.

Lemma take_links : linked h l1 w.1 /\ hsize h w.1 = w.2 /\ hsize h y.1 = y.2 /\ hptr h y.1 = haddr l2 base /\ hptr h w.1 = y.1 /\ linked h l2 base.
Proof. pose proof (o_links _ _ _ Hok) as Hl. rewrite EL in Hl. apply links_app in Hl as (? & ? & ? & ? & ? & ?). done. Qed.

(** The rest of the list, when [y] has become [l2']. *)
Lemma take_relink h' b l2' : (forall x : blk, x ∈ l1 ++ w :: l2 ++ al -> hsize h' x.1 = hsize h x.1) -> (forall x : blk, x ∈ l1 ++ l2 -> hptr h' x.1 = hptr h x.1) ->
  linked h' l2' base -> hptr h' w.1 = haddr l2' base -> hsize h' b = n -> freep h' = w.1 -> brk h' = brk h ->
  apart (w :: l2') -> Forall (fun x => 0 < x.2) l2' -> all_units l2' ++ units (b, n) ≡ₚ units y ++ all_units l2 -> (length l2' <= S (length l2))%nat ->
  exists bl', ok h' bl' ((b, n) :: al) /\ all_units (bl' ++ (b, n) :: al) ≡ₚ all_units (bl ++ al) /\ (length bl' <= length bl)%nat.
Proof.
  intros Hs Hp Hl2 Ew Eb Ef Ek Ha Hpos HP Hlen. destruct take_links as (Hl1 & Esw & _).
  destruct (ok_relink h h' bl al ((b, n) :: al) l1 w w (y :: l2) l2') as (bl' & E & Hok' & HU); try done.
  - apply links_app. cbn [haddr linked]. split; [|split; [|done]].
    + eapply links_ext; [|exact Hl1]. intros x Hx. split; [apply Hs | apply Hp]; set_solver.
    + rewrite Hs by set_solver. done.
  - by left.
  - destruct l1 as [|v l1']; injection EL as <- _; simpl; by left.
  - constructor; [simpl; lia|]. apply Forall_forall. intros x Hx. pose proof (o_heads _ _ _ Hok) as Hh. rewrite Forall_forall in Hh.
    destruct (block_range _ _ _ x Hok) as (_ & _ & ?); [set_solver|]. split; [done|]. rewrite Hs by set_solver. by apply Hh.
  - rewrite !all_units_cons, (app_assoc (all_units l2')), HP. by rewrite <- !app_assoc.
  - exists bl'. split; [done|]. split; [done|]. apply (f_equal length) in E, EL. rewrite length_app in E, EL. simpl in *. lia.
Qed.

Lemma take_units_spec : exists b h' bl', take_units w.1 y.1 n h = (b + 1, h') /\ ok h' bl' ((b, n) :: al) /\ all_units (bl' ++ (b, n) :: al) ≡ₚ all_units (bl ++ al) /\
  brk h' = brk h /\ (length bl' <= length bl)%nat /\ freep h' = w.1.
Proof.
  destruct take_links as (Hl1 & Esw & Esy & Epy & Epw & Hl2). destruct (block_range _ _ _ y Hok) as (Hy1 & Hy2 & Hy0); [pose proof take_free; set_solver|].
  pose proof (o_brk _ _ _ Hok) as Hk. pose proof (o_apart _ _ _ Hok) as Ha. rewrite EL in Ha. apply apart_suffix in Ha as [Hwy Ha].
  assert (Hpos : Forall (fun x : blk => 0 < x.2) l2).
  { pose proof (o_sizes _ _ _ Hok) as Hs. apply Forall_app in Hs as [Hs _]. rewrite Forall_forall in Hs |- *. intros x Hx. apply Hs. clear -Hx EL.
    destruct l1 as [|v l1']; injection EL as _ ->; set_solver. }
  assert (Hw : forall x : blk, x ∈ l1 ++ l2 -> x.1 <> w.1) by (intros x Hx; apply take_pred; set_solver).
  unfold take_units. rewrite Esy. destruct (Z.eqb_spec y.2 n) as [E|E].
  - destruct (take_relink (set_freep w.1 (set_ptr w.1 (hptr h y.1) h)) y.1 l2) as (bl' & Hok' & HU & Hlen); try done; simpl.
    + intros x Hx. by rewrite hupd_ne by auto.
    + eapply links_ext; [|exact Hl2]. intros x Hx. simpl. rewrite hupd_ne; [done|]. apply Hw. set_solver.
    + by rewrite hupd_eq.
    + lia.
    + destruct l2 as [|v l2']; [done|]. destruct Ha as [? ?]. split; [lia | done].
    + rewrite <- E, Permutation_app_comm. by destruct y.
    + lia.
    + by eexists _, _, bl'.
  - set (m := y.2 - n) in *. rewrite u32_id by (unfold in_u32; lia). simpl. rewrite hupd_eq. set (q := y.1 + m).
    assert (Hq : q ∈ units y) by (apply elem_of_units; lia). assert (Hyu : y.1 ∈ units y) by (by apply head_unit).
    destruct (take_relink (set_freep w.1 (set_size q n (set_size y.1 m h))) q ((y.1, m) :: l2)) as (bl' & Hok' & HU & Hlen); try done; simpl.
    + intros x Hx. by rewrite !hupd_ne by (by apply take_other).
    + rewrite hupd_ne by lia. rewrite hupd_eq. split; [done|]. split; [done|]. eapply links_ext; [|exact Hl2]. intros x Hx. simpl.
      split; [|done]. rewrite !hupd_ne; [done | |]; apply take_other; auto; set_solver.
    + by rewrite hupd_eq.
    + destruct l2 as [|v l2']; [done|]. destruct Ha as [? ?]. split; [done|]. simpl. split; [lia | done].
    + constructor; [simpl; lia | done].
    + replace (units y) with (units (y.1, m) ++ units (q, n)); [rewrite <- !app_assoc; clear; solve_Permutation|].
      unfold q. rewrite <- units_split by lia. replace (m + n) with y.2 by lia. by destruct y.
    + by eexists _, _, bl'.
Qed.
End Take.

(** ** The search *)
Definition taken (p q n : Z) (h : heap) : option (option Z * heap) := let '(r, h) := take_units p q n h in Some (Some r, h).
Definition grown (fuel : nat) (grant : bool) (n : Z) (h : heap) : option (option Z * heap) :=
  '(r, h) ← morecore (S fuel) grant n h;
  match r with
  | None => Some (None, h)
  | Some p => malloc_loop fuel grant p (hptr h p) n h
  end.

(** The blocks [W] are searched before the block [x] of [freep]. *)
Lemma walk_ring h grant n f (x : blk) e (A : list Z) W : x.1 = freep h -> forall w : blk, linked h (w :: W ++ [x]) e -> (forall v, v ∈ W -> v.1 <> freep h /\ v.1 ∈ A) -> w.1 ∈ A ->
  let r := malloc_loop (S (length W) + f) grant w.1 (haddr (W ++ [x]) e) n h in
  (exists y p, y ∈ W ++ [x] /\ n <= y.2 /\ p ∈ A /\ hptr h p = y.1 /\ r = taken p y.1 n h) \/
  (forall y, y ∈ W ++ [x] -> y.2 < n) /\ r = grown f grant n h.
Proof.
  intros Ex. induction W as [|v W IH]; intros w Hl HW Hw; cbn [app haddr length Nat.add malloc_loop].
  - destruct Hl as (_ & Ep & Esx & _). simpl in Ep. rewrite Esx. destruct (Z.leb_spec n x.2) as [Hle|Hgt].
    + left. exists x, w.1. split; [by left | done].
    + right. split; [intros y [->|Hy]%elem_of_cons; [done | by apply elem_of_nil in Hy]|]. rewrite Ex, Z.eqb_refl. done.
  - destruct Hl as (_ & Ep & Hl). pose proof Hl as (Esv & Epv & _). rewrite Esv. destruct (HW v ltac:(by left)) as [Hv HvA]. destruct (Z.leb_spec n v.2) as [Hle|Hgt].
    + left. exists v, w.1. split; [by left | done].
    + destruct (Z.eqb_spec v.1 (freep h)) as [?|_]; [done|]. rewrite Epv.
      destruct (IH v Hl ltac:(intros u Hu; apply HW; by right) HvA) as [(y & p & Hy & R)|[Hall R]].
      * left. exists y, p. split; [by right | exact R].
      * right. split; [|exact R]. intros y [->|Hy]%elem_of_cons; [done | by apply Hall].
Qed.

(** Seen from [freep] the list is a ring. *)
Lemma ring h bl al : ok h bl al -> exists W (x : blk) e, x.1 = freep h /\ linked h (x :: W ++ [x]) e /\ (W ++ [x]) ≡ₚ (base, 0) :: bl.
Proof.
  intros Hok. pose proof (o_freep _ _ _ Hok) as Hf. apply list_elem_of_fmap in Hf as (x & Ex & Hx). apply list_elem_of_split in Hx as (a & b & E). exists (b ++ a), x, (hptr h x.1).
  split; [done|]. split; [|rewrite E; clear; solve_Permutation]. pose proof (o_links _ _ _ Hok) as Hl. rewrite E in Hl. apply links_app in Hl as [Ha Hb]. cbn [haddr] in Ha.
  change (linked h ((x :: b ++ a) ++ [x]) (hptr h x.1)). apply links_app. cbn [haddr]. split.
  - change (linked h ((x :: b) ++ a) x.1). apply links_app. split; [|done]. destruct a as [|v a]; injection E as <- _; done.
  - split; [apply Hb | done].
Qed.

(** A search from [freep] takes a block that fits, if there is one. *)
Lemma search_spec h bl al grant n f : ok h bl al -> 0 < n ->
  let r := malloc_loop (S (length bl) + f) grant (freep h) (hptr h (freep h)) n h in
  (exists y b h' bl', y ∈ bl /\ n <= y.2 /\ r = Some (Some (b + 1), h') /\ ok h' bl' ((b, n) :: al) /\ all_units (bl' ++ (b, n) :: al) ≡ₚ all_units (bl ++ al) /\ brk h' = brk h) \/
  (forall y, y ∈ bl -> y.2 < n) /\ r = grown f grant n h.
Proof.
  intros Hok Hn. destruct (ring _ _ _ Hok) as (W & x & e & Ex & Hl & HP). pose proof (ok_heads _ _ _ Hok) as Hd.
  assert (Hlen : length W = length bl) by (apply Permutation_length in HP; rewrite length_app in HP; simpl in HP; lia).
  assert (Hin : forall v : blk, v ∈ W ++ [x] -> v.1 ∈ ((base, 0) :: bl).*1) by (intros v Hv; apply list_elem_of_fmap; exists v; by rewrite <- HP).
  rewrite fmap_app in Hd. apply NoDup_app in Hd as [Hd _]. rewrite <- HP, fmap_app in Hd. apply NoDup_app in Hd as (_ & Hd & _).
  destruct (walk_ring h grant n f x e ((base, 0) :: bl).*1 W Ex x Hl) as [(y & p & Hy & Hyn & Hp & Ep & R)|[Hall R]].
  { intros v Hv. split; [|apply Hin; set_solver]. rewrite <- Ex. intros E. apply (Hd v.1); [apply list_elem_of_fmap; by exists v|]. rewrite E. by left. }
  { apply Hin. set_solver. }
  all: assert (Er : hptr h (freep h) = haddr (W ++ [x]) e) by (rewrite <- Ex; by destruct Hl as (_ & ? & _)).
  - left. rewrite HP in Hy. destruct (pred_block h bl al p y Hok Hp Ep Hy) as (l1 & w & l2 & EL & Ew); [lia|].
    destruct (take_units_spec h bl al l1 w y l2 n Hok EL) as (b & h' & bl' & Et & Hok' & HU & Hb & _); [lia|].
    exists y, b, h', bl'. apply elem_of_cons in Hy as [->|Hy]; [simpl in Hyn; lia|]. split; [done|]. split; [done|]. split; [|done].
    cbv zeta in R. rewrite Er, <- Ex, <- Hlen, R. unfold taken. by rewrite <- Ew, Et.
  - right. split; [intros y Hy; apply Hall; rewrite HP; by right|]. cbv zeta in R. by rewrite Er, <- Ex, <- Hlen.
Qed.

(** ** The two calls *)
Lemma length_blocks h bl al : ok h bl al -> (length bl <= Z.to_nat limit)%nat.
Proof.
  intros Hok. pose proof (o_sizes _ _ _ Hok) as Hs. pose proof (o_nodup _ _ _ Hok) as Hn. pose proof (o_range _ _ _ Hok) as Hr. pose proof (o_brk _ _ _ Hok) as Hk.
  apply Forall_app in Hs as [Hs _]. rewrite all_units_app in Hn, Hr. apply NoDup_app in Hn as [Hn _].
  assert (H1 : (length bl <= length (all_units bl))%nat).
  { clear -Hs. induction Hs as [|x l Hx Hs IH]; [done|]. rewrite all_units_cons, length_app. simpl. assert (length (units x) <> 0)%nat; [|lia].
    intros E%nil_length_inv. pose proof (head_unit x Hx) as Hu. rewrite E in Hu. by apply elem_of_nil in Hu. }
  assert (H2 : all_units bl ⊆+ zseq 0 (Z.to_nat limit)).
  { apply NoDup_submseteq; [done|]. intros u Hu. apply elem_of_zseq. specialize (Hr u ltac:(set_solver)). lia. }
  apply submseteq_length in H2. assert (H3 : forall k a, length (zseq a k) = k) by (induction k; intros a; simpl; auto). rewrite H3 in H2. lia.
Qed.

Lemma nunits_spec nb : 0 <= nb <= 2 ^ 31 - 32 -> 0 < nunits nb < 2 ^ 27 /\ nb <= 16 * (nunits nb - 1).
Proof.
  intros H. unfold nunits. pose proof (Z.div_mod (nb + 16 - 1) 16 ltac:(lia)). pose proof (Z.mod_pos_bound (nb + 16 - 1) 16 ltac:(lia)). rewrite u32_id by (unfold in_u32; lia). lia.
Qed.

(** The units between two ends of the memory. *)
Definition fresh (b b' : Z) : list Z := units (b, b' - b).

Lemma fresh_none b : fresh b b = [].
Proof. unfold fresh. by rewrite Z.sub_diag. Qed.

(** There is a free block with [n] units. *)
Definition fits (n : Z) (bl : list blk) : Prop := exists y, y ∈ bl /\ n <= y.2.

Lemma malloc_spec h bl al grant nb fuel : ok (first_list h) bl al -> 0 <= nb <= 2 ^ 31 - 32 -> (3 * Z.to_nat limit + 4 <= fuel)%nat -> let n := nunits nb in
  (exists b h' bl', malloc fuel grant nb h = Some (Some (b + 1), h') /\ ok h' bl' ((b, n) :: al) /\ brk h <= brk h' /\
    all_units (bl' ++ (b, n) :: al) ≡ₚ all_units (bl ++ al) ++ fresh (brk h) (brk h') /\ (fits n bl \/ granted grant n (first_list h) = true)) \/
  (malloc fuel grant nb h = Some (None, first_list h) /\ ~ fits n bl /\ granted grant n (first_list h) = false).
Proof.
  intros Hok Hnb Hfuel n. destruct (nunits_spec nb Hnb) as [Hn _]. fold n in Hn. pose proof (length_blocks _ _ _ Hok) as Hlen.
  assert (Eb : brk h = brk (first_list h)) by (unfold first_list; by destruct (freep h =? 0)). unfold malloc. fold n. rewrite Eb. set (g := first_list h) in *. clearbody g. cbv zeta.
  replace fuel with (S (length bl) + (fuel - S (length bl)))%nat by lia. set (f := (fuel - S (length bl))%nat).
  destruct (search_spec g bl al grant n f Hok) as [(y & b & h' & bl' & Hy & Hyn & R & Hok' & HU & Hb)|[Hall R]]; [lia | |]; cbv zeta in R; rewrite R.
  - left. exists b, h', bl'. rewrite Hb, fresh_none, app_nil_r. split; [done|]. split; [done|]. split; [lia|]. split; [done|]. left. by exists y.
  - assert (Hno : ~ fits n bl) by (intros (y & Hy & Hyn); specialize (Hall y Hy); lia).
    pose proof (morecore_spec g bl al grant n (S f) Hok ltac:(lia) ltac:(lia)) as Hm. unfold grown. destruct (granted grant n g) eqn:Eg; [left|right; rewrite Hm; done].
    destruct Hm as (h1 & bl1 & -> & Hok1 & HU1 & Hb1 & Hlen1 & x & Hx & Hxn). cbn [mbind option_bind].
    replace f with (S (length bl1) + (f - S (length bl1)))%nat by lia.
    destruct (search_spec h1 bl1 al grant n (f - S (length bl1)) Hok1) as [(y & b & h' & bl' & Hy & Hyn & R' & Hok' & HU & Hb)|[Hall' _]]; [lia | | specialize (Hall' x Hx); lia].
    cbv zeta in R'. rewrite R'. exists b, h', bl'. split; [done|]. split; [done|]. split; [unfold core_units in Hb1; lia|]. split; [|by right].
    rewrite HU, HU1, Hb, Hb1. unfold fresh. replace (brk g + core_units n - brk g) with (core_units n) by lia.
    rewrite !all_units_app, all_units_cons. clear. solve_Permutation.
Qed.

(** ** A program that allocates

    The program keeps the pointers it was given, with the sizes it asked for.
    It may also ask the kernel for memory itself. *)
Inductive event : Type :=
| Malloc (nbytes : Z) (grant : bool)
| Free (i : nat)
| Sbrk (n : Z) (grant : bool).

Abbreviation program := (heap * list (Z * Z))%type.

Definition step (fuel : nat) (e : event) (st : program) : option program :=
  let '(h, live) := st in
  match e with
  | Malloc nb grant => '(r, h) ← malloc fuel grant nb h; Some (h, match r with Some p => (p, nb) :: live | None => live end)
  | Free i => match live !! i with Some (p, _) => h ← free fuel p h; Some (h, delete i live) | None => Some (h, live) end
  | Sbrk n grant => Some (match sbrk grant (n * 16) h with Some (_, h) => h | None => h end, live)
  end.

Fixpoint steps (fuel : nat) (es : list event) (st : program) : option program :=
  match es with [] => Some st | e :: es' => st ← step fuel e st; steps fuel es' st end.

Definition sized (e : event) : Prop :=
  match e with Malloc nb _ => 0 <= nb <= 2 ^ 31 - 32 | Free _ => True | Sbrk n _ => 0 <= n < 2 ^ 27 end.

(** The block of a pointer has room for what was asked. *)
Definition block_of (p : Z * Z) (x : blk) : Prop := p.1 = x.1 + 1 /\ p.2 <= 16 * (x.2 - 1).

(** [bl] are the free blocks, [al] those of the pointers, [other] the memory
    the program got itself: every unit is in one of them. *)
Record owned (b0 : Z) (st : program) (bl al : list blk) (other : list Z) : Prop := mkOwned {
  w_ok : ok (first_list st.1) bl al;
  w_live : Forall2 block_of st.2 al;
  w_first : freep st.1 = 0 -> al = [];
  w_low : b0 <= brk st.1;
  w_all : all_units (bl ++ al) ++ other ≡ₚ fresh b0 (brk st.1)
}.

Lemma first_list_again h bl al : ok h bl al -> first_list h = h.
Proof.
  intros Hok. unfold first_list. destruct (Z.eqb_spec (freep h) 0) as [E|]; [|done]. pose proof (o_freep _ _ _ Hok) as Hf. apply list_elem_of_fmap in Hf as (x & Ex & Hx).
  apply elem_of_cons in Hx as [->|Hx]; [simpl in Ex; lia|]. destruct (block_range _ _ _ x Hok); [set_solver | lia].
Qed.

Lemma brk_first h : brk (first_list h) = brk h.
Proof. unfold first_list. by destruct (freep h =? 0). Qed.

Lemma fresh_app b0 b1 b2 : b0 <= b1 <= b2 -> fresh b0 b2 = fresh b0 b1 ++ fresh b1 b2.
Proof. intros H. unfold fresh. replace (b2 - b0) with ((b1 - b0) + (b2 - b1)) by lia. rewrite units_split by lia. do 3 f_equal. lia. Qed.

Lemma Forall2_delete_split {A B} (R : A -> B -> Prop) l k i x : Forall2 R l k -> l !! i = Some x ->
  exists y, R x y /\ k ≡ₚ y :: delete i k /\ Forall2 R (delete i l) (delete i k).
Proof.
  intros HF Hi. destruct (Forall2_lookup_l _ _ _ _ _ HF Hi) as (y & Hy & HR). exists y. split; [done|]. split; [by apply delete_Permutation|].
  revert i x y Hi Hy HR. induction HF as [|a b l k Hab HF IH]; intros [|i] x y Hi Hy HR; simpl in *; try done. constructor; [done|]. by eapply IH.
Qed.

Lemma step_owned fuel e st b0 bl al other : (3 * Z.to_nat limit + 4 <= fuel)%nat -> sized e -> owned b0 st bl al other ->
  exists st' bl' al' other', step fuel e st = Some st' /\ owned b0 st' bl' al' other'.
Proof.
  intros Hfuel He [Hok Hlive Hfirst Hlow Hall]. destruct st as [h live]. cbn [fst snd] in *. destruct e as [nb grant|i|n grant]; cbn [step].
  - destruct (nunits_spec nb He) as [_ Hroom].
    destruct (malloc_spec h bl al grant nb fuel Hok He Hfuel) as [(b & h' & bl' & -> & Hok' & Hb & HU & _)|(-> & _ & _)]; cbn [mbind option_bind].
    + exists (h', (b + 1, nb) :: live), bl', ((b, nunits nb) :: al), other. split; [done|]. split; cbn [fst snd].
      * by rewrite (first_list_again _ _ _ Hok').
      * by constructor.
      * intros E. assert (Hf := first_list_again _ _ _ Hok'). unfold first_list in Hf. rewrite E in Hf. apply (f_equal freep) in Hf. simpl in Hf. lia.
      * lia.
      * rewrite HU, (fresh_app b0 (brk h)) by lia. rewrite <- Hall. clear. solve_Permutation.
    + exists (first_list h, live), bl, al, other. split; [done|]. split; cbn [fst snd]; rewrite ?brk_first, ?(first_list_again _ _ _ Hok); try done.
      unfold first_list. destruct (Z.eqb_spec (freep h) 0); simpl; [lia | done].
  - destruct (live !! i) as [[p nb]|] eqn:Ei; [|exists (h, live), bl, al, other; done].
    destruct (Forall2_delete_split _ _ _ _ _ Hlive Ei) as ([b m] & [Ep Hm] & HP & Hl'). cbn [fst snd] in *. subst p.
    assert (Hf0 : freep h <> 0) by (intros E; rewrite (Hfirst E) in HP; by apply Permutation_nil_cons in HP).
    assert (Eh : first_list h = h) by (unfold first_list; by destruct (Z.eqb_spec (freep h) 0)). rewrite Eh in Hok.
    pose proof (length_blocks _ _ _ Hok). destruct (free_spec h bl (delete i al) b m fuel (ok_perm _ _ _ _ HP Hok)) as (h' & bl' & -> & Hok' & HU & Hb & _); [lia|].
    cbn [mbind option_bind]. exists (h', delete i live), bl', (delete i al), other. split; [done|]. split; cbn [fst snd]; try done.
    + by rewrite (first_list_again _ _ _ Hok').
    + intros E. assert (Hf := first_list_again _ _ _ Hok'). unfold first_list in Hf. rewrite E in Hf. apply (f_equal freep) in Hf. simpl in Hf. lia.
    + by rewrite Hb.
    + rewrite HU, Hb, <- Hall. rewrite HP at 2. done.
  - simpl in He. unfold sbrk. rewrite i32_id by (unfold in_i32; lia). rewrite Z.div_mul by lia. destruct (grant && (brk h + n <=? limit)) eqn:E; [|exists (h, live), bl, al, other; done].
    apply andb_prop in E as [_ E%Z.leb_le]. exists (set_brk (brk h + n) h, live), bl, al, (other ++ fresh (brk h) (brk h + n)). split; [done|].
    split; cbn [fst snd]; try done.
    + replace (first_list (set_brk (brk h + n) h)) with (set_brk (brk h + n) (first_list h)) by (unfold first_list; simpl; by destruct (freep h =? 0)).
      destruct Hok as [? ? ? ? ? ? Hr Hk]. rewrite brk_first in Hr, Hk. split; try done; [|intros u Hu; specialize (Hr u Hu); simpl; lia | simpl; lia].
      eapply links_ext; [|done]. by intros ? _.
    + simpl. lia.
    + simpl. rewrite app_assoc, Hall, <- fresh_app by lia. done.
Qed.

Lemma steps_owned fuel b0 es : (3 * Z.to_nat limit + 4 <= fuel)%nat -> Forall sized es -> forall st bl al other, owned b0 st bl al other ->
  exists st' bl' al' other', steps fuel es st = Some st' /\ owned b0 st' bl' al' other'.
Proof.
  intros Hf Hs. induction Hs as [|e es He Hs IH]; intros st bl al other Hw; [by exists st, bl, al, other|].
  destruct (step_owned fuel e st b0 bl al other Hf He Hw) as (st1 & bl1 & al1 & other1 & E & Hw1). simpl. rewrite E. apply (IH _ _ _ _ Hw1).
Qed.

Lemma owned_start h : freep h = 0 -> base < brk h <= limit -> owned (brk h) (h, []) [] [] [].
Proof.
  intros Hf Hk. split; cbn [fst snd]; try done; [|by rewrite fresh_none].
  unfold first_list. rewrite Hf, Z.eqb_refl. split; simpl; rewrite ?hupd_eq; try done; first [by left | by apply NoDup_nil_2 | intros u Hu; by apply elem_of_nil in Hu].
Qed.

(** Two pointers have blocks that do not overlap. *)
Lemma owned_disjoint b0 st bl al other i j (p q : Z * Z) : owned b0 st bl al other -> i <> j -> st.2 !! i = Some p -> st.2 !! j = Some q ->
  16 * p.1 + p.2 <= 16 * (q.1 - 1) \/ 16 * q.1 + q.2 <= 16 * (p.1 - 1).
Proof.
  intros [Hok Hl _ _ _] Hij Hi Hj. destruct (Forall2_lookup_l _ _ _ _ _ Hl Hi) as (x & Hx & Ex & Px). destruct (Forall2_lookup_l _ _ _ _ _ Hl Hj) as (y & Hy & Ey & Py).
  pose proof (delete_Permutation _ _ _ Hx) as HP. assert (Hy' : y ∈ delete i al).
  { destruct (decide (j < i)%nat); [apply (list_elem_of_lookup_2 _ j); by rewrite list_lookup_delete_lt|]. apply (list_elem_of_lookup_2 _ (j - 1)). rewrite list_lookup_delete_ge by lia. by replace (S (j - 1)) with j by lia. }
  pose proof (ok_perm _ _ _ _ HP Hok) as Hok'. destruct (block_range _ _ _ x Hok') as (_ & _ & X0); [set_solver|]. destruct (block_range _ _ _ y Hok') as (_ & _ & Y0); [set_solver|].
  pose proof (o_nodup _ _ _ Hok') as Hn. replace (bl ++ x :: delete i al) with ((bl ++ [x]) ++ delete i al) in Hn by (by rewrite <- app_assoc).
  destruct (blocks_apart _ _ x y Hn) as [?|?]; [set_solver | done | done | done | left; lia | right; lia].
Qed.

(** C21: in any run of a program, every unit the kernel gave is in exactly one
    free block, one block of a pointer the program holds, or is memory the
    program asked for itself; the blocks of two pointers do not overlap and
    have room for what was asked; free neighbours are joined; and [malloc]
    succeeds exactly when a free block fits or the kernel gives more.
    Requests are below 2 GB. *)
Theorem malloc_owns_memory h fuel es : freep h = 0 -> base < brk h <= limit -> (3 * Z.to_nat limit + 4 <= fuel)%nat -> Forall sized es ->
  exists st bl al other, steps fuel es (h, []) = Some st /\
    all_units (bl ++ al) ++ other ≡ₚ fresh (brk h) (brk st.1) /\
    linked (first_list st.1) ((base, 0) :: bl) base /\ apart bl /\ Forall2 block_of st.2 al /\
    (forall i j (p q : Z * Z), i <> j -> st.2 !! i = Some p -> st.2 !! j = Some q ->
      16 * p.1 + p.2 <= 16 * (q.1 - 1) \/ 16 * q.1 + q.2 <= 16 * (p.1 - 1)) /\
    (forall nb grant, 0 <= nb <= 2 ^ 31 - 32 ->
      exists r h', malloc fuel grant nb st.1 = Some (r, h') /\
        (is_Some r <-> fits (nunits nb) bl \/ granted grant (nunits nb) st.1 = true)).
Proof.
  intros Hf Hk Hfuel Hs. destruct (steps_owned fuel (brk h) es Hfuel Hs _ _ _ _ (owned_start h Hf Hk)) as (st & bl & al & other & E & Hw).
  exists st, bl, al, other. split; [done|]. split; [apply Hw|]. split; [apply Hw|]. split; [eapply (apart_suffix [(base, 0)]), Hw|]. split; [apply Hw|].
  split; [intros i j p q; by eapply owned_disjoint|]. intros nb grant Hnb.
  assert (Eg : granted grant (nunits nb) st.1 = granted grant (nunits nb) (first_list st.1)) by (unfold granted; by rewrite brk_first). rewrite Eg.
  destruct (malloc_spec st.1 bl al grant nb fuel (w_ok _ _ _ _ _ Hw) Hnb Hfuel) as [(b & h' & bl' & -> & _ & _ & _ & Hc)|(-> & Hno & ->)].
  - exists (Some (b + 1)), h'. split; [done|]. split; [done|]. by eexists.
  - exists None, (first_list st.1). split; [done|]. split; [by intros [? ?] | by intros [?|?]].
Qed.
End Umalloc.

(** A session: three blocks, the middle one given back and taken again in
    parts, memory of the program's own, and a refusal. *)
Definition no_heap : heap := mkHeap (fun _ => 0) (fun _ => 0) 0 512.
Definition session : list event :=
  [Malloc 100 true; Malloc 0 true; Malloc 1000 true; Free 1; Sbrk 10 true; Malloc 70000 true; Free 0; Malloc 30 true; Malloc 200000 false].

Example session_pointers : fmap snd (steps 16 10000 30010 session (no_heap, [])) = Some [(8992, 30); (4536, 1000); (4601, 100)].
Proof. vm_compute. reflexivity. Qed.

Lemma malloc_owns_memory_witness : exists st bl al other, steps 16 10000 30010 session (no_heap, []) = Some st /\
  all_units (bl ++ al) ++ other ≡ₚ fresh (brk no_heap) (brk st.1) /\ Forall2 block_of st.2 al.
Proof.
  destruct (malloc_owns_memory 16 10000 ltac:(lia) ltac:(lia) no_heap 30010 session) as (st & bl & al & other & E & HU & _ & _ & Hl & _);
    [done | simpl; lia | apply Nat.leb_le; vm_compute; reflexivity | apply Forall_forall; intros e He; unfold session in He; repeat (apply elem_of_cons in He as [->|He]; [simpl; lia || done|]); by apply elem_of_nil in He |].
  exists st, bl, al, other. split; [exact E|]. split; [exact HU | exact Hl].
Defined.

(** Beyond the sizes of [sized] the argument of [sbrk] wraps: four gigabytes
    are asked for, and one unit is got. *)
Example malloc_wraps : (fun r => (r.1, brk r.2)) <$> malloc 16 10000 100 true 4294967295 no_heap = Some (Some 513, 513).
Proof. vm_compute. reflexivity. Qed.
