(* ===== verification/Virtio.v ===== *)
(** * The disk driver (xv6/kernel/virtio_disk.c)

    The descriptors, the two rings and the book-keeping of the driver, the
    pieces of [virtio_disk_rw] between its sleeps, and the interrupt handler.
    A piece under [vdisk_lock] is one step.  The device is what the virtio
    standard says of it: it takes heads of chains from the ring of available
    chains in order, serves those it took in any order, and enters them in
    the ring of used chains. *)
From S2P Require Import Prelude.
Local Open Scope Z_scope.

Definition NUM : nat := 8.
Definition VRING_DESC_F_NEXT : Z := 1.
Definition VRING_DESC_F_WRITE : Z := 2.
Definition VIRTIO_BLK_T_IN : Z := 0.
Definition VIRTIO_BLK_T_OUT : Z := 1.
Definition BLOCK_BYTES : Z := 1024.
Definition u16 (x : Z) : Z := x mod 2 ^ 16.

(** The addresses the driver gives to the device: [&ops[i]], [b->data] and
    [&info[i].status]. *)
Inductive daddr : Type := ANull | AOp (i : nat) | AData (b : nat) | AStatus (i : nat).

Record virtq_desc := mkDesc { d_addr : daddr; d_len : Z; d_flags : Z; d_next : nat }.
Record virtio_blk_req := mkReq { r_type : Z; r_reserved : Z; r_sector : Z }.
Record info := mkInfo { in_b : option nat; in_status : Z }.

Record disk := mkDisk {
  descs : list virtq_desc;
  avail_ring : list nat; avail_idx : Z;
  used_ring : list nat; dev_used : Z;
  dfree : list bool;
  used_idx : Z;
  infos : list info;
  ops : list virtio_blk_req
}.

Definition set_descs (l : list virtq_desc) (d : disk) : disk :=
  mkDisk l (avail_ring d) (avail_idx d) (used_ring d) (dev_used d) (dfree d) (used_idx d) (infos d) (ops d).
Definition set_avail (r : list nat) (i : Z) (d : disk) : disk :=
  mkDisk (descs d) r i (used_ring d) (dev_used d) (dfree d) (used_idx d) (infos d) (ops d).
Definition set_used (r : list nat) (i : Z) (d : disk) : disk :=
  mkDisk (descs d) (avail_ring d) (avail_idx d) r i (dfree d) (used_idx d) (infos d) (ops d).
Definition set_dfree (f : list bool) (d : disk) : disk :=
  mkDisk (descs d) (avail_ring d) (avail_idx d) (used_ring d) (dev_used d) f (used_idx d) (infos d) (ops d).
Definition set_used_idx (i : Z) (d : disk) : disk :=
  mkDisk (descs d) (avail_ring d) (avail_idx d) (used_ring d) (dev_used d) (dfree d) i (infos d) (ops d).
Definition set_infos (l : list info) (d : disk) : disk :=
  mkDisk (descs d) (avail_ring d) (avail_idx d) (used_ring d) (dev_used d) (dfree d) (used_idx d) l (ops d).
Definition set_ops (l : list virtio_blk_req) (d : disk) : disk :=
  mkDisk (descs d) (avail_ring d) (avail_idx d) (used_ring d) (dev_used d) (dfree d) (used_idx d) (infos d) l.

(** What processes sleep on: [&disk.free[0]] or a buffer. *)
Inductive chan : Type := CFree | CBuf (b : nat).
#[export] Instance chan_eq_dec : EqDecision chan.
Proof. solve_decision. Defined.

(** A call of [virtio_disk_rw] for the buffer [tb] of block [tn], with its
    descriptors once it has them. *)
Abbreviation chain := (nat * nat * nat)%type.
Record call := mkCall { tb : nat; tn : Z; tw : bool; tidx : option chain }.

(** The driver, the buffers ([b->disk], [b->data]), the calls under way with
    the processes asleep, and the device: its storage, how far it is in the
    ring, and the chains it has taken. *)
Record machine := mkMachine {
  dk : disk;
  bdisk : nat -> bool;
  bdata : nat -> list Z;
  calls : gmap nat call;
  asleep : gmap nat chan;
  store : Z -> Z;
  dev_avail : Z;
  fetched : list nat
}.

Definition set_dk (d : disk) (s : machine) : machine := mkMachine d (bdisk s) (bdata s) (calls s) (asleep s) (store s) (dev_avail s) (fetched s).
Definition set_bdisk (b : nat) (v : bool) (s : machine) : machine :=
  mkMachine (dk s) (fun x => if decide (x = b) then v else bdisk s x) (bdata s) (calls s) (asleep s) (store s) (dev_avail s) (fetched s).
Definition set_bdata (b : nat) (v : list Z) (s : machine) : machine :=
  mkMachine (dk s) (bdisk s) (fun x => if decide (x = b) then v else bdata s x) (calls s) (asleep s) (store s) (dev_avail s) (fetched s).
Definition set_calls (m : gmap nat call) (s : machine) : machine := mkMachine (dk s) (bdisk s) (bdata s) m (asleep s) (store s) (dev_avail s) (fetched s).
Definition set_asleep (m : gmap nat chan) (s : machine) : machine := mkMachine (dk s) (bdisk s) (bdata s) (calls s) m (store s) (dev_avail s) (fetched s).
Definition set_store (f : Z -> Z) (s : machine) : machine := mkMachine (dk s) (bdisk s) (bdata s) (calls s) (asleep s) f (dev_avail s) (fetched s).
Definition set_dev (i : Z) (l : list nat) (s : machine) : machine := mkMachine (dk s) (bdisk s) (bdata s) (calls s) (asleep s) (store s) i l.

Definition wake_chan (c : chan) (s : machine) : machine := set_asleep (filter (fun kv => kv.2 <> c) (asleep s)) s.
Definition sleep_on (t : nat) (c : chan) (s : machine) : machine := set_asleep (<[t := c]> (asleep s)) s.

(** ** The driver *)
Definition alloc_desc (s : machine) : option nat * machine :=
  match find_index id (dfree (dk s)) with
  | Some i => (Some i, set_dk (set_dfree (<[i := false]> (dfree (dk s))) (dk s)) s)
  | None => (None, s)
  end.

(** [None] is a panic. *)
Definition free_desc (i : nat) (s : machine) : option machine :=
  match dfree (dk s) !! i with
  | Some false =>
      let d := set_descs (<[i := mkDesc ANull 0 0 0]> (descs (dk s))) (dk s) in
      Some (wake_chan CFree (set_dk (set_dfree (<[i := true]> (dfree d)) d) s))
  | _ => None
  end.

Fixpoint free_chain (fuel : nat) (i : nat) (s : machine) : option machine :=
  match fuel with
  | O => None
  | S fuel' =>
      d ← descs (dk s) !! i;
      s ← free_desc i s;
      if Z.land (d_flags d) VRING_DESC_F_NEXT =? 0 then Some s else free_chain fuel' (d_next d) s
  end.

Fixpoint free_descs (l : list nat) (s : machine) : option machine :=
  match l with [] => Some s | i :: l' => s ← free_desc i s; free_descs l' s end.

Fixpoint alloc_loop (k : nat) (idx : list nat) (s : machine) : option (option (list nat) * machine) :=
  match k with
  | O => Some (Some idx, s)
  | S k' =>
      match alloc_desc s with
      | (Some i, s) => alloc_loop k' (idx ++ [i]) s
      | (None, s) => s ← free_descs idx s; Some (None, s)
      end
  end.

Definition alloc3_desc (s : machine) : option (option chain * machine) :=
  '(r, s) ← alloc_loop 3 [] s;
  match r with
  | Some [i0; i1; i2] => Some (Some (i0, i1, i2), s)
  | _ => Some (None, s)
  end.

(** The request, its descriptors and its entry in the ring. *)
Definition submit (b : nat) (n : Z) (write : bool) (c : chain) (s : machine) : machine :=
  let '(i0, i1, i2) := c in
  let sector := u32 (n * (BLOCK_BYTES / 512)) in
  let d := dk s in
  let d := set_ops (<[i0 := mkReq (if write then VIRTIO_BLK_T_OUT else VIRTIO_BLK_T_IN) 0 sector]> (ops d)) d in
  let d := set_descs (<[i0 := mkDesc (AOp i0) 16 VRING_DESC_F_NEXT i1]> (descs d)) d in
  let d := set_descs (<[i1 := mkDesc (AData b) BLOCK_BYTES (Z.lor (if write then 0 else VRING_DESC_F_WRITE) VRING_DESC_F_NEXT) i2]> (descs d)) d in
  let d := set_descs (<[i2 := mkDesc (AStatus i0) 1 VRING_DESC_F_WRITE 0]> (descs d)) d in
  let d := set_infos (<[i0 := mkInfo (Some b) 255]> (infos d)) d in
  let d := set_avail (<[Z.to_nat (avail_idx d mod 8) := i0]> (avail_ring d)) (u16 (avail_idx d + 1)) d in
  set_bdisk b true (set_dk d s).

(** The end of [virtio_disk_rw], from the test of [b->disk] on. *)
Definition rw_wait (t : nat) (c : call) (ch : chain) (s : machine) : option machine :=
  if bdisk s (tb c) then Some (sleep_on t (CBuf (tb c)) (set_calls (<[t := c]> (calls s)) s))
  else
    let i0 := ch.1.1 in
    i ← infos (dk s) !! i0;
    s ← free_chain 4 i0 (set_dk (set_infos (<[i0 := mkInfo None (in_status i)]> (infos (dk s))) (dk s)) s);
    Some (set_calls (delete t (calls s)) s).

(** Its beginning, from the allocation on. *)
Definition rw_alloc (t : nat) (c : call) (s : machine) : option machine :=
  '(r, s) ← alloc3_desc s;
  match r with
  | None => Some (sleep_on t CFree (set_calls (<[t := c]> (calls s)) s))
  | Some ch => rw_wait t (mkCall (tb c) (tn c) (tw c) (Some ch)) ch (submit (tb c) (tn c) (tw c) ch s)
  end.

(** A turn of the loop of [virtio_disk_intr]. *)
Definition intr_entry (s : machine) : option machine :=
  id ← used_ring (dk s) !! Z.to_nat (used_idx (dk s) mod 8);
  i ← infos (dk s) !! id;
  if in_status i =? 0 then
    b ← in_b i;
    let s := wake_chan (CBuf b) (set_bdisk b false s) in
    Some (set_dk (set_used_idx (u16 (used_idx (dk s) + 1)) (dk s)) s)
  else None.

Fixpoint intr_loop (fuel : nat) (s : machine) : option machine :=
  if used_idx (dk s) =? dev_used (dk s) then Some s
  else match fuel with O => None | S fuel' => s ← intr_entry s; intr_loop fuel' s end.
Definition virtio_disk_intr (s : machine) : option machine := intr_loop NUM s.

(** ** The device *)
Definition read_store (off len : Z) (f : Z -> Z) : list Z := (fun k => f (off + Z.of_nat k)) <$> seq 0 (Z.to_nat len).
Definition write_store (off len : Z) (data : list Z) (f : Z -> Z) : Z -> Z :=
  fun a => if (off <=? a) && (a <? off + len) then default 0 (data !! Z.to_nat (a - off)) else f a.

Definition device_fetch (s : machine) : option machine :=
  if dev_avail s =? avail_idx (dk s) then Some s
  else h ← avail_ring (dk s) !! Z.to_nat (dev_avail s mod 8); Some (set_dev (u16 (dev_avail s + 1)) (fetched s ++ [h]) s).

(** Serving the chain [h]: [None] if it is not a request. *)
Definition serve (h : nat) (status : Z) (s : machine) : option machine :=
  let d := dk s in
  d0 ← descs d !! h;
  d1 ← descs d !! d_next d0;
  d2 ← descs d !! d_next d1;
  match d_addr d0, d_addr d1, d_addr d2 with
  | AOp i, AData b, AStatus j =>
      r ← ops d !! i;
      f ← infos d !! j;
      let off := r_sector r * 512 in
      let writes := negb (Z.land (d_flags d1) VRING_DESC_F_WRITE =? 0) in
      s ← (if r_type r =? VIRTIO_BLK_T_OUT then if writes then None else Some (set_store (write_store off (d_len d1) (bdata s b) (store s)) s)
           else if writes then Some (set_bdata b (read_store off (d_len d1) (store s)) s) else None);
      Some (set_dk (set_infos (<[j := mkInfo (in_b f) status]> (infos d)) d) s)
  | _, _, _ => None
  end.

Definition device_complete (k : nat) (status : Z) (s : machine) : option machine :=
  match fetched s !! k with
  | None => Some s
  | Some h =>
      s ← serve h status s;
      let d := dk s in
      Some (set_dev (dev_avail s) (delete k (fetched s)) (set_dk (set_used (<[Z.to_nat (dev_used d mod 8) := h]> (used_ring d)) (u16 (dev_used d + 1)) d) s))
  end.

(** ** Steps

    [Entry] is a turn of the handler on its own: the device may go on between
    the turns. *)
Inductive event : Type :=
| Fill (b : nat) (data : list Z)
| Rw (t b : nat) (n : Z) (write : bool)
| Resume (t : nat)
| Intr
| Entry
| Fetch
| Complete (k : nat) (status : Z).

(** The buffer is in no call: its sleep lock is held by the caller. *)
Definition unused (b : nat) (s : machine) : bool := forallb (fun kv => negb (Nat.eqb (tb kv.2) b)) (map_to_list (calls s)).

Definition step (e : event) (s : machine) : option machine :=
  match e with
  | Fill b data => Some (if unused b s then set_bdata b data s else s)
  | Rw t b n write => match calls s !! t with Some _ => Some s | None => if unused b s then rw_alloc t (mkCall b n write None) s else Some s end
  | Resume t =>
      match calls s !! t, asleep s !! t with
      | Some c, None => match tidx c with None => rw_alloc t c s | Some ch => rw_wait t c ch s end
      | _, _ => Some s
      end
  | Intr => virtio_disk_intr s
  | Entry => if used_idx (dk s) =? dev_used (dk s) then Some s else intr_entry s
  | Fetch => device_fetch s
  | Complete k status => device_complete k status s
  end.

Fixpoint steps (es : list event) (s : machine) : option machine :=
  match es with [] => Some s | e :: es' => s ← step e s; steps es' s end.

(** ** Initialisation

    [rd w r] is what the device answers when the register [r] is read after
    the writes [w]; [pages] are the three pages of the queue. *)
Definition VIRTIO_MMIO_MAGIC_VALUE : Z := 0x0.
Definition VIRTIO_MMIO_VERSION : Z := 0x4.
Definition VIRTIO_MMIO_DEVICE_ID : Z := 0x8.
Definition VIRTIO_MMIO_VENDOR_ID : Z := 0xc.
Definition VIRTIO_MMIO_DEVICE_FEATURES : Z := 0x10.
Definition VIRTIO_MMIO_DRIVER_FEATURES : Z := 0x20.
Definition VIRTIO_MMIO_QUEUE_SEL : Z := 0x30.
Definition VIRTIO_MMIO_QUEUE_NUM_MAX : Z := 0x34.
Definition VIRTIO_MMIO_QUEUE_NUM : Z := 0x38.
Definition VIRTIO_MMIO_QUEUE_READY : Z := 0x44.
Definition VIRTIO_MMIO_STATUS : Z := 0x70.
Definition VIRTIO_MMIO_QUEUE_DESC_LOW : Z := 0x80.
Definition VIRTIO_MMIO_DRIVER_DESC_LOW : Z := 0x90.
Definition VIRTIO_MMIO_DEVICE_DESC_LOW : Z := 0xa0.
Definition VIRTIO_CONFIG_S_ACKNOWLEDGE : Z := 1.
Definition VIRTIO_CONFIG_S_DRIVER : Z := 2.
Definition VIRTIO_CONFIG_S_DRIVER_OK : Z := 4.
Definition VIRTIO_CONFIG_S_FEATURES_OK : Z := 8.

(** The features the driver declines: RO, SCSI, FLUSH, CONFIG_WCE, MQ,
    ANY_LAYOUT, EVENT_IDX, INDIRECT_DESC. *)
Definition declined : list Z := [5; 7; 9; 11; 12; 27; 29; 28].
Definition decline (features : Z) : Z := foldl (fun f b => Z.land f (Z.lnot (Z.shiftl 1 b))) features declined.

(** The two halves of an address. *)
Definition put_address (r a : Z) (w : list (Z * Z)) : list (Z * Z) := w ++ [(r, u32 a); (r + 4, u32 (Z.shiftr a 32))].

Definition fresh_queue (bufs : nat -> list Z) (disk0 : Z -> Z) : machine :=
  mkMachine (mkDisk (replicate NUM (mkDesc ANull 0 0 0)) (replicate NUM 0%nat) 0 (replicate NUM 0%nat) 0 (replicate NUM true) 0
    (replicate NUM (mkInfo None 0)) (replicate NUM (mkReq 0 0 0))) (fun _ => false) bufs ∅ ∅ disk0 0 [].

Definition virtio_disk_init (rd : list (Z * Z) -> Z -> Z) (pages : option (Z * Z * Z)) (bufs : nat -> list Z) (disk0 : Z -> Z) : option (list (Z * Z) * machine) :=
  if negb (rd [] VIRTIO_MMIO_MAGIC_VALUE =? 0x74726976) || negb (rd [] VIRTIO_MMIO_VERSION =? 2) || negb (rd [] VIRTIO_MMIO_DEVICE_ID =? 2)
     || negb (rd [] VIRTIO_MMIO_VENDOR_ID =? 0x554d4551) then None
  else
    let w := [(VIRTIO_MMIO_STATUS, 0)] in
    let status := Z.lor 0 VIRTIO_CONFIG_S_ACKNOWLEDGE in
    let w := w ++ [(VIRTIO_MMIO_STATUS, status)] in
    let status := Z.lor status VIRTIO_CONFIG_S_DRIVER in
    let w := w ++ [(VIRTIO_MMIO_STATUS, status)] in
    let features := decline (rd w VIRTIO_MMIO_DEVICE_FEATURES) in
    let w := w ++ [(VIRTIO_MMIO_DRIVER_FEATURES, u32 features)] in
    let status := Z.lor status VIRTIO_CONFIG_S_FEATURES_OK in
    let w := w ++ [(VIRTIO_MMIO_STATUS, status)] in
    let status := rd w VIRTIO_MMIO_STATUS in
    if Z.land status VIRTIO_CONFIG_S_FEATURES_OK =? 0 then None
    else
      let w := w ++ [(VIRTIO_MMIO_QUEUE_SEL, 0)] in
      if negb (rd w VIRTIO_MMIO_QUEUE_READY =? 0) then None
      else
        let max := rd w VIRTIO_MMIO_QUEUE_NUM_MAX in
        if max =? 0 then None
        else if max <? Z.of_nat NUM then None
        else
          '(desc, avail, used) ← pages;
          let w := w ++ [(VIRTIO_MMIO_QUEUE_NUM, Z.of_nat NUM)] in
          let w := put_address VIRTIO_MMIO_QUEUE_DESC_LOW desc w in
          let w := put_address VIRTIO_MMIO_DRIVER_DESC_LOW avail w in
          let w := put_address VIRTIO_MMIO_DEVICE_DESC_LOW used w in
          let w := w ++ [(VIRTIO_MMIO_QUEUE_READY, 1)] in
          let status := Z.lor status VIRTIO_CONFIG_S_DRIVER_OK in
          Some (w ++ [(VIRTIO_MMIO_STATUS, status)], fresh_queue bufs disk0).

(** ** Rings *)
Definition window (l : list nat) (i : Z) (n : nat) : list nat := (fun k => l !!! Z.to_nat ((i + Z.of_nat k) mod 8)) <$> seq 0 n.

Lemma u16_mod8 i k : (u16 i + k) mod 8 = (i + k) mod 8.
Proof.
  unfold u16. pose proof (Z.div_mod i (2 ^ 16) ltac:(lia)) as E. rewrite E at 2.
  replace (2 ^ 16 * (i / 2 ^ 16) + i mod 2 ^ 16 + k) with (i mod 2 ^ 16 + k + 8192 * (i / 2 ^ 16) * 8) by lia. by rewrite Z.mod_add by lia.
Qed.

Lemma u16_add i k : u16 (u16 i + k) = u16 (i + k).
Proof. unfold u16. rewrite Z.add_mod_idemp_l by lia. done. Qed.

Lemma window_u16 l i n : window l (u16 i) n = window l i n.
Proof. unfold window. apply list_fmap_ext. intros k x _. by rewrite u16_mod8. Qed.

Lemma window_length l i n : length (window l i n) = n.
Proof. unfold window. by rewrite length_fmap, length_seq. Qed.

Lemma window_pop l i n : window l i (S n) = l !!! Z.to_nat (i mod 8) :: window l (i + 1) n.
Proof.
  unfold window. cbn [seq fmap list_fmap]. rewrite Z.add_0_r. f_equal. rewrite <- fmap_S_seq, <- list_fmap_compose. apply list_fmap_ext. intros k x _. simpl. do 3 f_equal. lia.
Qed.

Lemma window_push l i (n : nat) h : length l = 8%nat -> (n < 8)%nat -> window (<[Z.to_nat ((i + Z.of_nat n) mod 8) := h]> l) i (S n) = window l i n ++ [h].
Proof.
  intros Hl Hn. unfold window. rewrite seq_S, fmap_app. f_equal.
  - apply list_fmap_ext. intros k x Hx. apply lookup_seq in Hx as [-> Hx]. rewrite list_lookup_total_insert_ne; [done|]. intros E.
    apply Z2Nat.inj in E; [|apply Z.mod_pos_bound; lia..]. simpl in *. pose proof (Z.div_mod (i + Z.of_nat n) 8 ltac:(lia)). pose proof (Z.div_mod (i + Z.of_nat k) 8 ltac:(lia)). lia.
  - cbn [fmap list_fmap]. f_equal. rewrite list_lookup_total_insert_eq; [done|]. rewrite Hl. pose proof (Z.mod_pos_bound (i + Z.of_nat n) 8 ltac:(lia)). lia.
Qed.

Lemma ring_slot (l : list nat) i : length l = 8%nat -> l !! Z.to_nat (i mod 8) = Some (l !!! Z.to_nat (i mod 8)).
Proof. intros Hl. apply list_lookup_lookup_total_lt. pose proof (Z.mod_pos_bound i 8 ltac:(lia)). lia. Qed.

(** ** Descriptors *)
Definition nfree (f : list bool) : nat := length (filter (fun b : bool => b = true) f).

Lemma nfree_insert (f : list bool) : forall (i : nat) (v w : bool), f !! i = Some v -> (nfree (<[i := w]> f) + (if v then 1 else 0) = nfree f + (if w then 1 else 0))%nat.
Proof.
  unfold nfree. induction f as [|a f IH]; intros [|i] v w Hi; simpl in *; try done.
  - injection Hi as <-. rewrite !filter_cons. destruct a, w; repeat case_decide; simpl; (done || lia).
  - specialize (IH i v w Hi). rewrite !filter_cons. destruct (decide (a = true)); simpl; lia.
Qed.

Lemma find_free f : match find_index id f with Some i => f !! i = Some true | None => nfree f = 0%nat end.
Proof.
  destruct (find_index id f) as [i|] eqn:E.
  - apply find_index_Some in E as [(x & Hx & Ht) _]. by rewrite Hx; destruct x.
  - unfold nfree. induction f as [|a f IH]; [done|]. simpl in E. destruct a; [done|]. destruct (find_index id f); [done|]. rewrite filter_cons. by apply IH.
Qed.

(** [s'] differs from [s] in free descriptors and in who was woken. *)
Record scratch (s s' : machine) : Prop := mkScratch {
  sc_eq : s' = set_asleep (asleep s') (set_dk (set_descs (descs (dk s')) (dk s)) s);
  sc_len : length (descs (dk s')) = length (descs (dk s));
  sc_descs : forall i, dfree (dk s) !! i = Some false -> descs (dk s') !! i = descs (dk s) !! i;
  sc_asleep : asleep s' ⊆ asleep s
}.

Lemma wake_chan_sub c s : asleep (wake_chan c s) ⊆ asleep s.
Proof. apply map_filter_subseteq. Qed.

(** Descriptors just taken are given back. *)
Definition grab (i : nat) (s : machine) : machine := set_dk (set_dfree (<[i := false]> (dfree (dk s))) (dk s)) s.

Lemma alloc_desc_spec s : match alloc_desc s with (Some i, s') => dfree (dk s) !! i = Some true /\ s' = grab i s | (None, s') => nfree (dfree (dk s)) = 0%nat /\ s' = s end.
Proof. unfold alloc_desc. pose proof (find_free (dfree (dk s))) as H. by destruct (find_index id (dfree (dk s))). Qed.

Lemma free_desc_taken i s : dfree (dk s) !! i = Some false ->
  free_desc i s = Some (wake_chan CFree (set_dk (set_dfree (<[i := true]> (dfree (dk s))) (set_descs (<[i := mkDesc ANull 0 0 0]> (descs (dk s))) (dk s))) s)).
Proof. intros H. unfold free_desc. by rewrite H. Qed.

Lemma free_one_back s i : dfree (dk s) !! i = Some true -> exists s', free_desc i (grab i s) = Some s' /\ scratch s s'.
Proof.
  intros Hi. pose proof (lookup_lt_Some _ _ _ Hi) as Hlt. rewrite free_desc_taken by (simpl; by apply list_lookup_insert_eq). eexists. split; [reflexivity|].
  split; simpl; [|by rewrite length_insert | |apply map_filter_subseteq].
  - unfold wake_chan, set_asleep, grab, set_dk, set_dfree, set_descs. simpl. rewrite list_insert_insert_eq, (list_insert_id (dfree (dk s)) i true) by done. by destruct s as [[] ].
  - intros j Hj. rewrite list_lookup_insert_ne; [done|]. intros ->. congruence.
Qed.

Lemma scratch_refl s : scratch s s.
Proof. split; try done. by destruct s as [[] ]. Qed.

Lemma scratch_trans s s1 s2 : scratch s s1 -> scratch s1 s2 -> scratch s s2.
Proof.
  intros [E1 L1 D1 A1] [E2 L2 D2 A2]. assert (Ef : dfree (dk s1) = dfree (dk s)) by (by rewrite E1). split; [|congruence | | by etrans].
  - rewrite E2, E1. done.
  - intros i Hi. rewrite D2 by (by rewrite Ef). by apply D1.
Qed.

Lemma grab_comm i j s : grab i (grab j s) = grab j (grab i s).
Proof. unfold grab, set_dk, set_dfree. simpl. destruct (decide (i = j)) as [->|]; [done|]. by rewrite list_insert_insert_ne. Qed.

(** A scratch change commutes with taking a descriptor. *)
Lemma scratch_grab i s s1 : scratch (grab i s) s1 -> exists s0, s1 = grab i s0 /\ dfree (dk s0) = dfree (dk s) /\ (dfree (dk s) !! i = Some true -> scratch s s0).
Proof.
  intros [E L D A]. exists (set_asleep (asleep s1) (set_dk (set_descs (descs (dk s1)) (dk s)) s)). split; [rewrite E; done|]. split; [done|]. intros Hi.
  split; [done | done | | done]. intros j Hj. apply D. simpl. rewrite list_lookup_insert_ne; [done|]. intros ->. congruence.
Qed.

Lemma free_two_back s i j : i <> j -> dfree (dk s) !! i = Some true -> dfree (dk s) !! j = Some true -> exists s', free_descs [i; j] (grab j (grab i s)) = Some s' /\ scratch s s'.
Proof.
  intros Hij Hi Hj. rewrite grab_comm. destruct (free_one_back (grab j s) i) as (s1 & E1 & S1); [simpl; by rewrite list_lookup_insert_ne|].
  cbn [free_descs]. rewrite E1. cbn [mbind option_bind]. destruct (scratch_grab _ _ _ S1) as (s0 & -> & Ef & S0).
  destruct (free_one_back s0 j) as (s2 & E2 & S2); [by rewrite Ef|]. rewrite E2. exists s2. split; [done|]. by eapply scratch_trans; [apply S0|].
Qed.

Lemma alloc3_spec s : exists r s', alloc3_desc s = Some (r, s') /\
  match r with
  | Some (i0, i1, i2) => NoDup [i0; i1; i2] /\ (forall i, i ∈ [i0; i1; i2] -> dfree (dk s) !! i = Some true) /\ s' = grab i2 (grab i1 (grab i0 s))
  | None => (nfree (dfree (dk s)) < 3)%nat /\ scratch s s'
  end.
Proof.
  unfold alloc3_desc. cbn [alloc_loop]. pose proof (alloc_desc_spec s) as H0. destruct (alloc_desc s) as [[i0|] s0]; destruct H0 as [H0 ->].
  2: { eexists _, s. split; [reflexivity|]. split; [lia | apply scratch_refl]. }
  pose proof (nfree_insert _ _ _ false H0) as N0. simpl in N0.
  pose proof (alloc_desc_spec (grab i0 s)) as H1. destruct (alloc_desc (grab i0 s)) as [[i1|] s1]; destruct H1 as [H1 ->].
  2: { destruct (free_one_back s i0 H0) as (s' & E & S'). cbn [app free_descs]. rewrite E. eexists _, s'. split; [reflexivity|]. split; [simpl in H1; lia | done]. }
  assert (N01 : i0 <> i1) by (intros ->; simpl in H1; apply lookup_lt_Some in H0; rewrite list_lookup_insert_eq in H1; done).
  pose proof (nfree_insert _ _ _ false H1) as N1. simpl in N1, H1. rewrite list_lookup_insert_ne in H1 by done.
  pose proof (alloc_desc_spec (grab i1 (grab i0 s))) as H2. destruct (alloc_desc (grab i1 (grab i0 s))) as [[i2|] s2]; destruct H2 as [H2 ->].
  2: { destruct (free_two_back s i0 i1 N01 H0 H1) as (s' & E & S'). cbn [app]. rewrite E. eexists _, s'. split; [reflexivity|]. split; [simpl in H2; lia | done]. }
  simpl in H2. pose proof (lookup_lt_Some _ _ _ H0). pose proof (lookup_lt_Some _ _ _ H1).
  assert (N12 : i1 <> i2) by (intros ->; rewrite list_lookup_insert_eq in H2; [done | by rewrite length_insert]). rewrite list_lookup_insert_ne in H2 by done.
  assert (N02 : i0 <> i2) by (intros ->; rewrite list_lookup_insert_eq in H2; done). rewrite list_lookup_insert_ne in H2 by done.
  eexists (Some (i0, i1, i2)), _. split; [reflexivity|]. split; [|split; [|done]].
  - repeat (apply NoDup_cons; split; [set_solver|]). apply NoDup_nil_2.
  - intros i Hi. set_solver.
Qed.

(** ** The invariant *)
Definition chain_of (c : call) : list nat := match tidx c with Some (i0, i1, i2) => [i0; i1; i2] | None => [] end.
Definition head_of (c : call) : option nat := match tidx c with Some (i0, _, _) => Some i0 | None => None end.
Definition descs_of (m : gmap nat call) : list nat := map_to_list m ≫= (fun kv => chain_of kv.2).

(** The request the device finds. *)
Definition formatted (d : disk) (c : call) : Prop :=
  match tidx c with
  | None => True
  | Some (i0, i1, i2) =>
      descs d !! i0 = Some (mkDesc (AOp i0) 16 VRING_DESC_F_NEXT i1) /\
      descs d !! i1 = Some (mkDesc (AData (tb c)) BLOCK_BYTES (Z.lor (if tw c then 0 else VRING_DESC_F_WRITE) VRING_DESC_F_NEXT) i2) /\
      descs d !! i2 = Some (mkDesc (AStatus i0) 1 VRING_DESC_F_WRITE 0) /\
      ops d !! i0 = Some (mkReq (if tw c then VIRTIO_BLK_T_OUT else VIRTIO_BLK_T_IN) 0 (tn c * 2)) /\
      exists st, infos d !! i0 = Some (mkInfo (Some (tb c)) st)
  end.

(** The arrays have their lengths. *)
Definition sized (d : disk) : Prop :=
  length (descs d) = 8%nat /\ length (avail_ring d) = 8%nat /\ length (used_ring d) = 8%nat /\ length (dfree d) = 8%nat /\ length (infos d) = 8%nat /\ length (ops d) = 8%nat.

(** What a process sleeps for has not happened. *)
Definition waits (s : machine) (t : nat) (ch : chan) : Prop :=
  exists c, calls s !! t = Some c /\
    match ch with CFree => tidx c = None /\ (nfree (dfree (dk s)) < 3)%nat | CBuf b => b = tb c /\ tidx c <> None /\ bdisk s b = true end.

(** [Q] are the chains the device has not seen, [U] those it has used and the
    handler has not seen. *)
Record inv (s : machine) (Q U : list nat) : Prop := mkInv {
  v_sized : sized (dk s);
  v_queue : Q = window (avail_ring (dk s)) (dev_avail s) (length Q) /\ avail_idx (dk s) = u16 (dev_avail s + Z.of_nat (length Q));
  v_used : U = window (used_ring (dk s)) (used_idx (dk s)) (length U) /\ dev_used (dk s) = u16 (used_idx (dk s) + Z.of_nat (length U));
  v_range : 0 <= dev_avail s < 2 ^ 16 /\ 0 <= used_idx (dk s) < 2 ^ 16;
  v_nodup : NoDup (Q ++ fetched s ++ U);
  v_heads : forall h, h ∈ Q ++ fetched s ++ U <-> exists t c, calls s !! t = Some c /\ head_of c = Some h /\ bdisk s (tb c) = true;
  v_format : forall t c, calls s !! t = Some c -> formatted (dk s) c /\ 0 <= tn c < 2 ^ 31;
  v_status : forall h, h ∈ U -> exists b, infos (dk s) !! h = Some (mkInfo b 0);
  v_descs : NoDup (descs_of (calls s)) /\ forall i, i ∈ descs_of (calls s) <-> dfree (dk s) !! i = Some false;
  v_bufs : forall t t' c c', calls s !! t = Some c -> calls s !! t' = Some c' -> tb c = tb c' -> t = t';
  v_wake : forall t ch, asleep s !! t = Some ch -> waits s t ch
}.

Lemma elem_of_descs m i : i ∈ descs_of m <-> exists t c, m !! t = Some c /\ i ∈ chain_of c.
Proof.
  unfold descs_of. rewrite list_elem_of_bind. split.
  - intros ([t c] & Hi & Hm). apply elem_of_map_to_list in Hm. by exists t, c.
  - intros (t & c & Hm & Hi). exists (t, c). split; [done|]. by apply elem_of_map_to_list.
Qed.

Lemma descs_insert (m : gmap nat call) t c : m !! t = None -> descs_of (<[t := c]> m) ≡ₚ chain_of c ++ descs_of m.
Proof. intros H. unfold descs_of. by rewrite map_to_list_insert. Qed.

Lemma descs_delete (m : gmap nat call) t c : m !! t = Some c -> descs_of m ≡ₚ chain_of c ++ descs_of (delete t m).
Proof. intros H. rewrite <- (insert_delete_id m t c H) at 1. by rewrite descs_insert by apply lookup_delete_eq. Qed.

(** A call without descriptors, or a new one. *)
Definition no_chain (m : gmap nat call) (t : nat) : Prop := match m !! t with Some c => tidx c = None | None => True end.

Lemma descs_start (m : gmap nat call) t c : no_chain m t -> descs_of (<[t := c]> m) ≡ₚ chain_of c ++ descs_of m.
Proof.
  unfold no_chain. destruct (m !! t) as [c0|] eqn:E; intros H; [|by apply descs_insert].
  rewrite (descs_delete m t c0 E), <- insert_delete_eq, descs_insert by apply lookup_delete_eq.
  replace (chain_of c0) with (@nil nat) by (unfold chain_of; by rewrite H). done.
Qed.

Lemma chain_head c h : head_of c = Some h -> h ∈ chain_of c.
Proof. unfold head_of, chain_of. destruct (tidx c) as [[[i0 i1] i2]|]; [|done]. intros [= ->]. by left. Qed.

(** Two calls share no descriptor. *)
Lemma chains_apart m t t' c c' i : NoDup (descs_of m) -> m !! t = Some c -> m !! t' = Some c' -> i ∈ chain_of c -> i ∈ chain_of c' -> t = t'.
Proof.
  intros Hn Ht Ht' Hi Hi'. destruct (decide (t = t')) as [|Hne]; [done|]. exfalso. rewrite (descs_delete m t c Ht) in Hn. apply NoDup_app in Hn as (_ & Hd & _).
  apply (Hd i Hi). apply elem_of_descs. exists t', c'. by rewrite lookup_delete_ne.
Qed.

(** ** The abstract disk

    A call moves its block at one moment between its beginning and its end. *)
Record adisk := mkA { a_store : Z -> Z; a_data : nat -> list Z; a_calls : gmap nat (nat * Z * bool * bool) }.
Definition put_data (b : nat) (v : list Z) (f : nat -> list Z) : nat -> list Z := fun x => if decide (x = b) then v else f x.

Inductive astep : adisk -> adisk -> Prop :=
| A_fill a b data : (forall t b' n w m, a_calls a !! t = Some (b', n, w, m) -> b' <> b) ->
    astep a (mkA (a_store a) (put_data b data (a_data a)) (a_calls a))
| A_start a t b n w : a_calls a !! t = None -> (forall t b' n w m, a_calls a !! t = Some (b', n, w, m) -> b' <> b) ->
    astep a (mkA (a_store a) (a_data a) (<[t := (b, n, w, false)]> (a_calls a)))
| A_read a t b n : a_calls a !! t = Some (b, n, false, false) ->
    astep a (mkA (a_store a) (put_data b (read_store (n * BLOCK_BYTES) BLOCK_BYTES (a_store a)) (a_data a)) (<[t := (b, n, false, true)]> (a_calls a)))
| A_write a t b n : a_calls a !! t = Some (b, n, true, false) ->
    astep a (mkA (write_store (n * BLOCK_BYTES) BLOCK_BYTES (a_data a b) (a_store a)) (a_data a) (<[t := (b, n, true, true)]> (a_calls a)))
| A_return a t b n w : a_calls a !! t = Some (b, n, w, true) ->
    astep a (mkA (a_store a) (a_data a) (delete t (a_calls a))).

(** A call has moved its block when the device no longer has its chain. *)
Definition moved (L : list nat) (c : call) : bool := match head_of c with Some h => negb (bool_decide (h ∈ L)) | None => false end.
Definition view (L : list nat) (c : call) : nat * Z * bool * bool := (tb c, tn c, tw c, moved L c).
Definition abs_at (L : list nat) (s : machine) : adisk := mkA (store s) (bdata s) (view L <$> calls s).

Definition queued (s : machine) : list nat := window (avail_ring (dk s)) (dev_avail s) (Z.to_nat (u16 (avail_idx (dk s) - dev_avail s))).
Definition abs (s : machine) : adisk := abs_at (queued s ++ fetched s) s.

Lemma heads_few s Q U : inv s Q U -> (length (Q ++ fetched s ++ U) <= 8)%nat /\ forall h, h ∈ Q ++ fetched s ++ U -> dfree (dk s) !! h = Some false.
Proof.
  intros Hi. assert (Hh : forall h, h ∈ Q ++ fetched s ++ U -> dfree (dk s) !! h = Some false).
  { intros h Hh. apply (proj2 (v_descs _ _ _ Hi)). apply (v_heads _ _ _ Hi) in Hh as (t & c & Ht & Hc & _). apply elem_of_descs. exists t, c. split; [done | by apply chain_head]. }
  split; [|done]. rewrite <- (length_seq 8 0) at 1. apply submseteq_length, NoDup_submseteq; [apply Hi|]. intros h Hq. apply elem_of_seq.
  apply Hh, lookup_lt_Some in Hq. destruct (v_sized _ _ _ Hi) as (_ & _ & _ & E & _). rewrite E in Hq. lia.
Qed.

Lemma queued_eq s Q U : inv s Q U -> queued s = Q.
Proof.
  intros Hi. destruct (heads_few _ _ _ Hi) as [Hl _]. rewrite length_app in Hl. destruct (v_queue _ _ _ Hi) as [EQ Ea]. unfold queued. rewrite Ea. rewrite EQ at 2. f_equal.
  unfold u16. rewrite Zminus_mod_idemp_l. replace (dev_avail s + Z.of_nat (length Q) - dev_avail s) with (Z.of_nat (length Q)) by lia. rewrite Z.mod_small by lia. lia.
Qed.

Lemma abs_eq s Q U : inv s Q U -> abs s = abs_at (Q ++ fetched s) s.
Proof. intros Hi. unfold abs. by rewrite (queued_eq _ _ _ Hi). Qed.

Lemma lookup_call (m : gmap nat call) (t t' : nat) (c c' : call) : <[t := c]> m !! t' = Some c' -> t' = t /\ c' = c \/ t' <> t /\ m !! t' = Some c'.
Proof. destruct (decide (t' = t)) as [->|]; [rewrite lookup_insert_eq; intros [= <-]; by left | rewrite lookup_insert_ne by done; by right]. Qed.

(** A call that may begin or go on asking for descriptors. *)
Definition asking (s : machine) (t : nat) (c : call) : Prop :=
  no_chain (calls s) t /\ tidx c = None /\ 0 <= tn c < 2 ^ 31 /\ asleep s !! t = None /\ forall t' c', calls s !! t' = Some c' -> t' <> t -> tb c' <> tb c.

Lemma no_chain_head m t c : no_chain m t -> m !! t = Some c -> head_of c = None /\ chain_of c = [].
Proof. unfold no_chain, head_of, chain_of. intros H E. rewrite E in H. by rewrite H. Qed.

Lemma bufs_insert s Q U t c : inv s Q U -> (forall t' c', calls s !! t' = Some c' -> t' <> t -> tb c' <> tb c) ->
  forall t1 t2 c1 c2, <[t := c]> (calls s) !! t1 = Some c1 -> <[t := c]> (calls s) !! t2 = Some c2 -> tb c1 = tb c2 -> t1 = t2.
Proof.
  intros Hi Hb t1 t2 c1 c2 [[-> ->]|[N1 H1]]%lookup_call [[-> ->]|[N2 H2]]%lookup_call E; [done | | |by eapply (v_bufs _ _ _ Hi)].
  - by destruct (Hb t2 c2 H2 N2).
  - by destruct (Hb t1 c1 H1 N1).
Qed.

(** No descriptors: the process sleeps. *)
Lemma inv_blocked s Q U s' t c : inv s Q U -> scratch s s' -> asking s t c -> (nfree (dfree (dk s)) < 3)%nat ->
  inv (sleep_on t CFree (set_calls (<[t := c]> (calls s')) s')) Q U.
Proof.
  intros Hi [E L D A] (Hc & Hx & Hn & Hs & Hb) Hf. rewrite E. set (ds := descs (dk s')) in *. set (As := asleep s') in *. clearbody ds As. clear E s'.
  destruct Hi as [V1 V2 V3 V4 V5 V6 V7 V8 V9 V10 V11] eqn:EV. clear EV. split; simpl; try done.
  - destruct V1 as (? & ?). split; [simpl; congruence | done].
  - intros h. rewrite V6. split; intros (t' & c' & Ht & Hh & Hd).
    + exists t', c'. split; [|done]. rewrite lookup_insert_ne; [done|]. intros <-. destruct (no_chain_head _ _ _ Hc Ht). congruence.
    + apply lookup_call in Ht as [[-> ->]|[? ?]]; [unfold head_of in Hh; by rewrite Hx in Hh | by exists t', c'].
  - intros t' c' [[-> ->]|[Hne Ht]]%lookup_call; [unfold formatted; rewrite Hx; done|]. destruct (V7 t' c' Ht) as [F B]. split; [|done]. clear -F D V9 Ht Hne.
    unfold formatted in *. destruct (tidx c') as [[[i0 i1] i2]|] eqn:Ei; [|done]. simpl.
    assert (Hd : forall i, i ∈ [i0; i1; i2] -> ds !! i = descs (dk s) !! i).
    { intros i Hin. apply D. apply V9. apply elem_of_descs. exists t', c'. split; [done|]. unfold chain_of. by rewrite Ei. }
    rewrite !Hd by set_solver. done.
  - rewrite descs_start by done. replace (chain_of c) with (@nil nat) by (unfold chain_of; by rewrite Hx). split; [apply V9|]. intros i. rewrite descs_start by done.
    replace (chain_of c) with (@nil nat) by (unfold chain_of; by rewrite Hx). apply V9.
  - apply (bufs_insert s Q U t c); done.
  - intros t' ch. unfold waits. simpl. destruct (decide (t' = t)) as [->|Hne].
    + rewrite !lookup_insert_eq. intros [= <-]. by exists c.
    + rewrite !lookup_insert_ne by done. intros Ht. apply V11. by apply (lookup_weaken As (asleep s)).
Qed.

(** The call has its descriptors: the request is under way. *)
Definition with_chain (c : call) (ch : chain) : call := mkCall (tb c) (tn c) (tw c) (Some ch).
Definition submitted (t : nat) (c : call) (ch : chain) (s : machine) : machine :=
  let s := submit (tb c) (tn c) (tw c) ch (grab ch.2 (grab ch.1.2 (grab ch.1.1 s))) in
  sleep_on t (CBuf (tb c)) (set_calls (<[t := with_chain c ch]> (calls s)) s).

Section Submit.
Context (s : machine) (Q U : list nat) (t : nat) (c : call) (i0 i1 i2 : nat).
Context (Hi : inv s Q U) (Ha : asking s t c) (Hd : NoDup [i0; i1; i2]) (Hf : forall i, i ∈ [i0; i1; i2] -> dfree (dk s) !! i = Some true).
Let c' : call := with_chain c (i0, i1, i2).
Let s' : machine := submitted t c (i0, i1, i2) s.

Lemma submit_distinct : i0 <> i1 /\ i0 <> i2 /\ i1 <> i2.
Proof. apply NoDup_cons in Hd as [H0 Hd']. apply NoDup_cons in Hd' as [H1 _]. repeat split; intros ->; set_solver. Qed.

(** The other calls have other descriptors. *)
Lemma submit_other t' c1 i : calls s !! t' = Some c1 -> i ∈ chain_of c1 -> i <> i0 /\ i <> i1 /\ i <> i2.
Proof.
  intros Ht Hin. assert (E : dfree (dk s) !! i = Some false) by (apply (v_descs _ _ _ Hi), elem_of_descs; by exists t', c1).
  repeat split; intros ->; rewrite Hf in E by set_solver; done.
Qed.

Lemma submit_head_new : i0 ∉ Q ++ fetched s ++ U.
Proof. intros H. apply (proj2 (heads_few _ _ _ Hi)) in H. by rewrite Hf in H by set_solver. Qed.

Lemma submit_room : (length Q < 8)%nat.
Proof.
  pose proof submit_head_new as Hn. destruct (heads_few _ _ _ Hi) as [_ Hh]. destruct (v_sized _ _ _ Hi) as (_ & _ & _ & E & _).
  assert (Hl : (length (i0 :: Q ++ fetched s ++ U) <= length (seq 0 8))%nat).
  { apply submseteq_length, NoDup_submseteq; [constructor; [done | apply Hi]|]. intros h [->|Hq]%elem_of_cons; apply elem_of_seq; rewrite <- E.
    - pose proof (lookup_lt_Some _ _ _ (Hf i0 ltac:(set_solver))). lia.
    - pose proof (lookup_lt_Some _ _ _ (Hh h Hq)). lia. }
  rewrite length_seq in Hl. simpl in Hl. rewrite length_app in Hl. lia.
Qed.

Lemma submit_descs i : descs (dk s') !! i =
  if decide (i = i2) then Some (mkDesc (AStatus i0) 1 VRING_DESC_F_WRITE 0)
  else if decide (i = i1) then Some (mkDesc (AData (tb c)) BLOCK_BYTES (Z.lor (if tw c then 0 else VRING_DESC_F_WRITE) VRING_DESC_F_NEXT) i2)
  else if decide (i = i0) then Some (mkDesc (AOp i0) 16 VRING_DESC_F_NEXT i1) else descs (dk s) !! i.
Proof.
  destruct (v_sized _ _ _ Hi) as (L1 & _ & _ & L2 & _). assert (Hl : forall i, i ∈ [i0; i1; i2] -> (i < length (descs (dk s)))%nat).
  { intros j Hj. rewrite L1, <- L2. by eapply lookup_lt_Some, Hf. }
  unfold s', submitted, submit. simpl. destruct (decide (i = i2)) as [->|]; [apply list_lookup_insert_eq; rewrite !length_insert; apply Hl; set_solver|].
  rewrite list_lookup_insert_ne by done. destruct (decide (i = i1)) as [->|]; [apply list_lookup_insert_eq; rewrite !length_insert; apply Hl; set_solver|].
  rewrite list_lookup_insert_ne by done. destruct (decide (i = i0)) as [->|]; [apply list_lookup_insert_eq; apply Hl; set_solver|]. by rewrite list_lookup_insert_ne.
Qed.

Lemma submit_info i : infos (dk s') !! i = if decide (i = i0) then Some (mkInfo (Some (tb c)) 255) else infos (dk s) !! i.
Proof.
  destruct (v_sized _ _ _ Hi) as (_ & _ & _ & L2 & L & _). unfold s', submitted, submit. simpl. destruct (decide (i = i0)) as [->|]; [|by rewrite list_lookup_insert_ne].
  apply list_lookup_insert_eq. rewrite L, <- L2. eapply lookup_lt_Some, Hf. set_solver.
Qed.

Lemma submit_op i : ops (dk s') !! i = if decide (i = i0) then Some (mkReq (if tw c then VIRTIO_BLK_T_OUT else VIRTIO_BLK_T_IN) 0 (tn c * 2)) else ops (dk s) !! i.
Proof.
  destruct (v_sized _ _ _ Hi) as (_ & _ & _ & L2 & _ & L). destruct Ha as (_ & _ & Hn & _). unfold s', submitted, submit. simpl. rewrite u32_id by (unfold in_u32; change (BLOCK_BYTES / 512) with 2; lia).
  destruct (decide (i = i0)) as [->|]; [|by rewrite list_lookup_insert_ne]. apply list_lookup_insert_eq. rewrite L, <- L2. eapply lookup_lt_Some, Hf. set_solver.
Qed.

Lemma submit_free i : dfree (dk s') !! i = if decide (i ∈ [i0; i1; i2]) then Some false else dfree (dk s) !! i.
Proof.
  assert (Hl : forall i, i ∈ [i0; i1; i2] -> (i < length (dfree (dk s)))%nat) by (intros j Hj; by eapply lookup_lt_Some, Hf).
  unfold s', submitted, submit, grab. simpl. destruct (decide (i = i2)) as [->|]; [rewrite decide_True by set_solver; apply list_lookup_insert_eq; rewrite !length_insert; apply Hl; set_solver|].
  rewrite list_lookup_insert_ne by done. destruct (decide (i = i1)) as [->|]; [rewrite decide_True by set_solver; apply list_lookup_insert_eq; rewrite !length_insert; apply Hl; set_solver|].
  rewrite list_lookup_insert_ne by done. destruct (decide (i = i0)) as [->|]; [rewrite decide_True by set_solver; apply list_lookup_insert_eq; apply Hl; set_solver|].
  rewrite list_lookup_insert_ne by done. by rewrite decide_False by set_solver.
Qed.

Lemma submit_nfree : (nfree (dfree (dk s')) <= nfree (dfree (dk s)))%nat.
Proof.
  unfold s', submitted, submit, grab. simpl. assert (H : forall f i, (nfree (<[i := false]> f) <= nfree f)%nat); [|etrans; [apply H|]; etrans; apply H].
  intros f i. destruct (f !! i) as [v|] eqn:E; [pose proof (nfree_insert f i v false E); destruct v; lia|]. rewrite list_insert_ge; [done|]. by apply lookup_ge_None.
Qed.

Lemma submit_format t1 c1 : calls s' !! t1 = Some c1 -> formatted (dk s') c1 /\ 0 <= tn c1 < 2 ^ 31.
Proof.
  destruct submit_distinct as (N01 & N02 & N12). intros [[-> ->]|[Hne Ht]]%lookup_call.
  - split; [|apply Ha]. unfold formatted. cbn [tidx with_chain tb tw tn]. rewrite !submit_descs, submit_op, submit_info. repeat (case_decide; [try done|]; try done). eauto 10.
  - change (calls s !! t1 = Some c1) in Ht. destruct (v_format _ _ _ Hi t1 c1 Ht) as [F B]. split; [|done]. unfold formatted in *. destruct (tidx c1) as [[[j0 j1] j2]|] eqn:E; [|done].
    assert (Hj : forall j, j ∈ [j0; j1; j2] -> j <> i0 /\ j <> i1 /\ j <> i2) by (intros j Hj; apply (submit_other t1 c1 j Ht); unfold chain_of; by rewrite E).
    destruct (Hj j0 ltac:(set_solver)) as (? & ? & ?), (Hj j1 ltac:(set_solver)) as (? & ? & ?), (Hj j2 ltac:(set_solver)) as (? & ? & ?).
    rewrite !submit_descs, submit_op, submit_info. by rewrite !decide_False by done.
Qed.

Lemma submit_heads h : h ∈ (Q ++ [i0]) ++ fetched s ++ U <-> exists t1 c1, calls s' !! t1 = Some c1 /\ head_of c1 = Some h /\ bdisk s' (tb c1) = true.
Proof.
  destruct Ha as (Hc & Hx & _ & _ & Hb). assert (E : h ∈ (Q ++ [i0]) ++ fetched s ++ U <-> h = i0 \/ h ∈ Q ++ fetched s ++ U) by (clear; set_solver). rewrite E. split.
  - intros [->|Hh].
    + exists t, c'. simpl. rewrite lookup_insert_eq. split; [done|]. split; [done|]. by rewrite decide_True.
    + apply (v_heads _ _ _ Hi) in Hh as (t1 & c1 & Ht & Hh & Hbd). exists t1, c1. split; [|split; [done|]].
      * simpl. rewrite lookup_insert_ne; [done|]. intros <-. destruct (no_chain_head _ _ _ Hc Ht). congruence.
      * simpl. case_decide; done.
  - intros (t1 & c1 & Ht & Hh & Hbd). apply lookup_call in Ht as [[-> ->]|[Hne Ht]]; [left; by injection Hh as <-|]. right. apply (v_heads _ _ _ Hi). exists t1, c1.
    split; [done|]. split; [done|]. simpl in Hbd. rewrite decide_False in Hbd; [done|]. by apply (Hb t1).
Qed.

Lemma inv_submitted : inv s' (Q ++ [i0]) U.
Proof.
  pose proof submit_format as SF. pose proof submit_heads as SH. pose proof submit_room as SR. pose proof submit_head_new as SN.
  pose proof Hi as [V1 [V2 V2'] V3 V4 V5 V6 V7 V8 [V9 V9'] V10 V11]. destruct Ha as (Hc & Hx & Hn & Hs & Hb). split.
  - destruct V1 as (? & ? & ? & ? & ? & ?). unfold sized, s', submitted, submit. simpl. rewrite !length_insert. done.
  - unfold s', submitted, submit. simpl. rewrite length_app. simpl. split.
    + rewrite V2'. assert (Em : u16 (dev_avail s + Z.of_nat (length Q)) mod 8 = (dev_avail s + Z.of_nat (length Q)) mod 8).
      { pose proof (u16_mod8 (dev_avail s + Z.of_nat (length Q)) 0) as Em. rewrite !Z.add_0_r in Em. exact Em. }
      rewrite Em. replace (length Q + 1)%nat with (S (length Q)) by lia. rewrite window_push; [by rewrite <- V2 | apply V1 | done].
    + rewrite V2', u16_add. f_equal. lia.
  - done.
  - done.
  - assert (HP : (Q ++ [i0]) ++ fetched s ++ U ≡ₚ i0 :: Q ++ fetched s ++ U) by (clear; solve_Permutation). change (fetched s') with (fetched s). rewrite HP. by constructor.
  - exact SH.
  - exact SF.
  - intros h Hh. rewrite submit_info. rewrite decide_False; [by apply V8|]. intros ->. apply SN. set_solver.
  - assert (HP : descs_of (calls s') ≡ₚ [i0; i1; i2] ++ descs_of (calls s)) by (unfold s', submitted; simpl; by rewrite descs_start).
    split.
    + rewrite HP. apply NoDup_app. split; [done|]. split; [|done]. intros i Hin Hin'. apply V9' in Hin'. by rewrite Hf in Hin'.
    + intros i. rewrite HP, submit_free, elem_of_app, V9'. destruct (decide (i ∈ [i0; i1; i2])); tauto.
  - intros t1 t2 c1 c2. apply (bufs_insert s Q U t c' Hi). done.
  - intros t1 ch Ht. change (<[t := CBuf (tb c)]> (asleep s) !! t1 = Some ch) in Ht.
    assert (Hbd : forall b, bdisk s b = true -> bdisk s' b = true) by (intros b H; simpl; case_decide; done).
    destruct (decide (t1 = t)) as [->|Hne].
    + rewrite lookup_insert_eq in Ht. injection Ht as <-. exists c'. split; [apply lookup_insert_eq|]. split; [done|]. split; [done|]. simpl. by rewrite decide_True.
    + rewrite lookup_insert_ne in Ht by done. destruct (V11 t1 ch Ht) as (c1 & Hc1 & Hw). exists c1. split; [by rewrite <- Hc1; apply lookup_insert_ne|].
      destruct ch as [|b]; [split; [apply Hw|]; pose proof submit_nfree; destruct Hw; lia|]. destruct Hw as (-> & ? & ?). split; [done|]. split; [done|]. by apply Hbd.
Qed.
End Submit.

(** ** The end of a call *)
Record freed (l : list nat) (s s' : machine) : Prop := mkFreed {
  f_eq : s' = set_asleep (asleep s') (set_dk (set_dfree (dfree (dk s')) (set_descs (descs (dk s')) (dk s))) s);
  f_len : length (descs (dk s')) = length (descs (dk s)) /\ length (dfree (dk s')) = length (dfree (dk s));
  f_descs : forall i, i ∉ l -> descs (dk s') !! i = descs (dk s) !! i;
  f_free : forall i, dfree (dk s') !! i = if decide (i ∈ l) then Some true else dfree (dk s) !! i;
  f_asleep : asleep s' ⊆ asleep s /\ forall t, asleep s' !! t <> Some CFree
}.

Lemma freed_one i s : dfree (dk s) !! i = Some false -> exists s', free_desc i s = Some s' /\ freed [i] s s'.
Proof.
  intros Hi. rewrite (free_desc_taken i s Hi). eexists. split; [reflexivity|]. split; simpl.
  - by destruct s as [[] ].
  - by rewrite !length_insert.
  - intros j Hj. rewrite list_lookup_insert_ne; [done|]. set_solver.
  - intros j. destruct (decide (j = i)) as [->|Hne].
    + rewrite decide_True by set_solver. apply list_lookup_insert_eq. by eapply lookup_lt_Some.
    + rewrite decide_False by set_solver. by rewrite list_lookup_insert_ne.
  - split; [apply map_filter_subseteq|]. intros t H. apply map_lookup_filter_Some in H as [_ H]. done.
Qed.

Lemma freed_app l1 l2 s s1 s2 : freed l1 s s1 -> freed l2 s1 s2 -> freed (l1 ++ l2) s s2.
Proof.
  intros [E1 [L1 M1] D1 F1 [A1 B1]] [E2 [L2 M2] D2 F2 [A2 B2]]. split.
  - rewrite E2, E1. done.
  - split; congruence.
  - intros i Hi. rewrite D2, D1 by set_solver. done.
  - intros i. rewrite F2, F1. repeat case_decide; set_solver.
  - split; [by etrans | done].
Qed.

Lemma free_chain_spec s c i0 i1 i2 : descs (dk s) !! i0 = Some (mkDesc (AOp i0) 16 VRING_DESC_F_NEXT i1) ->
  descs (dk s) !! i1 = Some (mkDesc (AData (tb c)) BLOCK_BYTES (Z.lor (if tw c then 0 else VRING_DESC_F_WRITE) VRING_DESC_F_NEXT) i2) ->
  descs (dk s) !! i2 = Some (mkDesc (AStatus i0) 1 VRING_DESC_F_WRITE 0) -> NoDup [i0; i1; i2] -> (forall i, i ∈ [i0; i1; i2] -> dfree (dk s) !! i = Some false) ->
  exists s', free_chain 4 i0 s = Some s' /\ freed [i0; i1; i2] s s'.
Proof.
  intros D0 D1 D2 Hd Hf. apply NoDup_cons in Hd as [N0 Hd]. apply NoDup_cons in Hd as [N1 _].
  destruct (freed_one i0 s) as (s1 & E1 & S1); [apply Hf; set_solver|].
  destruct (freed_one i1 s1) as (s2 & E2 & S2); [rewrite (f_free _ _ _ S1), decide_False by set_solver; apply Hf; set_solver|].
  pose proof (freed_app _ _ _ _ _ S1 S2) as S12. simpl in S12.
  destruct (freed_one i2 s2) as (s3 & E3 & S3); [rewrite (f_free _ _ _ S12), decide_False by set_solver; apply Hf; set_solver|].
  pose proof (freed_app _ _ _ _ _ S12 S3) as S123. exists s3. split; [|exact S123].
  cbn [free_chain]. rewrite D0. cbn [mbind option_bind d_flags d_next]. rewrite E1. cbn [mbind option_bind].
  change (Z.land VRING_DESC_F_NEXT VRING_DESC_F_NEXT =? 0) with false. cbv iota. rewrite (f_descs _ _ _ S1) by set_solver. rewrite D1. cbn [mbind option_bind d_flags d_next]. rewrite E2. cbn [mbind option_bind].
  replace (Z.land (Z.lor (if tw c then 0 else VRING_DESC_F_WRITE) VRING_DESC_F_NEXT) VRING_DESC_F_NEXT =? 0) with false by (by destruct (tw c)). cbv iota.
  rewrite (f_descs _ _ _ S12) by set_solver. rewrite D2. cbn [mbind option_bind d_flags d_next]. rewrite E3. done.
Qed.

Section Finish.
Context (s : machine) (Q U : list nat) (t : nat) (c : call) (i0 i1 i2 : nat).
Context (Hi : inv s Q U) (Hc : calls s !! t = Some c) (Ei : tidx c = Some (i0, i1, i2)) (Hb : bdisk s (tb c) = false) (Hs : asleep s !! t = None).

Lemma finish_chain : NoDup [i0; i1; i2] /\ forall i, i ∈ [i0; i1; i2] -> dfree (dk s) !! i = Some false.
Proof.
  destruct (v_descs _ _ _ Hi) as [Hn He]. assert (Ec : chain_of c = [i0; i1; i2]) by (unfold chain_of; by rewrite Ei). split.
  - rewrite (descs_delete _ _ _ Hc), Ec in Hn. by apply NoDup_app in Hn as [? _].
  - intros i Hin. apply He, elem_of_descs. exists t, c. by rewrite Ec.
Qed.

Lemma finish_other t' c' i : calls s !! t' = Some c' -> t' <> t -> i ∈ chain_of c' -> i ∉ [i0; i1; i2].
Proof.
  intros Ht Hne Hin Hin'. apply Hne. apply (chains_apart (calls s) t' t c' c i); [apply Hi | done..|]. unfold chain_of. by rewrite Ei.
Qed.

Lemma rw_finish : exists s', rw_wait t c (i0, i1, i2) s = Some s' /\ inv s' Q U /\ fetched s' = fetched s /\ calls s' = delete t (calls s) /\ store s' = store s /\ bdata s' = bdata s.
Proof.
  destruct finish_chain as [Hd Hf]. destruct (v_format _ _ _ Hi t c Hc) as [F _]. pose proof F as F0. unfold formatted in F0. rewrite Ei in F0. destruct F0 as (D0 & D1 & D2 & O & st & Hin).
  unfold rw_wait. rewrite Hb. cbn [fst]. rewrite Hin. cbn [mbind option_bind in_status]. set (I := <[i0 := mkInfo None st]> (infos (dk s))). set (s1 := set_dk (set_infos I (dk s)) s).
  destruct (free_chain_spec s1 c i0 i1 i2 D0 D1 D2 Hd Hf) as (s2 & E2 & [Eq [L M] D Fr [A B]]). rewrite E2. cbn [mbind option_bind]. eexists. split; [reflexivity|].
  simpl in L, M, D, Fr, A. set (ds := descs (dk s2)) in *. set (fs := dfree (dk s2)) in *. set (As := asleep s2) in *. clearbody ds fs As. rewrite Eq. clear Eq E2. split; [|done].
  pose proof Hi as [V1 V2 V3 V4 V5 V6 V7 V8 [V9 V9'] V10 V11].
  assert (Hlk : forall t' c', delete t (calls s) !! t' = Some c' -> t' <> t /\ calls s !! t' = Some c') by (intros t' c' H; by apply lookup_delete_Some in H as [? ?]).
  split; try done; unfold s1; simpl.
  - destruct V1 as (? & ? & ? & ? & ? & ?). unfold sized, I. simpl. rewrite length_insert. repeat split; congruence.
  - intros h. rewrite V6. split; intros (t' & c' & Ht & Hh & Hbd).
    + exists t', c'. split; [|done]. rewrite lookup_delete_ne; [done|]. intros <-. congruence.
    + apply Hlk in Ht as [? ?]. by exists t', c'.
  - intros t' c' Ht. apply Hlk in Ht as [Hne Ht]. destruct (V7 t' c' Ht) as [F' ?]. split; [|done]. unfold formatted in *. destruct (tidx c') as [[[j0 j1] j2]|] eqn:Ej; [|done].
    assert (Hj : forall j, j ∈ [j0; j1; j2] -> j ∉ [i0; i1; i2]) by (intros j Hj; apply (finish_other t' c'); [done | done|]; unfold chain_of; by rewrite Ej).
    simpl. rewrite !D by (apply Hj; set_solver). unfold I. rewrite list_lookup_insert_ne; [done|]. specialize (Hj j0 ltac:(set_solver)). set_solver.
  - intros h Hh. unfold I. rewrite list_lookup_insert_ne; [by apply V8|]. intros <-. assert (Hq : i0 ∈ Q ++ fetched s ++ U) by set_solver.
    apply V6 in Hq as (t' & c' & Ht & Hh' & Hbd). assert (t' = t); [|congruence]. apply (chains_apart (calls s) t' t c' c i0); [done..|by apply chain_head|]. unfold chain_of. rewrite Ei. by left.
  - assert (HP : descs_of (calls s) ≡ₚ [i0; i1; i2] ++ descs_of (delete t (calls s))) by (rewrite (descs_delete _ _ _ Hc); unfold chain_of; by rewrite Ei).
    rewrite HP in V9. apply NoDup_app in V9 as (_ & Hdis & V9). split; [done|]. intros i. rewrite Fr. specialize (V9' i). rewrite HP, elem_of_app in V9'.
    destruct (decide (i ∈ [i0; i1; i2])) as [Hin'|Hnin]; [|tauto]. split; [intros H; by destruct (Hdis i Hin') | done].
  - intros t1 t2 c1 c2 H1 H2. apply Hlk in H1 as [_ ?], H2 as [_ ?]. by eapply V10.
  - intros t' ch Ht. assert (Hne : t' <> t) by (intros ->; pose proof (lookup_weaken _ _ _ _ Ht A) as Hw; simpl in Hw; congruence).
    destruct (V11 t' ch) as (c' & Hc' & Hw); [by apply (lookup_weaken _ _ _ _ Ht A)|]. exists c'. simpl. rewrite lookup_delete_ne by done. split; [done|].
    destruct ch; [by destruct (B t') | done].
Qed.
End Finish.

(** The call goes back to sleep. *)
Lemma inv_wait s Q U t c : inv s Q U -> calls s !! t = Some c -> tidx c <> None -> bdisk s (tb c) = true ->
  inv (sleep_on t (CBuf (tb c)) (set_calls (<[t := c]> (calls s)) s)) Q U.
Proof.
  intros Hi Hc Hx Hb. rewrite (insert_id (calls s) t c Hc). replace (set_calls (calls s) s) with s by (by destruct s).
  destruct Hi as [V1 V2 V3 V4 V5 V6 V7 V8 V9 V10 V11]. split; try done. intros t' ch. simpl. destruct (decide (t' = t)) as [->|Hne].
  - rewrite lookup_insert_eq. intros [= <-]. by exists c.
  - rewrite lookup_insert_ne by done. apply V11.
Qed.

Lemma used_nonempty s Q U : inv s Q U -> used_idx (dk s) <> dev_used (dk s) <-> U <> [].
Proof.
  intros Hi. destruct (v_used _ _ _ Hi) as [_ E]. destruct (v_range _ _ _ Hi) as [_ Hr]. rewrite E. destruct (heads_few _ _ _ Hi) as [Hl _]. rewrite !length_app in Hl. unfold u16. split.
  - intros H ->. apply H. simpl. rewrite Z.add_0_r, Z.mod_small by lia. done.
  - intros H E'. apply H. apply nil_length_inv. destruct (Z.lt_ge_cases (used_idx (dk s) + Z.of_nat (length U)) (2 ^ 16)); [rewrite Z.mod_small in E' by lia; lia|].
    pose proof (Z.div_mod (used_idx (dk s) + Z.of_nat (length U)) (2 ^ 16) ltac:(lia)). assert ((used_idx (dk s) + Z.of_nat (length U)) / 2 ^ 16 = 1); [|lia].
    symmetry. apply (Z.div_unique_pos _ _ _ (used_idx (dk s) + Z.of_nat (length U) - 2 ^ 16)); lia.
Qed.

Lemma u16_range x : 0 <= u16 x < 2 ^ 16.
Proof. apply Z.mod_pos_bound. lia. Qed.

(** A used chain is seen by the handler: its call is woken. *)
Lemma intr_entry_spec s Q h U : inv s Q (h :: U) -> exists s', intr_entry s = Some s' /\ inv s' Q U /\ fetched s' = fetched s /\ calls s' = calls s /\ store s' = store s /\ bdata s' = bdata s.
Proof.
  intros Hi. pose proof Hi as [V1 V2 [V3 V3'] [V4 V4'] V5 V6 V7 V8 V9 V10 V11]. assert (Hh : h ∈ Q ++ fetched s ++ h :: U) by set_solver.
  pose proof (proj1 (V6 h) Hh) as (t & c & Ht & Hc & Hb). destruct (V7 t c Ht) as [F _]. destruct (V8 h ltac:(by left)) as (b0 & Eb). unfold head_of in Hc. unfold formatted in F.
  destruct (tidx c) as [[[i0 i1] i2]|] eqn:Ei; [|done]. injection Hc as ->. destruct F as (_ & _ & _ & _ & st & Ef). assert (b0 = Some (tb c)) as -> by congruence. clear Ef st.
  cbn [length] in V3, V3'. rewrite window_pop in V3. injection V3 as EU0 EU1. unfold intr_entry. rewrite ring_slot, <- EU0 by apply V1. cbn [mbind option_bind]. rewrite Eb.
  cbn [mbind option_bind in_status in_b]. rewrite Z.eqb_refl. eexists. split; [reflexivity|]. split; [|done].
  assert (Hn : h ∉ Q ++ fetched s ++ U). { intros H. assert (HP : Q ++ fetched s ++ h :: U ≡ₚ h :: Q ++ fetched s ++ U) by (clear; solve_Permutation). rewrite HP in V5. by apply NoDup_cons in V5 as [? _]. }
  split; try done.
  - split; [simpl; rewrite window_u16; done|]. simpl. rewrite u16_add, V3'. f_equal. lia.
  - split; [done | apply u16_range].
  - assert (HP : Q ++ fetched s ++ h :: U ≡ₚ h :: Q ++ fetched s ++ U) by (clear; solve_Permutation). rewrite HP in V5. by apply NoDup_cons in V5 as [_ ?].
  - intros h'. simpl. split.
    + intros Hh'. destruct (proj1 (V6 h') ltac:(set_solver)) as (t' & c' & Ht' & Hc' & Hb'). exists t', c'. split; [done|]. split; [done|]. rewrite decide_False; [done|].
      intros E. assert (t' = t) as -> by (by eapply V10). assert (c' = c) as -> by congruence. unfold head_of in Hc'. rewrite Ei in Hc'. injection Hc' as <-. done.
    + intros (t' & c' & Ht' & Hc' & Hb'). destruct (decide (tb c' = tb c)) as [E|E]; [done|]. assert (Hin : h' ∈ Q ++ fetched s ++ h :: U) by (apply V6; by exists t', c').
      assert (h' <> h); [|set_solver]. intros ->. assert (t' = t); [|congruence]. apply (chains_apart (calls s) t' t c' c h); [apply V9 | done | done | by apply chain_head|].
      unfold chain_of. rewrite Ei. by left.
  - intros h' Hh'. apply V8. by right.
  - intros t' ch Hs. simpl in Hs. apply map_lookup_filter_Some in Hs as [Hs Hne]. destruct (V11 t' ch Hs) as (c' & Hc' & Hw). exists c'. split; [done|].
    destruct ch as [|b]; [done|]. destruct Hw as (-> & ? & ?). split; [done|]. split; [done|]. simpl. rewrite decide_False; [done|]. intros E. apply Hne. simpl. by rewrite E.
Qed.

Lemma intr_loop_spec U : forall s Q fuel, inv s Q U -> (length U <= fuel)%nat ->
  exists s', intr_loop fuel s = Some s' /\ inv s' Q [] /\ fetched s' = fetched s /\ calls s' = calls s /\ store s' = store s /\ bdata s' = bdata s.
Proof.
  induction U as [|h U IH]; intros s Q fuel Hi Hf.
  - exists s. split; [|done]. assert (E : used_idx (dk s) = dev_used (dk s)) by (destruct (Z.eq_dec (used_idx (dk s)) (dev_used (dk s))) as [|Hne]; [done|]; by apply (used_nonempty s Q []) in Hne).
    destruct fuel; cbn [intr_loop]; by rewrite E, Z.eqb_refl.
  - destruct fuel as [|fuel]; [simpl in Hf; lia|]. cbn [intr_loop]. destruct (Z.eqb_spec (used_idx (dk s)) (dev_used (dk s))) as [E|_]; [by apply (used_nonempty s Q (h :: U)) in E|].
    destruct (intr_entry_spec s Q h U Hi) as (s1 & -> & Hi1 & E1 & E2 & E3 & E4). cbn [mbind option_bind].
    destruct (IH s1 Q fuel Hi1 ltac:(simpl in Hf; lia)) as (s2 & -> & Hi2 & F1 & F2 & F3 & F4). exists s2. split; [done|]. split; [done|]. repeat split; congruence.
Qed.

(** ** The device *)
Lemma fetch_spec s Q U : inv s Q U -> exists s' Q', device_fetch s = Some s' /\ inv s' Q' U /\ calls s' = calls s /\ store s' = store s /\ bdata s' = bdata s /\
  forall h, h ∈ Q' ++ fetched s' <-> h ∈ Q ++ fetched s.
Proof.
  intros Hi. pose proof Hi as [V1 [V2 V2'] V3 [V4 V4'] V5 V6 V7 V8 V9 V10 V11]. unfold device_fetch. destruct (Z.eqb_spec (dev_avail s) (avail_idx (dk s))) as [E|E]; [by exists s, Q|].
  destruct Q as [|h Q]; [exfalso; apply E; rewrite V2'; simpl; rewrite Z.add_0_r; symmetry; by apply Z.mod_small|].
  cbn [length] in V2, V2'. rewrite window_pop in V2. injection V2 as E0 E1. rewrite ring_slot, <- E0 by apply V1. cbn [mbind option_bind]. eexists _, Q. split; [reflexivity|].
  assert (HP : Q ++ (fetched s ++ [h]) ++ U ≡ₚ (h :: Q) ++ fetched s ++ U) by (clear; solve_Permutation). split; [|split; [done|split; [done|split; [done|]]]].
  - split; try done.
    + split; [simpl; rewrite window_u16; done|]. simpl. rewrite u16_add, V2'. f_equal. lia.
    + split; [apply u16_range | done].
    + simpl. by rewrite HP.
    + intros h'. simpl. rewrite HP. apply V6.
  - intros h'. simpl. clear. set_solver.
Qed.

(** The block of a call, moved. *)
Definition move (c : call) (s : machine) : machine :=
  if tw c then set_store (write_store (tn c * BLOCK_BYTES) BLOCK_BYTES (bdata s (tb c)) (store s)) s
  else set_bdata (tb c) (read_store (tn c * BLOCK_BYTES) BLOCK_BYTES (store s)) s.

Lemma serve_spec s Q U t c h : inv s Q U -> calls s !! t = Some c -> head_of c = Some h ->
  serve h 0 s = Some (set_dk (set_infos (<[h := mkInfo (Some (tb c)) 0]> (infos (dk s))) (dk s)) (move c s)).
Proof.
  intros Hi Ht Hh. destruct (v_format _ _ _ Hi t c Ht) as [F _]. unfold head_of in Hh. unfold formatted in F. destruct (tidx c) as [[[i0 i1] i2]|]; [|done]. injection Hh as ->.
  destruct F as (D0 & D1 & D2 & O & st & Ef). unfold serve. rewrite D0. cbn [mbind option_bind d_next d_addr]. rewrite D1. cbn [mbind option_bind d_next d_addr]. rewrite D2.
  cbn [mbind option_bind d_addr]. rewrite O. cbn [mbind option_bind]. rewrite Ef. cbn [mbind option_bind d_flags d_len r_sector r_type in_b]. unfold move.
  replace (tn c * 2 * 512) with (tn c * BLOCK_BYTES) by (unfold BLOCK_BYTES; lia). by destruct (tw c).
Qed.

Lemma complete_spec s Q U k h : inv s Q U -> fetched s !! k = Some h ->
  exists t c s', calls s !! t = Some c /\ head_of c = Some h /\ device_complete k 0 s = Some s' /\ inv s' Q (U ++ [h]) /\
    fetched s' = delete k (fetched s) /\ calls s' = calls s /\ store s' = store (move c s) /\ bdata s' = bdata (move c s).
Proof.
  intros Hi Hk. pose proof Hi as [V1 V2 [V3 V3'] V4 V5 V6 V7 V8 [V9 V9'] V10 V11]. pose proof (delete_Permutation _ _ _ Hk) as HD.
  assert (Hh : h ∈ Q ++ fetched s ++ U) by (apply list_elem_of_lookup_2 in Hk; set_solver). destruct (proj1 (V6 h) Hh) as (t & c & Ht & Hc & Hb). exists t, c.
  unfold device_complete. rewrite Hk, (serve_spec s Q U t c h Hi Ht Hc). cbn [mbind option_bind]. eexists. split; [done|]. split; [done|]. split; [reflexivity|].
  assert (Em : dk (move c s) = dk s /\ bdisk (move c s) = bdisk s /\ calls (move c s) = calls s /\ asleep (move c s) = asleep s /\ dev_avail (move c s) = dev_avail s /\ fetched (move c s) = fetched s)
    by (unfold move; by destruct (tw c)). destruct Em as (M1 & M2 & M3 & M4 & M5 & M6).
  assert (HP : Q ++ delete k (fetched s) ++ U ++ [h] ≡ₚ Q ++ fetched s ++ U).
  { revert HD. generalize (delete k (fetched s)). intros D HD. rewrite HD. clear. solve_Permutation. }
  assert (Hlen : (length U < 8)%nat). { destruct (heads_few _ _ _ Hi) as [Hl _]. apply list_elem_of_lookup_2 in Hk. destruct (fetched s) as [|x l]; [by apply elem_of_nil in Hk|]. rewrite !length_app in Hl. simpl in Hl. lia. }
  split; [|simpl; by rewrite M6]. split; simpl; rewrite ?M1, ?M2, ?M3, ?M4, ?M5, ?M6; try done.
  - destruct V1 as (? & ? & ? & ? & ? & ?). unfold sized. simpl. by rewrite !length_insert.
  - rewrite length_app. simpl. split.
    + rewrite V3'. assert (Es : u16 (used_idx (dk s) + Z.of_nat (length U)) mod 8 = (used_idx (dk s) + Z.of_nat (length U)) mod 8).
      { pose proof (u16_mod8 (used_idx (dk s) + Z.of_nat (length U)) 0) as Es. rewrite !Z.add_0_r in Es. exact Es. }
      rewrite Es. replace (length U + 1)%nat with (S (length U)) by lia. rewrite window_push; [by rewrite <- V3 | apply V1 | done].
    + rewrite V3', u16_add. f_equal. lia.
  - by rewrite HP.
  - intros h'. rewrite HP. apply V6.
  - intros t' c' Ht'. destruct (V7 t' c' Ht') as [F ?]. split; [|done]. unfold formatted in *. destruct (tidx c') as [[[j0 j1] j2]|] eqn:Ej; [|done]. simpl.
    destruct F as (? & ? & ? & ? & st & Ef). repeat (split; [done|]). destruct (decide (j0 = h)) as [->|Hne]; [|rewrite list_lookup_insert_ne by done; by exists st].
    exists 0. rewrite list_lookup_insert_eq by (by eapply lookup_lt_Some). assert (t' = t) as ->; [|congruence].
    apply (chains_apart (calls s) t' t c' c h); [done | done | done | | by apply chain_head]. unfold chain_of. rewrite Ej. by left.
  - intros h' [Hu|Hu]%elem_of_app.
    + destruct (V8 h' Hu) as (b & Eb). destruct (decide (h' = h)) as [->|Hne]; [|rewrite list_lookup_insert_ne by done; by exists b]. exists (Some (tb c)). rewrite list_lookup_insert_eq by (by eapply lookup_lt_Some). done.
    + apply elem_of_cons in Hu as [->|Hu]; [|by apply elem_of_nil in Hu]. exists (Some (tb c)). apply list_lookup_insert_eq. destruct V1 as (_ & _ & _ & L & L' & _).
      rewrite L', <- L. eapply lookup_lt_Some. by apply (proj2 (heads_few _ _ _ Hi)).
  - intros t' ch Hs. destruct (V11 t' ch Hs) as (c' & Hc' & Hw). exists c'. simpl. rewrite ?M1, ?M2, ?M3. done.
Qed.

(** ** Every step *)
Lemma unused_spec b s : unused b s = true <-> forall t c, calls s !! t = Some c -> tb c <> b.
Proof.
  unfold unused. rewrite forallb_forall. split.
  - intros H t c Ht E. specialize (H (t, c) ltac:(by apply list_elem_of_In, elem_of_map_to_list)). simpl in H. by rewrite E, Nat.eqb_refl in H.
  - intros H [t c] Hin. apply list_elem_of_In, elem_of_map_to_list in Hin. specialize (H t c Hin). simpl. by destruct (Nat.eqb_spec (tb c) b).
Qed.

Lemma view_ext L L' c : (forall h, head_of c = Some h -> h ∈ L <-> h ∈ L') -> view L c = view L' c.
Proof. intros H. unfold view, moved. destruct (head_of c) as [h|]; [|done]. by rewrite (bool_decide_ext _ _ (H h eq_refl)). Qed.

Lemma views_ext L L' (m : gmap nat call) : (forall t c h, m !! t = Some c -> head_of c = Some h -> h ∈ L <-> h ∈ L') -> view L <$> m = view L' <$> m.
Proof. intros H. apply map_fmap_ext. intros t c Ht. apply view_ext. intros h. by apply (H t). Qed.

Lemma rw_alloc_spec s Q U t c : inv s Q U -> asking s t c -> exists s' Q', rw_alloc t c s = Some s' /\ inv s' Q' U /\
  abs_at (Q' ++ fetched s') s' = mkA (store s) (bdata s) (<[t := (tb c, tn c, tw c, false)]> (view (Q ++ fetched s) <$> calls s)).
Proof.
  intros Hi Ha. pose proof Ha as (Hc & Hx & _). unfold rw_alloc. destruct (alloc3_spec s) as ([[[i0 i1] i2]|] & s1 & -> & H); cbn [mbind option_bind].
  - destruct H as (Hd & Hf & ->). unfold rw_wait.
    assert (Eb : bdisk (submit (tb c) (tn c) (tw c) (i0, i1, i2) (grab i2 (grab i1 (grab i0 s)))) (tb c) = true) by (simpl; by rewrite decide_True).
    cbn [tb with_chain]. rewrite Eb. exists (submitted t c (i0, i1, i2) s), (Q ++ [i0]). split; [done|]. split; [by apply inv_submitted|].
    unfold abs_at. f_equal. cbn [submitted submit sleep_on set_asleep set_calls calls set_bdisk set_dk grab fetched]. rewrite fmap_insert.
    assert (Ev : view ((Q ++ [i0]) ++ fetched s) (with_chain c (i0, i1, i2)) = (tb c, tn c, tw c, false)).
    { unfold view, moved, with_chain. cbn [head_of tidx tb tn tw]. rewrite bool_decide_true by set_solver. done. }
    rewrite Ev. f_equal. apply views_ext. intros t' c' h Ht Hh. destruct (submit_other s Q U t c i0 i1 i2 Hi Ha Hd Hf t' c' h Ht (chain_head _ _ Hh)) as [? _]. set_solver.
  - destruct H as [Hf Hs]. eexists _, Q. split; [reflexivity|]. split; [by apply (inv_blocked s)|]. pose proof (sc_eq _ _ Hs) as E. unfold abs_at.
    assert (E1 : store s1 = store s) by (by rewrite E). assert (E2 : bdata s1 = bdata s) by (by rewrite E). assert (E3 : calls s1 = calls s) by (by rewrite E). assert (E4 : fetched s1 = fetched s) by (by rewrite E).
    simpl. rewrite E1, E2, E3, E4, fmap_insert. do 2 f_equal. unfold view, moved, head_of. by rewrite Hx.
Qed.

Definition ok_event (e : event) : Prop := match e with Rw _ _ n _ => 0 <= n < 2 ^ 31 | Complete _ st => st = 0 | _ => True end.

Lemma step_rw s Q U t b n w : inv s Q U -> 0 <= n < 2 ^ 31 ->
  exists s' Q', step (Rw t b n w) s = Some s' /\ inv s' Q' U /\ rtc astep (abs_at (Q ++ fetched s) s) (abs_at (Q' ++ fetched s') s').
Proof.
  intros Hi Hn. cbn [step]. destruct (calls s !! t) as [c|] eqn:Ht; [by exists s, Q|]. destruct (unused b s) eqn:Eu; [|by exists s, Q]. rewrite unused_spec in Eu.
  assert (Ha : asking s t (mkCall b n w None)).
  { split; [unfold no_chain; by rewrite Ht|]. split; [done|]. split; [done|]. split; [|intros t' c' Hc' _; by eapply Eu].
    destruct (asleep s !! t) eqn:Es; [|done]. destruct (v_wake _ _ _ Hi _ _ Es) as (c1 & Hc1 & _). congruence. }
  destruct (rw_alloc_spec s Q U t _ Hi Ha) as (s' & Q' & E & Hi' & EA). exists s', Q'. split; [done|]. split; [done|]. rewrite EA. apply rtc_once.
  apply A_start; simpl; [by rewrite lookup_fmap, Ht|]. intros t' b' n' w' m. rewrite lookup_fmap. destruct (calls s !! t') as [c'|] eqn:Et; [|done]. intros [= <- _ _ _]. by eapply Eu.
Qed.

Lemma step_resume s Q U t : inv s Q U ->
  exists s' Q', step (Resume t) s = Some s' /\ inv s' Q' U /\ rtc astep (abs_at (Q ++ fetched s) s) (abs_at (Q' ++ fetched s') s').
Proof.
  intros Hi. cbn [step]. destruct (calls s !! t) as [c|] eqn:Ht; [|by exists s, Q]. destruct (asleep s !! t) as [ch|] eqn:Hs; [by exists s, Q|].
  destruct (tidx c) as [[[i0 i1] i2]|] eqn:Ei.
  - destruct (bdisk s (tb c)) eqn:Eb.
    + unfold rw_wait. rewrite Eb. eexists _, Q. split; [reflexivity|]. split; [apply inv_wait; congruence|]. simpl. rewrite (insert_id (calls s)) by done. by destruct s.
    + destruct (rw_finish s Q U t c i0 i1 i2 Hi Ht Ei Eb Hs) as (s' & E & Hi' & E1 & E2 & E3 & E4). exists s', Q. split; [done|]. split; [done|]. apply rtc_once.
      pose proof (A_return (abs_at (Q ++ fetched s) s) t (tb c) (tn c) (tw c)) as R. unfold abs_at. rewrite E1, E2, E3, E4, fmap_delete. apply R. simpl. rewrite lookup_fmap, Ht. simpl. unfold view, moved, head_of. rewrite Ei, bool_decide_false; [done|].
      intros Hin. assert (Hq : i0 ∈ Q ++ fetched s ++ U) by set_solver. apply (v_heads _ _ _ Hi) in Hq as (t' & c' & Ht' & Hh & Hb).
      assert (t' = t); [|congruence]. apply (chains_apart (calls s) t' t c' c i0); [apply Hi | done | done | by apply chain_head|]. unfold chain_of. rewrite Ei. by left.
  - assert (Ha : asking s t c).
    { split; [unfold no_chain; by rewrite Ht|]. split; [done|]. split; [by apply (v_format _ _ _ Hi t)|]. split; [done|]. intros t' c' Ht' Hne E. apply Hne. by eapply (v_bufs _ _ _ Hi). }
    destruct (rw_alloc_spec s Q U t c Hi Ha) as (s' & Q' & E & Hi' & EA). exists s', Q'. split; [done|]. split; [done|]. rewrite EA. unfold abs_at.
    replace (<[t := (tb c, tn c, tw c, false)]> (view (Q ++ fetched s) <$> calls s)) with (view (Q ++ fetched s) <$> calls s); [done|].
    symmetry. apply insert_id. rewrite lookup_fmap, Ht. simpl. unfold view, moved, head_of. by rewrite Ei.
Qed.

Lemma step_complete s Q U k : inv s Q U ->
  exists s' U', step (Complete k 0) s = Some s' /\ inv s' Q U' /\ rtc astep (abs_at (Q ++ fetched s) s) (abs_at (Q ++ fetched s') s').
Proof.
  intros Hi. cbn [step]. destruct (fetched s !! k) as [h|] eqn:Hk; [|exists s, U; unfold device_complete; by rewrite Hk].
  destruct (complete_spec s Q U k h Hi Hk) as (t & c & s' & Ht & Hh & E & Hi' & E1 & E2 & E3 & E4). exists s', (U ++ [h]). split; [done|]. split; [done|]. apply rtc_once.
  pose proof (delete_Permutation _ _ _ Hk) as HD. pose proof (v_nodup _ _ _ Hi) as Hn. rewrite app_assoc in Hn. apply NoDup_app in Hn as [Hn _].
  assert (HP : Q ++ fetched s ≡ₚ h :: Q ++ delete k (fetched s)).
  { revert HD. generalize (delete k (fetched s)). intros D HD. rewrite HD. clear. solve_Permutation. }
  rewrite HP in Hn. apply NoDup_cons in Hn as [Hn _].
  assert (Em : view (Q ++ fetched s') <$> calls s' = <[t := (tb c, tn c, tw c, true)]> (view (Q ++ fetched s) <$> calls s)).
  { rewrite E1, E2. apply map_eq. intros t'. destruct (decide (t' = t)) as [->|Hne].
    - rewrite lookup_insert_eq, lookup_fmap, Ht. simpl. unfold view, moved. rewrite Hh, bool_decide_false by done. done.
    - rewrite lookup_insert_ne, !lookup_fmap by done. destruct (calls s !! t') as [c'|] eqn:Ht'; [|done]. simpl. f_equal. apply view_ext. intros h' Hh'. rewrite HP.
      assert (h' <> h); [|set_solver]. intros ->. apply Hne. apply (chains_apart (calls s) t' t c' c h); [apply Hi | done | done | by apply chain_head..]. }
  assert (Ea : a_calls (abs_at (Q ++ fetched s) s) !! t = Some (tb c, tn c, tw c, false)).
  { simpl. rewrite lookup_fmap, Ht. simpl. unfold view, moved. rewrite Hh, bool_decide_true; [done|]. rewrite HP. by left. }
  unfold abs_at at 2. rewrite Em, E3, E4. unfold move. destruct (tw c); [exact (A_write _ t _ _ Ea) | exact (A_read _ t _ _ Ea)].
Qed.

Lemma inv_fill s Q U b data : inv s Q U -> inv (set_bdata b data s) Q U.
Proof. by intros [V1 V2 V3 V4 V5 V6 V7 V8 V9 V10 V11]. Qed.

Lemma step_spec e s Q U : inv s Q U -> ok_event e ->
  exists s' Q' U', step e s = Some s' /\ inv s' Q' U' /\ rtc astep (abs_at (Q ++ fetched s) s) (abs_at (Q' ++ fetched s') s').
Proof.
  intros Hi He. destruct e as [b data|t b n w|t| | | |k st].
  - cbn [step]. eexists _, Q, U. split; [reflexivity|]. destruct (unused b s) eqn:Eu; [|done]. split; [by apply inv_fill|]. apply rtc_once. rewrite unused_spec in Eu.
    apply (A_fill (abs_at (Q ++ fetched s) s) b data). intros t b' n w m. simpl. rewrite lookup_fmap. destruct (calls s !! t) as [c|] eqn:Ht; [|done]. intros [= <- _ _ _]. by eapply Eu.
  - destruct (step_rw s Q U t b n w Hi He) as (s' & Q' & ?). by exists s', Q', U.
  - destruct (step_resume s Q U t Hi) as (s' & Q' & ?). by exists s', Q', U.
  - cbn [step]. destruct (heads_few _ _ _ Hi) as [Hl _]. rewrite !length_app in Hl.
    destruct (intr_loop_spec U s Q NUM Hi ltac:(unfold NUM; lia)) as (s' & E & Hi' & E1 & E2 & E3 & E4). exists s', Q, []. split; [done|]. split; [done|]. unfold abs_at. by rewrite E1, E2, E3, E4.
  - cbn [step]. destruct (Z.eqb_spec (used_idx (dk s)) (dev_used (dk s))) as [E|E]; [by exists s, Q, U|]. apply (used_nonempty s Q U Hi) in E. destruct U as [|h U]; [done|].
    destruct (intr_entry_spec s Q h U Hi) as (s' & -> & Hi' & E1 & E2 & E3 & E4). exists s', Q, U. split; [done|]. split; [done|]. unfold abs_at. by rewrite E1, E2, E3, E4.
  - cbn [step]. destruct (fetch_spec s Q U Hi) as (s' & Q' & E & Hi' & E2 & E3 & E4 & Em). exists s', Q', U. split; [done|]. split; [done|].
    unfold abs_at. rewrite E2, E3, E4. rewrite (views_ext (Q' ++ fetched s') (Q ++ fetched s)); [done|]. intros t c h _ _. apply Em.
  - simpl in He. subst st. destruct (step_complete s Q U k Hi) as (s' & U' & ?). by exists s', Q, U'.
Qed.

Lemma inv_init bufs disk0 : inv (fresh_queue bufs disk0) [] [].
Proof.
  apply mkInv; try done.
  - apply NoDup_nil_2.
  - intros h. split; [intros H; by apply elem_of_nil in H | by intros (t & c & H & _)].
  - intros h H. by apply elem_of_nil in H.
  - split; [apply NoDup_nil_2|]. intros i. split; [intros H; by apply elem_of_nil in H|]. intros H. apply lookup_replicate in H as [H _]. done.
Qed.

Lemma init_queue rd pages bufs disk0 w s0 : virtio_disk_init rd pages bufs disk0 = Some (w, s0) -> s0 = fresh_queue bufs disk0.
Proof.
  unfold virtio_disk_init. intros H. repeat case_match; simplify_eq; try done. destruct pages as [[[d a] u]|]; simpl in *; by simplify_eq.
Qed.

Lemma steps_spec es : Forall ok_event es -> forall s Q U, inv s Q U ->
  exists s' Q' U', steps es s = Some s' /\ inv s' Q' U' /\ rtc astep (abs_at (Q ++ fetched s) s) (abs_at (Q' ++ fetched s') s').
Proof.
  induction 1 as [|e es He Hs IH]; intros s Q U Hi; [by exists s, Q, U|].
  destruct (step_spec e s Q U Hi He) as (s1 & Q1 & U1 & E & Hi1 & R1). cbn [steps]. rewrite E. cbn [mbind option_bind].
  destruct (IH s1 Q1 U1 Hi1) as (s2 & Q2 & U2 & E2 & Hi2 & R2). exists s2, Q2, U2. split; [done|]. split; [done|]. by etrans.
Qed.

(** C15: whatever the order in which calls, interrupts and the device take
    their steps, the driver does not panic while the device reports success
    and block numbers are below 2^31, and the machine refines a disk on which every call moves its block once,
    at one moment between its beginning and its end; all descriptors are
    free when no call is under way; and no process sleeps on a buffer the
    handler has seen, or for descriptors when three are free. *)
Theorem virtio_refines_disk rd pages bufs disk0 w s0 es : virtio_disk_init rd pages bufs disk0 = Some (w, s0) -> Forall ok_event es ->
  exists s, steps es s0 = Some s /\
    rtc astep (mkA disk0 bufs ∅) (abs s) /\
    (calls s = ∅ -> dfree (dk s) = replicate NUM true) /\
    (forall t b, asleep s !! t = Some (CBuf b) -> bdisk s b = true) /\
    (forall t, asleep s !! t = Some CFree -> (nfree (dfree (dk s)) < 3)%nat).
Proof.
  intros Hw He. apply init_queue in Hw as ->. destruct (steps_spec es He _ _ _ (inv_init bufs disk0)) as (s & Q & U & E & Hi & R). exists s. split; [done|]. split; [|split; [|split]].
  - rewrite (abs_eq _ _ _ Hi). exact R.
  - intros Ec. destruct (v_sized _ _ _ Hi) as (_ & _ & _ & L & _). apply list_eq_same_length with NUM; [by rewrite length_replicate | done|].
    intros i x y Hi1 Hx Hy. apply lookup_replicate in Hy as [-> _]. destruct x; [done|]. apply (v_descs _ _ _ Hi) in Hx. rewrite Ec in Hx. by apply elem_of_nil in Hx.
  - intros t b Hs. by destruct (v_wake _ _ _ Hi _ _ Hs) as (c & _ & _ & _ & ?).
  - intros t Hs. by destruct (v_wake _ _ _ Hi _ _ Hs) as (c & _ & _ & ?).
Qed.

(** Three calls for two chains: the third one waits for descriptors, and the
    device serves the second call before the first. *)
Definition traffic : list event :=
  [Fill 0 (replicate 1024 7); Rw 10 0 3 true; Rw 11 1 3 false; Rw 12 2 5 false; Fetch; Fetch; Complete 1 0; Entry; Resume 11; Resume 12; Complete 0 0; Fetch;
   Complete 0 0; Intr; Resume 10; Resume 12].

Example traffic_ends :
  (fun s => (map_to_list (calls s), map_to_list (asleep s), dfree (dk s), store s 3072, store s 4096, bdata s 1%nat !! 0%nat)) <$>
    steps traffic (fresh_queue (fun _ => []) (fun a => a)) = Some ([], [], replicate 8 true, 7, 4096, Some 3072).
Proof. vm_compute. reflexivity. Qed.

(** The registers of a disk: the status is what was written last. *)
Definition qemu (w : list (Z * Z)) (r : Z) : Z :=
  if r =? VIRTIO_MMIO_MAGIC_VALUE then 0x74726976 else if r =? VIRTIO_MMIO_VERSION then 2 else if r =? VIRTIO_MMIO_DEVICE_ID then 2
  else if r =? VIRTIO_MMIO_VENDOR_ID then 0x554d4551 else if r =? VIRTIO_MMIO_DEVICE_FEATURES then 0x31006ed4 else if r =? VIRTIO_MMIO_QUEUE_NUM_MAX then 1024
  else if r =? VIRTIO_MMIO_STATUS then foldl (fun v kv => if kv.1 =? r then kv.2 else v) 0 w else 0.

Example qemu_writes : fst <$> virtio_disk_init qemu (Some (0x87f00000, 0x87eff000, 0x1_87efe000)) (fun _ => []) (fun a => a) =
  Some [(0x70, 0); (0x70, 1); (0x70, 3); (0x20, 0x01006454); (0x70, 11); (0x30, 0); (0x38, 8); (0x80, 0x87f00000); (0x84, 0); (0x90, 0x87eff000); (0x94, 0);
        (0xa0, 0x87efe000); (0xa4, 1); (0x44, 1); (0x70, 15)].
Proof. vm_compute. reflexivity. Qed.

Lemma virtio_refines_disk_witness : exists s, steps traffic (fresh_queue (fun _ => []) (fun a => a)) = Some s /\ rtc astep (mkA (fun a => a) (fun _ => []) ∅) (abs s).
Proof.
  destruct (virtio_refines_disk qemu (Some (0x87f00000, 0x87eff000, 0x87efe000)) (fun _ => []) (fun a => a) _ _ traffic eq_refl) as (s & E & R & _);
    [unfold traffic; repeat constructor; simpl; lia|]. exists s. split; [exact E | exact R].
Defined.
