(* ===== verification/Spinlock.v ===== *)
(** * Spin locks (xv6/kernel/spinlock.c)

    Processors run [acquire] and [release] one access to shared memory at a
    time, in any interleaving.  A processor has the fields of [struct cpu]
    the locks use and the interrupt bit of its status register. *)
From S2P Require Import Prelude.
Local Open Scope Z_scope.

Record cpu := mkCpu { noff : Z; intena : bool; sie : bool }.
Record spinlock := mkLock { locked : bool; lcpu : option nat }.

Definition initlock : spinlock := mkLock false None.

(** [rc_sstatus] reads the interrupt bit and clears it.  [noff] is an [int] in
    the source; the model differs only after 2^31 nested calls. *)
Definition push_off (c : cpu) : cpu :=
  let old := sie c in
  mkCpu (noff c + 1) (if noff c =? 0 then old else intena c) false.

(** [None] is a panic. *)
Definition pop_off (c : cpu) : option cpu :=
  if sie c then None
  else if noff c <? 1 then None
  else let n := noff c - 1 in Some (mkCpu n (intena c) ((n =? 0) && intena c)).

(** Where a processor is.  [holding] reads [lk->locked], then [lk->cpu]. *)
Inductive pc : Type :=
| Run
| AcqHold (l : nat) (r : bool)
| Spin (l : nat)
| Got (l : nat)
| RelHold (l : nat) (r : bool)
| RelClear (l : nat)
| RelStore (l : nat)
| RelPop.

Record mach := mkMach { cpus : nat -> cpu; locks : nat -> spinlock; pcs : nat -> pc }.

Definition upd {A} (f : nat -> A) (i : nat) (v : A) : nat -> A := fun j => if decide (j = i) then v else f j.
Definition set_cpu (c : nat) (v : cpu) (m : mach) : mach := mkMach (upd (cpus m) c v) (locks m) (pcs m).
Definition set_lock (l : nat) (v : spinlock) (m : mach) : mach := mkMach (cpus m) (upd (locks m) l v) (pcs m).
Definition set_pc (c : nat) (v : pc) (m : mach) : mach := mkMach (cpus m) (locks m) (upd (pcs m) c v).

Definition owns (k : spinlock) (c : nat) : bool := bool_decide (lcpu k = Some c).
Definition holding (m : mach) (c l : nat) : bool := locked (locks m l) && owns (locks m l) c.

(** The next access of the processor [c]. *)
Definition advance (c : nat) (m : mach) : option mach :=
  match pcs m c with
  | Run => Some m
  | AcqHold l r => if r && owns (locks m l) c then None else Some (set_pc c (Spin l) m)
  | Spin l =>
      let old := locked (locks m l) in
      let m := set_lock l (mkLock true (lcpu (locks m l))) m in
      Some (set_pc c (if old then Spin l else Got l) m)
  | Got l => Some (set_pc c Run (set_lock l (mkLock (locked (locks m l)) (Some c)) m))
  | RelHold l r => if negb (r && owns (locks m l) c) then None else Some (set_pc c (RelClear l) m)
  | RelClear l => Some (set_pc c (RelStore l) (set_lock l (mkLock (locked (locks m l)) None) m))
  | RelStore l => Some (set_pc c RelPop (set_lock l (mkLock false (lcpu (locks m l))) m))
  | RelPop => k ← pop_off (cpus m c); Some (set_pc c Run (set_cpu c k m))
  end.

(** What the code that uses the locks calls. *)
Inductive op : Type := Acquire (l : nat) | Release (l : nat) | PushOff | PopOff | IntrOn | IntrOff.

Definition begin (c : nat) (o : op) (m : mach) : option mach :=
  let k := cpus m c in
  match o with
  | Acquire l => Some (set_pc c (AcqHold l (locked (locks m l))) (set_cpu c (push_off k) m))
  | Release l => Some (set_pc c (RelHold l (locked (locks m l))) m)
  | PushOff => Some (set_cpu c (push_off k) m)
  | PopOff => k ← pop_off k; Some (set_cpu c k m)
  | IntrOn => Some (set_cpu c (mkCpu (noff k) (intena k) true) m)
  | IntrOff => Some (set_cpu c (mkCpu (noff k) (intena k) false) m)
  end.

(** ** The callers

    What each processor has: its locks, its calls of [push_off] that are not
    undone, and whether interrupts are on when it has neither. *)
Record client := mkClient { held : nat -> list nat; pushes : nat -> nat; base : nat -> bool }.

(** A caller takes locks it does not have, gives up those it has, matches
    its [push_off]s, and switches interrupts (or is interrupted, or returns
    from an interrupt) when nothing is off. *)
Definition legal (c : nat) (o : op) (g : client) : bool :=
  match o with
  | Acquire l => bool_decide (l ∉ held g c)
  | Release l => bool_decide (l ∈ held g c)
  | PushOff => true
  | PopOff => negb (pushes g c =? 0)%nat
  | IntrOn | IntrOff => (pushes g c =? 0)%nat && bool_decide (held g c = [])
  end.

Inductive event : Type := Begin (c : nat) (o : op) | Advance (c : nat).

Definition note (c : nat) (o : op) (g : client) : client :=
  match o with
  | PushOff => mkClient (held g) (upd (pushes g) c (S (pushes g c))) (base g)
  | PopOff => mkClient (held g) (upd (pushes g) c (pred (pushes g c))) (base g)
  | IntrOn => mkClient (held g) (pushes g) (upd (base g) c true)
  | IntrOff => mkClient (held g) (pushes g) (upd (base g) c false)
  | _ => g
  end.

(** A lock is a processor's from the recording of the processor to its
    clearing. *)
Definition note_advance (c : nat) (p : pc) (g : client) : client :=
  match p with
  | Got l => mkClient (upd (held g) c (l :: held g c)) (pushes g) (base g)
  | RelClear l => mkClient (upd (held g) c (filter (fun x => x <> l) (held g c))) (pushes g) (base g)
  | _ => g
  end.

Definition running (p : pc) : bool := match p with Run => true | _ => false end.

Definition step (e : event) (w : mach * client) : option (mach * client) :=
  let '(m, g) := w in
  match e with
  | Begin c o => if running (pcs m c) && legal c o g then m ← begin c o m; Some (m, note c o g) else Some (m, g)
  | Advance c => m' ← advance c m; Some (m', note_advance c (pcs m c) g)
  end.

Fixpoint steps (es : list event) (w : mach * client) : option (mach * client) :=
  match es with [] => Some w | e :: es' => w ← step e w; steps es' w end.

Definition start (on : nat -> bool) : mach * client :=
  (mkMach (fun c => mkCpu 0 false (on c)) (fun _ => initlock) (fun _ => Run), mkClient (fun _ => []) (fun _ => 0%nat) on).

(** ** The invariant *)
Lemma upd_same {A} (f : nat -> A) i v : upd f i v i = v.
Proof. unfold upd. by rewrite decide_True. Qed.

Lemma upd_other {A} (f : nat -> A) i v j : j <> i -> upd f i v j = f j.
Proof. intros H. unfold upd. by rewrite decide_False. Qed.

(** The [push_off] of a lock that is not yet, or no longer, held. *)
Definition pending (p : pc) : Z := match p with AcqHold _ _ | Spin _ | Got _ | RelStore _ | RelPop => 1 | _ => 0 end.

(** The lock word is taken by the processor. *)
Definition taken_by (m : mach) (c l : nat) : Prop := lcpu (locks m l) = Some c \/ pcs m c = Got l \/ pcs m c = RelStore l.

(** What the place of a processor says. *)
Definition place_ok (m : mach) (g : client) (c : nat) : Prop :=
  match pcs m c with
  | AcqHold l _ | Spin l => l ∉ held g c
  | Got l | RelStore l => lcpu (locks m l) = None
  | RelHold l r => l ∈ held g c /\ r = true
  | RelClear l => l ∈ held g c
  | _ => True
  end.

Record inv (m : mach) (g : client) : Prop := mkInv {
  i_held : forall c l, l ∈ held g c <-> lcpu (locks m l) = Some c;
  i_nodup : forall c, NoDup (held g c);
  i_word : forall l, locked (locks m l) = true <-> exists c, taken_by m c l;
  i_one : forall l c c', taken_by m c l -> taken_by m c' l -> c = c';
  i_place : forall c, place_ok m g c;
  i_noff : forall c, noff (cpus m c) = Z.of_nat (length (held g c)) + Z.of_nat (pushes g c) + pending (pcs m c);
  i_off : forall c, 0 < noff (cpus m c) -> sie (cpus m c) = false /\ intena (cpus m c) = base g c;
  i_on : forall c, noff (cpus m c) = 0 -> sie (cpus m c) = base g c
}.

(** A step that does not touch the locks. *)
Definition quiet (p : pc) : Prop := forall l, p <> Got l /\ p <> RelStore l.

Section Local.
Context (m m' : mach) (g g' : client) (c : nat).
Context (Hl : forall l, locks m' l = locks m l) (Hh : forall x, held g' x = held g x).
Context (Hc : forall x, x <> c -> cpus m' x = cpus m x /\ pcs m' x = pcs m x /\ pushes g' x = pushes g x /\ base g' x = base g x).

Lemma has_local x l : quiet (pcs m c) -> quiet (pcs m' c) -> taken_by m' x l <-> taken_by m x l.
Proof.
  intros Q Q'. unfold taken_by. rewrite Hl. destruct (decide (x = c)) as [->|Hne]; [|destruct (Hc x Hne) as (_ & -> & _); done].
  specialize (Q l). specialize (Q' l). tauto.
Qed.

Lemma inv_local : quiet (pcs m c) -> quiet (pcs m' c) -> place_ok m' g' c ->
  noff (cpus m' c) = Z.of_nat (length (held g c)) + Z.of_nat (pushes g' c) + pending (pcs m' c) ->
  (0 < noff (cpus m' c) -> sie (cpus m' c) = false /\ intena (cpus m' c) = base g' c) -> (noff (cpus m' c) = 0 -> sie (cpus m' c) = base g' c) ->
  inv m g -> inv m' g'.
Proof.
  intros Q Q' Hp Hn Hoff Hon [I1 I2 I3 I4 I5 I6 I7 I8]. split.
  - intros x l. by rewrite Hh, Hl.
  - intros x. by rewrite Hh.
  - intros l. rewrite Hl, I3. by setoid_rewrite has_local.
  - intros l x x' H1 H2. rewrite has_local in H1, H2 by done. by eapply I4.
  - intros x. destruct (decide (x = c)) as [->|Hne]; [done|]. destruct (Hc x Hne) as (_ & E & _). specialize (I5 x). unfold place_ok in *. rewrite E.
    destruct (pcs m x); rewrite ?Hh, ?Hl; done.
  - intros x. rewrite Hh. destruct (decide (x = c)) as [->|Hne]; [done|]. destruct (Hc x Hne) as (-> & -> & -> & _). apply I6.
  - intros x. destruct (decide (x = c)) as [->|Hne]; [done|]. destruct (Hc x Hne) as (-> & _ & _ & ->). apply I7.
  - intros x. destruct (decide (x = c)) as [->|Hne]; [done|]. destruct (Hc x Hne) as (-> & _ & _ & ->). apply I8.
Qed.
End Local.

Ltac others := intros x Hx; simpl; rewrite ?upd_other by done; done.

Lemma noff_nonneg m g c : inv m g -> 0 <= noff (cpus m c).
Proof. intros Hi. rewrite (i_noff _ _ Hi). destruct (pcs m c); simpl; lia. Qed.

Lemma push_off_spec m g c : inv m g -> let k := push_off (cpus m c) in
  noff k = noff (cpus m c) + 1 /\ sie k = false /\ intena k = base g c.
Proof.
  intros Hi. simpl. split; [done|]. split; [done|]. pose proof (noff_nonneg m g c Hi). destruct (Z.eqb_spec (noff (cpus m c)) 0); [by apply Hi|]. apply Hi. lia.
Qed.

Lemma pop_off_spec m g c : inv m g -> 0 < noff (cpus m c) ->
  exists k, pop_off (cpus m c) = Some k /\ noff k = noff (cpus m c) - 1 /\ (0 < noff k -> sie k = false /\ intena k = base g c) /\ (noff k = 0 -> sie k = base g c).
Proof.
  intros Hi Hn. destruct (i_off _ _ Hi c Hn) as [Es Ei]. unfold pop_off. rewrite Es. destruct (Z.ltb_spec (noff (cpus m c)) 1); [lia|]. eexists. split; [reflexivity|]. simpl.
  split; [done|]. rewrite Ei. destruct (Z.eqb_spec (noff (cpus m c) - 1) 0); simpl; split; (done || lia).
Qed.

Lemma begin_inv c o m g : inv m g -> pcs m c = Run -> legal c o g = true -> exists m', begin c o m = Some m' /\ inv m' (note c o g).
Proof.
  intros Hi Hp Hlg. pose proof (i_noff _ _ Hi c) as Hn. rewrite Hp in Hn. simpl in Hn. assert (Q : quiet (pcs m c)) by (intros l; by rewrite Hp).
  destruct (push_off_spec m g c Hi) as (K1 & K2 & K3). destruct o as [l|l| | | |]; cbn [begin note].
  - eexists. split; [reflexivity|]. apply (inv_local m _ g g c); try done; try others; simpl; rewrite ?upd_same.
    + by intros l'.
    + unfold place_ok. simpl. rewrite upd_same. by apply bool_decide_eq_true in Hlg.
    + simpl. lia.
    + simpl. auto.
    + intros H. simpl in H. pose proof (noff_nonneg m g c Hi). lia.
  - eexists. split; [reflexivity|]. apply bool_decide_eq_true in Hlg. apply (inv_local m _ g g c); try done; try others; simpl; rewrite ?upd_same; try apply Hi.
    + by intros l'.
    + unfold place_ok. simpl. rewrite upd_same. split; [done|]. apply (i_word _ _ Hi). exists c. left. by apply (i_held _ _ Hi).
    + simpl. lia.
  - eexists. split; [reflexivity|]. apply (inv_local m _ g _ c); try done; try others; simpl; rewrite ?upd_same; simpl; try rewrite Hp; simpl; auto; try lia.
    + unfold place_ok. simpl. by rewrite Hp.
  - simpl in Hlg. apply negb_true_iff, Nat.eqb_neq in Hlg. destruct (pop_off_spec m g c Hi ltac:(lia)) as (k & -> & N & A & B). eexists. split; [reflexivity|].
    apply (inv_local m _ g _ c); try done; try others; simpl; rewrite ?upd_same; simpl; try rewrite Hp; simpl; auto; try lia.
    unfold place_ok. simpl. by rewrite Hp.
  - simpl in Hlg. apply andb_prop in Hlg as [E1%Nat.eqb_eq E2%bool_decide_eq_true]. rewrite E1, E2 in Hn. simpl in Hn. eexists. split; [reflexivity|].
    apply (inv_local m _ g _ c); try done; try others; simpl; rewrite ?upd_same; simpl; try rewrite Hp; simpl; auto; try lia.
    + unfold place_ok. simpl. by rewrite Hp.
    + rewrite E1, E2. simpl. lia.
  - simpl in Hlg. apply andb_prop in Hlg as [E1%Nat.eqb_eq E2%bool_decide_eq_true]. rewrite E1, E2 in Hn. simpl in Hn. eexists. split; [reflexivity|].
    apply (inv_local m _ g _ c); try done; try others; simpl; rewrite ?upd_same; simpl; try rewrite Hp; simpl; auto; try lia.
    + unfold place_ok. simpl. by rewrite Hp.
    + rewrite E1, E2. simpl. lia.
Qed.

(** A step of [c] on the lock [l] that moves [taken_by] only for them. *)
Section Touch.
Context (m m' : mach) (g g' : client) (c l : nat).
Context (Hl : forall x, x <> l -> locks m' x = locks m x) (Hk : forall x, cpus m' x = cpus m x) (Hc : forall x, x <> c -> pcs m' x = pcs m x /\ held g' x = held g x).
Context (Hg : pushes g' = pushes g /\ base g' = base g).
Context (Hp : forall x, pcs m c = Got x \/ pcs m c = RelStore x \/ pcs m' c = Got x \/ pcs m' c = RelStore x -> x = l).

Lemma has_other x k : x <> c -> k <> l -> taken_by m' x k <-> taken_by m x k.
Proof. intros Hx Hk'. unfold taken_by. rewrite Hl by done. by destruct (Hc x Hx) as [-> _]. Qed.

Lemma has_elsewhere x k : k <> l -> taken_by m' x k <-> taken_by m x k.
Proof.
  intros Hk'. destruct (decide (x = c)) as [->|Hx]; [|by apply has_other]. unfold taken_by. rewrite Hl by done.
  assert (forall p, p = pcs m c \/ p = pcs m' c -> p <> Got k /\ p <> RelStore k) as Hq; [|pose proof (Hq _ (or_introl eq_refl)); pose proof (Hq _ (or_intror eq_refl)); tauto].
  intros p [->| ->]; split; intros E; apply Hk', Hp; auto.
Qed.

Lemma inv_touch : inv m g -> (forall x, taken_by m x l -> x = c) -> (forall x, taken_by m' x l -> x = c) -> (locked (locks m' l) = true <-> taken_by m' c l) ->
  (forall x, l ∈ held g' x <-> lcpu (locks m' l) = Some x) -> NoDup (held g' c) -> (forall k, k <> l -> k ∈ held g' c <-> k ∈ held g c) ->
  place_ok m' g' c -> pending (pcs m' c) + Z.of_nat (length (held g' c)) = pending (pcs m c) + Z.of_nat (length (held g c)) -> inv m' g'.
Proof.
  intros [I1 I2 I3 I4 I5 I6 I7 I8] Hm Hm' Hw Hh Hn Hk' Hpl Hpe. destruct Hg as [G1 G2]. split.
  - intros x k. destruct (decide (k = l)) as [->|Hkl]; [apply Hh|]. rewrite Hl by done. rewrite <- I1. destruct (decide (x = c)) as [->|Hx]; [by apply Hk'|]. by destruct (Hc x Hx) as [_ ->].
  - intros x. destruct (decide (x = c)) as [->|Hx]; [done|]. by destruct (Hc x Hx) as [_ ->].
  - intros k. destruct (decide (k = l)) as [->|Hkl]; [rewrite Hw; split; [by exists c | intros (x & Hx); by rewrite <- (Hm' x Hx)]|].
    rewrite Hl, I3 by done. by setoid_rewrite (fun x => has_elsewhere x k Hkl).
  - intros k x x' H1 H2. destruct (decide (k = l)) as [->|Hkl]; [by rewrite (Hm' x H1), (Hm' x' H2)|]. rewrite has_elsewhere in H1, H2 by done. by eapply I4.
  - intros x. destruct (decide (x = c)) as [->|Hx]; [done|]. specialize (I5 x). unfold place_ok in *. destruct (Hc x Hx) as [E1 E2]. rewrite E1, E2.
    destruct (pcs m x) as [| | |k| | |k|] eqn:Ex; try done; (destruct (decide (k = l)) as [->|Hkl]; [|by rewrite Hl]); destruct Hx; apply Hm; unfold taken_by; rewrite Ex; auto.
  - intros x. rewrite Hk, G1. destruct (decide (x = c)) as [->|Hx]; [rewrite I6; lia|]. destruct (Hc x Hx) as [-> ->]. apply I6.
  - intros x. rewrite Hk, G2. apply I7.
  - intros x. rewrite Hk, G2. apply I8.
Qed.
End Touch.

Ltac touch := try done; try (by intros ?); try (intros x Hx; simpl; by rewrite ?upd_other by done); simpl; rewrite ?upd_same.

(** [taken_by] is for one processor. *)
Lemma has_only m g c l : inv m g -> taken_by m c l -> forall x, taken_by m x l -> x = c.
Proof. intros Hi Hc x Hx. by apply (i_one _ _ Hi l). Qed.

Lemma advance_spin c m g l : inv m g -> pcs m c = Spin l -> exists m', advance c m = Some m' /\ inv m' g /\ pcs m' c = if locked (locks m l) then Spin l else Got l.
Proof.
  intros Hi E. pose proof (i_place _ _ Hi c) as Hp. unfold place_ok in Hp. rewrite E in Hp. unfold advance. rewrite E. eexists. split; [reflexivity|]. split; [|simpl; by rewrite upd_same].
  destruct (locked (locks m l)) eqn:El.
  - apply (inv_local m _ g g c); touch; try apply Hi; try done.
    + intros x. simpl. unfold upd. destruct (decide (x = l)) as [->|]; [|done]. by destruct (locks m l); simpl in *; subst.
    + rewrite E. by intros ?.
    + unfold place_ok. simpl. by rewrite upd_same.
    + rewrite (i_noff _ _ Hi c), E. done.
  - assert (Hno : forall x, ~ taken_by m x l) by (intros x Hx; assert (locked (locks m l) = true) by (apply (i_word _ _ Hi); by exists x); congruence).
    assert (Hnone : lcpu (locks m l) = None) by (destruct (lcpu (locks m l)) as [x|] eqn:Ex; [destruct (Hno x); by left | done]).
    apply (inv_touch m _ g g c l); touch.
    + intros x [H|[H|[H|H]]]; simpl in H; rewrite ?upd_same in H; congruence.
    + intros x Hx. by destruct (Hno x).
    + intros x. unfold taken_by. simpl. rewrite upd_same. simpl. destruct (decide (x = c)) as [|Hx]; [done|]. rewrite upd_other by done. intros Hh. destruct (Hno x). unfold taken_by. rewrite Hnone in *. done.
    + unfold taken_by. simpl. rewrite !upd_same. split; [auto | done].
    + intros x. apply (i_held _ _ Hi).
    + apply (i_nodup _ _ Hi).
    + unfold place_ok. simpl. rewrite !upd_same. done.
    + by rewrite E.
Qed.

Lemma advance_got c m g l : inv m g -> pcs m c = Got l -> exists m', advance c m = Some m' /\ inv m' (note_advance c (Got l) g).
Proof.
  intros Hi E. pose proof (i_place _ _ Hi c) as Hp. unfold place_ok in Hp. rewrite E in Hp. unfold advance. rewrite E. eexists. split; [reflexivity|].
  assert (Hc : taken_by m c l) by (right; by left). pose proof (has_only _ _ _ _ Hi Hc) as Honly.
  assert (Hnh : forall x, l ∉ held g x) by (intros x; rewrite (i_held _ _ Hi), Hp; done).
  apply (inv_touch m _ g _ c l); touch; try done.
  - intros x [H|[H|[H|H]]]; simpl in H; rewrite ?upd_same in H; congruence.
  - intros x. unfold taken_by. simpl. rewrite upd_same. simpl. destruct (decide (x = c)) as [|Hx]; [done|]. rewrite upd_other by done. intros [Hh|Hh]; [congruence|]. apply Honly. by right.
  - unfold taken_by. simpl. rewrite !upd_same. simpl. split; [auto|]. intros _. apply (i_word _ _ Hi). by exists c.
  - intros x. destruct (decide (x = c)) as [->|Hx]; [rewrite upd_same; split; [done | by left]|]. rewrite upd_other by done. split; [intros H; by destruct (Hnh x) | by intros [= ->]].
  - constructor; [apply Hnh | apply Hi].
  - intros k Hk. set_solver.
  - unfold place_ok. simpl. by rewrite upd_same.
  - rewrite E. simpl. lia.
Qed.

Lemma advance_clear c m g l : inv m g -> pcs m c = RelClear l -> exists m', advance c m = Some m' /\ inv m' (note_advance c (RelClear l) g).
Proof.
  intros Hi E. pose proof (i_place _ _ Hi c) as Hp. unfold place_ok in Hp. rewrite E in Hp. unfold advance. rewrite E. eexists. split; [reflexivity|].
  pose proof (proj1 (i_held _ _ Hi c l) Hp) as Hlc. assert (Hc : taken_by m c l) by (by left). pose proof (has_only _ _ _ _ Hi Hc) as Honly.
  apply (inv_touch m _ g _ c l); touch; try done.
  - intros x [H|[H|[H|H]]]; simpl in H; rewrite ?upd_same in H; congruence.
  - intros x. unfold taken_by. simpl. rewrite upd_same. simpl. destruct (decide (x = c)) as [|Hx]; [done|]. rewrite upd_other by done. intros [Hh|Hh]; [congruence|]. apply Honly. by right.
  - unfold taken_by. simpl. rewrite !upd_same. simpl. split; [auto|]. intros _. apply (i_word _ _ Hi). by exists c.
  - intros x. split; [|done]. destruct (decide (x = c)) as [->|Hx]; [rewrite upd_same; intros H; by apply list_elem_of_filter in H as [? _]|]. rewrite upd_other by done.
    rewrite (i_held _ _ Hi). congruence.
  - apply NoDup_filter, Hi.
  - intros k Hk. rewrite list_elem_of_filter. tauto.
  - unfold place_ok. simpl. rewrite !upd_same. done.
  - rewrite E. simpl. pose proof (i_nodup _ _ Hi c) as Hn. clear -Hp Hn.
    enough (S (length (filter (fun x => x <> l) (held g c))) = length (held g c)) by lia. revert Hp Hn. generalize (held g c). intros k Hp Hn.
    induction k as [|x k IH]; [by apply elem_of_nil in Hp|]. apply NoDup_cons in Hn as [Hx Hn]. rewrite filter_cons. destruct (decide (x <> l)) as [Hne|Heq].
    + simpl. rewrite IH; [done | set_solver | done].
    + assert (x = l) as -> by (destruct (decide (x = l)); done). f_equal. clear -Hx. induction k as [|y k IH]; [done|]. rewrite filter_cons_True by set_solver. simpl. rewrite IH; set_solver.
Qed.

Lemma advance_store c m g l : inv m g -> pcs m c = RelStore l -> exists m', advance c m = Some m' /\ inv m' g.
Proof.
  intros Hi E. pose proof (i_place _ _ Hi c) as Hp. unfold place_ok in Hp. rewrite E in Hp. unfold advance. rewrite E. eexists. split; [reflexivity|].
  assert (Hc : taken_by m c l) by (right; by right). pose proof (has_only _ _ _ _ Hi Hc) as Honly.
  apply (inv_touch m _ g g c l); touch; try done.
  - intros x [H|[H|[H|H]]]; simpl in H; rewrite ?upd_same in H; congruence.
  - intros x. unfold taken_by. simpl. rewrite upd_same. simpl. destruct (decide (x = c)) as [|Hx]; [done|]. rewrite upd_other by done. exact (Honly x).
  - unfold taken_by. simpl. rewrite !upd_same. simpl. rewrite Hp. split; [done|]. intros [?|[?|?]]; done.
  - intros x. apply (i_held _ _ Hi).
  - apply Hi.
  - unfold place_ok. simpl. by rewrite upd_same.
  - by rewrite E.
Qed.

Lemma advance_inv c m g : inv m g -> exists m', advance c m = Some m' /\ inv m' (note_advance c (pcs m c) g).
Proof.
  intros Hi. pose proof (i_place _ _ Hi c) as Hp. unfold place_ok in Hp. pose proof (i_noff _ _ Hi c) as Hn. destruct (pcs m c) as [|l r|l|l|l r|l|l|] eqn:E.
  - exists m. unfold advance. by rewrite E.
  - unfold advance. rewrite E. assert (Ho : owns (locks m l) c = false) by (apply bool_decide_eq_false; rewrite <- (i_held _ _ Hi); done). rewrite Ho, andb_false_r. eexists. split; [reflexivity|].
    apply (inv_local m _ g g c); try done; try others; simpl; rewrite ?upd_same, ?E; try done; try apply Hi; try (by intros ?). unfold place_ok. simpl. by rewrite upd_same.
  - destruct (advance_spin c m g l Hi E) as (m' & ? & ? & _). by exists m'.
  - by apply advance_got.
  - unfold advance. rewrite E. destruct Hp as [Hp ->]. assert (Ho : owns (locks m l) c = true) by (apply bool_decide_eq_true, (i_held _ _ Hi); done). rewrite Ho. eexists. split; [reflexivity|].
    apply (inv_local m _ g g c); try done; try others; simpl; rewrite ?upd_same, ?E; try done; try apply Hi; try (by intros ?). unfold place_ok. simpl. by rewrite upd_same.
  - by apply advance_clear.
  - by apply advance_store with l.
  - unfold advance. rewrite E. destruct (pop_off_spec m g c Hi) as (k & -> & N & A & B); [rewrite Hn; simpl; lia|]. eexists. split; [reflexivity|].
    apply (inv_local m _ g g c); try done; try others; simpl; rewrite ?upd_same, ?E; try done; try (by intros ?); try (simpl in *; lia). unfold place_ok. simpl. by rewrite upd_same.
Qed.

Lemma start_inv on : let '(m, g) := start on in inv m g.
Proof.
  split; try done.
  - intros c l. simpl. by rewrite elem_of_nil.
  - intros c. apply NoDup_nil_2.
  - intros l. split; [done|]. by intros (c & [H|[H|H]]).
  - intros l c c' [H|[H|H]]; done.
Qed.

Lemma step_inv e m g : inv m g -> exists m' g', step e (m, g) = Some (m', g') /\ inv m' g'.
Proof.
  intros Hi. destruct e as [c o|c]; cbn [step].
  - destruct (running (pcs m c) && legal c o g) eqn:E; [|by exists m, g]. apply andb_prop in E as [E1 E2]. assert (Hp : pcs m c = Run) by (by destruct (pcs m c)).
    destruct (begin_inv c o m g Hi Hp E2) as (m' & -> & Hi'). by exists m', (note c o g).
  - destruct (advance_inv c m g Hi) as (m' & -> & Hi'). by exists m', (note_advance c (pcs m c) g).
Qed.

Lemma steps_inv es : forall m g, inv m g -> exists m' g', steps es (m, g) = Some (m', g') /\ inv m' g'.
Proof.
  induction es as [|e es IH]; intros m g Hi; [by exists m, g|]. destruct (step_inv e m g Hi) as (m1 & g1 & E & Hi1). cbn [steps]. rewrite E. apply IH, Hi1.
Qed.

(** [holding] is exact although it reads without the lock. *)
Lemma holding_exact m g c l : inv m g -> holding m c l = true <-> l ∈ held g c.
Proof.
  intros Hi. unfold holding, owns. rewrite andb_true_iff, bool_decide_eq_true, <- (i_held _ _ Hi). split; [by intros [_ ?]|]. intros H. split; [|done].
  apply (i_word _ _ Hi). exists c. left. by apply (i_held _ _ Hi).
Qed.

(** C14: in every interleaving of the accesses of the processors no lock
    panics; a lock is held by at most one processor; [holding] tells exactly
    whether this processor holds it; interrupts are off on a processor that
    holds a lock or called [push_off], and are again as they were when it
    holds none; a processor that spins takes the lock at its next access if
    no other has it; and taking a lock twice, or giving up a lock of another,
    panics. *)
Theorem spinlock_excludes on es : exists m g, steps es (start on) = Some (m, g) /\
  (forall l c c', l ∈ held g c -> l ∈ held g c' -> c = c') /\
  (forall c l, holding m c l = true <-> l ∈ held g c) /\
  (forall c, held g c <> [] \/ pushes g c <> 0%nat -> sie (cpus m c) = false) /\
  (forall c, pcs m c = Run -> held g c = [] -> pushes g c = 0%nat -> sie (cpus m c) = base g c) /\
  (forall c l, pcs m c = Spin l -> (forall c', ~ taken_by m c' l) -> exists m', advance c m = Some m' /\ pcs m' c = Got l) /\
  (forall c l, l ∈ held g c -> (m' ← begin c (Acquire l) m; advance c m') = None) /\
  (forall c l, l ∉ held g c -> (m' ← begin c (Release l) m; advance c m') = None).
Proof.
  destruct (steps_inv es _ _ (start_inv on)) as (m & g & E & Hi). exists m, g. split; [exact E|]. split; [|split; [|split; [|split; [|split; [|split]]]]].
  - intros l c c' H1 H2. apply (i_held _ _ Hi) in H1, H2. congruence.
  - intros c l. by apply holding_exact.
  - intros c Hc. apply (i_off _ _ Hi). rewrite (i_noff _ _ Hi). assert (0 <= pending (pcs m c)) by (by destruct (pcs m c)). destruct Hc as [Hc|Hc]; [|lia].
    destruct (held g c) as [|x k]; [done|]. simpl. lia.
  - intros c Hp Hh Hu. apply (i_on _ _ Hi). rewrite (i_noff _ _ Hi), Hp, Hh, Hu. done.
  - intros c l Hs Hno. destruct (advance_spin c m g l Hi Hs) as (m' & Ea & _ & Ep). exists m'. split; [done|]. destruct (locked (locks m l)) eqn:El; [|done].
    apply (i_word _ _ Hi) in El as (x & Hx). by destruct (Hno x).
  - intros c l Hh. apply (holding_exact _ _ _ _ Hi) in Hh. cbn [begin mbind option_bind]. unfold advance. simpl. rewrite upd_same. unfold holding in Hh. by rewrite Hh.
  - intros c l Hh. assert (Hf : holding m c l = false) by (destruct (holding m c l) eqn:Eh; [by apply (holding_exact _ _ _ _ Hi) in Eh | done]).
    cbn [begin mbind option_bind]. unfold advance. simpl. rewrite upd_same. unfold holding in Hf. by rewrite Hf.
Qed.

(** Two processors and an interrupt: the second one spins until the first
    one has stored zero. *)
Example contention :
  (fun w => (held w.2 0%nat, held w.2 1%nat, pcs w.1 1%nat, noff (cpus w.1 0%nat), sie (cpus w.1 0%nat), sie (cpus w.1 1%nat))) <$>
    steps [Begin 0 (Acquire 5); Begin 1 (Acquire 5); Advance 0; Advance 1; Advance 0; Advance 1; Advance 0; Begin 0 (Release 5); Begin 1 IntrOn; Advance 0; Advance 0; Advance 1;
           Advance 0; Advance 1; Advance 0; Advance 1] (start (fun _ => true)) = Some ([], [5%nat], Run, 0, true, false).
Proof. vm_compute. reflexivity. Qed.
