(* ===== verification/Sleeplock.v ===== *)
(** * Sleep locks (xv6/kernel/sleeplock.c)

    The processes that use one lock.  A region under the spin lock [lk->lk]
    is one step; [acquiresleep] is cut where it sleeps.  A process is asleep
    from [sleep_prepare] until a wakeup on the channel of the lock, or until
    it is killed. *)
From S2P Require Import Prelude.
Local Open Scope Z_scope.

Record sleeplock := mkSleep { slocked : bool; spid : Z }.
Definition initsleeplock : sleeplock := mkSleep false 0.

(** Processes by their number, [true] for one whose [acquiresleep] has
    returned. *)
Record world := mkWorld { lk : sleeplock; users : gmap Z bool; asleep : gset Z }.

(** [acquiresleep] from [acquire(&lk->lk)] to its sleep or its end. *)
Definition acquiresleep (p : Z) (w : world) : world :=
  if slocked (lk w) then mkWorld (lk w) (<[p := false]> (users w)) ({[p]} ∪ asleep w)
  else mkWorld (mkSleep true p) (<[p := true]> (users w)) (asleep w).

Definition releasesleep (p : Z) (w : world) : world := mkWorld (mkSleep false 0) (delete p (users w)) ∅.

Definition holdingsleep (p : Z) (w : world) : bool := slocked (lk w) && (spid (lk w) =? p).

Inductive event : Type := Acquire (p : Z) | Resume (p : Z) | Release (p : Z) | Kill (p : Z).

(** A process takes the lock when it does not use it, goes on when it is not
    asleep, and releases the lock it has. *)
Definition step (e : event) (w : world) : world :=
  match e with
  | Acquire p => match users w !! p with None => if bool_decide (0 < p) then acquiresleep p w else w | Some _ => w end
  | Resume p => match users w !! p with Some false => if bool_decide (p ∈ asleep w) then w else acquiresleep p w | _ => w end
  | Release p => match users w !! p with Some true => releasesleep p w | _ => w end
  | Kill p => mkWorld (lk w) (users w) (asleep w ∖ {[p]})
  end.

Definition steps (es : list event) (w : world) : world := foldl (fun w e => step e w) w es.

Record inv (w : world) : Prop := mkInv {
  i_pid : forall p b, users w !! p = Some b -> 0 < p;
  i_holder : forall p, users w !! p = Some true <-> slocked (lk w) = true /\ spid (lk w) = p /\ 0 < p;
  i_sleep : forall p, p ∈ asleep w -> slocked (lk w) = true /\ users w !! p = Some false;
  i_someone : slocked (lk w) = true -> 0 < spid (lk w)
}.

Lemma acquire_inv p w : inv w -> 0 < p -> users w !! p <> Some true -> p ∉ asleep w -> inv (acquiresleep p w).
Proof.
  intros [I1 I2 I3 I4] Hp Hu Hs. unfold acquiresleep. destruct (slocked (lk w)) eqn:El.
  - split; simpl; [| | |auto].
    + intros q b. destruct (decide (q = p)) as [->|Hne]; [done|]. rewrite lookup_insert_ne by done. apply I1.
    + intros q. destruct (decide (q = p)) as [->|Hne]; [|rewrite lookup_insert_ne by done; by rewrite I2, El]. rewrite lookup_insert_eq. split; [done|]. intros (_ & Es & _). destruct Hu. apply I2. done.
    + intros q. destruct (decide (q = p)) as [->|Hne]; [by rewrite lookup_insert_eq|]. rewrite lookup_insert_ne by done. intros Hq. split; [done|]. apply I3. set_solver.
  - split; simpl; [| | |auto].
    + intros q b. destruct (decide (q = p)) as [->|Hne]; [done|]. rewrite lookup_insert_ne by done. apply I1.
    + intros q. destruct (decide (q = p)) as [->|Hne]; [by rewrite lookup_insert_eq|]. rewrite lookup_insert_ne by done. split; [intros Hq; apply I2 in Hq; naive_solver | by intros (_ & -> & _)].
    + intros q Hq. by destruct (I3 q Hq).
Qed.

Lemma sleep_step_inv e w : inv w -> inv (step e w).
Proof.
  intros Hi. pose proof Hi as [I1 I2 I3 I4]. destruct e as [p|p|p|p]; cbn [step].
  - destruct (users w !! p) eqn:E; [done|]. case_bool_decide; [|done]. apply acquire_inv; [done | done | congruence|]. intros Hs. destruct (I3 p Hs). congruence.
  - destruct (users w !! p) as [[|]|] eqn:E; try done. case_bool_decide; [done|]. apply acquire_inv; [done | by eapply I1 | congruence | done].
  - destruct (users w !! p) as [[|]|] eqn:E; try done. apply I2 in E as (El & Ep & Hp). split; simpl.
    + intros q b Hq. apply lookup_delete_Some in Hq as [_ Hq]. by eapply I1.
    + intros q. split; [|by intros [? _]]. intros Hq. apply lookup_delete_Some in Hq as [Hne Hq]. apply I2 in Hq as (_ & ? & _). congruence.
    + intros q Hq. set_solver.
    + done.
  - split; simpl; try done. intros q Hq. apply I3. set_solver.
Qed.

(** Whatever the processes do, one process at most has the lock, the lock
    says which one, nobody sleeps while it is free, and then the next one to
    go on gets it. *)
Theorem sleeplock_excludes es : let w := steps es (mkWorld initsleeplock ∅ ∅) in
  (forall p q, users w !! p = Some true -> users w !! q = Some true -> p = q) /\
  (forall p, 0 < p -> holdingsleep p w = true <-> users w !! p = Some true) /\
  (slocked (lk w) = false -> asleep w = ∅ /\ forall p, users w !! p = Some false -> users (step (Resume p) w) !! p = Some true).
Proof.
  assert (Hi : inv (steps es (mkWorld initsleeplock ∅ ∅))).
  { unfold steps. assert (H0 : inv (mkWorld initsleeplock ∅ ∅)) by (split; simpl; try done; intros p; first [split; [done | by intros [? _]] | set_solver]).
    revert H0. generalize (mkWorld initsleeplock ∅ ∅). induction es as [|e es IH]; intros w Hw; [done|]. apply IH, sleep_step_inv, Hw. }
  set (w := steps es _) in *. clearbody w. destruct Hi as [I1 I2 I3 I4]. split; [|split].
  - intros p q Hp Hq. apply I2 in Hp as (_ & <- & _), Hq as (_ & <- & _). done.
  - intros p Hp. rewrite I2. unfold holdingsleep. rewrite andb_true_iff, Z.eqb_eq. tauto.
  - intros El. assert (Ea : asleep w = ∅) by (apply leibniz_equiv; apply set_equiv; intros q; split; [intros Hq; destruct (I3 q Hq); congruence | set_solver]).
    split; [done|]. intros p Hp. cbn [step]. rewrite Hp, Ea, bool_decide_false by set_solver. unfold acquiresleep. rewrite El. simpl. apply lookup_insert_eq.
Qed.
