(* ===== verification/Mkfs.v ===== *)
(** * Making a file system (xv6/mkfs/mkfs.c)

    The program that builds the disk image, over the same blocks, inodes and
    directory entries as the kernel.  The host writes integers in the order
    of the target ([xint] and [xshort] do nothing else), so that they are the
    little-endian integers of the kernel.  [die] and a failed [assert] are
    [None].  A file of the host is its path and the pieces [read] returns. *)
From S2P Require Import Prelude Disk Balloc Inode Content KString Rw Itable Dir.
Local Open Scope Z_scope.

Definition FSSIZE : Z := 2000.
Definition NINODES : Z := 200.
Definition LOGBLOCKS : Z := 30.
Definition T_FILE : Z := 2.
Definition ROOTINO : Z := 1.

Definition nbitmap : Z := FSSIZE / BPB + 1.
Definition ninodeblocks : Z := NINODES / IPB + 1.
Definition mk_nlog : Z := LOGBLOCKS + 1.
Definition nmeta : Z := 2 + mk_nlog + ninodeblocks + nbitmap.
Definition mk_sb : superblock :=
  mkSuper 0x10203040 FSSIZE (FSSIZE - nmeta) NINODES mk_nlog 2 (2 + mk_nlog) (2 + mk_nlog + ninodeblocks).

Record mkstate := mkMk { img : disk; freeinode : Z; freeblock : Z }.
Definition set_img (d : disk) (m : mkstate) : mkstate := mkMk d (freeinode m) (freeblock m).

(** ** Sectors and inodes *)
Definition wsect (sec : Z) (x : byteblock) (m : mkstate) : mkstate := set_img (put sec x (img m)) m.

(** The image has [FSSIZE] sectors: a read past them fails. *)
Definition rsect (sec : Z) (m : mkstate) : option byteblock := if sec <? FSSIZE then Some (get (img m) sec) else None.

Definition no_inode (inum : Z) : inode := mkInode 1 inum 1 true true 0 0 0 0 0 (replicate 13 0).

Definition winode (inum : Z) (ip : inode) (m : mkstate) : option mkstate :=
  let bn := IBLOCK mk_sb inum in
  x ← rsect bn m;
  Some (wsect bn (splice (slot inum) (dinode_bytes ip) x) m).

Definition rinode (inum : Z) (m : mkstate) : option inode :=
  x ← rsect (IBLOCK mk_sb inum) m;
  Some (load_dinode (bytes_at (slot inum) 64 x) (no_inode inum)).

Definition new_inode (inum type : Z) : inode := mkInode 1 inum 1 true true type 0 0 1 0 (replicate 13 0).

Definition mk_ialloc (type : Z) (m : mkstate) : option (Z * mkstate) :=
  let inum := freeinode m in
  let m := mkMk (img m) (freeinode m + 1) (freeblock m) in
  m ← winode inum (new_inode inum type) m;
  Some (inum, m).

(** The map with the first [n] bits set. *)
Definition mark_bits (n : nat) (x : byteblock) : byteblock := foldl (fun x i => bit_set (Z.of_nat i) x) x (seq 0 n).

Definition mk_balloc (used : Z) (m : mkstate) : option mkstate :=
  if used <? BPB then Some (wsect (bmapstart mk_sb) (mark_bits (Z.to_nat used) zeroes) m) else None.

(** ** Appending to a file *)
Definition bump (m : mkstate) : mkstate := mkMk (img m) (freeinode m) (freeblock m + 1).

(** Slot [i] of [din.addrs], a new block if it is empty. *)
Definition addr_slot (i : Z) (din : inode) (m : mkstate) : inode * mkstate :=
  if direct i din =? 0 then (set_direct i (freeblock m) din, bump m) else (din, m).

(** The block [fbn] of the file. *)
Definition file_sector (fbn : Z) (din : inode) (m : mkstate) : option (Z * inode * mkstate) :=
  if fbn <? NDIRECT then
    let '(din, m) := addr_slot fbn din m in Some (direct fbn din, din, m)
  else
    let '(din, m) := addr_slot NDIRECT din m in
    let k := fbn - NDIRECT in
    indirect ← rsect (direct NDIRECT din) m;
    let '(indirect, m) :=
      if get_u32 k indirect =? 0 then
        let indirect := put_u32 k (freeblock m) indirect in (indirect, wsect (direct NDIRECT din) indirect (bump m))
      else (indirect, m) in
    Some (get_u32 k indirect, din, m).

(** The loop of [iappend] over the bytes that are left. *)
Fixpoint iappend_loop (fuel : nat) (p : list ascii) (off : Z) (din : inode) (m : mkstate) : option (Z * inode * mkstate) :=
  match p, fuel with
  | [], _ => Some (off, din, m)
  | _, O => None
  | _, S fuel' =>
      let fbn := off / BSIZE in
      if fbn <? MAXFILE then
        '(x, din, m) ← file_sector fbn din m;
        let n1 := Z.to_nat (Z.min (Z.of_nat (length p)) ((fbn + 1) * BSIZE - off)) in
        buf ← rsect x m;
        iappend_loop fuel' (drop n1 p) (off + Z.of_nat n1) din (wsect x (splice (Z.to_nat (off - fbn * BSIZE)) (take n1 p) buf) m)
      else None
  end.

Definition iappend (inum : Z) (p : list ascii) (m : mkstate) : option mkstate :=
  din ← rinode inum m;
  '(off, din, m) ← iappend_loop (length p) p (isize din) din m;
  winode inum (set_size off din) m.

(** ** The image *)
Definition superblock_bytes (sb : superblock) : byteblock :=
  unle 4 (magic sb) ++ unle 4 (size sb) ++ unle 4 (nblocks sb) ++ unle 4 (ninodes sb) ++ unle 4 (nlog sb) ++ unle 4 (logstart sb) ++
  unle 4 (inodestart sb) ++ unle 4 (bmapstart sb) ++ replicate (Z.to_nat BSIZE - 32) NUL.

(** The zeroed image with its super block. *)
Definition zero_image : mkstate := foldl (fun m i => wsect (Z.of_nat i) zeroes m) (mkMk ∅ 1 nmeta) (seq 0 (Z.to_nat FSSIZE)).
Definition blank : mkstate := wsect 1 (superblock_bytes mk_sb) zero_image.

Definition add_entry (inum : Z) (name : cstr) (m : mkstate) : option mkstate := iappend ROOTINO (dirent inum (strncpy DIRSIZ name)) m.

Abbreviation hostfile := (cstr * list (list ascii))%type.

(** The name of a file of the host within the image. *)
Definition short_name (path : cstr) : option cstr :=
  let s := if bool_decide (take 5 path = str "user/") then drop 5 path else path in
  if bool_decide ("/"%char ∈ s) then None
  else
    let s := if bool_decide (head s = Some "_"%char) then tail s else s in
    if (length s <=? DIRSIZ)%nat then Some s else None.

Fixpoint append_all (inum : Z) (pieces : list (list ascii)) (m : mkstate) : option mkstate :=
  match pieces with [] => Some m | p :: pieces' => m ← iappend inum p m; append_all inum pieces' m end.

Definition mk_file (f : hostfile) (m : mkstate) : option mkstate :=
  name ← short_name f.1;
  '(inum, m) ← mk_ialloc T_FILE m;
  m ← add_entry inum name m;
  append_all inum f.2 m.

Fixpoint add_files (fs : list hostfile) (m : mkstate) : option mkstate :=
  match fs with [] => Some m | f :: fs' => m ← mk_file f m; add_files fs' m end.

(** The size of the root directory is rounded up to blocks. *)
Definition fix_root (m : mkstate) : option mkstate :=
  din ← rinode ROOTINO m;
  winode ROOTINO (set_size ((isize din / BSIZE + 1) * BSIZE) din) m.

Definition mkfs (fs : list hostfile) : option disk :=
  '(rootino, m) ← mk_ialloc T_DIR blank;
  if rootino =? ROOTINO then
    m ← add_entry rootino (str ".") m;
    m ← add_entry rootino (str "..") m;
    m ← add_files fs m;
    m ← fix_root m;
    m ← mk_balloc (freeblock m) m;
    Some (img m)
  else None.

(** ** The image with its map

    The map is written at the end.  Before, [vimg] is the image as if it had
    been written now: there the operations of [mkfs.c] are those of a file
    system in good order. *)
Lemma mk_layout : layout_ok mk_sb.
Proof. split; vm_compute; split; congruence || done. Qed.

Definition vimg (m : mkstate) : disk := put 46 (mark_bits (Z.to_nat (freeblock m)) zeroes) (img m).

Record st (m : mkstate) : Prop := mkSt {
  s_range : 47 <= freeblock m <= FSSIZE;
  s_sized : sized (img m);
  s_fresh : forall b, freeblock m <= b < FSSIZE -> get (img m) b = zeroes
}.

Lemma mark_bits_S n x : mark_bits (S n) x = bit_set (Z.of_nat n) (mark_bits n x).
Proof. unfold mark_bits. by rewrite seq_S, foldl_snoc. Qed.

Lemma length_mark_bits n x : length (mark_bits n x) = length x.
Proof. induction n as [|n IH]; [done|]. by rewrite mark_bits_S, length_bit_set. Qed.

Lemma bit_free_zeroes b : 0 <= b < BPB -> bit_free b zeroes = true.
Proof.
  intros Hb. unfold bit_free, map_byte, zeroes. rewrite nth_lookup. assert (E : default NUL (replicate (Z.to_nat BSIZE) NUL !! Z.to_nat (b / 8)) = NUL).
  { destruct (replicate (Z.to_nat BSIZE) NUL !! Z.to_nat (b / 8)) as [c|] eqn:E; [|done]. by apply lookup_replicate in E as [-> _]. }
  by rewrite E.
Qed.

Lemma bit_free_marks n b : (n <= Z.to_nat BPB)%nat -> 0 <= b < BPB -> bit_free b (mark_bits n zeroes) = (Z.of_nat n <=? b).
Proof.
  intros Hn Hb. induction n as [|n IH]; [rewrite bit_free_zeroes by done; symmetry; apply Z.leb_le; lia|]. rewrite mark_bits_S.
  rewrite bit_set_spec; [|rewrite length_mark_bits; done | lia | done]. rewrite IH by lia.
  destruct (Z.leb_spec (Z.of_nat n) b), (Z.leb_spec (Z.of_nat (S n)) b), (Z.eqb_spec b (Z.of_nat n)); simpl; (done || lia).
Qed.

Lemma get_vimg m b : b <> 46 -> get (vimg m) b = get (img m) b.
Proof. intros H. unfold vimg. rewrite get_store. by destruct (Z.eqb_spec b 46). Qed.

Lemma used_vimg m b : st m -> 0 <= b < FSSIZE -> used mk_sb (vimg m) b = (b <? freeblock m).
Proof.
  intros [Hr _ _] Hb. unfold FSSIZE in *. unfold used. assert (EB : BBLOCK mk_sb b = 46). { unfold BBLOCK, BPB, BSIZE. rewrite Z.div_small by lia. done. }
  rewrite EB. unfold vimg. rewrite get_store, Z.eqb_refl. rewrite Z.mod_small by (unfold BPB, BSIZE; lia). rewrite bit_free_marks by (unfold BPB, BSIZE; lia).
  rewrite Z2Nat.id by lia. destruct (Z.leb_spec (freeblock m) b), (Z.ltb_spec b (freeblock m)); (done || lia).
Qed.

Lemma vimg_ok m : st m -> disk_ok mk_sb (vimg m).
Proof.
  intros Hs. split.
  - apply sized_put; [apply Hs|]. by rewrite length_mark_bits.
  - intros b Hb Hb2. change (0 <= b < 47) in Hb. pose proof (s_range _ Hs). rewrite used_vimg by (done || (unfold FSSIZE; lia)). apply Z.ltb_lt. lia.
Qed.

Lemma bump_st m : st m -> freeblock m < FSSIZE -> st (bump m).
Proof. intros [Hr Hs Hf] H. split; simpl; [lia | done|]. intros b Hb. apply Hf. lia. Qed.

Lemma bump_allocated m : st m -> freeblock m < FSSIZE -> allocated mk_sb (vimg m) (freeblock m) (vimg (bump m)).
Proof.
  intros Hs H. pose proof (bump_st m Hs H) as Hs'. pose proof (s_range _ Hs) as Hr. unfold FSSIZE in *. split.
  - change (47 <= freeblock m < 2000). lia.
  - rewrite used_vimg by (done || (unfold FSSIZE; lia)). apply Z.ltb_irrefl.
  - intros b Hb. rewrite used_vimg by (done || (unfold FSSIZE; lia)). apply Z.ltb_lt. lia.
  - intros b Hb. change (0 <= b < 2000) in Hb. rewrite !used_vimg by (done || (unfold FSSIZE; lia)). simpl.
    destruct (Z.ltb_spec b (freeblock m + 1)), (Z.ltb_spec b (freeblock m)), (Z.eqb_spec b (freeblock m)); simpl; (done || lia).
  - rewrite get_vimg by lia. simpl. apply (s_fresh _ Hs). unfold FSSIZE. lia.
  - intros b Hb _. assert (b <> 46) by (intros ->; apply Hb; vm_compute; split; congruence || done). by rewrite !get_vimg.
  - apply vimg_ok. done.
  - apply vimg_ok. done.
Qed.

(** A sector other than the map. *)
Lemma wsect_vimg sec x m : sec <> 46 -> vimg (wsect sec x m) = put sec x (vimg m).
Proof. intros H. unfold vimg, wsect, set_img, put. simpl. apply insert_insert_ne. congruence. Qed.

Lemma wsect_st sec x m : st m -> sec < freeblock m -> length x = Z.to_nat BSIZE -> st (wsect sec x m).
Proof.
  intros [Hr Hs Hf] Hsec Hx. split; [done | by apply sized_put|]. intros b Hb. simpl in *. rewrite get_store. destruct (Z.eqb_spec b sec); [lia | by apply Hf].
Qed.

(** Blocks of a file are data blocks below [freeblock]. *)
Lemma ptr_low m ip p : st m -> inode_wf mk_sb (vimg m) ip -> (p < NPOS)%nat -> ptr (vimg m) ip p <> 0 -> 47 <= ptr (vimg m) ip p < freeblock m.
Proof.
  intros Hs Hwf Hp H0. destruct (wf_data _ _ _ Hwf p Hp H0) as [Hd Hu]. change (47 <= ptr (vimg m) ip p < 2000) in Hd.
  rewrite used_vimg in Hu by (done || (unfold FSSIZE; lia)). apply Z.ltb_lt in Hu. lia.
Qed.

(** ** What is mapped

    A file of [off] bytes has exactly the blocks it needs. *)
Definition mapped (d : disk) (ip : inode) (off : Z) : Prop :=
  (forall bn, 0 <= bn < MAXFILE -> ptr d ip (pos bn) <> 0 <-> bn * BSIZE < off) /\ (direct 12 ip <> 0 <-> NDIRECT * BSIZE < off).

(** The number of blocks of a file of [off] bytes. *)
Definition nblk (off : Z) : Z := (off + 1023) / 1024 + (if NDIRECT * BSIZE <? off then 1 else 0).

Lemma addr_slot_spec i ip m lo f : st m -> inode_wf mk_sb (vimg m) ip -> 0 <= i < 13 -> (direct i ip = 0 -> freeblock m < FSSIZE) ->
  exists ip' m', addr_slot i ip m = (ip', m') /\ st m' /\ evolves mk_sb lo lo f (vimg m) ip (vimg m') ip' /\ direct i ip' <> 0 /\
    (forall q, (q < NPOS)%nat -> q <> Z.to_nat i -> ptr (vimg m') ip' q = ptr (vimg m) ip q) /\
    freeblock m' = freeblock m + (if direct i ip =? 0 then 1 else 0) /\ freeinode m' = freeinode m.
Proof.
  intros Hs Hwf Hi Hfull. unfold addr_slot. destruct (Z.eqb_spec (direct i ip) 0) as [E|E].
  - specialize (Hfull E). pose proof (direct_grows mk_sb mk_layout _ ip i _ _ (vimg_ok m Hs) Hwf Hi E (bump_allocated m Hs Hfull)) as Hg.
    eexists _, _. split; [reflexivity|]. split; [by apply bump_st|]. split; [by eapply grows_evolves; [apply mk_layout|..]|]. split; [|split; [|done]].
    + rewrite direct_set by (lia || apply Hwf). rewrite Z.eqb_refl. pose proof (s_range _ Hs). lia.
    + intros q Hq Hne. rewrite (g_ptr _ _ _ _ _ _ _ Hg) by done. by destruct (Nat.eqb_spec q (Z.to_nat i)).
  - eexists _, _. split; [reflexivity|]. split; [done|]. split; [by apply evolves_refl; [|apply vimg_ok]|]. split; [done|]. split; [done|]. split; [lia | done].
Qed.

Lemma nblk_step off : 0 <= off -> nblk (off + 1) - nblk off = (if off mod BSIZE =? 0 then 1 else 0) + (if off =? NDIRECT * BSIZE then 1 else 0).
Proof.
  intros Ho. unfold nblk, NDIRECT, BSIZE. change (12 * 1024) with 12288. pose proof (Z.div_mod off 1024 ltac:(lia)). pose proof (Z.mod_pos_bound off 1024 ltac:(lia)).
  assert (E1 : (off + 1 + 1023) / 1024 = off / 1024 + 1) by (replace (off + 1 + 1023) with (off + 1 * 1024) by lia; by rewrite Z.div_add by lia).
  assert (E2 : (off + 1023) / 1024 = off / 1024 + if off mod 1024 =? 0 then 0 else 1).
  { destruct (Z.eqb_spec (off mod 1024) 0) as [E|E]; symmetry; [apply (Z.div_unique_pos _ _ _ 1023) | apply (Z.div_unique_pos _ _ _ (off mod 1024 - 1))]; lia. }
  rewrite E1, E2. destruct (Z.eqb_spec (off mod 1024) 0), (Z.ltb_spec 12288 (off + 1)), (Z.ltb_spec 12288 off), (Z.eqb_spec off 12288); lia.
Qed.

Lemma block_start off : 0 <= off -> let bn := off / BSIZE in bn * BSIZE <= off < (bn + 1) * BSIZE /\ (bn * BSIZE < off <-> off mod BSIZE <> 0).
Proof. intros Ho. simpl. unfold BSIZE. pose proof (Z.div_mod off 1024 ltac:(lia)). pose proof (Z.mod_pos_bound off 1024 ltac:(lia)). lia. Qed.

Section Sector.
Context (m : mkstate) (ip : inode) (off lo : Z) (f : Z -> ascii).
Let bn : Z := off / BSIZE.
Context (Hs : st m) (Hwf : inode_wf mk_sb (vimg m) ip) (Hoff : 0 <= off) (Hbn : 0 <= bn < MAXFILE) (Hm : mapped (vimg m) ip off).
Context (Hroom : freeblock m + (nblk (off + 1) - nblk off) <= FSSIZE).

Definition sector_found (x : Z) (ip' : inode) (m' : mkstate) : Prop :=
  file_sector bn ip m = Some (x, ip', m') /\ st m' /\ evolves mk_sb lo lo f (vimg m) ip (vimg m') ip' /\ x = ptr (vimg m') ip' (pos bn) /\ x <> 0 /\
  (forall b, 0 <= b < MAXFILE -> b <> bn -> ptr (vimg m') ip' (pos b) = ptr (vimg m) ip (pos b)) /\
  (direct 12 ip' <> 0 <-> direct 12 ip <> 0 \/ NDIRECT <= bn) /\ freeblock m' = freeblock m + (nblk (off + 1) - nblk off) /\ freeinode m' = freeinode m.

Lemma sector_direct : bn < NDIRECT -> exists x ip' m', sector_found x ip' m'.
Proof.
  intros Hd. destruct (block_start off Hoff) as [Hb1 Hb2]. fold bn in Hb1, Hb2. rewrite (nblk_step off Hoff) in Hroom.
  assert (Ep : pos bn = Z.to_nat bn) by (unfold pos; by destruct (Z.ltb_spec bn NDIRECT); [|lia]).
  assert (E : direct bn ip = ptr (vimg m) ip (pos bn)) by (rewrite Ep, ptr_direct by (unfold NDIRECT in *; lia); by rewrite Z2Nat.id by lia).
  destruct (Z.eqb_spec off (NDIRECT * BSIZE)) as [E0|Hne]; [rewrite E0 in Hb1; unfold NDIRECT, BSIZE in *; lia|].
  assert (Hmod : direct bn ip = 0 <-> off mod BSIZE = 0) by (rewrite E; pose proof (proj1 Hm bn Hbn); lia).
  destruct (addr_slot_spec bn ip m lo f Hs Hwf) as (ip' & m' & E1 & Hs' & Hev & Hx & Hq & Hfb & Hfi); [unfold NDIRECT in *; lia| |].
  { intros H0. apply Hmod in H0. rewrite H0 in Hroom. simpl in Hroom. lia. }
  exists (direct bn ip'), ip', m'. unfold sector_found, file_sector. destruct (Z.ltb_spec bn NDIRECT); [|lia]. rewrite E1. split; [done|]. split; [done|]. split; [done|].
  split; [rewrite Ep, ptr_direct by (unfold NDIRECT in *; lia); by rewrite Z2Nat.id by lia|]. split; [done|]. split; [|split; [|split; [|done]]].
  - intros b Hb Hne'. apply Hq; [by apply pos_lt|]. rewrite <- Ep. intros Eq. apply Hne'. apply pos_inj; lia || done.
  - rewrite <- (ptr_12 (vimg m') ip'), <- (ptr_12 (vimg m) ip). rewrite Hq by (unfold NPOS, NDIRECT in *; lia). lia.
  - rewrite (nblk_step off Hoff), Hfb. destruct (Z.eqb_spec off (NDIRECT * BSIZE)); [lia|]. destruct (Z.eqb_spec (direct bn ip) 0), (Z.eqb_spec (off mod BSIZE) 0); lia.
Qed.

Lemma pos_indirect : NDIRECT <= bn -> pos bn = Z.to_nat (bn - NDIRECT + 13) /\ 0 <= bn - NDIRECT < 256 /\ (pos bn < NPOS)%nat /\ pos bn <> 12%nat.
Proof.
  intros Hd. unfold pos. destruct (Z.ltb_spec bn NDIRECT); [lia|]. unfold MAXFILE, NDIRECT, NINDIRECT, BSIZE, NPOS in *. change (1024 / 4) with 256 in Hbn. lia.
Qed.

Lemma ptr_indirect d jp k : direct 12 jp <> 0 -> 0 <= k < 256 -> ptr d jp (Z.to_nat (k + 13)) = get_u32 k (get d (direct 12 jp)).
Proof.
  intros H0 Hk. unfold ptr. destruct (Nat.ltb_spec (Z.to_nat (k + 13)) 13); [lia|]. destruct (Z.eqb_spec (direct 12 jp) 0); [done|]. f_equal. lia.
Qed.

Lemma sector_indirect : NDIRECT <= bn -> exists x ip' m', sector_found x ip' m'.
Proof.
  intros Hd. destruct (block_start off Hoff) as [Hb1 Hb2]. fold bn in Hb1, Hb2. rewrite (nblk_step off Hoff) in Hroom. destruct (pos_indirect Hd) as (Ep & Hk & Hp & Hp12).
  set (k := bn - NDIRECT) in *. assert (H12 : direct 12 ip = 0 <-> off = NDIRECT * BSIZE) by (pose proof (proj2 Hm); unfold NDIRECT, BSIZE in *; lia).
  assert (Hmod : ptr (vimg m) ip (pos bn) = 0 <-> off mod BSIZE = 0) by (pose proof (proj1 Hm bn Hbn); lia).
  assert (Hroom0 : direct 12 ip = 0 -> freeblock m < FSSIZE). { intros H0. apply H12 in H0. destruct (Z.eqb_spec off (NDIRECT * BSIZE)); [|done]. destruct (off mod BSIZE =? 0); lia. }
  destruct (addr_slot_spec 12 ip m lo f Hs Hwf) as (ip1 & m1 & E1 & Hs1 & Hev1 & Hx1 & Hq1 & Hfb1 & Hfi1); [lia | done|].
  pose proof (e_wf _ _ _ _ _ _ _ _ Hev1) as Hwf1. assert (Hlow : 47 <= direct 12 ip1 < freeblock m1) by (rewrite <- (ptr_12 (vimg m1)); apply ptr_low; [done | done | unfold NPOS; lia | by rewrite ptr_12]).
  assert (Ea : get_u32 k (get (img m1) (direct 12 ip1)) = ptr (vimg m) ip (pos bn)).
  { rewrite <- Hq1 by (done || (change (Z.to_nat 12) with 12%nat; done)). rewrite Ep, ptr_indirect by done. by rewrite get_vimg by lia. }
  pose proof (s_range _ Hs1) as Hr1. unfold sector_found, file_sector. destruct (Z.ltb_spec bn NDIRECT) as [|_]; [lia|]. change NDIRECT with 12 in *. rewrite E1. fold k.
  unfold rsect at 1. destruct (Z.ltb_spec (direct 12 ip1) FSSIZE) as [_|]; [|lia]. cbn [mbind option_bind]. rewrite Ea.
  assert (Hfb : freeblock m1 + (if off mod BSIZE =? 0 then 1 else 0) = freeblock m + (nblk (off + 1) - nblk off)).
  { rewrite (nblk_step off Hoff), Hfb1. change (NDIRECT * BSIZE) with (12 * BSIZE). destruct (Z.eqb_spec (direct 12 ip) 0), (Z.eqb_spec off (12 * BSIZE)); lia. }
  assert (Hroom1 : freeblock m1 + (if off mod BSIZE =? 0 then 1 else 0) <= FSSIZE) by (rewrite Hfb, (nblk_step off Hoff); exact Hroom).
  destruct (Z.eqb_spec (ptr (vimg m) ip (pos bn)) 0) as [E0|E0].
  - destruct (Z.eqb_spec (off mod BSIZE) 0) as [_|]; [|by apply Hmod in E0]. assert (Hlt : freeblock m1 < FSSIZE) by lia.
    set (x := put_u32 k (freeblock m1) (get (img m1) (direct 12 ip1))). set (m2 := wsect (direct 12 ip1) x (bump m1)).
    assert (Hlx : length x = Z.to_nat BSIZE) by (apply length_put_u32; [apply Hs1 | done]).
    assert (Hs2 : st m2) by (apply wsect_st; [by apply bump_st | simpl; lia | done]).
    assert (E2 : vimg m2 = put (direct 12 ip1) (put_u32 k (freeblock m1) (get (vimg m1) (direct 12 ip1))) (vimg (bump m1))) by (unfold m2; rewrite wsect_vimg by lia; rewrite get_vimg by lia; done).
    assert (Hg : grows mk_sb (vimg m1) ip1 (Z.to_nat (k + 13)) (freeblock m1) (vimg m2) ip1).
    { rewrite E2. apply indirect_grows; [apply mk_layout | by apply vimg_ok | done | done | done | rewrite get_vimg by lia; congruence | by apply bump_allocated]. }
    exists (freeblock m1), ip1, m2. split.
    { f_equal. f_equal. f_equal. unfold x. rewrite get_put_u32 by (apply Hs1 || done || (unfold in_u32, FSSIZE in *; lia)). by rewrite Z.eqb_refl. }
    split; [done|]. split; [eapply evolves_trans; [|exact Hev1|]; [lia|]; by eapply grows_evolves; [apply mk_layout | |]|].
    pose proof (g_ptr _ _ _ _ _ _ _ Hg) as Hgp. rewrite <- Ep in Hgp. split; [rewrite Hgp by done; by rewrite Nat.eqb_refl|]. split; [lia|]. split; [|split; [|split; [simpl; lia | simpl; done]]].
    + intros b Hb Hne. destruct (pos_lt b Hb) as [Hpb Hpb12]. rewrite Hgp by done. destruct (Nat.eqb_spec (pos b) (pos bn)) as [Eq|_]; [exfalso; apply Hne, pos_inj; lia || done|].
      apply Hq1; [done|]. by change (Z.to_nat 12) with 12%nat.
    + split; [by right | done].
  - destruct (Z.eqb_spec (off mod BSIZE) 0) as [E|_]; [by apply Hmod in E|]. exists (ptr (vimg m) ip (pos bn)), ip1, m1. split; [by rewrite Ea|]. split; [done|]. split; [done|].
    split; [symmetry; apply Hq1; [done|]; by change (Z.to_nat 12) with 12%nat|]. split; [done|]. split; [|split; [split; [by right | done]|split; [lia | done]]].
    intros b Hb Hne. destruct (pos_lt b Hb) as [Hpb Hpb12]. apply Hq1; [done|]. by change (Z.to_nat 12) with 12%nat.
Qed.

Lemma sector_spec : exists x ip' m', sector_found x ip' m'.
Proof. destruct (Z.lt_ge_cases bn NDIRECT); [by apply sector_direct | by apply sector_indirect; lia]. Qed.
End Sector.

Lemma nblk_mono a b : a <= b -> nblk a <= nblk b.
Proof.
  intros H. unfold nblk. pose proof (Z.div_le_mono (a + 1023) (b + 1023) 1024 ltac:(lia) ltac:(lia)). destruct (Z.ltb_spec (NDIRECT * BSIZE) a), (Z.ltb_spec (NDIRECT * BSIZE) b); lia.
Qed.

Lemma nblk_block off off' : 0 <= off -> off < off' <= (off / BSIZE + 1) * BSIZE -> nblk off' = nblk (off + 1).
Proof.
  intros Ho Hb. unfold nblk, NDIRECT, BSIZE in *. change (12 * 1024) with 12288. pose proof (Z.div_mod off 1024 ltac:(lia)). pose proof (Z.mod_pos_bound off 1024 ltac:(lia)).
  assert (E : forall y, off < y <= (off / 1024 + 1) * 1024 -> (y + 1023) / 1024 = off / 1024 + 1).
  { intros y Hy. symmetry. apply (Z.div_unique_pos _ _ _ (y + 1023 - (off / 1024 + 1) * 1024)); lia. }
  rewrite !E by lia. destruct (Z.ltb_spec 12288 off'), (Z.ltb_spec 12288 (off + 1)); lia.
Qed.

(** A piece within one block. *)
Lemma append_piece f m ip off (bs : list ascii) : st m -> inode_wf mk_sb (vimg m) ip -> 0 <= off -> 0 < Z.of_nat (length bs) ->
  off + Z.of_nat (length bs) <= (off / BSIZE + 1) * BSIZE -> off < MAXFILE * BSIZE -> mapped (vimg m) ip off -> freeblock m + (nblk (off + 1) - nblk off) <= FSSIZE ->
  (forall j c, bs !! j = Some c -> f (off + Z.of_nat j) = c) ->
  exists x ip' m', file_sector (off / BSIZE) ip m = Some (x, ip', m') /\ rsect x m' = Some (get (img m') x) /\
    let m2 := wsect x (splice (Z.to_nat (off - off / BSIZE * BSIZE)) bs (get (img m') x)) m' in let off' := off + Z.of_nat (length bs) in
    st m2 /\ evolves mk_sb off off' f (vimg m) ip (vimg m2) ip' /\ mapped (vimg m2) ip' off' /\
    freeblock m2 = freeblock m + (nblk (off + 1) - nblk off) /\ freeinode m2 = freeinode m.
Proof.
  intros Hs Hwf Ho Hl Hb Hmax Hm Hroom Hf. pose proof (file_block off ltac:(lia)) as Hbn. destruct (block_start off Ho) as [Hb1 Hb2].
  destruct (sector_spec m ip off off f Hs Hwf Ho Hbn Hm Hroom) as (x & ip' & m' & E & Hs' & Hev & Hx & Hx0 & Hq & H12 & Hfb & Hfi).
  set (bn := off / BSIZE) in *. exists x, ip', m'. split; [done|]. pose proof (e_wf _ _ _ _ _ _ _ _ Hev) as Hwf'. destruct (pos_lt bn Hbn) as [Hpp _].
  assert (Hlow : 47 <= x < freeblock m') by (rewrite Hx in *; by apply ptr_low). pose proof (s_range _ Hs') as Hr.
  split; [unfold rsect; by destruct (Z.ltb_spec x FSSIZE); [|lia]|]. set (k := off - bn * BSIZE). cbv zeta. set (m2 := wsect x _ m').
  assert (E2 : vimg m2 = stored k bs (vimg m') x) by (unfold m2, stored; rewrite wsect_vimg by lia; by rewrite get_vimg by lia).
  assert (Hkl : 0 <= k /\ k + Z.of_nat (length bs) <= BSIZE) by (unfold k; lia). destruct Hkl as [Hk0 Hkl].
  assert (Hst : evolves mk_sb (bn * BSIZE + k) (bn * BSIZE + k + Z.of_nat (length bs)) f (vimg m') ip' (vimg m2) ip').
  { rewrite E2. apply (store_evolves mk_sb mk_layout bn k bs (vimg m') ip' x); try done; [by apply vimg_ok|]. intros j c Hj. replace (bn * BSIZE + k) with off by (unfold k; lia). by apply Hf. }
  replace (bn * BSIZE + k) with off in Hst by (unfold k; lia).
  assert (Hptr : forall q, ptr (vimg m2) ip' q = ptr (vimg m') ip' q) by (intros q; rewrite E2; by apply (store_ptr mk_sb bn k bs (vimg m') ip' x)).
  split; [|split; [|split; [|done]]].
  - apply wsect_st; [done | lia|]. rewrite length_splice; [apply Hs'|]. rewrite (s_sized _ Hs'). unfold BSIZE in *. lia.
  - eapply evolves_trans; [|exact Hev | exact Hst]. lia.
  - split.
    + intros b Hbm. rewrite Hptr. destruct (Z.eq_dec b bn) as [->|Hne]; [rewrite <- Hx; lia|]. rewrite Hq by done. rewrite (proj1 Hm b Hbm). unfold BSIZE in *. nia.
    + rewrite H12, (proj2 Hm). unfold NDIRECT, BSIZE in *. lia.
Qed.

Lemma append_loop_turn fuel p off din m : p <> [] -> iappend_loop (S fuel) p off din m =
  let fbn := off / BSIZE in
  if fbn <? MAXFILE then
    '(x, din, m) ← file_sector fbn din m;
    let n1 := Z.to_nat (Z.min (Z.of_nat (length p)) ((fbn + 1) * BSIZE - off)) in
    buf ← rsect x m;
    iappend_loop fuel (drop n1 p) (off + Z.of_nat n1) din (wsect x (splice (Z.to_nat (off - fbn * BSIZE)) (take n1 p) buf) m)
  else None.
Proof. by destruct p. Qed.

Lemma append_loop_spec f : forall fuel (p : list ascii) off ip m, let n := Z.of_nat (length p) in
  st m -> inode_wf mk_sb (vimg m) ip -> 0 <= off -> off + n <= MAXFILE * BSIZE -> mapped (vimg m) ip off -> freeblock m + (nblk (off + n) - nblk off) <= FSSIZE ->
  (length p <= fuel)%nat -> (forall j c, p !! j = Some c -> f (off + Z.of_nat j) = c) ->
  exists ip' m', iappend_loop fuel p off ip m = Some (off + n, ip', m') /\ st m' /\ evolves mk_sb off (off + n) f (vimg m) ip (vimg m') ip' /\
    mapped (vimg m') ip' (off + n) /\ freeblock m' = freeblock m + (nblk (off + n) - nblk off) /\ freeinode m' = freeinode m.
Proof.
  assert (Hnil : forall fuel off ip m, st m -> inode_wf mk_sb (vimg m) ip -> mapped (vimg m) ip off ->
    exists ip' m', iappend_loop fuel [] off ip m = Some (off + 0, ip', m') /\ st m' /\ evolves mk_sb off (off + 0) f (vimg m) ip (vimg m') ip' /\
      mapped (vimg m') ip' (off + 0) /\ freeblock m' = freeblock m + (nblk (off + 0) - nblk off) /\ freeinode m' = freeinode m).
  { intros fuel off ip m Hs Hwf Hm. exists ip, m. rewrite Z.add_0_r. split; [by destruct fuel|]. split; [done|]. split; [by apply evolves_refl; [|apply vimg_ok]|]. split; [done|]. split; [lia | done]. }
  induction fuel as [|fuel IH]; intros p off ip m n Hs Hwf Ho Hmax Hm Hroom Hfuel Hf.
  { destruct p; [|simpl in Hfuel; lia]. by apply Hnil. }
  destruct (decide (p = [])) as [->|Hp]; [by apply Hnil|]. rewrite append_loop_turn by done. cbv zeta.
  assert (Hn : 0 < n) by (unfold n; destruct p; [done | simpl; lia]). destruct (block_start off Ho) as [Hb1 _]. pose proof (file_block off ltac:(lia)) as Hbn.
  destruct (Z.ltb_spec (off / BSIZE) MAXFILE) as [_|]; [|lia]. fold n. set (n1 := Z.to_nat (Z.min n ((off / BSIZE + 1) * BSIZE - off))).
  assert (Hn1 : 0 < Z.of_nat n1 <= n /\ off + Z.of_nat n1 <= (off / BSIZE + 1) * BSIZE) by (unfold n1; lia).
  assert (Ht : length (take n1 p) = n1) by (rewrite length_take; lia).
  pose proof (nblk_mono (off + 1) (off + n) ltac:(lia)) as Hmono.
  destruct (append_piece f m ip off (take n1 p) Hs Hwf Ho) as (x & ip1 & m1 & E1 & Er & Hs2 & Hev & Hm2 & Hfb2 & Hfi2); [lia | lia | lia | done | lia | |].
  { intros j c Hj. apply lookup_take_Some in Hj as [Hj _]. by apply Hf. }
  rewrite E1. cbn [mbind option_bind]. rewrite Er. cbn [mbind option_bind]. set (m2 := wsect x _ m1) in *. rewrite Ht in *.
  assert (Enb : nblk (off + Z.of_nat n1) = nblk (off + 1)) by (apply nblk_block; lia).
  assert (Hd : Z.of_nat (length (drop n1 p)) = n - Z.of_nat n1) by (rewrite length_drop; lia).
  destruct (IH (drop n1 p) (off + Z.of_nat n1) ip1 m2 Hs2) as (ip' & m' & E & Hs' & Hev' & Hm' & Hfb' & Hfi'); try done; try lia; [apply Hev | rewrite Hd, Hfb2, Enb; replace (off + Z.of_nat n1 + (n - Z.of_nat n1)) with (off + n) by lia; lia | |].
  { intros j c Hj. rewrite lookup_drop in Hj. rewrite <- (Hf _ _ Hj). f_equal. lia. }
  rewrite Hd in *. replace (off + Z.of_nat n1 + (n - Z.of_nat n1)) with (off + n) in * by lia. exists ip', m'. split; [done|]. split; [done|].
  split; [eapply evolves_trans; [|exact Hev | exact Hev']; lia|]. split; [done|]. split; [rewrite Hfb', Hfb2, Enb; lia | congruence].
Qed.

(** ** The files of the image *)
Definition ino (m : mkstate) (i : Z) : inode := load_dinode (dinode_at mk_sb i (img m)) (no_inode i).

Lemma IBLOCK_range i : 0 < i < NINODES -> 33 <= IBLOCK mk_sb i < 46.
Proof.
  intros Hi. unfold IBLOCK, IPB, BSIZE, NINODES in *. change (1024 / 64) with 16. change (inodestart mk_sb) with 33.
  pose proof (Z.div_pos i 16 ltac:(lia) ltac:(lia)). pose proof (Z.div_lt_upper_bound i 16 13 ltac:(lia) ltac:(lia)). lia.
Qed.

Lemma rinode_ino i m : 0 < i < NINODES -> rinode i m = Some (ino m i).
Proof. intros Hi. pose proof (IBLOCK_range i Hi). unfold rinode, rsect. destruct (Z.ltb_spec (IBLOCK mk_sb i) FSSIZE); [done | unfold FSSIZE in *; lia]. Qed.

(** The fields [load_dinode] does not set. *)
Definition plain (i : Z) (ip : inode) : Prop := dev ip = 1 /\ inum ip = i /\ iref ip = 1 /\ locked ip = true /\ valid ip = true.

Definition update (ip : inode) (m : mkstate) : mkstate := set_img (iupdate mk_sb ip (img m)) m.

Lemma winode_update i ip m : 0 < i < NINODES -> inum ip = i -> winode i ip m = Some (update ip m).
Proof.
  intros Hi <-. pose proof (IBLOCK_range _ Hi). unfold winode, rsect. by destruct (Z.ltb_spec (IBLOCK mk_sb (inum ip)) FSSIZE); [|unfold FSSIZE in *; lia].
Qed.

Lemma vimg_update ip m : 0 < inum ip < NINODES -> vimg (update ip m) = iupdate mk_sb ip (vimg m).
Proof.
  intros Hi. pose proof (IBLOCK_range _ Hi). unfold vimg, update, iupdate, set_img. simpl. rewrite get_store. destruct (Z.eqb_spec (IBLOCK mk_sb (inum ip)) 46); [lia|].
  unfold put. apply insert_insert_ne. lia.
Qed.

Lemma update_st ip m : st m -> 0 < inum ip < NINODES -> length (addrs ip) = 13%nat -> st (update ip m).
Proof.
  intros Hs Hi Hl. pose proof (IBLOCK_range _ Hi). pose proof (s_range _ Hs). split; simpl; [done | by apply sized_iupdate; [apply Hs|]|].
  intros b Hb. rewrite get_iupdate by lia. by apply (s_fresh _ Hs).
Qed.

Lemma ino_update ip m i : st m -> fields_ok ip -> plain (inum ip) ip -> ino (update ip m) i = if i =? inum ip then ip else ino m i.
Proof.
  intros Hs Hf (P1 & _ & P3 & P4 & P5). unfold ino, update. simpl. rewrite dinode_iupdate by (apply Hs || apply Hf). destruct (Z.eqb_spec i (inum ip)) as [->|]; [|done].
  rewrite load_dinode_bytes by done. destruct ip; simpl in *. by subst.
Qed.

(** The inode area lies outside of what a file grows into. *)
Lemma ino_evolves lo hi f m ip m' ip' i : evolves mk_sb lo hi f (vimg m) ip (vimg m') ip' -> 0 < i < NINODES -> ino m' i = ino m i.
Proof.
  intros Hev Hi. pose proof (IBLOCK_range i Hi) as Hr. unfold ino, dinode_at. do 2 f_equal.
  rewrite <- !get_vimg by lia. apply (e_inodes _ _ _ _ _ _ _ _ Hev). change (0 < IBLOCK mk_sb i < 46). lia.
Qed.

(** Inode [i] is a file of type [t] with the content [c]. *)
Record holds (m : mkstate) (i t : Z) (c : list ascii) : Prop := mkHolds {
  h_wf : inode_wf mk_sb (vimg m) (ino m i);
  h_mapped : mapped (vimg m) (ino m i) (Z.of_nat (length c));
  h_size : isize (ino m i) = Z.of_nat (length c);
  h_fields : itype (ino m i) = t /\ imajor (ino m i) = 0 /\ iminor (ino m i) = 0 /\ nlink (ino m i) = 1;
  h_bytes : forall o, 0 <= o < MAXFILE * BSIZE -> fbyte (vimg m) (ino m i) o = default NUL (c !! Z.to_nat o);
  h_max : Z.of_nat (length c) <= MAXFILE * BSIZE
}.

Definition blocks (C : list (Z * list ascii)) : Z := foldr (fun x n => nblk (Z.of_nat (length x.2)) + n) 0 C.

(** The [k]-th of [C] is the type and the content of inode [k + 1]. *)
Record all_files (m : mkstate) (C : list (Z * list ascii)) : Prop := mkAll {
  a_st : st m;
  a_num : freeinode m = Z.of_nat (length C) + 1;
  a_few : Z.of_nat (length C) < NINODES;
  a_types : Forall (fun x => x.1 = T_DIR \/ x.1 = T_FILE) C;
  a_files : forall k t c, C !! k = Some (t, c) -> holds m (Z.of_nat k + 1) t c;
  a_disj : forall j k, (j < length C)%nat -> (k < length C)%nat -> j <> k -> disjoint (vimg m) (ino m (Z.of_nat j + 1)) (ino m (Z.of_nat k + 1));
  a_blocks : freeblock m = 47 + blocks C;
  a_super : get (img m) 1 = superblock_bytes mk_sb
}.

(** A file whose blocks are kept keeps its content. *)
Lemma holds_keeps m m' i t c : keeps (vimg m) (vimg m') (ino m i) -> inode_wf mk_sb (vimg m') (ino m i) -> ino m' i = ino m i -> holds m i t c -> holds m' i t c.
Proof.
  intros K W E [H1 [H2 H2'] H3 H4 H5 H6]. split; rewrite ?E; try done.
  - split; [|done]. intros bn Hbn. rewrite (proj1 K) by (by apply pos_lt). by apply H2.
  - intros o Ho. rewrite (keeps_fbyte (vimg m)) by done. by apply H5.
Qed.

Lemma disjoint_keeps m m' ip jp : keeps (vimg m) (vimg m') ip -> keeps (vimg m) (vimg m') jp -> disjoint (vimg m) ip jp -> disjoint (vimg m') ip jp.
Proof. intros [K1 _] [K2 _] H p q Hp Hq. rewrite K1, K2 by done. by apply H. Qed.

Lemma blocks_insert C k t c c' : C !! k = Some (t, c) -> blocks (<[k := (t, c')]> C) = blocks C + (nblk (Z.of_nat (length c')) - nblk (Z.of_nat (length c))).
Proof.
  revert k. induction C as [|x C IH]; intros [|k] H; simpl in *; try done; [injection H as ->; simpl; lia|]. rewrite (IH k H). lia.
Qed.

Lemma fbyte_set_size d n ip o : fbyte d (set_size n ip) o = fbyte d ip o.
Proof. done. Qed.

Section Append.
Context (m : mkstate) (C : list (Z * list ascii)) (k : nat) (t : Z) (c p : list ascii).
Context (Ha : all_files m C) (Hk : C !! k = Some (t, c)) (Hmax : Z.of_nat (length (c ++ p)) <= MAXFILE * BSIZE).
Context (Hroom : freeblock m + (nblk (Z.of_nat (length (c ++ p))) - nblk (Z.of_nat (length c))) <= FSSIZE).
Let i : Z := Z.of_nat k + 1.
Let off : Z := Z.of_nat (length c).
Let f : Z -> ascii := fun o => default NUL ((c ++ p) !! Z.to_nat o).

Lemma append_inum j : (j < length C)%nat -> 0 < Z.of_nat j + 1 < NINODES.
Proof. intros Hj. pose proof (a_few _ _ Ha). lia. Qed.

Lemma append_in : (k < length C)%nat.
Proof. by eapply lookup_lt_Some. Qed.

(** What the loop leaves: [ip1] is not yet on the disk. *)
Definition appended (ip1 : inode) (m1 : mkstate) : Prop :=
  st m1 /\ evolves mk_sb off (off + Z.of_nat (length p)) f (vimg m) (ino m i) (vimg m1) ip1 /\ mapped (vimg m1) ip1 (off + Z.of_nat (length p)) /\
  freeblock m1 = freeblock m + (nblk (off + Z.of_nat (length p)) - nblk off) /\ freeinode m1 = freeinode m.

Lemma append_total : Z.of_nat (length (c ++ p)) = off + Z.of_nat (length p).
Proof. rewrite length_app. unfold off. lia. Qed.

Lemma append_bytes ip1 m1 : appended ip1 m1 -> forall o, 0 <= o < MAXFILE * BSIZE -> fbyte (vimg m1) ip1 o = default NUL ((c ++ p) !! Z.to_nat o).
Proof.
  intros (_ & Hev & _) o Ho. pose proof (h_bytes _ _ _ _ (a_files _ _ Ha k t c Hk) o Ho) as Hb. fold i in Hb. rewrite (e_byte _ _ _ _ _ _ _ _ Hev o Ho), Hb. unfold f, off.
  destruct (Z.leb_spec (Z.of_nat (length c)) o), (Z.ltb_spec o (Z.of_nat (length c) + Z.of_nat (length p))); simpl; try done.
  - rewrite lookup_app_r by lia. rewrite !lookup_ge_None_2 by lia. done.
  - by rewrite lookup_app_l by lia.
  - by rewrite lookup_app_l by lia.
Qed.

Lemma append_other ip1 m1 j : appended ip1 m1 -> (j < length C)%nat -> j <> k -> let jp := ino m (Z.of_nat j + 1) in
  keeps (vimg m) (vimg m1) jp /\ inode_wf mk_sb (vimg m1) jp /\ disjoint (vimg m1) ip1 jp.
Proof.
  intros (_ & Hev & _) Hj Hne jp. apply (e_frame _ _ _ _ _ _ _ _ Hev).
  - destruct (lookup_lt_is_Some_2 C j Hj) as [[t' c'] Hc']. apply (a_files _ _ Ha j t' c' Hc').
  - apply (a_disj _ _ Ha); [apply append_in | done | congruence].
Qed.

Lemma append_inode ip1 m1 : appended ip1 m1 -> let ip2 := set_size (off + Z.of_nat (length p)) ip1 in
  fields_ok ip2 /\ plain i ip2 /\ inode_wf mk_sb (vimg m1) ip2 /\ itype ip2 = t /\ imajor ip2 = 0 /\ iminor ip2 = 0 /\ nlink ip2 = 1.
Proof.
  intros (Hs & Hev & _) ip2. pose proof (a_files _ _ Ha k t c Hk) as Hh. fold i in Hh. pose proof (e_ip _ _ _ _ _ _ _ _ Hev) as Eip.
  destruct (h_fields _ _ _ _ Hh) as (F1 & F2 & F3 & F4). assert (Hwf : inode_wf mk_sb (vimg m1) ip2) by (apply wf_set_size, Hev).
  assert (E : itype ip2 = t /\ imajor ip2 = 0 /\ iminor ip2 = 0 /\ nlink ip2 = 1) by (unfold ip2; rewrite Eip; simpl; done). destruct E as (E1 & E2 & E3 & E4).
  split; [|split; [|done]].
  - apply (wf_fields mk_sb mk_layout (vimg m1)); [done | | unfold ip2; simpl; rewrite <- append_total; lia].
    rewrite E1, E2, E3, E4. pose proof (a_types _ _ Ha) as Ht. rewrite Forall_forall in Ht. specialize (Ht (t, c) ltac:(by eapply list_elem_of_lookup_2)). simpl in Ht.
    repeat constructor; destruct Ht as [-> | ->]; vm_compute; congruence || done.
  - unfold plain, ip2. rewrite Eip. done.
Qed.

Lemma all_appended ip1 m1 : appended ip1 m1 -> all_files (update (set_size (off + Z.of_nat (length p)) ip1) m1) (<[k := (t, c ++ p)]> C).
Proof.
  intros Hap. pose proof Hap as (Hs & Hev & Hm & Hfb & Hfi). destruct (append_inode ip1 m1 Hap) as (Hf2 & Hpl & Hwf2 & E1 & E2 & E3 & E4). set (ip2 := set_size _ ip1) in *.
  pose proof (append_inum k append_in) as Hin. fold i in Hin. assert (Ei : inum ip2 = i) by apply Hpl. assert (Hin2 : 0 < inum ip2 < NINODES) by lia.
  set (m2 := update ip2 m1). pose proof (vimg_update ip2 m1 Hin2) as Ev. fold m2 in Ev. pose proof (wf_len _ _ _ Hwf2) as Hlen.
  assert (Hup : forall jp, inode_wf mk_sb (vimg m1) jp -> keeps (vimg m1) (vimg m2) jp /\ inode_wf mk_sb (vimg m2) jp).
  { intros jp Hj. rewrite Ev. split; [apply (update_keeps mk_sb mk_layout) | apply (update_wf mk_sb mk_layout)]; done. }
  assert (Eino : forall j, 0 < j < NINODES -> ino m2 j = if j =? i then ip2 else ino m j).
  { intros j Hj. unfold m2. rewrite ino_update by (done || rewrite Ei; done). rewrite Ei. destruct (j =? i); [done|]. by eapply ino_evolves. }
  assert (Eother : forall j, (j < length C)%nat -> j <> k -> ino m2 (Z.of_nat j + 1) = ino m (Z.of_nat j + 1)).
  { intros j Hj Hne. rewrite Eino by (by apply append_inum). destruct (Z.eqb_spec (Z.of_nat j + 1) i) as [E|]; [unfold i in E; lia | done]. }
  assert (Ek : ino m2 i = ip2) by (rewrite Eino by done; by rewrite Z.eqb_refl).
  assert (Hkeep : forall j, (j < length C)%nat -> j <> k -> keeps (vimg m) (vimg m2) (ino m (Z.of_nat j + 1)) /\ inode_wf mk_sb (vimg m2) (ino m (Z.of_nat j + 1))).
  { intros j Hj Hne. destruct (append_other ip1 m1 j Hap Hj Hne) as (K1 & W1 & _). destruct (Hup _ W1) as [K2 W2]. split; [by eapply file_keeps_trans | done]. }
  assert (Hdk : forall j, (j < length C)%nat -> j <> k -> disjoint (vimg m2) ip2 (ino m (Z.of_nat j + 1))).
  { intros j Hj Hne. destruct (append_other ip1 m1 j Hap Hj Hne) as (_ & W1 & D1). rewrite Ev. apply (update_disjoint mk_sb mk_layout); done. }
  split.
  - unfold m2. by apply update_st.
  - simpl. rewrite length_insert, Hfi. apply Ha.
  - rewrite length_insert. apply Ha.
  - pose proof (a_types _ _ Ha) as Ht. apply Forall_insert; [done|]. rewrite Forall_forall in Ht. apply (Ht (t, c)). by eapply list_elem_of_lookup_2.
  - intros j t' c' Hj. destruct (decide (j = k)) as [->|Hne].
    + rewrite list_lookup_insert_eq in Hj by apply append_in. injection Hj as <- <-. destruct (Hup ip2 Hwf2) as [K2 W2]. split; fold i; rewrite ?Ek; try done.
      * rewrite append_total. split; [|apply Hm]. intros bn Hbn. rewrite (proj1 K2) by (by apply pos_lt). apply (proj1 Hm bn Hbn).
      * by rewrite append_total.
      * intros o Ho. rewrite (keeps_fbyte (vimg m1)) by done. unfold ip2. rewrite fbyte_set_size. by apply (append_bytes ip1 m1).
    + rewrite list_lookup_insert_ne in Hj by done. pose proof (lookup_lt_Some _ _ _ Hj) as Hlt. destruct (Hkeep j Hlt Hne).
      apply (holds_keeps m); [done | done | by apply Eother | by apply (a_files _ _ Ha)].
  - intros j l. rewrite !length_insert. intros Hj Hl Hne. destruct (decide (j = k)) as [->|Hjk]; [|destruct (decide (l = k)) as [->|Hlk]].
    + fold i. rewrite Ek, Eother by congruence. apply Hdk; [done | congruence].
    + fold i. rewrite Ek, Eother by congruence. intros q r Hq Hr E. pose proof (Hdk j Hj Hjk r q Hr Hq) as H0. rewrite <- E in H0. auto.
    + rewrite !Eother by congruence. apply (disjoint_keeps m); [by apply Hkeep | by apply Hkeep | by apply (a_disj _ _ Ha)].
  - simpl. rewrite (blocks_insert C k t c) by done. rewrite Hfb, (a_blocks _ _ Ha), append_total. unfold off. lia.
  - unfold m2, update. simpl. pose proof (IBLOCK_range _ Hin2). rewrite get_iupdate by lia. rewrite <- get_vimg by lia. rewrite (e_inodes _ _ _ _ _ _ _ _ Hev) by (vm_compute; split; congruence || done).
    rewrite get_vimg by lia. apply Ha.
Qed.

Lemma iappend_spec : exists m', iappend i p m = Some m' /\ all_files m' (<[k := (t, c ++ p)]> C).
Proof.
  pose proof (a_files _ _ Ha k t c Hk) as Hh. fold i in Hh. pose proof (append_inum k append_in) as Hin. fold i in Hin.
  destruct (append_loop_spec f (length p) p off (ino m i) m) as (ip1 & m1 & E & Hs & Hev & Hm & Hfb & Hfi); try done.
  - apply Ha.
  - apply Hh.
  - unfold off. lia.
  - by rewrite <- append_total.
  - apply Hh.
  - by rewrite <- append_total.
  - intros j a Hj. unfold f, off. rewrite lookup_app_r by lia. replace (Z.to_nat (Z.of_nat (length c) + Z.of_nat j) - length c)%nat with j by lia. by rewrite Hj.
  - exists (update (set_size (off + Z.of_nat (length p)) ip1) m1). assert (Hap : appended ip1 m1) by done. split; [|by apply all_appended].
    unfold iappend. rewrite rinode_ino by done. cbn [mbind option_bind]. rewrite (h_size _ _ _ _ Hh). fold off. rewrite E. cbn [mbind option_bind]. apply winode_update; [done|].
    by destruct (append_inode ip1 m1 Hap) as (_ & (_ & ? & _) & _).
Qed.
End Append.

(** ** A new inode *)
Lemma new_inode_ok i t : t = T_DIR \/ t = T_FILE -> fields_ok (new_inode i t) /\ plain i (new_inode i t).
Proof.
  intros Ht. split; [|done]. split; [done | | split; done |].
  - apply Forall_replicate. split; done.
  - simpl. repeat constructor; destruct Ht as [-> | ->]; vm_compute; congruence || done.
Qed.

Lemma holds_new m i t : ino m i = new_inode i t -> holds m i t [].
Proof.
  intros E. split; rewrite ?E; try done.
  - by apply wf_empty.
  - split; [|done]. intros bn Hbn. rewrite ptr_empty by done. simpl. unfold BSIZE. lia.
  - intros o Ho. unfold fbyte. rewrite ptr_empty by done. done.
Qed.

Lemma disjoint_new d ip jp : addrs ip = replicate 13 0 -> disjoint d ip jp /\ disjoint d jp ip.
Proof. intros E. split; intros p q Hp Hq; rewrite ?(ptr_empty d ip) by done; auto. Qed.

Lemma ialloc_spec m C t : all_files m C -> Z.of_nat (length C) + 1 < NINODES -> t = T_DIR \/ t = T_FILE ->
  exists m', mk_ialloc t m = Some (Z.of_nat (length C) + 1, m') /\ all_files m' (C ++ [(t, [])]).
Proof.
  intros Ha Hfew Ht. pose proof (a_num _ _ Ha) as En. set (i := Z.of_nat (length C) + 1) in *. destruct (new_inode_ok i t Ht) as [Hf Hpl].
  set (m0 := mkMk (img m) (freeinode m + 1) (freeblock m)). exists (update (new_inode i t) m0). unfold mk_ialloc. rewrite En. fold i. fold m0. split.
  { rewrite winode_update by (done || lia). unfold m0. by rewrite En. }
  assert (Hs0 : st m0) by (destruct (a_st _ _ Ha) as [? ? ?]; by split). assert (Ev0 : vimg m0 = vimg m) by done.
  assert (Hin : 0 < inum (new_inode i t) < NINODES) by (simpl; lia). set (m2 := update (new_inode i t) m0). pose proof (vimg_update _ m0 Hin) as Ev. fold m2 in Ev. rewrite Ev0 in Ev.
  assert (Eino : forall j, ino m2 j = if j =? i then new_inode i t else ino m j) by (intros j; unfold m2; by rewrite ino_update).
  assert (Eold : forall j, (j < length C)%nat -> ino m2 (Z.of_nat j + 1) = ino m (Z.of_nat j + 1)) by (intros j Hj; rewrite Eino; destruct (Z.eqb_spec (Z.of_nat j + 1) i); [lia | done]).
  assert (Enew : ino m2 i = new_inode i t) by (rewrite Eino; by rewrite Z.eqb_refl).
  assert (Hkeep : forall j, (j < length C)%nat -> keeps (vimg m) (vimg m2) (ino m (Z.of_nat j + 1)) /\ inode_wf mk_sb (vimg m2) (ino m (Z.of_nat j + 1))).
  { intros j Hj. destruct (lookup_lt_is_Some_2 C j Hj) as [[t' c'] Hc']. pose proof (h_wf _ _ _ _ (a_files _ _ Ha j t' c' Hc')) as W. rewrite Ev.
    split; [apply (update_keeps mk_sb mk_layout) | apply (update_wf mk_sb mk_layout)]; done. }
  split.
  - by apply update_st.
  - simpl. rewrite En, length_app. simpl. lia.
  - rewrite length_app. simpl. lia.
  - apply Forall_app. split; [apply Ha|]. apply Forall_singleton. done.
  - intros k t' c' Hk. apply lookup_app_Some in Hk as [Hk|[Hle Hk]].
    + pose proof (lookup_lt_Some _ _ _ Hk) as Hlt. destruct (Hkeep k Hlt). apply (holds_keeps m); [done | done | by apply Eold | by apply (a_files _ _ Ha)].
    + assert (k = length C) as -> by (apply lookup_lt_Some in Hk; simpl in Hk; lia). rewrite Nat.sub_diag in Hk. simpl in Hk. injection Hk as <- <-. by apply holds_new.
  - intros j k Hj Hk Hne. rewrite length_app in Hj, Hk. simpl in Hj, Hk. destruct (decide (j = length C)) as [->|Hj']; [|destruct (decide (k = length C)) as [->|Hk']].
    + fold i. rewrite Enew. exact (proj1 (disjoint_new _ (new_inode i t) _ eq_refl)).
    + fold i. rewrite Enew. exact (proj2 (disjoint_new _ (new_inode i t) _ eq_refl)).
    + rewrite !Eold by lia. apply (disjoint_keeps m); [apply Hkeep; lia | apply Hkeep; lia | apply (a_disj _ _ Ha); lia].
  - simpl. rewrite (a_blocks _ _ Ha). unfold blocks. rewrite foldr_app. done.
  - simpl. pose proof (IBLOCK_range _ Hin). rewrite get_iupdate by lia. apply Ha.
Qed.

Lemma zeroes_written l : forall m, (forall b, get (img m) b = zeroes) -> let m' := foldl (fun m i => wsect (Z.of_nat i) zeroes m) m l in
  (forall b, get (img m') b = zeroes) /\ freeinode m' = freeinode m /\ freeblock m' = freeblock m.
Proof.
  induction l as [|x l IH]; intros m Hm; [done|]. apply (IH (wsect (Z.of_nat x) zeroes m)). intros b. unfold wsect. simpl. rewrite get_store. by destruct (b =? Z.of_nat x).
Qed.

Lemma blank_spec : all_files blank [].
Proof.
  destruct (zeroes_written (seq 0 (Z.to_nat FSSIZE)) (mkMk ∅ 1 nmeta)) as (Hz & Hfi & Hfb); [done|]. fold zero_image in Hz, Hfi, Hfb. unfold blank. revert Hz Hfi Hfb.
  generalize zero_image. intros m0 Hz Hfi Hfb. assert (El : length (superblock_bytes mk_sb) = Z.to_nat BSIZE) by (vm_compute; reflexivity). split.
  - split.
    + change (freeblock (wsect 1 (superblock_bytes mk_sb) m0)) with (freeblock m0). rewrite Hfb. vm_compute. split; congruence.
    + apply sized_put; [|done]. intros b. by rewrite Hz.
    + intros b Hb. unfold wsect, set_img. cbn [img]. rewrite get_store. destruct (Z.eqb_spec b 1) as [->|]; [|apply Hz].
      change (freeblock (wsect 1 (superblock_bytes mk_sb) m0)) with (freeblock m0) in Hb. rewrite Hfb in Hb. change (freeblock {| img := ∅; freeinode := 1; freeblock := nmeta |}) with 47 in Hb. lia.
  - exact Hfi.
  - done.
  - constructor.
  - done.
  - intros j k Hj. simpl in Hj. lia.
  - exact Hfb.
  - unfold wsect, set_img. cbn [img]. rewrite get_store. reflexivity.
Qed.

(** ** The whole program *)
Lemma nblk_nonneg n : 0 <= n -> 0 <= nblk n.
Proof. intros Hn. unfold nblk. pose proof (Z.div_pos (n + 1023) 1024 ltac:(lia) ltac:(lia)). destruct (NDIRECT * BSIZE <? n); lia. Qed.

Lemma blocks_app C D : blocks (C ++ D) = blocks C + blocks D.
Proof. induction C as [|x C IH]; [done|]. simpl. rewrite IH. lia. Qed.

Lemma blocks_nonneg C : 0 <= blocks C.
Proof. induction C as [|x C IH]; [done|]. simpl. pose proof (nblk_nonneg (Z.of_nat (length x.2)) ltac:(lia)). lia. Qed.

Lemma append_all_spec ps : forall m C k t c, all_files m C -> C !! k = Some (t, c) -> Z.of_nat (length (c ++ concat ps)) <= MAXFILE * BSIZE ->
  47 + blocks (<[k := (t, c ++ concat ps)]> C) <= FSSIZE ->
  exists m', append_all (Z.of_nat k + 1) ps m = Some m' /\ all_files m' (<[k := (t, c ++ concat ps)]> C).
Proof.
  induction ps as [|p ps IH]; intros m C k t c Ha Hk Hmax Hroom; simpl in *.
  - exists m. rewrite app_nil_r, list_insert_id by done. done.
  - rewrite app_assoc in *. assert (Hlen : Z.of_nat (length (c ++ p)) <= Z.of_nat (length ((c ++ p) ++ concat ps))) by (rewrite !length_app; lia).
    rewrite (blocks_insert C k t c) in Hroom by done. pose proof (nblk_mono _ _ Hlen). pose proof (a_blocks _ _ Ha) as Eb.
    destruct (iappend_spec m C k t c p Ha Hk) as (m1 & -> & Ha1); [lia | lia|]. cbn [mbind option_bind].
    assert (Hk1 : <[k := (t, c ++ p)]> C !! k = Some (t, c ++ p)) by (apply list_lookup_insert_eq; by eapply lookup_lt_Some).
    destruct (IH m1 _ k t (c ++ p) Ha1 Hk1) as (m2 & E & Ha2); [done | |].
    + rewrite list_insert_insert_eq, (blocks_insert C k t c) by done. lia.
    + exists m2. rewrite list_insert_insert_eq in Ha2. done.
Qed.

Lemma length_dirent i name : length (dirent i (strncpy DIRSIZ name)) = 16%nat.
Proof. unfold dirent. rewrite length_app, length_unle, length_strncpy. done. Qed.

Lemma add_entry_spec i name m r D : all_files m ((T_DIR, r) :: D) -> Z.of_nat (length r) + 16 <= MAXFILE * BSIZE ->
  let r' := r ++ dirent i (strncpy DIRSIZ name) in 47 + blocks ((T_DIR, r') :: D) <= FSSIZE ->
  exists m', add_entry i name m = Some m' /\ all_files m' ((T_DIR, r') :: D).
Proof.
  intros Ha Hmax r' Hroom. pose proof (a_blocks _ _ Ha) as Eb. simpl in Hroom, Eb.
  destruct (iappend_spec m ((T_DIR, r) :: D) 0 T_DIR r (dirent i (strncpy DIRSIZ name)) Ha eq_refl) as (m' & E & Ha').
  - rewrite length_app, length_dirent. lia.
  - fold r'. lia.
  - by exists m'.
Qed.

Definition files_of (fs : list hostfile) : list (Z * list ascii) := (fun f => (T_FILE, concat f.2)) <$> fs.
Fixpoint entry_list (i : Z) (names : list cstr) : list (list ascii) :=
  match names with [] => [] | n :: ns => dirent i (strncpy DIRSIZ n) :: entry_list (i + 1) ns end.
Definition entries (i : Z) (names : list cstr) : list ascii := concat (entry_list i names).

Lemma length_entries names : forall i, length (entries i names) = (16 * length names)%nat.
Proof. induction names as [|n ns IH]; intros i; [done|]. unfold entries in *. cbn [entry_list concat length]. rewrite length_app, length_dirent, IH. lia. Qed.

Lemma mk_file_spec f name m r D : short_name f.1 = Some name -> all_files m ((T_DIR, r) :: D) -> Z.of_nat (length D) + 2 < NINODES ->
  let r' := r ++ dirent (Z.of_nat (length D) + 2) (strncpy DIRSIZ name) in
  Z.of_nat (length r') <= MAXFILE * BSIZE -> Z.of_nat (length (concat f.2)) <= MAXFILE * BSIZE -> 47 + blocks ((T_DIR, r') :: D ++ [(T_FILE, concat f.2)]) <= FSSIZE ->
  exists m', mk_file f m = Some m' /\ all_files m' ((T_DIR, r') :: D ++ [(T_FILE, concat f.2)]).
Proof.
  intros En Ha Hfew r' Hr Hc Hroom. unfold mk_file. rewrite En. cbn [mbind option_bind].
  destruct (ialloc_spec m _ T_FILE Ha) as (m1 & E1 & Ha1); [simpl; lia | by right|]. rewrite E1. cbn [mbind option_bind].
  replace (Z.of_nat (length ((T_DIR, r) :: D)) + 1) with (Z.of_nat (length D) + 2) by (simpl; lia). cbn [app] in Ha1.
  assert (Hlr : length r' = (length r + 16)%nat) by (unfold r'; by rewrite length_app, length_dirent).
  pose proof Hroom as Hroom0. rewrite app_comm_cons, blocks_app in Hroom. simpl in Hroom. pose proof (nblk_nonneg (Z.of_nat (length (concat f.2))) ltac:(lia)) as Hnn.
  destruct (add_entry_spec (Z.of_nat (length D) + 2) name m1 r _ Ha1) as (m2 & E2 & Ha2); [lia | fold r'; rewrite app_comm_cons, blocks_app; simpl; change (nblk (Z.of_nat 0)) with 0; lia|].
  rewrite E2. cbn [mbind option_bind]. fold r' in Ha2.
  assert (Hk : ((T_DIR, r') :: D ++ [(T_FILE, [])]) !! S (length D) = Some (T_FILE, [])) by (simpl; by rewrite lookup_app_r, Nat.sub_diag by lia).
  assert (Ei : <[S (length D) := (T_FILE, [] ++ concat f.2)]> ((T_DIR, r') :: D ++ [(T_FILE, [])]) = (T_DIR, r') :: D ++ [(T_FILE, concat f.2)]).
  { simpl. f_equal. rewrite insert_app_r_alt, Nat.sub_diag by lia. done. }
  destruct (append_all_spec f.2 m2 _ (S (length D)) T_FILE [] Ha2 Hk) as (m3 & E3 & Ha3); [done | rewrite Ei; exact Hroom0|].
  rewrite Ei in Ha3. exists m3. split; [|done]. rewrite <- E3. f_equal. lia.
Qed.

Lemma add_files_spec fs : forall names m r D, Forall2 (fun f n => short_name f.1 = Some n) fs names -> all_files m ((T_DIR, r) :: D) -> Z.of_nat (length D + length fs) + 1 < NINODES ->
  let C := (T_DIR, r ++ entries (Z.of_nat (length D) + 2) names) :: D ++ files_of fs in
  Forall (fun x => Z.of_nat (length x.2) <= MAXFILE * BSIZE) C -> 47 + blocks C <= FSSIZE ->
  exists m', add_files fs m = Some m' /\ all_files m' C.
Proof.
  induction fs as [|f fs IH]; intros names m r D Hn Ha Hfew C HC Hroom.
  - apply Forall2_nil_inv_l in Hn as ->. unfold C. simpl. rewrite !app_nil_r. by exists m.
  - apply Forall2_cons_inv_l in Hn as (n & ns & En & Hn & ->). simpl in Hfew. unfold C in *. unfold entries in *. cbn [entry_list concat files_of fmap list_fmap] in *. fold (files_of fs) in *.
    change (concat (entry_list ?i ?l)) with (entries i l) in *.
    set (r' := r ++ dirent (Z.of_nat (length D) + 2) (strncpy DIRSIZ n)) in *.
    assert (EC : (T_DIR, r ++ dirent (Z.of_nat (length D) + 2) (strncpy DIRSIZ n) ++ entries (Z.of_nat (length D) + 2 + 1) ns) :: D ++ (T_FILE, concat f.2) :: files_of fs =
      (T_DIR, r' ++ entries (Z.of_nat (length (D ++ [(T_FILE, concat f.2)])) + 2) ns) :: (D ++ [(T_FILE, concat f.2)]) ++ files_of fs).
    { unfold r'. rewrite <- !app_assoc. cbn [app]. rewrite length_app. cbn [length]. do 4 f_equal. f_equal. lia. }
    rewrite EC in *. pose proof HC as HC0. apply Forall_cons in HC0 as [H1 H2]. cbn [snd] in H1. apply Forall_app in H2 as [H2 _]. apply Forall_app in H2 as [_ H2]. apply Forall_cons in H2 as [H2 _]. cbn [snd] in H2.
    assert (Hmono : blocks ((T_DIR, r') :: D ++ [(T_FILE, concat f.2)]) <= blocks ((T_DIR, r' ++ entries (Z.of_nat (length (D ++ [(T_FILE, concat f.2)])) + 2) ns) :: (D ++ [(T_FILE, concat f.2)]) ++ files_of fs)).
    { rewrite !(app_comm_cons _ (files_of fs)), blocks_app. simpl. pose proof (blocks_nonneg (files_of fs)).
      pose proof (nblk_mono (Z.of_nat (length r')) (Z.of_nat (length (r' ++ entries (Z.of_nat (length (D ++ [(T_FILE, concat f.2)])) + 2) ns))) ltac:(rewrite length_app; lia)). lia. }
    destruct (mk_file_spec f n m r D En Ha) as (m1 & E1 & Ha1); [lia | fold r'; rewrite length_app in H1; lia | done | fold r'; lia|].
    cbn [add_files]. rewrite E1. cbn [mbind option_bind]. fold r' in Ha1. apply (IH ns m1 r' (D ++ [(T_FILE, concat f.2)])); try done. rewrite length_app. simpl. lia.
Qed.

(** *** The root directory *)
Definition dots : list (list ascii) := [dirent ROOTINO (strncpy DIRSIZ (str ".")); dirent ROOTINO (strncpy DIRSIZ (str ".."))].
Definition root_list (names : list cstr) : list (list ascii) := dots ++ entry_list 2 names.

Lemma concat16 (l : list (list ascii)) : Forall (fun x => length x = 16%nat) l -> forall k (x : list ascii) j, l !! k = Some x -> (j < 16)%nat -> concat l !! (16 * k + j)%nat = x !! j.
Proof.
  induction 1 as [|y l Hy Hl IH]; intros k x j Hk Hj; [done|]. cbn [concat]. destruct k as [|k]; simpl in Hk.
  - injection Hk as ->. rewrite lookup_app_l by lia. f_equal.
  - rewrite lookup_app_r by lia. replace (16 * S k + j - length y)%nat with (16 * k + j)%nat by lia. by apply IH.
Qed.

Lemma entry_list_lookup names : forall i k, entry_list i names !! k = (fun n => dirent (i + Z.of_nat k) (strncpy DIRSIZ n)) <$> names !! k.
Proof.
  induction names as [|n ns IH]; intros i [|k]; try done; simpl; [by rewrite Z.add_0_r|]. rewrite IH. destruct (ns !! k); [|done]. simpl. do 2 f_equal. lia.
Qed.

Lemma length_entry_list names i : length (entry_list i names) = length names.
Proof. revert i. induction names as [|n ns IH]; intros i; [done|]. simpl. by rewrite IH. Qed.

Lemma root_list_16 names : Forall (fun x => length x = 16%nat) (root_list names).
Proof.
  apply Forall_app. split; [repeat constructor|]. apply Forall_forall. intros x Hx. apply list_elem_of_lookup in Hx as [k Hk]. rewrite entry_list_lookup in Hk.
  destruct (names !! k); [|done]. injection Hk as <-. apply length_dirent.
Qed.

Lemma length_root names : length (concat (root_list names)) = (16 * (length names + 2))%nat.
Proof. unfold root_list. rewrite concat_app, length_app. change (concat (entry_list 2 names)) with (entries 2 names). rewrite length_entries. change (length (concat dots)) with 32%nat. lia. Qed.

(** What the kernel finds in inode [i]. *)
Definition disk_inode (d : disk) (i : Z) : inode := load_dinode (dinode_at mk_sb i d) (no_inode i).

Lemma disk_inode_ino m i : 0 < i < NINODES -> disk_inode (vimg m) i = ino m i.
Proof. intros Hi. pose proof (IBLOCK_range i Hi). unfold disk_inode, ino, dinode_at. rewrite get_vimg by lia. done. Qed.

(** The root directory after the last change of its size. *)
Section Root.
Context (m : mkstate) (R : list ascii) (D : list (Z * list ascii)).
Context (Ha : all_files m ((T_DIR, R) :: D)) (HR : Z.of_nat (length R) mod BSIZE <> 0).
Let s := (Z.of_nat (length R) / BSIZE + 1) * BSIZE.
Let ip : inode := set_size s (ino m 1).
Let m' : mkstate := update ip m.

Lemma root_holds : holds m 1 T_DIR R.
Proof. apply (a_files _ _ Ha 0 T_DIR R eq_refl). Qed.

Lemma root_size : 0 <= s <= MAXFILE * BSIZE /\ (s - BSIZE < Z.of_nat (length R) < s).
Proof.
  pose proof (h_max _ _ _ _ root_holds) as Hm. unfold s. pose proof (Z.div_mod (Z.of_nat (length R)) BSIZE ltac:(done)) as Hd. pose proof (Z.mod_pos_bound (Z.of_nat (length R)) BSIZE ltac:(done)) as Hb.
  unfold MAXFILE, NDIRECT, NINDIRECT, BSIZE in *. change (1024 / 4) with 256 in *. lia.
Qed.

Lemma root_fields : fields_ok ip /\ plain 1 ip /\ inode_wf mk_sb (vimg m) ip.
Proof.
  pose proof root_holds as Hh. destruct (h_fields _ _ _ _ Hh) as (F1 & F2 & F3 & F4). assert (Hwf : inode_wf mk_sb (vimg m) ip) by apply wf_set_size, Hh.
  split; [|done]. apply (wf_fields mk_sb mk_layout (vimg m)); [done | | apply root_size]. unfold ip. simpl in *. rewrite F1, F2, F3, F4. repeat constructor; vm_compute; congruence.
Qed.

Lemma fix_root_spec : fix_root m = Some m' /\ st m' /\ freeblock m' = freeblock m /\ get (img m') 1 = superblock_bytes mk_sb /\ ino m' 1 = ip /\
  dir_ok mk_sb (vimg m') ip /\ nlink ip = 1 /\ isize ip = s /\ (forall o, 0 <= o < MAXFILE * BSIZE -> fbyte (vimg m') ip o = default NUL (R !! Z.to_nat o)) /\
  (forall k t c, D !! k = Some (t, c) -> holds m' (Z.of_nat k + 2) t c).
Proof.
  pose proof root_holds as Hh. destruct root_fields as (Hf & Hpl & Hwf). destruct root_size as [Hs1 Hs2]. pose proof (h_fields _ _ _ _ Hh) as (F1 & F2 & F3 & F4).
  assert (Hin : 0 < inum ip < NINODES) by (unfold NINODES; simpl; lia). pose proof (vimg_update ip m Hin) as Ev. fold m' in Ev.
  assert (Hup : forall jp, inode_wf mk_sb (vimg m) jp -> keeps (vimg m) (vimg m') jp /\ inode_wf mk_sb (vimg m') jp).
  { intros jp Hj. rewrite Ev. split; [apply (update_keeps mk_sb mk_layout) | apply (update_wf mk_sb mk_layout)]; done || apply Hf. }
  destruct (Hup ip Hwf) as [K W]. split; [unfold fix_root; rewrite rinode_ino by done; cbn [mbind option_bind]; change ROOTINO with 1; rewrite (h_size _ _ _ _ Hh); by apply winode_update|].
  split; [apply update_st; [apply Ha | done | apply Hf]|]. split; [done|]. split; [|split; [|split; [|split; [done|split; [done|split]]]]].
  - unfold m', update. simpl. pose proof (IBLOCK_range _ Hin). rewrite get_iupdate by lia. apply Ha.
  - unfold m'. rewrite ino_update; [done | apply Ha | done | done].
  - split; [|done|unfold ip, s, BSIZE; simpl; replace ((Z.of_nat (length R) / 1024 + 1) * 1024) with ((Z.of_nat (length R) / 1024 + 1) * 64 * 16) by lia; by apply Z.mod_mul].
    split; [done | split; simpl; lia | | done |].
    + unfold ip. simpl in *. rewrite F1, F2, F3, F4. repeat constructor; vm_compute; congruence.
    + intros o Ho. change (isize ip) with s in Ho. assert (Ho' : 0 <= o < MAXFILE * BSIZE) by lia. pose proof (file_block o Ho') as Hb. rewrite (proj1 K) by (by apply pos_lt).
      change (ptr (vimg m) (ino m 1) (pos (o / BSIZE)) <> 0). apply (proj1 (h_mapped _ _ _ _ Hh) _ Hb). destruct (block_start o ltac:(lia)) as [Hb1 _]. unfold s in *.
      set (q := Z.of_nat (length R) / BSIZE) in *. assert (o / BSIZE <= q) by (unfold BSIZE in *; lia). unfold BSIZE in *. lia.
  - intros o Ho. rewrite (keeps_fbyte (vimg m)) by done. by apply (h_bytes _ _ _ _ Hh).
  - intros k t c Hk. pose proof (a_files _ _ Ha (S k) t c Hk) as Hc. replace (Z.of_nat (S k) + 1) with (Z.of_nat k + 2) in Hc by lia. destruct (Hup _ (h_wf _ _ _ _ Hc)).
    apply (holds_keeps m); [done | done | | done]. unfold m'. rewrite ino_update; [|apply Ha | done | done]. change (inum ip) with 1. destruct (Z.eqb_spec (Z.of_nat k + 2) 1); [lia | done].
Qed.
End Root.

(** *** What the kernel reads *)
Lemma root_dent d dp names k (x : list ascii) : (forall o, 0 <= o < MAXFILE * BSIZE -> fbyte d dp o = default NUL (concat (root_list names) !! Z.to_nat o)) ->
  Z.of_nat (length (concat (root_list names))) <= MAXFILE * BSIZE -> root_list names !! k = Some x -> dent d dp k = x.
Proof.
  intros Hb Hmax Hk. pose proof (root_list_16 names) as H16. pose proof (Forall_lookup_1 _ _ _ _ H16 Hk) as Hx. simpl in Hx. apply dent_new; [done|]. intros o Ho.
  assert (Hlen : (16 * k + 16 <= length (concat (root_list names)))%nat).
  { rewrite length_root. apply lookup_lt_Some in Hk. unfold root_list in Hk. rewrite length_app, length_entry_list in Hk. change (length dots) with 2%nat in Hk. lia. }
  rewrite Hb by lia. f_equal. rewrite <- (concat16 _ H16 k x (Z.to_nat (o - 16 * Z.of_nat k)) Hk) by lia. f_equal. lia.
Qed.

Lemma is_entry_dirent name i t : 0 < i < 2 ^ 16 -> no_nul name -> no_nul t -> (length name <= DIRSIZ)%nat -> (length t <= DIRSIZ)%nat ->
  is_entry name (dirent i (strncpy DIRSIZ t)) = bool_decide (name = t).
Proof.
  intros Hi Hn Ht Ln Lt. unfold is_entry. destruct (de_dirent i (strncpy DIRSIZ t)) as [-> ->]; [lia | apply length_strncpy|]. destruct (Z.eqb_spec i 0); [lia|]. cbn [negb andb].
  pose proof (namecmp_stored name t Hn Ht) as E. rewrite !take_ge in E by done. destruct (Z.eqb_spec (namecmp name (strncpy DIRSIZ t)) 0); case_bool_decide; tauto.
Qed.

Lemma short_name_length p n : short_name p = Some n -> (length n <= DIRSIZ)%nat.
Proof.
  unfold short_name. case_bool_decide as H1; case_bool_decide as H2; try done; case_bool_decide as H3; intros H; repeat case_match; simplify_eq; by apply Nat.leb_le.
Qed.

(** The names in the image. *)
Record named (fs : list hostfile) (names : list cstr) : Prop := mkNamed {
  n_short : Forall2 (fun f n => short_name f.1 = Some n) fs names;
  n_nul : Forall no_nul names;
  n_distinct : NoDup ([str "."; str ".."] ++ names)
}.

Lemma root_lookup d dp fs names k n : named fs names -> dir_ok mk_sb d dp -> Z.of_nat (length names) + 2 < NINODES -> 16 * (Z.of_nat (length names) + 2) <= isize dp ->
  (forall o, 0 <= o < MAXFILE * BSIZE -> fbyte d dp o = default NUL (concat (root_list names) !! Z.to_nat o)) -> disk_ok mk_sb d -> names !! k = Some n ->
  lookup_loop mk_sb (turns dp) n 0 dp d = Ok (Some (16 * (Z.of_nat k + 2), Z.of_nat k + 2), dp, d).
Proof.
  intros [Hs Hnul Hdist] Hdir Hfew Hsize Hb Hok Hk. pose proof (dir_count mk_sb d dp Hdir) as Hc. pose proof (fo_size _ _ _ (dir_file _ _ _ Hdir)) as Hmax.
  assert (Hmax' : Z.of_nat (length (concat (root_list names))) <= MAXFILE * BSIZE) by (rewrite length_root; lia). pose proof (lookup_lt_Some _ _ _ Hk) as Hlt.
  assert (Hlen : forall j t, names !! j = Some t -> (length t <= DIRSIZ)%nat /\ no_nul t).
  { intros j t Ht. split; [|by apply (Forall_lookup_1 _ _ _ _ Hnul Ht)]. destruct (Forall2_lookup_r _ _ _ _ _ Hs Ht) as (f & _ & Hf). by eapply short_name_length. }
  destruct (Hlen k n Hk) as [Ln Nn]. apply NoDup_app in Hdist as (_ & Hdots & Hnd).
  assert (Hent : forall j t, names !! j = Some t -> dent d dp (2 + j) = dirent (Z.of_nat j + 2) (strncpy DIRSIZ t)).
  { intros j t Ht. apply (root_dent d dp names); [done | done|]. unfold root_list. rewrite lookup_app_r by (simpl; lia). change (length dots) with 2%nat. replace (2 + j - 2)%nat with j by lia.
    rewrite entry_list_lookup, Ht. simpl. do 2 f_equal. lia. }
  assert (Hdot : forall j x, dots !! j = Some x -> dent d dp j = x) by (intros j x Hx; apply (root_dent d dp names); [done | done|]; unfold root_list; by apply lookup_app_l_Some).
  unfold NINODES in Hfew. replace 0 with (16 * Z.of_nat 0) at 1 by lia. rewrite (lookup_loop_spec mk_sb mk_layout n d dp Hok Hdir) by (unfold turns, count; lia). do 3 f_equal.
  assert (Ef : dfind (count dp - 0) 0 (dent d dp) n = Some ((2 + k)%nat, Z.of_nat k + 2)); [|rewrite Ef; simpl; do 2 f_equal; lia].
  apply dfind_Some. rewrite (Hent k n Hk). split; [lia|]. split; [|split].
  - rewrite is_entry_dirent by (done || lia). by apply bool_decide_eq_true.
  - symmetry. apply de_dirent; [lia | apply length_strncpy].
  - intros j Hj. destruct j as [|[|j]].
    + rewrite (Hdot 0%nat _ eq_refl), is_entry_dirent; try done; try (vm_compute; lia); [|vm_compute; set_solver]. apply bool_decide_eq_false. intros ->. apply (Hdots (str ".")); [by left | by eapply list_elem_of_lookup_2].
    + rewrite (Hdot 1%nat _ eq_refl), is_entry_dirent; try done; try (vm_compute; lia); [|vm_compute; set_solver]. apply bool_decide_eq_false. intros ->. apply (Hdots (str "..")); [right; by left | by eapply list_elem_of_lookup_2].
    + destruct (lookup_lt_is_Some_2 names j) as [t Ht]; [lia|]. destruct (Hlen j t Ht). change (S (S j)) with (2 + j)%nat. rewrite (Hent j t Ht), is_entry_dirent by (done || lia).
      apply bool_decide_eq_false. intros ->. assert (j = k); [|lia]. by eapply (NoDup_lookup names).
Qed.

(** A read of the whole file. *)
Lemma holds_slice m i t c : holds m i t c -> slice (vimg m) (ino m i) 0 (length c) = c.
Proof.
  intros Hh. pose proof (h_max _ _ _ _ Hh). apply list_eq. intros j. unfold slice. rewrite list_lookup_fmap. destruct (Nat.lt_ge_cases j (length c)) as [Hj|Hj].
  - rewrite lookup_seq_lt by done. simpl. rewrite (h_bytes _ _ _ _ Hh) by lia. replace (Z.to_nat (0 + Z.of_nat j)) with j by lia. destruct (lookup_lt_is_Some_2 c j Hj) as [a Ea]. rewrite Ea. simpl. reflexivity.
  - rewrite (lookup_ge_None_2 (seq 0 _)) by (rewrite length_seq; lia). by rewrite lookup_ge_None_2.
Qed.

Lemma readi_whole m i t c : st m -> holds m i t c -> file_ok mk_sb (vimg m) (ino m i) -> Z.of_nat (length c) < 2 ^ 31 ->
  readi mk_sb (length c) 0 (Z.of_nat (length c)) (ino m i) (vimg m) = Some (Z.of_nat (length c), c, ino m i, vimg m).
Proof.
  intros Hs Hh Hfo Hu. rewrite (readi_spec mk_sb mk_layout _ _ _ _ _ (vimg_ok m Hs) Hfo) by (unfold in_u32; lia).
  assert (Ea : available (ino m i) 0 (Z.of_nat (length c)) = Z.of_nat (length c)).
  { unfold available. rewrite (h_size _ _ _ _ Hh). destruct (Z.ltb_spec (Z.of_nat (length c)) 0); [lia|]. destruct (Z.leb_spec (2 ^ 32) (0 + Z.of_nat (length c))); [lia|]. cbn [orb]. lia. }
  cbv zeta. rewrite Ea, Nat2Z.id, Nat.leb_refl, Nat.min_id, (holds_slice m i t c Hh). reflexivity.
Qed.

(** Everything fits: inodes, the sizes of files, and blocks. *)
Record fits_image (fs : list hostfile) : Prop := mkFits {
  fit_inodes : Z.of_nat (length fs) + 2 < NINODES;
  fit_sizes : Forall (fun f : hostfile => Z.of_nat (length (concat f.2)) <= MAXFILE * BSIZE) fs;
  fit_blocks : 47 + nblk (16 * (Z.of_nat (length fs) + 2)) + blocks (files_of fs) <= FSSIZE
}.

Lemma mkfs_steps fs names : named fs names -> fits_image fs -> (Z.of_nat (length fs) + 2) mod 64 <> 0 ->
  exists m m', all_files m ((T_DIR, concat (root_list names)) :: files_of fs) /\ fix_root m = Some m' /\ mkfs fs = Some (vimg m').
Proof.
  intros [Hs Hnul Hdist] [F1 F2 F3] Hmod. pose proof (Forall2_length _ _ _ Hs) as El. unfold mkfs.
  assert (Hroot : Z.of_nat (length (concat (root_list names))) = 16 * (Z.of_nat (length fs) + 2)) by (rewrite length_root, El; lia).
  pose proof (blocks_nonneg (files_of fs)) as Hnn. unfold NINODES in F1.
  assert (Hsmall : nblk 32 <= nblk (16 * (Z.of_nat (length fs) + 2))) by (apply nblk_mono; lia).
  destruct (ialloc_spec blank [] T_DIR blank_spec) as (m1 & E1 & A1); [done | by left|]. rewrite E1. cbn [mbind option_bind length]. change (Z.of_nat 0 + 1) with 1. change (1 =? ROOTINO) with true. cbv iota.
  destruct (add_entry_spec 1 (str ".") m1 [] [] A1) as (m2 & E2 & A2); [vm_compute; congruence | vm_compute; congruence|]. rewrite E2. cbn [mbind option_bind].
  destruct (add_entry_spec 1 (str "..") m2 _ [] A2) as (m3 & E3 & A3); [vm_compute; congruence | vm_compute; congruence|]. rewrite E3. cbn [mbind option_bind].
  assert (ER : (([] ++ dirent 1 (strncpy DIRSIZ (str "."))) ++ dirent 1 (strncpy DIRSIZ (str ".."))) ++ entries (Z.of_nat (length (@nil (Z * list ascii))) + 2) names = concat (root_list names))
    by (unfold root_list; rewrite concat_app; done).
  destruct (add_files_spec fs names m3 _ [] Hs A3) as (m4 & E4 & A4).
  { unfold NINODES. simpl. lia. }
  { rewrite ER. constructor; [cbn [snd]; rewrite Hroot; unfold MAXFILE, NDIRECT, NINDIRECT, BSIZE; change (1024 / 4) with 256; lia|]. cbn [app]. unfold files_of. apply Forall_fmap. exact F2. }
  { rewrite ER. cbn [app]. change (blocks ((T_DIR, concat (root_list names)) :: files_of fs)) with (nblk (Z.of_nat (length (concat (root_list names)))) + blocks (files_of fs)). rewrite Hroot. lia. }
  rewrite ER in A4. cbn [app] in A4. rewrite E4. cbn [mbind option_bind].
  assert (HR : Z.of_nat (length (concat (root_list names))) mod BSIZE <> 0).
  { rewrite Hroot. unfold BSIZE. replace 1024 with (16 * 64) by lia. rewrite Z.mul_mod_distr_l by lia. lia. }
  destruct (fix_root_spec m4 _ _ A4 HR) as (E5 & S5 & Efb & _). set (m5 := update _ m4) in *. exists m4, m5. split; [done|]. split; [done|].
  rewrite E5. cbn [mbind option_bind]. unfold mk_balloc. pose proof (s_range _ S5) as Hr. unfold FSSIZE in Hr. destruct (Z.ltb_spec (freeblock m5) BPB) as [_|Hge]; [done|]. unfold BPB, BSIZE in Hge. lia.
Qed.

(** C18: for files that fit, the image is one the kernel accepts and reads back.
    The super block describes it; the free map marks exactly the blocks in
    use; the root directory is in good order and a lookup of the name of a
    file, by the kernel's loop, finds its entry and its inode; and a read of
    the inode by the kernel returns the bytes of the file of the host.  The
    number of entries is not a multiple of 64, when the rounded size of the
    root would cover a block it does not have. *)
Theorem mkfs_readable fs names : named fs names -> fits_image fs -> (Z.of_nat (length fs) + 2) mod 64 <> 0 ->
  exists d, mkfs fs = Some d /\ readsb d = mk_sb /\ disk_ok mk_sb d /\
    (let used_blocks := 47 + nblk (16 * (Z.of_nat (length fs) + 2)) + blocks (files_of fs) in
     forall b, 0 <= b < FSSIZE -> used mk_sb d b = (b <? used_blocks)) /\
    let root := disk_inode d ROOTINO in
    dir_ok mk_sb d root /\
    forall k f n, fs !! k = Some f -> names !! k = Some n ->
      let i := Z.of_nat k + 2 in let ip := disk_inode d i in let size := Z.of_nat (length (concat f.2)) in
      lookup_loop mk_sb (turns root) n 0 root d = Ok (Some (16 * i, i), root, d) /\
      file_ok mk_sb d ip /\ itype ip = T_FILE /\ nlink ip = 1 /\ isize ip = size /\
      readi mk_sb (length (concat f.2)) 0 size ip d = Some (size, concat f.2, ip, d).
Proof.
  intros Hn Hfit Hmod. pose proof (n_short _ _ Hn) as Hs. pose proof (Forall2_length _ _ _ Hs) as El. destruct (mkfs_steps fs names Hn Hfit Hmod) as (m & m' & A & Ef & E).
  assert (Hroot : Z.of_nat (length (concat (root_list names))) = 16 * (Z.of_nat (length fs) + 2)) by (rewrite length_root, El; lia).
  assert (HR : Z.of_nat (length (concat (root_list names))) mod BSIZE <> 0).
  { rewrite Hroot. unfold BSIZE. replace 1024 with (16 * 64) by lia. rewrite Z.mul_mod_distr_l by lia. lia. }
  destruct (fix_root_spec m _ _ A HR) as (E5 & S5 & Efb & Esb & Ei & Hdir & Hnl & Hsz & Hby & Hfs). rewrite Ef in E5. injection E5 as ->. set (m5 := update _ m) in *. set (rip := set_size _ (ino m 1)) in *. clearbody m5 rip.
  pose proof (fit_inodes _ Hfit) as Hfew. exists (vimg m5). split; [done|]. split; [|split; [by apply vimg_ok|split; [|]]].
  - unfold readsb. rewrite get_vimg by lia. rewrite Esb. vm_compute. reflexivity.
  - cbv zeta. intros b Hb. rewrite used_vimg; [|exact S5 | exact Hb]. rewrite Efb, (a_blocks _ _ A).
    change (blocks ((T_DIR, concat (root_list names)) :: files_of fs)) with (nblk (Z.of_nat (length (concat (root_list names)))) + blocks (files_of fs)). rewrite Hroot. f_equal. lia.
  - assert (Er : disk_inode (vimg m5) 1 = rip) by (rewrite <- Ei; apply disk_inode_ino; unfold NINODES; lia). change ROOTINO with 1. intros root. assert (Eroot : root = rip) by exact Er. clearbody root. subst root.
    split; [exact Hdir|]. intros k f n Hk Hnk i ip size.
    assert (Hc : files_of fs !! k = Some (T_FILE, concat f.2)) by (unfold files_of; by rewrite list_lookup_fmap, Hk). pose proof (Hfs k _ _ Hc) as Hh. pose proof (lookup_lt_Some _ _ _ Hk) as Hlt.
    assert (Ep : disk_inode (vimg m5) (Z.of_nat k + 2) = ino m5 (Z.of_nat k + 2)) by (apply disk_inode_ino; lia). unfold ip, size, i. clear ip size i. rewrite Ep. destruct (h_fields _ _ _ _ Hh) as (T1 & T2 & T3 & T4). pose proof (h_size _ _ _ _ Hh) as Hs1. pose proof (h_max _ _ _ _ Hh) as Hmax.
    assert (Hfo : file_ok mk_sb (vimg m5) (ino m5 (Z.of_nat k + 2))).
    { split; [apply Hh | change (0 < Z.of_nat k + 2 < 200); unfold NINODES in Hfew; lia | rewrite T1, T2, T3, T4; repeat constructor; vm_compute; congruence | lia|].
      intros o Ho. rewrite Hs1 in Ho. apply (h_mapped _ _ _ _ Hh); [apply file_block; lia|]. destruct (block_start o ltac:(lia)). lia. }
    split; [|split; [done|split; [done|split; [done|split; [done|]]]]].
    + assert (H1 : Z.of_nat (length names) + 2 < NINODES) by (unfold NINODES in *; lia).
      assert (H2 : 16 * (Z.of_nat (length names) + 2) <= isize rip). { rewrite Hsz, <- El. destruct (root_size m (concat (root_list names)) (files_of fs) A HR) as [_ Hs2]. rewrite Hroot in Hs2 |- *. lia. }
      exact (root_lookup (vimg m5) rip fs names k n Hn Hdir H1 H2 Hby (vimg_ok m5 S5) Hnk).
    + assert (Hu : Z.of_nat (length (concat f.2)) < 2 ^ 31) by (unfold MAXFILE, NDIRECT, NINDIRECT, BSIZE in Hmax; change (1024 / 4) with 256 in Hmax; lia).
      rewrite (readi_whole m5 (Z.of_nat k + 2) T_FILE (concat f.2) S5 Hh Hfo Hu). reflexivity.
Qed.

(** An image with two files, one of them with an indirect block. *)
Definition small_tree : list hostfile :=
  [(str "user/_cat", [str "cat"]); (str "README", replicate 13 (replicate 1024 "x"%char) ++ [str "end"])].

Lemma mkfs_readable_witness : exists d, mkfs small_tree = Some d /\ readsb d = mk_sb /\ disk_ok mk_sb d /\
  lookup_loop mk_sb (turns (disk_inode d 1)) (str "cat") 0 (disk_inode d 1) d = Ok (Some (32, 2), disk_inode d 1, d).
Proof.
  destruct (mkfs_readable small_tree [str "cat"; str "README"]) as (d & E & Hsb & Hok & _ & _ & Hf).
  - split.
    + repeat constructor; vm_compute; reflexivity.
    + repeat constructor; intros H; vm_compute in H; set_solver.
    + repeat (apply NoDup_cons; split; [intros H; vm_compute in H; set_solver|]). apply NoDup_nil_2.
  - split; [vm_compute; reflexivity | | vm_compute; congruence]. apply Forall_forall. intros f Hf. unfold small_tree in Hf.
    repeat (apply elem_of_cons in Hf as [->|Hf]; [vm_compute; congruence|]). by apply elem_of_nil in Hf.
  - vm_compute. congruence.
  - exists d. split; [exact E|]. split; [exact Hsb|]. split; [exact Hok|]. exact (proj1 (Hf 0%nat _ _ eq_refl eq_refl)).
Defined.

(** With 62 files the entries fill one block, and the size of the root says
    two: its second block does not exist. *)
Example root_hole :
  (fun d => (isize (disk_inode d 1), direct 0 (disk_inode d 1), direct 1 (disk_inode d 1))) <$> mkfs (replicate 62 (str "f", [])) = Some (2048, 47, 0).
Proof. vm_compute. reflexivity. Qed.

(** Nothing keeps the inodes within their blocks: the inode of the 207th file
    is in the block of the free map, which is written last. *)
Example inodes_overflow :
  (fun d => (itype (disk_inode d 207), itype (disk_inode d 208))) <$> mkfs (replicate 207 (str "f", [])) = Some (T_FILE, -1).
Proof. vm_compute. reflexivity. Qed.
