(* ===== verification/Sysexec.v ===== *)
(** * System call arguments and sys_exec (xv6/kernel/syscall.c, sysfile.c: sys_exec)

    How the kernel fetches the arguments of a system call from the trapframe
    and from the memory of the process, and the call that uses all of it:
    [sys_exec] copies the path and the arguments into pages of the kernel,
    runs [kexec] and gives the pages back. *)
From S2P Require Import Prelude KString Disk Balloc Inode Content Rw Trunc Itable Dir Path Ram Kalloc Pagetable Vm Space Uvm Uvmfree Usercopy Sbrk Exec Execmem Execspec.
Local Open Scope Z_scope.

Definition TF_A0 : Z := 112.
Definition TF_A2 : Z := 128.
Definition TF_A3 : Z := 136.
Definition TF_A4 : Z := 144.
Definition TF_A5 : Z := 152.
Definition MAXPATH : Z := 128.

Section Fetch.
Context (kend : Z).

(** [None] is the panic. *)
Definition argraw (n : Z) (p : eproc) (k : kmem) : option Z :=
  let reg off := Some (load64 (bytes k) (trapframe p + off)) in
  match n with
  | 0 => reg TF_A0
  | 1 => reg TF_A1
  | 2 => reg TF_A2
  | 3 => reg TF_A3
  | 4 => reg TF_A4
  | 5 => reg TF_A5
  | _ => None
  end.

Definition argint (n : Z) (p : eproc) (k : kmem) : option Z := x ← argraw n p k; Some (i32 x).
Definition argaddr (n : Z) (p : eproc) (k : kmem) : option Z := argraw n p k.

(** The word at [addr], or [None] for -1. *)
Definition fetchaddr (addr : Z) (p : eproc) (k : kmem) : option (option Z * kmem) :=
  if (psz p <=? addr) || (psz p <? u64 (addr + 8)) then Some (None, k)
  else
    '(r, bs, k) ← copyin kend (pagetable p) (psz p) addr 8 k;
    if negb (r =? 0) then Some (None, k) else Some (Some (le bs), k).

(** The result ([strlen(buf)] or -1) and what was stored in the buffer. *)
Definition fetchstr (addr max : Z) (p : eproc) (k : kmem) : option (Z * list ascii * kmem) :=
  '(r, bs, k) ← copyinstr kend (pagetable p) (psz p) addr max k;
  if r <? 0 then Some (-1, bs, k) else Some (Z.of_nat (length bs), bs ++ [NUL], k).

Definition argstr (n max : Z) (p : eproc) (k : kmem) : option (Z * list ascii * kmem) :=
  addr ← argaddr n p k;
  fetchstr addr max p k.

(** ** sys_exec *)

(** The string in a buffer, and the string a page holds. *)
Definition buf_string (buf : list ascii) : cstr := (scan_nul buf).1.
Definition page_string (m : ram) (pg : Z) : cstr := buf_string (fetch m pg (Z.to_nat PGSIZE)).

(** The loop over the vector; [n] slots of [argv] are left, and [argv] holds
    the pages.  [false] is the jump to [bad]. *)
Fixpoint exec_args (n : nat) (uargv : Z) (argv : list Z) (p : eproc) (k : kmem) : option (bool * list Z * kmem) :=
  match n with
  | O => Some (false, argv, k)
  | S n' =>
      '(o, k) ← fetchaddr (u64 (uargv + 8 * Z.of_nat (length argv))) p k;
      match o with
      | None => Some (false, argv, k)
      | Some uarg =>
          if uarg =? 0 then Some (true, argv, k)
          else
            let '(pg, k) := kalloc k in
            if pg =? 0 then Some (false, argv, k)
            else
              '(r, bs, k) ← fetchstr uarg PGSIZE p k;
              let k := set_bytes (write pg bs) k in
              if r <? 0 then Some (false, argv ++ [pg], k) else exec_args n' uargv (argv ++ [pg]) p k
      end
  end.

Fixpoint free_args (argv : list Z) (k : kmem) : option kmem :=
  match argv with [] => Some k | pg :: argv' => k ← kfree kend pg k; free_args argv' k end.

Definition sys_exec (sb : superblock) (trampoline : Z) (cwd : nat) (p : eproc) (s : fsys) (k : kmem) : res (Z * eproc * fsys * kmem) :=
  uargv ← or_panic (argaddr 1 p k);
  '(r, path, k) ← or_panic (argstr 0 MAXPATH p k);
  if r <? 0 then Ok (-1, p, s, k)
  else
    '(ok, argv, k) ← or_panic (exec_args MAXARG uargv [] p k);
    if ok : bool then
      '(ret, p, s, k) ← kexec sb kend trampoline (buf_string path) (page_string (bytes k) <$> argv) cwd p s k;
      k ← or_panic (free_args argv k);
      Ok (ret, p, s, k)
    else
      k ← or_panic (free_args argv k);
      Ok (-1, p, s, k).
End Fetch.

Lemma bind_ok {A B} (a : A) (f : A -> res B) : (Ok a ≫= f) = f a.
Proof. done. Qed.

Lemma or_panic_some {A B} (a : A) (f : A -> res B) : (or_panic (Some a) ≫= f) = f a.
Proof. done. Qed.

(** ** What a process asks for *)

(** A string and a word in the memory the process sees. *)
Definition string_at (m : ram) (um : vmap) (va : Z) (s : cstr) : Prop :=
  NUL ∉ s /\ ubytes m um va (length s) = s /\ ubyte m um (va + Z.of_nat (length s)) = NUL.
Definition word_at (m : ram) (um : vmap) (a : Z) : Z := le (ubytes m um a 8).

(** The vector of the arguments at [a1]: its pointers and their strings. *)
Record vector (m : ram) (um : vmap) (sz a1 : Z) (ptrs : list Z) (argv : list cstr) : Prop := mkVector {
  vc_few : (length ptrs < MAXARG)%nat;
  vc_room : a1 + 8 * (Z.of_nat (length ptrs) + 1) <= sz;
  vc_words : forall j, (j <= length ptrs)%nat -> word_at m um (a1 + 8 * Z.of_nat j) = default 0 (ptrs !! j);
  vc_strings : Forall2 (fun a s => a <> 0 /\ string_at m um a s /\ Z.of_nat (length s) < PGSIZE) ptrs argv
}.

(** The request at the path [a0] and the vector [a1]. *)
Record asks (m : ram) (um : vmap) (sz a0 a1 : Z) (path : cstr) (ptrs : list Z) (argv : list cstr) : Prop := mkRequest {
  rq_path : string_at m um a0 path /\ Z.of_nat (length path) < MAXPATH;
  rq_vector : vector m um sz a1 ptrs argv
}.

(** Bytes the process may not read, and the bytes of a vector. *)
Definition closed (um : vmap) (sz x : Z) : Prop :=
  match um !! (x / PGSIZE) with Some e => has PTE_U e = false | None => sz <= x / PGSIZE * PGSIZE end.
Definition vector_bytes (a1 : Z) (ptrs : list Z) (argv : list cstr) (x : Z) : Prop :=
  a1 <= x < a1 + 8 * (Z.of_nat (length ptrs) + 1) \/ exists (j : nat) a s, ptrs !! j = Some a /\ argv !! j = Some s /\ a <= x <= a + Z.of_nat (length s).

Lemma ubytes_lookup m um n : forall va i, (i < n)%nat -> ubytes m um va n !! i = Some (ubyte m um (va + Z.of_nat i)).
Proof.
  induction n as [|n IH]; intros va i Hi; [lia|]. destruct i as [|i]; cbn [ubytes lookup list_lookup]; [do 2 f_equal; lia|].
  rewrite IH by lia. do 2 f_equal. lia.
Qed.

(** No NUL comes before the end of the string. *)
Lemma string_longest m um va s n : string_at m um va s -> NUL ∉ ubytes m um va n -> (n <= length s)%nat.
Proof.
  intros (_ & _ & Hz) Hn. destruct (decide (n <= length s)%nat) as [|Hlt]; [done|]. exfalso. apply Hn.
  apply (list_elem_of_lookup_2 _ (length s)). rewrite ubytes_lookup by lia. by rewrite Hz.
Qed.

Lemma scan_nul_string s rest : NUL ∉ s -> scan_nul (s ++ NUL :: rest) = (s, true).
Proof.
  induction s as [|c s IH]; intros Hn; cbn [app scan_nul]; [done|]. apply not_elem_of_cons in Hn as [Hc Hn].
  destruct (Ascii.eqb_spec c NUL) as [->|_]; [done|]. by rewrite IH.
Qed.

Section Sysexec.
Context (kend : Z) (Hend : KERNBASE <= kend).
Local Abbreviation aspace := (aspace kend UVPN).
Local Abbreviation data := (data UVPN).
Local Abbreviation pspace := (pspace kend).
Local Abbreviation same_space := (same_space kend UVPN).

(** The process and its memory at the entry of the call. *)
Section Stage.
Context (p : eproc) (k0 : kmem) (t0 : tree) (um0 : vmap) (free0 rest0 : list Z) (Hsz : 0 <= psz p <= TRAPFRAME).
Local Abbreviation m0 := (bytes k0).
Local Abbreviation sz := (psz p).

(** The memory after some of the arguments were fetched, in pages [ps]; the
    first of them hold [strs]. *)
Record stage (ps : list Z) (strs : list cstr) (k : kmem) (t : tree) (um : vmap) (free : list Z) : Prop := mkStage {
  sg_space : aspace k (pagetable p) t um free (ps ++ rest0);
  sg_users : users UVPN um;
  sg_more : um0 ⊆ um;
  sg_new : forall v e, um !! v = Some e -> um0 !! v = Some e \/ (has PTE_U e = true /\ v * PGSIZE < sz);
  sg_sees : forall va, 0 <= va < UVPN * PGSIZE -> ubyte (bytes k) um va = ubyte m0 um0 va;
  sg_rest : keeps m0 (bytes k) rest0;
  sg_total : tables t ++ data um ++ free ++ ps ≡ₚ tables t0 ++ data um0 ++ free0;
  sg_strs : forall (j : nat) pg s, ps !! j = Some pg -> strs !! j = Some s -> page_string (bytes k) pg = s
}.

Lemma stage_copy ps strs k t um free k' t' um' free' : stage ps strs k t um free ->
  same_space (pagetable p) (ps ++ rest0) sz k t um free k' t' um' free' -> sees UVPN um um' (bytes k) (bytes k') -> stage ps strs k' t' um' free'.
Proof.
  intros [A B C D E F G H] [S1 S2 S3 S4 S5 S6] [_ Hse]. split; [done | done | by trans um | | | | |].
  - intros v e [He|He]%S4; [by apply D | by right].
  - intros va Hva. by rewrite Hse, E.
  - eapply kp_trans; [exact F|]. apply (keeps_sub _ _ _ _ S5). set_solver.
  - rewrite !app_assoc, <- (app_assoc (tables t')), S6, <- !app_assoc. done.
  - intros j pg s Hj Hs. rewrite <- (H j pg s Hj Hs). unfold page_string, buf_string. f_equal. f_equal. apply fetch_ext. intros x Hx.
    apply (S5 pg); [apply elem_of_app; left; by apply (list_elem_of_lookup_2 _ j) | unfold PGSIZE in *; lia].
Qed.

(** A page for the next argument. *)
Lemma stage_take ps strs k t um pg free : stage ps strs k t um (pg :: free) -> (length strs <= length ps)%nat ->
  exists k', kalloc k = (pg, k') /\ pg <> 0 /\ stage (ps ++ [pg]) strs k' t um free.
Proof.
  intros [A B C D E F G H] Hl. destruct (take_page kend Hend UVPN _ _ _ _ _ _ _ A) as (k' & Ek & Hnz & Hp & A' & _ & Hk). exists k'. split; [done|]. split; [done|].
  split; [|done|done|done| | | |].
  - apply (aspace_perm kend UVPN _ _ _ _ _ (pg :: ps ++ rest0)); [|done]. rewrite <- app_assoc. apply Permutation_middle.
  - intros va Hva. rewrite <- E by done. apply (ubyte_keeps UVPN); [done|]. apply (keeps_sub _ _ _ _ Hk). set_solver.
  - eapply kp_trans; [exact F|]. apply (keeps_sub _ _ _ _ Hk). set_solver.
  - rewrite <- G. apply Permutation_app_head, Permutation_app_head. rewrite app_assoc. rewrite Permutation_app_comm. done.
  - intros j q s Hj Hs. pose proof (lookup_lt_Some _ _ _ Hs). rewrite lookup_app_l in Hj by lia. rewrite <- (H j q s Hj Hs). unfold page_string, buf_string. f_equal. f_equal.
    apply fetch_ext. intros x Hx. apply (Hk q); [|unfold PGSIZE in *; lia]. apply elem_of_app. right. apply elem_of_app. left. by apply (list_elem_of_lookup_2 _ j).
Qed.

(** The last page is written. *)
Lemma stage_write ps pg strs k t um free bs : stage (ps ++ [pg]) strs k t um free -> length strs = length ps -> (length bs <= Z.to_nat PGSIZE)%nat ->
  stage (ps ++ [pg]) strs (set_bytes (write pg bs) k) t um free.
Proof.
  intros [A B C D E F G H] Hl Hb.
  assert (Hf : forall m x, ~ (pg <= x < pg + PGSIZE) -> write pg bs m x = m x) by (intros m x Hx; apply write_out; unfold PGSIZE in *; lia).
  assert (Hin : pg ∈ data um ++ (ps ++ [pg]) ++ rest0) by set_solver.
  pose proof (vm_rest _ _ _ _ _ _ (as_vm _ _ _ _ _ _ _ _ A)) as Hpg. pose proof (vm_nodup _ _ _ _ _ _ (as_vm _ _ _ _ _ _ _ _ A)) as Hn.
  apply NoDup_app in Hn as (_ & _ & Hn). apply NoDup_app in Hn as (_ & _ & Hn).
  assert (Hkp : forall l, l ⊆ data um ++ ps ++ rest0 -> keeps (bytes k) (write pg bs (bytes k)) l).
  { intros l Hsub. apply (keeps_sub _ _ (data um ++ ps ++ rest0)); [|done]. rewrite Forall_forall in Hpg.
    apply (keeps_page kend _ _ pg); [by apply Hpg | apply Forall_forall; intros q Hq; apply Hpg; set_solver | | apply Hf].
    assert (Hp2 : data um ++ (ps ++ [pg]) ++ rest0 ≡ₚ pg :: data um ++ ps ++ rest0) by solve_Permutation. rewrite Hp2 in Hn. by apply NoDup_cons in Hn as [? _]. }
  split; [by apply (write_page kend Hend UVPN _ _ _ _ _ _ pg) | done | done | done | | | done |].
  - intros va Hva. cbn [set_bytes bytes]. rewrite <- E by done. apply (ubyte_keeps UVPN); [done|]. apply Hkp. set_solver.
  - eapply kp_trans; [exact F|]. apply Hkp. set_solver.
  - intros j q s Hj Hs. pose proof (lookup_lt_Some _ _ _ Hs). rewrite <- (H j q s Hj Hs). unfold page_string, buf_string. f_equal. f_equal. rewrite lookup_app_l in Hj by lia.
    apply fetch_ext. intros x Hx. apply (Hkp [q]) with (p := q); [|set_solver | unfold PGSIZE in *; lia]. intros y ->%list_elem_of_singleton.
    apply elem_of_app. right. apply elem_of_app. left. by apply (list_elem_of_lookup_2 _ j).
Qed.

Lemma stage_store ps pg strs k t um free s : stage (ps ++ [pg]) strs k t um free -> length strs = length ps -> NUL ∉ s -> Z.of_nat (length s) < PGSIZE ->
  stage (ps ++ [pg]) (strs ++ [s]) (set_bytes (write pg (s ++ [NUL])) k) t um free.
Proof.
  intros Hs Hl Hn Hlen. destruct (stage_write ps pg strs k t um free (s ++ [NUL]) Hs Hl) as [A B C D E F G H]; [rewrite length_app; simpl; lia|].
  split; try done. intros j q s' Hj Hs'. destruct (decide (j < length ps)%nat) as [Hlt|Hge].
  - apply (H j); [done|]. by rewrite lookup_app_l in Hs' by lia.
  - pose proof (lookup_lt_Some _ _ _ Hj) as Hj2. rewrite length_app in Hj2. simpl in Hj2. assert (j = length ps) as -> by lia.
    rewrite lookup_app_r, Nat.sub_diag in Hj by lia. injection Hj as <-. rewrite lookup_app_r, Hl, Nat.sub_diag in Hs' by lia. injection Hs' as <-.
    unfold page_string, buf_string. cbn [set_bytes bytes]. replace (Z.to_nat PGSIZE) with (length (s ++ [NUL]) + (Z.to_nat PGSIZE - length (s ++ [NUL])))%nat by (rewrite length_app; simpl; lia).
    rewrite fetch_app, fetch_write_same, <- app_assoc. cbn [app]. by rewrite scan_nul_string.
Qed.

Lemma stage_denied ps strs k t um free x : stage ps strs k t um free -> denied um free sz (x / PGSIZE) -> closed um0 sz x \/ (length free <= 2)%nat.
Proof.
  intros Hs Hd. unfold denied in Hd. unfold closed. destruct (um !! (x / PGSIZE)) as [e|] eqn:E.
  - destruct (sg_new _ _ _ _ _ _ Hs _ e E) as [->|[HU _]]; [by left | congruence].
  - destruct (um0 !! (x / PGSIZE)) as [e|] eqn:E0; [|destruct Hd; [by left | by right]].
    pose proof (lookup_weaken _ _ _ _ E0 (sg_more _ _ _ _ _ _ Hs)). congruence.
Qed.

Lemma stage_ubytes ps strs k t um free va n : stage ps strs k t um free -> 0 <= va -> n = 0%nat \/ va + Z.of_nat n <= UVPN * PGSIZE ->
  ubytes (bytes k) um va n = ubytes m0 um0 va n.
Proof. intros Hs Hva Hn. apply ubytes_ext. intros x Hx. apply (sg_sees _ _ _ _ _ _ Hs). destruct Hn; lia. Qed.

Lemma size_limit : sz <= UVPN * PGSIZE.
Proof. rewrite <- trapframe_limit. lia. Qed.

Lemma fetchaddr_spec ps strs k t um free a : stage ps strs k t um free -> 0 <= a < 2 ^ 64 ->
  exists o k' t' um' free', fetchaddr kend a p k = Some (o, k') /\ stage ps strs k' t' um' free' /\
    match o with
    | Some w => a + 8 <= sz /\ w = word_at m0 um0 a
    | None => sz < a + 8 \/ (exists x, a <= x < a + 8 /\ closed um0 sz x) \/ (length free' <= 2)%nat
    end.
Proof.
  intros Hs Ha. unfold fetchaddr. assert (Ht : TRAPFRAME < 2 ^ 38) by done.
  destruct (Z.leb_spec sz a) as [Hge|Hlt]; cbn [orb]; [exists None, k, t, um, free; split; [done|]; split; [done|]; left; lia|].
  assert (Eu : u64 (a + 8) = a + 8) by (unfold u64; apply Z.mod_small; lia). rewrite Eu.
  destruct (Z.ltb_spec sz (a + 8)) as [Hgt|Hle]; [exists None, k, t, um, free; split; [done|]; split; [done|]; by left|].
  destruct (copyin_loop_spec kend Hend UVPN Huvpn (pagetable p) (ps ++ rest0) sz size_limit (Z.to_nat 8) a 8 [] k t um free (sg_space _ _ _ _ _ _ Hs) (sg_users _ _ _ _ _ _ Hs))
    as (r & n & k' & t' & um' & free' & E & Hss & Hse & Hn & Hr); [lia | lia|]. unfold copyin. rewrite E. cbn [mbind option_bind app].
  pose proof (stage_copy _ _ _ _ _ _ _ _ _ _ Hs Hss Hse) as Hs'. destruct Hr as [(-> & ->)|(-> & Hlt8 & Hd)]; cbn [Z.eqb negb].
  - eexists (Some _), k', t', um', free'. split; [done|]. split; [done|]. split; [done|]. unfold word_at. f_equal.
    apply (stage_ubytes _ _ _ _ _ _ _ _ Hs); [lia | exact Hn].
  - exists None, k', t', um', free'. split; [done|]. split; [done|]. right. destruct (stage_denied _ _ _ _ _ _ _ Hs' Hd) as [Hc|Hc]; [left | by right].
    exists (a + Z.of_nat n). split; [lia | done].
Qed.

Lemma fetchstr_spec ps strs k t um free a max : stage ps strs k t um free -> 0 <= a -> 0 <= max ->
  exists r bs k' t' um' free', fetchstr kend a max p k = Some (r, bs, k') /\ stage ps strs k' t' um' free' /\ Z.of_nat (length bs) <= max /\
    ((0 <= r /\ exists s, bs = s ++ [NUL] /\ string_at m0 um0 a s /\ Z.of_nat (length s) < max) \/
     (r < 0 /\ ((forall s, string_at m0 um0 a s -> Z.of_nat (length s) < max -> exists x, a <= x <= a + Z.of_nat (length s) /\ closed um0 sz x) \/
       (length free' <= 2)%nat))).
Proof.
  intros Hs Ha Hmax. unfold fetchstr.
  destruct (copyinstr_loop_spec kend Hend UVPN Huvpn (pagetable p) (ps ++ rest0) sz size_limit (Z.to_nat max) a max [] k t um free (sg_space _ _ _ _ _ _ Hs) (sg_users _ _ _ _ _ _ Hs))
    as (r & n & k' & t' & um' & free' & E & Hss & Hse & Hn & Hnul & Hr); [lia | lia|]. unfold copyinstr. rewrite E. cbn [mbind option_bind app].
  pose proof (stage_copy _ _ _ _ _ _ _ _ _ _ Hs Hss Hse) as Hs'. rewrite (stage_ubytes _ _ _ _ _ _ _ _ Hs Ha Hn) in *.
  destruct Hr as [(-> & Hlt & Hb & Hz)|[(-> & ->)|(-> & Hlt & Hd)]].
  - cbn [Z.ltb Z.compare]. eexists _, _, k', t', um', free'. split; [done|]. split; [done|]. rewrite length_app, length_ubytes. cbn [length]. split; [lia|]. left. split; [lia|].
    eexists. split; [done|]. rewrite length_ubytes. split; [|done]. split; [done|]. rewrite length_ubytes. split; [done|].
    rewrite <- (sg_sees _ _ _ _ _ _ Hs) by lia. done.
  - change (-1 <? 0) with true. cbv iota. eexists (-1), _, k', t', um', free'. split; [done|]. split; [done|]. rewrite length_ubytes. split; [lia|]. right. split; [done|]. left.
    intros s Hst Hl. pose proof (string_longest _ _ _ _ _ Hst Hnul). lia.
  - change (-1 <? 0) with true. cbv iota. eexists (-1), _, k', t', um', free'. split; [done|]. split; [done|]. rewrite length_ubytes. split; [lia|]. right. split; [done|].
    destruct (stage_denied _ _ _ _ _ _ _ Hs' Hd) as [Hc|Hc]; [left | by right]. intros s Hst Hl. pose proof (string_longest _ _ _ _ _ Hst Hnul).
    exists (a + Z.of_nat n). split; [lia | done].
Qed.

(** The part of the vector that was read. *)
Record read_part (a1 : Z) (ptrs : list Z) (strs : list cstr) : Prop := mkPart {
  rp_room : ptrs = [] \/ a1 + 8 * Z.of_nat (length ptrs) <= sz;
  rp_words : forall j a, ptrs !! j = Some a -> word_at m0 um0 (a1 + 8 * Z.of_nat j) = a;
  rp_strings : Forall2 (fun a s => a <> 0 /\ string_at m0 um0 a s /\ Z.of_nat (length s) < PGSIZE) ptrs strs
}.

Lemma part_more a1 ptrs strs ptrs' argv' : read_part a1 ptrs strs -> vector m0 um0 sz a1 ptrs' argv' -> (length ptrs <= length ptrs')%nat.
Proof.
  intros Hp Hv. destruct (decide (length ptrs <= length ptrs')%nat) as [|Hlt]; [done|]. exfalso.
  destruct (lookup_lt_is_Some_2 ptrs (length ptrs') ltac:(lia)) as [a Ha]. pose proof (rp_words _ _ _ Hp _ _ Ha) as Hw.
  rewrite (vc_words _ _ _ _ _ _ Hv) in Hw by lia. rewrite lookup_ge_None_2 in Hw by lia. simpl in Hw. subst a.
  destruct (Forall2_lookup_l _ _ _ _ _ (rp_strings _ _ _ Hp) Ha) as (? & _ & ? & _). done.
Qed.

Lemma part_done a1 ptrs strs : read_part a1 ptrs strs -> (length ptrs < MAXARG)%nat -> a1 + 8 * Z.of_nat (length ptrs) + 8 <= sz ->
  word_at m0 um0 (a1 + 8 * Z.of_nat (length ptrs)) = 0 -> vector m0 um0 sz a1 ptrs strs.
Proof.
  intros [H1 H2 H3] Hl Hr Hw. split; [done | lia | | done]. intros j Hj. destruct (ptrs !! j) as [a|] eqn:E; [by apply H2|]. simpl.
  apply lookup_ge_None in E. by replace j with (length ptrs) by lia.
Qed.

Lemma part_snoc a1 ptrs strs s : read_part a1 ptrs strs -> a1 + 8 * Z.of_nat (length ptrs) + 8 <= sz ->
  let a := word_at m0 um0 (a1 + 8 * Z.of_nat (length ptrs)) in a <> 0 -> string_at m0 um0 a s -> Z.of_nat (length s) < PGSIZE ->
  read_part a1 (ptrs ++ [a]) (strs ++ [s]).
Proof.
  intros [H1 H2 H3] Hr a Ha Hs Hl. split.
  - right. rewrite length_app. simpl. lia.
  - intros j b [Hj|[Hj Hb]]%lookup_app_Some; [by apply H2|]. pose proof (lookup_lt_Some _ _ _ Hb) as Hlt. simpl in Hlt.
    replace (j - length ptrs)%nat with 0%nat in Hb by lia. injection Hb as <-. unfold a. do 3 f_equal. lia.
  - apply Forall2_app; [done|]. by constructor.
Qed.

(** The loop stops at the end of the vector, or has a reason. *)
Lemma exec_args_spec a1 : 0 <= a1 < 2 ^ 64 -> forall n ps strs ptrs k t um free,
  stage ps strs k t um free -> (n + length ps = MAXARG)%nat -> length ptrs = length ps -> read_part a1 ptrs strs ->
  exists ok ps' strs' k' t' um' free', exec_args kend n a1 ps p k = Some (ok, ps', k') /\ (length ps' <= MAXARG)%nat /\ stage ps' strs' k' t' um' free' /\
    if ok : bool then length strs' = length ps' /\ exists ptrs', vector m0 um0 sz a1 ptrs' strs'
    else forall ptrs' argv', vector m0 um0 sz a1 ptrs' argv' ->
      (exists x, vector_bytes a1 ptrs' argv' x /\ closed um0 sz x) \/ (length free' + length ps' <= 3 + length ptrs')%nat.
Proof.
  intros Ha1 n. induction n as [|n IH]; intros ps strs ptrs k t um free Hs Hlen Hptrs Hpart; cbn [exec_args]; pose proof (Forall2_length _ _ _ (rp_strings _ _ _ Hpart)) as Hl2.
  { exists false, ps, strs, k, t, um, free. split; [done|]. split; [lia|]. split; [done|]. intros ptrs' argv' Hv. pose proof (part_more _ _ _ _ _ Hpart Hv).
    pose proof (vc_few _ _ _ _ _ _ Hv). lia. }
  assert (Eu : u64 (a1 + 8 * Z.of_nat (length ps)) = a1 + 8 * Z.of_nat (length ps)).
  { assert (TRAPFRAME < 2 ^ 64) by done. unfold u64. apply Z.mod_small. rewrite <- Hptrs. destruct (rp_room _ _ _ Hpart) as [->|]; [simpl; lia | lia]. }
  rewrite Eu. set (w := a1 + 8 * Z.of_nat (length ps)) in *.
  assert (Hw64 : 0 <= w < 2 ^ 64) by (rewrite <- Eu; apply Z.mod_pos_bound; done).
  destruct (fetchaddr_spec _ _ _ _ _ _ w Hs Hw64) as (o & k1 & t1 & um1 & free1 & -> & Hs1 & Ho). cbn [mbind option_bind].
  destruct o as [uarg|]; cycle 1.
  { exists false, ps, strs, k1, t1, um1, free1. split; [done|]. split; [lia|]. split; [done|]. intros ptrs' argv' Hv. pose proof (part_more _ _ _ _ _ Hpart Hv). pose proof (vc_room _ _ _ _ _ _ Hv).
    destruct Ho as [Hr|[(x & Hx & Hc)|Hf]]; [lia | left | right; lia]. exists x. split; [|done]. left. lia. }
  destruct Ho as [Hroom ->]. assert (Ew : w = a1 + 8 * Z.of_nat (length ptrs)) by lia. clearbody w. destruct (Z.eqb_spec (word_at m0 um0 w) 0) as [Ez|Hnz].
  { exists true, ps, strs, k1, t1, um1, free1. split; [done|]. split; [lia|]. split; [done|]. split; [lia|]. exists ptrs. apply part_done; [done | lia | lia | by rewrite <- Ew]. }
  destruct free1 as [|pg free1].
  { rewrite (kalloc_spec kend Hend k1 [] (vm_kmem _ _ _ _ _ _ (as_vm _ _ _ _ _ _ _ _ (sg_space _ _ _ _ _ _ Hs1)))). cbn [Z.eqb].
    exists false, ps, strs, k1, t1, um1, []. split; [done|]. split; [lia|]. split; [done|]. intros ptrs' argv' Hv.
    pose proof (part_more _ _ _ _ _ Hpart Hv). right. simpl. lia. }
  destruct (stage_take _ _ _ _ _ _ _ Hs1 ltac:(lia)) as (k2 & -> & Hpnz & Hs2). destruct (Z.eqb_spec pg 0); [done|].
  destruct (fetchstr_spec _ _ _ _ _ _ (word_at m0 um0 w) PGSIZE Hs2) as (r & bs & k3 & t3 & um3 & free3 & -> & Hs3 & Hbs & Hr); [apply le_range | done|]. cbn [mbind option_bind].
  destruct Hr as [(Hr & s & -> & Hst & Hsl)|(Hr & Hwhy)].
  - destruct (Z.ltb_spec r 0); [lia|]. destruct Hst as [Hn Hst].
    pose proof (stage_store _ _ _ _ _ _ _ s Hs3 ltac:(lia) Hn Hsl) as Hs4.
    apply (IH (ps ++ [pg]) (strs ++ [s]) (ptrs ++ [word_at m0 um0 w]) _ t3 um3 free3); [done | rewrite length_app; simpl; lia | rewrite !length_app; simpl; lia|].
    rewrite Ew in *. apply part_snoc; done.
  - destruct (Z.ltb_spec r 0); [|lia]. exists false, (ps ++ [pg]), strs, (set_bytes (write pg bs) k3), t3, um3, free3. split; [done|].
    split; [rewrite length_app; simpl; lia|]. split; [apply stage_write; [done | lia | lia]|].
    intros ptrs' argv' Hv. pose proof (part_more _ _ _ _ _ Hpart Hv) as Hm. destruct Hwhy as [Hwhy|Hf]; [left | right; rewrite length_app; simpl; lia]. pose proof (vc_words _ _ _ _ _ _ Hv (length ptrs) Hm) as Hw. rewrite <- Ew in Hw.
    destruct (ptrs' !! length ptrs) as [a|] eqn:Ea; [|simpl in Hw; congruence]. simpl in Hw.
    destruct (Forall2_lookup_l _ _ _ _ _ (vc_strings _ _ _ _ _ _ Hv) Ea) as (s & Es & _ & Hst & Hsl). rewrite <- Hw in Hst.
    destruct (Hwhy s Hst Hsl) as (x & Hx & Hc). exists x. split; [|done]. right. exists (length ptrs), a, s. rewrite <- Hw in *. done.
Qed.

Lemma stage_start : pspace k0 (pagetable p) t0 um0 free0 rest0 sz -> stage [] [] k0 t0 um0 free0.
Proof. intros [A B C D]. split; rewrite ?app_nil_r; try done. by left. Qed.

Lemma stage_pspace ps strs k t um free : pspace k0 (pagetable p) t0 um0 free0 rest0 sz -> stage ps strs k t um free ->
  pspace k (pagetable p) t um free (ps ++ rest0) sz.
Proof.
  intros [_ _ _ D] Hs. split; [apply Hs | apply Hs | done|]. intros v e [He|[_ Hv]]%(sg_new _ _ _ _ _ _ Hs); [by apply (D v e)|]. left. by apply pages_of_lt.
Qed.
End Stage.

(** The pages of the arguments are given back. *)
Lemma free_args_spec root t um rest sz ps : forall k free, pspace k root t um free (ps ++ rest) sz ->
  exists k' free', free_args kend ps k = Some k' /\ pspace k' root t um free' rest sz /\ free' ≡ₚ free ++ ps /\ keeps (bytes k) (bytes k') (data um ++ rest).
Proof.
  induction ps as [|pg ps IH]; intros k free Hps; cbn [free_args].
  { exists k, free. rewrite app_nil_r. split_and!; try done. }
  destruct Hps as [A B C D]. destruct (give_page kend Hend UVPN k root t um pg free (ps ++ rest) A) as (k1 & -> & A1 & Hk1). cbn [mbind option_bind].
  destruct (IH k1 (pg :: free)) as (k2 & free2 & -> & Hps2 & Hf & Hk2); [by split|]. exists k2, free2. split; [done|]. split; [done|]. split.
  - rewrite Hf. apply Permutation_middle.
  - eapply kp_trans; [|exact Hk2]. apply (keeps_sub _ _ _ _ Hk1). set_solver.
Qed.

Lemma pspace_perm k root t um free rest rest' sz : rest ≡ₚ rest' -> pspace k root t um free rest sz -> pspace k root t um free rest' sz.
Proof. intros Hp [A B C D]. split; try done. by apply (aspace_perm kend UVPN _ _ _ _ _ rest). Qed.

Lemma started_keeps m m' um argv top tf epc : started m um argv top tf epc -> PGSIZE <= top <= TRAPFRAME -> keeps m m' (data um ++ [tf]) ->
  started m' um argv top tf epc.
Proof.
  intros [A B C D E F G] Ht Hk.
  assert (Hu : forall x, 0 <= x < TRAPFRAME -> ubyte m' um x = ubyte m um x).
  { intros x Hx. rewrite trapframe_limit in Hx. apply (ubyte_keeps UVPN); [done|]. apply (keeps_sub _ _ _ _ Hk). set_solver. }
  assert (Hr : forall o, 0 <= o -> o + 8 <= PGSIZE -> load64 m' (tf + o) = load64 m (tf + o)).
  { intros o H1 H2. apply load64_ext. intros x Hx. apply (Hk tf); [set_solver | lia]. }
  pose proof (align_down (bottom top argv - (Z.of_nat (length argv) + 1) * 8)) as Hal. fold (vector_at top argv) in Hal. pose proof (bottom_le argv top).
  split; try (rewrite Hr by (done || vm_compute; congruence)); try done.
  - apply (strings_keep um m _ argv top (bottom top argv)) with (lo := bottom top argv); try done; try lia. intros x Hx _. by apply Hu.
  - rewrite <- B. apply ubytes_ext. intros x Hx. apply Hu. lia.
Qed.

(** ** The call *)
Section Call.
Context (sb : superblock) (Hlay : layout_ok sb) (trampoline : Z) (Htramp : 0 <= trampoline < 2 ^ 56) (Htal : trampoline mod PGSIZE = 0).

(** The path names a file in good order: it is locked in [s2], and released
    in [s3]. *)
Definition found (cwd : nat) (path : cstr) (s : fsys) (i : nat) (s2 s3 : fsys) : Prop :=
  exists s1, namei sb cwd path s = Ok (Some i, s1) /\ ilock sb i s1 = Ok s2 /\ iunlockput sb i s2 = Ok s3 /\
    disk_ok sb (fdisk s2) /\ file_ok sb (fdisk s2) (Itable.entry i s2).

(** The process did not change, and why. *)
Definition unserved (cwd : nat) (m : ram) (um : vmap) (sz a0 a1 : Z) (s s' : fsys) (free' : list Z) : Prop :=
  (s' = s /\ forall path ptrs argv, asks m um sz a0 a1 path ptrs argv ->
     (exists x, (a0 <= x <= a0 + Z.of_nat (length path) \/ vector_bytes a1 ptrs argv x) /\ closed um sz x) \/ (length free' <= 3 + length argv)%nat) \/
  exists path ptrs argv, asks m um sz a0 a1 path ptrs argv /\
    (namei sb cwd path s = Ok (None, s') \/
     exists i s2 free1, found cwd path s i s2 s' /\ not_run (fdisk s2) (Itable.entry i s2) argv free1 /\ (length free' < length free1 + MAXARG)%nat).

(** The process runs the program it asked for. *)
Definition served (cwd : nat) (m : ram) (um : vmap) (sz a0 a1 tf : Z) (s s' : fsys) (r : Z) (p' : eproc) (k' : kmem) (um' : vmap) : Prop :=
  exists path ptrs argv i s2, asks m um sz a0 a1 path ptrs argv /\ found cwd path s i s2 s' /\ r = Z.of_nat (length argv) /\
    let d := fdisk s2 in let ip := Itable.entry i s2 in let top := stack_top (image_size (elf_headers d ip)) in
    (exists root, p' = mkEproc root top tf (exec_name path)) /\
    (forall x, 0 <= x < top - PGSIZE -> ubyte (bytes k') um' x = image d ip (elf_headers d ip) x) /\
    started (bytes k') um' argv top tf (entry_pc (elf_of d ip)).

(** What every outcome has: the memory is in order and no page is lost. *)
Definition balanced (k : kmem) (t : tree) (um : vmap) (free : list Z) (tf : Z) (others : list Z) (p' : eproc) (k' : kmem) (t' : tree) (um' : vmap) (free' : list Z) : Prop :=
  pspace k' (pagetable p') t' um' free' (tf :: others) (psz p') /\ keeps (bytes k) (bytes k') others /\
  tables t' ++ data um' ++ free' ≡ₚ tables t ++ data um ++ free.

Section One.
Context (p : eproc) (k : kmem) (t : tree) (um : vmap) (free others : list Z).
Context (Hps : pspace k (pagetable p) t um free (trapframe p :: others) (psz p)).
Local Abbreviation tf := (trapframe p).
Local Abbreviation stage := (stage p k t um free (tf :: others)).

(** Giving up: the arguments so far are freed. *)
Lemma abandon_args ps strs k1 t1 um1 free1 : stage ps strs k1 t1 um1 free1 ->
  exists k2 free2, free_args kend ps k1 = Some k2 /\ balanced k t um free tf others p k2 t1 um1 free2 /\ free2 ≡ₚ free1 ++ ps /\
    (forall va, 0 <= va < TRAPFRAME -> ubyte (bytes k2) um1 va = ubyte (bytes k) um va) /\ keeps (bytes k) (bytes k2) [tf].
Proof.
  intros Hs. destruct (free_args_spec (pagetable p) t1 um1 (tf :: others) (psz p) ps k1 free1) as (k2 & free2 & E & Hps2 & Hf & Hk);
    [by apply (stage_pspace p k t um free (tf :: others) (ps_size _ _ _ _ _ _ _ _ Hps) ps strs)|].
  exists k2, free2. pose proof (sg_rest _ _ _ _ _ _ _ _ _ _ _ _ Hs) as Hr. assert (Hkr : keeps (bytes k) (bytes k2) (tf :: others)) by (eapply kp_trans; [exact Hr|]; apply (keeps_sub _ _ _ _ Hk); set_solver).
  split; [done|]. split; [split; [done|]; split|].
  - apply (keeps_sub _ _ _ _ Hkr). set_solver.
  - rewrite Hf. apply (sg_total _ _ _ _ _ _ _ _ _ _ _ _ Hs).
  - split; [done|]. split; [|apply (keeps_sub _ _ _ _ Hkr); set_solver]. intros va Hva. rewrite trapframe_limit in Hva. rewrite <- (sg_sees _ _ _ _ _ _ _ _ _ _ _ _ Hs) by done.
    apply (ubyte_keeps UVPN); [done|]. apply (keeps_sub _ _ _ _ Hk). set_solver.
Qed.

(** The strings in the pages are the strings of the process. *)
Lemma stage_strings ps strs k1 t1 um1 free1 : stage ps strs k1 t1 um1 free1 -> length strs = length ps -> page_string (bytes k1) <$> ps = strs.
Proof.
  intros Hs Hl. apply list_eq_same_length with (n := length ps); [done | by rewrite length_fmap|]. intros i x y Hi Hx Hy.
  rewrite list_lookup_fmap in Hx. apply fmap_Some in Hx as (pg & Hpg & ->). by apply (sg_strs _ _ _ _ _ _ _ _ _ _ _ _ Hs i).
Qed.

(** [kexec] and what follows it. *)
Lemma run_request cwd s path ptrs argv ps k1 t1 um1 free1 a0 a1 :
  asks (bytes k) um (psz p) a0 a1 path ptrs argv -> stage ps argv k1 t1 um1 free1 -> length argv = length ps ->
  (exists s1, namei sb cwd path s = Ok (None, s1)) \/ (exists i s2 s3, found cwd path s i s2 s3) ->
  exists r p' s' k2 k' t' um' free', kexec sb kend trampoline path argv cwd p s k1 = Ok (r, p', s', k2) /\ free_args kend ps k2 = Some k' /\
    balanced k t um free tf others p' k' t' um' free' /\
    ((r = -1 /\ p' = p /\ (forall va, 0 <= va < TRAPFRAME -> ubyte (bytes k') um' va = ubyte (bytes k) um va) /\ keeps (bytes k) (bytes k') [tf] /\
        unserved cwd (bytes k) um (psz p) a0 a1 s s' free') \/
     served cwd (bytes k) um (psz p) a0 a1 tf s s' r p' k' um').
Proof.
  intros Hrq Hs Hl [(s1 & En)|(i & s2 & s3 & Hfd)].
  { destruct (abandon_args _ _ _ _ _ _ Hs) as (k2 & free2 & E & Hb & Hf & Hu & Hk). exists (-1), p, s1, k1, k2, t1, um1, free2. unfold kexec. rewrite En. split; [done|]. split; [done|].
    split; [done|]. left. split_and!; try done. right. exists path, ptrs, argv. split; [done|]. by left. }
  pose proof (Forall2_length _ _ _ (vc_strings _ _ _ _ _ _ (rq_vector _ _ _ _ _ _ _ _ Hrq))) as Hlp. pose proof (vc_few _ _ _ _ _ _ (rq_vector _ _ _ _ _ _ _ _ Hrq)) as Hfew.
  pose proof Hfd as (s1 & En & El & Eu & Hd & Hip).
  pose proof (stage_pspace p k t um free (tf :: others) (ps_size _ _ _ _ _ _ _ _ Hps) ps argv k1 t1 um1 free1 Hps Hs) as Hps1.
  assert (Hperm : ps ++ tf :: others ≡ₚ tf :: ps ++ others) by (symmetry; apply Permutation_middle).
  destruct (kexec_spec kend Hend sb Hlay trampoline Htramp Htal path argv cwd p s k1 t1 um1 free1 (ps ++ others) i s1 s2 s3 En El Eu Hd Hip)
    as (r & p' & k2 & t2 & um2 & free2 & E & Hps2 & Hk2 & Htot & Hres); [by apply (pspace_perm _ _ _ _ _ (ps ++ tf :: others)) | | lia|].
  { apply Forall_forall. intros a Ha. apply list_elem_of_lookup in Ha as [j Hj].
    destruct (Forall2_lookup_r _ _ _ _ _ (vc_strings _ _ _ _ _ _ (rq_vector _ _ _ _ _ _ _ _ Hrq)) Hj) as (? & _ & _ & _ & ?). done. }
  destruct (free_args_spec (pagetable p') t2 um2 (tf :: others) (psz p') ps k2 free2) as (k3 & free3 & E3 & Hps3 & Hf3 & Hk3);
    [by apply (pspace_perm _ _ _ _ _ (tf :: ps ++ others))|].
  pose proof (sg_rest _ _ _ _ _ _ _ _ _ _ _ _ Hs) as Hr0.
  assert (Hko : keeps (bytes k) (bytes k3) others).
  { eapply kp_trans; [apply (keeps_sub _ _ _ _ Hr0); set_solver|]. eapply kp_trans; [apply (keeps_sub _ _ _ _ Hk2); set_solver|]. apply (keeps_sub _ _ _ _ Hk3). set_solver. }
  exists r, p', s3, k2, k3, t2, um2, free3. split; [done|]. split; [done|]. split.
  { split; [done|]. split; [done|]. rewrite Hf3, <- (sg_total _ _ _ _ _ _ _ _ _ _ _ _ Hs). rewrite !app_assoc. apply Permutation_app_tail. by rewrite <- !app_assoc. }
  destruct Hres as [(-> & -> & [= -> ->] & Hkd & Hno)|(-> & (root & ->) & Hby & Hst)]; [left | right].
  - split; [done|]. split; [done|]. split; [|split].
    + intros va Hva. rewrite trapframe_limit in Hva. rewrite <- (sg_sees _ _ _ _ _ _ _ _ _ _ _ _ Hs) by done. apply (ubyte_keeps UVPN); [done|].
      eapply kp_trans; [apply (keeps_sub _ _ _ _ Hkd); set_solver|]. apply (keeps_sub _ _ _ _ Hk3). set_solver.
    + eapply kp_trans; [apply (keeps_sub _ _ _ _ Hr0); set_solver|]. eapply kp_trans; [apply (keeps_sub _ _ _ _ Hkd); set_solver|]. apply (keeps_sub _ _ _ _ Hk3). set_solver.
    + right. exists path, ptrs, argv. split; [done|]. right. exists i, s2, free1. split; [done|]. split; [done|].
      apply Permutation_app_inv_l, Permutation_app_inv_l in Htot. rewrite (Permutation_length Hf3), length_app, (Permutation_length Htot). lia.
  - exists path, ptrs, argv, i, s2. split; [done|]. split; [done|]. split; [done|]. split; [by eexists|].
    pose proof (ps_size _ _ _ _ _ _ _ _ Hps3) as Hsz3. cbn [psz] in Hsz3. split.
    + intros x Hx. rewrite <- Hby by done. apply (ubyte_keeps UVPN); [rewrite <- trapframe_limit; change PGSIZE with 4096 in Hx; lia|]. apply (keeps_sub _ _ _ _ Hk3). set_solver.
    + apply (started_keeps (bytes k2)); [done | | apply (keeps_sub _ _ _ _ Hk3); set_solver].
      pose proof (sd_fits _ _ _ _ _ _ Hst). split; [|lia]. unfold stack_top.
      assert (0 <= pages_of (image_size (elf_headers (fdisk s2) (Itable.entry i s2)))) by (apply pages_of_nonneg, add_size_le). change PGSIZE with 4096. lia.
Qed.
End One.

(** C17: [sys_exec] serves the request in the memory of the process.  Whatever
    the registers and the memory of the process hold, provided the lookup of a
    path that can be read does not itself panic, the call does not panic,
    leaves pages of others alone and loses none: the pages it copies the
    arguments to are free again on every path.  Either it returns -1, and then
    the process sees the memory it saw, has its registers, and there is a
    reason: no request can be read at the addresses in its registers (a path
    of less than 128 bytes, a vector of less than 32 pointers that ends with a
    null, each to a string that fits a page), or one that can leads through a
    page that is closed to it, or memory is short; or the request is there and
    its file does not exist or cannot be run.  Or it runs the file at the path
    with exactly the strings of the vector. *)
Theorem sys_exec_serves p s k t um free others cwd :
  pspace k (pagetable p) t um free (trapframe p :: others) (psz p) ->
  let tf := trapframe p in let a0 := load64 (bytes k) (tf + TF_A0) in let a1 := load64 (bytes k) (tf + TF_A1) in
  (forall path ptrs argv, asks (bytes k) um (psz p) a0 a1 path ptrs argv ->
     (exists s1, namei sb cwd path s = Ok (None, s1)) \/ exists i s2 s3, found cwd path s i s2 s3) ->
  exists r p' s' k' t' um' free', sys_exec kend sb trampoline cwd p s k = Ok (r, p', s', k') /\
    balanced k t um free tf others p' k' t' um' free' /\
    ((r = -1 /\ p' = p /\ (forall va, 0 <= va < TRAPFRAME -> ubyte (bytes k') um' va = ubyte (bytes k) um va) /\ keeps (bytes k) (bytes k') [tf] /\
        unserved cwd (bytes k) um (psz p) a0 a1 s s' free') \/
     served cwd (bytes k) um (psz p) a0 a1 tf s s' r p' k' um').
Proof.
  intros Hps tf a0 a1 Hfile. pose proof (ps_size _ _ _ _ _ _ _ _ Hps) as Hsz. unfold sys_exec.
  assert (E1 : argaddr 1 p k = Some a1) by done. assert (E0 : argstr kend 0 MAXPATH p k = fetchstr kend a0 MAXPATH p k) by done. rewrite E1, E0, or_panic_some.
  pose proof (load64_range (bytes k) (tf + TF_A0)) as H0. pose proof (load64_range (bytes k) (tf + TF_A1)) as H1. fold a0 in H0. fold a1 in H1.
  destruct (fetchstr_spec p k t um free (tf :: others) Hsz [] [] k t um free a0 MAXPATH (stage_start p k t um free _ Hps)) as (r & bs & k1 & t1 & um1 & free1 & -> & Hs1 & _ & Hr);
    [apply H0 | done|]. rewrite or_panic_some.
  assert (Hfail : forall ps strs k2 t2 um2 free2 (o : res kmem), stage p k t um free (tf :: others) ps strs k2 t2 um2 free2 -> (length ps <= MAXARG)%nat ->
    o = or_panic (free_args kend ps k2) ->
    (forall path ptrs argv, asks (bytes k) um (psz p) a0 a1 path ptrs argv ->
       (exists x, (a0 <= x <= a0 + Z.of_nat (length path) \/ vector_bytes a1 ptrs argv x) /\ closed um (psz p) x) \/ (length free2 + length ps <= 3 + length argv)%nat) ->
    exists r p' s' k' t' um' free', (k ← o; Ok (-1, p, s, k)) = Ok (r, p', s', k') /\ balanced k t um free tf others p' k' t' um' free' /\
      ((r = -1 /\ p' = p /\ (forall va, 0 <= va < TRAPFRAME -> ubyte (bytes k') um' va = ubyte (bytes k) um va) /\ keeps (bytes k) (bytes k') [tf] /\
        unserved cwd (bytes k) um (psz p) a0 a1 s s' free') \/ served cwd (bytes k) um (psz p) a0 a1 tf s s' r p' k' um')).
  { intros ps strs k2 t2 um2 free2 o Hs Hlen -> Hwhy. destruct (abandon_args p k t um free others Hps _ _ _ _ _ _ Hs) as (k3 & free3 & -> & Hb & Hf & Hu & Hk).
    exists (-1), p, s, k3, t2, um2, free3. split; [done|]. split; [done|]. left. split_and!; try done. left. split; [done|].
    intros path ptrs argv Hrq. rewrite (Permutation_length Hf), length_app. by apply (Hwhy path ptrs argv). }
  destruct Hr as [(Hr & path & -> & Hpath & Hpl)|(Hr & Hwhy)]; cycle 1.
  { destruct (Z.ltb_spec r 0); [|lia]. apply (Hfail [] [] k1 t1 um1 free1 (Ok k1) Hs1); [simpl; lia | done|].
    intros path ptrs argv Hrq. destruct Hwhy as [Hwhy|]; [left | right; simpl; lia]. destruct (rq_path _ _ _ _ _ _ _ _ Hrq) as [Hp Hl]. destruct (Hwhy path Hp Hl) as (x & Hx & Hc). exists x. split; [by left | done]. }
  destruct (Z.ltb_spec r 0); [lia|].
  destruct (exec_args_spec p k t um free (tf :: others) Hsz a1 H1 MAXARG [] [] [] k1 t1 um1 free1 Hs1) as (ok & ps & strs & k2 & t2 & um2 & free2 & -> & Hlen & Hs2 & Hok);
    [apply Nat.add_0_r | done | split; [by left | by intros j a Hj; rewrite lookup_nil in Hj | constructor]|]. rewrite or_panic_some.
  destruct ok; cycle 1.
  { apply (Hfail ps strs k2 t2 um2 free2 _ Hs2); [done | done|]. intros path' ptrs argv Hrq.
    rewrite <- (Forall2_length _ _ _ (vc_strings _ _ _ _ _ _ (rq_vector _ _ _ _ _ _ _ _ Hrq))).
    destruct (Hok ptrs argv (rq_vector _ _ _ _ _ _ _ _ Hrq)) as [(x & Hx & Hc)|Hf]; [left; exists x; split; [by right | done] | by right]. }
  destruct Hok as (Hls & ptrs & Hv). assert (Hrq : asks (bytes k) um (psz p) a0 a1 path ptrs strs) by (by split).
  rewrite (stage_strings p k t um free others ps strs k2 t2 um2 free2 Hs2 Hls). unfold buf_string. rewrite (scan_nul_string path []) by apply Hpath. cbn [fst].
  destruct (run_request p k t um free others Hps cwd s path ptrs strs ps k2 t2 um2 free2 a0 a1 Hrq Hs2 Hls (Hfile path ptrs strs Hrq))
    as (r' & p' & s' & k3 & k4 & t4 & um4 & free4 & -> & E4 & Hb & Hres). rewrite bind_ok, E4, or_panic_some.
  exists r', p', s', k4, t4, um4, free4. done.
Qed.
End Call.
End Sysexec.

(** ** A process that asks for a program *)
Definition demo_words : list ascii := str "/" ++ replicate 7 NUL ++ str "sh" ++ replicate 6 NUL ++ unle 8 8 ++ unle 8 0.

(** The words are at address 0, the registers point to them. *)
Lemma demo_asks : exists k p t um free, pspace demo_end k (pagetable p) t um free [trapframe p] (psz p) /\
  load64 (bytes k) (trapframe p + TF_A0) = 0 /\ load64 (bytes k) (trapframe p + TF_A1) = 16 /\ psz p = 10000 /\
  forall x, 0 <= x < 32 -> ubyte (bytes k) um x = nth (Z.to_nat x) demo_words NUL.
Proof.
  destruct demo_open_space as (k & root & t & um & free & tf & _ & [A B C D] & Hopen). assert (He : KERNBASE <= demo_end) by (vm_compute; discriminate).
  set (k1 := set_bytes (fun m => store64 (tf + TF_A1) 16 (store64 (tf + TF_A0) 0 m)) k).
  assert (Hps1 : pspace demo_end k1 root t um free [tf] 10000).
  { split; try done. apply (write_page demo_end He UVPN _ _ _ _ _ _ tf); [done | apply elem_of_app; right; by apply list_elem_of_singleton|].
    intros m x Hx. rewrite !store64_out by (unfold TF_A0, TF_A1, PGSIZE in *; lia). done. }
  destruct (copyout_mapped demo_end He root [tf] t um free 10000 10000 0 demo_words k1 Hps1) as (k2 & _ & Hps2 & Hk2 & Hby).
  - lia.
  - vm_compute. discriminate.
  - intros x Hx. change (length demo_words) with 32%nat in Hx. unfold writable_at. replace (x / PGSIZE) with 0 by (symmetry; apply Z.div_small; unfold PGSIZE; lia). apply Hopen. lia.
  - assert (Hreg : forall o, 0 <= o -> o + 8 <= PGSIZE -> load64 (bytes k2) (tf + o) = load64 (bytes k1) (tf + o)).
    { intros o H1 H2. apply load64_ext. intros x Hx. apply (Hk2 tf); [by apply list_elem_of_singleton | lia]. }
    exists k2, (mkEproc root 10000 tf []), t, um, free. split; [done|]. cbn [trapframe psz].
    rewrite !Hreg by (vm_compute; discriminate). unfold k1. cbn [set_bytes bytes].
    split; [rewrite load64_store64_ne by (unfold TF_A0, TF_A1; lia); by apply load64_store64|]. split; [by apply load64_store64|]. split; [done|].
    intros x Hx. rewrite Hby by (assert (32 <= TRAPFRAME) by (vm_compute; discriminate); lia). change (length demo_words) with 32%nat.
    destruct (Z.leb_spec 0 x), (Z.ltb_spec x (0 + Z.of_nat 32)); try lia. cbn [andb]. by rewrite Z.sub_0_r.
Qed.

(** The path at 0 can only be the root directory. *)
Lemma demo_path m um path : (forall x, 0 <= x < 32 -> ubyte m um x = nth (Z.to_nat x) demo_words NUL) -> string_at m um 0 path -> path = str "/".
Proof.
  intros Hm Hs. assert (E1 : ubytes m um 0 1 = str "/") by (cbn [ubytes]; rewrite Hm by lia; done).
  pose proof (string_longest m um 0 path 1 Hs ltac:(rewrite E1; by intros ?%list_elem_of_singleton)) as Hl. destruct Hs as (Hn & Hb & _).
  assert (length path = 1%nat) as Hl1.
  { destruct (decide (2 <= length path)%nat) as [H2|]; [|lia]. exfalso. apply Hn. rewrite <- Hb. apply (list_elem_of_lookup_2 _ 1). rewrite ubytes_lookup by lia. by rewrite Hm. }
  by rewrite <- Hb, Hl1.
Qed.

Lemma sys_exec_serves_witness : exists k p r p' s' k', sys_exec demo_end demo_sb KERNBASE 0 p elf_fs k = Ok (r, p', s', k') /\
  ((r = -1 /\ p' = p) \/ (exists um t0 free ptrs argv, asks (bytes k) um (psz p) 0 16 (str "/") ptrs argv /\ r = Z.of_nat (length argv) /\
     pspace demo_end k (pagetable p) t0 um free [trapframe p] (psz p))).
Proof.
  destruct demo_asks as (k & p & t & um & free & Hps & E0 & E1 & Esz & Hm). assert (He : KERNBASE <= demo_end) by (vm_compute; discriminate).
  destruct (iunlockput demo_sb 0 elf_fs2) as [s3| |] eqn:Eu; [|exfalso; vm_compute in Eu; discriminate Eu..].
  destruct (sys_exec_serves demo_end He demo_sb demo_layout KERNBASE ltac:(split; done) eq_refl p elf_fs k t um free [] 0 Hps) as (r & p' & s' & k' & t' & um' & free' & E & _ & Hres).
  - intros path ptrs argv Hrq. right. exists 0%nat, elf_fs2, s3. rewrite E0 in Hrq. rewrite (demo_path _ _ path Hm (proj1 (rq_path _ _ _ _ _ _ _ _ Hrq))).
    exists (set_entry 0 (set_lock false (set_ref 2 elf_ip)) (iinit elf_disk)). split; [vm_compute; reflexivity|]. split; [vm_compute; reflexivity|]. split; [exact Eu|].
    split; [apply elf_file | exact elf_file2].
  - exists k, p, r, p', s', k'. split; [exact E|]. destruct Hres as [(-> & -> & _)|(path & ptrs & argv & i & s2 & Hrq & _ & -> & _)]; [left; done | right].
    rewrite E0, E1 in Hrq. pose proof (demo_path _ _ path Hm (proj1 (rq_path _ _ _ _ _ _ _ _ Hrq))) as ->. exists um, t, free, ptrs, argv. done.
Defined.
