(* ===== verification/Kvm.v ===== *)
(** * The address space of the kernel (xv6/kernel/vm.c: kvmmake; proc.c: proc_mapstacks)

    The table of the kernel is made once, at boot: devices and memory at their
    own addresses, the trampoline at the top, and below it a stack for every
    process between pages that are not mapped. *)
From S2P Require Import Prelude Ram Kalloc Pagetable Vm Space Uvm Uvmfree.
Local Open Scope Z_scope.

Definition UART0 : Z := 0x10000000.
Definition VIRTIO0 : Z := 0x10001000.
Definition PLIC : Z := 0x0c000000.
Definition NPROC : nat := 64.
Definition KSTACK (p : Z) : Z := TRAMPOLINE - (p + 1) * 2 * PGSIZE.

Definition R_W : Z := Z.lor PTE_R PTE_W.
Definition R_X : Z := Z.lor PTE_R PTE_X.

(** The loop over the processes from [i] on. *)
Fixpoint mapstacks_loop (n : nat) (i kpgtbl : Z) (k : kmem) : option kmem :=
  match n with
  | O => Some k
  | S n' =>
      let '(pa, k) := kalloc k in
      if pa =? 0 then None
      else
        k ← kvmmap kpgtbl (KSTACK i) pa PGSIZE R_W k;
        mapstacks_loop n' (i + 1) kpgtbl k
  end.

Definition proc_mapstacks (kpgtbl : Z) (k : kmem) : option kmem := mapstacks_loop NPROC 0 kpgtbl k.

(** [etext] and [trampoline] are addresses of the kernel's image. *)
Definition kvmmake (etext trampoline : Z) (k : kmem) : option (Z * kmem) :=
  let '(kpgtbl, k) := kalloc k in
  let k := zero_page kpgtbl k in
  k ← kvmmap kpgtbl UART0 UART0 PGSIZE R_W k;
  k ← kvmmap kpgtbl VIRTIO0 VIRTIO0 PGSIZE R_W k;
  k ← kvmmap kpgtbl PLIC PLIC 0x4000000 R_W k;
  k ← kvmmap kpgtbl KERNBASE KERNBASE (etext - KERNBASE) R_X k;
  k ← kvmmap kpgtbl etext etext (PHYSTOP - etext) R_W k;
  k ← kvmmap kpgtbl TRAMPOLINE trampoline PGSIZE R_X k;
  k ← proc_mapstacks kpgtbl k;
  Some (kpgtbl, k).

(** ** Mapping a range *)
Definition in_range (v n w : Z) : bool := (v <=? w) && (w <? v + n).

Section Range.
Context (kend : Z) (Hend : KERNBASE <= kend) (nodes : list (list Z)).
Local Abbreviation aspace := (aspace kend 0).

(** The tables are among [nodes], and the free pages suffice for all of these
    and [spare] more. *)
Record roomy (spare : nat) (k : kmem) (root : Z) (t : tree) (um : vmap) (free rest : list Z) : Prop := mkRoomy {
  ro_space : aspace k root t um free rest;
  ro_nodes : forall x p, t !! x = Some p -> x ∈ nodes;
  ro_room : (length nodes + spare < length (tables t) + length free)%nat
}.

Definition on_nodes (v : Z) : Prop := [PX 2 (v * PGSIZE)] ∈ nodes /\ path (v * PGSIZE) ∈ nodes.

Lemma tables_few (t : tree) : (forall x p, t !! x = Some p -> x ∈ nodes) -> (length (tables t) <= length nodes)%nat.
Proof.
  intros H. unfold tables. rewrite length_fmap, <- (length_fmap fst). apply submseteq_length, NoDup_submseteq; [apply NoDup_fst_map_to_list|].
  intros x ([x' p] & -> & Hx)%list_elem_of_fmap. apply elem_of_map_to_list in Hx. by apply (H _ p).
Qed.

Lemma data_none (um : vmap) : (forall v e, um !! v = Some e -> 0 <= v) -> data 0 um = [].
Proof.
  intros H. destruct (data 0 um) as [|p l] eqn:E; [done|]. assert (Hp : p ∈ data 0 um) by (rewrite E; set_solver).
  apply elem_of_data in Hp as (v & e & Hv & Hl & _). apply H in Hv. lia.
Qed.

Lemma map_one spare k root t um free rest v pa perm : roomy spare k root t um free rest -> 0 <= v < NVPN -> um !! v = None -> on_nodes v ->
  0 <= pa < 2 ^ 56 -> pa mod PGSIZE = 0 -> 0 <= perm < 1024 ->
  exists pte k1 k' t' free', walk root (v * PGSIZE) true k = Some (pte, k1) /\ pte <> 0 /\ has PTE_V (pte_at k1 pte) = false /\
    k' = set_pte pte (mkpte pa perm) k1 /\ roomy spare k' root t' (<[v := mkpte pa perm]> um) free' rest /\
    tables t' ++ free' ≡ₚ tables t ++ free /\ keeps (bytes k) (bytes k') rest.
Proof.
  intros [Has Hn Hr] Hv Hno [Hx1 Hx2] Hpa Hal Hperm. assert (Eo : own 0 (v * PGSIZE / PGSIZE) pa = []) by (rewrite vpn_mul; unfold own; destruct (Z.ltb_spec v 0); [lia | done]).
  destruct (map_page kend Hend 0 k root t um free rest (v * PGSIZE) pa perm) as (pte & k1 & k' & t' & free' & E & Hk & Ht & [_ Hnew] & Hres);
    [by rewrite Eo | by apply mul_range | by rewrite vpn_mul | done | done | done|]. rewrite Eo, vpn_mul in *. cbn [app] in *.
  assert (Hn' : forall x p, t' !! x = Some p -> x ∈ nodes) by (intros x p [Hx|[->| ->]]%Hnew; [by apply (Hn x p) | done | done]).
  pose proof (Permutation_length Ht) as Hlen. rewrite !length_app in Hlen. pose proof (tables_few t' Hn').
  destruct (Z.eqb_spec pte 0) as [->|Hnz]; [destruct Hres as (_ & [-> _] & _); simpl in Hlen; lia|]. destruct Hres as (Hpv & _ & -> & Has').
  exists pte, k1, (set_pte pte (mkpte pa perm) k1), t', free'. split_and!; try done.
  - split; [done | done | lia].
  - apply (keeps_sub _ _ _ _ Hk). set_solver.
Qed.

Lemma map_loop spare root rest perm n : 0 <= perm < 1024 -> forall v pa k t um free,
  roomy spare k root t um free rest -> 0 <= v -> v + Z.of_nat (S n) <= NVPN -> (forall w, v <= w < v + Z.of_nat (S n) -> um !! w = None /\ on_nodes w) ->
  0 <= pa -> pa + Z.of_nat (S n) * PGSIZE <= 2 ^ 56 -> pa mod PGSIZE = 0 ->
  exists k' t' um' free', mappages_loop (S n) root (v * PGSIZE) ((v + Z.of_nat n) * PGSIZE) pa perm k = Some (0, k') /\ roomy spare k' root t' um' free' rest /\
    (forall w, um' !! w = if in_range v (Z.of_nat (S n)) w then Some (mkpte (pa + (w - v) * PGSIZE) perm) else um !! w) /\
    tables t' ++ free' ≡ₚ tables t ++ free /\ keeps (bytes k) (bytes k') rest.
Proof.
  intros Hperm. assert (HP : PGSIZE = 4096) by done. induction n as [|n IH]; intros v pa k t um free Hro Hv Hlim Hfree Hpa Hpa2 Hal.
  all: destruct (Hfree v ltac:(lia)) as [Hno Hon].
  all: destruct (map_one spare k root t um free rest v pa perm Hro ltac:(lia) Hno Hon ltac:(lia) Hal Hperm) as (pte & k1 & k' & t' & free' & Ew & Hnz & Hpv & Ek & Hro' & Ht & Hk).
  all: cbn [mappages_loop]; rewrite Ew; cbn [mbind option_bind]; destruct (Z.eqb_spec pte 0); [done|]; rewrite Hpv; fold (mkpte pa perm); rewrite <- Ek.
  - destruct (Z.eqb_spec (v * PGSIZE) ((v + Z.of_nat 0) * PGSIZE)); [|lia]. exists k', t', (<[v := mkpte pa perm]> um), free'. split; [done|]. split; [done|]. split; [|done].
    intros w. unfold in_range. destruct (decide (v = w)) as [<-|Hne].
    + rewrite lookup_insert_eq. destruct (Z.leb_spec v v), (Z.ltb_spec v (v + Z.of_nat 1)); try lia. cbn [andb]. do 2 f_equal. lia.
    + rewrite lookup_insert_ne by done. destruct (Z.leb_spec v w), (Z.ltb_spec w (v + Z.of_nat 1)); try lia; done.
  - destruct (Z.eqb_spec (v * PGSIZE) ((v + Z.of_nat (S n)) * PGSIZE)); [lia|]. rewrite next_page by lia.
    assert (Eu : u64 (pa + PGSIZE) = pa + PGSIZE) by (unfold u64; apply Z.mod_small; lia). rewrite Eu. replace (v + Z.of_nat (S n)) with (v + 1 + Z.of_nat n) by lia.
    destruct (IH (v + 1) (pa + PGSIZE) k' t' (<[v := mkpte pa perm]> um) free' Hro') as (k2 & t2 & um2 & free2 & E2 & Hro2 & Hum & Ht2 & Hk2); try lia.
    + intros w Hw. rewrite lookup_insert_ne by lia. apply Hfree. lia.
    + rewrite Z.add_mod, Hal by lia. done.
    + exists k2, t2, um2, free2. split; [done|]. split; [done|]. split; [|split; [by rewrite Ht2 | by eapply kp_trans]]. intros w. rewrite Hum. unfold in_range.
      destruct (decide (v = w)) as [<-|Hne].
      * rewrite lookup_insert_eq. destruct (Z.leb_spec (v + 1) v), (Z.leb_spec v v), (Z.ltb_spec v (v + Z.of_nat (S (S n)))); try lia. cbn [andb]. do 2 f_equal. lia.
      * rewrite lookup_insert_ne by done. destruct (Z.leb_spec (v + 1) w), (Z.ltb_spec w (v + 1 + Z.of_nat (S n))), (Z.leb_spec v w), (Z.ltb_spec w (v + Z.of_nat (S (S n)))); try lia; cbn [andb]; try done.
        do 2 f_equal. lia.
Qed.

Lemma kvmmap_spec spare root rest perm v n pa k t um free : 0 <= perm < 1024 -> roomy spare k root t um free rest -> 0 <= v -> 0 < n -> v + n <= NVPN ->
  (forall w, v <= w < v + n -> um !! w = None /\ on_nodes w) -> 0 <= pa -> pa + n * PGSIZE <= 2 ^ 56 -> pa mod PGSIZE = 0 ->
  exists k' t' um' free', kvmmap root (v * PGSIZE) pa (n * PGSIZE) perm k = Some k' /\ roomy spare k' root t' um' free' rest /\
    (forall w, um' !! w = if in_range v n w then Some (mkpte (pa + (w - v) * PGSIZE) perm) else um !! w) /\
    tables t' ++ free' ≡ₚ tables t ++ free /\ keeps (bytes k) (bytes k') rest.
Proof.
  intros Hperm Hro Hv Hn Hlim Hfree Hpa Hpa2 Hal. assert (HP : PGSIZE = 4096) by done. assert (HM : NVPN * PGSIZE = 2 ^ 38) by done.
  unfold kvmmap, mappages. rewrite !mul_mod. cbn [Z.eqb negb]. destruct (Z.eqb_spec (n * PGSIZE) 0); [lia|]. rewrite vpn_mul.
  destruct (map_loop spare root rest perm (Z.to_nat n - 1) Hperm v pa k t um free Hro Hv) as (k' & t' & um' & free' & E & Hro' & Hum & Ht & Hk); try lia.
  - intros w Hw. apply Hfree. lia.
  - replace (S (Z.to_nat n - 1)) with (Z.to_nat n) in * by lia. replace (Z.of_nat (Z.to_nat n - 1)) with (n - 1) in E by lia.
    assert (Eu : u64 (v * PGSIZE + n * PGSIZE - PGSIZE) = (v + (n - 1)) * PGSIZE) by (unfold u64; rewrite Z.mod_small; lia). rewrite Eu, E. cbn [mbind option_bind Z.eqb negb].
    exists k', t', um', free'. split; [done|]. split; [done|]. split; [|done]. intros w. rewrite Hum. by rewrite Z2Nat.id by lia.
Qed.

(** Several ranges, one after the other. *)
Record region := mkRegion { rg_page : Z; rg_pages : Z; rg_pa : Z; rg_perm : Z }.
Definition covers (r : region) (w : Z) : bool := in_range (rg_page r) (rg_pages r) w.
Definition apart (r r' : region) : Prop := forall w, covers r w = true -> covers r' w = false.

Record region_ok (r : region) : Prop := mkRegionOk {
  rg_size : 0 <= rg_page r /\ 0 < rg_pages r /\ rg_page r + rg_pages r <= NVPN;
  rg_phys : 0 <= rg_pa r /\ rg_pa r + rg_pages r * PGSIZE <= 2 ^ 56 /\ rg_pa r mod PGSIZE = 0;
  rg_bits : 0 <= rg_perm r < 1024;
  rg_nodes : forall w, rg_page r <= w < rg_page r + rg_pages r -> on_nodes w
}.

Fixpoint at_region (rs : list region) (w : Z) : option Z :=
  match rs with [] => None | r :: rs' => if covers r w then Some (mkpte (rg_pa r + (w - rg_page r) * PGSIZE) (rg_perm r)) else at_region rs' w end.

Fixpoint kvmmaps (root : Z) (rs : list region) (k : kmem) : option kmem :=
  match rs with [] => Some k | r :: rs' => k ← kvmmap root (rg_page r * PGSIZE) (rg_pa r) (rg_pages r * PGSIZE) (rg_perm r) k; kvmmaps root rs' k end.

Lemma covers_true r w : covers r w = true <-> rg_page r <= w < rg_page r + rg_pages r.
Proof. unfold covers, in_range. rewrite andb_true_iff, Z.leb_le, Z.ltb_lt. done. Qed.

Lemma at_region_apart r rs w : Forall (apart r) rs -> covers r w = true -> at_region rs w = None.
Proof. intros Ha Hw. induction Ha as [|r' rs H1 _ IH]; cbn [at_region]; [done|]. by rewrite (H1 w Hw). Qed.

Lemma kvmmaps_spec spare root rest rs : Forall region_ok rs -> ForallOrdPairs apart rs -> forall k t um free,
  roomy spare k root t um free rest -> (forall w, is_Some (at_region rs w) -> um !! w = None) ->
  exists k' t' um' free', kvmmaps root rs k = Some k' /\ roomy spare k' root t' um' free' rest /\
    (forall w, um' !! w = match at_region rs w with Some e => Some e | None => um !! w end) /\ tables t' ++ free' ≡ₚ tables t ++ free.
Proof.
  intros Hok. induction Hok as [|r rs [(H1 & H2 & H3) (H4 & H5 & H6) H7 H8] _ IH]; intros Hap k t um free Hro Hno; cbn [kvmmaps at_region] in *.
  { by exists k, t, um, free. }
  inversion Hap as [|? ? Hap1 Hap2]; subst.
  destruct (kvmmap_spec spare root rest (rg_perm r) (rg_page r) (rg_pages r) (rg_pa r) k t um free H7 Hro H1 H2 H3) as (k1 & t1 & um1 & free1 & -> & R1 & M1 & T1 & _); try done.
  { intros w Hw. split; [|by apply H8]. apply Hno. by rewrite (proj2 (covers_true r w) Hw). }
  cbn [mbind option_bind]. destruct (IH Hap2 k1 t1 um1 free1 R1) as (k2 & t2 & um2 & free2 & -> & R2 & M2 & T2).
  { intros w Hw. rewrite M1. fold (covers r w). destruct (covers r w) eqn:Ew.
    - rewrite (at_region_apart r rs w Hap1 Ew) in Hw. by destruct Hw.
    - apply Hno. by rewrite Ew. }
  exists k2, t2, um2, free2. split; [done|]. split; [done|]. split; [|by rewrite T2]. intros w. rewrite M2, M1. fold (covers r w). destruct (covers r w) eqn:Ew; [|done].
  by rewrite (at_region_apart r rs w Hap1 Ew).
Qed.
End Range.

(** ** The map of the kernel *)
Definition page_of (a : Z) : Z := a / PGSIZE.

(** What the table holds for page [v]. *)
Definition kernel_map (etext trampoline : Z) (stacks : list Z) (v : Z) : option Z :=
  let same perm := Some (mkpte (v * PGSIZE) perm) in
  if v =? page_of UART0 then same R_W
  else if v =? page_of VIRTIO0 then same R_W
  else if in_range (page_of PLIC) 0x4000 v then same R_W
  else if (page_of KERNBASE <=? v) && (v <? page_of etext) then same R_X
  else if (page_of etext <=? v) && (v <? page_of PHYSTOP) then same R_W
  else if v =? page_of TRAMPOLINE then Some (mkpte trampoline R_X)
  else
    let i := page_of TRAMPOLINE - v in
    if (0 <? i) && (i mod 2 =? 0) then (fun p => mkpte p R_W) <$> stacks !! Z.to_nat (i / 2 - 1) else None.

(** The tables this takes. *)
Definition kernel_nodes : list (list Z) :=
  [[]; [0]; [2]; [255]; [255; 511]] ++ ((fun i => [0; i]) <$> seqZ 96 33) ++ ((fun i => [2; i]) <$> seqZ 0 64).

Lemma PX_page_number level v : 0 <= level -> PX level (v * PGSIZE) = (v / 512 ^ level) mod 512.
Proof.
  intros Hl. rewrite PX_spec by done. unfold PXSHIFT. rewrite Z.pow_add_r by lia. change (2 ^ 12) with PGSIZE.
  rewrite <- Z.div_div by (try apply Z.pow_pos_nonneg; done || lia). rewrite vpn_mul. do 2 f_equal. rewrite Z.pow_mul_r by lia. done.
Qed.

Lemma nodes_of v a b : v / (512 * 512) = a -> (v / 512) mod 512 = b -> 0 <= a < 512 -> [a] ∈ kernel_nodes -> [a; b] ∈ kernel_nodes -> on_nodes kernel_nodes v.
Proof.
  intros Ha Hb Hr H1 H2. unfold on_nodes, path. rewrite !PX_page_number by lia. change (512 ^ 2) with (512 * 512). change (512 ^ 1) with 512.
  rewrite Ha, Hb, Z.mod_small by done. done.
Qed.

Lemma nodes_low v : 0xc000 <= v < 0x10200 -> on_nodes kernel_nodes v.
Proof.
  intros Hv. apply (nodes_of v 0 (v / 512)).
  - apply Z.div_small. lia.
  - apply Z.mod_small. split; [apply Z.div_pos; lia | apply Z.div_lt_upper_bound; lia].
  - lia.
  - unfold kernel_nodes. set_solver.
  - unfold kernel_nodes. apply elem_of_app. right. apply elem_of_app. left. apply list_elem_of_fmap. eexists. split; [done|]. apply elem_of_seqZ.
    split; [apply Z.div_le_lower_bound; lia | apply Z.div_lt_upper_bound; lia].
Qed.

Lemma nodes_ram v : 0x80000 <= v < 0x88000 -> on_nodes kernel_nodes v.
Proof.
  intros Hv. assert (H1 : 1024 <= v / 512 < 1088) by (split; [apply Z.div_le_lower_bound; lia | apply Z.div_lt_upper_bound; lia]).
  apply (nodes_of v 2 (v / 512 - 1024)).
  - symmetry. apply (Z.div_unique v (512 * 512) 2 (v - 2 * (512 * 512))); lia.
  - symmetry. apply (Z.mod_unique (v / 512) 512 2); lia.
  - lia.
  - unfold kernel_nodes. set_solver.
  - unfold kernel_nodes. apply elem_of_app. right. apply elem_of_app. right. apply list_elem_of_fmap. eexists. split; [done|]. apply elem_of_seqZ. lia.
Qed.

Lemma nodes_high v : 0x3fffe00 <= v < 0x4000000 -> on_nodes kernel_nodes v.
Proof.
  intros Hv. assert (H1 : v / 512 = 131071) by (symmetry; apply (Z.div_unique v 512 131071 (v - 131071 * 512)); lia).
  apply (nodes_of v 255 511).
  - symmetry. apply (Z.div_unique v (512 * 512) 255 (v - 255 * (512 * 512))); lia.
  - by rewrite H1.
  - lia.
  - unfold kernel_nodes. set_solver.
  - unfold kernel_nodes. set_solver.
Qed.

(** The numbers of the pages. *)
Ltac page_numbers :=
  change (page_of UART0) with 0x10000 in *; change (page_of VIRTIO0) with 0x10001 in *; change (page_of PLIC) with 0xc000 in *;
  change (page_of KERNBASE) with 0x80000 in *; change (page_of PHYSTOP) with 0x88000 in *; change (page_of TRAMPOLINE) with 0x3ffffff in *.

Lemma kernel_map_stack etext trampoline stacks i : 0x80000 <= page_of etext <= 0x88000 -> 0 <= i < 64 ->
  kernel_map etext trampoline stacks (page_of TRAMPOLINE - 2 * (i + 1)) = (fun p => mkpte p R_W) <$> stacks !! Z.to_nat i.
Proof.
  intros He Hi. unfold kernel_map, in_range. page_numbers. set (v := 0x3ffffff - 2 * (i + 1)). assert (Hv : v = 0x3ffffff - 2 * (i + 1)) by done. clearbody v.
  destruct (Z.eqb_spec v 0x10000); [lia|]. destruct (Z.eqb_spec v 0x10001); [lia|]. destruct (Z.ltb_spec v (0xc000 + 0x4000)); [lia|].
  destruct (Z.ltb_spec v (page_of etext)); [lia|]. destruct (Z.ltb_spec v 0x88000); [lia|]. destruct (Z.eqb_spec v 0x3ffffff); [lia|]. rewrite !andb_false_r.
  replace (0x3ffffff - v) with ((i + 1) * 2) by lia. rewrite Z.mod_mul, Z.div_mul by lia. destruct (Z.ltb_spec 0 ((i + 1) * 2)); [|lia]. cbn [andb Z.eqb].
  do 2 f_equal. lia.
Qed.

Lemma kernel_map_snoc etext trampoline stacks p v : 0x80000 <= page_of etext <= 0x88000 -> (length stacks < NPROC)%nat ->
  kernel_map etext trampoline (stacks ++ [p]) v =
    if in_range (page_of TRAMPOLINE - 2 * (Z.of_nat (length stacks) + 1)) 1 v then Some (mkpte p R_W) else kernel_map etext trampoline stacks v.
Proof.
  intros He Hl. unfold NPROC in Hl. unfold in_range.
  destruct (Z.leb_spec (page_of TRAMPOLINE - 2 * (Z.of_nat (length stacks) + 1)) v) as [H1|H1], (Z.ltb_spec v (page_of TRAMPOLINE - 2 * (Z.of_nat (length stacks) + 1) + 1)) as [H2|H2]; cbn [andb].
  1: { assert (v = page_of TRAMPOLINE - 2 * (Z.of_nat (length stacks) + 1)) as -> by lia. rewrite kernel_map_stack by lia. rewrite Nat2Z.id. by rewrite lookup_app_r, Nat.sub_diag. }
  all: unfold kernel_map, in_range; page_numbers.
  all: repeat (match goal with |- (if ?b then ?x else _) = (if ?b then ?x else _) => destruct b; [reflexivity|] end).
  all: destruct ((0 <? 0x3ffffff - v) && ((0x3ffffff - v) mod 2 =? 0)) eqn:Eb; [|done]; apply andb_true_iff in Eb as [Ep%Z.ltb_lt Em%Z.eqb_eq].
  all: f_equal; pose proof (Z.div_mod (0x3ffffff - v) 2 ltac:(lia)) as Hd.
  all: destruct (decide (Z.to_nat ((0x3ffffff - v) / 2 - 1) < length stacks)%nat); [by rewrite lookup_app_l|].
  all: rewrite (lookup_ge_None_2 stacks) by lia; apply lookup_ge_None_2; rewrite length_app; simpl; lia.
Qed.

Section Kernel.
Context (kend : Z) (Hend : KERNBASE <= kend) (etext trampoline : Z).
Context (He : etext mod PGSIZE = 0) (Her : KERNBASE < etext < PHYSTOP) (Htal : trampoline mod PGSIZE = 0) (Htr : 0 <= trampoline < 2 ^ 55).
Local Abbreviation roomy := (roomy kend kernel_nodes).
Local Abbreviation E := (page_of etext).

Lemma etext_page : etext = E * PGSIZE /\ 0x80000 < E < 0x88000.
Proof.
  unfold page_of. pose proof (Z.div_mod etext PGSIZE ltac:(done)). assert (HP : PGSIZE = 4096) by done. unfold KERNBASE, PHYSTOP in Her. split; [lia|].
  unfold KERNBASE in *. lia.
Qed.

Lemma stacks_spec root n : forall stacks k t um free, (n + length stacks = NPROC)%nat -> roomy n k root t um free stacks ->
  (forall v, um !! v = kernel_map etext trampoline stacks v) ->
  exists k' t' um' free' stacks', mapstacks_loop n (Z.of_nat (length stacks)) root k = Some k' /\ length stacks' = NPROC /\ roomy 0 k' root t' um' free' stacks' /\
    (forall v, um' !! v = kernel_map etext trampoline stacks' v) /\ tables t' ++ stacks' ++ free' ≡ₚ tables t ++ stacks ++ free.
Proof.
  destruct etext_page as [_ HE]. induction n as [|n IH]; intros stacks k t um free Hn Hro Hum; cbn [mapstacks_loop].
  { by exists k, t, um, free, stacks. }
  destruct free as [|p free].
  { pose proof (tables_few _ _ (ro_nodes _ _ _ _ _ _ _ _ _ Hro)). pose proof (ro_room _ _ _ _ _ _ _ _ _ Hro). simpl in *. lia. }
  destruct (take_page kend Hend 0 _ _ _ _ _ _ _ (ro_space _ _ _ _ _ _ _ _ _ Hro)) as (k1 & -> & Hnz & Hp & Has1 & _ & _). destruct (Z.eqb_spec p 0); [done|].
  assert (Hro1 : roomy n k1 root t um free (stacks ++ [p])).
  { split; [|apply Hro | pose proof (ro_room _ _ _ _ _ _ _ _ _ Hro); simpl in *; lia]. apply (aspace_perm kend 0 _ _ _ _ _ (p :: stacks)); [apply Permutation_cons_append | done]. }
  set (L := Z.of_nat (length stacks)) in *. assert (HL : 0 <= L < 64) by (unfold NPROC in Hn; lia).
  assert (Ek : KSTACK L = (0x3ffffff - 2 * (L + 1)) * PGSIZE) by (unfold KSTACK; change TRAMPOLINE with (0x3ffffff * PGSIZE); lia).
  destruct (page_pa kend Hend p Hp) as [Hpa Hal].
  destruct (kvmmap_spec kend Hend kernel_nodes n root (stacks ++ [p]) R_W (0x3ffffff - 2 * (L + 1)) 1 p k1 t um free ltac:(by split) Hro1) as (k2 & t2 & um2 & free2 & E2 & Hro2 & Hum2 & Ht2 & _).
  - lia.
  - lia.
  - change NVPN with 0x4000000. lia.
  - intros w Hw. assert (w = 0x3ffffff - 2 * (L + 1)) as -> by lia. split; [|apply nodes_high; lia].
    rewrite Hum. change 0x3ffffff with (page_of TRAMPOLINE). rewrite kernel_map_stack by lia. rewrite lookup_ge_None_2; [done | lia].
  - lia.
  - pose proof Hp as [_ Hp2]. unfold PHYSTOP, KERNBASE, PGSIZE in *. lia.
  - done.
  - rewrite Z.mul_1_l in E2. rewrite Ek, E2. cbn [mbind option_bind].
    destruct (IH (stacks ++ [p]) k2 t2 um2 free2) as (k3 & t3 & um3 & free3 & st3 & E3 & Hl3 & Hro3 & Hum3 & Ht3); [rewrite length_app; simpl; lia | done | |].
    + intros v. rewrite Hum2, kernel_map_snoc by (unfold NPROC in *; lia). change (page_of TRAMPOLINE) with 0x3ffffff. fold L. unfold in_range.
      destruct (Z.leb_spec (0x3ffffff - 2 * (L + 1)) v), (Z.ltb_spec v (0x3ffffff - 2 * (L + 1) + 1)); cbn [andb]; try apply Hum.
      do 2 f_equal. assert (v = 0x3ffffff - 2 * (L + 1)) as -> by lia. lia.
    + rewrite length_app in E3. replace (Z.of_nat (length stacks + length [p])) with (L + 1) in E3 by (simpl; lia).
      exists k3, t3, um3, free3, st3. split; [done|]. split; [done|]. split; [done|]. split; [done|].
      rewrite Ht3. rewrite !(Permutation_app_swap_app _ (stacks ++ [p])), Ht2. solve_Permutation.
Qed.

(** The six maps before the stacks. *)
Definition fixed_regions : list region :=
  [mkRegion 0x10000 1 UART0 R_W; mkRegion 0x10001 1 VIRTIO0 R_W; mkRegion 0xc000 0x4000 PLIC R_W; mkRegion 0x80000 (E - 0x80000) KERNBASE R_X;
   mkRegion E (0x88000 - E) etext R_W; mkRegion 0x3ffffff 1 trampoline R_X].

Lemma region_intro v n pa perm : 0 <= v -> 0 < n -> v + n <= 0x4000000 -> 0 <= pa -> pa + n * PGSIZE <= 2 ^ 56 -> pa mod PGSIZE = 0 -> perm = R_W \/ perm = R_X ->
  (forall w, v <= w < v + n -> on_nodes kernel_nodes w) -> region_ok kernel_nodes (mkRegion v n pa perm).
Proof. intros H1 H2 H3 H4 H5 H6 H7 H8. split; [by split | by split | by destruct H7 as [-> | ->] | exact H8]. Qed.

Lemma regions_ok : Forall (region_ok kernel_nodes) fixed_regions /\ ForallOrdPairs apart fixed_regions.
Proof.
  destruct etext_page as [Ee HE]. assert (HP : PGSIZE = 4096) by reflexivity. split.
  - unfold fixed_regions. apply Forall_cons_2; [|apply Forall_cons_2; [|apply Forall_cons_2; [|apply Forall_cons_2; [|apply Forall_cons_2; [|apply Forall_cons_2; [|apply Forall_nil; exact I]]]]]].
    + apply region_intro; unfold UART0; [lia..|reflexivity | by left | intros w Hw; apply nodes_low; lia].
    + apply region_intro; unfold VIRTIO0; [lia..|reflexivity | by left | intros w Hw; apply nodes_low; lia].
    + apply region_intro; unfold PLIC; [lia..|reflexivity | by left | intros w Hw; apply nodes_low; lia].
    + apply region_intro; unfold KERNBASE; [lia..|reflexivity | by right | intros w Hw; apply nodes_ram; lia].
    + apply region_intro; [lia..|exact He | by left | intros w Hw; apply nodes_ram; lia].
    + apply region_intro; [lia..|exact Htal | by right | intros w Hw; apply nodes_high; lia].
  - assert (Hap : forall r r', rg_page r + rg_pages r <= rg_page r' \/ rg_page r' + rg_pages r' <= rg_page r -> apart r r').
    { intros r r' H w Hw%covers_true. destruct (covers r' w) eqn:Ew; [apply covers_true in Ew; lia | done]. }
    unfold fixed_regions. repeat (apply FOP_cons; [repeat (apply Forall_cons_2; [apply Hap; cbn [rg_page rg_pages]; lia|]); apply Forall_nil; done|]). apply FOP_nil.
Qed.

Lemma regions_map v : at_region fixed_regions v = kernel_map etext trampoline [] v.
Proof.
  destruct etext_page as [Ee HE]. unfold kernel_map, fixed_regions. cbn [at_region rg_page rg_pages rg_pa rg_perm]. unfold covers, in_range. cbn [rg_page rg_pages]. page_numbers.
  replace (0x80000 + (E - 0x80000)) with E by lia. replace (E + (0x88000 - E)) with 0x88000 by lia.
  assert (Hs : forall a b p, a = b -> Some (mkpte a p) = Some (mkpte b p)) by (intros a b p ->; reflexivity). assert (HP : PGSIZE = 4096) by reflexivity.
  destruct (Z.eqb_spec v 0x10000) as [->|H1]; [cbn [Z.leb Z.ltb Z.compare andb]; apply Hs; unfold UART0; lia|].
  assert (E1 : (0x10000 <=? v) && (v <? 0x10000 + 1) = false) by (destruct (Z.leb_spec 0x10000 v), (Z.ltb_spec v (0x10000 + 1)); (reflexivity || lia)). rewrite E1.
  destruct (Z.eqb_spec v 0x10001) as [->|H2]; [apply Hs; unfold VIRTIO0; lia|].
  assert (E2 : (0x10001 <=? v) && (v <? 0x10001 + 1) = false) by (destruct (Z.leb_spec 0x10001 v), (Z.ltb_spec v (0x10001 + 1)); (reflexivity || lia)). rewrite E2.
  destruct ((0xc000 <=? v) && (v <? 0xc000 + 0x4000)); [apply Hs; unfold PLIC; lia|].
  destruct ((0x80000 <=? v) && (v <? E)); [apply Hs; unfold KERNBASE; lia|]. destruct ((E <=? v) && (v <? 0x88000)); [apply Hs; lia|].
  destruct (Z.eqb_spec v 0x3ffffff) as [->|H3]; [apply Hs; lia|].
  assert (E3 : (0x3ffffff <=? v) && (v <? 0x3ffffff + 1) = false) by (destruct (Z.leb_spec 0x3ffffff v), (Z.ltb_spec v (0x3ffffff + 1)); (reflexivity || lia)). rewrite E3.
  rewrite lookup_nil. destruct ((0 <? 0x3ffffff - v) && ((0x3ffffff - v) mod 2 =? 0)); reflexivity.
Qed.

Lemma kvmmake_regions k k1 root : kalloc k = (root, k1) ->
  kvmmake etext trampoline k = (k ← kvmmaps root fixed_regions (zero_page root k1); k ← mapstacks_loop NPROC (Z.of_nat (@length Z [])) root k; Some (root, k)).
Proof.
  intros Ek. destruct etext_page as [Ee HE]. unfold kvmmake, proc_mapstacks. rewrite Ek. unfold fixed_regions. cbn [kvmmaps rg_page rg_pages rg_pa rg_perm].
  assert (C1 : 0x10000 * PGSIZE = UART0) by reflexivity. assert (C2 : 0x10001 * PGSIZE = VIRTIO0) by reflexivity. assert (C3 : 0xc000 * PGSIZE = PLIC) by reflexivity.
  assert (C4 : 0x4000 * PGSIZE = 0x4000000) by reflexivity. assert (C5 : 0x80000 * PGSIZE = KERNBASE) by reflexivity. assert (C6 : 0x3ffffff * PGSIZE = TRAMPOLINE) by reflexivity.
  rewrite C1, C2, C3, C4, C5, C6, !Z.mul_1_l.
  replace ((E - 0x80000) * PGSIZE) with (etext - KERNBASE) by (unfold KERNBASE, PGSIZE in *; lia).
  replace ((0x88000 - E) * PGSIZE) with (PHYSTOP - etext) by (unfold PHYSTOP, KERNBASE, PGSIZE in *; lia). rewrite <- Ee.
  generalize (kvmmap root). intros f.
  repeat match goal with |- context [f ?a ?b ?c ?d ?k0] => destruct (f a b c d k0); cbn [mbind option_bind]; [|reflexivity] end. reflexivity.
Qed.

(** The pages between the stacks are not mapped. *)
Lemma kernel_map_guard stacks j : 0 <= j <= 64 -> kernel_map etext trampoline stacks (page_of TRAMPOLINE - (2 * j + 1)) = None.
Proof.
  intros Hj. destruct etext_page as [_ HE]. unfold kernel_map, in_range. page_numbers. set (v := 0x3ffffff - (2 * j + 1)). assert (Hv : v = 0x3ffffff - (2 * j + 1)) by reflexivity. clearbody v.
  destruct (Z.eqb_spec v 0x10000); [lia|]. destruct (Z.eqb_spec v 0x10001); [lia|]. destruct (Z.ltb_spec v (0xc000 + 0x4000)); [lia|].
  destruct (Z.ltb_spec v E); [lia|]. destruct (Z.ltb_spec v 0x88000); [lia|]. destruct (Z.eqb_spec v 0x3ffffff); [lia|]. rewrite !andb_false_r.
  replace (0x3ffffff - v) with (1 + j * 2) by lia. rewrite Z_mod_plus_full. change (1 mod 2 =? 0) with false. by rewrite andb_false_r.
Qed.

Lemma kernel_map_flags stacks v e : Forall (page kend) stacks -> kernel_map etext trampoline stacks v = Some e ->
  exists pa perm, e = mkpte pa perm /\ 0 <= pa < 2 ^ 56 /\ pa mod PGSIZE = 0 /\ (perm = R_W \/ perm = R_X).
Proof.
  intros Hst. destruct etext_page as [_ HE]. assert (HP : PGSIZE = 4096) by reflexivity. unfold kernel_map, in_range. page_numbers.
  assert (Hsame : forall perm, 0 <= v < 2 ^ 40 -> perm = R_W \/ perm = R_X -> Some (mkpte (v * PGSIZE) perm) = Some e ->
    exists pa perm, e = mkpte pa perm /\ 0 <= pa < 2 ^ 56 /\ pa mod PGSIZE = 0 /\ (perm = R_W \/ perm = R_X)).
  { intros perm Hv Hp [= <-]. exists (v * PGSIZE), perm. split; [reflexivity|]. split; [lia|]. split; [apply mul_mod | exact Hp]. }
  destruct (Z.eqb_spec v 0x10000); [apply Hsame; [lia | by left]|]. destruct (Z.eqb_spec v 0x10001); [apply Hsame; [lia | by left]|].
  destruct (Z.leb_spec 0xc000 v), (Z.ltb_spec v (0xc000 + 0x4000)); cbn [andb]; try (apply Hsame; [lia | by left]).
  all: destruct (Z.leb_spec 0x80000 v), (Z.ltb_spec v E); cbn [andb]; try (apply Hsame; [lia | by right]).
  all: destruct (Z.leb_spec E v), (Z.ltb_spec v 0x88000); cbn [andb]; try (apply Hsame; [lia | by left]); try lia.
  all: destruct (Z.eqb_spec v 0x3ffffff); [first [lia | intros [= <-]; exists trampoline, R_X; split_and!; [reflexivity | lia | lia | exact Htal | by right]]|].
  all: destruct ((0 <? 0x3ffffff - v) && ((0x3ffffff - v) mod 2 =? 0)); [|discriminate].
  all: intros (p & Hp & ->)%fmap_Some; exists p, R_W; rewrite Forall_lookup in Hst; apply Hst in Hp; destruct (page_pa kend Hend p Hp) as [[? ?] ?]; split_and!; first [reflexivity | assumption | by left].
Qed.

(** C40: the kernel gets the address space it should have.  With 167 free pages
    [kvmmake] does not panic, and the walk of the table by the hardware finds
    for every address: the devices, and all of the memory, at their own
    address, the text of the kernel executable and the rest writable; the
    trampoline at the top; and below it 64 stacks, each in a page of its own
    with an unmapped page above and below.  Nothing is both writable and
    executable, nothing is open to user mode, and every page that was taken is
    a table or a stack. *)
Theorem kvmmake_maps k free : kmem_ok kend k free -> (167 <= length free)%nat ->
  exists root k' t um stacks free', kvmmake etext trampoline k = Some (root, k') /\ aspace kend 0 k' root t um free' stacks /\
    length stacks = NPROC /\ tables t ++ stacks ++ free' ≡ₚ free /\
    (forall v, um !! v = kernel_map etext trampoline stacks v) /\
    (forall va, 0 <= va < MAXVA -> leaf (bytes k') t va = default 0 (kernel_map etext trampoline stacks (va / PGSIZE))) /\
    (forall v e, um !! v = Some e -> has PTE_W e && has PTE_X e = false /\ has PTE_U e = false) /\
    (forall i, 0 <= i < Z.of_nat NPROC -> exists p, stacks !! Z.to_nat i = Some p /\ um !! page_of (KSTACK i) = Some (mkpte p R_W) /\
       um !! (page_of (KSTACK i) - 1) = None /\ um !! (page_of (KSTACK i) + 1) = None).
Proof.
  intros Hk Hlen. destruct free as [|root free]; [simpl in Hlen; lia|]. pose proof Hk as [_ _ Hnd].
  destruct (uvmcreate_space kend Hend 0 k root free [] Hk) as (k0 & Ec & Hnz & Has0 & _); [by constructor | by rewrite app_nil_r|].
  destruct (kalloc_spec kend Hend k (root :: free) Hk) as (k1 & Ek & _). unfold uvmcreate in Ec. rewrite Ek in Ec. destruct (Z.eqb_spec root 0); [done|]. injection Ec as Ec.
  assert (Hro : roomy NPROC k0 root {[ [] := root ]} ∅ free []).
  { split; [done | |].
    - intros x p [<- _]%lookup_singleton_Some. unfold kernel_nodes. set_solver.
    - unfold tables. rewrite map_to_list_singleton. simpl in Hlen. change (length kernel_nodes) with 102%nat. unfold NPROC. simpl. lia. }
  destruct regions_ok as [Hok Hap].
  destruct (kvmmaps_spec kend Hend kernel_nodes NPROC root [] fixed_regions Hok Hap k0 _ ∅ free Hro) as (k2 & t2 & um2 & free2 & E2 & R2 & M2 & T2); [intros; apply lookup_empty|].
  assert (M2' : forall v, um2 !! v = kernel_map etext trampoline [] v) by (intros v; rewrite M2, regions_map; destruct (kernel_map etext trampoline [] v); [done | apply lookup_empty]).
  destruct (stacks_spec root NPROC [] k2 t2 um2 free2 ltac:(apply Nat.add_0_r) R2 M2') as (k3 & t3 & um3 & free3 & stacks & E3 & Hl3 & R3 & M3 & T3).
  pose proof (ro_space _ _ _ _ _ _ _ _ _ R3) as Has3.
  exists root, k3, t3, um3, stacks, free3. split; [by rewrite (kvmmake_regions k k1 root Ek), Ec, E2, bind_some, E3|]. split; [done|]. split; [done|]. split.
  { rewrite T3. cbn [app]. rewrite T2. unfold tables. rewrite map_to_list_singleton. done. }
  split; [done|]. split; [|split].
  - intros va Hva. rewrite (as_leaf _ _ _ _ _ _ _ _ Has3) by lia. by rewrite M3.
  - intros v e Hv. rewrite M3 in Hv. apply kernel_map_flags in Hv as (pa & perm & -> & Hpa & Hal & Hperm).
    + rewrite !has_mkpte by (try (by destruct Hperm as [-> | ->]); reflexivity). by destruct Hperm as [-> | ->].
    + pose proof (vm_rest _ _ _ _ _ _ (as_vm _ _ _ _ _ _ _ _ Has3)) as Hr. by apply Forall_app in Hr as [_ Hr].
  - intros i Hi. change (Z.of_nat NPROC) with 64 in Hi. destruct (lookup_lt_is_Some_2 stacks (Z.to_nat i)) as [p Hp]; [rewrite Hl3; unfold NPROC; lia|]. exists p. split; [done|].
    assert (Eks : page_of (KSTACK i) = page_of TRAMPOLINE - 2 * (i + 1)).
    { unfold KSTACK. change TRAMPOLINE with (0x3ffffff * PGSIZE). unfold page_of. replace (0x3ffffff * PGSIZE - (i + 1) * 2 * PGSIZE) with ((0x3ffffff - 2 * (i + 1)) * PGSIZE) by lia. by rewrite !vpn_mul. }
    destruct etext_page as [_ HE]. rewrite Eks, !M3. split; [rewrite kernel_map_stack by lia; by rewrite Hp|].
    replace (page_of TRAMPOLINE - 2 * (i + 1) - 1) with (page_of TRAMPOLINE - (2 * (i + 1) + 1)) by lia.
    replace (page_of TRAMPOLINE - 2 * (i + 1) + 1) with (page_of TRAMPOLINE - (2 * i + 1)) by lia. split; apply kernel_map_guard; lia.
Qed.
End Kernel.

(** A kernel with eight pages of text and two hundred free pages. *)
Lemma kvmmake_maps_witness : exists k root k' t (stacks : list Z), kvmmake (KERNBASE + 0x8000) (KERNBASE + 0x7000) k = Some (root, k') /\ length stacks = NPROC /\
  leaf (bytes k') t 0x10000123 = mkpte UART0 R_W /\ leaf (bytes k') t (KERNBASE + 0x7654) = mkpte (KERNBASE + 0x7000) R_X /\ leaf (bytes k') t 0 = 0.
Proof.
  set (kend := PHYSTOP - 200 * PGSIZE). assert (He : KERNBASE <= kend) by (vm_compute; discriminate).
  destruct (kinit_spec kend He (fun _ => NUL)) as (k & _ & Hk); [vm_compute; discriminate|].
  destruct (kvmmake_maps kend He (KERNBASE + 0x8000) (KERNBASE + 0x7000)) with (k := k) (free := all_pages kend) as (root & k' & t & um & stacks & free' & E & _ & Hl & _ & _ & Hleaf & _).
  - reflexivity.
  - split; reflexivity.
  - reflexivity.
  - split; [vm_compute; discriminate | reflexivity].
  - exact Hk.
  - unfold all_pages. rewrite length_reverse, length_pages_from. vm_compute. repeat constructor.
  - exists k, root, k', t, stacks. split; [exact E|]. split; [exact Hl|].
    split; [rewrite Hleaf; [reflexivity | split; [lia | reflexivity]]|]. split; [rewrite Hleaf; [reflexivity | split; [vm_compute; discriminate | reflexivity]]|].
    rewrite Hleaf; [reflexivity | split; [lia | reflexivity]].
Defined.
