(* ===== verification/Printf.v ===== *)
(** * Formatted output (xv6/user/printf.c, xv6/kernel/printk.c)

    [vprintf] of the user library and [printk] of the kernel.  The two have
    the same conversions, with their own digits and their own loop over the
    format.  What they print is the list of the integers they hand to [putc]
    and [consputc].  The variable arguments are registers, or strings; [None]
    is an access outside of a buffer or an argument of the wrong kind. *)
From S2P Require Import Prelude Disk Console.
Local Open Scope Z_scope.

(** A register, or a pointer to a string that may be null. *)
Inductive vararg := Reg (z : Z) | Ptr (s : option cstr).

Section Digits.
Context (digits : cstr).

Definition digit_char (d : Z) : Z := code (char_at digits (Z.to_nat d)).

(** [char buf[20]]. *)
Definition push (buf : list Z) (c : Z) : option (list Z) := if (length buf <? 20)%nat then Some (buf ++ [c]) else None.

Fixpoint digit_loop (fuel : nat) (base x : Z) (buf : list Z) : option (list Z) :=
  match fuel with
  | O => None
  | S fuel' =>
      buf ← push buf (digit_char (x mod base));
      let x := x / base in
      if negb (x =? 0) then digit_loop fuel' base x buf else Some buf
  end.

Definition printint (xx base : Z) (sgn : bool) : option (list Z) :=
  let neg := sgn && (xx <? 0) in
  let x := u64 (if neg then - xx else xx) in
  buf ← digit_loop 21 base x [];
  buf ← (if neg then push buf (code "-") else Some buf);
  Some (reverse buf).

Fixpoint ptr_loop (n : nat) (x : Z) : list Z :=
  match n with O => [] | S n' => digit_char (Z.shiftr x 60) :: ptr_loop n' (u64 (Z.shiftl x 4)) end.

Definition printptr (x : Z) : list Z := code "0" :: code "x" :: ptr_loop 16 x.

(** [va_arg]. *)
Definition va_reg (args : list vararg) : option (Z * list vararg) :=
  match args with Reg z :: args' => Some (z, args') | _ => None end.
Definition va_ptr (args : list vararg) : option (option cstr * list vararg) :=
  match args with Ptr s :: args' => Some (s, args') | _ => None end.

(** After a percent: what is printed, how many further characters of the
    format are used up, and the arguments that are left. *)
Definition conversion (c0 c1 c2 : ascii) (args : list vararg) : option (list Z * nat * list vararg) :=
  let int ty base sgn n := '(z, args) ← va_reg args; out ← printint (ty z) base sgn; Some (out, n, args) in
  if ceq c0 "d" then int i32 10 true 0%nat
  else if ceq c0 "l" && ceq c1 "d" then int i64 10 true 1%nat
  else if ceq c0 "l" && ceq c1 "l" && ceq c2 "d" then int i64 10 true 2%nat
  else if ceq c0 "u" then int u32 10 false 0%nat
  else if ceq c0 "l" && ceq c1 "u" then int i64 10 false 1%nat
  else if ceq c0 "l" && ceq c1 "l" && ceq c2 "u" then int i64 10 false 2%nat
  else if ceq c0 "x" then int u32 16 false 0%nat
  else if ceq c0 "l" && ceq c1 "x" then int i64 16 false 1%nat
  else if ceq c0 "l" && ceq c1 "l" && ceq c2 "x" then int i64 16 false 2%nat
  else if ceq c0 "p" then '(z, args) ← va_reg args; Some (printptr (u64 z), 0%nat, args)
  else if ceq c0 "c" then '(z, args) ← va_reg args; Some ([u32 z], 0%nat, args)
  else if ceq c0 "s" then '(s, args) ← va_ptr args; Some (code <$> default (str "(null)") s, 0%nat, args)
  else if ceq c0 "%" then Some ([code "%"], 0%nat, args)
  else Some ([code "%"; code c0], 0%nat, args).

(** The characters after [c0], up to the terminator. *)
Definition next1 (rest : cstr) : ascii := char_at rest 0.
Definition next2 (rest : cstr) : ascii := if ceq (next1 rest) NUL then NUL else char_at rest 1.
End Digits.

(** ** The user library *)
Definition user_digits : cstr := str "0123456789ABCDEF".

Fixpoint vprintf_loop (fuel : nat) (fmt : cstr) (percent : bool) (args : list vararg) : option (list Z) :=
  match fmt, fuel with
  | [], _ => Some []
  | _, O => None
  | c0 :: rest, S fuel' =>
      if negb percent then
        if ceq c0 "%" then vprintf_loop fuel' rest true args
        else out ← vprintf_loop fuel' rest false args; Some (code c0 :: out)
      else
        '(out, n, args) ← conversion user_digits c0 (next1 rest) (next2 rest) args;
        out' ← vprintf_loop fuel' (drop n rest) false args;
        Some (out ++ out')
  end.

(** The bytes that are written, one at a time. *)
Definition vprintf (fmt : cstr) (args : list vararg) : option (list ascii) :=
  match vprintf_loop (length fmt) fmt false args with Some out => Some (map chr out) | None => None end.

Fixpoint atoi_loop (s : cstr) (n : Z) : Z :=
  match s with
  | c :: s' => if (code "0" <=? code c) && (code c <=? code "9") then atoi_loop s' (i32 (n * 10 + code c - code "0")) else n
  | [] => n
  end.
Definition atoi (s : cstr) : Z := atoi_loop s 0.

(** ** The kernel *)
Definition kernel_digits : cstr := str "0123456789abcdef".

Fixpoint printk_loop (fuel : nat) (fmt : cstr) (args : list vararg) : option (list Z) :=
  match fmt, fuel with
  | [], _ => Some []
  | _, O => None
  | cx :: rest, S fuel' =>
      if negb (ceq cx "%") then out ← printk_loop fuel' rest args; Some (code cx :: out)
      else
        match rest with
        | [] => Some []
        | c0 :: rest =>
            '(out, n, args) ← conversion kernel_digits c0 (next1 rest) (next2 rest) args;
            out' ← printk_loop fuel' (drop n rest) args;
            Some (out ++ out')
        end
  end.

(** What the console gets. *)
Definition printk (fmt : cstr) (args : list vararg) : option (list Z) :=
  match printk_loop (length fmt) fmt args with Some out => Some (flat_map consputc out) | None => None end.

Example prints : vprintf (str "%d %u %x%% %s %p") [Reg (-5); Reg (-1); Reg 255; Ptr None; Reg 18] = Some (str "-5 4294967295 FF% (null) 0x0000000000000012").
Proof. vm_compute. reflexivity. Qed.
Example prints_most : vprintf (str "%ld") [Reg (-2 ^ 63)] = Some (str "-9223372036854775808").
Proof. vm_compute. reflexivity. Qed.

(** ** Numerals *)
Definition value (base : Z) (ds : list Z) : Z := foldl (fun n d => n * base + d) 0 ds.

(** The digits of [x], most significant first, without leading zeroes. *)
Record numeral (base x : Z) (ds : list Z) : Prop := mkNumeral {
  nm_value : value base ds = x;
  nm_digits : Forall (fun d => 0 <= d < base) ds;
  nm_some : ds <> [];
  nm_lead : head ds = Some 0 -> ds = [0]
}.

Lemma value_snoc base ds d : value base (ds ++ [d]) = value base ds * base + d.
Proof. unfold value. by rewrite foldl_app. Qed.

Lemma value_nonneg base ds : 0 <= base -> Forall (fun d => 0 <= d < base) ds -> 0 <= value base ds.
Proof.
  intros Hb. induction ds as [|d ds IH] using rev_ind; intros H; [done|]. rewrite value_snoc. apply Forall_app in H as [H Hd]. apply Forall_cons in Hd as [Hd _].
  specialize (IH H). nia.
Qed.

Section Numbers.
Context (digits : cstr) (base : Z) (Hbase : 10 <= base).
Local Abbreviation digit_char := (digit_char digits).

Lemma digit_loop_spec n : forall fuel x buf, (S n <= fuel)%nat -> (length buf + S n <= 20)%nat -> 0 <= x < base ^ Z.of_nat (S n) ->
  exists ds, digit_loop digits fuel base x buf = Some (buf ++ map digit_char (reverse ds)) /\ numeral base x ds /\ (length ds <= S n)%nat.
Proof.
  induction n as [|n IH]; intros fuel x buf Hf Hb Hx; (destruct fuel as [|fuel]; [lia|]); cbn [digit_loop]; unfold push;
    (destruct (Nat.ltb_spec (length buf) 20); [|lia]); cbn [mbind option_bind]; pose proof (Z.mod_pos_bound x base ltac:(lia)) as Hm; pose proof (Z.div_mod x base ltac:(lia)) as Hd.
  all: destruct (Z.eqb_spec (x / base) 0) as [Ez|Hnz]; cbn [negb].
  1, 3: exists [x mod base]; split; [done|]; split; [|simpl; lia]; split; [unfold value; simpl; lia | by constructor | done | by intros [= ->]].
  - exfalso. apply Hnz, Z.div_small. change (Z.of_nat 1) with 1 in Hx. lia.
  - assert (Hq : 0 <= x / base < base ^ Z.of_nat (S n)).
    { split; [apply Z.div_pos; lia|]. apply Z.div_lt_upper_bound; [lia|]. rewrite <- Z.pow_succ_r by lia. replace (Z.succ (Z.of_nat (S n))) with (Z.of_nat (S (S n))) by lia. lia. }
    destruct (IH fuel (x / base) (buf ++ [digit_char (x mod base)])) as (ds & -> & [V D S L] & Hl); [lia | rewrite length_app; simpl; lia | done|].
    exists (ds ++ [x mod base]). split; [|split; [split|]].
    + rewrite reverse_app. cbn [reverse rev_append map app]. by rewrite <- app_assoc.
    + rewrite value_snoc, V. lia.
    + apply Forall_app. split; [done | by constructor].
    + by destruct ds.
    + destruct ds as [|d ds]; [done|]. cbn [head app] in *. intros Hz. specialize (L Hz). injection L as -> ->. unfold value in V. simpl in V. lia.
    + rewrite length_app. simpl. lia.
Qed.

(** The integer [z] in characters. *)
Definition shown (z : Z) (out : list Z) : Prop :=
  exists ds, numeral base (Z.abs z) ds /\ out = (if z <? 0 then [code "-"] else []) ++ map digit_char ds.

Lemma pow_more n : 0 <= n -> 10 ^ n <= base ^ n.
Proof. intros Hn. apply Z.pow_le_mono_l. lia. Qed.

(** The buffer is large enough for every integer. *)
Lemma printint_signed xx : - 2 ^ 63 <= xx < 2 ^ 63 -> exists out, printint digits xx base true = Some out /\ shown xx out.
Proof.
  intros Hx. unfold printint. cbn [andb]. assert (Hu : u64 (if xx <? 0 then - xx else xx) = Z.abs xx).
  { unfold u64. destruct (Z.ltb_spec xx 0); rewrite Z.mod_small by lia; lia. }
  rewrite Hu. pose proof (pow_more 19 ltac:(lia)). assert (10 ^ 19 = 10000000000000000000) by reflexivity.
  destruct (digit_loop_spec 18 21 (Z.abs xx) []) as (ds & -> & Hn & Hl); [lia | simpl; lia | change (Z.of_nat 19) with 19; lia|]. cbn [mbind option_bind app].
  assert (Hr : reverse (map digit_char (reverse ds)) = map digit_char ds) by (change (map digit_char (reverse ds)) with (digit_char <$> reverse ds); by rewrite fmap_reverse, reverse_involutive).
  destruct (Z.ltb_spec xx 0).
  - unfold push. change (map digit_char (reverse ds)) with (digit_char <$> reverse ds) at 1. rewrite length_fmap, length_reverse. destruct (Nat.ltb_spec (length ds) 20); [|lia].
    cbn [mbind option_bind]. eexists. split; [done|]. exists ds. split; [done|]. destruct (Z.ltb_spec xx 0); [|lia]. rewrite reverse_app, Hr. done.
  - eexists. split; [done|]. exists ds. split; [done|]. destruct (Z.ltb_spec xx 0); [lia|]. by rewrite Hr.
Qed.

Lemma printint_unsigned xx : exists out, printint digits xx base false = Some out /\ shown (u64 xx) out.
Proof.
  unfold printint. cbn [andb]. pose proof (Z.mod_pos_bound xx (2 ^ 64) ltac:(lia)) as Hx. fold (u64 xx) in Hx. pose proof (pow_more 20 ltac:(lia)).
  assert (10 ^ 20 = 100000000000000000000) by reflexivity.
  destruct (digit_loop_spec 19 21 (u64 xx) []) as (ds & -> & Hn & Hl); [lia | simpl; lia | change (Z.of_nat 20) with 20; lia|]. cbn [mbind option_bind app].
  eexists. split; [done|]. exists ds. rewrite Z.abs_eq by lia. split; [done|]. destruct (Z.ltb_spec (u64 xx) 0); [lia|].
  change (map digit_char (reverse ds)) with (digit_char <$> reverse ds). by rewrite fmap_reverse, reverse_involutive.
Qed.
End Numbers.

Lemma value_cons base d ds : value base (d :: ds) = d * base ^ Z.of_nat (length ds) + value base ds.
Proof.
  induction ds as [|e ds IH] using rev_ind; [unfold value; simpl; lia|]. rewrite app_comm_cons, !value_snoc, IH, length_app. cbn [length].
  rewrite Nat2Z.inj_add, Z.pow_add_r by lia. change (base ^ Z.of_nat 1) with (base ^ 1). rewrite Z.pow_1_r. lia.
Qed.

(** The sixteen digits of a pointer. *)
Lemma ptr_loop_spec digits n : (n <= 16)%nat -> forall x, 0 <= x < 2 ^ 64 ->
  exists ds, ptr_loop digits n x = map (digit_char digits) ds /\ length ds = n /\ Forall (fun d => 0 <= d < 16) ds /\ value 16 ds = x / 16 ^ (16 - Z.of_nat n).
Proof.
  induction n as [|n IH]; intros Hn x Hx; cbn [ptr_loop].
  { exists []. split_and!; try done. change (16 ^ (16 - Z.of_nat 0)) with (2 ^ 64). by rewrite Z.div_small. }
  rewrite Z.shiftr_div_pow2, Z.shiftl_mul_pow2 by lia. change (2 ^ 4) with 16. pose proof (Z.div_mod x (2 ^ 60) ltac:(lia)) as Hd. pose proof (Z.mod_pos_bound x (2 ^ 60) ltac:(lia)) as Hr.
  set (d := x / 2 ^ 60) in *. set (r := x mod 2 ^ 60) in *. assert (Hdr : 0 <= d < 16) by (split; [apply Z.div_pos; lia | apply Z.div_lt_upper_bound; lia]).
  assert (Hu : u64 (x * 16) = r * 16) by (unfold u64; symmetry; apply (Z.mod_unique (x * 16) (2 ^ 64) d); lia). rewrite Hu.
  destruct (IH ltac:(lia) (r * 16) ltac:(lia)) as (ds & -> & Hl & Hds & Hv). exists (d :: ds). split; [done|]. split; [simpl; lia|]. split; [by constructor|].
  rewrite value_cons, Hl, Hv. replace (16 - Z.of_nat n) with (Z.succ (16 - Z.of_nat (S n))) by lia. rewrite Z.pow_succ_r, (Z.mul_comm r) by lia.
  rewrite Z.div_mul_cancel_l by lia. rewrite Hd. replace (2 ^ 60) with (16 ^ Z.of_nat n * 16 ^ (16 - Z.of_nat (S n))) by (rewrite <- Z.pow_add_r by lia; replace (Z.of_nat n + (16 - Z.of_nat (S n))) with 15 by lia; reflexivity).
  set (q := 16 ^ (16 - Z.of_nat (S n))) in *. assert (0 < q) by (apply Z.pow_pos_nonneg; lia).
  replace (16 ^ Z.of_nat n * q * d + r) with (d * 16 ^ Z.of_nat n * q + r) by lia. by rewrite Z.div_add_l by lia.
Qed.

(** ** What a format means *)
Inductive width := W32 | W64 | WLL.
Inductive piece := Lit (c : ascii) | Percent | Dec (w : width) | Uns (w : width) | Hex (w : width) | Pointer | Char | Text.

Definition letters (w : width) : cstr := match w with W32 => [] | W64 => str "l" | WLL => str "ll" end.
Definition text (p : piece) : cstr :=
  match p with
  | Lit c => [c]
  | Percent => str "%%"
  | Dec w => str "%" ++ letters w ++ str "d"
  | Uns w => str "%" ++ letters w ++ str "u"
  | Hex w => str "%" ++ letters w ++ str "x"
  | Pointer => str "%p"
  | Char => str "%c"
  | Text => str "%s"
  end.
Definition format (ps : list piece) : cstr := ps ≫= text.

(** The integer a register is taken for. *)
Definition signed (w : width) (z : Z) : Z := match w with W32 => i32 z | _ => i64 z end.
Definition unsigned (w : width) (z : Z) : Z := match w with W32 => u32 z | _ => u64 z end.

(** A piece with the arguments before and after it, and what it prints. *)
Inductive shows (digits : cstr) : piece -> list vararg -> list vararg -> list Z -> Prop :=
  | sh_lit c args : c <> "%"%char -> c <> NUL -> shows digits (Lit c) args args [code c]
  | sh_percent args : shows digits Percent args args [code "%"]
  | sh_dec w z args out : shown digits 10 (signed w z) out -> shows digits (Dec w) (Reg z :: args) args out
  | sh_uns w z args out : shown digits 10 (unsigned w z) out -> shows digits (Uns w) (Reg z :: args) args out
  | sh_hex w z args out : shown digits 16 (unsigned w z) out -> shows digits (Hex w) (Reg z :: args) args out
  | sh_ptr z args ds : length ds = 16%nat -> Forall (fun d => 0 <= d < 16) ds -> value 16 ds = u64 z ->
      shows digits Pointer (Reg z :: args) args (code "0" :: code "x" :: map (digit_char digits) ds)
  | sh_char z args : shows digits Char (Reg z :: args) args [u32 z]
  | sh_text s args : shows digits Text (Ptr s :: args) args (code <$> default (str "(null)") s).

Inductive shows_all (digits : cstr) : list piece -> list vararg -> list Z -> Prop :=
  | sa_nil args : shows_all digits [] args []
  | sa_cons p ps args args' out out' : shows digits p args args' out -> shows_all digits ps args' out' -> shows_all digits (p :: ps) args (out ++ out').

(** The arguments are of the kinds the format wants. *)
Fixpoint wants (ps : list piece) (args : list vararg) : bool :=
  match ps with
  | [] => true
  | Lit c :: ps' => negb (ceq c "%") && negb (ceq c NUL) && wants ps' args
  | Percent :: ps' => wants ps' args
  | Text :: ps' => match args with Ptr _ :: args' => wants ps' args' | _ => false end
  | _ :: ps' => match args with Reg _ :: args' => wants ps' args' | _ => false end
  end.

Lemma signed_range w z : - 2 ^ 63 <= signed w z < 2 ^ 63.
Proof.
  destruct w; cbn [signed]; [pose proof (i32_range z) as H; unfold in_i32 in H; lia | ..];
    unfold i64; pose proof (Z.mod_pos_bound (z + 2 ^ 63) (2 ^ 64) ltac:(lia)); lia.
Qed.

Lemma u64_u32 z : u64 (u32 z) = u32 z.
Proof. unfold u64. pose proof (u32_range z) as H. unfold in_u32 in H. apply Z.mod_small. lia. Qed.

Lemma u64_i64 z : u64 (i64 z) = u64 z.
Proof. unfold u64, i64. rewrite Zminus_mod, Z.mod_mod, <- Zminus_mod by lia. f_equal. lia. Qed.

Lemma unsigned_out digits base w z : 10 <= base ->
  exists out, printint digits (match w with W32 => u32 z | _ => i64 z end) base false = Some out /\ shown digits base (unsigned w z) out.
Proof.
  intros Hb. destruct (printint_unsigned digits base Hb (match w with W32 => u32 z | _ => i64 z end)) as (out & E & H). exists out. split; [done|].
  by destruct w; rewrite ?u64_u32, ?u64_i64 in H.
Qed.

Definition is_lit (p : piece) : bool := match p with Lit _ => true | _ => false end.

Lemma conversion_spec digits p args more : is_lit p = false -> wants [p] args = true ->
  exists c0 tl out args', text p = "%"%char :: c0 :: tl /\ conversion digits c0 (next1 (tl ++ more)) (next2 (tl ++ more)) args = Some (out, length tl, args') /\
    shows digits p args args' out /\ forall ps, wants (p :: ps) args = wants ps args'.
Proof.
  intros Hp Hw. destruct p as [c| |w|w|w| | |]; [done|..]; cbn [wants] in Hw.
  1: eexists "%"%char, [], _, args; split_and!; [done | done | constructor | done].
  all: destruct args as [|[z|s] args]; try discriminate Hw.
  1: destruct (printint_signed digits 10 ltac:(lia) _ (signed_range w z)) as (out & E & H).
  2: destruct (unsigned_out digits 10 w z ltac:(lia)) as (out & E & H).
  3: destruct (unsigned_out digits 16 w z ltac:(lia)) as (out & E & H).
  1-3: destruct w; eexists _, _, out, args; (split; [reflexivity|]); (split; [|split; [by constructor | done]]);
    unfold conversion, next1, next2, char_at; cbn; cbn in E; rewrite E; reflexivity.
  - destruct (ptr_loop_spec digits 16 ltac:(lia) (u64 z)) as (ds & E & Hl & Hd & Hv); [apply Z.mod_pos_bound; lia|].
    eexists "p"%char, [], _, args. split; [done|]. split; [done|]. split; [|done]. unfold printptr. rewrite E. constructor; [done | done|].
    rewrite Hv. change (16 ^ (16 - Z.of_nat 16)) with 1. apply Z.div_1_r.
  - eexists "c"%char, [], _, args. split; [done|]. split; [done|]. split; [constructor | done].
  - eexists "s"%char, [], _, args. split; [done|]. split; [done|]. split; [constructor | done].
Qed.

Lemma wants_head p ps args : wants (p :: ps) args = true -> wants [p] args = true.
Proof. destruct p; cbn [wants]; rewrite ?andb_true_r; try done; try (intros H; by apply andb_true_iff in H as [? _]); destruct args as [|[]]; done. Qed.

(** One piece of the format in each of the two loops. *)
Lemma vprintf_loop_spec ps : forall fuel args, wants ps args = true -> (length (format ps) <= fuel)%nat ->
  exists out, vprintf_loop fuel (format ps) false args = Some out /\ shows_all user_digits ps args out.
Proof.
  induction ps as [|p ps IH]; intros fuel args Hw Hf; [exists []; split; [by destruct fuel | constructor]|]. cbn [format mbind list_bind] in *. fold (format ps) in *.
  rewrite length_app in Hf. destruct (is_lit p) eqn:El.
  - destruct p as [c| | | | | | |]; try discriminate El. cbn [wants] in Hw. apply andb_true_iff in Hw as [[Hc Hc0]%andb_true_iff Hw]. destruct fuel as [|fuel]; [simpl in Hf; lia|].
    destruct (IH fuel args Hw) as (out & E & H); [simpl in Hf; lia|]. cbn [text app vprintf_loop negb]. apply negb_true_iff in Hc, Hc0. rewrite Hc, E. cbn [mbind option_bind].
    exists (code c :: out). split; [done|]. apply (sa_cons _ _ _ _ args [code c]); [|done]. constructor; intros ->; [by rewrite ceq_refl in Hc | by rewrite ceq_refl in Hc0].
  - destruct (conversion_spec user_digits p args (format ps) El (wants_head _ _ _ Hw)) as (c0 & tl & out & args' & Et & Ec & Hs & Hws). rewrite Et in *. cbn [length] in Hf.
    destruct fuel as [|[|fuel]]; [lia | lia|]. destruct (IH fuel args') as (out' & E & H); [by rewrite <- Hws | lia|]. cbn [app vprintf_loop negb]. rewrite ceq_refl.
    rewrite Ec. cbn [mbind option_bind]. rewrite drop_app_length, E. cbn [mbind option_bind]. eexists. split; [done|]. by econstructor.
Qed.

Lemma printk_loop_spec ps : forall fuel args, wants ps args = true -> (length (format ps) <= fuel)%nat ->
  exists out, printk_loop fuel (format ps) args = Some out /\ shows_all kernel_digits ps args out.
Proof.
  induction ps as [|p ps IH]; intros fuel args Hw Hf; [exists []; split; [by destruct fuel | constructor]|]. cbn [format mbind list_bind] in *. fold (format ps) in *.
  rewrite length_app in Hf. destruct (is_lit p) eqn:El.
  - destruct p as [c| | | | | | |]; try discriminate El. cbn [wants] in Hw. apply andb_true_iff in Hw as [[Hc Hc0]%andb_true_iff Hw]. destruct fuel as [|fuel]; [simpl in Hf; lia|].
    destruct (IH fuel args Hw) as (out & E & H); [simpl in Hf; lia|]. cbn [text app printk_loop]. rewrite Hc, E. cbn [mbind option_bind]. apply negb_true_iff in Hc, Hc0.
    exists (code c :: out). split; [done|]. apply (sa_cons _ _ _ _ args [code c]); [|done]. constructor; intros ->; [by rewrite ceq_refl in Hc | by rewrite ceq_refl in Hc0].
  - destruct (conversion_spec kernel_digits p args (format ps) El (wants_head _ _ _ Hw)) as (c0 & tl & out & args' & Et & Ec & Hs & Hws). rewrite Et in *. cbn [length] in Hf.
    destruct fuel as [|fuel]; [lia|]. destruct (IH fuel args') as (out' & E & H); [by rewrite <- Hws | lia|]. cbn [app printk_loop]. rewrite ceq_refl. cbn [negb].
    rewrite Ec. cbn [mbind option_bind]. rewrite drop_app_length, E. cbn [mbind option_bind]. eexists. split; [done|]. by econstructor.
Qed.

(** [printf] and [printk] print what the format says.  For every format made
    of text, percents and the conversions %d, %u, %x with or without l or ll,
    %p, %c and %s, and arguments of the kinds it wants, both stay within their
    buffer of twenty digits, use the arguments in order, and print the text as
    it is, integers of the width named by the conversion as numerals in their
    base without leading zeroes and with their sign, the most negative one
    included, pointers as 0x and sixteen digits, and (null) for a null string;
    the user library in upper case, the kernel in lower case. *)
Theorem printf_prints ps args : wants ps args = true ->
  (exists out, vprintf (format ps) args = Some (map chr out) /\ shows_all user_digits ps args out) /\
  (exists out, printk (format ps) args = Some (flat_map consputc out) /\ shows_all kernel_digits ps args out).
Proof.
  intros Hw. destruct (vprintf_loop_spec ps _ args Hw (le_n _)) as (out & E & H). destruct (printk_loop_spec ps _ args Hw (le_n _)) as (kout & Ek & Hk).
  unfold vprintf, printk. rewrite E, Ek. split; eauto.
Qed.

Lemma printf_prints_witness : wants [Dec W32; Lit ","%char; Hex W64] [Reg (-1); Reg 255] = true /\
  exists out, vprintf (str "%d,%lx") [Reg (-1); Reg 255] = Some (map chr out).
Proof.
  split; [reflexivity|]. destruct (printf_prints [Dec W32; Lit ","%char; Hex W64] [Reg (-1); Reg 255] eq_refl) as [(out & E & _) _]. exists out. exact E.
Defined.

(** ** Reading a number back (ulib.c: atoi) *)
Lemma user_digit d : 0 <= d < 10 -> code (chr (digit_char user_digits d)) = 48 + d.
Proof.
  intros Hd. assert (d = 0 \/ d = 1 \/ d = 2 \/ d = 3 \/ d = 4 \/ d = 5 \/ d = 6 \/ d = 7 \/ d = 8 \/ d = 9) as Hc by lia.
  repeat destruct Hc as [->|Hc]; try reflexivity. subst d. reflexivity.
Qed.

Lemma atoi_digits ds : forall n, Forall (fun d => 0 <= d < 10) ds -> 0 <= n -> n * 10 ^ Z.of_nat (length ds) + value 10 ds < 2 ^ 31 ->
  atoi_loop (map chr (map (digit_char user_digits) ds)) n = n * 10 ^ Z.of_nat (length ds) + value 10 ds.
Proof.
  induction ds as [|d ds IH]; intros n Hd Hn Hlt; cbn [map atoi_loop length]; [unfold value; simpl; lia|]. apply Forall_cons in Hd as [Hd Hds].
  rewrite user_digit by done. change (code "0") with 48. change (code "9") with 57. destruct (Z.leb_spec 48 (48 + d)), (Z.leb_spec (48 + d) 57); try lia. cbn [andb].
  rewrite value_cons in *. cbn [length] in Hlt. rewrite Nat2Z.inj_succ, Z.pow_succ_r in * by lia. set (q := 10 ^ Z.of_nat (length ds)) in *. assert (Hq : 0 < q) by (apply Z.pow_pos_nonneg; lia).
  pose proof (value_nonneg 10 ds ltac:(lia) Hds) as Hv. assert (Hs : n * 10 + d < 2 ^ 31) by nia.
  replace (n * 10 + (48 + d) - 48) with (n * 10 + d) by lia. rewrite i32_id by (unfold in_i32; lia). rewrite IH; [lia | done | lia | lia].
Qed.

Theorem print_read z : 0 <= z < 2 ^ 31 -> atoi <$> vprintf (str "%d") [Reg z] = Some z.
Proof.
  intros Hz. destruct (vprintf_loop_spec [Dec W32] 2 [Reg z] eq_refl ltac:(simpl; lia)) as (out & E & H). unfold vprintf. change (format [Dec W32]) with (str "%d") in E.
  change (length (str "%d")) with 2%nat. rewrite E. cbn [fmap option_fmap option_map]. f_equal. inversion H as [|p ps args args' o o' Hs Hn]; subst. inversion Hn; subst.
  inversion Hs as [| |w z' args0 o0 Hsh | | | | |]; subst. destruct Hsh as (ds & [V D _ _] & ->). cbn [signed] in *. rewrite i32_id in * by (unfold in_i32; lia).
  destruct (Z.ltb_spec z 0); [lia|]. rewrite app_nil_r. cbn [app]. unfold atoi. rewrite atoi_digits by (done || lia). lia.
Qed.
